(* ===== verification/_CoqProject ===== *)
-Q . S2P
Prelude.v
Protocol.v
ByteOrder.v
WireFrames.v
WireAck.v
WireHeader.v
Frame.v
AckRecv.v
MinMax.v
Float.v
Rounding.v
RttStats.v
SendAlgorithm.v
SlowStart.v
Cbrt.v
Cubic.v
CubicSender.v
Olia.v
OliaSender.v
AckSent.v
DefaultHandler.v
Handshake.v
ConnParams.v
FlowControl.v
StreamFrameSorter.v
Stream.v
StreamsMap.v
StreamFramer.v
PacketNumberGenerator.v
Path.v
PacketPacker.v
Routing.v
Session.v
Timer.v
Scheduler.v
Amf.v
AmfRoundtrip.v
Pio.v
Chunk.v
ChunkDelivery.v
Sha256.v
RtmpHandshake.v
RtmpCommands.v
RtmpSession.v
Media.v
Ts.v
StreamCache.v
Relay.v
LiveProxy.v
Flv.v
Hls.v
