(* ===== verification/Prelude.v ===== *)
(** * AggDeliv: a verification development of the MP-QUIC transport

    AggDeliv delivers live video over several network paths at once.  Its
    transport, src/mpquic_trans, is a multipath QUIC in Go: a session owns several
    paths; each path numbers, tracks and acknowledges its own packets and has its
    own congestion controller and round trip statistics; streams are shared by the
    paths and protected by flow control; a scheduler chooses the path of every
    packet.  This library models the protocol from the bytes of a frame to the run
    loop of a session as functions and proves it correct.

    ** How Go is modelled

    This file holds what all others share.  Machine integers are [Z] with their
    wrap-around written out.  A function that fails or changes its receiver is a
    computation [GoM S A := S -> outcome A * S]; an [outcome] is a result, an error
    or a panic, and the state reached survives an error.  A reader is the list of
    bytes left, a writer the list of bytes written.  [r <| f := v |>] is the
    assignment [r.f = v].  Every reading of the clock is an argument, and so is the
    order in which Go ranges over a map where it matters; a session takes them from
    an interface, [Env], one for every use.  Locks are not modelled: the methods
    hold one from start to end.  Code that is not part of the sources (the AEAD,
    the random source, sockets) is an argument or an interface.

    ** The files and what they show

    - Protocol: internal/protocol and qerr (numbers, versions, error codes).
      Inference of a truncated packet number from the last one.
    - ByteOrder: internal/utils/byteorder*.go, float16.go.  Integers of every
      width read back as written; the precision of 16-bit floats.
    - WireFrames, WireAck, WireHeader: internal/wire.  Every frame and the public
      header: what is written is parsed back, parsing any bytes is safe, an
      accepted frame is well formed; packet numbers survive the wire.
    - Frame: packet_unpacker.go.  Any payload is unpacked without a panic; what is
      packed is unpacked, for any AEAD that opens what it sealed.
    - AckRecv: ackhandler/received_packet_*.go.  A refinement: the ranges kept
      implement the set of packets received, and ACK frames report exactly it.
    - MinMax, Float, Rounding, Cbrt: internal/utils/minmax.go; Go's float32 and
      float64 on the Standard Library's binary floats, with lemmas on when nothing
      is rounded and on the error when something is; math.Cbrt.
    - RttStats: congestion/rtt_stats.go.  The averages stay within the
      measurements; minRTT is the minimum.
    - SendAlgorithm: congestion/interface.go as a type class.
    - SlowStart: hybrid_slow_start.go and prr_sender.go.  When slow start is left,
      and the bound of proportional rate reduction.
    - Cubic, CubicSender: congestion/cubic.go, cubic_sender.go, bandwidth.go.  The
      target follows the cubic curve, the estimate loop ends, the window stays
      within its bounds over any run.
    - Olia, OliaSender: congestion/olia.go, olia_sender.go.  The shares of the
      paths add up to zero, and the windows of coupled senders stay in bounds.
    - AckSent, DefaultHandler: ackhandler/sent_packet_handler.go, packet.go and
      stop_waiting_manager.go, for every congestion controller, and with Cubic's.
      Over any sequence of operations no packet is lost from the books; exact
      effect of an ACK; progress of alarms; bounds of the timeout.
    - Handshake, ConnParams: handshake_message.go, public_reset.go and
      connection_parameters_manager.go.  Round trips, safe parsing, negotiation.
    - FlowControl: internal/flowcontrol.  Over any run of the manager, the
      connection's counters are the sums of the streams', neither side exceeds a
      window, and announced windows do not shrink.
    - StreamFrameSorter: stream_frame_sorter.go.  Frames in any order, overlapping
      and repeated, are delivered as the stream they were cut from, and nothing
      that arrived is stuck.
    - Stream, StreamsMap: stream.go, streams_map.go.  A reader gets the bytes of
      the stream in order; a stream that was closed is never opened again.
    - StreamFramer, PacketNumberGenerator, Path, PacketPacker: the way of the data
      into packets.  The frames of a stream are consecutive pieces of what was
      written, within the windows; a packet has the frames that it should and fits.
    - Routing: the packet handlers of server.go and client.go.  A packet that one
      side packs is delivered to the path of the other with the same frames; any
      bytes that arrive are routed without a panic.
    - Session: session.go and path_manager.go.  The invariant of a session holds
      through every sequence of packets, timers and handshake events that it receives
      from an honest peer, and nothing panics ([session_survives]); what it sends in
      between is not part of that theorem, nor is a client that opens paths when it
      gets an ADD_ADDRESS frame.
    - Timer: internal/utils/timer.go.  A reset never hangs; a new deadline fires.
    - Scheduler: scheduler.go and the turn of the session's run loop.  No data that
      must be retransmitted is lost, what the selection of a path may give, and
      when the session closes by itself.
    - Amf: liveproxy/protocol/amf, the values that RTMP commands are made of.
      AmfRoundtrip: what a batch of values encodes to is decoded to the same values,
      in both versions, and decoding ends for all bytes.  A decoder has as fuel one
      more than the bytes left, and every value takes at least one.
    - Pio: liveproxy/utils/pio, integers in byte slices.
      Chunk: liveproxy/protocol/rtmp/core, the chunks that messages are cut into, the
      buffered connection and its control messages, and liveproxy/utils/pool.
      ChunkDelivery: what one side writes the other reads, and reading ends for all
      bytes.  [read_message] has as fuel one more than the bytes left.
    - Sha256: SHA-256 and HMAC, of which the lengths and test vectors are checked.
      RtmpHandshake: handshake.go of the same package over them, and what a server
      answers to any client.
    - RtmpCommands: conn_server.go and conn_client.go of the same package, the commands
      that start a session.  RtmpSession: a client and a server that read what the
      other has written agree on what is published.
    - Media: liveproxy/av, container/flv (tag.go, demuxer.go) and parser: media packets,
      their headers and what the codecs make of them.
      Ts: liveproxy/container/ts, the packets of a transport stream, their checksums, and
      that a reader gets back what was packed.  The loops have as fuel the bytes that
      are left.
    - StreamCache: liveproxy/protocol/rtmp/cache, what a new player is sent first.
      Relay: liveproxy/av/rwbase.go and rtmp.go, stream.go of liveproxy/protocol/rtmp,
      the queues of the players and the relay of packets to them.  A player is an
      instance of the class [Player] with [PlayerLaws], of which [VirWriter] is one.
    - LiveProxy: test/liveclient.go and test/liveserver.go, the two ends of the proxy, over
      a stream whose reads may be cut short.  [read_rest] has as fuel the bytes left.
    - Flv: container/flv/muxer.go and protocol/httpflv/writer.go of liveproxy, and that a
      reader finds the packets in what they write.
    - Hls: liveproxy/protocol/hls, the segments that a stream is cut into, the cache of the
      last three and the answers to requests for them.
    Some files end with lemmas on behaviour that differs from what a comment or a
    name says.

    ** Bounds and fuel

    Recursion that is not structural has fuel, and a theorem that it is enough:
    [read_frames] has one more than the bytes of the payload; [retransmit_loop] one
    more than the packets queued; the estimate loop of Cubic and the loops that read
    a stream and open streams have a measure.  [send_loop] sends until the windows
    are full or nothing is left; its fuel is the number of packets that one call may
    send, and no theorem is claimed about it.
    Bounds in hypotheses keep 64-bit sums from wrapping: 2^61 for packet numbers
    sent, 2^62 bytes read from a stream, streams shorter than
    2^63 bytes and windows up to 2^61, 2^62 calls of a congestion controller, 2^40
    control frames.  Packets received have numbers below 2^48 and an ACK frame that is
    packed acknowledges packets below 2^32, so that its length is what [MinLength]
    says; the curve of Cubic is within 240 s of its origin, and a sender emulates at
    most 1024 connections.
    Theorems on runs end a run where the session closes the connection: at a flow
    control violation and at too many gaps.

    ** Not modelled

    Goroutines other than as sequences of the steps that they take; sockets
    (conn.go, pconn_manager.go); cryptography and the state machines of the
    cryptographic handshake, which call libraries that are not part of the sources:
    the keys they make are given to the session as they change; [selectPathProper] of the
    scheduler, which is not called, and [InteractWithModel] of the session, which
    asks a remote service for the probabilities of the paths; HTTP, the rest of the live
    streaming proxy, generated code and the
    Python scheduling service. *)

From stdpp Require Export base list numbers option tactics strings gmap.
From Stdlib Require Export ZArith Lia Sorting.Sorted.

#[global] Open Scope Z_scope.

(** ** Machine integers

    A Go integer of width [w] is a [Z]; every operation that can leave the
    range writes its wrap-around ([u8], [u16], [u32], [u64] for the unsigned
    types, [i8], [i16] and [i32] for the signed ones, [i64] for [int], [int64] and
    [time.Duration]). *)

Definition wrap (w z : Z) : Z := z mod 2 ^ w.
Definition u8 (z : Z) : Z := z mod 256.
Definition u16 (z : Z) : Z := z mod 65536.
Definition u32 (z : Z) : Z := z mod 4294967296.
Definition u64 (z : Z) : Z := z mod 18446744073709551616.
Definition i8 (z : Z) : Z := (z + 128) mod 256 - 128.
Definition i16 (z : Z) : Z := (z + 32768) mod 65536 - 32768.
Definition i32 (z : Z) : Z := (z + 2147483648) mod 4294967296 - 2147483648.
Definition i64 (z : Z) : Z := (z + 9223372036854775808) mod 18446744073709551616 - 9223372036854775808.

(** Go's [x << n] on a [uint64]: the bits above 64 are lost, a count of 64 or
    more gives zero. *)
Definition shl64 (x n : Z) : Z := u64 (Z.shiftl x n).

Definition byte_ok (b : Z) : Prop := 0 <= b < 256.
Definition bytes_ok (bs : list Z) : Prop := Forall byte_ok bs.

(** [len] of a Go slice or string. *)
Definition zlen {A} (l : list A) : Z := Z.of_nat (length l).

(** ** Errors, panics and the monad of Go code

    [error] collects the error values the program builds: the two of package
    io, [errors.New], [fmt.Errorf], a bare [qerr.ErrorCode] used as an error and
    [qerr.Error(code, msg)]; the arguments of a formatted message are kept
    beside the format, [qerr_Wrap code e] is [qerr.Error(code, e.Error())], and
    [fmt_Wrap format e] is [fmt.Errorf(format, e)].  A run-time or explicit panic is an
    outcome of its own. *)

Inductive error :=
  | io_EOF
  | io_ErrUnexpectedEOF
  | errors_New (msg : string)
  | fmt_Errorf (format : string) (args : list Z)
  | qerr_Code (code : Z)
  | qerr_Error (code : Z) (msg : string) (args : list Z)
  | qerr_Wrap (code : Z) (inner : error)
  | fmt_Wrap (format : string) (inner : error).

#[global] Instance error_eq_dec : EqDecision error.
Proof. solve_decision. Defined.

Inductive outcome (A : Type) :=
  | Ok (a : A)
  | Err (e : error)
  | Panic (msg : string).
Arguments Ok {A} a.
Arguments Err {A} e.
Arguments Panic {A} msg.

#[global] Instance outcome_eq_dec `{EqDecision A} : EqDecision (outcome A).
Proof. solve_decision. Defined.

(** A statement of a Go function: it reads and changes a state [S] and returns,
    fails or panics.  The state reached so far survives an error, as a mutated
    receiver does. *)
Definition GoM (S A : Type) : Type := S -> outcome A * S.

#[global] Instance GoM_ret S : MRet (GoM S) := fun A a s => (Ok a, s).
#[global] Instance GoM_bind S : MBind (GoM S) := fun A B k m s =>
  match m s with
  | (Ok a, s') => k a s'
  | (Err e, s') => (Err e, s')
  | (Panic p, s') => (Panic p, s')
  end.

Definition fail {S A} (e : error) : GoM S A := fun s => (Err e, s).
Definition panic {S A} (p : string) : GoM S A := fun s => (Panic p, s).
Definition getS {S} : GoM S S := fun s => (Ok s, s).
Definition putS {S} (s' : S) : GoM S unit := fun _ => (Ok tt, s').
Definition modifyS {S} (f : S -> S) : GoM S unit := fun s => (Ok tt, f s).
Definition lift {S A} (o : outcome A) : GoM S A := fun s => (o, s).
Definition guard {S} (b : bool) (e : error) : GoM S unit :=
  if b then mret tt else fail e.

Section Monad.
Context {S A B : Type}.
Implicit Types (m : GoM S A) (k : A -> GoM S B) (s : S).

Lemma run_bind_ok m k s a s' : m s = (Ok a, s') -> (m ≫= k) s = k a s'.
Proof. intros E. unfold mbind, GoM_bind. by rewrite E. Qed.

Lemma run_bind_err m k s e s' : m s = (Err e, s') -> (m ≫= k) s = (Err e, s').
Proof. intros E. unfold mbind, GoM_bind. by rewrite E. Qed.

Lemma run_bind_panic m k s p s' : m s = (Panic p, s') -> (m ≫= k) s = (Panic p, s').
Proof. intros E. unfold mbind, GoM_bind. by rewrite E. Qed.

Lemma run_bind_inv_ok m k s b s' :
  (m ≫= k) s = (Ok b, s') -> exists a s1, m s = (Ok a, s1) /\ k a s1 = (Ok b, s').
Proof.
  unfold mbind, GoM_bind. destruct (m s) as [[a|e|p] s1] eqn:E; naive_solver.
Qed.

(** A computation that cannot panic, from any state satisfying [P]. *)
Definition no_panic (m : GoM S A) (s : S) : Prop := forall p s', m s <> (Panic p, s').

Lemma no_panic_ret (a : A) s : no_panic (mret a) s.
Proof. unfold no_panic, mret, GoM_ret. congruence. Qed.

Lemma no_panic_fail e s : @no_panic (fail e) s.
Proof. unfold no_panic, fail. congruence. Qed.
End Monad.

Lemma no_panic_bind {S A B} (m : GoM S A) (k : A -> GoM S B) s :
  no_panic m s -> (forall a s', m s = (Ok a, s') -> no_panic (k a) s') -> no_panic (m ≫= k) s.
Proof.
  intros Hm Hk p s'. unfold mbind, GoM_bind.
  destruct (m s) as [[a|e|q] s1] eqn:E; [by apply Hk| congruence |].
  by destruct (Hm q s1).
Qed.

(** [run] exposes the monadic structure of a definition to [cbn]. *)
Ltac unfold_go :=
  unfold mbind, GoM_bind, mret, GoM_ret, fail, panic, getS, putS, modifyS, lift, guard in *.
Ltac run := unfold_go; cbn beta iota in *.

(** ** bytes.Reader and bytes.Buffer

    A [bytes.Reader] is the list of the bytes not read yet, a [bytes.Buffer]
    that is only written the list of the bytes written so far. *)

Abbreviation Reader := (GoM (list Z)).
Abbreviation Writer := (GoM (list Z) unit).

Definition ReadByte : Reader Z := fun r =>
  match r with
  | [] => (Err io_EOF, [])
  | b :: r' => (Ok b, r')
  end.

(** [r.Len()] *)
Definition Reader_Len : Reader Z := fun r => (Ok (zlen r), r).

(** [io.ReadFull(r, make([]byte, n))] *)
Definition ReadFull (n : Z) : Reader (list Z) := fun r =>
  if n <=? 0 then (Ok [], r)
  else if n <=? zlen r then (Ok (take (Z.to_nat n) r), drop (Z.to_nat n) r)
  else match r with
       | [] => (Err io_EOF, [])
       | _ => (Err io_ErrUnexpectedEOF, [])
       end.

Definition WriteByte (b : Z) : Writer := fun buf => (Ok tt, buf ++ [b]).
Definition WriteBytes (bs : list Z) : Writer := fun buf => (Ok tt, buf ++ bs).

(** [reads r bs a]: in front of any tail, [r] consumes exactly [bs] and returns
    [a].  [writes w bs]: [w] appends exactly [bs] to any buffer. *)
Definition reads {A} (r : Reader A) (bs : list Z) (a : A) : Prop :=
  forall rest, r (bs ++ rest) = (Ok a, rest).
Definition writes (w : Writer) (bs : list Z) : Prop :=
  forall buf, w buf = (Ok tt, buf ++ bs).

Create HintDb codec.
#[export] Hint Constants Opaque : codec.
#[export] Hint Variables Opaque : codec.

Lemma reads_ret {A} (a : A) : reads (mret a) [] a.
Proof. done. Qed.

Lemma reads_bind {A B} (r : Reader A) (k : A -> Reader B) bs1 bs2 a b :
  reads r bs1 a -> reads (k a) bs2 b -> reads (r ≫= k) (bs1 ++ bs2) b.
Proof.
  intros H1 H2 rest. rewrite <- app_assoc.
  by rewrite (run_bind_ok _ _ _ _ _ (H1 _)).
Qed.

Lemma reads_byte b : reads ReadByte [b] b.
Proof. done. Qed.

Lemma reads_full bs n : n = zlen bs -> reads (ReadFull n) bs bs.
Proof.
  intros -> rest. unfold ReadFull, zlen. rewrite Nat2Z.id, length_app.
  destruct (Z.leb_spec (Z.of_nat (length bs)) 0).
  { destruct bs; [done | simpl in *; lia]. }
  destruct (Z.leb_spec (Z.of_nat (length bs)) (Z.of_nat (length bs + length rest))); [|lia].
  by rewrite take_app_length, drop_app_length.
Qed.

Lemma writes_ret : writes (mret tt) [].
Proof. intros b. by rewrite app_nil_r. Qed.

Lemma writes_bind (w : Writer) (k : unit -> Writer) bs1 bs2 :
  writes w bs1 -> writes (k tt) bs2 -> writes (w ≫= k) (bs1 ++ bs2).
Proof.
  intros H1 H2 b. rewrite (run_bind_ok _ _ _ _ _ (H1 _)), H2. by rewrite app_assoc.
Qed.

Lemma writes_byte b : writes (WriteByte b) [b].
Proof. done. Qed.

Lemma writes_bytes bs : writes (WriteBytes bs) bs.
Proof. done. Qed.

(** The same for a writer that also returns a value. *)
Definition emits {A} (m : GoM (list Z) A) (bs : list Z) (a : A) : Prop :=
  forall buf, m buf = (Ok a, buf ++ bs).

Lemma emits_ret {A} (a : A) : emits (mret a) [] a.
Proof. intros b. by rewrite app_nil_r. Qed.

Lemma emits_bind {A B} (m : GoM (list Z) A) (k : A -> GoM (list Z) B) bs1 bs2 a b :
  emits m bs1 a -> emits (k a) bs2 b -> emits (m ≫= k) (bs1 ++ bs2) b.
Proof.
  intros H1 H2 buf. rewrite (run_bind_ok _ _ _ _ _ (H1 _)), H2. by rewrite app_assoc.
Qed.

(** A parser composed with the writer that produced its input. *)
Lemma writes_reads {A} (w : Writer) (r : Reader A) bs a rest :
  writes w bs -> reads r bs a ->
  exists out, w [] = (Ok tt, out) /\ r (out ++ rest) = (Ok a, rest).
Proof. intros Hw Hr. exists bs. split; [apply Hw | apply Hr]. Qed.

(** [safe_read r P]: on any bytes [r] does not panic, leaves no more bytes than
    there were, and a value it returns satisfies [P]; [safe_read1] leaves fewer
    bytes.  Parsers are proved safe by composing this. *)
Definition safe_read {A} (r : Reader A) (P : A -> Prop) : Prop :=
  forall s, bytes_ok s ->
  match r s with
  | (Ok a, s') => bytes_ok s' /\ (length s' <= length s)%nat /\ P a
  | (Err _, s') => bytes_ok s' /\ (length s' <= length s)%nat
  | (Panic _, _) => False
  end.

Definition safe_read1 {A} (r : Reader A) (P : A -> Prop) : Prop :=
  forall s, bytes_ok s ->
  match r s with
  | (Ok a, s') => bytes_ok s' /\ (length s' < length s)%nat /\ P a
  | (Err _, s') => bytes_ok s' /\ (length s' <= length s)%nat
  | (Panic _, _) => False
  end.

Lemma safe_ret {A} (a : A) (P : A -> Prop) : P a -> safe_read (mret a) P.
Proof. intros H s Hs. done. Qed.

Lemma safe_fail {A} e (P : A -> Prop) : safe_read (fail e) P.
Proof. intros s Hs. done. Qed.

Lemma safe_bind {A B} (r : Reader A) (k : A -> Reader B) P Q :
  safe_read r P -> (forall a, P a -> safe_read (k a) Q) -> safe_read (r ≫= k) Q.
Proof.
  intros Hr Hk s Hs. specialize (Hr s Hs). unfold mbind, GoM_bind.
  destruct (r s) as [[a|e|p] s']; [|done|done].
  destruct Hr as (Hs' & Hlen & Ha). specialize (Hk a Ha s' Hs').
  destruct (k a s') as [[b|e|p] s'']; [| |done].
  - destruct Hk as (? & ? & ?). split_and!; [done | lia | done].
  - destruct Hk. split; [done | lia].
Qed.

Lemma safe_weaken {A} (r : Reader A) (P Q : A -> Prop) :
  safe_read r P -> (forall a, P a -> Q a) -> safe_read r Q.
Proof.
  intros Hr HPQ s Hs. specialize (Hr s Hs). destruct (r s) as [[a|e|p] s']; [|done|done].
  destruct Hr as (? & ? & ?). auto.
Qed.

Lemma safe_read1_read {A} (r : Reader A) (P : A -> Prop) : safe_read1 r P -> safe_read r P.
Proof.
  intros Hr s Hs. specialize (Hr s Hs). destruct (r s) as [[a|e|p] s']; [|done|done].
  destruct Hr as (? & ? & ?). split_and!; [done | lia | done].
Qed.

(** A parser that starts by reading a byte. *)
Lemma safe_first {A} (k : Z -> Reader A) P :
  (forall b, byte_ok b -> safe_read (k b) P) -> safe_read1 (ReadByte ≫= k) P.
Proof.
  intros Hk [|b s] Hs; [done|]. apply Forall_cons in Hs as [Hb Hs].
  specialize (Hk b Hb s Hs). unfold mbind, GoM_bind. simpl.
  destruct (k b s) as [[a|e|p] s']; [| |done].
  - destruct Hk as (? & ? & ?). split_and!; [done | lia | done].
  - destruct Hk. split; [done | lia].
Qed.

Lemma safe_byte : safe_read ReadByte byte_ok.
Proof.
  intros [|b s] Hs; simpl; [done|]. apply Forall_cons in Hs as [? ?]. split_and!; [done | lia | done].
Qed.

Lemma safe_len : safe_read Reader_Len (fun n => 0 <= n).
Proof. intros s Hs. simpl. split_and!; [done | lia | unfold zlen; lia]. Qed.

Lemma safe_full n : 0 <= n -> safe_read (ReadFull n) (fun bs => bytes_ok bs /\ zlen bs = n).
Proof.
  intros Hn s Hs. unfold ReadFull. destruct (Z.leb_spec n 0).
  { split_and!; [done | lia | constructor | unfold zlen; simpl; lia]. }
  destruct (Z.leb_spec n (zlen s)); [|destruct s; split; solve [apply Forall_nil_2 | simpl; lia]].
  unfold zlen in *. rewrite length_drop, length_take.
  split_and!; [by apply Forall_drop | lia | by apply Forall_take | lia].
Qed.

(** Case split on a condition of the parser. *)
Lemma safe_if {A} (b : bool) (r1 r2 : Reader A) P :
  (b = true -> safe_read r1 P) -> (b = false -> safe_read r2 P) ->
  safe_read (if b then r1 else r2) P.
Proof. destruct b; auto. Qed.

#[export] Hint Resolve safe_fail safe_byte safe_len : codec.
#[export] Hint Resolve reads_ret reads_byte writes_ret writes_byte writes_bytes : codec.

(** ** Time

    [time.Time] counts nanoseconds from Go's zero time, [time.Duration] is an
    [int64]; every [time.Now()] of a function is an argument of its model. *)

Abbreviation Time := Z (only parsing).
Abbreviation Duration := Z (only parsing).
Definition zeroTime : Time := 0.
Definition Time_IsZero (t : Time) : bool := t =? zeroTime.
Definition Time_After (t u : Time) : bool := u <? t.
Definition Time_Before (t u : Time) : bool := t <? u.
Definition Time_Add (t : Time) (d : Duration) : Time := t + d.
Definition minDuration : Duration := -9223372036854775808.
Definition maxDuration : Duration := 9223372036854775807.
(** [Sub] saturates at the ends of the range of [time.Duration]. *)
Definition Time_Sub (t u : Time) : Duration :=
  Z.max minDuration (Z.min maxDuration (t - u)).

Definition Microsecond : Duration := 1000.
Definition Millisecond : Duration := 1000000.
Definition Second : Duration := 1000000000.

(** ** Arithmetic lemmas and automation *)

Create Rewrite HintDb ints.

(** Unfold every wrap-around and hand the goal to [lia], with the quotients and
    remainders turned into linear equations. *)
Ltac glia :=
  unfold u8, u16, u32, u64, i8, i16, i32, i64, byte_ok, zlen in *;
  Z.to_euclidean_division_equations; lia.

Lemma u8_range z : 0 <= u8 z < 256.
Proof. glia. Qed.
Lemma u16_range z : 0 <= u16 z < 65536.
Proof. glia. Qed.
Lemma u32_range z : 0 <= u32 z < 4294967296.
Proof. glia. Qed.
Lemma u64_range z : 0 <= u64 z < 18446744073709551616.
Proof. glia. Qed.
Lemma i64_range z : -9223372036854775808 <= i64 z < 9223372036854775808.
Proof. glia. Qed.

Lemma u8_small z : 0 <= z < 256 -> u8 z = z.
Proof. apply Z.mod_small. Qed.
Lemma u16_small z : 0 <= z < 65536 -> u16 z = z.
Proof. apply Z.mod_small. Qed.
Lemma u32_small z : 0 <= z < 4294967296 -> u32 z = z.
Proof. apply Z.mod_small. Qed.
Lemma u64_small z : 0 <= z < 18446744073709551616 -> u64 z = z.
Proof. apply Z.mod_small. Qed.
Lemma u64_small_eq z y : z = y -> 0 <= y < 18446744073709551616 -> u64 z = y.
Proof. intros ->. apply u64_small. Qed.
Lemma i64_small z : -9223372036854775808 <= z < 9223372036854775808 -> i64 z = z.
Proof. glia. Qed.

#[export] Hint Rewrite u8_small u16_small u32_small u64_small i64_small using glia : ints.

(** Split every boolean comparison of the goal and the hypotheses into its
    propositional cases. *)
Ltac cases_bool :=
  repeat match goal with
  | |- context [Z.ltb ?a ?b] => destruct (Z.ltb_spec a b)
  | |- context [Z.leb ?a ?b] => destruct (Z.leb_spec a b)
  | |- context [Z.eqb ?a ?b] => destruct (Z.eqb_spec a b)
  | H : context [Z.ltb ?a ?b] |- _ => destruct (Z.ltb_spec a b)
  | H : context [Z.leb ?a ?b] |- _ => destruct (Z.leb_spec a b)
  | H : context [Z.eqb ?a ?b] |- _ => destruct (Z.eqb_spec a b)
  end.

Lemma zlen_nonneg {A} (l : list A) : 0 <= zlen l.
Proof. unfold zlen. lia. Qed.

Lemma zlen_app {A} (l k : list A) : zlen (l ++ k) = zlen l + zlen k.
Proof. unfold zlen. rewrite length_app. lia. Qed.

Lemma zlen_cons {A} (x : A) l : zlen (x :: l) = 1 + zlen l.
Proof. unfold zlen. simpl. lia. Qed.

Lemma zlen_nil {A} : zlen (@nil A) = 0.
Proof. done. Qed.

#[export] Hint Rewrite @zlen_app @zlen_cons @zlen_nil : ints.

Lemma Forall_filter {A} (P Q : A -> Prop) `{!∀ x, Decision (P x)} l :
  Forall Q l -> Forall Q (filter P l).
Proof.
  induction 1 as [|x l Hx Hl IH]; [constructor|]. rewrite filter_cons.
  destruct (decide (P x)); [by constructor|done].
Qed.

Lemma filter_bool_cons {A} (f : A -> bool) x l :
  filter (fun y => f y = true) (x :: l)
    = if f x then x :: filter (fun y => f y = true) l else filter (fun y => f y = true) l.
Proof. rewrite filter_cons. destruct (decide _) as [->|E]; [done|]. by destruct (f x). Qed.

Lemma StronglySorted_snoc {A} (R : A -> A -> Prop) l x :
  StronglySorted R l -> Forall (fun y => R y x) l -> StronglySorted R (l ++ [x]).
Proof.
  induction l as [|y l IH]; [repeat constructor|]. intros [Hl Hy]%StronglySorted_inv Hx.
  apply Forall_cons in Hx as [Hyx Hx]. simpl. constructor; [by apply IH|].
  apply Forall_app. split; [done|by repeat constructor].
Qed.

Lemma StronglySorted_reverse {A} (R : A -> A -> Prop) l :
  StronglySorted R l -> StronglySorted (flip R) (reverse l).
Proof.
  induction l as [|y l IH]; [constructor|]. intros [Hl Hy]%StronglySorted_inv.
  rewrite reverse_cons. apply StronglySorted_snoc; [by apply IH|].
  apply Forall_forall. intros z Hz. rewrite elem_of_reverse in Hz. exact (proj1 (Forall_forall _ _) Hy z Hz).
Qed.

Lemma StronglySorted_filter {A} (R : A -> A -> Prop) (P : A -> Prop) `{!∀ x, Decision (P x)} l :
  StronglySorted R l -> StronglySorted R (filter P l).
Proof.
  induction l as [|x l IH]; [done|]. intros [Hl Hx]%StronglySorted_inv. rewrite filter_cons.
  destruct (decide (P x)); [|by apply IH]. constructor; [by apply IH|by apply Forall_filter].
Qed.

(** ** Assignments to the fields of a struct

    [r <| f := v |>] is the record [r] after the Go assignment [r.f = v].  A
    record type declares its eta-expansion once; the update of each field is
    derived from it by abstracting the projection. *)
Class Eta (R : Type) := eta : R -> R.
Class Assign {R T : Type} (field : R -> T) := assign : T -> R -> R.
Arguments assign {R T} field {_} v r : simpl never.

Ltac derive_assign :=
  match goal with
  | |- @Assign ?R _ ?field =>
      let v := fresh "v" in let r := fresh "r" in
      intros v r;
      let e := constr:(@eta R _ r) in
      let t := eval hnf in e in
      match eval pattern (field r) in t with
      | ?ctx _ => let t' := eval cbv beta in (ctx v) in exact t'
      end
  end.

#[global] Hint Extern 0 (Assign _) => derive_assign : typeclass_instances.

Notation "r <| f := v |>" := (assign f v r)
  (at level 1, f at level 0, v at level 200, left associativity, format "r  <| f  :=  v |>").

(** Compute a projection of an updated record. *)
Ltac fields := unfold assign in *; cbn beta iota in *.
