(* ===== verification/Protocol.v ===== *)
(** * Package protocol and the error codes of package qerr

    Types, constants and the pure functions of
    src/mpquic_trans/internal/protocol: packet-number truncation and inference,
    version tags and version negotiation.  The codes of package qerr that the
    modelled code raises are listed here as well. *)

From S2P Require Import Prelude.

(** ** Types and constants (protocol.go, server_parameters.go) *)

Abbreviation PacketNumber := Z (only parsing).
Abbreviation PacketNumberLen := Z (only parsing).
Abbreviation ConnectionID := Z (only parsing).
Abbreviation StreamID := Z (only parsing).
Abbreviation PathID := Z (only parsing).
Abbreviation ByteCount := Z (only parsing).
Abbreviation VersionNumber := Z (only parsing).

Definition PacketNumberLenInvalid : PacketNumberLen := 0.
Definition PacketNumberLen1 : PacketNumberLen := 1.
Definition PacketNumberLen2 : PacketNumberLen := 2.
Definition PacketNumberLen4 : PacketNumberLen := 4.
Definition PacketNumberLen6 : PacketNumberLen := 6.

Definition InitialPathID : PathID := 0.
Definition MaxByteCount : ByteCount := 18446744073709551615.
Definition MaxReceivePacketSize : ByteCount := 1452.
Definition DefaultTCPMSS : ByteCount := 1460.
Definition MaxPacketSize : ByteCount := 1350.
Definition DefaultMaxCongestionWindow : Z := 2500.
Definition InitialCongestionWindow : Z := 64.
Definition AckSendDelay : Duration := 25 * Millisecond.
Definition MaxNewStreamIDDelta : Z := 4 * 10000.
Definition MaxTrackedSkippedPackets : Z := 10.
Definition MaxTrackedSentPackets : Z := 2 * DefaultMaxCongestionWindow.
Definition MaxTrackedReceivedAckRanges : Z := DefaultMaxCongestionWindow.
Definition MaxPacketsReceivedBeforeAckSend : Z := 20.
Definition MaxNonRetransmittablePackets : Z := 19.
Definition RetransmittablePacketsBeforeAck : Z := 2.
Definition MaxStreamFrameSorterGaps : Z := 2500.

(** EncryptionLevel (encryption_level.go) *)
Inductive EncryptionLevel :=
  | EncryptionUnspecified
  | EncryptionUnencrypted
  | EncryptionSecure
  | EncryptionForwardSecure.

(** Perspective (perspective.go) *)
Inductive Perspective := PerspectiveServer | PerspectiveClient.

#[global] Instance EncryptionLevel_eq_dec : EqDecision EncryptionLevel.
Proof. solve_decision. Defined.
#[global] Instance Perspective_eq_dec : EqDecision Perspective.
Proof. solve_decision. Defined.

(** The order of the levels, as Go compares their numbers. *)
Definition EncryptionLevel_num (e : EncryptionLevel) : Z :=
  match e with
  | EncryptionUnspecified => 0
  | EncryptionUnencrypted => 1
  | EncryptionSecure => 2
  | EncryptionForwardSecure => 3
  end.

Definition Perspective_eqb (p q : Perspective) : bool := bool_decide (p = q).

(** ** qerr codes raised by the modelled code (error_codes.go) *)

Definition StreamDataAfterTermination : Z := 2.
Definition InvalidPacketHeader : Z := 3.
Definition InvalidFrameData : Z := 4.
Definition MissingPayload : Z := 48.
Definition InvalidStreamData : Z := 46.
Definition InvalidConnectionCloseData : Z := 7.
Definition InvalidGoawayData : Z := 8.
Definition InvalidStopWaitingData : Z := 60.
Definition InvalidAckData : Z := 9.
Definition InvalidRstStreamData : Z := 6.
Definition InvalidWindowUpdateData : Z := 57.
Definition InvalidBlockedData : Z := 58.
Definition DecryptionFailure : Z := 12.
Definition UnencryptedStreamData : Z := 61.
Definition CryptoTooManyEntries : Z := 30.
Definition CryptoInvalidValueLength : Z := 31.
Definition InvalidVersionNegotiationPacket : Z := 10.
Definition InvalidStreamID : Z := 17.
Definition TooManyOpenStreams : Z := 18.
Definition EmptyStreamFrameNoFin : Z := 50.
Definition FlowControlReceivedTooMuchData : Z := 59.
Definition TooManyOutstandingReceivedPackets : Z := 69.

(** ** Packet numbers (packet_number.go) *)

Definition delta (a b : PacketNumber) : PacketNumber :=
  if a <? b then u64 (b - a) else u64 (a - b).

Definition closestTo (target a b : PacketNumber) : PacketNumber :=
  if delta target a <? delta target b then a else b.

Definition InferPacketNumber (packetNumberLength : PacketNumberLen)
    (lastPacketNumber wirePacketNumber : PacketNumber) : PacketNumber :=
  let epochDelta := shl64 1 (u8 (packetNumberLength * 8)) in
  let epoch := Z.land lastPacketNumber (u64 (Z.lnot (u64 (epochDelta - 1)))) in
  let prevEpochBegin := u64 (epoch - epochDelta) in
  let nextEpochBegin := u64 (epoch + epochDelta) in
  closestTo (u64 (lastPacketNumber + 1))
    (u64 (epoch + wirePacketNumber))
    (closestTo (u64 (lastPacketNumber + 1))
       (u64 (prevEpochBegin + wirePacketNumber)) (u64 (nextEpochBegin + wirePacketNumber))).

Definition GetPacketNumberLengthForPublicHeader (packetNumber leastUnacked : PacketNumber)
    : PacketNumberLen :=
  let diff := u64 (packetNumber - leastUnacked) in
  if diff <? Z.shiftl 2 (2 * 8 - 2) then PacketNumberLen2
  else if diff <? Z.shiftl 2 (4 * 8 - 2) then PacketNumberLen4
  else PacketNumberLen6.

Definition GetPacketNumberLength (packetNumber : PacketNumber) : PacketNumberLen :=
  if packetNumber <? Z.shiftl 1 (1 * 8) then PacketNumberLen1
  else if packetNumber <? Z.shiftl 1 (2 * 8) then PacketNumberLen2
  else if packetNumber <? Z.shiftl 1 (4 * 8) then PacketNumberLen4
  else PacketNumberLen6.

(** ** Versions (version.go) *)

Definition Version37 : VersionNumber := 37.
Definition Version38 : VersionNumber := 38.
Definition Version39 : VersionNumber := 39.
Definition VersionTLS : VersionNumber := 101.
Definition VersionWhatever : VersionNumber := 0.
Definition VersionUnsupported : VersionNumber := -1.
Definition VersionUnknown : VersionNumber := -2.
Definition VersionMP : VersionNumber := 512.

Definition SupportedVersions : list VersionNumber :=
  [VersionMP; Version39; Version38; Version37].

Definition UsesTLS (vn : VersionNumber) : bool := vn =? VersionTLS.

(** ['Q'] is 81, ['0'] is 48. *)
Definition VersionNumberToTag (vn : VersionNumber) : Z :=
  let v := u32 vn in
  u32 (u32 (u32 (81 + u32 (Z.shiftl (u32 (v / 100 mod 10 + 48)) 8))
            + u32 (Z.shiftl (u32 (v / 10 mod 10 + 48)) 16))
       + u32 (Z.shiftl (u32 (v mod 10 + 48)) 24)).

Definition VersionTagToNumber (v : Z) : VersionNumber :=
  u32 (u32 (u32 (u32 (Z.land (Z.shiftr v 8) 255 - 48) * 100)
            + u32 (u32 (Z.land (Z.shiftr v 16) 255 - 48) * 10))
       + u32 (Z.land (Z.shiftr v 24) 255 - 48)).

Fixpoint IsSupportedVersion (supported : list VersionNumber) (v : VersionNumber) : bool :=
  match supported with
  | [] => false
  | t :: rest => if t =? v then true else IsSupportedVersion rest v
  end.

(** The inner loop of [ChooseSupportedVersion]: does the peer offer [ourVer]? *)
Fixpoint offers (theirs : list VersionNumber) (ourVer : VersionNumber) : bool :=
  match theirs with
  | [] => false
  | theirVer :: rest => if ourVer =? theirVer then true else offers rest ourVer
  end.

Fixpoint ChooseSupportedVersion (ours theirs : list VersionNumber) : VersionNumber :=
  match ours with
  | [] => VersionUnsupported
  | ourVer :: rest =>
      if offers theirs ourVer then ourVer else ChooseSupportedVersion rest theirs
  end.

(** ** Packet-number inference *)

(** The number of values a truncated packet number of [len] bytes takes. *)
Definition epoch_size (len : PacketNumberLen) : Z := 2 ^ (8 * len).

Definition valid_len (len : PacketNumberLen) : Prop :=
  len = 1 \/ len = 2 \/ len = 4 \/ len = 6.

Lemma land_mask_epoch last n :
  0 <= last < 2 ^ 64 -> 0 <= n < 64 ->
  Z.land last (u64 (Z.lnot (2 ^ n - 1))) = last - last mod 2 ^ n.
Proof.
  intros Hl Hn.
  replace (last - last mod 2 ^ n) with (Z.ldiff last (Z.ones n)).
  2: { rewrite Z.ldiff_ones_r by lia. rewrite Z.shiftl_mul_pow2, Z.shiftr_div_pow2 by lia.
       pose proof (Z.div_mod last (2 ^ n)). lia. }
  replace (2 ^ n - 1) with (Z.ones n) by (rewrite Z.ones_equiv; lia).
  apply Z.bits_inj'. intros i Hi.
  rewrite Z.land_spec, Z.ldiff_spec. unfold u64.
  change 18446744073709551616 with (2 ^ 64).
  destruct (Z.lt_ge_cases i 64).
  - rewrite Z.mod_pow2_bits_low, Z.lnot_spec by lia. done.
  - rewrite Z.mod_pow2_bits_high by lia.
    rewrite <- (Z.mod_small last (2 ^ 64)) at 2 by lia.
    rewrite Z.mod_pow2_bits_high by lia. by rewrite andb_false_r.
Qed.

Lemma delta_abs a b :
  0 <= a < 2 ^ 64 -> 0 <= b < 2 ^ 64 -> delta a b = Z.abs (a - b).
Proof. intros. unfold delta. cases_bool; glia. Qed.

Lemma epoch_size_bounds len :
  valid_len len -> 256 <= epoch_size len <= 2 ^ 48 /\ epoch_size len mod 2 = 0.
Proof. intros [->|[->|[->| ->]]]; by vm_compute. Qed.

(** What the inference computes when the counter is far from its wrap-around:
    the candidate of the three epochs around the last number that is closest to
    the expected one.  The previous epoch of the first one lies below zero; it
    wraps to the top of the range and is never the closest. *)
Lemma infer_unfold len last wire :
  valid_len len -> 0 <= last < 2 ^ 62 -> 0 <= wire < epoch_size len ->
  InferPacketNumber len last wire =
    let D := epoch_size len in let epoch := last - last mod D in
    closestTo (last + 1) (epoch + wire)
      (closestTo (last + 1) (u64 (u64 (epoch - D) + wire)) (epoch + D + wire)).
Proof.
  intros Hlen Hlast Hwire. pose proof (epoch_size_bounds len Hlen) as [HD _].
  assert (HE : shl64 1 (u8 (len * 8)) = epoch_size len).
  { by destruct Hlen as [->|[->|[->| ->]]]. }
  unfold InferPacketNumber. rewrite HE.
  rewrite (u64_small (epoch_size len - 1)) by lia.
  rewrite (u64_small (last + 1)) by lia.
  unfold epoch_size in *. rewrite land_mask_epoch by (destruct Hlen as [->|[->|[->| ->]]]; lia).
  pose proof (Z.mod_pos_bound last (2 ^ (8 * len)) ltac:(lia)).
  pose proof (Z.mod_le last (2 ^ (8 * len)) ltac:(lia) ltac:(lia)).
  cbv zeta. rewrite !(u64_small (last - last mod 2 ^ (8 * len) + _)) by lia.
  by rewrite (u64_small (last - last mod 2 ^ (8 * len) + 2 ^ (8 * len) + wire)) by lia.
Qed.

Lemma infer_closest len last pn :
  valid_len len -> 0 <= last < 2 ^ 62 -> 0 <= pn < 2 ^ 62 ->
  2 * Z.abs (pn - (last + 1)) < epoch_size len ->
  InferPacketNumber len last (pn mod epoch_size len) = pn.
Proof.
  intros Hlen Hlast Hpn Hclose. pose proof (epoch_size_bounds len Hlen) as [HD _].
  rewrite infer_unfold by (try lia; try done; apply Z.mod_pos_bound; lia). cbv zeta.
  revert Hclose HD. generalize (epoch_size len) as D. intros D Hclose HD.
  pose proof (Z.div_mod last D ltac:(lia)) as Elast.
  pose proof (Z.mod_pos_bound last D ltac:(lia)) as Rlast.
  pose proof (Z.div_mod pn D ltac:(lia)) as Epn.
  pose proof (Z.mod_pos_bound pn D ltac:(lia)) as Rpn.
  assert (0 <= last / D) by (apply Z.div_pos; lia).
  assert (0 <= pn / D) by (apply Z.div_pos; lia).
  set (q := last / D) in *. set (r := last mod D) in *.
  set (w := pn mod D) in *. set (p := pn / D) in *.
  replace (last - r) with (D * q) by lia.
  assert (Hp : p = q - 1 \/ p = q \/ p = q + 1) by nia.
  assert (HDp : D * p = D * q - D \/ D * p = D * q \/ D * p = D * q + D)
    by (destruct Hp as [->|[->| ->]]; lia).
  assert (HE : D * q = 0 /\ q = 0 \/ D <= D * q /\ q <> 0).
  { destruct (decide (q = 0)) as [->|]; [left; lia | right; nia]. }
  revert Elast Epn HDp HE. generalize (D * q) as E, (D * p) as F. intros E F Elast Epn HDp HE.
  assert (Hprev : u64 (u64 (E - D) + w) = if q =? 0 then 2 ^ 64 - D + w else E - D + w).
  { destruct (Z.eqb_spec q 0); [glia|].
    rewrite (u64_small (E - D)) by lia. apply u64_small. lia. }
  rewrite Hprev. clear Hprev Hp. unfold closestTo.
  rewrite !delta_abs by (cases_bool; lia).
  cases_bool; lia.
Qed.

(** A receiver recovers the packet number a sender truncated, for the length the
    sender chose from its least unacked packet, as long as every number below
    [leastUnacked] has been received and the newest packet seen is within half an
    epoch above. *)
Lemma infer_recovers pn leastUnacked last :
  0 <= leastUnacked <= pn -> pn < 2 ^ 61 -> pn - leastUnacked < 2 ^ 47 ->
  leastUnacked <= last + 1 -> 0 <= last -> last + 1 - pn < 2 ^ 15 ->
  let len := GetPacketNumberLengthForPublicHeader pn leastUnacked in
  InferPacketNumber len last (pn mod epoch_size len) = pn.
Proof.
  intros Hpn Hmax Hfl Hlu H0 Hahead len.
  assert (Hd : u64 (pn - leastUnacked) = pn - leastUnacked) by (apply u64_small; lia).
  assert (Hlen : valid_len len /\ 2 * (pn - leastUnacked) < epoch_size len
                 /\ 2 ^ 16 <= epoch_size len).
  { subst len. unfold GetPacketNumberLengthForPublicHeader. rewrite Hd.
    change (Z.shiftl 2 (2 * 8 - 2)) with (2 ^ 15). change (Z.shiftl 2 (4 * 8 - 2)) with (2 ^ 31).
    unfold valid_len, epoch_size, PacketNumberLen2, PacketNumberLen4, PacketNumberLen6.
    cases_bool; repeat split; simpl; lia. }
  destruct Hlen as (Hv & Hhalf & Hmin). apply infer_closest; lia || done.
Qed.

(** ** Version tags *)

(** The tag of every version number below 1000 reads back as the number, so
    version negotiation loses nothing. *)
Lemma version_tag_roundtrip vn :
  0 <= vn < 1000 -> VersionTagToNumber (VersionNumberToTag vn) = vn.
Proof.
  intros H.
  assert (Hall : forallb (fun n => VersionTagToNumber (VersionNumberToTag (Z.of_nat n)) =? Z.of_nat n)
                   (seq 0 1000) = true) by (vm_compute; reflexivity).
  rewrite forallb_forall in Hall. specialize (Hall (Z.to_nat vn)).
  rewrite Z2Nat.id in Hall by lia. apply Z.eqb_eq, Hall. apply in_seq. lia.
Qed.

Lemma offers_elem theirs v : offers theirs v = true <-> v ∈ theirs.
Proof.
  induction theirs as [|t theirs IH]; simpl; [set_solver|].
  rewrite elem_of_cons, <- IH. destruct (Z.eqb_spec v t); intuition congruence.
Qed.

(** The version chosen is the first of ours the peer also offers: it is common,
    and every one we prefer to it is not offered. *)
Lemma choose_supported_first ours theirs v :
  ChooseSupportedVersion ours theirs = v -> v <> VersionUnsupported ->
  exists pre post, ours = pre ++ v :: post /\ v ∈ theirs /\ forall u, u ∈ pre -> u ∉ theirs.
Proof.
  induction ours as [|o ours IH]; simpl; [done|].
  destruct (offers theirs o) eqn:E; intros Hv Hne.
  - subst v. exists [], ours. split_and!; [done | by apply offers_elem | set_solver].
  - destruct (IH Hv Hne) as (pre & post & -> & Hin & Hpre).
    exists (o :: pre), post. split_and!; [done | done |].
    intros u [->|Hu]%elem_of_cons; [|by apply Hpre].
    rewrite <- offers_elem. congruence.
Qed.
