(* ===== verification/ByteOrder.v ===== *)
(** * Byte orders and the 16-bit float (package utils)

    [utils.ByteOrder] of src/mpquic_trans/internal/utils/byteorder.go is an
    interface with two implementations: a record of operations here, with the
    instances [BigEndian] and [LittleEndian] translated method by method, and
    the class [ByteOrderLaws] of what the frame codecs rely on.  The second part
    is float16.go, the encoding of ACK delays and remote RTTs. *)

From S2P Require Import Prelude Protocol.

(** ** The interface (byteorder.go) *)

Record ByteOrder := {
  ReadUintN : Z -> Reader Z;
  ReadUint64 : Reader Z;
  ReadUint32 : Reader Z;
  ReadUint16 : Reader Z;
  WriteUint64 : Z -> Writer;
  WriteUint56 : Z -> Writer;
  WriteUint48 : Z -> Writer;
  WriteUint40 : Z -> Writer;
  WriteUint32 : Z -> Writer;
  WriteUint24 : Z -> Writer;
  WriteUint16 : Z -> Writer;
}.

(** ** byteorder_big_endian.go *)

(** The loop of [ReadUintN]; [n] counts the iterations left. *)
Fixpoint bigEndian_ReadUintN_loop (n : nat) (i length res : Z) : Reader Z :=
  match n with
  | O => mret res
  | S n' =>
      bt ← ReadByte;
      bigEndian_ReadUintN_loop n' (u8 (i + 1)) length
        (Z.lxor res (shl64 bt (u8 (u8 (length - 1 - i) * 8))))
  end.

Definition bigEndian_ReadUintN (length : Z) : Reader Z :=
  bigEndian_ReadUintN_loop (Z.to_nat length) 0 length 0.

Definition bigEndian_ReadUint64 : Reader Z :=
  b8 ← ReadByte; b7 ← ReadByte; b6 ← ReadByte; b5 ← ReadByte;
  b4 ← ReadByte; b3 ← ReadByte; b2 ← ReadByte; b1 ← ReadByte;
  mret (u64 (b1 + shl64 b2 8 + shl64 b3 16 + shl64 b4 24 + shl64 b5 32
             + shl64 b6 40 + shl64 b7 48 + shl64 b8 56)).

Definition bigEndian_ReadUint32 : Reader Z :=
  b4 ← ReadByte; b3 ← ReadByte; b2 ← ReadByte; b1 ← ReadByte;
  mret (u32 (b1 + u32 (Z.shiftl b2 8) + u32 (Z.shiftl b3 16) + u32 (Z.shiftl b4 24))).

Definition bigEndian_ReadUint16 : Reader Z :=
  b2 ← ReadByte; b1 ← ReadByte;
  mret (u16 (b1 + u16 (Z.shiftl b2 8))).

Definition bigEndian_WriteUint64 (i : Z) : Writer :=
  WriteBytes [u8 (Z.shiftr i 56); u8 (Z.shiftr i 48); u8 (Z.shiftr i 40); u8 (Z.shiftr i 32);
              u8 (Z.shiftr i 24); u8 (Z.shiftr i 16); u8 (Z.shiftr i 8); u8 i].

Definition bigEndian_WriteUint56 (i : Z) : Writer :=
  if Z.shiftl 1 56 <=? i then panic "doesn't fit into 56 bits"
  else WriteBytes [u8 (Z.shiftr i 48); u8 (Z.shiftr i 40); u8 (Z.shiftr i 32);
                   u8 (Z.shiftr i 24); u8 (Z.shiftr i 16); u8 (Z.shiftr i 8); u8 i].

Definition bigEndian_WriteUint48 (i : Z) : Writer :=
  if Z.shiftl 1 48 <=? i then panic "doesn't fit into 48 bits"
  else WriteBytes [u8 (Z.shiftr i 40); u8 (Z.shiftr i 32);
                   u8 (Z.shiftr i 24); u8 (Z.shiftr i 16); u8 (Z.shiftr i 8); u8 i].

Definition bigEndian_WriteUint40 (i : Z) : Writer :=
  if Z.shiftl 1 40 <=? i then panic "doesn't fit into 40 bits"
  else WriteBytes [u8 (Z.shiftr i 32);
                   u8 (Z.shiftr i 24); u8 (Z.shiftr i 16); u8 (Z.shiftr i 8); u8 i].

Definition bigEndian_WriteUint32 (i : Z) : Writer :=
  WriteBytes [u8 (Z.shiftr i 24); u8 (Z.shiftr i 16); u8 (Z.shiftr i 8); u8 i].

Definition bigEndian_WriteUint24 (i : Z) : Writer :=
  if Z.shiftl 1 24 <=? i then panic "doesn't fit into 24 bits"
  else WriteBytes [u8 (Z.shiftr i 16); u8 (Z.shiftr i 8); u8 i].

Definition bigEndian_WriteUint16 (i : Z) : Writer :=
  WriteBytes [u8 (Z.shiftr i 8); u8 i].

Definition BigEndian : ByteOrder := {|
  ReadUintN := bigEndian_ReadUintN;
  ReadUint64 := bigEndian_ReadUint64;
  ReadUint32 := bigEndian_ReadUint32;
  ReadUint16 := bigEndian_ReadUint16;
  WriteUint64 := bigEndian_WriteUint64;
  WriteUint56 := bigEndian_WriteUint56;
  WriteUint48 := bigEndian_WriteUint48;
  WriteUint40 := bigEndian_WriteUint40;
  WriteUint32 := bigEndian_WriteUint32;
  WriteUint24 := bigEndian_WriteUint24;
  WriteUint16 := bigEndian_WriteUint16;
|}.

(** ** byteorder_little_endian.go *)

Fixpoint littleEndian_ReadUintN_loop (n : nat) (i res : Z) : Reader Z :=
  match n with
  | O => mret res
  | S n' =>
      bt ← ReadByte;
      littleEndian_ReadUintN_loop n' (u8 (i + 1)) (Z.lxor res (shl64 bt (u8 (i * 8))))
  end.

Definition littleEndian_ReadUintN (length : Z) : Reader Z :=
  littleEndian_ReadUintN_loop (Z.to_nat length) 0 0.

Definition littleEndian_ReadUint64 : Reader Z :=
  b1 ← ReadByte; b2 ← ReadByte; b3 ← ReadByte; b4 ← ReadByte;
  b5 ← ReadByte; b6 ← ReadByte; b7 ← ReadByte; b8 ← ReadByte;
  mret (u64 (b1 + shl64 b2 8 + shl64 b3 16 + shl64 b4 24 + shl64 b5 32
             + shl64 b6 40 + shl64 b7 48 + shl64 b8 56)).

Definition littleEndian_ReadUint32 : Reader Z :=
  b1 ← ReadByte; b2 ← ReadByte; b3 ← ReadByte; b4 ← ReadByte;
  mret (u32 (b1 + u32 (Z.shiftl b2 8) + u32 (Z.shiftl b3 16) + u32 (Z.shiftl b4 24))).

Definition littleEndian_ReadUint16 : Reader Z :=
  b1 ← ReadByte; b2 ← ReadByte;
  mret (u16 (b1 + u16 (Z.shiftl b2 8))).

Definition littleEndian_WriteUint64 (i : Z) : Writer :=
  WriteBytes [u8 i; u8 (Z.shiftr i 8); u8 (Z.shiftr i 16); u8 (Z.shiftr i 24);
              u8 (Z.shiftr i 32); u8 (Z.shiftr i 40); u8 (Z.shiftr i 48); u8 (Z.shiftr i 56)].

Definition littleEndian_WriteUint56 (i : Z) : Writer :=
  if Z.shiftl 1 56 <=? i then panic "doesn't fit into 56 bits"
  else WriteBytes [u8 i; u8 (Z.shiftr i 8); u8 (Z.shiftr i 16); u8 (Z.shiftr i 24);
                   u8 (Z.shiftr i 32); u8 (Z.shiftr i 40); u8 (Z.shiftr i 48)].

Definition littleEndian_WriteUint48 (i : Z) : Writer :=
  if Z.shiftl 1 48 <=? i then panic "doesn't fit into 48 bits"
  else WriteBytes [u8 i; u8 (Z.shiftr i 8); u8 (Z.shiftr i 16); u8 (Z.shiftr i 24);
                   u8 (Z.shiftr i 32); u8 (Z.shiftr i 40)].

Definition littleEndian_WriteUint40 (i : Z) : Writer :=
  if Z.shiftl 1 40 <=? i then panic "doesn't fit into 40 bits"
  else WriteBytes [u8 i; u8 (Z.shiftr i 8); u8 (Z.shiftr i 16);
                   u8 (Z.shiftr i 24); u8 (Z.shiftr i 32)].

Definition littleEndian_WriteUint32 (i : Z) : Writer :=
  WriteBytes [u8 i; u8 (Z.shiftr i 8); u8 (Z.shiftr i 16); u8 (Z.shiftr i 24)].

Definition littleEndian_WriteUint24 (i : Z) : Writer :=
  if Z.shiftl 1 24 <=? i then panic "doesn't fit into 24 bits"
  else WriteBytes [u8 i; u8 (Z.shiftr i 8); u8 (Z.shiftr i 16)].

Definition littleEndian_WriteUint16 (i : Z) : Writer :=
  WriteBytes [u8 i; u8 (Z.shiftr i 8)].

Definition LittleEndian : ByteOrder := {|
  ReadUintN := littleEndian_ReadUintN;
  ReadUint64 := littleEndian_ReadUint64;
  ReadUint32 := littleEndian_ReadUint32;
  ReadUint16 := littleEndian_ReadUint16;
  WriteUint64 := littleEndian_WriteUint64;
  WriteUint56 := littleEndian_WriteUint56;
  WriteUint48 := littleEndian_WriteUint48;
  WriteUint40 := littleEndian_WriteUint40;
  WriteUint32 := littleEndian_WriteUint32;
  WriteUint24 := littleEndian_WriteUint24;
  WriteUint16 := littleEndian_WriteUint16;
|}.

(** GetByteOrder (byteorder.go): big endian from version 39 on. *)
Definition GetByteOrder (v : VersionNumber) : ByteOrder :=
  if v <? Version39 then LittleEndian else BigEndian.

(** ** float16.go *)

Definition uFloat16ExponentBits : Z := 5.
Definition uFloat16MaxExponent : Z := Z.shiftl 1 uFloat16ExponentBits - 2.
Definition uFloat16MantissaBits : Z := 16 - uFloat16ExponentBits.
Definition uFloat16MantissaEffectiveBits : Z := uFloat16MantissaBits + 1.
Definition uFloat16MaxValue : Z :=
  Z.shiftl (Z.shiftl 1 uFloat16MantissaEffectiveBits - 1) uFloat16MaxExponent.

(** The value of the 16 bits read. *)
Definition ufloat16_decode (val : Z) : Z :=
  if val <? Z.shiftl 1 uFloat16MantissaEffectiveBits then val
  else
    let exponent := u16 (Z.shiftr val uFloat16MantissaBits - 1) in
    shl64 (u64 (val - shl64 exponent uFloat16MantissaBits)) exponent.

Definition readUfloat16 (byteOrder : ByteOrder) : Reader Z :=
  val ← ReadUint16 byteOrder;
  mret (ufloat16_decode val).

(** One step of the search for the highest bit, at a given [offset]. *)
Definition ufloat16_step (offset : Z) (st : Z * Z) : Z * Z :=
  let '(exponent, value) := st in
  if shl64 1 (uFloat16MantissaBits + offset) <=? value
  then (u16 (exponent + offset), Z.shiftr value offset)
  else (exponent, value).

(** The loop runs for the offsets 16, 8, 4, 2 and 1. *)
Definition ufloat16_encode (value : Z) : Z :=
  if value <? shl64 1 uFloat16MantissaEffectiveBits then u16 value
  else if uFloat16MaxValue <=? value then 65535
  else
    let '(exponent, value) :=
      foldl (fun st offset => ufloat16_step offset st) (0, value) [16; 8; 4; 2; 1] in
    u16 (u16 value + u16 (Z.shiftl exponent uFloat16MantissaBits)).

Definition writeUfloat16 (byteOrder : ByteOrder) (value : Z) : Writer :=
  WriteUint16 byteOrder (ufloat16_encode value).

Definition ReadUfloat16 := readUfloat16.
Definition WriteUfloat16 := writeUfloat16.

(** ** What the codecs rely on *)

(** [bo_enc n v]: the [n] bytes that represent [v].  The readers invert it, the
    writers produce it, and every successful read of well-formed bytes is in
    range. *)
Class ByteOrderLaws (bo : ByteOrder) := {
  bo_enc : nat -> Z -> list Z;
  bo_enc_length n v : length (bo_enc n v) = n;
  bo_enc_ok n v : bytes_ok (bo_enc n v);
  bo_enc_1 v : bo_enc 1 v = [u8 v];
  bo_readN n v : (n <= 8)%nat -> 0 <= v < 2 ^ (8 * Z.of_nat n) ->
    reads (ReadUintN bo (Z.of_nat n)) (bo_enc n v) v;
  bo_read64 v : 0 <= v < 2 ^ 64 -> reads (ReadUint64 bo) (bo_enc 8 v) v;
  bo_read32 v : 0 <= v < 2 ^ 32 -> reads (ReadUint32 bo) (bo_enc 4 v) v;
  bo_read16 v : 0 <= v < 2 ^ 16 -> reads (ReadUint16 bo) (bo_enc 2 v) v;
  bo_write64 v : writes (WriteUint64 bo v) (bo_enc 8 v);
  bo_write56 v : v < 2 ^ 56 -> writes (WriteUint56 bo v) (bo_enc 7 v);
  bo_write48 v : v < 2 ^ 48 -> writes (WriteUint48 bo v) (bo_enc 6 v);
  bo_write40 v : v < 2 ^ 40 -> writes (WriteUint40 bo v) (bo_enc 5 v);
  bo_write32 v : writes (WriteUint32 bo v) (bo_enc 4 v);
  bo_write24 v : v < 2 ^ 24 -> writes (WriteUint24 bo v) (bo_enc 3 v);
  bo_write16 v : writes (WriteUint16 bo v) (bo_enc 2 v);
  bo_safeN n : 0 <= n <= 8 -> safe_read (ReadUintN bo n) (fun v => 0 <= v < 2 ^ (8 * n));
  bo_safe64 : safe_read (ReadUint64 bo) (fun v => 0 <= v < 2 ^ 64);
  bo_safe32 : safe_read (ReadUint32 bo) (fun v => 0 <= v < 2 ^ 32);
  bo_safe16 : safe_read (ReadUint16 bo) (fun v => 0 <= v < 2 ^ 16);
}.

(** The two encodings, byte by byte as the writers list them. *)
Fixpoint be_enc (n : nat) (v : Z) : list Z :=
  match n with
  | O => []
  | S n' => u8 (Z.shiftr v (8 * Z.of_nat n')) :: be_enc n' v
  end.

Fixpoint le_enc_from (k n : nat) (v : Z) : list Z :=
  match n with
  | O => []
  | S n' => u8 (Z.shiftr v (8 * Z.of_nat k)) :: le_enc_from (S k) n' v
  end.

Definition le_enc := le_enc_from 0.

Lemma be_enc_length n v : length (be_enc n v) = n.
Proof. induction n; simpl; congruence. Qed.

Lemma le_enc_from_length k n v : length (le_enc_from k n v) = n.
Proof. revert k. induction n; intros; simpl; congruence. Qed.

Lemma be_enc_ok n v : bytes_ok (be_enc n v).
Proof. induction n; constructor; [apply u8_range | done]. Qed.

Lemma le_enc_from_ok k n v : bytes_ok (le_enc_from k n v).
Proof. revert k. induction n; intros; constructor; [apply u8_range | apply IHn]. Qed.

Lemma lxor_disjoint_add lo b k :
  0 <= k -> lo mod 2 ^ k = lo -> Z.lxor lo (b * 2 ^ k) = lo + b * 2 ^ k.
Proof.
  intros Hk Hlo. symmetry. apply Z.add_nocarry_lxor.
  rewrite <- Z.shiftl_mul_pow2 by lia.
  apply Z.bits_inj'. intros i Hi. rewrite Z.land_spec, Z.bits_0, Z.shiftl_spec by lia.
  destruct (Z.lt_ge_cases i k).
  - rewrite (Z.testbit_neg_r b) by lia. apply andb_false_r.
  - rewrite <- Hlo, Z.mod_pow2_bits_high by lia. done.
Qed.

Lemma shl64_small b k : 0 <= b < 256 -> 0 <= k <= 56 -> shl64 b k = b * 2 ^ k.
Proof.
  intros Hb Hk. unfold shl64. rewrite Z.shiftl_mul_pow2 by lia. apply u64_small.
  assert (2 ^ k <= 2 ^ 56) by (apply Z.pow_le_mono_r; lia).
  assert (0 < 2 ^ k) by (apply Z.pow_pos_nonneg; lia). nia.
Qed.

Lemma byte_split v k : (0 <=? k) = true -> v mod 2 ^ (k + 8) = v mod 2 ^ k + u8 (Z.shiftr v k) * 2 ^ k.
Proof.
  intros Hk%Z.leb_le. rewrite Z.shiftr_div_pow2, Z.pow_add_r by lia.
  rewrite Z.rem_mul_r by (try apply Z.pow_nonzero; lia). unfold u8. change (2 ^ 8) with 256. lia.
Qed.

(** The same at literal widths, in the form [lia] uses. *)
Lemma byte_split_at v k k8 : (0 <=? k) && (k8 =? k + 8) = true ->
  v mod 2 ^ k8 = v mod 2 ^ k + u8 (Z.shiftr v k) * 2 ^ k.
Proof.
  intros [H1 ->%Z.eqb_eq]%andb_prop. by apply byte_split.
Qed.

(** One byte added above the [k] low bits already read. *)
Lemma accumulate_byte v k :
  0 <= k <= 56 ->
  Z.lxor (v mod 2 ^ k) (shl64 (u8 (Z.shiftr v k)) k) = v mod 2 ^ (k + 8).
Proof.
  intros Hk. pose proof (u8_range (Z.shiftr v k)).
  rewrite shl64_small, lxor_disjoint_add, byte_split by (rewrite ?Z.mod_mod; try apply Z.pow_nonzero; lia).
  done.
Qed.

Lemma littleEndian_loop_reads n k v :
  (k + n <= 8)%nat ->
  reads (littleEndian_ReadUintN_loop n (Z.of_nat k) (v mod 2 ^ (8 * Z.of_nat k)))
    (le_enc_from k n v) (v mod 2 ^ (8 * Z.of_nat (k + n))).
Proof.
  revert k. induction n as [|n IH]; intros k Hk; simpl.
  { rewrite Nat.add_0_r. apply reads_ret. }
  apply (reads_bind _ _ [_] _ _ _ (reads_byte _)).
  rewrite (u8_small (Z.of_nat k + 1)), (u8_small (Z.of_nat k * 8)) by lia.
  replace (Z.of_nat k * 8) with (8 * Z.of_nat k) by lia.
  rewrite accumulate_byte by lia.
  replace (Z.of_nat k + 1) with (Z.of_nat (S k)) by lia.
  replace (8 * Z.of_nat k + 8) with (8 * Z.of_nat (S k)) by lia.
  replace (k + S n)%nat with (S k + n)%nat by lia. apply IH. lia.
Qed.

(** The big-endian reader fills the high bytes first: [res] is [v] with the
    bytes still to come cleared. *)
Lemma bigEndian_loop_reads n i length v :
  0 <= i -> i + Z.of_nat n = length -> length <= 8 ->
  reads (bigEndian_ReadUintN_loop n i length (v - v mod 2 ^ (8 * Z.of_nat n)))
    (be_enc n v) v.
Proof.
  revert i. induction n as [|n IH]; intros i Hi Hl H8; cbn [bigEndian_ReadUintN_loop be_enc].
  { rewrite Z.mod_1_r, Z.sub_0_r. apply reads_ret. }
  apply (reads_bind _ _ [_] _ _ _ (reads_byte _)).
  rewrite (u8_small (i + 1)), (u8_small (length - 1 - i)) by lia.
  rewrite (u8_small ((length - 1 - i) * 8)) by lia.
  replace ((length - 1 - i) * 8) with (8 * Z.of_nat n) by lia.
  pose proof (u8_range (Z.shiftr v (8 * Z.of_nat n))).
  rewrite shl64_small by lia.
  replace (8 * Z.of_nat (S n)) with (8 * Z.of_nat n + 8) by lia.
  set (k := 8 * Z.of_nat n) in *. rewrite (byte_split v k) by lia.
  set (b := u8 (Z.shiftr v k)) in *.
  assert (Hx : Z.lxor (v - (v mod 2 ^ k + b * 2 ^ k)) (b * 2 ^ k) = v - v mod 2 ^ k).
  { pose proof (Z.div_mod v (2 ^ (k + 8)) ltac:(apply Z.pow_nonzero; lia)) as Hv.
    rewrite (byte_split v k) in Hv by lia. fold b in Hv.
    replace (v - (v mod 2 ^ k + b * 2 ^ k)) with (v / 2 ^ (k + 8) * 2 ^ (k + 8)) by lia.
    rewrite Z.lxor_comm, lxor_disjoint_add; [lia | lia |].
    rewrite Z.pow_add_r by lia. apply Z.mod_small. change (2 ^ 8) with 256.
    assert (0 < 2 ^ k) by (apply Z.pow_pos_nonneg; lia). nia. }
  rewrite Hx. apply IH; lia.
Qed.

(** *** Integers of a fixed width *)

Ltac read_bytes := repeat apply (reads_bind _ _ [_] _ _ _ (reads_byte _)).

Lemma sum16 v : 0 <= v < 2 ^ 16 ->
  u16 (u8 v + u16 (Z.shiftl (u8 (Z.shiftr v 8)) 8)) = v.
Proof.
  intros Hv. rewrite Z.shiftl_mul_pow2, Z.shiftr_div_pow2 by lia.
  change (2 ^ 8) with 256. glia.
Qed.

Lemma sum32 v : 0 <= v < 2 ^ 32 ->
  u32 (u8 v + u32 (Z.shiftl (u8 (Z.shiftr v 8)) 8) + u32 (Z.shiftl (u8 (Z.shiftr v 16)) 16)
       + u32 (Z.shiftl (u8 (Z.shiftr v 24)) 24)) = v.
Proof.
  intros Hv. rewrite !Z.shiftl_mul_pow2 by lia.
  pose proof (u8_range v). pose proof (u8_range (Z.shiftr v 8)).
  pose proof (u8_range (Z.shiftr v 16)). pose proof (u8_range (Z.shiftr v 24)).
  rewrite !(u32_small (_ * _)) by lia. rewrite u32_small by lia.
  pose proof (Z.mod_small v (2 ^ 32) Hv).
  pose proof (byte_split_at v 24 32 eq_refl). pose proof (byte_split_at v 16 24 eq_refl).
  pose proof (byte_split_at v 8 16 eq_refl). pose proof (byte_split_at v 0 8 eq_refl) as E0.
  rewrite Z.shiftr_0_r, Z.mod_1_r in E0. lia.
Qed.

Lemma sum64 v : 0 <= v < 2 ^ 64 ->
  u64 (u8 v + shl64 (u8 (Z.shiftr v 8)) 8 + shl64 (u8 (Z.shiftr v 16)) 16
       + shl64 (u8 (Z.shiftr v 24)) 24 + shl64 (u8 (Z.shiftr v 32)) 32
       + shl64 (u8 (Z.shiftr v 40)) 40 + shl64 (u8 (Z.shiftr v 48)) 48
       + shl64 (u8 (Z.shiftr v 56)) 56) = v.
Proof.
  intros Hv. pose proof (u8_range v).
  pose proof (fun k => u8_range (Z.shiftr v k)) as R.
  pose proof (R 8). pose proof (R 16). pose proof (R 24). pose proof (R 32).
  pose proof (R 40). pose proof (R 48). pose proof (R 56).
  rewrite !shl64_small by lia. rewrite u64_small by lia.
  pose proof (Z.mod_small v (2 ^ 64) Hv).
  pose proof (byte_split_at v 56 64 eq_refl). pose proof (byte_split_at v 48 56 eq_refl).
  pose proof (byte_split_at v 40 48 eq_refl). pose proof (byte_split_at v 32 40 eq_refl).
  pose proof (byte_split_at v 24 32 eq_refl). pose proof (byte_split_at v 16 24 eq_refl).
  pose proof (byte_split_at v 8 16 eq_refl). pose proof (byte_split_at v 0 8 eq_refl) as E0.
  rewrite Z.shiftr_0_r, Z.mod_1_r in E0. lia.
Qed.

Lemma bigEndian_reads16 v : 0 <= v < 2 ^ 16 -> reads bigEndian_ReadUint16 (be_enc 2 v) v.
Proof. intros Hv. cbn [be_enc]. read_bytes. rewrite Z.shiftr_0_r, sum16 by done. apply reads_ret. Qed.

Lemma bigEndian_reads32 v : 0 <= v < 2 ^ 32 -> reads bigEndian_ReadUint32 (be_enc 4 v) v.
Proof. intros Hv. cbn [be_enc]. read_bytes. rewrite Z.shiftr_0_r, sum32 by done. apply reads_ret. Qed.

Lemma bigEndian_reads64 v : 0 <= v < 2 ^ 64 -> reads bigEndian_ReadUint64 (be_enc 8 v) v.
Proof. intros Hv. cbn [be_enc]. read_bytes. rewrite Z.shiftr_0_r, sum64 by done. apply reads_ret. Qed.

Lemma littleEndian_reads16 v : 0 <= v < 2 ^ 16 -> reads littleEndian_ReadUint16 (le_enc 2 v) v.
Proof. intros Hv. cbn [le_enc le_enc_from]. read_bytes. rewrite Z.shiftr_0_r, sum16 by done. apply reads_ret. Qed.

Lemma littleEndian_reads32 v : 0 <= v < 2 ^ 32 -> reads littleEndian_ReadUint32 (le_enc 4 v) v.
Proof. intros Hv. cbn [le_enc le_enc_from]. read_bytes. rewrite Z.shiftr_0_r, sum32 by done. apply reads_ret. Qed.

Lemma littleEndian_reads64 v : 0 <= v < 2 ^ 64 -> reads littleEndian_ReadUint64 (le_enc 8 v) v.
Proof. intros Hv. cbn [le_enc le_enc_from]. read_bytes. rewrite Z.shiftr_0_r, sum64 by done. apply reads_ret. Qed.

(** *** Range and totality of the readers *)

Lemma littleEndian_loop_safe n k res :
  (k + n <= 8)%nat -> 0 <= res < 2 ^ (8 * Z.of_nat k) ->
  safe_read (littleEndian_ReadUintN_loop n (Z.of_nat k) res)
    (fun v => 0 <= v < 2 ^ (8 * Z.of_nat (k + n))).
Proof.
  revert k res. induction n as [|n IH]; intros k res Hk Hres; cbn [littleEndian_ReadUintN_loop].
  { rewrite Nat.add_0_r. by apply safe_ret. }
  eapply safe_bind; [apply safe_byte|]. intros b Hb.
  rewrite (u8_small (Z.of_nat k + 1)), (u8_small (Z.of_nat k * 8)) by lia.
  replace (Z.of_nat k + 1) with (Z.of_nat (S k)) by lia.
  replace (k + S n)%nat with (S k + n)%nat by lia. apply IH; [lia|].
  unfold byte_ok in Hb. replace (Z.of_nat k * 8) with (8 * Z.of_nat k) by lia.
  rewrite shl64_small, lxor_disjoint_add by (try apply Z.mod_small; lia).
  replace (8 * Z.of_nat (S k)) with (8 * Z.of_nat k + 8) by lia.
  rewrite Z.pow_add_r by lia. change (2 ^ 8) with 256. nia.
Qed.

Lemma bigEndian_loop_safe n i length res :
  0 <= i -> i + Z.of_nat n = length -> length <= 8 ->
  (exists h, res = h * 2 ^ (8 * Z.of_nat n) /\ 0 <= h < 2 ^ (8 * i)) ->
  safe_read (bigEndian_ReadUintN_loop n i length res) (fun v => 0 <= v < 2 ^ (8 * length)).
Proof.
  revert i res. induction n as [|n IH]; intros i res Hi Hl H8 (h & Hres & Hh);
    cbn [bigEndian_ReadUintN_loop].
  { apply safe_ret. rewrite Hres. replace length with i by lia.
    change (2 ^ (8 * Z.of_nat 0)) with 1. lia. }
  eapply safe_bind; [apply safe_byte|]. intros b Hb. unfold byte_ok in Hb.
  rewrite (u8_small (i + 1)), (u8_small (length - 1 - i)) by lia.
  rewrite (u8_small ((length - 1 - i) * 8)) by lia.
  replace ((length - 1 - i) * 8) with (8 * Z.of_nat n) by lia.
  rewrite shl64_small by lia. apply IH; [lia..|].
  exists (h * 256 + b). replace (8 * Z.of_nat (S n)) with (8 * Z.of_nat n + 8) in Hres by lia.
  rewrite Hres, Z.lxor_comm, lxor_disjoint_add.
  - rewrite Z.pow_add_r by lia. change (2 ^ 8) with 256. split; [lia|].
    replace (8 * (i + 1)) with (8 * i + 8) by lia. rewrite Z.pow_add_r by lia.
    change (2 ^ 8) with 256. lia.
  - lia.
  - apply Z.mod_small. rewrite Z.pow_add_r by lia. change (2 ^ 8) with 256.
    assert (0 < 2 ^ (8 * Z.of_nat n)) by (apply Z.pow_pos_nonneg; lia). nia.
Qed.

Ltac safe_fixed w :=
  repeat (eapply safe_bind; [apply safe_byte | intros ? _]); apply safe_ret; apply w.

(** A fixed-width writer appends its encoding when the value fits. *)
Ltac write_fixed :=
  let b := fresh "b" in
  intros; intros b;
  match goal with
  | |- context [if ?n <=? ?v then _ else _] =>
      let c := eval vm_compute in n in
      change n with c; destruct (Z.leb_spec c v) as [?|_]; [lia|]
  | _ => idtac
  end;
  unfold le_enc; cbn -[Z.shiftr]; rewrite Z.shiftr_0_r; reflexivity.

#[global] Instance BigEndian_laws : ByteOrderLaws BigEndian.
Proof.
  refine (Build_ByteOrderLaws BigEndian be_enc be_enc_length be_enc_ok _ _
            bigEndian_reads64 bigEndian_reads32 bigEndian_reads16 _ _ _ _ _ _ _ _ _ _ _).
  - intros v. simpl. by rewrite Z.shiftr_0_r.
  - intros n v Hn Hv. cbn. unfold bigEndian_ReadUintN. rewrite Nat2Z.id.
    pose proof (bigEndian_loop_reads n 0 (Z.of_nat n) v ltac:(lia) ltac:(lia) ltac:(lia)) as H.
    rewrite Z.mod_small, Z.sub_diag in H by lia. exact H.
  - write_fixed.
  - unfold WriteUint56, BigEndian, bigEndian_WriteUint56. write_fixed.
  - unfold WriteUint48, BigEndian, bigEndian_WriteUint48. write_fixed.
  - unfold WriteUint40, BigEndian, bigEndian_WriteUint40. write_fixed.
  - write_fixed.
  - unfold WriteUint24, BigEndian, bigEndian_WriteUint24. write_fixed.
  - write_fixed.
  - intros n Hn. cbn. unfold bigEndian_ReadUintN.
    apply bigEndian_loop_safe; [lia..|]. exists 0. lia.
  - safe_fixed u64_range.
  - safe_fixed u32_range.
  - safe_fixed u16_range.
Qed.

#[global] Instance LittleEndian_laws : ByteOrderLaws LittleEndian.
Proof.
  refine (Build_ByteOrderLaws LittleEndian le_enc (le_enc_from_length 0) (le_enc_from_ok 0) _ _
            littleEndian_reads64 littleEndian_reads32 littleEndian_reads16 _ _ _ _ _ _ _ _ _ _ _).
  - intros v. unfold le_enc. simpl. by rewrite Z.shiftr_0_r.
  - intros n v Hn Hv. cbn. unfold littleEndian_ReadUintN. rewrite Nat2Z.id.
    pose proof (littleEndian_loop_reads n 0 v ltac:(lia)) as H.
    rewrite Z.mod_1_r in H. rewrite Z.mod_small in H by (simpl; lia). exact H.
  - write_fixed.
  - unfold WriteUint56, LittleEndian, littleEndian_WriteUint56. write_fixed.
  - unfold WriteUint48, LittleEndian, littleEndian_WriteUint48. write_fixed.
  - unfold WriteUint40, LittleEndian, littleEndian_WriteUint40. write_fixed.
  - write_fixed.
  - unfold WriteUint24, LittleEndian, littleEndian_WriteUint24. write_fixed.
  - write_fixed.
  - intros n Hn. cbn. unfold littleEndian_ReadUintN.
    eapply safe_weaken; [apply (littleEndian_loop_safe _ 0); simpl; lia|].
    intros v. simpl. by rewrite Z2Nat.id by lia.
  - safe_fixed u64_range.
  - safe_fixed u32_range.
  - safe_fixed u16_range.
Qed.

(** The byte order of any version satisfies the laws. *)
#[global] Instance GetByteOrder_laws v : ByteOrderLaws (GetByteOrder v).
Proof. unfold GetByteOrder. destruct (v <? Version39); apply _. Qed.

#[export] Hint Resolve bo_write64 bo_write32 bo_write16 : codec.
#[export] Hint Resolve bo_safe64 bo_safe32 bo_safe16 : codec.

(** A reader of [n] bytes, [n] in 1..8, inverts the writer of that width. *)
Definition WriteUintN (bo : ByteOrder) (n v : Z) : Writer :=
  if n =? 1 then WriteByte (u8 v)
  else if n =? 2 then WriteUint16 bo v
  else if n =? 3 then WriteUint24 bo v
  else if n =? 4 then WriteUint32 bo v
  else if n =? 5 then WriteUint40 bo v
  else if n =? 6 then WriteUint48 bo v
  else if n =? 7 then WriteUint56 bo v
  else WriteUint64 bo v.

Lemma writes_uintN bo `{!ByteOrderLaws bo} n v :
  1 <= n <= 8 -> v < 2 ^ (8 * n) -> writes (WriteUintN bo n v) (bo_enc (Z.to_nat n) v).
Proof.
  intros Hn Hv. unfold WriteUintN.
  destruct (Z.eqb_spec n 1) as [->|]; [rewrite bo_enc_1; apply writes_byte|].
  destruct (Z.eqb_spec n 2) as [->|]; [apply bo_write16|].
  destruct (Z.eqb_spec n 3) as [->|]; [by apply bo_write24|].
  destruct (Z.eqb_spec n 4) as [->|]; [apply bo_write32|].
  destruct (Z.eqb_spec n 5) as [->|]; [by apply bo_write40|].
  destruct (Z.eqb_spec n 6) as [->|]; [by apply bo_write48|].
  destruct (Z.eqb_spec n 7) as [->|]; [by apply bo_write56|].
  replace n with 8 by lia. apply bo_write64.
Qed.

Lemma reads_uintN bo `{!ByteOrderLaws bo} n v :
  1 <= n <= 8 -> 0 <= v < 2 ^ (8 * n) -> reads (ReadUintN bo n) (bo_enc (Z.to_nat n) v) v.
Proof.
  intros Hn Hv. pose proof (bo_readN (bo := bo) (Z.to_nat n) v ltac:(lia)) as H.
  rewrite Z2Nat.id in H by lia. by apply H.
Qed.

(** In the byte order of every version and for every width from one to eight
    bytes, a value that fits is read back from what the writer appended, leaving
    the bytes that follow. *)
Theorem uintN_roundtrip version n v rest :
  1 <= n <= 8 -> 0 <= v < 2 ^ (8 * n) ->
  exists out, WriteUintN (GetByteOrder version) n v [] = (Ok tt, out)
    /\ ReadUintN (GetByteOrder version) n (out ++ rest) = (Ok v, rest).
Proof.
  intros Hn Hv. eapply writes_reads; [apply writes_uintN | apply reads_uintN]; lia.
Qed.

Lemma uintN_roundtrip_witness :
  exists out, WriteUintN (GetByteOrder VersionMP) 6 1234567 [] = (Ok tt, out)
    /\ ReadUintN (GetByteOrder VersionMP) 6 (out ++ [7]) = (Ok 1234567, [7]).
Proof. apply (uintN_roundtrip VersionMP 6 1234567 [7]); lia. Defined.

(** ** The 16-bit float *)

(** The invariant of the search: [value] is [v] shifted by the exponent found so
    far, and its highest bit is at least 11 and below [11 + 2 * offset]. *)
Definition ufloat16_inv (v bound : Z) (st : Z * Z) : Prop :=
  0 <= fst st <= 32 - bound /\ snd st = v / 2 ^ fst st /\ 2 ^ 11 <= snd st < 2 ^ (11 + bound).

Lemma ufloat16_step_inv v offset st :
  0 < offset <= 16 -> 0 <= v ->
  ufloat16_inv v (2 * offset) st -> ufloat16_inv v offset (ufloat16_step offset st).
Proof.
  intros Ho Hv. destruct st as [e x]. unfold ufloat16_inv, ufloat16_step. simpl.
  intros (He & Hx & Hb). unfold uFloat16MantissaBits, uFloat16ExponentBits, shl64.
  rewrite Z.shiftl_1_l. rewrite u64_small
    by (split; [apply Z.pow_nonneg; lia | change 18446744073709551616 with (2 ^ 64);
        apply Z.pow_lt_mono_r; lia]).
  replace (16 - 5 + offset) with (11 + offset) by lia.
  destruct (Z.leb_spec (2 ^ (11 + offset)) x); simpl; [|lia].
  rewrite (u16_small (e + offset)) by lia. rewrite Z.shiftr_div_pow2 by lia.
  split; [lia|]. split.
  { rewrite Hx, Z.div_div by lia. by rewrite <- Z.pow_add_r by lia. }
  replace (11 + 2 * offset) with ((11 + offset) + offset) in Hb by lia.
  rewrite Z.pow_add_r in Hb by lia. split.
  - apply Z.div_le_lower_bound; [lia|]. rewrite <- Z.pow_add_r by lia.
    by rewrite Z.add_comm.
  - apply Z.div_lt_upper_bound; lia.
Qed.

Lemma ufloat16_search v :
  2 ^ 12 <= v < 2 ^ 42 ->
  exists e, foldl (fun st offset => ufloat16_step offset st) (0, v) [16; 8; 4; 2; 1] = (e, v / 2 ^ e)
    /\ 1 <= e <= 30 /\ 2 ^ 11 <= v / 2 ^ e < 2 ^ 12.
Proof.
  intros Hv. simpl.
  assert (H0 : ufloat16_inv v (2 * 16) (0, v)).
  { unfold ufloat16_inv. simpl. rewrite Z.div_1_r. lia. }
  pose proof (ufloat16_step_inv v 16 _ ltac:(lia) ltac:(lia) H0) as H16.
  pose proof (ufloat16_step_inv v 8 _ ltac:(lia) ltac:(lia) H16) as H8.
  pose proof (ufloat16_step_inv v 4 _ ltac:(lia) ltac:(lia) H8) as H4.
  pose proof (ufloat16_step_inv v 2 _ ltac:(lia) ltac:(lia) H4) as H2.
  pose proof (ufloat16_step_inv v 1 _ ltac:(lia) ltac:(lia) H2) as H1.
  clear H0 H16 H8 H4 H2.
  destruct (ufloat16_step 1 _) as [e x]. destruct H1 as (He & Hx & Hb). simpl in *. subst x.
  exists e. split; [done|]. change (11 + 1) with 12 in Hb. split; [|done].
  assert (0 < 2 ^ e) by (apply Z.pow_pos_nonneg; lia).
  assert (2 ^ e * 2 ^ 11 <= v) by (pose proof (Z.mul_div_le v (2 ^ e)); nia).
  rewrite <- Z.pow_add_r in H0 by lia.
  assert (e + 11 < 42) by (apply (Z.pow_lt_mono_r_iff 2); lia).
  assert (e <> 0) by (intros ->; rewrite Z.div_1_r in Hb; lia). lia.
Qed.

Lemma ufloat16_encode_normal v :
  2 ^ 12 <= v < uFloat16MaxValue ->
  exists e, ufloat16_encode v = v / 2 ^ e + e * 2048 /\ 1 <= e <= 30 /\ 2 ^ 11 <= v / 2 ^ e < 2 ^ 12.
Proof.
  intros Hv. change uFloat16MaxValue with 4396972769280 in *.
  destruct (ufloat16_search v ltac:(lia)) as (e & Hs & He & Hb). exists e. split; [|done].
  unfold ufloat16_encode. rewrite Hs.
  change (shl64 1 uFloat16MantissaEffectiveBits) with 4096.
  change uFloat16MaxValue with 4396972769280.
  destruct (Z.ltb_spec v 4096); [lia|]. destruct (Z.leb_spec 4396972769280 v); [lia|].
  rewrite Z.shiftl_mul_pow2 by done. change (2 ^ uFloat16MantissaBits) with 2048.
  rewrite (u16_small (v / 2 ^ e)), (u16_small (e * 2048)), u16_small by lia. done.
Qed.

Lemma ufloat16_decode_normal m e :
  1 <= e <= 30 -> 2 ^ 11 <= m < 2 ^ 12 -> ufloat16_decode (m + e * 2048) = m * 2 ^ e.
Proof.
  intros He Hm. unfold ufloat16_decode.
  change (Z.shiftl 1 uFloat16MantissaEffectiveBits) with 4096.
  destruct (Z.ltb_spec (m + e * 2048) 4096); [lia|].
  change uFloat16MantissaBits with 11. rewrite Z.shiftr_div_pow2 by lia.
  replace ((m + e * 2048) / 2 ^ 11) with (e + 1)
    by (change (2 ^ 11) with 2048 in *; Z.to_euclidean_division_equations; lia).
  rewrite Z.add_simpl_r, (u16_small e) by lia.
  rewrite (shl64_small e 11) by lia. change (2 ^ 11) with 2048 in *.
  rewrite Z.add_simpl_r, u64_small by lia.
  unfold shl64. rewrite Z.shiftl_mul_pow2 by lia. apply u64_small.
  assert (2 ^ e <= 2 ^ 30) by (apply Z.pow_le_mono_r; lia).
  assert (0 < 2 ^ e) by (apply Z.pow_pos_nonneg; lia). nia.
Qed.

(** encoding a duration as a 16-bit float and decoding it never overstates
    it, and the loss is at most one part in 2048; durations below 4096 are exact. *)
Theorem ufloat16_precision v :
  0 <= v < uFloat16MaxValue ->
  let d := ufloat16_decode (ufloat16_encode v) in
  d <= v /\ (v - d) * 2048 <= v /\ (v < 4096 -> d = v).
Proof.
  intros Hv d. destruct (Z.lt_ge_cases v 4096) as [Hsmall|Hbig].
  - assert (Hd : d = v); [|lia]. subst d. unfold ufloat16_encode.
    change (shl64 1 uFloat16MantissaEffectiveBits) with 4096.
    destruct (Z.ltb_spec v 4096); [|lia]. rewrite u16_small by lia. unfold ufloat16_decode.
    change (Z.shiftl 1 uFloat16MantissaEffectiveBits) with 4096.
    by destruct (Z.ltb_spec v 4096); [|lia].
  - destruct (ufloat16_encode_normal v ltac:(lia)) as (e & He & Hr & Hb).
    subst d. rewrite He, ufloat16_decode_normal by done.
    assert (0 < 2 ^ e) by (apply Z.pow_pos_nonneg; lia).
    pose proof (Z.div_mod v (2 ^ e) ltac:(lia)) as Hdm.
    pose proof (Z.mod_pos_bound v (2 ^ e) ltac:(lia)).
    change (2 ^ 11) with 2048 in Hb. nia.
Qed.

Lemma ufloat16_precision_witness :
  ufloat16_decode (ufloat16_encode 1000000) = 999936
  /\ ufloat16_decode (ufloat16_encode 1000000) <= 1000000.
Proof. split; [reflexivity | apply (ufloat16_precision 1000000); split; [done|reflexivity]]. Defined.
