(* ===== verification/WireFrames.v ===== *)
(** * Frames without ACK blocks (package wire)

    STREAM, RST_STREAM, WINDOW_UPDATE, BLOCKED, PING, GOAWAY,
    CONNECTION_CLOSE, STOP_WAITING, ADD_ADDRESS and PATHS frames of
    src/mpquic_trans/internal/wire: the records, [Parse...], [Write] and
    [MinLength] of each, round trips, safety of the parsers and the agreement of
    [MinLength] with what [Write] appends. *)

From S2P Require Import Prelude Protocol ByteOrder.

(** ** stream_frame.go *)

Record StreamFrame := mkStreamFrame {
  sf_StreamID : StreamID;
  sf_FinBit : bool;
  sf_DataLenPresent : bool;
  sf_Offset : ByteCount;
  sf_Data : list Z;
}.

Definition errInvalidStreamIDLen := errors_New "StreamFrame: Invalid StreamID length".
Definition errInvalidOffsetLen := errors_New "StreamFrame: Invalid offset length".

Definition StreamFrame_DataLen (f : StreamFrame) : ByteCount := zlen (sf_Data f).

(** The data length and the data; without a length field the rest of the packet
    is data. *)
Definition ParseStreamFrame_data (version : VersionNumber) (dataLenPresent : bool)
    : Reader (list Z) :=
  dataLen ← (if dataLenPresent then ReadUint16 (GetByteOrder version) else mret 0);
  if u16 MaxPacketSize <? dataLen
  then fail (qerr_Error InvalidStreamData "data len too large" [])
  else
    dataLen ← (if negb dataLenPresent then l ← Reader_Len; mret (u16 l) else mret dataLen);
    if negb (dataLen =? 0) then ReadFull dataLen else mret [].

Definition ParseStreamFrame (version : VersionNumber) : Reader StreamFrame :=
  typeByte ← ReadByte;
  let finBit := 0 <? Z.land typeByte 0x40 in
  let dataLenPresent := 0 <? Z.land typeByte 0x20 in
  let offsetLen := Z.shiftr (Z.land typeByte 0x1c) 2 in
  let offsetLen := if negb (offsetLen =? 0) then u8 (offsetLen + 1) else offsetLen in
  let streamIDLen := u8 (Z.land typeByte 0x3 + 1) in
  sid ← ReadUintN (GetByteOrder version) streamIDLen;
  offset ← ReadUintN (GetByteOrder version) offsetLen;
  data ← ParseStreamFrame_data version dataLenPresent;
  let frame := mkStreamFrame (u32 sid) finBit dataLenPresent offset data in
  if u64 (sf_Offset frame + StreamFrame_DataLen frame) <? sf_Offset frame
  then fail (qerr_Error InvalidStreamData "data overflows maximum offset" [])
  else if negb (sf_FinBit frame) && (StreamFrame_DataLen frame =? 0)
  then fail (qerr_Code EmptyStreamFrameNoFin)
  else mret frame.

Definition StreamFrame_calculateStreamIDLength (f : StreamFrame) : Z :=
  if sf_StreamID f <? Z.shiftl 1 8 then 1
  else if sf_StreamID f <? Z.shiftl 1 16 then 2
  else if sf_StreamID f <? Z.shiftl 1 24 then 3
  else 4.

Definition StreamFrame_getOffsetLength (f : StreamFrame) : ByteCount :=
  if sf_Offset f =? 0 then 0
  else if sf_Offset f <? Z.shiftl 1 16 then 2
  else if sf_Offset f <? Z.shiftl 1 24 then 3
  else if sf_Offset f <? Z.shiftl 1 32 then 4
  else if sf_Offset f <? Z.shiftl 1 40 then 5
  else if sf_Offset f <? Z.shiftl 1 48 then 6
  else if sf_Offset f <? Z.shiftl 1 56 then 7
  else 8.

(** The type byte [Write] assembles. *)
Definition StreamFrame_typeByte (fin dataLenPresent : bool) (offsetLength streamIDLen : Z) : Z :=
  let typeByte := 0x80 in
  let typeByte := if fin then Z.lxor typeByte 0x40 else typeByte in
  let typeByte := if dataLenPresent then Z.lxor typeByte 0x20 else typeByte in
  let typeByte := if 0 <? offsetLength
                  then Z.lxor typeByte (u8 (Z.shiftl (u8 (offsetLength - 1)) 2)) else typeByte in
  Z.lxor typeByte (u8 (streamIDLen - 1)).

Definition StreamFrame_Write (f : StreamFrame) (version : VersionNumber) : Writer :=
  if (zlen (sf_Data f) =? 0) && negb (sf_FinBit f)
  then fail (errors_New "StreamFrame: attempting to write empty frame without FIN")
  else
    let offsetLength := StreamFrame_getOffsetLength f in
    let streamIDLen := StreamFrame_calculateStreamIDLength f in
    let bo := GetByteOrder version in
    WriteByte (StreamFrame_typeByte (sf_FinBit f) (sf_DataLenPresent f) offsetLength streamIDLen);;
    (if streamIDLen =? 1 then WriteByte (u8 (sf_StreamID f))
     else if streamIDLen =? 2 then WriteUint16 bo (u16 (sf_StreamID f))
     else if streamIDLen =? 3 then WriteUint24 bo (u32 (sf_StreamID f))
     else if streamIDLen =? 4 then WriteUint32 bo (u32 (sf_StreamID f))
     else fail errInvalidStreamIDLen);;
    (if offsetLength =? 0 then mret tt
     else if offsetLength =? 2 then WriteUint16 bo (u16 (sf_Offset f))
     else if offsetLength =? 3 then WriteUint24 bo (u32 (sf_Offset f))
     else if offsetLength =? 4 then WriteUint32 bo (u32 (sf_Offset f))
     else if offsetLength =? 5 then WriteUint40 bo (u64 (sf_Offset f))
     else if offsetLength =? 6 then WriteUint48 bo (u64 (sf_Offset f))
     else if offsetLength =? 7 then WriteUint56 bo (u64 (sf_Offset f))
     else if offsetLength =? 8 then WriteUint64 bo (u64 (sf_Offset f))
     else fail errInvalidOffsetLen);;
    (if sf_DataLenPresent f then WriteUint16 bo (u16 (zlen (sf_Data f))) else mret tt);;
    WriteBytes (sf_Data f).

Definition StreamFrame_MinLength (f : StreamFrame) (version : VersionNumber) : outcome ByteCount :=
  let length := 1 + StreamFrame_calculateStreamIDLength f + StreamFrame_getOffsetLength f in
  Ok (if sf_DataLenPresent f then length + 2 else length).

(** ** rst_stream_frame.go *)

Record RstStreamFrame := mkRstStreamFrame {
  rst_StreamID : StreamID;
  rst_ErrorCode : Z;
  rst_ByteOffset : ByteCount;
}.

Definition RstStreamFrame_Write (f : RstStreamFrame) (version : VersionNumber) : Writer :=
  WriteByte 0x01;;
  WriteUint32 (GetByteOrder version) (rst_StreamID f);;
  WriteUint64 (GetByteOrder version) (rst_ByteOffset f);;
  WriteUint32 (GetByteOrder version) (rst_ErrorCode f).

Definition RstStreamFrame_MinLength (f : RstStreamFrame) (version : VersionNumber)
  : outcome ByteCount := Ok (1 + 4 + 8 + 4).

Definition ParseRstStreamFrame (version : VersionNumber) : Reader RstStreamFrame :=
  _ ← ReadByte;
  sid ← ReadUint32 (GetByteOrder version);
  byteOffset ← ReadUint64 (GetByteOrder version);
  errorCode ← ReadUint32 (GetByteOrder version);
  mret (mkRstStreamFrame sid errorCode byteOffset).

(** ** window_update_frame.go *)

Record WindowUpdateFrame := mkWindowUpdateFrame {
  wu_StreamID : StreamID;
  wu_ByteOffset : ByteCount;
}.

Definition WindowUpdateFrame_Write (f : WindowUpdateFrame) (version : VersionNumber) : Writer :=
  WriteByte 0x4;;
  WriteUint32 (GetByteOrder version) (wu_StreamID f);;
  WriteUint64 (GetByteOrder version) (wu_ByteOffset f).

Definition WindowUpdateFrame_MinLength (f : WindowUpdateFrame) (version : VersionNumber)
  : outcome ByteCount := Ok (1 + 4 + 8).

Definition ParseWindowUpdateFrame (version : VersionNumber) : Reader WindowUpdateFrame :=
  _ ← ReadByte;
  sid ← ReadUint32 (GetByteOrder version);
  byteOffset ← ReadUint64 (GetByteOrder version);
  mret (mkWindowUpdateFrame sid byteOffset).

(** ** blocked_frame.go *)

Record BlockedFrame := mkBlockedFrame { bl_StreamID : StreamID }.

Definition BlockedFrame_Write (f : BlockedFrame) (version : VersionNumber) : Writer :=
  WriteByte 0x05;;
  WriteUint32 (GetByteOrder version) (bl_StreamID f).

Definition BlockedFrame_MinLength (f : BlockedFrame) (version : VersionNumber)
  : outcome ByteCount := Ok (1 + 4).

Definition ParseBlockedFrame (version : VersionNumber) : Reader BlockedFrame :=
  _ ← ReadByte;
  sid ← ReadUint32 (GetByteOrder version);
  mret (mkBlockedFrame sid).

(** ** ping_frame.go *)

Record PingFrame := mkPingFrame {}.

Definition ParsePingFrame (version : VersionNumber) : Reader PingFrame :=
  _ ← ReadByte;
  mret mkPingFrame.

Definition PingFrame_Write (f : PingFrame) (version : VersionNumber) : Writer :=
  WriteByte 0x07.

Definition PingFrame_MinLength (f : PingFrame) (version : VersionNumber)
  : outcome ByteCount := Ok 1.

(** ** goaway_frame.go *)

Record GoawayFrame := mkGoawayFrame {
  ga_ErrorCode : Z;
  ga_LastGoodStream : StreamID;
  ga_ReasonPhrase : list Z;
}.

Definition ParseGoawayFrame (version : VersionNumber) : Reader GoawayFrame :=
  _ ← ReadByte;
  errorCode ← ReadUint32 (GetByteOrder version);
  lastGoodStream ← ReadUint32 (GetByteOrder version);
  reasonPhraseLen ← ReadUint16 (GetByteOrder version);
  if u16 MaxPacketSize <? reasonPhraseLen
  then fail (qerr_Error InvalidGoawayData "reason phrase too long" [])
  else
    reasonPhrase ← ReadFull reasonPhraseLen;
    mret (mkGoawayFrame errorCode lastGoodStream reasonPhrase).

Definition GoawayFrame_Write (f : GoawayFrame) (version : VersionNumber) : Writer :=
  WriteByte 0x03;;
  WriteUint32 (GetByteOrder version) (ga_ErrorCode f);;
  WriteUint32 (GetByteOrder version) (ga_LastGoodStream f);;
  WriteUint16 (GetByteOrder version) (u16 (zlen (ga_ReasonPhrase f)));;
  WriteBytes (ga_ReasonPhrase f).

Definition GoawayFrame_MinLength (f : GoawayFrame) (version : VersionNumber)
  : outcome ByteCount := Ok (1 + 4 + 4 + 2 + zlen (ga_ReasonPhrase f)).

(** ** connection_close_frame.go *)

Record ConnectionCloseFrame := mkConnectionCloseFrame {
  cc_ErrorCode : Z;
  cc_ReasonPhrase : list Z;
}.

Definition ParseConnectionCloseFrame (version : VersionNumber) : Reader ConnectionCloseFrame :=
  _ ← ReadByte;
  errorCode ← ReadUint32 (GetByteOrder version);
  reasonPhraseLen ← ReadUint16 (GetByteOrder version);
  if u16 MaxPacketSize <? reasonPhraseLen
  then fail (qerr_Error InvalidConnectionCloseData "reason phrase too long" [])
  else
    reasonPhrase ← ReadFull reasonPhraseLen;
    mret (mkConnectionCloseFrame errorCode reasonPhrase).

Definition ConnectionCloseFrame_MinLength (f : ConnectionCloseFrame) (version : VersionNumber)
  : outcome ByteCount := Ok (1 + 4 + 2 + zlen (cc_ReasonPhrase f)).

Definition ConnectionCloseFrame_Write (f : ConnectionCloseFrame) (version : VersionNumber) : Writer :=
  WriteByte 0x02;;
  WriteUint32 (GetByteOrder version) (cc_ErrorCode f);;
  if 65535 <? zlen (cc_ReasonPhrase f)
  then fail (errors_New "ConnectionFrame: ReasonPhrase too long")
  else
    WriteUint16 (GetByteOrder version) (u16 (zlen (cc_ReasonPhrase f)));;
    WriteBytes (cc_ReasonPhrase f).

(** ** stop_waiting_frame.go *)

Record StopWaitingFrame := mkStopWaitingFrame {
  sw_LeastUnacked : PacketNumber;
  sw_PacketNumberLen : PacketNumberLen;
  sw_PacketNumber : PacketNumber;
}.

Definition errLeastUnackedHigherThanPacketNumber :=
  errors_New "StopWaitingFrame: LeastUnacked can't be greater than the packet number".
Definition errPacketNumberNotSet := errors_New "StopWaitingFrame: PacketNumber not set".
Definition errPacketNumberLenNotSet := errors_New "StopWaitingFrame: PacketNumberLen not set".

Definition StopWaitingFrame_Write (f : StopWaitingFrame) (version : VersionNumber) : Writer :=
  if sw_PacketNumber f =? 0 then fail errPacketNumberNotSet
  else if sw_PacketNumber f <? sw_LeastUnacked f then fail errLeastUnackedHigherThanPacketNumber
  else
    WriteByte 0x06;;
    let leastUnackedDelta := u64 (sw_PacketNumber f - sw_LeastUnacked f) in
    let len := sw_PacketNumberLen f in
    if len =? PacketNumberLen1 then WriteByte (u8 leastUnackedDelta)
    else if len =? PacketNumberLen2
    then WriteUint16 (GetByteOrder version) (u16 leastUnackedDelta)
    else if len =? PacketNumberLen4
    then WriteUint32 (GetByteOrder version) (u32 leastUnackedDelta)
    else if len =? PacketNumberLen6
    then WriteUint48 (GetByteOrder version) (Z.land leastUnackedDelta (Z.shiftl 1 48 - 1))
    else fail errPacketNumberLenNotSet.

Definition StopWaitingFrame_MinLength (f : StopWaitingFrame) (version : VersionNumber)
    : outcome ByteCount :=
  if sw_PacketNumberLen f =? PacketNumberLenInvalid then Err errPacketNumberLenNotSet
  else Ok (1 + sw_PacketNumberLen f).

Definition ParseStopWaitingFrame (packetNumber : PacketNumber) (packetNumberLen : PacketNumberLen)
    (version : VersionNumber) : Reader StopWaitingFrame :=
  _ ← ReadByte;
  leastUnackedDelta ← ReadUintN (GetByteOrder version) packetNumberLen;
  if packetNumber <=? leastUnackedDelta
  then fail (qerr_Error InvalidStopWaitingData "invalid LeastUnackedDelta" [])
  else mret (mkStopWaitingFrame (u64 (packetNumber - leastUnackedDelta)) 0 0).

(** ** add_address_frame.go *)

(** [net.UDPAddr] without its zone: the IP bytes and the port. *)
Record UDPAddr := mkUDPAddr { addr_IP : list Z; addr_Port : Z }.

Record AddAddressFrame := mkAddAddressFrame {
  aa_IPVersion : Z;
  aa_Addr : UDPAddr;
}.

Definition ErrUnknownIPVersion := errors_New "AddAddressFrame: unknown IP version".
Definition errInconsistentAddrIPVersion :=
  errors_New "internal inconsistency: Addr does not match IP version".

(** The prefix of an IPv4 address in its 16-byte form, and [To4], [To16] and
    [IPv4] of package net. *)
Definition v4InV6Prefix : list Z := [0; 0; 0; 0; 0; 0; 0; 0; 0; 0; 255; 255].

Definition IP_To4 (ip : list Z) : option (list Z) :=
  if zlen ip =? 4 then Some ip
  else if (zlen ip =? 16) && bool_decide (take 12 ip = v4InV6Prefix) then Some (drop 12 ip)
  else None.

Definition IP_To16 (ip : list Z) : option (list Z) :=
  if zlen ip =? 4 then Some (v4InV6Prefix ++ ip)
  else if zlen ip =? 16 then Some ip
  else None.

Definition net_IPv4 (a b c d : Z) : list Z := v4InV6Prefix ++ [a; b; c; d].

Definition AddAddressFrame_Write (f : AddAddressFrame) (version : VersionNumber) : Writer :=
  WriteByte 0x10;;
  WriteByte (aa_IPVersion f);;
  (if aa_IPVersion f =? 4 then
     match IP_To4 (addr_IP (aa_Addr f)) with
     | None => fail errInconsistentAddrIPVersion
     | Some ip => WriteBytes ip
     end
   else if aa_IPVersion f =? 6 then
     match IP_To16 (addr_IP (aa_Addr f)) with
     | None => fail errInconsistentAddrIPVersion
     | Some ip => WriteBytes ip
     end
   else fail ErrUnknownIPVersion);;
  WriteUint16 (GetByteOrder version) (u16 (addr_Port (aa_Addr f))).

(** The loop of the IPv6 case; [n] bytes are still to be read. *)
Fixpoint read_ip_bytes (n : nat) : Reader (list Z) :=
  match n with
  | O => mret []
  | S n' => b ← ReadByte; bs ← read_ip_bytes n'; mret (b :: bs)
  end.

Definition ParseAddAddressFrame (version : VersionNumber) : Reader AddAddressFrame :=
  _ ← ReadByte;
  ipv ← ReadByte;
  ip ← (if ipv =? 4 then
          a ← ReadByte; b ← ReadByte; c ← ReadByte; d ← ReadByte;
          mret (net_IPv4 a b c d)
        else if ipv =? 6 then read_ip_bytes 16
        else fail ErrUnknownIPVersion);
  port ← ReadUint16 (GetByteOrder version);
  mret (mkAddAddressFrame ipv (mkUDPAddr ip port)).

Definition AddAddressFrame_MinLength (f : AddAddressFrame) (version : VersionNumber)
    : outcome ByteCount :=
  if aa_IPVersion f =? 4 then Ok (1 + 1 + 4 + 2)
  else if aa_IPVersion f =? 6 then Ok (1 + 1 + 16 + 2)
  else Err ErrUnknownIPVersion.

(** ** paths_frame.go *)

Record PathsFrame := mkPathsFrame {
  pf_MaxNumPaths : Z;
  pf_NumPaths : Z;
  pf_PathIDs : list PathID;
  pf_RemoteRTTs : list Duration;
}.

Definition ErrTooManyPaths := errors_New "PathsFrame: more paths than the maximum enabled".
Definition ErrPathsNumber :=
  errors_New "PathsFrame: number of paths advertised and # of paths do not match".
Definition ErrMissingRTT :=
  errors_New "PathsFrame: number of paths IDs and number of remote RTTs do not match".

(** [uint64(d / time.Microsecond)]; the division of Go truncates. *)
Definition duration_us (d : Duration) : Z := u64 (Z.quot d Microsecond).

Fixpoint write_paths (bo : ByteOrder) (ids : list PathID) (rtts : list Duration) : Writer :=
  match ids, rtts with
  | id :: ids', rtt :: rtts' =>
      WriteByte (u8 id);;
      WriteUfloat16 bo (duration_us rtt);;
      write_paths bo ids' rtts'
  | _, _ => mret tt
  end.

Definition PathsFrame_Write (f : PathsFrame) (version : VersionNumber) : Writer :=
  WriteByte 0x12;;
  WriteByte (pf_MaxNumPaths f);;
  WriteByte (pf_NumPaths f);;
  if negb (pf_NumPaths f =? zlen (pf_PathIDs f)) then fail ErrPathsNumber
  else if negb (zlen (pf_PathIDs f) =? zlen (pf_RemoteRTTs f)) then fail ErrMissingRTT
  else write_paths (GetByteOrder version) (pf_PathIDs f) (pf_RemoteRTTs f).

Fixpoint read_paths (bo : ByteOrder) (n : nat) : Reader (list PathID * list Duration) :=
  match n with
  | O => mret ([], [])
  | S n' =>
      pathID ← ReadByte;
      remoteRTT ← ReadUfloat16 bo;
      '(ids, rtts) ← read_paths bo n';
      mret (pathID :: ids, i64 (i64 remoteRTT * Microsecond) :: rtts)
  end.

Definition ParsePathsFrame (version : VersionNumber) : Reader PathsFrame :=
  _ ← ReadByte;
  maxNum ← ReadByte;
  num ← ReadByte;
  if maxNum <? num then fail ErrTooManyPaths
  else
    '(ids, rtts) ← read_paths (GetByteOrder version) (Z.to_nat num);
    mret (mkPathsFrame maxNum num ids rtts).

(** The sum is computed in [uint8], the type of [NumPaths]. *)
Definition PathsFrame_MinLength (f : PathsFrame) (version : VersionNumber) : outcome ByteCount :=
  Ok (u8 (1 + 1 + 1 + u8 (3 * pf_NumPaths f))).

(** ** Round trips *)

(** Values a frame's fields can hold at their Go types. *)
Definition u16_ok (z : Z) : Prop := 0 <= z < 2 ^ 16.
Definition u32_ok (z : Z) : Prop := 0 <= z < 2 ^ 32.
Definition u64_ok (z : Z) : Prop := 0 <= z < 2 ^ 64.

(** The bytes of an integer in the byte order of a version. *)
Definition enc (v : VersionNumber) (n : nat) (z : Z) : list Z := bo_enc (bo := GetByteOrder v) n z.

Lemma enc_zlen v n z : zlen (enc v n z) = Z.of_nat n.
Proof. unfold zlen, enc. by rewrite bo_enc_length. Qed.

Lemma reads_u32 v z : u32_ok z -> reads (ReadUint32 (GetByteOrder v)) (enc v 4 z) z.
Proof. apply bo_read32. Qed.
Lemma reads_u64 v z : u64_ok z -> reads (ReadUint64 (GetByteOrder v)) (enc v 8 z) z.
Proof. apply bo_read64. Qed.
Lemma reads_u16 v z : u16_ok z -> reads (ReadUint16 (GetByteOrder v)) (enc v 2 z) z.
Proof. apply bo_read16. Qed.
Lemma writes_u32 v z : writes (WriteUint32 (GetByteOrder v) z) (enc v 4 z).
Proof. apply bo_write32. Qed.
Lemma writes_u64 v z : writes (WriteUint64 (GetByteOrder v) z) (enc v 8 z).
Proof. apply bo_write64. Qed.
Lemma writes_u16 v z : writes (WriteUint16 (GetByteOrder v) z) (enc v 2 z).
Proof. apply bo_write16. Qed.

#[export] Hint Resolve reads_u16 reads_u32 reads_u64 writes_u16 writes_u32 writes_u64 : codec.
#[export] Hint Rewrite enc_zlen : ints.

(** [codec t w r a n]: what [w] writes starts with the type byte [t], [r] reads it
    back as [a], and it is [n] bytes long. *)
Definition codec {A} (t : Z) (w : Writer) (r : Reader A) (a : A) (n : Z) : Prop :=
  exists bs, writes w bs /\ reads r bs a /\ zlen bs = n /\ head bs = Some t.

Lemma reads_bind_ret {A B} (r : Reader A) (g : A -> B) bs a b :
  reads r bs a -> g a = b -> reads (x ← r; mret (g x)) bs b.
Proof. intros H <-. rewrite <- (app_nil_r bs). eapply reads_bind; [exact H | apply reads_ret]. Qed.

(** Step through a sequence of writes or reads whose pieces the database knows. *)
Ltac codec_step :=
  first [ eapply writes_bind; [solve [eauto with codec nocore] |]
        | eapply reads_bind_ret; [solve [eauto with codec nocore] | reflexivity]
        | eapply reads_bind; [solve [eauto with codec nocore] |]
        | solve [eauto with codec nocore] ].
Ltac codec_steps := repeat codec_step.
Ltac codec_length := autorewrite with ints; lia.
Ltac codec_tac := eexists; split_and!; [codec_steps | codec_steps | codec_length | reflexivity].

(** Field projections of the records, reduced before the codec steps. *)
Ltac frame_cbn :=
  cbn [sf_StreamID sf_FinBit sf_DataLenPresent sf_Offset sf_Data
       rst_StreamID rst_ErrorCode rst_ByteOffset wu_StreamID wu_ByteOffset bl_StreamID
       ga_ErrorCode ga_LastGoodStream ga_ReasonPhrase cc_ErrorCode cc_ReasonPhrase
       sw_LeastUnacked sw_PacketNumberLen sw_PacketNumber
       aa_IPVersion aa_Addr addr_IP addr_Port
       pf_MaxNumPaths pf_NumPaths pf_PathIDs pf_RemoteRTTs] in *.

Definition RstStreamFrame_ok (f : RstStreamFrame) : Prop :=
  u32_ok (rst_StreamID f) /\ u32_ok (rst_ErrorCode f) /\ u64_ok (rst_ByteOffset f).

Lemma RstStreamFrame_codec v f : RstStreamFrame_ok f ->
  codec 0x01 (RstStreamFrame_Write f v) (ParseRstStreamFrame v) f 17.
Proof.
  destruct f. intros (H1 & H2 & H3). unfold RstStreamFrame_Write. frame_cbn. codec_tac.
Qed.

Lemma WindowUpdateFrame_codec v f : u32_ok (wu_StreamID f) -> u64_ok (wu_ByteOffset f) ->
  codec 0x04 (WindowUpdateFrame_Write f v) (ParseWindowUpdateFrame v) f 13.
Proof. destruct f. intros H1 H2. unfold WindowUpdateFrame_Write. frame_cbn. codec_tac. Qed.

Lemma BlockedFrame_codec v f : u32_ok (bl_StreamID f) ->
  codec 0x05 (BlockedFrame_Write f v) (ParseBlockedFrame v) f 5.
Proof. destruct f. intros H1. unfold BlockedFrame_Write. frame_cbn. codec_tac. Qed.

Lemma PingFrame_codec v f : codec 0x07 (PingFrame_Write f v) (ParsePingFrame v) f 1.
Proof. destruct f. unfold PingFrame_Write. codec_tac. Qed.

Lemma GoawayFrame_codec v f :
  u32_ok (ga_ErrorCode f) -> u32_ok (ga_LastGoodStream f) ->
  zlen (ga_ReasonPhrase f) <= MaxPacketSize ->
  codec 0x03 (GoawayFrame_Write f v) (ParseGoawayFrame v) f (11 + zlen (ga_ReasonPhrase f)).
Proof.
  destruct f as [e g r]. unfold GoawayFrame_Write, ParseGoawayFrame, MaxPacketSize. frame_cbn.
  intros H1 H2 H3. pose proof (zlen_nonneg r). rewrite u16_small by lia.
  assert (u16_ok (zlen r)) by (split; lia). pose proof (reads_full r (zlen r) eq_refl).
  eexists. split_and!; [codec_steps| |codec_length|done].
  codec_steps. destruct (Z.ltb_spec (u16 1350) (zlen r)) as [Hc|]; [exfalso; revert Hc; glia|].
  codec_steps.
Qed.

Lemma ConnectionCloseFrame_codec v f :
  u32_ok (cc_ErrorCode f) -> zlen (cc_ReasonPhrase f) <= MaxPacketSize ->
  codec 0x02 (ConnectionCloseFrame_Write f v) (ParseConnectionCloseFrame v) f
    (7 + zlen (cc_ReasonPhrase f)).
Proof.
  destruct f as [e r]. unfold ConnectionCloseFrame_Write, ParseConnectionCloseFrame, MaxPacketSize.
  frame_cbn. intros H1 H3. pose proof (zlen_nonneg r).
  destruct (Z.ltb_spec 65535 (zlen r)); [lia|]. rewrite u16_small by lia.
  assert (u16_ok (zlen r)) by (split; lia). pose proof (reads_full r (zlen r) eq_refl).
  eexists. split_and!; [codec_steps| |codec_length|done].
  codec_steps. destruct (Z.ltb_spec (u16 1350) (zlen r)) as [Hc|]; [exfalso; revert Hc; glia|].
  codec_steps.
Qed.

Lemma reads_enc v n z :
  1 <= n <= 8 -> 0 <= z < 2 ^ (8 * n) ->
  reads (ReadUintN (GetByteOrder v) n) (enc v (Z.to_nat n) z) z.
Proof. apply reads_uintN. Qed.

(** The write of a packet number or delta at one of the four lengths. *)
Lemma writes_enc_1 v z : writes (WriteByte (u8 z)) (enc v 1 z).
Proof. unfold enc. rewrite bo_enc_1. apply writes_byte. Qed.

Lemma writes_enc_6 v z : 0 <= z < 2 ^ 48 ->
  writes (WriteUint48 (GetByteOrder v) (Z.land z (Z.shiftl 1 48 - 1))) (enc v 6 z).
Proof.
  intros Hz. change (Z.shiftl 1 48 - 1) with (Z.ones 48).
  rewrite Z.land_ones, Z.mod_small by lia. apply bo_write48. lia.
Qed.

(** A STOP_WAITING frame is read back with the least unacked number it was
    written for, from the number and length of the packet that carries it. *)
Lemma StopWaitingFrame_codec v f :
  valid_len (sw_PacketNumberLen f) -> 0 < sw_LeastUnacked f <= sw_PacketNumber f ->
  sw_PacketNumber f < 2 ^ 64 ->
  sw_PacketNumber f - sw_LeastUnacked f < epoch_size (sw_PacketNumberLen f) ->
  codec 0x06 (StopWaitingFrame_Write f v)
    (ParseStopWaitingFrame (sw_PacketNumber f) (sw_PacketNumberLen f) v)
    (mkStopWaitingFrame (sw_LeastUnacked f) 0 0) (1 + sw_PacketNumberLen f).
Proof.
  destruct f as [lu len pn]. unfold StopWaitingFrame_Write, ParseStopWaitingFrame. frame_cbn.
  intros Hlen Hlu Hpn Hd.
  destruct (Z.eqb_spec pn 0); [lia|]. destruct (Z.ltb_spec pn lu); [lia|].
  rewrite (u64_small (pn - lu)) by lia.
  exists ([6] ++ enc v (Z.to_nat len) (pn - lu)). split_and!.
  - eapply writes_bind; [apply writes_byte|]. unfold epoch_size in Hd.
    destruct Hlen as [->|[->|[->| ->]]]; cbn [Z.eqb Pos.eqb PacketNumberLen1 PacketNumberLen2
      PacketNumberLen4 PacketNumberLen6]; cbn in Hd.
    + apply writes_enc_1.
    + rewrite u16_small by lia. apply writes_u16.
    + rewrite u32_small by lia. apply writes_u32.
    + apply writes_enc_6. lia.
  - eapply reads_bind; [apply reads_byte|]. rewrite <- (app_nil_r (enc _ _ _)).
    eapply reads_bind.
    { apply reads_enc; [destruct Hlen as [->|[->|[->| ->]]]; lia|]. unfold epoch_size in Hd. lia. }
    destruct (Z.leb_spec pn (pn - lu)); [lia|].
    rewrite u64_small by lia. replace (pn - (pn - lu)) with lu by lia. apply reads_ret.
  - autorewrite with ints. destruct Hlen as [->|[->|[->| ->]]]; reflexivity.
  - done.
Qed.

Lemma read_ip_bytes_reads bs : reads (read_ip_bytes (length bs)) bs bs.
Proof.
  induction bs as [|b bs IH]; [apply reads_ret|]. simpl.
  apply (reads_bind _ _ [b] _ _ _ (reads_byte b)).
  eapply reads_bind_ret; [exact IH | done].
Qed.

Lemma zlen_list4 (l : list Z) : zlen l = 4 -> exists a b c d, l = [a; b; c; d].
Proof.
  unfold zlen. intros H. destruct l as [|a [|b [|c [|d [|]]]]]; simpl in H; try lia. eauto.
Qed.

(** The two forms of an IPv4 address have the same 16-byte form. *)
Lemma IP_To4_To16 ip ip4 : IP_To4 ip = Some ip4 ->
  IP_To16 ip = Some (v4InV6Prefix ++ ip4) /\ zlen ip4 = 4.
Proof.
  unfold IP_To4, IP_To16. destruct (Z.eqb_spec (zlen ip) 4); [naive_solver|].
  destruct (Z.eqb_spec (zlen ip) 16); [|done]. simpl.
  case_bool_decide as Hp; [|done]. intros [= <-]. split.
  - f_equal. rewrite <- (take_drop 12 ip) at 1. by rewrite Hp.
  - unfold zlen in *. rewrite length_drop. lia.
Qed.

(** An ADD_ADDRESS frame is read back with its address in 16-byte form. *)
Lemma AddAddressFrame_codec v f ip16 :
  u16_ok (addr_Port (aa_Addr f)) -> IP_To16 (addr_IP (aa_Addr f)) = Some ip16 ->
  (aa_IPVersion f = 4 /\ is_Some (IP_To4 (addr_IP (aa_Addr f)))) \/ aa_IPVersion f = 6 ->
  codec 0x10 (AddAddressFrame_Write f v) (ParseAddAddressFrame v)
    (mkAddAddressFrame (aa_IPVersion f) (mkUDPAddr ip16 (addr_Port (aa_Addr f))))
    (if aa_IPVersion f =? 4 then 8 else 20).
Proof.
  destruct f as [ver [ip port]]. unfold AddAddressFrame_Write, ParseAddAddressFrame. frame_cbn.
  intros Hp H16 [[-> [ip4 H4]]| ->]; cbn [Z.eqb Pos.eqb].
  - rewrite H4. destruct (IP_To4_To16 _ _ H4) as [H16' Hl]. rewrite H16 in H16'.
    injection H16' as ->. destruct (zlen_list4 _ Hl) as (a & b & c & d & ->).
    rewrite (u16_small port) by (unfold u16_ok in Hp; lia).
    exists ([16] ++ [4] ++ [a; b; c; d] ++ enc v 2 port). split_and!; [codec_steps| |codec_length|done].
    codec_steps.
  - rewrite H16. rewrite (u16_small port) by (unfold u16_ok in Hp; lia).
    assert (Hl : length ip16 = 16%nat).
    { revert H16. unfold IP_To16, zlen. cases_bool; intros [= <-]; rewrite ?length_app; simpl; lia. }
    exists ([16] ++ [6] ++ ip16 ++ enc v 2 port). split_and!; [codec_steps| | |done].
    + codec_steps. eapply reads_bind; [rewrite <- Hl; apply read_ip_bytes_reads|]. codec_steps.
    + autorewrite with ints. unfold zlen. lia.
Qed.

(** An RTT as the peer sees it: microseconds through the 16-bit float. *)
Definition rtt_on_wire (d : Duration) : Duration :=
  i64 (i64 (ufloat16_decode (ufloat16_encode (duration_us d))) * Microsecond).

Lemma ufloat16_encode_range v : u16_ok (ufloat16_encode v).
Proof.
  unfold ufloat16_encode, u16_ok. destruct (_ <? _); [apply u16_range|].
  destruct (_ <=? _); [lia|]. destruct (foldl _ _ _). apply u16_range.
Qed.

Lemma paths_codec v ids rtts :
  Forall byte_ok ids -> length ids = length rtts ->
  exists bs, writes (write_paths (GetByteOrder v) ids rtts) bs
    /\ reads (read_paths (GetByteOrder v) (length ids)) bs (ids, map rtt_on_wire rtts)
    /\ zlen bs = 3 * zlen ids.
Proof.
  revert rtts. induction ids as [|id ids IH]; intros [|rtt rtts] Hids Hl; try done.
  { exists []. split_and!; [apply writes_ret | apply reads_ret | done]. }
  apply Forall_cons in Hids as [Hid Hids]. injection Hl as Hl.
  destruct (IH _ Hids Hl) as (bs & Hw & Hr & Hn).
  exists ([id] ++ enc v 2 (ufloat16_encode (duration_us rtt)) ++ bs). split_and!.
  - cbn [write_paths]. rewrite u8_small by done.
    eapply writes_bind; [apply writes_byte|]. eapply writes_bind; [apply writes_u16 | exact Hw].
  - cbn [read_paths length]. apply (reads_bind _ _ [id] _ _ _ (reads_byte id)).
    eapply reads_bind.
    { eapply reads_bind_ret; [apply reads_u16, ufloat16_encode_range | reflexivity]. }
    rewrite <- (app_nil_r bs). eapply reads_bind; [exact Hr | apply reads_ret].
  - autorewrite with ints. lia.
Qed.

(** A PATHS frame is read back with every RTT as it fits the wire format. *)
Lemma PathsFrame_codec v f :
  byte_ok (pf_MaxNumPaths f) -> 0 <= pf_NumPaths f <= pf_MaxNumPaths f ->
  pf_NumPaths f = zlen (pf_PathIDs f) -> length (pf_PathIDs f) = length (pf_RemoteRTTs f) ->
  Forall byte_ok (pf_PathIDs f) ->
  codec 0x12 (PathsFrame_Write f v) (ParsePathsFrame v)
    (mkPathsFrame (pf_MaxNumPaths f) (pf_NumPaths f) (pf_PathIDs f)
       (map rtt_on_wire (pf_RemoteRTTs f)))
    (3 + 3 * pf_NumPaths f).
Proof.
  destruct f as [mx num ids rtts]. unfold PathsFrame_Write, ParsePathsFrame. frame_cbn.
  intros Hmx Hnum Hn Hl Hids.
  destruct (paths_codec v ids rtts Hids Hl) as (bs & Hw & Hr & Hz).
  assert (Hz2 : zlen rtts = zlen ids) by (unfold zlen; lia).
  rewrite Hn, Hz2, Z.eqb_refl. cbn [negb].
  exists ([0x12] ++ [mx] ++ [zlen ids] ++ bs). split_and!; [codec_steps| |codec_length|done].
  codec_steps. destruct (Z.ltb_spec mx (zlen ids)); [lia|].
  replace (Z.to_nat (zlen ids)) with (length ids) by (unfold zlen; lia).
  rewrite <- (app_nil_r bs).
  eapply reads_bind; [exact Hr | apply reads_ret].
Qed.

(** *** STREAM frames *)

Definition StreamFrame_ok (f : StreamFrame) : Prop :=
  u32_ok (sf_StreamID f) /\ u64_ok (sf_Offset f) /\
  u64_ok (sf_Offset f + StreamFrame_DataLen f) /\ zlen (sf_Data f) <= MaxPacketSize /\
  (sf_FinBit f = true \/ sf_Data f <> []).

Lemma StreamFrame_idLen_spec f : u32_ok (sf_StreamID f) ->
  let n := StreamFrame_calculateStreamIDLength f in
  1 <= n <= 4 /\ sf_StreamID f < 2 ^ (8 * n).
Proof.
  unfold u32_ok, StreamFrame_calculateStreamIDLength. rewrite !Z.shiftl_1_l.
  intros H. cases_bool; cbn; lia.
Qed.

Lemma StreamFrame_offLen_spec f : u64_ok (sf_Offset f) ->
  let n := StreamFrame_getOffsetLength f in
  (n = 0 /\ sf_Offset f = 0) \/ (2 <= n <= 8 /\ sf_Offset f < 2 ^ (8 * n)).
Proof.
  unfold u64_ok, StreamFrame_getOffsetLength. rewrite !Z.shiftl_1_l.
  intros H. cases_bool; cbn; lia.
Qed.

(** The parser recovers both flags and both lengths from the type byte. *)
Lemma StreamFrame_typeByte_spec fin dlp ol il :
  (ol = 0 \/ 2 <= ol <= 8) -> 1 <= il <= 4 ->
  let tb := StreamFrame_typeByte fin dlp ol il in
  (0 <? Z.land tb 0x40) = fin /\ (0 <? Z.land tb 0x20) = dlp /\
  (let o := Z.shiftr (Z.land tb 0x1c) 2 in if negb (o =? 0) then u8 (o + 1) else o) = ol /\
  u8 (Z.land tb 0x3 + 1) = il.
Proof.
  intros Hol Hil.
  assert (Hol' : ol = 0 \/ ol = 2 \/ ol = 3 \/ ol = 4 \/ ol = 5 \/ ol = 6 \/ ol = 7 \/ ol = 8) by lia.
  assert (Hil' : il = 1 \/ il = 2 \/ il = 3 \/ il = 4) by lia. clear Hol Hil.
  destruct fin, dlp; destruct_or! Hol'; destruct_or! Hil'; subst; vm_compute; auto.
Qed.

Definition StreamFrame_header (v : VersionNumber) (f : StreamFrame) : list Z :=
  let ol := StreamFrame_getOffsetLength f in
  let il := StreamFrame_calculateStreamIDLength f in
  [StreamFrame_typeByte (sf_FinBit f) (sf_DataLenPresent f) ol il]
  ++ enc v (Z.to_nat il) (sf_StreamID f)
  ++ (if ol =? 0 then [] else enc v (Z.to_nat ol) (sf_Offset f))
  ++ (if sf_DataLenPresent f then enc v 2 (zlen (sf_Data f)) else []).

Lemma StreamFrame_writes_id v f : u32_ok (sf_StreamID f) ->
  let il := StreamFrame_calculateStreamIDLength f in let bo := GetByteOrder v in
  writes
    (if il =? 1 then WriteByte (u8 (sf_StreamID f))
     else if il =? 2 then WriteUint16 bo (u16 (sf_StreamID f))
     else if il =? 3 then WriteUint24 bo (u32 (sf_StreamID f))
     else if il =? 4 then WriteUint32 bo (u32 (sf_StreamID f))
     else fail errInvalidStreamIDLen)
    (enc v (Z.to_nat il) (sf_StreamID f)).
Proof.
  intros H il bo. destruct (StreamFrame_idLen_spec f H) as [Hil Hid]. fold il in Hil, Hid.
  unfold u32_ok in H. destruct (Z.eqb_spec il 1) as [E|]; [rewrite E; apply writes_enc_1|].
  destruct (Z.eqb_spec il 2) as [E|]; [rewrite E in *; rewrite u16_small by lia; apply writes_u16|].
  rewrite u32_small by lia.
  destruct (Z.eqb_spec il 3) as [E|]; [rewrite E in *; by apply bo_write24|].
  destruct (Z.eqb_spec il 4) as [E|]; [rewrite E in *; apply writes_u32 | lia].
Qed.

Lemma StreamFrame_writes_offset v f : u64_ok (sf_Offset f) ->
  let ol := StreamFrame_getOffsetLength f in let bo := GetByteOrder v in
  writes
    (if ol =? 0 then mret tt
     else if ol =? 2 then WriteUint16 bo (u16 (sf_Offset f))
     else if ol =? 3 then WriteUint24 bo (u32 (sf_Offset f))
     else if ol =? 4 then WriteUint32 bo (u32 (sf_Offset f))
     else if ol =? 5 then WriteUint40 bo (u64 (sf_Offset f))
     else if ol =? 6 then WriteUint48 bo (u64 (sf_Offset f))
     else if ol =? 7 then WriteUint56 bo (u64 (sf_Offset f))
     else if ol =? 8 then WriteUint64 bo (u64 (sf_Offset f))
     else fail errInvalidOffsetLen)
    (if ol =? 0 then [] else enc v (Z.to_nat ol) (sf_Offset f)).
Proof.
  intros H ol bo. pose proof (StreamFrame_offLen_spec f H) as Hol. fold ol in Hol.
  cbv zeta in Hol. unfold u64_ok in H.
  destruct (Z.eqb_spec ol 0); [apply writes_ret|]. destruct Hol as [?|[Hol Hoff]]; [lia|].
  destruct (Z.eqb_spec ol 2) as [E|]; [rewrite E in *; rewrite u16_small by lia; apply writes_u16|].
  rewrite (u64_small (sf_Offset f)) by lia.
  destruct (Z.eqb_spec ol 3) as [E|]; [rewrite E in *; rewrite u32_small by lia; by apply bo_write24|].
  destruct (Z.eqb_spec ol 4) as [E|]; [rewrite E in *; rewrite u32_small by lia; apply writes_u32|].
  destruct (Z.eqb_spec ol 5) as [E|]; [rewrite E in *; by apply bo_write40|].
  destruct (Z.eqb_spec ol 6) as [E|]; [rewrite E in *; by apply bo_write48|].
  destruct (Z.eqb_spec ol 7) as [E|]; [rewrite E in *; by apply bo_write56|].
  destruct (Z.eqb_spec ol 8) as [E|]; [rewrite E in *; apply writes_u64 | lia].
Qed.

Lemma StreamFrame_writes v f : StreamFrame_ok f ->
  writes (StreamFrame_Write f v) (StreamFrame_header v f ++ sf_Data f).
Proof.
  intros (H1 & H2 & H3 & H4 & H5). unfold MaxPacketSize in H4.
  unfold StreamFrame_Write, StreamFrame_header.
  destruct (Z.eqb_spec (zlen (sf_Data f)) 0) as [E|]; [destruct H5 as [Hf|Hd]|].
  2: { destruct (sf_Data f); [done | unfold zlen in E; simpl in E; lia]. }
  1: rewrite Hf.
  all: cbn [negb andb]; rewrite <- !app_assoc;
    eapply writes_bind; [apply writes_byte|];
    eapply writes_bind; [by apply StreamFrame_writes_id|];
    eapply writes_bind; [by apply StreamFrame_writes_offset|];
    eapply writes_bind; [|apply writes_bytes];
    destruct (sf_DataLenPresent f); [|apply writes_ret];
    pose proof (zlen_nonneg (sf_Data f)); rewrite u16_small by lia; apply writes_u16.
Qed.

(** The fixed part of the header, up to the data length. *)
Lemma StreamFrame_reads_ids v f : StreamFrame_ok f ->
  let ol := StreamFrame_getOffsetLength f in
  reads (ReadUintN (GetByteOrder v) ol)
    (if ol =? 0 then [] else enc v (Z.to_nat ol) (sf_Offset f)) (sf_Offset f).
Proof.
  intros (_ & H2 & _) ol. pose proof (StreamFrame_offLen_spec f H2) as Hol. fold ol in Hol.
  cbv zeta in Hol. unfold u64_ok in H2. destruct (Z.eqb_spec ol 0) as [E|].
  - destruct Hol as [[_ Ho]|?]; [|lia]. rewrite E, Ho.
    pose proof (bo_readN (bo := GetByteOrder v) 0 0 ltac:(lia) ltac:(simpl; lia)) as H.
    pose proof (bo_enc_length (bo := GetByteOrder v) 0 0) as Hl.
    by rewrite (nil_length_inv _ Hl) in H.
  - destruct Hol as [?|[Hol Hoff]]; [lia|]. apply reads_enc; lia.
Qed.

(** The data and its length; without a length field the data is the rest of the
    packet. *)
Lemma StreamFrame_reads_data v f rest : StreamFrame_ok f ->
  sf_DataLenPresent f = true \/ rest = [] ->
  ParseStreamFrame_data v (sf_DataLenPresent f)
  ((if sf_DataLenPresent f then enc v 2 (zlen (sf_Data f)) else []) ++ sf_Data f ++ rest)
  = (Ok (sf_Data f), rest).
Proof.
  intros (_ & _ & _ & H4 & _) Hrest. unfold ParseStreamFrame_data, MaxPacketSize in *.
  pose proof (zlen_nonneg (sf_Data f)) as Hz. set (d := sf_Data f) in *.
  assert (Hfull : forall rest, (if negb (zlen d =? 0) then ReadFull (zlen d) else mret []) (d ++ rest)
                    = (Ok d, rest)).
  { intros r. destruct (Z.eqb_spec (zlen d) 0) as [E|]; [|by apply reads_full].
    destruct d; [done | unfold zlen in E; simpl in E; lia]. }
  destruct (sf_DataLenPresent f); cbn [negb].
  - erewrite run_bind_ok; [|apply reads_u16; split; lia].
    destruct (Z.ltb_spec (u16 1350) (zlen d)) as [Hc|]; [exfalso; revert Hc; glia|].
    erewrite run_bind_ok; [|reflexivity]. apply Hfull.
  - destruct Hrest as [?| ->]; [done|]. erewrite run_bind_ok; [|reflexivity].
    change (u16 1350 <? 0) with false. cbv iota.
    erewrite run_bind_ok; [|unfold Reader_Len; run; reflexivity].
    rewrite app_nil_l, app_nil_r, u16_small by lia.
    rewrite <- (app_nil_r d) at 3. apply Hfull.
Qed.

(** The bytes of a STREAM frame parsed back, and their number. *)
Lemma StreamFrame_parses v f rest :
  StreamFrame_ok f -> sf_DataLenPresent f = true \/ rest = [] ->
  ParseStreamFrame v ((StreamFrame_header v f ++ sf_Data f) ++ rest) = (Ok f, rest).
Proof.
  intros Hok Hrest. pose proof Hok as (H1 & H2 & H3 & H4 & H5).
  destruct (StreamFrame_idLen_spec f H1) as [Hil Hid].
  pose proof (StreamFrame_offLen_spec f H2) as Hol. cbv zeta in Hol.
  destruct (StreamFrame_typeByte_spec (sf_FinBit f) (sf_DataLenPresent f)
    (StreamFrame_getOffsetLength f) (StreamFrame_calculateStreamIDLength f)
    ltac:(lia) Hil) as (T1 & T2 & T3 & T4).
  pose proof (StreamFrame_reads_data v f rest Hok Hrest) as Hdata.
  pose proof (StreamFrame_reads_ids v f Hok) as Hoff. cbv zeta in Hoff, T3.
  unfold ParseStreamFrame, StreamFrame_header. rewrite <- !app_assoc.
  erewrite run_bind_ok; [|apply reads_byte]. cbv zeta. rewrite T1, T2, T3, T4.
  erewrite run_bind_ok; [|apply reads_enc; unfold u32_ok in *; lia].
  erewrite run_bind_ok; [|apply Hoff]. erewrite run_bind_ok; [|exact Hdata].
  unfold u32_ok, u64_ok, StreamFrame_DataLen in *. pose proof (zlen_nonneg (sf_Data f)).
  rewrite u32_small by lia. destruct f as [sid fin dlp off data]. frame_cbn.
  rewrite (u64_small (off + zlen data)) by lia.
  destruct (Z.ltb_spec (off + zlen data) off); [lia|].
  destruct H5 as [-> | Hd]; [done|].
  destruct (Z.eqb_spec (zlen data) 0) as [E|]; [|by rewrite andb_false_r].
  destruct data; [done | unfold zlen in E; simpl in E; lia].
Qed.

Lemma StreamFrame_length v f : StreamFrame_ok f ->
  StreamFrame_MinLength f v
  = Ok (zlen (StreamFrame_header v f ++ sf_Data f) - StreamFrame_DataLen f).
Proof.
  intros (H1 & H2 & _). destruct (StreamFrame_idLen_spec f H1) as [Hil Hid].
  pose proof (StreamFrame_offLen_spec f H2) as Hol. cbv zeta in Hol.
  unfold StreamFrame_MinLength, StreamFrame_header, StreamFrame_DataLen.
  f_equal. destruct (Z.eqb_spec (StreamFrame_getOffsetLength f) 0);
    destruct (sf_DataLenPresent f); autorewrite with ints; lia.
Qed.

(** a STREAM frame that [Write] accepts is parsed back unchanged, whatever
    its stream id, offset and flags; without a length field it must be the last
    frame of the packet. *)
Theorem StreamFrame_roundtrip v f rest :
  StreamFrame_ok f -> sf_DataLenPresent f = true \/ rest = [] ->
  exists out, StreamFrame_Write f v [] = (Ok tt, out)
    /\ StreamFrame_MinLength f v = Ok (zlen out - StreamFrame_DataLen f)
    /\ ParseStreamFrame v (out ++ rest) = (Ok f, rest).
Proof.
  intros Hok Hrest. exists (StreamFrame_header v f ++ sf_Data f). split_and!.
  - by apply StreamFrame_writes.
  - by apply StreamFrame_length.
  - by apply StreamFrame_parses.
Qed.

Lemma StreamFrame_roundtrip_witness :
  let f := mkStreamFrame 5 true true 70000 [104; 105] in
  exists out, StreamFrame_Write f VersionMP [] = (Ok tt, out)
    /\ StreamFrame_MinLength f VersionMP = Ok (zlen out - StreamFrame_DataLen f)
    /\ ParseStreamFrame VersionMP (out ++ [7]) = (Ok f, [7]).
Proof.
  apply StreamFrame_roundtrip; [|by left].
  unfold StreamFrame_ok, u32_ok, u64_ok, StreamFrame_DataLen, MaxPacketSize, zlen. simpl.
  split_and!; lia || (by left).
Defined.

(** ** Safety of the parsers *)

Lemma safe_u16 v : safe_read (ReadUint16 (GetByteOrder v)) u16_ok.
Proof. apply bo_safe16. Qed.
Lemma safe_u32 v : safe_read (ReadUint32 (GetByteOrder v)) u32_ok.
Proof. apply bo_safe32. Qed.
Lemma safe_u64 v : safe_read (ReadUint64 (GetByteOrder v)) u64_ok.
Proof. apply bo_safe64. Qed.
Lemma safe_uintN v n : 0 <= n <= 8 ->
  safe_read (ReadUintN (GetByteOrder v) n) (fun z => 0 <= z < 2 ^ (8 * n)).
Proof. apply bo_safeN. Qed.
Lemma safe_full_u16 n : u16_ok n -> safe_read (ReadFull n) (fun bs => bytes_ok bs /\ zlen bs = n).
Proof. intros [? _]. by apply safe_full. Qed.

#[export] Hint Resolve safe_u16 safe_u32 safe_u64 safe_full_u16 : codec.

(** One bind or one test of a parser; what a read returns is introduced. *)
Ltac safe_step :=
  match goal with
  | |- safe_read1 (mbind _ ReadByte) _ => apply safe_first; intros ? ?
  | |- safe_read (mbind _ _) _ =>
      eapply safe_bind; [solve [eauto with codec nocore] | intros ? ?; cbv beta in *]
  | |- safe_read (if _ then _ else _) _ => apply safe_if; intros ?
  | |- safe_read (fail _) _ => apply safe_fail
  | |- safe_read (mret _) _ => apply safe_ret
  end.
Ltac safe_steps := repeat safe_step.

Lemma ParseRstStreamFrame_safe v : safe_read1 (ParseRstStreamFrame v) RstStreamFrame_ok.
Proof. unfold ParseRstStreamFrame. safe_steps. done. Qed.

Lemma ParseWindowUpdateFrame_safe v :
  safe_read1 (ParseWindowUpdateFrame v) (fun f => u32_ok (wu_StreamID f) /\ u64_ok (wu_ByteOffset f)).
Proof. unfold ParseWindowUpdateFrame. safe_steps. done. Qed.

Lemma ParseBlockedFrame_safe v :
  safe_read1 (ParseBlockedFrame v) (fun f => u32_ok (bl_StreamID f)).
Proof. unfold ParseBlockedFrame. safe_steps. done. Qed.

Lemma ParsePingFrame_safe v : safe_read1 (ParsePingFrame v) (fun _ => True).
Proof. unfold ParsePingFrame. safe_steps. done. Qed.

Lemma ParseGoawayFrame_safe v :
  safe_read1 (ParseGoawayFrame v)
    (fun f => bytes_ok (ga_ReasonPhrase f) /\ zlen (ga_ReasonPhrase f) <= MaxPacketSize).
Proof.
  unfold ParseGoawayFrame. safe_steps. cbn. destruct_and?. split; [done|].
  rewrite Z.ltb_ge in *. unfold MaxPacketSize in *. change (u16 1350) with 1350 in *. lia.
Qed.

Lemma ParseConnectionCloseFrame_safe v :
  safe_read1 (ParseConnectionCloseFrame v)
    (fun f => bytes_ok (cc_ReasonPhrase f) /\ zlen (cc_ReasonPhrase f) <= MaxPacketSize).
Proof.
  unfold ParseConnectionCloseFrame. safe_steps. cbn. destruct_and?. split; [done|].
  rewrite Z.ltb_ge in *. unfold MaxPacketSize in *. change (u16 1350) with 1350 in *. lia.
Qed.

(** The least unacked number a STOP_WAITING frame announces is positive and not
    above the number of its packet. *)
Lemma ParseStopWaitingFrame_safe pn len v :
  u64_ok pn -> valid_len len ->
  safe_read1 (ParseStopWaitingFrame pn len v) (fun f => 0 < sw_LeastUnacked f <= pn).
Proof.
  intros Hpn Hlen. unfold ParseStopWaitingFrame. safe_step.
  eapply safe_bind; [apply safe_uintN; destruct Hlen as [->|[->|[->| ->]]]; lia|].
  intros d Hd. safe_steps. cbn. unfold u64_ok in *. rewrite Z.leb_gt in *.
  rewrite u64_small; lia.
Qed.

Lemma read_ip_bytes_safe n :
  safe_read (read_ip_bytes n) (fun bs => bytes_ok bs /\ length bs = n).
Proof.
  induction n as [|n IH]; cbn [read_ip_bytes].
  { apply safe_ret. split; [constructor | done]. }
  safe_step. eapply safe_bind; [exact IH|]. intros bs [Hb Hl].
  apply safe_ret. split; [by constructor | simpl; congruence].
Qed.

Lemma ParseAddAddressFrame_safe v :
  safe_read1 (ParseAddAddressFrame v)
    (fun f => u16_ok (addr_Port (aa_Addr f)) /\ zlen (addr_IP (aa_Addr f)) = 16).
Proof.
  unfold ParseAddAddressFrame. safe_step. safe_step.
  eapply (safe_bind _ _ (fun ip => zlen ip = 16)).
  { apply safe_if; intros _; [by safe_steps|]. apply safe_if; intros _; [|apply safe_fail].
    eapply safe_weaken; [apply read_ip_bytes_safe|]. intros bs [_ Hl]. unfold zlen. lia. }
  intros ip Hip. safe_steps. done.
Qed.

Lemma read_paths_safe v n :
  safe_read (read_paths (GetByteOrder v) n)
    (fun p => Forall byte_ok (fst p) /\ length (fst p) = n /\ length (snd p) = n).
Proof.
  induction n as [|n IH]; cbn [read_paths].
  { apply safe_ret. split_and!; [constructor | done | done]. }
  safe_step. eapply (safe_bind _ _ (fun _ => True)).
  { unfold ReadUfloat16, readUfloat16. eapply safe_bind; [apply safe_u16|].
    intros x _. by apply safe_ret. }
  intros rtt _. eapply safe_bind; [exact IH|]. intros [ids rtts] (H1 & H2 & H3). simpl in *.
  apply safe_ret. simpl. split_and!; [by constructor | congruence | congruence].
Qed.

Lemma ParsePathsFrame_safe v :
  safe_read1 (ParsePathsFrame v)
    (fun f => pf_NumPaths f = zlen (pf_PathIDs f) /\ pf_NumPaths f <= pf_MaxNumPaths f
              /\ length (pf_PathIDs f) = length (pf_RemoteRTTs f)).
Proof.
  unfold ParsePathsFrame. do 3 safe_step. apply safe_if; intros Hn; [apply safe_fail|].
  eapply safe_bind; [apply read_paths_safe|]. intros [ids rtts] (H2 & H3 & H4). simpl in *.
  apply safe_ret. cbn. unfold zlen, byte_ok in *. rewrite Z.ltb_ge in *. lia.
Qed.

Lemma ParseStreamFrame_data_safe v dlp :
  safe_read (ParseStreamFrame_data v dlp) (fun d => bytes_ok d /\ zlen d < 2 ^ 16).
Proof.
  unfold ParseStreamFrame_data. eapply (safe_bind _ _ u16_ok).
  { destruct dlp; [apply safe_u16 | by apply safe_ret]. }
  intros n Hn. apply safe_if; intros _; [apply safe_fail|].
  eapply (safe_bind _ _ u16_ok).
  { destruct dlp; simpl; [by apply safe_ret|].
    eapply safe_bind; [apply safe_len|]. intros l _. apply safe_ret, u16_range. }
  intros m Hm. apply safe_if; intros _; [|apply safe_ret; split; [constructor | unfold zlen; simpl; lia]].
  eapply safe_weaken; [by apply safe_full_u16|]. intros bs [? ->]. by destruct Hm.
Qed.

(** What a STREAM frame off the wire satisfies: its last byte has an offset below
    2^64, so adding the length to the offset cannot wrap anywhere later. *)
Definition StreamFrame_received (f : StreamFrame) : Prop :=
  u32_ok (sf_StreamID f) /\ u64_ok (sf_Offset f) /\ bytes_ok (sf_Data f) /\
  u64_ok (sf_Offset f + StreamFrame_DataLen f) /\ (sf_FinBit f = true \/ sf_Data f <> []).

Lemma StreamFrame_lens tb :
  let ol := Z.shiftr (Z.land tb 28) 2 in
  0 <= u8 (Z.land tb 3 + 1) <= 8 /\ 0 <= (if negb (ol =? 0) then u8 (ol + 1) else ol) <= 8.
Proof.
  intros ol. split.
  - change 3 with (Z.ones 2). rewrite Z.land_ones by lia. glia.
  - replace ol with ((tb / 4) mod 8); [cases_bool; simpl; glia|].
    unfold ol. rewrite Z.shiftr_land. change (Z.shiftr 28 2) with (Z.ones 3).
    by rewrite Z.land_ones, Z.shiftr_div_pow2 by lia.
Qed.

Lemma ParseStreamFrame_safe v : safe_read1 (ParseStreamFrame v) StreamFrame_received.
Proof.
  unfold ParseStreamFrame. safe_step. cbv zeta. rename b into tb.
  destruct (StreamFrame_lens tb) as [Hil Hol].
  eapply safe_bind; [apply safe_uintN; exact Hil|]. intros sid Hsid.
  eapply safe_bind; [apply safe_uintN; exact Hol|]. intros off Hoff.
  eapply safe_bind; [apply ParseStreamFrame_data_safe|]. intros d [Hd Hlen].
  set (ol := if negb _ then _ else _) in *. cbv beta in *.
  assert (Hoff64 : off < 2 ^ 64).
  { apply Z.lt_le_trans with (2 ^ (8 * ol)); [lia|]. apply Z.pow_le_mono_r; lia. }
  change (2 ^ 64) with 18446744073709551616 in *. change (2 ^ 16) with 65536 in *.
  safe_steps. unfold StreamFrame_received, StreamFrame_DataLen, u64_ok in *. frame_cbn.
  pose proof (zlen_nonneg d). rewrite Z.ltb_ge in *. change (2 ^ 64) with 18446744073709551616.
  clear Hsid Hil. pose proof (u32_range sid). pose proof (u64_range (off + zlen d)).
  split_and!; try done; try glia.
  destruct (0 <? Z.land tb 64); [by left | right]. simpl in *. by intros ->.
Qed.

(** The length of a PATHS frame is computed in a byte: from 85 paths on it is
    less than what [Write] writes. *)
Lemma PathsFrame_MinLength_wraps f v :
  85 <= pf_NumPaths f <= 170 -> exists n, PathsFrame_MinLength f v = Ok n /\ n < 3 + 3 * pf_NumPaths f.
Proof. intros H. eexists. split; [reflexivity|]. glia. Qed.
