(* ===== verification/WireAck.v ===== *)
(** * ACK and CLOSE_PATH frames (internal/wire: ack_range.go, ack_frame.go,
    close_path_frame.go)

    Both frames list the received packet numbers as ranges, highest first, and
    encode every range but the first as blocks of a one byte gap and a length; a
    gap of more than 255 packets takes several blocks, all but the last of
    length zero.  The code of the two frames that handles ranges is the same, so
    it is written once here; the frames themselves have their own writer,
    parser and length. *)

From S2P Require Import Prelude Protocol ByteOrder WireFrames.

Record AckRange := mkAckRange { First : PacketNumber; Last : PacketNumber }.

#[global] Instance AckRange_eq_dec : EqDecision AckRange.
Proof. solve_decision. Defined.

Definition ErrInvalidAckRanges : error :=
  errors_New "AckFrame: ACK frame contains invalid ACK ranges".
Definition ErrInvalidFirstAckRange : error :=
  errors_New "AckFrame: ACK frame has invalid first ACK range".
Definition errInconsistentAckLargestAcked : error :=
  errors_New "internal inconsistency: LargestAcked does not match ACK ranges".
Definition errInconsistentAckLowestAcked : error :=
  errors_New "internal inconsistency: LowestAcked does not match ACK ranges".
Definition errInconsistentAckBlocks : error :=
  errors_New "BUG: Inconsistent number of ACK ranges written".
Definition errInconsistentClosePathBlocks : error :=
  errors_New "BUG: Inconsistent number of ACK ranges written in ClosePath".

Record AckFrame := mkAckFrame {
  ack_PathID : PathID;
  ack_LargestAcked : PacketNumber;
  ack_LowestAcked : PacketNumber;
  ack_AckRanges : list AckRange;
  ack_PacketReceivedTime : Time;
  ack_DelayTime : Duration
}.

Record ClosePathFrame := mkClosePathFrame {
  cp_PathID : PathID;
  cp_LargestAcked : PacketNumber;
  cp_LowestAcked : PacketNumber;
  cp_AckRanges : list AckRange
}.

(** ** What both frames do with their ranges *)

(** [validateAckRanges]: the two loops, the second against the previous range. *)
Fixpoint validate_consistency (last : AckRange) (ranges : list AckRange) : bool :=
  match ranges with
  | [] => true
  | r :: rs =>
      if First last <=? First r then false
      else if First last <=? u64 (Last r + 1) then false
      else validate_consistency r rs
  end.

Definition validateAckRanges (largestAcked : PacketNumber) (ranges : list AckRange) : bool :=
  match ranges with
  | [] => true
  | [_] => false
  | r :: rs =>
      (Last r =? largestAcked)
      && forallb (fun a => First a <=? Last a) ranges
      && validate_consistency r rs
  end.

(** The number of blocks a gap takes. *)
Definition range_blocks (gap : Z) : Z :=
  let n := 1 + gap / 0xFF in if gap mod 0xFF =? 0 then n - 1 else n.

Definition range_gap (last r : AckRange) : PacketNumber := u64 (u64 (First last - Last r) - 1).
Definition range_length (r : AckRange) : PacketNumber := u64 (u64 (Last r - First r) + 1).

Fixpoint numWritable_loop (last : AckRange) (ranges : list AckRange) (numRanges : Z) : Z :=
  match ranges with
  | [] => numRanges
  | r :: rs =>
      let rangeLength := range_blocks (range_gap last r) in
      if numRanges + rangeLength <? 0xFF
      then numWritable_loop r rs (numRanges + rangeLength)
      else numRanges
  end.

Definition numWritableNackRanges (ranges : list AckRange) : Z :=
  match ranges with
  | [] => 0
  | r :: rs => numWritable_loop r rs 0 + 1
  end.

Definition getMissingSequenceNumberDeltaLen (largestAcked lowestAcked : PacketNumber)
    (ranges : list AckRange) : PacketNumberLen :=
  let maxRangeLength :=
    match ranges with
    | [] => u64 (u64 (largestAcked - lowestAcked) + 1)
    | _ => foldl (fun m r => if m <? range_length r then range_length r else m) 0 ranges
    end in
  if maxRangeLength <=? 0xFF then PacketNumberLen1
  else if maxRangeLength <=? 0xFFFF then PacketNumberLen2
  else if maxRangeLength <=? 0xFFFFFFFF then PacketNumberLen4
  else PacketNumberLen6.

Definition HasMissingRanges (ranges : list AckRange) : bool := 0 <? zlen ranges.

Definition acksPacket (lowestAcked largestAcked : PacketNumber) (ranges : list AckRange)
    (p : PacketNumber) : bool :=
  if (p <? lowestAcked) || (largestAcked <? p) then false
  else if HasMissingRanges ranges
  then existsb (fun r => (First r <=? p) && (p <=? Last r)) ranges
  else (lowestAcked <=? p) && (p <=? largestAcked).

(** The [switch] on a packet number length; [mask48] is what is applied to a
    six byte number (ACK frames cut it to 48 bits, CLOSE_PATH frames do not). *)
Definition write_number (bo : ByteOrder) (mask48 : Z -> Z) (len : PacketNumberLen) (x : Z)
    : Writer :=
  if len =? PacketNumberLen1 then WriteByte (u8 x)
  else if len =? PacketNumberLen2 then WriteUint16 bo (u16 x)
  else if len =? PacketNumberLen4 then WriteUint32 bo (u32 x)
  else if len =? PacketNumberLen6 then WriteUint48 bo (mask48 x)
  else mret tt.

(** The loop over the [num] blocks of a long gap; [k] blocks are left. *)
Fixpoint write_long_gap (bo : ByteOrder) (mask48 : Z -> Z) (len : PacketNumberLen)
    (gap length : Z) (k : nat) : Writer :=
  match k with
  | O => mret tt
  | S k' =>
      let '(lengthWritten, gapWritten) :=
        match k' with
        | O => (length, u8 (1 + (u64 (gap - 1)) mod 255))
        | S _ => (0, 0xFF)
        end in
      WriteByte gapWritten;;
      write_number bo mask48 len lengthWritten;;
      write_long_gap bo mask48 len gap length k'
  end.

(** The loop over the ranges after the first; returns [numRangesWritten]. *)
Fixpoint write_ranges (bo : ByteOrder) (mask48 : Z -> Z) (len : PacketNumberLen)
    (numRanges : Z) (last : AckRange) (ranges : list AckRange) (numRangesWritten : Z)
    : GoM (list Z) Z :=
  match ranges with
  | [] => mret numRangesWritten
  | r :: rs =>
      let length := range_length r in
      let gap := range_gap last r in
      let num := range_blocks gap in
      n ← (if num =? 1 then
             WriteByte (u8 gap);;
             write_number bo mask48 len length;;
             mret (numRangesWritten + 1)
           else
             write_long_gap bo mask48 len gap length (Z.to_nat num);;
             mret (numRangesWritten + num));
      if numRanges <=? n then mret n
      else write_ranges bo mask48 len numRanges r rs n
  end.

(** The state of the parsing loop: the range read last, the ranges before it
    (last one first), and the two flags. *)
Record block_state := mkBlockState {
  bs_range : AckRange;
  bs_before : list AckRange;
  bs_inLongBlock : bool;
  bs_lastRangeComplete : bool
}.

Definition block_step (st : block_state) (block : Z * Z) : block_state :=
  let '(gap, length) := block in
  let cur := bs_range st in
  let '(cur, before, complete) :=
    if bs_inLongBlock st
    then (mkAckRange (u64 (First cur - u64 (gap + length))) (u64 (Last cur - gap)),
          bs_before st, bs_lastRangeComplete st)
    else
      let last := u64 (u64 (First cur - gap) - 1) in
      (mkAckRange (u64 (u64 (last - length) + 1)) last, cur :: bs_before st, false) in
  mkBlockState cur before (length =? 0) (if 0 <? length then true else complete).

Fixpoint read_blocks (bo : ByteOrder) (len : Z) (n : nat) (st : block_state)
    : Reader block_state :=
  match n with
  | O => mret st
  | S n' =>
      gap ← ReadByte;
      ackBlockLength ← ReadUintN bo len;
      read_blocks bo len n' (block_step st (gap, ackBlockLength))
  end.

(** The ranges after the loop: an incomplete last range is dropped. *)
Definition block_ranges (st : block_state) : list AckRange :=
  reverse (if bs_lastRangeComplete st then bs_range st :: bs_before st else bs_before st).

(** From the length of the first block on: the ranges and the lowest number.
    The index of the last range panics when there is none. *)
Definition read_ranges (bo : ByteOrder) (len : Z) (hasMissingRanges : bool)
    (numAckBlocks largestAcked ackBlockLength : Z)
    : Reader (list AckRange * PacketNumber) :=
  if hasMissingRanges then
    st ← read_blocks bo len (Z.to_nat numAckBlocks)
           (mkBlockState (mkAckRange (u64 (u64 (largestAcked - ackBlockLength) + 1)) largestAcked)
              [] false false);
    let ranges := block_ranges st in
    match last ranges with
    | Some r => mret (ranges, First r)
    | None => panic "index out of range"
    end
  else mret ([], if largestAcked =? 0 then 0 else u64 (largestAcked + 1 - ackBlockLength)).

Definition length_of_bits (bits : Z) : Z :=
  let n := u8 (2 * bits) in if n =? 0 then 1 else n.

(** The checks on the first block, shared by both parsers. *)
Definition read_first_block (bo : ByteOrder) (len largestAcked : Z) : Reader Z :=
  ackBlockLength ← ReadUintN bo len;
  if (0 <? largestAcked) && (ackBlockLength <? 1) then fail ErrInvalidFirstAckRange
  else if largestAcked <? ackBlockLength then fail ErrInvalidAckRanges
  else mret ackBlockLength.

(** [n] is the number of timestamps after the first. *)
Fixpoint skip_timestamps (bo : ByteOrder) (n : nat) : Reader unit :=
  match n with
  | O => mret tt
  | S n' =>
      _ ← ReadByte;
      _ ← ReadUint16 bo;
      skip_timestamps bo n'
  end.

Definition read_timestamps (bo : ByteOrder) : Reader unit :=
  numTimestamp ← ReadByte;
  if 0 <? numTimestamp then
    _ ← ReadByte;
    _ ← ReadUint32 bo;
    skip_timestamps bo (Z.to_nat (numTimestamp - 1))
  else mret tt.

(** ** ACK frames *)

Definition ParseAckFrame (version : VersionNumber) : Reader AckFrame :=
  let bo := GetByteOrder version in
  typeByte ← ReadByte;
  let hasMissingRanges := Z.land typeByte 0x20 =? 0x20 in
  let largestAckedLen := length_of_bits (Z.shiftr (Z.land typeByte 0x0C) 2) in
  let missingSequenceNumberDeltaLen := length_of_bits (Z.land typeByte 0x03) in
  pathID ← (if Z.land typeByte 0x10 =? 0x10 then ReadByte else mret 0);
  largestAcked ← ReadUintN bo largestAckedLen;
  delay ← ReadUfloat16 bo;
  numAckBlocks ← (if hasMissingRanges then ReadByte else mret 0);
  if hasMissingRanges && (numAckBlocks =? 0) then fail ErrInvalidAckRanges
  else
    ackBlockLength ← read_first_block bo missingSequenceNumberDeltaLen largestAcked;
    '(ranges, lowest) ← read_ranges bo missingSequenceNumberDeltaLen hasMissingRanges
                          numAckBlocks largestAcked ackBlockLength;
    if negb (validateAckRanges largestAcked ranges) then fail ErrInvalidAckRanges
    else
      read_timestamps bo;;
      mret (mkAckFrame pathID largestAcked lowest ranges zeroTime
              (i64 (i64 delay * Microsecond))).

Definition AckFrame_HasMissingRanges (f : AckFrame) : bool := HasMissingRanges (ack_AckRanges f).
Definition AckFrame_validateAckRanges (f : AckFrame) : bool :=
  validateAckRanges (ack_LargestAcked f) (ack_AckRanges f).
Definition AckFrame_numWritableNackRanges (f : AckFrame) : Z :=
  numWritableNackRanges (ack_AckRanges f).
Definition AckFrame_getMissingSequenceNumberDeltaLen (f : AckFrame) : PacketNumberLen :=
  getMissingSequenceNumberDeltaLen (ack_LargestAcked f) (ack_LowestAcked f) (ack_AckRanges f).
Definition AckFrame_AcksPacket (f : AckFrame) (p : PacketNumber) : bool :=
  acksPacket (ack_LowestAcked f) (ack_LargestAcked f) (ack_AckRanges f) p.

(** The length of the first block and the ranges written with it (zero when the
    frame has none), or the error of inconsistent bounds. *)
Definition first_block (largestAcked lowestAcked : PacketNumber) (ranges : list AckRange)
    : outcome (PacketNumber * Z) :=
  match ranges with
  | [] => Ok (u64 (u64 (largestAcked - lowestAcked) + 1), 0)
  | r :: _ =>
      if negb (largestAcked =? Last r) then Err errInconsistentAckLargestAcked
      else if negb (bool_decide (Some lowestAcked = First <$> last ranges))
      then Err errInconsistentAckLowestAcked
      else Ok (u64 (u64 (largestAcked - First r) + 1), 1)
  end.

(** The first block and the blocks of the other ranges. *)
Definition write_blocks (bo : ByteOrder) (mask48 : Z -> Z) (len : PacketNumberLen)
    (largestAcked lowestAcked : PacketNumber) (ranges : list AckRange)
    (numRanges : Z) (inconsistent : error) : Writer :=
  '(firstAckBlockLength, numRangesWritten) ← lift (first_block largestAcked lowestAcked ranges);
  write_number bo mask48 len firstAckBlockLength;;
  numRangesWritten ← match ranges with
                     | [] => mret numRangesWritten
                     | r :: rs => write_ranges bo mask48 len numRanges r rs numRangesWritten
                     end;
  if negb (numRanges =? numRangesWritten) then fail inconsistent else mret tt.

Definition AckFrame_typeByte (f : AckFrame) : Z :=
  let largestAckedLen := GetPacketNumberLength (ack_LargestAcked f) in
  let missingSequenceNumberDeltaLen := AckFrame_getMissingSequenceNumberDeltaLen f in
  let typeByte := 0x40 in
  let typeByte := if negb (largestAckedLen =? PacketNumberLen1)
                  then Z.lxor typeByte (u8 (Z.shiftl (largestAckedLen / 2) 2)) else typeByte in
  let typeByte := if negb (missingSequenceNumberDeltaLen =? PacketNumberLen1)
                  then Z.lxor typeByte (missingSequenceNumberDeltaLen / 2) else typeByte in
  let typeByte := if AckFrame_HasMissingRanges f then Z.lor typeByte 0x20 else typeByte in
  if negb (ack_PathID f =? InitialPathID) then Z.lor typeByte 0x10 else typeByte.

Definition mask48 (x : Z) : Z := Z.land x (Z.shiftl 1 48 - 1).

(** [Write] stores the delay it sends in the frame; the frame with it is the
    result, [now] the time of the call. *)
Definition AckFrame_Write (f : AckFrame) (now : Time) (version : VersionNumber)
    : GoM (list Z) AckFrame :=
  let bo := GetByteOrder version in
  let largestAckedLen := GetPacketNumberLength (ack_LargestAcked f) in
  let missingSequenceNumberDeltaLen := AckFrame_getMissingSequenceNumberDeltaLen f in
  WriteByte (AckFrame_typeByte f);;
  (if negb (ack_PathID f =? InitialPathID) then WriteByte (u8 (ack_PathID f)) else mret tt);;
  write_number bo mask48 largestAckedLen (ack_LargestAcked f);;
  let delayTime := Time_Sub now (ack_PacketReceivedTime f) in
  WriteUfloat16 bo (duration_us delayTime);;
  let numRanges := if AckFrame_HasMissingRanges f then AckFrame_numWritableNackRanges f else 0 in
  (if AckFrame_HasMissingRanges f then
     if 0xFF <? numRanges then panic "AckFrame: Too many ACK ranges"
     else WriteByte (u8 (numRanges - 1))
   else mret tt);;
  write_blocks bo mask48 missingSequenceNumberDeltaLen (ack_LargestAcked f) (ack_LowestAcked f)
    (ack_AckRanges f) numRanges errInconsistentAckBlocks;;
  WriteByte 0;;
  mret (mkAckFrame (ack_PathID f) (ack_LargestAcked f) (ack_LowestAcked f) (ack_AckRanges f)
          (ack_PacketReceivedTime f) delayTime).

Definition AckFrame_MinLength (f : AckFrame) (version : VersionNumber) : ByteCount :=
  let length := 1 + 2 + 1 + GetPacketNumberLength (ack_LargestAcked f) in
  let deltaLen := AckFrame_getMissingSequenceNumberDeltaLen f in
  let length := if AckFrame_HasMissingRanges f
                then u64 (length + (1 + deltaLen) * AckFrame_numWritableNackRanges f)
                else length + deltaLen in
  let length := length + (1 + 2) * 0 in
  if negb (ack_PathID f =? InitialPathID) then u64 (length + 1) else length.

(** ** CLOSE_PATH frames *)

Definition ClosePathFrame_HasMissingRanges (f : ClosePathFrame) : bool :=
  HasMissingRanges (cp_AckRanges f).
Definition ClosePathFrame_validateAckRanges (f : ClosePathFrame) : bool :=
  validateAckRanges (cp_LargestAcked f) (cp_AckRanges f).
Definition ClosePathFrame_numWritableNackRanges (f : ClosePathFrame) : Z :=
  numWritableNackRanges (cp_AckRanges f).
Definition ClosePathFrame_getMissingSequenceNumberDeltaLen (f : ClosePathFrame) : PacketNumberLen :=
  getMissingSequenceNumberDeltaLen (cp_LargestAcked f) (cp_LowestAcked f) (cp_AckRanges f).
Definition ClosePathFrame_AcksPacket (f : ClosePathFrame) (p : PacketNumber) : bool :=
  acksPacket (cp_LowestAcked f) (cp_LargestAcked f) (cp_AckRanges f) p.

Definition ClosePathFrame_flags (f : ClosePathFrame) : Z :=
  let largestAckedLen := GetPacketNumberLength (cp_LargestAcked f) in
  let missingSequenceNumberDeltaLen := ClosePathFrame_getMissingSequenceNumberDeltaLen f in
  let flags := if ClosePathFrame_HasMissingRanges f then Z.lor 0 0x10 else 0 in
  let flags := if negb (largestAckedLen =? PacketNumberLen1)
               then Z.lxor flags (u8 (Z.shiftl (largestAckedLen / 2) 2)) else flags in
  if negb (missingSequenceNumberDeltaLen =? PacketNumberLen1)
  then Z.lxor flags (missingSequenceNumberDeltaLen / 2) else flags.

Definition ClosePathFrame_Write (f : ClosePathFrame) (version : VersionNumber) : Writer :=
  let bo := GetByteOrder version in
  let largestAckedLen := GetPacketNumberLength (cp_LargestAcked f) in
  let missingSequenceNumberDeltaLen := ClosePathFrame_getMissingSequenceNumberDeltaLen f in
  WriteByte 0x11;;
  WriteByte (u8 (cp_PathID f));;
  WriteByte (ClosePathFrame_flags f);;
  let numRanges := if ClosePathFrame_HasMissingRanges f
                   then ClosePathFrame_numWritableNackRanges f else 0 in
  (if ClosePathFrame_HasMissingRanges f then
     if 0xFF <? numRanges then panic "ClosePathFrame: Too many ACK ranges"
     else WriteByte (u8 (numRanges - 1))
   else mret tt);;
  write_number bo id largestAckedLen (cp_LargestAcked f);;
  write_blocks bo id missingSequenceNumberDeltaLen (cp_LargestAcked f) (cp_LowestAcked f)
    (cp_AckRanges f) numRanges errInconsistentClosePathBlocks.

Definition ParseClosePathFrame (version : VersionNumber) : Reader ClosePathFrame :=
  let bo := GetByteOrder version in
  _ ← ReadByte;
  pathID ← ReadByte;
  flags ← ReadByte;
  let hasMissingRanges := Z.land flags 0x10 =? 0x10 in
  let largestAckedLen := length_of_bits (Z.shiftr (Z.land flags 0x0C) 2) in
  let missingSequenceNumberDeltaLen := length_of_bits (Z.land flags 0x03) in
  numAckBlocks ← (if hasMissingRanges then ReadByte else mret 0);
  if hasMissingRanges && (numAckBlocks =? 0) then fail ErrInvalidAckRanges
  else
    largestAcked ← ReadUintN bo largestAckedLen;
    ackBlockLength ← read_first_block bo missingSequenceNumberDeltaLen largestAcked;
    '(ranges, lowest) ← read_ranges bo missingSequenceNumberDeltaLen hasMissingRanges
                          numAckBlocks largestAcked ackBlockLength;
    if negb (validateAckRanges largestAcked ranges) then fail ErrInvalidAckRanges
    else mret (mkClosePathFrame pathID largestAcked lowest ranges).

Definition ClosePathFrame_MinLength (f : ClosePathFrame) (version : VersionNumber) : ByteCount :=
  let length := 1 + 1 + 1 + GetPacketNumberLength (cp_LargestAcked f) in
  let deltaLen := ClosePathFrame_getMissingSequenceNumberDeltaLen f in
  if ClosePathFrame_HasMissingRanges f
  then u64 (length + (1 + deltaLen) * ClosePathFrame_numWritableNackRanges f)
  else length + deltaLen.

(** ** Well-formed ranges *)

(** Ranges below [bound], highest first, with at least one missing number between
    two of them. *)
Fixpoint desc (bound : Z) (ranges : list AckRange) : Prop :=
  match ranges with
  | [] => True
  | r :: rs => 0 <= First r <= Last r /\ Last r < bound /\ desc (First r - 1) rs
  end.

(** The ranges that fit: [n] blocks are used and at most 254 can be. *)
Fixpoint writable (last : AckRange) (ranges : list AckRange) (n : Z) : list AckRange :=
  match ranges with
  | [] => []
  | r :: rs =>
      let n' := n + range_blocks (range_gap last r) in
      if n' <? 0xFF then r :: writable r rs n' else []
  end.

(** The blocks that encode a range after [last], and a list of ranges. *)
Definition blocks_of (last r : AckRange) : list (Z * Z) :=
  replicate (Z.to_nat (range_blocks (range_gap last r) - 1)) (0xFF, 0)
  ++ [(1 + (range_gap last r - 1) mod 255, range_length r)].

Fixpoint all_blocks (last : AckRange) (ranges : list AckRange) : list (Z * Z) :=
  match ranges with
  | [] => []
  | r :: rs => blocks_of last r ++ all_blocks r rs
  end.

Lemma desc_weaken b b' rs : desc b rs -> b <= b' -> desc b' rs.
Proof. destruct rs; simpl; [done|]. intros (? & ? & ?) ?. split_and!; try done; lia. Qed.

Lemma desc_writable last rs n : desc (First last - 1) rs -> desc (First last - 1) (writable last rs n).
Proof.
  revert last n. induction rs as [|r rs IH]; intros last n; simpl; [done|].
  intros (H1 & H2 & H3). case_match; simpl; [|done]. split_and!; try done; try lia. by apply IH.
Qed.

Lemma range_gap_desc last r :
  0 <= Last r -> Last r < First last - 1 -> First last < 2 ^ 64 ->
  range_gap last r = First last - Last r - 1.
Proof. intros. unfold range_gap. glia. Qed.

Lemma range_length_desc r : 0 <= First r <= Last r -> Last r < 2 ^ 63 ->
  range_length r = Last r - First r + 1.
Proof. intros. unfold range_length. glia. Qed.

Lemma range_blocks_spec gap : 1 <= gap ->
  1 <= range_blocks gap /\ 255 * (range_blocks gap - 1) + (1 + (gap - 1) mod 255) = gap.
Proof. intros H. unfold range_blocks. destruct (Z.eqb_spec (gap mod 255) 0); glia. Qed.


Lemma blocks_of_length last r : 1 <= range_gap last r ->
  zlen (blocks_of last r) = range_blocks (range_gap last r).
Proof.
  intros H. unfold blocks_of, zlen. rewrite length_app, length_replicate. simpl.
  destruct (range_blocks_spec _ H). lia.
Qed.

(** The number of blocks announced is the number of blocks of the ranges that fit. *)
Lemma numWritable_blocks last rs n :
  desc (First last - 1) rs -> First last < 2 ^ 63 ->
  numWritable_loop last rs n = n + zlen (all_blocks last (writable last rs n)).
Proof.
  revert last n. induction rs as [|r rs IH]; intros last n; simpl; [rewrite zlen_nil; lia|].
  intros (H1 & H2 & H3) H4. case_match; [|simpl; rewrite zlen_nil; lia].
  simpl. rewrite IH, zlen_app, blocks_of_length; try done; rewrite ?range_gap_desc; lia.
Qed.

Lemma numWritable_lt last rs n : n < 255 -> numWritable_loop last rs n < 255.
Proof.
  revert last n. induction rs as [|r rs IH]; intros last n Hn; simpl; [done|].
  destruct (Z.ltb_spec (n + range_blocks (range_gap last r)) 255); [by apply IH | done].
Qed.

(** ** Parsing the blocks of a range gives the range back *)

Definition long_state (L : Z) (before : list AckRange) : block_state :=
  mkBlockState (mkAckRange (L + 1) L) before true false.

Lemma long_steps k L before : 0 <= L < 2 ^ 63 -> 255 * Z.of_nat k <= L ->
  foldl block_step (long_state L before) (replicate k (0xFF, 0))
  = long_state (L - 255 * Z.of_nat k) before.
Proof.
  revert L. induction k as [|k IH]; intros L HL Hk; simpl.
  { f_equal. lia. }
  replace (mkBlockState _ _ true false) with (long_state (L - 255) before).
  - rewrite IH by lia. f_equal. lia.
  - unfold long_state. f_equal. f_equal; glia.
Qed.

Lemma blocks_of_parse last r before lrc :
  0 <= First r <= Last r -> Last r < First last - 1 -> First last < 2 ^ 63 ->
  foldl block_step (mkBlockState last before false lrc) (blocks_of last r)
  = mkBlockState r (last :: before) false true.
Proof.
  intros H1 H2 H3. unfold blocks_of. rewrite range_gap_desc, range_length_desc by lia.
  destruct r as [F L]; simpl in *.
  destruct (range_blocks_spec (First last - L - 1)) as [Hb Hg]; [lia|].
  set (g := 1 + (First last - L - 1 - 1) mod 255) in *.
  assert (Hgr : 1 <= g <= 255) by (subst g; glia). clearbody g.
  destruct (Z.to_nat (range_blocks (First last - L - 1) - 1)) as [|k] eqn:Ek; simpl.
  - cases_bool; try lia. f_equal. f_equal; glia.
  - replace (mkBlockState _ _ true false) with (long_state (First last - 256) (last :: before)).
    2: { unfold long_state. f_equal. f_equal; glia. }
    rewrite foldl_app, long_steps by lia. simpl. cases_bool; try lia.
    f_equal. f_equal; glia.
Qed.

Definition st_ranges (st : block_state) : list AckRange := reverse (bs_range st :: bs_before st).

Lemma all_blocks_parse rs last before lrc :
  desc (First last - 1) rs -> First last < 2 ^ 63 ->
  let st := foldl block_step (mkBlockState last before false lrc) (all_blocks last rs) in
  st_ranges st = reverse before ++ last :: rs
  /\ bs_lastRangeComplete st = match rs with [] => lrc | _ => true end.
Proof.
  revert last before lrc. induction rs as [|r rs IH]; intros last before lrc; simpl.
  { intros _ _. unfold st_ranges. simpl. by rewrite reverse_cons. }
  intros (H1 & H2 & H3) H4. rewrite foldl_app, blocks_of_parse by lia.
  destruct (IH r (last :: before) true) as [IH1 IH2]; [done | lia |].
  rewrite IH1, IH2, reverse_cons, <- app_assoc. split; [done | by destruct rs].
Qed.

(** ** What the writers emit *)

Section Blocks.
Context (v : VersionNumber) (mask : Z -> Z) (mask_small : forall x, 0 <= x < 2 ^ 48 -> mask x = x).
Context (len : PacketNumberLen) (len_valid : valid_len len).
Local Abbreviation bo := (GetByteOrder v).

Definition number_bytes (x : Z) : list Z := enc v (Z.to_nat len) x.
Definition block_bytes (b : Z * Z) : list Z := [fst b] ++ number_bytes (snd b).

Lemma writes_number x : 0 <= x < epoch_size len -> writes (write_number bo mask len x) (number_bytes x).
Proof.
  intros Hx. unfold write_number, number_bytes.
  destruct len_valid as [-> | [-> | [-> | ->]]]; simpl.
  - apply writes_enc_1.
  - rewrite u16_small by exact Hx. apply writes_u16.
  - rewrite u32_small by exact Hx. apply writes_u32.
  - rewrite mask_small by exact Hx. apply bo_write48, Hx.
Qed.

Lemma reads_number x : 0 <= x < epoch_size len -> reads (ReadUintN bo len) (number_bytes x) x.
Proof.
  intros Hx. apply reads_enc; [destruct len_valid as [-> | [-> | [-> | ->]]]; lia|].
  by destruct len_valid as [-> | [-> | [-> | ->]]].
Qed.

Lemma number_bytes_length x : zlen (number_bytes x) = len.
Proof.
  unfold number_bytes. rewrite enc_zlen. destruct len_valid as [-> | [-> | [-> | ->]]]; lia.
Qed.

Lemma write_block g x bs k : u8 g = g -> 0 <= x < epoch_size len -> writes k bs ->
  writes (WriteByte g;; write_number bo mask len x;; k) (block_bytes (g, x) ++ bs).
Proof.
  intros Hg Hx Hk. unfold block_bytes. rewrite <- app_assoc.
  eapply writes_bind; [apply writes_byte|]. eapply writes_bind; [by apply writes_number | done].
Qed.

Lemma writes_long_gap gap x k : 1 <= gap < 2 ^ 64 -> 0 <= x < epoch_size len ->
  writes (write_long_gap bo mask len gap x (S k))
    (concat (map block_bytes (replicate k (0xFF, 0) ++ [(1 + (gap - 1) mod 255, x)]))).
Proof.
  intros Hg Hx. assert (H0 : 0 <= 0 < epoch_size len).
  { by destruct len_valid as [-> | [-> | [-> | ->]]]. }
  assert (Hb : u8 (1 + u64 (gap - 1) mod 255) = 1 + (gap - 1) mod 255).
  { rewrite (u64_small (gap - 1)) by lia. glia. }
  induction k as [|k IH].
  - cbn [write_long_gap replicate app map concat]. rewrite Hb.
    apply write_block; [glia | done | apply writes_ret].
  - change (write_long_gap bo mask len gap x (S (S k)))
      with (WriteByte 0xFF;; write_number bo mask len 0;; write_long_gap bo mask len gap x (S k)).
    cbn [replicate app map concat]. by apply write_block.
Qed.

(** One range: a short gap is written directly, a long one block by block. *)
Lemma emits_range last r n :
  0 <= First r <= Last r -> Last r < First last - 1 -> First last < 2 ^ 48 ->
  range_length r < epoch_size len ->
  let gap := range_gap last r in
  emits (if range_blocks gap =? 1 then
           WriteByte (u8 gap);; write_number bo mask len (range_length r);; mret (n + 1)
         else
           write_long_gap bo mask len gap (range_length r) (Z.to_nat (range_blocks gap));;
           mret (n + range_blocks gap))
    (concat (map block_bytes (blocks_of last r))) (n + range_blocks gap).
Proof.
  intros H1 H2 H3 H4 gap. assert (Hl : 0 <= range_length r) by (unfold range_length; glia).
  assert (Hg : 1 <= gap < 2 ^ 48) by (subst gap; rewrite range_gap_desc; lia).
  destruct (range_blocks_spec gap) as [Hb Hs]; [lia|].
  unfold blocks_of. fold gap. destruct (Z.eqb_spec (range_blocks gap) 1) as [E|E].
  - rewrite E in *. change (Z.to_nat (1 - 1)) with 0%nat. cbn [replicate app map concat].
    replace (1 + (gap - 1) mod 255) with (u8 gap) by glia. unfold block_bytes.
    rewrite <- app_assoc. eapply emits_bind; [apply writes_byte|].
    eapply emits_bind; [by apply writes_number | apply emits_ret].
  - replace (Z.to_nat (range_blocks gap)) with (S (Z.to_nat (range_blocks gap - 1))) by lia.
    rewrite <- (app_nil_r (concat _)).
    eapply emits_bind; [apply writes_long_gap; lia | apply emits_ret].
Qed.

(** Exactly the ranges that fit are written, when the first one does. *)
Lemma emits_ranges last rs n :
  desc (First last - 1) rs -> First last < 2 ^ 48 ->
  Forall (fun r => range_length r < epoch_size len) rs ->
  writable last rs n <> [] ->
  let num := numWritable_loop last rs n + 1 in
  emits (write_ranges bo mask len num last rs (n + 1))
    (concat (map block_bytes (all_blocks last (writable last rs n)))) num.
Proof.
  revert last n. induction rs as [|r rs IH]; intros last n; [done|].
  intros (H1 & H2 & H3) H4 [H5 H6]%Forall_cons Hw num. subst num. cbn [write_ranges].
  cbn [writable numWritable_loop] in *. cbv zeta.
  set (b := range_blocks (range_gap last r)) in *.
  destruct (Z.ltb_spec (n + b) 255); [|done]. clear Hw. cbn [all_blocks].
  rewrite map_app, concat_app. eapply emits_bind; [by apply emits_range|]. fold b.
  replace (n + 1 + b) with (n + b + 1) by lia.
  pose proof (numWritable_blocks r rs (n + b) H3 ltac:(lia)) as Hn.
  destruct (decide (writable r rs (n + b) = [])) as [E|E].
  - rewrite Hn, E. cbn [all_blocks map concat]. rewrite zlen_nil, Z.add_0_r, Z.leb_refl.
    apply emits_ret.
  - destruct (Z.leb_spec (numWritable_loop r rs (n + b) + 1) (n + b + 1)).
    + exfalso. assert (zlen (all_blocks r (writable r rs (n + b))) <= 0) by lia.
      destruct (writable r rs (n + b)) as [|r' rs'] eqn:Ew; [done|].
      cbn [all_blocks] in *. unfold blocks_of in *.
      unfold zlen in *. rewrite !length_app in *. simpl in *. lia.
    + apply IH; try done; lia.
Qed.

(** A first range that does not fit is written all the same, and then the count
    of blocks is wrong. *)
Lemma emits_ranges_stuck last r rs :
  0 <= First r <= Last r -> Last r < First last - 1 -> First last < 2 ^ 48 ->
  range_length r < epoch_size len ->
  255 <= range_blocks (range_gap last r) ->
  emits (write_ranges bo mask len 1 last (r :: rs) 1)
    (concat (map block_bytes (blocks_of last r))) (1 + range_blocks (range_gap last r)).
Proof.
  intros H1 H2 H3 H4 H5. cbn [write_ranges]. cbv zeta. rewrite <- (app_nil_r (concat _)).
  eapply emits_bind; [by apply emits_range|]. cbv beta.
  destruct (Z.leb_spec 1 (1 + range_blocks (range_gap last r))); [apply emits_ret | lia].
Qed.

Lemma reads_blocks bs st :
  Forall (fun b => 0 <= snd b < epoch_size len) bs ->
  reads (read_blocks bo len (length bs) st) (concat (map block_bytes bs)) (foldl block_step st bs).
Proof.
  revert st. induction bs as [|[g x] bs IH]; intros st; [intros _; apply reads_ret|].
  intros [Hx Hbs]%Forall_cons. cbn [read_blocks length map concat foldl]. unfold block_bytes at 1.
  rewrite <- app_assoc. eapply reads_bind; [apply reads_byte|].
  eapply reads_bind; [by apply reads_number|]. by apply IH.
Qed.

Lemma all_blocks_lengths last rs :
  Forall (fun r => range_length r < epoch_size len) rs ->
  Forall (fun b => 0 <= snd b < epoch_size len) (all_blocks last rs).
Proof.
  assert (0 < epoch_size len) by (by destruct len_valid as [-> | [-> | [-> | ->]]]).
  revert last. induction rs as [|r rs IH]; intros last; [constructor|].
  intros [Hr Hrs]%Forall_cons. simpl. apply Forall_app; split; [|by apply IH].
  unfold blocks_of. apply Forall_app; split.
  - apply Forall_replicate. simpl. lia.
  - apply Forall_singleton. simpl. split; [unfold range_length; glia | done].
Qed.

(** Parsing the blocks of the ranges [rs] after the range [r]. *)
Lemma reads_ranges r rs r' :
  desc (First r - 1) rs -> First r <= Last r -> Last r < 2 ^ 48 -> 1 <= First r ->
  Forall (fun r => range_length r < epoch_size len) rs -> last rs = Some r' ->
  reads (read_ranges bo len true (zlen (all_blocks r rs)) (Last r) (range_length r))
    (concat (map block_bytes (all_blocks r rs))) (r :: rs, First r').
Proof.
  intros H1 H2 H3 H4 H5 H6. unfold read_ranges. rewrite <- (app_nil_r (concat _)).
  unfold zlen. rewrite Nat2Z.id. eapply reads_bind.
  { by apply reads_blocks, all_blocks_lengths. }
  assert (Hrs : rs <> []) by (by intros ->).
  replace (mkAckRange _ (Last r)) with r; cycle 1.
  { destruct r as [F L]. unfold range_length. simpl in *. f_equal. glia. }
  destruct (all_blocks_parse rs r [] false H1) as [E1 E2]; [lia|].
  set (st := foldl _ _ _) in *. destruct rs as [|r1 rs1] eqn:Ers; [done|].
  unfold block_ranges. rewrite E2. change (reverse _) with (st_ranges st). rewrite E1.
  cbn [reverse rev_append app]. rewrite last_cons_cons, H6. apply reads_ret.
Qed.
End Blocks.

(** The parser's consistency check accepts descending ranges, and only those
    when no range ends at the top of the number space. *)
Lemma validate_consistency_desc last rs :
  desc (First last - 1) rs -> First last < 2 ^ 63 -> validate_consistency last rs = true.
Proof.
  revert last. induction rs as [|r rs IH]; intros last; [done|].
  intros (H1 & H2 & H3) H4. simpl. rewrite (u64_small (Last r + 1)) by lia.
  cases_bool; try lia. apply IH; [done | lia].
Qed.

Lemma desc_forallb b rs : desc b rs -> forallb (fun a => First a <=? Last a) rs = true.
Proof.
  revert b. induction rs as [|r rs IH]; intros b; [done|]. intros (H1 & _ & H3). simpl.
  rewrite (IH _ H3). cases_bool; [done | lia].
Qed.

Lemma validate_desc r rs :
  0 <= First r <= Last r -> Last r < 2 ^ 48 -> desc (First r - 1) rs -> rs <> [] ->
  validateAckRanges (Last r) (r :: rs) = true.
Proof.
  intros H1 H2 H3 H4. unfold validateAckRanges. destruct rs as [|r1 rs]; [done|].
  rewrite Z.eqb_refl, validate_consistency_desc by (done || lia). rewrite andb_true_r, andb_true_l.
  apply (desc_forallb (Last r + 1)). cbn [desc]. split_and!; try lia; try apply H3.
Qed.

(** The length used for the blocks is one of 1, 2, 4 and 6 and holds every range. *)
Lemma deltaLen_valid largest lowest rs : valid_len (getMissingSequenceNumberDeltaLen largest lowest rs).
Proof.
  unfold getMissingSequenceNumberDeltaLen, valid_len. cbv zeta.
  repeat (destruct (_ <=? _); [by auto|]). by auto.
Qed.

Lemma max_length_ge rs m :
  let f := fun m r => if m <? range_length r then range_length r else m in
  m <= foldl f m rs /\ Forall (fun r => range_length r <= foldl f m rs) rs.
Proof.
  intros f. revert m. induction rs as [|r rs IH]; intros m; simpl; [split; [lia | constructor]|].
  destruct (IH (f m r)) as [H1 H2]. assert (m <= f m r /\ range_length r <= f m r) as [? ?].
  { unfold f. cases_bool; lia. }
  split; [lia|]. constructor; [lia | done].
Qed.

Lemma max_length_lt rs m B :
  m < B -> Forall (fun r => range_length r < B) rs ->
  foldl (fun m r => if m <? range_length r then range_length r else m) m rs < B.
Proof.
  revert m. induction rs as [|r rs IH]; intros m Hm; simpl; [done|].
  intros [Hr Hrs]%Forall_cons. apply IH; [case_match; lia | done].
Qed.

Lemma deltaLen_fits largest lowest rs :
  rs <> [] -> Forall (fun r => range_length r < 2 ^ 48) rs ->
  Forall (fun r => range_length r < epoch_size (getMissingSequenceNumberDeltaLen largest lowest rs)) rs.
Proof.
  intros Hne Hrs. unfold getMissingSequenceNumberDeltaLen.
  destruct rs as [|r0 rs0] eqn:E; [done|]. rewrite <- E in *. clear E Hne.
  destruct (max_length_ge rs 0) as [_ H]. pose proof (max_length_lt rs 0 (2 ^ 48) ltac:(lia) Hrs) as Hlt.
  set (m := foldl _ _ _) in *. eapply Forall_impl; [exact H|]. intros r Hr. cbv beta zeta in Hr |- *.
  cases_bool; unfold epoch_size, PacketNumberLen1, PacketNumberLen2, PacketNumberLen4, PacketNumberLen6; lia.
Qed.

(** ** Frames that can be written *)

(** What the two frames have in common: a range of numbers, or at least two
    descending ranges that start at the largest and end at the lowest number. *)
Definition ranges_ok (largest lowest : PacketNumber) (ranges : list AckRange) : Prop :=
  largest < 2 ^ 48 /\
  match ranges with
  | [] => 1 <= lowest <= largest
  | r :: rs =>
      Last r = largest /\ 1 <= First r <= Last r /\ desc (First r - 1) rs /\
      exists r', last rs = Some r' /\ First r' = lowest
  end.

(** The gap after the first range takes at most 254 blocks. *)
Definition first_gap_ok (ranges : list AckRange) : Prop :=
  match ranges with
  | r :: r1 :: _ => First r - Last r1 - 1 <= 254 * 255
  | _ => True
  end.

(** The ranges a frame carries on the wire, and the lowest number of them. *)
Definition wire_ranges (ranges : list AckRange) : list AckRange :=
  match ranges with
  | [] => []
  | r :: rs => r :: writable r rs 0
  end.
Definition wire_lowest (lowest : PacketNumber) (ranges : list AckRange) : PacketNumber :=
  match last (wire_ranges ranges) with
  | Some r => First r
  | None => lowest
  end.

Lemma desc_lengths b rs : desc b rs -> b < 2 ^ 48 -> Forall (fun r => range_length r < 2 ^ 48) rs.
Proof.
  revert b. induction rs as [|r rs IH]; intros b; [constructor|].
  intros (H1 & H2 & H3) Hb. constructor; [|apply (IH (First r - 1)); [done | lia]].
  rewrite range_length_desc; lia.
Qed.

Lemma writable_sub rs last n (P : AckRange -> Prop) : Forall P rs -> Forall P (writable last rs n).
Proof.
  revert last n. induction rs as [|r rs IH]; intros last n; simpl; [done|].
  intros [H1 H2]%Forall_cons. case_match; constructor; auto.
Qed.

Lemma range_blocks_small gap : 1 <= gap <= 254 * 255 -> range_blocks gap < 255.
Proof. intros H. destruct (range_blocks_spec gap); glia. Qed.

Lemma range_blocks_large gap : 254 * 255 < gap -> 255 <= range_blocks gap.
Proof. intros H. destruct (range_blocks_spec gap); glia. Qed.

Lemma blocks_bytes_length v len bs : valid_len len ->
  zlen (concat (map (block_bytes v len) bs)) = (1 + len) * zlen bs.
Proof.
  intros Hl. induction bs as [|[g x] bs IH]; [unfold zlen; simpl; lia|].
  cbn [map concat]. unfold block_bytes at 1. rewrite !zlen_app, IH, number_bytes_length by done.
  unfold zlen; simpl length. lia.
Qed.

Lemma read_first_block_reads v len largest fl :
  valid_len len -> 0 <= fl < epoch_size len -> 1 <= fl <= largest ->
  reads (read_first_block (GetByteOrder v) len largest) (number_bytes v len fl) fl.
Proof.
  intros Hl Hfl Hle. unfold read_first_block. rewrite <- (app_nil_r (number_bytes _ _ _)).
  eapply reads_bind; [by apply reads_number|].
  cases_bool; simpl; try lia; apply reads_ret.
Qed.

(** The number of blocks announced for a frame. *)
Definition announced (ranges : list AckRange) : Z :=
  if HasMissingRanges ranges then numWritableNackRanges ranges - 1 else 0.

(** Writing the blocks of a frame without missing ranges. *)
Lemma blocks_codec_single v mask largest lowest err :
  (forall x, 0 <= x < 2 ^ 48 -> mask x = x) -> ranges_ok largest lowest [] ->
  let len := getMissingSequenceNumberDeltaLen largest lowest [] in
  let fl := largest - lowest + 1 in
  writes (write_blocks (GetByteOrder v) mask len largest lowest [] 0 err) (number_bytes v len fl)
  /\ reads (read_first_block (GetByteOrder v) len largest) (number_bytes v len fl) fl
  /\ reads (read_ranges (GetByteOrder v) len false 0 largest fl) [] ([], lowest).
Proof.
  intros Hm [H48 Hok] len fl. pose proof (deltaLen_valid largest lowest []) as Hl. fold len in Hl.
  assert (Hfl : 0 <= fl < epoch_size len).
  { subst len fl. unfold getMissingSequenceNumberDeltaLen. cbv zeta.
    rewrite (u64_small (largest - lowest)), u64_small by lia.
    cases_bool; unfold epoch_size, PacketNumberLen1, PacketNumberLen2, PacketNumberLen4, PacketNumberLen6; lia. }
  split_and!.
  - unfold write_blocks, first_block. rewrite (u64_small (largest - lowest)), u64_small by lia.
    rewrite <- (app_nil_l (number_bytes _ _ _)).
    eapply emits_bind; [intros b; by rewrite app_nil_r|]. cbv beta iota.
    rewrite <- (app_nil_r (number_bytes _ _ _)).
    eapply emits_bind; [by apply writes_number|]. apply emits_ret.
  - apply read_first_block_reads; [done..|lia].
  - unfold read_ranges. intros rest. simpl. destruct (Z.eqb_spec largest 0); [lia|].
    unfold mret, GoM_ret. do 3 f_equal. subst fl. rewrite u64_small; lia.
Qed.

(** Facts of a frame with missing ranges. *)
Section Missing.
Context (v : VersionNumber) (mask : Z -> Z) (mask_small : forall x, 0 <= x < 2 ^ 48 -> mask x = x).
Context (largest lowest : PacketNumber) (r : AckRange) (rs : list AckRange).
Context (Hok : ranges_ok largest lowest (r :: rs)).
Local Abbreviation len := (getMissingSequenceNumberDeltaLen largest lowest (r :: rs)).
Local Abbreviation ws := (writable r rs 0).

Lemma missing_fits : Forall (fun r => range_length r < epoch_size len) (r :: rs).
Proof.
  destruct Hok as (H48 & HL & HF & Hd & _). apply deltaLen_fits; [done|].
  constructor; [rewrite range_length_desc; lia|]. by apply (desc_lengths (First r - 1)); [|lia].
Qed.

Lemma missing_writable : first_gap_ok (r :: rs) -> ws <> [].
Proof.
  destruct Hok as (H48 & HL & HF & Hd & r' & Hr' & _). intros Hgap.
  destruct rs as [|r1 rs']; [done|]. simpl in *. destruct Hd as (H1 & H2 & H3).
  rewrite range_gap_desc by lia. pose proof (range_blocks_small (First r - Last r1 - 1)).
  case_match eqn:E; [done | rewrite Z.ltb_ge in E; lia].
Qed.

Lemma missing_announced : announced (r :: rs) = zlen (all_blocks r ws).
Proof.
  destruct Hok as (H48 & HL & HF & Hd & _). unfold announced.
  change (HasMissingRanges (r :: rs)) with true. simpl.
  rewrite numWritable_blocks by (done || lia). lia.
Qed.

Lemma missing_announced_range : first_gap_ok (r :: rs) -> 1 <= announced (r :: rs) <= 254.
Proof.
  intros Hgap. split.
  - rewrite missing_announced. destruct ws as [|r1 rs1] eqn:E; [by destruct missing_writable|].
    unfold zlen, blocks_of. simpl. rewrite length_app. unfold blocks_of. rewrite length_app. simpl. lia.
  - unfold announced. change (HasMissingRanges (r :: rs)) with true. simpl.
    pose proof (numWritable_lt r rs 0). lia.
Qed.

Lemma missing_first_block : first_block largest lowest (r :: rs) = Ok (range_length r, 1).
Proof.
  destruct Hok as (H48 & HL & HF & Hd & r' & Hr' & Hlow). unfold first_block.
  rewrite HL, Z.eqb_refl. simpl. rewrite <- HL.
  replace (last (r :: rs)) with (Some r') by (destruct rs; [done | by rewrite last_cons_cons]).
  simpl. rewrite Hlow, bool_decide_true by done. done.
Qed.

Lemma missing_writes err : first_gap_ok (r :: rs) ->
  writes (write_blocks (GetByteOrder v) mask len largest lowest (r :: rs)
            (numWritableNackRanges (r :: rs)) err)
    (number_bytes v len (range_length r) ++ concat (map (block_bytes v len) (all_blocks r ws))).
Proof.
  intros Hgap. pose proof missing_fits as [Hfr Hfrs]%Forall_cons.
  destruct Hok as (H48 & HL & HF & Hd & _).
  assert (0 <= range_length r) by (rewrite range_length_desc; lia).
  unfold write_blocks. rewrite missing_first_block.
  rewrite <- (app_nil_l (number_bytes _ _ _ ++ _)).
  eapply emits_bind; [intros b; by rewrite app_nil_r|]. cbv beta iota.
  eapply emits_bind; [by apply writes_number; [|apply deltaLen_valid|]|].
  rewrite <- (app_nil_r (concat _)). eapply emits_bind.
  { apply (emits_ranges v mask mask_small _ (deltaLen_valid _ _ _) r rs 0); try done; try lia.
    by apply missing_writable. }
  cbv beta. simpl. rewrite Z.eqb_refl. apply emits_ret.
Qed.

Lemma missing_reads : first_gap_ok (r :: rs) ->
  reads (read_first_block (GetByteOrder v) len largest) (number_bytes v len (range_length r))
    (range_length r)
  /\ reads (read_ranges (GetByteOrder v) len true (announced (r :: rs)) largest (range_length r))
       (concat (map (block_bytes v len) (all_blocks r ws)))
       (wire_ranges (r :: rs), wire_lowest lowest (r :: rs))
  /\ validateAckRanges largest (wire_ranges (r :: rs)) = true.
Proof.
  intros Hgap. pose proof missing_fits as [Hfr Hfrs]%Forall_cons.
  pose proof (missing_writable Hgap) as Hws.
  destruct Hok as (H48 & HL & HF & Hd & _). pose proof (range_length_desc r) as Hlr.
  split_and!.
  - apply read_first_block_reads; [apply deltaLen_valid | lia | lia].
  - rewrite missing_announced, <- HL. unfold wire_lowest.
    destruct (last (wire_ranges (r :: rs))) as [r'|] eqn:E; [|by apply last_None in E].
    apply reads_ranges; try done; try lia.
    + apply deltaLen_valid.
    + by apply desc_writable.
    + by apply writable_sub.
    + simpl in E. destruct ws; [done|]. by rewrite last_cons_cons in E.
  - rewrite <- HL. apply validate_desc; try done; try lia. by apply desc_writable.
Qed.
End Missing.

Lemma blocks_codec v mask largest lowest ranges err :
  (forall x, 0 <= x < 2 ^ 48 -> mask x = x) ->
  ranges_ok largest lowest ranges -> first_gap_ok ranges ->
  let len := getMissingSequenceNumberDeltaLen largest lowest ranges in
  exists fl bs1 bs2,
    writes (write_blocks (GetByteOrder v) mask len largest lowest ranges
              (numWritableNackRanges ranges) err) (bs1 ++ bs2)
    /\ reads (read_first_block (GetByteOrder v) len largest) bs1 fl
    /\ reads (read_ranges (GetByteOrder v) len (HasMissingRanges ranges) (announced ranges) largest fl)
         bs2 (wire_ranges ranges, wire_lowest lowest ranges)
    /\ validateAckRanges largest (wire_ranges ranges) = true
    /\ zlen (bs1 ++ bs2) = len + (1 + len) * announced ranges
    /\ byte_ok (announced ranges) /\ HasMissingRanges ranges && (announced ranges =? 0) = false.
Proof.
  intros Hm Hok Hgap len. pose proof (deltaLen_valid largest lowest ranges) as Hl. fold len in Hl.
  destruct ranges as [|r rs].
  - destruct (blocks_codec_single v mask largest lowest err Hm Hok) as (H1 & H2 & H3).
    exists (largest - lowest + 1), (number_bytes v len (largest - lowest + 1)), [].
    rewrite app_nil_r, number_bytes_length by done. split_and!; try done. unfold announced. simpl. lia.
  - destruct (missing_reads v largest lowest r rs Hok Hgap) as (H2 & H3 & H4).
    pose proof (missing_announced_range largest lowest r rs Hok Hgap).
    exists (range_length r), (number_bytes v len (range_length r)),
      (concat (map (block_bytes v len) (all_blocks r (writable r rs 0)))).
    split_and!; try done; try lia.
    + by apply missing_writes.
    + rewrite zlen_app, number_bytes_length, blocks_bytes_length, (missing_announced largest lowest) by done. lia.
    + unfold byte_ok. lia.
Qed.

Lemma GetPacketNumberLength_spec n : 0 <= n < 2 ^ 48 ->
  valid_len (GetPacketNumberLength n) /\ n < epoch_size (GetPacketNumberLength n).
Proof.
  intros Hn. unfold GetPacketNumberLength, valid_len, epoch_size.
  rewrite !Z.shiftl_1_l. unfold PacketNumberLen1, PacketNumberLen2, PacketNumberLen4, PacketNumberLen6.
  cases_bool; split; try lia; auto.
Qed.

Lemma HasMissingRanges_length ranges : HasMissingRanges ranges = true <-> ranges <> [].
Proof. destruct ranges; split; done. Qed.

Lemma numWritable_announced ranges :
  (if HasMissingRanges ranges then numWritableNackRanges ranges else 0) = numWritableNackRanges ranges.
Proof. by destruct ranges. Qed.

(** The byte of block count: written and read back when there are ranges. *)
Lemma announced_byte ranges msg :
  byte_ok (announced ranges) ->
  let num := if HasMissingRanges ranges then numWritableNackRanges ranges else 0 in
  let bs := if HasMissingRanges ranges then [announced ranges] else [] in
  writes (if HasMissingRanges ranges then
            if 0xFF <? num then panic msg else WriteByte (u8 (num - 1))
          else mret tt) bs
  /\ reads (if HasMissingRanges ranges then ReadByte else mret 0) bs (announced ranges).
Proof.
  unfold announced. destruct (HasMissingRanges ranges) eqn:E; intros Ha; cbv zeta.
  - destruct (Z.ltb_spec 255 (numWritableNackRanges ranges)).
    + unfold byte_ok in Ha. exfalso. destruct ranges as [|r rs]; [done|].
      simpl in *. pose proof (numWritable_lt r rs 0). lia.
    + rewrite u8_small by apply Ha. split; [apply writes_byte | apply reads_byte].
  - split; [apply writes_ret | apply reads_ret].
Qed.

(** The type byte and the flags carry the two lengths and the two bits. *)
Lemma AckFrame_typeByte_spec f :
  valid_len (GetPacketNumberLength (ack_LargestAcked f)) ->
  let tb := AckFrame_typeByte f in
  (Z.land tb 0x20 =? 0x20) = AckFrame_HasMissingRanges f
  /\ (Z.land tb 0x10 =? 0x10) = negb (ack_PathID f =? InitialPathID)
  /\ length_of_bits (Z.shiftr (Z.land tb 0x0C) 2) = GetPacketNumberLength (ack_LargestAcked f)
  /\ length_of_bits (Z.land tb 0x03) = AckFrame_getMissingSequenceNumberDeltaLen f.
Proof.
  intros Hla tb. subst tb. unfold AckFrame_typeByte.
  assert (Hdl : valid_len (AckFrame_getMissingSequenceNumberDeltaLen f)) by apply deltaLen_valid.
  destruct (AckFrame_HasMissingRanges f), (ack_PathID f =? InitialPathID);
    destruct Hla as [-> | [-> | [-> | ->]]]; destruct Hdl as [-> | [-> | [-> | ->]]]; done.
Qed.

Lemma ClosePathFrame_flags_spec f :
  valid_len (GetPacketNumberLength (cp_LargestAcked f)) ->
  let flags := ClosePathFrame_flags f in
  (Z.land flags 0x10 =? 0x10) = ClosePathFrame_HasMissingRanges f
  /\ length_of_bits (Z.shiftr (Z.land flags 0x0C) 2) = GetPacketNumberLength (cp_LargestAcked f)
  /\ length_of_bits (Z.land flags 0x03) = ClosePathFrame_getMissingSequenceNumberDeltaLen f.
Proof.
  intros Hla flags. subst flags. unfold ClosePathFrame_flags.
  assert (Hdl : valid_len (ClosePathFrame_getMissingSequenceNumberDeltaLen f)) by apply deltaLen_valid.
  destruct (ClosePathFrame_HasMissingRanges f);
    destruct Hla as [-> | [-> | [-> | ->]]]; destruct Hdl as [-> | [-> | [-> | ->]]]; done.
Qed.

Definition AckFrame_ok (f : AckFrame) : Prop :=
  byte_ok (ack_PathID f) /\ ranges_ok (ack_LargestAcked f) (ack_LowestAcked f) (ack_AckRanges f).

Definition ClosePathFrame_ok (f : ClosePathFrame) : Prop :=
  byte_ok (cp_PathID f) /\ ranges_ok (cp_LargestAcked f) (cp_LowestAcked f) (cp_AckRanges f).

(** The frame the peer sees: the ranges that fit, the delay at the precision of
    the wire. *)
Definition AckFrame_on_wire (f : AckFrame) (now : Time) : AckFrame :=
  mkAckFrame (ack_PathID f) (ack_LargestAcked f)
    (wire_lowest (ack_LowestAcked f) (ack_AckRanges f)) (wire_ranges (ack_AckRanges f)) zeroTime
    (rtt_on_wire (Time_Sub now (ack_PacketReceivedTime f))).

Definition AckFrame_delayed (f : AckFrame) (now : Time) : AckFrame :=
  mkAckFrame (ack_PathID f) (ack_LargestAcked f) (ack_LowestAcked f) (ack_AckRanges f)
    (ack_PacketReceivedTime f) (Time_Sub now (ack_PacketReceivedTime f)).

Lemma mask48_small x : 0 <= x < 2 ^ 48 -> mask48 x = x.
Proof.
  intros Hx. unfold mask48. change (Z.shiftl 1 48 - 1) with (Z.ones 48).
  rewrite Z.land_ones by lia. by apply Z.mod_small.
Qed.

Lemma writes_opt_byte (b : bool) x :
  writes (if b then WriteByte x else mret tt) (if b then [x] else []).
Proof. destruct b; [apply writes_byte | apply writes_ret]. Qed.

Lemma read_timestamps_none v : reads (read_timestamps (GetByteOrder v)) [0] tt.
Proof. done. Qed.

Lemma reads_ufloat16 v x :
  reads (ReadUfloat16 (GetByteOrder v)) (enc v 2 (ufloat16_encode x)) (ufloat16_decode (ufloat16_encode x)).
Proof.
  unfold ReadUfloat16, readUfloat16.
  eapply reads_bind_ret; [apply reads_u16, ufloat16_encode_range | done].
Qed.

Lemma ranges_ok_bounds largest lowest ranges :
  ranges_ok largest lowest ranges -> 1 <= largest < 2 ^ 48.
Proof. intros [H1 H2]. destruct ranges as [|r rs]; [lia|]. destruct H2 as (? & ? & _). lia. Qed.

Lemma MinLength_ranges base len ranges :
  0 <= base <= 20 -> valid_len len -> byte_ok (announced ranges) ->
  (if HasMissingRanges ranges then u64 (base + (1 + len) * numWritableNackRanges ranges) else base + len)
  = base + (if HasMissingRanges ranges then 1 else 0) + (len + (1 + len) * announced ranges).
Proof.
  intros Hb Hl. unfold announced, byte_ok. destruct (HasMissingRanges ranges); intros Ha; [|lia].
  destruct Hl as [-> | [-> | [-> | ->]]]; rewrite u64_small; lia.
Qed.

(** ** Round trips *)

(** The layout of an ACK frame around its blocks [bs1] and [bs2]. *)
Definition AckFrame_layout (v : VersionNumber) (f : AckFrame) (now : Time) (bs1 bs2 : list Z) : list Z :=
  [AckFrame_typeByte f]
  ++ (if negb (ack_PathID f =? InitialPathID) then [ack_PathID f] else [])
  ++ number_bytes v (GetPacketNumberLength (ack_LargestAcked f)) (ack_LargestAcked f)
  ++ enc v 2 (ufloat16_encode (duration_us (Time_Sub now (ack_PacketReceivedTime f))))
  ++ (if HasMissingRanges (ack_AckRanges f) then [announced (ack_AckRanges f)] else [])
  ++ (bs1 ++ bs2) ++ [0].

Section AckCodec.
Context (f : AckFrame) (now : Time) (v : VersionNumber) (fl : Z) (bs1 bs2 : list Z).
Context (Hp : byte_ok (ack_PathID f)) (HL : 1 <= ack_LargestAcked f < 2 ^ 48).
Context (Hann : byte_ok (announced (ack_AckRanges f))).

Lemma AckFrame_emits :
  writes (write_blocks (GetByteOrder v) mask48 (AckFrame_getMissingSequenceNumberDeltaLen f)
            (ack_LargestAcked f) (ack_LowestAcked f) (ack_AckRanges f)
            (numWritableNackRanges (ack_AckRanges f)) errInconsistentAckBlocks) (bs1 ++ bs2) ->
  emits (AckFrame_Write f now v) (AckFrame_layout v f now bs1 bs2) (AckFrame_delayed f now).
Proof.
  intros Hw. destruct (GetPacketNumberLength_spec (ack_LargestAcked f)) as [Hla Hfit]; [lia|].
  unfold AckFrame_Write, AckFrame_layout. eapply emits_bind; [apply writes_byte|].
  rewrite (u8_small (ack_PathID f) Hp).
  eapply emits_bind; [apply writes_opt_byte|].
  eapply emits_bind; [apply writes_number; [exact mask48_small | done | lia]|].
  eapply emits_bind; [apply writes_u16|]. eapply emits_bind; [by apply announced_byte|].
  eapply emits_bind; [unfold AckFrame_HasMissingRanges; rewrite numWritable_announced; exact Hw|].
  apply (emits_bind _ _ [0] [] tt); [apply writes_byte | apply emits_ret].
Qed.

Lemma AckFrame_reads :
  HasMissingRanges (ack_AckRanges f) && (announced (ack_AckRanges f) =? 0) = false ->
  reads (read_first_block (GetByteOrder v) (AckFrame_getMissingSequenceNumberDeltaLen f)
           (ack_LargestAcked f)) bs1 fl ->
  reads (read_ranges (GetByteOrder v) (AckFrame_getMissingSequenceNumberDeltaLen f)
           (HasMissingRanges (ack_AckRanges f)) (announced (ack_AckRanges f)) (ack_LargestAcked f) fl)
    bs2 (wire_ranges (ack_AckRanges f), wire_lowest (ack_LowestAcked f) (ack_AckRanges f)) ->
  validateAckRanges (ack_LargestAcked f) (wire_ranges (ack_AckRanges f)) = true ->
  reads (ParseAckFrame v) (AckFrame_layout v f now bs1 bs2) (AckFrame_on_wire f now).
Proof.
  intros Hnz Hr1 Hr2 Hval.
  destruct (GetPacketNumberLength_spec (ack_LargestAcked f)) as [Hla Hfit]; [lia|].
  destruct (AckFrame_typeByte_spec f Hla) as (Ht1 & Ht2 & Ht3 & Ht4).
  unfold ParseAckFrame, AckFrame_layout. eapply reads_bind; [apply reads_byte|]. cbv zeta.
  rewrite Ht1, Ht2, Ht3, Ht4.
  eapply (reads_bind _ _ _ _ (ack_PathID f)).
  { destruct (Z.eqb_spec (ack_PathID f) InitialPathID) as [->|]; [apply reads_ret | apply reads_byte]. }
  eapply reads_bind; [apply reads_number; [done | lia]|].
  eapply reads_bind; [apply reads_ufloat16|].
  eapply reads_bind; [by apply (announced_byte _ "AckFrame: Too many ACK ranges")|].
  unfold AckFrame_HasMissingRanges. rewrite Hnz. rewrite <- app_assoc.
  eapply reads_bind; [exact Hr1|]. eapply reads_bind; [exact Hr2|].
  cbv beta iota. rewrite Hval. simpl.
  eapply reads_bind_ret; [apply read_timestamps_none | done].
Qed.

Lemma AckFrame_layout_length :
  let len := AckFrame_getMissingSequenceNumberDeltaLen f in
  zlen (bs1 ++ bs2) = len + (1 + len) * announced (ack_AckRanges f) ->
  zlen (AckFrame_layout v f now bs1 bs2) = AckFrame_MinLength f v.
Proof.
  intros len Hlen. destruct (GetPacketNumberLength_spec (ack_LargestAcked f)) as [Hla Hfit]; [lia|].
  unfold AckFrame_MinLength, AckFrame_HasMissingRanges, AckFrame_numWritableNackRanges. fold len.
  assert (Hl : valid_len len) by apply deltaLen_valid.
  assert (Hb : 0 <= 1 + 2 + 1 + GetPacketNumberLength (ack_LargestAcked f) <= 10).
  { destruct Hla as [-> | [-> | [-> | ->]]]; lia. }
  unfold AckFrame_layout. rewrite !zlen_app, <- (zlen_app bs1), Hlen.
  rewrite number_bytes_length, enc_zlen by done. cbv zeta.
  rewrite MinLength_ranges by (done || lia).
  assert (HX : 0 <= len + (1 + len) * announced (ack_AckRanges f) <= 2000).
  { unfold byte_ok in Hann. destruct Hl as [-> | [-> | [-> | ->]]]; lia. }
  generalize dependent (len + (1 + len) * announced (ack_AckRanges f)). intros X _ HX.
  destruct (negb _), (HasMissingRanges _); rewrite ?u64_small; unfold zlen; simpl length; lia.
Qed.
End AckCodec.

(** The bytes of a frame that can be written, after its type byte. *)
Lemma AckFrame_codec f now v : AckFrame_ok f -> first_gap_ok (ack_AckRanges f) ->
  exists bs, emits (AckFrame_Write f now v) (AckFrame_typeByte f :: bs) (AckFrame_delayed f now)
    /\ reads (ParseAckFrame v) (AckFrame_typeByte f :: bs) (AckFrame_on_wire f now)
    /\ zlen (AckFrame_typeByte f :: bs) = AckFrame_MinLength f v.
Proof.
  intros [Hp Hok] Hgap. pose proof (ranges_ok_bounds _ _ _ Hok) as HL.
  destruct (blocks_codec v mask48 _ _ _ errInconsistentAckBlocks mask48_small Hok Hgap)
    as (fl & bs1 & bs2 & Hw & Hr1 & Hr2 & Hval & Hlen & Hann & Hnz).
  eexists. change (?x :: ?l) with ([x] ++ l). split_and!.
  - exact (AckFrame_emits f now v bs1 bs2 Hp HL Hann Hw).
  - exact (AckFrame_reads f now v fl bs1 bs2 HL Hann Hnz Hr1 Hr2 Hval).
  - exact (AckFrame_layout_length f now v bs1 bs2 HL Hann Hlen).
Qed.

(** an ACK frame with descending ranges whose first gap is at most 254*255
    packets is written without error in exactly [MinLength] bytes, and parsing
    these bytes, whatever follows them, gives the frame back: the same path,
    largest number, lowest number and ranges, restricted to the ranges that fit
    in 254 blocks, with the delay rounded to the precision of the wire. *)
Theorem AckFrame_roundtrip f now v rest :
  AckFrame_ok f -> first_gap_ok (ack_AckRanges f) ->
  exists out, AckFrame_Write f now v [] = (Ok (AckFrame_delayed f now), out)
    /\ zlen out = AckFrame_MinLength f v
    /\ ParseAckFrame v (out ++ rest) = (Ok (AckFrame_on_wire f now), rest).
Proof.
  intros Hok Hgap. destruct (AckFrame_codec f now v Hok Hgap) as (bs & Hw & Hr & Hl).
  exists (AckFrame_typeByte f :: bs). split_and!; [apply Hw | done | apply Hr].
Qed.

Definition sample_ack : AckFrame :=
  mkAckFrame 3 1000 1 [mkAckRange 900 1000; mkAckRange 200 300; mkAckRange 1 150] 5000 0.

Lemma sample_ack_ok : AckFrame_ok sample_ack /\ first_gap_ok (ack_AckRanges sample_ack).
Proof.
  split; [|simpl; lia]. split; [by vm_compute|]. split; [by vm_compute|].
  cbn. split_and!; try lia; try done. by exists (mkAckRange 1 150).
Qed.

Lemma AckFrame_roundtrip_witness :
  exists out, AckFrame_Write sample_ack 905000 VersionMP [] = (Ok (AckFrame_delayed sample_ack 905000), out)
    /\ zlen out = AckFrame_MinLength sample_ack VersionMP
    /\ ParseAckFrame VersionMP (out ++ [1; 2]) = (Ok (AckFrame_on_wire sample_ack 905000), [1; 2]).
Proof.
  apply (AckFrame_roundtrip sample_ack 905000 VersionMP [1; 2]); apply sample_ack_ok.
Defined.

Lemma ClosePathFrame_codec f v : ClosePathFrame_ok f -> first_gap_ok (cp_AckRanges f) ->
  codec 0x11 (ClosePathFrame_Write f v) (ParseClosePathFrame v)
    (mkClosePathFrame (cp_PathID f) (cp_LargestAcked f)
       (wire_lowest (cp_LowestAcked f) (cp_AckRanges f)) (wire_ranges (cp_AckRanges f)))
    (ClosePathFrame_MinLength f v).
Proof.
  intros [Hp Hok] Hgap. pose proof (ranges_ok_bounds _ _ _ Hok) as HL.
  destruct (blocks_codec v id _ _ _ errInconsistentClosePathBlocks (fun _ _ => eq_refl) Hok Hgap)
    as (fl & bs1 & bs2 & Hw & Hr1 & Hr2 & Hval & Hlen & Hann & Hnz).
  destruct (announced_byte (cp_AckRanges f) "ClosePathFrame: Too many ACK ranges" Hann) as [Hwa Hra].
  destruct (GetPacketNumberLength_spec (cp_LargestAcked f)) as [Hla Hfit]; [lia|].
  destruct (ClosePathFrame_flags_spec f Hla) as (Ht1 & Ht2 & Ht3).
  eexists. split_and!.
  - unfold ClosePathFrame_Write. eapply emits_bind; [apply writes_byte|].
    eapply emits_bind; [rewrite (u8_small (cp_PathID f) Hp); apply writes_byte|].
    eapply emits_bind; [apply writes_byte|]. eapply emits_bind; [exact Hwa|].
    eapply emits_bind; [by apply writes_number; [|done|lia]|].
    unfold ClosePathFrame_HasMissingRanges. rewrite numWritable_announced. exact Hw.
  - unfold ParseClosePathFrame. do 3 (eapply reads_bind; [apply reads_byte|]). cbv zeta.
    rewrite Ht1, Ht2, Ht3. eapply reads_bind; [exact Hra|].
    unfold ClosePathFrame_HasMissingRanges. rewrite Hnz.
    eapply reads_bind; [apply reads_number; [done | lia]|].
    eapply reads_bind; [exact Hr1|]. rewrite <- (app_nil_r bs2). eapply reads_bind; [exact Hr2|].
    cbv beta iota. rewrite Hval. apply reads_ret.
  - unfold ClosePathFrame_MinLength. cbv zeta.
    unfold ClosePathFrame_HasMissingRanges, ClosePathFrame_numWritableNackRanges, ClosePathFrame_getMissingSequenceNumberDeltaLen.
    rewrite MinLength_ranges; [|destruct Hla as [-> | [-> | [-> | ->]]]; lia | apply deltaLen_valid | done].
    rewrite !zlen_app, <- (zlen_app bs1), Hlen, number_bytes_length by done.
    destruct (HasMissingRanges _); unfold zlen; simpl length; lia.
  - done.
Qed.

(** ** The first gap that does not fit *)

Lemma write_blocks_stuck v mask largest lowest r r1 rs err :
  (forall x, 0 <= x < 2 ^ 48 -> mask x = x) ->
  ranges_ok largest lowest (r :: r1 :: rs) -> 254 * 255 < First r - Last r1 - 1 ->
  let len := getMissingSequenceNumberDeltaLen largest lowest (r :: r1 :: rs) in
  exists bs, forall buf,
    write_blocks (GetByteOrder v) mask len largest lowest (r :: r1 :: rs)
      (numWritableNackRanges (r :: r1 :: rs)) err buf = (Err err, buf ++ bs).
Proof.
  intros Hm Hok Hgap len. pose proof (missing_fits _ _ _ _ Hok) as Hf.
  apply Forall_cons in Hf as [Hfr Hf]. apply Forall_cons in Hf as [Hfr1 _].
  pose proof (missing_first_block _ _ _ _ Hok) as Hfb.
  pose proof (deltaLen_valid largest lowest (r :: r1 :: rs)) as Hl. fold len in Hl, Hfr, Hfr1.
  destruct Hok as (H48 & HL & HF & (H1 & H2 & H3) & _).
  assert (0 <= range_length r) by (rewrite range_length_desc; lia).
  assert (Hb : 255 <= range_blocks (range_gap r r1)).
  { rewrite range_gap_desc by lia. by apply range_blocks_large. }
  assert (Hn : numWritableNackRanges (r :: r1 :: rs) = 1).
  { cbn [numWritableNackRanges numWritable_loop]. cbv zeta. by rewrite (proj2 (Z.ltb_ge _ _)) by lia. }
  exists (number_bytes v len (range_length r) ++ concat (map (block_bytes v len) (blocks_of r r1))).
  intros buf. unfold write_blocks. rewrite Hfb, Hn. cbv beta.
  rewrite (run_bind_ok _ _ _ (range_length r, 1) buf) by done. cbv beta iota.
  rewrite (run_bind_ok _ _ _ _ _ (writes_number v mask Hm len Hl (range_length r) ltac:(lia) buf)).
  rewrite (run_bind_ok _ _ _ _ _ (emits_ranges_stuck v mask Hm len Hl r r1 rs ltac:(lia)
             ltac:(lia) ltac:(lia) Hfr1 Hb _)).
  rewrite (proj2 (Z.eqb_neq _ _)) by lia. simpl. by rewrite app_assoc.
Qed.

(** C40: an otherwise well-formed ACK frame whose first gap is longer than 254*255
    packets cannot be written: [Write] returns the error that reports an
    inconsistent number of ranges, because it writes the range after the gap
    although the number of ranges announced does not count it. *)
Theorem AckFrame_Write_long_gap f now v r r1 rs :
  AckFrame_ok f -> ack_AckRanges f = r :: r1 :: rs -> 254 * 255 < First r - Last r1 - 1 ->
  exists out, AckFrame_Write f now v [] = (Err errInconsistentAckBlocks, out).
Proof.
  intros [Hp Hok] E Hgap. pose proof (ranges_ok_bounds _ _ _ Hok) as HL. rewrite E in Hok.
  destruct (write_blocks_stuck v mask48 _ _ _ _ _ errInconsistentAckBlocks mask48_small Hok Hgap)
    as [bs Hbs].
  destruct (GetPacketNumberLength_spec (ack_LargestAcked f)) as [Hla Hfit]; [lia|].
  unfold AckFrame_Write, AckFrame_HasMissingRanges, AckFrame_getMissingSequenceNumberDeltaLen,
    AckFrame_numWritableNackRanges.
  rewrite (run_bind_ok _ _ _ _ _ (writes_byte _ _)).
  eexists. rewrite (run_bind_ok _ _ _ _ _ (writes_opt_byte _ _ _)).
  rewrite (run_bind_ok _ _ _ _ _ (writes_number v mask48 mask48_small _ Hla (ack_LargestAcked f) ltac:(lia) _)).
  unfold WriteUfloat16, writeUfloat16. rewrite (run_bind_ok _ _ _ _ _ (writes_u16 v _ _)), E.
  change (HasMissingRanges (r :: r1 :: rs)) with true. cbv iota.
  pose proof (numWritable_lt r (r1 :: rs) 0 ltac:(lia)).
  destruct (Z.ltb_spec 0xFF (numWritableNackRanges (r :: r1 :: rs))) as [Hlt|_].
  { cbn [numWritableNackRanges] in Hlt. lia. }
  rewrite (run_bind_ok _ _ _ _ _ (writes_byte _ _)).
  by erewrite run_bind_err by apply Hbs.
Qed.

Lemma AckFrame_Write_long_gap_witness :
  exists out,
    AckFrame_Write (mkAckFrame 0 70000 1 [mkAckRange 70000 70000; mkAckRange 1 10] 0 0) 0 VersionMP []
    = (Err errInconsistentAckBlocks, out).
Proof.
  apply (AckFrame_Write_long_gap _ 0 VersionMP (mkAckRange 70000 70000) (mkAckRange 1 10) []).
  - split; [by vm_compute|]. split; [by vm_compute|]. cbn. split_and!; try lia; try done.
    by exists (mkAckRange 1 10).
  - done.
  - simpl. lia.
Defined.

(** ** Parsing arbitrary bytes

    The arithmetic of the parser wraps around; its consistency check is enough
    all the same, because the length of a range is below 2^48: a range that
    wrapped has a [First] above every earlier range. *)

Definition range_bounds (r : AckRange) : Prop := 0 <= First r < 2 ^ 64 /\ 0 <= Last r < 2 ^ 64.

Definition narrow (r : AckRange) : Prop :=
  range_bounds r /\ (0 < u64 (Last r - First r + 1) < 2 ^ 48 \/ Last r < First r).

Definition block_inv (st : block_state) : Prop :=
  Forall narrow (bs_before st) /\ range_bounds (bs_range st) /\
  if bs_inLongBlock st
  then u64 (Last (bs_range st) - First (bs_range st) + 1) = 0 /\ bs_lastRangeComplete st = false
  else narrow (bs_range st).

Lemma block_step_inv st gap length :
  block_inv st -> byte_ok gap -> 0 <= length < 2 ^ 48 -> block_inv (block_step st (gap, length)).
Proof.
  destruct st as [[F L] before long complete]. intros (Hb & Hr & Hl) Hg Hlen.
  unfold block_inv, block_step, narrow, range_bounds in *. simpl in *.
  destruct long; simpl; (split_and!; [first [done | by constructor] | glia | glia | glia | glia |]).
  - destruct Hl as [Hl ->]. destruct (Z.eqb_spec length 0) as [->|]; simpl.
    + split; [glia | done].
    + split; [glia|]. left. glia.
  - destruct (Z.eqb_spec length 0) as [->|]; simpl.
    + split; [glia | done].
    + split; [glia|]. left. glia.
Qed.

Lemma block_step_before st b :
  bs_before st <> [] \/ bs_inLongBlock st = false -> bs_before (block_step st b) <> [].
Proof.
  destruct st as [r before long complete], b as [g l]. unfold block_step. simpl.
  intros [H|H]; destruct long; simpl; done.
Qed.

Lemma read_blocks_safe v len n st :
  0 <= len <= 6 -> block_inv st -> (bs_before st <> [] \/ bs_inLongBlock st = false /\ (0 < n)%nat) ->
  safe_read (read_blocks (GetByteOrder v) len n st) (fun st' => block_inv st' /\ bs_before st' <> []).
Proof.
  intros Hlen. revert st. induction n as [|n IH]; intros st Hinv Hne; cbn [read_blocks].
  { apply safe_ret. split; [done|]. destruct Hne as [|[_ ?]]; [done | lia]. }
  eapply safe_bind; [apply safe_byte|]. intros gap Hgap.
  eapply safe_bind; [apply safe_uintN; lia|]. intros l Hl. cbv beta in Hl. apply IH.
  - apply block_step_inv; [done | done|]. split; [lia|].
    apply Z.lt_le_trans with (2 ^ (8 * len)); [lia | apply Z.pow_le_mono_r; lia].
  - left. apply block_step_before. destruct Hne as [|[? _]]; auto.
Qed.

(** What the parsers guarantee of a frame: as [ranges_ok], down to number zero. *)
Definition ranges_valid (largest lowest : PacketNumber) (ranges : list AckRange) : Prop :=
  0 <= largest < 2 ^ 48 /\
  match ranges with
  | [] => 0 <= lowest <= largest
  | r :: rs =>
      Last r = largest /\ 0 <= First r <= Last r /\ desc (First r - 1) rs /\
      exists r', last rs = Some r' /\ First r' = lowest
  end.

Lemma ranges_ok_valid largest lowest ranges :
  ranges_ok largest lowest ranges -> ranges_valid largest lowest ranges.
Proof.
  intros [H1 H2]. destruct ranges as [|r rs]; [split; lia|].
  destruct H2 as (E & HF & Hd & Hl). split; [lia|]. split_and!; (done || lia).
Qed.

Lemma validate_consistency_sound last rs :
  First last < 2 ^ 63 -> Forall narrow rs -> forallb (fun a => First a <=? Last a) rs = true ->
  validate_consistency last rs = true -> desc (First last - 1) rs.
Proof.
  revert last. induction rs as [|r rs IH]; intros last HF; [done|].
  intros [[[HF1 HL1] Hr] Hrs]%Forall_cons. simpl. intros [H1 H2]%andb_true_iff H3.
  cases_bool; try done. assert (Last r < First last - 1) by glia. split_and!; try lia. apply IH; try done; lia.
Qed.

Lemma block_ranges_narrow st : block_inv st -> Forall narrow (block_ranges st).
Proof.
  intros (Hb & _ & Hr). unfold block_ranges. apply Forall_reverse.
  destruct (bs_lastRangeComplete st) eqn:E; [|done]. constructor; [|done].
  destruct (bs_inLongBlock st); [by destruct Hr | done].
Qed.

Lemma block_ranges_nonempty st : bs_before st <> [] -> block_ranges st <> [].
Proof.
  unfold block_ranges. intros H E. apply (f_equal reverse) in E. rewrite reverse_involutive in E.
  by destruct (bs_lastRangeComplete st).
Qed.

(** What the reading of ranges leaves to the check. *)
Definition ranges_read (largest : PacketNumber) (p : list AckRange * PacketNumber) : Prop :=
  Forall narrow (fst p) /\
  match last (fst p) with
  | Some r => First r = snd p
  | None => 0 <= snd p <= largest
  end.

Lemma read_ranges_safe v len has n largest fl :
  0 <= len <= 6 -> has && (n =? 0) = false -> 0 <= n -> 0 <= largest < 2 ^ 48 ->
  0 <= fl <= largest -> (0 < largest -> 1 <= fl) ->
  safe_read (read_ranges (GetByteOrder v) len has n largest fl) (ranges_read largest).
Proof.
  intros Hlen Hn0 Hn Hl Hfl Hpos. unfold read_ranges. destruct has; simpl in Hn0.
  - rewrite Z.eqb_neq in Hn0. eapply safe_bind.
    { apply read_blocks_safe; [lia | | right; split; [done | lia]].
      unfold block_inv, narrow, range_bounds. simpl. split_and!; try done; try glia. }
    intros st [Hinv Hne]. pose proof (block_ranges_narrow st Hinv).
    destruct (last (block_ranges st)) as [r|] eqn:E.
    + apply safe_ret. unfold ranges_read. simpl. by rewrite E.
    + apply last_None in E. by apply block_ranges_nonempty in Hne.
  - apply safe_ret. unfold ranges_read. simpl. split; [constructor|].
    destruct (Z.eqb_spec largest 0); [lia | glia].
Qed.

Lemma validate_sound largest ranges lowest :
  0 <= largest < 2 ^ 48 -> ranges_read largest (ranges, lowest) ->
  validateAckRanges largest ranges = true -> ranges_valid largest lowest ranges.
Proof.
  intros Hl [Hn Hlast] Hv. split; [done|]. unfold validateAckRanges in Hv. simpl in *.
  destruct ranges as [|r [|r1 rs]]; [done | done |].
  apply andb_true_iff in Hv as [[Hv1 Hv2]%andb_true_iff Hv3]. rewrite Z.eqb_eq in Hv1.
  apply Forall_cons in Hn as [[[HF HL] _] Hn]. cbn [forallb] in Hv2.
  apply andb_true_iff in Hv2 as [Hv2 Hv4]. rewrite Z.leb_le in Hv2.
  rewrite last_cons_cons in Hlast. split_and!; try lia.
  - apply validate_consistency_sound; try done; lia.
  - destruct (last (r1 :: rs)) as [r'|] eqn:E; [by exists r'|]. by apply last_None in E.
Qed.

Lemma length_of_bits_range b : byte_ok b ->
  1 <= length_of_bits (Z.shiftr (Z.land b 0x0C) 2) <= 6 /\ 1 <= length_of_bits (Z.land b 0x03) <= 6.
Proof.
  intros Hb. rewrite Z.shiftr_land. change (Z.shiftr 12 2) with (Z.ones 2). change 3 with (Z.ones 2).
  rewrite !Z.land_ones by lia. unfold length_of_bits. split; cases_bool; glia.
Qed.

Lemma read_first_block_safe v len largest : 0 <= len <= 8 -> 0 <= largest ->
  safe_read (read_first_block (GetByteOrder v) len largest)
    (fun fl => 0 <= fl <= largest /\ (0 < largest -> 1 <= fl)).
Proof.
  intros Hlen Hl. unfold read_first_block. eapply safe_bind; [by apply safe_uintN|].
  intros fl Hfl. cbv beta in Hfl. safe_steps. rewrite Z.ltb_ge in *.
  destruct (Z.ltb_spec 0 largest), (Z.ltb_spec fl 1); try done; lia.
Qed.

Lemma skip_timestamps_safe v n : safe_read (skip_timestamps (GetByteOrder v) n) (fun _ => True).
Proof. induction n as [|n IH]; cbn [skip_timestamps]; safe_steps; done. Qed.

Lemma read_timestamps_safe v : safe_read (read_timestamps (GetByteOrder v)) (fun _ => True).
Proof. unfold read_timestamps. safe_steps; [apply skip_timestamps_safe | done]. Qed.

Lemma read_largest_safe v len : 1 <= len <= 6 ->
  safe_read (ReadUintN (GetByteOrder v) len) (fun n => 0 <= n < 2 ^ 48).
Proof.
  intros Hl. eapply safe_weaken; [apply safe_uintN; lia|]. intros n Hn. cbv beta in Hn. split; [lia|].
  apply Z.lt_le_trans with (2 ^ (8 * len)); [lia | apply Z.pow_le_mono_r; lia].
Qed.

Lemma opt_byte_safe (b : bool) : safe_read (if b then ReadByte else mret 0) byte_ok.
Proof. destruct b; [apply safe_byte | apply safe_ret; by vm_compute]. Qed.

Lemma ParseAckFrame_safe v :
  safe_read1 (ParseAckFrame v)
    (fun f => byte_ok (ack_PathID f)
              /\ ranges_valid (ack_LargestAcked f) (ack_LowestAcked f) (ack_AckRanges f)).
Proof.
  unfold ParseAckFrame. safe_step. rename b into tb. cbv zeta.
  destruct (length_of_bits_range tb) as [Hl1 Hl2]; [done|].
  eapply safe_bind; [apply opt_byte_safe|]. intros pid Hpid.
  eapply safe_bind; [by apply read_largest_safe|]. intros largest Hlargest. cbv beta in Hlargest.
  eapply (safe_bind _ _ (fun _ => True)).
  { unfold ReadUfloat16, readUfloat16. safe_steps. done. }
  intros delay _. eapply safe_bind; [apply opt_byte_safe|]. intros n Hn.
  apply safe_if; intros Hn0; [apply safe_fail|].
  eapply safe_bind; [apply read_first_block_safe; lia|]. intros fl [Hfl Hpos].
  eapply safe_bind; [apply read_ranges_safe; try done; try lia; apply Hn|].
  intros [ranges lowest] Hr. apply safe_if; intros Hv; [apply safe_fail|].
  eapply safe_bind; [apply read_timestamps_safe|]. intros _ _. apply safe_ret. simpl.
  split; [done|]. apply validate_sound; [done..|]. by apply negb_false_iff.
Qed.

Lemma ParseClosePathFrame_safe v :
  safe_read1 (ParseClosePathFrame v)
    (fun f => byte_ok (cp_PathID f)
              /\ ranges_valid (cp_LargestAcked f) (cp_LowestAcked f) (cp_AckRanges f)).
Proof.
  unfold ParseClosePathFrame. do 3 safe_step. rename a0 into flags. cbv zeta.
  destruct (length_of_bits_range flags) as [Hl1 Hl2]; [done|].
  eapply safe_bind; [apply opt_byte_safe|]. intros n Hn.
  apply safe_if; intros Hn0; [apply safe_fail|].
  eapply safe_bind; [by apply read_largest_safe|]. intros largest Hlargest. cbv beta in Hlargest.
  eapply safe_bind; [apply read_first_block_safe; lia|]. intros fl [Hfl Hpos].
  eapply safe_bind; [apply read_ranges_safe; try done; try lia; apply Hn|].
  intros [ranges lowest] Hr. apply safe_if; intros Hv; [apply safe_fail|]. apply safe_ret. simpl.
  split; [done|]. apply validate_sound; [done..|]. by apply negb_false_iff.
Qed.

(** ** What a frame acknowledges *)

Definition in_range (p : PacketNumber) (r : AckRange) : Prop := First r <= p <= Last r.

Lemma desc_bounds b rs r : desc b rs -> r ∈ rs -> Last r < b.
Proof.
  revert b. induction rs as [|r0 rs IH]; intros b; [by intros _ ?%elem_of_nil|].
  intros (H1 & H2 & H3) [->|Hin]%elem_of_cons; [done|].
  pose proof (IH _ H3 Hin). lia.
Qed.

Lemma desc_lowest b rs r r' : desc b rs -> r ∈ rs -> last rs = Some r' -> First r' <= First r.
Proof.
  revert b r. induction rs as [|r0 rs IH]; intros b r; [by intros _ ?%elem_of_nil|].
  intros (H1 & H2 & H3) Hin Hlast. destruct rs as [|r1 rs].
  { apply list_elem_of_singleton in Hin as ->. injection Hlast as ->. lia. }
  rewrite last_cons_cons in Hlast. apply elem_of_cons in Hin as [->|Hin].
  - pose proof (IH (First r0 - 1) r1 H3 ltac:(by left) Hlast). destruct H3 as (? & ? & _). lia.
  - by apply (IH (First r0 - 1)).
Qed.

(** The early exit of [AcksPacket] changes nothing: a number is acknowledged
    exactly when it lies in a range of the frame. *)
Lemma acksPacket_spec largest lowest ranges p :
  ranges_valid largest lowest ranges ->
  acksPacket lowest largest ranges p = true <->
  match ranges with
  | [] => lowest <= p <= largest
  | _ => exists r, r ∈ ranges /\ in_range p r
  end.
Proof.
  intros [Hl Hv]. unfold acksPacket, in_range. destruct ranges as [|r rs]; simpl.
  { cases_bool; simpl; split; done || lia. }
  destruct Hv as (Hlast & HF & Hd & r' & Hr' & Hlow).
  change (HasMissingRanges (r :: rs)) with true. cbv iota.
  assert (Hex : existsb (fun r => (First r <=? p) && (p <=? Last r)) (r :: rs) = true
                <-> exists r0, r0 ∈ r :: rs /\ First r0 <= p <= Last r0).
  { rewrite existsb_exists. setoid_rewrite andb_true_iff. setoid_rewrite Z.leb_le.
    by setoid_rewrite list_elem_of_In. }
  assert (Hb : forall r0, r0 ∈ r :: rs -> lowest <= First r0 /\ Last r0 <= largest).
  { assert (Hd' : desc (largest + 1) (r :: rs)) by (simpl; split_and!; (done || lia)).
    intros r0 Hin. pose proof (desc_bounds _ _ _ Hd' Hin). split; [|lia]. rewrite <- Hlow.
    apply (desc_lowest _ _ _ _ Hd' Hin). destruct rs; [done | by rewrite last_cons_cons]. }
  rewrite <- Hex. destruct (Z.ltb_spec p lowest), (Z.ltb_spec largest p); simpl orb; cbv iota; try done.
  all: split; [done|]; rewrite Hex; intros (r0 & Hin & Hp); apply Hb in Hin; lia.
Qed.

(** on any sequence of bytes the ACK frame parser does not panic, and a frame
    it accepts has a largest number below 2^48, descending ranges with a gap
    between any two of them although the parser's arithmetic wraps around, and
    acknowledges exactly the numbers of its ranges (the whole interval when it
    has none). *)
Theorem ParseAckFrame_sound v bytes :
  bytes_ok bytes ->
  (forall msg rest, ParseAckFrame v bytes <> (Panic msg, rest)) /\
  (forall f rest, ParseAckFrame v bytes = (Ok f, rest) ->
     ranges_valid (ack_LargestAcked f) (ack_LowestAcked f) (ack_AckRanges f) /\
     forall p, AckFrame_AcksPacket f p = true <->
       match ack_AckRanges f with
       | [] => ack_LowestAcked f <= p <= ack_LargestAcked f
       | _ => exists r, r ∈ ack_AckRanges f /\ First r <= p <= Last r
       end).
Proof.
  intros Hb. pose proof (ParseAckFrame_safe v bytes Hb) as Hs.
  destruct (ParseAckFrame v bytes) as [[f|e|m] rest']; [|done|done].
  split; [done|]. intros f' rest [= <- <-]. destruct Hs as (_ & _ & _ & Hv). split; [done|].
  intros p. by apply acksPacket_spec.
Qed.

Lemma ParseAckFrame_sound_witness :
  exists f rest, ParseAckFrame VersionMP [0x60; 20; 0; 0; 1; 3; 4; 5; 0; 9] = (Ok f, rest)
    /\ ranges_valid (ack_LargestAcked f) (ack_LowestAcked f) (ack_AckRanges f).
Proof.
  eexists _, _. split; [vm_compute; reflexivity|].
  apply (ParseAckFrame_sound VersionMP [0x60; 20; 0; 0; 1; 3; 4; 5; 0; 9]) with (rest := [9]).
  - repeat constructor; done.
  - vm_compute. reflexivity.
Defined.
