(* ===== verification/WireHeader.v ===== *)
(** * Public headers (internal/wire: public_header.go, version_negotiation.go)

    The unencrypted header of every packet: flags, connection id, version,
    diversification nonce, path id and truncated packet number. *)

From S2P Require Import Prelude Protocol ByteOrder WireFrames WireAck.

Definition ErrPacketWithUnknownVersion : error :=
  errors_New "PublicHeader: Received a packet without version number, that we don't know the version for".
Definition errResetAndVersionFlagSet : error :=
  errors_New "PublicHeader: Reset Flag and Version Flag should not be set at the same time".
Definition errReceivedTruncatedConnectionID : error :=
  qerr_Error InvalidPacketHeader "receiving packets with truncated ConnectionID is not supported" [].
Definition errInvalidConnectionID : error :=
  qerr_Error InvalidPacketHeader "connection ID cannot be 0" [].
Definition errGetLengthNotForVersionNegotiation : error :=
  errors_New "PublicHeader: GetLength cannot be called for VersionNegotiation packets".

(** [Raw] is filled in by the session, from the bytes the header was read from. *)
Record PublicHeader := mkPublicHeader {
  hdr_Raw : list Z;
  hdr_ConnectionID : ConnectionID;
  hdr_PathID : PathID;
  hdr_VersionFlag : bool;
  hdr_ResetFlag : bool;
  hdr_TruncateConnectionID : bool;
  hdr_MultipathFlag : bool;
  hdr_PacketNumberLen : PacketNumberLen;
  hdr_PacketNumber : PacketNumber;
  hdr_VersionNumber : VersionNumber;
  hdr_SupportedVersions : list VersionNumber;
  hdr_DiversificationNonce : list Z
}.

(** The test of [hasPacketNumber] on the two flags and the sender. *)
Definition hasPacketNumber (resetFlag versionFlag : bool) (packetSentBy : Perspective) : bool :=
  if resetFlag then false
  else if versionFlag && Perspective_eqb packetSentBy PerspectiveServer then false
  else true.

Definition PublicHeader_hasPacketNumber (h : PublicHeader) (packetSentBy : Perspective) : bool :=
  hasPacketNumber (hdr_ResetFlag h) (hdr_VersionFlag h) packetSentBy.

Definition packetNumberLen_bits (len : PacketNumberLen) : Z :=
  if len =? PacketNumberLen1 then 0x00
  else if len =? PacketNumberLen2 then 0x10
  else if len =? PacketNumberLen4 then 0x20
  else if len =? PacketNumberLen6 then 0x30
  else 0x00.

Definition PublicHeader_flagByte (h : PublicHeader) (pers : Perspective) : Z :=
  let b := 0x00 in
  let b := if hdr_VersionFlag h then Z.lor b 0x01 else b in
  let b := if hdr_ResetFlag h then Z.lor b 0x02 else b in
  let b := if negb (hdr_TruncateConnectionID h) then Z.lor b 0x08 else b in
  let b := if 0 <? zlen (hdr_DiversificationNonce h) then Z.lor b 0x04 else b in
  let b := if PublicHeader_hasPacketNumber h pers
           then Z.lor b (packetNumberLen_bits (hdr_PacketNumberLen h)) else b in
  if hdr_MultipathFlag h then Z.lor b 0x40 else b.

Definition PublicHeader_Write (h : PublicHeader) (version : VersionNumber) (pers : Perspective)
    : Writer :=
  if hdr_VersionFlag h && hdr_ResetFlag h then fail errResetAndVersionFlagSet
  else if (0 <? zlen (hdr_DiversificationNonce h)) && negb (zlen (hdr_DiversificationNonce h) =? 32)
  then fail (errors_New "invalid diversification nonce length")
  else
    WriteByte (PublicHeader_flagByte h pers);;
    (if negb (hdr_TruncateConnectionID h)
     then WriteUint64 LittleEndian (hdr_ConnectionID h) else mret tt);;
    (if hdr_VersionFlag h && Perspective_eqb pers PerspectiveClient
     then WriteUint32 LittleEndian (VersionNumberToTag (hdr_VersionNumber h)) else mret tt);;
    (if 0 <? zlen (hdr_DiversificationNonce h)
     then WriteBytes (hdr_DiversificationNonce h) else mret tt);;
    (if hdr_MultipathFlag h then WriteByte (u8 (hdr_PathID h)) else mret tt);;
    if negb (PublicHeader_hasPacketNumber h pers) then mret tt
    else
      let len := hdr_PacketNumberLen h in
      let pn := hdr_PacketNumber h in
      let bo := GetByteOrder version in
      if len =? PacketNumberLen1 then WriteByte (u8 pn)
      else if len =? PacketNumberLen2 then WriteUint16 bo (u16 pn)
      else if len =? PacketNumberLen4 then WriteUint32 bo (u32 pn)
      else if len =? PacketNumberLen6 then WriteUint48 bo (Z.land pn (Z.shiftl 1 48 - 1))
      else fail (errors_New "PublicHeader: PacketNumberLen not set").

(** [PeekConnectionID] un-reads what it read.  When the connection id is cut
    short the reader is at its end and one byte is un-read. *)
Definition PeekConnectionID (packetSentBy : Perspective) : Reader ConnectionID := fun r =>
  match r with
  | [] => (Err io_EOF, [])
  | publicFlagByte :: rest =>
      let truncateConnectionID := Z.land publicFlagByte 0x08 =? 0 in
      if truncateConnectionID && Perspective_eqb packetSentBy PerspectiveClient
      then (Err errReceivedTruncatedConnectionID, r)
      else if negb truncateConnectionID then
        match ReadUint64 LittleEndian rest with
        | (Ok connID, _) => (Ok connID, r)
        | (Err e, r1) => (Err e, drop (length r - length r1 - 1) r)
        | (Panic p, r1) => (Panic p, r1)
        end
      else (Ok 0, r)
  end.

(** The loop over the version tags: it stops at the first read that fails, which
    leaves the reader at its end. *)
Fixpoint read_versions (fuel : nat) : Reader (list VersionNumber) := fun r =>
  match fuel with
  | O => (Panic "out of fuel", r)
  | S fuel' =>
      match ReadUint32 LittleEndian r with
      | (Ok versionTag, r') =>
          match read_versions fuel' r' with
          | (Ok vs, r'') => (Ok (VersionTagToNumber versionTag :: vs), r'')
          | other => other
          end
      | (Err _, r') => (Ok [], r')
      | (Panic p, r') => (Panic p, r')
      end
  end.

Definition read_supported_versions : Reader (list VersionNumber) := fun r =>
  read_versions (S (length r)) r.

Definition packetNumberLen_of_flags (publicFlagByte : Z) : PacketNumberLen :=
  let bits := Z.land publicFlagByte 0x30 in
  if bits =? 0x30 then PacketNumberLen6
  else if bits =? 0x20 then PacketNumberLen4
  else if bits =? 0x10 then PacketNumberLen2
  else PacketNumberLen1.

Definition ParsePublicHeader (packetSentBy : Perspective) (version : VersionNumber)
    : Reader PublicHeader :=
  publicFlagByte ← ReadByte;
  let resetFlag := 0 <? Z.land publicFlagByte 0x02 in
  let versionFlag := 0 <? Z.land publicFlagByte 0x01 in
  if (version =? VersionUnknown) && negb (versionFlag || resetFlag)
  then fail ErrPacketWithUnknownVersion
  else
  let truncateConnectionID := Z.land publicFlagByte 0x08 =? 0 in
  if truncateConnectionID && Perspective_eqb packetSentBy PerspectiveClient
  then fail errReceivedTruncatedConnectionID
  else
  let hasPN := hasPacketNumber resetFlag versionFlag packetSentBy in
  let packetNumberLen := if hasPN then packetNumberLen_of_flags publicFlagByte else 0 in
  let multipathFlag := 0 <? Z.land publicFlagByte 0x40 in
  connectionID ← (if negb truncateConnectionID
                  then c ← ReadUint64 LittleEndian;
                       if c =? 0 then fail errInvalidConnectionID else mret c
                  else mret 0);
  nonce ← (if Perspective_eqb packetSentBy PerspectiveServer && (0 <? Z.land publicFlagByte 0x04)
           then if negb versionFlag && negb resetFlag then ReadFull 32 else mret []
           else mret []);
  let header := fun pathID pn ver vers =>
    mkPublicHeader [] connectionID pathID versionFlag resetFlag truncateConnectionID multipathFlag
      packetNumberLen pn ver vers nonce in
  if negb resetFlag && versionFlag && Perspective_eqb packetSentBy PerspectiveServer then
    n ← Reader_Len;
    if negb (n mod 4 =? 0) then fail (qerr_Code InvalidVersionNegotiationPacket)
    else
      vs ← read_supported_versions;
      mret (header 0 0 0 vs)
  else
    versionNumber ← (if negb resetFlag && versionFlag
                     then t ← ReadUint32 LittleEndian; mret (VersionTagToNumber t)
                     else mret 0);
    let version := if negb resetFlag && versionFlag then versionNumber else version in
    pathID ← (if multipathFlag then ReadByte else mret 0);
    packetNumber ← (if hasPN then ReadUintN (GetByteOrder version) packetNumberLen else mret 0);
    mret (header pathID packetNumber versionNumber []).

Definition PublicHeader_GetLength (h : PublicHeader) (pers : Perspective) : outcome ByteCount :=
  if hdr_VersionFlag h && hdr_ResetFlag h then Err errResetAndVersionFlagSet
  else if hdr_VersionFlag h && Perspective_eqb pers PerspectiveServer
  then Err errGetLengthNotForVersionNegotiation
  else
    let len := hdr_PacketNumberLen h in
    let hasPN := PublicHeader_hasPacketNumber h pers in
    if hasPN && negb (len =? PacketNumberLen1) && negb (len =? PacketNumberLen2)
       && negb (len =? PacketNumberLen4) && negb (len =? PacketNumberLen6)
    then Err errPacketNumberLenNotSet
    else
      let length := if hasPN then 1 + len else 1 in
      let length := if negb (hdr_TruncateConnectionID h) then length + 8 else length in
      let length := if hdr_VersionFlag h then length + 4 else length in
      let length := length + zlen (hdr_DiversificationNonce h) in
      Ok (if hdr_MultipathFlag h then length + 1 else length).

(** ** version_negotiation.go *)

Fixpoint write_versions (versions : list VersionNumber) : Writer :=
  match versions with
  | [] => mret tt
  | v :: vs =>
      WriteUint32 LittleEndian (VersionNumberToTag v);;
      write_versions vs
  end.

(** An error of [Write] is only logged; what was written stays. *)
Definition ComposeVersionNegotiation (connectionID : ConnectionID) (versions : list VersionNumber)
    : list Z :=
  let header := mkPublicHeader [] connectionID 0 true false false false 0 1 0 [] [] in
  let fullReply := snd (PublicHeader_Write header VersionWhatever PerspectiveServer []) in
  snd (write_versions versions fullReply).

(** ** Round trips *)

(** A header of a regular packet or a public reset sent by [pers] in a connection
    of the given version; the nonce is only sent by servers, the version only by
    clients, and a header without a field has its zero value. *)
Record header_ok (pers : Perspective) (version : VersionNumber) (h : PublicHeader) : Prop := {
  ho_raw : hdr_Raw h = [];
  ho_flags : hdr_VersionFlag h && hdr_ResetFlag h = false;
  ho_version : if hdr_VersionFlag h
               then pers = PerspectiveClient /\ hdr_VersionNumber h = version /\ 0 <= version < 1000
               else hdr_VersionNumber h = 0 /\ (version = VersionUnknown -> hdr_ResetFlag h = true);
  ho_supported : hdr_SupportedVersions h = [];
  ho_connection : if hdr_TruncateConnectionID h
                  then pers = PerspectiveServer /\ hdr_ConnectionID h = 0
                  else 0 < hdr_ConnectionID h < 2 ^ 64;
  ho_nonce : hdr_DiversificationNonce h = [] \/
             (zlen (hdr_DiversificationNonce h) = 32 /\ pers = PerspectiveServer /\
              hdr_ResetFlag h = false);
  ho_path : byte_ok (hdr_PathID h) /\ (hdr_MultipathFlag h = false -> hdr_PathID h = 0);
  ho_number : if PublicHeader_hasPacketNumber h pers
              then valid_len (hdr_PacketNumberLen h) /\ 0 <= hdr_PacketNumber h
              else hdr_PacketNumberLen h = 0 /\ hdr_PacketNumber h = 0
}.

(** The header that arrives: the packet number is cut to its length. *)
Definition header_on_wire (h : PublicHeader) : PublicHeader :=
  mkPublicHeader (hdr_Raw h) (hdr_ConnectionID h) (hdr_PathID h) (hdr_VersionFlag h)
    (hdr_ResetFlag h) (hdr_TruncateConnectionID h) (hdr_MultipathFlag h) (hdr_PacketNumberLen h)
    (hdr_PacketNumber h mod epoch_size (hdr_PacketNumberLen h)) (hdr_VersionNumber h)
    (hdr_SupportedVersions h) (hdr_DiversificationNonce h).

Lemma hasPacketNumber_len h pers :
  (if PublicHeader_hasPacketNumber h pers
   then valid_len (hdr_PacketNumberLen h) /\ 0 <= hdr_PacketNumber h
   else hdr_PacketNumberLen h = 0 /\ hdr_PacketNumber h = 0) ->
  PublicHeader_hasPacketNumber h pers = true -> valid_len (hdr_PacketNumberLen h).
Proof. intros H E. rewrite E in H. apply H. Qed.

(** The flag byte read back, bit by bit. *)
Lemma flagByte_spec h pers :
  (PublicHeader_hasPacketNumber h pers = true -> valid_len (hdr_PacketNumberLen h)) ->
  let b := PublicHeader_flagByte h pers in
  (0 <? Z.land b 0x02) = hdr_ResetFlag h /\ (0 <? Z.land b 0x01) = hdr_VersionFlag h /\
  (Z.land b 0x08 =? 0) = hdr_TruncateConnectionID h /\
  (0 <? Z.land b 0x04) = (0 <? zlen (hdr_DiversificationNonce h)) /\
  (0 <? Z.land b 0x40) = hdr_MultipathFlag h /\
  (PublicHeader_hasPacketNumber h pers = true -> packetNumberLen_of_flags b = hdr_PacketNumberLen h).
Proof.
  intros Hlen b. subst b. unfold PublicHeader_flagByte.
  destruct (PublicHeader_hasPacketNumber h pers).
  - specialize (Hlen eq_refl).
    destruct (hdr_VersionFlag h), (hdr_ResetFlag h), (hdr_TruncateConnectionID h),
      (hdr_MultipathFlag h), (0 <? zlen (hdr_DiversificationNonce h));
      destruct Hlen as [-> | [-> | [-> | ->]]]; done.
  - destruct (hdr_VersionFlag h), (hdr_ResetFlag h), (hdr_TruncateConnectionID h),
      (hdr_MultipathFlag h), (0 <? zlen (hdr_DiversificationNonce h)); done.
Qed.

(** The bytes of a number in little endian. *)
Local Abbreviation lenc := (bo_enc (bo := LittleEndian)).

(** The layout of a header. *)
Definition header_layout (h : PublicHeader) (version : VersionNumber) (pers : Perspective) : list Z :=
  [PublicHeader_flagByte h pers]
  ++ (if negb (hdr_TruncateConnectionID h) then lenc 8 (hdr_ConnectionID h) else [])
  ++ (if hdr_VersionFlag h && Perspective_eqb pers PerspectiveClient
      then lenc 4 (VersionNumberToTag (hdr_VersionNumber h)) else [])
  ++ (if 0 <? zlen (hdr_DiversificationNonce h) then hdr_DiversificationNonce h else [])
  ++ (if hdr_MultipathFlag h then [u8 (hdr_PathID h)] else [])
  ++ (if PublicHeader_hasPacketNumber h pers
      then enc version (Z.to_nat (hdr_PacketNumberLen h))
             (hdr_PacketNumber h mod epoch_size (hdr_PacketNumberLen h)) else []).

Lemma writes_if (b : bool) w bs : (b = true -> writes w bs) ->
  writes (if b then w else mret tt) (if b then bs else []).
Proof. destruct b; intros H; [by apply H | apply writes_ret]. Qed.

Lemma reads_if {A} (b : bool) (r : Reader A) bs a d :
  (b = true -> reads r bs a) -> (b = false -> a = d) ->
  reads (if b then r else mret d) (if b then bs else []) a.
Proof. destruct b; intros H1 H2; [by apply H1 | rewrite H2 by done; apply reads_ret]. Qed.

(** The packet number, cut to its length. *)
Lemma writes_packet_number v len pn err :
  valid_len len -> 0 <= pn ->
  writes (if len =? PacketNumberLen1 then WriteByte (u8 pn)
          else if len =? PacketNumberLen2 then WriteUint16 (GetByteOrder v) (u16 pn)
          else if len =? PacketNumberLen4 then WriteUint32 (GetByteOrder v) (u32 pn)
          else if len =? PacketNumberLen6
          then WriteUint48 (GetByteOrder v) (Z.land pn (Z.shiftl 1 48 - 1))
          else fail err)
    (enc v (Z.to_nat len) (pn mod epoch_size len)).
Proof.
  intros Hlen Hpn. destruct Hlen as [-> | [-> | [-> | ->]]]; simpl.
  - replace (u8 pn) with (u8 (pn mod epoch_size 1)); [apply writes_enc_1|].
    change (epoch_size 1) with 256. unfold u8. by rewrite Z.mod_mod.
  - apply writes_u16.
  - apply writes_u32.
  - replace (Z.land _ _) with (pn mod epoch_size 6).
    + apply bo_write48. by apply Z.mod_pos_bound.
    + change (Z.shiftl 1 48 - 1) with (Z.ones 48). by rewrite Z.land_ones by lia.
Qed.

Lemma header_writes h version pers : header_ok pers version h ->
  writes (PublicHeader_Write h version pers) (header_layout h version pers).
Proof.
  intros [_ Hf _ _ _ Hn _ Hpn]. unfold PublicHeader_Write, header_layout. rewrite Hf.
  replace ((0 <? zlen (hdr_DiversificationNonce h)) && negb (zlen (hdr_DiversificationNonce h) =? 32))
    with false; cycle 1.
  { destruct Hn as [-> | [-> _]]; done. }
  eapply writes_bind; [apply writes_byte|].
  eapply writes_bind; [apply writes_if; intros _; apply bo_write64|].
  eapply writes_bind; [apply writes_if; intros _; apply bo_write32|].
  eapply writes_bind; [apply writes_if; intros _; apply writes_bytes|].
  eapply writes_bind; [apply writes_if; intros _; apply writes_byte|].
  destruct (PublicHeader_hasPacketNumber h pers); [|apply writes_ret].
  destruct Hpn. by apply writes_packet_number.
Qed.

Lemma header_connection_reads h (b : bool) :
  (if b then hdr_ConnectionID h = 0 else 0 < hdr_ConnectionID h < 2 ^ 64) ->
  reads (if negb b then c ← ReadUint64 LittleEndian;
                        if c =? 0 then fail errInvalidConnectionID else mret c
         else mret 0) (if negb b then lenc 8 (hdr_ConnectionID h) else []) (hdr_ConnectionID h).
Proof.
  destruct b; cbn [negb]; intros Hc; [rewrite Hc; apply reads_ret|].
  rewrite <- (app_nil_r (lenc 8 _)). eapply reads_bind; [apply bo_read64; lia|].
  destruct (Z.eqb_spec (hdr_ConnectionID h) 0); [lia | apply reads_ret].
Qed.

(** The guards of the parser on a header that was written. *)
Lemma header_guards h version pers : header_ok pers version h ->
  (version =? VersionUnknown) && negb (hdr_VersionFlag h || hdr_ResetFlag h) = false /\
  hdr_TruncateConnectionID h && Perspective_eqb pers PerspectiveClient = false /\
  hdr_VersionFlag h && Perspective_eqb pers PerspectiveServer = false /\
  (hdr_VersionFlag h = true -> hdr_ResetFlag h = false /\ hdr_DiversificationNonce h = []).
Proof.
  intros [_ Hf Hv _ Hc Hn _ _]. split_and!.
  - destruct (Z.eqb_spec version VersionUnknown) as [->|]; [|done].
    destruct (hdr_VersionFlag h); [done|]. destruct Hv as [_ Hv]. by rewrite Hv.
  - destruct (hdr_TruncateConnectionID h); [|done]. by destruct Hc as [-> _].
  - destruct (hdr_VersionFlag h); [|done]. by destruct Hv as [-> _].
  - intros E. rewrite E in *. destruct Hv as [-> _]. split; [done|].
    by destruct Hn as [|(_ & ? & _)].
Qed.

Lemma header_nonce_reads h version pers : header_ok pers version h ->
  reads (if Perspective_eqb pers PerspectiveServer && (0 <? zlen (hdr_DiversificationNonce h))
         then if negb (hdr_VersionFlag h) && negb (hdr_ResetFlag h) then ReadFull 32 else mret []
         else mret [])
    (if 0 <? zlen (hdr_DiversificationNonce h) then hdr_DiversificationNonce h else [])
    (hdr_DiversificationNonce h).
Proof.
  intros H. pose proof (header_guards _ _ _ H) as (_ & _ & _ & Hvn). destruct H as [_ _ _ _ _ Hn _ _].
  destruct (hdr_VersionFlag h).
  { destruct (Hvn eq_refl) as [_ ->]. simpl. rewrite andb_false_r. apply reads_ret. }
  destruct Hn as [-> | (Hl & -> & ->)]; [simpl; rewrite andb_false_r; apply reads_ret|].
  rewrite Hl. simpl. by apply reads_full.
Qed.

Lemma version_tag_range vn : u32_ok (VersionNumberToTag vn).
Proof. apply u32_range. Qed.

Lemma header_reads h version pers : header_ok pers version h ->
  reads (ParsePublicHeader pers version) (header_layout h version pers) (header_on_wire h).
Proof.
  intros H. pose proof (header_guards _ _ _ H) as (G1 & G2 & G3 & G4).
  pose proof (header_nonce_reads _ _ _ H) as Hnonce.
  destruct H as [Hraw Hf Hv Hs Hc Hn [Hp Hp0] Hpn].
  unfold ParsePublicHeader, header_layout. eapply reads_bind; [apply reads_byte|].
  destruct (flagByte_spec h pers) as (E1 & E2 & E3 & E4 & E5 & E6); [by apply hasPacketNumber_len|].
  cbv zeta. rewrite E1, E2, E3, E4, E5, G1, G2.
  change (hasPacketNumber (hdr_ResetFlag h) (hdr_VersionFlag h) pers)
    with (PublicHeader_hasPacketNumber h pers).
  eapply reads_bind; [apply header_connection_reads; by destruct (hdr_TruncateConnectionID h); [destruct Hc|]|].
  rewrite (app_assoc (if hdr_VersionFlag h && _ then _ else _)).
  replace (_ ++ (if 0 <? zlen (hdr_DiversificationNonce h) then _ else _))
    with ((if 0 <? zlen (hdr_DiversificationNonce h) then hdr_DiversificationNonce h else [])
          ++ (if hdr_VersionFlag h then lenc 4 (VersionNumberToTag (hdr_VersionNumber h)) else [])); cycle 1.
  { destruct (hdr_VersionFlag h); [|by rewrite app_nil_r].
    destruct (G4 eq_refl) as [_ ->], Hv as [-> _]. by rewrite app_nil_r. }
  rewrite <- app_assoc. eapply reads_bind; [exact Hnonce|].
  replace (negb (hdr_ResetFlag h) && hdr_VersionFlag h) with (hdr_VersionFlag h); cycle 1.
  { destruct (hdr_VersionFlag h); [by destruct (G4 eq_refl) as [-> _] | by rewrite andb_false_r]. }
  rewrite G3. eapply (reads_bind _ _ _ _ (hdr_VersionNumber h)).
  { apply reads_if; intros E; rewrite E in Hv; [|by destruct Hv].
    eapply reads_bind_ret; [apply bo_read32, version_tag_range|].
    destruct Hv as (_ & -> & ?). by apply version_tag_roundtrip. }
  replace (if hdr_VersionFlag h then hdr_VersionNumber h else version) with version; cycle 1.
  { destruct (hdr_VersionFlag h); [by destruct Hv as (_ & -> & _) | done]. }
  eapply reads_bind.
  { rewrite (u8_small _ Hp). apply reads_if; [intros _; apply reads_byte | done]. }
  rewrite <- (app_nil_r (if PublicHeader_hasPacketNumber h pers then _ else _)).
  unfold header_on_wire. rewrite Hraw, Hs.
  destruct (PublicHeader_hasPacketNumber h pers).
  - rewrite E6 by done. destruct Hpn as [Hl Hpn]. eapply reads_bind; [|apply reads_ret].
    apply reads_enc; [destruct Hl as [-> | [-> | [-> | ->]]]; lia | apply Z.mod_pos_bound].
    by destruct Hl as [-> | [-> | [-> | ->]]].
  - destruct Hpn as [-> ->]. eapply reads_bind; [apply reads_ret | apply reads_ret].
Qed.

Lemma zlen_if {A} (b : bool) (l : list A) : zlen (if b then l else []) = if b then zlen l else 0.
Proof. by destruct b. Qed.

Lemma zlen_single {A} (x : A) : zlen [x] = 1.
Proof. done. Qed.

Lemma lenc_zlen n z : zlen (lenc n z) = Z.of_nat n.
Proof. unfold zlen. by rewrite bo_enc_length. Qed.

Lemma header_length h version pers : header_ok pers version h ->
  PublicHeader_GetLength h pers = Ok (zlen (header_layout h version pers)).
Proof.
  intros H. pose proof (header_guards _ _ _ H) as (_ & _ & G3 & _).
  destruct H as [_ Hf Hv _ _ _ _ Hpn]. unfold PublicHeader_GetLength, header_layout. rewrite Hf, G3.
  assert (Hc : hdr_VersionFlag h && Perspective_eqb pers PerspectiveClient = hdr_VersionFlag h).
  { destruct (hdr_VersionFlag h); [by destruct Hv as [-> _] | done]. }
  rewrite Hc, !zlen_app, !zlen_if, enc_zlen, !lenc_zlen, !zlen_single.
  replace (_ && negb (hdr_PacketNumberLen h =? PacketNumberLen6)) with false; cycle 1.
  { destruct (PublicHeader_hasPacketNumber h pers); [|done].
    by destruct Hpn as [[-> | [-> | [-> | ->]]] _]. }
  f_equal. assert (Hnz : (if 0 <? zlen (hdr_DiversificationNonce h)
    then zlen (hdr_DiversificationNonce h) else 0) = zlen (hdr_DiversificationNonce h)).
  { pose proof (zlen_nonneg (hdr_DiversificationNonce h)). cases_bool; lia. }
  rewrite Hnz.
  destruct (PublicHeader_hasPacketNumber h pers).
  - destruct Hpn as [Hl _]. rewrite Z2Nat.id by (destruct Hl as [-> | [-> | [-> | ->]]]; lia).
    destruct (hdr_TruncateConnectionID h), (hdr_VersionFlag h), (hdr_MultipathFlag h); simpl; lia.
  - destruct (hdr_TruncateConnectionID h), (hdr_VersionFlag h), (hdr_MultipathFlag h); simpl; lia.
Qed.

(** a header that either side may send is written in exactly [GetLength]
    bytes, and the peer parses these bytes, whatever payload follows, as the same
    header with the packet number cut to its low bytes. *)
Theorem PublicHeader_roundtrip h version pers payload :
  header_ok pers version h ->
  exists out,
    PublicHeader_Write h version pers [] = (Ok tt, out) /\
    PublicHeader_GetLength h pers = Ok (zlen out) /\
    ParsePublicHeader pers version (out ++ payload) = (Ok (header_on_wire h), payload).
Proof.
  intros H. exists (header_layout h version pers). split_and!.
  - by apply (header_writes _ _ _ H []).
  - by apply header_length.
  - by apply header_reads.
Qed.

Definition sample_header : PublicHeader :=
  mkPublicHeader [] 0xabcdef 3 true false false true 2 100003 VersionMP [] [].

Lemma sample_header_ok : header_ok PerspectiveClient VersionMP sample_header.
Proof. by split; cbn; try split_and!; try done; try (left; done); right; left. Qed.

Lemma PublicHeader_roundtrip_witness :
  exists out,
    PublicHeader_Write sample_header VersionMP PerspectiveClient [] = (Ok tt, out) /\
    PublicHeader_GetLength sample_header PerspectiveClient = Ok (zlen out) /\
    ParsePublicHeader PerspectiveClient VersionMP (out ++ [7; 7])
    = (Ok (header_on_wire sample_header), [7; 7]).
Proof.
  apply (PublicHeader_roundtrip sample_header VersionMP PerspectiveClient [7; 7]).
  apply sample_header_ok.
Defined.

(** C21: a packet number survives the wire.  The header of packet [pn] is written
    with the length the packer chooses from the least unacked packet; whatever
    the peer parses out of it, the inference from the largest packet received so
    far gives [pn] back, provided the peer has everything below the least
    unacked packet and is not more than 2^15 packets ahead. *)
Theorem packet_number_survives_wire h version pers payload leastUnacked last :
  let pn := hdr_PacketNumber h in
  header_ok pers version h -> PublicHeader_hasPacketNumber h pers = true ->
  hdr_PacketNumberLen h = GetPacketNumberLengthForPublicHeader pn leastUnacked ->
  0 <= leastUnacked <= pn -> pn < 2 ^ 61 -> pn - leastUnacked < 2 ^ 47 ->
  leastUnacked <= last + 1 -> 0 <= last -> last + 1 - pn < 2 ^ 15 ->
  exists out h',
    PublicHeader_Write h version pers [] = (Ok tt, out) /\
    ParsePublicHeader pers version (out ++ payload) = (Ok h', payload) /\
    InferPacketNumber (hdr_PacketNumberLen h') last (hdr_PacketNumber h') = pn.
Proof.
  intros pn H _ E H1 H2 H3 H4 H5 H6.
  exists (header_layout h version pers), (header_on_wire h). split_and!.
  - by apply (header_writes _ _ _ H []).
  - by apply header_reads.
  - unfold header_on_wire. simpl. rewrite E. by apply infer_recovers.
Qed.

Lemma packet_number_survives_wire_witness :
  exists out h',
    PublicHeader_Write sample_header VersionMP PerspectiveClient [] = (Ok tt, out) /\
    ParsePublicHeader PerspectiveClient VersionMP (out ++ [9]) = (Ok h', [9]) /\
    InferPacketNumber (hdr_PacketNumberLen h') 99999 (hdr_PacketNumber h') = 100003.
Proof.
  apply (packet_number_survives_wire sample_header VersionMP PerspectiveClient [9] 99990 99999).
  all: try apply sample_header_ok; try reflexivity; simpl; lia.
Defined.

(** ** Version negotiation *)

Lemma writes_versions vs :
  writes (write_versions vs) (concat (map (fun v => lenc 4 (VersionNumberToTag v)) vs)).
Proof.
  induction vs as [|v vs IH]; [apply writes_ret|].
  cbn [write_versions map concat]. eapply writes_bind; [apply bo_write32 | exact IH].
Qed.

Lemma reads_versions vs fuel :
  Forall (fun v => 0 <= v < 1000) vs -> (length vs < fuel)%nat ->
  read_versions fuel (concat (map (fun v => lenc 4 (VersionNumberToTag v)) vs)) = (Ok vs, []).
Proof.
  revert fuel. induction vs as [|v vs IH]; intros [|fuel] Hvs Hf; try (simpl in Hf; lia); [done|].
  apply Forall_cons in Hvs as [Hv Hvs]. cbn [read_versions map concat].
  rewrite (bo_read32 (bo := LittleEndian) _ (version_tag_range v)).
  rewrite IH by (done || simpl in Hf; lia). by rewrite version_tag_roundtrip.
Qed.

Lemma compose_bytes connID versions :
  ComposeVersionNegotiation connID versions
  = [9] ++ lenc 8 connID ++ concat (map (fun v => lenc 4 (VersionNumberToTag v)) versions).
Proof.
  unfold ComposeVersionNegotiation.
  assert (Hw : forall h, hdr_VersionFlag h = true -> hdr_ResetFlag h = false ->
    hdr_TruncateConnectionID h = false -> hdr_DiversificationNonce h = [] ->
    hdr_MultipathFlag h = false ->
    writes (PublicHeader_Write h VersionWhatever PerspectiveServer) ([9] ++ lenc 8 (hdr_ConnectionID h))).
  { intros h H1 H2 H3 H4 H5. unfold PublicHeader_Write, PublicHeader_flagByte, PublicHeader_hasPacketNumber.
    rewrite H1, H2, H3, H4, H5. eapply writes_bind; [apply writes_byte|].
    rewrite <- (app_nil_r (lenc 8 _)). eapply writes_bind; [apply bo_write64 | apply writes_ret]. }
  rewrite (Hw (mkPublicHeader [] connID 0 true false false false 0 1 0 [] [])) by done.
  rewrite (writes_versions versions). cbn [snd]. by rewrite <- !app_assoc.
Qed.

Lemma versions_length vs :
  length (concat (map (fun v => lenc 4 (VersionNumberToTag v)) vs)) = (4 * length vs)%nat.
Proof.
  induction vs as [|v vs IH]; [done|]. cbn [map concat length].
  rewrite length_app, IH, bo_enc_length. lia.
Qed.

Lemma negotiation_parse connID versions version :
  0 < connID < 2 ^ 64 -> Forall (fun v => 0 <= v < 1000) versions ->
  ParsePublicHeader PerspectiveServer version (ComposeVersionNegotiation connID versions)
  = (Ok (mkPublicHeader [] connID 0 true false false false 0 0 0 versions []), []).
Proof.
  intros Hc Hvs. rewrite compose_bytes. unfold ParsePublicHeader.
  rewrite (run_bind_ok _ _ _ _ _ (reads_byte 9 _)). cbv zeta.
  change (0 <? Z.land 9 1) with true. change (0 <? Z.land 9 2) with false. simpl orb.
  rewrite andb_false_r. cbv iota. change (Z.land 9 8 =? 0) with false. cbn [andb negb].
  erewrite run_bind_ok; cycle 1.
  { assert (Hr : reads (c ← ReadUint64 LittleEndian;
             if c =? 0 then fail errInvalidConnectionID else mret c) (lenc 8 connID) connID).
    { by apply (header_connection_reads
                  (mkPublicHeader [] connID 0 true false false false 0 0 0 [] []) false). }
    apply Hr. }
  change (Perspective_eqb PerspectiveServer PerspectiveServer && (0 <? Z.land 9 4)) with false.
  cbv iota. rewrite (run_bind_ok (mret []) _ _ [] _ eq_refl). cbv iota.
  change (Perspective_eqb PerspectiveServer PerspectiveServer) with true. cbv iota.
  rewrite (run_bind_ok Reader_Len _ _ _ _ eq_refl). cbv beta. unfold zlen. rewrite versions_length.
  replace (Z.of_nat (4 * length versions) mod 4) with 0 by (Z.to_euclidean_division_equations; lia).
  cbn [Z.eqb negb]. erewrite run_bind_ok; [done|]. unfold read_supported_versions.
  apply reads_versions; [done|]. rewrite versions_length. lia.
Qed.

(** The version negotiation packet a server composes is parsed by the client
    as one, with exactly the server's versions in their order, and the client
    then chooses the first of its own versions that the server offers. *)
Theorem version_negotiation_roundtrip connID versions version ours :
  0 < connID < 2 ^ 64 -> Forall (fun v => 0 <= v < 1000) versions ->
  exists h,
    ParsePublicHeader PerspectiveServer version (ComposeVersionNegotiation connID versions)
      = (Ok h, []) /\
    hdr_ConnectionID h = connID /\ hdr_VersionFlag h = true /\ hdr_SupportedVersions h = versions /\
    let v := ChooseSupportedVersion ours (hdr_SupportedVersions h) in
    v <> VersionUnsupported ->
    exists pre post, ours = pre ++ v :: post /\ v ∈ versions /\ forall u, u ∈ pre -> u ∉ versions.
Proof.
  intros Hc Hvs. rewrite negotiation_parse by done. eexists. split_and!; try done.
  intros v Hv. by apply choose_supported_first.
Qed.

Lemma version_negotiation_roundtrip_witness :
  exists h,
    ParsePublicHeader PerspectiveServer Version39
      (ComposeVersionNegotiation 42 [Version39; VersionMP]) = (Ok h, []) /\
    hdr_ConnectionID h = 42 /\ hdr_VersionFlag h = true /\
    hdr_SupportedVersions h = [Version39; VersionMP] /\
    let v := ChooseSupportedVersion SupportedVersions (hdr_SupportedVersions h) in
    v <> VersionUnsupported ->
    exists pre post, SupportedVersions = pre ++ v :: post /\ v ∈ [Version39; VersionMP] /\
      forall u, u ∈ pre -> u ∉ [Version39; VersionMP].
Proof.
  apply (version_negotiation_roundtrip 42 [Version39; VersionMP] Version39 SupportedVersions).
  - lia.
  - repeat constructor; done.
Defined.

(** ** Parsing arbitrary bytes *)

Lemma safe_u32_le : safe_read1 (ReadUint32 LittleEndian) (fun _ => True).
Proof.
  change (ReadUint32 LittleEndian) with littleEndian_ReadUint32. unfold littleEndian_ReadUint32.
  safe_steps. done.
Qed.

(** The fuel is enough: every version read takes bytes away. *)
Lemma read_versions_safe fuel r : (length r < fuel)%nat -> bytes_ok r ->
  exists vs r', read_versions fuel r = (Ok vs, r') /\ bytes_ok r' /\ (length r' <= length r)%nat.
Proof.
  revert r. induction fuel as [|fuel IH]; intros r Hf Hr; [lia|]. cbn [read_versions].
  pose proof (safe_u32_le r Hr) as Hs.
  destruct (ReadUint32 LittleEndian r) as [[t|e|p] r'] eqn:E.
  - destruct Hs as (Hr' & Hlen & _). destruct (IH r' ltac:(lia) Hr') as (vs & r'' & -> & ? & ?).
    eexists _, _. split_and!; [done | done | lia].
  - destruct Hs. by eexists _, _.
  - done.
Qed.

Lemma read_supported_versions_safe : safe_read read_supported_versions (fun _ => True).
Proof.
  intros r Hr. unfold read_supported_versions.
  destruct (read_versions_safe (S (length r)) r) as (vs & r' & -> & ? & ?); [lia | done | done].
Qed.

(** What a parsed header satisfies. *)
Definition header_received (pers : Perspective) (h : PublicHeader) : Prop :=
  u64_ok (hdr_ConnectionID h) /\ byte_ok (hdr_PathID h) /\
  (hdr_TruncateConnectionID h = false -> hdr_ConnectionID h <> 0) /\
  (hdr_TruncateConnectionID h = true -> pers = PerspectiveServer) /\
  if PublicHeader_hasPacketNumber h pers
  then valid_len (hdr_PacketNumberLen h) /\ 0 <= hdr_PacketNumber h < epoch_size (hdr_PacketNumberLen h)
  else hdr_PacketNumber h = 0.

Lemma packetNumberLen_of_flags_valid b : valid_len (packetNumberLen_of_flags b).
Proof.
  unfold packetNumberLen_of_flags, valid_len. repeat (destruct (_ =? _); [by auto|]). by auto.
Qed.

Lemma connection_safe (b : bool) :
  safe_read (if negb b then c ← ReadUint64 LittleEndian;
                            if c =? 0 then fail errInvalidConnectionID else mret c
             else mret 0) (fun c => u64_ok c /\ (b = false -> c <> 0)).
Proof.
  destruct b; cbn [negb]; [by apply safe_ret|].
  eapply safe_bind; [apply bo_safe64|]. intros c Hc. apply safe_if; intros E; [apply safe_fail|].
  rewrite Z.eqb_neq in E. by apply safe_ret.
Qed.

Lemma number_safe (b : bool) v len : (b = true -> valid_len len) ->
  safe_read (if b then ReadUintN (GetByteOrder v) len else mret 0)
    (fun pn => if b then 0 <= pn < epoch_size len else pn = 0).
Proof.
  destruct b; intros Hl; [|by apply safe_ret].
  apply safe_uintN. destruct (Hl eq_refl) as [-> | [-> | [-> | ->]]]; lia.
Qed.

Lemma ParsePublicHeader_safe pers version :
  safe_read1 (ParsePublicHeader pers version) (header_received pers).
Proof.
  unfold ParsePublicHeader. safe_step. cbv zeta. safe_step; [apply safe_fail|].
  safe_step; [apply safe_fail|]. eapply safe_bind; [apply connection_safe|]. intros c [Hc Hc0].
  eapply (safe_bind _ _ (fun _ => True)).
  { safe_step; [|by safe_steps]. safe_step; [|by safe_steps].
    eapply safe_weaken; [apply safe_full; lia | done]. }
  intros nonce _.
  assert (Htr : (Z.land b 8 =? 0) = true -> pers = PerspectiveServer).
  { intros E. rewrite E in *. by destruct pers. }
  apply safe_if; intros E.
  - eapply safe_bind; [apply safe_len|]. intros n _. apply safe_if; intros _; [apply safe_fail|].
    eapply safe_bind; [apply read_supported_versions_safe|]. intros vs _. apply safe_ret.
    unfold header_received, PublicHeader_hasPacketNumber, hasPacketNumber. cbn.
    apply andb_true_iff in E as [[E1 E2]%andb_true_iff E3]. apply negb_true_iff in E1.
    rewrite E1, E2, E3. done.
  - eapply (safe_bind _ _ (fun _ => True)).
    { apply safe_if; intros _; [|by safe_steps].
      eapply safe_bind; [apply safe_read1_read, safe_u32_le|]. intros. by apply safe_ret. }
    intros vn _. eapply safe_bind; [apply opt_byte_safe|]. intros pid Hpid.
    eapply safe_bind.
    { apply number_safe. intros ->. apply packetNumberLen_of_flags_valid. }
    intros pn Hpn. apply safe_ret. unfold header_received, PublicHeader_hasPacketNumber. cbn.
    cbv beta in Hpn. split_and!; try done; try apply Hc.
    destruct (hasPacketNumber _ _ _); [|done]. split; [apply packetNumberLen_of_flags_valid | done].
Qed.
