(* ===== verification/Frame.v ===== *)
(** * Frames as a whole and their packets (internal/wire/frame.go,
    ackhandler/retransmittable.go, packet_unpacker.go)

    The interface [wire.Frame] is the sum of the frame types.  The unpacker opens
    the payload of a packet and parses the frames in it. *)

From S2P Require Import Prelude Protocol ByteOrder WireFrames WireAck WireHeader.

Inductive Frame :=
  | FStream (f : StreamFrame)
  | FAck (f : AckFrame)
  | FRstStream (f : RstStreamFrame)
  | FConnectionClose (f : ConnectionCloseFrame)
  | FGoaway (f : GoawayFrame)
  | FWindowUpdate (f : WindowUpdateFrame)
  | FBlocked (f : BlockedFrame)
  | FStopWaiting (f : StopWaitingFrame)
  | FPing (f : PingFrame)
  | FAddAddress (f : AddAddressFrame)
  | FClosePath (f : ClosePathFrame)
  | FPaths (f : PathsFrame).

(** [now] is the time of the call, which only ACK frames look at. *)
Definition Frame_Write (f : Frame) (now : Time) (version : VersionNumber) : Writer :=
  match f with
  | FStream f => StreamFrame_Write f version
  | FAck f => AckFrame_Write f now version;; mret tt
  | FRstStream f => RstStreamFrame_Write f version
  | FConnectionClose f => ConnectionCloseFrame_Write f version
  | FGoaway f => GoawayFrame_Write f version
  | FWindowUpdate f => WindowUpdateFrame_Write f version
  | FBlocked f => BlockedFrame_Write f version
  | FStopWaiting f => StopWaitingFrame_Write f version
  | FPing f => PingFrame_Write f version
  | FAddAddress f => AddAddressFrame_Write f version
  | FClosePath f => ClosePathFrame_Write f version
  | FPaths f => PathsFrame_Write f version
  end.

Definition Frame_MinLength (f : Frame) (version : VersionNumber) : outcome ByteCount :=
  match f with
  | FStream f => StreamFrame_MinLength f version
  | FAck f => Ok (AckFrame_MinLength f version)
  | FRstStream f => RstStreamFrame_MinLength f version
  | FConnectionClose f => ConnectionCloseFrame_MinLength f version
  | FGoaway f => GoawayFrame_MinLength f version
  | FWindowUpdate f => WindowUpdateFrame_MinLength f version
  | FBlocked f => BlockedFrame_MinLength f version
  | FStopWaiting f => StopWaitingFrame_MinLength f version
  | FPing f => PingFrame_MinLength f version
  | FAddAddress f => AddAddressFrame_MinLength f version
  | FClosePath f => Ok (ClosePathFrame_MinLength f version)
  | FPaths f => PathsFrame_MinLength f version
  end.

(** ** retransmittable.go *)

Definition IsFrameRetransmittable (f : Frame) : bool :=
  match f with
  | FStopWaiting _ => false
  | FAck _ => false
  | _ => true
  end.

Fixpoint stripNonRetransmittableFrames (fs : list Frame) : list Frame :=
  match fs with
  | [] => []
  | f :: fs' =>
      if IsFrameRetransmittable f then f :: stripNonRetransmittableFrames fs'
      else stripNonRetransmittableFrames fs'
  end.

Fixpoint HasRetransmittableFrames (fs : list Frame) : bool :=
  match fs with
  | [] => false
  | f :: fs' => if IsFrameRetransmittable f then true else HasRetransmittableFrames fs'
  end.

(** ** packet_unpacker.go *)

Record unpackedPacket := mkUnpackedPacket {
  up_encryptionLevel : EncryptionLevel;
  up_frames : list Frame
}.

(** [err = qerr.Error(code, err.Error())] on a failed parse. *)
Definition wrap_err {A} (code : Z) (m : Reader A) : Reader A := fun r =>
  match m r with
  | (Err e, r') => (Err (qerr_Wrap code e), r')
  | other => other
  end.

Definition map_frame {A} (c : A -> Frame) (m : Reader A) : Reader Frame := x ← m; mret (c x).

(** One turn of the loop after the type byte was un-read. *)
Definition parse_frame (version : VersionNumber) (hdr : PublicHeader)
    (encryptionLevel : EncryptionLevel) (typeByte : Z) : Reader Frame :=
  if Z.land typeByte 0x80 =? 0x80 then
    f ← wrap_err InvalidStreamData (ParseStreamFrame version);
    if negb (sf_StreamID f =? 1)
       && (EncryptionLevel_num encryptionLevel <=? EncryptionLevel_num EncryptionUnencrypted)
    then fail (qerr_Error UnencryptedStreamData
                 "received unencrypted stream data on stream %d" [sf_StreamID f])
    else mret (FStream f)
  else if Z.land typeByte 0xc0 =? 0x40 then
    map_frame FAck (wrap_err InvalidAckData (ParseAckFrame version))
  else if Z.land typeByte 0xe0 =? 0x20 then
    fail (errors_New "unimplemented: CONGESTION_FEEDBACK")
  else if typeByte =? 0x01 then
    map_frame FRstStream (wrap_err InvalidRstStreamData (ParseRstStreamFrame version))
  else if typeByte =? 0x02 then
    map_frame FConnectionClose (wrap_err InvalidConnectionCloseData (ParseConnectionCloseFrame version))
  else if typeByte =? 0x03 then
    map_frame FGoaway (wrap_err InvalidGoawayData (ParseGoawayFrame version))
  else if typeByte =? 0x04 then
    map_frame FWindowUpdate (wrap_err InvalidWindowUpdateData (ParseWindowUpdateFrame version))
  else if typeByte =? 0x05 then
    map_frame FBlocked (wrap_err InvalidBlockedData (ParseBlockedFrame version))
  else if typeByte =? 0x06 then
    map_frame FStopWaiting (wrap_err InvalidStopWaitingData
      (ParseStopWaitingFrame (hdr_PacketNumber hdr) (hdr_PacketNumberLen hdr) version))
  else if typeByte =? 0x07 then map_frame FPing (ParsePingFrame version)
  else if typeByte =? 0x10 then map_frame FAddAddress (ParseAddAddressFrame version)
  else if typeByte =? 0x11 then map_frame FClosePath (ParseClosePathFrame version)
  else if typeByte =? 0x12 then map_frame FPaths (ParsePathsFrame version)
  else fail (qerr_Error InvalidFrameData "unknown type byte 0x%x" [typeByte]).

(** The loop over the payload; [fuel] bounds its turns, each of which takes at
    least one byte. *)
Fixpoint read_frames (version : VersionNumber) (hdr : PublicHeader)
    (encryptionLevel : EncryptionLevel) (fuel : nat) : Reader (list Frame) := fun r =>
  match fuel with
  | O => (Panic "out of fuel", r)
  | S fuel' =>
      match r with
      | [] => (Ok [], r)
      | typeByte :: r' =>
          if typeByte =? 0x0 then read_frames version hdr encryptionLevel fuel' r'
          else
            (frame ← parse_frame version hdr encryptionLevel typeByte;
             frames ← read_frames version hdr encryptionLevel fuel';
             mret (frame :: frames)) r
      end
  end.

Section Unpacker.
(** [quicAEAD.Open] on the payload, the packet number and the associated data. *)
Context (Open : list Z -> PacketNumber -> list Z -> outcome (list Z * EncryptionLevel)).

Definition Unpack (version : VersionNumber) (publicHeaderBinary : list Z) (hdr : PublicHeader)
    (data : list Z) : outcome unpackedPacket :=
  match Open data (hdr_PacketNumber hdr) publicHeaderBinary with
  | Err e => Err (qerr_Wrap DecryptionFailure e)
  | Panic p => Panic p
  | Ok (decrypted, encryptionLevel) =>
      if zlen decrypted =? 0 then Err (qerr_Code MissingPayload)
      else
        match fst (read_frames version hdr encryptionLevel (S (length decrypted)) decrypted) with
        | Ok fs => Ok (mkUnpackedPacket encryptionLevel fs)
        | Err e => Err e
        | Panic p => Panic p
        end
  end.
End Unpacker.

(** ** Any payload is parsed safely *)

(** What every frame handed to the session satisfies. *)
Definition frame_received (hdr : PublicHeader) (level : EncryptionLevel) (f : Frame) : Prop :=
  match f with
  | FStream f => StreamFrame_received f /\
      (EncryptionLevel_num level <= EncryptionLevel_num EncryptionUnencrypted -> sf_StreamID f = 1)
  | FAck f => byte_ok (ack_PathID f) /\
      ranges_valid (ack_LargestAcked f) (ack_LowestAcked f) (ack_AckRanges f)
  | FRstStream f => RstStreamFrame_ok f
  | FConnectionClose f => bytes_ok (cc_ReasonPhrase f) /\ zlen (cc_ReasonPhrase f) <= MaxPacketSize
  | FGoaway f => bytes_ok (ga_ReasonPhrase f) /\ zlen (ga_ReasonPhrase f) <= MaxPacketSize
  | FWindowUpdate f => u32_ok (wu_StreamID f) /\ u64_ok (wu_ByteOffset f)
  | FBlocked f => u32_ok (bl_StreamID f)
  | FStopWaiting f => 0 < sw_LeastUnacked f <= hdr_PacketNumber hdr
  | FPing _ => True
  | FAddAddress f => u16_ok (addr_Port (aa_Addr f)) /\ zlen (addr_IP (aa_Addr f)) = 16
  | FClosePath f => byte_ok (cp_PathID f) /\
      ranges_valid (cp_LargestAcked f) (cp_LowestAcked f) (cp_AckRanges f)
  | FPaths f => pf_NumPaths f = zlen (pf_PathIDs f) /\ pf_NumPaths f <= pf_MaxNumPaths f
      /\ length (pf_PathIDs f) = length (pf_RemoteRTTs f)
  end.

Lemma wrap_err_safe {A} code (m : Reader A) P : safe_read1 m P -> safe_read1 (wrap_err code m) P.
Proof.
  intros H s Hs. specialize (H s Hs). unfold wrap_err. by destruct (m s) as [[a|e|p] s'].
Qed.

Lemma safe_read1_bind {A B} (m : Reader A) (k : A -> Reader B) P Q :
  safe_read1 m P -> (forall a, P a -> safe_read (k a) Q) -> safe_read1 (m ≫= k) Q.
Proof.
  intros H Hk s Hs. specialize (H s Hs). unfold mbind, GoM_bind.
  destruct (m s) as [[a|e|p] s']; [|done|done].
  destruct H as (Hs' & Hlen & Ha). specialize (Hk a Ha s' Hs').
  destruct (k a s') as [[b|e|p] s'']; [| |done].
  - destruct Hk as (? & ? & ?). split_and!; [done | lia | done].
  - destruct Hk. split; [done | lia].
Qed.

Lemma map_frame_safe {A} (c : A -> Frame) (m : Reader A) P Q :
  safe_read1 m P -> (forall a, P a -> Q (c a)) -> safe_read1 (map_frame c m) Q.
Proof. intros H HQ. eapply safe_read1_bind; [exact H|]. intros a Ha. apply safe_ret. auto. Qed.

Lemma fail_safe1 {A} e (P : A -> Prop) : safe_read1 (fail e) P.
Proof. intros s Hs. done. Qed.

Lemma safe1_if {A} (b : bool) (r1 r2 : Reader A) P :
  (b = true -> safe_read1 r1 P) -> (b = false -> safe_read1 r2 P) ->
  safe_read1 (if b then r1 else r2) P.
Proof. destruct b; auto. Qed.

Create HintDb parsers.
#[export] Hint Resolve ParseAckFrame_safe ParseRstStreamFrame_safe ParseConnectionCloseFrame_safe
  ParseGoawayFrame_safe ParseWindowUpdateFrame_safe ParseBlockedFrame_safe ParsePingFrame_safe
  ParseAddAddressFrame_safe ParseClosePathFrame_safe ParsePathsFrame_safe wrap_err_safe : parsers.

Lemma parse_frame_safe version hdr level typeByte :
  valid_len (hdr_PacketNumberLen hdr) -> u64_ok (hdr_PacketNumber hdr) ->
  safe_read1 (parse_frame version hdr level typeByte) (frame_received hdr level).
Proof.
  intros Hlen Hpn. unfold parse_frame. apply safe1_if; intros _.
  { eapply safe_read1_bind; [apply wrap_err_safe, ParseStreamFrame_safe|].
    intros f Hf. apply safe_if; intros E; [apply safe_fail|]. apply safe_ret. split; [done|].
    intros Hlevel. apply Z.leb_le in Hlevel. rewrite Hlevel, andb_true_r in E.
    apply negb_false_iff in E. by apply Z.eqb_eq. }
  pose proof (ParseStopWaitingFrame_safe (hdr_PacketNumber hdr) (hdr_PacketNumberLen hdr) version Hpn Hlen).
  repeat (apply safe1_if; intros _); try apply fail_safe1;
    (eapply map_frame_safe; [eauto with parsers | done]).
Qed.

(** The fuel is enough, and every frame returned is well formed. *)
Lemma read_frames_safe version hdr level fuel r :
  valid_len (hdr_PacketNumberLen hdr) -> u64_ok (hdr_PacketNumber hdr) ->
  bytes_ok r -> (length r < fuel)%nat ->
  match fst (read_frames version hdr level fuel r) with
  | Ok fs => Forall (frame_received hdr level) fs
  | Err _ => True
  | Panic _ => False
  end.
Proof.
  intros Hlen Hpn. revert r. induction fuel as [|fuel IH]; intros r Hr Hf; [lia|].
  cbn [read_frames]. destruct r as [|tb r]; [constructor|]. destruct (tb =? 0).
  { apply IH; [by apply Forall_cons in Hr as [_ ?] | simpl in Hf; lia]. }
  pose proof (parse_frame_safe version hdr level tb Hlen Hpn (tb :: r) Hr) as Hs.
  unfold mbind, GoM_bind. destruct (parse_frame version hdr level tb (tb :: r)) as [[f|e|p] r1]; [|done|done].
  destruct Hs as (Hr1 & Hlt & Hfr). specialize (IH r1 Hr1 ltac:(lia)).
  destruct (read_frames version hdr level fuel r1) as [[fs|e|p] r2]; [|done|done].
  by constructor.
Qed.

Lemma Unpack_received Open version ad hdr data decrypted level :
  valid_len (hdr_PacketNumberLen hdr) -> u64_ok (hdr_PacketNumber hdr) ->
  Open data (hdr_PacketNumber hdr) ad = Ok (decrypted, level) -> bytes_ok decrypted ->
  match Unpack Open version ad hdr data with
  | Ok p => up_encryptionLevel p = level /\ Forall (frame_received hdr level) (up_frames p)
  | Err _ => True
  | Panic _ => False
  end.
Proof.
  intros Hlen Hpn E Hb. unfold Unpack. rewrite E. destruct (zlen decrypted =? 0); [done|].
  pose proof (read_frames_safe version hdr level (S (length decrypted)) decrypted Hlen Hpn Hb ltac:(lia)).
  by destruct (fst (read_frames version hdr level (S (length decrypted)) decrypted)).
Qed.

(** C23: no payload crashes the receiver.  Whatever bytes the decryption returns,
    unpacking ends without a panic, every frame it hands on satisfies the bounds
    of its type (offsets that cannot overflow, descending disjoint ACK ranges,
    a STOP_WAITING number not above the packet's), and below secure encryption
    only the crypto stream carries data. *)
Theorem Unpack_safe Open version ad hdr data :
  valid_len (hdr_PacketNumberLen hdr) -> u64_ok (hdr_PacketNumber hdr) ->
  (match Open data (hdr_PacketNumber hdr) ad with
   | Ok (decrypted, _) => bytes_ok decrypted | Err _ => True | Panic _ => False end) ->
  match Unpack Open version ad hdr data with
  | Ok p => Forall (frame_received hdr (up_encryptionLevel p)) (up_frames p)
  | Err _ => True
  | Panic _ => False
  end.
Proof.
  intros Hlen Hpn Hopen. destruct (Open data (hdr_PacketNumber hdr) ad) as [[dec level]|e|p] eqn:E; [|by unfold Unpack; rewrite E|done].
  pose proof (Unpack_received Open version ad hdr data dec level Hlen Hpn E Hopen) as H.
  destruct (Unpack Open version ad hdr data) as [p| |]; [|done|done]. by destruct H as [-> H].
Qed.

(** The payload opened without a key: the identity, as before the handshake. *)
Definition open_plain (level : EncryptionLevel) (data : list Z) (pn : PacketNumber) (ad : list Z)
    : outcome (list Z * EncryptionLevel) := Ok (data, level).

Lemma Unpack_safe_witness :
  match Unpack (open_plain EncryptionForwardSecure) VersionMP [] sample_header
          [0; 0x07; 0x60; 20; 0; 0; 1; 3; 4; 5; 0; 0xa0; 5; 0; 2; 104; 105] with
  | Ok p => Forall (frame_received sample_header (up_encryptionLevel p)) (up_frames p)
  | Err _ => True
  | Panic _ => False
  end.
Proof.
  apply Unpack_safe.
  - by right; left.
  - by vm_compute.
  - simpl. repeat constructor; done.
Defined.

(** ** What was packed is unpacked *)

(** The loop of the packer that writes the frames of a packet (packet_packer.go). *)
Fixpoint write_frames (fs : list Frame) (now : Time) (version : VersionNumber) : Writer :=
  match fs with
  | [] => mret tt
  | f :: fs' => Frame_Write f now version;; write_frames fs' now version
  end.

(** A frame the packet with the given header can carry. *)
Definition frame_ok (hdr : PublicHeader) (level : EncryptionLevel) (f : Frame) : Prop :=
  match f with
  | FStream f => StreamFrame_ok f /\
      (EncryptionLevel_num level <= EncryptionLevel_num EncryptionUnencrypted -> sf_StreamID f = 1)
  | FAck f => AckFrame_ok f /\ first_gap_ok (ack_AckRanges f)
  | FRstStream f => RstStreamFrame_ok f
  | FConnectionClose f => u32_ok (cc_ErrorCode f) /\ zlen (cc_ReasonPhrase f) <= MaxPacketSize
  | FGoaway f => u32_ok (ga_ErrorCode f) /\ u32_ok (ga_LastGoodStream f) /\
      zlen (ga_ReasonPhrase f) <= MaxPacketSize
  | FWindowUpdate f => u32_ok (wu_StreamID f) /\ u64_ok (wu_ByteOffset f)
  | FBlocked f => u32_ok (bl_StreamID f)
  | FStopWaiting f =>
      sw_PacketNumber f = hdr_PacketNumber hdr /\ sw_PacketNumberLen f = hdr_PacketNumberLen hdr /\
      valid_len (hdr_PacketNumberLen hdr) /\ 0 < sw_LeastUnacked f <= hdr_PacketNumber hdr /\
      hdr_PacketNumber hdr < 2 ^ 64 /\
      hdr_PacketNumber hdr - sw_LeastUnacked f < epoch_size (hdr_PacketNumberLen hdr)
  | FPing _ => True
  | FAddAddress f => u16_ok (addr_Port (aa_Addr f)) /\ is_Some (IP_To16 (addr_IP (aa_Addr f))) /\
      ((aa_IPVersion f = 4 /\ is_Some (IP_To4 (addr_IP (aa_Addr f)))) \/ aa_IPVersion f = 6)
  | FClosePath f => ClosePathFrame_ok f /\ first_gap_ok (cp_AckRanges f)
  | FPaths f => byte_ok (pf_MaxNumPaths f) /\ 0 <= pf_NumPaths f <= pf_MaxNumPaths f /\
      pf_NumPaths f = zlen (pf_PathIDs f) /\ length (pf_PathIDs f) = length (pf_RemoteRTTs f) /\
      Forall byte_ok (pf_PathIDs f)
  end.

(** The frame the peer sees. *)
Definition frame_on_wire (now : Time) (f : Frame) : Frame :=
  match f with
  | FAck f => FAck (AckFrame_on_wire f now)
  | FStopWaiting f => FStopWaiting (mkStopWaitingFrame (sw_LeastUnacked f) 0 0)
  | FAddAddress f =>
      FAddAddress (mkAddAddressFrame (aa_IPVersion f)
        (mkUDPAddr (default [] (IP_To16 (addr_IP (aa_Addr f)))) (addr_Port (aa_Addr f))))
  | FClosePath f =>
      FClosePath (mkClosePathFrame (cp_PathID f) (cp_LargestAcked f)
        (wire_lowest (cp_LowestAcked f) (cp_AckRanges f)) (wire_ranges (cp_AckRanges f)))
  | FPaths f =>
      FPaths (mkPathsFrame (pf_MaxNumPaths f) (pf_NumPaths f) (pf_PathIDs f)
        (map rtt_on_wire (pf_RemoteRTTs f)))
  | other => other
  end.

(** Only a STREAM frame without a length field needs to be the last one. *)
Definition delimited (f : Frame) : Prop :=
  match f with
  | FStream f => sf_DataLenPresent f = true
  | _ => True
  end.

(** [tb :: bs] are the bytes of [f], and what [parse_frame] makes of them. *)
Definition frame_bytes (version : VersionNumber) (hdr : PublicHeader) (level : EncryptionLevel)
    (now : Time) (f : Frame) (tb : Z) (bs : list Z) : Prop :=
  writes (Frame_Write f now version) (tb :: bs) /\ tb <> 0 /\
  forall rest, delimited f \/ rest = [] ->
    parse_frame version hdr level tb ((tb :: bs) ++ rest) = (Ok (frame_on_wire now f), rest).

Lemma wrap_err_reads {A} code (m : Reader A) bs a : reads m bs a -> reads (wrap_err code m) bs a.
Proof. intros H rest. unfold wrap_err. by rewrite H. Qed.

Lemma map_frame_reads {A} (c : A -> Frame) (m : Reader A) bs a :
  reads m bs a -> reads (map_frame c m) bs (c a).
Proof. intros H. unfold map_frame. by eapply reads_bind_ret. Qed.

(** The frames with a fixed type byte. *)
Lemma frame_bytes_codec {A} version hdr level now f tb (c : A -> Frame) (r : Reader A) a n :
  codec tb (Frame_Write f now version) r a n -> tb <> 0 -> c a = frame_on_wire now f ->
  (parse_frame version hdr level tb = map_frame c r
   \/ exists code, parse_frame version hdr level tb = map_frame c (wrap_err code r)) ->
  exists bs, frame_bytes version hdr level now f tb bs.
Proof.
  intros ([|b bs] & Hw & Hr & _ & Ht) Htb Hc Hp; [done|]. injection Ht as ->. exists bs.
  split_and!; [done | done |]. intros rest _. rewrite <- Hc.
  destruct Hp as [-> | [code ->]]; apply map_frame_reads; [done | by apply wrap_err_reads].
Qed.

Lemma AckFrame_typeByte_kind f :
  valid_len (GetPacketNumberLength (ack_LargestAcked f)) ->
  (Z.land (AckFrame_typeByte f) 0x80 =? 0x80) = false /\
  (Z.land (AckFrame_typeByte f) 0xc0 =? 0x40) = true.
Proof.
  intros Hla. unfold AckFrame_typeByte.
  assert (Hdl : valid_len (AckFrame_getMissingSequenceNumberDeltaLen f)) by apply deltaLen_valid.
  destruct (AckFrame_HasMissingRanges f), (ack_PathID f =? InitialPathID);
    destruct Hla as [-> | [-> | [-> | ->]]]; destruct Hdl as [-> | [-> | [-> | ->]]]; done.
Qed.

Lemma frame_bytes_ack version hdr level now f :
  AckFrame_ok f -> first_gap_ok (ack_AckRanges f) ->
  exists tb bs, frame_bytes version hdr level now (FAck f) tb bs.
Proof.
  intros Hok Hgap. pose proof (ranges_ok_bounds _ _ _ (proj2 Hok)) as HL.
  destruct (GetPacketNumberLength_spec (ack_LargestAcked f)) as [Hla _]; [lia|].
  destruct (AckFrame_typeByte_kind f Hla) as [K1 K2].
  destruct (AckFrame_codec f now version Hok Hgap) as (bs & Hw & Hr).
  exists (AckFrame_typeByte f), bs. split_and!.
  - unfold Frame_Write. rewrite <- (app_nil_r (_ :: bs)). eapply emits_bind; [exact Hw | apply emits_ret].
  - by intros E; rewrite E in K2.
  - intros rest _. unfold parse_frame. rewrite K1, K2. apply (map_frame_reads FAck), wrap_err_reads, Hr.
Qed.

Lemma StreamFrame_typeByte_kind fin dlp ol il :
  (ol = 0 \/ 2 <= ol <= 8) -> 1 <= il <= 4 ->
  let tb := StreamFrame_typeByte fin dlp ol il in (Z.land tb 0x80 =? 0x80) = true /\ tb <> 0.
Proof.
  intros Hol Hil.
  assert (Hol' : ol = 0 \/ ol = 2 \/ ol = 3 \/ ol = 4 \/ ol = 5 \/ ol = 6 \/ ol = 7 \/ ol = 8) by lia.
  assert (Hil' : il = 1 \/ il = 2 \/ il = 3 \/ il = 4) by lia. clear Hol Hil.
  destruct fin, dlp; destruct_or! Hol'; destruct_or! Hil'; subst; done.
Qed.

Lemma frame_bytes_stream version hdr level now f :
  StreamFrame_ok f ->
  (EncryptionLevel_num level <= EncryptionLevel_num EncryptionUnencrypted -> sf_StreamID f = 1) ->
  exists tb bs, frame_bytes version hdr level now (FStream f) tb bs.
Proof.
  intros Hok Hlevel. pose proof Hok as (H1 & H2 & _).
  destruct (StreamFrame_idLen_spec f H1) as [Hil _].
  pose proof (StreamFrame_offLen_spec f H2) as Hol. cbv zeta in Hol.
  destruct (StreamFrame_typeByte_kind (sf_FinBit f) (sf_DataLenPresent f)
    (StreamFrame_getOffsetLength f) (StreamFrame_calculateStreamIDLength f) ltac:(lia) Hil) as [K1 K2].
  destruct (StreamFrame_header version f ++ sf_Data f) as [|tb bs] eqn:E; [done|].
  assert (Etb : tb = StreamFrame_typeByte (sf_FinBit f) (sf_DataLenPresent f)
    (StreamFrame_getOffsetLength f) (StreamFrame_calculateStreamIDLength f)) by (by injection E).
  rewrite <- Etb in *. exists tb, bs. unfold frame_bytes. rewrite <- E.
  split_and!; [by apply StreamFrame_writes | exact K2 |].
  intros rest Hrest. unfold parse_frame. rewrite K1.
  erewrite run_bind_ok; cycle 1.
  { unfold wrap_err. erewrite (StreamFrame_parses version f rest Hok); [done|].
    destruct Hrest as [H|H]; [by left | by right]. }
  destruct (Z.leb_spec (EncryptionLevel_num level) (EncryptionLevel_num EncryptionUnencrypted)).
  - by rewrite Hlevel.
  - by rewrite andb_false_r.
Qed.

(** Every frame of a packet is written and parsed back. *)
Lemma frame_bytes_exist version hdr level now f :
  frame_ok hdr level f -> exists tb bs, frame_bytes version hdr level now f tb bs.
Proof.
  destruct f as [f|f|f|f|f|f|f|f|f|f|f|f]; simpl; intros H.
  - destruct H. by apply frame_bytes_stream.
  - destruct H. by apply frame_bytes_ack.
  - eexists. eapply frame_bytes_codec; [by apply RstStreamFrame_codec | done | done | right; by eexists].
  - destruct H. eexists.
    eapply frame_bytes_codec; [by apply ConnectionCloseFrame_codec | done | done | right; by eexists].
  - destruct H as (? & ? & ?). eexists.
    eapply frame_bytes_codec; [by apply GoawayFrame_codec | done | done | right; by eexists].
  - destruct H. eexists.
    eapply frame_bytes_codec; [by apply WindowUpdateFrame_codec | done | done | right; by eexists].
  - eexists. eapply frame_bytes_codec; [by apply BlockedFrame_codec | done | done | right; by eexists].
  - destruct H as (E1 & E2 & H). eexists. rewrite <- E1, <- E2 in H.
    eapply frame_bytes_codec; [apply StopWaitingFrame_codec; apply H | done | done |].
    right. eexists. unfold parse_frame. rewrite <- E1, <- E2. done.
  - eexists. eapply frame_bytes_codec; [by apply PingFrame_codec | done | done | by left].
  - destruct H as (H1 & [ip16 H2] & H3). eexists.
    eapply frame_bytes_codec; [by apply (AddAddressFrame_codec _ _ ip16) | done | | by left].
    simpl. by rewrite H2.
  - destruct H. eexists.
    eapply frame_bytes_codec; [by apply ClosePathFrame_codec | done | done | by left].
  - destruct H as (? & ? & ? & ? & ?). eexists.
    eapply frame_bytes_codec; [by apply PathsFrame_codec | done | done | by left].
Qed.

Lemma frames_roundtrip version hdr level now fs :
  Forall (frame_ok hdr level) fs -> Forall delimited (removelast fs) ->
  exists bs, writes (write_frames fs now version) bs /\
    (fs <> [] -> bs <> []) /\
    forall fuel, (length bs < fuel)%nat ->
      read_frames version hdr level fuel bs = (Ok (map (frame_on_wire now) fs), []).
Proof.
  induction fs as [|f fs IH]; intros Hok Hd.
  { exists []. split_and!; [apply writes_ret | done |]. intros [|fuel] Hf; [simpl in Hf; lia | done]. }
  apply Forall_cons in Hok as [Hf Hok].
  destruct (frame_bytes_exist version hdr level now f Hf) as (tb & bs1 & Hw1 & Htb & Hp).
  assert (Hd' : Forall delimited (removelast fs) /\ (delimited f \/ fs = [])).
  { destruct fs as [|f' fs]; [split; [constructor | by right]|].
    change (removelast (f :: f' :: fs)) with (f :: removelast (f' :: fs)) in Hd.
    apply Forall_cons in Hd as [? ?]. split; [done | by left]. }
  destruct Hd' as [Hd1 Hd2]. destruct (IH Hok Hd1) as (bs2 & Hw2 & _ & Hr).
  exists ((tb :: bs1) ++ bs2). split_and!; [by eapply writes_bind | done |].
  intros [|fuel] Hfuel; [simpl in Hfuel; lia|].
  assert (Hrest : delimited f \/ bs2 = []).
  { destruct Hd2 as [|E]; [by left|]. subst fs. right. by injection (Hw2 []). }
  specialize (Hp bs2 Hrest). simpl in Hfuel. rewrite length_app in Hfuel.
  change ((tb :: bs1) ++ bs2) with (tb :: bs1 ++ bs2) in *. cbn [read_frames].
  destruct (Z.eqb_spec tb 0); [done|].
  rewrite (run_bind_ok _ _ _ _ _ Hp), (run_bind_ok _ _ _ _ _ (Hr fuel ltac:(lia))). done.
Qed.

(** C22: what one side packs, the other unpacks.  For any AEAD whose [Open]
    inverts [Seal], the frames a packer writes into a packet (with only the last
    one allowed to omit its length) come out of the unpacker in the same order:
    each unchanged, up to what the wire format rounds (ACK delays and ranges
    that do not fit, path RTTs, addresses in 16 bytes). *)
Theorem Unpack_packed Seal Open version level ad hdr now fs :
  (forall payload pn ad, Open (Seal payload pn ad) pn ad = Ok (payload, level)) ->
  fs <> [] -> Forall (frame_ok hdr level) fs -> Forall delimited (removelast fs) ->
  exists payload, write_frames fs now version [] = (Ok tt, payload) /\
    Unpack Open version ad hdr (Seal payload (hdr_PacketNumber hdr) ad)
    = Ok (mkUnpackedPacket level (map (frame_on_wire now) fs)).
Proof.
  intros Hopen Hne Hok Hd.
  destruct (frames_roundtrip version hdr level now fs Hok Hd) as (bs & Hw & Hbs & Hr).
  exists bs. split; [apply Hw|]. unfold Unpack. rewrite Hopen.
  destruct (Z.eqb_spec (zlen bs) 0) as [E|_].
  { destruct bs; [by destruct Hbs | unfold zlen in E; simpl in E; lia]. }
  by rewrite Hr by lia.
Qed.

(** A cipher that can be undone: every byte masked with the packet number. *)
Definition seal_xor (payload : list Z) (pn : PacketNumber) (ad : list Z) : list Z :=
  map (Z.lxor pn) payload.
Definition open_xor (data : list Z) (pn : PacketNumber) (ad : list Z)
    : outcome (list Z * EncryptionLevel) := Ok (map (Z.lxor pn) data, EncryptionForwardSecure).

Lemma Unpack_packed_witness :
  let fs := [FStopWaiting (mkStopWaitingFrame 99990 2 100003); FPing mkPingFrame;
             FAck sample_ack; FStream (mkStreamFrame 5 true false 70000 [104; 105])] in
  exists payload, write_frames fs 905000 VersionMP [] = (Ok tt, payload) /\
    Unpack open_xor VersionMP [1; 2] sample_header (seal_xor payload (hdr_PacketNumber sample_header) [1; 2])
    = Ok (mkUnpackedPacket EncryptionForwardSecure (map (frame_on_wire 905000) fs)).
Proof.
  intros fs. apply (Unpack_packed seal_xor).
  - intros payload pn ad. unfold open_xor, seal_xor. do 2 f_equal. rewrite map_map.
    rewrite <- (map_id payload) at 2. apply map_ext. intros x.
    by rewrite <- Z.lxor_assoc, Z.lxor_nilpotent, Z.lxor_0_l.
  - done.
  - constructor; [|constructor; [done|constructor; [apply sample_ack_ok|constructor; [|constructor]]]].
    + simpl. split_and!; try done; try lia. by right; left.
    + simpl. split; [|done]. unfold StreamFrame_ok. simpl. split_and!; try done. by left.
  - repeat constructor.
Defined.
