(* ===== verification/AckRecv.v ===== *)
(** * Acknowledging received packets (ackhandler: received_packet_history.go,
    received_packet_handler.go)

    The history keeps the numbers of the received packets as intervals; the
    handler decides when an ACK is due and builds it from the history.  The
    abstract specification is a set of numbers and a lower limit. *)

From S2P Require Import Prelude Protocol ByteOrder WireFrames WireAck.

(** ** received_packet_history.go *)

Record PacketInterval := mkPacketInterval { pi_Start : PacketNumber; pi_End : PacketNumber }.

(** The linked list from [Back] to [Front]: the highest interval first. *)
Record receivedPacketHistory := mkHistory {
  hist_ranges : list PacketInterval;
  hist_lowestInReceivedPacketNumbers : PacketNumber
}.

Definition errTooManyOutstandingReceivedAckRanges : error :=
  qerr_Error TooManyOutstandingReceivedPackets "Too many outstanding received ACK ranges" [].

Definition newReceivedPacketHistory : receivedPacketHistory := mkHistory [] 0.

(** After an interval was extended: merge it with the one below if they touch. *)
Definition merge_ranges (el : PacketInterval) (below : list PacketInterval) : list PacketInterval :=
  match below with
  | prev :: rest =>
      if u64 (pi_End prev + 1) =? pi_Start el
      then mkPacketInterval (pi_Start prev) (pi_End el) :: rest
      else el :: below
  | [] => [el]
  end.

(** The loop from [Back] down; at the end a new interval goes to the front. *)
Fixpoint received_loop (p : PacketNumber) (ranges : list PacketInterval) : list PacketInterval :=
  match ranges with
  | [] => [mkPacketInterval p p]
  | el :: below =>
      if (pi_Start el <=? p) && (p <=? pi_End el) then ranges
      else if pi_End el =? u64 (p - 1)
      then merge_ranges (mkPacketInterval (pi_Start el) p) below
      else if pi_Start el =? u64 (p + 1)
      then merge_ranges (mkPacketInterval p (pi_End el)) below
      else if pi_End el <? p then mkPacketInterval p p :: ranges
      else el :: received_loop p below
  end.

Definition History_ReceivedPacket (h : receivedPacketHistory) (p : PacketNumber)
    : outcome unit * receivedPacketHistory :=
  if MaxTrackedReceivedAckRanges <=? zlen (hist_ranges h)
  then (Err errTooManyOutstandingReceivedAckRanges, h)
  else (Ok tt, mkHistory (received_loop p (hist_ranges h)) (hist_lowestInReceivedPacketNumbers h)).

(** The loop from [Front] up: the argument is the list from [Front] to [Back]. *)
Fixpoint delete_loop (p : PacketNumber) (ranges : list PacketInterval) : list PacketInterval :=
  match ranges with
  | [] => []
  | el :: above =>
      if (pi_Start el <=? p) && (p <? pi_End el)
      then mkPacketInterval (u64 (p + 1)) (pi_End el) :: delete_loop p above
      else if pi_End el <=? p then delete_loop p above
      else ranges
  end.

Definition History_DeleteUpTo (h : receivedPacketHistory) (p : PacketNumber) : receivedPacketHistory :=
  mkHistory (reverse (delete_loop p (reverse (hist_ranges h))))
    (Z.max (hist_lowestInReceivedPacketNumbers h) (u64 (p + 1))).

Definition to_AckRange (i : PacketInterval) : AckRange := mkAckRange (pi_Start i) (pi_End i).

Definition History_GetAckRanges (h : receivedPacketHistory) : list AckRange :=
  map to_AckRange (hist_ranges h).

Definition History_GetHighestAckRange (h : receivedPacketHistory) : AckRange :=
  match hist_ranges h with
  | [] => mkAckRange 0 0
  | r :: _ => to_AckRange r
  end.

(** ** received_packet_handler.go *)

Record receivedPacketHandler := mkReceivedPacketHandler {
  rph_largestObserved : PacketNumber;
  rph_lowerLimit : PacketNumber;
  rph_largestObservedReceivedTime : Time;
  rph_packetHistory : receivedPacketHistory;
  rph_ackSendDelay : Duration;
  rph_packetsReceivedSinceLastAck : Z;
  rph_retransmittablePacketsReceivedSinceLastAck : Z;
  rph_ackQueued : bool;
  rph_ackAlarm : Time;
  rph_lastAck : option AckFrame;
  rph_version : VersionNumber;
  rph_packets : Z
}.

Definition errInvalidPacketNumber : error := errors_New "ReceivedPacketHandler: Invalid packet number".

Definition NewReceivedPacketHandler (version : VersionNumber) : receivedPacketHandler :=
  mkReceivedPacketHandler 0 0 zeroTime newReceivedPacketHistory AckSendDelay 0 0 false zeroTime
    None version 0.

(** [now] is the time when the alarm is set. *)
Definition maybeQueueAck (h : receivedPacketHandler) (packetNumber : PacketNumber)
    (shouldInstigateAck : bool) (now : Time) : receivedPacketHandler :=
  let packetsSince := i64 (rph_packetsReceivedSinceLastAck h + 1) in
  let retransmittableSince :=
    if shouldInstigateAck then i64 (rph_retransmittablePacketsReceivedSinceLastAck h + 1)
    else rph_retransmittablePacketsReceivedSinceLastAck h in
  let queued := rph_ackQueued h in
  let queued := match rph_lastAck h with None => true | Some _ => queued end in
  let queued :=
    if (rph_version h <? Version39) && (MaxPacketsReceivedBeforeAckSend <=? packetsSince)
    then true else queued in
  let queued :=
    match rph_lastAck h with
    | Some lastAck => if packetNumber <? ack_LargestAcked lastAck then true else queued
    | None => queued
    end in
  let queued :=
    match rph_lastAck h with
    | Some lastAck =>
        if ack_LargestAcked lastAck <? First (History_GetHighestAckRange (rph_packetHistory h))
        then true else queued
    | None => queued
    end in
  let '(queued, alarm) :=
    if negb queued && shouldInstigateAck then
      if RetransmittablePacketsBeforeAck <=? retransmittableSince then (true, rph_ackAlarm h)
      else (queued, if Time_IsZero (rph_ackAlarm h) then Time_Add now (rph_ackSendDelay h)
                    else rph_ackAlarm h)
    else (queued, rph_ackAlarm h) in
  let alarm := if queued then zeroTime else alarm in
  mkReceivedPacketHandler (rph_largestObserved h) (rph_lowerLimit h)
    (rph_largestObservedReceivedTime h) (rph_packetHistory h) (rph_ackSendDelay h) packetsSince
    retransmittableSince queued alarm (rph_lastAck h) (rph_version h) (rph_packets h).

(** The method stores through its receiver before it can fail, so the handler is
    returned in every case. *)
Definition Handler_ReceivedPacket (h : receivedPacketHandler) (packetNumber : PacketNumber)
    (shouldInstigateAck : bool) (now now' : Time) : outcome unit * receivedPacketHandler :=
  if packetNumber =? 0 then (Err errInvalidPacketNumber, h)
  else
    let larger := rph_largestObserved h <? packetNumber in
    let h1 := mkReceivedPacketHandler
      (if larger then packetNumber else rph_largestObserved h) (rph_lowerLimit h)
      (if larger then now else rph_largestObservedReceivedTime h) (rph_packetHistory h)
      (rph_ackSendDelay h) (rph_packetsReceivedSinceLastAck h)
      (rph_retransmittablePacketsReceivedSinceLastAck h) (rph_ackQueued h) (rph_ackAlarm h)
      (rph_lastAck h) (rph_version h) (u64 (rph_packets h + 1)) in
    if packetNumber <=? rph_lowerLimit h1 then (Ok tt, h1)
    else
      let with_history hist :=
        mkReceivedPacketHandler (rph_largestObserved h1) (rph_lowerLimit h1)
          (rph_largestObservedReceivedTime h1) hist (rph_ackSendDelay h1)
          (rph_packetsReceivedSinceLastAck h1) (rph_retransmittablePacketsReceivedSinceLastAck h1)
          (rph_ackQueued h1) (rph_ackAlarm h1) (rph_lastAck h1) (rph_version h1) (rph_packets h1) in
      match History_ReceivedPacket (rph_packetHistory h1) packetNumber with
      | (Ok _, hist) => (Ok tt, maybeQueueAck (with_history hist) packetNumber shouldInstigateAck now')
      | (Err e, hist) => (Err e, with_history hist)
      | (Panic p, hist) => (Panic p, with_history hist)
      end.

Definition SetLowerLimit (h : receivedPacketHandler) (p : PacketNumber) : receivedPacketHandler :=
  mkReceivedPacketHandler (rph_largestObserved h) p (rph_largestObservedReceivedTime h)
    (History_DeleteUpTo (rph_packetHistory h) p) (rph_ackSendDelay h)
    (rph_packetsReceivedSinceLastAck h) (rph_retransmittablePacketsReceivedSinceLastAck h)
    (rph_ackQueued h) (rph_ackAlarm h) (rph_lastAck h) (rph_version h) (rph_packets h).

(** [None] is a nil frame; the index of the last range panics without ranges. *)
Definition GetAckFrame (h : receivedPacketHandler) (now : Time)
    : outcome (option AckFrame) * receivedPacketHandler :=
  if negb (rph_ackQueued h) && (Time_IsZero (rph_ackAlarm h) || Time_After (rph_ackAlarm h) now)
  then (Ok None, h)
  else
    let ackRanges := History_GetAckRanges (rph_packetHistory h) in
    match last ackRanges with
    | None => (Panic "index out of range", h)
    | Some lowest =>
        let ack := mkAckFrame 0 (rph_largestObserved h) (First lowest)
                     (if 1 <? zlen ackRanges then ackRanges else [])
                     (rph_largestObservedReceivedTime h) 0 in
        (Ok (Some ack),
         mkReceivedPacketHandler (rph_largestObserved h) (rph_lowerLimit h)
           (rph_largestObservedReceivedTime h) (rph_packetHistory h) (rph_ackSendDelay h) 0 0
           false zeroTime (Some ack) (rph_version h) (rph_packets h))
    end.

Definition GetClosePathFrame (h : receivedPacketHandler) : outcome ClosePathFrame :=
  let ackRanges := History_GetAckRanges (rph_packetHistory h) in
  match last ackRanges with
  | None => Panic "index out of range"
  | Some lowest =>
      Ok (mkClosePathFrame 0 (rph_largestObserved h) (First lowest)
            (if 1 <? zlen ackRanges then ackRanges else []))
  end.

Definition rph_GetAlarmTimeout (h : receivedPacketHandler) : Time := rph_ackAlarm h.
Definition rph_GetStatistics (h : receivedPacketHandler) : Z := rph_packets h.

(** ** The history is a set of packet numbers *)

(** Intervals below [b], the highest first, with a gap between any two. *)
Definition idesc (b : Z) (rs : list PacketInterval) : Prop := desc b (map to_AckRange rs).

Definition covered (rs : list PacketInterval) (q : PacketNumber) : Prop :=
  exists r, r ∈ rs /\ pi_Start r <= q <= pi_End r.

Lemma idesc_cons b r rs :
  idesc b (r :: rs) <->
  0 <= pi_Start r <= pi_End r /\ pi_End r < b /\ idesc (pi_Start r - 1) rs.
Proof. done. Qed.

Lemma covered_nil q : covered [] q <-> False.
Proof. split; [intros (r & Hr & _) | done]. by apply elem_of_nil in Hr. Qed.

Lemma covered_cons r rs q : covered (r :: rs) q <-> pi_Start r <= q <= pi_End r \/ covered rs q.
Proof.
  unfold covered. split.
  - intros (r' & [->|Hin]%elem_of_cons & Hq); eauto.
  - intros [Hq | (r' & Hin & Hq)]; [exists r | exists r']; rewrite elem_of_cons; auto.
Qed.

Lemma idesc_weaken b b' rs : idesc b rs -> b <= b' -> idesc b' rs.
Proof. apply desc_weaken. Qed.

Lemma covered_bound b rs q : idesc b rs -> covered rs q -> 0 <= q < b.
Proof.
  revert b. induction rs as [|r rs IH]; intros b; [by rewrite covered_nil|].
  rewrite idesc_cons, covered_cons. intros (H1 & H2 & H3) [Hq | Hq]; [lia|].
  specialize (IH _ H3 Hq). lia.
Qed.

(** Case analysis on [covered] of explicit lists, then arithmetic. *)
Ltac covered_tac := rewrite ?covered_cons, ?covered_nil; cbn [pi_Start pi_End]; intuition lia.

Lemma merge_ranges_spec b el below :
  0 <= pi_Start el <= pi_End el -> pi_End el < b -> b <= 2 ^ 63 -> idesc (pi_Start el) below ->
  idesc b (merge_ranges el below) /\
  forall q, covered (merge_ranges el below) q <-> covered (el :: below) q.
Proof.
  intros H1 H2 Hb Hd. unfold merge_ranges. destruct below as [|prev rest].
  { split; [by rewrite idesc_cons | done]. }
  rewrite idesc_cons in Hd. destruct Hd as (P1 & P2 & P3). rewrite u64_small by lia.
  destruct (Z.eqb_spec (pi_End prev + 1) (pi_Start el)).
  - split; [rewrite idesc_cons; simpl; split_and!; (done || lia)|]. intros q. covered_tac.
  - split; [|done]. rewrite !idesc_cons. split_and!; try done; lia.
Qed.

(** Receiving a number adds it to the set, whatever the order of arrival. *)
Lemma received_loop_spec b p rs :
  idesc b rs -> 1 <= p < b -> b <= 2 ^ 63 ->
  idesc b (received_loop p rs) /\ forall q, covered (received_loop p rs) q <-> covered rs q \/ q = p.
Proof.
  revert b. induction rs as [|el below IH]; intros b Hd Hp Hb.
  { cbn [received_loop]. split; [rewrite idesc_cons; simpl; split_and!; (done || lia)|].
    intros q. covered_tac. }
  pose proof Hd as Hd0. rewrite idesc_cons in Hd. destruct Hd as (E1 & E2 & E3). cbn [received_loop].
  rewrite (u64_small (p - 1)), (u64_small (p + 1)) by lia.
  destruct (Z.leb_spec (pi_Start el) p), (Z.leb_spec p (pi_End el)); simpl; try lia.
  - split; [done|]. intros q. rewrite covered_cons. intuition lia.
  - destruct (Z.eqb_spec (pi_End el) (p - 1)).
    { destruct (merge_ranges_spec b (mkPacketInterval (pi_Start el) p) below) as [M1 M2]; simpl; try lia.
      - eapply idesc_weaken; [done | lia].
      - split; [done|]. intros q. rewrite M2. covered_tac. }
    destruct (Z.eqb_spec (pi_Start el) (p + 1)); [lia|].
    destruct (Z.ltb_spec (pi_End el) p); [|lia].
    split; [|intros q; covered_tac]. rewrite idesc_cons. simpl. split_and!; try lia.
    rewrite idesc_cons. split_and!; (done || lia).
  - destruct (Z.eqb_spec (pi_End el) (p - 1)); [lia|].
    destruct (Z.eqb_spec (pi_Start el) (p + 1)).
    { destruct (merge_ranges_spec b (mkPacketInterval p (pi_End el)) below) as [M1 M2]; simpl; try lia.
      - eapply idesc_weaken; [done | lia].
      - split; [done|]. intros q. rewrite M2. covered_tac. }
    destruct (Z.ltb_spec (pi_End el) p); [lia|].
    destruct (IH (pi_Start el - 1)) as [I1 I2]; [done | lia | lia |].
    split; [rewrite idesc_cons; split_and!; (done || lia)|]. intros q. rewrite !covered_cons, I2. tauto.
Qed.

(** The same list from [Front]: intervals above [lo], the lowest first. *)
Fixpoint iasc (lo : Z) (rs : list PacketInterval) : Prop :=
  match rs with
  | [] => True
  | r :: above => lo < pi_Start r <= pi_End r /\ iasc (pi_End r + 1) above
  end.

Lemma iasc_weaken lo lo' rs : iasc lo rs -> lo' <= lo -> iasc lo' rs.
Proof. destruct rs; simpl; [done|]. intros [? ?] ?. split; [lia | done]. Qed.

Lemma iasc_snoc lo rs el :
  iasc lo rs -> Forall (fun r => pi_End r + 1 < pi_Start el) rs -> lo < pi_Start el <= pi_End el ->
  iasc lo (rs ++ [el]).
Proof.
  revert lo. induction rs as [|r rs IH]; intros lo; simpl; [done|].
  intros [H1 H2] [H3 H4]%Forall_cons H5. split; [done|]. apply IH; [done | done | lia].
Qed.

Lemma idesc_snoc b rs el :
  idesc b rs -> Forall (fun r => pi_End el + 1 < pi_Start r) rs ->
  0 <= pi_Start el <= pi_End el -> pi_End el < b -> idesc b (rs ++ [el]).
Proof.
  revert b. induction rs as [|r rs IH]; intros b; simpl; [by rewrite idesc_cons|].
  rewrite !idesc_cons. intros (H1 & H2 & H3) [H4 H5]%Forall_cons H6 H7.
  split_and!; try done; try lia. apply IH; (done || lia).
Qed.

Lemma idesc_ends b rs : idesc b rs -> Forall (fun r => pi_End r < b) rs.
Proof.
  revert b. induction rs as [|r rs IH]; intros b; [constructor|].
  rewrite idesc_cons. intros (H1 & H2 & H3). constructor; [done|].
  eapply Forall_impl; [apply (IH _ H3)|]. simpl. lia.
Qed.

Lemma idesc_reverse b rs : idesc b rs -> iasc (-1) (reverse rs).
Proof.
  revert b. induction rs as [|r rs IH]; intros b; [done|].
  rewrite idesc_cons, reverse_cons. intros (H1 & H2 & H3).
  apply iasc_snoc; [by eapply IH | | lia]. apply Forall_reverse.
  eapply Forall_impl; [apply (idesc_ends _ _ H3)|]. simpl. lia.
Qed.

Lemma iasc_starts lo rs : iasc lo rs -> Forall (fun r => lo < pi_Start r) rs.
Proof.
  revert lo. induction rs as [|r rs IH]; intros lo; simpl; [constructor|].
  intros [H1 H2]. constructor; [lia|]. eapply Forall_impl; [apply (IH _ H2)|]. simpl. lia.
Qed.

Lemma iasc_reverse b lo rs :
  iasc lo rs -> -1 <= lo -> Forall (fun r => pi_End r < b) rs -> idesc b (reverse rs).
Proof.
  revert lo. induction rs as [|r rs IH]; intros lo; [done|].
  simpl. rewrite reverse_cons. intros [H1 H2] Hlo [H3 H4]%Forall_cons.
  apply idesc_snoc; [by apply (IH (pi_End r + 1)); [|lia|] | | lia | done]. apply Forall_reverse.
  eapply Forall_impl; [apply (iasc_starts _ _ H2)|]. simpl. lia.
Qed.

Lemma delete_loop_spec b lo p rs :
  iasc lo rs -> -1 <= lo -> 0 <= p < 2 ^ 63 -> Forall (fun r => pi_End r < b) rs ->
  iasc lo (delete_loop p rs) /\ Forall (fun r => pi_End r < b) (delete_loop p rs) /\
  forall q, covered (delete_loop p rs) q <-> covered rs q /\ p < q.
Proof.
  intros Ha Hlo Hp. revert lo Hlo Ha.
  induction rs as [|r rs IH]; intros lo Hlo Ha Hb.
  { split_and!; try done. intros q. simpl. rewrite covered_nil. tauto. }
  destruct Ha as [H1 H2]. pose proof Hb as [H3 H4]%Forall_cons.
  destruct (IH (pi_End r + 1) ltac:(lia) H2 H4) as (I1 & I2 & I3). cbn [delete_loop].
  assert (Hq : forall q, covered rs q -> pi_End r + 1 < q).
  { intros q (r' & Hin & Hq). pose proof (iasc_starts _ _ H2) as Hs.
    rewrite Forall_forall in Hs. specialize (Hs r' Hin). simpl in Hs. lia. }
  rewrite (u64_small (p + 1)) by lia.
  destruct (Z.leb_spec (pi_Start r) p), (Z.ltb_spec p (pi_End r)); simpl.
  - split; [simpl; split; [lia | done] | split; [by constructor|]].
    intros q. rewrite !covered_cons, I3. simpl. specialize (Hq q). intuition lia.
  - destruct (Z.leb_spec (pi_End r) p); [|lia]. split; [eapply iasc_weaken; [done | lia] | split; [done|]].
    intros q. rewrite covered_cons, I3. specialize (Hq q). intuition lia.
  - destruct (Z.leb_spec (pi_End r) p); [lia|]. split; [by split | split; [done|]].
    intros q. rewrite covered_cons. specialize (Hq q). intuition lia.
  - lia.
Qed.

Lemma covered_reverse rs q : covered (reverse rs) q <-> covered rs q.
Proof. unfold covered. by setoid_rewrite elem_of_reverse. Qed.

(** Deleting removes exactly the numbers up to the limit. *)
Lemma DeleteUpTo_spec b p h :
  idesc b (hist_ranges h) -> 0 <= p < 2 ^ 63 ->
  idesc b (hist_ranges (History_DeleteUpTo h p)) /\
  forall q, covered (hist_ranges (History_DeleteUpTo h p)) q <-> covered (hist_ranges h) q /\ p < q.
Proof.
  intros Hd Hp. unfold History_DeleteUpTo. cbn [hist_ranges].
  destruct (delete_loop_spec b (-1) p (reverse (hist_ranges h))) as (D1 & D2 & D3); try done.
  - by eapply idesc_reverse.
  - apply Forall_reverse. by apply idesc_ends.
  - split; [by eapply iasc_reverse|]. intros q. rewrite covered_reverse, D3, covered_reverse. done.
Qed.

(** ** Specification: a set and a limit *)

Record ack_spec := mkAckSpec {
  sp_largest : PacketNumber;
  sp_limit : PacketNumber;
  sp_received : gset Z
}.

Inductive ack_event :=
  | EvReceive (p : PacketNumber) (retransmittable : bool) (now now' : Time)
  | EvLowerLimit (p : PacketNumber)
  | EvGetAck (now : Time).

Definition spec_step (s : ack_spec) (ev : ack_event) : ack_spec :=
  match ev with
  | EvReceive p _ _ _ =>
      mkAckSpec (Z.max (sp_largest s) p) (sp_limit s)
        (if decide (sp_limit s < p) then {[p]} ∪ sp_received s else sp_received s)
  | EvLowerLimit p => mkAckSpec (sp_largest s) p (filter (fun q => p < q) (sp_received s))
  | EvGetAck _ => s
  end.

Definition spec_run (evs : list ack_event) : ack_spec := foldl spec_step (mkAckSpec 0 0 ∅) evs.

(** A step of the handler; [None] when it returns an error or panics. *)
Definition handler_step (h : receivedPacketHandler) (ev : ack_event) : option receivedPacketHandler :=
  match ev with
  | EvReceive p r now now' =>
      match Handler_ReceivedPacket h p r now now' with
      | (Ok _, h') => Some h'
      | _ => None
      end
  | EvLowerLimit p => Some (SetLowerLimit h p)
  | EvGetAck now =>
      match GetAckFrame h now with
      | (Ok _, h') => Some h'
      | _ => None
      end
  end.

Definition handler_run (evs : list ack_event) (h : receivedPacketHandler)
    : option receivedPacketHandler := foldl (fun o ev => h ← o; handler_step h ev) (Some h) evs.

(** Packet numbers of at most 48 bits, and a lower limit below a packet that was
    received: a STOP_WAITING frame announces at most the number of its packet. *)
Definition event_ok (s : ack_spec) (ev : ack_event) : Prop :=
  match ev with
  | EvReceive p _ _ _ => 1 <= p < 2 ^ 48
  | EvLowerLimit p => 0 <= p < sp_largest s
  | EvGetAck _ => True
  end.

Fixpoint events_ok (s : ack_spec) (evs : list ack_event) : Prop :=
  match evs with
  | [] => True
  | ev :: evs' => event_ok s ev /\ events_ok (spec_step s ev) evs'
  end.

(** The handler represents the specification. *)
Record refines (h : receivedPacketHandler) (s : ack_spec) : Prop := {
  rf_largest : rph_largestObserved h = sp_largest s;
  rf_limit : rph_lowerLimit h = sp_limit s;
  rf_desc : idesc (2 ^ 48) (hist_ranges (rph_packetHistory h));
  rf_covered : forall q, covered (hist_ranges (rph_packetHistory h)) q <-> q ∈ sp_received s;
  rf_bounds : forall q, q ∈ sp_received s -> 1 <= q <= sp_largest s;
  rf_limit_below : 0 <= sp_limit s /\ (sp_largest s = 0 /\ sp_limit s = 0 \/ sp_limit s < sp_largest s);
  rf_nonempty : sp_largest s <> 0 -> sp_largest s ∈ sp_received s;
  rf_max : 0 <= sp_largest s < 2 ^ 48;
  rf_queued : rph_ackQueued h = true \/ rph_ackAlarm h <> 0 -> sp_largest s <> 0
}.

Lemma refines_new version : refines (NewReceivedPacketHandler version) (mkAckSpec 0 0 ∅).
Proof.
  split; simpl; try done; try lia.
  - intros q. rewrite covered_nil. set_solver.
  - by intros [|].
Qed.

Lemma maybeQueueAck_fields h p r now :
  rph_largestObserved (maybeQueueAck h p r now) = rph_largestObserved h /\
  rph_lowerLimit (maybeQueueAck h p r now) = rph_lowerLimit h /\
  rph_packetHistory (maybeQueueAck h p r now) = rph_packetHistory h.
Proof. unfold maybeQueueAck. by destruct (if negb _ && r then _ else _). Qed.

Lemma refines_receive h s p r now now' h' :
  refines h s -> 1 <= p < 2 ^ 48 -> Handler_ReceivedPacket h p r now now' = (Ok tt, h') ->
  refines h' (spec_step s (EvReceive p r now now')).
Proof.
  intros [R1 R2 R3 R4 R5 R6 R7 R8 R9] Hp. unfold Handler_ReceivedPacket.
  destruct (Z.eqb_spec p 0); [lia|]. cbv zeta. cbn [rph_lowerLimit rph_packetHistory].
  assert (Hmax : (if rph_largestObserved h <? p then p else rph_largestObserved h)
                 = Z.max (sp_largest s) p) by (rewrite R1; cases_bool; lia).
  destruct (Z.leb_spec p (rph_lowerLimit h)) as [Hl|Hl].
  - intros [= <-]. split; cbn; rewrite ?decide_False by lia; try done; try lia.
    + intros q Hq. specialize (R5 q Hq). lia.
    + intros _. replace (Z.max (sp_largest s) p) with (sp_largest s) by lia. apply R7. lia.
  - unfold History_ReceivedPacket. destruct (_ <=? _); [done|]. intros [= <-].
    destruct (received_loop_spec (2 ^ 48) p (hist_ranges (rph_packetHistory h)) R3 Hp) as [L1 L2]; [lia|].
    match goal with |- refines (maybeQueueAck ?h1 p r now') _ =>
      destruct (maybeQueueAck_fields h1 p r now') as (M1 & M2 & M3) end.
    split; rewrite ?M1, ?M2, ?M3; cbn; rewrite ?decide_True by lia; try done; try lia.
    + intros q. rewrite L2, R4, elem_of_union, elem_of_singleton. tauto.
    + intros q [->%elem_of_singleton | Hq]%elem_of_union; [lia|]. specialize (R5 q Hq). lia.
    + intros _. destruct (Z.max_spec (sp_largest s) p) as [[? ->]|[? ->]].
      { by apply elem_of_union_l, elem_of_singleton. }
      apply elem_of_union_r, R7. lia.
Qed.

Lemma refines_limit h s p :
  refines h s -> 0 <= p < sp_largest s -> refines (SetLowerLimit h p) (spec_step s (EvLowerLimit p)).
Proof.
  intros [R1 R2 R3 R4 R5 R6 R7 R8 R9] Hp.
  destruct (DeleteUpTo_spec (2 ^ 48) p (rph_packetHistory h) R3) as [D1 D2]; [lia|].
  split; cbn; try done; try lia.
  - intros q. rewrite D2, R4, elem_of_filter. tauto.
  - intros q [_ Hq]%elem_of_filter. by apply R5.
  - intros H. apply elem_of_filter. split; [lia | by apply R7].
Qed.

(** The first range ends at the largest number received. *)
Lemma refines_head h s : refines h s -> sp_largest s <> 0 ->
  exists r rs, hist_ranges (rph_packetHistory h) = r :: rs /\ pi_End r = sp_largest s.
Proof.
  intros [R1 R2 R3 R4 R5 R6 R7 R8 R9] Hl. specialize (R7 Hl). apply R4 in R7 as Hc.
  destruct (hist_ranges (rph_packetHistory h)) as [|r rs]; [by apply covered_nil in Hc|].
  exists r, rs. split; [done|]. rewrite idesc_cons in R3. destruct R3 as (H1 & H2 & H3).
  assert (He : pi_End r <= sp_largest s) by (apply R5, R4, covered_cons; lia).
  apply covered_cons in Hc as [Hc | Hc]; [lia|]. pose proof (covered_bound _ _ _ H3 Hc). lia.
Qed.

(** An ACK is only due after a packet was received. *)
Lemma refines_due h s now : refines h s ->
  negb (rph_ackQueued h) && (Time_IsZero (rph_ackAlarm h) || Time_After (rph_ackAlarm h) now) = false ->
  sp_largest s <> 0.
Proof.
  intros HR E. apply (rf_queued _ _ HR). apply andb_false_iff in E as [E|E].
  - left. by apply negb_false_iff.
  - right. apply orb_false_iff in E as [E _]. unfold Time_IsZero in E. by apply Z.eqb_neq.
Qed.

Lemma refines_no_panic h s now m h' : refines h s -> GetAckFrame h now <> (Panic m, h').
Proof.
  intros HR. unfold GetAckFrame. destruct (negb _ && _) eqn:E; [done|].
  destruct (refines_head h s HR) as (r & rs & Er & _); [by eapply refines_due|].
  unfold History_GetAckRanges. rewrite Er.
  destruct (last (map to_AckRange (r :: rs))) eqn:El; [done|]. by apply last_None in El.
Qed.

Lemma refines_get h s now : refines h s -> refines (snd (GetAckFrame h now)) s.
Proof.
  intros HR. unfold GetAckFrame. destruct (negb _ && _) eqn:E; [done|].
  destruct (last _) eqn:El; [|done]. destruct HR as [R1 R2 R3 R4 R5 R6 R7 R8 R9].
  split; cbn; try done. intros [|]; done.
Qed.

Lemma handler_step_refines h s ev h' :
  refines h s -> event_ok s ev -> handler_step h ev = Some h' -> refines h' (spec_step s ev).
Proof.
  intros HR Hok. destruct ev as [p r now now' | p | now]; simpl.
  - destruct (Handler_ReceivedPacket h p r now now') as [[[]|e|m] h1] eqn:E; [|done|done].
    intros [= <-]. by eapply refines_receive.
  - intros [= <-]. by apply refines_limit.
  - pose proof (refines_get h s now HR) as Hg.
    by destruct (GetAckFrame h now) as [[a|e|m] h1]; intros [= <-].
Qed.

Lemma handler_run_none evs : foldl (fun o ev => h ← o; handler_step h ev) None evs = None.
Proof. by induction evs. Qed.

Lemma handler_run_refines h s evs h' :
  refines h s -> events_ok s evs -> handler_run evs h = Some h' ->
  refines h' (foldl spec_step s evs).
Proof.
  unfold handler_run. revert h s. induction evs as [|ev evs IH]; intros h s HR; simpl.
  { by intros _ [= <-]. }
  intros [Hok Hoks] Hrun. destruct (handler_step h ev) as [h1|] eqn:E.
  - eapply IH; [by eapply handler_step_refines | done | done].
  - by rewrite handler_run_none in Hrun.
Qed.

(** The ranges of a frame built from the history. *)
Lemma refines_ranges h s : refines h s -> sp_largest s <> 0 ->
  let rs := History_GetAckRanges (rph_packetHistory h) in
  exists lowest, last rs = Some lowest /\
    ranges_ok (sp_largest s) (First lowest) (if 1 <? zlen rs then rs else []) /\
    forall q, acksPacket (First lowest) (sp_largest s) (if 1 <? zlen rs then rs else []) q = true
      <-> q ∈ sp_received s.
Proof.
  intros HR Hl. destruct (refines_head h s HR Hl) as (r & rs & Er & He).
  destruct HR as [R1 R2 R3 R4 R5 R6 R7 R8 R9]. unfold History_GetAckRanges. rewrite Er in *.
  pose proof R3 as (H1 & H2 & H3). cbn [map to_AckRange First Last] in *.
  assert (Hpos : 1 <= pi_Start r) by (apply R5, R4, covered_cons; lia).
  destruct rs as [|r1 rs].
  - eexists. split; [done|]. cbn.
    assert (Hok : ranges_ok (sp_largest s) (pi_Start r) []) by (split; lia).
    split; [done|]. intros q. rewrite <- R4, covered_cons, covered_nil.
    change (1 <? zlen [to_AckRange r]) with false. cbv iota.
    rewrite acksPacket_spec by (by apply ranges_ok_valid). lia.
  - destruct (last (map to_AckRange (r1 :: rs))) as [low|] eqn:E; [|by apply last_None in E].
    exists low. split; [by cbn [map]; rewrite last_cons_cons|].
    assert (Hn : (1 <? zlen (to_AckRange r :: map to_AckRange (r1 :: rs))) = true).
    { apply Z.ltb_lt. unfold zlen. simpl. lia. }
    rewrite Hn.
    assert (Hok : ranges_ok (sp_largest s) (First low) (to_AckRange r :: map to_AckRange (r1 :: rs))).
    { split; [lia|]. split_and!; try done; try (simpl; lia). by exists low. }
    split; [done|]. intros q. rewrite acksPacket_spec by (by apply ranges_ok_valid).
    rewrite <- R4. unfold in_range, covered. change (to_AckRange r :: map to_AckRange (r1 :: rs))
      with (to_AckRange <$> r :: r1 :: rs).
    setoid_rewrite list_elem_of_fmap. split.
    + intros (a & (i & -> & Hi) & Ha). by exists i.
    + intros (i & Hi & Ha). exists (to_AckRange i). split; [by exists i | done].
Qed.

(** C6: acknowledgements are exact.  After any sequence of received packets,
    lower limits (below a received packet, as STOP_WAITING frames announce them)
    and ACKs sent, if no error was returned: building an ACK or a CLOSE_PATH
    frame never indexes an empty history; the frame is well formed, so that it
    can be written; and it acknowledges exactly the packets received and not
    given up by a lower limit, in whatever order they arrived. *)
Theorem ack_frames_exact version evs h now :
  events_ok (mkAckSpec 0 0 ∅) evs ->
  handler_run evs (NewReceivedPacketHandler version) = Some h ->
  (forall m h', GetAckFrame h now <> (Panic m, h')) /\
  (forall ack h', GetAckFrame h now = (Ok (Some ack), h') ->
     AckFrame_ok ack /\
     forall q, AckFrame_AcksPacket ack q = true <-> q ∈ sp_received (spec_run evs)) /\
  (sp_received (spec_run evs) <> ∅ ->
     exists f, GetClosePathFrame h = Ok f /\ ClosePathFrame_ok f /\
     forall q, ClosePathFrame_AcksPacket f q = true <-> q ∈ sp_received (spec_run evs)).
Proof.
  intros Hok Hrun. pose proof (handler_run_refines _ _ _ _ (refines_new version) Hok Hrun) as HR.
  fold (spec_run evs) in HR. set (s := spec_run evs) in *. split_and!.
  - intros m h'. by eapply refines_no_panic.
  - intros ack h'. unfold GetAckFrame. destruct (negb _ && _) eqn:E; [done|].
    destruct (refines_ranges h s HR) as (low & Hlast & Hr & Hacks).
    { by eapply refines_due. }
    rewrite Hlast, (rf_largest _ _ HR). intros [= <- <-]. split; [by split | done].
  - intros Hne. apply set_choose_L in Hne as [x Hx].
    destruct (refines_ranges h s HR) as (low & Hlast & Hr & Hacks).
    { pose proof (rf_bounds _ _ HR x Hx). lia. }
    unfold GetClosePathFrame. rewrite Hlast, (rf_largest _ _ HR).
    eexists. split; [done|]. split; [by split | done].
Qed.

Definition sample_events : list ack_event :=
  [EvReceive 1 true 10 10; EvReceive 3 false 20 20; EvReceive 5 true 30 30; EvGetAck 40;
   EvReceive 4 true 50 50; EvLowerLimit 1; EvReceive 9 true 60 60].

Lemma ack_frames_exact_witness :
  exists h, handler_run sample_events (NewReceivedPacketHandler VersionMP) = Some h /\
    forall m h', GetAckFrame h 70 <> (Panic m, h').
Proof.
  eexists. split; [vm_compute; reflexivity|].
  eapply (ack_frames_exact VersionMP sample_events).
  - simpl. lia.
  - vm_compute. reflexivity.
Defined.

(** A path on which nothing was received yet cannot be closed with a frame: the
    index of the last range is out of range. *)
Lemma GetClosePathFrame_fresh version :
  GetClosePathFrame (NewReceivedPacketHandler version) = Panic "index out of range".
Proof. done. Qed.
