(* ===== verification/MinMax.v ===== *)
(** * internal/utils/minmax.go

    The comparison helpers, one per Go type.  The operands are already values of
    their type, so no helper wraps around except [AbsDuration], whose negation
    of the smallest duration is itself. *)

From S2P Require Import Prelude Protocol.

Definition InfDuration : Duration := maxDuration.

Definition Max (a b : Z) : Z := if a <? b then b else a.
Definition MaxUint32 (a b : Z) : Z := if a <? b then b else a.
Definition MaxUint64 (a b : Z) : Z := if a <? b then b else a.
Definition MinUint64 (a b : Z) : Z := if a <? b then a else b.
Definition Min (a b : Z) : Z := if a <? b then a else b.
Definition MinUint32 (a b : Z) : Z := if a <? b then a else b.
Definition MinInt64 (a b : Z) : Z := if a <? b then a else b.
Definition MaxInt64 (a b : Z) : Z := if b <? a then a else b.
Definition MinByteCount (a b : ByteCount) : ByteCount := if a <? b then a else b.
Definition utils_MaxByteCount (a b : ByteCount) : ByteCount := if b <? a then a else b.
Definition MaxDuration (a b : Duration) : Duration := if b <? a then a else b.
Definition MinDuration (a b : Duration) : Duration := if b <? a then b else a.
Definition AbsDuration (d : Duration) : Duration := if 0 <=? d then d else i64 (- d).
Definition MinTime (a b : Time) : Time := if Time_After a b then b else a.
Definition MaxTime (a b : Time) : Time := if Time_After a b then a else b.
Definition MaxPacketNumber (a b : PacketNumber) : PacketNumber := if b <? a then a else b.
Definition MinPacketNumber (a b : PacketNumber) : PacketNumber := if a <? b then a else b.

Ltac minmax :=
  unfold Max, MaxUint32, MaxUint64, MinUint64, Min, MinUint32, MinInt64, MaxInt64, MinByteCount,
    utils_MaxByteCount, MaxDuration, MinDuration, MinTime, MaxTime, Time_After, MaxPacketNumber,
    MinPacketNumber in *;
  cases_bool; try lia.

(** All of them are the maximum or the minimum of the integers, so [lia]
    decides goals about them once they are rewritten. *)
Lemma Max_max a b : Max a b = Z.max a b.
Proof. minmax. Qed.
Lemma Min_min a b : Min a b = Z.min a b.
Proof. minmax. Qed.
Lemma MinUint64_min a b : MinUint64 a b = Z.min a b.
Proof. minmax. Qed.
Lemma MinUint32_min a b : MinUint32 a b = Z.min a b.
Proof. minmax. Qed.
Lemma MaxUint32_max a b : MaxUint32 a b = Z.max a b.
Proof. minmax. Qed.
Lemma MinInt64_min a b : MinInt64 a b = Z.min a b.
Proof. minmax. Qed.
Lemma MaxInt64_max a b : MaxInt64 a b = Z.max a b.
Proof. minmax. Qed.
Lemma MinByteCount_min a b : MinByteCount a b = Z.min a b.
Proof. minmax. Qed.
Lemma MaxByteCount_max a b : utils_MaxByteCount a b = Z.max a b.
Proof. minmax. Qed.
Lemma MaxDuration_max a b : MaxDuration a b = Z.max a b.
Proof. minmax. Qed.
Lemma MinDuration_min a b : MinDuration a b = Z.min a b.
Proof. minmax. Qed.
Lemma MinTime_min a b : MinTime a b = Z.min a b.
Proof. minmax. Qed.
Lemma MaxTime_max a b : MaxTime a b = Z.max a b.
Proof. minmax. Qed.
Lemma MaxPacketNumber_max a b : MaxPacketNumber a b = Z.max a b.
Proof. minmax. Qed.
Lemma MinPacketNumber_min a b : MinPacketNumber a b = Z.min a b.
Proof. minmax. Qed.

#[export] Hint Rewrite Max_max Min_min MinUint32_min MaxUint32_max MinUint64_min MinInt64_min MaxInt64_max MinByteCount_min
  MaxByteCount_max MaxDuration_max MinDuration_min MinTime_min MaxTime_max MaxPacketNumber_max
  MinPacketNumber_min : ints.

Lemma AbsDuration_abs d : minDuration < d <= maxDuration -> AbsDuration d = Z.abs d.
Proof.
  unfold AbsDuration, minDuration, maxDuration. intros H.
  destruct (Z.leb_spec 0 d); [lia|]. rewrite i64_small by lia. lia.
Qed.
