(* ===== verification/Float.v ===== *)
(** * Floating point arithmetic

    The Go types [float32] and [float64] are IEEE 754 binary32 and binary64: a
    float is a [spec_float] of the Standard Library, an operation rounds to
    nearest even at the precision of the type, a conversion to an integer drops
    the fraction.  The second half shows when the arithmetic is exact: a result
    that fits in the precision is not rounded.  The components that compute
    round trip times in floats get their integer formulas from it. *)

From Stdlib Require Import SpecFloat.
From S2P Require Import Prelude.

Abbreviation float32 := spec_float (only parsing).
Abbreviation float64 := spec_float (only parsing).

Definition f32_of_Z (z : Z) : float32 := binary_normalize 24 128 z 0 false.
Definition f32_add : float32 -> float32 -> float32 := SFadd 24 128.
Definition f32_sub : float32 -> float32 -> float32 := SFsub 24 128.
Definition f32_mul : float32 -> float32 -> float32 := SFmul 24 128.
Definition f32_div : float32 -> float32 -> float32 := SFdiv 24 128.

(** The constant [n / d] of a [float32] declaration, rounded once. *)
Definition f32_const (n d : Z) : float32 := f32_div (f32_of_Z n) (f32_of_Z d).

Definition f64_of_Z (z : Z) : float64 := binary_normalize 53 1024 z 0 false.
Definition f64_add : float64 -> float64 -> float64 := SFadd 53 1024.
Definition f64_sub : float64 -> float64 -> float64 := SFsub 53 1024.
Definition f64_mul : float64 -> float64 -> float64 := SFmul 53 1024.
Definition f64_div : float64 -> float64 -> float64 := SFdiv 53 1024.
Definition f64_ltb : float64 -> float64 -> bool := SFltb.
Definition f64_leb : float64 -> float64 -> bool := SFleb.
Definition f64_const (n d : Z) : float64 := f64_div (f64_of_Z n) (f64_of_Z d).

(** The integer part, towards zero.  The specification leaves the value of a
    conversion that does not fit open; on amd64 it is the smallest [int64], and
    so it is here. *)
Definition float_trunc (x : spec_float) : Z :=
  match x with
  | S754_finite s m e =>
      let v := if 0 <=? e then Z.pos m * 2 ^ e else Z.pos m / 2 ^ (- e) in
      if s then - v else v
  | S754_zero _ => 0
  | _ => minDuration
  end.

Definition float_to_i64 (x : spec_float) : Z :=
  let z := float_trunc x in
  if (minDuration <=? z) && (z <=? maxDuration) then z else minDuration.

Definition float_to_u64 (x : spec_float) : Z :=
  let z := float_trunc x in
  if (0 <=? z) && (z <? 2 ^ 64) then z else 2 ^ 63.

(** ** When nothing is rounded *)

Lemma digits2_log2 p : Z.pos (digits2_pos p) = Z.log2 (Z.pos p) + 1.
Proof.
  induction p as [p IH|p IH|]; cbn [digits2_pos]; [| |done].
  - rewrite Pos2Z.inj_succ, IH. change (Z.pos p~1) with (2 * Z.pos p + 1).
    rewrite Z.log2_succ_double by lia. lia.
  - rewrite Pos2Z.inj_succ, IH. change (Z.pos p~0) with (2 * Z.pos p).
    rewrite Z.log2_double by lia. lia.
Qed.

Lemma iter_xO p n : Z.pos (Pos.iter xO p n) = Z.pos p * 2 ^ Z.pos n.
Proof.
  induction n as [|n IH] using Pos.peano_ind; [simpl; lia|].
  rewrite Pos.iter_succ, Pos2Z.inj_succ, Z.pow_succ_r by lia.
  change (Z.pos (Pos.iter xO p n)~0) with (2 * Z.pos (Pos.iter xO p n)). lia.
Qed.

Lemma iter_pos_nat {A} (f : A -> A) n x : SpecFloat.iter_pos f n x = Nat.iter (Pos.to_nat n) f x.
Proof.
  revert x. induction n as [n IH|n IH|]; intros x; cbn [SpecFloat.iter_pos]; [| |done].
  - rewrite !IH, <- Nat.iter_add, Pos2Nat.inj_xI, Nat.iter_succ_r.
    f_equal. lia.
  - rewrite !IH, <- Nat.iter_add, Pos2Nat.inj_xO. f_equal. lia.
Qed.

Lemma shr_1_double m :
  0 < m -> shr_1 (Build_shr_record (2 * m) false false) = Build_shr_record m false false.
Proof. by destruct m. Qed.

Lemma shr_exact n m :
  0 < m ->
  Nat.iter n shr_1 (Build_shr_record (m * 2 ^ Z.of_nat n) false false)
    = Build_shr_record m false false.
Proof.
  intros Hm. induction n as [|n IH]; [by rewrite Z.mul_1_r|].
  rewrite Nat.iter_succ_r, Nat2Z.inj_succ, Z.pow_succ_r by lia.
  replace (m * (2 * 2 ^ Z.of_nat n)) with (2 * (m * 2 ^ Z.of_nat n)) by ring.
  rewrite shr_1_double by (apply Z.mul_pos_pos; lia). done.
Qed.

Section Exact.
Context (prec emax : Z) (Hprec : 0 < prec).

(** The float of value [M * 2 ^ e], for [M] below [2 ^ prec]. *)
Definition fl (M e : Z) : spec_float :=
  if 0 <? M
  then let k := prec - 1 - Z.log2 M in S754_finite false (Z.to_pos (M * 2 ^ k)) (e - k)
  else S754_zero false.

(** Neither an underflow nor an overflow. *)
Definition exp_ok (M e : Z) : Prop :=
  emin prec emax <= Z.log2 M + 1 + e - prec <= emax - prec.

Lemma log2_lt_prec M : 0 < M < 2 ^ prec -> 0 <= prec - 1 - Z.log2 M.
Proof. intros H. pose proof (proj1 (Z.log2_lt_pow2 M prec ltac:(lia))). lia. Qed.

Lemma shr_fexp_exact M n e :
  0 < M -> 0 <= n -> exp_ok M (e + n) -> 0 <= Z.log2 M + 1 + n - prec <= n ->
  shr_fexp prec emax (M * 2 ^ n) e loc_Exact
    = (Build_shr_record (M * 2 ^ (prec - 1 - Z.log2 M)) false false, e + n - (prec - 1 - Z.log2 M)).
Proof.
  intros HM Hn [He1 He2] Hk. set (k := prec - 1 - Z.log2 M) in *.
  assert (Hpos : 0 < M * 2 ^ n) by (apply Z.mul_pos_pos; lia).
  assert (Hd : Zdigits2 (M * 2 ^ n) = Z.log2 M + 1 + n).
  { destruct (M * 2 ^ n) as [|p|p] eqn:E; try lia. unfold Zdigits2.
    rewrite digits2_log2, <- E, Z.log2_mul_pow2 by lia. lia. }
  unfold shr_fexp, shr. rewrite Hd. unfold fexp. rewrite Z.max_l by lia.
  replace (M * 2 ^ n) with (M * 2 ^ k * 2 ^ (n - k))
    by (rewrite <- Z.mul_assoc, <- Z.pow_add_r by lia; do 2 f_equal; lia).
  replace (Z.log2 M + 1 + n + e - prec - e) with (n - k) by lia.
  destruct (n - k) as [|p|p] eqn:E; [| |lia]; cbn [shr_record_of_loc].
  - rewrite Z.mul_1_r. f_equal. lia.
  - assert (Hp : 0 < M * 2 ^ k) by (apply Z.mul_pos_pos; lia).
    pose proof (shr_exact (Pos.to_nat p) (M * 2 ^ k) Hp) as Hs. rewrite positive_nat_Z in Hs.
    rewrite iter_pos_nat, Hs. f_equal. lia.
Qed.

Lemma round_aux_exact M n e :
  0 < M < 2 ^ prec -> 0 <= n -> exp_ok M (e + n) -> prec <= Z.log2 M + 1 + n ->
  binary_round_aux prec emax false (M * 2 ^ n) e loc_Exact = fl M (e + n).
Proof.
  intros HM Hn He Hd. pose proof (log2_lt_prec M HM) as Hk.
  unfold binary_round_aux. rewrite shr_fexp_exact by (done || lia). cbn [shr_m loc_of_shr_record
    round_nearest_even].
  assert (0 < M * 2 ^ (prec - 1 - Z.log2 M)) by (apply Z.mul_pos_pos; lia).
  assert (E : Z.log2 (M * 2 ^ (prec - 1 - Z.log2 M)) = prec - 1)
    by (rewrite Z.log2_mul_pow2 by lia; lia).
  rewrite <- (Z.mul_1_r (M * _)). change 1 with (2 ^ 0) at 2.
  rewrite shr_fexp_exact; [|done|lia| |lia].
  2: { destruct He. unfold exp_ok. rewrite E. lia. }
  rewrite E, Z.sub_diag, Z.mul_1_r. unfold fl. destruct (Z.ltb_spec 0 M); [|lia]. cbn [shr_m].
  destruct (M * 2 ^ (prec - 1 - Z.log2 M)) as [|p|p] eqn:Ep; try lia.
  destruct He. destruct (Z.leb_spec (e + n - (prec - 1 - Z.log2 M) + 0 - 0) (emax - prec)); [|lia].
  simpl Z.to_pos. f_equal. lia.
Qed.

Lemma normalize_exact M n e :
  0 <= M < 2 ^ prec -> 0 <= n -> (0 < M -> exp_ok M (e + n)) ->
  binary_normalize prec emax (M * 2 ^ n) e false = fl M (e + n).
Proof.
  intros HM Hn He. destruct (Z.eq_dec M 0) as [->|Hz]; [done|].
  specialize (He ltac:(lia)). pose proof (log2_lt_prec M ltac:(lia)) as Hk.
  assert (0 < M * 2 ^ n) by (apply Z.mul_pos_pos; lia).
  destruct (M * 2 ^ n) as [|p|p] eqn:E; try lia. cbn [binary_normalize].
  unfold binary_round. rewrite digits2_log2, <- E, Z.log2_mul_pow2 by lia.
  unfold fexp. destruct He as [He1 He2]. rewrite Z.max_l by lia.
  unfold shl_align. destruct (n + Z.log2 M + 1 + e - prec - e) as [|d|d] eqn:Ed; cbv beta iota.
  - rewrite <- E. apply round_aux_exact; [lia..|split; lia|lia].
  - rewrite <- E. apply round_aux_exact; [lia..|split; lia|lia].
  - rewrite iter_xO, <- E, <- Z.mul_assoc, <- Z.pow_add_r by lia.
    rewrite round_aux_exact; [f_equal; lia|lia|lia|split; lia|lia].
Qed.

Lemma fl_shift M n e : 0 < M -> 0 <= n -> Z.log2 M + n < prec -> fl (M * 2 ^ n) e = fl M (e + n).
Proof.
  intros HM Hn Hl. assert (0 < M * 2 ^ n) by (apply Z.mul_pos_pos; lia).
  unfold fl. destruct (Z.ltb_spec 0 (M * 2 ^ n)), (Z.ltb_spec 0 M); try lia.
  rewrite Z.log2_mul_pow2 by lia. rewrite <- Z.mul_assoc, <- Z.pow_add_r by lia.
  f_equal; [|lia]. do 3 f_equal. lia.
Qed.

Lemma fl_mul M N e f :
  0 <= M < 2 ^ prec -> 0 <= N < 2 ^ prec -> M * N < 2 ^ prec -> (0 < M * N -> exp_ok (M * N) (e + f)) ->
  SFmul prec emax (fl M e) (fl N f) = fl (M * N) (e + f).
Proof.
  intros HM HN HMN He. unfold fl at 1 2.
  destruct (Z.ltb_spec 0 M), (Z.ltb_spec 0 N); cbn [SFmul xorb].
  2-4: unfold fl; destruct (Z.ltb_spec 0 (M * N)); [nia|done].
  pose proof (log2_lt_prec M ltac:(lia)). pose proof (log2_lt_prec N ltac:(lia)).
  set (k := prec - 1 - Z.log2 M) in *. set (l := prec - 1 - Z.log2 N) in *.
  assert (0 < M * 2 ^ k) by (apply Z.mul_pos_pos; lia).
  assert (0 < N * 2 ^ l) by (apply Z.mul_pos_pos; lia).
  rewrite Pos2Z.inj_mul, !Z2Pos.id by lia.
  replace (M * 2 ^ k * (N * 2 ^ l)) with (M * N * 2 ^ (k + l)) by (rewrite Z.pow_add_r by lia; ring).
  pose proof (Z.log2_mul_below M N ltac:(lia) ltac:(lia)).
  rewrite round_aux_exact; [f_equal; lia| |lia| |lia].
  - split; [by apply Z.mul_pos_pos|done].
  - replace (e - k + (f - l) + (k + l)) with (e + f) by lia. apply He. by apply Z.mul_pos_pos.
Qed.

Lemma fst_shl_align M k ex ez :
  0 < M -> 0 <= k -> ez <= ex ->
  Z.pos (fst (shl_align (Z.to_pos (M * 2 ^ k)) ex ez)) = M * 2 ^ (k + (ex - ez)).
Proof.
  intros HM Hk Hez. assert (0 < M * 2 ^ k) by (apply Z.mul_pos_pos; lia).
  unfold shl_align. destruct (ez - ex) as [|d|d] eqn:E; [| lia |]; cbn [fst].
  - rewrite Z2Pos.id by lia. do 2 f_equal. lia.
  - rewrite iter_xO, Z2Pos.id, <- Z.mul_assoc, <- Z.pow_add_r by lia. do 2 f_equal. lia.
Qed.

(** Sums of floats with the same unit. *)
Lemma fl_add M N e :
  0 <= M -> 0 <= N -> M + N < 2 ^ prec -> (0 < M + N -> exp_ok (M + N) e) ->
  SFadd prec emax (fl M e) (fl N e) = fl (M + N) e.
Proof.
  intros HM HN HMN He. unfold fl at 1 2.
  destruct (Z.ltb_spec 0 M), (Z.ltb_spec 0 N); cbn [SFadd].
  2: { assert (N = 0) as -> by lia. rewrite Z.add_0_r. unfold fl. destruct (Z.ltb_spec 0 M); [done|lia]. }
  2: { assert (M = 0) as -> by lia. rewrite Z.add_0_l. unfold fl. destruct (Z.ltb_spec 0 N); [done|lia]. }
  2: { assert (M = 0) as -> by lia. assert (N = 0) as -> by lia. done. }
  pose proof (log2_lt_prec M ltac:(lia)). pose proof (log2_lt_prec N ltac:(lia)).
  set (k := prec - 1 - Z.log2 M) in *. set (l := prec - 1 - Z.log2 N) in *.
  cbn [cond_Zopp]. rewrite !fst_shl_align by lia.
  set (ez := Z.min (e - k) (e - l)).
  replace (k + (e - k - ez)) with (e - ez) by lia. replace (l + (e - l - ez)) with (e - ez) by lia.
  rewrite <- Z.mul_add_distr_r. rewrite normalize_exact; [f_equal; lia|lia|lia|].
  intros HP. replace (ez + (e - ez)) with e by lia. by apply He.
Qed.

Lemma fl_trunc M e : 0 <= M -> Z.log2 M < prec -> e <= 0 -> float_trunc (fl M e) = M / 2 ^ (- e).
Proof.
  intros HM Hl He. unfold fl, float_trunc. destruct (Z.ltb_spec 0 M) as [H0|H0].
  2: { assert (M = 0) as -> by lia. by rewrite Z.div_0_l by (apply Z.pow_nonzero; lia). }
  set (k := prec - 1 - Z.log2 M). assert (0 <= k) by lia.
  assert (0 < M * 2 ^ k) by (apply Z.mul_pos_pos; lia).
  rewrite Z2Pos.id by lia. destruct (Z.leb_spec 0 (e - k)).
  - assert (k = 0) as -> by lia. assert (e = 0) as -> by lia. by rewrite !Z.mul_1_r, Z.div_1_r.
  - replace (- (e - k)) with (- e + k) by lia. rewrite Z.pow_add_r by lia.
    rewrite Z.div_mul_cancel_r by (apply Z.pow_nonzero; lia). done.
Qed.
End Exact.

(** ** The two types *)

Lemma f32_of_Z_exact z : 0 <= z < 2 ^ 24 -> f32_of_Z z = fl 24 z 0.
Proof.
  intros Hz. unfold f32_of_Z. rewrite <- (Z.mul_1_r z) at 1.
  apply (normalize_exact 24 128 ltac:(lia) z 0 0); [done|lia|].
  intros Hp. pose proof (proj1 (Z.log2_lt_pow2 z 24 Hp)). pose proof (Z.log2_nonneg z).
  unfold exp_ok, emin. lia.
Qed.

Lemma f64_of_Z_exact z : 0 <= z < 2 ^ 53 -> f64_of_Z z = fl 53 z 0.
Proof.
  intros Hz. unfold f64_of_Z. rewrite <- (Z.mul_1_r z) at 1.
  apply (normalize_exact 53 1024 ltac:(lia) z 0 0); [done|lia|].
  intros Hp. pose proof (proj1 (Z.log2_lt_pow2 z 53 Hp)). pose proof (Z.log2_nonneg z).
  unfold exp_ok, emin. lia.
Qed.

(** An exact product or sum of [float32]s with at most 100 bits of fraction. *)
Lemma f32_mul_exact M N e f :
  0 <= M < 2 ^ 24 -> 0 <= N < 2 ^ 24 -> M * N < 2 ^ 24 -> -100 <= e + f <= 0 ->
  f32_mul (fl 24 M e) (fl 24 N f) = fl 24 (M * N) (e + f).
Proof.
  intros HM HN HMN He. apply fl_mul; try done. intros Hp.
  pose proof (proj1 (Z.log2_lt_pow2 (M * N) 24 Hp)). pose proof (Z.log2_nonneg (M * N)).
  unfold exp_ok, emin. lia.
Qed.

Lemma f32_add_exact M N e :
  0 <= M -> 0 <= N -> M + N < 2 ^ 24 -> -100 <= e <= 0 ->
  f32_add (fl 24 M e) (fl 24 N e) = fl 24 (M + N) e.
Proof.
  intros HM HN HMN He. apply fl_add; try done. intros Hp.
  pose proof (proj1 (Z.log2_lt_pow2 (M + N) 24 Hp)). pose proof (Z.log2_nonneg (M + N)).
  unfold exp_ok, emin. lia.
Qed.

Lemma f64_mul_exact M N e f :
  0 <= M < 2 ^ 53 -> 0 <= N < 2 ^ 53 -> M * N < 2 ^ 53 -> -900 <= e + f <= 0 ->
  f64_mul (fl 53 M e) (fl 53 N f) = fl 53 (M * N) (e + f).
Proof.
  intros HM HN HMN He. apply fl_mul; try done. intros Hp.
  pose proof (proj1 (Z.log2_lt_pow2 (M * N) 53 Hp)). pose proof (Z.log2_nonneg (M * N)).
  unfold exp_ok, emin. lia.
Qed.

Lemma float_to_i64_exact prec M e :
  0 <= M < 2 ^ prec -> 0 < prec <= 63 -> e <= 0 -> float_to_i64 (fl prec M e) = M / 2 ^ (- e).
Proof.
  intros HM Hp He. assert (Hl : Z.log2 M < prec).
  { destruct (Z.eq_dec M 0) as [->|]; [simpl; lia|]. apply Z.log2_lt_pow2; lia. }
  unfold float_to_i64. rewrite fl_trunc by (done || lia).
  assert (0 < 2 ^ (- e)) by (apply Z.pow_pos_nonneg; lia).
  assert (0 <= M / 2 ^ (- e)) by (apply Z.div_pos; lia).
  assert (M / 2 ^ (- e) <= M) by (apply Z.div_le_upper_bound; [lia|nia]).
  assert (2 ^ prec <= 2 ^ 63) by (apply Z.pow_le_mono_r; lia).
  unfold minDuration, maxDuration.
  destruct (Z.leb_spec (-9223372036854775808) (M / 2 ^ (- e))); [|lia].
  destruct (Z.leb_spec (M / 2 ^ (- e)) 9223372036854775807); [done|lia].
Qed.
