(* ===== verification/Rounding.v ===== *)
(** * Rounding does not cross an integer

    A float operation rounds its exact result to the nearest float.  An integer
    below [2 ^ prec] is a float itself, so a result on one side of it stays there:
    a product that is at most [C] is at most [C] after rounding, a quotient that is
    at least [C] is at least [C].  The congestion controllers scale windows with
    floats and get the bounds of their windows from these lemmas. *)

From Stdlib Require Import SpecFloat.
From S2P Require Import Prelude Float.

(** [m * 2 ^ e] is at most, at least, the integer [C]. *)
Definition at_most (C m e : Z) : Prop := e <= 0 /\ m <= C * 2 ^ (- e).
Definition at_least (C m e : Z) : Prop := if e <=? 0 then C * 2 ^ (- e) <= m else C <= m * 2 ^ e.

(** The same for a float that is not negative; an overflow is above every integer. *)
Definition float_le (x : spec_float) (C : Z) : bool :=
  match x with
  | S754_zero _ => 0 <=? C
  | S754_finite false m e => (e <=? 0) && (Z.pos m <=? C * 2 ^ (- e))
  | _ => false
  end.
Definition float_ge (x : spec_float) (C : Z) : bool :=
  match x with
  | S754_zero _ => C <=? 0
  | S754_finite false m e => if e <=? 0 then C * 2 ^ (- e) <=? Z.pos m else C <=? Z.pos m * 2 ^ e
  | S754_infinity false => true
  | _ => false
  end.

(** A positive finite float. *)
Definition float_pos (x : spec_float) : bool :=
  match x with S754_finite false _ _ => true | _ => false end.

Lemma at_least_nonpos C m e : e <= 0 -> at_least C m e <-> C * 2 ^ (- e) <= m.
Proof. intros H. unfold at_least. by destruct (Z.leb_spec e 0); [|lia]. Qed.

Lemma at_least_pos C m e : 0 < e -> at_least C m e <-> C <= m * 2 ^ e.
Proof. intros H. unfold at_least. by destruct (Z.leb_spec e 0); [lia|]. Qed.

Lemma float_le_trunc x C : float_le x C = true -> 0 <= float_trunc x <= C.
Proof.
  destruct x as [s| | |[] m e]; cbn [float_le float_trunc]; try done.
  { destruct (Z.leb_spec 0 C); [lia|done]. }
  intros [He%Z.leb_le Hm%Z.leb_le]%andb_prop.
  destruct (Z.leb_spec 0 e).
  - assert (e = 0) as -> by lia. simpl in Hm. lia.
  - assert (0 < 2 ^ (- e)) by (apply Z.pow_pos_nonneg; lia).
    split; [apply Z.div_pos; lia|]. apply Z.div_le_upper_bound; lia.
Qed.

Lemma float_le_u64 x C : float_le x C = true -> C < 2 ^ 64 -> 0 <= float_to_u64 x <= C.
Proof.
  intros H%float_le_trunc HC. unfold float_to_u64.
  destruct (Z.leb_spec 0 (float_trunc x)), (Z.ltb_spec (float_trunc x) (2 ^ 64)); cbn [andb]; lia.
Qed.

Lemma float_ge_u64 x C : float_ge x C = true -> 0 <= C <= 2 ^ 63 -> C <= float_to_u64 x.
Proof.
  intros H HC. unfold float_to_u64.
  destruct (Z.leb_spec 0 (float_trunc x)), (Z.ltb_spec (float_trunc x) (2 ^ 64)); cbn [andb]; try lia.
  destruct x as [s|[]| |[] m e]; cbn [float_ge float_trunc] in *; try done.
  { by apply Z.leb_le. }
  destruct (Z.leb_spec e 0) as [He|He]; apply Z.leb_le in H.
  - destruct (Z.leb_spec 0 e).
    + assert (e = 0) as -> by lia. simpl in *. lia.
    + apply Z.div_le_lower_bound; [apply Z.pow_pos_nonneg; lia|lia].
  - destruct (Z.leb_spec 0 e); lia.
Qed.

(** ** The shifts of the rounding *)

(** The integer above the exact value of a shift record. *)
Definition above (r : shr_record) : Z := shr_m r + Z.b2z (shr_r r || shr_s r).

Lemma shr_1_m r : 0 <= shr_m r -> shr_m (shr_1 r) = shr_m r / 2.
Proof.
  destruct r as [[|[p|p|]|p] r s]; cbn -[Z.div]; intros H; try lia; [done| | |done].
  - change (Z.pos p~1) with (2 * Z.pos p + 1). apply Z.div_unique with 1; lia.
  - change (Z.pos p~0) with (2 * Z.pos p). apply Z.div_unique with 0; lia.
Qed.

Lemma shr_1_above r : 0 <= shr_m r -> 2 * above (shr_1 r) <= above r + 1.
Proof.
  unfold above. destruct r as [[|[p|p|]|p] r s]; cbn; intros H; try lia; destruct r, s; cbn; lia.
Qed.

Lemma shr_iter_m n r : 0 <= shr_m r -> shr_m (Nat.iter n shr_1 r) = shr_m r / 2 ^ Z.of_nat n.
Proof.
  intros H. induction n as [|n IH]; [by rewrite Z.div_1_r|].
  change (Nat.iter (S n) shr_1 r) with (shr_1 (Nat.iter n shr_1 r)). assert (0 < 2 ^ Z.of_nat n) by (apply Z.pow_pos_nonneg; lia).
  rewrite shr_1_m by (rewrite IH; apply Z.div_pos; lia).
  rewrite IH, Z.div_div by lia. rewrite Nat2Z.inj_succ, Z.pow_succ_r by lia. f_equal. lia.
Qed.

Lemma shr_iter_above n r B :
  0 <= shr_m r -> above r <= B * 2 ^ Z.of_nat n -> above (Nat.iter n shr_1 r) <= B.
Proof.
  intros Hm. revert B. induction n as [|n IH]; intros B HB; [cbn in *; lia|].
  change (Nat.iter (S n) shr_1 r) with (shr_1 (Nat.iter n shr_1 r)). rewrite Nat2Z.inj_succ, Z.pow_succ_r in HB by lia.
  specialize (IH (B * 2)). assert (above (Nat.iter n shr_1 r) <= B * 2) by (apply IH; lia).
  pose proof (shr_1_above (Nat.iter n shr_1 r)) as H1.
  rewrite shr_iter_m in H1 by done.
  assert (0 < 2 ^ Z.of_nat n) by (apply Z.pow_pos_nonneg; lia).
  specialize (H1 ltac:(apply Z.div_pos; lia)). lia.
Qed.

Lemma shr_record_of_loc_m m l : shr_m (shr_record_of_loc m l) = m.
Proof. by destruct l as [|[]]. Qed.

Lemma round_nearest_even_bounds r :
  shr_m r <= round_nearest_even (shr_m r) (loc_of_shr_record r) <= above r.
Proof.
  unfold above. destruct r as [m [] []]; cbn; try lia.
  destruct (Z.even m); lia.
Qed.

Lemma Zdigits2_le m k : 0 <= m < 2 ^ k -> 0 <= k -> Zdigits2 m <= k.
Proof.
  intros Hm Hk. destruct m as [|p|p]; cbn [Zdigits2]; [lia| |lia].
  rewrite digits2_log2. pose proof (proj1 (Z.log2_lt_pow2 (Z.pos p) k ltac:(lia))). lia.
Qed.

Section Rounding.
Context (prec emax : Z) (Hprec : 0 < prec) (Hemax : prec <= emax) (Hemin : emin prec emax <= 0).

(** What [shr_fexp] does: nothing, or a shift by the number of excess digits. *)
Lemma shr_fexp_spec m e l r e' :
  0 <= m -> shr_fexp prec emax m e l = (r, e') ->
  exists n, e' = e + Z.of_nat n /\ r = Nat.iter n shr_1 (shr_record_of_loc m l)
            /\ (n = 0%nat \/ e' = fexp prec emax (Zdigits2 m + e)).
Proof.
  intros Hm. unfold shr_fexp, shr.
  destruct (fexp prec emax (Zdigits2 m + e) - e) as [|p|p] eqn:E; intros [= <- <-].
  - exists 0%nat. cbn. repeat split; [lia|by left].
  - exists (Pos.to_nat p). rewrite iter_pos_nat, positive_nat_Z. repeat split. right. lia.
  - exists 0%nat. cbn. repeat split; [lia|by left].
Qed.

Lemma shr_fexp_at_most C m e l r e' :
  0 <= m -> 0 <= C < 2 ^ prec ->
  at_most C (above (shr_record_of_loc m l)) e -> shr_fexp prec emax m e l = (r, e') ->
  0 <= shr_m r /\ at_most C (above r) e'.
Proof.
  intros Hm HC [He Ha] Hs. apply shr_fexp_spec in Hs as (n & He' & -> & Hn); [|done].
  assert (Hle : m <= above (shr_record_of_loc m l)) by (destruct l as [|[]]; unfold above; cbn; lia).
  assert (Hd : Zdigits2 m <= prec - e).
  { apply Zdigits2_le; [|lia]. split; [done|].
    replace (prec - e) with (prec + - e) by lia. rewrite Z.pow_add_r by lia.
    eapply Z.le_lt_trans; [exact Hle|]. eapply Z.le_lt_trans; [exact Ha|].
    apply Z.mul_lt_mono_pos_r; [apply Z.pow_pos_nonneg|]; lia. }
  assert (e' <= 0). { destruct Hn as [->|Hn]; [lia|]. rewrite Hn. unfold fexp. lia. }
  rewrite shr_iter_m by (by rewrite shr_record_of_loc_m).
  assert (0 < 2 ^ Z.of_nat n) by (apply Z.pow_pos_nonneg; lia).
  rewrite shr_record_of_loc_m. split; [apply Z.div_pos; lia|]. split; [lia|].
  apply shr_iter_above; [by rewrite shr_record_of_loc_m|].
  rewrite <- Z.mul_assoc, <- Z.pow_add_r by lia. by replace (- e' + Z.of_nat n) with (- e) by lia.
Qed.

Lemma Zdigits2_pow m : 0 < m -> 2 ^ (Zdigits2 m - 1) <= m < 2 ^ Zdigits2 m.
Proof.
  intros Hm. destruct m as [|p|p]; try lia. cbn [Zdigits2]. rewrite digits2_log2.
  pose proof (Z.log2_spec (Z.pos p) Hm). replace (Z.log2 (Z.pos p) + 1 - 1) with (Z.log2 (Z.pos p)) by lia.
  by rewrite Z.add_1_r.
Qed.

Lemma shr_fexp_at_least C m e l r e' :
  0 < m -> 0 <= C < 2 ^ prec ->
  at_least C m e -> shr_fexp prec emax m e l = (r, e') ->
  0 <= shr_m r /\ at_least C (shr_m r) e'.
Proof.
  intros Hm HC Ha Hs. apply shr_fexp_spec in Hs as (n & He' & -> & Hn); [|lia].
  rewrite shr_iter_m by (rewrite shr_record_of_loc_m; lia). rewrite shr_record_of_loc_m.
  assert (H2 : 0 < 2 ^ Z.of_nat n) by (apply Z.pow_pos_nonneg; lia).
  split; [apply Z.div_pos; lia|].
  destruct (Nat.eq_dec n 0) as [->|Hn0].
  { cbn. rewrite Z.div_1_r. by replace e' with e by lia. }
  destruct Hn as [Hn|Hn]; [done|].
  destruct (Z.leb_spec e' 0) as [He0|He0].
  - rewrite at_least_nonpos in * by lia. apply Z.div_le_lower_bound; [lia|].
    rewrite Z.mul_comm, <- Z.mul_assoc, <- Z.pow_add_r by lia.
    by replace (- e' + Z.of_nat n) with (- e) by lia.
  - rewrite at_least_pos by lia. unfold fexp in Hn.
    destruct (Zdigits2_pow m Hm) as [Hlo _].
    assert (Hq : 2 ^ (prec - 1) <= m / 2 ^ Z.of_nat n).
    { apply Z.div_le_lower_bound; [lia|]. rewrite <- Z.pow_add_r by lia.
      etransitivity; [|exact Hlo]. apply Z.pow_le_mono_r; lia. }
    assert (2 ^ 1 <= 2 ^ e') by (apply Z.pow_le_mono_r; lia).
    replace prec with (Z.succ (prec - 1)) in HC by lia. rewrite Z.pow_succ_r in HC by lia. nia.
Qed.

Lemma round_aux_at_most C m e l :
  0 <= m -> 0 <= C < 2 ^ prec ->
  at_most C (above (shr_record_of_loc m l)) e ->
  float_le (binary_round_aux prec emax false m e l) C = true.
Proof.
  intros Hm HC Ha. unfold binary_round_aux.
  destruct (shr_fexp prec emax m e l) as [r e'] eqn:E1.
  apply (shr_fexp_at_most C) in E1 as [Hr1 [He1 Ha1]]; [|done..].
  pose proof (round_nearest_even_bounds r) as Hb.
  set (m1 := round_nearest_even _ _) in *.
  destruct (shr_fexp prec emax m1 e' loc_Exact) as [r2 e2] eqn:E2.
  apply (shr_fexp_at_most C) in E2 as [Hr2 [He2 Ha2]]; [|lia|done|].
  2: { split; [done|]. unfold above. cbn. lia. }
  assert (shr_m r2 <= above r2) by (unfold above; destruct (shr_r r2 || shr_s r2); cbn; lia).
  destruct (shr_m r2) as [|p|p] eqn:Ep; [cbn [float_le]; apply Z.leb_le; lia| |lia].
  destruct (Z.leb_spec e2 (emax - prec)); [|lia]. cbn [float_le].
  apply andb_true_intro. split; apply Z.leb_le; lia.
Qed.

Lemma round_aux_at_least C m e l :
  0 < m -> 0 < C < 2 ^ prec -> at_least C m e ->
  float_ge (binary_round_aux prec emax false m e l) C = true.
Proof.
  intros Hm HC Ha. unfold binary_round_aux.
  destruct (shr_fexp prec emax m e l) as [r e'] eqn:E1.
  apply (shr_fexp_at_least C) in E1 as [Hr1 Ha1]; [|lia..|done].
  pose proof (round_nearest_even_bounds r) as Hb.
  set (m1 := round_nearest_even _ _) in *.
  assert (Hm1 : 0 < m1).
  { unfold at_least in Ha1. destruct (Z.leb_spec e' 0).
    - assert (0 < C * 2 ^ (- e')) by (apply Z.mul_pos_pos; lia). lia.
    - destruct (Z.eq_dec (shr_m r) 0) as [E|]; [rewrite E in Ha1|]; lia. }
  destruct (shr_fexp prec emax m1 e' loc_Exact) as [r2 e2] eqn:E2.
  apply (shr_fexp_at_least C) in E2 as [Hr2 Ha2]; [|lia..|].
  2: { unfold at_least in *. destruct (Z.leb_spec e' 0); [lia|]. nia. }
  unfold at_least in Ha2.
  destruct (shr_m r2) as [|p|p] eqn:Ep; [|destruct (e2 <=? emax - prec) |lia].
  - destruct (Z.leb_spec e2 0); [|lia].
    assert (0 < C * 2 ^ (- e2)) by (apply Z.mul_pos_pos; lia). lia.
  - cbn [float_ge]. destruct (e2 <=? 0); by apply Z.leb_le.
  - done.
Qed.

(** ** The operations *)

(** A factor that is at most one does not increase an integer. *)
Lemma SFmul_at_most M e y C :
  0 <= C < 2 ^ prec -> float_le y 1 = true -> at_most C (Z.pos M) e ->
  float_le (SFmul prec emax (S754_finite false M e) y) C = true.
Proof.
  intros HC Hy [He HM]. destruct y as [s| | |[] my ey]; try done.
  { cbn [SFmul float_le]. apply Z.leb_le. lia. }
  apply andb_prop in Hy as [Hey%Z.leb_le Hmy%Z.leb_le].
  cbn [SFmul xorb]. apply round_aux_at_most; [lia|done|]. split; [lia|]. unfold above; cbn [shr_record_of_loc shr_m shr_r shr_s orb Z.b2z]. rewrite Z.add_0_r.
  rewrite Pos2Z.inj_mul. replace (- (e + ey)) with (- e + - ey) by lia.
  rewrite Z.pow_add_r, Z.mul_assoc by lia. apply Z.mul_le_mono_nonneg; lia.
Qed.

Lemma normalize_at_least C z :
  0 < C < 2 ^ prec -> C <= z ->
  float_ge (binary_normalize prec emax z 0 false) C = true /\
  (float_pos (binary_normalize prec emax z 0 false) = true \/
   binary_normalize prec emax z 0 false = S754_infinity false).
Proof.
  intros HC Hz. destruct z as [|p|p]; [lia| |lia]. cbn [binary_normalize]. unfold binary_round.
  set (k := fexp _ _ _). unfold shl_align.
  assert (Hge : float_ge (let '(mz, ez) := match k - 0 with
      | Z.neg d => (Pos.iter xO p d, k) | _ => (p, 0) end in
      binary_round_aux prec emax false (Z.pos mz) ez loc_Exact) C = true).
  { destruct (k - 0) as [|d|d] eqn:Ed; cbv beta iota; apply round_aux_at_least; try done; try lia.
    - rewrite at_least_nonpos by lia. cbn. lia.
    - rewrite at_least_nonpos by lia. cbn. lia.
    - rewrite at_least_nonpos by lia. rewrite iter_xO. replace (- k) with (Z.pos d) by lia.
      apply Z.mul_le_mono_nonneg_r; [apply Z.pow_nonneg; lia|lia]. }
  split; [exact Hge|]. revert Hge. generalize (let '(mz, ez) := match k - 0 with
      | Z.neg d => (Pos.iter xO p d, k) | _ => (p, 0) end in
      binary_round_aux prec emax false (Z.pos mz) ez loc_Exact).
  intros [|[]| |[]]; cbn; try done; auto. intros H%Z.leb_le. lia.
Qed.

Lemma pow2_pos n : 0 <= n -> 0 < 2 ^ n.
Proof. intros H. by apply Z.pow_pos_nonneg. Qed.

(** [mx * 2 ^ ex] is at least [my * 2 ^ ey], with the exponents raised by [k]. *)
Lemma at_least_at_most A mx ex my ey k :
  at_least A mx ex -> at_most A my ey -> 0 <= k -> 0 <= ex - ey + k ->
  my * 2 ^ k <= mx * 2 ^ (ex - ey + k).
Proof.
  intros Hx [Hey Hy] Hk Hs. pose proof (pow2_pos k Hk) as Hpk.
  destruct (Z.leb_spec ex 0) as [Hex|Hex].
  - rewrite at_least_nonpos in Hx by done. apply Z.mul_le_mono_pos_r with (2 ^ (- ex)).
    { apply pow2_pos. lia. }
    rewrite <- (Z.mul_assoc mx), <- Z.pow_add_r by lia.
    replace (ex - ey + k + - ex) with (- ey + k) by lia. rewrite Z.pow_add_r by lia.
    pose proof (pow2_pos (- ex) ltac:(lia)). pose proof (pow2_pos (- ey) ltac:(lia)).
    transitivity (A * 2 ^ (- ey) * 2 ^ k * 2 ^ (- ex)).
    { apply Z.mul_le_mono_nonneg_r; [lia|]. apply Z.mul_le_mono_nonneg_r; lia. }
    replace (A * 2 ^ (- ey) * 2 ^ k * 2 ^ (- ex)) with (A * 2 ^ (- ex) * (2 ^ (- ey) * 2 ^ k)) by ring.
    apply Z.mul_le_mono_nonneg_r; [|done]. apply Z.mul_nonneg_nonneg; lia.
  - rewrite at_least_pos in Hx by done. rewrite !Z.pow_add_r by lia.
    replace (ex - ey) with (ex + - ey) by lia. rewrite Z.pow_add_r by lia.
    pose proof (pow2_pos (- ey) ltac:(lia)). rewrite !Z.mul_assoc.
    apply Z.mul_le_mono_nonneg_r; [lia|]. etransitivity; [exact Hy|].
    apply Z.mul_le_mono_nonneg_r; lia.
Qed.

Lemma div_core_at_least A mx ex my ey q e l :
  at_least A (Z.pos mx) ex -> at_most A (Z.pos my) ey ->
  SFdiv_core_binary prec emax (Z.pos mx) ex (Z.pos my) ey = (q, e, l) ->
  0 < q /\ at_least 1 q e.
Proof.
  intros Hx Hy. unfold SFdiv_core_binary.
  set (D := Zdigits2 (Z.pos mx) + ex - (Zdigits2 (Z.pos my) + ey)).
  set (e0 := Z.min (fexp prec emax D) (ex - ey)).
  assert (Hm' : match ex - ey - e0 with
                | Z0 => Z.pos mx | Z.pos _ => Z.shiftl (Z.pos mx) (ex - ey - e0) | Z.neg _ => 0 end
                = Z.pos mx * 2 ^ (ex - ey - e0)).
  { destruct (ex - ey - e0) eqn:E; [lia| |lia]. by rewrite Z.shiftl_mul_pow2. }
  rewrite Hm'. set (m' := Z.pos mx * 2 ^ (ex - ey - e0)).
  pose proof (Z.div_eucl_eq m' (Z.pos my) ltac:(lia)) as Heq.
  assert (Hq : fst (Z.div_eucl m' (Z.pos my)) = m' / Z.pos my) by done.
  destruct (Z.div_eucl m' (Z.pos my)) as [q' r']. cbn [fst] in Hq. intros [= <- <- <-].
  destruct (Z.leb_spec e0 0) as [He|He].
  - assert (2 ^ (- e0) <= q').
    { rewrite Hq. apply Z.div_le_lower_bound; [lia|].
      pose proof (at_least_at_most A (Z.pos mx) ex (Z.pos my) ey (- e0) Hx Hy ltac:(lia) ltac:(lia)).
      unfold m'. by replace (ex - ey - e0) with (ex - ey + - e0) by lia. }
    pose proof (pow2_pos (- e0) ltac:(lia)). split; [lia|]. rewrite at_least_nonpos by done. lia.
  - destruct (Zdigits2_pow (Z.pos mx) ltac:(lia)) as [Hxlo _].
    destruct (Zdigits2_pow (Z.pos my) ltac:(lia)) as [_ Hyhi].
    assert (HD : prec < D) by (unfold e0, fexp in He; lia).
    assert (1 <= q').
    { rewrite Hq. apply Z.div_le_lower_bound; [lia|]. rewrite Z.mul_1_r.
      transitivity (2 ^ (Zdigits2 (Z.pos mx) - 1) * 2 ^ (ex - ey - e0)).
      2: { unfold m'. apply Z.mul_le_mono_nonneg_r; [apply Z.pow_nonneg; lia|done]. }
      rewrite <- Z.pow_add_r by (unfold e0; cbn [Zdigits2]; lia).
      etransitivity; [apply Z.lt_le_incl; exact Hyhi|]. apply Z.pow_le_mono_r; [lia|].
      unfold e0, fexp, D in *. lia. }
    split; [lia|]. rewrite at_least_pos by done. pose proof (pow2_pos e0 ltac:(lia)). nia.
Qed.

(** A quotient of two floats with an integer between them is at least one. *)
Lemma SFdiv_at_least_one A x y :
  1 < prec -> float_ge x A = true -> float_pos x = true \/ x = S754_infinity false ->
  float_pos y = true -> float_le y A = true -> float_ge (SFdiv prec emax x y) 1 = true.
Proof.
  intros Hp Hx Hfx Hfy Hy. destruct y as [| | |[] my ey]; try done.
  destruct Hfx as [Hfx| ->]; [|done]. destruct x as [| | |[] mx ex]; try done.
  apply andb_prop in Hy as [Hey%Z.leb_le Hmy%Z.leb_le].
  cbn [SFdiv xorb].
  destruct (SFdiv_core_binary prec emax (Z.pos mx) ex (Z.pos my) ey) as [[q e] l] eqn:E.
  apply (div_core_at_least A) in E as [Hq Hl].
  - apply round_aux_at_least; [done| |done]. split; [lia|]. change 1 with (2 ^ 0).
    apply Z.pow_lt_mono_r; lia.
  - unfold at_least. cbn [float_ge] in Hx. destruct (ex <=? 0); by apply Z.leb_le.
  - by split.
Qed.
End Rounding.

(** ** [float32] *)

Lemma f32_mul_le C y :
  0 <= C < 2 ^ 24 -> float_le y 1 = true -> float_le (f32_mul (f32_of_Z C) y) C = true.
Proof.
  intros HC Hy. rewrite f32_of_Z_exact by done. unfold fl.
  destruct (Z.ltb_spec 0 C) as [H|H].
  - assert (HM : 0 < C * 2 ^ (24 - 1 - Z.log2 C)).
    { pose proof (log2_lt_prec 24 C ltac:(lia)). apply Z.mul_pos_pos; [lia|].
      by apply Z.pow_pos_nonneg. }
    pose proof (log2_lt_prec 24 C ltac:(lia)).
    apply SFmul_at_most; try done. split; [lia|]. rewrite Z2Pos.id by done.
    apply Z.eq_le_incl. do 2 f_equal. lia.
  - assert (C = 0) as -> by lia. destruct y as [| | |[]]; try done.
Qed.

(** [float32(a) / y] is at least one when an integer [A] is between [y] and [a]. *)
Lemma f32_div_ge_one a A y :
  0 < A < 2 ^ 24 -> A <= a -> float_pos y = true -> float_le y A = true ->
  1 <= float_to_u64 (f32_div (f32_of_Z a) y).
Proof.
  intros HA Ha Hp Hy. apply float_ge_u64; [|lia].
  destruct (normalize_at_least 24 128 ltac:(lia) ltac:(done) A a HA Ha) as [Hge Hfin].
  by apply (SFdiv_at_least_one 24 128 ltac:(lia) ltac:(done) A).
Qed.
