(* ===== verification/RttStats.v ===== *)
(** * congestion/rtt_stats.go: round trip time statistics

    The record of the statistics with its operations; the smoothed values are
    computed in [float32] as in the source, and the last section shows what the
    arithmetic gives in integers. *)

From Stdlib Require Import SpecFloat.
From S2P Require Import Prelude Protocol MinMax Float.

Definition initialRTTus : Z := 100 * 1000.
Definition rttAlpha : float32 := f32_const 1 8.
Definition oneMinusAlpha : float32 := f32_const 7 8.
Definition rttBeta : float32 := f32_const 1 4.
Definition oneMinusBeta : float32 := f32_const 3 4.
Definition halfWindow : float32 := f32_const 1 2.
Definition quarterWindow : float32 := f32_const 1 4.

Record rttSample := mkRttSample { rs_rtt : Duration; rs_time : Time }.

Record RTTStats := mkRTTStats {
  rtt_initialRTTus : Z;
  rtt_recentMinRTTwindow : Duration;
  rtt_minRTT : Duration;
  rtt_latestRTT : Duration;
  rtt_smoothedRTT : Duration;
  rtt_meanDeviation : Duration;
  rtt_numMinRTTsamplesRemaining : Z;
  rtt_newMinRTT : rttSample;
  rtt_recentMinRTT : rttSample;
  rtt_halfWindowRTT : rttSample;
  rtt_quarterWindowRTT : rttSample
}.

#[global] Instance eta_RTTStats : Eta RTTStats := fun r =>
  mkRTTStats (rtt_initialRTTus r) (rtt_recentMinRTTwindow r) (rtt_minRTT r) (rtt_latestRTT r)
    (rtt_smoothedRTT r) (rtt_meanDeviation r) (rtt_numMinRTTsamplesRemaining r) (rtt_newMinRTT r)
    (rtt_recentMinRTT r) (rtt_halfWindowRTT r) (rtt_quarterWindowRTT r).

Definition zeroSample : rttSample := mkRttSample 0 zeroTime.

Definition NewRTTStats : RTTStats :=
  mkRTTStats initialRTTus InfDuration 0 0 0 0 0 zeroSample zeroSample zeroSample zeroSample.

Definition RTTStats_InitialRTTus (r : RTTStats) : Z := rtt_initialRTTus r.
Definition MinRTT (r : RTTStats) : Duration := rtt_minRTT r.
Definition LatestRTT (r : RTTStats) : Duration := rtt_latestRTT r.
Definition RecentMinRTT (r : RTTStats) : Duration := rs_rtt (rtt_recentMinRTT r).
Definition SmoothedRTT (r : RTTStats) : Duration := rtt_smoothedRTT r.
Definition GetQuarterWindowRTT (r : RTTStats) : Duration := rs_rtt (rtt_quarterWindowRTT r).
Definition GetHalfWindowRTT (r : RTTStats) : Duration := rs_rtt (rtt_halfWindowRTT r).
Definition MeanDeviation (r : RTTStats) : Duration := rtt_meanDeviation r.

Definition SetRecentMinRTTwindow (r : RTTStats) (w : Duration) : RTTStats :=
  r <| rtt_recentMinRTTwindow := w |>.

(** The age at which a sample of the half or quarter window expires. *)
Definition window_fraction (r : RTTStats) (fraction : float32) : Duration :=
  i64 (i64 (- float_to_i64 (f32_mul (f32_of_Z (Z.quot (rtt_recentMinRTTwindow r) Microsecond))
                                    fraction)) * Microsecond).

Definition take_new_sample (r : RTTStats) (sample : Duration) (now : Time) : RTTStats :=
  if 0 <? rtt_numMinRTTsamplesRemaining r then
    let r := r <| rtt_numMinRTTsamplesRemaining := rtt_numMinRTTsamplesRemaining r - 1 |> in
    let r := if (rs_rtt (rtt_newMinRTT r) =? 0) || (sample <=? rs_rtt (rtt_newMinRTT r))
             then r <| rtt_newMinRTT := mkRttSample sample now |> else r in
    if rtt_numMinRTTsamplesRemaining r =? 0 then
      r <| rtt_recentMinRTT := rtt_newMinRTT r |> <| rtt_halfWindowRTT := rtt_newMinRTT r |>
        <| rtt_quarterWindowRTT := rtt_newMinRTT r |>
    else r
  else r.

Definition update_samples (r : RTTStats) (sample : Duration) (now : Time) : RTTStats :=
  let s := mkRttSample sample now in
  if (rs_rtt (rtt_recentMinRTT r) =? 0) || (sample <=? rs_rtt (rtt_recentMinRTT r)) then
    r <| rtt_recentMinRTT := s |> <| rtt_halfWindowRTT := s |> <| rtt_quarterWindowRTT := s |>
  else if sample <=? rs_rtt (rtt_halfWindowRTT r) then
    r <| rtt_halfWindowRTT := s |> <| rtt_quarterWindowRTT := s |>
  else if sample <=? rs_rtt (rtt_quarterWindowRTT r) then r <| rtt_quarterWindowRTT := s |>
  else r.

Definition expire_samples (r : RTTStats) (sample : Duration) (now : Time) : RTTStats :=
  let s := mkRttSample sample now in
  if Time_Before (rs_time (rtt_recentMinRTT r)) (Time_Add now (i64 (- rtt_recentMinRTTwindow r))) then
    r <| rtt_recentMinRTT := rtt_halfWindowRTT r |> <| rtt_halfWindowRTT := rtt_quarterWindowRTT r |>
      <| rtt_quarterWindowRTT := s |>
  else if Time_Before (rs_time (rtt_halfWindowRTT r)) (Time_Add now (window_fraction r halfWindow)) then
    r <| rtt_halfWindowRTT := rtt_quarterWindowRTT r |> <| rtt_quarterWindowRTT := s |>
  else if Time_Before (rs_time (rtt_quarterWindowRTT r)) (Time_Add now (window_fraction r quarterWindow))
  then r <| rtt_quarterWindowRTT := s |>
  else r.

Definition updateRecentMinRTT (r : RTTStats) (sample : Duration) (now : Time) : RTTStats :=
  expire_samples (update_samples (take_new_sample r sample now) sample now) sample now.

(** The two exponential averages, in microseconds. *)
Definition ewma_deviation (deviation distance : Duration) : Duration :=
  i64 (float_to_i64
    (f32_add (f32_mul oneMinusBeta (f32_of_Z (Z.quot deviation Microsecond)))
             (f32_mul rttBeta (f32_of_Z (Z.quot distance Microsecond)))) * Microsecond).

Definition ewma_rtt (smoothed sample : Duration) : Duration :=
  i64 (float_to_i64
    (f32_add (f32_mul (f32_of_Z (Z.quot smoothed Microsecond)) oneMinusAlpha)
             (f32_mul (f32_of_Z (Z.quot sample Microsecond)) rttAlpha)) * Microsecond).

Definition UpdateRTT (r : RTTStats) (sendDelta ackDelay : Duration) (now : Time) : RTTStats :=
  if (sendDelta =? InfDuration) || (sendDelta <=? 0) then r
  else
    let r := if (rtt_minRTT r =? 0) || (sendDelta <? rtt_minRTT r)
             then r <| rtt_minRTT := sendDelta |> else r in
    let r := updateRecentMinRTT r sendDelta now in
    let sample := if ackDelay <? sendDelta then i64 (sendDelta - ackDelay) else sendDelta in
    let r := r <| rtt_latestRTT := sample |> in
    if rtt_smoothedRTT r =? 0 then
      r <| rtt_smoothedRTT := sample |> <| rtt_meanDeviation := Z.quot sample 2 |>
    else
      let r := r <| rtt_meanDeviation :=
        ewma_deviation (rtt_meanDeviation r) (AbsDuration (i64 (rtt_smoothedRTT r - sample))) |> in
      r <| rtt_smoothedRTT := ewma_rtt (rtt_smoothedRTT r) sample |>.

Definition SampleNewRecentMinRTT (r : RTTStats) (numSamples : Z) : RTTStats :=
  r <| rtt_numMinRTTsamplesRemaining := numSamples |> <| rtt_newMinRTT := zeroSample |>.

Definition RTTStats_OnConnectionMigration (r : RTTStats) : RTTStats :=
  r <| rtt_latestRTT := 0 |> <| rtt_minRTT := 0 |> <| rtt_smoothedRTT := 0 |>
    <| rtt_meanDeviation := 0 |> <| rtt_initialRTTus := initialRTTus |>
    <| rtt_numMinRTTsamplesRemaining := 0 |> <| rtt_recentMinRTTwindow := InfDuration |>
    <| rtt_recentMinRTT := zeroSample |> <| rtt_halfWindowRTT := zeroSample |>
    <| rtt_quarterWindowRTT := zeroSample |>.

Definition ExpireSmoothedMetrics (r : RTTStats) : RTTStats :=
  let r := r <| rtt_meanDeviation :=
    MaxDuration (rtt_meanDeviation r) (AbsDuration (i64 (rtt_smoothedRTT r - rtt_latestRTT r))) |> in
  r <| rtt_smoothedRTT := MaxDuration (rtt_smoothedRTT r) (rtt_latestRTT r) |>.

Definition UpdateSessionRTT (r : RTTStats) (smoothedRTT : Duration) : RTTStats :=
  r <| rtt_smoothedRTT := smoothedRTT |>.

(** ** The arithmetic in integers

    Below 2^21 microseconds (two seconds) no operation of the averages rounds. *)

Definition exact_rtt (d : Duration) : Prop := 0 <= d < 2 ^ 21 * Microsecond.

Lemma exact_rtt_us d : exact_rtt d -> 0 <= Z.quot d Microsecond < 2 ^ 21.
Proof. unfold exact_rtt, Microsecond. glia. Qed.

Lemma ewma_rtt_exact s x :
  exact_rtt s -> exact_rtt x ->
  ewma_rtt s x = (7 * (s / Microsecond) + x / Microsecond) / 8 * Microsecond.
Proof.
  intros Hs Hx. unfold ewma_rtt.
  pose proof (exact_rtt_us s Hs) as Hs'. pose proof (exact_rtt_us x Hx) as Hx'.
  rewrite !f32_of_Z_exact by lia.
  change oneMinusAlpha with (fl 24 7 (-3)). change rttAlpha with (fl 24 1 (-3)).
  rewrite !f32_mul_exact, !Z.add_0_l, f32_add_exact, float_to_i64_exact by lia.
  change (2 ^ (- -3)) with 8. unfold exact_rtt, Microsecond in *.
  rewrite !Z.quot_div_nonneg in * by lia. rewrite i64_small by glia. glia.
Qed.

Lemma ewma_deviation_exact s x :
  exact_rtt s -> exact_rtt x ->
  ewma_deviation s x = (3 * (s / Microsecond) + x / Microsecond) / 4 * Microsecond.
Proof.
  intros Hs Hx. unfold ewma_deviation.
  pose proof (exact_rtt_us s Hs) as Hs'. pose proof (exact_rtt_us x Hx) as Hx'.
  rewrite !f32_of_Z_exact by lia.
  change oneMinusBeta with (fl 24 3 (-2)). change rttBeta with (fl 24 1 (-2)).
  rewrite !f32_mul_exact, !Z.add_0_r, f32_add_exact, float_to_i64_exact by lia.
  change (2 ^ (- -2)) with 4. unfold exact_rtt, Microsecond in *.
  rewrite !Z.quot_div_nonneg in * by lia. rewrite i64_small by glia. glia.
Qed.

(** What [updateRecentMinRTT] leaves alone. *)
Definition same_averages (r r' : RTTStats) : Prop :=
  rtt_minRTT r' = rtt_minRTT r /\ rtt_smoothedRTT r' = rtt_smoothedRTT r /\
  rtt_meanDeviation r' = rtt_meanDeviation r /\ rtt_latestRTT r' = rtt_latestRTT r.

#[global] Instance same_averages_po : PreOrder same_averages.
Proof.
  split; unfold same_averages; [done|].
  intros x y z (? & ? & ? & ?) (? & ? & ? & ?). split_and!; congruence.
Qed.

Lemma take_new_sample_averages r sample now : same_averages r (take_new_sample r sample now).
Proof.
  unfold take_new_sample. destruct (0 <? _); [|done]. cbv zeta.
  destruct (orb _ _); destruct (Z.eqb _ 0); by split_and!.
Qed.

Lemma update_samples_averages r sample now : same_averages r (update_samples r sample now).
Proof.
  unfold update_samples. destruct (orb _ _); [by split_and!|].
  destruct (Z.leb _ _); [by split_and!|]. destruct (Z.leb _ _); by split_and!.
Qed.

Lemma expire_samples_averages r sample now : same_averages r (expire_samples r sample now).
Proof.
  unfold expire_samples. destruct (Time_Before _ _); [by split_and!|].
  destruct (Time_Before _ _); [by split_and!|]. destruct (Time_Before _ _); by split_and!.
Qed.

Lemma updateRecentMinRTT_averages r sample now : same_averages r (updateRecentMinRTT r sample now).
Proof.
  unfold updateRecentMinRTT. etrans; [apply take_new_sample_averages|].
  etrans; [apply update_samples_averages|apply expire_samples_averages].
Qed.

(** ** Sequences of measurements *)

Record measurement := mkMeasurement {
  ms_sendDelta : Duration;
  ms_ackDelay : Duration;
  ms_now : Time
}.

Definition rtt_run (ms : list measurement) : RTTStats :=
  foldl (fun r m => UpdateRTT r (ms_sendDelta m) (ms_ackDelay m) (ms_now m)) NewRTTStats ms.

(** The measurements that are not ignored, and the round trip time they give. *)
Definition counted (m : measurement) : Prop := ms_sendDelta m <> InfDuration /\ 0 < ms_sendDelta m.

Definition corrected (m : measurement) : Duration :=
  if ms_ackDelay m <? ms_sendDelta m then i64 (ms_sendDelta m - ms_ackDelay m) else ms_sendDelta m.

Lemma UpdateRTT_ignored r m :
  ~ counted m -> UpdateRTT r (ms_sendDelta m) (ms_ackDelay m) (ms_now m) = r.
Proof.
  unfold counted, UpdateRTT. intros H. destruct (Z.eqb_spec (ms_sendDelta m) InfDuration); [done|].
  destruct (Z.leb_spec (ms_sendDelta m) 0); [done|]. exfalso. apply H. split; [done|lia].
Qed.

Lemma UpdateRTT_counted r m :
  counted m ->
  let r' := UpdateRTT r (ms_sendDelta m) (ms_ackDelay m) (ms_now m) in
  rtt_minRTT r' = (if (rtt_minRTT r =? 0) || (ms_sendDelta m <? rtt_minRTT r)
                   then ms_sendDelta m else rtt_minRTT r) /\
  rtt_latestRTT r' = corrected m /\
  rtt_smoothedRTT r' = (if rtt_smoothedRTT r =? 0 then corrected m
                        else ewma_rtt (rtt_smoothedRTT r) (corrected m)) /\
  rtt_meanDeviation r' =
    (if rtt_smoothedRTT r =? 0 then Z.quot (corrected m) 2
     else ewma_deviation (rtt_meanDeviation r) (AbsDuration (i64 (rtt_smoothedRTT r - corrected m)))).
Proof.
  intros [H1 H2]. unfold UpdateRTT.
  destruct (Z.eqb_spec (ms_sendDelta m) InfDuration); [done|].
  destruct (Z.leb_spec (ms_sendDelta m) 0); [lia|]. cbn [orb]. cbv zeta.
  fold (corrected m). set (r1 := if (rtt_minRTT r =? 0) || _ then _ else r).
  destruct (updateRecentMinRTT_averages r1 (ms_sendDelta m) (ms_now m)) as (E1 & E2 & E3 & E4).
  assert (F : rtt_smoothedRTT r1 = rtt_smoothedRTT r /\ rtt_meanDeviation r1 = rtt_meanDeviation r /\
    rtt_minRTT r1 = (if (rtt_minRTT r =? 0) || (ms_sendDelta m <? rtt_minRTT r)
                     then ms_sendDelta m else rtt_minRTT r))
    by (subst r1; destruct (orb _ _); done).
  destruct F as (F1 & F2 & F3). clearbody r1.
  set (r2 := updateRecentMinRTT r1 _ _) in *. clearbody r2. unfold assign.
  cbn [rtt_smoothedRTT rtt_meanDeviation rtt_minRTT rtt_latestRTT].
  rewrite E2, F1. destruct (Z.eqb_spec (rtt_smoothedRTT r) 0);
    cbn [rtt_smoothedRTT rtt_meanDeviation rtt_minRTT rtt_latestRTT];
    rewrite ?E1, ?E2, ?E3, ?F1, ?F2, ?F3; by split_and!.
Qed.

(** The minimum round trip time is the smallest measured one: after any
    sequence of measurements it is zero if all were ignored, and otherwise it is
    one of those that count and none of them is smaller. *)
Theorem minRTT_is_minimum ms :
  (Forall (fun m => ~ counted m) ms /\ MinRTT (rtt_run ms) = 0) \/
  ((exists m, m ∈ ms /\ counted m /\ MinRTT (rtt_run ms) = ms_sendDelta m) /\
   forall m, m ∈ ms -> counted m -> MinRTT (rtt_run ms) <= ms_sendDelta m).
Proof.
  unfold MinRTT, rtt_run. induction ms as [|m ms IH] using rev_ind; [by left|].
  rewrite foldl_app. cbn [foldl]. set (r := foldl _ _ ms) in *. clearbody r.
  destruct (decide (counted m)) as [Hc|Hc].
  - destruct (UpdateRTT_counted r m Hc) as (E & _). rewrite E. destruct Hc as [Hc1 Hc2]. right.
    destruct IH as [[Hall E0]|[(m' & Hin & [Hc1' Hc2'] & E0) Hmin]].
    + rewrite E0. cbn. split.
      * exists m. rewrite elem_of_app, list_elem_of_singleton. by repeat split; [right|..].
      * intros m' [Hm'|Hm'%list_elem_of_singleton]%elem_of_app; [|subst; lia].
        intros Hcm. by destruct (proj1 (Forall_forall _ _) Hall m' Hm').
    + rewrite E0 in *. destruct (Z.eqb_spec (ms_sendDelta m') 0); [lia|]. cbn [orb].
      destruct (Z.ltb_spec (ms_sendDelta m) (ms_sendDelta m')) as [Hlt|Hge]; split.
      * exists m. rewrite elem_of_app, list_elem_of_singleton. by repeat split; [right|..].
      * intros x [Hx|Hx%list_elem_of_singleton]%elem_of_app Hcx; [|subst; lia]. specialize (Hmin x Hx Hcx). lia.
      * exists m'. rewrite elem_of_app. by repeat split; [left|..].
      * intros x [Hx|Hx%list_elem_of_singleton]%elem_of_app Hcx; [|subst; lia]. by apply Hmin.
  - rewrite UpdateRTT_ignored by done. destruct IH as [[Hall E0]|[(m' & Hin & Hc' & E0) Hmin]].
    + left. split; [|done]. apply Forall_app. auto.
    + right. split; [exists m'; rewrite elem_of_app; auto|].
      intros x [Hx|Hx%list_elem_of_singleton]%elem_of_app Hcx; [by apply Hmin|by subst].
Qed.

Definition averages_within (lo hi : Duration) (r : RTTStats) : Prop :=
  lo <= SmoothedRTT r <= hi /\ 0 <= MeanDeviation r <= hi /\ lo <= LatestRTT r <= hi.

Lemma ewma_within lo hi s x :
  0 < lo -> lo mod Microsecond = 0 -> hi < 2 ^ 21 * Microsecond ->
  lo <= s <= hi -> lo <= x <= hi -> lo <= ewma_rtt s x <= hi.
Proof.
  intros Hlo Hm Hhi Hs Hx. rewrite ewma_rtt_exact by (unfold exact_rtt, Microsecond in *; lia).
  unfold Microsecond in *. glia.
Qed.

Lemma deviation_within hi d x :
  hi < 2 ^ 21 * Microsecond -> 0 <= d <= hi -> 0 <= x <= hi -> 0 <= ewma_deviation d x <= hi.
Proof.
  intros Hhi Hd Hx. rewrite ewma_deviation_exact by (unfold exact_rtt, Microsecond in *; lia).
  unfold Microsecond in *. glia.
Qed.

Lemma UpdateRTT_within lo hi r m :
  0 < lo -> lo mod Microsecond = 0 -> hi < 2 ^ 21 * Microsecond ->
  counted m -> lo <= corrected m <= hi -> rtt_smoothedRTT r = 0 \/ averages_within lo hi r ->
  averages_within lo hi (UpdateRTT r (ms_sendDelta m) (ms_ackDelay m) (ms_now m)).
Proof.
  intros Hlo Hm Hhi Hc Hb Hr. destruct (UpdateRTT_counted r m Hc) as (_ & E1 & E2 & E3).
  unfold averages_within, SmoothedRTT, MeanDeviation, LatestRTT in *. rewrite E1, E2, E3.
  destruct (Z.eqb_spec (rtt_smoothedRTT r) 0) as [Hz|Hz].
  - split_and!; try lia; Z.to_euclidean_division_equations; lia.
  - destruct Hr as [Hr|(Hs & Hd & Hl)]; [done|].
    assert (0 <= AbsDuration (i64 (rtt_smoothedRTT r - corrected m)) <= hi).
    { unfold Microsecond in *. rewrite i64_small by lia.
      rewrite AbsDuration_abs; unfold minDuration, maxDuration; lia. }
    pose proof (ewma_within lo hi (rtt_smoothedRTT r) (corrected m)).
    pose proof (deviation_within hi (rtt_meanDeviation r) _ ltac:(done) Hd ltac:(eassumption)). lia.
Qed.

(** the smoothed round trip time stays between the measurements.  If all
    measurements that count, corrected by the acknowledgement delay, lie between
    [lo] and [hi], with [lo] a positive number of microseconds and [hi] below
    2^21 microseconds, then so do the smoothed and the latest round trip time
    after any of them, and the mean deviation is at most [hi]: the [float32]
    averages neither drift out of the measured range nor round to zero. *)
Theorem smoothedRTT_within lo hi ms :
  0 < lo -> lo mod Microsecond = 0 -> hi < 2 ^ 21 * Microsecond ->
  (forall m, m ∈ ms -> counted m -> lo <= corrected m <= hi) ->
  (exists m, m ∈ ms /\ counted m) -> averages_within lo hi (rtt_run ms).
Proof.
  intros Hlo Hm Hhi Hall Hex.
  assert (H : (Forall (fun m => ~ counted m) ms /\ rtt_smoothedRTT (rtt_run ms) = 0)
    \/ averages_within lo hi (rtt_run ms)).
  { clear Hex. unfold rtt_run. induction ms as [|m ms IH] using rev_ind; [by left|].
    rewrite foldl_app. cbn [foldl]. set (r := foldl _ _ ms) in *. clearbody r.
    destruct IH as [[Hn E]|IH]; [by intros; apply Hall; [apply elem_of_app; left|]| |].
    all: destruct (decide (counted m)) as [Hc|Hc].
    all: try (right; apply UpdateRTT_within; try done; [|by auto];
              apply Hall; [apply elem_of_app; right; by apply list_elem_of_singleton|done]).
    1,2: rewrite UpdateRTT_ignored by done.
    2: by right.
    left. split; [apply Forall_app; auto|done]. }
  destruct H as [[Hn _]|H]; [|done]. destruct Hex as (m & Hin & Hc).
  by destruct (proj1 (Forall_forall _ _) Hn m Hin).
Qed.

Definition sample_measurements : list measurement :=
  [mkMeasurement (30 * Millisecond) (10 * Millisecond) 1000; mkMeasurement 0 0 2000;
   mkMeasurement (45 * Millisecond) 0 3000; mkMeasurement (25 * Millisecond) 0 4000].

Lemma smoothedRTT_within_witness :
  averages_within (20 * Millisecond) (45 * Millisecond) (rtt_run sample_measurements)
  /\ SmoothedRTT (rtt_run sample_measurements) = 23359 * Microsecond.
Proof.
  split; [|vm_compute; reflexivity].
  apply smoothedRTT_within; [done|done|done| |].
  - intros m Hm Hc. unfold sample_measurements in Hm. rewrite !elem_of_cons in Hm.
    destruct Hm as [->|[->|[->|[->|Hm]]]]; [done|by destruct Hc|done|done|by apply not_elem_of_nil in Hm].
  - eexists. split; [apply elem_of_cons; left; reflexivity|done].
Defined.
