(* ===== verification/SendAlgorithm.v ===== *)
(** * congestion/interface.go: what a congestion controller offers

    A controller is a type of states with the operations of the Go interface.
    The Go objects keep a pointer to the [RTTStats] of their path and a clock:
    here the statistics are an argument of the operations that read them, and
    [now] is the reading of the clock.  The sent packet handler is proved correct
    against this interface, for every implementation of it. *)

From S2P Require Import Prelude Protocol RttStats.

Class SendAlgorithm (C : Type) := mkSendAlgorithm {
  sa_TimeUntilSend (c : C) (now : Time) (bytesInFlight : ByteCount) : Duration;
  sa_OnPacketSent (c : C) (sentTime : Time) (bytesInFlight : ByteCount)
    (packetNumber : PacketNumber) (bytes : ByteCount) (isRetransmittable : bool) : bool * C;
  sa_GetCongestionWindow (c : C) : ByteCount;
  sa_MaybeExitSlowStart (c : C) (rttStats : RTTStats) : C;
  sa_OnPacketAcked (c : C) (rttStats : RTTStats) (now : Time) (number : PacketNumber)
    (ackedBytes bytesInFlight : ByteCount) : C;
  sa_OnPacketLost (c : C) (rttStats : RTTStats) (number : PacketNumber)
    (lostBytes bytesInFlight : ByteCount) : C;
  sa_SetNumEmulatedConnections (c : C) (n : Z) : C;
  sa_OnRetransmissionTimeout (c : C) (rttStats : RTTStats) (packetsRetransmitted : bool) : C;
  sa_OnConnectionMigration (c : C) (rttStats : RTTStats) : C;
  sa_RetransmissionDelay (c : C) (rttStats : RTTStats) : Duration;
  sa_SmoothedRTT (c : C) (rttStats : RTTStats) : Duration;
  sa_SetSlowStartLargeReduction (c : C) (enabled : bool) : C
}.

(** ** Runs

    The calls a connection makes to its controller, with the arguments the
    controller receives.  The windows of a controller are stated over every run. *)

Inductive sa_event :=
  | EvPacketSent (sentTime : Time) (bytesInFlight : ByteCount) (packetNumber : PacketNumber)
      (bytes : ByteCount) (isRetransmittable : bool)
  | EvMaybeExitSlowStart (rttStats : RTTStats)
  | EvPacketAcked (rttStats : RTTStats) (now : Time) (number : PacketNumber)
      (ackedBytes bytesInFlight : ByteCount)
  | EvPacketLost (rttStats : RTTStats) (number : PacketNumber) (lostBytes bytesInFlight : ByteCount)
  | EvSetNumEmulatedConnections (n : Z)
  | EvRetransmissionTimeout (rttStats : RTTStats) (packetsRetransmitted : bool)
  | EvConnectionMigration (rttStats : RTTStats)
  | EvSetSlowStartLargeReduction (enabled : bool).

Definition sa_apply `{SendAlgorithm C} (c : C) (e : sa_event) : C :=
  match e with
  | EvPacketSent t inFlight n bytes retr => snd (sa_OnPacketSent c t inFlight n bytes retr)
  | EvMaybeExitSlowStart r => sa_MaybeExitSlowStart c r
  | EvPacketAcked r now n bytes inFlight => sa_OnPacketAcked c r now n bytes inFlight
  | EvPacketLost r n bytes inFlight => sa_OnPacketLost c r n bytes inFlight
  | EvSetNumEmulatedConnections n => sa_SetNumEmulatedConnections c n
  | EvRetransmissionTimeout r retr => sa_OnRetransmissionTimeout c r retr
  | EvConnectionMigration r => sa_OnConnectionMigration c r
  | EvSetSlowStartLargeReduction b => sa_SetSlowStartLargeReduction c b
  end.

Definition sa_run `{SendAlgorithm C} (c : C) (es : list sa_event) : C := foldl sa_apply c es.

(** An invariant indexed by the number of calls so far. *)
Lemma sa_run_invariant `{SendAlgorithm C} (I : Z -> C -> Prop) (P : sa_event -> Prop) (bound : Z) c es :
  (forall k c e, 0 <= k < bound -> P e -> I k c -> I (k + 1) (sa_apply c e)) ->
  I 0 c -> Forall P es -> zlen es <= bound -> I (zlen es) (sa_run c es).
Proof.
  intros Hstep H0 HP. unfold sa_run. induction es as [|e es IH] using rev_ind; intros Hlen; [done|].
  apply Forall_app in HP as [HP He]. rewrite Forall_singleton in He.
  rewrite foldl_app, zlen_app in *. change (zlen [e]) with 1 in *. cbn [foldl].
  pose proof (zlen_nonneg es). apply Hstep; [lia|done|]. apply IH; [done|lia].
Qed.
