(* ===== verification/SlowStart.v ===== *)
(** * congestion/hybrid_slow_start.go, congestion/prr_sender.go

    The two helpers of a congestion controller: the detector that ends slow start
    when the delay grows, and proportional rate reduction, which paces the sender
    while it recovers from a loss.  The theorems give the condition under which a
    round of samples ends slow start, and the bound on what a sender that waits
    for PRR's permission sends during a recovery. *)

From S2P Require Import Prelude Protocol MinMax.

(** ** Hybrid slow start *)

Definition hybridStartLowWindow : ByteCount := 16.
Definition hybridStartMinSamples : Z := 8.
Definition hybridStartDelayFactorExp : Z := 3.
Definition hybridStartDelayMinThresholdUs : Z := 4000.
Definition hybridStartDelayMaxThresholdUs : Z := 16000.

Record HybridSlowStart := mkHybridSlowStart {
  hss_endPacketNumber : PacketNumber;
  hss_lastSentPacketNumber : PacketNumber;
  hss_started : bool;
  hss_currentMinRTT : Duration;
  hss_rttSampleCount : Z;
  hss_hystartFound : bool
}.

#[global] Instance eta_HybridSlowStart : Eta HybridSlowStart := fun s =>
  mkHybridSlowStart (hss_endPacketNumber s) (hss_lastSentPacketNumber s) (hss_started s)
    (hss_currentMinRTT s) (hss_rttSampleCount s) (hss_hystartFound s).

(** The zero value [HybridSlowStart{}]. *)
Definition zeroHybridSlowStart : HybridSlowStart := mkHybridSlowStart 0 0 false 0 0 false.

Definition StartReceiveRound (s : HybridSlowStart) (lastSent : PacketNumber) : HybridSlowStart :=
  s <| hss_endPacketNumber := lastSent |> <| hss_currentMinRTT := 0 |>
    <| hss_rttSampleCount := 0 |> <| hss_started := true |>.

Definition IsEndOfRound (s : HybridSlowStart) (ack : PacketNumber) : bool :=
  hss_endPacketNumber s <? ack.

(** The increase of the round trip time that ends slow start. *)
Definition minRTTincreaseThreshold (minRTT : Duration) : Duration :=
  let us := Z.shiftr (Z.quot minRTT Microsecond) hybridStartDelayFactorExp in
  let us := MinInt64 us hybridStartDelayMaxThresholdUs in
  i64 (MaxInt64 us hybridStartDelayMinThresholdUs * Microsecond).

Definition take_rtt_sample (s : HybridSlowStart) (latestRTT : Duration) : HybridSlowStart :=
  let s := s <| hss_rttSampleCount := u32 (hss_rttSampleCount s + 1) |> in
  if hss_rttSampleCount s <=? hybridStartMinSamples then
    if (hss_currentMinRTT s =? 0) || (latestRTT <? hss_currentMinRTT s)
    then s <| hss_currentMinRTT := latestRTT |> else s
  else s.

Definition check_delay_increase (s : HybridSlowStart) (minRTT : Duration) : HybridSlowStart :=
  if hss_rttSampleCount s =? hybridStartMinSamples then
    if i64 (minRTT + minRTTincreaseThreshold minRTT) <? hss_currentMinRTT s
    then s <| hss_hystartFound := true |> else s
  else s.

Definition ShouldExitSlowStart (s : HybridSlowStart) (latestRTT minRTT : Duration)
    (congestionWindow : ByteCount) : bool * HybridSlowStart :=
  let s := if hss_started s then s else StartReceiveRound s (hss_lastSentPacketNumber s) in
  if hss_hystartFound s then (true, s)
  else
    let s := check_delay_increase (take_rtt_sample s latestRTT) minRTT in
    ((hybridStartLowWindow <=? congestionWindow) && hss_hystartFound s, s).

Definition HybridSlowStart_OnPacketSent (s : HybridSlowStart) (packetNumber : PacketNumber) :
    HybridSlowStart :=
  s <| hss_lastSentPacketNumber := packetNumber |>.

Definition HybridSlowStart_OnPacketAcked (s : HybridSlowStart) (ackedPacketNumber : PacketNumber) :
    HybridSlowStart :=
  if IsEndOfRound s ackedPacketNumber then s <| hss_started := false |> else s.

Definition Started (s : HybridSlowStart) : bool := hss_started s.

Definition Restart (s : HybridSlowStart) : HybridSlowStart :=
  s <| hss_started := false |> <| hss_hystartFound := false |>.

(** ** Proportional rate reduction *)

Record PrrSender := mkPrrSender {
  prr_bytesSentSinceLoss : ByteCount;
  prr_bytesDeliveredSinceLoss : ByteCount;
  prr_ackCountSinceLoss : ByteCount;
  prr_bytesInFlightBeforeLoss : ByteCount
}.

#[global] Instance eta_PrrSender : Eta PrrSender := fun p =>
  mkPrrSender (prr_bytesSentSinceLoss p) (prr_bytesDeliveredSinceLoss p)
    (prr_ackCountSinceLoss p) (prr_bytesInFlightBeforeLoss p).

(** The zero value [PrrSender{}]. *)
Definition zeroPrrSender : PrrSender := mkPrrSender 0 0 0 0.

Definition Prr_OnPacketSent (p : PrrSender) (sentBytes : ByteCount) : PrrSender :=
  p <| prr_bytesSentSinceLoss := u64 (prr_bytesSentSinceLoss p + sentBytes) |>.

Definition Prr_OnPacketLost (p : PrrSender) (bytesInFlight : ByteCount) : PrrSender :=
  p <| prr_bytesSentSinceLoss := 0 |> <| prr_bytesInFlightBeforeLoss := bytesInFlight |>
    <| prr_bytesDeliveredSinceLoss := 0 |> <| prr_ackCountSinceLoss := 0 |>.

Definition Prr_OnPacketAcked (p : PrrSender) (ackedBytes : ByteCount) : PrrSender :=
  p <| prr_bytesDeliveredSinceLoss := u64 (prr_bytesDeliveredSinceLoss p + ackedBytes) |>
    <| prr_ackCountSinceLoss := u64 (prr_ackCountSinceLoss p + 1) |>.

Definition Prr_TimeUntilSend (p : PrrSender)
    (congestionWindow bytesInFlight slowstartThreshold : ByteCount) : Duration :=
  if (prr_bytesSentSinceLoss p =? 0) || (bytesInFlight <? DefaultTCPMSS) then 0
  else if bytesInFlight <? congestionWindow then
    if u64 (prr_bytesDeliveredSinceLoss p + u64 (prr_ackCountSinceLoss p * DefaultTCPMSS))
       <=? prr_bytesSentSinceLoss p
    then InfDuration else 0
  else if u64 (prr_bytesSentSinceLoss p * prr_bytesInFlightBeforeLoss p)
          <? u64 (prr_bytesDeliveredSinceLoss p * slowstartThreshold)
  then 0 else InfDuration.

#[local] Arguments assign {R T} field {_} v r /.
(** Compute the fields of an updated record. *)
Ltac hss_fields :=
  cbn [assign hss_endPacketNumber hss_lastSentPacketNumber hss_started hss_currentMinRTT hss_rttSampleCount
       hss_hystartFound prr_bytesSentSinceLoss prr_bytesDeliveredSinceLoss prr_ackCountSinceLoss
       prr_bytesInFlightBeforeLoss] in *.

(** ** When a round ends slow start *)

(** The acknowledgements of a round, each with its round trip time, as
    [MaybeExitSlowStart] passes them; the result is that of the last one. *)
Definition sample_round (s : HybridSlowStart) (rtts : list Duration) (minRTT : Duration)
    (congestionWindow : ByteCount) : bool * HybridSlowStart :=
  foldl (fun r rtt => ShouldExitSlowStart (snd r) rtt minRTT congestionWindow) (false, s) rtts.

(** A round under way that has seen the samples [l]. *)
Definition in_round (s : HybridSlowStart) (l : list Duration) : Prop :=
  hss_started s = true /\ hss_hystartFound s = false /\ hss_rttSampleCount s = zlen l /\
  match l with [] => hss_currentMinRTT s = 0 | x :: l' => hss_currentMinRTT s = foldr Z.min x l' end.

Lemma foldr_min_pos x l : 0 < x -> Forall (fun y => 0 < y) l -> 0 < foldr Z.min x l.
Proof. intros Hx. induction 1; simpl; lia. Qed.

Lemma foldr_min_snoc x l y : foldr Z.min x (l ++ [y]) = Z.min (foldr Z.min x l) y.
Proof. induction l as [|z l IH]; simpl; [lia|]. rewrite IH. lia. Qed.

(** One sample of a round: the minimum is updated, and only the eighth sample
    compares it with the threshold. *)
Lemma in_round_sample s l rtt minRTT w :
  in_round s l -> Forall (fun y => 0 < y) l -> 0 < rtt -> zlen l < hybridStartMinSamples ->
  exists s', in_round s' (l ++ [rtt]) /\
    ShouldExitSlowStart s rtt minRTT w
      = ((hybridStartLowWindow <=? w) && hss_hystartFound (check_delay_increase s' minRTT),
         check_delay_increase s' minRTT) /\
    s' = take_rtt_sample s rtt.
Proof.
  intros (Hst & Hf & Hc & Hm) Hl Hr Hlen. exists (take_rtt_sample s rtt). split_and!; [|unfold ShouldExitSlowStart|done].
  - assert (Hc' : u32 (zlen l + 1) = zlen l + 1).
    { apply u32_small. unfold hybridStartMinSamples in Hlen. pose proof (zlen_nonneg l). lia. }
    unfold take_rtt_sample. rewrite Hc, Hc'. hss_fields. destruct (Z.leb_spec (zlen l + 1) hybridStartMinSamples); [|lia].
    unfold in_round. destruct l as [|x l].
    + rewrite Hm, Z.eqb_refl. cbn [orb]. hss_fields. done.
    + inversion Hl; subst. pose proof (foldr_min_pos x l ltac:(done) ltac:(done)).
      rewrite Hm. destruct (Z.eqb_spec (foldr Z.min x l) 0); [lia|]. cbn [orb app].
      rewrite foldr_min_snoc, app_comm_cons, zlen_app. change (zlen [rtt]) with 1.
      destruct (Z.ltb_spec rtt (foldr Z.min x l)); hss_fields; split_and!; try done; lia.
  - rewrite Hst. by rewrite Hf.
Qed.

Lemma sample_round_snoc s l x minRTT w :
  sample_round s (l ++ [x]) minRTT w
    = ShouldExitSlowStart (snd (sample_round s l minRTT w)) x minRTT w.
Proof. unfold sample_round. by rewrite foldl_app. Qed.

Lemma check_delay_increase_early s l minRTT :
  in_round s l -> zlen l < hybridStartMinSamples -> check_delay_increase s minRTT = s.
Proof.
  intros (_ & _ & Hc & _) Hl. unfold check_delay_increase. rewrite Hc.
  by destruct (Z.eqb_spec (zlen l) hybridStartMinSamples); [lia|].
Qed.

(** Fewer than eight samples do not end slow start. *)
Lemma sample_round_early s l minRTT w :
  in_round s [] -> Forall (fun y => 0 < y) l -> zlen l < hybridStartMinSamples ->
  in_round (snd (sample_round s l minRTT w)) l /\ fst (sample_round s l minRTT w) = false.
Proof.
  intros Hs. induction l as [|x l IH] using rev_ind; intros Hl Hlen; [done|].
  apply Forall_app in Hl as [Hl Hx]. rewrite Forall_singleton in Hx.
  rewrite zlen_app, zlen_cons, zlen_nil in Hlen. destruct IH as [IHr _]; [done|lia|].
  rewrite sample_round_snoc.
  destruct (in_round_sample _ _ x minRTT w IHr Hl Hx ltac:(lia)) as (s' & Hs' & -> & _).
  rewrite (check_delay_increase_early s' (l ++ [x])) by (rewrite ?zlen_app, ?zlen_cons, ?zlen_nil; done || lia).
  cbn [fst snd]. split; [done|]. destruct Hs' as (_ & -> & _). apply andb_false_r.
Qed.

Lemma round_of_start s minRTT w x l :
  hss_started s = false -> hss_hystartFound s = false ->
  sample_round s (x :: l) minRTT w
    = sample_round (StartReceiveRound s (hss_lastSentPacketNumber s)) (x :: l) minRTT w.
Proof.
  intros Hst Hf. unfold sample_round. cbn [foldl snd]. f_equal.
  unfold ShouldExitSlowStart, StartReceiveRound. rewrite Hst. hss_fields. by rewrite Hf.
Qed.

(** The threshold is an eighth of the smallest round trip time in microseconds,
    at least four and at most sixteen milliseconds. *)
Lemma threshold_spec minRTT :
  0 <= minRTT ->
  minRTTincreaseThreshold minRTT
    = Z.max (4 * Millisecond) (Z.min (16 * Millisecond) (minRTT / 8000 * Microsecond)).
Proof.
  intros H. unfold minRTTincreaseThreshold. rewrite MaxInt64_max, MinInt64_min.
  rewrite Z.shiftr_div_pow2 by done. rewrite Z.quot_div_nonneg by done.
  change (2 ^ hybridStartDelayFactorExp) with 8. rewrite Z.div_div by done.
  change (Microsecond * 8) with 8000.
  unfold hybridStartDelayMaxThresholdUs, hybridStartDelayMinThresholdUs, Millisecond, Microsecond.
  pose proof (Z.div_pos minRTT 8000 H ltac:(lia)). rewrite i64_small by lia. lia.
Qed.

(** a round of eight positive samples ends slow start exactly when the window
    is at least sixteen packets and the smallest sample exceeds the smallest round
    trip time of the session by more than an eighth of it, clamped to between four
    and sixteen milliseconds; no shorter round ends it. *)
Theorem slow_start_exit s x l minRTT w :
  hss_started s = false -> hss_hystartFound s = false ->
  Forall (fun y => 0 < y) (x :: l) -> zlen (x :: l) <= hybridStartMinSamples -> 0 <= minRTT < 2 ^ 62 ->
  fst (sample_round s (x :: l) minRTT w)
    = bool_decide (zlen (x :: l) = 8 /\ 16 <= w /\
        minRTT + Z.max (4 * Millisecond) (Z.min (16 * Millisecond) (minRTT / 8000 * Microsecond))
          < foldr Z.min x l).
Proof.
  intros Hst Hf Hl Hlen Hmin. rewrite round_of_start by done.
  set (s0 := StartReceiveRound _ _). assert (H0 : in_round s0 []) by (unfold in_round, s0, StartReceiveRound; by hss_fields).
  destruct (Z.eq_dec (zlen (x :: l)) hybridStartMinSamples) as [E|E].
  2: { destruct (sample_round_early s0 (x :: l) minRTT w H0 Hl ltac:(lia)) as [_ ->].
       symmetry. apply bool_decide_eq_false. intros [? _]. done. }
  destruct l as [|y l] using rev_ind; [done|]. clear IHl.
  rewrite app_comm_cons in *. apply Forall_app in Hl as [Hl Hy]. rewrite Forall_singleton in Hy.
  rewrite zlen_app in E. change (zlen [y]) with 1 in E.
  destruct (sample_round_early s0 (x :: l) minRTT w H0 Hl ltac:(lia)) as [Hr _].
  rewrite sample_round_snoc.
  destruct (in_round_sample _ _ y minRTT w Hr Hl Hy ltac:(lia)) as (s' & (_ & Hf' & Hc & Hm) & -> & _).
  cbn [fst]. unfold check_delay_increase. rewrite Hc, zlen_app. change (zlen [y]) with 1.
  rewrite E, Z.eqb_refl, threshold_spec by lia. cbn [app] in Hm. rewrite Hm.
  rewrite i64_small by (unfold Millisecond, Microsecond; lia).
  destruct (Z.ltb_spec (minRTT + Z.max (4 * Millisecond) (Z.min (16 * Millisecond) (minRTT / 8000 * Microsecond)))
    (foldr Z.min x (l ++ [y]))); hss_fields; rewrite ?Hf', ?andb_true_r, ?andb_false_r; symmetry.
  - destruct (Z.leb_spec hybridStartLowWindow w); [apply bool_decide_eq_true|apply bool_decide_eq_false];
      unfold hybridStartLowWindow, hybridStartMinSamples in *; lia.
  - apply bool_decide_eq_false. lia.
Qed.

(** The hypotheses of [slow_start_exit] at eight samples of 120 ms over a smallest
    round trip time of 100 ms: slow start ends. *)
Lemma slow_start_exit_witness :
  fst (sample_round zeroHybridSlowStart (repeat (120 * Millisecond) 8) (100 * Millisecond) 20) = true.
Proof.
  change (repeat (120 * Millisecond) 8) with (120 * Millisecond :: repeat (120 * Millisecond) 7).
  rewrite (slow_start_exit zeroHybridSlowStart (120 * Millisecond) (repeat (120 * Millisecond) 7)
             (100 * Millisecond) 20); [reflexivity|reflexivity|reflexivity| |vm_compute; discriminate|].
  - repeat constructor.
  - split; [vm_compute; discriminate|reflexivity].
Defined.

(** ** What is sent during a recovery *)

Section Recovery.
(** The slow start threshold and the bytes in flight of the loss that began the
    recovery, and a bound on the size of a packet. *)
Context (ssthresh flight maxPacket : ByteCount).
Context (Hssthresh : 0 <= ssthresh < 2 ^ 26) (Hflight : 0 < flight < 2 ^ 26)
        (HmaxPacket : 0 <= maxPacket < 2 ^ 26).

(** A packet leaves when PRR permits it, at any congestion window and with at
    least a segment in flight; acknowledgements arrive, for at most 64 MB. *)
Inductive prr_step : PrrSender -> PrrSender -> Prop :=
  | prr_step_sent p cwnd inFlight bytes :
      DefaultTCPMSS <= inFlight -> 0 <= bytes <= maxPacket ->
      Prr_TimeUntilSend p cwnd inFlight ssthresh = 0 ->
      prr_step p (Prr_OnPacketSent p bytes)
  | prr_step_acked p bytes :
      0 <= bytes -> prr_bytesDeliveredSinceLoss p + bytes < 2 ^ 26 ->
      prr_ackCountSinceLoss p + 1 < 2 ^ 26 ->
      prr_step p (Prr_OnPacketAcked p bytes).

(** The limit of RFC 6937: proportional to the reduction of the window, or one
    segment for each acknowledgement. *)
Definition prr_limit (p : PrrSender) : Z :=
  Z.max (prr_bytesDeliveredSinceLoss p + prr_ackCountSinceLoss p * DefaultTCPMSS)
        ((prr_bytesDeliveredSinceLoss p * ssthresh + flight - 1) / flight).

Definition prr_ok (p : PrrSender) : Prop :=
  prr_bytesInFlightBeforeLoss p = flight /\ 0 <= prr_bytesDeliveredSinceLoss p < 2 ^ 26 /\
  0 <= prr_ackCountSinceLoss p < 2 ^ 26 /\ 0 <= prr_bytesSentSinceLoss p <= prr_limit p + maxPacket.

Lemma prr_limit_bound p :
  prr_bytesInFlightBeforeLoss p = flight -> 0 <= prr_bytesDeliveredSinceLoss p < 2 ^ 26 ->
  0 <= prr_ackCountSinceLoss p < 2 ^ 26 -> 0 <= prr_limit p /\ prr_limit p * flight < 2 ^ 63.
Proof.
  intros Hf Hd Ha. unfold prr_limit, DefaultTCPMSS.
  assert (0 <= prr_bytesDeliveredSinceLoss p * ssthresh <= 2 ^ 26 * 2 ^ 26) by nia.
  set (P := prr_bytesDeliveredSinceLoss p * ssthresh) in *.
  assert (0 <= (P + flight - 1) / flight) by (apply Z.div_pos; lia).
  pose proof (Z.mul_div_le (P + flight - 1) flight ltac:(lia)).
  split; [lia|]. apply Z.max_case_strong; intros; [|lia].
  assert (prr_bytesDeliveredSinceLoss p + prr_ackCountSinceLoss p * 1460 <= 2 ^ 26 + 2 ^ 26 * 1460) by lia.
  nia.
Qed.

(** A permitted packet finds the bytes sent below the limit. *)
Lemma prr_permitted p cwnd inFlight :
  prr_ok p -> DefaultTCPMSS <= inFlight -> Prr_TimeUntilSend p cwnd inFlight ssthresh = 0 ->
  prr_bytesSentSinceLoss p <= prr_limit p.
Proof.
  intros (Hf & Hd & Ha & Hs) Hin. destruct (prr_limit_bound p Hf Hd Ha) as [Hl0 Hl].
  unfold Prr_TimeUntilSend. destruct (Z.eqb_spec (prr_bytesSentSinceLoss p) 0) as [->|H0]; [lia|].
  destruct (Z.ltb_spec inFlight DefaultTCPMSS); [lia|]. cbn [orb]. unfold DefaultTCPMSS in *.
  destruct (inFlight <? cwnd).
  - rewrite !u64_small by (rewrite ?u64_small; lia).
    destruct (Z.leb_spec (prr_bytesDeliveredSinceLoss p + prr_ackCountSinceLoss p * 1460)
                (prr_bytesSentSinceLoss p)); [done|]. unfold prr_limit, DefaultTCPMSS. lia.
  - rewrite Hf. rewrite !u64_small by nia.
    destruct (Z.ltb_spec (prr_bytesSentSinceLoss p * flight) (prr_bytesDeliveredSinceLoss p * ssthresh));
      [|done]. intros _. unfold prr_limit. apply Z.max_le_iff. right.
    apply Z.div_le_lower_bound; lia.
Qed.

Lemma prr_step_ok p p' : prr_step p p' -> prr_ok p -> prr_ok p'.
Proof.
  intros Hstep Hok. destruct Hstep as [p cwnd inFlight bytes Hin Hb Ht|p bytes Hb Hd' Ha'].
  - pose proof (prr_permitted p cwnd inFlight Hok Hin Ht) as Hle. destruct Hok as (Hf & Hd & Ha & Hs).
    destruct (prr_limit_bound p Hf Hd Ha) as [Hl0 Hl].
    unfold prr_ok, prr_limit, Prr_OnPacketSent in *. hss_fields.
    rewrite u64_small by nia. split_and!; try done; lia.
  - destruct Hok as (Hf & Hd & Ha & Hs). unfold prr_ok, prr_limit, Prr_OnPacketAcked in *. hss_fields.
    rewrite !u64_small by lia. split_and!; try done; try lia.
    etransitivity; [apply Hs|]. apply Z.add_le_mono_r. apply Z.max_le_compat.
    + unfold DefaultTCPMSS. lia.
    + apply Z.div_le_mono; [lia|]. nia.
Qed.

(** a sender that waits for PRR's permission sends, in a recovery, at most the
    limit of RFC 6937 and one packet more: the delivered bytes scaled by the
    reduction of the window, or the delivered bytes and a segment per
    acknowledgement, whichever is larger. *)
Theorem prr_bound p p' :
  rtc prr_step (Prr_OnPacketLost p flight) p' ->
  prr_bytesSentSinceLoss p' <= prr_limit p' + maxPacket.
Proof.
  intros Hrun. assert (H0 : prr_ok (Prr_OnPacketLost p flight)).
  { unfold prr_ok, prr_limit, Prr_OnPacketLost. hss_fields.
    rewrite Z.mul_0_l, Z.add_0_l. rewrite (Z.div_small (flight - 1)) by lia. lia. }
  assert (prr_ok p') as (_ & _ & _ & ?); [|lia].
  revert H0. induction Hrun as [|? y ? Hxy _ IH]; [done|]. intros H0. apply IH.
  by apply (prr_step_ok _ _ Hxy).
Qed.
End Recovery.

(** The hypotheses of [prr_bound] at a recovery that loses with ten segments in
    flight, receives an acknowledgement and sends a packet. *)
Lemma prr_bound_witness :
  exists p', prr_bytesSentSinceLoss p' = 1460 /\
    prr_bytesSentSinceLoss p' <= prr_limit 10220 14600 p' + 1460.
Proof.
  exists (Prr_OnPacketSent (Prr_OnPacketAcked (Prr_OnPacketLost zeroPrrSender 14600) 1460) 1460).
  split; [reflexivity|].
  apply (prr_bound 10220 14600 1460) with (p := zeroPrrSender); [lia..|].
  apply rtc_l with (Prr_OnPacketAcked (Prr_OnPacketLost zeroPrrSender 14600) 1460).
  - apply prr_step_acked; [lia|reflexivity|reflexivity].
  - apply rtc_once. apply (prr_step_sent _ _ _ 10220 13140); [unfold DefaultTCPMSS; lia|lia|reflexivity].
Defined.
