(* ===== verification/Cbrt.v ===== *)
(** * math.Cbrt

    The cube root of Go's standard library, as package math computes it on amd64:
    an estimate from the bits of the argument, a rational correction to 23 bits,
    and one step of Newton's iteration.  Cubic needs its integer part; [icbrt] is
    the integer cube root it is compared with. *)

From Stdlib Require Import SpecFloat.
From S2P Require Import Prelude Float.

(** [math.Float64bits] and [math.Float64frombits] *)
Definition Float64bits (x : float64) : Z :=
  match x with
  | S754_zero s => Z.b2z s * 2 ^ 63
  | S754_infinity s => Z.b2z s * 2 ^ 63 + 2047 * 2 ^ 52
  | S754_nan => 2047 * 2 ^ 52 + 2 ^ 51 + 1
  | S754_finite s m e =>
      Z.b2z s * 2 ^ 63 +
      (if Z.pos m <? 2 ^ 52 then Z.pos m else (e + 1075) * 2 ^ 52 + (Z.pos m - 2 ^ 52))
  end.

Definition Float64frombits (b : Z) : float64 :=
  let s := Z.testbit b 63 in
  let biased := Z.shiftr b 52 mod 2048 in
  let frac := b mod 2 ^ 52 in
  if biased =? 2047 then if frac =? 0 then S754_infinity s else S754_nan
  else if biased =? 0 then
    match frac with Z.pos m => S754_finite s m (-1074) | _ => S754_zero s end
  else S754_finite s (Z.to_pos (frac + 2 ^ 52)) (biased - 1075).

Definition cbrt_B1 : Z := 715094163.
Definition cbrt_B2 : Z := 696219795.
Definition cbrt_C : float64 := Float64frombits 0x3FE15F15F15F15F1.
Definition cbrt_D : float64 := Float64frombits 0xBFE691DE2532C834.
Definition cbrt_E : float64 := Float64frombits 0x3FF6A0EA0EA0EA0F.
Definition cbrt_F : float64 := Float64frombits 0x3FF9B6DB6DB6DB6E.
Definition cbrt_G : float64 := Float64frombits 0x3FD6DB6DB6DB6DB7.
Definition SmallestNormal : float64 := Float64frombits 0x0010000000000000.

(** The rough cube root, to 5 bits. *)
Definition cbrt_estimate (x : float64) : float64 :=
  if SFltb x SmallestNormal
  then Float64frombits (u64 (Float64bits (f64_mul (f64_of_Z (2 ^ 54)) x) / 3 + cbrt_B2 * 2 ^ 32))
  else Float64frombits (u64 (Float64bits x / 3 + cbrt_B1 * 2 ^ 32)).

Definition cbrt_pos (x : float64) : float64 :=
  let t := cbrt_estimate x in
  let r := f64_div (f64_mul t t) x in
  let s := f64_add cbrt_C (f64_mul r t) in
  let t := f64_mul t (f64_add cbrt_G
             (f64_div cbrt_F (f64_add (f64_add s cbrt_E) (f64_div cbrt_D s)))) in
  let t := Float64frombits (u64 (Z.land (Float64bits t) (Z.shiftl 0xFFFFFFFFC 28) + Z.shiftl 1 30)) in
  let s := f64_mul t t in
  let r := f64_div x s in
  let w := f64_add t t in
  let r := f64_div (f64_sub r t) (f64_add w r) in
  f64_add t (f64_mul t r).

Definition math_Cbrt (x : float64) : float64 :=
  match x with
  | S754_zero _ | S754_infinity _ | S754_nan => x
  | S754_finite true m e => SFopp (cbrt_pos (S754_finite false m e))
  | S754_finite false m e => cbrt_pos x
  end.

(** ** The integer cube root *)

(** [n] is the integer part of the cube root of [x]. *)
Definition is_icbrt (x n : Z) : bool := (0 <=? n) && (n ^ 3 <=? x) && (x <? (n + 1) ^ 3).

Fixpoint icbrt_search (fuel : nat) (x lo hi : Z) : Z :=
  match fuel with
  | O => lo
  | S fuel =>
      if hi <=? lo + 1 then lo
      else let mid := (lo + hi) / 2 in
           if mid ^ 3 <=? x then icbrt_search fuel x mid hi else icbrt_search fuel x lo mid
  end.

(** By bisection; the interval halves at each step. *)
Definition icbrt (x : Z) : Z := icbrt_search (Z.to_nat (Z.log2 (x + 1) + 2)) x 0 (x + 1).

Lemma icbrt_search_spec fuel x lo hi :
  0 <= lo < hi -> lo ^ 3 <= x < hi ^ 3 -> hi - lo <= 2 ^ Z.of_nat fuel ->
  is_icbrt x (icbrt_search fuel x lo hi) = true.
Proof.
  revert lo hi. induction fuel as [|fuel IH]; intros lo hi Hlo Hx Hf; cbn [icbrt_search].
  { simpl in Hf. assert (hi = lo + 1) as -> by lia. unfold is_icbrt.
    destruct (Z.leb_spec 0 lo), (Z.leb_spec (lo ^ 3) x), (Z.ltb_spec x ((lo + 1) ^ 3)); try done; lia. }
  destruct (Z.leb_spec hi (lo + 1)).
  { assert (hi = lo + 1) as -> by lia. unfold is_icbrt.
    destruct (Z.leb_spec 0 lo), (Z.leb_spec (lo ^ 3) x), (Z.ltb_spec x ((lo + 1) ^ 3)); try done; lia. }
  rewrite Nat2Z.inj_succ, Z.pow_succ_r in Hf by lia.
  assert (lo < (lo + hi) / 2 < hi) by (Z.to_euclidean_division_equations; lia).
  assert (hi - (lo + hi) / 2 <= 2 ^ Z.of_nat fuel /\ (lo + hi) / 2 - lo <= 2 ^ Z.of_nat fuel)
    by (Z.to_euclidean_division_equations; lia).
  destruct (Z.leb_spec (((lo + hi) / 2) ^ 3) x); apply IH; lia.
Qed.

Lemma icbrt_spec x : 0 <= x -> is_icbrt x (icbrt x) = true.
Proof.
  intros Hx. apply icbrt_search_spec; [lia| |].
  - split; [simpl; lia|]. replace ((x + 1) ^ 3) with ((x + 1) * (x + 1) * (x + 1)) by ring. nia.
  - pose proof (Z.log2_nonneg (x + 1)). pose proof (Z.log2_spec (x + 1) ltac:(lia)).
    rewrite Z2Nat.id by lia. etransitivity; [|apply Z.pow_le_mono_r with (b := Z.succ (Z.log2 (x + 1))); lia].
    lia.
Qed.

(** There is only one. *)
Lemma is_icbrt_unique x n n' : is_icbrt x n = true -> is_icbrt x n' = true -> n = n'.
Proof.
  unfold is_icbrt. rewrite !andb_true_iff, !Z.leb_le, !Z.ltb_lt. intros [[? ?] ?] [[? ?] ?].
  destruct (Z.lt_trichotomy n n') as [Hlt|[?|Hlt]]; [|done|]; exfalso.
  - pose proof (Z.pow_le_mono_l (n + 1) n' 3 ltac:(lia)). lia.
  - pose proof (Z.pow_le_mono_l (n' + 1) n 3 ltac:(lia)). lia.
Qed.
