(* ===== verification/Cubic.v ===== *)
(** * congestion/cubic.go: the cubic window

    The state of the algorithm and its operations, with the floats and the
    wrap-around of the source.  The clock of the Go object is the argument [now].
    The loop that grows the Reno estimate of the window runs with fuel; the last
    sections show that the fuel is enough, that the cube root is the integer one,
    and the bounds on the windows the algorithm returns. *)

From Stdlib Require Import SpecFloat.
From S2P Require Import Prelude Protocol MinMax Float Rounding Cbrt.

Definition cubeScale : Z := 40.
Definition cubeCongestionWindowScale : Z := 410.
Definition cubeFactor : PacketNumber := Z.shiftl 1 cubeScale / cubeCongestionWindowScale.
Definition defaultNumConnections : Z := 2.
Definition beta : float32 := f32_const 7 10.
Definition betaLastMax : float32 := f32_const 85 100.
Definition shiftQuicCubicEpochWhenAppLimited : bool := true.
Definition maxCubicTimeInterval : Duration := 30 * Millisecond.

Record Cubic := mkCubic {
  cb_numConnections : Z;
  cb_epoch : Time;
  cb_appLimitedStartTime : Time;
  cb_lastUpdateTime : Time;
  cb_lastCongestionWindow : PacketNumber;
  cb_lastMaxCongestionWindow : PacketNumber;
  cb_ackedPacketsCount : PacketNumber;
  cb_estimatedTCPcongestionWindow : PacketNumber;
  cb_originPointCongestionWindow : PacketNumber;
  cb_timeToOriginPoint : Z;
  cb_lastTargetCongestionWindow : PacketNumber
}.

#[global] Instance eta_Cubic : Eta Cubic := fun c =>
  mkCubic (cb_numConnections c) (cb_epoch c) (cb_appLimitedStartTime c) (cb_lastUpdateTime c)
    (cb_lastCongestionWindow c) (cb_lastMaxCongestionWindow c) (cb_ackedPacketsCount c)
    (cb_estimatedTCPcongestionWindow c) (cb_originPointCongestionWindow c) (cb_timeToOriginPoint c)
    (cb_lastTargetCongestionWindow c).

(** [Reset] clears every field but the number of connections. *)
Definition Cubic_Reset (c : Cubic) : Cubic :=
  mkCubic (cb_numConnections c) zeroTime zeroTime zeroTime 0 0 0 0 0 0 0.

Definition NewCubic : Cubic :=
  Cubic_Reset (mkCubic defaultNumConnections zeroTime zeroTime zeroTime 0 0 0 0 0 0 0).

(** [(float32(n) - 1 + beta) / float32(n)] *)
Definition Cubic_beta (c : Cubic) : float32 :=
  let n := f32_of_Z (cb_numConnections c) in
  f32_div (f32_add (f32_sub n (f32_of_Z 1)) beta) n.

Definition Cubic_alpha (c : Cubic) : float32 :=
  let b := Cubic_beta c in
  let n := f32_of_Z (cb_numConnections c) in
  f32_div (f32_mul (f32_mul (f32_mul (f32_of_Z 3) n) n) (f32_sub (f32_of_Z 1) b))
          (f32_add (f32_of_Z 1) b).

Definition OnApplicationLimited (c : Cubic) (now : Time) : Cubic :=
  if shiftQuicCubicEpochWhenAppLimited then
    if Time_IsZero (cb_appLimitedStartTime c) then c <| cb_appLimitedStartTime := now |> else c
  else c <| cb_epoch := zeroTime |>.

Definition CongestionWindowAfterPacketLoss (c : Cubic) (currentCongestionWindow : PacketNumber) :
    PacketNumber * Cubic :=
  let c := if currentCongestionWindow <? cb_lastMaxCongestionWindow c
           then c <| cb_lastMaxCongestionWindow :=
                  float_to_u64 (f32_mul betaLastMax (f32_of_Z currentCongestionWindow)) |>
           else c <| cb_lastMaxCongestionWindow := currentCongestionWindow |> in
  let c := c <| cb_epoch := zeroTime |> in
  (float_to_u64 (f32_mul (f32_of_Z currentCongestionWindow) (Cubic_beta c)), c).

(** The time to the origin point of the cubic function, in 2^-10 seconds, for a
    window [delta] packets below the origin. *)
Definition time_to_origin (delta : PacketNumber) : Z :=
  u32 (float_to_i64 (math_Cbrt (f64_of_Z (u64 (cubeFactor * delta))))).

(** The first acknowledgement after a loss starts an epoch; a later one shifts the
    epoch by the time the application did not use the window. *)
Definition start_epoch (c : Cubic) (currentCongestionWindow : PacketNumber) (now : Time) : Cubic :=
  let c := c <| cb_epoch := now |> <| cb_ackedPacketsCount := 1 |>
             <| cb_estimatedTCPcongestionWindow := currentCongestionWindow |> in
  if cb_lastMaxCongestionWindow c <=? currentCongestionWindow then
    c <| cb_timeToOriginPoint := 0 |> <| cb_originPointCongestionWindow := currentCongestionWindow |>
  else
    c <| cb_timeToOriginPoint :=
           time_to_origin (u64 (cb_lastMaxCongestionWindow c - currentCongestionWindow)) |>
      <| cb_originPointCongestionWindow := cb_lastMaxCongestionWindow c |>.

Definition shift_epoch (c : Cubic) (now : Time) : Cubic :=
  if shiftQuicCubicEpochWhenAppLimited && negb (Time_IsZero (cb_appLimitedStartTime c)) then
    c <| cb_epoch := Time_Add (cb_epoch c) (Time_Sub now (cb_appLimitedStartTime c)) |>
      <| cb_appLimitedStartTime := zeroTime |>
  else c.

(** The cubic function of the time since the epoch. *)
Definition target_window (c : Cubic) (delayMin : Duration) (now : Time) : PacketNumber :=
  let elapsedTime :=
    Z.quot (i64 (Z.shiftl (Z.quot (Time_Sub (Time_Add now delayMin) (cb_epoch c)) Microsecond) 10))
           1000000 in
  let offset := i64 (cb_timeToOriginPoint c - elapsedTime) in
  let offset := if offset <? 0 then i64 (- offset) else offset in
  let delta := u64 (Z.shiftr (i64 (cubeCongestionWindowScale * offset * offset * offset)) cubeScale) in
  if cb_timeToOriginPoint c <? elapsedTime
  then u64 (cb_originPointCongestionWindow c + delta)
  else u64 (cb_originPointCongestionWindow c - delta).

(** The loop that grows the estimate of a TCP Reno window. *)
Definition required_ack_count (c : Cubic) : PacketNumber :=
  float_to_u64 (f32_div (f32_of_Z (cb_estimatedTCPcongestionWindow c)) (Cubic_alpha c)).

Fixpoint estimate_loop (fuel : nat) (c : Cubic) : option Cubic :=
  match fuel with
  | O => None
  | S fuel =>
      let requiredAckCount := required_ack_count c in
      if cb_ackedPacketsCount c <? requiredAckCount then Some c
      else estimate_loop fuel
             (c <| cb_ackedPacketsCount := u64 (cb_ackedPacketsCount c - requiredAckCount) |>
                <| cb_estimatedTCPcongestionWindow := u64 (cb_estimatedTCPcongestionWindow c + 1) |>)
  end.

(** Below [numConnections] packets an iteration can consume no acknowledgement;
    above, it consumes at least one. *)
Definition estimate_fuel (c : Cubic) : nat :=
  Z.to_nat (cb_ackedPacketsCount c + cb_numConnections c + 2).

Definition update_estimate (c : Cubic) : Cubic := default c (estimate_loop (estimate_fuel c) c).

Definition CongestionWindowAfterAck (c : Cubic) (currentCongestionWindow : PacketNumber)
    (delayMin : Duration) (now : Time) : PacketNumber * Cubic :=
  let c := c <| cb_ackedPacketsCount := u64 (cb_ackedPacketsCount c + 1) |> in
  if (cb_lastCongestionWindow c =? currentCongestionWindow)
     && (Time_Sub now (cb_lastUpdateTime c) <=? maxCubicTimeInterval)
  then (MaxPacketNumber (cb_lastTargetCongestionWindow c) (cb_estimatedTCPcongestionWindow c), c)
  else
    let c := c <| cb_lastCongestionWindow := currentCongestionWindow |> <| cb_lastUpdateTime := now |> in
    let c := if Time_IsZero (cb_epoch c) then start_epoch c currentCongestionWindow now
             else shift_epoch c now in
    let target := target_window c delayMin now in
    let c := update_estimate c in
    let c := c <| cb_lastTargetCongestionWindow := target |> in
    (if target <? cb_estimatedTCPcongestionWindow c then cb_estimatedTCPcongestionWindow c else target,
     c).

Definition SetNumConnections (c : Cubic) (n : Z) : Cubic := c <| cb_numConnections := n |>.

#[local] Arguments assign {R T} field {_} v r /.
Ltac cb_fields :=
  cbn [assign cb_numConnections cb_epoch cb_appLimitedStartTime cb_lastUpdateTime cb_lastCongestionWindow
       cb_lastMaxCongestionWindow cb_ackedPacketsCount cb_estimatedTCPcongestionWindow
       cb_originPointCongestionWindow cb_timeToOriginPoint cb_lastTargetCongestionWindow] in *.

(** ** The factors

    Up to 1024 emulated connections the factor of a decrease is at most one and
    the divisor of the estimate is positive and at most the number of connections. *)

Definition maxConnections : Z := 1024.

Definition connections_ok (c : Cubic) : Prop := 1 <= cb_numConnections c <= maxConnections.

Definition factors_check (n : Z) : bool :=
  let c := SetNumConnections NewCubic n in
  float_le (Cubic_beta c) 1 && float_pos (Cubic_alpha c) && float_le (Cubic_alpha c) n.

Lemma factors_checked :
  forallb (fun k => factors_check (Z.of_nat k)) (seq 1 (Z.to_nat maxConnections)) = true.
Proof. vm_compute. reflexivity. Qed.

Lemma factors_ok c :
  connections_ok c ->
  float_le (Cubic_beta c) 1 = true /\ float_pos (Cubic_alpha c) = true /\
  float_le (Cubic_alpha c) (cb_numConnections c) = true.
Proof.
  intros [H1 H2]. pose proof factors_checked as Hc. rewrite forallb_forall in Hc.
  specialize (Hc (Z.to_nat (cb_numConnections c))). rewrite in_seq, Z2Nat.id in Hc by lia.
  specialize (Hc ltac:(unfold maxConnections in *; lia)).
  change (Cubic_beta c) with (Cubic_beta (SetNumConnections NewCubic (cb_numConnections c))).
  change (Cubic_alpha c) with (Cubic_alpha (SetNumConnections NewCubic (cb_numConnections c))).
  unfold factors_check in Hc. by apply andb_prop in Hc as [[? ?]%andb_prop ?].
Qed.

(** ** The loop of the estimate *)

Lemma required_range c : 0 <= required_ack_count c < 2 ^ 64.
Proof.
  unfold required_ack_count, float_to_u64.
  destruct (Z.leb_spec 0 (float_trunc (f32_div (f32_of_Z (cb_estimatedTCPcongestionWindow c)) (Cubic_alpha c)))),
    (Z.ltb_spec (float_trunc (f32_div (f32_of_Z (cb_estimatedTCPcongestionWindow c)) (Cubic_alpha c))) (2 ^ 64));
    cbn [andb]; lia.
Qed.

Lemma required_pos c :
  connections_ok c -> cb_numConnections c <= cb_estimatedTCPcongestionWindow c ->
  1 <= required_ack_count c.
Proof.
  intros Hc Hle. destruct (factors_ok c Hc) as (_ & Hp & Ha).
  destruct Hc. apply (f32_div_ge_one _ (cb_numConnections c)); try done. unfold maxConnections in *. lia.
Qed.

(** What the loop does not increase, and what bounds its iterations. *)
Definition estimate_potential (c : Cubic) : Z :=
  Z.max (cb_estimatedTCPcongestionWindow c) maxConnections + cb_ackedPacketsCount c.

Definition estimate_measure (c : Cubic) : Z :=
  Z.max 0 (cb_numConnections c - cb_estimatedTCPcongestionWindow c) + cb_ackedPacketsCount c.

Definition estimate_ok (c : Cubic) : Prop :=
  connections_ok c /\ 0 <= cb_estimatedTCPcongestionWindow c /\ 0 <= cb_ackedPacketsCount c /\
  estimate_potential c < 2 ^ 63.

(** The fields the loop leaves alone, and the estimate only grows. *)
Definition estimate_frame (c c' : Cubic) : Prop :=
  c' = c <| cb_ackedPacketsCount := cb_ackedPacketsCount c' |>
         <| cb_estimatedTCPcongestionWindow := cb_estimatedTCPcongestionWindow c' |> /\
  cb_estimatedTCPcongestionWindow c <= cb_estimatedTCPcongestionWindow c' /\
  estimate_potential c' <= estimate_potential c /\ 0 <= cb_ackedPacketsCount c'.

Lemma estimate_step c :
  estimate_ok c -> required_ack_count c <= cb_ackedPacketsCount c ->
  let c' := c <| cb_ackedPacketsCount := u64 (cb_ackedPacketsCount c - required_ack_count c) |>
              <| cb_estimatedTCPcongestionWindow := u64 (cb_estimatedTCPcongestionWindow c + 1) |> in
  estimate_ok c' /\ estimate_frame c c' /\ estimate_measure c' < estimate_measure c.
Proof.
  intros (Hc & He & Ha & Hp) Hr. pose proof (required_range c) as Hrr.
  pose proof (required_pos c Hc) as Hpos. destruct Hc as [Hc1 Hc2].
  unfold estimate_ok, estimate_frame, estimate_potential, estimate_measure, connections_ok, maxConnections in *.
  cb_fields. rewrite !u64_small by lia. split_and!; try done; lia.
Qed.

Lemma estimate_frame_refl c : 0 <= cb_ackedPacketsCount c -> estimate_frame c c.
Proof. intros H. unfold estimate_frame. destruct c. cb_fields. split_and!; done || lia. Qed.

Lemma estimate_frame_trans c1 c2 c3 :
  estimate_frame c1 c2 -> estimate_frame c2 c3 -> estimate_frame c1 c3.
Proof.
  intros (E1 & ? & ? & ?) (E2 & ? & ? & ?). split_and!; [|lia..].
  rewrite E2, E1. destruct c1, c2, c3. cb_fields. done.
Qed.

Lemma estimate_loop_total fuel c :
  estimate_ok c -> estimate_measure c < Z.of_nat fuel ->
  exists c', estimate_loop fuel c = Some c' /\ estimate_ok c' /\ estimate_frame c c' /\
             cb_ackedPacketsCount c' < required_ack_count c'.
Proof.
  revert c. induction fuel as [|fuel IH]; intros c Hok Hm.
  { destruct Hok as (_ & ? & ? & _). unfold estimate_measure in Hm. lia. }
  cbn [estimate_loop]. destruct (Z.ltb_spec (cb_ackedPacketsCount c) (required_ack_count c)) as [Hlt|Hge].
  - exists c. split_and!; try done. apply estimate_frame_refl. by destruct Hok as (_ & _ & ? & _).
  - destruct (estimate_step c Hok Hge) as (Hok' & Hfr & Hm').
    destruct (IH _ Hok' ltac:(lia)) as (c' & Hl & Hok'' & Hfr' & Hr).
    exists c'. split_and!; try done. by eapply estimate_frame_trans.
Qed.

(** the loop that grows the estimate of the TCP window terminates: with 1 to
    1024 emulated connections it leaves after at most as many iterations as there
    are acknowledged packets and connections, and then fewer packets are
    acknowledged than the next increase requires. *)
Theorem estimate_loop_terminates c :
  estimate_ok c ->
  exists c', estimate_loop (estimate_fuel c) c = Some c' /\
             cb_ackedPacketsCount c' < required_ack_count c' /\
             cb_estimatedTCPcongestionWindow c <= cb_estimatedTCPcongestionWindow c'
               <= Z.max (cb_estimatedTCPcongestionWindow c) maxConnections + cb_ackedPacketsCount c.
Proof.
  intros Hok. destruct (estimate_loop_total (estimate_fuel c) c Hok) as (c' & Hl & Hok' & Hfr & Hr).
  - destruct Hok as ([? ?] & ? & ? & _). unfold estimate_fuel, estimate_measure. lia.
  - exists c'. destruct Hfr as (_ & ? & Hp & ?). unfold estimate_potential in Hp.
    split_and!; try done; unfold maxConnections in *; lia.
Qed.

(** The hypotheses of [estimate_loop_terminates] at the state after 500
    acknowledgements with a window of 10 packets; the estimate grows to 33. *)
Lemma estimate_loop_terminates_witness :
  let c := NewCubic <| cb_ackedPacketsCount := 500 |> <| cb_estimatedTCPcongestionWindow := 10 |> in
  exists c', estimate_loop (estimate_fuel c) c = Some c' /\
             cb_ackedPacketsCount c' < required_ack_count c'.
Proof.
  intros c. destruct (estimate_loop_terminates c) as (c' & H1 & H2 & _).
  - unfold estimate_ok, connections_ok, estimate_potential, maxConnections, c, NewCubic, Cubic_Reset.
    cb_fields. unfold defaultNumConnections. lia.
  - exact (ex_intro _ c' (conj H1 H2)).
Defined.

(** ** The cube root *)

Definition time_to_origin_check (delta : Z) : bool :=
  is_icbrt (cubeFactor * delta) (time_to_origin delta).

Lemma time_to_origin_checked :
  forallb (fun k => time_to_origin_check (Z.of_nat k))
          (seq 0 (Z.to_nat (DefaultMaxCongestionWindow + 1))) = true.
Proof. vm_compute. reflexivity. Qed.

Lemma time_to_origin_is_icbrt delta :
  0 <= delta <= DefaultMaxCongestionWindow ->
  is_icbrt (cubeFactor * delta) (time_to_origin delta) = true.
Proof.
  intros H. pose proof time_to_origin_checked as Hc. rewrite forallb_forall in Hc.
  specialize (Hc (Z.to_nat delta)). rewrite in_seq, Z2Nat.id in Hc by lia.
  apply Hc. unfold DefaultMaxCongestionWindow in *. lia.
Qed.

Lemma time_to_origin_icbrt delta :
  0 <= delta <= DefaultMaxCongestionWindow -> time_to_origin delta = icbrt (cubeFactor * delta).
Proof.
  intros H. apply (is_icbrt_unique (cubeFactor * delta)); [by apply time_to_origin_is_icbrt|].
  apply icbrt_spec. apply Z.mul_nonneg_nonneg; [done|lia].
Qed.

Lemma icbrt_bounds x : 0 <= x -> 0 <= icbrt x /\ icbrt x ^ 3 <= x < (icbrt x + 1) ^ 3.
Proof.
  intros H. pose proof (icbrt_spec x H) as Hs. unfold is_icbrt in Hs.
  rewrite !andb_true_iff, !Z.leb_le, Z.ltb_lt in Hs. tauto.
Qed.

(** The cubic function in integers: [m] is the window at the origin, [K] the time
    to it and [t] the time since the epoch, both in 2^-10 seconds. *)
Definition cubic_curve (m K t : Z) : Z :=
  if K <? t then m + 410 * (t - K) ^ 3 / 2 ^ 40 else m - 410 * (K - t) ^ 3 / 2 ^ 40.

Definition curve_time (d : Duration) : Z := d / 1000 * 1024 / 1000000.

Lemma curve_time_range d : 0 <= d <= 240 * Second -> 0 <= curve_time d <= 245760.
Proof. unfold curve_time, Second. glia. Qed.

Lemma cube_bound x : 0 <= x <= 245760 -> 0 <= 410 * x ^ 3 < 2 ^ 63.
Proof.
  intros H. pose proof (Z.pow_le_mono_l x 245760 3 H). pose proof (Z.pow_nonneg x 3 ltac:(lia)).
  change (245760 ^ 3) with 14843406974976000 in *. lia.
Qed.

(** In the first four minutes of an epoch the shifts and products of the source
    neither wrap nor lose anything but the fraction. *)
Lemma target_window_curve c delayMin now :
  let d := now + delayMin - cb_epoch c in
  0 <= d <= 240 * Second ->
  0 <= cb_timeToOriginPoint c <= 245760 ->
  0 <= cb_originPointCongestionWindow c < 2 ^ 32 ->
  410 * cb_timeToOriginPoint c ^ 3 / 2 ^ 40 <= cb_originPointCongestionWindow c ->
  target_window c delayMin now
    = cubic_curve (cb_originPointCongestionWindow c) (cb_timeToOriginPoint c) (curve_time d).
Proof.
  intros d Hd HK Hm Hlow. unfold target_window, Time_Add.
  assert (HT : Time_Sub (now + delayMin) (cb_epoch c) = d).
  { unfold Time_Sub, minDuration, maxDuration, Second in *. subst d. cases_bool; lia. }
  rewrite HT. pose proof (curve_time_range d Hd) as Ht.
  assert (E : Z.quot (i64 (Z.shiftl (Z.quot d Microsecond) 10)) 1000000 = curve_time d).
  { rewrite Z.shiftl_mul_pow2 by lia. unfold curve_time, Microsecond, Second in *.
    rewrite (Z.quot_div_nonneg d) by lia. pose proof (Z.div_pos d 1000 ltac:(lia) ltac:(lia)).
    assert (d / 1000 <= 240000000) by glia. rewrite i64_small by lia.
    by rewrite Z.quot_div_nonneg by lia. }
  rewrite E. set (t := curve_time d) in *. set (K := cb_timeToOriginPoint c) in *.
  set (m := cb_originPointCongestionWindow c) in *. rewrite (i64_small (K - t)) by lia.
  assert (Habs : (if K - t <? 0 then i64 (- (K - t)) else K - t) = Z.abs (K - t)).
  { destruct (Z.ltb_spec (K - t) 0); [rewrite i64_small by lia|]; lia. }
  rewrite Habs. unfold cubic_curve, cubeCongestionWindowScale, cubeScale.
  pose proof (cube_bound (Z.abs (K - t)) ltac:(lia)) as Hb.
  replace (410 * Z.abs (K - t) * Z.abs (K - t) * Z.abs (K - t)) with (410 * Z.abs (K - t) ^ 3) by ring.
  rewrite i64_small, Z.shiftr_div_pow2 by lia.
  assert (0 <= 410 * Z.abs (K - t) ^ 3 / 2 ^ 40 <= 2 ^ 23).
  { split; [apply Z.div_pos; lia|]. apply Z.lt_le_incl, Z.div_lt_upper_bound; lia. }
  rewrite (u64_small (410 * _ / _)) by lia.
  destruct (Z.ltb_spec K t).
  - rewrite Z.abs_neq in * by lia. replace (- (K - t)) with (t - K) in * by lia.
    rewrite u64_small by lia. done.
  - rewrite Z.abs_eq in * by lia.
    assert (410 * (K - t) ^ 3 / 2 ^ 40 <= 410 * K ^ 3 / 2 ^ 40).
    { apply Z.div_le_mono; [lia|]. apply Z.mul_le_mono_nonneg_l; [lia|]. apply Z.pow_le_mono_l. lia. }
    rewrite u64_small by lia. done.
Qed.

Lemma origin_reachable delta :
  0 <= delta <= DefaultMaxCongestionWindow ->
  0 <= time_to_origin delta <= 245760 /\ 410 * time_to_origin delta ^ 3 / 2 ^ 40 <= delta.
Proof.
  intros H. assert (0 <= cubeFactor * delta) by (apply Z.mul_nonneg_nonneg; [done|lia]).
  rewrite (time_to_origin_icbrt delta H). destruct (icbrt_bounds (cubeFactor * delta)) as (HK0 & Hle & _); [done|].
  set (K := icbrt (cubeFactor * delta)) in *. change cubeFactor with 2681735677 in *.
  unfold DefaultMaxCongestionWindow in *. split.
  - split; [done|]. destruct (Z.le_gt_cases K 245760); [done|].
    pose proof (Z.pow_le_mono_l 245760 K 3 ltac:(lia)). change (245760 ^ 3) with 14843406974976000 in *. lia.
  - apply Z.div_le_upper_bound; [done|]. lia.
Qed.

(** the window an epoch aims at is the cubic curve of the paper, computed in
    integers: for windows up to the largest configured and in the first four
    minutes of the epoch, the floats and shifts of the source give
    [cubic_curve], whose time to the origin is the integer cube root, and the curve
    rises from the window the epoch starts with through the window of the last
    loss. *)
Theorem epoch_target_curve c w t0 delayMin now :
  0 <= w <= DefaultMaxCongestionWindow -> 0 <= cb_lastMaxCongestionWindow c <= DefaultMaxCongestionWindow ->
  0 <= now + delayMin - t0 <= 240 * Second ->
  let m := Z.max w (cb_lastMaxCongestionWindow c) in
  let K := icbrt (cubeFactor * (m - w)) in
  let t := curve_time (now + delayMin - t0) in
  let target := target_window (start_epoch c w t0) delayMin now in
  target = cubic_curve m K t /\ w <= target /\ (t <= K -> target <= m) /\ (K < t -> m <= target).
Proof.
  intros Hw Hmax Hd m K t target.
  assert (Hdelta : 0 <= m - w <= DefaultMaxCongestionWindow) by (unfold m; lia).
  destruct (origin_reachable (m - w) Hdelta) as [HK Hlow].
  assert (HKt : time_to_origin (m - w) = K) by (by apply time_to_origin_icbrt).
  rewrite HKt in *.
  assert (Htarget : target = cubic_curve m K t).
  { unfold target, t, start_epoch. cb_fields. unfold DefaultMaxCongestionWindow in *.
    destruct (Z.leb_spec (cb_lastMaxCongestionWindow c) w).
    - assert (Hmw : m = w) by (unfold m; lia).
      assert (K = 0) as -> by (unfold K; by rewrite Hmw, Z.sub_diag).
      rewrite Hmw, target_window_curve; cb_fields; try done; lia.
    - assert (cb_lastMaxCongestionWindow c = m) as -> by (unfold m; lia).
      rewrite (u64_small (m - w)), HKt by lia.
      rewrite target_window_curve; cb_fields; try done; lia. }
  pose proof (curve_time_range _ Hd) as Ht. fold t in Ht.
  assert (Hmono : forall x, 0 <= x <= K -> 0 <= 410 * x ^ 3 / 2 ^ 40 <= m - w).
  { intros x Hx. split; [apply Z.div_pos; [|lia]; apply Z.mul_nonneg_nonneg; [lia|apply Z.pow_nonneg; lia]|].
    etransitivity; [|exact Hlow]. apply Z.div_le_mono; [lia|].
    apply Z.mul_le_mono_nonneg_l; [lia|]. apply Z.pow_le_mono_l. lia. }
  assert (Hpos : forall x, 0 <= x -> 0 <= 410 * x ^ 3 / 2 ^ 40).
  { intros x Hx. apply Z.div_pos; [|lia]. apply Z.mul_nonneg_nonneg; [lia|apply Z.pow_nonneg; lia]. }
  split; [done|]. rewrite Htarget. unfold cubic_curve. destruct (Z.ltb_spec K t).
  - specialize (Hpos (t - K) ltac:(lia)). lia.
  - specialize (Hmono (K - t) ltac:(lia)). lia.
Qed.

(** The hypotheses of [epoch_target_curve] two seconds after a loss at 100 packets. *)
Lemma epoch_target_curve_witness :
  let c := snd (CongestionWindowAfterPacketLoss NewCubic 100) in
  let now := 5 * Second in
  70 <= target_window (start_epoch c 70 (3 * Second)) 0 now <= 100.
Proof.
  intros c now. change 100 with (Z.max 70 (cb_lastMaxCongestionWindow c)).
  destruct (epoch_target_curve c 70 (3 * Second) 0 now) as (_ & H1 & H2 & _).
  - unfold DefaultMaxCongestionWindow. lia.
  - split; vm_compute; discriminate.
  - unfold now, Second. lia.
  - split; [exact H1|]. apply H2. vm_compute. discriminate.
Defined.

(** ** The windows of a run

    [cubic_inv M k] holds after at most [k] acknowledgements of a connection whose
    window is at most [M]. *)

Definition minWindow : Z := 2.

Definition cubic_inv (M k : Z) (c : Cubic) : Prop :=
  connections_ok c /\ 0 <= cb_estimatedTCPcongestionWindow c /\ 0 <= cb_ackedPacketsCount c /\
  estimate_potential c <= 2 ^ 24 + k /\ 0 <= cb_lastMaxCongestionWindow c <= M /\
  (Time_IsZero (cb_epoch c) = false \/ cb_lastCongestionWindow c <> 0 ->
   minWindow <= cb_estimatedTCPcongestionWindow c).

Lemma cubic_inv_weaken M k k' c : k <= k' -> cubic_inv M k c -> cubic_inv M k' c.
Proof. intros Hk (?&?&?&?&?&?). unfold cubic_inv. split_and!; try done; lia. Qed.

Lemma cubic_inv_Reset M k c : 0 <= M -> 0 <= k -> connections_ok c -> cubic_inv M k (Cubic_Reset c).
Proof.
  intros HM Hk Hc. unfold cubic_inv, connections_ok, estimate_potential, maxConnections, Cubic_Reset in *.
  cb_fields. split_and!; try done; try lia. intros [H|H]; done.
Qed.

Lemma cubic_inv_NewCubic M : 0 <= M -> cubic_inv M 0 NewCubic.
Proof.
  intros HM. apply cubic_inv_Reset; [lia..|].
  unfold connections_ok, maxConnections. cb_fields. unfold defaultNumConnections. lia.
Qed.

Lemma cubic_inv_OnApplicationLimited M k c now :
  cubic_inv M k c -> cubic_inv M k (OnApplicationLimited c now).
Proof.
  intros H. unfold OnApplicationLimited, shiftQuicCubicEpochWhenAppLimited.
  destruct (Time_IsZero (cb_appLimitedStartTime c)); [|done].
  unfold cubic_inv, connections_ok, estimate_potential in *. by cb_fields.
Qed.

Lemma cubic_inv_SetNumConnections M k c n :
  1 <= n <= maxConnections -> cubic_inv M k c -> cubic_inv M k (SetNumConnections c n).
Proof.
  intros Hn (?&?&?&?&?&?). unfold cubic_inv, connections_ok, estimate_potential, SetNumConnections in *.
  by cb_fields.
Qed.

Lemma f32_mul_comm x y : f32_mul x y = f32_mul y x.
Proof.
  unfold f32_mul. destruct x as [[]|[]| |[]], y as [[]|[]| |[]]; cbn [SFmul xorb]; try done;
    by rewrite Pos.mul_comm, Z.add_comm.
Qed.

Lemma betaLastMax_le : float_le betaLastMax 1 = true.
Proof. reflexivity. Qed.

(** A loss does not increase the window. *)
Lemma after_loss_bounds M k c w :
  cubic_inv M k c -> 0 <= w <= M -> M < 2 ^ 24 ->
  0 <= fst (CongestionWindowAfterPacketLoss c w) <= w /\
  cubic_inv M k (snd (CongestionWindowAfterPacketLoss c w)).
Proof.
  intros (Hc & He & Ha & Hp & Hm & Hi) Hw HM. unfold CongestionWindowAfterPacketLoss.
  assert (Hb : 0 <= float_to_u64 (f32_mul betaLastMax (f32_of_Z w)) <= w).
  { rewrite f32_mul_comm. apply float_le_u64; [|lia]. apply f32_mul_le; [lia|exact betaLastMax_le]. }
  destruct (factors_ok c Hc) as [Hbeta _].
  assert (Hr : forall c', cb_numConnections c' = cb_numConnections c ->
            0 <= float_to_u64 (f32_mul (f32_of_Z w) (Cubic_beta c')) <= w).
  { intros c' E. apply float_le_u64; [|lia]. apply f32_mul_le; [lia|]. unfold Cubic_beta in *. by rewrite E. }
  destruct (w <? cb_lastMaxCongestionWindow c); cbn [fst snd];
    (split; [by apply Hr|]); unfold cubic_inv, connections_ok, estimate_potential in *; cb_fields;
    split_and!; try done; try lia; intros [H|H]; try done; apply Hi; by right.
Qed.

(** The epoch and its shift keep the invariant. *)
Lemma start_epoch_inv M k c w now :
  cubic_inv M k c -> minWindow <= w <= M -> M < 2 ^ 24 -> 1 <= k ->
  cubic_inv M k (start_epoch c w now) /\ minWindow <= cb_estimatedTCPcongestionWindow (start_epoch c w now).
Proof.
  intros (Hc & He & Ha & Hp & Hm & Hi) Hw HM Hk. unfold start_epoch, minWindow in *.
  unfold cubic_inv, connections_ok, estimate_potential, maxConnections, minWindow in *. cb_fields.
  destruct (cb_lastMaxCongestionWindow c <=? w); cb_fields; split_and!; try done; lia.
Qed.

Lemma shift_epoch_inv M k c now :
  cubic_inv M k c -> Time_IsZero (cb_epoch c) = false ->
  cubic_inv M k (shift_epoch c now) /\ minWindow <= cb_estimatedTCPcongestionWindow (shift_epoch c now).
Proof.
  intros (Hc & He & Ha & Hp & Hm & Hi) Hz. pose proof (Hi (or_introl Hz)) as Hmin.
  unfold shift_epoch. destruct (_ && _); unfold cubic_inv, connections_ok, estimate_potential in *; cb_fields;
    split_and!; try done; lia.
Qed.

Lemma update_estimate_inv M k c :
  cubic_inv M k c -> 0 <= k < 2 ^ 62 -> minWindow <= cb_estimatedTCPcongestionWindow c ->
  cubic_inv M k (update_estimate c) /\ minWindow <= cb_estimatedTCPcongestionWindow (update_estimate c).
Proof.
  intros (Hc & He & Ha & Hp & Hm & Hi) Hk Hmin. unfold update_estimate.
  destruct (estimate_loop_total (estimate_fuel c) c) as (c' & -> & Hok & (Hfr & Hle & Hpot & Hack) & _).
  - unfold estimate_ok. split_and!; try done. lia.
  - destruct Hc. unfold estimate_fuel, estimate_measure. lia.
  - change (default c (Some c')) with c'. split; [|lia]. rewrite Hfr.
    unfold cubic_inv, connections_ok, estimate_potential in *. cb_fields. split_and!; try done; lia.
Qed.

Lemma epoch_inv M k c w now :
  cubic_inv M k c -> minWindow <= w <= M -> M < 2 ^ 24 -> 1 <= k ->
  let c1 := c <| cb_lastCongestionWindow := w |> <| cb_lastUpdateTime := now |> in
  let c2 := if Time_IsZero (cb_epoch c1) then start_epoch c1 w now else shift_epoch c1 now in
  cubic_inv M k c2 /\ minWindow <= cb_estimatedTCPcongestionWindow c2.
Proof.
  intros Hinv Hw HM Hk c1. destruct (Time_IsZero (cb_epoch c)) eqn:Ez.
  - change (cb_epoch c1) with (cb_epoch c). cbv zeta. rewrite Ez.
    assert (H1 : cubic_inv M k (c <| cb_lastUpdateTime := now |>)).
    { unfold cubic_inv, connections_ok, estimate_potential in *. by cb_fields. }
    pose proof (start_epoch_inv M k _ w now H1 Hw HM Hk) as H2. revert H2. unfold c1, start_epoch.
    unfold cubic_inv, connections_ok, estimate_potential. cb_fields.
    destruct (cb_lastMaxCongestionWindow c <=? w); cb_fields; intros [(?&?&?&?&?&?) ?]; split_and!; (done || lia).
  - change (cb_epoch c1) with (cb_epoch c). cbv zeta. rewrite Ez.
    assert (H1 : cubic_inv M k c1).
    { unfold c1. destruct Hinv as (Hc & He & Ha & Hp & Hm & Hi). pose proof (Hi (or_introl Ez)) as Hmin.
      unfold cubic_inv, connections_ok, estimate_potential in *. cb_fields. split_and!; done || lia. }
    by apply shift_epoch_inv.
Qed.

(** An acknowledgement returns a window of at least the smallest one. *)
Lemma after_ack_bounds M k c w delayMin now :
  cubic_inv M k c -> minWindow <= w <= M -> M < 2 ^ 24 -> 0 <= k < 2 ^ 62 - 1 ->
  minWindow <= fst (CongestionWindowAfterAck c w delayMin now) /\
  cubic_inv M (k + 1) (snd (CongestionWindowAfterAck c w delayMin now)).
Proof.
  intros Hinv Hw HM Hk. unfold CongestionWindowAfterAck.
  set (c0 := c <| cb_ackedPacketsCount := u64 (cb_ackedPacketsCount c + 1) |>).
  assert (H0 : cubic_inv M (k + 1) c0).
  { destruct Hinv as (Hc & He & Ha & Hp & Hm & Hi). unfold c0.
    unfold cubic_inv, connections_ok, estimate_potential in *. cb_fields.
    rewrite u64_small by lia. split_and!; try done; lia. }
  clearbody c0. destruct ((cb_lastCongestionWindow c0 =? w) && _) eqn:El.
  - apply andb_prop in El as [El%Z.eqb_eq _]. cbn [fst snd]. split; [|done].
    destruct H0 as (_ & _ & _ & _ & _ & Hi). unfold minWindow in *. specialize (Hi ltac:(right; lia)).
    minmax.
  - destruct (epoch_inv M (k + 1) c0 w now H0 Hw HM ltac:(lia)) as [H2 Hmin2]. cbv zeta in H2, Hmin2.
    set (c2 := if Time_IsZero _ then _ else _) in *. clearbody c2.
    destruct (update_estimate_inv M (k + 1) c2 H2 ltac:(lia) Hmin2) as [H3 Hmin3].
    set (c3 := update_estimate c2) in *. clearbody c3. cbn [fst snd]. split.
    + unfold minWindow in *. cb_fields.
      destruct (Z.ltb_spec (target_window c2 delayMin now) (cb_estimatedTCPcongestionWindow c3)); lia.
    + unfold cubic_inv, connections_ok, estimate_potential in *. by cb_fields.
Qed.

(** The operations keep the number of connections. *)
Lemma estimate_loop_connections fuel c c' :
  estimate_loop fuel c = Some c' -> cb_numConnections c' = cb_numConnections c.
Proof.
  revert c. induction fuel as [|fuel IH]; intros c; [done|]. cbn [estimate_loop].
  destruct (_ <? _); [by intros [= ->]|]. intros H%IH. by cb_fields.
Qed.

Lemma after_loss_connections c w :
  cb_numConnections (snd (CongestionWindowAfterPacketLoss c w)) = cb_numConnections c.
Proof. unfold CongestionWindowAfterPacketLoss. by destruct (w <? cb_lastMaxCongestionWindow c). Qed.

Lemma after_ack_connections c w delayMin now :
  cb_numConnections (snd (CongestionWindowAfterAck c w delayMin now)) = cb_numConnections c.
Proof.
  unfold CongestionWindowAfterAck. destruct (_ && _); [done|].
  set (c2 := if Time_IsZero _ then _ else _).
  assert (H2 : cb_numConnections c2 = cb_numConnections c).
  { unfold c2, start_epoch, shift_epoch. destruct (Time_IsZero _); [by destruct (_ <=? _)|].
    by destruct (_ && _). }
  cbn [snd]. rewrite <- H2. unfold update_estimate.
  destruct (estimate_loop (estimate_fuel c2) c2) as [c3|] eqn:E; [|done].
  by apply estimate_loop_connections in E.
Qed.
