(* ===== verification/CubicSender.v ===== *)
(** * congestion/cubic_sender.go: the congestion controller of a single path

    The controller keeps a window in packets.  Slow start and Reno or Cubic grow
    it, losses and timeouts cut it, and PRR paces the sender during recovery.  It
    is an instance of the interface of congestion controllers; the last sections
    bound the window over every run of it and show that one round trip of losses
    cuts it once. *)

From Stdlib Require Import SpecFloat.
From S2P Require Import Prelude Protocol MinMax Float Rounding RttStats SendAlgorithm SlowStart Cubic.

(** ** congestion/bandwidth.go *)

Definition BitsPerSecond : Z := 1.
Definition BytesPerSecond : Z := 8 * BitsPerSecond.

(** An integer division by a zero [delta] panics. *)
Definition BandwidthFromDelta (bytes : ByteCount) (delta : Duration) : outcome Z :=
  if u64 delta =? 0 then Panic "integer divide by zero"
  else Ok (u64 (u64 (bytes * Second) / u64 delta * BytesPerSecond)).

(** ** The state *)

Definition maxBurstBytes : ByteCount := 3 * DefaultTCPMSS.
Definition defaultMinimumCongestionWindow : PacketNumber := 2.
Definition renoBeta : float32 := f32_const 7 10.

Record connectionStats := mkConnectionStats {
  cst_slowstartPacketsLost : PacketNumber;
  cst_slowstartBytesLost : ByteCount
}.

#[global] Instance eta_connectionStats : Eta connectionStats := fun s =>
  mkConnectionStats (cst_slowstartPacketsLost s) (cst_slowstartBytesLost s).

Record cubicSender := mkCubicSender {
  cs_hybridSlowStart : HybridSlowStart;
  cs_prr : PrrSender;
  cs_stats : connectionStats;
  cs_cubic : Cubic;
  cs_reno : bool;
  cs_largestSentPacketNumber : PacketNumber;
  cs_largestAckedPacketNumber : PacketNumber;
  cs_largestSentAtLastCutback : PacketNumber;
  cs_congestionWindow : PacketNumber;
  cs_slowstartThreshold : PacketNumber;
  cs_lastCutbackExitedSlowstart : bool;
  cs_slowStartLargeReduction : bool;
  cs_minCongestionWindow : PacketNumber;
  cs_maxTCPCongestionWindow : PacketNumber;
  cs_numConnections : Z;
  cs_congestionWindowCount : ByteCount;
  cs_initialCongestionWindow : PacketNumber;
  cs_initialMaxCongestionWindow : PacketNumber
}.

#[global] Instance eta_cubicSender : Eta cubicSender := fun c =>
  mkCubicSender (cs_hybridSlowStart c) (cs_prr c) (cs_stats c) (cs_cubic c) (cs_reno c)
    (cs_largestSentPacketNumber c) (cs_largestAckedPacketNumber c) (cs_largestSentAtLastCutback c)
    (cs_congestionWindow c) (cs_slowstartThreshold c) (cs_lastCutbackExitedSlowstart c)
    (cs_slowStartLargeReduction c) (cs_minCongestionWindow c) (cs_maxTCPCongestionWindow c)
    (cs_numConnections c) (cs_congestionWindowCount c) (cs_initialCongestionWindow c)
    (cs_initialMaxCongestionWindow c).

Definition NewCubicSender (reno : bool)
    (initialCongestionWindow initialMaxCongestionWindow : PacketNumber) : cubicSender :=
  mkCubicSender zeroHybridSlowStart zeroPrrSender (mkConnectionStats 0 0) NewCubic reno 0 0 0
    initialCongestionWindow initialMaxCongestionWindow false false defaultMinimumCongestionWindow
    initialMaxCongestionWindow defaultNumConnections 0 initialCongestionWindow
    initialMaxCongestionWindow.

Implicit Types (c : cubicSender) (rttStats : RTTStats).

(** ** The operations *)

Definition InRecovery c : bool :=
  (cs_largestAckedPacketNumber c <=? cs_largestSentAtLastCutback c)
  && negb (cs_largestAckedPacketNumber c =? 0).

Definition GetCongestionWindow c : ByteCount := u64 (cs_congestionWindow c * DefaultTCPMSS).

Definition GetSlowStartThreshold c : ByteCount := u64 (cs_slowstartThreshold c * DefaultTCPMSS).

Definition InSlowStart c : bool := GetCongestionWindow c <? GetSlowStartThreshold c.

Definition cubic_TimeUntilSend c (now : Time) (bytesInFlight : ByteCount) : Duration :=
  if InRecovery c
  then Prr_TimeUntilSend (cs_prr c) (GetCongestionWindow c) bytesInFlight (GetSlowStartThreshold c)
  else if bytesInFlight <? GetCongestionWindow c then 0 else InfDuration.

Definition cubic_OnPacketSent c (sentTime : Time) (bytesInFlight : ByteCount)
    (packetNumber : PacketNumber) (bytes : ByteCount) (isRetransmittable : bool) : bool * cubicSender :=
  if negb isRetransmittable then (false, c)
  else
    let c := if InRecovery c then c <| cs_prr := Prr_OnPacketSent (cs_prr c) bytes |> else c in
    let c := c <| cs_largestSentPacketNumber := packetNumber |> in
    (true, c <| cs_hybridSlowStart :=
             HybridSlowStart_OnPacketSent (cs_hybridSlowStart c) packetNumber |>).

Definition ExitSlowstart c : cubicSender := c <| cs_slowstartThreshold := cs_congestionWindow c |>.

Definition SlowstartThreshold c : PacketNumber := cs_slowstartThreshold c.

Definition cubic_MaybeExitSlowStart c rttStats : cubicSender :=
  if InSlowStart c then
    let '(exit, hss) := ShouldExitSlowStart (cs_hybridSlowStart c) (LatestRTT rttStats)
                          (MinRTT rttStats) (GetCongestionWindow c / DefaultTCPMSS) in
    let c := c <| cs_hybridSlowStart := hss |> in
    if exit then ExitSlowstart c else c
  else c.

Definition isCwndLimited c (bytesInFlight : ByteCount) : bool :=
  let congestionWindow := GetCongestionWindow c in
  if congestionWindow <=? bytesInFlight then true
  else
    let availableBytes := u64 (congestionWindow - bytesInFlight) in
    let slowStartLimited := InSlowStart c && (congestionWindow / 2 <? bytesInFlight) in
    slowStartLimited || (availableBytes <=? maxBurstBytes).

(** Classic Reno congestion avoidance. *)
Definition reno_increase c : cubicSender :=
  let c := c <| cs_congestionWindowCount := u64 (cs_congestionWindowCount c + 1) |> in
  if cs_congestionWindow c <=? u64 (cs_congestionWindowCount c * u64 (cs_numConnections c))
  then c <| cs_congestionWindow := u64 (cs_congestionWindow c + 1) |> <| cs_congestionWindowCount := 0 |>
  else c.

Definition cubic_increase c rttStats (now : Time) : cubicSender :=
  let '(w, cubic) := CongestionWindowAfterAck (cs_cubic c) (cs_congestionWindow c) (MinRTT rttStats) now in
  c <| cs_cubic := cubic |> <| cs_congestionWindow := MinPacketNumber (cs_maxTCPCongestionWindow c) w |>.

Definition maybeIncreaseCwnd c rttStats (now : Time) (ackedPacketNumber : PacketNumber)
    (ackedBytes bytesInFlight : ByteCount) : cubicSender :=
  if negb (isCwndLimited c bytesInFlight) then
    c <| cs_cubic := OnApplicationLimited (cs_cubic c) now |>
  else if cs_maxTCPCongestionWindow c <=? cs_congestionWindow c then c
  else if InSlowStart c then c <| cs_congestionWindow := u64 (cs_congestionWindow c + 1) |>
  else if cs_reno c then reno_increase c
  else cubic_increase c rttStats now.

Definition cubic_OnPacketAcked c rttStats (now : Time) (ackedPacketNumber : PacketNumber)
    (ackedBytes bytesInFlight : ByteCount) : cubicSender :=
  let c := c <| cs_largestAckedPacketNumber :=
             MaxPacketNumber ackedPacketNumber (cs_largestAckedPacketNumber c) |> in
  if InRecovery c then c <| cs_prr := Prr_OnPacketAcked (cs_prr c) ackedBytes |>
  else
    let c := maybeIncreaseCwnd c rttStats now ackedPacketNumber ackedBytes bytesInFlight in
    if InSlowStart c
    then c <| cs_hybridSlowStart := HybridSlowStart_OnPacketAcked (cs_hybridSlowStart c) ackedPacketNumber |>
    else c.

(** [RenoBeta]: the same factor as Cubic's. *)
Definition RenoBeta c : float32 :=
  let n := f32_of_Z (cs_numConnections c) in
  f32_div (f32_add (f32_sub n (f32_of_Z 1)) renoBeta) n.

(** A loss among the packets sent before the last cutback. *)
Definition lost_before_cutback c (lostBytes : ByteCount) : cubicSender :=
  if cs_lastCutbackExitedSlowstart c then
    let st := cs_stats c in
    let st := st <| cst_slowstartPacketsLost := u64 (cst_slowstartPacketsLost st + 1) |>
                 <| cst_slowstartBytesLost := u64 (cst_slowstartBytesLost st + lostBytes) |> in
    let c := c <| cs_stats := st |> in
    if cs_slowStartLargeReduction c then
      let c := if (cst_slowstartPacketsLost st =? 1)
                  || (u64 (cst_slowstartBytesLost st - lostBytes) / DefaultTCPMSS
                      <? cst_slowstartBytesLost st / DefaultTCPMSS)
               then c <| cs_congestionWindow :=
                      MaxPacketNumber (u64 (cs_congestionWindow c - 1)) (cs_minCongestionWindow c) |>
               else c in
      c <| cs_slowstartThreshold := cs_congestionWindow c |>
    else c
  else c.

(** The reduced window, before the minimum is enforced. *)
Definition reduce_window c : cubicSender :=
  if cs_slowStartLargeReduction c && InSlowStart c then
    c <| cs_congestionWindow := u64 (cs_congestionWindow c - 1) |>
  else if cs_reno c then
    c <| cs_congestionWindow := float_to_u64 (f32_mul (f32_of_Z (cs_congestionWindow c)) (RenoBeta c)) |>
  else
    let '(w, cubic) := CongestionWindowAfterPacketLoss (cs_cubic c) (cs_congestionWindow c) in
    c <| cs_cubic := cubic |> <| cs_congestionWindow := w |>.

Definition cutback c (bytesInFlight : ByteCount) : cubicSender :=
  let c := c <| cs_lastCutbackExitedSlowstart := InSlowStart c |> in
  let c := if InSlowStart c
           then c <| cs_stats := (cs_stats c) <| cst_slowstartPacketsLost :=
                                   u64 (cst_slowstartPacketsLost (cs_stats c) + 1) |> |>
           else c in
  let c := c <| cs_prr := Prr_OnPacketLost (cs_prr c) bytesInFlight |> in
  let c := reduce_window c in
  let c := if cs_congestionWindow c <? cs_minCongestionWindow c
           then c <| cs_congestionWindow := cs_minCongestionWindow c |> else c in
  c <| cs_slowstartThreshold := cs_congestionWindow c |>
    <| cs_largestSentAtLastCutback := cs_largestSentPacketNumber c |>
    <| cs_congestionWindowCount := 0 |>.

Definition cubic_OnPacketLost c rttStats (packetNumber : PacketNumber)
    (lostBytes bytesInFlight : ByteCount) : cubicSender :=
  if packetNumber <=? cs_largestSentAtLastCutback c then lost_before_cutback c lostBytes
  else cutback c bytesInFlight.

(** Unknown (zero) before the first measurement of the round trip time. *)
Definition BandwidthEstimate c rttStats : outcome Z :=
  if SmoothedRTT rttStats =? 0 then Ok 0
  else BandwidthFromDelta (GetCongestionWindow c) (SmoothedRTT rttStats).

Definition cubic_SetNumEmulatedConnections c (n : Z) : cubicSender :=
  let c := c <| cs_numConnections := Max n 1 |> in
  c <| cs_cubic := SetNumConnections (cs_cubic c) (cs_numConnections c) |>.

Definition cubic_OnRetransmissionTimeout c rttStats (packetsRetransmitted : bool) : cubicSender :=
  let c := c <| cs_largestSentAtLastCutback := 0 |> in
  if negb packetsRetransmitted then c
  else
    c <| cs_hybridSlowStart := Restart (cs_hybridSlowStart c) |>
      <| cs_cubic := Cubic_Reset (cs_cubic c) |>
      <| cs_slowstartThreshold := cs_congestionWindow c / 2 |>
      <| cs_congestionWindow := cs_minCongestionWindow c |>.

Definition cubic_OnConnectionMigration c rttStats : cubicSender :=
  mkCubicSender (Restart (cs_hybridSlowStart c)) zeroPrrSender (cs_stats c) (Cubic_Reset (cs_cubic c))
    (cs_reno c) 0 0 0 (cs_initialCongestionWindow c) (cs_initialMaxCongestionWindow c) false
    (cs_slowStartLargeReduction c) (cs_minCongestionWindow c) (cs_initialMaxCongestionWindow c)
    (cs_numConnections c) 0 (cs_initialCongestionWindow c) (cs_initialMaxCongestionWindow c).

Definition cubic_SetSlowStartLargeReduction c (enabled : bool) : cubicSender :=
  c <| cs_slowStartLargeReduction := enabled |>.

Definition cubic_RetransmissionDelay c rttStats : Duration :=
  if SmoothedRTT rttStats =? 0 then 0
  else i64 (SmoothedRTT rttStats + i64 (MeanDeviation rttStats * 4)).

Definition cubic_SmoothedRTT c rttStats : Duration := SmoothedRTT rttStats.

#[global] Instance cubicSender_SendAlgorithm : SendAlgorithm cubicSender :=
  mkSendAlgorithm cubicSender cubic_TimeUntilSend cubic_OnPacketSent GetCongestionWindow
    cubic_MaybeExitSlowStart cubic_OnPacketAcked cubic_OnPacketLost cubic_SetNumEmulatedConnections
    cubic_OnRetransmissionTimeout cubic_OnConnectionMigration cubic_RetransmissionDelay
    cubic_SmoothedRTT cubic_SetSlowStartLargeReduction.

#[local] Arguments assign {R T} field {_} v r /.
Ltac cs_fields :=
  cbn [assign cs_hybridSlowStart cs_prr cs_stats cs_cubic cs_reno cs_largestSentPacketNumber
       cs_largestAckedPacketNumber cs_largestSentAtLastCutback cs_congestionWindow
       cs_slowstartThreshold cs_lastCutbackExitedSlowstart cs_slowStartLargeReduction
       cs_minCongestionWindow cs_maxTCPCongestionWindow cs_numConnections cs_congestionWindowCount
       cs_initialCongestionWindow cs_initialMaxCongestionWindow fst snd] in *.

(** ** The window of a run *)

(** [maxWindow] is the largest window the controller was created with and [k] the
    number of calls so far. *)
Record sender_inv (init maxWindow k : Z) (c : cubicSender) : Prop := mkSenderInv {
  si_bounds : 2 <= init <= maxWindow /\ maxWindow < 2 ^ 24;
  si_initial : cs_initialCongestionWindow c = init /\ cs_initialMaxCongestionWindow c = maxWindow;
  si_min : cs_minCongestionWindow c = 2;
  si_max : cs_maxTCPCongestionWindow c = maxWindow;
  si_window : 2 <= cs_congestionWindow c <= maxWindow;
  si_connections : cs_numConnections c = cb_numConnections (cs_cubic c);
  si_cubic : cubic_inv maxWindow k (cs_cubic c)
}.

Section Window.
Context (init maxWindow : Z).
Abbreviation inv := (sender_inv init maxWindow).

(** Calls that touch neither the window nor Cubic. *)
Lemma sender_inv_same k k' c c' :
  k <= k' -> inv k c ->
  cs_initialCongestionWindow c' = cs_initialCongestionWindow c ->
  cs_initialMaxCongestionWindow c' = cs_initialMaxCongestionWindow c ->
  cs_minCongestionWindow c' = cs_minCongestionWindow c ->
  cs_maxTCPCongestionWindow c' = cs_maxTCPCongestionWindow c ->
  cs_congestionWindow c' = cs_congestionWindow c ->
  cs_numConnections c' = cs_numConnections c -> cs_cubic c' = cs_cubic c -> inv k' c'.
Proof.
  intros Hk [H1 H2 H3 H4 H5 H6 H7] E1 E2 E3 E4 E5 E6 E7.
  constructor; rewrite ?E1, ?E2, ?E3, ?E4, ?E5, ?E6, ?E7; try done. by apply (cubic_inv_weaken _ k).
Qed.

(** A new window within the bounds. *)
Lemma sender_inv_window k k' c c' cubic' :
  k <= k' -> inv k c -> 2 <= cs_congestionWindow c' <= maxWindow ->
  cubic_inv maxWindow k' cubic' -> cb_numConnections cubic' = cb_numConnections (cs_cubic c) ->
  cs_initialCongestionWindow c' = cs_initialCongestionWindow c ->
  cs_initialMaxCongestionWindow c' = cs_initialMaxCongestionWindow c ->
  cs_minCongestionWindow c' = cs_minCongestionWindow c ->
  cs_maxTCPCongestionWindow c' = cs_maxTCPCongestionWindow c ->
  cs_numConnections c' = cs_numConnections c -> cs_cubic c' = cubic' -> inv k' c'.
Proof.
  intros Hk [H1 H2 H3 H4 H5 H6 H7] Hw Hcb En E1 E2 E3 E4 E5 E6.
  constructor; rewrite ?E1, ?E2, ?E3, ?E4, ?E5, ?E6; try done. by rewrite En.
Qed.

(** The two growths of congestion avoidance, below the largest window. *)
Lemma reno_increase_inv k c :
  inv k c -> cs_congestionWindow c < maxWindow -> inv (k + 1) (reno_increase c).
Proof.
  intros Hinv Hlt. pose proof Hinv as [H1 _ _ _ H5 _ H7]. unfold reno_increase. cs_fields.
  destruct (_ <=? _); eapply (sender_inv_window k); try done; cs_fields; try lia;
    try (by apply (cubic_inv_weaken _ k); [lia|]). rewrite u64_small; lia.
Qed.

Lemma cubic_increase_inv k c rttStats now :
  inv k c -> cs_congestionWindow c < maxWindow -> 0 <= k < 2 ^ 62 - 1 ->
  inv (k + 1) (cubic_increase c rttStats now).
Proof.
  intros Hinv Hlt Hk. pose proof Hinv as [H1 _ _ H4 H5 _ H7]. unfold cubic_increase.
  pose proof (after_ack_bounds maxWindow k (cs_cubic c) (cs_congestionWindow c) (MinRTT rttStats) now H7) as Hb.
  pose proof (after_ack_connections (cs_cubic c) (cs_congestionWindow c) (MinRTT rttStats) now) as Hn.
  destruct (CongestionWindowAfterAck _ _ _ _) as [w cubic]. cs_fields. unfold minWindow in Hb.
  destruct Hb as [Hw Hcb]; [lia..|].
  apply (sender_inv_window k _ c _ cubic); try done; cs_fields; [lia|]. rewrite H4. minmax.
Qed.

Lemma maybeIncreaseCwnd_inv k c rttStats now n bytes inFlight :
  inv k c -> 0 <= k < 2 ^ 62 - 1 -> inv (k + 1) (maybeIncreaseCwnd c rttStats now n bytes inFlight).
Proof.
  intros Hinv Hk. pose proof Hinv as [H1 _ _ H4 H5 _ H7]. unfold maybeIncreaseCwnd.
  destruct (isCwndLimited c inFlight); cbn [negb].
  2: { apply (sender_inv_window k _ c _ (OnApplicationLimited (cs_cubic c) now)); try done; cs_fields; [lia| |].
       - apply cubic_inv_OnApplicationLimited. by apply (cubic_inv_weaken _ k); [lia|].
       - unfold OnApplicationLimited, shiftQuicCubicEpochWhenAppLimited. by destruct (Time_IsZero _). }
  rewrite H4. destruct (Z.leb_spec maxWindow (cs_congestionWindow c)).
  { by apply (sender_inv_same k _ c); [lia|..]. }
  destruct (InSlowStart c).
  { apply (sender_inv_window k _ c _ (cs_cubic c)); try done; cs_fields; [lia| |by apply (cubic_inv_weaken _ k); [lia|]].
    rewrite u64_small; lia. }
  destruct (cs_reno c); [by apply reno_increase_inv|by apply cubic_increase_inv].
Qed.

Lemma OnPacketAcked_inv k c rttStats now n bytes inFlight :
  inv k c -> 0 <= k < 2 ^ 62 - 1 -> inv (k + 1) (cubic_OnPacketAcked c rttStats now n bytes inFlight).
Proof.
  intros Hinv Hk. unfold cubic_OnPacketAcked.
  set (c0 := c <| cs_largestAckedPacketNumber := _ |>).
  assert (H0 : inv k c0) by (by apply (sender_inv_same k _ c)). clearbody c0.
  destruct (InRecovery c0); [by apply (sender_inv_same k _ c0); [lia|..]|].
  pose proof (maybeIncreaseCwnd_inv k c0 rttStats now n bytes inFlight H0 Hk) as H1.
  set (c1 := maybeIncreaseCwnd _ _ _ _ _ _) in *. clearbody c1.
  destruct (InSlowStart c1); [|done]. by apply (sender_inv_same (k + 1) _ c1).
Qed.

(** The factor of Reno is Cubic's. *)
Lemma RenoBeta_le k c : inv k c -> float_le (RenoBeta c) 1 = true.
Proof.
  intros [_ _ _ _ _ H6 (Hc & _)]. destruct (factors_ok _ Hc) as [Hb _].
  unfold RenoBeta. rewrite H6. exact Hb.
Qed.

(** A reduction does not increase the window. *)
Lemma reduce_window_inv k c :
  inv k c ->
  let c' := reduce_window c in
  0 <= cs_congestionWindow c' <= cs_congestionWindow c /\
  inv k (c' <| cs_congestionWindow := cs_congestionWindow c |>).
Proof.
  intros Hinv. pose proof Hinv as [H1 _ _ H4 H5 _ H7]. unfold reduce_window.
  destruct (cs_slowStartLargeReduction c && InSlowStart c); cs_fields.
  { split; [rewrite u64_small; lia|]. by apply (sender_inv_same k _ c). }
  destruct (cs_reno c); cs_fields.
  { split; [|by apply (sender_inv_same k _ c)].
    apply float_le_u64; [|lia]. apply f32_mul_le; [lia|by apply (RenoBeta_le k)]. }
  pose proof (after_loss_bounds maxWindow k (cs_cubic c) (cs_congestionWindow c) H7 ltac:(lia) ltac:(lia)) as Hb.
  pose proof (after_loss_connections (cs_cubic c) (cs_congestionWindow c)) as Hn.
  destruct (CongestionWindowAfterPacketLoss _ _) as [w cubic]. cs_fields. destruct Hb as [Hw Hcb].
  split; [done|]. by apply (sender_inv_window k _ c _ cubic).
Qed.

Lemma cutback_inv k c inFlight : inv k c -> inv k (cutback c inFlight).
Proof.
  intros Hinv. unfold cutback.
  set (c1 := c <| cs_lastCutbackExitedSlowstart := _ |>).
  set (c2 := if InSlowStart c1 then _ else c1).
  set (c3 := c2 <| cs_prr := _ |>).
  assert (H3 : inv k c3).
  { unfold c3, c2. destruct (InSlowStart c1); by apply (sender_inv_same k _ c). }
  clearbody c3. pose proof (reduce_window_inv k c3 H3) as [Hw H4]. cbv zeta in *.
  set (c4 := reduce_window c3) in *. clearbody c4. pose proof H3 as [Hb _ _ _ Hw3 _ _].
  pose proof (si_min _ _ _ _ H4) as Hmin. cs_fields. rewrite Hmin.
  destruct (Z.ltb_spec (cs_congestionWindow c4) 2); cs_fields;
    (eapply (sender_inv_window k k _ _ (cs_cubic c4)); [lia|exact H4|cs_fields; lia|exact (si_cubic _ _ _ _ H4)|done..]).
Qed.

Lemma lost_before_cutback_inv k c lostBytes : inv k c -> inv k (lost_before_cutback c lostBytes).
Proof.
  intros Hinv. pose proof Hinv as [Hb _ Hmin _ Hw _ Hcb]. unfold lost_before_cutback.
  destruct (cs_lastCutbackExitedSlowstart c); [|done]. cs_fields.
  destruct (cs_slowStartLargeReduction c); [|by apply (sender_inv_same k _ c)].
  destruct (_ || _); cs_fields; [|by apply (sender_inv_same k _ c)].
  apply (sender_inv_window k k c _ (cs_cubic c)); try done. cs_fields. rewrite Hmin, u64_small by lia. minmax.
Qed.

Lemma sender_apply_inv k c e :
  0 <= k < 2 ^ 62 - 1 ->
  (match e with EvSetNumEmulatedConnections n => n <= maxConnections | _ => True end) ->
  inv k c -> inv (k + 1) (sa_apply c e).
Proof.
  intros Hk He Hinv. pose proof Hinv as [Hb Hi Hmin Hmax Hw Hn Hcb].
  assert (Hcb' : cubic_inv maxWindow (k + 1) (cs_cubic c)) by (apply (cubic_inv_weaken _ k); [lia|done]).
  assert (Hweak : forall c', inv k c' -> inv (k + 1) c').
  { intros c' Hc'. by apply (sender_inv_same k _ c'); [lia|..]. }
  pose proof Hcb' as (Hconn & _).
  destruct e as [t f n b r|rtt|rtt now n b f|rtt n b f|n|rtt r|rtt|b]; cbn [sa_apply].
  - cbn. unfold cubic_OnPacketSent. destruct r; cbn [negb snd]; [|by apply Hweak].
    destruct (InRecovery c); by apply (sender_inv_same k _ c); [lia|..].
  - cbn. unfold cubic_MaybeExitSlowStart. destruct (InSlowStart c); [|by apply Hweak].
    destruct (ShouldExitSlowStart _ _ _ _) as [[] hss]; by apply (sender_inv_same k _ c); [lia|..].
  - by apply OnPacketAcked_inv.
  - cbn. unfold cubic_OnPacketLost. apply Hweak.
    destruct (_ <=? _); [by apply lost_before_cutback_inv|by apply cutback_inv].
  - cbn. unfold cubic_SetNumEmulatedConnections. rewrite Max_max. constructor; cs_fields; try done.
    apply cubic_inv_SetNumConnections; [unfold maxConnections in *; lia|done].
  - cbn. unfold cubic_OnRetransmissionTimeout. destruct r; cbn [negb]; [|by apply (sender_inv_same k _ c); [lia|..]].
    apply (sender_inv_window k _ c _ (Cubic_Reset (cs_cubic c))); try done; cs_fields; [lia|lia|].
    apply cubic_inv_Reset; [lia..|done].
  - cbn. unfold cubic_OnConnectionMigration. destruct Hi as [-> ->]. constructor; cs_fields; try done; try lia.
    apply cubic_inv_Reset; [lia..|done].
  - cbn. by apply (sender_inv_same k _ c); [lia|..].
Qed.
End Window.

(** At most 1024 emulated connections are asked for. *)
Definition call_ok (e : sa_event) : Prop :=
  match e with EvSetNumEmulatedConnections n => n <= maxConnections | _ => True end.

Lemma cubic_run_inv reno init maxWindow es :
  2 <= init <= maxWindow -> maxWindow < 2 ^ 24 -> Forall call_ok es -> zlen es < 2 ^ 62 ->
  sender_inv init maxWindow (zlen es) (sa_run (NewCubicSender reno init maxWindow) es).
Proof.
  intros Hi HM Hes Hlen.
  apply (sa_run_invariant (sender_inv init maxWindow) call_ok (2 ^ 62 - 1)); [|..|done|lia].
  - intros k c e Hk He. by apply sender_apply_inv.
  - constructor; cs_fields; try done. apply cubic_inv_NewCubic. lia.
Qed.

Lemma sender_inv_bytes init maxWindow k c :
  sender_inv init maxWindow k c ->
  2 * DefaultTCPMSS <= sa_GetCongestionWindow c <= maxWindow * DefaultTCPMSS.
Proof.
  intros [Hb _ _ _ Hw _ _]. cbn. unfold GetCongestionWindow, DefaultTCPMSS.
  rewrite u64_small by lia. lia.
Qed.

(** C36: over every run of calls, a Cubic or Reno controller keeps its window
    between two packets and the largest window it was created with. *)
Theorem cubic_sender_window reno init maxWindow es :
  2 <= init <= maxWindow -> maxWindow < 2 ^ 24 -> Forall call_ok es -> zlen es < 2 ^ 62 ->
  2 * DefaultTCPMSS
    <= sa_GetCongestionWindow (sa_run (NewCubicSender reno init maxWindow) es)
    <= maxWindow * DefaultTCPMSS.
Proof. intros Hi HM Hes Hlen. by eapply sender_inv_bytes, cubic_run_inv. Qed.

(** The hypotheses of [cubic_sender_window] at the windows the program configures
    and a run with a loss, acknowledgements and a timeout. *)
Lemma cubic_sender_window_witness :
  let es := [EvPacketSent 1 0 1 1460 true; EvPacketAcked NewRTTStats 2 1 1460 93440;
             EvPacketLost NewRTTStats 2 1460 93440; EvPacketAcked NewRTTStats 3 3 1460 93440;
             EvRetransmissionTimeout NewRTTStats true] in
  2 * DefaultTCPMSS
    <= sa_GetCongestionWindow
         (sa_run (NewCubicSender false InitialCongestionWindow DefaultMaxCongestionWindow) es)
    <= DefaultMaxCongestionWindow * DefaultTCPMSS.
Proof.
  intros es. apply (cubic_sender_window false InitialCongestionWindow DefaultMaxCongestionWindow es).
  - unfold InitialCongestionWindow, DefaultMaxCongestionWindow. lia.
  - unfold DefaultMaxCongestionWindow. lia.
  - repeat constructor.
  - reflexivity.
Defined.

(** ** One cutback for a round trip of losses *)

Lemma lost_before_cutback_window c lostBytes :
  cs_slowStartLargeReduction c = false ->
  cs_congestionWindow (lost_before_cutback c lostBytes) = cs_congestionWindow c /\
  cs_largestSentAtLastCutback (lost_before_cutback c lostBytes) = cs_largestSentAtLastCutback c /\
  cs_slowStartLargeReduction (lost_before_cutback c lostBytes) = false.
Proof.
  intros H. unfold lost_before_cutback. destruct (cs_lastCutbackExitedSlowstart c); [|done].
  cs_fields. by rewrite H.
Qed.

Lemma cutback_largest_sent c inFlight :
  cs_largestSentAtLastCutback (cutback c inFlight) = cs_largestSentPacketNumber c /\
  cs_slowStartLargeReduction (cutback c inFlight) = cs_slowStartLargeReduction c.
Proof.
  unfold cutback, reduce_window.
  destruct (InSlowStart (c <| cs_lastCutbackExitedSlowstart := InSlowStart c |>)); cs_fields;
    destruct (_ && _); cs_fields; try (by destruct (_ <? _)); destruct (cs_reno c); cs_fields;
    try (by destruct (_ <? _)); destruct (CongestionWindowAfterPacketLoss _ _); cs_fields; by destruct (_ <? _).
Qed.

(** A loss cuts the window; the losses of the other packets that were in flight
    then do not cut it again. *)
Lemma one_cutback c rttStats n bytes inFlight losses :
  cs_slowStartLargeReduction c = false -> cs_largestSentAtLastCutback c < n ->
  Forall (fun '(n', _, _) => n' <= cs_largestSentPacketNumber c) losses ->
  cs_congestionWindow
    (foldl (fun c '(n', b, f) => cubic_OnPacketLost c rttStats n' b f)
           (cubic_OnPacketLost c rttStats n bytes inFlight) losses)
    = cs_congestionWindow (cutback c inFlight).
Proof.
  intros Hr Hn Hl. unfold cubic_OnPacketLost at 2.
  destruct (Z.leb_spec n (cs_largestSentAtLastCutback c)); [lia|].
  destruct (cutback_largest_sent c inFlight) as [E1 E2]. rewrite Hr in E2. rewrite <- E1 in Hl.
  clear E1. revert E2 Hl. generalize (cutback c inFlight). clear.
  induction losses as [|[[n' b] f] losses IH]; intros c1 E2 Hl; [done|].
  apply Forall_cons in Hl as [Hn' Hl]. cbn [foldl]. unfold cubic_OnPacketLost at 2.
  destruct (Z.leb_spec n' (cs_largestSentAtLastCutback c1)); [|lia].
  destruct (lost_before_cutback_window c1 b E2) as (Hw & Hs & Hf).
  rewrite IH; [done|done|by rewrite Hs].
Qed.
