(* ===== verification/Olia.v ===== *)
(** * congestion/olia.go and the state of congestion/olia_sender.go

    OLIA couples the controllers of the paths of a connection.  Each path has an
    [Olia] record and a sender; all senders share one map from path identifiers to
    senders, and an acknowledgement on one path rewrites the [epsilon] of every
    path.  The map is a finite map here; the order in which a Go [range] visits it
    is an argument where the result can depend on it. *)

From Stdlib Require Import SpecFloat QArith.
From S2P Require Import Prelude Protocol MinMax Float Rounding RttStats SendAlgorithm SlowStart Cubic CubicSender.
#[local] Open Scope Z_scope.

Definition olia_scale : Z := 10.

Record Olia := mkOlia {
  ol_loss1 : ByteCount;
  ol_loss2 : ByteCount;
  ol_loss3 : ByteCount;
  ol_epsilonNum : Z;
  ol_epsilonDen : Z;
  ol_sndCwndCnt : Z
}.

#[global] Instance eta_Olia : Eta Olia := fun o =>
  mkOlia (ol_loss1 o) (ol_loss2 o) (ol_loss3 o) (ol_epsilonNum o) (ol_epsilonDen o) (ol_sndCwndCnt o).

Definition NewOlia (ackedBytes : ByteCount) : Olia := mkOlia ackedBytes ackedBytes ackedBytes 0 1 0.

Definition oliaScale (val scale : Z) : Z := shl64 val scale.

Definition Olia_Reset (o : Olia) : Olia := mkOlia 0 0 0 0 1 0.

Definition SmoothedBytesBetweenLosses (o : Olia) : ByteCount :=
  utils_MaxByteCount (u64 (ol_loss3 o - ol_loss2 o)) (u64 (ol_loss2 o - ol_loss1 o)).

Definition UpdateAckedSinceLastLoss (o : Olia) (ackedBytes : ByteCount) : Olia :=
  o <| ol_loss3 := u64 (ol_loss3 o + ackedBytes) |>.

Definition Olia_OnPacketLost (o : Olia) : Olia :=
  let o := o <| ol_loss1 := ol_loss2 o |> in o <| ol_loss2 := ol_loss3 o |>.

(** The increasing term of an acknowledgement, in units of 2^-10 packets. *)
Definition olia_increase (o : Olia) (currentCongestionWindow : PacketNumber) (rate : ByteCount)
    (cwndScaled : Z) : Olia :=
  let incDen := u64 (u64 (ol_epsilonDen o * currentCongestionWindow) * rate) in
  let incDen := if incDen =? 0 then 1 else incDen in
  let square := u64 (u64 (ol_epsilonDen o * cwndScaled) * cwndScaled) in
  if ol_epsilonNum o =? -1 then
    if square <? rate then
      let incNum := u64 (rate - square) in
      o <| ol_sndCwndCnt := i64 (ol_sndCwndCnt o - i64 (oliaScale incNum olia_scale / incDen)) |>
    else
      let incNum := u64 (square - rate) in
      o <| ol_sndCwndCnt := i64 (ol_sndCwndCnt o + i64 (oliaScale incNum olia_scale / incDen)) |>
  else
    let incNum := u64 (u64 (u64 (ol_epsilonNum o) * rate) + square) in
    o <| ol_sndCwndCnt := i64 (ol_sndCwndCnt o + i64 (oliaScale incNum olia_scale / incDen)) |>.

Definition Olia_CongestionWindowAfterAck (o : Olia) (currentCongestionWindow : PacketNumber)
    (rate : ByteCount) (cwndScaled : Z) : PacketNumber * Olia :=
  let o := olia_increase o currentCongestionWindow rate cwndScaled in
  if Z.shiftl 1 olia_scale - 1 <=? ol_sndCwndCnt o then
    (u64 (currentCongestionWindow + 1), o <| ol_sndCwndCnt := 0 |>)
  else if ol_sndCwndCnt o <=? 0 - Z.shiftl 1 olia_scale + 1 then
    (MaxPacketNumber 1 (u64 (currentCongestionWindow - 1)), o <| ol_sndCwndCnt := 0 |>)
  else (currentCongestionWindow, o).

(** An acknowledgement changes the window by at most one packet and leaves at
    least one. *)
Lemma Olia_CongestionWindowAfterAck_step o w rate cwndScaled :
  1 <= w < 2 ^ 63 ->
  Z.max 1 (w - 1) <= fst (Olia_CongestionWindowAfterAck o w rate cwndScaled) <= w + 1.
Proof.
  intros Hw. unfold Olia_CongestionWindowAfterAck.
  destruct (_ <=? _); [cbn [fst]; rewrite u64_small; lia|].
  destruct (_ <=? _); cbn [fst]; [|lia]. rewrite u64_small by lia. minmax.
Qed.

(** ** The senders *)

Record OliaSender := mkOliaSender {
  os_hybridSlowStart : HybridSlowStart;
  os_prr : PrrSender;
  os_rttStats : RTTStats;
  os_stats : connectionStats;
  os_olia : Olia;
  os_largestSentPacketNumber : PacketNumber;
  os_largestAckedPacketNumber : PacketNumber;
  os_largestSentAtLastCutback : PacketNumber;
  os_congestionWindow : PacketNumber;
  os_slowstartThreshold : PacketNumber;
  os_lastCutbackExitedSlowstart : bool;
  os_slowStartLargeReduction : bool;
  os_minCongestionWindow : PacketNumber;
  os_maxTCPCongestionWindow : PacketNumber;
  os_numConnections : Z;
  os_congestionWindowCount : ByteCount;
  os_initialCongestionWindow : PacketNumber;
  os_initialMaxCongestionWindow : PacketNumber;
  os_TmpBwt : Z;
  os_tmpCongestionWindow : PacketNumber
}.

#[global] Instance eta_OliaSender : Eta OliaSender := fun o =>
  mkOliaSender (os_hybridSlowStart o) (os_prr o) (os_rttStats o) (os_stats o) (os_olia o)
    (os_largestSentPacketNumber o) (os_largestAckedPacketNumber o) (os_largestSentAtLastCutback o)
    (os_congestionWindow o) (os_slowstartThreshold o) (os_lastCutbackExitedSlowstart o)
    (os_slowStartLargeReduction o) (os_minCongestionWindow o) (os_maxTCPCongestionWindow o)
    (os_numConnections o) (os_congestionWindowCount o) (os_initialCongestionWindow o)
    (os_initialMaxCongestionWindow o) (os_TmpBwt o) (os_tmpCongestionWindow o).

(** The map all senders of a connection share; the pointer each sender keeps to
    the statistics of its path is the copy [os_rttStats]. *)
Abbreviation oliaSenders := (gmap PathID OliaSender).

Definition NewOliaSender (rttStats : RTTStats)
    (initialCongestionWindow initialMaxCongestionWindow : PacketNumber) : OliaSender :=
  mkOliaSender zeroHybridSlowStart zeroPrrSender rttStats (mkConnectionStats 0 0) (NewOlia 0) 0 0 0
    initialCongestionWindow initialMaxCongestionWindow false false defaultMinimumCongestionWindow
    initialMaxCongestionWindow defaultNumConnections 0 initialCongestionWindow
    initialMaxCongestionWindow 0 initialCongestionWindow.

(** The values a [range] over the map visits. *)
Definition senders (m : oliaSenders) : list OliaSender := (map_to_list m).*2.

Definition getMaxCwnd (m : oliaSenders) : PacketNumber :=
  foldl (fun bestCwnd os => MaxPacketNumber bestCwnd (os_congestionWindow os)) 0 (senders m).

Definition getRate (m : oliaSenders) (pathRTT : Duration) : ByteCount :=
  let rate := foldl (fun rate os =>
    let scaledNum := u64 (oliaScale (os_congestionWindow os) olia_scale * u64 pathRTT) in
    if SmoothedRTT (os_rttStats os) =? 0 then rate
    else u64 (rate + scaledNum / u64 (SmoothedRTT (os_rttStats os)))) 1 (senders m) in
  u64 (rate * rate).

(** The square of the smoothed round trip time, and the bytes between losses. *)
Definition os_tmpRTT (os : OliaSender) : Duration :=
  i64 (SmoothedRTT (os_rttStats os) * SmoothedRTT (os_rttStats os)).
Definition os_tmpBytes (os : OliaSender) : ByteCount := SmoothedBytesBetweenLosses (os_olia os).

(** [int64(tmpBytes) * bestRTT >= int64(bestBytes) * tmpRTT] *)
Definition at_least_best (bestRTT : Duration) (bestBytes : ByteCount) (os : OliaSender) : bool :=
  i64 (i64 bestBytes * os_tmpRTT os) <=? i64 (i64 (os_tmpBytes os) * bestRTT).

(** The best path, in the order [order] of the first [range]. *)
Definition getBest (order : list OliaSender) : Duration * ByteCount :=
  foldl (fun '(bestRTT, bestBytes) os =>
    if at_least_best bestRTT bestBytes os then (os_tmpRTT os, os_tmpBytes os)
    else (bestRTT, bestBytes)) (0, 0) order.

(** The sizes of the set of the largest windows and of the best paths outside it,
    in counters of eight bits. *)
Definition countM (m : oliaSenders) (maxCwnd : PacketNumber) : Z :=
  foldl (fun M os => if os_congestionWindow os =? maxCwnd then u8 (M + 1) else M) 0 (senders m).

Definition countBNotM (m : oliaSenders) (maxCwnd : PacketNumber) (best : Duration * ByteCount) : Z :=
  foldl (fun B os => if os_congestionWindow os =? maxCwnd then B
                     else if at_least_best (fst best) (snd best) os then u8 (B + 1) else B)
        0 (senders m).

Definition set_epsilon (os : OliaSender) (num den : Z) : OliaSender :=
  os <| os_olia := (os_olia os) <| ol_epsilonNum := num |> <| ol_epsilonDen := den |> |>.

Definition assign_epsilon (n maxCwnd M BNotM : Z) (best : Duration * ByteCount) (os : OliaSender) :
    OliaSender :=
  if BNotM =? 0 then set_epsilon os 0 1
  else if (os_congestionWindow os <? maxCwnd) && at_least_best (fst best) (snd best) os
  then set_epsilon os 1 (u32 (u32 n * BNotM))
  else if os_congestionWindow os =? maxCwnd then set_epsilon os (-1) (u32 (u32 n * M))
  else set_epsilon os 0 1.

Definition getEpsilon (m : oliaSenders) (order : list OliaSender) : oliaSenders :=
  let maxCwnd := getMaxCwnd m in
  let best := getBest order in
  assign_epsilon (Z.of_nat (size m)) maxCwnd (countM m maxCwnd) (countBNotM m maxCwnd best) best <$> m.

#[local] Arguments assign {R T} field {_} v r /.
Ltac os_fields :=
  cbn [assign os_hybridSlowStart os_prr os_rttStats os_stats os_olia os_largestSentPacketNumber
       os_largestAckedPacketNumber os_largestSentAtLastCutback os_congestionWindow
       os_slowstartThreshold os_lastCutbackExitedSlowstart os_slowStartLargeReduction
       os_minCongestionWindow os_maxTCPCongestionWindow os_numConnections os_congestionWindowCount
       os_initialCongestionWindow os_initialMaxCongestionWindow os_TmpBwt os_tmpCongestionWindow
       ol_loss1 ol_loss2 ol_loss3 ol_epsilonNum ol_epsilonDen ol_sndCwndCnt fst snd] in *.

(** ** The coupling of the paths

    The [epsilon] of a path moves its share of the traffic: the best paths with a
    small window gain what the paths with the largest window lose. *)

Definition epsilon (os : OliaSender) : Q :=
  (inject_Z (ol_epsilonNum (os_olia os)) / inject_Z (ol_epsilonDen (os_olia os)))%Q.

Definition sum_epsilon (l : list OliaSender) : Q := foldr (fun os s => (epsilon os + s)%Q) 0%Q l.

Definition count {A} (p : A -> bool) (l : list A) : Z := zlen (List.filter p l).

Lemma count_cons {A} (p : A -> bool) x l : count p (x :: l) = Z.b2z (p x) + count p l.
Proof. unfold count. cbn [List.filter]. destruct (p x); rewrite ?zlen_cons; simpl; lia. Qed.

Lemma count_bounds {A} (p : A -> bool) l : 0 <= count p l <= zlen l.
Proof.
  induction l as [|x l IH]; [done|]. rewrite count_cons, zlen_cons. destruct (p x); simpl; lia.
Qed.

(** A counter of eight bits is exact up to 255 paths. *)
Lemma foldl_count {A} (p : A -> bool) l a :
  0 <= a -> a + zlen l < 256 ->
  foldl (fun a x => if p x then u8 (a + 1) else a) a l = a + count p l.
Proof.
  revert a. induction l as [|x l IH]; intros a Ha Hl; [change (count p []) with 0; rewrite Z.add_0_r; done|].
  rewrite zlen_cons in Hl. pose proof (zlen_nonneg l). cbn [foldl]. rewrite count_cons.
  destruct (p x); [rewrite u8_small by lia|]; rewrite IH by lia; simpl; lia.
Qed.

Lemma foldl_ext {A B} (f g : B -> A -> B) b l :
  (forall b x, f b x = g b x) -> foldl f b l = foldl g b l.
Proof. intros H. revert b. induction l as [|x l IH]; intros b; [done|]. cbn. by rewrite H, IH. Qed.

Lemma foldl_max_le (l : list OliaSender) a :
  a <= foldl (fun b os => MaxPacketNumber b (os_congestionWindow os)) a l /\
  Forall (fun os => os_congestionWindow os
                    <= foldl (fun b os => MaxPacketNumber b (os_congestionWindow os)) a l) l.
Proof.
  revert a. induction l as [|x l IH]; intros a; [split; [cbn; lia|constructor]|]. cbn [foldl].
  destruct (IH (MaxPacketNumber a (os_congestionWindow x))) as [H1 H2].
  assert (a <= MaxPacketNumber a (os_congestionWindow x) /\
          os_congestionWindow x <= MaxPacketNumber a (os_congestionWindow x)) by minmax.
  split; [lia|]. constructor; [lia|done].
Qed.

Lemma foldl_max_attained (l : list OliaSender) a :
  foldl (fun b os => MaxPacketNumber b (os_congestionWindow os)) a l = a \/
  Exists (fun os => os_congestionWindow os
                    = foldl (fun b os => MaxPacketNumber b (os_congestionWindow os)) a l) l.
Proof.
  revert a. induction l as [|x l IH]; intros a; [by left|]. cbn [foldl].
  destruct (IH (MaxPacketNumber a (os_congestionWindow x))) as [E|E]; [|by right; constructor 2].
  rewrite E. unfold MaxPacketNumber. destruct (_ <? _); [by left|]. right. by constructor 1.
Qed.

Lemma count_pos {A} (p : A -> bool) l : Exists (fun x => p x = true) l -> 1 <= count p l.
Proof.
  induction 1 as [x l Hx|x l H IH]; rewrite count_cons.
  - rewrite Hx. pose proof (count_bounds p l). simpl. lia.
  - destruct (p x); simpl; lia.
Qed.

Section Coupling.
Context (m : oliaSenders) (order : list OliaSender).
(** Windows are not negative, and there are at most 255 paths: a path identifier
    is a byte and the initial path has no OLIA controller. *)
Context (Hwindow : map_Forall (fun _ os => 0 <= os_congestionWindow os) m).
Context (Hsize : (size m <= 255)%nat).

Let maxCwnd := getMaxCwnd m.
Let best := getBest order.
Let is_M os := os_congestionWindow os =? maxCwnd.
Let is_B os := negb (is_M os) && at_least_best (fst best) (snd best) os.

Lemma senders_length : zlen (senders m) = Z.of_nat (size m).
Proof. unfold senders, zlen. by rewrite length_fmap, length_map_to_list. Qed.

Lemma countM_count : countM m maxCwnd = count is_M (senders m).
Proof. unfold countM. rewrite (foldl_count is_M) by (rewrite ?senders_length; lia). lia. Qed.

Lemma countBNotM_count : countBNotM m maxCwnd best = count is_B (senders m).
Proof.
  unfold countBNotM. rewrite (foldl_ext _ (fun a x => if is_B x then u8 (a + 1) else a)).
  - rewrite (foldl_count is_B) by (rewrite ?senders_length; lia). lia.
  - intros b x. unfold is_B, is_M. by destruct (_ =? _).
Qed.

Lemma senders_max : Forall (fun os => os_congestionWindow os <= maxCwnd) (senders m).
Proof. apply (foldl_max_le (senders m) 0). Qed.

Lemma is_M_exists : senders m <> [] -> 1 <= count is_M (senders m).
Proof.
  intros Hne. apply count_pos. unfold is_M, maxCwnd, getMaxCwnd.
  destruct (foldl_max_attained (senders m) 0) as [E|E].
  - destruct (senders m) as [|os l] eqn:El; [done|]. constructor 1.
    destruct (foldl_max_le (os :: l) 0) as [_ Hle]. apply Forall_cons in Hle as [Hle _].
    assert (0 <= os_congestionWindow os).
    { assert (os ∈ senders m) as Hin by (rewrite El; left).
      unfold senders in Hin. apply list_elem_of_fmap in Hin as ([i os'] & -> & Hin).
      apply elem_of_map_to_list in Hin. by apply (Hwindow i). }
    apply Z.eqb_eq. lia.
  - eapply Exists_impl; [exact E|]. intros os ->. apply Z.eqb_refl.
Qed.

(** The share of each of the three kinds of paths. *)
Lemma sum_epsilon_counts M B l :
  let n := Z.of_nat (size m) in
  0 < M < 256 -> 0 < B < 256 -> 0 < n -> Forall (fun os => os_congestionWindow os <= maxCwnd) l ->
  (sum_epsilon (assign_epsilon n maxCwnd M B best <$> l)
     == inject_Z (count is_B l) / inject_Z (n * B) - inject_Z (count is_M l) / inject_Z (n * M))%Q.
Proof.
  intros n HM HB Hn Hl.
  assert (n * B <= 255 * 255 /\ n * M <= 255 * 255) by nia.
  assert (HnB : ~ (inject_Z (n * B) == 0)%Q) by (unfold Qeq; simpl; nia).
  assert (HnM : ~ (inject_Z (n * M) == 0)%Q) by (unfold Qeq; simpl; nia).
  induction Hl as [|os l Hos Hl IH].
  { cbn [fmap list_fmap sum_epsilon foldr]. change (count is_B []) with 0. change (count is_M []) with 0.
    by field. }
  rewrite fmap_cons. cbn [sum_epsilon foldr]. fold (sum_epsilon (assign_epsilon n maxCwnd M B best <$> l)).
  rewrite IH, !count_cons, !inject_Z_plus. unfold assign_epsilon, is_B, is_M.
  destruct (Z.eqb_spec B 0); [lia|].
  rewrite !(u32_small n), !u32_small by lia.
  destruct (Z.eqb_spec (os_congestionWindow os) maxCwnd), (Z.ltb_spec (os_congestionWindow os) maxCwnd);
    try lia; cbn [negb andb]; [|destruct (at_least_best _ _ _)];
    unfold epsilon, set_epsilon; os_fields; cbn [Z.b2z]; try (by field).
Qed.
End Coupling.

#[global] Instance sum_epsilon_proper : Proper ((≡ₚ) ==> Qeq) sum_epsilon.
Proof.
  intros l l' H. induction H as [|x l l' H IH|x y l|l1 l2 l3 H12 IH1 H23 IH2]; [done| | |].
  - cbn [sum_epsilon foldr]. fold (sum_epsilon l) (sum_epsilon l'). by rewrite IH.
  - cbn [sum_epsilon foldr]. ring.
  - by rewrite IH1.
Qed.

Lemma senders_fmap (f : OliaSender -> OliaSender) (m : oliaSenders) :
  senders (f <$> m) ≡ₚ f <$> senders m.
Proof.
  unfold senders. rewrite map_to_list_fmap. rewrite <- !list_fmap_compose.
  apply reflexive_eq, list_fmap_ext. by intros ? [? ?].
Qed.

Lemma sum_epsilon_zero (f : OliaSender -> OliaSender) (l : list OliaSender) :
  (forall os, ol_epsilonNum (os_olia (f os)) = 0) -> (sum_epsilon (f <$> l) == 0)%Q.
Proof.
  intros H. induction l as [|os l IH]; [done|]. rewrite fmap_cons. cbn [sum_epsilon foldr].
  fold (sum_epsilon (f <$> l)). rewrite IH. unfold epsilon. rewrite H.
  unfold Qdiv. change (inject_Z 0) with 0%Q. ring.
Qed.

(** C38: the epsilons that an acknowledgement assigns to the paths of a connection
    sum to zero, whatever their windows, losses and round trip times and in
    whatever order the map is visited: OLIA moves traffic between the paths and
    adds none. *)
Theorem epsilons_sum_to_zero (m : oliaSenders) (order : list OliaSender) :
  map_Forall (fun _ os => 0 <= os_congestionWindow os) m -> (size m <= 255)%nat ->
  (sum_epsilon (senders (getEpsilon m order)) == 0)%Q.
Proof.
  intros Hw Hs. unfold getEpsilon. rewrite senders_fmap.
  destruct (Z.eqb_spec (countBNotM m (getMaxCwnd m) (getBest order)) 0) as [E|E].
  { apply sum_epsilon_zero. intros os. unfold assign_epsilon. by rewrite E. }
  rewrite (countBNotM_count m order Hs), (countM_count m Hs) in *.
  set (M := count _ (senders m)). set (B := count _ (senders m)) in *.
  assert (Hne : senders m <> []) by (intros El; unfold B in E; by rewrite El in E).
  assert (HM : 1 <= M) by (apply (is_M_exists m); done).
  pose proof (count_bounds (fun os => os_congestionWindow os =? getMaxCwnd m) (senders m)) as HM'.
  pose proof (count_bounds (fun os => negb (os_congestionWindow os =? getMaxCwnd m)
    && at_least_best (fst (getBest order)) (snd (getBest order)) os) (senders m)) as HB'.
  fold M in HM'. fold B in HB'. rewrite (senders_length m) in *.
  rewrite (sum_epsilon_counts m order); [| lia..|apply senders_max].
  fold M B. rewrite !inject_Z_mult. field.
  repeat split; unfold Qeq; simpl; lia.
Qed.

(** Three paths: one that lost nothing for long and has a small window, and two
    with the largest window. *)
Definition example_sender (cwnd bytes : Z) : OliaSender :=
  (NewOliaSender (NewRTTStats <| rtt_smoothedRTT := 20 * Millisecond |>) cwnd 2500)
    <| os_olia := mkOlia 0 0 bytes 0 1 0 |>.

Definition example_senders : oliaSenders :=
  {[ 1 := example_sender 10 3000; 2 := example_sender 20 2000; 3 := example_sender 20 1000 ]}.

(** The hypotheses of [epsilons_sum_to_zero] at three paths; the first gains. *)
Lemma epsilons_sum_to_zero_witness :
  let m := getEpsilon example_senders (senders example_senders) in
  (sum_epsilon (senders m) == 0)%Q /\ (ol_epsilonNum ∘ os_olia) <$> (m !! 1) = Some 1.
Proof.
  intros m. split; [|vm_compute; reflexivity].
  apply (epsilons_sum_to_zero example_senders (senders example_senders)).
  - repeat apply map_Forall_insert_2; try (vm_compute; discriminate).
  - vm_compute. lia.
Defined.

(** The products of the comparison of two paths wrap around at 64 bits from about
    twenty-three kilobytes between losses at a round trip time of twenty milliseconds:
    of two paths with that round trip time the worse one is taken for the best. *)
Lemma best_path_overflow :
  let p1 := example_sender 10 24000 in
  let p2 := example_sender 10 20000 in
  getBest [p1; p2] = (os_tmpRTT p2, os_tmpBytes p2) /\
  getBest [p2; p1] = (os_tmpRTT p2, os_tmpBytes p2).
Proof. split; vm_compute; reflexivity. Qed.
