(* ===== verification/OliaSender.v ===== *)
(** * congestion/olia_sender.go: the congestion controllers of several paths

    The operations of one sender, those that only touch its own record as
    functions of the record, an acknowledgement as a function of the shared map.
    Each path sees an instance of the interface of congestion controllers whose
    state is the shared map.  The theorem bounds the window of every path over
    every interleaving of the calls of all paths. *)

From Stdlib Require Import SpecFloat.
From S2P Require Import Prelude Protocol MinMax Float Rounding RttStats SendAlgorithm SlowStart Cubic CubicSender Olia.

Implicit Types (o : OliaSender) (m : oliaSenders).

(** ** One sender *)

Definition olia_InRecovery o : bool :=
  (os_largestAckedPacketNumber o <=? os_largestSentAtLastCutback o)
  && negb (os_largestAckedPacketNumber o =? 0).

Definition olia_GetCongestionWindow o : ByteCount := u64 (os_congestionWindow o * DefaultTCPMSS).

Definition olia_GetSlowStartThreshold o : ByteCount := u64 (os_slowstartThreshold o * DefaultTCPMSS).

Definition olia_InSlowStart o : bool := olia_GetCongestionWindow o <? olia_GetSlowStartThreshold o.

Definition olia_TimeUntilSend o (now : Time) (bytesInFlight : ByteCount) : Duration :=
  if olia_InRecovery o
  then Prr_TimeUntilSend (os_prr o) (olia_GetCongestionWindow o) bytesInFlight
         (olia_GetSlowStartThreshold o)
  else if bytesInFlight <? olia_GetCongestionWindow o then 0 else InfDuration.

Definition olia_OnPacketSent o (sentTime : Time) (bytesInFlight : ByteCount)
    (packetNumber : PacketNumber) (bytes : ByteCount) (isRetransmittable : bool) : bool * OliaSender :=
  if negb isRetransmittable then (false, o)
  else
    let o := if olia_InRecovery o then o <| os_prr := Prr_OnPacketSent (os_prr o) bytes |> else o in
    let o := o <| os_largestSentPacketNumber := packetNumber |> in
    (true, o <| os_hybridSlowStart :=
             HybridSlowStart_OnPacketSent (os_hybridSlowStart o) packetNumber |>).

Definition olia_ExitSlowstart o : OliaSender := o <| os_slowstartThreshold := os_congestionWindow o |>.

Definition olia_SlowstartThreshold o : PacketNumber := os_slowstartThreshold o.

Definition olia_MaybeExitSlowStart o : OliaSender :=
  if olia_InSlowStart o then
    let '(exit, hss) := ShouldExitSlowStart (os_hybridSlowStart o) (LatestRTT (os_rttStats o))
                          (MinRTT (os_rttStats o)) (olia_GetCongestionWindow o / DefaultTCPMSS) in
    let o := o <| os_hybridSlowStart := hss |> in
    if exit then olia_ExitSlowstart o else o
  else o.

Definition olia_isCwndLimited o (bytesInFlight : ByteCount) : bool :=
  let congestionWindow := olia_GetCongestionWindow o in
  if congestionWindow <=? bytesInFlight then true
  else
    let availableBytes := u64 (congestionWindow - bytesInFlight) in
    let slowStartLimited := olia_InSlowStart o && (congestionWindow / 2 <? bytesInFlight) in
    slowStartLimited || (availableBytes <=? maxBurstBytes).

Definition olia_BandwidthEstimate o : outcome Z :=
  if SmoothedRTT (os_rttStats o) =? 0 then Ok 0
  else BandwidthFromDelta (olia_GetCongestionWindow o) (SmoothedRTT (os_rttStats o)).

(** The estimate does not panic ([BandwidthEstimate_total]), so the other branch
    is never taken. *)
Definition UpdateBandwidth o : OliaSender :=
  match olia_BandwidthEstimate o with Ok b => o <| os_TmpBwt := b |> | _ => o end.

(** [o.UpdateBandwidth(); o.tmpCongestionWindow = o.congestionWindow] *)
Definition record_window o : OliaSender :=
  let o := UpdateBandwidth o in o <| os_tmpCongestionWindow := os_congestionWindow o |>.

Definition olia_RenoBeta o : float32 :=
  let n := f32_of_Z (os_numConnections o) in
  f32_div (f32_add (f32_sub n (f32_of_Z 1)) renoBeta) n.

Definition olia_lost_before_cutback o (lostBytes : ByteCount) : OliaSender :=
  if os_lastCutbackExitedSlowstart o then
    let st := os_stats o in
    let st := st <| cst_slowstartPacketsLost := u64 (cst_slowstartPacketsLost st + 1) |>
                 <| cst_slowstartBytesLost := u64 (cst_slowstartBytesLost st + lostBytes) |> in
    let o := o <| os_stats := st |> in
    if os_slowStartLargeReduction o then
      let o := if (cst_slowstartPacketsLost st =? 1)
                  || (u64 (cst_slowstartBytesLost st - lostBytes) / DefaultTCPMSS
                      <? cst_slowstartBytesLost st / DefaultTCPMSS)
               then record_window (o <| os_congestionWindow :=
                      MaxPacketNumber (u64 (os_congestionWindow o - 1)) (os_minCongestionWindow o) |>)
               else o in
      o <| os_slowstartThreshold := os_congestionWindow o |>
    else o
  else o.

Definition olia_reduce_window o : OliaSender :=
  if os_slowStartLargeReduction o && olia_InSlowStart o
  then o <| os_congestionWindow := u64 (os_congestionWindow o - 1) |>
  else o <| os_congestionWindow :=
         float_to_u64 (f32_mul (f32_of_Z (os_congestionWindow o)) (olia_RenoBeta o)) |>.

Definition olia_cutback o (bytesInFlight : ByteCount) : OliaSender :=
  let o := o <| os_lastCutbackExitedSlowstart := olia_InSlowStart o |> in
  let o := if olia_InSlowStart o
           then o <| os_stats := (os_stats o) <| cst_slowstartPacketsLost :=
                                   u64 (cst_slowstartPacketsLost (os_stats o) + 1) |> |>
           else o in
  let o := o <| os_prr := Prr_OnPacketLost (os_prr o) bytesInFlight |> in
  let o := o <| os_olia := Olia_OnPacketLost (os_olia o) |> in
  let o := olia_reduce_window o in
  let o := if os_congestionWindow o <? os_minCongestionWindow o
           then o <| os_congestionWindow := os_minCongestionWindow o |> else o in
  let o := record_window o in
  o <| os_slowstartThreshold := os_congestionWindow o |>
    <| os_largestSentAtLastCutback := os_largestSentPacketNumber o |>
    <| os_congestionWindowCount := 0 |>.

Definition olia_OnPacketLost o (packetNumber : PacketNumber) (lostBytes bytesInFlight : ByteCount) :
    OliaSender :=
  if packetNumber <=? os_largestSentAtLastCutback o then olia_lost_before_cutback o lostBytes
  else olia_cutback o bytesInFlight.

Definition olia_SetNumEmulatedConnections o (n : Z) : OliaSender :=
  o <| os_numConnections := Max n 1 |>.

Definition olia_OnRetransmissionTimeout o (packetsRetransmitted : bool) : OliaSender :=
  let o := o <| os_largestSentAtLastCutback := 0 |> in
  if negb packetsRetransmitted then o
  else
    let o := o <| os_hybridSlowStart := Restart (os_hybridSlowStart o) |>
               <| os_olia := Olia_Reset (os_olia o) |> in
    let o := o <| os_slowstartThreshold := os_congestionWindow o / 2 |>
               <| os_congestionWindow := os_minCongestionWindow o |> in
    record_window o.

Definition olia_OnConnectionMigration o : OliaSender :=
  record_window
    (mkOliaSender (Restart (os_hybridSlowStart o)) zeroPrrSender (os_rttStats o) (os_stats o)
      (Olia_Reset (os_olia o)) 0 0 0 (os_initialCongestionWindow o) (os_initialMaxCongestionWindow o)
      false (os_slowStartLargeReduction o) (os_minCongestionWindow o) (os_initialMaxCongestionWindow o)
      (os_numConnections o) 0 (os_initialCongestionWindow o) (os_initialMaxCongestionWindow o)
      (os_TmpBwt o) (os_tmpCongestionWindow o)).

Definition olia_RetransmissionDelay o : Duration :=
  if SmoothedRTT (os_rttStats o) =? 0 then 0
  else i64 (SmoothedRTT (os_rttStats o) + i64 (MeanDeviation (os_rttStats o) * 4)).

Definition olia_SmoothedRTT o : Duration := SmoothedRTT (os_rttStats o).

Definition olia_SetSlowStartLargeReduction o (enabled : bool) : OliaSender :=
  o <| os_slowStartLargeReduction := enabled |>.

(** ** The shared map *)

(** Congestion avoidance: the epsilons of all paths, then the window of this one. *)
Definition olia_avoidance m (id : PathID) (order : list OliaSender) : oliaSenders :=
  let m := getEpsilon m order in
  match m !! id with
  | None => m
  | Some o =>
      let rate := getRate m (SmoothedRTT (os_rttStats o)) in
      let cwndScaled := oliaScale (os_congestionWindow o) olia_scale in
      let '(w, olia) := Olia_CongestionWindowAfterAck (os_olia o) (os_congestionWindow o) rate cwndScaled in
      <[id := o <| os_olia := olia |>
                <| os_congestionWindow := MinPacketNumber (os_maxTCPCongestionWindow o) w |>]> m
  end.

Definition olia_maybeIncreaseCwnd m (id : PathID) (order : list OliaSender)
    (bytesInFlight : ByteCount) : oliaSenders :=
  match m !! id with
  | None => m
  | Some o =>
      if negb (olia_isCwndLimited o bytesInFlight) then m
      else if os_maxTCPCongestionWindow o <=? os_congestionWindow o then m
      else
        let m := if olia_InSlowStart o
                 then <[id := o <| os_congestionWindow := u64 (os_congestionWindow o + 1) |>]> m
                 else olia_avoidance m id order in
        alter record_window id m
  end.

Definition olia_OnPacketAcked m (id : PathID) (order : list OliaSender)
    (ackedPacketNumber : PacketNumber) (ackedBytes bytesInFlight : ByteCount) : oliaSenders :=
  match m !! id with
  | None => m
  | Some o =>
      let o := o <| os_largestAckedPacketNumber :=
                 MaxPacketNumber ackedPacketNumber (os_largestAckedPacketNumber o) |> in
      if olia_InRecovery o
      then <[id := o <| os_prr := Prr_OnPacketAcked (os_prr o) ackedBytes |>]> m
      else
        let o := o <| os_olia := UpdateAckedSinceLastLoss (os_olia o) ackedBytes |> in
        let m := olia_maybeIncreaseCwnd (<[id := o]> m) id order bytesInFlight in
        alter (fun o => if olia_InSlowStart o
                        then o <| os_hybridSlowStart :=
                               HybridSlowStart_OnPacketAcked (os_hybridSlowStart o) ackedPacketNumber |>
                        else o) id m
  end.

(** [path.setup]: a path other than the initial one gets an OLIA controller and
    enters the map. *)
Definition olia_setup m (id : PathID) (rttStats : RTTStats) : oliaSenders :=
  <[id := NewOliaSender rttStats InitialCongestionWindow DefaultMaxCongestionWindow]> m.

(** ** The controller of a path

    The sender [oc_id] with the shared map.  The Go object reads the statistics
    of its path through a pointer: an operation first stores the ones it is
    given.  [visit] is the order in which a [range] visits the map. *)

Record oliaController := mkOliaController { oc_id : PathID; oc_senders : oliaSenders }.

Definition oc_read {A} (f : OliaSender -> A) (absent : A) (c : oliaController) : A :=
  match oc_senders c !! oc_id c with Some o => f o | None => absent end.

Definition oc_update (f : OliaSender -> OliaSender) (c : oliaController) : oliaController :=
  mkOliaController (oc_id c) (alter f (oc_id c) (oc_senders c)).

Definition oc_sync (rttStats : RTTStats) : oliaController -> oliaController :=
  oc_update (fun o => o <| os_rttStats := rttStats |>).

#[global] Instance oliaController_SendAlgorithm (visit : oliaSenders -> list OliaSender) :
  SendAlgorithm oliaController :=
  mkSendAlgorithm oliaController
    (fun c now inFlight => oc_read (fun o => olia_TimeUntilSend o now inFlight) InfDuration c)
    (fun c t inFlight n bytes retr =>
       (oc_read (fun o => fst (olia_OnPacketSent o t inFlight n bytes retr)) false c,
        oc_update (fun o => snd (olia_OnPacketSent o t inFlight n bytes retr)) c))
    (oc_read olia_GetCongestionWindow 0)
    (fun c r => oc_update olia_MaybeExitSlowStart (oc_sync r c))
    (fun c r now n bytes inFlight =>
       let c := oc_sync r c in
       mkOliaController (oc_id c)
         (olia_OnPacketAcked (oc_senders c) (oc_id c) (visit (oc_senders c)) n bytes inFlight))
    (fun c r n bytes inFlight => oc_update (fun o => olia_OnPacketLost o n bytes inFlight) (oc_sync r c))
    (fun c n => oc_update (fun o => olia_SetNumEmulatedConnections o n) c)
    (fun c r retr => oc_update (fun o => olia_OnRetransmissionTimeout o retr) (oc_sync r c))
    (fun c r => oc_update olia_OnConnectionMigration (oc_sync r c))
    (fun c r => oc_read olia_RetransmissionDelay 0 (oc_sync r c))
    (fun c r => oc_read olia_SmoothedRTT 0 (oc_sync r c))
    (fun c b => oc_update (fun o => olia_SetSlowStartLargeReduction o b) c).

(** ** Interleavings of the paths *)

Inductive olia_event :=
  | OliaSetup (id : PathID) (rttStats : RTTStats)
  | OliaCall (id : PathID) (visit : oliaSenders -> list OliaSender) (e : sa_event).

Definition olia_step m (e : olia_event) : oliaSenders :=
  match e with
  | OliaSetup id rttStats => olia_setup m id rttStats
  | OliaCall id visit e =>
      oc_senders (@sa_apply _ (oliaController_SendAlgorithm visit) (mkOliaController id m) e)
  end.

Definition olia_run m (es : list olia_event) : oliaSenders := foldl olia_step m es.

Definition olia_event_ok (e : olia_event) : Prop :=
  match e with OliaSetup _ _ => True | OliaCall _ _ e => call_ok e end.

#[local] Arguments assign {R T} field {_} v r /.
Ltac osf :=
  cbn [assign os_hybridSlowStart os_prr os_rttStats os_stats os_olia os_largestSentPacketNumber
       os_largestAckedPacketNumber os_largestSentAtLastCutback os_congestionWindow
       os_slowstartThreshold os_lastCutbackExitedSlowstart os_slowStartLargeReduction
       os_minCongestionWindow os_maxTCPCongestionWindow os_numConnections os_congestionWindowCount
       os_initialCongestionWindow os_initialMaxCongestionWindow os_TmpBwt os_tmpCongestionWindow
       ol_loss1 ol_loss2 ol_loss3 ol_epsilonNum ol_epsilonDen ol_sndCwndCnt fst snd oc_id oc_senders] in *.

(** The estimate does not divide by zero. *)
Lemma BandwidthEstimate_total o :
  minDuration <= SmoothedRTT (os_rttStats o) <= maxDuration ->
  exists b, olia_BandwidthEstimate o = Ok b.
Proof.
  intros H. unfold olia_BandwidthEstimate, BandwidthFromDelta, minDuration, maxDuration in *.
  destruct (Z.eqb_spec (SmoothedRTT (os_rttStats o)) 0) as [E|E]; [by eexists|].
  destruct (Z.eqb_spec (u64 (SmoothedRTT (os_rttStats o))) 0) as [E'|E']; [|by eexists].
  exfalso. apply E. glia.
Qed.

(** ** The windows of a run *)

(** What a sender is configured with, and its window. *)
Definition os_conf o : PacketNumber * PacketNumber * PacketNumber * PacketNumber * Z * PacketNumber :=
  (os_initialCongestionWindow o, os_initialMaxCongestionWindow o, os_minCongestionWindow o,
   os_maxTCPCongestionWindow o, os_numConnections o, os_congestionWindow o).

Definition conf_inv c : Prop :=
  let '(initial, initialMax, minimum, maximum, n, w) := c in
  initial = InitialCongestionWindow /\ initialMax = DefaultMaxCongestionWindow /\
  minimum = defaultMinimumCongestionWindow /\ maximum = DefaultMaxCongestionWindow /\
  1 <= n <= maxConnections /\ 1 <= w <= DefaultMaxCongestionWindow.

Definition os_inv o : Prop := conf_inv (os_conf o).

Lemma os_inv_conf o o' : os_conf o' = os_conf o -> os_inv o -> os_inv o'.
Proof. unfold os_inv. by intros ->. Qed.

Lemma os_inv_window o w :
  os_inv o -> 1 <= w <= DefaultMaxCongestionWindow -> os_inv (o <| os_congestionWindow := w |>).
Proof. unfold os_inv, os_conf, conf_inv. osf. tauto. Qed.

Lemma os_inv_bounds o :
  os_inv o -> os_minCongestionWindow o = 2 /\ os_maxTCPCongestionWindow o = 2500 /\
              1 <= os_congestionWindow o <= 2500.
Proof. unfold os_inv, os_conf, conf_inv. by intros (_ & _ & -> & -> & _ & ?). Qed.

Lemma record_window_conf o : os_conf (record_window o) = os_conf o.
Proof. unfold record_window, UpdateBandwidth. by destruct (olia_BandwidthEstimate o). Qed.

Lemma olia_RenoBeta_le o : os_inv o -> float_le (olia_RenoBeta o) 1 = true.
Proof.
  intros (_ & _ & _ & _ & Hn & _).
  pose (c := SetNumConnections NewCubic (os_numConnections o)).
  destruct (factors_ok c Hn) as [Hb _]. exact Hb.
Qed.

Lemma olia_lost_before_cutback_inv o b : os_inv o -> os_inv (olia_lost_before_cutback o b).
Proof.
  intros H. destruct (os_inv_bounds o H) as (Hmin & _ & Hw). unfold olia_lost_before_cutback.
  destruct (os_lastCutbackExitedSlowstart o); [|done]. cbv zeta.
  set (st := (os_stats o) <| cst_slowstartPacketsLost := _ |> <| cst_slowstartBytesLost := _ |>).
  assert (H1 : os_inv (o <| os_stats := st |>)) by (by apply (os_inv_conf o)).
  change (os_slowStartLargeReduction (o <| os_stats := st |>)) with (os_slowStartLargeReduction o).
  change (os_minCongestionWindow (o <| os_stats := st |>)) with (os_minCongestionWindow o).
  change (os_congestionWindow (o <| os_stats := st |>)) with (os_congestionWindow o).
  destruct (os_slowStartLargeReduction o); [|done].
  destruct (_ || _); [|by apply (os_inv_conf o)]. rewrite Hmin.
  set (o2 := (o <| os_stats := st |>) <| os_congestionWindow := _ |>).
  apply (os_inv_conf (record_window o2)); [done|].
  apply (os_inv_conf o2); [apply record_window_conf|]. apply os_inv_window; [done|].
  unfold DefaultMaxCongestionWindow. rewrite u64_small by lia. minmax.
Qed.

Lemma olia_reduce_window_inv o :
  os_inv o -> 0 <= os_congestionWindow (olia_reduce_window o) <= 2500 /\
  os_inv ((olia_reduce_window o) <| os_congestionWindow := os_congestionWindow o |>).
Proof.
  intros H. destruct (os_inv_bounds o H) as (_ & _ & Hw). unfold olia_reduce_window.
  destruct (_ && _); osf; (split; [|by apply (os_inv_conf o)]); [rewrite u64_small; lia|].
  pose proof (float_le_u64 (f32_mul (f32_of_Z (os_congestionWindow o)) (olia_RenoBeta o))
                (os_congestionWindow o)) as Hf.
  destruct Hf; [apply f32_mul_le; [lia|by apply olia_RenoBeta_le]|lia|lia].
Qed.

Lemma olia_cutback_inv o inFlight : os_inv o -> os_inv (olia_cutback o inFlight).
Proof.
  intros H. unfold olia_cutback. set (o1 := o <| os_lastCutbackExitedSlowstart := _ |>).
  set (o2 := if olia_InSlowStart o1 then _ else o1). set (o3 := o2 <| os_prr := _ |>).
  set (o4 := o3 <| os_olia := _ |>).
  assert (H4 : os_inv o4).
  { apply (os_inv_conf o); [|done]. unfold o4, o3, o2. by destruct (olia_InSlowStart o1). }
  clearbody o4. destruct (olia_reduce_window_inv o4 H4) as [Hw H5]. set (o5 := olia_reduce_window o4) in *.
  clearbody o5. set (o6 := if _ <? _ then _ else o5).
  assert (H6 : os_inv o6).
  { unfold o6. assert (Hmin : os_minCongestionWindow o5 = 2) by apply H5. rewrite Hmin.
    destruct (Z.ltb_spec (os_congestionWindow o5) 2).
    - apply (os_inv_conf ((o5 <| os_congestionWindow := os_congestionWindow o4 |>)
                            <| os_congestionWindow := 2 |>)); [done|].
      apply os_inv_window; [done|]. unfold DefaultMaxCongestionWindow. lia.
    - apply (os_inv_conf ((o5 <| os_congestionWindow := os_congestionWindow o4 |>)
                            <| os_congestionWindow := os_congestionWindow o5 |>)); [done|].
      apply os_inv_window; [done|]. unfold DefaultMaxCongestionWindow. lia. }
  clearbody o6. apply (os_inv_conf (record_window o6)); [done|].
  by apply (os_inv_conf o6); [apply record_window_conf|].
Qed.

(** The operations of one sender. *)
Lemma olia_OnPacketSent_conf o t f n b r : os_conf (snd (olia_OnPacketSent o t f n b r)) = os_conf o.
Proof. unfold olia_OnPacketSent. destruct r; [|done]. by destruct (olia_InRecovery o). Qed.

Lemma olia_MaybeExitSlowStart_conf o : os_conf (olia_MaybeExitSlowStart o) = os_conf o.
Proof.
  unfold olia_MaybeExitSlowStart. destruct (olia_InSlowStart o); [|done].
  by destruct (ShouldExitSlowStart _ _ _ _) as [[] ?].
Qed.

Lemma olia_OnPacketLost_inv o n b f : os_inv o -> os_inv (olia_OnPacketLost o n b f).
Proof.
  intros H. unfold olia_OnPacketLost.
  destruct (_ <=? _); [by apply olia_lost_before_cutback_inv|by apply olia_cutback_inv].
Qed.

Lemma olia_OnRetransmissionTimeout_inv o r : os_inv o -> os_inv (olia_OnRetransmissionTimeout o r).
Proof.
  intros H. destruct (os_inv_bounds o H) as (Hmin & _ & _). unfold olia_OnRetransmissionTimeout.
  destruct r; cbn [negb]; [|by apply (os_inv_conf o)].
  eapply os_inv_conf; [apply record_window_conf|]. osf.
  apply (os_inv_conf (o <| os_congestionWindow := 2 |>)); [unfold os_conf; osf; by rewrite Hmin|].
  apply os_inv_window; [done|]. unfold DefaultMaxCongestionWindow. lia.
Qed.

Lemma olia_OnConnectionMigration_inv o : os_inv o -> os_inv (olia_OnConnectionMigration o).
Proof.
  intros H. unfold olia_OnConnectionMigration. eapply os_inv_conf; [apply record_window_conf|].
  unfold os_inv, os_conf, conf_inv in *. osf.
  unfold InitialCongestionWindow, DefaultMaxCongestionWindow in *. lia.
Qed.

Lemma olia_SetNumEmulatedConnections_inv o n :
  n <= maxConnections -> os_inv o -> os_inv (olia_SetNumEmulatedConnections o n).
Proof.
  intros Hn H. unfold olia_SetNumEmulatedConnections. rewrite Max_max.
  unfold os_inv, os_conf, conf_inv, maxConnections in *. osf. lia.
Qed.

Definition all_inv m : Prop := map_Forall (fun _ o => os_inv o) m.

Lemma all_inv_insert m id o : all_inv m -> os_inv o -> all_inv (<[id := o]> m).
Proof. intros Hm Ho. by apply map_Forall_insert_2. Qed.

Lemma all_inv_alter m id f : (forall o, os_inv o -> os_inv (f o)) -> all_inv m -> all_inv (alter f id m).
Proof.
  intros Hf Hm i o. rewrite lookup_alter_Some. intros [(-> & o' & Ho' & ->)|[_ Ho]]; [|by apply (Hm i)].
  by apply Hf, (Hm i).
Qed.

Lemma assign_epsilon_conf n w M B best o : os_conf (assign_epsilon n w M B best o) = os_conf o.
Proof.
  unfold assign_epsilon. destruct (B =? 0); [done|]. destruct (_ && _); [done|].
  by destruct (os_congestionWindow o =? w).
Qed.

Lemma all_inv_getEpsilon m order : all_inv m -> all_inv (getEpsilon m order).
Proof.
  intros Hm. unfold getEpsilon. apply map_Forall_fmap. intros i o Ho.
  eapply os_inv_conf; [apply assign_epsilon_conf|by apply (Hm i)].
Qed.

Lemma all_inv_avoidance m id order : all_inv m -> all_inv (olia_avoidance m id order).
Proof.
  intros Hm. unfold olia_avoidance. pose proof (all_inv_getEpsilon m order Hm) as He.
  set (m' := getEpsilon m order) in *. clearbody m'.
  destruct (m' !! id) as [o|] eqn:Eo; [|done]. pose proof (He id o Eo) as Ho.
  destruct (os_inv_bounds o Ho) as (_ & Hmax & Hw).
  pose proof (Olia_CongestionWindowAfterAck_step (os_olia o) (os_congestionWindow o)
    (getRate m' (SmoothedRTT (os_rttStats o))) (oliaScale (os_congestionWindow o) olia_scale)
    ltac:(lia)) as Hstep.
  destruct (Olia_CongestionWindowAfterAck _ _ _ _) as [w olia]. cbn [fst] in Hstep.
  apply all_inv_insert; [done|]. apply os_inv_window; [by apply (os_inv_conf o)|].
  change (os_maxTCPCongestionWindow (o <| os_olia := olia |>)) with (os_maxTCPCongestionWindow o).
  rewrite Hmax. unfold DefaultMaxCongestionWindow. minmax.
Qed.

Lemma all_inv_maybeIncreaseCwnd m id order inFlight :
  all_inv m -> all_inv (olia_maybeIncreaseCwnd m id order inFlight).
Proof.
  intros Hm. unfold olia_maybeIncreaseCwnd. destruct (m !! id) as [o|] eqn:Eo; [|done].
  pose proof (Hm id o Eo) as Ho. destruct (os_inv_bounds o Ho) as (_ & Hmax & Hw).
  destruct (negb _); [done|]. rewrite Hmax. destruct (Z.leb_spec 2500 (os_congestionWindow o)); [done|].
  apply all_inv_alter; [intros o'; apply os_inv_conf, record_window_conf|].
  destruct (olia_InSlowStart o); [|by apply all_inv_avoidance].
  apply all_inv_insert; [done|]. apply os_inv_window; [done|].
  unfold DefaultMaxCongestionWindow. rewrite u64_small; lia.
Qed.

Lemma all_inv_OnPacketAcked m id order n b inFlight :
  all_inv m -> all_inv (olia_OnPacketAcked m id order n b inFlight).
Proof.
  intros Hm. unfold olia_OnPacketAcked. destruct (m !! id) as [o|] eqn:Eo; [|done].
  pose proof (Hm id o Eo) as Ho. cbv zeta. destruct (olia_InRecovery _).
  { apply all_inv_insert; [done|]. by apply (os_inv_conf o). }
  apply all_inv_alter.
  { intros o' Ho'. destruct (olia_InSlowStart o'); [by apply (os_inv_conf o')|done]. }
  apply all_inv_maybeIncreaseCwnd, all_inv_insert; [done|]. by apply (os_inv_conf o).
Qed.

Lemma olia_step_inv m e : olia_event_ok e -> all_inv m -> all_inv (olia_step m e).
Proof.
  intros He Hm.
  assert (Hsync : forall id r, all_inv (oc_senders (oc_sync r (mkOliaController id m)))).
  { intros id r. apply all_inv_alter; [|done]. intros o Ho. by apply (os_inv_conf o). }
  destruct e as [id rtt|id visit e]; cbn [olia_step].
  { apply all_inv_insert; [done|]. unfold os_inv, os_conf, conf_inv. osf.
    unfold InitialCongestionWindow, DefaultMaxCongestionWindow, maxConnections, defaultNumConnections.
    split_and!; done || lia. }
  destruct e as [t f n b r|rtt|rtt now n b f|rtt n b f|n|rtt r|rtt|b]; cbn [sa_apply]; cbn -[oc_sync].
  - apply all_inv_alter; [|done]. intros o. apply os_inv_conf, olia_OnPacketSent_conf.
  - apply all_inv_alter; [|apply Hsync]. intros o. apply os_inv_conf, olia_MaybeExitSlowStart_conf.
  - apply all_inv_OnPacketAcked, Hsync.
  - apply all_inv_alter; [|apply Hsync]. intros o. apply olia_OnPacketLost_inv.
  - apply all_inv_alter; [|done]. intros o. by apply olia_SetNumEmulatedConnections_inv.
  - apply all_inv_alter; [|apply Hsync]. intros o. apply olia_OnRetransmissionTimeout_inv.
  - apply all_inv_alter; [|apply Hsync]. intros o. apply olia_OnConnectionMigration_inv.
  - apply all_inv_alter; [|done]. intros o Ho. by apply (os_inv_conf o).
Qed.

(** C37: over every interleaving of the calls of the paths of a connection, with
    paths joining at any time and the map visited in any order, every OLIA
    controller keeps a window of at least one packet and at most the configured
    maximum. *)
Theorem olia_windows es id o :
  Forall olia_event_ok es -> olia_run ∅ es !! id = Some o ->
  1 <= os_congestionWindow o <= DefaultMaxCongestionWindow.
Proof.
  intros Hes Ho. assert (Hall : all_inv (olia_run ∅ es)).
  { unfold olia_run. assert (H0 : all_inv ∅) by apply map_Forall_empty. revert H0. generalize (∅ : oliaSenders).
    clear Ho. induction Hes as [|e es He Hes IH]; intros m Hm; [done|]. cbn [foldl].
    apply IH. by apply olia_step_inv. }
  destruct (os_inv_bounds o (Hall id o Ho)) as (_ & _ & ?). done.
Qed.

(** The hypotheses of [olia_windows] at a run of two paths with a loss on one. *)
Lemma olia_windows_witness :
  let rtt := NewRTTStats <| rtt_smoothedRTT := 20 * Millisecond |> in
  let es := [OliaSetup 1 rtt; OliaSetup 3 rtt;
             OliaCall 1 senders (EvPacketSent 1 0 1 1460 true);
             OliaCall 1 senders (EvPacketLost rtt 1 1460 93440);
             OliaCall 3 senders (EvPacketAcked rtt 2 1 1460 93440);
             OliaCall 1 senders (EvPacketAcked rtt 2 2 1460 93440)] in
  exists o, olia_run ∅ es !! 1 = Some o /\ 1 <= os_congestionWindow o <= DefaultMaxCongestionWindow.
Proof.
  intros rtt es. destruct (olia_run ∅ es !! 1) as [o|] eqn:Eo.
  - exists o. split; [reflexivity|]. apply (olia_windows es 1 o); [|exact Eo]. repeat constructor.
  - exfalso. revert Eo. vm_compute. discriminate.
Defined.
