(* ===== verification/AckSent.v ===== *)
(** * ackhandler: sent packets, acknowledgements, losses and retransmissions

    packet.go, stop_waiting_manager.go and sent_packet_handler.go.  The history is
    the list of the packets in flight, oldest first; an element of the Go list is
    its packet, and since packet numbers increase strictly it is found again by
    its number.  The congestion controller is any implementation of
    [SendAlgorithm]. *)

From Stdlib Require Import SpecFloat Sorting.Sorted.
From S2P Require Import Prelude Protocol ByteOrder WireFrames WireAck WireHeader.
From S2P Require Import Frame MinMax Float RttStats SendAlgorithm.

(** ** packet.go *)

Record Packet := mkPacket {
  pkt_PacketNumber : PacketNumber;
  pkt_Frames : list Frame;
  pkt_Length : ByteCount;
  pkt_EncryptionLevel : EncryptionLevel;
  pkt_SendTime : Time
}.

#[global] Instance eta_Packet : Eta Packet := fun p =>
  mkPacket (pkt_PacketNumber p) (pkt_Frames p) (pkt_Length p) (pkt_EncryptionLevel p)
    (pkt_SendTime p).

Definition GetFramesForRetransmission (p : Packet) : list Frame :=
  List.filter (fun f => match f with FAck _ | FStopWaiting _ => false | _ => true end) (pkt_Frames p).

Definition IsRetransmittable (p : Packet) : bool :=
  existsb (fun f => match f with
                    | FStream _ | FRstStream _ | FWindowUpdate _ | FBlocked _ | FPing _
                    | FGoaway _ | FAddAddress _ | FPaths _ => true
                    | _ => false
                    end) (pkt_Frames p).

(** ** stop_waiting_manager.go *)

Record stopWaitingManager := mkStopWaitingManager {
  swm_largestLeastUnackedSent : PacketNumber;
  swm_nextLeastUnacked : PacketNumber;
  swm_lastStopWaitingFrame : option StopWaitingFrame
}.

#[global] Instance eta_stopWaitingManager : Eta stopWaitingManager := fun s =>
  mkStopWaitingManager (swm_largestLeastUnackedSent s) (swm_nextLeastUnacked s)
    (swm_lastStopWaitingFrame s).

Definition newStopWaitingManager : stopWaitingManager := mkStopWaitingManager 0 0 None.

Definition swm_GetStopWaitingFrame (s : stopWaitingManager) (force : bool)
    : option StopWaitingFrame * stopWaitingManager :=
  let swf := Some (mkStopWaitingFrame (swm_nextLeastUnacked s) 0 0) in
  if swm_nextLeastUnacked s <=? swm_largestLeastUnackedSent s then
    if force then
      let s := match swm_lastStopWaitingFrame s with
               | None => if 0 <? swm_largestLeastUnackedSent s
                         then s <| swm_lastStopWaitingFrame := swf |> else s
               | Some _ => s
               end in
      (swm_lastStopWaitingFrame s, s)
    else (None, s)
  else
    (swf, s <| swm_largestLeastUnackedSent := swm_nextLeastUnacked s |>
            <| swm_lastStopWaitingFrame := swf |>).

Definition swm_ReceivedAck (s : stopWaitingManager) (ack : AckFrame) : stopWaitingManager :=
  if swm_nextLeastUnacked s <=? ack_LargestAcked ack
  then s <| swm_nextLeastUnacked := u64 (ack_LargestAcked ack + 1) |> else s.

Definition QueuedRetransmissionForPacketNumber (s : stopWaitingManager) (p : PacketNumber)
    : stopWaitingManager :=
  if swm_nextLeastUnacked s <=? p then s <| swm_nextLeastUnacked := u64 (p + 1) |> else s.

(** ** sent_packet_handler.go *)

Definition timeReorderingFraction : float64 := f64_const 1 8.
Definition onePlusReordering : float64 := f64_const 9 8.
Definition defaultRTOTimeout : Duration := 500 * Millisecond.
Definition minRTOTimeout : Duration := 200 * Millisecond.
Definition maxRTOTimeout : Duration := 60 * Second.
Definition maxTailLossProbes : Z := 2.
Definition minRetransmissionTime : Duration := 200 * Millisecond.
Definition minTailLossProbeTimeout : Duration := 10 * Millisecond.

Definition ErrDuplicateOrOutOfOrderAck : error :=
  errors_New "SentPacketHandler: Duplicate or out-of-order ACK".
Definition ErrTooManyTrackedSentPackets : error :=
  errors_New "Too many outstanding non-acked and non-retransmitted packets".
Definition ErrAckForSkippedPacket : error :=
  qerr_Error InvalidAckData "Received an ACK for a skipped packet number" [].
Definition errAckForUnsentPacket : error :=
  qerr_Error InvalidAckData "Received ACK for an unsent package" [].
Definition errPacketNumberNotIncreasing : error :=
  errors_New "Already sent a packet with a higher packet number".

(** What [fmt.Errorf] says in [determineNewlyAckedPackets]. *)
Definition errWrongPacketAcked (p : PacketNumber) (r : AckRange) : error :=
  fmt_Errorf "BUG: ackhandler would have acked wrong packet 0x%x, while evaluating range 0x%x -> 0x%x"
    [p; First r; Last r].
Definition errWrongPacketAckedClosePath (p : PacketNumber) (r : AckRange) : error :=
  fmt_Errorf
    "BUG: ackhandler would have acked wrong packet 0x%x, while evaluating range 0x%x -> 0x%x with ClosePath frame"
    [p; First r; Last r].

Record sentPacketHandler {C : Type} := mkSentPacketHandler {
  sph_lastSentPacketNumber : PacketNumber;
  sph_skippedPackets : list PacketNumber;
  sph_numNonRetransmittablePackets : Z;
  sph_LargestAcked : PacketNumber;
  sph_largestReceivedPacketWithAck : PacketNumber;
  sph_packetHistory : list Packet;
  sph_stopWaitingManager : stopWaitingManager;
  sph_retransmissionQueue : list Packet;
  sph_bytesInFlight : ByteCount;
  sph_congestion : C;
  sph_rttStats : RTTStats;
  sph_onRTOCallback : option (Time -> bool);
  sph_rtoCount : Z;
  sph_tlpCount : Z;
  sph_lossTime : Time;
  sph_lastSentTime : Time;
  sph_alarm : Time;
  sph_packets : Z;
  sph_retransmissions : Z;
  sph_losses : Z
}.
Arguments sentPacketHandler : clear implicits.

#[global] Instance eta_sentPacketHandler C : Eta (sentPacketHandler C) := fun h =>
  mkSentPacketHandler C (sph_lastSentPacketNumber h) (sph_skippedPackets h)
    (sph_numNonRetransmittablePackets h) (sph_LargestAcked h) (sph_largestReceivedPacketWithAck h)
    (sph_packetHistory h) (sph_stopWaitingManager h) (sph_retransmissionQueue h)
    (sph_bytesInFlight h) (sph_congestion h) (sph_rttStats h) (sph_onRTOCallback h)
    (sph_rtoCount h) (sph_tlpCount h) (sph_lossTime h) (sph_lastSentTime h) (sph_alarm h)
    (sph_packets h) (sph_retransmissions h) (sph_losses h).

(** [PacketList.Remove]. *)
Fixpoint PacketList_Remove (l : list Packet) (p : Packet) : list Packet :=
  match l with
  | [] => []
  | q :: l => if pkt_PacketNumber q =? pkt_PacketNumber p then l else q :: PacketList_Remove l p
  end.

Definition track_skipped (skipped : list PacketNumber) (p : PacketNumber) : list PacketNumber :=
  let skipped := skipped ++ [p] in
  if MaxTrackedSkippedPackets <? zlen skipped then tail skipped else skipped.

Section Handler.
Context {C : Type} `{SA : !SendAlgorithm C}.
Implicit Types (h : sentPacketHandler C).

Definition NewSentPacketHandler (rttStats : RTTStats) (cong : C)
    (onRTOCallback : option (Time -> bool)) : sentPacketHandler C :=
  mkSentPacketHandler C 0 [] 0 0 0 [] newStopWaitingManager [] 0 cong rttStats onRTOCallback
    0 0 zeroTime zeroTime zeroTime 0 0 0.

Definition sph_GetStatistics h : Z * Z * Z := (sph_packets h, sph_retransmissions h, sph_losses h).

Definition largestInOrderAcked h : PacketNumber :=
  match sph_packetHistory h with
  | f :: _ => u64 (pkt_PacketNumber f - 1)
  | [] => sph_LargestAcked h
  end.

Definition ShouldSendRetransmittablePacket h : bool :=
  MaxNonRetransmittablePackets <=? sph_numNonRetransmittablePackets h.

(** *** The alarm *)

Definition computeRTOTimeout h : Duration :=
  let rto := sa_RetransmissionDelay (sph_congestion h) (sph_rttStats h) in
  let rto := if rto =? 0 then defaultRTOTimeout else rto in
  let rto := MaxDuration rto minRTOTimeout in
  let rto := i64 (Z.shiftl rto (sph_rtoCount h)) in
  MinDuration rto maxRTOTimeout.

Definition hasMultipleOutstandingRetransmittablePackets h : bool :=
  match sph_packetHistory h with _ :: _ :: _ => true | _ => false end.

Definition computeTLPTimeout h : Duration :=
  let rtt := sa_SmoothedRTT (sph_congestion h) (sph_rttStats h) in
  if hasMultipleOutstandingRetransmittablePackets h
  then MaxDuration (i64 (2 * rtt)) (i64 (Z.quot (i64 (rtt * 3)) 2 + minRetransmissionTime / 2))
  else MaxDuration (i64 (2 * rtt)) minTailLossProbeTimeout.

Definition updateLossDetectionAlarm h : sentPacketHandler C :=
  match sph_packetHistory h with
  | [] => h <| sph_alarm := zeroTime |>
  | _ =>
      if negb (Time_IsZero (sph_lossTime h)) then h <| sph_alarm := sph_lossTime h |>
      else if negb (SmoothedRTT (sph_rttStats h) =? 0) && (sph_tlpCount h <? maxTailLossProbes)
      then h <| sph_alarm := Time_Add (sph_lastSentTime h) (computeTLPTimeout h) |>
      else h <| sph_alarm := Time_Add (sph_lastSentTime h)
                               (MaxDuration (computeRTOTimeout h) minRetransmissionTime) |>
  end.

Definition sph_GetAlarmTimeout h : Time := sph_alarm h.

(** *** Sending *)

Definition SentPacket (packet : Packet) (now : Time) : GoM (sentPacketHandler C) unit := fun h =>
  if pkt_PacketNumber packet <=? sph_lastSentPacketNumber h
  then (Err errPacketNumberNotIncreasing, h)
  else if MaxTrackedSentPackets <?
          zlen (sph_retransmissionQueue h) + zlen (sph_packetHistory h) + 1
  then (Err ErrTooManyTrackedSentPackets, h)
  else
    let first := sph_lastSentPacketNumber h + 1 in
    let h := h <| sph_skippedPackets :=
      foldl track_skipped (sph_skippedPackets h) (seqZ first (pkt_PacketNumber packet - first)) |> in
    let h := h <| sph_lastSentPacketNumber := pkt_PacketNumber packet |> in
    let h := h <| sph_packets := u64 (sph_packets h + 1) |> in
    let h := h <| sph_lastSentTime := now |> in
    let packet := packet <| pkt_Frames := stripNonRetransmittableFrames (pkt_Frames packet) |> in
    let isRetransmittable := negb (zlen (pkt_Frames packet) =? 0) in
    let h :=
      if isRetransmittable then
        let packet := packet <| pkt_SendTime := now |> in
        h <| sph_bytesInFlight := u64 (sph_bytesInFlight h + pkt_Length packet) |>
          <| sph_packetHistory := sph_packetHistory h ++ [packet] |>
          <| sph_numNonRetransmittablePackets := 0 |>
      else
        h <| sph_numNonRetransmittablePackets := i64 (sph_numNonRetransmittablePackets h + 1) |> in
    let '(_, cong) := sa_OnPacketSent (sph_congestion h) now (sph_bytesInFlight h)
                        (pkt_PacketNumber packet) (pkt_Length packet) isRetransmittable in
    let h := h <| sph_congestion := cong |> in
    (Ok tt, updateLossDetectionAlarm h).

(** *** Acknowledgements *)

(** The loop that advances to the range of a packet: [ackRange] is the current
    range, [higher] are those above it. *)
Fixpoint advance_range (packetNumber : PacketNumber) (ackRange : AckRange) (higher : list AckRange)
    : AckRange * list AckRange :=
  match higher with
  | next :: rest =>
      if Last ackRange <? packetNumber then advance_range packetNumber next rest
      else (ackRange, higher)
  | [] => (ackRange, higher)
  end.

(** [cursor] are the ranges from [ackRangeIndex] on, lowest first; [None] when
    the frame has no ranges. *)
Fixpoint newly_acked (lowest largest : PacketNumber) (bug : PacketNumber -> AckRange -> error)
    (cursor : option (AckRange * list AckRange)) (history : list Packet) : outcome (list Packet) :=
  match history with
  | [] => Ok []
  | packet :: history =>
      let packetNumber := pkt_PacketNumber packet in
      if packetNumber <? lowest then newly_acked lowest largest bug cursor history
      else if largest <? packetNumber then Ok []
      else
        let push o := match o with Ok l => Ok (packet :: l) | o => o end in
        match cursor with
        | Some (ackRange, higher) =>
            let '(ackRange, higher) := advance_range packetNumber ackRange higher in
            let cursor := Some (ackRange, higher) in
            if First ackRange <=? packetNumber then
              if Last ackRange <? packetNumber then Err (bug packetNumber ackRange)
              else push (newly_acked lowest largest bug cursor history)
            else newly_acked lowest largest bug cursor history
        | None => push (newly_acked lowest largest bug None history)
        end
  end.

Definition range_cursor (ranges : list AckRange) : option (AckRange * list AckRange) :=
  match reverse ranges with [] => None | r :: rs => Some (r, rs) end.

Definition determineNewlyAckedPackets h (f : AckFrame) : outcome (list Packet) :=
  newly_acked (ack_LowestAcked f) (ack_LargestAcked f) errWrongPacketAcked
    (range_cursor (ack_AckRanges f)) (sph_packetHistory h).

Definition determineNewlyAckedPacketsClosePath h (f : ClosePathFrame) : outcome (list Packet) :=
  newly_acked (cp_LowestAcked f) (cp_LargestAcked f) errWrongPacketAckedClosePath
    (range_cursor (cp_AckRanges f)) (sph_packetHistory h).

(** The packet whose acknowledgement gives a round trip time. *)
Fixpoint find_largest (largestAcked : PacketNumber) (history : list Packet) : option Packet :=
  match history with
  | [] => None
  | packet :: history =>
      if pkt_PacketNumber packet =? largestAcked then Some packet
      else if largestAcked <? pkt_PacketNumber packet then None
      else find_largest largestAcked history
  end.

Definition maybeUpdateRTT h (largestAcked : PacketNumber) (ackDelay : Duration) (rcvTime now : Time)
    : bool * sentPacketHandler C :=
  match find_largest largestAcked (sph_packetHistory h) with
  | Some packet =>
      (true, h <| sph_rttStats :=
        UpdateRTT (sph_rttStats h) (Time_Sub rcvTime (pkt_SendTime packet)) ackDelay now |>)
  | None => (false, h)
  end.

Definition onPacketAcked h (p : Packet) : sentPacketHandler C :=
  h <| sph_bytesInFlight := u64 (sph_bytesInFlight h - pkt_Length p) |> <| sph_rtoCount := 0 |>
    <| sph_tlpCount := 0 |> <| sph_packetHistory := PacketList_Remove (sph_packetHistory h) p |>.

(** The loop over the acked packets; [now] is the clock of the controller. *)
Definition ack_packet (now : Time) h (p : Packet) : sentPacketHandler C :=
  let h := onPacketAcked h p in
  h <| sph_congestion := sa_OnPacketAcked (sph_congestion h) (sph_rttStats h) now
         (pkt_PacketNumber p) (pkt_Length p) (sph_bytesInFlight h) |>.

(** *** Losses *)

Definition queuePacketForRetransmission h (packet : Packet) : sentPacketHandler C :=
  h <| sph_bytesInFlight := u64 (sph_bytesInFlight h - pkt_Length packet) |>
    <| sph_retransmissionQueue := sph_retransmissionQueue h ++ [packet] |>
    <| sph_packetHistory := PacketList_Remove (sph_packetHistory h) packet |>
    <| sph_stopWaitingManager :=
         QueuedRetransmissionForPacketNumber (sph_stopWaitingManager h) (pkt_PacketNumber packet) |>.

Definition lose_packet h (p : Packet) : sentPacketHandler C :=
  let h := queuePacketForRetransmission h p in
  h <| sph_congestion := sa_OnPacketLost (sph_congestion h) (sph_rttStats h)
         (pkt_PacketNumber p) (pkt_Length p) (sph_bytesInFlight h) |>.

(** The time a packet may be outstanding after a later one was acked. *)
Definition delayUntilLost (rttStats : RTTStats) : Duration :=
  float_to_i64 (f64_mul onePlusReordering
    (f64_of_Z (MaxDuration (LatestRTT rttStats) (SmoothedRTT rttStats)))).

(** The packets to declare lost, and the loss time of the first that is not. *)
Fixpoint detect_loop (largestAcked : PacketNumber) (now : Time) (delay : Duration)
    (history : list Packet) (lossTime : Time) : list Packet * Time :=
  match history with
  | [] => ([], lossTime)
  | packet :: history =>
      if largestAcked <? pkt_PacketNumber packet then ([], lossTime)
      else
        let timeSinceSent := Time_Sub now (pkt_SendTime packet) in
        if delay <? timeSinceSent then
          let '(lost, lossTime) := detect_loop largestAcked now delay history lossTime in
          (packet :: lost, lossTime)
        else
          let lossTime := if Time_IsZero lossTime
                          then Time_Add now (i64 (delay - timeSinceSent)) else lossTime in
          detect_loop largestAcked now delay history lossTime
  end.

Definition detectLostPackets h (now : Time) : sentPacketHandler C :=
  let '(lost, lossTime) :=
    detect_loop (sph_LargestAcked h) now (delayUntilLost (sph_rttStats h)) (sph_packetHistory h)
      zeroTime in
  let h := h <| sph_lossTime := lossTime |> <| sph_losses := u64 (sph_losses h + zlen lost) |> in
  foldl lose_packet h lost.

Fixpoint inflight_upto (largestAcked : PacketNumber) (history : list Packet) : list Packet :=
  match history with
  | [] => []
  | packet :: history =>
      if largestAcked <? pkt_PacketNumber packet then []
      else packet :: inflight_upto largestAcked history
  end.

Definition SetInflightAsLost h : sentPacketHandler C :=
  let lost := inflight_upto (sph_LargestAcked h) (sph_packetHistory h) in
  foldl lose_packet (h <| sph_losses := u64 (sph_losses h + zlen lost) |>) lost.

(** *** Skipped packet numbers *)

Definition skippedPacketsAcked h (f : AckFrame) : bool :=
  existsb (AckFrame_AcksPacket f) (sph_skippedPackets h).

Definition skippedPacketsAckedClosePath h (f : ClosePathFrame) : bool :=
  existsb (ClosePathFrame_AcksPacket f) (sph_skippedPackets h).

(** The index after the last number that is not above [lioa]. *)
Fixpoint delete_index (lioa : PacketNumber) (i : nat) (skipped : list PacketNumber) (index : nat)
    : nat :=
  match skipped with
  | [] => index
  | p :: skipped => delete_index lioa (S i) skipped (if p <=? lioa then S i else index)
  end.

Definition garbageCollectSkippedPackets h : sentPacketHandler C :=
  h <| sph_skippedPackets :=
    drop (delete_index (largestInOrderAcked h) 0 (sph_skippedPackets h) 0) (sph_skippedPackets h) |>.

(** *** Frames received

    [nowRTT], [nowAcked] and [nowLost] are the readings of the clock by
    [maybeUpdateRTT], the congestion controller and [detectLostPackets]. *)

Definition ReceivedAck (ackFrame : AckFrame) (withPacketNumber : PacketNumber)
    (rcvTime nowRTT nowAcked nowLost : Time) : GoM (sentPacketHandler C) unit := fun h =>
  if sph_lastSentPacketNumber h <? ack_LargestAcked ackFrame then (Err errAckForUnsentPacket, h)
  else if withPacketNumber <=? sph_largestReceivedPacketWithAck h
  then (Err ErrDuplicateOrOutOfOrderAck, h)
  else
    let h := h <| sph_largestReceivedPacketWithAck := withPacketNumber |> in
    if ack_LargestAcked ackFrame <=? largestInOrderAcked h then (Ok tt, h)
    else
      let h := h <| sph_LargestAcked := ack_LargestAcked ackFrame |> in
      if skippedPacketsAcked h ackFrame then (Err ErrAckForSkippedPacket, h)
      else
        let '(rttUpdated, h) :=
          maybeUpdateRTT h (ack_LargestAcked ackFrame) (ack_DelayTime ackFrame) rcvTime nowRTT in
        let h := if rttUpdated
                 then h <| sph_congestion :=
                   sa_MaybeExitSlowStart (sph_congestion h) (sph_rttStats h) |>
                 else h in
        match determineNewlyAckedPackets h ackFrame with
        | Ok ackedPackets =>
            let h := foldl (ack_packet nowAcked) h ackedPackets in
            let h := detectLostPackets h nowLost in
            let h := updateLossDetectionAlarm h in
            let h := garbageCollectSkippedPackets h in
            (Ok tt, h <| sph_stopWaitingManager :=
                      swm_ReceivedAck (sph_stopWaitingManager h) ackFrame |>)
        | Err e => (Err e, h)
        | Panic p => (Panic p, h)
        end.

Definition ReceivedClosePath (f : ClosePathFrame) (withPacketNumber : PacketNumber)
    (rcvTime nowAcked : Time) : GoM (sentPacketHandler C) unit := fun h =>
  if sph_lastSentPacketNumber h <? cp_LargestAcked f then (Err errAckForUnsentPacket, h)
  else if withPacketNumber <=? sph_largestReceivedPacketWithAck h
  then (Err ErrDuplicateOrOutOfOrderAck, h)
  else
    let h := h <| sph_largestReceivedPacketWithAck := withPacketNumber |> in
    if skippedPacketsAckedClosePath h f then (Err ErrAckForSkippedPacket, h)
    else
      match determineNewlyAckedPacketsClosePath h f with
      | Ok ackedPackets =>
          let h := foldl (ack_packet nowAcked) h ackedPackets in
          let h := SetInflightAsLost h in
          (Ok tt, garbageCollectSkippedPackets h)
      | Err e => (Err e, h)
      | Panic p => (Panic p, h)
      end.

(** *** The alarm fires *)

Definition hasOutstandingRetransmittablePacket h : bool :=
  existsb IsRetransmittable (sph_packetHistory h).

Definition queueRTO h (packet : Packet) : sentPacketHandler C :=
  let h := queuePacketForRetransmission h packet in
  let h := h <| sph_losses := u64 (sph_losses h + 1) |> in
  h <| sph_congestion := sa_OnPacketLost (sph_congestion h) (sph_rttStats h)
         (pkt_PacketNumber packet) (pkt_Length packet) (sph_bytesInFlight h) |>.

Definition retransmitTLP h : sentPacketHandler C :=
  match last (sph_packetHistory h) with
  | Some p => queuePacketForRetransmission h p
  | None => h
  end.

(** [for h.packetHistory.Len() > 0]; every round removes a packet, so as many
    rounds as there are packets are enough. *)
Fixpoint queue_all (fuel : nat) h : sentPacketHandler C :=
  match fuel, sph_packetHistory h with
  | S fuel, p :: _ => queue_all fuel (queueRTO h p)
  | _, _ => h
  end.

Definition on_timeout h : sentPacketHandler C :=
  h <| sph_congestion := sa_OnRetransmissionTimeout (sph_congestion h) (sph_rttStats h) true |>.

Definition retransmitAllPackets h : sentPacketHandler C :=
  on_timeout (queue_all (length (sph_packetHistory h)) h).

Definition retransmitOldestPacket h : sentPacketHandler C :=
  match sph_packetHistory h with p :: _ => queueRTO h p | [] => h end.

Definition retransmitOldestTwoPackets h : sentPacketHandler C :=
  on_timeout (retransmitOldestPacket (retransmitOldestPacket h)).

Definition OnAlarm (now : Time) h : sentPacketHandler C :=
  if negb (hasOutstandingRetransmittablePacket h) then h <| sph_alarm := zeroTime |>
  else
    let h :=
      if negb (Time_IsZero (sph_lossTime h)) then detectLostPackets h now
      else if sph_tlpCount h <? maxTailLossProbes then
        let h := retransmitTLP h in h <| sph_tlpCount := u32 (sph_tlpCount h + 1) |>
      else
        let potentiallyFailed :=
          match sph_onRTOCallback h with Some cb => cb (sph_lastSentTime h) | None => false end in
        let h := if potentiallyFailed then retransmitAllPackets h else retransmitOldestTwoPackets h in
        h <| sph_rtoCount := u32 (sph_rtoCount h + 1) |> in
    updateLossDetectionAlarm h.

(** *** Retransmissions *)

Definition DequeuePacketForRetransmission h : option Packet * sentPacketHandler C :=
  match sph_retransmissionQueue h with
  | [] => (None, h)
  | packet :: queue =>
      (Some packet, h <| sph_retransmissionQueue := queue |>
                      <| sph_retransmissions := u64 (sph_retransmissions h + 1) |>)
  end.

Definition DuplicatePacket (packet : Packet) h : sentPacketHandler C :=
  h <| sph_retransmissionQueue := sph_retransmissionQueue h ++ [packet] |>.

Definition GetLeastUnacked h : PacketNumber := u64 (largestInOrderAcked h + 1).

Definition GetStopWaitingFrame (force : bool) h : option StopWaitingFrame * sentPacketHandler C :=
  let '(f, s) := swm_GetStopWaitingFrame (sph_stopWaitingManager h) force in
  (f, h <| sph_stopWaitingManager := s |>).

Definition SendingAllowed h : bool :=
  let congestionLimited := sa_GetCongestionWindow (sph_congestion h) <? sph_bytesInFlight h in
  let maxTrackedLimited :=
    MaxTrackedSentPackets <=? zlen (sph_retransmissionQueue h) + zlen (sph_packetHistory h) in
  let haveRetransmissions := 0 <? zlen (sph_retransmissionQueue h) in
  negb maxTrackedLimited && (negb congestionLimited || haveRetransmissions).

(** ** The packets in flight *)

Definition pkt_lt (p q : Packet) : Prop := pkt_PacketNumber p < pkt_PacketNumber q.
Definition increasing (l : list Packet) : Prop := StronglySorted pkt_lt l.

Definition sum_length (l : list Packet) : Z := foldr (fun p n => pkt_Length p + n) 0 l.

Lemma sum_length_app l k : sum_length (l ++ k) = sum_length l + sum_length k.
Proof. unfold sum_length. induction l; simpl; lia. Qed.

#[local] Instance sum_length_perm : Proper ((≡ₚ) ==> eq) sum_length.
Proof. unfold sum_length. intros l k H. induction H; simpl; lia. Qed.

(** Removing, one after the other, the packets a test selects. *)
Lemma remove_skips x l ps :
  Forall (pkt_lt x) ps -> foldl PacketList_Remove (x :: l) ps = x :: foldl PacketList_Remove l ps.
Proof.
  revert l. induction ps as [|p ps IH]; intros l; [done|]. intros Hall.
  apply Forall_cons in Hall as [Hx Hps]. cbn [foldl PacketList_Remove].
  destruct (Z.eqb_spec (pkt_PacketNumber x) (pkt_PacketNumber p)); [unfold pkt_lt in *; lia|].
  by apply IH.
Qed.

Lemma remove_filter (P : Packet -> Prop) `{!∀ p, Decision (P p)} l :
  increasing l -> foldl PacketList_Remove l (filter P l) = filter (fun p => ~ P p) l.
Proof.
  induction l as [|x l IH]; [done|]. intros [Hl Hx]%StronglySorted_inv.
  rewrite !filter_cons. destruct (decide (P x)) as [HP|HP].
  - cbn [foldl PacketList_Remove]. rewrite Z.eqb_refl. rewrite IH by done.
    by destruct (decide (~ P x)).
  - rewrite remove_skips by (by apply Forall_filter). rewrite IH by done.
    by destruct (decide (~ P x)).
Qed.

Lemma filter_perm_split (P : Packet -> Prop) `{!∀ p, Decision (P p)} l :
  l ≡ₚ filter P l ++ filter (fun p => ~ P p) l.
Proof.
  induction l as [|x l IH]; [done|]. rewrite !filter_cons.
  destruct (decide (P x)), (decide (~ P x)); try done; [by rewrite IH at 1|].
  rewrite <- Permutation_middle. by rewrite <- IH.
Qed.

(** *** The packets that an acknowledgement selects *)

Definition ranges_asc (l : list AckRange) : Prop :=
  StronglySorted (fun a b => Last a < First b) l /\ Forall (fun r => First r <= Last r) l.

Definition covers (l : list AckRange) (p : PacketNumber) : bool :=
  existsb (fun r => (First r <=? p) && (p <=? Last r)) l.

Lemma covers_elem l p : covers l p = true <-> exists r, r ∈ l /\ First r <= p <= Last r.
Proof.
  unfold covers. rewrite existsb_exists. split; intros (r & Hr & H); exists r; revert Hr H;
    rewrite list_elem_of_In, andb_true_iff, !Z.leb_le; tauto.
Qed.

Lemma desc_sorted b rs :
  desc b rs -> StronglySorted (fun a b => Last b < First a) rs /\ Forall (fun r => First r <= Last r) rs
    /\ Forall (fun r => Last r < b) rs.
Proof.
  revert b. induction rs as [|r rs IH]; intros b; [repeat constructor|].
  intros (Hr & Hb & Hd). destruct (IH _ Hd) as (Hs & Hf & Hl). split_and!; constructor; try done.
  - eapply Forall_impl; [exact Hl|]. simpl. lia.
  - lia.
  - eapply Forall_impl; [exact Hl|]. simpl. lia.
Qed.

Lemma ranges_valid_asc largest lowest r rs :
  ranges_valid largest lowest (r :: rs) -> ranges_asc (reverse (r :: rs)).
Proof.
  intros (_ & _ & Hr & Hd & _). destruct (desc_sorted _ _ Hd) as (Hs & Hf & Hl). split.
  - apply (StronglySorted_reverse (fun a b => Last b < First a)). constructor; [done|].
    eapply Forall_impl; [exact Hl|]. simpl. lia.
  - apply Forall_forall. intros x Hx. rewrite elem_of_reverse in Hx.
    apply elem_of_cons in Hx as [->|Hx]; [lia|]. by apply (proj1 (Forall_forall _ _) Hf).
Qed.

Lemma advance_range_spec pn r higher :
  ranges_asc (r :: higher) ->
  let '(r', higher') := advance_range pn r higher in
  ranges_asc (r' :: higher') /\ last (r' :: higher') = last (r :: higher) /\
  (forall q, pn <= q -> covers (r :: higher) q = covers (r' :: higher') q) /\
  (pn <= Last r' \/ higher' = []).
Proof.
  revert r. induction higher as [|next rest IH]; intros r Hasc; cbn [advance_range]; [by auto|].
  destruct (Z.ltb_spec (Last r) pn) as [Hlt|Hge]; [|by auto].
  assert (Hasc' : ranges_asc (next :: rest)).
  { destruct Hasc as [[Hs _]%StronglySorted_inv [_ Hf]%Forall_cons]. by split. }
  specialize (IH next Hasc'). destruct (advance_range pn next rest) as [r' higher'].
  destruct IH as (H1 & H2 & H3 & H4). split_and!; try done.
  intros q Hq. rewrite <- H3 by done. unfold covers. cbn [existsb].
  destruct (Z.leb_spec q (Last r)); [lia|]. by rewrite andb_false_r.
Qed.

Definition acks_between (lowest largest : PacketNumber) (test : PacketNumber -> bool) (p : Packet)
    : bool :=
  if (pkt_PacketNumber p <? lowest) || (largest <? pkt_PacketNumber p) then false
  else test (pkt_PacketNumber p).

Lemma filter_above lowest largest test history :
  Forall (fun p => largest < pkt_PacketNumber p) history ->
  filter (fun p => acks_between lowest largest test p = true) history = [].
Proof.
  induction 1 as [|p history Hp _ IH]; [done|]. rewrite filter_bool_cons, IH. unfold acks_between.
  destruct (Z.ltb_spec largest (pkt_PacketNumber p)); [|lia]. by rewrite orb_true_r.
Qed.

Lemma filter_covers lowest largest l k pn history :
  (forall q, pn <= q -> covers l q = covers k q) ->
  Forall (fun p => pn <= pkt_PacketNumber p) history ->
  filter (fun p => acks_between lowest largest (covers l) p = true) history
    = filter (fun p => acks_between lowest largest (covers k) p = true) history.
Proof.
  intros Hlk. induction 1 as [|p history Hp _ IH]; [done|]. rewrite !filter_bool_cons, IH.
  unfold acks_between. by rewrite (Hlk _ Hp).
Qed.

(** A packet below the range reached is in none of the ranges from it on. *)
Lemma covers_below r higher pn : ranges_asc (r :: higher) -> pn < First r -> covers (r :: higher) pn = false.
Proof.
  intros [[_ Hs]%StronglySorted_inv [Hr _]%Forall_cons] Hlt.
  apply not_true_is_false. rewrite covers_elem. intros (x & [->|Hx]%elem_of_cons & Hx'); [lia|].
  pose proof (proj1 (Forall_forall _ _) Hs x Hx). simpl in *. lia.
Qed.

Lemma newly_acked_cursor lowest largest bug r higher history :
  increasing history -> ranges_asc (r :: higher) -> Last <$> last (r :: higher) = Some largest ->
  newly_acked lowest largest bug (Some (r, higher)) history
    = Ok (filter (fun p => acks_between lowest largest (covers (r :: higher)) p = true) history).
Proof.
  revert r higher. induction history as [|p history IH]; intros r higher Hinc Hasc Htop; [done|].
  apply StronglySorted_inv in Hinc as [Hinc Hp]. cbn [newly_acked]. rewrite filter_bool_cons.
  unfold acks_between at 1. destruct (Z.ltb_spec (pkt_PacketNumber p) lowest) as [Hlow|Hlow].
  { by apply IH. }
  destruct (Z.ltb_spec largest (pkt_PacketNumber p)) as [Hhigh|Hhigh].
  { f_equal. symmetry. apply filter_above.
    eapply Forall_impl; [exact Hp|]. unfold pkt_lt. lia. }
  pose proof (advance_range_spec (pkt_PacketNumber p) r higher Hasc) as Hadv.
  destruct (advance_range _ r higher) as [r' higher']. destruct Hadv as (Hasc' & Hl & Hc & Hend).
  rewrite <- Hl in Htop. rewrite (IH r' higher') by done. clear IH.
  rewrite (filter_covers lowest largest (r :: higher) (r' :: higher') (pkt_PacketNumber p) history)
    by (done || (eapply Forall_impl; [exact Hp|]; unfold pkt_lt; lia)).
  rewrite Hc by lia. destruct (Z.leb_spec (First r') (pkt_PacketNumber p)) as [Hf|Hf].
  - destruct (Z.ltb_spec (Last r') (pkt_PacketNumber p)) as [Hl'|Hl'].
    + destruct Hend as [?| ->]; [lia|]. simpl in Htop. injection Htop as Htop. lia.
    + assert (E : covers (r' :: higher') (pkt_PacketNumber p) = true); [|by rewrite E].
      apply covers_elem. exists r'. split; [by left|lia].
  - by rewrite covers_below.
Qed.

Lemma newly_acked_no_ranges lowest largest bug history :
  increasing history ->
  newly_acked lowest largest bug None history
    = Ok (filter (fun p => acks_between lowest largest (fun _ => true) p = true) history).
Proof.
  induction history as [|p history IH]; intros Hinc; [done|].
  apply StronglySorted_inv in Hinc as [Hinc Hp]. cbn [newly_acked]. rewrite filter_bool_cons.
  unfold acks_between at 1. destruct (Z.ltb_spec (pkt_PacketNumber p) lowest) as [Hlow|Hlow].
  { by apply IH. }
  destruct (Z.ltb_spec largest (pkt_PacketNumber p)) as [Hhigh|Hhigh].
  { f_equal. symmetry. apply filter_above.
    eapply Forall_impl; [exact Hp|]. unfold pkt_lt. lia. }
  by rewrite IH.
Qed.

Lemma covers_reverse l p : covers (reverse l) p = covers l p.
Proof.
  apply eq_true_iff_eq. rewrite !covers_elem. by setoid_rewrite elem_of_reverse.
Qed.

Lemma newly_acked_exact lowest largest ranges bug history :
  increasing history -> ranges_valid largest lowest ranges ->
  newly_acked lowest largest bug (range_cursor ranges) history
    = Ok (filter (fun p => acksPacket lowest largest ranges (pkt_PacketNumber p) = true) history).
Proof.
  intros Hinc Hv. assert (Heq : forall test,
    (forall q, lowest <= q <= largest -> test q = acksPacket lowest largest ranges q) ->
    filter (fun p => acks_between lowest largest test p = true) history
      = filter (fun p => acksPacket lowest largest ranges (pkt_PacketNumber p) = true) history).
  { intros test Ht. apply list_filter_iff. intros p. unfold acks_between.
    destruct (Z.ltb_spec (pkt_PacketNumber p) lowest) as [H1|H1];
      [|destruct (Z.ltb_spec largest (pkt_PacketNumber p)) as [H2|H2]]; cbn [orb].
    1,2: unfold acksPacket; cases_bool; cbn; try lia; done.
    by rewrite Ht by lia. }
  unfold range_cursor. destruct ranges as [|r rs].
  { cbn [reverse rev_append]. rewrite newly_acked_no_ranges by done. f_equal. apply Heq.
    intros q Hq. unfold acksPacket. cases_bool; cbn; lia || done. }
  pose proof (ranges_valid_asc _ _ _ _ Hv) as Hasc.
  assert (Hlast : Last <$> last (reverse (r :: rs)) = Some largest).
  { rewrite last_reverse. destruct Hv as (_ & E & _). simpl. by rewrite E. }
  destruct (reverse (r :: rs)) as [|r' rs'] eqn:E; [done|].
  rewrite newly_acked_cursor by done. f_equal. rewrite <- E. apply Heq.
  intros q Hq. rewrite covers_reverse. unfold acksPacket, covers. cases_bool; cbn; lia || done.
Qed.

(** *** The packets that are declared lost *)

Definition overdue (largestAcked : PacketNumber) (now : Time) (delay : Duration) (p : Packet) : bool :=
  (pkt_PacketNumber p <=? largestAcked) && (delay <? Time_Sub now (pkt_SendTime p)).

Lemma filter_none {A} (f : A -> bool) l :
  Forall (fun x => f x = false) l -> filter (fun x => f x = true) l = [].
Proof. induction 1 as [|x l Hx _ IH]; [done|]. by rewrite filter_bool_cons, Hx. Qed.

Lemma above_all largest p history :
  Forall (pkt_lt p) history -> largest < pkt_PacketNumber p ->
  Forall (fun q => (pkt_PacketNumber q <=? largest) = false) history.
Proof.
  intros Hp Hl. eapply Forall_impl; [exact Hp|]. unfold pkt_lt. intros q Hq.
  apply Z.leb_gt. lia.
Qed.

Lemma detect_loop_lost largestAcked now delay history lossTime :
  increasing history ->
  fst (detect_loop largestAcked now delay history lossTime)
    = filter (fun p => overdue largestAcked now delay p = true) history.
Proof.
  revert lossTime. induction history as [|p history IH]; intros lossTime Hinc; [done|].
  apply StronglySorted_inv in Hinc as [Hinc Hp]. cbn [detect_loop]. rewrite filter_bool_cons.
  unfold overdue at 1. destruct (Z.ltb_spec largestAcked (pkt_PacketNumber p)) as [Hl|Hl].
  - destruct (Z.leb_spec (pkt_PacketNumber p) largestAcked); [lia|]. symmetry.
    apply filter_none. eapply Forall_impl; [by eapply above_all|].
    unfold overdue. by intros q ->.
  - destruct (Z.leb_spec (pkt_PacketNumber p) largestAcked); [|lia]. cbn [andb].
    destruct (delay <? _); [|by apply IH].
    specialize (IH lossTime Hinc). destruct (detect_loop _ _ _ _ _) as [lost lt]. simpl in *.
    by rewrite IH.
Qed.

Lemma inflight_upto_filter largestAcked history :
  increasing history ->
  inflight_upto largestAcked history
    = filter (fun p => (pkt_PacketNumber p <=? largestAcked) = true) history.
Proof.
  induction history as [|p history IH]; intros Hinc; [done|].
  apply StronglySorted_inv in Hinc as [Hinc Hp]. cbn [inflight_upto]. rewrite filter_bool_cons.
  destruct (Z.ltb_spec largestAcked (pkt_PacketNumber p)) as [Hl|Hl];
    destruct (Z.leb_spec (pkt_PacketNumber p) largestAcked); try lia.
  - symmetry. apply filter_none. by eapply above_all.
  - by rewrite IH.
Qed.

(** ** What the batches do to the state

    [moved h h' ps queued]: the packets [ps] left the history one after the
    other, the packets [queued] entered the retransmission queue, and nothing
    else that the accounting of packets looks at changed. *)
Record moved h h' (ps queued : list Packet) : Prop := {
  mv_history : sph_packetHistory h' = foldl PacketList_Remove (sph_packetHistory h) ps;
  mv_queue : sph_retransmissionQueue h' = sph_retransmissionQueue h ++ queued;
  mv_bytes : sph_bytesInFlight h' = u64 (sph_bytesInFlight h - sum_length ps);
  mv_lastSent : sph_lastSentPacketNumber h' = sph_lastSentPacketNumber h;
  mv_largest : sph_LargestAcked h' = sph_LargestAcked h;
  mv_rttStats : sph_rttStats h' = sph_rttStats h
}.

Lemma u64_idemp z : u64 (u64 z) = u64 z.
Proof. glia. Qed.

Lemma u64_sub_l a b : u64 (u64 a - b) = u64 (a - b).
Proof. unfold u64. by rewrite Zminus_mod_idemp_l. Qed.

Lemma u64_add_l a b : u64 (u64 a + b) = u64 (a + b).
Proof. unfold u64. by rewrite Zplus_mod_idemp_l. Qed.

Lemma moved_refl h : sph_bytesInFlight h = u64 (sph_bytesInFlight h) -> moved h h [] [].
Proof.
  intros E. split; [done| |simpl; by rewrite Z.sub_0_r|done..]. by rewrite app_nil_r.
Qed.

Lemma moved_trans h1 h2 h3 ps1 q1 ps2 q2 :
  moved h1 h2 ps1 q1 -> moved h2 h3 ps2 q2 -> moved h1 h3 (ps1 ++ ps2) (q1 ++ q2).
Proof.
  intros [A1 A2 A3 A4 A5 A6] [B1 B2 B3 B4 B5 B6]. split.
  - by rewrite foldl_app, B1, A1.
  - by rewrite B2, A2, app_assoc.
  - rewrite B3, A3, u64_sub_l, sum_length_app. f_equal. lia.
  - congruence.
  - congruence.
  - congruence.
Qed.

Lemma ack_packet_moved now h p : moved h (ack_packet now h p) [p] [].
Proof. split; cbn; [done|by rewrite app_nil_r|by rewrite Z.add_0_r|done..]. Qed.

Lemma lose_packet_moved h p : moved h (lose_packet h p) [p] [p].
Proof. split; cbn; [done|done|by rewrite Z.add_0_r|done..]. Qed.

Lemma queueRTO_moved h p : moved h (queueRTO h p) [p] [p].
Proof. split; cbn; [done|done|by rewrite Z.add_0_r|done..]. Qed.

Definition bytes_wrapped h : Prop := sph_bytesInFlight h = u64 (sph_bytesInFlight h).

Lemma moved_wrapped h h' ps q : moved h h' ps q -> bytes_wrapped h'.
Proof. intros H. unfold bytes_wrapped. rewrite (mv_bytes _ _ _ _ H). by rewrite u64_idemp. Qed.

Lemma ack_all_moved now h ps : bytes_wrapped h -> moved h (foldl (ack_packet now) h ps) ps [].
Proof.
  revert h. induction ps as [|p ps IH]; intros h Hw; [by apply moved_refl|]. cbn [foldl].
  pose proof (ack_packet_moved now h p) as H1. eapply (moved_trans h _ _ [p] [] ps []); [done|].
  apply IH. by eapply moved_wrapped.
Qed.

Lemma lose_all_moved h ps : bytes_wrapped h -> moved h (foldl lose_packet h ps) ps ps.
Proof.
  revert h. induction ps as [|p ps IH]; intros h Hw; [by apply moved_refl|]. cbn [foldl].
  pose proof (lose_packet_moved h p) as H1. eapply (moved_trans h _ _ [p] [p] ps ps); [done|].
  apply IH. by eapply moved_wrapped.
Qed.

(** ** The invariant *)

Definition stored_ok (p : Packet) : Prop :=
  pkt_Frames p <> [] /\ Forall (fun f => IsFrameRetransmittable f = true) (pkt_Frames p).

Record sph_inv h : Prop := {
  inv_increasing : increasing (sph_packetHistory h);
  inv_sent : Forall (fun p => pkt_PacketNumber p <= sph_lastSentPacketNumber h) (sph_packetHistory h);
  inv_bytes : sph_bytesInFlight h = u64 (sum_length (sph_packetHistory h));
  inv_stored : Forall stored_ok (sph_packetHistory h)
}.

Lemma New_inv rttStats cong onRTO : sph_inv (NewSentPacketHandler rttStats cong onRTO).
Proof. split; [apply SSorted_nil|by apply Forall_nil|done|by apply Forall_nil]. Qed.

(** [transfers h h' acked lost]: from [h] to [h'] the packets [acked] left the
    history for good and the packets [lost] moved to the retransmission queue. *)
Record transfers h h' (acked lost : list Packet) : Prop := {
  tr_inv : sph_inv h';
  tr_history : sph_packetHistory h ≡ₚ acked ++ lost ++ sph_packetHistory h';
  tr_queue : sph_retransmissionQueue h' = sph_retransmissionQueue h ++ lost
}.

(** The states that agree on what the invariant and the accounting see. *)
Definition same_packets h h' : Prop :=
  sph_packetHistory h' = sph_packetHistory h /\
  sph_retransmissionQueue h' = sph_retransmissionQueue h /\
  sph_bytesInFlight h' = sph_bytesInFlight h /\
  sph_lastSentPacketNumber h' = sph_lastSentPacketNumber h.

Lemma same_packets_inv h h' : same_packets h h' -> sph_inv h -> sph_inv h'.
Proof. intros (E1 & E2 & E3 & E4) [H1 H2 H3 H4]. split; rewrite ?E1, ?E3, ?E4; done. Qed.

Lemma same_packets_transfers h h' : same_packets h h' -> sph_inv h -> transfers h h' [] [].
Proof.
  intros H Hi. split; [by eapply same_packets_inv| |].
  - destruct H as (E & _). by rewrite E.
  - destruct H as (_ & E & _). by rewrite E, app_nil_r.
Qed.

Lemma transfers_trans h1 h2 h3 a1 l1 a2 l2 :
  transfers h1 h2 a1 l1 -> transfers h2 h3 a2 l2 -> transfers h1 h3 (a1 ++ a2) (l1 ++ l2).
Proof.
  intros [A1 A2 A3] [B1 B2 B3]. split; [done| |by rewrite B3, A3, app_assoc].
  rewrite A2, B2. solve_Permutation.
Qed.

Lemma inv_wrapped h : sph_inv h -> bytes_wrapped h.
Proof. intros H. unfold bytes_wrapped. rewrite (inv_bytes _ H). by rewrite u64_idemp. Qed.

Lemma moved_inv h h' (f : Packet -> bool) queued :
  sph_inv h -> moved h h' (filter (fun p => f p = true) (sph_packetHistory h)) queued ->
  sph_inv h' /\
  sph_packetHistory h ≡ₚ
    filter (fun p => f p = true) (sph_packetHistory h) ++ sph_packetHistory h'.
Proof.
  intros [I1 I2 I3 I4] [M1 M2 M3 M4 M5 M6]. rewrite remove_filter in M1 by done.
  pose proof (filter_perm_split (fun p => f p = true) (sph_packetHistory h)) as Hp.
  cbv beta in Hp. rewrite <- M1 in Hp. split; [|done]. split.
  - rewrite M1. by apply StronglySorted_filter.
  - rewrite M1, M4. by apply Forall_filter.
  - rewrite M3, I3, u64_sub_l. f_equal. rewrite Hp at 1. rewrite sum_length_app. lia.
  - rewrite M1. by apply Forall_filter.
Qed.

Lemma moved_acked h h' f :
  sph_inv h -> moved h h' (filter (fun p => f p = true) (sph_packetHistory h)) [] ->
  transfers h h' (filter (fun p => f p = true) (sph_packetHistory h)) [].
Proof.
  intros Hi M. destruct (moved_inv _ _ _ _ Hi M) as [Hi' Hp]. split; [done|done|].
  by rewrite (mv_queue _ _ _ _ M).
Qed.

Lemma moved_lost h h' f :
  sph_inv h ->
  moved h h' (filter (fun p => f p = true) (sph_packetHistory h))
    (filter (fun p => f p = true) (sph_packetHistory h)) ->
  transfers h h' [] (filter (fun p => f p = true) (sph_packetHistory h)).
Proof.
  intros Hi M. destruct (moved_inv _ _ _ _ Hi M) as [Hi' Hp]. split; [done|done|].
  by rewrite (mv_queue _ _ _ _ M).
Qed.

(** A packet of the history is the only one with its number. *)
Lemma filter_number history p :
  increasing history -> p ∈ history ->
  filter (fun q => (pkt_PacketNumber q =? pkt_PacketNumber p) = true) history = [p].
Proof.
  induction history as [|q history IH]; [by intros _ ?%not_elem_of_nil|].
  intros [Hinc Hq]%StronglySorted_inv Hp. rewrite filter_bool_cons.
  apply elem_of_cons in Hp as [->|Hp].
  - rewrite Z.eqb_refl. f_equal. apply filter_none. eapply Forall_impl; [exact Hq|].
    unfold pkt_lt. intros x Hx. apply Z.eqb_neq. lia.
  - pose proof (proj1 (Forall_forall _ _) Hq p Hp). unfold pkt_lt in *.
    destruct (Z.eqb_spec (pkt_PacketNumber q) (pkt_PacketNumber p)); [lia|]. by apply IH.
Qed.

Lemma moved_one h h' p :
  sph_inv h -> p ∈ sph_packetHistory h -> moved h h' [p] [p] -> transfers h h' [] [p].
Proof.
  intros Hi Hp M. pose proof (filter_number _ p (inv_increasing _ Hi) Hp) as E.
  rewrite <- E in M |- *. by apply moved_lost.
Qed.

(** *** Every operation *)

Lemma alarm_same h : same_packets h (updateLossDetectionAlarm h).
Proof.
  unfold updateLossDetectionAlarm. destruct (sph_packetHistory h) eqn:E; [done|].
  destruct (negb _); [done|]. by destruct (_ && _).
Qed.

Lemma transfers_from h h1 h' acked lost :
  same_packets h h1 -> transfers h1 h' acked lost -> transfers h h' acked lost.
Proof.
  intros (E1 & E2 & _) [H1 H2 H3]. split; [done|by rewrite <- E1|by rewrite H3, E2].
Qed.

Lemma transfers_to h h1 h' acked lost :
  transfers h h1 acked lost -> same_packets h1 h' -> transfers h h' acked lost.
Proof.
  intros [H1 H2 H3] Hs. split; [by eapply same_packets_inv| |].
  - destruct Hs as (E & _). by rewrite E.
  - destruct Hs as (_ & E & _). by rewrite E.
Qed.

Lemma lose_all_transfers h h1 f :
  sph_inv h -> same_packets h h1 ->
  transfers h (foldl lose_packet h1 (filter (fun p => f p = true) (sph_packetHistory h))) []
    (filter (fun p => f p = true) (sph_packetHistory h)).
Proof.
  intros Hi Hs. pose proof (same_packets_inv _ _ Hs Hi) as Hi1.
  apply (transfers_from _ _ _ _ _ Hs). destruct Hs as (E & _). rewrite <- E.
  apply moved_lost; [done|]. apply lose_all_moved. by apply inv_wrapped.
Qed.

Lemma ack_all_transfers now h h1 f :
  sph_inv h -> same_packets h h1 ->
  transfers h (foldl (ack_packet now) h1 (filter (fun p => f p = true) (sph_packetHistory h)))
    (filter (fun p => f p = true) (sph_packetHistory h)) [].
Proof.
  intros Hi Hs. pose proof (same_packets_inv _ _ Hs Hi) as Hi1.
  apply (transfers_from _ _ _ _ _ Hs). destruct Hs as (E & _). rewrite <- E.
  apply moved_acked; [done|]. apply ack_all_moved. by apply inv_wrapped.
Qed.

Lemma detectLostPackets_transfers h now :
  sph_inv h ->
  transfers h (detectLostPackets h now) []
    (filter (fun p => overdue (sph_LargestAcked h) now (delayUntilLost (sph_rttStats h)) p = true)
       (sph_packetHistory h)).
Proof.
  intros Hi. pose proof (inv_increasing _ Hi) as Hinc. unfold detectLostPackets.
  pose proof (detect_loop_lost (sph_LargestAcked h) now (delayUntilLost (sph_rttStats h)) _ zeroTime
    Hinc) as E.
  destruct (detect_loop _ _ _ _ _) as [lost lossTime]. simpl in E. subst lost.
  by apply lose_all_transfers.
Qed.

Lemma SetInflightAsLost_transfers h :
  sph_inv h ->
  transfers h (SetInflightAsLost h) []
    (filter (fun p => (pkt_PacketNumber p <=? sph_LargestAcked h) = true) (sph_packetHistory h)).
Proof.
  intros Hi. unfold SetInflightAsLost. rewrite inflight_upto_filter by (by apply inv_increasing).
  by apply (lose_all_transfers h _ (fun p => pkt_PacketNumber p <=? sph_LargestAcked h)).
Qed.

(** The acknowledgements that reach [determineNewlyAckedPackets]. *)
Definition ack_counts (f : AckFrame) (withPacketNumber : PacketNumber) h : bool :=
  (ack_LargestAcked f <=? sph_lastSentPacketNumber h) &&
  (sph_largestReceivedPacketWithAck h <? withPacketNumber) &&
  (largestInOrderAcked h <? ack_LargestAcked f) && negb (skippedPacketsAcked h f).

Definition newly_acked_by (f : AckFrame) (withPacketNumber : PacketNumber) h : list Packet :=
  if ack_counts f withPacketNumber h
  then filter (fun p => AckFrame_AcksPacket f (pkt_PacketNumber p) = true) (sph_packetHistory h)
  else [].

Definition close_counts (f : ClosePathFrame) (withPacketNumber : PacketNumber) h : bool :=
  (cp_LargestAcked f <=? sph_lastSentPacketNumber h) &&
  (sph_largestReceivedPacketWithAck h <? withPacketNumber) &&
  negb (skippedPacketsAckedClosePath h f).

Definition newly_acked_by_close (f : ClosePathFrame) (withPacketNumber : PacketNumber) h
    : list Packet :=
  if close_counts f withPacketNumber h
  then filter (fun p => ClosePathFrame_AcksPacket f (pkt_PacketNumber p) = true) (sph_packetHistory h)
  else [].

(** What follows the detection of losses in [ReceivedAck]. *)
Definition ack_epilogue (f : AckFrame) h : sentPacketHandler C :=
  let h := garbageCollectSkippedPackets (updateLossDetectionAlarm h) in
  h <| sph_stopWaitingManager := swm_ReceivedAck (sph_stopWaitingManager h) f |>.

Lemma ReceivedAck_not_counted f wpn rcv t1 t2 t3 h :
  ack_counts f wpn h = false -> same_packets h (ReceivedAck f wpn rcv t1 t2 t3 h).2.
Proof.
  unfold ReceivedAck, ack_counts.
  destruct (Z.ltb_spec (sph_lastSentPacketNumber h) (ack_LargestAcked f)); [done|].
  destruct (Z.leb_spec (ack_LargestAcked f) (sph_lastSentPacketNumber h)); [|lia].
  destruct (Z.leb_spec wpn (sph_largestReceivedPacketWithAck h)); [done|].
  destruct (Z.ltb_spec (sph_largestReceivedPacketWithAck h) wpn); [|lia].
  set (h1 := h <| sph_largestReceivedPacketWithAck := wpn |>).
  change (largestInOrderAcked h1) with (largestInOrderAcked h).
  destruct (Z.leb_spec (ack_LargestAcked f) (largestInOrderAcked h)); [done|].
  destruct (Z.ltb_spec (largestInOrderAcked h) (ack_LargestAcked f)); [|lia].
  set (h2 := h1 <| sph_LargestAcked := ack_LargestAcked f |>).
  change (skippedPacketsAcked h2 f) with (skippedPacketsAcked h f).
  by destruct (skippedPacketsAcked h f).
Qed.

Lemma ReceivedAck_counted f wpn rcv t1 t2 t3 h :
  sph_inv h -> ranges_valid (ack_LargestAcked f) (ack_LowestAcked f) (ack_AckRanges f) ->
  ack_counts f wpn h = true ->
  exists h1, same_packets h h1 /\ sph_LargestAcked h1 = ack_LargestAcked f /\
    ReceivedAck f wpn rcv t1 t2 t3 h =
      (Ok tt, ack_epilogue f (detectLostPackets (foldl (ack_packet t2) h1
                (filter (fun p => AckFrame_AcksPacket f (pkt_PacketNumber p) = true)
                   (sph_packetHistory h))) t3)).
Proof.
  intros Hi Hv. unfold ReceivedAck, ack_counts. rewrite !andb_true_iff, negb_true_iff.
  intros [[[H1%Z.leb_le H2%Z.ltb_lt] H3%Z.ltb_lt] H4].
  destruct (Z.ltb_spec (sph_lastSentPacketNumber h) (ack_LargestAcked f)); [lia|].
  destruct (Z.leb_spec wpn (sph_largestReceivedPacketWithAck h)); [lia|].
  set (h1 := h <| sph_largestReceivedPacketWithAck := wpn |>).
  change (largestInOrderAcked h1) with (largestInOrderAcked h).
  destruct (Z.leb_spec (ack_LargestAcked f) (largestInOrderAcked h)); [lia|].
  set (h2 := h1 <| sph_LargestAcked := ack_LargestAcked f |>).
  change (skippedPacketsAcked h2 f) with (skippedPacketsAcked h f). rewrite H4.
  assert (Hm : same_packets h (maybeUpdateRTT h2 (ack_LargestAcked f) (ack_DelayTime f) rcv t1).2 /\
    sph_LargestAcked (maybeUpdateRTT h2 (ack_LargestAcked f) (ack_DelayTime f) rcv t1).2
      = ack_LargestAcked f) by (unfold maybeUpdateRTT; by destruct (find_largest _ _)).
  destruct (maybeUpdateRTT _ _ _ _ _) as [rttUpdated h3]. cbn [snd] in Hm.
  set (h4 := if rttUpdated then _ else h3).
  assert (Hs : same_packets h h4 /\ sph_LargestAcked h4 = ack_LargestAcked f)
    by (subst h4; by destruct rttUpdated). clearbody h4.
  destruct Hs as [Hs E]. unfold determineNewlyAckedPackets.
  rewrite newly_acked_exact by (done || (apply inv_increasing; by eapply same_packets_inv)).
  exists h4. split_and!; [apply Hs..|done|]. destruct Hs as (-> & _). done.
Qed.

Lemma ack_epilogue_same f h : same_packets h (ack_epilogue f h).
Proof. apply alarm_same. Qed.

Lemma ReceivedAck_transfers f wpn rcv t1 t2 t3 h :
  sph_inv h -> ranges_valid (ack_LargestAcked f) (ack_LowestAcked f) (ack_AckRanges f) ->
  exists lost, transfers h (ReceivedAck f wpn rcv t1 t2 t3 h).2 (newly_acked_by f wpn h) lost.
Proof.
  intros Hi Hv. unfold newly_acked_by. destruct (ack_counts f wpn h) eqn:Hc.
  - destruct (ReceivedAck_counted f wpn rcv t1 t2 t3 h Hi Hv Hc) as (h1 & Hs & _ & ->).
    pose proof (ack_all_transfers t2 h h1 (fun p => AckFrame_AcksPacket f (pkt_PacketNumber p)) Hi Hs)
      as T1. set (h2 := foldl (ack_packet t2) h1 _) in *. clearbody h2.
    pose proof (detectLostPackets_transfers h2 t3 (tr_inv _ _ _ _ T1)) as T2.
    pose proof (transfers_trans _ _ _ _ _ _ _ T1 T2) as T. rewrite app_nil_r in T.
    eexists. eapply transfers_to; [exact T|apply ack_epilogue_same].
  - exists []. apply same_packets_transfers; [by apply ReceivedAck_not_counted|done].
Qed.

Lemma ReceivedClosePath_transfers f wpn rcv t h :
  sph_inv h -> ranges_valid (cp_LargestAcked f) (cp_LowestAcked f) (cp_AckRanges f) ->
  exists lost,
    transfers h (ReceivedClosePath f wpn rcv t h).2 (newly_acked_by_close f wpn h) lost /\
    (close_counts f wpn h = true -> (ReceivedClosePath f wpn rcv t h).1 = Ok tt) /\
    (close_counts f wpn h = false -> lost = []).
Proof.
  intros Hi Hv. unfold ReceivedClosePath, newly_acked_by_close, close_counts.
  destruct (Z.ltb_spec (sph_lastSentPacketNumber h) (cp_LargestAcked f)) as [H1|H1];
    destruct (Z.leb_spec (cp_LargestAcked f) (sph_lastSentPacketNumber h)) as [H1'|H1']; try lia;
    [exists []; split; [by apply same_packets_transfers|done]|].
  destruct (Z.leb_spec wpn (sph_largestReceivedPacketWithAck h)) as [H2|H2];
    destruct (Z.ltb_spec (sph_largestReceivedPacketWithAck h) wpn) as [H2'|H2']; try lia;
    [exists []; split; [by apply same_packets_transfers|done]|].
  set (h1 := h <| sph_largestReceivedPacketWithAck := wpn |>).
  change (skippedPacketsAckedClosePath h1 f) with (skippedPacketsAckedClosePath h f).
  destruct (skippedPacketsAckedClosePath h f);
    [exists []; split; [by apply same_packets_transfers|done]|].
  cbn [andb negb]. unfold determineNewlyAckedPacketsClosePath.
  change (sph_packetHistory h1) with (sph_packetHistory h).
  rewrite newly_acked_exact by (done || by apply inv_increasing).
  pose proof (ack_all_transfers t h h1 (fun p => ClosePathFrame_AcksPacket f (pkt_PacketNumber p)) Hi
    ltac:(done)) as T1. set (h2 := foldl (ack_packet t) h1 _) in *. clearbody h2.
  pose proof (SetInflightAsLost_transfers h2 (tr_inv _ _ _ _ T1)) as T2.
  pose proof (transfers_trans _ _ _ _ _ _ _ T1 T2) as T. rewrite app_nil_r in T.
  eexists. split; [eapply transfers_to; [exact T|done]|by split].
Qed.

Lemma queue_all_transfers n h :
  sph_inv h -> length (sph_packetHistory h) = n ->
  transfers h (queue_all n h) [] (sph_packetHistory h).
Proof.
  revert h. induction n as [|n IH]; intros h Hi Hn; cbn [queue_all].
  - apply nil_length_inv in Hn as E. rewrite E. by apply same_packets_transfers.
  - destruct (sph_packetHistory h) as [|p rest] eqn:E; [done|].
    assert (T1 : transfers h (queueRTO h p) [] [p]).
    { apply moved_one; [done|rewrite E; by left|apply queueRTO_moved]. }
    assert (E' : sph_packetHistory (queueRTO h p) = rest).
    { change (PacketList_Remove (sph_packetHistory h) p = rest). rewrite E. cbn [PacketList_Remove].
      by rewrite Z.eqb_refl. }
    pose proof (IH (queueRTO h p) (tr_inv _ _ _ _ T1)) as T2. rewrite E' in T2.
    apply (transfers_trans _ _ _ [] [p] [] rest T1). apply T2. simpl in Hn. lia.
Qed.

Lemma retransmitOldest_transfers h :
  sph_inv h -> transfers h (retransmitOldestPacket h) [] (take 1 (sph_packetHistory h)).
Proof.
  intros Hi. unfold retransmitOldestPacket. destruct (sph_packetHistory h) as [|p rest] eqn:E.
  - by apply same_packets_transfers.
  - apply moved_one; [done|rewrite E; by left|apply queueRTO_moved].
Qed.

Lemma retransmitTLP_transfers h :
  sph_inv h -> transfers h (retransmitTLP h) [] (option_list (last (sph_packetHistory h))).
Proof.
  intros Hi. unfold retransmitTLP. destruct (last (sph_packetHistory h)) as [p|] eqn:E.
  - apply moved_one; [done|by apply last_Some_elem_of|]. split; cbn; [done|done|by rewrite Z.add_0_r|done..].
  - by apply same_packets_transfers.
Qed.

(** What an alarm moves to the retransmission queue. *)
Lemma OnAlarm_transfers now h :
  sph_inv h -> exists lost, transfers h (OnAlarm now h) [] lost.
Proof.
  intros Hi. unfold OnAlarm. destruct (negb _); [exists []; by apply same_packets_transfers|].
  destruct (negb _).
  { eexists. eapply transfers_to; [by apply detectLostPackets_transfers|apply alarm_same]. }
  destruct (_ <? _).
  { eexists. eapply transfers_to; [by apply retransmitTLP_transfers|].
    set (h1 := retransmitTLP h). by destruct (alarm_same (assign sph_tlpCount (u32 (sph_tlpCount h1 + 1)) h1))
      as (? & ? & ? & ?). }
  set (h1 := if (match _ with Some _ => _ | None => _ end : bool) then _ else _).
  assert (T : exists lost, transfers h h1 [] lost).
  { subst h1. destruct (match _ with Some _ => _ | None => _ end).
    - eexists. eapply transfers_to; [by apply queue_all_transfers|done].
    - pose proof (retransmitOldest_transfers h Hi) as T1.
      pose proof (retransmitOldest_transfers _ (tr_inv _ _ _ _ T1)) as T2.
      eexists. eapply transfers_to; [exact (transfers_trans _ _ _ _ _ _ _ T1 T2)|done]. }
  clearbody h1. destruct T as [lost T]. exists lost. eapply transfers_to; [exact T|].
  by destruct (alarm_same (assign sph_rtoCount (u32 (sph_rtoCount h1 + 1)) h1)) as (? & ? & ? & ?).
Qed.

Definition sent_counts (packet : Packet) h : bool :=
  (sph_lastSentPacketNumber h <? pkt_PacketNumber packet) &&
  (zlen (sph_retransmissionQueue h) + zlen (sph_packetHistory h) + 1 <=? MaxTrackedSentPackets).

Definition stored (packet : Packet) (now : Time) : Packet :=
  packet <| pkt_Frames := stripNonRetransmittableFrames (pkt_Frames packet) |> <| pkt_SendTime := now |>.

(** What enters the history when a packet is sent. *)
Definition newly_sent (packet : Packet) (now : Time) h : list Packet :=
  if sent_counts packet h && negb (zlen (stripNonRetransmittableFrames (pkt_Frames packet)) =? 0)
  then [stored packet now] else [].

Lemma strip_retransmittable fs :
  Forall (fun f => IsFrameRetransmittable f = true) (stripNonRetransmittableFrames fs).
Proof.
  induction fs as [|f fs IH]; [constructor|]. cbn [stripNonRetransmittableFrames].
  destruct (IsFrameRetransmittable f) eqn:E; [by constructor|done].
Qed.

Lemma inv_snoc h h' p :
  sph_inv h -> sph_lastSentPacketNumber h < pkt_PacketNumber p -> stored_ok p ->
  sph_packetHistory h' = sph_packetHistory h ++ [p] ->
  sph_lastSentPacketNumber h' = pkt_PacketNumber p ->
  sph_bytesInFlight h' = u64 (sph_bytesInFlight h + pkt_Length p) -> sph_inv h'.
Proof.
  intros [H1 H2 H3 H4] Hlt Hp E1 E2 E3. split; rewrite ?E1, ?E2, ?E3.
  - apply StronglySorted_snoc; [done|]. eapply Forall_impl; [exact H2|]. unfold pkt_lt. lia.
  - apply Forall_app. split; [|by repeat constructor]. eapply Forall_impl; [exact H2|]. simpl. lia.
  - rewrite H3, u64_add_l, sum_length_app. simpl. f_equal. lia.
  - apply Forall_app. split; [done|by constructor].
Qed.

Lemma SentPacket_result packet now h :
  sph_inv h ->
  let '(o, h') := SentPacket packet now h in
  sph_inv h' /\ sph_packetHistory h' = sph_packetHistory h ++ newly_sent packet now h /\
  sph_retransmissionQueue h' = sph_retransmissionQueue h /\
  (sent_counts packet h = true <-> o = Ok tt).
Proof.
  intros Hi. unfold SentPacket, newly_sent, sent_counts.
  destruct (Z.leb_spec (pkt_PacketNumber packet) (sph_lastSentPacketNumber h)) as [H1|H1];
    destruct (Z.ltb_spec (sph_lastSentPacketNumber h) (pkt_PacketNumber packet)) as [H1'|H1']; try lia;
    [by rewrite app_nil_r|].
  destruct (Z.ltb_spec MaxTrackedSentPackets
    (zlen (sph_retransmissionQueue h) + zlen (sph_packetHistory h) + 1)) as [H2|H2];
    destruct (Z.leb_spec (zlen (sph_retransmissionQueue h) + zlen (sph_packetHistory h) + 1)
      MaxTrackedSentPackets) as [H2'|H2']; try lia; [by rewrite app_nil_r|].
  cbn [andb]. cbv zeta.
  change (pkt_Frames (packet <| pkt_Frames := stripNonRetransmittableFrames (pkt_Frames packet) |>))
    with (stripNonRetransmittableFrames (pkt_Frames packet)).
  set (h1 := assign sph_lastSentTime _ _).
  set (fs := stripNonRetransmittableFrames (pkt_Frames packet)).
  destruct (Z.eqb_spec (zlen fs) 0) as [Hz|Hz]; cbn [negb].
  - destruct (sa_OnPacketSent _ _ _ _ _ _) as [b cong]. set (h2 := assign sph_congestion _ _).
    destruct (alarm_same h2) as (A1 & A2 & A3 & A4). rewrite A1, A2. split_and!; [|by rewrite app_nil_r|done|done].
    apply (same_packets_inv h2); [apply alarm_same|]. destruct Hi as [I1 I2 I3 I4].
    split; [done| |done|done]. eapply Forall_impl; [exact I2|].
    intros p Hp. change (pkt_PacketNumber p <= pkt_PacketNumber packet). simpl in Hp. lia.
  - destruct (sa_OnPacketSent _ _ _ _ _ _) as [b cong]. set (h2 := assign sph_congestion _ _).
    destruct (alarm_same h2) as (A1 & A2 & A3 & A4). rewrite A1, A2. split_and!; try done.
    apply (same_packets_inv h2); [apply alarm_same|].
    apply (inv_snoc h h2 (stored packet now)); try done.
    split; [|apply strip_retransmittable]. change (fs <> []). intros E. by rewrite E in Hz.
Qed.

(** The detection of losses splits the history. *)
Lemma detectLostPackets_split h now :
  sph_inv h ->
  let late p := overdue (sph_LargestAcked h) now (delayUntilLost (sph_rttStats h)) p in
  let h' := detectLostPackets h now in
  sph_packetHistory h' = filter (fun p => ~ late p = true) (sph_packetHistory h) /\
  sph_retransmissionQueue h'
    = sph_retransmissionQueue h ++ filter (fun p => late p = true) (sph_packetHistory h) /\
  sph_rttStats h' = sph_rttStats h.
Proof.
  intros Hi. pose proof (inv_increasing _ Hi) as Hinc. unfold detectLostPackets.
  pose proof (detect_loop_lost (sph_LargestAcked h) now (delayUntilLost (sph_rttStats h)) _ zeroTime
    Hinc) as E.
  destruct (detect_loop _ _ _ _ _) as [lost lossTime]. simpl in E. subst lost. cbv zeta.
  set (h1 := assign sph_losses _ _). set (lost := filter _ (sph_packetHistory h)).
  assert (Hw : bytes_wrapped h1) by apply (inv_wrapped _ Hi).
  destruct (lose_all_moved h1 lost Hw) as [M1 M2 M3 M4 M5 M6].
  rewrite M1, M2, M6. split_and!; [|done|done]. subst lost. by apply remove_filter.
Qed.

Lemma alarm_rttStats h : sph_rttStats (updateLossDetectionAlarm h) = sph_rttStats h.
Proof.
  unfold updateLossDetectionAlarm. destruct (sph_packetHistory h) eqn:E; [done|].
  destruct (negb _); [done|]. by destruct (_ && _).
Qed.

(** ** Sequences of operations

    Beside the handler a ledger records the packets that were given to it, those
    that acknowledgements removed, and those that were handed out for
    retransmission. *)

Inductive sph_op :=
  | OpSent (packet : Packet) (now : Time)
  | OpAck (f : AckFrame) (withPacketNumber : PacketNumber) (rcvTime nowRTT nowAcked nowLost : Time)
  | OpClosePath (f : ClosePathFrame) (withPacketNumber : PacketNumber) (rcvTime nowAcked : Time)
  | OpAlarm (now : Time)
  | OpDequeue
  | OpDuplicate (packet : Packet)
  | OpInflightLost
  | OpStopWaiting (force : bool).

Definition exec h (op : sph_op) : sentPacketHandler C :=
  match op with
  | OpSent packet now => (SentPacket packet now h).2
  | OpAck f wpn rcv t1 t2 t3 => (ReceivedAck f wpn rcv t1 t2 t3 h).2
  | OpClosePath f wpn rcv t => (ReceivedClosePath f wpn rcv t h).2
  | OpAlarm now => OnAlarm now h
  | OpDequeue => (DequeuePacketForRetransmission h).2
  | OpDuplicate packet => DuplicatePacket packet h
  | OpInflightLost => SetInflightAsLost h
  | OpStopWaiting force => (GetStopWaitingFrame force h).2
  end.

Record ledger := mkLedger {
  lg_given : list Packet;
  lg_acked : list Packet;
  lg_handed : list Packet
}.

Definition record_op (l : ledger) h (op : sph_op) : ledger :=
  match op with
  | OpSent packet now => mkLedger (lg_given l ++ newly_sent packet now h) (lg_acked l) (lg_handed l)
  | OpAck f wpn _ _ _ _ =>
      mkLedger (lg_given l) (lg_acked l ++ newly_acked_by f wpn h) (lg_handed l)
  | OpClosePath f wpn _ _ =>
      mkLedger (lg_given l) (lg_acked l ++ newly_acked_by_close f wpn h) (lg_handed l)
  | OpDequeue =>
      mkLedger (lg_given l) (lg_acked l)
        (lg_handed l ++ option_list (DequeuePacketForRetransmission h).1)
  | OpDuplicate packet => mkLedger (lg_given l ++ [packet]) (lg_acked l) (lg_handed l)
  | _ => l
  end.

Definition run_ops (ops : list sph_op) (st : sentPacketHandler C * ledger)
    : sentPacketHandler C * ledger :=
  foldl (fun '(h, l) op => (exec h op, record_op l h op)) st ops.

(** The frames are those a parser returns. *)
Definition op_ok (op : sph_op) : Prop :=
  match op with
  | OpAck f _ _ _ _ _ => ranges_valid (ack_LargestAcked f) (ack_LowestAcked f) (ack_AckRanges f)
  | OpClosePath f _ _ _ => ranges_valid (cp_LargestAcked f) (cp_LowestAcked f) (cp_AckRanges f)
  | _ => True
  end.

Definition op_acks (op : sph_op) (p : PacketNumber) : bool :=
  match op with
  | OpAck f _ _ _ _ _ => AckFrame_AcksPacket f p
  | OpClosePath f _ _ _ => ClosePathFrame_AcksPacket f p
  | _ => false
  end.

Definition balanced h (l : ledger) : Prop :=
  lg_given l ≡ₚ lg_acked l ++ sph_packetHistory h ++ sph_retransmissionQueue h ++ lg_handed l.

Lemma transfers_balanced h h' acked lost given acks handed :
  transfers h h' acked lost -> balanced h (mkLedger given acks handed) ->
  balanced h' (mkLedger given (acks ++ acked) handed).
Proof.
  intros [H1 H2 H3]. unfold balanced. cbn. intros E. rewrite E, H2, H3. solve_Permutation.
Qed.

Lemma exec_balanced h l op :
  op_ok op -> sph_inv h -> balanced h l ->
  sph_inv (exec h op) /\ balanced (exec h op) (record_op l h op).
Proof.
  intros Hop Hi Hb. destruct l as [given acks handed].
  assert (Hlost : forall h' lost, transfers h h' [] lost ->
    sph_inv h' /\ balanced h' (mkLedger given acks handed)).
  { intros h' lost T. split; [apply (tr_inv _ _ _ _ T)|]. rewrite <- (app_nil_r acks).
    by eapply transfers_balanced. }
  destruct op as [packet now|f wpn rcv t1 t2 t3|f wpn rcv t|now| |packet| |force]; cbn [exec record_op].
  - pose proof (SentPacket_result packet now h Hi) as H.
    destruct (SentPacket packet now h) as [o h']. destruct H as (H1 & H2 & H3 & _).
    split; [done|]. unfold balanced in *. cbn in *. rewrite Hb, H2, H3. solve_Permutation.
  - destruct (ReceivedAck_transfers f wpn rcv t1 t2 t3 h Hi Hop) as (lost & T).
    split; [apply (tr_inv _ _ _ _ T)|by eapply transfers_balanced].
  - destruct (ReceivedClosePath_transfers f wpn rcv t h Hi Hop) as (lost & T & _).
    split; [apply (tr_inv _ _ _ _ T)|by eapply transfers_balanced].
  - destruct (OnAlarm_transfers now h Hi) as (lost & T). by eapply Hlost.
  - unfold DequeuePacketForRetransmission. destruct (sph_retransmissionQueue h) as [|p queue] eqn:E.
    + cbn. by rewrite app_nil_r.
    + split; [by destruct Hi; split|]. unfold balanced in *. cbn in *. rewrite Hb, E. solve_Permutation.
  - split; [by destruct Hi; split|]. unfold balanced in *. cbn in *. rewrite Hb. solve_Permutation.
  - eapply Hlost. by apply SetInflightAsLost_transfers.
  - unfold GetStopWaitingFrame. destruct (swm_GetStopWaitingFrame _ _) as [f s].
    split; [by destruct Hi; split|done].
Qed.

Lemma run_ops_balanced ops h l :
  Forall op_ok ops -> sph_inv h -> balanced h l ->
  sph_inv (run_ops ops (h, l)).1 /\ balanced (run_ops ops (h, l)).1 (run_ops ops (h, l)).2.
Proof.
  revert h l. induction ops as [|op ops IH]; intros h l Hok Hi Hb; [done|].
  apply Forall_cons in Hok as [Hop Hok]. destruct (exec_balanced h l op Hop Hi Hb) as [Hi' Hb'].
  unfold run_ops. cbn [foldl]. by apply (IH (exec h op) (record_op l h op)).
Qed.

Lemma record_op_acked h l op p :
  p ∈ lg_acked (record_op l h op) -> p ∈ lg_acked l \/ op_acks op (pkt_PacketNumber p) = true.
Proof.
  destruct op; cbn [record_op lg_acked op_acks]; try (by left).
  - unfold newly_acked_by. rewrite elem_of_app. destruct (ack_counts _ _ _); [|rewrite elem_of_nil; tauto].
    rewrite list_elem_of_filter. tauto.
  - unfold newly_acked_by_close. rewrite elem_of_app. destruct (close_counts _ _ _); [|rewrite elem_of_nil; tauto].
    rewrite list_elem_of_filter. tauto.
Qed.

Lemma run_ops_acked ops h l p :
  p ∈ lg_acked (run_ops ops (h, l)).2 ->
  p ∈ lg_acked l \/ exists op, op ∈ ops /\ op_acks op (pkt_PacketNumber p) = true.
Proof.
  revert h l. induction ops as [|op ops IH]; intros h l; [by left|].
  unfold run_ops. cbn [foldl]. intros [H|(op' & Hin & Ha)]%IH; [|right; exists op'; split; [by right|done]].
  apply record_op_acked in H as [H|H]; [by left|]. right. exists op. split; [by left|done].
Qed.
End Handler.

(** A controller with a constant window and no estimate, for examples. *)
Definition fixed_window : SendAlgorithm Z :=
  mkSendAlgorithm Z
    (fun w _ b => if b <? w then 0 else InfDuration)
    (fun w _ _ _ _ r => (r, w)) (fun w => w) (fun w _ => w)
    (fun w _ _ _ _ _ => w) (fun w _ _ _ _ => w) (fun w _ => w) (fun w _ _ => w) (fun w _ => w)
    (fun w rtt => SmoothedRTT rtt) (fun w rtt => SmoothedRTT rtt) (fun w _ => w).

Definition sample_packet (pn : PacketNumber) : Packet :=
  mkPacket pn [FPing mkPingFrame; FAck sample_ack] 100 EncryptionForwardSecure zeroTime.

Definition sample_ack_of (lowest largest : PacketNumber) : AckFrame :=
  mkAckFrame 0 largest lowest [] zeroTime 0.

Definition sample_handler : sentPacketHandler Z := NewSentPacketHandler NewRTTStats 100000 None.

Definition sample_ops : list sph_op :=
  [OpSent (sample_packet 1) Second; OpSent (sample_packet 2) (2 * Second);
   OpSent (sample_packet 3) (2 * Second + 1); OpSent (sample_packet 4) (2 * Second + 2);
   OpAck (sample_ack_of 4 4) 1 (2020 * Millisecond) (2020 * Millisecond) (2020 * Millisecond)
     (2020 * Millisecond);
   OpDequeue; OpAlarm (2021 * Millisecond); OpDuplicate (sample_packet 9)].

(** C1: no packet is forgotten.  Run any sequence of operations on a new handler,
    with any congestion controller, any packets and times and any frames a
    parser can return.  Then the packets given to the handler (the accepted ones
    with frames to retransmit, and duplicates) are, each exactly once, those
    acknowledged, those still in flight, those waiting in the retransmission
    queue and those handed out for retransmission; a packet counts as
    acknowledged only if a frame received acknowledges its number; and the bytes
    in flight are the lengths of the packets in flight, whose numbers increase
    strictly. *)
Theorem packets_accounted {C} `{SA : !SendAlgorithm C} (cong : C) rttStats onRTO ops :
  Forall op_ok ops ->
  let '(h, l) := run_ops ops (NewSentPacketHandler rttStats cong onRTO, mkLedger [] [] []) in
  lg_given l ≡ₚ lg_acked l ++ sph_packetHistory h ++ sph_retransmissionQueue h ++ lg_handed l /\
  (forall p, p ∈ lg_acked l -> exists op, op ∈ ops /\ op_acks op (pkt_PacketNumber p) = true) /\
  sph_bytesInFlight h = u64 (sum_length (sph_packetHistory h)) /\ increasing (sph_packetHistory h).
Proof.
  intros Hok. set (h0 := NewSentPacketHandler rttStats cong onRTO). set (l0 := mkLedger [] [] []).
  destruct (run_ops_balanced ops h0 l0 Hok) as [Hi Hb]; [apply New_inv|apply perm_nil|].
  pose proof (run_ops_acked ops h0 l0) as Ha. destruct (run_ops ops (h0, l0)) as [h l].
  cbn [fst snd] in *. split_and!; [done| |apply Hi|apply Hi].
  intros p Hp. destruct (Ha p Hp) as [Hn|H]; [by apply not_elem_of_nil in Hn|done].
Qed.

Lemma packets_accounted_witness :
  Forall op_ok sample_ops /\
  let '(h, l) := run_ops (SA := fixed_window) sample_ops (sample_handler, mkLedger [] [] []) in
  map pkt_PacketNumber (lg_given l) = [1; 2; 3; 4; 9] /\ map pkt_PacketNumber (lg_acked l) = [4] /\
  map pkt_PacketNumber (sph_packetHistory h) = [2; 3] /\
  map pkt_PacketNumber (sph_retransmissionQueue h) = [9] /\
  map pkt_PacketNumber (lg_handed l) = [1] /\
  lg_given l ≡ₚ lg_acked l ++ sph_packetHistory h ++ sph_retransmissionQueue h ++ lg_handed l.
Proof.
  assert (Hok : Forall op_ok sample_ops) by (repeat constructor; cbn; lia).
  split; [exact Hok|].
  pose proof (packets_accounted (SA := fixed_window) 100000 NewRTTStats None sample_ops Hok) as H.
  fold sample_handler in H.
  destruct (run_ops (SA := fixed_window) sample_ops (sample_handler, mkLedger [] [] [])) as [h l] eqn:E.
  vm_compute in E. injection E as <- <-. split_and!; [reflexivity..|apply H].
Defined.

(** C34: an acknowledgement does exactly what it says.  From any state of the
    invariant, a frame that is not ignored is accepted; the packets it
    acknowledges leave the history, and of the others exactly those sent more
    than the loss delay ago and not above the largest acknowledged packet move,
    in order, to the end of the retransmission queue. *)
Theorem ReceivedAck_exact {C} `{SA : !SendAlgorithm C} f wpn rcv t1 t2 t3 (h : sentPacketHandler C) :
  sph_inv h -> ranges_valid (ack_LargestAcked f) (ack_LowestAcked f) (ack_AckRanges f) ->
  ack_counts f wpn h = true ->
  exists h', ReceivedAck f wpn rcv t1 t2 t3 h = (Ok tt, h') /\
    let others := filter (fun p => ~ AckFrame_AcksPacket f (pkt_PacketNumber p) = true)
                    (sph_packetHistory h) in
    let late p := overdue (ack_LargestAcked f) t3 (delayUntilLost (sph_rttStats h')) p in
    sph_packetHistory h' = filter (fun p => ~ late p = true) others /\
    sph_retransmissionQueue h' = sph_retransmissionQueue h ++ filter (fun p => late p = true) others.
Proof.
  intros Hi Hv Hc. destruct (ReceivedAck_counted f wpn rcv t1 t2 t3 h Hi Hv Hc) as (h1 & Hs & EL & ->).
  eexists. split; [done|]. pose proof (same_packets_inv _ _ Hs Hi) as Hi1.
  destruct (ack_all_transfers t2 h h1 (fun p => AckFrame_AcksPacket f (pkt_PacketNumber p)) Hi Hs)
    as [Hi2 _ Q2].
  destruct (ack_all_moved t2 h1 (filter (fun p => AckFrame_AcksPacket f (pkt_PacketNumber p) = true)
    (sph_packetHistory h)) (inv_wrapped _ Hi1)) as [M1 _ _ _ M5 _].
  set (h2 := foldl (ack_packet t2) h1 _) in *. clearbody h2.
  assert (E2 : sph_packetHistory h2 = filter (fun p => ~ AckFrame_AcksPacket f (pkt_PacketNumber p) = true)
    (sph_packetHistory h)).
  { rewrite M1. destruct Hs as (-> & _). apply (remove_filter
      (fun p => AckFrame_AcksPacket f (pkt_PacketNumber p) = true)). apply (inv_increasing _ Hi). }
  destruct (detectLostPackets_split h2 t3 Hi2) as (D1 & D2 & D3).
  destruct (ack_epilogue_same f (detectLostPackets h2 t3)) as (P1 & P2 & _).
  assert (ER : sph_rttStats (ack_epilogue f (detectLostPackets h2 t3)) = sph_rttStats h2)
    by (rewrite <- D3; apply alarm_rttStats).
  cbv zeta. rewrite ER, P1, P2, D1, D2, E2, Q2, app_nil_r, M5, EL. done.
Qed.

Definition sample_inflight : sentPacketHandler Z :=
  (run_ops (SA := fixed_window) (take 4 sample_ops) (sample_handler, mkLedger [] [] [])).1.

Lemma sample_inflight_inv : sph_inv sample_inflight.
Proof.
  apply (run_ops_balanced (SA := fixed_window)); [repeat constructor|apply New_inv|apply perm_nil].
Qed.

Lemma ReceivedAck_exact_witness :
  exists h',
    ReceivedAck (SA := fixed_window) (sample_ack_of 4 4) 1 (2020 * Millisecond) (2020 * Millisecond)
      (2020 * Millisecond) (2020 * Millisecond) sample_inflight = (Ok tt, h') /\
    map pkt_PacketNumber (sph_retransmissionQueue h') = [1] /\
    map pkt_PacketNumber (sph_packetHistory h') = [2; 3].
Proof.
  destruct (ReceivedAck_exact (SA := fixed_window) (sample_ack_of 4 4) 1 (2020 * Millisecond)
    (2020 * Millisecond) (2020 * Millisecond) (2020 * Millisecond) sample_inflight) as (h' & E & _).
  - exact sample_inflight_inv.
  - unfold ranges_valid. cbn. lia.
  - vm_compute. reflexivity.
  - exists h'. split; [exact E|]. vm_compute in E. injection E as <-. split; reflexivity.
Defined.

(** ** Timers *)

Definition rto_base (delay : Duration) : Duration :=
  Z.max minRTOTimeout (if delay =? 0 then defaultRTOTimeout else delay).

(** the retransmission timeout.  Whatever the number of timeouts so far, the
    delay the alarm is armed with is between 200 ms and 60 s; and for the first
    24 timeouts, with an estimate below 2^38 ns, it is the estimate (at least
    200 ms, 500 ms without one) doubled with every timeout and capped at 60 s. *)
Theorem RTO_backoff {C} `{SA : !SendAlgorithm C} (h : sentPacketHandler C) :
  let delay := sa_RetransmissionDelay (sph_congestion h) (sph_rttStats h) in
  let timeout := MaxDuration (computeRTOTimeout h) minRetransmissionTime in
  minRetransmissionTime <= timeout <= maxRTOTimeout /\
  (0 <= delay < 2 ^ 38 -> 0 <= sph_rtoCount h <= 24 ->
   timeout = Z.min maxRTOTimeout (rto_base delay * 2 ^ sph_rtoCount h)).
Proof.
  cbv zeta. unfold computeRTOTimeout, rto_base. autorewrite with ints.
  set (delay := sa_RetransmissionDelay _ _). set (n := sph_rtoCount h). clearbody delay n.
  unfold minRetransmissionTime, minRTOTimeout, maxRTOTimeout, defaultRTOTimeout, Millisecond, Second.
  split; [lia|]. intros Hd Hn.
  set (base := Z.max (if delay =? 0 then 500 * 1000000 else delay) (200 * 1000000)).
  assert (Hb : 200000000 <= base < 2 ^ 38) by (subst base; destruct (delay =? 0); lia).
  rewrite (Z.max_comm (200 * _)). fold base. rewrite Z.shiftl_mul_pow2 by lia.
  assert (1 <= 2 ^ n <= 2 ^ 24)
    by (split; [apply (Z.pow_le_mono_r 2 0 n)|apply Z.pow_le_mono_r]; lia).
  rewrite i64_small by nia. nia.
Qed.

Lemma RTO_backoff_witness :
  let h := sample_inflight <| sph_rtoCount := 5 |> in
  MaxDuration (computeRTOTimeout (SA := fixed_window) h) minRetransmissionTime = 16 * Second
  /\ rto_base 0 * 2 ^ 5 = 16 * Second.
Proof.
  split; [|reflexivity].
  destruct (RTO_backoff (SA := fixed_window) (sample_inflight <| sph_rtoCount := 5 |>)) as [_ H].
  rewrite H; [reflexivity|vm_compute; split; congruence|vm_compute; split; congruence].
Defined.

(** The doubling is lost when the shift leaves the 64 bits: after enough timeouts
    the alarm is armed with the minimum again. *)
Lemma RTO_backoff_collapses {C} `{SA : !SendAlgorithm C} (h : sentPacketHandler C) :
  64 <= sph_rtoCount h -> MaxDuration (computeRTOTimeout h) minRetransmissionTime = minRetransmissionTime.
Proof.
  intros Hn. unfold computeRTOTimeout. autorewrite with ints. rewrite Z.shiftl_mul_pow2 by lia.
  replace (sph_rtoCount h) with (sph_rtoCount h - 64 + 64) by lia.
  rewrite Z.pow_add_r by lia. set (b := Z.max _ _ * _).
  assert (E : i64 b = 0); [|rewrite E; reflexivity]. subst b. unfold i64. rewrite Z.mul_assoc.
  change (2 ^ 64) with 18446744073709551616. rewrite Z.add_comm, Z.mod_add by lia. reflexivity.
Qed.

(** The loss delay is 9/8 of the larger of the latest and the smoothed round
    trip time, without rounding, below 2^49 ns (six days). *)
Lemma delayUntilLost_exact rttStats :
  0 <= Z.max (LatestRTT rttStats) (SmoothedRTT rttStats) < 2 ^ 49 ->
  delayUntilLost rttStats = 9 * Z.max (LatestRTT rttStats) (SmoothedRTT rttStats) / 8.
Proof.
  intros H. unfold delayUntilLost. autorewrite with ints. rewrite f64_of_Z_exact by lia.
  change onePlusReordering with (fl 53 9 (-3)).
  rewrite f64_mul_exact, float_to_i64_exact by lia. done.
Qed.

(** What a timeout without a loss time moves to the retransmission queue. *)
Definition timeout_packets {C} (h : sentPacketHandler C) : list Packet :=
  if sph_tlpCount h <? maxTailLossProbes then option_list (last (sph_packetHistory h))
  else if match sph_onRTOCallback h with Some cb => cb (sph_lastSentTime h) | None => false end
  then sph_packetHistory h else take 2 (sph_packetHistory h).

(** C39: an alarm makes progress.  If a packet that needs retransmission is in
    flight ([hasOutstandingRetransmittablePacket], for which a CLOSE_PATH frame
    does not count) and the alarm is not for a reordering delay, the alarm queues
    packets for retransmission, at least one: first the newest packet, as a tail loss
    probe, and after two probes the two oldest packets, or all when the path is
    believed to have failed. *)
Theorem OnAlarm_progress {C} `{SA : !SendAlgorithm C} now (h : sentPacketHandler C) :
  sph_inv h -> hasOutstandingRetransmittablePacket h = true -> sph_lossTime h = zeroTime ->
  let h' := OnAlarm now h in
  sph_retransmissionQueue h' = sph_retransmissionQueue h ++ timeout_packets h /\
  timeout_packets h <> [] /\ sph_packetHistory h ≡ₚ timeout_packets h ++ sph_packetHistory h'.
Proof.
  intros Hi Hout Hloss. cbv zeta.
  assert (Hne : sph_packetHistory h <> []) by (intros E; unfold hasOutstandingRetransmittablePacket in Hout;
    by rewrite E in Hout).
  assert (Hlast : exists p, last (sph_packetHistory h) = Some p)
    by (destruct (last (sph_packetHistory h)) eqn:E; [eauto|by apply last_None in E]).
  unfold OnAlarm, timeout_packets. rewrite Hout, Hloss. cbn [negb]. change (Time_IsZero zeroTime) with true.
  cbn [negb]. destruct (sph_tlpCount h <? maxTailLossProbes).
  - set (h1 := assign sph_tlpCount _ _). destruct (alarm_same h1) as (-> & -> & _).
    destruct (retransmitTLP_transfers h Hi) as [_ T2 T3]. split_and!; [done| |done].
    by destruct Hlast as [p ->].
  - set (h1 := assign sph_rtoCount _ _). destruct (alarm_same h1) as (-> & -> & _).
    destruct (match sph_onRTOCallback h with Some cb => cb (sph_lastSentTime h) | None => false end).
    + destruct (queue_all_transfers _ h Hi eq_refl) as [_ T2 T3]. by split_and!.
    + pose proof (retransmitOldest_transfers h Hi) as T1.
      pose proof (retransmitOldest_transfers _ (tr_inv _ _ _ _ T1)) as T2.
      destruct (transfers_trans _ _ _ _ _ _ _ T1 T2) as [_ P Q].
      assert (E : take 1 (sph_packetHistory h) ++ take 1 (sph_packetHistory (retransmitOldestPacket h))
        = take 2 (sph_packetHistory h)).
      { unfold retransmitOldestPacket. destruct (sph_packetHistory h) as [|p rest] eqn:E; [done|].
        change (sph_packetHistory (queueRTO h p)) with (PacketList_Remove (sph_packetHistory h) p).
        rewrite E. cbn [PacketList_Remove]. rewrite Z.eqb_refl. done. }
      rewrite E in P, Q. split_and!; [done| |done]. by destruct (sph_packetHistory h).
Qed.

Lemma OnAlarm_progress_witness :
  map pkt_PacketNumber (sph_retransmissionQueue (OnAlarm (SA := fixed_window) (9 * Second) sample_inflight))
    = [4] /\ sph_retransmissionQueue (OnAlarm (SA := fixed_window) (9 * Second) sample_inflight)
             = sph_retransmissionQueue sample_inflight ++ timeout_packets sample_inflight.
Proof.
  split; [reflexivity|].
  apply (OnAlarm_progress (SA := fixed_window)); [exact sample_inflight_inv|reflexivity|reflexivity].
Defined.

(** ** Sending *)

(** when sending is allowed, the next packet is accepted: a packet with a
    number above the last one sent is not refused, so what the packer was allowed
    to build is never dropped here. *)
Theorem SendingAllowed_accepts {C} `{SA : !SendAlgorithm C} packet now (h : sentPacketHandler C) :
  sph_inv h -> SendingAllowed h = true -> sph_lastSentPacketNumber h < pkt_PacketNumber packet ->
  exists h', SentPacket packet now h = (Ok tt, h') /\
    sph_lastSentPacketNumber h' = pkt_PacketNumber packet /\
    sph_packetHistory h' = sph_packetHistory h ++ newly_sent packet now h.
Proof.
  intros Hi Ha Hlt. pose proof (SentPacket_result packet now h Hi) as H.
  assert (Hc : sent_counts packet h = true).
  { unfold SendingAllowed in Ha. apply andb_true_iff in Ha as [Ha _].
    apply negb_true_iff, Z.leb_gt in Ha. unfold sent_counts.
    apply andb_true_iff. rewrite Z.ltb_lt, Z.leb_le. lia. }
  assert (HL : (SentPacket packet now h).1 = Ok tt ->
    sph_lastSentPacketNumber (SentPacket packet now h).2 = pkt_PacketNumber packet).
  { unfold SentPacket. destruct (_ <=? _); [done|]. destruct (_ <? _); [done|]. intros _.
    destruct (sa_OnPacketSent _ _ _ _ _ _) as [b c]. set (h1 := assign sph_congestion _ _).
    destruct (alarm_same h1) as (_ & _ & _ & E). cbn [snd]. rewrite E.
    subst h1. by destruct (negb _). }
  destruct (SentPacket packet now h) as [o h']. destruct H as (_ & H2 & _ & H4).
  cbn [fst snd] in HL. apply H4 in Hc. subst o. exists h'. split_and!; [done|by apply HL|done].
Qed.

Lemma SendingAllowed_accepts_witness :
  exists h', SentPacket (SA := fixed_window) (sample_packet 7) (3 * Second) sample_inflight = (Ok tt, h') /\
    sph_lastSentPacketNumber h' = 7.
Proof.
  destruct (SendingAllowed_accepts (SA := fixed_window) (sample_packet 7) (3 * Second) sample_inflight)
    as (h' & E & E' & _); [exact sample_inflight_inv|reflexivity|reflexivity|].
  exists h'. split; [exact E|exact E'].
Defined.

(** ** Behaviours worth knowing *)

(** The handler tracks a packet that carries only a CLOSE_PATH frame, but an
    alarm does not count it as outstanding: the alarm is cancelled and the packet
    is not queued for retransmission. *)
Lemma OnAlarm_drops_close_path {C} `{SA : !SendAlgorithm C} now (h : sentPacketHandler C) f pn len lvl t :
  sph_packetHistory h = [mkPacket pn [FClosePath f] len lvl t] ->
  IsFrameRetransmittable (FClosePath f) = true /\ OnAlarm now h = h <| sph_alarm := zeroTime |>.
Proof. intros E. unfold OnAlarm, hasOutstandingRetransmittablePacket. by rewrite E. Qed.

(** [LargestAcked] is the largest packet of the last frame, not of all frames: an
    acknowledgement that arrives later with a smaller largest packet is not
    ignored, and lowers it. *)
Lemma LargestAcked_decreases :
  let ack l n := OpAck (sample_ack_of l l) n (2020 * Millisecond) (2020 * Millisecond)
                   (2020 * Millisecond) (2001 * Millisecond) in
  let st := run_ops (SA := fixed_window) [ack 4 1] (sample_inflight, mkLedger [] [] []) in
  let st' := run_ops (SA := fixed_window) [ack 3 2] st in
  sph_LargestAcked st.1 = 4 /\ sph_LargestAcked st'.1 = 3.
Proof. vm_compute. split; reflexivity. Qed.

(** [SetInflightAsLost] leaves the packets above [LargestAcked] in flight. *)
Lemma SetInflightAsLost_keeps_newer :
  map pkt_PacketNumber (sph_packetHistory (SetInflightAsLost (SA := fixed_window) sample_inflight))
    = [1; 2; 3; 4].
Proof. vm_compute. reflexivity. Qed.

(** The least unacked packet of a STOP_WAITING frame may be above packets still
    in flight: the manager follows the largest acknowledged packet only. *)
Lemma stop_waiting_above_inflight :
  let ack := OpAck (sample_ack_of 4 4) 1 (2020 * Millisecond) (2020 * Millisecond)
               (2020 * Millisecond) (2001 * Millisecond) in
  let h := (run_ops (SA := fixed_window) [ack] (sample_inflight, mkLedger [] [] [])).1 in
  fst (GetStopWaitingFrame true h) = Some (mkStopWaitingFrame 5 0 0) /\ GetLeastUnacked h = 2.
Proof. vm_compute. split; reflexivity. Qed.
