(* ===== verification/DefaultHandler.v ===== *)
(** * The sent packet handler with its default controller

    [NewSentPacketHandler] creates a Cubic controller when it is given none.  The
    handler calls its controller only through the interface, so every run of the
    handler is a run of the controller, and the bounds on the window of the
    controller become bounds on what the handler lets through. *)

From S2P Require Import Prelude Protocol Frame WireAck MinMax RttStats SendAlgorithm AckSent Cubic CubicSender.

(** The controller of a handler that is given none. *)
Definition default_handler (rttStats : RTTStats) (onRTO : option (Time -> bool)) :
    sentPacketHandler cubicSender :=
  NewSentPacketHandler rttStats
    (NewCubicSender false InitialCongestionWindow DefaultMaxCongestionWindow) onRTO.

(** ** A run of the handler is a run of its controller *)

Section Steps.
Context {C : Type} `{SA : !SendAlgorithm C}.
Implicit Types (h : sentPacketHandler C) (c : C).

(** The handler never changes the number of emulated connections. *)
Definition handler_event (e : sa_event) : Prop :=
  match e with EvSetNumEmulatedConnections _ => False | _ => True end.

Definition sa_steps (n : Z) c c' : Prop :=
  exists es, Forall handler_event es /\ zlen es <= n /\ c' = sa_run c es.

(** At most [n] calls to the controller, and no packet enters the history. *)
Definition hsteps (n : Z) h h' : Prop :=
  sa_steps n (sph_congestion h) (sph_congestion h') /\
  zlen (sph_packetHistory h') <= zlen (sph_packetHistory h).

Lemma sa_steps_refl c : sa_steps 0 c c.
Proof. exists []. split; [constructor|done]. Qed.

Lemma sa_steps_one c e : handler_event e -> sa_steps 1 c (sa_apply c e).
Proof. intros He. exists [e]. split; [by constructor|done]. Qed.

Lemma sa_steps_trans n k c1 c2 c3 : sa_steps n c1 c2 -> sa_steps k c2 c3 -> sa_steps (n + k) c1 c3.
Proof.
  intros (es & H1 & H2 & ->) (es' & H1' & H2' & ->). exists (es ++ es').
  split; [by apply Forall_app|]. rewrite zlen_app. split; [lia|]. unfold sa_run. by rewrite foldl_app.
Qed.

Lemma sa_steps_weaken n k c c' : n <= k -> sa_steps n c c' -> sa_steps k c c'.
Proof. intros Hk (es & H1 & H2 & H3). exists es. split_and!; [done|lia|done]. Qed.

Lemma hsteps_same h h' :
  sph_congestion h' = sph_congestion h -> zlen (sph_packetHistory h') <= zlen (sph_packetHistory h) ->
  hsteps 0 h h'.
Proof. intros E H. split; [rewrite E; apply sa_steps_refl|done]. Qed.

Lemma hsteps_trans n k h1 h2 h3 : hsteps n h1 h2 -> hsteps k h2 h3 -> hsteps (n + k) h1 h3.
Proof. intros [H1 H2] [H3 H4]. split; [by eapply sa_steps_trans|lia]. Qed.

Lemma hsteps_weaken n k h h' : n <= k -> hsteps n h h' -> hsteps k h h'.
Proof. intros Hk [H1 H2]. split; [by eapply sa_steps_weaken|done]. Qed.

Lemma hsteps_foldl {A} (f : sentPacketHandler C -> A -> sentPacketHandler C) h l :
  (forall h x, hsteps 1 h (f h x)) -> hsteps (zlen l) h (foldl f h l).
Proof.
  intros Hf. revert h. induction l as [|x l IH]; intros h; [by apply hsteps_same|].
  cbn [foldl]. rewrite zlen_cons. eapply hsteps_trans; [apply Hf|apply IH].
Qed.

Lemma Remove_length l p : zlen (PacketList_Remove l p) <= zlen l.
Proof.
  induction l as [|q l IH]; [done|]. cbn [PacketList_Remove].
  destruct (_ =? _); rewrite !zlen_cons; lia.
Qed.

Lemma ack_packet_hsteps now h p : hsteps 1 h (ack_packet now h p).
Proof.
  split; [|apply Remove_length].
  apply (sa_steps_one (sph_congestion h)
    (EvPacketAcked (sph_rttStats h) now (pkt_PacketNumber p) (pkt_Length p)
       (u64 (sph_bytesInFlight h - pkt_Length p)))). done.
Qed.

Lemma lose_packet_hsteps h p : hsteps 1 h (lose_packet h p).
Proof.
  split; [|apply Remove_length].
  apply (sa_steps_one (sph_congestion h)
    (EvPacketLost (sph_rttStats h) (pkt_PacketNumber p) (pkt_Length p)
       (u64 (sph_bytesInFlight h - pkt_Length p)))). done.
Qed.

Lemma queueRTO_hsteps h p : hsteps 1 h (queueRTO h p).
Proof.
  split; [|apply Remove_length].
  apply (sa_steps_one (sph_congestion h)
    (EvPacketLost (sph_rttStats h) (pkt_PacketNumber p) (pkt_Length p)
       (u64 (sph_bytesInFlight h - pkt_Length p)))). done.
Qed.

Lemma alarm_hsteps h : hsteps 0 h (updateLossDetectionAlarm h).
Proof.
  unfold updateLossDetectionAlarm. destruct (sph_packetHistory h) eqn:E; [by apply hsteps_same|].
  destruct (negb _); [by apply hsteps_same|]. destruct (_ && _); by apply hsteps_same.
Qed.

Lemma detect_loop_length largestAcked now delay history lossTime :
  zlen (detect_loop largestAcked now delay history lossTime).1 <= zlen history.
Proof.
  revert lossTime. induction history as [|p history IH]; intros lossTime; [done|]. cbn [detect_loop].
  rewrite zlen_cons. pose proof (zlen_nonneg history). destruct (_ <? _); [cbn [fst]; rewrite zlen_nil; lia|].
  destruct (delay <? _).
  - specialize (IH lossTime). destruct (detect_loop _ _ _ _ _) as [lost t]. cbn [fst] in *.
    rewrite zlen_cons. lia.
  - etransitivity; [apply IH|]. lia.
Qed.

Lemma inflight_upto_length largestAcked history : zlen (inflight_upto largestAcked history) <= zlen history.
Proof.
  induction history as [|p history IH]; [done|]. cbn [inflight_upto].
  pose proof (zlen_nonneg history). destruct (_ <? _); rewrite ?zlen_nil, !zlen_cons; lia.
Qed.

Lemma newly_acked_length lowest largest bug cursor history ps :
  newly_acked lowest largest bug cursor history = Ok ps -> zlen ps <= zlen history.
Proof.
  revert cursor ps. induction history as [|p history IH]; intros cursor ps; cbn [newly_acked];
    [by intros [= <-]|].
  assert (Hpush : forall cur, (match newly_acked lowest largest bug cur history with
     | Ok l => Ok (p :: l) | _ => newly_acked lowest largest bug cur history end) = Ok ps -> zlen ps <= zlen (p :: history)).
  { intros cur. destruct (newly_acked lowest largest bug cur history) eqn:E; try done.
    intros [= <-]. apply IH in E. rewrite !zlen_cons. lia. }
  rewrite zlen_cons in *. pose proof (zlen_nonneg history).
  destruct (_ <? lowest); [intros H'%IH; lia|]. destruct (largest <? _); [intros [= <-]; rewrite zlen_nil; lia|].
  destruct cursor as [[r higher]|]; [|apply Hpush].
  destruct (advance_range _ r higher) as [r' higher'].
  destruct (First r' <=? _); [|intros H'%IH; lia]. destruct (Last r' <? _); [done|apply Hpush].
Qed.

Lemma detectLostPackets_hsteps h now : hsteps (zlen (sph_packetHistory h)) h (detectLostPackets h now).
Proof.
  unfold detectLostPackets.
  pose proof (detect_loop_length (sph_LargestAcked h) now (delayUntilLost (sph_rttStats h))
    (sph_packetHistory h) zeroTime) as Hl.
  destruct (detect_loop _ _ _ _ _) as [lost t]. cbn [fst] in Hl.
  apply (hsteps_weaken (0 + zlen lost)); [lia|].
  eapply hsteps_trans; [|apply hsteps_foldl; intros; apply lose_packet_hsteps]. by apply hsteps_same.
Qed.

Lemma SetInflightAsLost_hsteps h : hsteps (zlen (sph_packetHistory h)) h (SetInflightAsLost h).
Proof.
  unfold SetInflightAsLost. pose proof (inflight_upto_length (sph_LargestAcked h) (sph_packetHistory h)).
  apply (hsteps_weaken (0 + zlen (inflight_upto (sph_LargestAcked h) (sph_packetHistory h)))); [lia|].
  eapply hsteps_trans; [|apply hsteps_foldl; intros; apply lose_packet_hsteps]. by apply hsteps_same.
Qed.

Lemma queue_all_hsteps n h : hsteps (Z.of_nat n) h (queue_all n h).
Proof.
  revert h. induction n as [|n IH]; intros h; [by apply hsteps_same|]. cbn [queue_all].
  destruct (sph_packetHistory h) as [|p l].
  - apply (hsteps_weaken 0); [lia|]. by apply hsteps_same.
  - rewrite Nat2Z.inj_succ, <- Z.add_1_l. eapply hsteps_trans; [apply queueRTO_hsteps|apply IH].
Qed.

Lemma on_timeout_hsteps h : hsteps 1 h (on_timeout h).
Proof.
  split; [|done].
  by apply (sa_steps_one (sph_congestion h) (EvRetransmissionTimeout (sph_rttStats h) true)).
Qed.

Lemma retransmitOldestPacket_hsteps h : hsteps 1 h (retransmitOldestPacket h).
Proof.
  unfold retransmitOldestPacket. destruct (sph_packetHistory h); [|apply queueRTO_hsteps].
  apply (hsteps_weaken 0); [lia|]. by apply hsteps_same.
Qed.

Lemma OnAlarm_hsteps now h : hsteps (zlen (sph_packetHistory h) + 3) h (OnAlarm now h).
Proof.
  unfold OnAlarm. pose proof (zlen_nonneg (sph_packetHistory h)) as H0.
  destruct (negb _); [apply (hsteps_weaken 0); [lia|by apply hsteps_same]|].
  set (h1 := if negb (Time_IsZero _) then _ else _).
  assert (H1 : hsteps (zlen (sph_packetHistory h) + 3) h h1).
  { unfold h1. destruct (negb _).
    { eapply hsteps_weaken; [|apply detectLostPackets_hsteps]. lia. }
    destruct (sph_tlpCount h <? maxTailLossProbes).
    { apply (hsteps_weaken 0); [lia|]. unfold retransmitTLP.
      destruct (last (sph_packetHistory h)); apply hsteps_same; try done. apply Remove_length. }
    destruct (match sph_onRTOCallback h with Some cb => _ | None => _ end).
    - apply (hsteps_weaken (zlen (sph_packetHistory h) + 1 + 0)); [lia|].
      eapply hsteps_trans; [eapply hsteps_trans; [apply queue_all_hsteps|apply on_timeout_hsteps]|].
      by apply hsteps_same.
    - apply (hsteps_weaken (1 + 1 + 1 + 0)); [lia|].
      eapply hsteps_trans; [eapply hsteps_trans; [eapply hsteps_trans|]|].
      + apply retransmitOldestPacket_hsteps.
      + apply retransmitOldestPacket_hsteps.
      + apply on_timeout_hsteps.
      + by apply hsteps_same. }
  rewrite <- (Z.add_0_r (_ + 3)). eapply hsteps_trans; [exact H1|apply alarm_hsteps].
Qed.

(** An acknowledgement: slow start may end, packets are acknowledged, then lost. *)
Lemma ReceivedAck_hsteps f wpn rcv t1 t2 t3 h :
  hsteps (2 * zlen (sph_packetHistory h) + 3) h (ReceivedAck f wpn rcv t1 t2 t3 h).2.
Proof.
  pose proof (zlen_nonneg (sph_packetHistory h)) as H0.
  assert (Hsame : forall h', sph_congestion h' = sph_congestion h -> sph_packetHistory h' = sph_packetHistory h ->
    hsteps (2 * zlen (sph_packetHistory h) + 3) h h').
  { intros h' E1 E2. apply (hsteps_weaken 0); [lia|]. apply hsteps_same; [done|]. by rewrite E2. }
  unfold ReceivedAck. destruct (_ <? _); [by apply Hsame|]. destruct (_ <=? _); [by apply Hsame|].
  cbv zeta. destruct (_ <=? _); [by apply Hsame|]. destruct (skippedPacketsAcked _ _); [by apply Hsame|].
  destruct (maybeUpdateRTT _ _ _ _ _) as [upd h1] eqn:E1.
  assert (Hh1 : sph_congestion h1 = sph_congestion h /\ sph_packetHistory h1 = sph_packetHistory h).
  { unfold maybeUpdateRTT in E1. by destruct (find_largest _ _); injection E1 as <- <-. }
  set (h2 := if upd then _ else h1).
  assert (H2 : hsteps 1 h h2 /\ sph_packetHistory h2 = sph_packetHistory h).
  { destruct Hh1 as [Ec Eh]. unfold h2. destruct upd; (split; [|done]).
    - split; [|change (zlen (sph_packetHistory h1) <= zlen (sph_packetHistory h)); by rewrite Eh]. rewrite <- Ec.
      by apply (sa_steps_one (sph_congestion h1) (EvMaybeExitSlowStart (sph_rttStats h1))).
    - apply (hsteps_weaken 0); [lia|]. apply hsteps_same; [done|by rewrite Eh]. }
  clearbody h2. destruct H2 as [H2 Eh2]. assert (Hweak : hsteps (2 * zlen (sph_packetHistory h) + 3) h h2)
    by (eapply hsteps_weaken; [|exact H2]; lia).
  destruct (determineNewlyAckedPackets h2 f) as [ps|e|p] eqn:Ed; [|exact Hweak..]. cbn [snd].
  apply newly_acked_length in Ed. rewrite Eh2 in Ed.
  pose proof (hsteps_foldl (ack_packet t2) h2 ps (fun h p => ack_packet_hsteps t2 h p)) as H3.
  set (h3 := foldl (ack_packet t2) h2 ps) in *. clearbody h3.
  pose proof (detectLostPackets_hsteps h3 t3) as H4. set (h4 := detectLostPackets h3 t3) in *. clearbody h4.
  pose proof (alarm_hsteps h4) as H5.
  pose proof (hsteps_trans _ _ _ _ _ H2 (hsteps_trans _ _ _ _ _ H3 (hsteps_trans _ _ _ _ _ H4 H5))) as H6.
  destruct H3 as [_ H3l]. rewrite Eh2 in H3l.
  eapply hsteps_weaken; [|eapply hsteps_trans; [exact H6|by apply hsteps_same]]. lia.
Qed.

Lemma ReceivedClosePath_hsteps f wpn rcv t h :
  hsteps (2 * zlen (sph_packetHistory h) + 3) h (ReceivedClosePath f wpn rcv t h).2.
Proof.
  pose proof (zlen_nonneg (sph_packetHistory h)) as H0.
  assert (Hsame : forall h', sph_congestion h' = sph_congestion h -> sph_packetHistory h' = sph_packetHistory h ->
    hsteps (2 * zlen (sph_packetHistory h) + 3) h h').
  { intros h' E1 E2. apply (hsteps_weaken 0); [lia|]. apply hsteps_same; [done|]. by rewrite E2. }
  unfold ReceivedClosePath. destruct (_ <? _); [by apply Hsame|]. destruct (_ <=? _); [by apply Hsame|].
  cbv zeta. destruct (skippedPacketsAckedClosePath _ _); [by apply Hsame|].
  set (h2 := assign sph_largestReceivedPacketWithAck _ _).
  destruct (determineNewlyAckedPacketsClosePath h2 f) as [ps|e|p] eqn:Ed; [|by apply Hsame..]. cbn [snd].
  apply newly_acked_length in Ed. change (sph_packetHistory h2) with (sph_packetHistory h) in Ed.
  assert (H2 : hsteps 0 h h2) by (by apply hsteps_same).
  pose proof (hsteps_foldl (ack_packet t) h2 ps (fun h p => ack_packet_hsteps t h p)) as H3.
  set (h3 := foldl (ack_packet t) h2 ps) in *. clearbody h3.
  pose proof (SetInflightAsLost_hsteps h3) as H4. set (h4 := SetInflightAsLost h3) in *. clearbody h4.
  pose proof (hsteps_trans _ _ _ _ _ H2 (hsteps_trans _ _ _ _ _ H3 H4)) as H6.
  destruct H3 as [_ H3l]. change (sph_packetHistory h2) with (sph_packetHistory h) in H3l.
  eapply hsteps_weaken; [|eapply hsteps_trans; [exact H6|by apply hsteps_same]]. lia.
Qed.

Definition steps_per_op : Z := 2 * MaxTrackedSentPackets + 3.

(** One operation makes a bounded number of calls, and the history stays bounded. *)
Lemma exec_steps h op :
  zlen (sph_packetHistory h) <= MaxTrackedSentPackets ->
  sa_steps steps_per_op (sph_congestion h) (sph_congestion (exec h op)) /\
  zlen (sph_packetHistory (exec h op)) <= MaxTrackedSentPackets.
Proof.
  intros Hh. pose proof (zlen_nonneg (sph_packetHistory h)) as H0.
  assert (Hsteps : forall n h', hsteps n h h' -> n <= 2 * zlen (sph_packetHistory h) + 3 ->
    sa_steps steps_per_op (sph_congestion h) (sph_congestion h') /\
    zlen (sph_packetHistory h') <= MaxTrackedSentPackets).
  { intros n h' [H1 H2] Hn. split; [|lia]. eapply sa_steps_weaken; [|exact H1]. unfold steps_per_op. lia. }
  destruct op as [packet now|f wpn rcv t1 t2 t3|f wpn rcv t|now| |packet| |force]; cbn [exec].
  - unfold SentPacket. destruct (_ <=? _); [by eapply Hsteps; [by apply hsteps_same|lia]|].
    destruct (Z.ltb_spec MaxTrackedSentPackets (zlen (sph_retransmissionQueue h) + zlen (sph_packetHistory h) + 1));
      [by eapply Hsteps; [by apply hsteps_same|lia]|].
    cbv zeta. set (h1 := if negb _ then _ else _).
    assert (H1 : sph_congestion h1 = sph_congestion h /\
                 zlen (sph_packetHistory h1) <= MaxTrackedSentPackets).
    { pose proof (zlen_nonneg (sph_retransmissionQueue h)). unfold h1. destruct (negb _); (split; [done|]).
      - etransitivity; [apply Z.eq_le_incl; exact (zlen_app (sph_packetHistory h) [_])|].
        rewrite zlen_cons, zlen_nil. lia.
      - done. }
    clearbody h1. destruct H1 as [Ec Hl]. destruct (sa_OnPacketSent _ _ _ _ _ _) as [b c] eqn:Es. cbn [snd].
    set (h2 := assign sph_congestion c h1). destruct (alarm_hsteps h2) as [Ha Hal].
    split; [|change (sph_packetHistory h2) with (sph_packetHistory h1) in Hal; lia].
    apply (sa_steps_weaken (1 + 0)); [unfold steps_per_op, MaxTrackedSentPackets, DefaultMaxCongestionWindow; lia|].
    eapply sa_steps_trans; [|exact Ha]. cbn [sph_congestion h2]. rewrite Ec in Es.
    match type of Es with sa_OnPacketSent _ ?t ?f ?n ?l ?r = _ =>
      pose proof (sa_steps_one (sph_congestion h) (EvPacketSent t f n l r) I) as Hone end.
    cbn [sa_apply] in Hone. rewrite Es in Hone. exact Hone.
  - eapply Hsteps; [apply ReceivedAck_hsteps|lia].
  - eapply Hsteps; [apply ReceivedClosePath_hsteps|lia].
  - eapply Hsteps; [apply OnAlarm_hsteps|lia].
  - unfold DequeuePacketForRetransmission.
    destruct (sph_retransmissionQueue h); by eapply Hsteps; [by apply hsteps_same|lia].
  - by eapply Hsteps; [by apply hsteps_same|lia].
  - eapply Hsteps; [apply SetInflightAsLost_hsteps|lia].
  - unfold GetStopWaitingFrame. destruct (swm_GetStopWaitingFrame _ _).
    by eapply Hsteps; [by apply hsteps_same|lia].
Qed.

Lemma run_ops_steps ops h l :
  zlen (sph_packetHistory h) <= MaxTrackedSentPackets ->
  sa_steps (zlen ops * steps_per_op) (sph_congestion h) (sph_congestion (run_ops ops (h, l)).1).
Proof.
  revert h l. induction ops as [|op ops IH]; intros h l Hh; [apply sa_steps_refl|].
  destruct (exec_steps h op Hh) as [H1 H2]. specialize (IH (exec h op) (record_op l h op) H2).
  rewrite zlen_cons, Z.mul_add_distr_r, Z.mul_1_l. by eapply sa_steps_trans.
Qed.
End Steps.

(** ** What the window means for the handler *)

Lemma handler_event_ok es : Forall handler_event es -> Forall call_ok es.
Proof. intros H. eapply Forall_impl; [exact H|]. by intros []. Qed.

(** C35: in every run of a handler with the default controller the window is
    between two packets and the configured maximum.  So new data is allowed only
    with at most the maximum in flight, and sending does not block for good: with
    at most two packets' worth of bytes in flight and room in the tracked packets
    it is allowed. *)
Theorem default_handler_window rttStats onRTO ops :
  zlen ops < 2 ^ 48 ->
  let h := (run_ops ops (default_handler rttStats onRTO, mkLedger [] [] [])).1 in
  2 * DefaultTCPMSS <= sa_GetCongestionWindow (sph_congestion h)
                    <= DefaultMaxCongestionWindow * DefaultTCPMSS /\
  (SendingAllowed h = true -> sph_retransmissionQueue h = [] ->
   sph_bytesInFlight h <= DefaultMaxCongestionWindow * DefaultTCPMSS) /\
  (sph_bytesInFlight h <= 2 * DefaultTCPMSS ->
   zlen (sph_retransmissionQueue h) + zlen (sph_packetHistory h) < MaxTrackedSentPackets ->
   SendingAllowed h = true).
Proof.
  intros Hlen h.
  assert (Hw : 2 * DefaultTCPMSS <= sa_GetCongestionWindow (sph_congestion h)
                                 <= DefaultMaxCongestionWindow * DefaultTCPMSS).
  { destruct (run_ops_steps ops (default_handler rttStats onRTO) (mkLedger [] [] []))
      as (es & H1 & H2 & H3); [done|].
    fold h in H3. rewrite H3. eapply sender_inv_bytes, cubic_run_inv.
    - unfold InitialCongestionWindow, DefaultMaxCongestionWindow. lia.
    - unfold DefaultMaxCongestionWindow. lia.
    - by apply handler_event_ok.
    - unfold steps_per_op, MaxTrackedSentPackets, DefaultMaxCongestionWindow in H2. lia. }
  split; [exact Hw|]. unfold SendingAllowed. cbv zeta. clearbody h. split.
  - intros [_ H]%andb_prop E. rewrite E in H. cbn [zlen length Z.of_nat Z.ltb Z.compare] in H.
    apply orb_prop in H as [H|H]; [|done]. apply negb_true_iff, Z.ltb_ge in H. lia.
  - intros Hb Ht. destruct (Z.leb_spec MaxTrackedSentPackets
      (zlen (sph_retransmissionQueue h) + zlen (sph_packetHistory h))); [lia|].
    destruct (Z.ltb_spec (sa_GetCongestionWindow (sph_congestion h)) (sph_bytesInFlight h)); [lia|done].
Qed.

(** The hypotheses of [default_handler_window] at a run with a lost packet. *)
Lemma default_handler_window_witness :
  let h := (run_ops sample_ops (default_handler NewRTTStats None, mkLedger [] [] [])).1 in
  2 * DefaultTCPMSS <= sa_GetCongestionWindow (sph_congestion h)
                    <= DefaultMaxCongestionWindow * DefaultTCPMSS.
Proof. apply (default_handler_window NewRTTStats None sample_ops). reflexivity. Defined.
