(* ===== verification/Handshake.v ===== *)
(** * internal/handshake: messages and public reset

    handshake_message.go and the tags of tags.go the modelled code uses, and
    internal/wire/public_reset.go, which uses the message format.  The map of a
    message is a [gmap] from tags to values. *)

From stdpp Require Import sorting.
From S2P Require Import Prelude Protocol ByteOrder WireFrames WireHeader MinMax Float.

Abbreviation Tag := Z (only parsing).

(** ** tags.go: a tag is its four characters, the first one lowest *)

Definition tag4 (a b c d : Z) : Tag := a + Z.shiftl b 8 + Z.shiftl c 16 + Z.shiftl d 24.

Definition TagMSPC : Tag := tag4 77 83 80 67.
Definition TagMIDS : Tag := tag4 77 73 68 83.
Definition TagTCID : Tag := tag4 84 67 73 68.
Definition TagICSL : Tag := tag4 73 67 83 76.
Definition TagCFCW : Tag := tag4 67 70 67 87.
Definition TagSFCW : Tag := tag4 83 70 67 87.
Definition TagPRST : Tag := tag4 80 82 83 84.
Definition TagRSEQ : Tag := tag4 82 83 69 81.
Definition TagRNON : Tag := tag4 82 78 79 78.

Definition CryptoMaxParams : Z := 128.
Definition CryptoParameterMaxLength : Z := 4000.

(** [binary.LittleEndian.Uint32] and [Uint64] of a slice of their length. *)
Definition le_Uint (bs : list Z) : Z := foldr (fun b acc => b + 256 * acc) 0 bs.

(** ** handshake_message.go *)

Record HandshakeMessage := mkHandshakeMessage {
  hm_Tag : Tag;
  hm_Data : gmap Z (list Z)
}.

(** The loop over the index; [n] entries of eight bytes are left. *)
Fixpoint read_entries (n : nat) (index : list Z) (dataStart : Z) (resultMap : gmap Z (list Z))
    : Reader (gmap Z (list Z)) :=
  match n with
  | O => mret resultMap
  | S n =>
      let tag := le_Uint (take 4 index) in
      let dataEnd := le_Uint (take 4 (drop 4 index)) in
      let dataLen := u32 (dataEnd - dataStart) in
      if CryptoParameterMaxLength <? dataLen
      then fail (qerr_Error CryptoInvalidValueLength "value too long" [])
      else
        data ← ReadFull dataLen;
        read_entries n (drop 8 index) dataEnd (<[tag := data]> resultMap)
  end.

Definition ParseHandshakeMessage : Reader HandshakeMessage :=
  slice4 ← ReadFull 4;
  let messageTag := le_Uint slice4 in
  slice4 ← ReadFull 4;
  let nPairs := le_Uint slice4 in
  if CryptoMaxParams <? nPairs then fail (qerr_Code CryptoTooManyEntries)
  else
    index ← ReadFull (nPairs * 8);
    resultMap ← read_entries (Z.to_nat nPairs) index 0 ∅;
    mret (mkHandshakeMessage messageTag resultMap).

Definition getTagsSorted (data : gmap Z (list Z)) : list Tag :=
  merge_sort Z.le (map fst (map_to_list data)).

(** The loop over the sorted tags: the index and the values it writes. *)
Fixpoint write_entries (data : gmap Z (list Z)) (tags : list Tag) (offset : Z) : list Z * list Z :=
  match tags with
  | [] => ([], [])
  | t :: tags =>
      let v := default [] (data !! t) in
      let offset := u32 (offset + u32 (zlen v)) in
      let '(index, values) := write_entries data tags offset in
      (le_enc 4 t ++ le_enc 4 offset ++ index, v ++ values)
  end.

(** The index is written as zeros first and overwritten in place at the end. *)
Definition HandshakeMessage_Write (h : HandshakeMessage) : Writer :=
  let '(index, values) := write_entries (hm_Data h) (getTagsSorted (hm_Data h)) 0 in
  WriteUint32 LittleEndian (hm_Tag h);;
  WriteUint16 LittleEndian (u16 (Z.of_nat (size (hm_Data h))));;
  WriteUint16 LittleEndian 0;;
  WriteBytes index;;
  WriteBytes values.

(** ** public_reset.go *)

Record PublicReset := mkPublicReset {
  pr_RejectedPacketNumber : PacketNumber;
  pr_Nonce : Z
}.

Definition WritePublicReset (connectionID : ConnectionID) (rejectedPacketNumber : PacketNumber)
    (nonceProof : Z) : Writer :=
  WriteByte 0x0a;;
  WriteUint64 LittleEndian connectionID;;
  WriteUint32 LittleEndian TagPRST;;
  WriteUint32 LittleEndian 2;;
  WriteUint32 LittleEndian TagRNON;;
  WriteUint32 LittleEndian 8;;
  WriteUint32 LittleEndian TagRSEQ;;
  WriteUint32 LittleEndian 16;;
  WriteUint64 LittleEndian nonceProof;;
  WriteUint64 LittleEndian rejectedPacketNumber.

Definition reset_field (data : gmap Z (list Z)) (tag : Tag) (missing invalid : string) : Reader Z :=
  match data !! tag with
  | None => fail (errors_New missing)
  | Some v => if negb (zlen v =? 8) then fail (errors_New invalid) else mret (le_Uint v)
  end.

Definition ParsePublicReset : Reader PublicReset :=
  msg ← ParseHandshakeMessage;
  if negb (hm_Tag msg =? TagPRST) then fail (errors_New "wrong public reset tag")
  else
    rejected ← reset_field (hm_Data msg) TagRSEQ "RSEQ missing" "invalid RSEQ tag";
    nonce ← reset_field (hm_Data msg) TagRNON "RNON missing" "invalid RNON tag";
    mret (mkPublicReset rejected nonce).

(** ** The format *)

Lemma le_Uint_enc_from k n v :
  0 <= v -> le_Uint (le_enc_from k n v) = (v / 2 ^ (8 * Z.of_nat k)) mod 2 ^ (8 * Z.of_nat n).
Proof.
  intros Hv. revert k. induction n as [|n IH]; intros k; cbn [le_enc_from le_Uint foldr].
  { by rewrite Z.mod_1_r. }
  fold (le_Uint (le_enc_from (S k) n v)). rewrite IH.
  unfold u8. rewrite Z.shiftr_div_pow2 by lia.
  replace (8 * Z.of_nat (S k)) with (8 * Z.of_nat k + 8) by lia.
  rewrite Z.pow_add_r, <- Z.div_div by lia.
  set (x := v / 2 ^ (8 * Z.of_nat k)). replace (8 * Z.of_nat (S n)) with (8 + 8 * Z.of_nat n) by lia.
  rewrite Z.pow_add_r by lia. change (2 ^ 8) with 256.
  rewrite Z.rem_mul_r by lia. done.
Qed.

Lemma le_Uint_enc n v : 0 <= v < 2 ^ (8 * Z.of_nat n) -> le_Uint (le_enc n v) = v.
Proof.
  intros Hv. unfold le_enc. rewrite le_Uint_enc_from by lia. rewrite Z.mul_0_r, Z.div_1_r.
  by apply Z.mod_small.
Qed.

Lemma le_enc_length n v : length (le_enc n v) = n.
Proof. apply le_enc_from_length. Qed.

Definition insert_all (data : gmap Z (list Z)) (tags : list Tag) (m : gmap Z (list Z))
    : gmap Z (list Z) :=
  foldl (fun m t => <[t := default [] (data !! t)]> m) m tags.

Lemma insert_all_lookup data tags m k :
  insert_all data tags m !! k =
    if decide (k ∈ tags) then Some (default [] (data !! k)) else m !! k.
Proof.
  revert m. induction tags as [|t tags IH]; intros m; cbn [insert_all foldl].
  { destruct (decide (k ∈ [])) as [H|H]; [by apply not_elem_of_nil in H|done]. }
  fold (insert_all data tags (<[t := default [] (data !! t)]> m)). rewrite IH.
  destruct (decide (k ∈ tags)) as [H|H], (decide (k ∈ t :: tags)) as [H'|H']; try done.
  - destruct H'. by right.
  - apply elem_of_cons in H' as [->|H']; [by rewrite lookup_insert_eq|done].
  - rewrite lookup_insert_ne; [done|]. intros ->. destruct H'. by left.
Qed.

Lemma insert_all_keys data : insert_all data (getTagsSorted data) ∅ = data.
Proof.
  apply map_eq. intros k. rewrite insert_all_lookup.
  assert (E : k ∈ getTagsSorted data <-> exists v, data !! k = Some v).
  { unfold getTagsSorted. rewrite merge_sort_Permutation, list_elem_of_fmap. split.
    - intros ([k' v] & -> & Hin%elem_of_map_to_list). by exists v.
    - intros (v & Hv). exists (k, v). by rewrite elem_of_map_to_list. }
  destruct (decide (k ∈ getTagsSorted data)) as [H|H].
  - apply E in H as (v & ->). done.
  - rewrite lookup_empty. destruct (data !! k) as [v|] eqn:Ek; [|done]. destruct H. apply E. eauto.
Qed.

Lemma entries_read data tags offset m :
  Forall (fun t => 0 <= t < 2 ^ 32) tags ->
  Forall (fun t => zlen (default [] (data !! t)) <= CryptoParameterMaxLength) tags ->
  0 <= offset < 2 ^ 32 ->
  let '(index, values) := write_entries data tags offset in
  zlen index = 8 * zlen tags /\
  reads (read_entries (length tags) index offset m) values (insert_all data tags m).
Proof.
  intros Ht. revert offset m. induction Ht as [|t tags Ht _ IH]; intros offset m Hv Ho; [done|].
  apply Forall_cons in Hv as [Hv Hvs]. cbn [write_entries].
  set (v := default [] (data !! t)) in *. set (offset' := u32 (offset + u32 (zlen v))).
  assert (Ho' : 0 <= offset' < 2 ^ 32) by apply u32_range.
  assert (Hlen : u32 (offset' - offset) = zlen v)
    by (subst offset'; unfold CryptoParameterMaxLength in *; pose proof (zlen_nonneg v); glia).
  specialize (IH offset' (<[t := v]> m) Hvs Ho').
  destruct (write_entries data tags offset') as [index values]. destruct IH as [IHl IHr]. split.
  { rewrite !zlen_app, zlen_cons. unfold zlen at 1 2. rewrite !le_enc_length. lia. }
  cbn [length read_entries].
  rewrite (take_app_length' (le_enc 4 t)), le_Uint_enc by (done || by rewrite le_enc_length).
  rewrite (drop_app_length' (le_enc 4 t)) by (by rewrite le_enc_length).
  rewrite (take_app_length' (le_enc 4 offset')), le_Uint_enc by (done || by rewrite le_enc_length).
  rewrite Hlen. destruct (Z.ltb_spec CryptoParameterMaxLength (zlen v)); [lia|].
  apply (reads_bind _ _ v values v); [by apply reads_full|].
  rewrite app_assoc, (drop_app_length' (le_enc 4 t ++ le_enc 4 offset'))
    by (by rewrite length_app, !le_enc_length). exact IHr.
Qed.

Lemma le_writes64 v : writes (WriteUint64 LittleEndian v) (le_enc 8 v).
Proof. done. Qed.
Lemma le_writes32 v : writes (WriteUint32 LittleEndian v) (le_enc 4 v).
Proof. done. Qed.
Lemma le_writes16 v : writes (WriteUint16 LittleEndian v) (le_enc 2 v).
Proof. done. Qed.

Lemma le_Uint_app a b : le_Uint (a ++ b) = le_Uint a + 256 ^ zlen a * le_Uint b.
Proof.
  induction a as [|x a IH]; [simpl; unfold zlen; simpl; lia|].
  cbn [app le_Uint foldr]. fold (le_Uint (a ++ b)) (le_Uint a). rewrite IH, zlen_cons.
  rewrite Z.pow_add_r by (pose proof (zlen_nonneg a); lia). lia.
Qed.

Record message_ok (h : HandshakeMessage) : Prop := {
  msg_tag : 0 <= hm_Tag h < 2 ^ 32;
  msg_size : Z.of_nat (size (hm_Data h)) <= CryptoMaxParams;
  msg_entries : map_Forall (fun t v => 0 <= t < 2 ^ 32 /\ zlen v <= CryptoParameterMaxLength) (hm_Data h)
}.

Lemma sorted_tags_ok h :
  message_ok h ->
  Forall (fun t => 0 <= t < 2 ^ 32 /\ zlen (default [] (hm_Data h !! t)) <= CryptoParameterMaxLength)
    (getTagsSorted (hm_Data h)) /\ length (getTagsSorted (hm_Data h)) = size (hm_Data h).
Proof.
  intros [_ _ He]. unfold getTagsSorted. split.
  - rewrite merge_sort_Permutation. apply Forall_forall.
    intros t ([k v] & -> & Hin%elem_of_map_to_list)%list_elem_of_fmap. simpl.
    rewrite Hin. simpl. by apply (He k v).
  - rewrite (Permutation_length (merge_sort_Permutation Z.le _)), length_map.
    by rewrite length_map_to_list.
Qed.

Lemma message_reads h :
  message_ok h -> exists bs, writes (HandshakeMessage_Write h) bs /\ reads ParseHandshakeMessage bs h.
Proof.
  intros Hok. destruct (sorted_tags_ok h Hok) as [Hf Hl]. destruct Hok as [Ht Hs _].
  assert (Hn : le_Uint (le_enc 2 (u16 (Z.of_nat (size (hm_Data h)))) ++ le_enc 2 0)
    = Z.of_nat (size (hm_Data h))).
  { unfold CryptoMaxParams in Hs. rewrite u16_small, le_Uint_app, le_Uint_enc by (simpl; lia).
    change (le_Uint (le_enc 2 0)) with 0. lia. }
  pose proof (entries_read (hm_Data h) (getTagsSorted (hm_Data h)) 0 ∅
    (Forall_impl _ _ _ Hf (fun _ H => proj1 H)) (Forall_impl _ _ _ Hf (fun _ H => proj2 H))
    ltac:(lia)) as He.
  unfold HandshakeMessage_Write.
  destruct (write_entries _ _ _) as [index values]. destruct He as [Hil Hr].
  set (n := le_enc 2 (u16 (Z.of_nat (size (hm_Data h))))) in *.
  exists (le_enc 4 (hm_Tag h) ++ n ++ le_enc 2 0 ++ index ++ values). split.
  { apply writes_bind; [apply le_writes32|]. apply writes_bind; [apply le_writes16|].
    apply writes_bind; [apply le_writes16|]. apply writes_bind; [apply writes_bytes|apply writes_bytes]. }
  unfold ParseHandshakeMessage.
  eapply reads_bind; [apply reads_full; unfold zlen; by rewrite le_enc_length|].
  rewrite (app_assoc n).
  eapply reads_bind; [apply reads_full; unfold zlen; subst n; by rewrite length_app, !le_enc_length|].
  rewrite Hn, le_Uint_enc by (simpl; lia). destruct (Z.ltb_spec CryptoMaxParams (Z.of_nat (size (hm_Data h)))); [lia|].
  eapply reads_bind; [apply reads_full; rewrite Hil; unfold zlen; rewrite Hl; lia|].
  rewrite <- (app_nil_r values), Nat2Z.id, <- Hl.
  eapply reads_bind; [exact Hr|]. rewrite insert_all_keys. by destruct h.
Qed.

(** a handshake message with at most 128 parameters of at most 4000 bytes is
    parsed back, whatever bytes follow it, to the same tag and the same map. *)
Theorem HandshakeMessage_roundtrip h rest :
  message_ok h ->
  exists out, HandshakeMessage_Write h [] = (Ok tt, out) /\
    ParseHandshakeMessage (out ++ rest) = (Ok h, rest).
Proof. intros (bs & Hw & Hr)%message_reads. by eapply writes_reads. Qed.

Definition sample_message : HandshakeMessage :=
  mkHandshakeMessage TagPRST {[TagSFCW := [0; 128; 0; 0]; TagICSL := [30; 0; 0; 0]; TagTCID := []]}.

Lemma HandshakeMessage_roundtrip_witness :
  exists out, HandshakeMessage_Write sample_message [] = (Ok tt, out) /\
    ParseHandshakeMessage (out ++ [1; 2]) = (Ok sample_message, [1; 2]) /\ zlen out = 40.
Proof.
  destruct (HandshakeMessage_roundtrip sample_message [1; 2]) as (out & E1 & E2).
  { split; [vm_compute; split; congruence|vm_compute; congruence|].
    repeat (apply map_Forall_insert_2; [vm_compute; split; [split|]; congruence|]).
    apply map_Forall_empty. }
  exists out. split; [exact E1|]. split; [exact E2|]. vm_compute in E1. injection E1 as <-. reflexivity.
Defined.

(** ** Hostile messages *)

Definition values_bounded (m : gmap Z (list Z)) : Prop :=
  map_Forall (fun _ v => bytes_ok v /\ zlen v <= CryptoParameterMaxLength) m.

Lemma read_entries_safe n index dataStart m :
  values_bounded m ->
  safe_read (read_entries n index dataStart m)
    (fun m' => values_bounded m' /\ (size m' <= size m + n)%nat).
Proof.
  revert index dataStart m. induction n as [|n IH]; intros index dataStart m Hm; cbn [read_entries].
  { apply safe_ret. split; [done|lia]. }
  cbv zeta. set (dataLen := u32 _).
  assert (Hd : 0 <= dataLen < 4294967296) by apply u32_range. apply safe_if; intros Hc; [apply safe_fail|].
  eapply safe_bind; [apply safe_full; lia|]. cbv beta. intros data [Hb Hl].
  eapply safe_weaken; [apply IH|].
  - apply map_Forall_insert_2; [|done]. split; [done|]. apply Z.ltb_ge in Hc. lia.
  - cbv beta. intros m' [H1 H2]. split; [done|].
    rewrite map_size_insert in H2. destruct (m !! _); unfold id in H2; lia.
Qed.

Lemma read_message_safe :
  safe_read ParseHandshakeMessage (fun m =>
    Z.of_nat (size (hm_Data m)) <= CryptoMaxParams /\ values_bounded (hm_Data m)).
Proof.
  unfold ParseHandshakeMessage. eapply safe_bind; [apply safe_full; lia|]. cbv beta.
  intros s1 _. cbv zeta. eapply safe_bind; [apply safe_full; lia|]. cbv beta. intros s2 [Hs2 _].
  apply safe_if; intros Hc; [apply safe_fail|]. apply Z.ltb_ge in Hc.
  assert (Hn : 0 <= le_Uint s2).
  { clear Hc. induction Hs2 as [|x l Hx _ IH]; [done|]. cbn [le_Uint foldr]. fold (le_Uint l).
    unfold byte_ok in Hx. lia. }
  eapply safe_bind; [apply safe_full; lia|]. cbv beta. intros index _.
  eapply safe_bind; [apply read_entries_safe; apply map_Forall_empty|]. cbv beta.
  intros m [Hm Hsz]. apply safe_ret. split; [|done]. cbn. rewrite map_size_empty in Hsz. lia.
Qed.

(** the handshake message parser is safe on any bytes: it does not panic, it
    consumes only bytes it was given, and a message it returns has at most 128
    parameters, each of at most 4000 bytes. *)
Theorem ParseHandshakeMessage_safe bytes :
  bytes_ok bytes ->
  match ParseHandshakeMessage bytes with
  | (Ok m, rest) =>
      (length rest <= length bytes)%nat /\ Z.of_nat (size (hm_Data m)) <= CryptoMaxParams /\
      map_Forall (fun _ v => bytes_ok v /\ zlen v <= CryptoParameterMaxLength) (hm_Data m)
  | (Err _, rest) => (length rest <= length bytes)%nat
  | (Panic _, _) => False
  end.
Proof.
  intros Hb. pose proof read_message_safe as Hs.
  specialize (Hs bytes Hb). destruct (ParseHandshakeMessage bytes) as [[m|e|p] rest]; [|by destruct Hs|done].
  destruct Hs as (_ & Hl & Hsz & Hv). by split_and!.
Qed.

Lemma ParseHandshakeMessage_safe_witness :
  ParseHandshakeMessage [67; 72; 76; 79; 129; 0; 0; 0] = (Err (qerr_Code CryptoTooManyEntries), []) /\
  match ParseHandshakeMessage [67; 72; 76; 79; 129; 0; 0; 0] with
  | (Err _, rest) => (length rest <= 8)%nat
  | _ => False
  end.
Proof.
  split; [reflexivity|].
  assert (H : bytes_ok [67; 72; 76; 79; 129; 0; 0; 0]) by (repeat constructor; done).
  pose proof (ParseHandshakeMessage_safe _ H) as Hs. exact Hs.
Defined.

(** ** Public reset *)

Lemma ParsePublicReset_safe : safe_read ParsePublicReset (fun _ => True).
Proof.
  assert (Hf : forall d t m i, safe_read (reset_field d t m i) (fun _ => True)).
  { intros d t m i. unfold reset_field. destruct (d !! t); [|apply safe_fail].
    apply safe_if; intros _; [apply safe_fail|by apply safe_ret]. }
  unfold ParsePublicReset. eapply safe_bind; [apply read_message_safe|]. intros msg _.
  apply safe_if; intros _; [apply safe_fail|]. eapply safe_bind; [apply Hf|]. intros a _.
  eapply safe_bind; [apply Hf|]. intros b _. by apply safe_ret.
Qed.

Definition reset_message (rejected nonce : Z) : HandshakeMessage :=
  mkHandshakeMessage TagPRST {[TagRNON := le_enc 8 nonce; TagRSEQ := le_enc 8 rejected]}.

Definition reset_bytes (rejected nonce : Z) : list Z :=
  le_enc 4 TagPRST ++ le_enc 4 2 ++ le_enc 4 TagRNON ++ le_enc 4 8 ++ le_enc 4 TagRSEQ ++
  le_enc 4 16 ++ le_enc 8 nonce ++ le_enc 8 rejected.

(** A public reset is the handshake message with its two fields. *)
Lemma reset_bytes_message rejected nonce :
  reads ParseHandshakeMessage (reset_bytes rejected nonce) (reset_message rejected nonce).
Proof.
  destruct (message_reads (reset_message rejected nonce)) as (bs & Hw & Hr).
  { split; [vm_compute; split; congruence|vm_compute; congruence|].
    repeat (apply map_Forall_insert_2; [unfold zlen; rewrite le_enc_length; vm_compute; split; [split|]; congruence|]).
    apply map_Forall_empty. }
  specialize (Hw []). assert (E : bs = reset_bytes rejected nonce); [|by rewrite <- E].
  change (HandshakeMessage_Write (reset_message rejected nonce) [])
    with (Ok tt, reset_bytes rejected nonce) in Hw. by injection Hw.
Qed.

Lemma reset_parsed rejected nonce :
  0 <= rejected < 2 ^ 64 -> 0 <= nonce < 2 ^ 64 ->
  reads ParsePublicReset (reset_bytes rejected nonce) (mkPublicReset rejected nonce).
Proof.
  intros Hr Hn. unfold ParsePublicReset. rewrite <- (app_nil_r (reset_bytes _ _)).
  eapply reads_bind; [apply reset_bytes_message|].
  change (negb (hm_Tag (reset_message rejected nonce) =? TagPRST)) with false. cbv iota.
  assert (E1 : hm_Data (reset_message rejected nonce) !! TagRSEQ = Some (le_enc 8 rejected)) by done.
  assert (E2 : hm_Data (reset_message rejected nonce) !! TagRNON = Some (le_enc 8 nonce)) by done.
  unfold reset_field. rewrite E1, E2. unfold zlen. rewrite !le_enc_length. cbn [Z.of_nat negb Z.eqb].
  intros rest. run. by rewrite !le_Uint_enc by (simpl; lia).
Qed.

(** a public reset reaches the peer: what the server writes is parsed by the
    client as a public header with the reset flag and the connection's ID,
    followed by a reset with the rejected packet number and the nonce. *)
Theorem PublicReset_roundtrip connectionID rejected nonce version :
  0 < connectionID < 2 ^ 64 -> 0 <= rejected < 2 ^ 64 -> 0 <= nonce < 2 ^ 64 ->
  exists out hdr rest,
    WritePublicReset connectionID rejected nonce [] = (Ok tt, out) /\
    ParsePublicHeader PerspectiveServer version out = (Ok hdr, rest) /\
    hdr_ResetFlag hdr = true /\ hdr_ConnectionID hdr = connectionID /\
    ParsePublicReset rest = (Ok (mkPublicReset rejected nonce), []).
Proof.
  intros Hc Hr Hn. eexists ([0x0a] ++ le_enc 8 connectionID ++ reset_bytes rejected nonce), _, _.
  split; [reflexivity|]. split.
  - unfold ParsePublicHeader. erewrite run_bind_ok by reflexivity.
    change (0 <? Z.land 10 2) with true. change (0 <? Z.land 10 1) with false.
    change (Z.land 10 8 =? 0) with false. change (0 <? Z.land 10 4) with false.
    cbn [orb negb andb]. rewrite andb_false_r. cbv zeta.
    erewrite run_bind_ok; [reflexivity|]. erewrite run_bind_ok by (apply littleEndian_reads64; lia).
    destruct (Z.eqb_spec connectionID 0); [lia|]. reflexivity.
  - split; [reflexivity|]. split; [reflexivity|].
    rewrite <- (app_nil_r (reset_bytes _ _)). by apply reset_parsed.
Qed.

Lemma PublicReset_roundtrip_witness :
  exists out hdr rest,
    WritePublicReset 1337 42 99 [] = (Ok tt, out) /\
    ParsePublicHeader PerspectiveServer VersionMP out = (Ok hdr, rest) /\
    ParsePublicReset rest = (Ok (mkPublicReset 42 99), []).
Proof.
  destruct (PublicReset_roundtrip 1337 42 99 VersionMP) as (out & hdr & rest & E1 & E2 & _ & _ & E3);
    [lia..|]. by exists out, hdr, rest.
Defined.
