(* ===== verification/ConnParams.v ===== *)
(** * internal/handshake/connection_parameters_manager.go

    The negotiated parameters of a connection.  [SetFromMap] updates the manager
    parameter by parameter and may fail half way, so it is a computation over the
    manager; the locks are not modelled, the Go methods hold one from start to
    end. *)

From Stdlib Require Import SpecFloat.
From S2P Require Import Prelude Protocol ByteOrder WireFrames WireHeader MinMax Float Handshake.

Definition InvalidCryptoMessageParameter : Z := 34.
Definition InitialStreamFlowControlWindow : ByteCount := Z.shiftl 1 14.
Definition InitialConnectionFlowControlWindow : ByteCount := Z.shiftl 1 14.
Definition ReceiveStreamFlowControlWindow : ByteCount := Z.shiftl 1 10 * 32.
Definition ReceiveConnectionFlowControlWindow : ByteCount := Z.shiftl 1 10 * 48.
Definition MaxStreamsPerConnection : Z := 10000.
Definition MaxIncomingDynamicStreamsPerConnection : Z := 10000.
Definition MaxStreamsMultiplier : float64 := f64_const 11 10.
Definition MaxStreamsMinimumIncrement : Z := 10.

Definition ErrMalformedTag : error :=
  qerr_Error InvalidCryptoMessageParameter "malformed Tag value" [].
Definition ErrFlowControlRenegotiationNotSupported : error :=
  qerr_Error InvalidCryptoMessageParameter
    "renegotiation of flow control parameters not supported" [].

Record connectionParametersManager := mkConnectionParametersManager {
  cpm_version : VersionNumber;
  cpm_perspective : Perspective;
  cpm_flowControlNegotiated : bool;
  cpm_truncateConnectionID : bool;
  cpm_maxStreamsPerConnection : Z;
  cpm_maxIncomingDynamicStreamsPerConnection : Z;
  cpm_idleConnectionStateLifetime : Duration;
  cpm_sendStreamFlowControlWindow : ByteCount;
  cpm_sendConnectionFlowControlWindow : ByteCount;
  cpm_receiveStreamFlowControlWindow : ByteCount;
  cpm_receiveConnectionFlowControlWindow : ByteCount;
  cpm_maxReceiveStreamFlowControlWindow : ByteCount;
  cpm_maxReceiveConnectionFlowControlWindow : ByteCount
}.

#[global] Instance eta_connectionParametersManager : Eta connectionParametersManager := fun h =>
  mkConnectionParametersManager (cpm_version h) (cpm_perspective h) (cpm_flowControlNegotiated h)
    (cpm_truncateConnectionID h) (cpm_maxStreamsPerConnection h)
    (cpm_maxIncomingDynamicStreamsPerConnection h) (cpm_idleConnectionStateLifetime h)
    (cpm_sendStreamFlowControlWindow h) (cpm_sendConnectionFlowControlWindow h)
    (cpm_receiveStreamFlowControlWindow h) (cpm_receiveConnectionFlowControlWindow h)
    (cpm_maxReceiveStreamFlowControlWindow h) (cpm_maxReceiveConnectionFlowControlWindow h).

Definition NewConnectionParamatersManager (pers : Perspective) (v : VersionNumber)
    (maxReceiveStream maxReceiveConnection : ByteCount) (idleTimeout : Duration)
    : connectionParametersManager :=
  mkConnectionParametersManager v pers false false MaxStreamsPerConnection MaxStreamsPerConnection
    idleTimeout InitialStreamFlowControlWindow InitialConnectionFlowControlWindow
    ReceiveStreamFlowControlWindow ReceiveConnectionFlowControlWindow maxReceiveStream
    maxReceiveConnection.

Definition negotiateMaxStreamsPerConnection (clientValue : Z) : Z :=
  MinUint32 clientValue MaxStreamsPerConnection.
Definition negotiateMaxIncomingDynamicStreamsPerConnection (clientValue : Z) : Z :=
  MinUint32 clientValue MaxIncomingDynamicStreamsPerConnection.
Definition negotiateIdleConnectionStateLifetime (h : connectionParametersManager)
    (clientValue : Duration) : Duration :=
  MinDuration clientValue (cpm_idleConnectionStateLifetime h).

(** One parameter: [k] stores the value read, if the map has one. *)
Definition with_param (params : gmap Z (list Z)) (tag : Tag)
    (k : Z -> GoM connectionParametersManager unit) : GoM connectionParametersManager unit :=
  match params !! tag with
  | None => mret tt
  | Some value =>
      match ReadUint32 LittleEndian value with
      | (Ok clientValue, _) => k clientValue
      | _ => fail ErrMalformedTag
      end
  end.

(** The flow control windows can be set once. *)
Definition with_window (params : gmap Z (list Z)) (tag : Tag)
    (k : Z -> GoM connectionParametersManager unit) : GoM connectionParametersManager unit :=
  match params !! tag with
  | None => mret tt
  | Some _ =>
      h ← getS;
      if cpm_flowControlNegotiated h then fail ErrFlowControlRenegotiationNotSupported
      else with_param params tag k
  end.

Definition SetFromMap (params : gmap Z (list Z)) : GoM connectionParametersManager unit :=
  h ← getS;
  (if Perspective_eqb (cpm_perspective h) PerspectiveServer
   then with_param params TagTCID (fun v => modifyS (fun h => h <| cpm_truncateConnectionID := v =? 0 |>))
   else mret tt);;
  with_param params TagMSPC (fun v => modifyS (fun h =>
    h <| cpm_maxStreamsPerConnection := negotiateMaxStreamsPerConnection v |>));;
  with_param params TagMIDS (fun v => modifyS (fun h =>
    h <| cpm_maxIncomingDynamicStreamsPerConnection :=
         negotiateMaxIncomingDynamicStreamsPerConnection v |>));;
  with_param params TagICSL (fun v => modifyS (fun h =>
    h <| cpm_idleConnectionStateLifetime :=
         negotiateIdleConnectionStateLifetime h (i64 (v * Second)) |>));;
  with_window params TagSFCW (fun v => modifyS (fun h => h <| cpm_sendStreamFlowControlWindow := v |>));;
  with_window params TagCFCW (fun v => modifyS (fun h =>
    h <| cpm_sendConnectionFlowControlWindow := v |>));;
  match params !! TagCFCW, params !! TagSFCW with
  | None, None => mret tt
  | _, _ => modifyS (fun h => h <| cpm_flowControlNegotiated := true |>)
  end.

(** A buffer to which one [uint32] was written. *)
Definition uint32_bytes (v : Z) : list Z := snd (WriteUint32 LittleEndian v []).

Definition GetHelloMap (h : connectionParametersManager) : gmap Z (list Z) :=
  {[TagICSL := uint32_bytes (u32 (Z.quot (cpm_idleConnectionStateLifetime h) Second));
    TagMSPC := uint32_bytes (cpm_maxStreamsPerConnection h);
    TagMIDS := uint32_bytes MaxIncomingDynamicStreamsPerConnection;
    TagCFCW := uint32_bytes (u32 (cpm_receiveConnectionFlowControlWindow h));
    TagSFCW := uint32_bytes (u32 (cpm_receiveStreamFlowControlWindow h))]}.

Definition GetSendStreamFlowControlWindow (h : connectionParametersManager) : ByteCount :=
  cpm_sendStreamFlowControlWindow h.
Definition GetSendConnectionFlowControlWindow (h : connectionParametersManager) : ByteCount :=
  cpm_sendConnectionFlowControlWindow h.
Definition GetReceiveStreamFlowControlWindow (h : connectionParametersManager) : ByteCount :=
  cpm_receiveStreamFlowControlWindow h.
Definition GetMaxReceiveStreamFlowControlWindow (h : connectionParametersManager) : ByteCount :=
  cpm_maxReceiveStreamFlowControlWindow h.
Definition GetReceiveConnectionFlowControlWindow (h : connectionParametersManager) : ByteCount :=
  cpm_receiveConnectionFlowControlWindow h.
Definition GetMaxReceiveConnectionFlowControlWindow (h : connectionParametersManager) : ByteCount :=
  cpm_maxReceiveConnectionFlowControlWindow h.
Definition GetMaxOutgoingStreams (h : connectionParametersManager) : Z :=
  cpm_maxIncomingDynamicStreamsPerConnection h.

Definition GetMaxIncomingStreams (h : connectionParametersManager) : Z :=
  let maxStreams := MaxIncomingDynamicStreamsPerConnection in
  MaxUint32 (u32 (maxStreams + MaxStreamsMinimumIncrement))
    (u32 (float_to_u64 (f64_mul (f64_of_Z maxStreams) MaxStreamsMultiplier))).

Definition GetIdleConnectionStateLifetime (h : connectionParametersManager) : Duration :=
  cpm_idleConnectionStateLifetime h.

Definition cpm_TruncateConnectionID (h : connectionParametersManager) : bool :=
  if Perspective_eqb (cpm_perspective h) PerspectiveClient then false
  else cpm_truncateConnectionID h.

(** ** Negotiation *)

Lemma read_uint32_bytes v : 0 <= v < 2 ^ 32 -> ReadUint32 LittleEndian (uint32_bytes v) = (Ok v, []).
Proof.
  intros Hv. change (uint32_bytes v) with (le_enc 4 v). rewrite <- (app_nil_r (le_enc 4 v)).
  by apply littleEndian_reads32.
Qed.

Lemma with_param_set params tag v k h :
  params !! tag = Some (uint32_bytes v) -> 0 <= v < 2 ^ 32 -> with_param params tag k h = k v h.
Proof. intros E Hv. unfold with_param. rewrite E. by rewrite read_uint32_bytes. Qed.

Lemma with_window_set params tag v k h :
  params !! tag = Some (uint32_bytes v) -> 0 <= v < 2 ^ 32 -> cpm_flowControlNegotiated h = false ->
  with_window params tag k h = k v h.
Proof.
  intros E Hv Hn. unfold with_window. rewrite E. unfold_go. rewrite Hn.
  by apply (with_param_set _ _ v).
Qed.

(** What a hello can carry: the parameters fit in the 32 bits of their tags. *)
Record hello_ok (h : connectionParametersManager) : Prop := {
  ho_streams : 0 <= cpm_maxStreamsPerConnection h < 2 ^ 32;
  ho_idle : 0 <= cpm_idleConnectionStateLifetime h < 2 ^ 32 * Second;
  ho_stream_window : 0 <= cpm_receiveStreamFlowControlWindow h < 2 ^ 32;
  ho_connection_window : 0 <= cpm_receiveConnectionFlowControlWindow h < 2 ^ 32
}.

(** The manager of the receiver of the hello of [s]. *)
Definition negotiated (s r : connectionParametersManager) : connectionParametersManager :=
  r <| cpm_maxStreamsPerConnection := Z.min (cpm_maxStreamsPerConnection s) MaxStreamsPerConnection |>
    <| cpm_maxIncomingDynamicStreamsPerConnection := MaxIncomingDynamicStreamsPerConnection |>
    <| cpm_idleConnectionStateLifetime :=
         Z.min (cpm_idleConnectionStateLifetime s / Second * Second) (cpm_idleConnectionStateLifetime r) |>
    <| cpm_sendStreamFlowControlWindow := cpm_receiveStreamFlowControlWindow s |>
    <| cpm_sendConnectionFlowControlWindow := cpm_receiveConnectionFlowControlWindow s |>
    <| cpm_flowControlNegotiated := true |>.

Lemma hello_lookup s :
  GetHelloMap s !! TagTCID = None /\
  GetHelloMap s !! TagMSPC = Some (uint32_bytes (cpm_maxStreamsPerConnection s)) /\
  GetHelloMap s !! TagMIDS = Some (uint32_bytes MaxIncomingDynamicStreamsPerConnection) /\
  GetHelloMap s !! TagICSL
    = Some (uint32_bytes (u32 (Z.quot (cpm_idleConnectionStateLifetime s) Second))) /\
  GetHelloMap s !! TagSFCW = Some (uint32_bytes (u32 (cpm_receiveStreamFlowControlWindow s))) /\
  GetHelloMap s !! TagCFCW = Some (uint32_bytes (u32 (cpm_receiveConnectionFlowControlWindow s))).
Proof. by split_and!. Qed.

(** The three parameters that are set in every hello. *)
Definition set_limits (params : gmap Z (list Z)) (k : GoM connectionParametersManager unit)
    : GoM connectionParametersManager unit :=
  with_param params TagMSPC (fun v => modifyS (fun h =>
    h <| cpm_maxStreamsPerConnection := negotiateMaxStreamsPerConnection v |>));;
  with_param params TagMIDS (fun v => modifyS (fun h =>
    h <| cpm_maxIncomingDynamicStreamsPerConnection :=
         negotiateMaxIncomingDynamicStreamsPerConnection v |>));;
  with_param params TagICSL (fun v => modifyS (fun h =>
    h <| cpm_idleConnectionStateLifetime :=
         negotiateIdleConnectionStateLifetime h (i64 (v * Second)) |>));;
  k.

Definition with_limits (s r : connectionParametersManager) : connectionParametersManager :=
  r <| cpm_maxStreamsPerConnection := Z.min (cpm_maxStreamsPerConnection s) MaxStreamsPerConnection |>
    <| cpm_maxIncomingDynamicStreamsPerConnection := MaxIncomingDynamicStreamsPerConnection |>
    <| cpm_idleConnectionStateLifetime :=
         Z.min (cpm_idleConnectionStateLifetime s / Second * Second) (cpm_idleConnectionStateLifetime r) |>.

Lemma set_limits_hello s k r : hello_ok s -> set_limits (GetHelloMap s) k r = k (with_limits s r).
Proof.
  intros [H1 H2 _ _]. destruct (hello_lookup s) as (_ & E1 & E2 & E3 & _).
  assert (Hq : 0 <= Z.quot (cpm_idleConnectionStateLifetime s) Second < 2 ^ 32)
    by (unfold Second in *; glia).
  rewrite u32_small in E3 by lia. unfold set_limits.
  erewrite run_bind_ok by (rewrite (with_param_set _ _ _ _ _ E1) by lia; reflexivity).
  erewrite run_bind_ok by (rewrite (with_param_set _ _ _ _ _ E2) by (unfold
    MaxIncomingDynamicStreamsPerConnection; lia); reflexivity).
  erewrite run_bind_ok by (rewrite (with_param_set _ _ _ _ _ E3) by lia; reflexivity).
  f_equal. unfold negotiateIdleConnectionStateLifetime, negotiateMaxStreamsPerConnection,
    negotiateMaxIncomingDynamicStreamsPerConnection. autorewrite with ints.
  rewrite Z.quot_div_nonneg in * by (unfold Second; lia).
  rewrite i64_small by (unfold Second in *; glia). done.
Qed.

(** negotiation.  The hello of one side, read by a peer that has not
    negotiated flow control yet, gives the peer as its send windows exactly the
    receive windows of the sender, the smaller of the two idle timeouts in whole
    seconds, and at most 10000 streams; a second hello is refused and leaves the
    windows as they are. *)
Theorem hello_negotiates s r :
  hello_ok s -> cpm_flowControlNegotiated r = false ->
  SetFromMap (GetHelloMap s) r = (Ok tt, negotiated s r) /\
  exists r', SetFromMap (GetHelloMap s) (negotiated s r) = (Err ErrFlowControlRenegotiationNotSupported, r')
    /\ cpm_sendStreamFlowControlWindow r' = cpm_receiveStreamFlowControlWindow s
    /\ cpm_sendConnectionFlowControlWindow r' = cpm_receiveConnectionFlowControlWindow s.
Proof.
  intros Hok Hn. destruct (hello_lookup s) as (E0 & _ & _ & _ & E4 & E5).
  assert (Hstart : forall h, SetFromMap (GetHelloMap s) h = set_limits (GetHelloMap s)
    (with_window (GetHelloMap s) TagSFCW (fun v => modifyS (fun h => h <| cpm_sendStreamFlowControlWindow := v |>));;
     with_window (GetHelloMap s) TagCFCW (fun v => modifyS (fun h =>
       h <| cpm_sendConnectionFlowControlWindow := v |>));;
     modifyS (fun h => h <| cpm_flowControlNegotiated := true |>)) h).
  { intros h. unfold SetFromMap. erewrite run_bind_ok by reflexivity.
    erewrite run_bind_ok; [by rewrite E4, E5|]. unfold with_param. rewrite E0. by destruct (Perspective_eqb _ _). }
  rewrite !Hstart, !set_limits_hello by done. destruct Hok as [_ _ H3 H4]. rewrite u32_small in E4, E5 by lia.
  split.
  - erewrite run_bind_ok by (rewrite (with_window_set _ _ _ _ _ E4) by (done || lia); reflexivity).
    erewrite run_bind_ok by (rewrite (with_window_set _ _ _ _ _ E5) by (done || lia); reflexivity). done.
  - eexists. split; [|split].
    + apply run_bind_err. unfold with_window. rewrite E4. reflexivity.
    + reflexivity.
    + reflexivity.
Qed.

Definition sample_server : connectionParametersManager :=
  NewConnectionParamatersManager PerspectiveServer VersionMP 1048576 1572864 (30 * Second).
Definition sample_client : connectionParametersManager :=
  NewConnectionParamatersManager PerspectiveClient VersionMP 16777216 25165824 (20 * Second).

Lemma hello_negotiates_witness :
  SetFromMap (GetHelloMap sample_server) sample_client = (Ok tt, negotiated sample_server sample_client)
  /\ GetSendStreamFlowControlWindow (negotiated sample_server sample_client) = 32768
  /\ GetIdleConnectionStateLifetime (negotiated sample_server sample_client) = 20 * Second.
Proof.
  split; [|split; reflexivity].
  apply hello_negotiates; [|reflexivity]. split; vm_compute; split; congruence.
Defined.

(** The slack for incoming streams is the larger of the two increments. *)
Lemma GetMaxIncomingStreams_value h : GetMaxIncomingStreams h = 11000.
Proof. reflexivity. Qed.
