(* ===== verification/FlowControl.v ===== *)
(** * internal/flowcontrol: stream and connection flow control

    flow_controller.go and flow_control_manager.go.  A controller is a record;
    the connection parameters, the RTT statistics and the round trip times of the
    remote paths, which Go shares by pointer, are kept once in the manager and
    passed to the controllers' operations that read them.  The manager's map of
    controllers is a [gmap]; Go ranges over it in an unspecified order, so the
    order is an argument of [GetWindowUpdates]. *)

From Stdlib Require Import SpecFloat.
From S2P Require Import Prelude Protocol ByteOrder WireFrames WireHeader MinMax.
From S2P Require Import Float RttStats Handshake ConnParams.

Definition ConnectionFlowControlMultiplier : float64 := f64_const 3 2.

(** ** flow_controller.go *)

Record flowController := mkFlowController {
  fc_streamID : StreamID;
  fc_contributesToConnection : bool;
  fc_bytesSent : ByteCount;
  fc_sendWindow : ByteCount;
  fc_bytesRetrans : ByteCount;
  fc_lastWindowUpdateTime : Time;
  fc_bytesRead : ByteCount;
  fc_highestReceived : ByteCount;
  fc_receiveWindow : ByteCount;
  fc_receiveWindowIncrement : ByteCount;
  fc_maxReceiveWindowIncrement : ByteCount
}.

#[global] Instance eta_flowController : Eta flowController := fun c =>
  mkFlowController (fc_streamID c) (fc_contributesToConnection c) (fc_bytesSent c) (fc_sendWindow c)
    (fc_bytesRetrans c) (fc_lastWindowUpdateTime c) (fc_bytesRead c) (fc_highestReceived c)
    (fc_receiveWindow c) (fc_receiveWindowIncrement c) (fc_maxReceiveWindowIncrement c).

Definition ErrReceivedSmallerByteOffset : error := errors_New "Received a smaller byte offset".

Definition newFlowController (streamID : StreamID) (contributesToConnection : bool)
    (connectionParameters : connectionParametersManager) : flowController :=
  let '(receiveWindow, maxIncrement) :=
    if streamID =? 0
    then (GetReceiveConnectionFlowControlWindow connectionParameters,
          GetMaxReceiveConnectionFlowControlWindow connectionParameters)
    else (GetReceiveStreamFlowControlWindow connectionParameters,
          GetMaxReceiveStreamFlowControlWindow connectionParameters) in
  mkFlowController streamID contributesToConnection 0 0 0 zeroTime 0 0 receiveWindow receiveWindow
    maxIncrement.

Definition ContributesToConnection (c : flowController) : bool := fc_contributesToConnection c.

Definition getSendWindow (cp : connectionParametersManager) (c : flowController) : ByteCount :=
  if fc_sendWindow c =? 0
  then if fc_streamID c =? 0 then GetSendConnectionFlowControlWindow cp
       else GetSendStreamFlowControlWindow cp
  else fc_sendWindow c.

Definition fc_AddBytesSent (c : flowController) (n : ByteCount) : flowController :=
  c <| fc_bytesSent := u64 (fc_bytesSent c + n) |>.
Definition fc_GetBytesSent (c : flowController) : ByteCount := fc_bytesSent c.
Definition fc_AddBytesRetrans (c : flowController) (n : ByteCount) : flowController :=
  c <| fc_bytesRetrans := u64 (fc_bytesRetrans c + n) |>.
Definition fc_GetBytesRetrans (c : flowController) : ByteCount := fc_bytesRetrans c.

Definition UpdateSendWindow (c : flowController) (newOffset : ByteCount) : bool * flowController :=
  if fc_sendWindow c <? newOffset then (true, c <| fc_sendWindow := newOffset |>) else (false, c).

Definition fc_SendWindowSize (cp : connectionParametersManager) (c : flowController) : ByteCount :=
  let sendWindow := getSendWindow cp c in
  if sendWindow <? fc_bytesSent c then 0 else sendWindow - fc_bytesSent c.

Definition SendWindowOffset (cp : connectionParametersManager) (c : flowController) : ByteCount :=
  getSendWindow cp c.

Definition fc_UpdateHighestReceived (c : flowController) (byteOffset : ByteCount)
    : outcome ByteCount * flowController :=
  if byteOffset =? fc_highestReceived c then (Ok 0, c)
  else if fc_highestReceived c <? byteOffset
  then (Ok (byteOffset - fc_highestReceived c), c <| fc_highestReceived := byteOffset |>)
  else (Err ErrReceivedSmallerByteOffset, c).

Definition IncrementHighestReceived (c : flowController) (increment : ByteCount) : flowController :=
  c <| fc_highestReceived := u64 (fc_highestReceived c + increment) |>.

Definition fc_AddBytesRead (c : flowController) (n : ByteCount) (now : Time) : flowController :=
  let c := if fc_bytesRead c =? 0 then c <| fc_lastWindowUpdateTime := now |> else c in
  c <| fc_bytesRead := u64 (fc_bytesRead c + n) |>.

Definition maxRemoteRTT (remoteRTTs : gmap PathID Duration) : Duration :=
  foldl MaxDuration 0 (map snd (map_to_list remoteRTTs)).

Definition maybeAdjustWindowIncrement (c : flowController) (rttStats : RTTStats)
    (remoteRTTs : gmap PathID Duration) (now : Time) : flowController :=
  if Time_IsZero (fc_lastWindowUpdateTime c) then c
  else
    let rtt := SmoothedRTT rttStats in
    if rtt =? 0 then c
    else
      let timeSinceLastWindowUpdate := Time_Sub now (fc_lastWindowUpdateTime c) in
      if i64 (2 * MaxDuration rtt (maxRemoteRTT remoteRTTs)) <=? timeSinceLastWindowUpdate then c
      else c <| fc_receiveWindowIncrement :=
             MinByteCount (u64 (2 * fc_receiveWindowIncrement c)) (fc_maxReceiveWindowIncrement c) |>.

(** The three results, and the controller; [now] is read for the age of the last
    update and [now'] when this one is recorded. *)
Definition MaybeUpdateWindow (c : flowController) (rttStats : RTTStats)
    (remoteRTTs : gmap PathID Duration) (now now' : Time)
    : (bool * ByteCount * ByteCount) * flowController :=
  let diff := u64 (fc_receiveWindow c - fc_bytesRead c) in
  if diff <? fc_receiveWindowIncrement c / 2 then
    let oldWindowIncrement := fc_receiveWindowIncrement c in
    let c := maybeAdjustWindowIncrement c rttStats remoteRTTs now in
    let newWindowIncrement :=
      if fc_receiveWindowIncrement c =? oldWindowIncrement then 0 else fc_receiveWindowIncrement c in
    let c := c <| fc_lastWindowUpdateTime := now' |>
               <| fc_receiveWindow := u64 (fc_bytesRead c + fc_receiveWindowIncrement c) |> in
    ((true, newWindowIncrement, fc_receiveWindow c), c)
  else ((false, fc_receiveWindowIncrement c, fc_receiveWindow c), c).

Definition EnsureMinimumWindowIncrement (c : flowController) (inc : ByteCount) : flowController :=
  if fc_receiveWindowIncrement c <? inc then
    c <| fc_receiveWindowIncrement := MinByteCount inc (fc_maxReceiveWindowIncrement c) |>
      <| fc_lastWindowUpdateTime := zeroTime |>
  else c.

Definition CheckFlowControlViolation (c : flowController) : bool :=
  fc_receiveWindow c <? fc_highestReceived c.

(** ** flow_control_manager.go *)

Record flowControlManager := mkFlowControlManager {
  fcm_connectionParameters : connectionParametersManager;
  fcm_rttStats : RTTStats;
  fcm_remoteRTTs : gmap PathID Duration;
  fcm_streamFlowController : gmap StreamID flowController;
  fcm_connFlowController : flowController
}.

#[global] Instance eta_flowControlManager : Eta flowControlManager := fun f =>
  mkFlowControlManager (fcm_connectionParameters f) (fcm_rttStats f) (fcm_remoteRTTs f)
    (fcm_streamFlowController f) (fcm_connFlowController f).

Record WindowUpdate := mkWindowUpdate { wup_StreamID : StreamID; wup_Offset : ByteCount }.

Definition errMapAccess : error := errors_New "Error accessing the flowController map.".

Definition NewFlowControlManager (cp : connectionParametersManager) (rttStats : RTTStats)
    (remoteRTTs : gmap PathID Duration) : flowControlManager :=
  mkFlowControlManager cp rttStats remoteRTTs ∅ (newFlowController 0 false cp).

Abbreviation FC := (GoM flowControlManager).

Definition NewStream (streamID : StreamID) (contributesToConnection : bool) : FC unit :=
  modifyS (fun f =>
    match fcm_streamFlowController f !! streamID with
    | Some _ => f
    | None =>
        f <| fcm_streamFlowController :=
          <[streamID := newFlowController streamID contributesToConnection (fcm_connectionParameters f)]>
            (fcm_streamFlowController f) |>
    end).

Definition RemoveStream (streamID : StreamID) : FC unit :=
  modifyS (fun f => f <| fcm_streamFlowController := delete streamID (fcm_streamFlowController f) |>).

Definition getFlowController (streamID : StreamID) : FC flowController := fun f =>
  match fcm_streamFlowController f !! streamID with
  | None => (Err errMapAccess, f)
  | Some c => (Ok c, f)
  end.

(** The assignments through the pointers to a stream's and the connection's
    controller. *)
Definition store_stream (streamID : StreamID) (c : flowController) : FC unit :=
  modifyS (fun f => f <| fcm_streamFlowController := <[streamID := c]> (fcm_streamFlowController f) |>).
Definition store_conn (c : flowController) : FC unit :=
  modifyS (fun f => f <| fcm_connFlowController := c |>).

(** The end of [ResetStream] and [UpdateHighestReceived]: the checks after the
    stream's offset was raised by [increment]. *)
Definition check_received (streamID : StreamID) (byteOffset : ByteCount) (c : flowController)
    (increment : ByteCount) : FC unit :=
  if CheckFlowControlViolation c
  then fail (qerr_Error FlowControlReceivedTooMuchData
         "Received %d bytes on stream %d, allowed %d bytes"
         [byteOffset; streamID; fc_receiveWindow c])
  else if ContributesToConnection c then
    f ← getS;
    let conn := IncrementHighestReceived (fcm_connFlowController f) increment in
    store_conn conn;;
    if CheckFlowControlViolation conn
    then fail (qerr_Error FlowControlReceivedTooMuchData
           "Received %d bytes for the connection, allowed %d bytes"
           [fc_highestReceived conn; fc_receiveWindow conn])
    else mret tt
  else mret tt.

Definition ResetStream (streamID : StreamID) (byteOffset : ByteCount) : FC unit :=
  c ← getFlowController streamID;
  match fc_UpdateHighestReceived c byteOffset with
  | (Ok increment, c) => store_stream streamID c;; check_received streamID byteOffset c increment
  | _ => fail (qerr_Code StreamDataAfterTermination)
  end.

Definition UpdateHighestReceived (streamID : StreamID) (byteOffset : ByteCount) : FC unit :=
  c ← getFlowController streamID;
  let '(o, c) := fc_UpdateHighestReceived c byteOffset in
  let increment := match o with Ok i => i | _ => 0 end in
  store_stream streamID c;; check_received streamID byteOffset c increment.

(** The stream's and the connection's controller each read the clock. *)
Definition AddBytesRead (streamID : StreamID) (n : ByteCount) (now now' : Time) : FC unit :=
  c ← getFlowController streamID;
  store_stream streamID (fc_AddBytesRead c n now);;
  if ContributesToConnection c
  then f ← getS; store_conn (fc_AddBytesRead (fcm_connFlowController f) n now')
  else mret tt.

(** The window updates of the streams, in the order in which Go ranges over the
    map; each stream comes with the two clock readings of its [MaybeUpdateWindow]. *)
Fixpoint stream_updates (order : list (StreamID * (Time * Time))) (force : bool)
    : FC (list WindowUpdate) :=
  match order with
  | [] => mret []
  | (id, (now, now')) :: order =>
      f ← getS;
      match fcm_streamFlowController f !! id with
      | None => stream_updates order force
      | Some c =>
          let '((necessary, newIncrement, offset), c) :=
            MaybeUpdateWindow c (fcm_rttStats f) (fcm_remoteRTTs f) now now' in
          store_stream id c;;
          if force || necessary then
            (if ContributesToConnection c && negb (newIncrement =? 0)
             then f ← getS;
                  store_conn (EnsureMinimumWindowIncrement (fcm_connFlowController f)
                    (float_to_u64 (f64_mul (f64_of_Z newIncrement) ConnectionFlowControlMultiplier)))
             else mret tt);;
            res ← stream_updates order force;
            mret (mkWindowUpdate id offset :: res)
          else stream_updates order force
      end
  end.

Definition GetWindowUpdates (order : list (StreamID * (Time * Time))) (force : bool)
    (now now' : Time) : FC (list WindowUpdate) :=
  res ← stream_updates order force;
  f ← getS;
  let '((necessary, _, offset), conn) :=
    MaybeUpdateWindow (fcm_connFlowController f) (fcm_rttStats f) (fcm_remoteRTTs f) now now' in
  store_conn conn;;
  mret (if force || necessary then res ++ [mkWindowUpdate 0 offset] else res).

Definition GetReceiveWindow (streamID : StreamID) : FC ByteCount :=
  if streamID =? 0 then f ← getS; mret (fc_receiveWindow (fcm_connFlowController f))
  else c ← getFlowController streamID; mret (fc_receiveWindow c).

Definition AddBytesSent (streamID : StreamID) (n : ByteCount) : FC unit :=
  c ← getFlowController streamID;
  store_stream streamID (fc_AddBytesSent c n);;
  if ContributesToConnection c
  then f ← getS; store_conn (fc_AddBytesSent (fcm_connFlowController f) n)
  else mret tt.

Definition GetBytesSent (streamID : StreamID) : FC ByteCount :=
  c ← getFlowController streamID; mret (fc_GetBytesSent c).

Definition AddBytesRetrans (streamID : StreamID) (n : ByteCount) : FC unit :=
  c ← getFlowController streamID;
  store_stream streamID (fc_AddBytesRetrans c n);;
  if ContributesToConnection c
  then f ← getS; store_conn (fc_AddBytesRetrans (fcm_connFlowController f) n)
  else mret tt.

Definition GetBytesRetrans (streamID : StreamID) : FC ByteCount :=
  c ← getFlowController streamID; mret (fc_GetBytesRetrans c).

Definition SendWindowSize (streamID : StreamID) : FC ByteCount :=
  c ← getFlowController streamID;
  f ← getS;
  let res := fc_SendWindowSize (fcm_connectionParameters f) c in
  mret (if ContributesToConnection c
        then MinByteCount res (fc_SendWindowSize (fcm_connectionParameters f) (fcm_connFlowController f))
        else res).

Definition RemainingConnectionWindowSize : FC ByteCount :=
  f ← getS; mret (fc_SendWindowSize (fcm_connectionParameters f) (fcm_connFlowController f)).

Definition UpdateWindow (streamID : StreamID) (offset : ByteCount) : FC bool :=
  if streamID =? 0 then
    f ← getS;
    let '(b, c) := UpdateSendWindow (fcm_connFlowController f) offset in
    store_conn c;; mret b
  else
    c ← getFlowController streamID;
    let '(b, c) := UpdateSendWindow c offset in
    store_stream streamID c;; mret b.

(** ** Receiving: windows grow and every controller stays within its window *)

(** A controller whose reader has read no more than was received, and whose
    sender stayed in the window; the bounds keep the 64-bit sums exact. *)
Record ctrl_ok (c : flowController) : Prop := {
  ok_read : 0 <= fc_bytesRead c <= fc_highestReceived c;
  ok_window : fc_highestReceived c <= fc_receiveWindow c <= 2 ^ 62 + 2 ^ 61;
  ok_bound : fc_bytesRead c <= 2 ^ 62;
  ok_increment : 0 <= fc_receiveWindowIncrement c <= fc_maxReceiveWindowIncrement c;
  ok_max : fc_maxReceiveWindowIncrement c <= 2 ^ 61
}.

(** What window updates leave alone; the receive window does not shrink. *)
Record grown (c c' : flowController) : Prop := {
  gr_id : fc_streamID c' = fc_streamID c;
  gr_contributes : fc_contributesToConnection c' = fc_contributesToConnection c;
  gr_sent : fc_bytesSent c' = fc_bytesSent c;
  gr_sendWindow : fc_sendWindow c' = fc_sendWindow c;
  gr_read : fc_bytesRead c' = fc_bytesRead c;
  gr_received : fc_highestReceived c' = fc_highestReceived c;
  gr_window : fc_receiveWindow c <= fc_receiveWindow c'
}.

#[global] Instance grown_preorder : PreOrder grown.
Proof.
  split; [intros c; by split|]. intros c1 c2 c3 [] []. split; by (congruence || lia).
Qed.

Lemma maybeAdjust_ok c rtt remote now :
  ctrl_ok c ->
  let c' := maybeAdjustWindowIncrement c rtt remote now in
  ctrl_ok c' /\ grown c c' /\ fc_receiveWindow c' = fc_receiveWindow c /\
  fc_receiveWindowIncrement c <= fc_receiveWindowIncrement c'.
Proof.
  intros Hok. unfold maybeAdjustWindowIncrement.
  destruct (Time_IsZero _); [by split_and!|]. destruct (_ =? _); [by split_and!|].
  destruct (_ <=? _); [by split_and!|].
  destruct Hok. rewrite MinByteCount_min, u64_small by lia.
  split_and!; try split; fields; cbn; by (done || lia).
Qed.

Lemma MaybeUpdateWindow_ok c rtt remote now now' :
  ctrl_ok c ->
  let c' := snd (MaybeUpdateWindow c rtt remote now now') in ctrl_ok c' /\ grown c c'.
Proof.
  intros Hok. unfold MaybeUpdateWindow.
  destruct (Z.ltb_spec (u64 (fc_receiveWindow c - fc_bytesRead c)) (fc_receiveWindowIncrement c / 2))
    as [Hlt|]; [|done].
  destruct (maybeAdjust_ok c rtt remote now Hok) as ([] & [] & Hw & Hi).
  set (c1 := maybeAdjustWindowIncrement c rtt remote now) in *. destruct Hok.
  rewrite u64_small in Hlt by lia.
  assert (fc_receiveWindow c <= fc_bytesRead c1 + fc_receiveWindowIncrement c1)
    by (Z.to_euclidean_division_equations; lia).
  rewrite (u64_small (_ + _)) by lia.
  split; split; fields; cbn; by (congruence || lia).
Qed.

Lemma EnsureMinimum_ok c inc :
  ctrl_ok c -> let c' := EnsureMinimumWindowIncrement c inc in ctrl_ok c' /\ grown c c'.
Proof.
  intros Hok. unfold EnsureMinimumWindowIncrement. destruct (Z.ltb_spec (fc_receiveWindowIncrement c) inc); [|done].
  destruct Hok. rewrite MinByteCount_min. split; split; fields; cbn; by (done || lia).
Qed.

(** The same of a whole manager. *)
Definition all_ok (f : flowControlManager) : Prop :=
  map_Forall (fun _ c => ctrl_ok c) (fcm_streamFlowController f) /\ ctrl_ok (fcm_connFlowController f).

Record manager_grown (f f' : flowControlManager) : Prop := {
  mg_params : fcm_connectionParameters f' = fcm_connectionParameters f;
  mg_streams : forall id, option_Forall2 grown (fcm_streamFlowController f !! id)
    (fcm_streamFlowController f' !! id);
  mg_conn : grown (fcm_connFlowController f) (fcm_connFlowController f')
}.

#[global] Instance manager_grown_preorder : PreOrder manager_grown.
Proof.
  split.
  - intros f. split; [done|intros id; reflexivity|reflexivity].
  - intros f1 f2 f3 [E1 S1 C1] [E2 S2 C2]. split; [congruence| |by etrans].
    intros id. etrans; [apply S1|apply S2].
Qed.

Lemma store_stream_grown f id c c' :
  all_ok f -> fcm_streamFlowController f !! id = Some c -> ctrl_ok c' -> grown c c' ->
  exists f', store_stream id c' f = (Ok tt, f') /\ all_ok f' /\ manager_grown f f'.
Proof.
  intros [Hs Hc] E Hok Hg. eexists. split; [reflexivity|]. split.
  - split; [|done]. by apply map_Forall_insert_2.
  - split; [done| |reflexivity]. intros k. fields. cbn.
    destruct (decide (k = id)) as [->|Hne]; [rewrite E, lookup_insert_eq; by constructor|].
    rewrite lookup_insert_ne by done. reflexivity.
Qed.

Lemma store_conn_grown f c' :
  all_ok f -> ctrl_ok c' -> grown (fcm_connFlowController f) c' ->
  exists f', store_conn c' f = (Ok tt, f') /\ all_ok f' /\ manager_grown f f'.
Proof.
  intros [Hs Hc] Hok Hg. eexists. split; [reflexivity|]. split; [by split|].
  split; [done|intros k; reflexivity|done].
Qed.

Lemma stream_updates_grown order force f :
  all_ok f ->
  exists res f', stream_updates order force f = (Ok res, f') /\ all_ok f' /\ manager_grown f f'.
Proof.
  revert f. induction order as [|[id [now now']] order IH]; intros f Hf.
  { exists [], f. split; [done|]. split; [done|reflexivity]. }
  cbn [stream_updates]. erewrite run_bind_ok by reflexivity.
  destruct (fcm_streamFlowController f !! id) as [c|] eqn:E; [|by apply IH].
  destruct (MaybeUpdateWindow_ok c (fcm_rttStats f) (fcm_remoteRTTs f) now now') as [Hc Hg].
  { by apply (proj1 Hf id). }
  destruct (MaybeUpdateWindow _ _ _ _ _) as [[[necessary inc] offset] c']. cbn [snd] in *.
  destruct (store_stream_grown f id c c') as (f1 & E1 & H1 & G1); [done..|].
  erewrite run_bind_ok by exact E1.
  destruct (force || necessary).
  2: { destruct (IH f1 H1) as (res & f2 & -> & H2 & G2). exists res, f2. split_and!; [done..|by etrans]. }
  assert (exists f2, (if ContributesToConnection c' && negb (inc =? 0)
    then f ← getS; store_conn (EnsureMinimumWindowIncrement (fcm_connFlowController f)
      (float_to_u64 (f64_mul (f64_of_Z inc) ConnectionFlowControlMultiplier)))
    else mret tt) f1 = (Ok tt, f2) /\ all_ok f2 /\ manager_grown f1 f2) as (f2 & E2 & H2 & G2).
  { destruct (_ && _); [|exists f1; split_and!; [done..|reflexivity]].
    erewrite run_bind_ok by reflexivity. destruct (EnsureMinimum_ok (fcm_connFlowController f1)
      (float_to_u64 (f64_mul (f64_of_Z inc) ConnectionFlowControlMultiplier)) (proj2 H1)).
    by apply store_conn_grown. }
  erewrite run_bind_ok by exact E2. destruct (IH f2 H2) as (res & f3 & E3 & H3 & G3).
  erewrite run_bind_ok by exact E3. eexists _, f3. split_and!; [done..|].
  etrans; [exact G1|]. by etrans.
Qed.

Lemma GetWindowUpdates_grown order force now now' f :
  all_ok f ->
  exists res f', GetWindowUpdates order force now now' f = (Ok res, f') /\ all_ok f' /\
    manager_grown f f'.
Proof.
  intros Hf. destruct (stream_updates_grown order force f Hf) as (res & f1 & E1 & H1 & G1).
  unfold GetWindowUpdates. erewrite run_bind_ok by exact E1. erewrite run_bind_ok by reflexivity.
  destruct (MaybeUpdateWindow_ok (fcm_connFlowController f1) (fcm_rttStats f1) (fcm_remoteRTTs f1)
    now now' (proj2 H1)) as [Hc Hg].
  destruct (MaybeUpdateWindow _ _ _ _ _) as [[[necessary inc] offset] c']. cbn [snd] in *.
  destruct (store_conn_grown f1 c') as (f2 & E2 & H2 & G2); [done..|].
  erewrite run_bind_ok by exact E2. eexists _, f2. split_and!; [done..|by etrans].
Qed.

(** ** The connection's counters are the sums of the streams' *)

(** What the streams that count for the connection add up to. *)
Definition counted_by (g : flowController -> Z) (c : flowController) : Z :=
  if fc_contributesToConnection c then g c else 0.
Definition total (g : flowController -> Z) (m : gmap StreamID flowController) : Z :=
  map_fold (fun _ x acc => x + acc) 0 (counted_by g <$> m).

Lemma total_insert g m id c : m !! id = None -> total g (<[id := c]> m) = counted_by g c + total g m.
Proof.
  intros E. unfold total. rewrite fmap_insert, map_fold_insert_L; [done|intros; lia|].
  by rewrite lookup_fmap, E.
Qed.

Lemma total_delete g m id c : m !! id = Some c -> total g m = counted_by g c + total g (delete id m).
Proof.
  intros E. rewrite <- (insert_delete_id m id c) at 1 by done. apply total_insert, lookup_delete_eq.
Qed.

Lemma total_update g m id c c' :
  m !! id = Some c -> total g (<[id := c']> m) = total g m - counted_by g c + counted_by g c'.
Proof.
  intros E. rewrite (total_delete g m id c E), <- insert_delete_eq, total_insert by apply lookup_delete_eq.
  lia.
Qed.

Lemma total_le g h m :
  map_Forall (fun _ c => g c <= h c) m -> total g m <= total h m.
Proof.
  induction m as [|id c m E IH] using map_ind; [done|]. intros H.
  apply map_Forall_insert in H as [Hc Hm]; [|done]. rewrite !total_insert by done.
  specialize (IH Hm). unfold counted_by. destruct (fc_contributesToConnection c); lia.
Qed.

Lemma total_grown g f f' :
  manager_grown f f' -> (forall c c', grown c c' -> g c' = g c) ->
  total g (fcm_streamFlowController f') = total g (fcm_streamFlowController f).
Proof.
  intros [_ Hs _] Hg. unfold total. f_equal. apply map_eq. intros id. rewrite !lookup_fmap.
  destruct (Hs id) as [c c' H|]; [|done]. cbn. f_equal. unfold counted_by.
  rewrite (gr_contributes _ _ H). by rewrite (Hg _ _ H).
Qed.

(** ** Data that arrives *)

Definition raised (c : flowController) (off : ByteCount) : flowController :=
  c <| fc_highestReceived := Z.max (fc_highestReceived c) off |>.

(** How far a frame that ends at [off] raises the stream's offset. *)
Definition raise (c : flowController) (off : ByteCount) : ByteCount :=
  Z.max (fc_highestReceived c) off - fc_highestReceived c.

Lemma fc_UpdateHighestReceived_spec c off :
  fc_UpdateHighestReceived c off =
    (if off <? fc_highestReceived c then Err ErrReceivedSmallerByteOffset else Ok (raise c off),
     raised c off).
Proof.
  unfold fc_UpdateHighestReceived, raise, raised. destruct c as [? ? ? ? ? ? ? h ? ? ?].
  fields. cbn. cases_bool; try lia; repeat f_equal; lia.
Qed.

(** The manager after accepted data. *)
Definition accepted (f : flowControlManager) (id : StreamID) (c : flowController) (off : ByteCount)
    : flowControlManager :=
  let f' := f <| fcm_streamFlowController := <[id := raised c off]> (fcm_streamFlowController f) |> in
  if fc_contributesToConnection c
  then f' <| fcm_connFlowController :=
         (fcm_connFlowController f) <| fc_highestReceived :=
           fc_highestReceived (fcm_connFlowController f) + raise c off |> |>
  else f'.

(** Whether the data fits in the window of the stream and of the connection. *)
Definition fits (f : flowControlManager) (c : flowController) (off : ByteCount) : bool :=
  (Z.max (fc_highestReceived c) off <=? fc_receiveWindow c) &&
  (negb (fc_contributesToConnection c) ||
   (fc_highestReceived (fcm_connFlowController f) + raise c off
      <=? fc_receiveWindow (fcm_connFlowController f))).

Definition violation {A} (o : outcome A) : bool :=
  match o with Err (qerr_Error code _ _) => code =? FlowControlReceivedTooMuchData | _ => false end.

Lemma received_result f id c off :
  all_ok f -> fcm_streamFlowController f !! id = Some c -> 0 <= off ->
  let r := (store_stream id (raised c off);; check_received id off (raised c off) (raise c off)) f in
  if fits f c off then r = (Ok tt, accepted f id c off) else violation (fst r) = true.
Proof.
  intros [Hs Hc] E Hoff. pose proof (Hs id c E) as Hok.
  erewrite run_bind_ok by reflexivity.
  unfold check_received, fits, accepted, CheckFlowControlViolation, ContributesToConnection.
  change (fc_receiveWindow (raised c off)) with (fc_receiveWindow c).
  change (fc_contributesToConnection (raised c off)) with (fc_contributesToConnection c).
  change (fc_highestReceived (raised c off)) with (Z.max (fc_highestReceived c) off).
  rewrite Z.leb_antisym. destruct (Z.ltb_spec (fc_receiveWindow c) (Z.max (fc_highestReceived c) off)) as [|Hw];
    [done|]. cbn [negb andb].
  destruct (fc_contributesToConnection c); [|done]. cbn [negb orb].
  erewrite run_bind_ok by reflexivity. erewrite run_bind_ok by reflexivity.
  unfold IncrementHighestReceived. cbn [fcm_connFlowController].
  change (fcm_connFlowController (f <| fcm_streamFlowController := _ |>)) with (fcm_connFlowController f).
  destruct Hok, Hc. rewrite u64_small by (unfold raise; lia).
  set (conn := fcm_connFlowController f) in *.
  change (fc_highestReceived (conn <| fc_highestReceived := ?x |>)) with x.
  change (fc_receiveWindow (conn <| fc_highestReceived := ?x |>)) with (fc_receiveWindow conn).
  rewrite Z.leb_antisym. by destruct (_ <? _).
Qed.

Lemma UpdateHighestReceived_result f id c off :
  all_ok f -> fcm_streamFlowController f !! id = Some c -> 0 <= off ->
  if fits f c off then UpdateHighestReceived id off f = (Ok tt, accepted f id c off)
  else violation (fst (UpdateHighestReceived id off f)) = true.
Proof.
  intros Hf E Hoff. pose proof (received_result f id c off Hf E Hoff) as H. cbn zeta in H.
  assert (UpdateHighestReceived id off f =
    (store_stream id (raised c off);; check_received id off (raised c off) (raise c off)) f) as ->; [|done].
  unfold UpdateHighestReceived. erewrite run_bind_ok by (unfold getFlowController; by rewrite E).
  cbn beta. rewrite fc_UpdateHighestReceived_spec.
  destruct (Z.ltb_spec off (fc_highestReceived c)); [|done].
  replace (raise c off) with 0 by (unfold raise; lia). done.
Qed.

Lemma ResetStream_result f id c off :
  all_ok f -> fcm_streamFlowController f !! id = Some c -> 0 <= off ->
  if off <? fc_highestReceived c then ResetStream id off f = (Err (qerr_Code StreamDataAfterTermination), f)
  else if fits f c off then ResetStream id off f = (Ok tt, accepted f id c off)
  else violation (fst (ResetStream id off f)) = true.
Proof.
  intros Hf E Hoff. pose proof (received_result f id c off Hf E Hoff) as H. cbn zeta in H.
  unfold ResetStream. erewrite !run_bind_ok by (unfold getFlowController; by rewrite E).
  cbn beta. rewrite fc_UpdateHighestReceived_spec. by destruct (off <? fc_highestReceived c).
Qed.

(** ** Runs of the manager *)

Inductive fc_op :=
  | OpNew (id : StreamID) (contributes : bool)
  | OpRemove (id : StreamID)
  | OpReceive (id : StreamID) (off : ByteCount)
  | OpReset (id : StreamID) (off : ByteCount)
  | OpRead (id : StreamID) (n : ByteCount) (now now' : Time)
  | OpUpdates (order : list (StreamID * (Time * Time))) (force : bool) (now now' : Time)
  | OpSend (id : StreamID) (n : ByteCount)
  | OpRetrans (id : StreamID) (n : ByteCount)
  | OpWindow (id : StreamID) (off : ByteCount)
  | OpMeasure (rtt : RTTStats) (remote : gmap PathID Duration).

(** The last operation is the session's: it changes the shared measurements. *)
Definition fc_exec (op : fc_op) : FC unit :=
  match op with
  | OpNew id contributes => NewStream id contributes
  | OpRemove id => RemoveStream id
  | OpReceive id off => UpdateHighestReceived id off
  | OpReset id off => ResetStream id off
  | OpRead id n now now' => AddBytesRead id n now now'
  | OpUpdates order force now now' => GetWindowUpdates order force now now';; mret tt
  | OpSend id n => AddBytesSent id n
  | OpRetrans id n => AddBytesRetrans id n
  | OpWindow id off => UpdateWindow id off;; mret tt
  | OpMeasure rtt remote => modifyS (fun f => f <| fcm_rttStats := rtt |> <| fcm_remoteRTTs := remote |>)
  end.

(** What a removed stream had contributed to a counter of the connection. *)
Definition removed_by (g : flowController -> Z) (op : fc_op) (f : flowControlManager) : Z :=
  match op with
  | OpRemove id => from_option (counted_by g) 0 (fcm_streamFlowController f !! id)
  | _ => 0
  end.

(** The session closes the connection on a violation, which ends the run; other
    errors do not.  The run remembers what the removed streams had received and
    read. *)
Record fc_run := mkRun {
  run_f : flowControlManager;
  run_received : Z;
  run_read : Z;
  run_closed : bool
}.

Definition fc_step (r : fc_run) (op : fc_op) : fc_run :=
  if run_closed r then r
  else
    let f := run_f r in
    let '(o, f') := fc_exec op f in
    mkRun f' (run_received r + removed_by fc_highestReceived op f)
      (run_read r + removed_by fc_bytesRead op f) (violation o).

Definition fc_start (cp : connectionParametersManager) (rtt : RTTStats)
    (remote : gmap PathID Duration) : fc_run :=
  mkRun (NewFlowControlManager cp rtt remote) 0 0 false.

(** A condition on each operation in the state it is executed in. *)
Fixpoint along (P : fc_op -> flowControlManager -> Prop) (ops : list fc_op) (r : fc_run) : Prop :=
  match ops with
  | [] => True
  | op :: ops => P op (run_f r) /\ along P ops (fc_step r op)
  end.

Lemma along_app P ops ops' r :
  along P (ops ++ ops') r <-> along P ops r /\ along P ops' (foldl fc_step r ops).
Proof. revert r. induction ops as [|op ops IH]; intros r; cbn; [tauto|]. rewrite IH. tauto. Qed.

(** The application reads what was received; 2^62 bytes are never read. *)
Definition recv_ok (op : fc_op) (f : flowControlManager) : Prop :=
  match op with
  | OpReceive _ off | OpReset _ off => 0 <= off
  | OpRead id n _ _ => 0 <= n /\ forall c, fcm_streamFlowController f !! id = Some c ->
      fc_bytesRead c + n <= Z.min (fc_highestReceived c) (2 ^ 62) /\
      (fc_contributesToConnection c = true -> fc_bytesRead (fcm_connFlowController f) + n <= 2 ^ 62)
  | _ => True
  end.

(** Configured windows: the initial ones do not exceed the maximal ones. *)
Record windows_ok (cp : connectionParametersManager) : Prop := {
  wo_stream : 0 <= cpm_receiveStreamFlowControlWindow cp <= cpm_maxReceiveStreamFlowControlWindow cp;
  wo_conn : 0 <= cpm_receiveConnectionFlowControlWindow cp <= cpm_maxReceiveConnectionFlowControlWindow cp;
  wo_max_stream : cpm_maxReceiveStreamFlowControlWindow cp <= 2 ^ 61;
  wo_max_conn : cpm_maxReceiveConnectionFlowControlWindow cp <= 2 ^ 61
}.

Lemma newFlowController_ok id b cp : windows_ok cp -> ctrl_ok (newFlowController id b cp).
Proof.
  intros []. unfold newFlowController, GetReceiveConnectionFlowControlWindow,
    GetMaxReceiveConnectionFlowControlWindow, GetReceiveStreamFlowControlWindow,
    GetMaxReceiveStreamFlowControlWindow.
  destruct (id =? 0); split; cbn [fc_bytesRead fc_highestReceived fc_receiveWindow
    fc_receiveWindowIncrement fc_maxReceiveWindowIncrement]; lia.
Qed.

(** The connection's counter beyond what the live streams contribute. *)
Definition slack (g : flowController -> Z) (f : flowControlManager) : Z :=
  g (fcm_connFlowController f) - total g (fcm_streamFlowController f).

(** The receive windows of the connection and of the streams that remain. *)
Definition windows_grow (f f' : flowControlManager) : Prop :=
  fc_receiveWindow (fcm_connFlowController f) <= fc_receiveWindow (fcm_connFlowController f') /\
  forall id c c', fcm_streamFlowController f !! id = Some c ->
    fcm_streamFlowController f' !! id = Some c' -> fc_receiveWindow c <= fc_receiveWindow c'.

(** One operation that is not a violation, for the receiving side. *)
Record recv_step (op : fc_op) (f f' : flowControlManager) : Prop := {
  rs_params : fcm_connectionParameters f' = fcm_connectionParameters f;
  rs_ok : all_ok f';
  rs_received : slack fc_highestReceived f' = slack fc_highestReceived f + removed_by fc_highestReceived op f;
  rs_bytesRead : slack fc_bytesRead f' = slack fc_bytesRead f + removed_by fc_bytesRead op f;
  rs_windows : windows_grow f f'
}.

Lemma windows_grow_refl f : windows_grow f f.
Proof. split; [done|]. intros id c c' E E'. by simplify_eq. Qed.

Lemma recv_step_same op f :
  all_ok f -> (forall g, removed_by g op f = 0) -> recv_step op f f.
Proof. intros H E. split; rewrite ?E, ?Z.add_0_r; [done..|apply windows_grow_refl]. Qed.

(** Compute the fields of updated controllers and managers, and nothing else. *)
Ltac fc_fields :=
  fields;
  cbn [fc_streamID fc_contributesToConnection fc_bytesSent fc_sendWindow fc_bytesRetrans
    fc_lastWindowUpdateTime fc_bytesRead fc_highestReceived fc_receiveWindow
    fc_receiveWindowIncrement fc_maxReceiveWindowIncrement fcm_connectionParameters fcm_rttStats
    fcm_remoteRTTs fcm_streamFlowController fcm_connFlowController] in *.

(** The operations on a stream replace its controller and the connection's. *)
Definition updated (f : flowControlManager) (id : StreamID) (c conn : flowController)
    : flowControlManager :=
  f <| fcm_streamFlowController := <[id := c]> (fcm_streamFlowController f) |>
    <| fcm_connFlowController := conn |>.

Lemma slack_updated g f id c c' conn :
  fcm_streamFlowController f !! id = Some c ->
  slack g (updated f id c' conn)
    = slack g f + (g conn - g (fcm_connFlowController f)) - (counted_by g c' - counted_by g c).
Proof.
  intros E. unfold slack, updated. fc_fields. rewrite (total_update g _ _ c) by done. lia.
Qed.

Lemma windows_grow_updated f id c c' conn :
  fcm_streamFlowController f !! id = Some c ->
  fc_receiveWindow c' = fc_receiveWindow c ->
  fc_receiveWindow conn = fc_receiveWindow (fcm_connFlowController f) ->
  windows_grow f (updated f id c' conn).
Proof.
  intros E Hw Hc. split; [by rewrite <- Hc|]. intros k d d' Ed. unfold updated. fc_fields.
  destruct (decide (k = id)) as [->|Hne]; [rewrite lookup_insert_eq|rewrite lookup_insert_ne by done];
    intros; simplify_eq; lia.
Qed.

(** The connection's counter [g] moves with the stream's. *)
Definition moves_with (g : flowController -> Z) (c c' conn conn' : flowController) : Prop :=
  g conn' = g conn + (if fc_contributesToConnection c then g c' - g c else 0).

Lemma recv_step_updated op f id c c' conn :
  all_ok f -> fcm_streamFlowController f !! id = Some c -> (forall g, removed_by g op f = 0) ->
  ctrl_ok c' -> ctrl_ok conn ->
  fc_contributesToConnection c' = fc_contributesToConnection c ->
  fc_receiveWindow c' = fc_receiveWindow c ->
  fc_receiveWindow conn = fc_receiveWindow (fcm_connFlowController f) ->
  moves_with fc_highestReceived c c' (fcm_connFlowController f) conn ->
  moves_with fc_bytesRead c c' (fcm_connFlowController f) conn ->
  recv_step op f (updated f id c' conn).
Proof.
  intros [Hs _] E Er Hc' Hconn Eb Hw Hcw Hh Hr. unfold moves_with in *.
  split; [done| | | |by eapply windows_grow_updated].
  - split; [by apply map_Forall_insert_2|done].
  - rewrite Er, (slack_updated _ _ _ c) by done. unfold counted_by. rewrite Eb.
    destruct (fc_contributesToConnection c); lia.
  - rewrite Er, (slack_updated _ _ _ c) by done. unfold counted_by. rewrite Eb.
    destruct (fc_contributesToConnection c); lia.
Qed.

Lemma accepted_updated f id c off :
  accepted f id c off = updated f id (raised c off)
    (if fc_contributesToConnection c
     then (fcm_connFlowController f) <| fc_highestReceived :=
            fc_highestReceived (fcm_connFlowController f) + raise c off |>
     else fcm_connFlowController f).
Proof. unfold accepted, updated. by destruct (fc_contributesToConnection c). Qed.

Lemma recv_step_accepted op f id c off :
  all_ok f -> fcm_streamFlowController f !! id = Some c -> fits f c off = true ->
  (forall g, removed_by g op f = 0) -> recv_step op f (accepted f id c off).
Proof.
  intros Hf E Hfits Er. pose proof (proj1 Hf id c E) as []. pose proof (proj2 Hf) as Hc.
  unfold fits in Hfits. apply andb_prop in Hfits as [Hw%Z.leb_le Hcw].
  rewrite accepted_updated. unfold raise in *.
  eapply recv_step_updated; [done..| | | | | | |].
  - unfold raised. split; fc_fields; lia.
  - destruct (fc_contributesToConnection c); [|done]. cbn [negb orb] in Hcw. apply Z.leb_le in Hcw.
    destruct Hc. split; fc_fields; lia.
  - done.
  - done.
  - by destruct (fc_contributesToConnection c).
  - unfold moves_with, raised. destruct (fc_contributesToConnection c); fc_fields; lia.
  - unfold moves_with, raised. destruct (fc_contributesToConnection c); fc_fields; lia.
Qed.

(** The shape of [AddBytesRead], [AddBytesSent] and [AddBytesRetrans]. *)
Definition stream_op (id : StreamID) (k k' : flowController -> flowController) : FC unit :=
  c ← getFlowController id;
  store_stream id (k c);;
  if ContributesToConnection c then f ← getS; store_conn (k' (fcm_connFlowController f)) else mret tt.

Lemma stream_op_result id k k' f :
  stream_op id k k' f =
    match fcm_streamFlowController f !! id with
    | None => (Err errMapAccess, f)
    | Some c => (Ok tt, updated f id (k c)
        (if fc_contributesToConnection c then k' (fcm_connFlowController f) else fcm_connFlowController f))
    end.
Proof.
  unfold stream_op, getFlowController, ContributesToConnection, updated. run.
  destruct (fcm_streamFlowController f !! id) as [c|]; [|done].
  by destruct (fc_contributesToConnection c), f.
Qed.

Lemma recv_step_read f id n now now' c :
  all_ok f -> slack fc_bytesRead f <= slack fc_highestReceived f ->
  fcm_streamFlowController f !! id = Some c -> recv_ok (OpRead id n now now') f ->
  recv_step (OpRead id n now now') f (updated f id (fc_AddBytesRead c n now)
    (if fc_contributesToConnection c then fc_AddBytesRead (fcm_connFlowController f) n now'
     else fcm_connFlowController f)).
Proof.
  intros Hf Hsl E [Hn Hrd]. destruct (Hrd c E) as [Hc Hconn]. clear Hrd.
  assert (Hadd : forall d t, 0 <= fc_bytesRead d -> fc_bytesRead d + n <= 2 ^ 62 ->
    fc_AddBytesRead d n t = (if fc_bytesRead d =? 0 then d <| fc_lastWindowUpdateTime := t |> else d)
      <| fc_bytesRead := fc_bytesRead d + n |>).
  { intros d t H0 H1. unfold fc_AddBytesRead. destruct (_ =? _); fc_fields; by rewrite u64_small by lia. }
  pose proof (proj1 Hf id c E) as Hok. pose proof (proj2 Hf) as Hok'.
  (* the connection's reader stays behind the connection's sender *)
  assert (Hb : fc_contributesToConnection c = true ->
    fc_bytesRead (fcm_connFlowController f) + n <= fc_highestReceived (fcm_connFlowController f)).
  { intros Eb. unfold slack in Hsl.
    assert (Ht : total fc_bytesRead (delete id (fcm_streamFlowController f))
      <= total fc_highestReceived (delete id (fcm_streamFlowController f))).
    { apply total_le, map_Forall_delete. apply (map_Forall_impl _ _ _ (proj1 Hf)). intros _ d []. lia. }
    rewrite (total_delete fc_bytesRead _ _ c E), (total_delete fc_highestReceived _ _ c E) in Hsl.
    unfold counted_by in Hsl. rewrite Eb in Hsl.
    lia. }
  destruct Hok, Hok'. rewrite (Hadd c) by lia.
  destruct (fc_contributesToConnection c) eqn:Eb.
  - specialize (Hb eq_refl). specialize (Hconn eq_refl). rewrite (Hadd (fcm_connFlowController f)) by lia.
    eapply recv_step_updated; [done|exact E|done|..]; unfold moves_with; rewrite ?Eb;
      destruct (fc_bytesRead c =? 0), (fc_bytesRead (fcm_connFlowController f) =? 0);
      try split; fc_fields; by (done || lia).
  - eapply recv_step_updated; [done|exact E|done|..]; unfold moves_with; rewrite ?Eb;
      destruct (fc_bytesRead c =? 0); try split; fc_fields; by (done || lia).
Qed.

Lemma recv_step_new f id b :
  all_ok f -> windows_ok (fcm_connectionParameters f) -> fcm_streamFlowController f !! id = None ->
  recv_step (OpNew id b) f (f <| fcm_streamFlowController :=
    <[id := newFlowController id b (fcm_connectionParameters f)]> (fcm_streamFlowController f) |>).
Proof.
  intros [Hs Hc] Hw E. split; [done| | | |]; unfold slack; fc_fields; cbn [removed_by].
  - split; [apply map_Forall_insert_2; [by apply newFlowController_ok|done]|done].
  - rewrite total_insert by done. unfold counted_by, newFlowController. destruct (id =? 0), b; cbn; lia.
  - rewrite total_insert by done. unfold counted_by, newFlowController. destruct (id =? 0), b; cbn; lia.
  - split; [done|]. intros k d d' Ed. fc_fields. rewrite lookup_insert_ne by congruence.
    intros. by simplify_eq.
Qed.

Lemma recv_step_remove f id :
  all_ok f -> recv_step (OpRemove id) f
    (f <| fcm_streamFlowController := delete id (fcm_streamFlowController f) |>).
Proof.
  intros [Hs Hc].
  assert (Hsl : forall g, g (fcm_connFlowController f) - total g (delete id (fcm_streamFlowController f))
    = slack g f + removed_by g (OpRemove id) f).
  { intros g. unfold slack, removed_by. destruct (fcm_streamFlowController f !! id) as [c|] eqn:E; cbn.
    - rewrite (total_delete g _ _ c E). lia.
    - rewrite delete_id by done. lia. }
  split; [done| |apply Hsl|apply Hsl|].
  - split; [by apply map_Forall_delete|done].
  - split; [done|]. intros k d d' Ed. fc_fields. intros [_ ?]%lookup_delete_Some. by simplify_eq.
Qed.

Lemma recv_step_grown op f f' :
  all_ok f' -> manager_grown f f' -> (forall g, removed_by g op f = 0) -> recv_step op f f'.
Proof.
  intros Hok Hg Er. pose proof Hg as [Ep Hs Hc]. split; rewrite ?Er; [done|done| | |].
  - unfold slack. rewrite (total_grown _ f f' Hg) by (by intros ?? []). rewrite (gr_received _ _ Hc). lia.
  - unfold slack. rewrite (total_grown _ f f' Hg) by (by intros ?? []). rewrite (gr_read _ _ Hc). lia.
  - split; [apply Hc|]. intros id c c' E E'. specialize (Hs id). rewrite E, E' in Hs.
    inversion Hs; subst. by apply gr_window.
Qed.

Lemma UpdateWindow_result id off f :
  UpdateWindow id off f =
    if id =? 0
    then let '(b, c) := UpdateSendWindow (fcm_connFlowController f) off in
         (Ok b, f <| fcm_connFlowController := c |>)
    else match fcm_streamFlowController f !! id with
         | None => (Err errMapAccess, f)
         | Some c => let '(b, c) := UpdateSendWindow c off in
                     (Ok b, updated f id c (fcm_connFlowController f))
         end.
Proof.
  unfold UpdateWindow, getFlowController, updated. run. destruct (id =? 0).
  - by destruct (UpdateSendWindow _ _).
  - destruct (fcm_streamFlowController f !! id); [|done]. by destruct (UpdateSendWindow _ _).
Qed.

(** A change of the sending side only. *)
Lemma recv_step_sending op f id c c' conn :
  all_ok f -> fcm_streamFlowController f !! id = Some c -> (forall g, removed_by g op f = 0) ->
  (exists s w t, c' = c <| fc_bytesSent := s |> <| fc_sendWindow := w |> <| fc_bytesRetrans := t |>) ->
  (exists s w t, conn = (fcm_connFlowController f) <| fc_bytesSent := s |> <| fc_sendWindow := w |>
     <| fc_bytesRetrans := t |>) ->
  recv_step op f (updated f id c' conn).
Proof.
  intros Hf E Er (s & w & t & ->) (s' & w' & t' & ->).
  pose proof (proj1 Hf id c E) as []. destruct (proj2 Hf).
  eapply recv_step_updated; [done|exact E|done|..]; unfold moves_with; try split; fc_fields;
    try done; destruct (fc_contributesToConnection c); lia.
Qed.

Lemma recv_step_conn_sending op f conn :
  all_ok f -> (forall g, removed_by g op f = 0) ->
  (exists s w t, conn = (fcm_connFlowController f) <| fc_bytesSent := s |> <| fc_sendWindow := w |>
     <| fc_bytesRetrans := t |>) ->
  recv_step op f (f <| fcm_connFlowController := conn |>).
Proof.
  intros [Hs []] Er (s & w & t & ->). split; rewrite ?Er; [done| | | |].
  - split; [done|]. split; fc_fields; lia.
  - unfold slack. fc_fields. lia.
  - unfold slack. fc_fields. lia.
  - split; [done|]. intros id c c' E E'. fc_fields. by simplify_eq.
Qed.

Lemma sending_same (d : flowController) :
  exists s w t, d = d <| fc_bytesSent := s |> <| fc_sendWindow := w |> <| fc_bytesRetrans := t |>.
Proof. exists (fc_bytesSent d), (fc_sendWindow d), (fc_bytesRetrans d). by destruct d. Qed.

Lemma UpdateSendWindow_sending c off :
  exists s w t, snd (UpdateSendWindow c off)
    = c <| fc_bytesSent := s |> <| fc_sendWindow := w |> <| fc_bytesRetrans := t |>.
Proof.
  unfold UpdateSendWindow. destruct (_ <? _); [|apply sending_same].
  by exists (fc_bytesSent c), off, (fc_bytesRetrans c).
Qed.

Lemma recv_step_window f id off :
  all_ok f -> recv_step (OpWindow id off) f (snd (UpdateWindow id off f)).
Proof.
  intros Hf. rewrite UpdateWindow_result. destruct (id =? 0).
  - pose proof (UpdateSendWindow_sending (fcm_connFlowController f) off) as H.
    destruct (UpdateSendWindow _ _). by apply recv_step_conn_sending.
  - destruct (fcm_streamFlowController f !! id) as [c|] eqn:E; [|by apply recv_step_same].
    pose proof (UpdateSendWindow_sending c off) as H. destruct (UpdateSendWindow _ _).
    eapply recv_step_sending; [done|exact E|done|done|apply sending_same].
Qed.

Lemma recv_step_counters op f id k k' :
  all_ok f -> (forall g, removed_by g op f = 0) ->
  (forall d, exists s w t, k d = d <| fc_bytesSent := s |> <| fc_sendWindow := w |>
     <| fc_bytesRetrans := t |>) -> (forall d, k' d = k d) ->
  recv_step op f (snd (stream_op id k k' f)).
Proof.
  intros Hf Er Hk Ek. rewrite stream_op_result.
  destruct (fcm_streamFlowController f !! id) as [c|] eqn:E; [|by apply recv_step_same].
  eapply recv_step_sending; [done|exact E|done|apply Hk|]. destruct (fc_contributesToConnection c).
  - rewrite Ek. apply Hk.
  - apply sending_same.
Qed.

Lemma fc_exec_recv op f :
  all_ok f -> windows_ok (fcm_connectionParameters f) ->
  slack fc_bytesRead f <= slack fc_highestReceived f -> recv_ok op f ->
  violation (fst (fc_exec op f)) = false -> recv_step op f (snd (fc_exec op f)).
Proof.
  intros Hf Hw Hsl Hop. destruct op as [id b|id|id off|id off|id n t t'|order force t t'|id n|id n|id off|rtt remote];
    cbn [fc_exec].
  - intros _. unfold NewStream, modifyS. cbn [snd].
    destruct (fcm_streamFlowController f !! id) eqn:E; [by apply recv_step_same|by apply recv_step_new].
  - intros _. by apply recv_step_remove.
  - destruct (fcm_streamFlowController f !! id) as [c|] eqn:E.
    + pose proof (UpdateHighestReceived_result f id c off Hf E Hop) as H.
      destruct (fits f c off) eqn:Ef; [rewrite H; intros _; by apply recv_step_accepted|congruence].
    + unfold UpdateHighestReceived, getFlowController. run. rewrite E. intros _. by apply recv_step_same.
  - destruct (fcm_streamFlowController f !! id) as [c|] eqn:E.
    + pose proof (ResetStream_result f id c off Hf E Hop) as H.
      destruct (off <? _); [rewrite H; intros _; by apply recv_step_same|].
      destruct (fits f c off) eqn:Ef; [rewrite H; intros _; by apply recv_step_accepted|congruence].
    + unfold ResetStream, getFlowController. run. rewrite E. intros _. by apply recv_step_same.
  - intros _. change (AddBytesRead id n t t') with
      (stream_op id (fun c => fc_AddBytesRead c n t) (fun c => fc_AddBytesRead c n t')).
    rewrite stream_op_result. destruct (fcm_streamFlowController f !! id) as [c|] eqn:E;
      [by apply recv_step_read|by apply recv_step_same].
  - intros _. destruct (GetWindowUpdates_grown order force t t' f Hf) as (res & f' & E & H & G).
    erewrite run_bind_ok by exact E. by apply recv_step_grown.
  - intros _. apply (recv_step_counters _ f id (fun c => fc_AddBytesSent c n) (fun c => fc_AddBytesSent c n));
      [done..| |done]. intros d. by exists (u64 (fc_bytesSent d + n)), (fc_sendWindow d), (fc_bytesRetrans d).
  - intros _. apply (recv_step_counters _ f id (fun c => fc_AddBytesRetrans c n) (fun c => fc_AddBytesRetrans c n));
      [done..| |done]. intros d. by exists (fc_bytesSent d), (fc_sendWindow d), (u64 (fc_bytesRetrans d + n)).
  - intros _. replace (snd _) with (snd (UpdateWindow id off f)); [by apply recv_step_window|].
    unfold mbind, GoM_bind. by destruct (UpdateWindow id off f) as [[] ?].
  - intros _. apply recv_step_grown; [exact Hf| |done]. split; [done|intros id; reflexivity|reflexivity].
Qed.

(** The receiving side of a run that was not closed. *)
Record recv_inv (r : fc_run) : Prop := {
  ri_windows : windows_ok (fcm_connectionParameters (run_f r));
  ri_ok : all_ok (run_f r);
  ri_received : slack fc_highestReceived (run_f r) = run_received r;
  ri_read : slack fc_bytesRead (run_f r) = run_read r;
  ri_removed : run_read r <= run_received r
}.

Lemma fc_step_recv r op :
  recv_inv r -> recv_ok op (run_f r) -> run_closed r = false -> run_closed (fc_step r op) = false ->
  recv_inv (fc_step r op) /\ windows_grow (run_f r) (run_f (fc_step r op)).
Proof.
  intros [Hw Hf Hh Hr Hle] Hop Hc. unfold fc_step. rewrite Hc.
  pose proof (fc_exec_recv op (run_f r) Hf Hw ltac:(lia) Hop) as H.
  destruct (fc_exec op (run_f r)) as [o f']. cbn [fst snd run_closed run_f] in *. intros Hv.
  destruct (H Hv) as [Ep Hok Hh' Hr' Hg]. split; [|done].
  split; cbn [run_f run_received run_read]; [by rewrite Ep|done|lia|lia|].
  enough (removed_by fc_bytesRead op (run_f r) <= removed_by fc_highestReceived op (run_f r)) by lia.
  destruct op as [|id| | | | | | | |]; cbn [removed_by]; try lia.
  destruct (fcm_streamFlowController (run_f r) !! id) as [c|] eqn:E; cbn; [|lia].
  destruct (proj1 Hf id c E). unfold counted_by. destruct (fc_contributesToConnection c); lia.
Qed.

Lemma fc_step_closed r op : run_closed r = true -> fc_step r op = r.
Proof. intros E. unfold fc_step. by rewrite E. Qed.

Lemma fc_steps_open ops r : run_closed (foldl fc_step r ops) = false -> run_closed r = false.
Proof.
  revert r. induction ops as [|op ops IH]; intros r H; [done|]. apply IH in H.
  destruct (run_closed r) eqn:E; [|done]. rewrite fc_step_closed in H by done. congruence.
Qed.

Lemma fc_steps_recv ops r :
  recv_inv r -> along recv_ok ops r -> run_closed (foldl fc_step r ops) = false ->
  recv_inv (foldl fc_step r ops).
Proof.
  revert r. induction ops as [|op ops IH]; intros r Hr; [done|]. intros [Hop Hops] Hc. cbn [foldl] in *.
  pose proof (fc_steps_open _ _ Hc) as Hc1.
  assert (run_closed r = false) by (by apply (fc_steps_open [op])).
  apply IH; [|done..]. by apply fc_step_recv.
Qed.

Lemma fc_start_inv cp rtt remote : windows_ok cp -> recv_inv (fc_start cp rtt remote).
Proof.
  intros Hw. split; [done| |done..]. split; [apply map_Forall_empty|by apply newFlowController_ok].
Qed.

(** ** Sending: never beyond what the peer granted *)

(** The window before the first update. *)
Definition initial_window (cp : connectionParametersManager) (c : flowController) : ByteCount :=
  if fc_streamID c =? 0 then GetSendConnectionFlowControlWindow cp else GetSendStreamFlowControlWindow cp.

(** The packer sends at most [SendWindowSize], and the peer announces no window
    below the one it started with. *)
Definition send_ok (op : fc_op) (f : flowControlManager) : Prop :=
  match op with
  | OpSend id n => 0 <= n /\ forall size, fst (SendWindowSize id f) = Ok size -> n <= size
  | OpWindow id off => off < 2 ^ 64 /\ forall c,
      (if id =? 0 then c = fcm_connFlowController f else fcm_streamFlowController f !! id = Some c) ->
      initial_window (fcm_connectionParameters f) c <= off
  | _ => True
  end.

Record sender_ok (cp : connectionParametersManager) (c : flowController) : Prop := {
  so_sent : 0 <= fc_bytesSent c <= getSendWindow cp c;
  so_window : 0 <= fc_sendWindow c;
  so_bound : getSendWindow cp c < 2 ^ 64
}.

Record send_inv (f : flowControlManager) : Prop := {
  si_initial : forall c, 0 <= initial_window (fcm_connectionParameters f) c < 2 ^ 64;
  si_streams : map_Forall (fun _ c => sender_ok (fcm_connectionParameters f) c) (fcm_streamFlowController f);
  si_conn : sender_ok (fcm_connectionParameters f) (fcm_connFlowController f);
  si_sum : 0 <= slack fc_bytesSent f
}.

Lemma getSendWindow_unset cp c : fc_sendWindow c = 0 -> getSendWindow cp c = initial_window cp c.
Proof. intros E. unfold getSendWindow. by rewrite E. Qed.

Lemma UpdateSendWindow_ok cp c off :
  sender_ok cp c -> initial_window cp c <= off < 2 ^ 64 ->
  sender_ok cp (snd (UpdateSendWindow c off)) /\
  getSendWindow cp c <= getSendWindow cp (snd (UpdateSendWindow c off)).
Proof.
  intros [Hs Hw Hb] Hoff. unfold UpdateSendWindow.
  destruct (Z.ltb_spec (fc_sendWindow c) off) as [Hlt|]; [|by split].
  assert (E : getSendWindow cp (c <| fc_sendWindow := off |>) = off)
    by (unfold getSendWindow; fc_fields; destruct (Z.eqb_spec off 0); [lia|done]).
  assert (getSendWindow cp c <= off).
  { destruct (Z.eq_dec (fc_sendWindow c) 0) as [E0|E0]; [rewrite getSendWindow_unset by done; lia|].
    unfold getSendWindow. destruct (Z.eqb_spec (fc_sendWindow c) 0); lia. }
  split; [split|]; cbn [snd]; rewrite ?E; fc_fields; lia.
Qed.

Lemma grown_sender cp c c' : grown c c' -> sender_ok cp c -> sender_ok cp c'.
Proof.
  intros [] []. unfold getSendWindow in *. split; unfold getSendWindow; by rewrite ?gr_sent0, ?gr_sendWindow0, ?gr_id0.
Qed.

(** A stream's controller and the connection's are replaced by ones with the
    same windows. *)
Lemma send_inv_updated f id c c' conn :
  send_inv f -> fcm_streamFlowController f !! id = Some c ->
  sender_ok (fcm_connectionParameters f) c' -> sender_ok (fcm_connectionParameters f) conn ->
  fc_contributesToConnection c' = fc_contributesToConnection c ->
  moves_with fc_bytesSent c c' (fcm_connFlowController f) conn ->
  send_inv (updated f id c' conn).
Proof.
  intros [Hi Hs Hc Hsum] E Hc' Hconn Eb Hm. split; [done| |done|].
  - by apply map_Forall_insert_2.
  - rewrite (slack_updated _ _ _ c) by done. unfold moves_with, counted_by in *. rewrite Eb.
    destruct (fc_contributesToConnection c); lia.
Qed.

Lemma send_size cp c n :
  sender_ok cp c -> 0 <= n -> n <= fc_SendWindowSize cp c ->
  sender_ok cp (fc_AddBytesSent c n) /\ fc_bytesSent (fc_AddBytesSent c n) = fc_bytesSent c + n.
Proof.
  intros [Hs Hw Hb] Hn. unfold fc_SendWindowSize. destruct (Z.ltb_spec (getSendWindow cp c) (fc_bytesSent c)); [lia|].
  intros Hle. unfold fc_AddBytesSent. rewrite u64_small by lia.
  change (getSendWindow cp c) with (getSendWindow cp (c <| fc_bytesSent := fc_bytesSent c + n |>)) in *.
  split; [split|]; fc_fields; try done; lia.
Qed.

(** The fields of the sending side. *)
Definition sending (c : flowController) : StreamID * bool * ByteCount * ByteCount :=
  (fc_streamID c, fc_contributesToConnection c, fc_bytesSent c, fc_sendWindow c).

Lemma sender_same cp c c' : sending c' = sending c -> sender_ok cp c -> sender_ok cp c'.
Proof.
  unfold sending. intros E. injection E as Ei Eb Es Ew. intros [].
  split; unfold getSendWindow in *; by rewrite ?Es, ?Ew, ?Ei.
Qed.

Lemma send_inv_same f id c c' conn :
  send_inv f -> fcm_streamFlowController f !! id = Some c -> sending c' = sending c ->
  sending conn = sending (fcm_connFlowController f) -> send_inv (updated f id c' conn).
Proof.
  intros Hf E Ec Econn. pose proof Hf as [_ Hs Hc _].
  apply (send_inv_updated f id c); [done|done|by eapply sender_same, Hs|by eapply sender_same| |];
    unfold sending, moves_with in *; [congruence|].
  injection Ec as _ Eb Es _. injection Econn as _ _ Es' _. rewrite Es, Es'.
  destruct (fc_contributesToConnection c); lia.
Qed.

Lemma AddBytesRead_sending c n t : sending (fc_AddBytesRead c n t) = sending c.
Proof. unfold fc_AddBytesRead. by destruct (_ =? _). Qed.

Lemma send_inv_accepted f id c off :
  send_inv f -> fcm_streamFlowController f !! id = Some c -> send_inv (accepted f id c off).
Proof.
  intros Hf E. rewrite accepted_updated. apply (send_inv_same f id c); [done..|].
  by destruct (fc_contributesToConnection c).
Qed.

Lemma send_inv_grown f f' : manager_grown f f' -> send_inv f -> send_inv f'.
Proof.
  intros Hg [Hi Hs Hc Hsum]. pose proof Hg as [Ep Hst Hcn]. split; rewrite ?Ep; [done| | |].
  - intros id c' E'. specialize (Hst id). rewrite E' in Hst. inversion Hst as [c ? Hcc E|]; subst.
    eapply grown_sender; [done|]. by apply (Hs id).
  - by eapply grown_sender.
  - unfold slack in *. rewrite (total_grown _ f f' Hg) by (by intros ?? []).
    by rewrite (gr_sent _ _ Hcn).
Qed.

Lemma send_inv_new f id b :
  send_inv f -> fcm_streamFlowController f !! id = None ->
  send_inv (f <| fcm_streamFlowController :=
    <[id := newFlowController id b (fcm_connectionParameters f)]> (fcm_streamFlowController f) |>).
Proof.
  intros [Hi Hs Hc Hsum] E. set (c := newFlowController id b (fcm_connectionParameters f)).
  assert (Ec : fc_bytesSent c = 0 /\ fc_sendWindow c = 0)
    by (subst c; unfold newFlowController; by destruct (id =? 0)).
  destruct Ec as [E1 E2]. split; [done| |done|].
  - apply map_Forall_insert_2; [|done]. specialize (Hi c).
    split; rewrite ?getSendWindow_unset by done; fc_fields; lia.
  - unfold slack in *. fc_fields. rewrite total_insert by done. unfold counted_by. rewrite E1.
    destruct (fc_contributesToConnection c); lia.
Qed.

Lemma send_inv_remove f id :
  send_inv f ->
  send_inv (f <| fcm_streamFlowController := delete id (fcm_streamFlowController f) |>).
Proof.
  intros [Hi Hs Hc Hsum]. split; [done|by apply map_Forall_delete|done|].
  unfold slack in *. fc_fields. destruct (fcm_streamFlowController f !! id) as [c|] eqn:E;
    [|by rewrite delete_id].
  rewrite (total_delete fc_bytesSent _ _ c E) in Hsum. destruct (Hs id c E).
  unfold counted_by in Hsum. destruct (fc_contributesToConnection c); lia.
Qed.

Lemma send_inv_send f id n :
  send_inv f -> send_ok (OpSend id n) f -> send_inv (snd (AddBytesSent id n f)).
Proof.
  intros Hf [Hn Hsize]. pose proof Hf as [_ Hs Hc _].
  change (AddBytesSent id n) with (stream_op id (fun c => fc_AddBytesSent c n) (fun c => fc_AddBytesSent c n)).
  rewrite stream_op_result. unfold SendWindowSize, getFlowController, ContributesToConnection in Hsize.
  unfold_go. destruct (fcm_streamFlowController f !! id) as [c|] eqn:E; [|done]. cbn [fst snd] in *.
  specialize (Hsize _ eq_refl). specialize (Hs id c E). destruct (fc_contributesToConnection c) eqn:Eb.
  - rewrite MinByteCount_min in Hsize.
    destruct (send_size _ c n Hs Hn) as [H1 H2]; [lia|]. destruct (send_size _ _ n Hc Hn) as [H3 H4]; [lia|].
    apply (send_inv_updated f id c); [done..|]. unfold moves_with. rewrite Eb. lia.
  - destruct (send_size _ c n Hs Hn) as [H1 H2]; [lia|].
    apply (send_inv_updated f id c); [done..|]. unfold moves_with. rewrite Eb. lia.
Qed.

Lemma send_inv_retrans f id n : send_inv f -> send_inv (snd (AddBytesRetrans id n f)).
Proof.
  intros Hf. change (AddBytesRetrans id n) with
    (stream_op id (fun c => fc_AddBytesRetrans c n) (fun c => fc_AddBytesRetrans c n)).
  rewrite stream_op_result. destruct (fcm_streamFlowController f !! id) as [c|] eqn:E; [|done].
  apply (send_inv_same f id c); [done..|]. by destruct (fc_contributesToConnection c).
Qed.

Lemma send_inv_window f id off :
  send_inv f -> send_ok (OpWindow id off) f -> send_inv (snd (UpdateWindow id off f)).
Proof.
  intros Hf [Hb Hoff]. pose proof Hf as [Hi Hs Hc Hsum]. rewrite UpdateWindow_result.
  destruct (id =? 0).
  - destruct (UpdateSendWindow_ok _ _ off Hc) as [H _]; [by split; [apply Hoff|]|].
    assert (E : fc_bytesSent (snd (UpdateSendWindow (fcm_connFlowController f) off))
      = fc_bytesSent (fcm_connFlowController f)) by (unfold UpdateSendWindow; by destruct (_ <? _)).
    destruct (UpdateSendWindow _ _) as [b c]. cbn [snd] in *. split; [done..|].
    unfold slack in *. fc_fields. lia.
  - destruct (fcm_streamFlowController f !! id) as [c|] eqn:E; [|done].
    destruct (UpdateSendWindow_ok _ c off (Hs id c E)) as [H _]; [by split; [apply Hoff|]|].
    assert (Ec : fc_bytesSent (snd (UpdateSendWindow c off)) = fc_bytesSent c /\
      fc_contributesToConnection (snd (UpdateSendWindow c off)) = fc_contributesToConnection c)
      by (unfold UpdateSendWindow; by destruct (_ <? _)).
    destruct (UpdateSendWindow c off) as [b c']. cbn [snd] in *. destruct Ec as [E1 E2].
    apply (send_inv_updated f id c); [done..|]. unfold moves_with. rewrite E1.
    destruct (fc_contributesToConnection c); lia.
Qed.

Lemma fc_exec_send op f :
  all_ok f -> recv_ok op f -> send_inv f -> send_ok op f ->
  violation (fst (fc_exec op f)) = false -> send_inv (snd (fc_exec op f)).
Proof.
  intros Hok Hr Hf Hop. destruct op as [id b|id|id off|id off|id n t t'|order force t t'|id n|id n|id off|rtt remote];
    cbn [fc_exec].
  - intros _. unfold NewStream, modifyS. cbn [snd].
    destruct (fcm_streamFlowController f !! id) eqn:E; [done|by apply send_inv_new].
  - intros _. by apply send_inv_remove.
  - destruct (fcm_streamFlowController f !! id) as [c|] eqn:E.
    + pose proof (UpdateHighestReceived_result f id c off Hok E Hr) as H.
      destruct (fits f c off); [rewrite H; intros _; by apply send_inv_accepted|congruence].
    + unfold UpdateHighestReceived, getFlowController. run. by rewrite E.
  - destruct (fcm_streamFlowController f !! id) as [c|] eqn:E.
    + pose proof (ResetStream_result f id c off Hok E Hr) as H. destruct (off <? _); [by rewrite H|].
      destruct (fits f c off); [rewrite H; intros _; by apply send_inv_accepted|congruence].
    + unfold ResetStream, getFlowController. run. by rewrite E.
  - intros _. change (AddBytesRead id n t t') with
      (stream_op id (fun c => fc_AddBytesRead c n t) (fun c => fc_AddBytesRead c n t')).
    rewrite stream_op_result. destruct (fcm_streamFlowController f !! id) as [c|] eqn:E; [|done].
    apply (send_inv_same f id c); [done..|apply AddBytesRead_sending|].
    destruct (fc_contributesToConnection c); [apply AddBytesRead_sending|done].
  - intros _. destruct (GetWindowUpdates_grown order force t t' f Hok) as (res & f' & E & _ & G).
    erewrite run_bind_ok by exact E. by apply (send_inv_grown f).
  - intros _. by apply send_inv_send.
  - intros _. by apply send_inv_retrans.
  - intros _. replace (snd _) with (snd (UpdateWindow id off f)); [by apply send_inv_window|].
    unfold mbind, GoM_bind. by destruct (UpdateWindow id off f) as [[] ?].
  - intros _. destruct Hf. by split.
Qed.

Lemma fc_steps_send ops r :
  recv_inv r -> send_inv (run_f r) -> along recv_ok ops r -> along send_ok ops r ->
  run_closed (foldl fc_step r ops) = false -> send_inv (run_f (foldl fc_step r ops)).
Proof.
  revert r. induction ops as [|op ops IH]; intros r Hr Hs; [done|].
  intros [Hop Hops] [Hsop Hsops] Hc. cbn [foldl] in *.
  pose proof (fc_steps_open _ _ Hc) as Hc1.
  assert (Hc0 : run_closed r = false) by (by apply (fc_steps_open [op])).
  apply IH; [by apply fc_step_recv| |done..].
  pose proof (fc_exec_send op (run_f r) (ri_ok _ Hr) Hop Hs Hsop) as H.
  unfold fc_step in *. rewrite Hc0 in *. destruct (fc_exec op (run_f r)) as [o f']. by apply H.
Qed.

(** ** Properties *)

(** C13: receiving.  In every run of the manager that saw no violation, in which
    the application reads only what was received, the connection's counters are
    exactly the sums over the contributing streams, removed ones included, and
    no stream and not the connection is beyond the window it announced. *)
Theorem received_within_windows cp rtt remote ops :
  windows_ok cp -> along recv_ok ops (fc_start cp rtt remote) ->
  let r := foldl fc_step (fc_start cp rtt remote) ops in
  let conn := fcm_connFlowController (run_f r) in
  let streams := fcm_streamFlowController (run_f r) in
  run_closed r = false ->
  fc_highestReceived conn = total fc_highestReceived streams + run_received r /\
  fc_bytesRead conn = total fc_bytesRead streams + run_read r /\
  fc_bytesRead conn <= fc_highestReceived conn <= fc_receiveWindow conn /\
  map_Forall (fun _ c => fc_bytesRead c <= fc_highestReceived c <= fc_receiveWindow c) streams.
Proof.
  intros Hw Hops r conn streams Hc.
  destruct (fc_steps_recv ops _ (fc_start_inv cp rtt remote Hw) Hops Hc) as [_ [Hs Hconn] Hh Hr _].
  fold r in Hh, Hr, Hconn. unfold slack in *. fold conn in Hh, Hr, Hconn. fold streams in Hh, Hr.
  destruct Hconn. split; [lia|]. split; [lia|]. split; [lia|].
  apply (map_Forall_impl _ _ _ Hs). intros _ c []. lia.
Qed.

(** announced windows do not shrink.  In such a run, no operation lowers
    the receive window of the connection or of a stream that remains. *)
Theorem receive_windows_monotone cp rtt remote ops op :
  windows_ok cp -> along recv_ok (ops ++ [op]) (fc_start cp rtt remote) ->
  run_closed (foldl fc_step (fc_start cp rtt remote) (ops ++ [op])) = false ->
  windows_grow (run_f (foldl fc_step (fc_start cp rtt remote) ops))
    (run_f (foldl fc_step (fc_start cp rtt remote) (ops ++ [op]))).
Proof.
  intros Hw [Hops [Hop _]]%along_app. rewrite foldl_app. cbn [foldl]. intros Hc.
  assert (Hc0 := fc_steps_open [op] _ Hc). apply fc_step_recv; [|done..].
  by apply fc_steps_recv; [apply fc_start_inv|..].
Qed.

(** data is accepted exactly when it fits.  [UpdateHighestReceived] accepts
    a frame that ends at [off] if and only if the stream and, where it counts,
    the connection have room for it, and then raises both counters by the new
    bytes only; otherwise it reports FlowControlReceivedTooMuchData. *)
Theorem UpdateHighestReceived_exact f id c off :
  all_ok f -> fcm_streamFlowController f !! id = Some c -> 0 <= off ->
  if fits f c off then UpdateHighestReceived id off f = (Ok tt, accepted f id c off)
  else violation (fst (UpdateHighestReceived id off f)) = true.
Proof. apply UpdateHighestReceived_result. Qed.

(** C14: sending.  If every send respects [SendWindowSize] and the peer
    announces no window below its initial one (a first announcement
    below it would replace it, also after more was sent), no stream sends beyond its
    window, and the streams together not beyond the connection's, until an error
    closes the connection.  Windows are configured to at most 2^61, and what the
    application reads was received and is less than 2^62 bytes. *)
Theorem sent_within_windows cp rtt remote ops :
  windows_ok cp -> (forall c, 0 <= initial_window cp c < 2 ^ 64) ->
  along recv_ok ops (fc_start cp rtt remote) -> along send_ok ops (fc_start cp rtt remote) ->
  let r := foldl fc_step (fc_start cp rtt remote) ops in
  let streams := fcm_streamFlowController (run_f r) in
  let params := fcm_connectionParameters (run_f r) in
  run_closed r = false ->
  map_Forall (fun _ c => fc_bytesSent c <= getSendWindow params c) streams /\
  total fc_bytesSent streams <= fc_bytesSent (fcm_connFlowController (run_f r))
    <= getSendWindow params (fcm_connFlowController (run_f r)).
Proof.
  intros Hw Hi Hops Hsops r streams params Hc.
  assert (Hstart : send_inv (run_f (fc_start cp rtt remote))).
  { split; [done|apply map_Forall_empty| |done].
    specialize (Hi (newFlowController 0 false cp)).
    change (sender_ok cp (newFlowController 0 false cp)).
    split; rewrite ?getSendWindow_unset by done; [|done|lia].
    change (fc_bytesSent (newFlowController 0 false cp)) with 0. lia. }
  destruct (fc_steps_send ops _ (fc_start_inv cp rtt remote Hw) Hstart Hops Hsops Hc)
    as [_ Hs Hconn Hsum].
  fold r in Hs, Hconn, Hsum. unfold slack in Hsum. destruct Hconn. subst streams params.
  split; [|lia]. apply (map_Forall_impl _ _ _ Hs). intros _ c []. lia.
Qed.

(** A run with two streams, data in both, a read, window updates, sends. *)
Definition sample_flow : list fc_op :=
  [OpNew 5 true; OpNew 7 true; OpNew 3 false; OpReceive 5 30000; OpReceive 7 10000; OpReceive 5 20000;
   OpRead 5 20000 7 8; OpUpdates [(5, (9, 9)); (7, (9, 9)); (3, (9, 9))] false 10 10; OpReceive 5 39000;
   OpSend 5 1000; OpWindow 5 70000; OpSend 5 15000; OpRemove 7].
Definition sample_flow_start : fc_run := fc_start sample_client NewRTTStats ∅.

Lemma sample_windows_ok : windows_ok sample_client.
Proof. split; vm_compute; try split; congruence. Qed.

(** The conditions on the operations as checks that evaluate. *)
Definition recv_okb (op : fc_op) (f : flowControlManager) : bool :=
  match op with
  | OpReceive _ off | OpReset _ off => 0 <=? off
  | OpRead id n _ _ => (0 <=? n) &&
      from_option (fun c => (fc_bytesRead c + n <=? Z.min (fc_highestReceived c) (2 ^ 62)) &&
        (fc_bytesRead (fcm_connFlowController f) + n <=? 2 ^ 62)) true (fcm_streamFlowController f !! id)
  | _ => true
  end.

Definition send_okb (op : fc_op) (f : flowControlManager) : bool :=
  match op with
  | OpSend id n => (0 <=? n) && match fst (SendWindowSize id f) with Ok size => n <=? size | _ => true end
  | OpWindow id off => (off <? 2 ^ 64) &&
      from_option (fun c => initial_window (fcm_connectionParameters f) c <=? off) true
        (if id =? 0 then Some (fcm_connFlowController f) else fcm_streamFlowController f !! id)
  | _ => true
  end.

Fixpoint alongb (P : fc_op -> flowControlManager -> bool) (ops : list fc_op) (r : fc_run) : bool :=
  match ops with
  | [] => true
  | op :: ops => P op (run_f r) && alongb P ops (fc_step r op)
  end.

Lemma alongb_along P Pb ops r :
  (forall op f, Pb op f = true -> P op f) -> alongb Pb ops r = true -> along P ops r.
Proof.
  intros H. revert r. induction ops as [|op ops IH]; intros r; [done|].
  cbn [along alongb]. intros [H1 H2]%andb_prop. auto.
Qed.

Lemma recv_okb_ok op f : recv_okb op f = true -> recv_ok op f.
Proof.
  destruct op; cbn [recv_okb recv_ok]; try done; try lia.
  intros [Hn Hc]%andb_prop. split; [lia|]. intros c E. rewrite E in Hc. cbn in Hc.
  apply andb_prop in Hc as [H1%Z.leb_le H2%Z.leb_le]. done.
Qed.

Lemma send_okb_ok op f : send_okb op f = true -> send_ok op f.
Proof.
  destruct op as [| | | | | |id n| |id off|]; cbn [send_okb send_ok]; try done; intros [H1 H2]%andb_prop.
  - split; [lia|]. intros size E. rewrite E in H2. lia.
  - split; [lia|]. intros c E. destruct (id =? 0); [subst c|rewrite E in H2]; cbn in H2; lia.
Qed.

Lemma sample_recv_ok : along recv_ok sample_flow sample_flow_start.
Proof. apply (alongb_along _ recv_okb); [apply recv_okb_ok|vm_compute; reflexivity]. Qed.

Lemma sample_send_ok : along send_ok sample_flow sample_flow_start.
Proof. apply (alongb_along _ send_okb); [apply send_okb_ok|vm_compute; reflexivity]. Qed.

Lemma sample_flow_ok : all_ok (run_f (foldl fc_step sample_flow_start sample_flow)).
Proof.
  apply (fc_steps_recv sample_flow sample_flow_start);
    [apply fc_start_inv, sample_windows_ok|apply sample_recv_ok|vm_compute; reflexivity].
Qed.

Lemma sample_open : run_closed (foldl fc_step sample_flow_start sample_flow) = false.
Proof. vm_compute. reflexivity. Qed.

Lemma received_within_windows_witness :
  run_received (foldl fc_step sample_flow_start sample_flow) = 10000 /\
  fc_highestReceived (fcm_connFlowController (run_f (foldl fc_step sample_flow_start sample_flow)))
    = 49000 /\
  fc_highestReceived (fcm_connFlowController (run_f (foldl fc_step sample_flow_start sample_flow)))
    = total fc_highestReceived
        (fcm_streamFlowController (run_f (foldl fc_step sample_flow_start sample_flow)))
      + run_received (foldl fc_step sample_flow_start sample_flow).
Proof.
  split; [vm_compute; reflexivity|]. split; [vm_compute; reflexivity|].
  exact (proj1 (received_within_windows sample_client NewRTTStats ∅ sample_flow
    sample_windows_ok sample_recv_ok sample_open)).
Defined.

Lemma receive_windows_monotone_witness :
  windows_grow (run_f (foldl fc_step sample_flow_start sample_flow))
    (run_f (foldl fc_step sample_flow_start (sample_flow ++ [OpReceive 5 39100]))).
Proof.
  apply (receive_windows_monotone sample_client NewRTTStats ∅ sample_flow (OpReceive 5 39100) sample_windows_ok).
  - apply (alongb_along _ recv_okb); [apply recv_okb_ok|vm_compute; reflexivity].
  - vm_compute. reflexivity.
Defined.

(** 152 bytes are left in the connection's window. *)
Definition sample_stream : flowController :=
  default (newFlowController 5 true sample_client)
    (fcm_streamFlowController (run_f (foldl fc_step sample_flow_start sample_flow)) !! 5).

Lemma sample_stream_lookup :
  fcm_streamFlowController (run_f (foldl fc_step sample_flow_start sample_flow)) !! 5 = Some sample_stream.
Proof. vm_compute. reflexivity. Qed.

Lemma UpdateHighestReceived_exact_witness :
  fits (run_f (foldl fc_step sample_flow_start sample_flow)) sample_stream 39152 = true /\
  fits (run_f (foldl fc_step sample_flow_start sample_flow)) sample_stream 39153 = false /\
  (if fits (run_f (foldl fc_step sample_flow_start sample_flow)) sample_stream 39153
   then UpdateHighestReceived 5 39153 (run_f (foldl fc_step sample_flow_start sample_flow))
     = (Ok tt, accepted (run_f (foldl fc_step sample_flow_start sample_flow)) 5 sample_stream 39153)
   else violation (fst (UpdateHighestReceived 5 39153
     (run_f (foldl fc_step sample_flow_start sample_flow)))) = true).
Proof.
  split; [vm_compute; reflexivity|]. split; [vm_compute; reflexivity|].
  exact (UpdateHighestReceived_exact _ 5 sample_stream 39153 sample_flow_ok sample_stream_lookup
    ltac:(lia)).
Defined.

Lemma sample_initial c : 0 <= initial_window sample_client c < 2 ^ 64.
Proof. unfold initial_window. destruct (_ =? 0); vm_compute; split; congruence. Qed.

Lemma sent_within_windows_witness :
  total fc_bytesSent (fcm_streamFlowController (run_f (foldl fc_step sample_flow_start sample_flow)))
    = 16000 /\
  total fc_bytesSent (fcm_streamFlowController (run_f (foldl fc_step sample_flow_start sample_flow)))
    <= fc_bytesSent (fcm_connFlowController (run_f (foldl fc_step sample_flow_start sample_flow))).
Proof.
  split; [vm_compute; reflexivity|].
  exact (proj1 (proj2 (sent_within_windows sample_client NewRTTStats ∅ sample_flow sample_windows_ok
    sample_initial sample_recv_ok sample_send_ok sample_open))).
Defined.

(** ** Where the code differs from its comments *)

(** Without an update the increment is returned, not 0: a forced update of a
    stream raises the connection's increment although nothing changed. *)
Lemma MaybeUpdateWindow_unchanged_increment c rtt remote now now' :
  fc_receiveWindowIncrement c / 2 <= u64 (fc_receiveWindow c - fc_bytesRead c) ->
  MaybeUpdateWindow c rtt remote now now'
    = ((false, fc_receiveWindowIncrement c, fc_receiveWindow c), c).
Proof.
  intros H. unfold MaybeUpdateWindow.
  destruct (Z.ltb_spec (u64 (fc_receiveWindow c - fc_bytesRead c)) (fc_receiveWindowIncrement c / 2)); [lia|done].
Qed.

(** An offset below the initial window is taken as an update and lowers the
    window, because an unset window is stored as 0. *)
Lemma UpdateSendWindow_lowers cp c off :
  fc_sendWindow c = 0 -> 0 < off < initial_window cp c ->
  fst (UpdateSendWindow c off) = true /\
  getSendWindow cp (snd (UpdateSendWindow c off)) = off /\ off < getSendWindow cp c.
Proof.
  intros E Hoff. rewrite (getSendWindow_unset cp c E). unfold UpdateSendWindow. rewrite E.
  destruct (Z.ltb_spec 0 off); [|lia]. split; [done|]. split; [|lia].
  unfold getSendWindow. cbn [snd]. fc_fields. destruct (Z.eqb_spec off 0); [lia|done].
Qed.
