(* ===== verification/StreamFrameSorter.v ===== *)
(** * stream_frame_sorter.go: reassembly of the frames of a stream

    The linked list of gaps is the list of its values, front first; a pointer to
    an element is its value with the elements around it.  [Push] changes the frame
    it is given, which no caller uses afterwards. *)

From S2P Require Import Prelude Protocol ByteOrder WireFrames.

(** [utils.ByteInterval] *)
Record ByteInterval := mkByteInterval { bi_Start : ByteCount; bi_End : ByteCount }.

Record streamFrameSorter := mkStreamFrameSorter {
  sfs_queuedFrames : gmap ByteCount StreamFrame;
  sfs_readPosition : ByteCount;
  sfs_gaps : list ByteInterval
}.

#[global] Instance eta_streamFrameSorter : Eta streamFrameSorter := fun s =>
  mkStreamFrameSorter (sfs_queuedFrames s) (sfs_readPosition s) (sfs_gaps s).
#[global] Instance eta_StreamFrame : Eta StreamFrame := fun f =>
  mkStreamFrame (sf_StreamID f) (sf_FinBit f) (sf_DataLenPresent f) (sf_Offset f) (sf_Data f).

Definition errTooManyGapsInReceivedStreamData : error :=
  errors_New "Too many gaps in received StreamFrame data".
Definition errDuplicateStreamData : error := errors_New "Duplicate Stream Data".
Definition errEmptyStreamData : error := errors_New "Stream Data empty".
Definition errNoGapFound : error := errors_New "StreamFrameSorter BUG: no gap found".
Definition errNoEndGapFound : error := errors_New "StreamFrameSorter BUG: no end gap found".

Definition newStreamFrameSorter : streamFrameSorter :=
  mkStreamFrameSorter ∅ 0 [mkByteInterval 0 MaxByteCount].

Abbreviation Sorter := (GoM streamFrameSorter).

(** Go's [data[n:]] and [data[:n]]. *)
Definition slice_from (n : Z) (data : list Z) : Sorter (list Z) :=
  if (0 <=? n) && (n <=? zlen data) then mret (drop (Z.to_nat n) data)
  else panic "slice bounds out of range".
Definition slice_to (n : Z) (data : list Z) : Sorter (list Z) :=
  if (0 <=? n) && (n <=? zlen data) then mret (take (Z.to_nat n) data)
  else panic "slice bounds out of range".

(** The search for the first gap that does not lie before the frame: the gaps
    before it, the gap, and the gaps after it. *)
Fixpoint find_gap (start end_ : ByteCount) (before gaps : list ByteInterval)
    : outcome (list ByteInterval * ByteInterval * list ByteInterval) :=
  match gaps with
  | [] => Err errNoGapFound
  | gap :: after =>
      if end_ <=? bi_Start gap then Err errDuplicateStreamData
      else if (bi_Start gap <? end_) && (start <=? bi_End gap) then Ok (before, gap, after)
      else find_gap start end_ (before ++ [gap]) after
  end.

(** Where the pointer [endGap] points to: at [gap], at a later element of the
    list, or at an element that was removed from it. *)
Inductive end_place := AtGap | Listed | Removed.

(** The loop that finds [endGap], which is [cur] at first, and removes the gaps
    in between.  It returns [endGap] and the elements after it, and on an error
    the elements that are left after [gap]. *)
Fixpoint find_end_gap (end_ : ByteCount) (cur : ByteInterval) (place : end_place)
    (after : list ByteInterval) (queued : gmap ByteCount StreamFrame)
    : (ByteInterval * end_place * list ByteInterval + list ByteInterval) * gmap ByteCount StreamFrame :=
  if end_ <? bi_End cur then (inl (cur, place, after), queued)
  else
    match after with
    | [] => (inr (match place with AtGap => [] | _ => [cur] end), queued)
    | next :: after' =>
        let place := match place with AtGap => AtGap | _ => Removed end in
        if end_ <=? bi_Start next then (inl (cur, place, after), queued)
        else find_end_gap end_ next Listed after' (delete (bi_End cur) queued)
    end.

(** The gaps in place of [gap] and of [endGap], if it is another element of the
    list, once the frame from [start] to [end_] is there. *)
Definition adjust_gaps (start end_ : ByteCount) (gap endGap : ByteInterval) (place : end_place)
    : list ByteInterval :=
  let listed g := match place with Listed => [g] | _ => [] end in
  let same := match place with AtGap => true | _ => false end in
  if start =? bi_Start gap then
    let removed := bi_End gap <=? end_ in
    if end_ <? bi_End endGap
    then if same then (if removed then [] else [mkByteInterval end_ (bi_End gap)])
         else (if removed then [] else [gap]) ++ listed (mkByteInterval end_ (bi_End endGap))
    else (if removed then [] else [gap]) ++ listed endGap
  else if end_ =? bi_End endGap then mkByteInterval (bi_Start gap) start :: listed endGap
  else if same then [mkByteInterval (bi_Start gap) start; mkByteInterval end_ (bi_End gap)]
  else mkByteInterval (bi_Start gap) start :: listed (mkByteInterval end_ (bi_End endGap)).

(** The part of [Push] after the frame was compared with a queued one. *)
Definition push_frame (frame : StreamFrame) : Sorter unit :=
  let start := sf_Offset frame in
  let end_ := u64 (sf_Offset frame + StreamFrame_DataLen frame) in
  s ← getS;
  '(before, gap, after) ← lift (find_gap start end_ [] (sfs_gaps s));
  let add := if start <? bi_Start gap then bi_Start gap - start else 0 in
  data ← slice_from add (sf_Data frame);
  let start := start + add in
  let frame := frame <| sf_Offset := start |> <| sf_Data := data |> in
  let '(found, queued) := find_end_gap end_ gap AtGap after (sfs_queuedFrames s) in
  modifyS (fun s => s <| sfs_queuedFrames := queued |>);;
  match found with
  | inr rest =>
      modifyS (fun s => s <| sfs_gaps := before ++ gap :: rest |>);; fail errNoEndGapFound
  | inl (endGap, place, after) =>
      let cutLen := if bi_End endGap <? end_ then end_ - bi_End endGap else 0 in
      data ← slice_to (u64 (StreamFrame_DataLen frame - cutLen)) (sf_Data frame);
      let end_ := end_ - cutLen in
      let frame := frame <| sf_Data := data |> in
      let gaps := before ++ adjust_gaps start end_ gap endGap place ++ after in
      modifyS (fun s => s <| sfs_gaps := gaps |>);;
      if MaxStreamFrameSorterGaps <? zlen gaps then fail errTooManyGapsInReceivedStreamData
      else modifyS (fun s => s <| sfs_queuedFrames := <[sf_Offset frame := frame]> (sfs_queuedFrames s) |>)
  end.

Definition Push (frame : StreamFrame) : Sorter unit :=
  if StreamFrame_DataLen frame =? 0 then
    if sf_FinBit frame
    then modifyS (fun s => s <| sfs_queuedFrames := <[sf_Offset frame := frame]> (sfs_queuedFrames s) |>)
    else fail errEmptyStreamData
  else
    s ← getS;
    match sfs_queuedFrames s !! sf_Offset frame with
    | Some oldFrame =>
        if StreamFrame_DataLen frame <=? StreamFrame_DataLen oldFrame then fail errDuplicateStreamData
        else
          data ← slice_from (StreamFrame_DataLen oldFrame) (sf_Data frame);
          push_frame (frame <| sf_Data := data |>
            <| sf_Offset := u64 (sf_Offset frame + StreamFrame_DataLen oldFrame) |>)
    | None => push_frame frame
    end.

Definition Head (s : streamFrameSorter) : option StreamFrame :=
  sfs_queuedFrames s !! sfs_readPosition s.

Definition Pop (s : streamFrameSorter) : option StreamFrame * streamFrameSorter :=
  match Head s with
  | Some frame =>
      (Some frame,
       s <| sfs_readPosition := u64 (sfs_readPosition s + StreamFrame_DataLen frame) |>
         <| sfs_queuedFrames := delete (sf_Offset frame) (sfs_queuedFrames s) |>)
  | None => (None, s)
  end.

(** ** Gaps *)

(** Gaps in ascending order with received bytes between them, from [lo] on; the
    last one is open. *)
Fixpoint gaps_ok (lo : Z) (gaps : list ByteInterval) : Prop :=
  match gaps with
  | [] => False
  | [g] => lo <= bi_Start g < bi_End g /\ bi_End g = MaxByteCount
  | g :: gaps => lo <= bi_Start g < bi_End g /\ gaps_ok (bi_End g + 1) gaps
  end.

Definition in_gap (x : Z) (g : ByteInterval) : Prop := bi_Start g <= x < bi_End g.
Definition in_gaps (x : Z) (gaps : list ByteInterval) : Prop := Exists (in_gap x) gaps.

Lemma gaps_ok_cons lo g gaps :
  gaps <> [] -> gaps_ok lo (g :: gaps) <-> lo <= bi_Start g < bi_End g /\ gaps_ok (bi_End g + 1) gaps.
Proof. by destruct gaps. Qed.

Lemma gaps_ok_head lo g gaps :
  gaps_ok lo (g :: gaps) -> lo <= bi_Start g < bi_End g /\ bi_End g <= MaxByteCount.
Proof.
  revert lo g. induction gaps as [|g' gaps IH]; intros lo g; cbn [gaps_ok]; [lia|].
  intros [H1 H2]. specialize (IH _ _ H2). lia.
Qed.

Lemma gaps_ok_tail lo g g' gaps :
  gaps_ok lo (g :: g' :: gaps) -> gaps_ok (bi_End g + 1) (g' :: gaps).
Proof. by intros [_ H]. Qed.

Lemma gaps_ok_weaken lo lo' gaps : gaps_ok lo gaps -> lo' <= lo -> gaps_ok lo' gaps.
Proof. destruct gaps as [|g [|g' gaps]]; cbn [gaps_ok]; [done|lia|intros [] ?; split; [lia|done]]. Qed.

Lemma gaps_ok_bound lo gaps x : gaps_ok lo gaps -> in_gaps x gaps -> lo <= x < MaxByteCount.
Proof.
  intros Hok Hx. revert lo Hok. induction Hx as [g gaps Hg|g gaps Hx IH]; intros lo Hok.
  - apply gaps_ok_head in Hok. unfold in_gap in Hg. lia.
  - pose proof (gaps_ok_head _ _ _ Hok). destruct gaps as [|g' gaps]; [by apply Exists_nil in Hx|].
    specialize (IH _ (gaps_ok_tail _ _ _ _ Hok)). lia.
Qed.

(** The gaps from an element of the list on. *)
Lemma gaps_ok_suffix lo before g after :
  gaps_ok lo (before ++ g :: after) ->
  exists lo', lo <= lo' /\ gaps_ok lo' (g :: after) /\ Forall (fun b => bi_End b < lo') before.
Proof.
  revert lo. induction before as [|b before IH]; intros lo Hok; [by exists lo|].
  cbn [app] in Hok. apply gaps_ok_cons in Hok as [Hb Hok]; [|by destruct before].
  destruct (IH _ Hok) as (lo' & Hlo & H & Hf). exists lo'. split; [lia|]. split; [done|].
  constructor; [lia|done].
Qed.

(** Replacing the gaps from one on by others that start no earlier. *)
Lemma gaps_ok_replace lo before g after gaps :
  gaps_ok lo (before ++ g :: after) -> gaps_ok (bi_Start g) gaps -> gaps_ok lo (before ++ gaps).
Proof.
  revert lo. induction before as [|b before IH]; intros lo Hok Hg; cbn [app] in *.
  - apply gaps_ok_head in Hok. eapply gaps_ok_weaken; [done|lia].
  - apply gaps_ok_cons in Hok as [Hb Hok]; [|by destruct before].
    apply gaps_ok_cons; [destruct before; [by destruct gaps|done]|]. split; [done|by apply IH].
Qed.

(** ** The two searches *)

Lemma find_gap_spec start end_ before gaps lo :
  gaps_ok lo gaps -> start < end_ -> end_ < MaxByteCount ->
  match find_gap start end_ before gaps with
  | Ok (before', gap, after) =>
      exists skipped, before' = before ++ skipped /\ gaps = skipped ++ gap :: after /\
        Forall (fun g => bi_End g < start) skipped /\ bi_Start gap < end_ /\ start <= bi_End gap
  | Err e => e = errDuplicateStreamData /\ forall x, start <= x < end_ -> ~ in_gaps x gaps
  | Panic _ => False
  end.
Proof.
  intros Hok Hse Hmax. revert before lo Hok. induction gaps as [|g gaps IH]; intros before lo Hok; [done|].
  pose proof (gaps_ok_head _ _ _ Hok) as Hg. cbn [find_gap].
  destruct (Z.leb_spec end_ (bi_Start g)) as [Hle|Hgt].
  { split; [done|]. intros x Hx Hin. apply (gaps_ok_bound (bi_Start g)) in Hin; [lia|].
    destruct gaps; cbn [gaps_ok] in *; split; (lia || apply Hok). }
  destruct (Z.ltb_spec (bi_Start g) end_) as [_|]; [|lia]. cbn [andb].
  destruct (Z.leb_spec start (bi_End g)) as [|Hlt].
  { exists []. by rewrite app_nil_r. }
  destruct gaps as [|g' gaps]; [cbn [gaps_ok] in Hok; lia|].
  specialize (IH (before ++ [g]) _ (gaps_ok_tail _ _ _ _ Hok)).
  destruct (find_gap _ _ _ _) as [[[before' gap] after]|e|p]; [| |done].
  - destruct IH as (sk & -> & -> & Hf & H1 & H2). exists (g :: sk). rewrite <- app_assoc.
    split_and!; [done..|by constructor|done|done].
  - destruct IH as [-> IH]. split; [done|]. intros x Hx [Hin|Hin]%Exists_cons; [|by eapply IH].
    unfold in_gap in Hin. lia.
Qed.

(** The queue without the frames that start where one of the gaps ends. *)
Definition delete_ends (gaps : list ByteInterval) (queued : gmap ByteCount StreamFrame)
    : gmap ByteCount StreamFrame := foldl (fun q g => delete (bi_End g) q) queued gaps.

(** Whether the frame ends in the gap, or behind it and before the next one. *)
Definition end_found (end_ : Z) (endGap : ByteInterval) (place : end_place) (after : list ByteInterval)
    : Prop :=
  match after with
  | [] => end_ < bi_End endGap /\ place <> Removed
  | next :: _ => (end_ < bi_End endGap /\ place <> Removed) \/
      (bi_End endGap <= end_ <= bi_Start next /\ place <> Listed)
  end.

Lemma find_end_gap_spec end_ cur place after queued lo :
  gaps_ok lo (cur :: after) -> bi_Start cur < end_ -> end_ < MaxByteCount -> place <> Removed ->
  exists passed endGap place' after',
    find_end_gap end_ cur place after queued
      = (inl (endGap, place', after'), delete_ends passed queued) /\
    cur :: after = passed ++ endGap :: after' /\ bi_Start endGap < end_ /\
    Forall (fun g => bi_End g <= end_) passed /\ end_found end_ endGap place' after' /\
    (passed = [] -> place = AtGap -> place' = AtGap) /\ (passed <> [] \/ place <> AtGap -> place' <> AtGap).
Proof.
  revert cur place queued lo. induction after as [|next after IH]; intros cur place queued lo Hok Hs Hmax Hp;
    cbn [find_end_gap]; destruct (Z.ltb_spec end_ (bi_End cur)) as [Hlt|Hge].
  - exists [], cur, place, []. split_and!; try done. by intros [].
  - cbn [gaps_ok] in Hok. lia.
  - exists [], cur, place, (next :: after). split_and!; try done; [by left|by intros []].
  - destruct (Z.leb_spec end_ (bi_Start next)) as [Hn|Hn].
    + eexists [], cur, _, (next :: after). split_and!; try done; [right; split; [lia|by destruct place]| |].
      * by intros _ ->.
      * intros [|]; by destruct place.
    + destruct (IH next Listed (delete (bi_End cur) queued) _ (gaps_ok_tail _ _ _ _ Hok) Hn Hmax)
        as (passed & endGap & place' & after' & E & El & H1 & H2 & H3 & H4 & H5); [done|].
      exists (cur :: passed), endGap, place', after'. rewrite E, El.
      split_and!; try done; [by constructor|]. intros _. apply H5. by right.
Qed.

(** ** Filling a range *)

(** What is left of the gaps from [gap] to [endGap] without [start, end). *)
Definition filled (start end_ : Z) (gap endGap : ByteInterval) : list ByteInterval :=
  (if bi_Start gap <? start then [mkByteInterval (bi_Start gap) start] else []) ++
  (if end_ <? bi_End endGap then [mkByteInterval end_ (bi_End endGap)] else []).

Lemma adjust_gaps_filled start end_ gap endGap place :
  bi_Start gap <= start < end_ -> end_ <= bi_End endGap -> start < bi_End gap ->
  match place with
  | AtGap => endGap = gap
  | Listed => bi_End gap <= end_ < bi_End endGap
  | Removed => bi_End gap <= end_ /\ end_ = bi_End endGap
  end ->
  adjust_gaps start end_ gap endGap place = filled start end_ gap endGap.
Proof.
  intros Hs He Hg Hp. unfold adjust_gaps, filled.
  destruct place; subst; cases_bool; try lia; cbn [app]; try done; by repeat f_equal; lia.
Qed.

Section Fill.
Context (lo : Z) (passed : list ByteInterval) (gap endGap : ByteInterval) (after after' : list ByteInterval).
Context (Hok : gaps_ok lo (gap :: after)) (Heq : gap :: after = passed ++ endGap :: after').

Lemma fill_order :
  bi_Start gap <= bi_Start endGap < bi_End endGap /\ bi_End gap <= bi_End endGap /\
  (passed = [] -> endGap = gap) /\ (passed <> [] -> bi_End gap < bi_Start endGap).
Proof.
  pose proof Hok as H. rewrite Heq in H. destruct (gaps_ok_suffix _ _ _ _ H) as (lo' & Hlo & H' & Hf).
  apply gaps_ok_head in H'. pose proof (gaps_ok_head _ _ _ Hok). destruct passed as [|p ps]; injection Heq as E _.
  - subst. split_and!; (done || lia).
  - subst. apply Forall_cons in Hf as [Hp _]. split_and!; (done || lia).
Qed.

(** The gaps that were passed lie between the first and the last. *)
Lemma fill_passed x :
  in_gaps x passed -> in_gap x gap \/ bi_End gap < x < bi_Start endGap.
Proof.
  pose proof Hok as H. rewrite Heq in H. destruct (gaps_ok_suffix _ _ _ _ H) as (lo' & _ & H' & Hf).
  apply gaps_ok_head in H'. destruct passed as [|p ps]; [by intros ?%Exists_nil|]. injection Heq as <- _.
  intros [Hx|Hx]%Exists_cons; [by left|right].
  apply Forall_cons in Hf as [_ Hf]. cbn [app] in H. apply gaps_ok_cons in H as [_ H]; [|by destruct ps].
  assert (in_gaps x (ps ++ endGap :: after')) as Hx' by (apply Exists_app; by left).
  pose proof (gaps_ok_bound _ _ _ H Hx'). apply Exists_exists in Hx as (g & Hin & Hg).
  rewrite Forall_forall in Hf. specialize (Hf g Hin). unfold in_gap in Hg. lia.
Qed.

Lemma fill_after x : in_gaps x after' -> bi_End endGap < x.
Proof.
  intros Hx. pose proof Hok as H. rewrite Heq in H.
  destruct (gaps_ok_suffix _ _ _ _ H) as (lo' & _ & H' & _).
  destruct after' as [|g gs]; [by apply Exists_nil in Hx|].
  pose proof (gaps_ok_bound _ _ _ (gaps_ok_tail _ _ _ _ H') Hx). lia.
Qed.

Context (start end_ : Z) (Hstart : bi_Start gap <= start < bi_End gap) (Hse : start < end_).
Context (Hend : bi_Start endGap < end_ <= bi_End endGap).

Lemma fill_in_gaps x :
  in_gaps x (filled start end_ gap endGap ++ after') <->
  in_gaps x (gap :: after) /\ ~ (start <= x < end_).
Proof.
  rewrite Heq. unfold in_gaps. rewrite !Exists_app, Exists_cons. fold (in_gaps x passed) (in_gaps x after').
  destruct fill_order as (Ho1 & Ho2 & Ho3 & Ho4).
  pose proof (fill_passed x) as Hp. pose proof (fill_after x) as Ha.
  assert (Hhead : in_gap x gap -> in_gaps x passed \/ in_gap x endGap).
  { intros Hx. destruct passed as [|p ps]; [right; by rewrite Ho3|]. injection Heq as <- _. left. by left. }
  assert (Hf : Exists (in_gap x) (filled start end_ gap endGap) <->
    bi_Start gap <= x < start \/ end_ <= x < bi_End endGap).
  { unfold filled. rewrite Exists_app.
    destruct (Z.ltb_spec (bi_Start gap) start), (Z.ltb_spec end_ (bi_End endGap));
      rewrite ?Exists_cons, ?Exists_nil; unfold in_gap; cbn [bi_Start bi_End]; lia. }
  rewrite Hf. unfold in_gap in *. split.
  - intros [[H|H]|H]; [|split; [right; left|]; lia|split; [by do 2 right|specialize (Ha H); lia]].
    split; [|lia]. destruct Hhead as [H'|H']; [lia|by left|by right; left].
  - intros [[H|[H|H]] Hn]; [specialize (Hp H)| |by right]; left; [lia|].
    destruct passed as [|p ps]; [rewrite Ho3 in * by done; lia|]. specialize (Ho4 ltac:(done)). lia.
Qed.

Lemma fill_gaps_ok :
  (after' = [] -> end_ < bi_End endGap) ->
  gaps_ok (bi_Start gap) (filled start end_ gap endGap ++ after').
Proof.
  intros Hlast. destruct fill_order as (Ho1 & Ho2 & _ & _).
  pose proof Hok as H. rewrite Heq in H. destruct (gaps_ok_suffix _ _ _ _ H) as (lo' & _ & H' & _).
  assert (Hright : gaps_ok (start + 1)
    ((if end_ <? bi_End endGap then [mkByteInterval end_ (bi_End endGap)] else []) ++ after')).
  { destruct (Z.ltb_spec end_ (bi_End endGap)) as [Hlt|Hge]; cbn [app].
    - destruct after' as [|g gs]; cbn [gaps_ok bi_Start bi_End] in *; [lia|]. split; [lia|apply H'].
    - destruct after' as [|g gs]; [specialize (Hlast eq_refl); lia|].
      apply gaps_ok_tail in H'. eapply gaps_ok_weaken; [done|lia]. }
  unfold filled. destruct (Z.ltb_spec (bi_Start gap) start) as [Hlt|Hge]; cbn [app].
  - apply gaps_ok_cons; [by intros E; rewrite E in Hright|]. cbn [bi_Start bi_End]. split; [lia|done].
  - eapply gaps_ok_weaken; [done|lia].
Qed.
End Fill.

(** ** Chains of queued frames *)

(** Queued frames lead from [a] to [b], each starting where the last one ends. *)
Inductive chain (q : gmap ByteCount StreamFrame) : Z -> Z -> Prop :=
  | chain_nil a : chain q a a
  | chain_cons a b fr : q !! a = Some fr -> 0 < StreamFrame_DataLen fr ->
      chain q (a + StreamFrame_DataLen fr) b -> chain q a b.

(** From [from] to the first gap, and from each gap to the next. *)
Fixpoint chains (q : gmap ByteCount StreamFrame) (from : Z) (gaps : list ByteInterval) : Prop :=
  match gaps with
  | [] => True
  | g :: gaps => chain q from (bi_Start g) /\ chains q (bi_End g) gaps
  end.

Lemma chain_le q a b : chain q a b -> a <= b.
Proof. induction 1; lia. Qed.

Lemma chain_app q a b c : chain q a b -> chain q b c -> chain q a c.
Proof. induction 1 as [|a b fr E Hl _ IH]; [done|]. intros H. by apply (chain_cons _ _ _ fr), IH. Qed.

Lemma chain_ext q q' a b :
  (forall k, a <= k < b -> q' !! k = q !! k) -> chain q a b -> chain q' a b.
Proof.
  intros Hk H. induction H as [|a b fr E Hl Hc IH]; [constructor|].
  pose proof (chain_le _ _ _ Hc). apply (chain_cons _ _ _ fr); [by rewrite Hk by lia|done|].
  apply IH. intros k Hk'. apply Hk. lia.
Qed.

Lemma chain_first q a b : chain q a b -> a < b -> exists fr, q !! a = Some fr /\ 0 < StreamFrame_DataLen fr.
Proof. intros H Hlt. destruct H as [|a b fr E Hl _]; [lia|eauto]. Qed.

(** Chains behind [x] do not see changes of the queue before [x]. *)
Lemma chains_ext_after q q' lo from gaps :
  gaps_ok lo gaps -> from < lo -> (forall k, from <= k -> q' !! k = q !! k) ->
  chains q from gaps -> chains q' from gaps.
Proof.
  revert lo from. induction gaps as [|g gaps IH]; intros lo from Hok Hlt Hk; [done|]. intros [Hc Hcs].
  pose proof (gaps_ok_head _ _ _ Hok). split; [apply (chain_ext q); [intros k ?; apply Hk; lia|done]|].
  destruct gaps as [|g' gaps]; [done|].
  apply (IH (bi_End g + 1)); [by eapply gaps_ok_tail|lia|intros k ?; apply Hk; lia|done].
Qed.

(** The chains before a gap are kept by changes from that gap on. *)
Lemma chains_replace q q' lo from before g after gaps :
  gaps_ok lo (before ++ g :: after) -> (forall k, k < bi_Start g -> q' !! k = q !! k) ->
  (forall from', chain q from' (bi_Start g) -> chain q' from' (bi_Start g) -> chains q' from' gaps) ->
  chains q from (before ++ g :: after) -> chains q' from (before ++ gaps).
Proof.
  intros Hok Hk Hg. revert lo from Hok. induction before as [|b before IH]; intros lo from Hok; cbn [app chains].
  - intros [Hc _]. apply Hg; [done|]. apply (chain_ext q); [intros k ?; apply Hk; lia|done].
  - intros [Hc Hcs]. apply gaps_ok_cons in Hok as [Hb Hok]; [|by destruct before].
    destruct (gaps_ok_suffix _ _ _ _ Hok) as (lo' & Hlo & Hg'%gaps_ok_head & _).
    split; [apply (chain_ext q); [intros k ?; apply Hk; lia|done]|by eapply IH].
Qed.

Lemma chains_suffix q from before g after :
  chains q from (before ++ g :: after) -> chains q (bi_End g) after.
Proof. revert from. induction before as [|b before IH]; intros from; cbn; [by intros []|intros [_ H]; eauto]. Qed.

Lemma delete_ends_ne gaps q k :
  Forall (fun g => bi_End g <> k) gaps -> delete_ends gaps q !! k = q !! k.
Proof.
  intros H. revert q. induction H as [|g gaps Hg _ IH]; intros q; [done|]. cbn.
  fold (delete_ends gaps (delete (bi_End g) q)). rewrite IH. by apply lookup_delete_ne.
Qed.

Lemma delete_ends_subseteq gaps q : delete_ends gaps q ⊆ q.
Proof.
  revert q. induction gaps as [|g gaps IH]; intros q; [done|]. cbn.
  fold (delete_ends gaps (delete (bi_End g) q)). etrans; [apply IH|]. apply delete_subseteq.
Qed.

Lemma fill_ends lo passed gap endGap after after' :
  gaps_ok lo (gap :: after) -> gap :: after = passed ++ endGap :: after' ->
  Forall (fun g => bi_End gap <= bi_End g < bi_Start endGap) passed.
Proof.
  intros Hok Heq. pose proof Hok as H. rewrite Heq in H.
  destruct (gaps_ok_suffix _ _ _ _ H) as (lo' & _ & H'%gaps_ok_head & Hf).
  destruct passed as [|p ps]; [constructor|]. injection Heq as <- _.
  apply Forall_forall. intros g Hg. rewrite Forall_forall in Hf. split; [|specialize (Hf g Hg); lia].
  apply elem_of_cons in Hg as [->|Hg]; [done|]. cbn [app] in H. apply gaps_ok_cons in H as [_ H]; [|by destruct ps].
  apply list_elem_of_split in Hg as (l1 & l2 & ->). rewrite <- app_assoc in H.
  destruct (gaps_ok_suffix _ _ _ _ H) as (lo2 & ? & ?%gaps_ok_head & _). lia.
Qed.

(** The chains once the frame from [start] to [end_] is queued. *)
Lemma fill_chains q fr lo passed gap endGap after after' start end_ from :
  gaps_ok lo (gap :: after) -> gap :: after = passed ++ endGap :: after' ->
  bi_Start gap <= start < bi_End gap -> start < end_ <= bi_End endGap ->
  (after' = [] -> end_ < bi_End endGap) -> StreamFrame_DataLen fr = end_ - start ->
  chains q (bi_End endGap) after' ->
  chain (<[start := fr]> (delete_ends passed q)) from (bi_Start gap) ->
  chains (<[start := fr]> (delete_ends passed q)) from (filled start end_ gap endGap ++ after').
Proof.
  intros Hok Heq Hs He Hlast El Hafter Hfrom. set (q' := <[start := fr]> (delete_ends passed q)) in *.
  destruct (fill_order lo passed gap endGap after after' Hok Heq) as (Ho1 & Ho2 & _ & _).
  assert (Hframe : chain q' start end_).
  { apply (chain_cons _ _ _ fr); [apply lookup_insert_eq|lia|].
    replace (start + StreamFrame_DataLen fr) with end_ by lia. constructor. }
  assert (Htail : chains q' (bi_End endGap) after').
  { destruct after' as [|g gs]; [done|]. pose proof Hok as H. rewrite Heq in H.
    destruct (gaps_ok_suffix _ _ _ _ H) as (lo' & _ & H'%gaps_ok_tail & _).
    apply (chains_ext_after q q' (bi_End endGap + 1)); [done|lia| |done].
    intros k Hk. subst q'. rewrite lookup_insert_ne by lia. apply delete_ends_ne.
    eapply Forall_impl; [exact (fill_ends _ _ _ _ _ _ Hok Heq)|]. cbn beta. lia. }
  assert (Hright : forall from', chain q' from' end_ -> chains q' from'
    ((if end_ <? bi_End endGap then [mkByteInterval end_ (bi_End endGap)] else []) ++ after')).
  { intros from' H. destruct (Z.ltb_spec end_ (bi_End endGap)); [by split|]. cbn [app].
    destruct after' as [|g gs]; [done|]. destruct Htail as [Hg Hgs].
    replace (bi_End endGap) with end_ in Hg by lia. split; [by eapply chain_app|done]. }
  unfold filled. rewrite <- app_assoc.
  destruct (Z.ltb_spec (bi_Start gap) start); cbn [app].
  - split; [done|]. by apply Hright.
  - apply Hright. replace (bi_Start gap) with start in Hfrom by lia. by eapply chain_app.
Qed.

(** ** The content of the stream *)

Section Content.
Context (content : Z -> Z) (size : Z).

(** The bytes of the stream from [a] to [b]. *)
Definition slice (a b : Z) : list Z := content <$> seqZ a (b - a).

Lemma slice_length a b : a <= b -> zlen (slice a b) = b - a.
Proof. intros H. unfold slice, zlen. rewrite length_fmap, length_seqZ. lia. Qed.

Lemma slice_app a b c : a <= b <= c -> slice a c = slice a b ++ slice b c.
Proof.
  intros H. unfold slice. rewrite <- fmap_app. f_equal.
  replace (c - a) with ((b - a) + (c - b)) by lia. rewrite seqZ_app by lia. by replace (a + (b - a)) with b by lia.
Qed.

Lemma slice_drop a b n : 0 <= n <= b - a -> drop (Z.to_nat n) (slice a b) = slice (a + n) b.
Proof.
  intros H. rewrite (slice_app a (a + n) b) by lia. apply drop_app_length'.
  pose proof (slice_length a (a + n)). unfold zlen in *. lia.
Qed.

Lemma slice_take a b n : 0 <= n <= b - a -> take (Z.to_nat n) (slice a b) = slice a (a + n).
Proof.
  intros H. rewrite (slice_app a (a + n) b) by lia. apply take_app_length'.
  pose proof (slice_length a (a + n)). unfold zlen in *. lia.
Qed.

(** The frame carries the bytes of the stream at its offset; an empty one marks
    the end of the stream. *)
Record carries (fr : StreamFrame) : Prop := {
  ca_offset : 0 <= sf_Offset fr;
  ca_data : sf_Data fr = slice (sf_Offset fr) (sf_Offset fr + StreamFrame_DataLen fr);
  ca_size : sf_Offset fr + StreamFrame_DataLen fr <= size;
  ca_empty : StreamFrame_DataLen fr = 0 -> sf_FinBit fr = true /\ sf_Offset fr = size
}.

(** A queued frame: where it is stored, and no byte of it is missing. *)
Record queued_ok (gaps : list ByteInterval) (o : Z) (fr : StreamFrame) : Prop := {
  qo_offset : sf_Offset fr = o;
  qo_carries : carries fr;
  qo_gaps : forall x, o <= x < o + StreamFrame_DataLen fr -> ~ in_gaps x gaps
}.

Record sorter_inv (s : streamFrameSorter) : Prop := {
  si_size : 0 <= size < MaxByteCount;
  si_position : 0 <= sfs_readPosition s;
  si_gaps : gaps_ok 0 (sfs_gaps s);
  si_queued : map_Forall (queued_ok (sfs_gaps s)) (sfs_queuedFrames s);
  si_chains : chains (sfs_queuedFrames s) (sfs_readPosition s) (sfs_gaps s)
}.

Lemma queued_ok_fewer gaps gaps' o fr :
  (forall x, in_gaps x gaps' -> in_gaps x gaps) -> queued_ok gaps o fr -> queued_ok gaps' o fr.
Proof. intros H [E C G]. split; [done..|]. intros x Hx Hin. by apply (G x Hx), H. Qed.

(** A frame is stored in the gap it fills. *)
Lemma store_inv s before gap after passed endGap after' start end_ fr :
  sorter_inv s -> sfs_gaps s = before ++ gap :: after -> gap :: after = passed ++ endGap :: after' ->
  bi_Start gap <= start < bi_End gap -> start < end_ -> bi_Start endGap < end_ <= bi_End endGap ->
  (after' = [] -> end_ < bi_End endGap) ->
  sf_Offset fr = start -> StreamFrame_DataLen fr = end_ - start -> carries fr ->
  let gaps := before ++ filled start end_ gap endGap ++ after' in
  sorter_inv (s <| sfs_queuedFrames := <[start := fr]> (delete_ends passed (sfs_queuedFrames s)) |>
                <| sfs_gaps := gaps |>) /\
  forall x, in_gaps x gaps <-> in_gaps x (sfs_gaps s) /\ ~ (start <= x < end_).
Proof.
  intros [Hsz Hpos Hok Hq Hch] Eg Heq Hs Hse He Hlast Eo El Hc gaps. rewrite Eg in Hok, Hch.
  destruct (gaps_ok_suffix _ _ _ _ Hok) as (lo & Hlo & Hok1 & Hbefore).
  destruct (fill_order lo passed gap endGap after after' Hok1 Heq) as (Ho1 & Ho2 & Ho3 & Ho4).
  assert (Hin : forall x, in_gaps x gaps <-> in_gaps x (sfs_gaps s) /\ ~ (start <= x < end_)).
  { intros x. rewrite Eg. subst gaps. unfold in_gaps. rewrite (Exists_app _ before), (Exists_app _ before).
    fold (in_gaps x (filled start end_ gap endGap ++ after')) (in_gaps x (gap :: after)).
    rewrite (fill_in_gaps lo passed gap endGap after after' Hok1 Heq start end_ Hs He).
    assert (Exists (in_gap x) before -> x < start); [|intuition lia].
    intros (g & Hg & Hx)%Exists_exists. rewrite Forall_forall in Hbefore. specialize (Hbefore g Hg).
    apply gaps_ok_head in Hok1. unfold in_gap in Hx. lia. }
  split; [|done]. split; cbn; fold gaps; [done|done| | |].
  - eapply gaps_ok_replace; [done|].
    by apply (fill_gaps_ok lo passed gap endGap after after').
  - apply map_Forall_insert_2.
    + split; [done|done|]. intros x Hx Hx'. apply Hin in Hx' as [_ Hx']. lia.
    + intros o f E. apply (queued_ok_fewer (sfs_gaps s)); [intros x Hx; by apply Hin|]. apply Hq.
      by eapply lookup_weaken, delete_ends_subseteq.
  - apply (chains_replace (sfs_queuedFrames s) (<[start := fr]> (delete_ends passed (sfs_queuedFrames s)))
      0 _ before gap after _ Hok); [| |exact Hch].
    + intros k Hk. rewrite lookup_insert_ne by lia. apply delete_ends_ne.
      eapply Forall_impl; [exact (fill_ends _ _ _ _ _ _ Hok1 Heq)|]. cbn beta. lia.
    + intros from _ Hfrom. eapply fill_chains; [done|done|lia|lia|done|done| |done].
      rewrite Heq, app_assoc in Hch. by apply chains_suffix in Hch.
Qed.

(** What [Push] may answer, and what it does to the gaps: the bytes of the frame
    are missing no more.  The frame that is read next stays in place. *)
Definition pushed (s : streamFrameSorter) (start end_ : Z) (r : outcome unit * streamFrameSorter) : Prop :=
  match r with
  | (Ok _, s') => sorter_inv s' /\ sfs_readPosition s' = sfs_readPosition s /\
      (forall x, in_gaps x (sfs_gaps s') <-> in_gaps x (sfs_gaps s) /\ ~ (start <= x < end_)) /\
      (forall h, Head s = Some h -> 0 < StreamFrame_DataLen h -> Head s' = Some h)
  | (Err e, s') => e = errTooManyGapsInReceivedStreamData \/
      (e = errDuplicateStreamData /\ s' = s /\ forall x, start <= x < end_ -> ~ in_gaps x (sfs_gaps s))
  | (Panic _, _) => False
  end.

(** The bounds of the stored frame, from the two searches. *)
Lemma end_found_adjust start end_ gap endGap place passed lo after after' :
  gaps_ok lo (gap :: after) -> gap :: after = passed ++ endGap :: after' ->
  bi_Start gap <= start < bi_End gap -> start < end_ ->
  Forall (fun g => bi_End g <= end_) passed -> end_found end_ endGap place after' ->
  (passed = [] -> place = AtGap) -> (passed <> [] -> place <> AtGap) ->
  adjust_gaps start (Z.min end_ (bi_End endGap)) gap endGap place
    = filled start (Z.min end_ (bi_End endGap)) gap endGap /\
  (after' = [] -> Z.min end_ (bi_End endGap) < bi_End endGap).
Proof.
  intros Hok Heq Hs Hse Hp Hf Hat Hnat.
  destruct (fill_order lo passed gap endGap after after' Hok Heq) as (Ho1 & Ho2 & Ho3 & Ho4). split.
  - apply adjust_gaps_filled; [lia..|]. destruct passed as [|p ps]; [rewrite (Hat eq_refl); auto|].
    injection Heq as <- _. apply Forall_cons in Hp as [Hp _]. specialize (Hnat ltac:(done)).
    destruct after'; cbn [end_found] in Hf; destruct place; try done; intuition (congruence || lia).
  - intros ->. cbn [end_found] in Hf. lia.
Qed.

(** The missing bytes of the frame are those that are stored. *)
Lemma missing_bounds before gap after passed endGap after' place start end_ lo x :
  gaps_ok lo (gap :: after) -> gap :: after = passed ++ endGap :: after' ->
  Forall (fun g => bi_End g < start) before -> end_found end_ endGap place after' ->
  in_gaps x (before ++ gap :: after) -> start <= x < end_ ->
  bi_Start gap <= x < Z.min end_ (bi_End endGap).
Proof.
  intros Hok Heq Hb Hf Hx Hxe.
  destruct (fill_order lo passed gap endGap after after' Hok Heq) as (Ho1 & Ho2 & _ & _).
  apply Exists_app in Hx as [Hx|Hx].
  { apply Exists_exists in Hx as (g & Hg & Hx). rewrite Forall_forall in Hb. specialize (Hb g Hg).
    unfold in_gap in Hx. lia. }
  assert (bi_Start gap <= x).
  { apply (gaps_ok_bound (bi_Start gap) (gap :: after)); [|done].
    pose proof (gaps_ok_head _ _ _ Hok). destruct after; cbn [gaps_ok] in *; split; (lia || apply Hok). }
  split; [done|]. rewrite Heq in Hx. apply Exists_app in Hx as [Hx|[Hx|Hx]%Exists_cons].
  - apply (fill_passed lo passed gap endGap after after' Hok Heq) in Hx. unfold in_gap in Hx. lia.
  - unfold in_gap in Hx. lia.
  - destruct after' as [|next after']; [by apply Exists_nil in Hx|]. cbn [end_found] in Hf.
    rewrite Heq in Hok. destruct (gaps_ok_suffix _ _ _ _ Hok) as (lo' & _ & H'%gaps_ok_tail & _).
    assert (bi_Start next <= x); [|lia]. apply (gaps_ok_bound (bi_Start next) (next :: after')); [|done].
    pose proof (gaps_ok_head _ _ _ H'). destruct after'; cbn [gaps_ok] in *; split; (lia || apply H').
Qed.

Lemma slice_from_run n data s :
  0 <= n <= zlen data -> slice_from n data s = (Ok (drop (Z.to_nat n) data), s).
Proof. intros H. unfold slice_from. destruct (Z.leb_spec 0 n), (Z.leb_spec n (zlen data)); [done|lia..]. Qed.

Lemma slice_to_run n data s :
  0 <= n <= zlen data -> slice_to n data s = (Ok (take (Z.to_nat n) data), s).
Proof. intros H. unfold slice_to. destruct (Z.leb_spec 0 n), (Z.leb_spec n (zlen data)); [done|lia..]. Qed.

(** The part of the frame from [a] to [b]. *)
Definition cut (frame : StreamFrame) (a b : Z) : StreamFrame :=
  frame <| sf_Offset := a |> <| sf_Data := slice a b |>.

Lemma cut_carries frame a b : 0 <= a < b -> b <= size -> carries (cut frame a b).
Proof.
  intros Ha Hb. assert (E : StreamFrame_DataLen (cut frame a b) = b - a) by (apply slice_length; lia).
  split; rewrite ?E; change (sf_Offset (cut frame a b)) with a; [lia| |lia|lia].
  change (sf_Data (cut frame a b)) with (slice a b). f_equal; lia.
Qed.

(** What [push_frame] computes once the two gaps are found. *)
Lemma push_frame_run s frame before gap after passed endGap place after' :
  let start := sf_Offset frame in
  let end_ := start + StreamFrame_DataLen frame in
  let start' := Z.max start (bi_Start gap) in
  let end' := Z.min end_ (bi_End endGap) in
  let gaps := before ++ adjust_gaps start' end' gap endGap place ++ after' in
  carries frame -> size < MaxByteCount -> start' < end' ->
  find_gap start end_ [] (sfs_gaps s) = Ok (before, gap, after) ->
  find_end_gap end_ gap AtGap after (sfs_queuedFrames s)
    = (inl (endGap, place, after'), delete_ends passed (sfs_queuedFrames s)) ->
  push_frame frame s =
    (if MaxStreamFrameSorterGaps <? zlen gaps
     then (Err errTooManyGapsInReceivedStreamData,
           s <| sfs_queuedFrames := delete_ends passed (sfs_queuedFrames s) |> <| sfs_gaps := gaps |>)
     else (Ok tt, s <| sfs_queuedFrames := <[start' := cut frame start' end']>
             (delete_ends passed (sfs_queuedFrames s)) |> <| sfs_gaps := gaps |>)).
Proof.
  intros start end_ start' end' gaps [Hoff Hdata Hsize _] Hmax Hse Eg Ee.
  pose proof (zlen_nonneg (sf_Data frame)) as Hn. change (zlen (sf_Data frame)) with (StreamFrame_DataLen frame) in Hn.
  unfold push_frame. rewrite u64_small by (unfold MaxByteCount in *; lia). fold start end_.
  erewrite run_bind_ok by reflexivity. rewrite Eg. erewrite run_bind_ok by reflexivity. cbn beta iota.
  set (add := if start <? bi_Start gap then bi_Start gap - start else 0).
  assert (Hadd : 0 <= add /\ start + add = start') by (subst add start'; cases_bool; lia).
  erewrite run_bind_ok by (apply slice_from_run; change (zlen (sf_Data frame)) with (StreamFrame_DataLen frame); lia).
  rewrite Hdata, slice_drop by lia. fold start end_. rewrite (proj2 Hadd). cbn beta zeta.
  rewrite Ee. erewrite run_bind_ok by reflexivity.
  set (cutLen := if bi_End endGap <? end_ then end_ - bi_End endGap else 0).
  assert (Hcut : end_ - cutLen = end') by (subst cutLen end'; cases_bool; lia).
  rewrite Hcut. fold gaps. change (StreamFrame_DataLen _) with (zlen (slice start' end_)).
  rewrite slice_length, (u64_small_eq _ (end' - start')) by (unfold MaxByteCount in *; lia).
  erewrite run_bind_ok by (apply slice_to_run; change (sf_Data _) with (slice start' end_);
    rewrite slice_length by lia; lia).
  change (sf_Data (_ <| sf_Data := slice start' end_ |>)) with (slice start' end_).
  rewrite slice_take by lia. replace (start' + (end' - start')) with end' by lia.
  erewrite run_bind_ok by reflexivity. by destruct (MaxStreamFrameSorterGaps <? zlen gaps).
Qed.

Lemma gaps_first s :
  sorter_inv s -> exists g gaps, sfs_gaps s = g :: gaps /\ sfs_readPosition s <= bi_Start g < bi_End g.
Proof.
  intros [_ _ Hok _ Hch]. destruct (sfs_gaps s) as [|g gaps]; [done|]. exists g, gaps.
  destruct Hch as [H%chain_le _]. apply gaps_ok_head in Hok. split; [done|lia].
Qed.

(** The frame at the read position is before the gap that is filled. *)
Lemma store_keeps_head s sk gap after passed endGap after' fr start' gaps' h :
  sorter_inv s -> sfs_gaps s = sk ++ gap :: after -> gap :: after = passed ++ endGap :: after' ->
  bi_Start gap <= start' < bi_End gap -> Head s = Some h -> 0 < StreamFrame_DataLen h ->
  Head (s <| sfs_queuedFrames := <[start' := fr]> (delete_ends passed (sfs_queuedFrames s)) |>
          <| sfs_gaps := gaps' |>) = Some h.
Proof.
  intros Hinv Eg Heq Hst Eh Hl. pose proof Hinv as [_ _ Hok Hq _].
  destruct (gaps_first s Hinv) as (g & gs & Eg' & Hfirst).
  destruct (gaps_ok_suffix 0 sk gap after ltac:(by rewrite <- Eg)) as (lo & _ & Hok1 & Hsk).
  assert (Hpos : sfs_readPosition s <= bi_Start gap).
  { rewrite Eg in Eg'. destruct sk as [|g0 sk]; injection Eg' as <- _; [lia|].
    apply Forall_cons in Hsk as [Hsk _]. pose proof (gaps_ok_head _ _ _ Hok1). lia. }
  assert (Hnot : sfs_readPosition s <> bi_Start gap).
  { intros E. destruct (Hq _ _ Eh) as [_ _ Hng]. apply (Hng (sfs_readPosition s)); [lia|].
    rewrite Eg. apply Exists_app. right. left. unfold in_gap. lia. }
  unfold Head in *. cbn [sfs_queuedFrames sfs_readPosition assign]. unfold assign. cbn.
  rewrite lookup_insert_ne by lia. rewrite delete_ends_ne; [done|].
  eapply Forall_impl; [exact (fill_ends _ _ _ _ _ _ Hok1 Heq)|]. cbn beta. lia.
Qed.

Lemma push_frame_spec s frame :
  sorter_inv s -> carries frame -> 0 < StreamFrame_DataLen frame ->
  Forall (fun g => bi_End g <> sf_Offset frame) (sfs_gaps s) ->
  pushed s (sf_Offset frame) (sf_Offset frame + StreamFrame_DataLen frame) (push_frame frame s).
Proof.
  intros Hinv Hcar Hlen Hne. pose proof Hinv as [Hsz _ Hok _ _]. pose proof Hcar as [Hoff _ Hsize _].
  set (start := sf_Offset frame) in *. set (end_ := start + StreamFrame_DataLen frame) in *.
  pose proof (find_gap_spec start end_ [] (sfs_gaps s) 0 Hok ltac:(lia) ltac:(lia)) as Hgap.
  destruct (find_gap start end_ [] (sfs_gaps s)) as [[[before gap] after]|e|p] eqn:Efg; [| |done].
  2: { unfold push_frame. rewrite u64_small by (unfold MaxByteCount in *; lia). fold start end_.
       erewrite run_bind_ok by reflexivity. rewrite Efg. right. destruct Hgap as [-> H]. by split_and!. }
  destruct Hgap as (sk & Ebefore & Eg & Hsk & Hg1 & Hg2). cbn in Ebefore. subst before.
  destruct (gaps_ok_suffix 0 sk gap after ltac:(by rewrite <- Eg)) as (lo & _ & Hok1 & _).
  pose proof (gaps_ok_head _ _ _ Hok1) as Hgh.
  assert (Hg3 : start < bi_End gap).
  { rewrite Eg in Hne. apply Forall_app in Hne as [_ [Hne _]%Forall_cons]. lia. }
  destruct (find_end_gap_spec end_ gap AtGap after (sfs_queuedFrames s) lo Hok1 Hg1 ltac:(lia))
    as (passed & endGap & place & after' & Ee & Heq & He1 & Hp & Hf & Hat & Hnat); [done|].
  destruct (fill_order lo passed gap endGap after after' Hok1 Heq) as (Ho1 & Ho2 & _ & _).
  destruct (end_found_adjust (Z.max start (bi_Start gap)) end_ gap endGap place passed lo after after')
    as [Eadj Hlast]; [done|done|lia|lia|done|done|auto|auto|].
  rewrite (push_frame_run s frame sk gap after passed endGap place after') by (done || lia).
  fold start end_. rewrite Eadj. set (start' := Z.max start (bi_Start gap)) in *.
  set (end' := Z.min end_ (bi_End endGap)) in *. destruct (_ <? _); [by left|].
  destruct (store_inv s sk gap after passed endGap after' start' end' (cut frame start' end') Hinv Eg Heq)
    as [Hs' Hin]; [lia|lia|lia|done|done|apply slice_length; lia|apply cut_carries; lia|].
  split; [exact Hs'|]. split; [done|]. split.
  2: { intros h. apply (store_keeps_head s sk gap after passed endGap after'); [done|done|done|lia]. }
  intros x.
  change (sfs_gaps _) with (sk ++ filled start' end' gap endGap ++ after') at 1. rewrite Hin.
  split; intros [Hx Hn]; (split; [done|]); intros Hr; apply Hn; [|lia].
  rewrite Eg in Hx. pose proof (missing_bounds sk gap after passed endGap after' place start end_ lo x
    Hok1 Heq Hsk Hf Hx Hr). lia.
Qed.

(** Every gap but the last is followed by a queued frame. *)
Lemma gap_ends_queued q lo from gaps :
  gaps_ok lo gaps -> chains q from gaps ->
  Forall (fun g => bi_End g = MaxByteCount \/ is_Some (q !! bi_End g)) gaps.
Proof.
  revert lo from. induction gaps as [|g gaps IH]; intros lo from Hok; [done|]. intros [_ Hc].
  destruct gaps as [|g' gaps]; [repeat constructor; apply Hok|].
  pose proof (gaps_ok_tail _ _ _ _ Hok) as Hok'. constructor; [right|by eapply IH].
  destruct Hc as [Hc _]. apply gaps_ok_head in Hok'. destruct (chain_first _ _ _ Hc) as (fr & E & _); [lia|eauto].
Qed.

(** The queue at the end of the stream is no part of a chain. *)
Lemma chains_at_size q q' gaps from gaps' :
  map_Forall (queued_ok gaps') q -> (forall k, k <> size -> q' !! k = q !! k) ->
  chains q from gaps -> chains q' from gaps.
Proof.
  intros Hq Hk. assert (Hc : forall a b, chain q a b -> chain q' a b).
  { induction 1 as [|a b fr E Hl _ IH]; [constructor|]. apply (chain_cons _ _ _ fr); [|done|done].
    destruct (Hq a fr E) as [Eo [] _]. rewrite Hk by lia. done. }
  revert from. induction gaps as [|g gaps IH]; intros from; [done|]. intros [H1 H2]. split; auto.
Qed.

Lemma pushed_widen s start mid end_ r :
  (forall x, start <= x < mid -> ~ in_gaps x (sfs_gaps s)) -> start <= mid ->
  pushed s mid end_ r -> pushed s start end_ r.
Proof.
  intros H Hm. destruct r as [[u|e|p] s']; cbn; [|intros [|(-> & -> & Hd)]|done].
  - intros (Hi & Hp & Hin & Hh). split_and!; [done|done| |done]. intros x. rewrite Hin.
    split; intros [Hx Hn]; (split; [done|]); intros Hr; [|apply Hn; lia].
    destruct (Z.lt_ge_cases x mid); [by apply (H x); [lia|]|apply Hn; lia].
  - by left.
  - right. split_and!; [done..|]. intros x Hx. destruct (Z.lt_ge_cases x mid); [apply H|apply Hd]; lia.
Qed.

Lemma Push_fin s frame :
  sorter_inv s -> carries frame -> StreamFrame_DataLen frame = 0 ->
  pushed s (sf_Offset frame) (sf_Offset frame + StreamFrame_DataLen frame) (Push frame s).
Proof.
  intros [Hsz Hp Hok Hq Hch] Hcar E0. destruct (ca_empty _ Hcar E0) as [Hfin Ho].
  unfold Push. rewrite E0, Hfin. cbn. rewrite Ho.
  split; [|split; [done|split; [intros x; split; [intros ?; split; [done|lia]|by intros []]|]]].
  2: { intros h Eh Hl. destruct (Hq _ _ Eh) as [Eo [_ _ Hs _] _].
       change (<[size := frame]> (sfs_queuedFrames s) !! sfs_readPosition s = Some h).
       rewrite lookup_insert_ne by lia. done. }
  split; [done|done|done| |]; fields; cbn.
  - apply map_Forall_insert_2; [|done]. split; [done|done|]. lia.
  - apply (chains_at_size (sfs_queuedFrames s) _ _ _ (sfs_gaps s)); [done| |done].
    intros k Hk. by rewrite lookup_insert_ne.
Qed.

Lemma Push_spec s frame :
  sorter_inv s -> carries frame ->
  pushed s (sf_Offset frame) (sf_Offset frame + StreamFrame_DataLen frame) (Push frame s).
Proof.
  intros Hinv Hcar. pose proof (zlen_nonneg (sf_Data frame)) as Hn.
  change (zlen (sf_Data frame)) with (StreamFrame_DataLen frame) in Hn.
  destruct (Z.eq_dec (StreamFrame_DataLen frame) 0) as [E0|E0]; [by apply Push_fin|].
  pose proof Hinv as [Hsz _ Hok Hq Hch]. pose proof Hcar as [Hoff Hdata Hsize _].
  unfold Push. destruct (Z.eqb_spec (StreamFrame_DataLen frame) 0) as [|_]; [done|].
  erewrite run_bind_ok by reflexivity.
  destruct (sfs_queuedFrames s !! sf_Offset frame) as [old|] eqn:E.
  - destruct (Hq _ _ E) as [Eo Hold Hold_gaps]. pose proof Hold as [_ _ _ Hempty].
    assert (Hl : 0 < StreamFrame_DataLen old).
    { pose proof (zlen_nonneg (sf_Data old)) as H. change (zlen (sf_Data old)) with (StreamFrame_DataLen old) in H.
      destruct (Z.eq_dec (StreamFrame_DataLen old) 0) as [E1|]; [|lia]. destruct (Hempty E1). lia. }
    destruct (Z.leb_spec (StreamFrame_DataLen frame) (StreamFrame_DataLen old)) as [Hle|Hgt].
    + right. split_and!; [done..|]. intros x Hx. apply Hold_gaps. lia.
    + erewrite run_bind_ok by (apply slice_from_run;
        change (zlen (sf_Data frame)) with (StreamFrame_DataLen frame); lia).
      rewrite Hdata, slice_drop, u64_small by (unfold MaxByteCount in *; lia).
      set (mid := sf_Offset frame + StreamFrame_DataLen old).
      set (end_ := sf_Offset frame + StreamFrame_DataLen frame).
      change (_ <| sf_Data := _ |> <| sf_Offset := _ |>) with (cut frame mid end_).
      assert (Ec : StreamFrame_DataLen (cut frame mid end_) = end_ - mid) by (apply slice_length; lia).
      apply (pushed_widen s _ mid); [intros x Hx; apply Hold_gaps; lia|lia|].
      replace end_ with (mid + StreamFrame_DataLen (cut frame mid end_)) at 1 by lia.
      apply push_frame_spec; [done|apply cut_carries; lia|lia|].
      apply Forall_forall. intros g Hg Hend. change (bi_End g = mid) in Hend.
      apply (Hold_gaps (mid - 1)); [lia|]. apply Exists_exists. exists g. split; [done|].
      apply list_elem_of_split in Hg as (l1 & l2 & Eg). rewrite Eg in Hok.
      destruct (gaps_ok_suffix _ _ _ _ Hok) as (lo & _ & ?%gaps_ok_head & _). unfold in_gap. lia.
  - apply push_frame_spec; [done|done|lia|].
    eapply Forall_impl; [exact (gap_ends_queued _ _ _ _ Hok Hch)|]. cbn beta.
    intros g [Hg|[fr Hg]] Hend; [lia|]. congruence.
Qed.

Lemma Pop_spec s :
  sorter_inv s ->
  match Pop s with
  | (Some fr, s') => sorter_inv s' /\ sfs_gaps s' = sfs_gaps s /\
      sfs_readPosition s <= sfs_readPosition s' /\
      sf_Data fr = slice (sfs_readPosition s) (sfs_readPosition s')
  | (None, s') => s' = s
  end.
Proof.
  intros Hinv. pose proof Hinv as [Hsz Hpos Hok Hq Hch]. unfold Pop, Head.
  destruct (sfs_queuedFrames s !! sfs_readPosition s) as [fr|] eqn:E; [|done].
  destruct (Hq _ _ E) as [Eo Hcar Hg]. pose proof Hcar as [_ Hdata Hsize Hempty].
  pose proof (zlen_nonneg (sf_Data fr)) as Hn. change (zlen (sf_Data fr)) with (StreamFrame_DataLen fr) in Hn.
  rewrite u64_small by (unfold MaxByteCount in *; lia). rewrite Eo in *.
  split; [|split; [done|split; [fields; cbn; lia|done]]].
  split; fields; cbn [sfs_readPosition sfs_gaps sfs_queuedFrames]; [done|lia|done|by apply map_Forall_delete|].
  destruct (Z.eq_dec (StreamFrame_DataLen fr) 0) as [E0|E0].
  - rewrite E0, Z.add_0_r. apply (chains_at_size (sfs_queuedFrames s) _ _ _ (sfs_gaps s)); [done| |done].
    intros k Hk. destruct (Hempty E0) as [_ Hend]. rewrite lookup_delete_ne by congruence. done.
  - destruct (gaps_first s Hinv) as (g & gaps & Eg & Hfirst). rewrite Eg in *. destruct Hch as [Hc Hcs].
    inversion Hc as [a Ea|a b fr' E' Hl Hc']; subst.
    { destruct (Hg (bi_Start g)); [lia|]. left. unfold in_gap. lia. }
    rewrite E in E'. injection E' as <-. split.
    + apply (chain_ext (sfs_queuedFrames s)); [|done]. intros k Hk. apply lookup_delete_ne. lia.
    + destruct gaps as [|g' gaps]; [done|].
      apply (chains_ext_after (sfs_queuedFrames s) _ (bi_End g + 1)); [by eapply gaps_ok_tail|lia| |done].
      intros k Hk. apply lookup_delete_ne. lia.
Qed.

Lemma Head_spec s :
  sorter_inv s -> sfs_readPosition s < size ->
  Head s = None <-> in_gaps (sfs_readPosition s) (sfs_gaps s).
Proof.
  intros Hinv Hlt. pose proof Hinv as [_ _ Hok Hq Hch]. unfold Head.
  destruct (gaps_first s Hinv) as (g & gaps & Eg & Hfirst). split.
  - intros E. rewrite Eg in *. left. unfold in_gap. destruct Hch as [Hc _].
    destruct (Z.eq_dec (sfs_readPosition s) (bi_Start g)); [lia|].
    destruct (chain_first _ _ _ Hc) as (fr & E' & _); [lia|congruence].
  - intros Hin. destruct (sfs_queuedFrames s !! sfs_readPosition s) as [fr|] eqn:E; [|done].
    destruct (Hq _ _ E) as [Eo [_ _ _ Hempty] Hg]. pose proof (zlen_nonneg (sf_Data fr)) as Hn.
    change (zlen (sf_Data fr)) with (StreamFrame_DataLen fr) in Hn.
    destruct (Z.eq_dec (StreamFrame_DataLen fr) 0) as [E0|]; [destruct (Hempty E0); lia|].
    destruct (Hg (sfs_readPosition s)); [lia|done].
Qed.
End Content.

(** ** Runs of the sorter *)

Inductive sorter_op := SPush (fr : StreamFrame) | SPop.

(** The sorter, the data popped so far, and the frames pushed; an error other
    than a duplicate ends the run, as it closes the connection. *)
Record sorter_run := mkSorterRun {
  sr_s : streamFrameSorter;
  sr_out : list Z;
  sr_frames : list StreamFrame;
  sr_result : outcome unit
}.

Definition sorter_step (r : sorter_run) (op : sorter_op) : sorter_run :=
  match sr_result r with
  | Ok _ =>
      match op with
      | SPush fr =>
          let '(o, s) := Push fr (sr_s r) in
          mkSorterRun s (sr_out r) (fr :: sr_frames r)
            (if decide (o = Err errDuplicateStreamData) then Ok tt else o)
      | SPop =>
          let '(popped, s) := Pop (sr_s r) in
          mkSorterRun s (sr_out r ++ from_option sf_Data [] popped) (sr_frames r) (Ok tt)
      end
  | _ => r
  end.

Definition sorter_start : sorter_run := mkSorterRun newStreamFrameSorter [] [] (Ok tt).

(** The byte at [x] was in a frame. *)
Definition arrived (x : Z) (frames : list StreamFrame) : Prop :=
  Exists (fun fr => sf_Offset fr <= x < sf_Offset fr + StreamFrame_DataLen fr) frames.

Definition op_carries (content : Z -> Z) (size : Z) (op : sorter_op) : Prop :=
  match op with SPush fr => carries content size fr | SPop => True end.

Definition run_inv (content : Z -> Z) (size : Z) (r : sorter_run) : Prop :=
  match sr_result r with
  | Ok _ => sorter_inv content size (sr_s r) /\
      sr_out r = slice content 0 (sfs_readPosition (sr_s r)) /\
      forall x, 0 <= x < MaxByteCount -> in_gaps x (sfs_gaps (sr_s r)) <-> ~ arrived x (sr_frames r)
  | Err e => e = errTooManyGapsInReceivedStreamData
  | Panic _ => False
  end.

Lemma sorter_step_inv content size r op :
  run_inv content size r -> op_carries content size op -> run_inv content size (sorter_step r op).
Proof.
  intros Hr Hop. unfold run_inv, sorter_step in *. destruct (sr_result r) eqn:Er; [|by rewrite Er..].
  destruct Hr as (Hinv & Hout & Hin). destruct op as [fr|].
  - pose proof (Push_spec content size _ fr Hinv Hop) as H. destruct (Push fr (sr_s r)) as [[u|e|p] s'];
      cbn [sr_result sr_s sr_out sr_frames]; [| |done].
    + rewrite decide_False by done. destruct H as (Hi & Hp & Hg & _). split; [done|]. split; [by rewrite Hp|].
      intros x Hx. rewrite Hg, Hin by done. unfold arrived. rewrite Exists_cons. tauto.
    + destruct H as [->|(-> & -> & Hd)]; [by rewrite decide_False by done|]. rewrite decide_True by done.
      split; [done|]. split; [done|]. intros x Hx. unfold arrived. rewrite Exists_cons.
      specialize (Hd x). specialize (Hin x Hx). unfold arrived in Hin. tauto.
  - pose proof (Pop_spec content size _ Hinv) as H. destruct (Pop (sr_s r)) as [[fr|] s'];
      cbn [sr_result sr_s sr_out sr_frames from_option].
    + destruct H as (Hi & Eg & Hle & Hd). split; [done|]. rewrite Eg. split; [|done].
      rewrite Hout, Hd. symmetry. apply slice_app. pose proof (si_position _ _ _ Hinv). lia.
    + subst s'. by rewrite app_nil_r.
Qed.

Lemma sorter_start_inv content size : 0 <= size < MaxByteCount -> run_inv content size sorter_start.
Proof.
  intros Hs. split; [|split; [done|]].
  - split; [done|done|done|apply map_Forall_empty|]. split; [constructor|done].
  - intros x Hx. split; [intros _ H; by apply Exists_nil in H|]. intros _. left. done.
Qed.

Lemma sorter_run_inv content size ops r :
  run_inv content size r -> Forall (op_carries content size) ops -> run_inv content size (foldl sorter_step r ops).
Proof.
  intros Hr Hops. revert r Hr. induction Hops as [|op ops Hop _ IH]; intros r Hr; [done|].
  by apply IH, sorter_step_inv.
Qed.

(** One [Pop] at a position that has arrived makes progress. *)
Lemma Pop_progress content size s :
  sorter_inv content size s -> sfs_readPosition s < size ->
  ~ in_gaps (sfs_readPosition s) (sfs_gaps s) -> sfs_readPosition s < sfs_readPosition (snd (Pop s)).
Proof.
  intros Hinv Hlt Hg. pose proof Hinv as [Hsz Hpos _ Hq _].
  pose proof (Head_spec content size s Hinv Hlt) as Hh. unfold Pop, Head in *.
  destruct (sfs_queuedFrames s !! sfs_readPosition s) as [fr|] eqn:E; [|tauto]. cbn [snd].
  destruct (Hq _ _ E) as [Eo [_ _ Hsize Hempty] _]. pose proof (zlen_nonneg (sf_Data fr)) as Hn.
  change (zlen (sf_Data fr)) with (StreamFrame_DataLen fr) in Hn. fields. cbn [sfs_readPosition].
  rewrite u64_small by (unfold MaxByteCount in *; lia).
  destruct (Z.eq_dec (StreamFrame_DataLen fr) 0) as [E0|]; [destruct (Hempty E0); lia|lia].
Qed.

Lemma pops_reach content size p n r :
  run_inv content size r -> sr_result r = Ok tt -> p <= size ->
  (forall x, 0 <= x < p -> arrived x (sr_frames r)) -> p - sfs_readPosition (sr_s r) <= Z.of_nat n ->
  let r' := foldl sorter_step r (repeat SPop n) in
  sr_result r' = Ok tt /\ p <= sfs_readPosition (sr_s r').
Proof.
  intros Hr Er Hp Ha. revert r Hr Er Ha. induction n as [|n IH]; intros r Hr Er Ha Hn; cbn [repeat foldl].
  { split; [done|lia]. }
  pose proof (sorter_step_inv content size r SPop Hr I) as Hr'. unfold run_inv in Hr. rewrite Er in Hr.
  destruct Hr as (Hinv & _ & Hin). pose proof (Pop_spec content size _ Hinv) as Hpop.
  pose proof (Pop_progress content size (sr_s r) Hinv) as Hprog.
  unfold sorter_step in *. rewrite Er in *. destruct (Pop (sr_s r)) as [popped s'] eqn:Epop. cbn [snd] in Hprog.
  apply IH; [done|done|done|]. cbn [sr_s]. pose proof Hinv as [Hsz Hpos _ _ _].
  destruct (Z.lt_ge_cases (sfs_readPosition (sr_s r)) p) as [Hlt|Hge].
  - assert (sfs_readPosition (sr_s r) < sfs_readPosition s'); [|lia]. apply Hprog; [lia|].
    rewrite Hin by lia. intros H. apply H, Ha. lia.
  - destruct popped; [destruct Hpop as (_ & _ & ? & _); lia|subst; lia].
Qed.

(** ** Properties *)

(** C5: reassembly.  Frames of a stream may arrive in any order, overlapping
    and repeated, with pops in between: [Push] never panics nor reports one of its
    internal errors, the data popped is exactly the stream up to the read
    position, and the sorter has a frame to offer exactly when the next byte has
    arrived. *)
Theorem sorter_delivers content size ops :
  0 <= size < MaxByteCount -> Forall (op_carries content size) ops ->
  let r := foldl sorter_step sorter_start ops in
  let position := sfs_readPosition (sr_s r) in
  sr_result r = Err errTooManyGapsInReceivedStreamData \/
  sr_result r = Ok tt /\ sr_out r = slice content 0 position /\
    (position < size -> Head (sr_s r) <> None <-> arrived position (sr_frames r)).
Proof.
  intros Hs Hops r position.
  pose proof (sorter_run_inv content size ops _ (sorter_start_inv content size Hs) Hops) as Hr.
  fold r in Hr. unfold run_inv in Hr. destruct (sr_result r) as [[]|e|p]; [right|left; congruence|done].
  destruct Hr as (Hinv & Hout & Hin). split; [done|]. split; [done|]. intros Hlt.
  pose proof Hinv as [_ Hpos _ _ _].
  pose proof (Head_spec content size _ Hinv Hlt) as Hh. specialize (Hin position ltac:(lia)).
  assert (Hdec : Decision (arrived position (sr_frames r))) by (unfold arrived; apply _).
  subst position. destruct Hdec; tauto.
Qed.

(** C33: nothing that arrived is stuck.  Once every byte before [p] has arrived,
    at most [p] pops deliver them all. *)
Theorem sorter_complete content size ops p :
  0 <= size < MaxByteCount -> Forall (op_carries content size) ops -> 0 <= p <= size ->
  sr_result (foldl sorter_step sorter_start ops) = Ok tt ->
  (forall x, 0 <= x < p -> arrived x (sr_frames (foldl sorter_step sorter_start ops))) ->
  let r := foldl sorter_step sorter_start (ops ++ repeat SPop (Z.to_nat p)) in
  sr_result r = Ok tt /\ slice content 0 p `prefix_of` sr_out r.
Proof.
  intros Hs Hops Hp Er Ha. cbn zeta. rewrite foldl_app.
  pose proof (sorter_run_inv content size ops _ (sorter_start_inv content size Hs) Hops) as Hr.
  assert (Hpos : 0 <= sfs_readPosition (sr_s (foldl sorter_step sorter_start ops))).
  { unfold run_inv in Hr. rewrite Er in Hr. apply (si_position content size), Hr. }
  destruct (pops_reach content size p (Z.to_nat p) _ Hr Er ltac:(lia) Ha ltac:(lia)) as [Er' Hle].
  split; [done|]. assert (Hr' := sorter_run_inv content size (repeat SPop (Z.to_nat p)) _ Hr).
  unfold run_inv in Hr'. rewrite Er' in Hr'. destruct Hr' as (_ & -> & _).
  { apply Forall_forall. intros op Hop%list_elem_of_In%repeat_spec. by subst. }
  rewrite (slice_app content 0 p (sfs_readPosition _)) by (split; [lia|exact Hle]). by eexists.
Qed.

(** A stream of 25 bytes in overlapping frames, out of order, a duplicate among
    them, with a pop too early. *)
Definition sample_content (x : Z) : Z := x mod 256.
Definition sample_frame (fin : bool) (o n : Z) : StreamFrame :=
  mkStreamFrame 5 fin true o (slice sample_content o (o + n)).
Definition sample_pushes : list sorter_op :=
  [SPush (sample_frame false 10 5); SPop; SPush (sample_frame true 20 5); SPush (sample_frame false 10 5);
   SPush (sample_frame false 0 12); SPop; SPush (sample_frame false 13 9); SPush (sample_frame true 25 0)].

Lemma sample_length fin o n : 0 <= n -> StreamFrame_DataLen (sample_frame fin o n) = n.
Proof. intros. unfold StreamFrame_DataLen. cbn [sf_Data sample_frame]. rewrite slice_length; lia. Qed.

Lemma sample_carries fin o n :
  0 <= o -> 0 < n -> o + n <= 25 -> carries sample_content 25 (sample_frame fin o n).
Proof.
  intros. split; rewrite ?sample_length by lia; cbn [sf_Offset sf_Data sample_frame]; (done || lia).
Qed.

Lemma sample_pushes_carry : Forall (op_carries sample_content 25) sample_pushes.
Proof. repeat constructor; try (apply sample_carries; lia); done. Qed.

Lemma sorter_delivers_witness :
  sr_out (foldl sorter_step sorter_start sample_pushes) = slice sample_content 0 10 /\
  (sr_result (foldl sorter_step sorter_start sample_pushes) = Err errTooManyGapsInReceivedStreamData \/
   sr_result (foldl sorter_step sorter_start sample_pushes) = Ok tt /\
   sr_out (foldl sorter_step sorter_start sample_pushes)
     = slice sample_content 0 (sfs_readPosition (sr_s (foldl sorter_step sorter_start sample_pushes))) /\
   (sfs_readPosition (sr_s (foldl sorter_step sorter_start sample_pushes)) < 25 ->
    Head (sr_s (foldl sorter_step sorter_start sample_pushes)) <> None <->
    arrived (sfs_readPosition (sr_s (foldl sorter_step sorter_start sample_pushes)))
      (sr_frames (foldl sorter_step sorter_start sample_pushes)))).
Proof.
  split; [vm_compute; reflexivity|].
  apply (sorter_delivers sample_content 25 sample_pushes); [done|apply sample_pushes_carry].
Defined.

Lemma sample_arrived x :
  0 <= x < 25 -> arrived x (sr_frames (foldl sorter_step sorter_start sample_pushes)).
Proof.
  intros Hx. replace (sr_frames (foldl sorter_step sorter_start sample_pushes)) with
    [sample_frame true 25 0; sample_frame false 13 9; sample_frame false 0 12; sample_frame false 10 5;
     sample_frame true 20 5; sample_frame false 10 5] by (vm_compute; reflexivity).
  unfold arrived. rewrite !Exists_cons, !sample_length by lia. cbn [sf_Offset sample_frame]. lia.
Qed.

Lemma sorter_complete_witness :
  slice sample_content 0 25
    `prefix_of` sr_out (foldl sorter_step sorter_start (sample_pushes ++ repeat SPop (Z.to_nat 25))).
Proof.
  apply (sorter_complete sample_content 25 sample_pushes 25);
    [done|apply sample_pushes_carry|done|vm_compute; reflexivity|apply sample_arrived].
Defined.

(** ** Where the code differs from what it means to do *)

(** A frame with FIN that is cut at its end keeps the bit: the reader sees the
    end of the stream at 20, with five bytes still queued. *)
Lemma Push_cut_keeps_fin :
  let s := snd (Push (sample_frame true 0 25) (snd (Push (sample_frame false 20 5) newStreamFrameSorter))) in
  Head s = Some (sample_frame true 0 20) /\ Head (snd (Pop s)) = Some (sample_frame false 20 5).
Proof. vm_compute. by split. Qed.

(** Only the first of the frames between two gaps is deleted when a frame covers
    them: the one at 15 is never read, whatever is popped. *)
Lemma Push_leaves_covered_frames :
  let r := foldl sorter_step sorter_start
    [SPush (sample_frame false 10 5); SPush (sample_frame false 15 5); SPush (sample_frame false 0 25); SPop] in
  sfs_readPosition (sr_s r) = 25 /\ sfs_queuedFrames (sr_s r) = {[15 := sample_frame false 15 5]}.
Proof. vm_compute. by split. Qed.

(** An empty frame with FIN replaces the data queued at its offset. *)
Lemma Push_fin_drops_data :
  let s := snd (Push (sample_frame true 0 0) (snd (Push (sample_frame false 0 5) newStreamFrameSorter))) in
  Head s = Some (sample_frame true 0 0) /\ sfs_gaps s = [mkByteInterval 5 MaxByteCount].
Proof. vm_compute. by split. Qed.
