(* ===== verification/Stream.v ===== *)
(** * stream.go: a stream

    The state of a stream and its operations.  A buffered channel of one signal is
    a boolean, the cancelled context another.  Operations that use the flow
    control manager of the connection have the pair of the stream and the manager
    as their state.  [Read] and [Write] block in the source; here they return
    [None] where the source waits for a signal, and are called again when one is
    there.  The callback [onData] only wakes the session; a call of [onReset] is
    returned. *)

From S2P Require Import Prelude Protocol ByteOrder WireFrames MinMax RttStats ConnParams FlowControl StreamFrameSorter.

Record stream := mkStream {
  str_streamID : StreamID;
  str_readPosInFrame : Z;
  str_writeOffset : ByteCount;
  str_readOffset : ByteCount;
  str_err : option error;
  str_cancelled : bool;
  str_finishedReading : bool;
  str_finishedWriting : bool;
  str_resetLocally : bool;
  str_resetRemotely : bool;
  str_frameQueue : streamFrameSorter;
  str_readChan : bool;
  str_readDeadline : Time;
  str_dataForWriting : option (list Z);
  str_finSent : bool;
  str_rstSent : bool;
  str_writeChan : bool;
  str_writeDeadline : Time;
  str_ctxCancelled : bool
}.

#[global] Instance eta_stream : Eta stream := fun s =>
  mkStream (str_streamID s) (str_readPosInFrame s) (str_writeOffset s) (str_readOffset s) (str_err s)
    (str_cancelled s) (str_finishedReading s) (str_finishedWriting s) (str_resetLocally s)
    (str_resetRemotely s) (str_frameQueue s) (str_readChan s) (str_readDeadline s)
    (str_dataForWriting s) (str_finSent s) (str_rstSent s) (str_writeChan s) (str_writeDeadline s)
    (str_ctxCancelled s).

Definition errDeadline : error := errors_New "deadline exceeded".

Definition newStream (streamID : StreamID) : stream :=
  mkStream streamID 0 0 0 None false false false false false newStreamFrameSorter false zeroTime
    None false false false zeroTime false.

Implicit Types (s : stream).

Definition signalRead s : stream := s <| str_readChan := true |>.
Definition signalWrite s : stream := s <| str_writeChan := true |>.

(** ** Writing *)

Definition lenOfDataForWriting s : ByteCount :=
  match str_err s with
  | None => match str_dataForWriting s with Some d => zlen d | None => 0 end
  | Some _ => 0
  end.

Definition getDataForWriting s (maxBytes : ByteCount) : option (list Z) * stream :=
  match str_err s, str_dataForWriting s with
  | Some _, _ | _, None => (None, s)
  | None, Some d =>
      let '(ret, s) :=
        if maxBytes <? zlen d
        then (take (Z.to_nat maxBytes) d, s <| str_dataForWriting := Some (drop (Z.to_nat maxBytes) d) |>)
        else (d, signalWrite (s <| str_dataForWriting := None |>)) in
      (Some ret, s <| str_writeOffset := u64 (str_writeOffset s + zlen ret) |>)
  end.

(** One round of the loop of [Write] that waits for the data to be sent; [n] is
    the length of what was written. *)
Definition write_wait (n : Z) (now : Time) s : option (Z * option error) :=
  if negb (Time_IsZero (str_writeDeadline s)) && negb (Time_Before now (str_writeDeadline s))
  then Some (0, Some errDeadline)
  else
    match str_dataForWriting s, str_err s with
    | Some d, Some e => Some (n - zlen d, Some e)
    | None, Some e => Some (n, Some e)
    | None, None => Some (n, None)
    | Some _, None => None
    end.

Definition stream_Write (p : list Z) (now : Time) s : option (Z * option error) * stream :=
  if str_resetLocally s || bool_decide (str_err s <> None) then (Some (0, str_err s), s)
  else if str_finishedWriting s
  then (Some (0, Some (fmt_Errorf "write on closed stream %d" [str_streamID s])), s)
  else if zlen p =? 0 then (Some (0, None), s)
  else
    let s := s <| str_dataForWriting := Some p |> in
    (write_wait (zlen p) now s, s).

(** [Write] wakes up: it takes the signal and tests again. *)
Definition stream_Write_wake (n : Z) (now : Time) s : option (Z * option error) * stream :=
  let s := s <| str_writeChan := false |> in (write_wait n now s, s).

Definition stream_Close s : stream := s <| str_finishedWriting := true |> <| str_ctxCancelled := true |>.

Definition finishedWriteAndSentFin s : bool := str_finishedWriting s && str_finSent s.

Definition shouldSendReset s : bool :=
  if str_rstSent s then false
  else (str_resetLocally s || str_resetRemotely s) && negb (finishedWriteAndSentFin s).

Definition shouldSendFin s : bool :=
  str_finishedWriting s && negb (str_finSent s) && bool_decide (str_err s = None)
  && bool_decide (str_dataForWriting s = None).

Definition sentFin s : stream := s <| str_finSent := true |>.

(** ** Deadlines *)

Definition SetReadDeadline s (t : Time) : stream :=
  let oldDeadline := str_readDeadline s in
  let s := s <| str_readDeadline := t |> in
  if Time_Before t oldDeadline then signalRead s else s.

Definition SetWriteDeadline s (t : Time) : stream :=
  let oldDeadline := str_writeDeadline s in
  let s := s <| str_writeDeadline := t |> in
  if Time_Before t oldDeadline then signalWrite s else s.

Definition SetDeadline s (t : Time) : stream := SetWriteDeadline (SetReadDeadline s t) t.

(** ** Errors and resets

    The error of a stream is set once. *)

Definition set_error (e : error) (wake : stream -> stream) s : stream :=
  match str_err s with None => wake (s <| str_err := Some e |>) | Some _ => s end.

Definition stream_Cancel s (e : error) : stream :=
  let s := s <| str_cancelled := true |> <| str_ctxCancelled := true |> in
  set_error e (fun s => signalWrite (signalRead s)) s.

(** The RST_STREAM that [onReset] queues, with the offset reached. *)
Definition maybe_reset s : option (StreamID * ByteCount) * stream :=
  if shouldSendReset s
  then (Some (str_streamID s, str_writeOffset s), s <| str_rstSent := true |>)
  else (None, s).

Definition stream_Reset s (e : error) : option (StreamID * ByteCount) * stream :=
  if str_resetLocally s then (None, s)
  else
    let s := s <| str_resetLocally := true |> <| str_ctxCancelled := true |> in
    maybe_reset (set_error e (fun s => signalWrite (signalRead s)) s).

Definition RegisterRemoteError s (e : error) : option (StreamID * ByteCount) * stream :=
  if str_resetRemotely s then (None, s)
  else
    let s := s <| str_resetRemotely := true |> <| str_ctxCancelled := true |> in
    maybe_reset (set_error e signalWrite s).

Definition stream_finished s : bool :=
  str_cancelled s
  || (str_finishedReading s && finishedWriteAndSentFin s)
  || (str_resetRemotely s && str_rstSent s)
  || (str_finishedReading s && str_rstSent s)
  || (finishedWriteAndSentFin s && str_resetRemotely s).

(** ** Receiving *)

Abbreviation Str := (GoM (stream * flowControlManager)).

Definition str_modify (f : stream -> stream) : Str unit := modifyS (fun '(s, fcm) => (f s, fcm)).

(** A call of the flow control manager. *)
Definition str_fc {A} (m : GoM flowControlManager A) : Str A := fun '(s, fcm) =>
  let '(o, fcm') := m fcm in (o, (s, fcm')).

(** Duplicate data is no error. *)
Definition queue_frame (frame : StreamFrame) : Str unit := fun '(s, fcm) =>
  let '(o, q) := Push frame (str_frameQueue s) in
  let s := s <| str_frameQueue := q |> in
  match o with
  | Ok _ => (Ok tt, (signalRead s, fcm))
  | Err e => if decide (e = errDuplicateStreamData) then (Ok tt, (signalRead s, fcm)) else (Err e, (s, fcm))
  | Panic p => (Panic p, (s, fcm))
  end.

Definition AddStreamFrame (frame : StreamFrame) : Str unit :=
  '(s, _) ← getS;
  let maxOffset := u64 (sf_Offset frame + StreamFrame_DataLen frame) in
  str_fc (UpdateHighestReceived (str_streamID s) maxOffset);;
  queue_frame frame.

(** The error of the virtual frame is dropped. *)
Definition CloseRemote (offset : ByteCount) : Str unit := fun st =>
  match AddStreamFrame (mkStreamFrame 0 true false offset []) st with
  | (Err _, st) => (Ok tt, st)
  | r => r
  end.

(** ** Reading

    [clock k] are the three readings of the clock in round [k] of the loop: the
    test of the deadline and the two of the flow control manager.  A result is the
    bytes read with the error, or [None] where the source waits for a frame. *)

(** What stops the wait of a reader that has a frame or none. *)
Definition read_error (now : Time) s : option (option error) :=
  if str_resetLocally s || str_cancelled s then Some (str_err s)
  else if negb (Time_IsZero (str_readDeadline s)) && negb (Time_Before now (str_readDeadline s))
  then Some (Some errDeadline)
  else None.

(** The bytes read are accounted for; an error of the manager is dropped. *)
Definition read_account (n : ByteCount) (now now' : Time) : Str unit := fun '(s, fcm) =>
  if str_resetRemotely s then (Ok tt, (s, fcm))
  else match str_fc (AddBytesRead (str_streamID s) n now now') (s, fcm) with
       | (Err _, st) => (Ok tt, st)
       | r => r
       end.

(** Consume up to [n] bytes of the frame; the result tells whether it ended the stream. *)
Definition read_frame (frame : StreamFrame) (n : Z) (now now' : Time) : Str (list Z * bool) :=
  '(s, _) ← getS;
  let pos := str_readPosInFrame s in
  let m := Min n (StreamFrame_DataLen frame - pos) in
  (if pos <? 0 then panic "slice bounds out of range" else mret tt);;
  str_modify (fun s => s <| str_readPosInFrame := pos + m |>
                         <| str_readOffset := u64 (str_readOffset s + m) |>);;
  read_account (u64 m) now now';;
  let data := take (Z.to_nat m) (drop (Z.to_nat pos) (sf_Data frame)) in
  if StreamFrame_DataLen frame <=? pos + m then
    str_modify (fun s => s <| str_frameQueue := snd (Pop (str_frameQueue s)) |>);;
    (if sf_FinBit frame then str_modify (fun s => s <| str_finishedReading := true |>) else mret tt);;
    mret (data, sf_FinBit frame)
  else mret (data, false).

Definition errReadPosInFrame s (frame : StreamFrame) : error :=
  fmt_Errorf "BUG: readPosInFrame (%d) > frame.DataLen (%d) in stream.Read"
    [str_readPosInFrame s; StreamFrame_DataLen frame].

(** The loop; [acc] was read so far, of [n] bytes asked for.  The test that no
    more was read than asked for is the condition of the loop. *)
Fixpoint read_loop (fuel : nat) (clock : nat -> Time * Time * Time) (n : Z) (acc : list Z) :
    Str (option (list Z * option error)) :=
  match fuel with
  | O => panic "read_loop: out of fuel"
  | S fuel =>
      if n <=? zlen acc then mret (Some (acc, None))
      else
        '(s, _) ← getS;
        let '(t, now, now') := clock fuel in
        let frame := Head (str_frameQueue s) in
        match frame, acc with
        | None, _ :: _ => mret (Some (acc, str_err s))
        | _, _ =>
            match read_error t s, frame with
            | Some (Some e), _ => mret (Some (acc, Some e))
            | Some None, None => panic "nil pointer dereference"
            | None, None => mret None
            | r, Some frame =>
                (match r with
                 | None => str_modify (fun s =>
                             s <| str_readPosInFrame := i64 (u64 (str_readOffset s - sf_Offset frame)) |>)
                 | Some _ => mret tt
                 end);;
                '(s, _) ← getS;
                if StreamFrame_DataLen frame <? str_readPosInFrame s
                then mret (Some (acc, Some (errReadPosInFrame s frame)))
                else
                  '(data, fin) ← read_frame frame (n - zlen acc) now now';
                  if fin : bool then mret (Some (acc ++ data, Some io_EOF))
                  else read_loop fuel clock n (acc ++ data)
            end
        end
  end.

(** Every round but the last reads a byte. *)
Definition stream_Read (n : Z) (clock : nat -> Time * Time * Time) : Str (option (list Z * option error)) :=
  '(s, _) ← getS;
  if str_cancelled s || str_resetLocally s then mret (Some ([], str_err s))
  else if str_finishedReading s then mret (Some ([], Some io_EOF))
  else read_loop (Z.to_nat n + 1) clock n [].

Definition stream_GetBytesSent : Str ByteCount :=
  '(s, _) ← getS; str_fc (GetBytesSent (str_streamID s)).
Definition stream_GetBytesRetrans : Str ByteCount :=
  '(s, _) ← getS; str_fc (GetBytesRetrans (str_streamID s)).

#[local] Arguments assign {R T} field {_} v r /.
Ltac str_fields :=
  cbn [assign str_streamID str_readPosInFrame str_writeOffset str_readOffset str_err str_cancelled
       str_finishedReading str_finishedWriting str_resetLocally str_resetRemotely str_frameQueue
       str_readChan str_readDeadline str_dataForWriting str_finSent str_rstSent str_writeChan
       str_writeDeadline str_ctxCancelled fst snd] in *.

(** ** What a reader sees *)

Section Reading.
Context (content : Z -> Z) (size : Z) (size_int : size < 9223372036854775808).

(** The reader is at [str_readOffset]: at the read position of the sorter, or
    inside the frame there.  A stream that was cancelled or reset has an error. *)
Record read_inv (s : stream) : Prop := {
  ri_sorter : sorter_inv content size (str_frameQueue s);
  ri_offset : sfs_readPosition (str_frameQueue s) <= str_readOffset s;
  ri_inside : sfs_readPosition (str_frameQueue s) < str_readOffset s ->
    exists h, Head (str_frameQueue s) = Some h /\
      str_readOffset s - sfs_readPosition (str_frameQueue s) < StreamFrame_DataLen h;
  ri_err : str_cancelled s || str_resetLocally s = true -> str_err s <> None
}.

Lemma Head_carries q h :
  sorter_inv content size q -> Head q = Some h ->
  sf_Offset h = sfs_readPosition q /\ carries content size h.
Proof. intros [_ _ _ Hq _] E. destruct (Hq _ _ E). done. Qed.

Lemma DataLen_nonneg (f : StreamFrame) : 0 <= StreamFrame_DataLen f.
Proof. apply zlen_nonneg. Qed.

(** The reader is before the end of the frame, or the frame is an empty FIN. *)
Lemma read_inv_head s h :
  read_inv s -> Head (str_frameQueue s) = Some h ->
  let pos := str_readOffset s - sf_Offset h in
  0 <= pos <= StreamFrame_DataLen h /\ (0 < StreamFrame_DataLen h -> pos < StreamFrame_DataLen h) /\
  0 <= str_readOffset s <= size /\ size < MaxByteCount /\ carries content size h.
Proof.
  intros [Hs Ho Hi _] E. destruct (Head_carries _ _ Hs E) as [Eo Hc]. pose proof Hc as [Hoff _ Hsz _].
  pose proof Hs as [Hsize Hpos _ _ _]. pose proof (DataLen_nonneg h).
  destruct (Z.eq_dec (sfs_readPosition (str_frameQueue s)) (str_readOffset s)) as [Ep|Ep].
  - split_and!; try done; lia.
  - destruct (Hi ltac:(lia)) as (h' & E' & Hl). rewrite E in E'. injection E' as <-.
    split_and!; try done; lia.
Qed.

Lemma Pop_position q h :
  sorter_inv content size q -> Head q = Some h ->
  sorter_inv content size (snd (Pop q)) /\
  sfs_readPosition (snd (Pop q)) = sfs_readPosition q + StreamFrame_DataLen h.
Proof.
  intros Hs E. pose proof (Pop_spec content size q Hs) as H. destruct (Head_carries _ _ Hs E) as [Eo [Hoff _ Hsz _]].
  pose proof Hs as [Hsize _ _ _ _]. pose proof (DataLen_nonneg h).
  unfold Pop in *. rewrite E in *. cbn [snd]. destruct H as (H & _). split; [done|].
  cbn. rewrite u64_small by (unfold MaxByteCount in *; lia). done.
Qed.

Lemma UpdateHighestReceived_no_panic id offset f p f' :
  UpdateHighestReceived id offset f <> (Panic p, f').
Proof.
  unfold UpdateHighestReceived, getFlowController. run.
  destruct (fcm_streamFlowController f !! id) as [c|]; [|done].
  destruct (fc_UpdateHighestReceived c offset) as [o c']. unfold check_received.
  destruct (CheckFlowControlViolation c'); [done|]. destruct (ContributesToConnection c'); [|done].
  unfold mbind, GoM_bind, store_stream, store_conn, modifyS, getS. cbn beta iota zeta. by case_match.
Qed.

(** Accounting never stops the reader. *)
Lemma read_account_run s fcm n now now' :
  exists fcm', read_account n now now' (s, fcm) = (Ok tt, (s, fcm')).
Proof.
  unfold read_account, str_fc. destruct (str_resetRemotely s); [by eexists|].
  unfold AddBytesRead, getFlowController. run.
  destruct (fcm_streamFlowController fcm !! str_streamID s) as [c|]; [|by eexists].
  destruct (ContributesToConnection c); by eexists.
Qed.

Definition same_reset s s' : Prop :=
  str_err s' = str_err s /\ str_cancelled s' = str_cancelled s /\
  str_resetLocally s' = str_resetLocally s /\ str_streamID s' = str_streamID s.

(** Reading from the frame at the read position. *)
Lemma read_frame_run s fcm h n now now' :
  read_inv s -> Head (str_frameQueue s) = Some h -> 0 < n ->
  str_readPosInFrame s = str_readOffset s - sf_Offset h ->
  exists s' fcm' fin, read_frame h n now now' (s, fcm)
      = (Ok (slice content (str_readOffset s) (str_readOffset s'), fin), (s', fcm')) /\
    read_inv s' /\ same_reset s s' /\ str_readOffset s <= str_readOffset s' <= str_readOffset s + n /\
    (fin = false -> str_readOffset s < str_readOffset s').
Proof.
  intros Hinv Eh Hn Epos. destruct (read_inv_head s h Hinv Eh) as (Hp & Hlt & Hro & Hsz & Hc).
  pose proof Hinv as [Hs Ho Hi He]. destruct (Head_carries _ _ Hs Eh) as [Eo _]. pose proof Hc as [Hoff Hdata Hsize Hempty].
  set (len := StreamFrame_DataLen h) in *. set (m := Z.min n (len - str_readPosInFrame s)).
  unfold read_frame. erewrite run_bind_ok by reflexivity. cbn beta iota. rewrite Min_min. fold len m.
  destruct (Z.ltb_spec (str_readPosInFrame s) 0); [lia|]. erewrite run_bind_ok by reflexivity.
  erewrite run_bind_ok by reflexivity.
  set (s1 := s <| str_readPosInFrame := str_readPosInFrame s + m |>
               <| str_readOffset := u64 (str_readOffset s + m) |>).
  assert (E1 : str_readOffset s1 = str_readOffset s + m).
  { unfold s1. str_fields. apply u64_small. unfold MaxByteCount in *. lia. }
  destruct (read_account_run s1 fcm (u64 m) now now') as (fcm1 & Ea). erewrite run_bind_ok by exact Ea.
  assert (Edata : take (Z.to_nat m) (drop (Z.to_nat (str_readPosInFrame s)) (sf_Data h))
                  = slice content (str_readOffset s) (str_readOffset s1)).
  { rewrite Hdata, slice_drop, slice_take by lia. rewrite E1. f_equal; lia. }
  rewrite Edata. destruct (Z.leb_spec len (str_readPosInFrame s + m)).
  - destruct (Pop_position _ _ Hs Eh) as [Hs' Ep']. fold len in Ep'.
    exists (s1 <| str_frameQueue := snd (Pop (str_frameQueue s)) |>
               <| str_finishedReading := sf_FinBit h || str_finishedReading s |>), fcm1, (sf_FinBit h).
    split; [|split_and!].
    + erewrite run_bind_ok by reflexivity. destruct (sf_FinBit h); by erewrite run_bind_ok by reflexivity.
    + split; str_fields; [done|lia|lia|done].
    + done.
    + str_fields. lia.
    + str_fields. lia.
    + str_fields. intros Hfin. destruct (Z.eq_dec len 0) as [E0|]; [|lia].
      destruct (Hempty E0). congruence.
  - exists s1, fcm1, false. split; [done|]. split_and!; [|done|lia|lia|lia].
    split; change (str_frameQueue s1) with (str_frameQueue s); [done|lia| |done].
    intros _. exists h. split; [done|]. lia.
Qed.
(** What a read from offset [r] returns: nothing, when it waits; else the bytes
    from there, as many as asked for unless no frame is left or there is an error. *)
Definition read_result (r n : Z) s' (res : option (list Z * option error)) : Prop :=
  match res with
  | None => str_readOffset s' = r /\ Head (str_frameQueue s') = None
  | Some (data, e) => data = slice content r (str_readOffset s') /\
      (e = None -> n <= zlen data \/ Head (str_frameQueue s') = None)
  end.

Lemma read_error_set now s e : read_inv s -> read_error now s = Some e -> e <> None.
Proof.
  intros [_ _ _ He]. unfold read_error. rewrite orb_comm. destruct (_ || _); [intros [= <-]; by apply He|].
  destruct (_ && _); [|done]. by intros [= <-].
Qed.

Lemma read_inv_pos s pos : read_inv s -> read_inv (s <| str_readPosInFrame := pos |>).
Proof. by intros []. Qed.

Lemma read_loop_run fuel clock n r acc s fcm :
  read_inv s -> 0 <= r <= str_readOffset s -> acc = slice content r (str_readOffset s) ->
  zlen acc <= n -> n - zlen acc < Z.of_nat fuel ->
  exists res s' fcm', read_loop fuel clock n acc (s, fcm) = (Ok res, (s', fcm')) /\
    read_inv s' /\ same_reset s s' /\ str_readOffset s <= str_readOffset s' /\ read_result r n s' res.
Proof.
  revert acc s fcm. induction fuel as [|fuel IH]; intros acc s fcm Hinv Hr Hacc Hn Hfuel; [lia|].
  cbn [read_loop]. destruct (Z.leb_spec n (zlen acc)).
  { exists (Some (acc, None)), s, fcm. split_and!; try done. split; [done|]. by left. }
  erewrite run_bind_ok by reflexivity. cbn beta iota. destruct (clock fuel) as [[t now] now'].
  destruct (Head (str_frameQueue s)) as [h|] eqn:Eh.
  2: { destruct acc as [|b acc].
    2: { exists (Some (b :: acc, str_err s)), s, fcm. split_and!; try done. split; [done|]. by right. }
    pose proof (slice_length content r (str_readOffset s) (proj2 Hr)) as Hz. rewrite <- Hacc, zlen_nil in Hz.
    destruct (read_error t s) as [[e|]|] eqn:Ee.
    - by exists (Some ([], Some e)), s, fcm.
    - by destruct (read_error_set _ _ _ Hinv Ee).
    - exists None, s, fcm. split_and!; try done. split; [lia|done]. }
  destruct (read_error t s) as [[e|]|] eqn:Ee.
  { exists (Some (acc, Some e)), s, fcm. by destruct acc. }
  { by destruct (read_error_set _ _ _ Hinv Ee). }
  destruct (read_inv_head s h Hinv Eh) as (Hp & _ & Hro & Hsz & Hc).
  set (s1 := s <| str_readPosInFrame := str_readOffset s - sf_Offset h |>).
  destruct (read_frame_run s1 fcm h (n - zlen acc) now now') as (s' & fcm' & fin & Er & Hinv' & Hsame & Ho & Hmore);
    [by apply read_inv_pos|done|lia|done|].
  change (str_readOffset s1) with (str_readOffset s) in *. change (same_reset s s') in Hsame.
  assert (Happ : acc ++ slice content (str_readOffset s) (str_readOffset s') = slice content r (str_readOffset s'))
    by (rewrite Hacc; symmetry; apply slice_app; lia).
  erewrite run_bind_ok by reflexivity. erewrite run_bind_ok by reflexivity. cbn beta iota.
  assert (Epos : i64 (u64 (str_readOffset s - sf_Offset h)) = str_readOffset s - sf_Offset h).
  { pose proof (ca_offset _ _ _ Hc). rewrite u64_small, i64_small; unfold MaxByteCount in *; lia. }
  rewrite Epos. fold s1. change (str_readPosInFrame s1) with (str_readOffset s - sf_Offset h).
  destruct (Z.ltb_spec (StreamFrame_DataLen h) (str_readOffset s - sf_Offset h)); [lia|].
  erewrite run_bind_ok by exact Er. cbn beta iota. rewrite Happ. destruct fin.
  - exists (Some (slice content r (str_readOffset s'), Some io_EOF)), s', fcm'.
    split_and!; try done. lia.
  - destruct (IH (slice content r (str_readOffset s')) s' fcm') as (res & s'' & fcm'' & E & Hi & Hs2 & Ho2 & Hres);
      [done|lia|done|..]; [rewrite slice_length by lia..|].
    + rewrite Hacc, slice_length in Ho by lia. lia.
    + rewrite Hacc, slice_length in Hfuel by lia. specialize (Hmore eq_refl). lia.
    + exists res, s'', fcm''. split_and!; try done; [|lia].
      destruct Hsame as (? & ? & ? & ?), Hs2 as (? & ? & ? & ?). repeat split; congruence.
Qed.

Lemma stream_Read_run n clock s fcm :
  read_inv s -> 0 <= n ->
  exists res s' fcm', stream_Read n clock (s, fcm) = (Ok res, (s', fcm')) /\ read_inv s' /\
    str_readOffset s <= str_readOffset s' /\ read_result (str_readOffset s) n s' res.
Proof.
  intros Hinv Hn. unfold stream_Read. erewrite run_bind_ok by reflexivity. cbn beta iota.
  assert (E0 : [] = slice content (str_readOffset s) (str_readOffset s)).
  { unfold slice. by rewrite Z.sub_diag. }
  destruct (_ || _) eqn:Ec; [|destruct (str_finishedReading s)].
  - exists (Some ([], str_err s)), s, fcm. split_and!; [done|done|lia|]. split; [done|].
    intros E. by destruct (ri_err _ Hinv).
  - exists (Some ([], Some io_EOF)), s, fcm. split_and!; [done|done|lia|]. by split.
  - destruct (read_loop_run (Z.to_nat n + 1) clock n (str_readOffset s) [] s fcm)
      as (res & s' & fcm' & E & Hi & _ & Ho & Hres); [done| |done|rewrite zlen_nil; lia..|].
    + pose proof (si_position _ _ _ (ri_sorter _ Hinv)). pose proof (ri_offset _ Hinv). lia.
    + by exists res, s', fcm'.
Qed.

(** A frame that arrives keeps the reader where it is. *)
Lemma queue_frame_run frame s fcm :
  read_inv s -> carries content size frame ->
  match queue_frame frame (s, fcm) with
  | (Ok _, (s', _)) => read_inv s' /\ str_readOffset s' = str_readOffset s
  | (Err _, (s', _)) => StreamFrame_DataLen frame <> 0 /\ str_readOffset s' = str_readOffset s
  | (Panic _, _) => False
  end.
Proof.
  intros [Hs Ho Hi He] Hc. pose proof (Push_spec content size _ frame Hs Hc) as H. unfold queue_frame.
  destruct (Push frame (str_frameQueue s)) as [[u|e|p] q] eqn:E; cbn beta iota; [| |done].
  - destruct H as (Hq & Ep & _ & Hh). split; [|done]. split; unfold signalRead; str_fields; rewrite ?Ep; try done.
    intros Hlt. destruct (Hi Hlt) as (h & E' & Hl). exists h. split; [|done]. apply Hh; [done|]. lia.
  - destruct H as [->|(-> & -> & _)]; [rewrite decide_False by done; split; [|done]|rewrite decide_True by done].
    { intros E0. unfold Push in E. destruct (ca_empty _ _ _ Hc E0) as [Hf _]. by rewrite E0, Hf in E. }
    split; [|done]. by destruct s.
Qed.

Lemma AddStreamFrame_run frame s fcm :
  read_inv s -> carries content size frame ->
  match AddStreamFrame frame (s, fcm) with
  | (Ok _, (s', _)) => read_inv s' /\ str_readOffset s' = str_readOffset s
  | (Err _, (s', _)) => str_readOffset s' = str_readOffset s /\ (StreamFrame_DataLen frame = 0 -> s' = s)
  | (Panic _, _) => False
  end.
Proof.
  intros Hinv Hc. unfold AddStreamFrame. erewrite run_bind_ok by reflexivity. cbn beta iota.
  unfold str_fc. unfold mbind, GoM_bind at 1. cbn beta iota.
  destruct (UpdateHighestReceived _ _ fcm) as [[[]|e|p] fcm'] eqn:E; cbn beta iota.
  - pose proof (queue_frame_run frame s fcm' Hinv Hc) as H.
    destruct (queue_frame frame (s, fcm')) as [[u|e|p] [s' f']]; naive_solver.
  - done.
  - by apply UpdateHighestReceived_no_panic in E.
Qed.
End Reading.

(** ** Runs

    What happens to a stream while its application reads it: frames of the peer,
    reads, errors and deadlines.  The bytes read are kept; after an error of the
    peer the connection is closed, and nothing more happens. *)

Inductive stream_event :=
  | SeFrame (frame : StreamFrame)
  | SeCloseRemote (offset : ByteCount)
  | SeRead (n : Z) (clock : nat -> Time * Time * Time)
  | SeDeadline (t : Time)
  | SeClose
  | SeCancel (e : error)
  | SeReset (e : error)
  | SeRemoteError (e : error).

Record stream_run := mkStreamRun {
  sru_result : outcome unit;
  sru_state : stream * flowControlManager;
  sru_read : list Z
}.

Definition stream_apply (ev : stream_event) (st : stream * flowControlManager) :
    outcome (list Z) * (stream * flowControlManager) :=
  let pure f := (Ok [], (f (fst st), snd st)) in
  match ev with
  | SeFrame frame => (AddStreamFrame frame;; mret []) st
  | SeCloseRemote offset => (CloseRemote offset;; mret []) st
  | SeRead n clock => (res ← stream_Read n clock; mret (from_option fst [] res)) st
  | SeDeadline t => pure (fun s => SetDeadline s t)
  | SeClose => pure stream_Close
  | SeCancel e => pure (fun s => stream_Cancel s e)
  | SeReset e => pure (fun s => snd (stream_Reset s e))
  | SeRemoteError e => pure (fun s => snd (RegisterRemoteError s e))
  end.

Definition stream_step (r : stream_run) (ev : stream_event) : stream_run :=
  match sru_result r with
  | Ok _ => let '(o, st) := stream_apply ev (sru_state r) in
            match o with
            | Ok data => mkStreamRun (Ok tt) st (sru_read r ++ data)
            | Err e => mkStreamRun (Err e) st (sru_read r)
            | Panic p => mkStreamRun (Panic p) st (sru_read r)
            end
  | _ => r
  end.

Definition stream_start (streamID : StreamID) (fcm : flowControlManager) : stream_run :=
  mkStreamRun (Ok tt) (newStream streamID, fcm) [].

(** The frames of the peer carry the stream; a virtual FIN is at its end. *)
Definition event_carries (content : Z -> Z) (size : Z) (ev : stream_event) : Prop :=
  match ev with
  | SeFrame frame => carries content size frame
  | SeCloseRemote offset => offset = size
  | SeRead n _ => 0 <= n
  | _ => True
  end.

Section Runs.
Context (content : Z -> Z) (size : Z) (size_int : size < 9223372036854775808).

Lemma set_error_reading e wake s :
  (forall s, str_err (wake s) = str_err s /\ str_frameQueue (wake s) = str_frameQueue s /\
             str_readOffset (wake s) = str_readOffset s) ->
  let s' := set_error e wake s in
  str_err s' <> None /\ str_frameQueue s' = str_frameQueue s /\ str_readOffset s' = str_readOffset s.
Proof.
  intros Hw. unfold set_error. destruct (str_err s) eqn:E; [by rewrite E|].
  destruct (Hw (s <| str_err := Some e |>)) as (-> & -> & ->). done.
Qed.

Lemma maybe_reset_reading s :
  let s' := snd (maybe_reset s) in
  str_err s' = str_err s /\ str_frameQueue s' = str_frameQueue s /\ str_readOffset s' = str_readOffset s.
Proof. unfold maybe_reset. by destruct (shouldSendReset s). Qed.

(** An operation that leaves the frames and the offset alone. *)
Lemma read_inv_same s s' :
  read_inv content size s -> str_frameQueue s' = str_frameQueue s -> str_readOffset s' = str_readOffset s ->
  (str_err s' <> None \/
   str_err s' = str_err s /\ str_cancelled s' = str_cancelled s /\ str_resetLocally s' = str_resetLocally s) ->
  read_inv content size s' /\ str_readOffset s' = str_readOffset s.
Proof.
  intros [Hs Ho Hi He] Eq1 Eo Herr. split; [|done]. split; rewrite ?Eq1, ?Eo; try done.
  intros Hc. destruct Herr as [?|(-> & Ec & Er)]; [done|]. apply He. by rewrite <- Ec, <- Er.
Qed.

Lemma CloseRemote_run s fcm offset :
  read_inv content size s -> offset = size ->
  exists s' fcm', CloseRemote offset (s, fcm) = (Ok tt, (s', fcm')) /\
    read_inv content size s' /\ str_readOffset s' = str_readOffset s.
Proof.
  intros Hinv ->. assert (Hc : carries content size (mkStreamFrame 0 true false size [])).
  { pose proof (si_size _ _ _ (ri_sorter _ _ _ Hinv)).
    split; unfold StreamFrame_DataLen, slice; cbn [sf_Data sf_Offset sf_FinBit]; rewrite ?zlen_nil; [lia| |lia|done].
    by replace (size + 0 - size) with 0 by lia. }
  pose proof (AddStreamFrame_run content size _ s fcm Hinv Hc) as H. unfold CloseRemote.
  destruct (AddStreamFrame _ _) as [[[]|e|p] [s' f']]; [by exists s', f'| |done].
  destruct H as [_ Hs]. rewrite Hs by done. by exists s, f'.
Qed.

Lemma reset_reading e wake s s0 :
  read_inv content size s -> str_frameQueue s0 = str_frameQueue s -> str_readOffset s0 = str_readOffset s ->
  (forall s, str_err (wake s) = str_err s /\ str_frameQueue (wake s) = str_frameQueue s /\
             str_readOffset (wake s) = str_readOffset s) ->
  let s' := snd (maybe_reset (set_error e wake s0)) in
  read_inv content size s' /\ str_readOffset s' = str_readOffset s.
Proof.
  intros Hinv Eq1 Eo Hw. destruct (set_error_reading e wake s0 Hw) as (H1 & H2 & H3).
  destruct (maybe_reset_reading (set_error e wake s0)) as (H4 & H5 & H6).
  apply read_inv_same; [done|congruence..|]. left. congruence.
Qed.

Lemma stream_step_stopped evs r :
  sru_result r <> Ok tt -> foldl stream_step r evs = r.
Proof.
  intros Hr. induction evs as [|ev evs IH]; cbn; [done|]. unfold stream_step at 2.
  destruct (sru_result r) as [[]|e|p] eqn:E; [done|by rewrite ?E..].
Qed.

Lemma stream_apply_run ev s fcm :
  read_inv content size s -> event_carries content size ev ->
  match stream_apply ev (s, fcm) with
  | (Ok data, (s', _)) => read_inv content size s' /\ str_readOffset s <= str_readOffset s' /\
      data = slice content (str_readOffset s) (str_readOffset s')
  | (Err _, (s', _)) => str_readOffset s' = str_readOffset s
  | (Panic _, _) => False
  end.
Proof.
  intros Hinv Hev.
  assert (E0 : forall s', read_inv content size s' /\ str_readOffset s' = str_readOffset s ->
    read_inv content size s' /\ str_readOffset s <= str_readOffset s' /\
      [] = slice content (str_readOffset s) (str_readOffset s')).
  { intros s' [H1 ->]. split_and!; [done|lia|]. unfold slice. by rewrite Z.sub_diag. }
  destruct ev as [frame|offset|n clock|t| |e|e|e]; cbn [stream_apply fst snd event_carries] in *.
  - pose proof (AddStreamFrame_run content size frame s fcm Hinv Hev) as H.
    destruct (AddStreamFrame frame (s, fcm)) as [[u|e|p] [s' f']] eqn:E.
    + erewrite run_bind_ok by exact E. cbn. by apply E0.
    + erewrite run_bind_err by exact E. apply H.
    + done.
  - destruct (CloseRemote_run s fcm offset Hinv Hev) as (s' & f' & E & H).
    erewrite run_bind_ok by exact E. cbn. by apply E0.
  - destruct (stream_Read_run content size size_int n clock s fcm Hinv Hev) as (res & s' & f' & E & Hi & Hle & Hres).
    erewrite run_bind_ok by exact E. cbn. split; [done|]. split; [done|].
    destruct res as [[data e]|]; [apply Hres|]. destruct Hres as [-> _]. cbn. unfold slice. by rewrite Z.sub_diag.
  - apply E0, read_inv_same; try done; unfold SetDeadline, SetWriteDeadline, SetReadDeadline; repeat case_match; auto.
  - apply E0, read_inv_same; try done. by right.
  - destruct (set_error_reading e (fun s => signalWrite (signalRead s)) (s <| str_cancelled := true |>
      <| str_ctxCancelled := true |>)) as (H1 & H2 & H3); [done|]. apply E0, read_inv_same; try done. by left.
  - apply E0. unfold stream_Reset. destruct (str_resetLocally s); [done|]. by apply reset_reading.
  - apply E0. unfold RegisterRemoteError. destruct (str_resetRemotely s); [done|]. by apply reset_reading.
Qed.

Lemma stream_run_reads evs r :
  sru_result r = Ok tt -> read_inv content size (fst (sru_state r)) ->
  sru_read r = slice content 0 (str_readOffset (fst (sru_state r))) ->
  Forall (event_carries content size) evs ->
  let r' := foldl stream_step r evs in
  (forall p, sru_result r' <> Panic p) /\ sru_read r' = slice content 0 (str_readOffset (fst (sru_state r'))) /\
  (sru_result r' = Ok tt -> read_inv content size (fst (sru_state r'))).
Proof.
  revert r. induction evs as [|ev evs IH]; intros r Er Hinv Hread Hevs; cbn [foldl]; [by rewrite Er|].
  apply Forall_cons in Hevs as [Hev Hevs]. destruct r as [res [s fcm] out]. cbn in *. subst res out.
  pose proof (stream_apply_run ev s fcm Hinv Hev) as H. set (r := mkStreamRun _ _ _).
  assert (Es : stream_step r ev = let '(o, st) := stream_apply ev (s, fcm) in match o with
    | Ok data => mkStreamRun (Ok tt) st (sru_read r ++ data)
    | Err e => mkStreamRun (Err e) st (sru_read r) | Panic p => mkStreamRun (Panic p) st (sru_read r) end) by done.
  rewrite Es. destruct (stream_apply ev (s, fcm)) as [[data|e|p] [s' f']]; [| |done].
  - destruct H as (Hi & Hle & ->). apply IH; [done|done| |done]. cbn. symmetry. apply slice_app.
    pose proof (si_position _ _ _ (ri_sorter _ _ _ Hinv)). pose proof (ri_offset _ _ _ Hinv). lia.
  - rewrite stream_step_stopped by done. cbn. by rewrite H.
Qed.

Lemma stream_start_inv streamID : 0 <= size -> read_inv content size (newStream streamID).
Proof.
  intros Hs. pose proof (sorter_start_inv content size ltac:(unfold MaxByteCount; lia)) as H.
  split; cbn; [apply H|lia|lia|done].
Qed.
End Runs.

(** C11: what a reader sees.  Frames of the peer arrive in any order, with reads,
    deadlines, resets and errors in between.  Nothing panics, and the bytes that
    the reads returned are exactly the stream up to the read offset.  A further
    read returns the bytes that follow: as many as asked for, unless it reports an
    error or the next byte has not arrived; it waits only when nothing is there. *)
Theorem stream_reads content size streamID fcm evs :
  0 <= size < 9223372036854775808 -> Forall (event_carries content size) evs ->
  let r := foldl stream_step (stream_start streamID fcm) evs in
  let offset := str_readOffset (fst (sru_state r)) in
  (forall p, sru_result r <> Panic p) /\ sru_read r = slice content 0 offset /\
  (sru_result r = Ok tt -> forall n clock, 0 <= n ->
     exists res s' fcm', stream_Read n clock (sru_state r) = (Ok res, (s', fcm')) /\
       read_result content offset n s' res).
Proof.
  intros [Hs Hi] Hevs. cbn zeta.
  destruct (stream_run_reads content size Hi evs (stream_start streamID fcm)) as (H1 & H2 & H3); [done| |done|done|].
  { by apply stream_start_inv. }
  split_and!; [done|done|]. intros Er n clock Hn. destruct (sru_state _) as [s f].
  destruct (stream_Read_run content size Hi n clock s f) as (res & s' & f' & E & _ & _ & Hres); [by apply H3|done|].
  by exists res, s', f'.
Qed.

Definition sample_stream_events : list stream_event :=
  [SeFrame (sample_frame false 4 4); SeRead 3 (fun _ => (0, 0, 0)); SeFrame (sample_frame false 0 4);
   SeRead 6 (fun _ => (0, 0, 0)); SeFrame (sample_frame true 6 19); SeDeadline 5; SeRead 8 (fun _ => (1, 1, 1))].

Definition sample_stream_run : stream_run :=
  foldl stream_step (stream_start 5 (snd (NewStream 5 true (NewFlowControlManager sample_client NewRTTStats ∅))))
    sample_stream_events.

Lemma stream_reads_witness :
  sru_result sample_stream_run = Ok tt /\
  zlen (sru_read sample_stream_run) = 14 /\
  sru_read sample_stream_run = slice sample_content 0 (str_readOffset (fst (sru_state sample_stream_run))).
Proof.
  split; [vm_compute; reflexivity|]. split; [vm_compute; reflexivity|].
  apply (stream_reads sample_content 25 5 _ sample_stream_events ltac:(lia)).
  repeat constructor; try done; cbn [event_carries]; first [lia | by apply sample_carries; lia].
Defined.
