(* ===== verification/StreamsMap.v ===== *)
(** * streams_map.go: the streams of a connection

    The open streams, their order for the round robin, and who may open which.
    The lambda [newStream] is the session's, which registers the stream with the
    flow control manager, so the state is the map with the manager.  [AcceptStream]
    returns [None] where the source waits.  The condition variables only wake
    waiters and are left out. *)

From S2P Require Import Prelude Protocol ByteOrder WireFrames MinMax RttStats ConnParams FlowControl StreamFrameSorter Stream.

Record streamsMap := mkStreamsMap {
  sm_perspective : Perspective;
  sm_streams : gmap Z stream;
  sm_openStreams : list StreamID;
  sm_roundRobinIndex : Z;
  sm_nextStream : StreamID;
  sm_highestStreamOpenedByPeer : StreamID;
  sm_closeErr : option error;
  sm_nextStreamToAccept : StreamID;
  sm_numOutgoingStreams : Z;
  sm_numIncomingStreams : Z
}.

#[global] Instance eta_streamsMap : Eta streamsMap := fun m =>
  mkStreamsMap (sm_perspective m) (sm_streams m) (sm_openStreams m) (sm_roundRobinIndex m)
    (sm_nextStream m) (sm_highestStreamOpenedByPeer m) (sm_closeErr m) (sm_nextStreamToAccept m)
    (sm_numOutgoingStreams m) (sm_numIncomingStreams m).

Definition errStreamsMapAccess : error := errors_New "streamsMap: Error accessing the streams map".

Definition newStreamsMap (pers : Perspective) : streamsMap :=
  match pers with
  | PerspectiveClient => mkStreamsMap pers ∅ [] 0 1 0 None 2 0 0
  | PerspectiveServer => mkStreamsMap pers ∅ [] 0 2 0 None 1 0 0
  end.

Implicit Types (m : streamsMap).

Abbreviation SM := (GoM (streamsMap * flowControlManager)).

Definition sm_modify {X} (f : streamsMap -> streamsMap) : GoM (streamsMap * X) unit :=
  modifyS (fun '(m, x) => (f m, x)).

(** The session's [newStream]: streams 1 and 3 do not count for the connection. *)
Definition session_newStream (id : StreamID) : SM stream := fun '(m, fcm) =>
  let '(_, fcm) := NewStream id (negb ((id =? 1) || (id =? 3))) fcm in
  (Ok (newStream id), (m, fcm)).

Definition putStream (s : stream) m : option error * streamsMap :=
  let id := str_streamID s in
  match sm_streams m !! id with
  | Some _ => (Some (fmt_Errorf "a stream with ID %d already exists" [id]), m)
  | None => (None, m <| sm_streams := <[id := s]> (sm_streams m) |>
                     <| sm_openStreams := sm_openStreams m ++ [id] |>)
  end.

Definition take_remote_id (id : StreamID) m : streamsMap :=
  let m := match sm_perspective m with
           | PerspectiveServer => m <| sm_numIncomingStreams := u32 (sm_numIncomingStreams m + 1) |>
           | PerspectiveClient => m <| sm_numOutgoingStreams := u32 (sm_numOutgoingStreams m + 1) |>
           end in
  if sm_highestStreamOpenedByPeer m <? id then m <| sm_highestStreamOpenedByPeer := id |> else m.

Definition openRemoteStream (id : StreamID) : SM stream :=
  '(m, _) ← getS;
  if u32 (id + MaxNewStreamIDDelta) <? sm_highestStreamOpenedByPeer m
  then fail (qerr_Error InvalidStreamID
         "attempted to open stream %d, which is a lot smaller than the highest opened stream, %d"
         [id; sm_highestStreamOpenedByPeer m])
  else
    sm_modify (take_remote_id id);;
    s ← session_newStream id;
    sm_modify (fun m => snd (putStream s m));;
    mret s.

(** The streams from [sid] to [id] are opened in order. *)
Fixpoint open_remote_streams (fuel : nat) (sid id : StreamID) : SM unit :=
  match fuel with
  | O => panic "open_remote_streams: out of fuel"
  | S fuel =>
      if sid <=? id then openRemoteStream sid;; open_remote_streams fuel (u32 (sid + 2)) id
      else mret tt
  end.

(** [Some None] is the nil stream of an ID that is closed, [Some (Some e)] the
    error for one that only this side may open. *)
Definition refused_stream m (id : StreamID) : option (option error) :=
  match sm_perspective m with
  | PerspectiveServer =>
      if id mod 2 =? 0 then
        if id <=? sm_nextStream m then Some None
        else Some (Some (qerr_Error InvalidStreamID "attempted to open stream %d from client-side" [id]))
      else if id <=? sm_highestStreamOpenedByPeer m then Some None
      else None
  | PerspectiveClient =>
      if id mod 2 =? 1 then
        if id <=? sm_nextStream m then Some None
        else Some (Some (qerr_Error InvalidStreamID "attempted to open stream %d from server-side" [id]))
      else if id <=? sm_highestStreamOpenedByPeer m then Some None
      else None
  end.

Definition first_remote_stream m : StreamID :=
  let sid := u32 (sm_highestStreamOpenedByPeer m + 2) in
  match sm_perspective m with
  | PerspectiveServer => if sid =? 2 then 1 else sid
  | PerspectiveClient => sid
  end.

(** Two rounds more than there are IDs to open: the last test, and a round after
    the ID wrapped around. *)
Definition GetOrOpenStream (id : StreamID) : SM (option stream) :=
  '(m, _) ← getS;
  match sm_streams m !! id with
  | Some s => mret (Some s)
  | None =>
      match refused_stream m id with
      | Some (Some e) => fail e
      | Some None => mret None
      | None =>
          open_remote_streams (Z.to_nat (id / 2) + 2) (first_remote_stream m) id;;
          '(m, _) ← getS;
          mret (sm_streams m !! id)
      end
  end.

Definition take_own_id m : streamsMap :=
  let m := match sm_perspective m with
           | PerspectiveServer => m <| sm_numOutgoingStreams := u32 (sm_numOutgoingStreams m + 1) |>
           | PerspectiveClient => m <| sm_numIncomingStreams := u32 (sm_numIncomingStreams m + 1) |>
           end in
  m <| sm_nextStream := u32 (sm_nextStream m + 2) |>.

Definition openStreamImpl : SM stream :=
  '(m, _) ← getS;
  let id := sm_nextStream m in
  sm_modify take_own_id;;
  s ← session_newStream id;
  sm_modify (fun m => snd (putStream s m));;
  mret s.

Definition OpenStream : SM stream :=
  '(m, _) ← getS;
  match sm_closeErr m with Some e => fail e | None => openStreamImpl end.

(** [openStreamImpl] has no error left to wait for: one round. *)
Definition OpenStreamSync : SM stream :=
  '(m, _) ← getS;
  match sm_closeErr m with Some e => fail e | None => openStreamImpl end.

Definition AcceptStream : SM (option stream) :=
  '(m, _) ← getS;
  match sm_closeErr m with
  | Some e => fail e
  | None =>
      match sm_streams m !! sm_nextStreamToAccept m with
      | None => mret None
      | Some s => sm_modify (fun m => m <| sm_nextStreamToAccept := u32 (sm_nextStreamToAccept m + 2) |>);;
                  mret (Some s)
      end
  end.

(** ** Iteration

    A [streamLambda] gets a stream; what it changes is the map and the state [X]
    of its closure.  It returns whether to go on, and an error. *)

Definition streamLambda (X : Type) := stream -> GoM (streamsMap * X) (bool * option error).

Definition update_stream (s : stream) m : streamsMap := m <| sm_streams := <[str_streamID s := s]> (sm_streams m) |>.

Section Iteration.
Context {X : Type} (fn : streamLambda X).

Definition iterateFunc (id : StreamID) : GoM (streamsMap * X) (bool * option error) :=
  '(m, _) ← getS;
  match sm_streams m !! id with
  | None => mret (true, Some errStreamsMapAccess)
  | Some s => fn s
  end.

Fixpoint iterate_all (ids : list StreamID) : GoM (streamsMap * X) (option error) :=
  match ids with
  | [] => mret None
  | id :: ids =>
      '(cont, err) ← iterateFunc id;
      match err with
      | Some e => mret (Some e)
      | None => if cont : bool then iterate_all ids else mret None
      end
  end.

Definition Iterate : GoM (streamsMap * X) (option error) :=
  '(m, _) ← getS; iterate_all (sm_openStreams m).

(** Streams 1 and 3; [Some r] is the result of an early return. *)
Fixpoint iterate_prioritized (ids : list StreamID) : GoM (streamsMap * X) (option (option error)) :=
  match ids with
  | [] => mret None
  | id :: ids =>
      '(cont, err) ← iterateFunc id;
      match err with
      | Some e =>
          if decide (e = errStreamsMapAccess) then
            if cont : bool then iterate_prioritized ids else mret (Some None)
          else mret (Some (Some e))
      | None => if cont : bool then iterate_prioritized ids else mret (Some None)
      end
  end.

(** The rounds [i], [i+1], ... of the loop over the open streams, [n] in number. *)
Fixpoint iterate_round_robin (n : nat) (i numStreams startIndex : Z) : GoM (streamsMap * X) (option error) :=
  match n with
  | O => mret None
  | S n =>
      '(m, _) ← getS;
      match sm_openStreams m !! Z.to_nat (u32 (i + startIndex) mod numStreams) with
      | None => panic "index out of range"
      | Some id =>
          if (id =? 1) || (id =? 3) then iterate_round_robin n (i + 1) numStreams startIndex
          else
            '(cont, err) ← iterateFunc id;
            match err with
            | Some e => mret (Some e)
            | None =>
                sm_modify (fun m => m <| sm_roundRobinIndex := u32 (sm_roundRobinIndex m + 1) mod numStreams |>);;
                if cont : bool then iterate_round_robin n (i + 1) numStreams startIndex else mret None
            end
      end
  end.

Definition RoundRobinIterate : GoM (streamsMap * X) (option error) :=
  '(m, _) ← getS;
  let numStreams := u32 (Z.of_nat (size (sm_streams m))) in
  let startIndex := sm_roundRobinIndex m in
  r ← iterate_prioritized [1; 3];
  match r with
  | Some res => mret res
  | None => iterate_round_robin (Z.to_nat numStreams) 0 numStreams startIndex
  end.
End Iteration.

(** ** Removal *)

Definition remove_open_stream (id : StreamID) m : streamsMap :=
  let m := if id mod 2 =? 0
           then m <| sm_numOutgoingStreams := u32 (sm_numOutgoingStreams m - 1) |>
           else m <| sm_numIncomingStreams := u32 (sm_numIncomingStreams m - 1) |> in
  let m := match list_find (eq id) (sm_openStreams m) with
           | None => m
           | Some (i, _) =>
               let m := m <| sm_openStreams := delete i (sm_openStreams m) |> in
               if u32 (Z.of_nat i) <? sm_roundRobinIndex m
               then m <| sm_roundRobinIndex := u32 (sm_roundRobinIndex m - 1) |> else m
           end in
  m <| sm_streams := delete id (sm_streams m) |>.

Definition streams_RemoveStream (id : StreamID) {X} : GoM (streamsMap * X) unit :=
  '(m, _) ← getS;
  match sm_streams m !! id with
  | None => fail (fmt_Errorf "attempted to remove non-existing stream: %d" [id])
  | Some _ => sm_modify (remove_open_stream id)
  end.

Fixpoint cancel_streams (e : error) (ids : list StreamID) : SM unit :=
  match ids with
  | [] => mret tt
  | id :: ids =>
      '(m, _) ← getS;
      match sm_streams m !! id with
      | None => panic "nil pointer dereference"
      | Some s => sm_modify (update_stream (stream_Cancel s e));; cancel_streams e ids
      end
  end.

Definition streams_CloseWithError (e : error) : SM unit :=
  sm_modify (fun m => m <| sm_closeErr := Some e |>);;
  '(m, _) ← getS;
  cancel_streams e (sm_openStreams m).

(** The session removes the streams that are finished. *)
Definition collect_stream : streamLambda flowControlManager := fun s =>
  let id := str_streamID s in
  if stream_finished s then
    fun st => match streams_RemoveStream id st with
              | (Ok _, (m, fcm)) => (Ok (true, None), (m, snd (RemoveStream id fcm)))
              | (Err e, st) => (Ok (false, Some e), st)
              | (Panic p, st) => (Panic p, st)
              end
  else mret (true, None).

Definition garbageCollectStreams : SM (option error) := Iterate collect_stream.

(** ** The invariant *)

#[local] Arguments assign {R T} field {_} v r /.
Ltac sm_fields :=
  cbn [assign sm_perspective sm_streams sm_openStreams sm_roundRobinIndex sm_nextStream
       sm_highestStreamOpenedByPeer sm_closeErr sm_nextStreamToAccept sm_numOutgoingStreams
       sm_numIncomingStreams fst snd] in *.

(** The parity of the streams that this side opens. *)
Definition own_parity m : Z := match sm_perspective m with PerspectiveServer => 0 | PerspectiveClient => 1 end.

(** The IDs that were opened. *)
Definition used m (id : Z) : Prop :=
  0 < id < 4294967296 /\
  if id mod 2 =? own_parity m then id < sm_nextStream m else id <= sm_highestStreamOpenedByPeer m.

Definition parity_count (parity : Z) (ids : list Z) : Z := zlen (filter (fun id => id mod 2 = parity) ids).

(** Who opens which stream: what is the next of each side. *)
Record ids_wf m : Prop := {
  iw_next : 0 < sm_nextStream m < 4294967296 /\ sm_nextStream m mod 2 = own_parity m;
  iw_highest : 0 <= sm_highestStreamOpenedByPeer m < 4294967296 /\
    (sm_highestStreamOpenedByPeer m = 0 \/ sm_highestStreamOpenedByPeer m mod 2 = 1 - own_parity m)
}.

Record sm_inv m (fcm : flowControlManager) : Prop := {
  smi_nodup : NoDup (sm_openStreams m);
  smi_open : forall id, id ∈ sm_openStreams m <-> is_Some (sm_streams m !! id);
  smi_key : map_Forall (fun id s => str_streamID s = id) (sm_streams m);
  smi_used : forall id, is_Some (sm_streams m !! id) -> used m id;
  smi_ids : ids_wf m;
  smi_outgoing : sm_numOutgoingStreams m = u32 (parity_count 0 (sm_openStreams m));
  smi_incoming : sm_numIncomingStreams m = u32 (parity_count 1 (sm_openStreams m));
  smi_flow : forall id, is_Some (sm_streams m !! id) -> is_Some (fcm_streamFlowController fcm !! id);
  smi_index : 0 <= sm_roundRobinIndex m <= zlen (sm_openStreams m)
}.

(** What was opened stays so; what was closed stays so. *)
Definition extends m m' : Prop :=
  sm_perspective m' = sm_perspective m /\
  forall id, used m id -> used m' id /\ (sm_streams m !! id = None -> sm_streams m' !! id = None).

Lemma extends_refl m : extends m m.
Proof. by split. Qed.

Lemma extends_trans m1 m2 m3 : extends m1 m2 -> extends m2 m3 -> extends m1 m3.
Proof. intros [E1 H1] [E2 H2]. split; [congruence|]. intros id Hid.
  destruct (H1 id Hid) as [Hu Hn]. destruct (H2 id Hu) as [Hu' Hn']. auto. Qed.

Lemma parity_count_app parity ids id :
  parity_count parity (ids ++ [id]) = parity_count parity ids + (if id mod 2 =? parity then 1 else 0).
Proof.
  unfold parity_count. rewrite filter_app, zlen_app. f_equal.
  destruct (Z.eqb_spec (id mod 2) parity); [rewrite filter_cons_True by done|rewrite filter_cons_False by done]; done.
Qed.

Lemma parity_cases id : id mod 2 = 0 \/ id mod 2 = 1.
Proof. pose proof (Z.mod_pos_bound id 2). lia. Qed.

Lemma own_parity_cases m : own_parity m = 0 \/ own_parity m = 1.
Proof. unfold own_parity. destruct (sm_perspective m); auto. Qed.

Lemma u32_add a b : u32 (u32 a + b) = u32 (a + b).
Proof. apply Z.add_mod_idemp_l. lia. Qed.

Definition count_id (parity id n : Z) : Z := if id mod 2 =? parity then u32 (n + 1) else n.

Lemma counted_app parity ids id :
  count_id parity id (u32 (parity_count parity ids)) = u32 (parity_count parity (ids ++ [id])).
Proof. unfold count_id. rewrite parity_count_app. destruct (_ =? _); [apply u32_add|by rewrite Z.add_0_r]. Qed.

Lemma NewStream_flow id b fcm j :
  is_Some (fcm_streamFlowController fcm !! j) \/ j = id ->
  is_Some (fcm_streamFlowController (snd (NewStream id b fcm)) !! j).
Proof.
  intros Hj. unfold NewStream, modifyS. cbn [snd].
  destruct (fcm_streamFlowController fcm !! id) eqn:E; [destruct Hj as [?| ->]; [done|by rewrite E]|].
  cbn. destruct (decide (j = id)) as [->|Hne]; [by rewrite lookup_insert_eq|].
  rewrite lookup_insert_ne by done. by destruct Hj.
Qed.

(** A stream is put in the map when its ID has been taken. *)
Lemma put_inv m m1 fcm id b :
  sm_inv m fcm -> sm_perspective m1 = sm_perspective m ->
  sm_streams m1 = sm_streams m -> sm_openStreams m1 = sm_openStreams m ->
  sm_roundRobinIndex m1 = sm_roundRobinIndex m -> ~ used m id -> used m1 id -> (forall j, used m j -> used m1 j) -> ids_wf m1 ->
  sm_numOutgoingStreams m1 = count_id 0 id (sm_numOutgoingStreams m) ->
  sm_numIncomingStreams m1 = count_id 1 id (sm_numIncomingStreams m) ->
  let m2 := snd (putStream (newStream id) m1) in
  sm_inv m2 (snd (NewStream id b fcm)) /\ extends m m2 /\ sm_streams m2 = <[id := newStream id]> (sm_streams m).
Proof.
  intros [Hnd Hopen Hkey Hused Hids Hout Hin Hflow Hindex] Ep Es Eo Ex Hnew Hid Hmono Hids1 Eout Ein.
  assert (Hnone : sm_streams m !! id = None).
  { destruct (sm_streams m !! id) eqn:E; [|done]. destruct Hnew. apply Hused. by rewrite E. }
  unfold putStream. cbn [str_streamID newStream]. rewrite Es, Hnone. sm_fields. rewrite Eo. split; [|split; [|done]].
  - split; sm_fields.
    + apply NoDup_app. split_and!; [done| |apply NoDup_singleton].
      intros x Hx Hx'. apply list_elem_of_singleton in Hx'. subst x. apply Hopen in Hx. rewrite Hnone in Hx. by destruct Hx.
    + intros j. rewrite elem_of_app, list_elem_of_singleton, Hopen. destruct (decide (j = id)) as [->|Hj].
      * rewrite lookup_insert_eq. split; [by eexists|by right].
      * rewrite lookup_insert_ne by done. intuition.
    + by apply map_Forall_insert_2.
    + intros j Hj. destruct (decide (j = id)) as [->|Hne]; [done|]. rewrite lookup_insert_ne in Hj by done. by apply Hmono, Hused.
    + by destruct Hids1.
    + by rewrite Eout, Hout, counted_app.
    + by rewrite Ein, Hin, counted_app.
    + intros j Hj. apply NewStream_flow. destruct (decide (j = id)) as [->|Hne]; [by right|left].
      rewrite lookup_insert_ne in Hj by done. by apply Hflow.
    + rewrite Ex, zlen_app. pose proof (zlen_nonneg [id]). lia.
  - split; [done|]. intros j Hj. sm_fields. split; [by apply Hmono|]. intros Hn.
    rewrite lookup_insert_ne; [done|]. by intros ->.
Qed.

Lemma take_own_id_spec m : let m1 := take_own_id m in let id := sm_nextStream m in
  sm_nextStream m mod 2 = own_parity m ->
  sm_perspective m1 = sm_perspective m /\ sm_streams m1 = sm_streams m /\
  sm_openStreams m1 = sm_openStreams m /\ sm_roundRobinIndex m1 = sm_roundRobinIndex m /\ sm_nextStream m1 = u32 (id + 2) /\
  sm_highestStreamOpenedByPeer m1 = sm_highestStreamOpenedByPeer m /\
  sm_numOutgoingStreams m1 = count_id 0 id (sm_numOutgoingStreams m) /\
  sm_numIncomingStreams m1 = count_id 1 id (sm_numIncomingStreams m).
Proof.
  unfold take_own_id, count_id, own_parity. intros E. rewrite E. destruct (sm_perspective m) eqn:Ep; by sm_fields.
Qed.

Lemma take_remote_id_spec m id : let m1 := take_remote_id id m in
  id mod 2 = 1 - own_parity m -> sm_highestStreamOpenedByPeer m < id ->
  sm_perspective m1 = sm_perspective m /\ sm_streams m1 = sm_streams m /\
  sm_openStreams m1 = sm_openStreams m /\ sm_roundRobinIndex m1 = sm_roundRobinIndex m /\ sm_nextStream m1 = sm_nextStream m /\
  sm_highestStreamOpenedByPeer m1 = id /\
  sm_numOutgoingStreams m1 = count_id 0 id (sm_numOutgoingStreams m) /\
  sm_numIncomingStreams m1 = count_id 1 id (sm_numIncomingStreams m).
Proof.
  unfold take_remote_id, count_id, own_parity. intros E Hlt. rewrite E.
  destruct (sm_perspective m) eqn:Ep; sm_fields; (destruct (Z.ltb_spec (sm_highestStreamOpenedByPeer m) id); [|lia]); by sm_fields.
Qed.

Lemma openStreamImpl_run m fcm :
  sm_inv m fcm -> sm_nextStream m < 4294967294 ->
  let id := sm_nextStream m in
  exists m' fcm', openStreamImpl (m, fcm) = (Ok (newStream id), (m', fcm')) /\
    sm_inv m' fcm' /\ extends m m' /\ sm_streams m' = <[id := newStream id]> (sm_streams m) /\
    sm_nextStream m' = id + 2 /\ ~ used m id.
Proof.
  intros Hinv Hlt id. destruct (smi_ids _ _ Hinv) as [[Hn Hnp] [Hh Hhp]].
  destruct (take_own_id_spec m Hnp) as (Ep & Es & Eo & Ex & En & Eh & Eout & Ein).
  rewrite u32_small in En by lia.
  assert (Eown : own_parity (take_own_id m) = own_parity m) by (unfold own_parity; by rewrite Ep).
  assert (Hnew : ~ used m id) by (unfold used, id; rewrite Hnp, Z.eqb_refl; lia).
  destruct (put_inv m (take_own_id m) fcm id (negb ((id =? 1) || (id =? 3)))) as (H1 & H2 & H3); try done.
  - unfold used. rewrite Eown, En. unfold id. rewrite Hnp, Z.eqb_refl. lia.
  - intros j. unfold used. rewrite Eown, En, Eh. destruct (_ =? _); lia.
  - split; rewrite ?Eown, ?En, ?Eh; [|done]. split; [lia|]. rewrite <- Hnp. by rewrite <- (Z.mod_add (sm_nextStream m) 1 2).
  - exists (snd (putStream (newStream id) (take_own_id m))), (snd (NewStream id (negb ((id =? 1) || (id =? 3))) fcm)).
    split; [reflexivity|]. split_and!; try done. unfold putStream. case_match; sm_fields; done.
Qed.

Lemma openRemoteStream_run m fcm id :
  sm_inv m fcm -> id mod 2 = 1 - own_parity m -> sm_highestStreamOpenedByPeer m < id < 4294967296 ->
  (exists e, openRemoteStream id (m, fcm) = (Err e, (m, fcm)) /\ 4294927296 <= id) \/
  exists m' fcm', openRemoteStream id (m, fcm) = (Ok (newStream id), (m', fcm')) /\
    sm_inv m' fcm' /\ extends m m' /\ sm_streams m' = <[id := newStream id]> (sm_streams m) /\
    sm_highestStreamOpenedByPeer m' = id /\ sm_nextStream m' = sm_nextStream m /\ ~ used m id /\
    (id <= sm_highestStreamOpenedByPeer m + 2 -> id < 4294927296).
Proof.
  intros Hinv Hpar Hlt. destruct (smi_ids _ _ Hinv) as [[Hn Hnp] [Hh Hhp]].
  unfold openRemoteStream. erewrite run_bind_ok by reflexivity. cbn beta iota.
  destruct (Z.ltb_spec (u32 (id + MaxNewStreamIDDelta)) (sm_highestStreamOpenedByPeer m)) as [Hd|Hd].
  { left. eexists. split; [reflexivity|]. unfold MaxNewStreamIDDelta in Hd.
    destruct (Z.lt_ge_cases id 4294927296); [|done]. rewrite u32_small in Hd by lia. lia. }
  right. destruct (take_remote_id_spec m id Hpar) as (Ep & Es & Eo & Ex & En & Eh & Eout & Ein); [lia|].
  assert (Eown : own_parity (take_remote_id id m) = own_parity m) by (unfold own_parity; by rewrite Ep).
  pose proof (own_parity_cases m) as Hoc.
  assert (Hne : (id mod 2 =? own_parity m) = false) by (rewrite Hpar; apply Z.eqb_neq; lia).
  assert (Hnew : ~ used m id) by (unfold used; rewrite Hne; lia).
  destruct (put_inv m (take_remote_id id m) fcm id (negb ((id =? 1) || (id =? 3)))) as (H1 & H2 & H3); try done.
  - unfold used. rewrite Eown, Hne, Eh. lia.
  - intros j. unfold used. rewrite Eown, En, Eh. intros [Hj Hu]. split; [done|]. destruct (j mod 2 =? own_parity m); lia.
  - split; rewrite ?Eown, ?En, ?Eh; [done|]. split; [lia|]. by right.
  - exists (snd (putStream (newStream id) (take_remote_id id m))), (snd (NewStream id (negb ((id =? 1) || (id =? 3))) fcm)).
    split; [reflexivity|]. split_and!; try done; [unfold putStream; case_match; sm_fields; done..|].
    intros Hnext. destruct (Z.lt_ge_cases id 4294927296) as [|Hge]; [done|]. exfalso.
    unfold MaxNewStreamIDDelta in Hd. replace (id + 4 * 10000) with (id - 4294927296 + 1 * 4294967296) in Hd by lia.
    unfold u32 in Hd. rewrite Z.mod_add in Hd by lia. rewrite Z.mod_small in Hd by lia. lia.
Qed.

(** The rounds of the loop: every ID of the peer from [sid] to [id] is opened. *)
Lemma open_remote_streams_run fuel sid id m fcm :
  sm_inv m fcm -> sid mod 2 = 1 - own_parity m -> id mod 2 = 1 - own_parity m ->
  sm_highestStreamOpenedByPeer m < sid <= sm_highestStreamOpenedByPeer m + 2 ->
  sid <= id + 2 -> id < 4294967296 -> id + 2 - sid < 2 * Z.of_nat fuel ->
  match open_remote_streams fuel sid id (m, fcm) with
  | (Ok _, (m', fcm')) => sm_inv m' fcm' /\ extends m m' /\ sm_nextStream m' = sm_nextStream m /\
      forall j, sm_streams m' !! j =
        if decide (j mod 2 = 1 - own_parity m /\ sid <= j <= id) then Some (newStream j) else sm_streams m !! j
  | (Err _, (m', fcm')) => sm_inv m' fcm' /\ extends m m' /\ sm_nextStream m' = sm_nextStream m /\ 4294927296 <= id
  | (Panic _, _) => False
  end.
Proof.
  revert sid m fcm. induction fuel as [|fuel IH]; intros sid m fcm Hinv Hsid Hid Hsb Hle Hmax Hfuel; [lia|].
  cbn [open_remote_streams]. destruct (Z.leb_spec sid id) as [Hs|Hs].
  2: { split_and!; [done|apply extends_refl|done|]. intros j. by rewrite decide_False by lia. }
  destruct (smi_ids _ _ Hinv) as [_ [Hh _]].
  destruct (openRemoteStream_run m fcm sid Hinv Hsid) as [(e & E & Hb)|(m1 & f1 & E & Hi & He & Es & Eh & En & Hnew & Hb)]; [lia|..].
  { erewrite run_bind_err by exact E. split_and!; [done|apply extends_refl|done|lia]. }
  erewrite run_bind_ok by exact E. specialize (Hb ltac:(lia)). rewrite u32_small by lia.
  assert (Eown : own_parity m1 = own_parity m) by (unfold own_parity; by rewrite (proj1 He)).
  assert (Hpar : (sid + 2) mod 2 = sid mod 2) by (rewrite <- (Z.mod_add sid 1 2) by lia; done).
  specialize (IH (sid + 2) m1 f1 Hi). rewrite Eown, Hpar, Eh in IH.
  specialize (IH Hsid Hid ltac:(lia)).
  assert (Hle' : sid + 2 <= id + 2) by lia. specialize (IH Hle' Hmax ltac:(lia)).
  destruct (open_remote_streams fuel (sid + 2) id (m1, f1)) as [[u|e|p] [m' f']]; [| |done].
  - destruct IH as (Hi' & He' & En' & Hstr). split_and!; [done|by apply (extends_trans m m1)|congruence|].
    intros j. rewrite Hstr, Es. clear -Hsid Hs.
    destruct (decide (j = sid)) as [->|Hj].
    + rewrite lookup_insert_eq, decide_False, decide_True by lia. done.
    + rewrite lookup_insert_ne by done. apply decide_ext. split; [lia|]. intros [Hp Hr]. split; [done|].
      assert (j <> sid + 1) by (intros ->; Z.to_euclidean_division_equations; lia). lia.
  - destruct IH as (Hi' & He' & En' & Hb'). split_and!; [done|by apply (extends_trans m m1)|congruence|done].
Qed.

Lemma refused_none m id :
  refused_stream m id = None ->
  id mod 2 = 1 - own_parity m /\ sm_highestStreamOpenedByPeer m < id /\ ~ used m id.
Proof.
  unfold refused_stream, used, own_parity. pose proof (parity_cases id) as Hc.
  destruct (sm_perspective m).
  - destruct (Z.eqb_spec (id mod 2) 0); [by case_match|]. case_match; [done|]. lia.
  - destruct (Z.eqb_spec (id mod 2) 1); [by case_match|]. case_match; [done|]. lia.
Qed.

(** The first ID to open is the next of the peer. *)
Lemma first_remote_stream_spec m fcm id :
  sm_inv m fcm -> id mod 2 = 1 - own_parity m -> sm_highestStreamOpenedByPeer m < id < 4294967296 ->
  let sid := first_remote_stream m in
  sid mod 2 = 1 - own_parity m /\
  sm_highestStreamOpenedByPeer m < sid <= sm_highestStreamOpenedByPeer m + 2 /\ sid <= id /\
  forall j, j mod 2 = 1 - own_parity m -> sm_highestStreamOpenedByPeer m < j <-> sid <= j.
Proof.
  intros Hinv Hp Hlt. destruct (smi_ids _ _ Hinv) as [_ [Hh Hhp]]. cbn zeta.
  unfold first_remote_stream, own_parity in *. destruct (sm_perspective m).
  - destruct Hhp as [Hz|Hhp].
    + rewrite Hz in *. change (u32 (0 + 2) =? 2) with true. cbn iota. split_and!; [done|lia|lia|lia|intros; lia].
    + assert (sm_highestStreamOpenedByPeer m + 2 <= id) by (Z.to_euclidean_division_equations; lia).
      rewrite u32_small by lia. destruct (Z.eqb_spec (sm_highestStreamOpenedByPeer m + 2) 2).
      { assert (E0 : sm_highestStreamOpenedByPeer m = 0) by lia. by rewrite E0 in Hhp. }
      split_and!; try lia. { Z.to_euclidean_division_equations; lia. }
      intros j Hj. Z.to_euclidean_division_equations; lia.
  - assert (Hhp' : sm_highestStreamOpenedByPeer m mod 2 = 0) by (destruct Hhp as [->|]; done).
    assert (sm_highestStreamOpenedByPeer m + 2 <= id) by (Z.to_euclidean_division_equations; lia).
    rewrite u32_small by lia. split_and!; try lia. { Z.to_euclidean_division_equations; lia. }
    intros j Hj. Z.to_euclidean_division_equations; lia.
Qed.

(** What the ID of a request for a stream leads to. *)
Lemma GetOrOpenStream_run m fcm id :
  sm_inv m fcm -> 0 < id < 4294967296 ->
  match GetOrOpenStream id (m, fcm) with
  | (Ok res, (m', fcm')) => sm_inv m' fcm' /\ extends m m' /\ sm_nextStream m' = sm_nextStream m /\
      res = sm_streams m' !! id /\
      forall j, sm_streams m' !! j =
        if decide (refused_stream m id = None /\ j mod 2 = id mod 2 /\ sm_highestStreamOpenedByPeer m < j <= id)
        then Some (newStream j) else sm_streams m !! j
  | (Err _, (m', fcm')) => sm_inv m' fcm' /\ extends m m' /\ sm_nextStream m' = sm_nextStream m /\
      (refused_stream m id <> None \/ 4294927296 <= id)
  | (Panic _, _) => False
  end.
Proof.
  intros Hinv Hid. unfold GetOrOpenStream. erewrite run_bind_ok by reflexivity. cbn beta iota.
  destruct (sm_streams m !! id) as [s|] eqn:E.
  { split_and!; [done|apply extends_refl|done|done|]. intros j. rewrite decide_False; [done|].
    assert (Hu : used m id) by (apply (smi_used _ _ Hinv); by rewrite E).
    intros (Hr & _ & _). by apply refused_none in Hr as (_ & _ & Hr). }
  destruct (refused_stream m id) as [[e|]|] eqn:Er.
  - split_and!; [done|apply extends_refl|done|]. by left.
  - split_and!; [done|apply extends_refl|done|done|]. intros j. rewrite decide_False; [done|]. by intros [].
  - destruct (refused_none m id Er) as (Hp & Hh & _).
    destruct (first_remote_stream_spec m fcm id Hinv Hp) as (Hs1 & Hs2 & Hs3 & Hs4); [lia|].
    pose proof (open_remote_streams_run (Z.to_nat (id / 2) + 2) (first_remote_stream m) id m fcm Hinv Hs1 Hp Hs2) as H.
    pose proof (Z.mod_pos_bound id 2 ltac:(lia)). pose proof (Z.div_mod id 2 ltac:(lia)).
    destruct (smi_ids _ _ Hinv) as [_ [Hb _]]. specialize (H ltac:(lia) ltac:(lia) ltac:(lia)).
    destruct (open_remote_streams _ _ id (m, fcm)) as [[u|e|p] [m' f']] eqn:Eo; [| |done].
    + erewrite run_bind_ok by exact Eo. cbn. destruct H as (Hi & He & En & Hstr). split_and!; try done.
      intros j. rewrite Hstr, Hp. apply decide_ext. specialize (Hs4 j). intuition lia.
    + erewrite run_bind_err by exact Eo. intuition.
Qed.

Lemma delete_open (id : Z) (ids : list Z) :
  id ∈ ids -> exists i l1 l2, list_find (eq id) ids = Some (i, id) /\ ids = l1 ++ id :: l2 /\ delete i ids = l1 ++ l2 /\ length l1 = i.
Proof.
  intros Hin. destruct (list_find_elem_of (eq id) ids id Hin eq_refl) as [[i x] E].
  exists i, (take i ids), (drop (S i) ids). pose proof E as (Hi & Hx & _)%list_find_Some. subst x.
  split_and!; [done| |by rewrite delete_take_drop|].
  - symmetry. by apply take_drop_middle.
  - apply length_take_le. apply lookup_lt_Some in Hi. lia.
Qed.

Lemma ids_bounded (ids : list Z) :
  NoDup ids -> (forall id, id ∈ ids -> 0 < id < 4294967296) -> zlen ids < 4294967296.
Proof.
  intros Hnd Hr. assert (Hs : ids ⊆+ seqZ 1 4294967295).
  { apply NoDup_submseteq; [done|]. intros x Hx. apply elem_of_seqZ. specialize (Hr x Hx). lia. }
  apply submseteq_length in Hs. rewrite length_seqZ in Hs. unfold zlen. lia.
Qed.

Lemma remove_open_stream_spec m id : let m1 := remove_open_stream id m in
  id ∈ sm_openStreams m ->
  exists l1 l2, sm_openStreams m = l1 ++ id :: l2 /\ sm_openStreams m1 = l1 ++ l2 /\
  sm_roundRobinIndex m1 = (if u32 (zlen l1) <? sm_roundRobinIndex m
                           then u32 (sm_roundRobinIndex m - 1) else sm_roundRobinIndex m) /\
  sm_perspective m1 = sm_perspective m /\ sm_streams m1 = delete id (sm_streams m) /\
  sm_nextStream m1 = sm_nextStream m /\ sm_highestStreamOpenedByPeer m1 = sm_highestStreamOpenedByPeer m /\
  sm_numOutgoingStreams m1 = (if id mod 2 =? 0 then u32 (sm_numOutgoingStreams m - 1) else sm_numOutgoingStreams m) /\
  sm_numIncomingStreams m1 = (if id mod 2 =? 0 then sm_numIncomingStreams m else u32 (sm_numIncomingStreams m - 1)).
Proof.
  intros m1 Hin. destruct (delete_open id _ Hin) as (i & l1 & l2 & E & El & Ed & <-). exists l1, l2. split; [done|].
  unfold m1, remove_open_stream, zlen. destruct (id mod 2 =? 0); sm_fields; rewrite E, Ed; sm_fields;
    destruct (_ <? _); by sm_fields.
Qed.

Lemma parity_count_remove parity l1 l2 id :
  parity_count parity (l1 ++ id :: l2) = parity_count parity (l1 ++ l2) + (if id mod 2 =? parity then 1 else 0).
Proof.
  unfold parity_count. rewrite !filter_app, !zlen_app. destruct (Z.eqb_spec (id mod 2) parity).
  - rewrite filter_cons_True, zlen_cons by done. lia.
  - rewrite filter_cons_False by done. lia.
Qed.

Lemma remove_open_stream_inv m fcm id :
  sm_inv m fcm -> is_Some (sm_streams m !! id) ->
  let m1 := remove_open_stream id m in
  sm_inv m1 (snd (RemoveStream id fcm)) /\ extends m m1 /\ sm_nextStream m1 = sm_nextStream m /\
  sm_streams m1 = delete id (sm_streams m).
Proof.
  intros [Hnd Hopen Hkey Hused Hids Hout Hin Hflow Hindex] Hid m1.
  destruct (remove_open_stream_spec m id) as (l1 & l2 & El & El1 & Ex & Ep & Es & En & Eh & Eo & Ei); [by apply Hopen|].
  fold m1 in El1, Ex, Ep, Es, En, Eh, Eo, Ei.
  assert (Eown : own_parity m1 = own_parity m) by (unfold own_parity; by rewrite Ep).
  assert (Hu : forall j, used m1 j <-> used m j) by (intros j; unfold used; by rewrite Eown, En, Eh).
  assert (Hlen : zlen (sm_openStreams m) < 4294967296).
  { apply ids_bounded; [done|]. intros j Hj. apply Hopen, Hused in Hj. apply Hj. }
  rewrite El in Hnd, Hopen, Hout, Hin, Hindex, Hlen. split_and!; [|split; [done|]|done|done].
  2: { intros j Hj. split; [by apply Hu|]. intros Hn. rewrite Es. by apply lookup_delete_None; right. }
  apply NoDup_app in Hnd as (Hn1 & Hn12 & Hn2). apply NoDup_cons in Hn2 as [Hni Hn2].
  split; rewrite ?Es, ?El1.
  - apply NoDup_app. split_and!; [done| |done]. intros x Hx Hx2. apply (Hn12 x Hx). by right.
  - intros j. specialize (Hopen j). rewrite elem_of_app, elem_of_cons in Hopen. rewrite elem_of_app.
    destruct (decide (j = id)) as [->|Hj].
    + rewrite lookup_delete_eq. split; [|by intros []]. intros [H|H]; [|done]. destruct (Hn12 id H). by left.
    + rewrite lookup_delete_ne by done. intuition.
  - by apply map_Forall_delete.
  - intros j [s Hj]. apply lookup_delete_Some in Hj as [_ Hj]. apply Hu, Hused. by eexists.
  - destruct Hids as [Hn Hh]. split; by rewrite Eown, ?En, ?Eh.
  - rewrite Eo, Hout, parity_count_remove. destruct (id mod 2 =? 0); [|by rewrite Z.add_0_r].
    unfold Z.sub. rewrite u32_add. f_equal. lia.
  - rewrite Ei, Hin, parity_count_remove. destruct (Z.eqb_spec (id mod 2) 0) as [E0|E0].
    + rewrite E0. cbn. by rewrite Z.add_0_r.
    + destruct (parity_cases id) as [|E1]; [done|]. rewrite E1. cbn. unfold Z.sub. rewrite u32_add. f_equal. lia.
  - intros j [s Hj]. apply lookup_delete_Some in Hj as [Hne Hj]. unfold RemoveStream, modifyS. cbn.
    rewrite lookup_delete_ne by done. apply Hflow. by eexists.
  - rewrite Ex. rewrite zlen_app, zlen_cons in Hindex, Hlen. rewrite zlen_app.
    pose proof (zlen_nonneg l1). pose proof (zlen_nonneg l2). rewrite (u32_small (zlen l1)) by lia.
    destruct (Z.ltb_spec (zlen l1) (sm_roundRobinIndex m)); rewrite ?u32_small by lia; lia.
Qed.

Lemma update_stream_inv m fcm s :
  sm_inv m fcm -> is_Some (sm_streams m !! str_streamID s) ->
  let m1 := update_stream s m in sm_inv m1 fcm /\ extends m m1 /\ sm_nextStream m1 = sm_nextStream m.
Proof.
  intros [Hnd Hopen Hkey Hused Hids Hout Hin Hflow Hindex] Hs m1.
  assert (Hdom : forall j, is_Some (sm_streams m1 !! j) <-> is_Some (sm_streams m !! j)).
  { intros j. unfold m1, update_stream. sm_fields. destruct (decide (j = str_streamID s)) as [->|Hj].
    - rewrite lookup_insert_eq. split; [done|by eexists].
    - by rewrite lookup_insert_ne. }
  split_and!; [|split; [done|]|done].
  - split; try done.
    + intros j. by rewrite Hdom, <- Hopen.
    + by apply map_Forall_insert_2.
    + intros j Hj. by apply Hused, Hdom.
    + by destruct Hids.
    + intros j Hj. by apply Hflow, Hdom.
  - intros j Hj. split; [done|]. rewrite !eq_None_not_Some. by rewrite Hdom.
Qed.

Lemma closeErr_inv m fcm e : sm_inv m fcm -> sm_inv (m <| sm_closeErr := Some e |>) fcm.
Proof. intros [? ? ? ? [? ?] ? ? ? ?]. by split. Qed.

Lemma accept_inv m fcm id : sm_inv m fcm -> sm_inv (m <| sm_nextStreamToAccept := id |>) fcm.
Proof. intros [? ? ? ? [? ?] ? ? ? ?]. by split. Qed.

(** Closing: every open stream is there to be cancelled. *)
Lemma cancel_streams_run e ids m fcm :
  sm_inv m fcm -> Forall (fun id => is_Some (sm_streams m !! id)) ids ->
  exists m', cancel_streams e ids (m, fcm) = (Ok tt, (m', fcm)) /\ sm_inv m' fcm /\ extends m m' /\
    sm_nextStream m' = sm_nextStream m.
Proof.
  revert m. induction ids as [|id ids IH]; intros m Hinv Hids; cbn [cancel_streams].
  { exists m. split_and!; [done|done|apply extends_refl|done]. }
  apply Forall_cons in Hids as [[s Es] Hids]. erewrite run_bind_ok by reflexivity. cbn beta iota. rewrite Es.
  assert (Eid : str_streamID (stream_Cancel s e) = id).
  { rewrite <- (smi_key _ _ Hinv _ _ Es). unfold stream_Cancel, set_error. by destruct (str_err _). }
  destruct (update_stream_inv m fcm (stream_Cancel s e) Hinv) as (Hi & He & En); [by rewrite Eid, Es|].
  erewrite run_bind_ok by reflexivity.
  destruct (IH (update_stream (stream_Cancel s e) m) Hi) as (m' & E & Hi' & He' & En').
  { eapply Forall_impl; [exact Hids|]. intros j Hj. unfold update_stream. sm_fields. rewrite Eid.
    destruct (decide (j = id)) as [->|Hne]; [by rewrite lookup_insert_eq|by rewrite lookup_insert_ne]. }
  exists m'. split_and!; [exact E|done|by eapply extends_trans|congruence].
Qed.

Lemma collect_stream_run m fcm id s :
  sm_inv m fcm -> sm_streams m !! id = Some s ->
  exists m' fcm', collect_stream s (m, fcm) = (Ok (true, None), (m', fcm')) /\ sm_inv m' fcm' /\
    extends m m' /\ sm_nextStream m' = sm_nextStream m /\
    forall j, sm_streams m' !! j = if decide (j = id /\ stream_finished s = true) then None else sm_streams m !! j.
Proof.
  intros Hinv Es. pose proof (smi_key _ _ Hinv _ _ Es) as Ek. cbn in Ek. unfold collect_stream. rewrite Ek.
  destruct (stream_finished s).
  - destruct (remove_open_stream_inv m fcm id Hinv) as (Hi & He & En & Er); [by rewrite Es|].
    exists (remove_open_stream id m), (snd (RemoveStream id fcm)). split_and!; try done.
    + unfold streams_RemoveStream. erewrite run_bind_ok by reflexivity. cbn beta iota. by rewrite Es.
    + intros j. rewrite Er. destruct (decide (j = id)) as [->|Hj].
      * by rewrite lookup_delete_eq, decide_True.
      * rewrite lookup_delete_ne, decide_False by (done || by intros []). done.
  - exists m, fcm. split_and!; [done|done|apply extends_refl|done|]. intros j. rewrite decide_False; [done|]. by intros [].
Qed.

(** Garbage collection removes the finished streams, and only those. *)
Lemma garbage_run ids m fcm :
  sm_inv m fcm -> NoDup ids -> Forall (fun id => is_Some (sm_streams m !! id)) ids ->
  exists m' fcm', iterate_all collect_stream ids (m, fcm) = (Ok None, (m', fcm')) /\ sm_inv m' fcm' /\
    extends m m' /\ sm_nextStream m' = sm_nextStream m /\
    forall j, sm_streams m' !! j =
      s ← sm_streams m !! j; if decide (j ∈ ids /\ stream_finished s = true) then None else Some s.
Proof.
  revert m fcm. induction ids as [|id ids IH]; intros m fcm Hinv Hnd Hids; cbn [iterate_all].
  { exists m, fcm. split_and!; [done|done|apply extends_refl|done|].
    intros j. destruct (sm_streams m !! j) as [s|]; cbn; [|done]. rewrite decide_False; [done|]. set_solver. }
  apply NoDup_cons in Hnd as [Hni Hnd]. apply Forall_cons in Hids as [[s Es] Hids].
  destruct (collect_stream_run m fcm id s Hinv Es) as (m1 & f1 & E1 & Hi1 & He1 & En1 & Hs1).
  destruct (IH m1 f1 Hi1 Hnd) as (m' & f' & E & Hi & He & En & Hs).
  { rewrite Forall_forall in Hids |- *. intros j Hj. rewrite Hs1, decide_False; [by apply Hids|]. by intros [-> _]. }
  exists m', f'. split_and!; [|done|by eapply extends_trans|congruence|].
  - erewrite run_bind_ok; [|unfold iterateFunc; erewrite run_bind_ok by reflexivity; cbn beta iota; rewrite Es; exact E1].
    exact E.
  - intros j. rewrite Hs, Hs1. destruct (decide (j = id)) as [->|Hj].
    + rewrite Es. destruct (stream_finished s) eqn:Ef; cbn.
      * rewrite decide_True, decide_True by (split; [by left|done]) || done. done.
      * rewrite decide_False by (by intros []). cbn. rewrite !decide_False by (intros [_ H]; congruence). done.
    + rewrite decide_False by (by intros []). destruct (sm_streams m !! j) as [sj|]; [|done]. cbn.
      apply decide_ext. rewrite elem_of_cons. intuition.
Qed.

(** ** Runs *)

Inductive sm_op :=
  | SmGet (id : StreamID)
  | SmOpen
  | SmAccept
  | SmUpdate (id : StreamID) (f : stream -> stream)
  | SmCollect
  | SmCloseWithError (e : error).

Definition sm_apply (op : sm_op) : SM unit :=
  match op with
  | SmGet id => GetOrOpenStream id;; mret tt
  | SmOpen => OpenStream;; mret tt
  | SmAccept => AcceptStream;; mret tt
  | SmUpdate id f =>
      '(m, _) ← getS;
      match sm_streams m !! id with
      | Some s => sm_modify (update_stream (f s))
      | None => mret tt
      end
  | SmCollect => garbageCollectStreams;; mret tt
  | SmCloseWithError e => streams_CloseWithError e
  end.

(** An error is for the caller; a panic ends the run. *)
Fixpoint sm_run (ops : list sm_op) : SM unit := fun st =>
  match ops with
  | [] => (Ok tt, st)
  | op :: ops =>
      match sm_apply op st with
      | (Panic p, st) => (Panic p, st)
      | (_, st) => sm_run ops st
      end
  end.

(** IDs come from frames; the operations of a stream keep its ID. *)
Definition sm_op_ok (op : sm_op) : Prop :=
  match op with
  | SmGet id => 0 < id < 4294967296
  | SmUpdate _ f => forall s, str_streamID (f s) = str_streamID s
  | _ => True
  end.

(** What a step of a run keeps. *)
Definition kept m (st : streamsMap * flowControlManager) : Prop :=
  let '(m', fcm') := st in sm_inv m' fcm' /\ extends m m' /\ sm_nextStream m' <= sm_nextStream m + 2.

Lemma kept_refl m fcm : sm_inv m fcm -> kept m (m, fcm).
Proof. intros H. split_and!; [done|apply extends_refl|lia]. Qed.

Lemma OpenStream_kept m fcm :
  sm_inv m fcm -> sm_nextStream m < 4294967294 ->
  exists o st', OpenStream (m, fcm) = (o, st') /\ (forall p, o <> Panic p) /\ kept m st'.
Proof.
  intros Hinv Hn. destruct (openStreamImpl_run m fcm Hinv Hn) as (m' & f' & E & Hi & He & _ & En & _).
  unfold OpenStream. erewrite run_bind_ok by reflexivity. cbn beta iota. destruct (sm_closeErr m).
  - eexists _, _. split; [reflexivity|]. split; [done|by apply kept_refl].
  - rewrite E. eexists _, _. split; [reflexivity|]. split; [done|]. split_and!; [done|done|lia].
Qed.

Lemma AcceptStream_kept m fcm :
  sm_inv m fcm -> exists o st', AcceptStream (m, fcm) = (o, st') /\ (forall p, o <> Panic p) /\ kept m st'.
Proof.
  intros Hinv. unfold AcceptStream. erewrite run_bind_ok by reflexivity. cbn beta iota.
  destruct (sm_closeErr m); [|destruct (_ !! _)]; eexists _, _; (split; [reflexivity|]); (split; [done|]);
    try by apply kept_refl.
  split_and!; [by apply accept_inv|by split|cbn; lia].
Qed.

Lemma forget_run {A} (c : SM A) st o st' :
  c st = (o, st') -> (forall p, o <> Panic p) ->
  exists o', (c;; mret tt) st = (o', st') /\ (forall p, o' <> Panic p).
Proof.
  intros E Ho. destruct o as [a|e|p]; [|erewrite run_bind_err by exact E; by eexists|by destruct (Ho p)].
  erewrite run_bind_ok by exact E. by eexists.
Qed.

Lemma sm_apply_run op m fcm :
  sm_inv m fcm -> sm_op_ok op -> sm_nextStream m < 4294967294 ->
  exists o st', sm_apply op (m, fcm) = (o, st') /\ (forall p, o <> Panic p) /\ kept m st'.
Proof.
  intros Hinv Hop Hn.
  assert (Hforget : forall A (c : SM A) o st', c (m, fcm) = (o, st') -> (forall p, o <> Panic p) -> kept m st' ->
    exists o st', (c;; mret tt) (m, fcm) = (o, st') /\ (forall p, o <> Panic p) /\ kept m st').
  { intros A c o st' E Ho Hk. destruct (forget_run c _ o st' E Ho) as (o' & E' & Ho'). by exists o', st'. }
  assert (Hopen : Forall (fun id => is_Some (sm_streams m !! id)) (sm_openStreams m)).
  { apply Forall_forall. intros j. apply (smi_open _ _ Hinv). }
  destruct op as [id| | |id f| |e]; cbn [sm_apply sm_op_ok] in *.
  - pose proof (GetOrOpenStream_run m fcm id Hinv Hop) as H.
    destruct (GetOrOpenStream id (m, fcm)) as [[r|e|p] [m' f']] eqn:E; [| |done]; destruct H as (H1 & H2 & H3 & _);
      (apply (Hforget _ _ _ _ E); [done|]; split_and!; [done|done|lia]).
  - destruct (OpenStream_kept m fcm Hinv Hn) as (o & st' & E & Ho & Hk). by apply (Hforget _ _ o st').
  - destruct (AcceptStream_kept m fcm Hinv) as (o & st' & E & Ho & Hk). by apply (Hforget _ _ o st').
  - erewrite run_bind_ok by reflexivity. cbn beta iota. destruct (sm_streams m !! id) as [s|] eqn:Es.
    2: { eexists _, _. split; [reflexivity|]. split; [done|by apply kept_refl]. }
    pose proof (smi_key _ _ Hinv _ _ Es) as Ek. cbn in Ek.
    destruct (update_stream_inv m fcm (f s) Hinv) as (Hi & He & En); [by rewrite Hop, Ek, Es|].
    eexists _, _. split; [reflexivity|]. split; [done|]. split_and!; [done|done|lia].
  - destruct (garbage_run (sm_openStreams m) m fcm Hinv) as (m' & f' & E & Hi & He & En & _); [apply Hinv|done|].
    apply (Hforget _ _ _ _ E); [done|]. split_and!; [done|done|lia].
  - destruct (cancel_streams_run e (sm_openStreams m) _ fcm (closeErr_inv m fcm e Hinv) Hopen) as (m' & E & Hi & He & En).
    unfold streams_CloseWithError. do 2 erewrite run_bind_ok by reflexivity. cbn beta iota. exists (Ok tt), (m', fcm).
    split; [exact E|]. split; [done|]. split_and!; [done|done|]. rewrite En. sm_fields. lia.
Qed.

Lemma sm_run_kept ops m fcm :
  sm_inv m fcm -> Forall sm_op_ok ops -> sm_nextStream m + 2 * zlen ops < 4294967296 ->
  exists m' fcm', sm_run ops (m, fcm) = (Ok tt, (m', fcm')) /\ sm_inv m' fcm' /\ extends m m' /\
    sm_nextStream m' <= sm_nextStream m + 2 * zlen ops.
Proof.
  revert m fcm. induction ops as [|op ops IH]; intros m fcm Hinv Hops Hn; cbn [sm_run].
  { exists m, fcm. split_and!; [done|done|apply extends_refl|]. rewrite (zlen_nil (A := sm_op)). lia. }
  rewrite zlen_cons in *. pose proof (zlen_nonneg ops). apply Forall_cons in Hops as [Hop Hops].
  destruct (sm_apply_run op m fcm Hinv Hop) as (o & [m1 f1] & E & Ho & Hi & He & Hn1); [lia|]. rewrite E.
  destruct (IH m1 f1 Hi Hops) as (m' & f' & E' & Hi' & He' & Hn'); [lia|].
  exists m', f'. split_and!; [by destruct o as [| |p]; [..|destruct (Ho p)]|done|by eapply extends_trans|lia].
Qed.

Lemma newStreamsMap_inv pers fcm : sm_inv (newStreamsMap pers) fcm.
Proof.
  assert (E : sm_streams (newStreamsMap pers) = ∅) by by destruct pers.
  split; rewrite ?E; try (by destruct pers); try (by intros id []).
  - destruct pers; apply NoDup_nil_2.
  - intros id. rewrite lookup_empty. split; [|by intros []]. destruct pers; set_solver.
  - split; destruct pers; cbn; (split; [lia|]); auto.
Qed.

(** ** The order of the round robin *)

(** A lambda that changes only its stream and the state of its closure. *)
Definition stream_lambda {X} (g : stream -> X -> bool * (stream * X)) : streamLambda X := fun s '(m, x) =>
  let '(cont, (s', x')) := g s x in (Ok (cont, None), (update_stream s' m, x')).

(** The streams of a list in order, until the lambda stops: whether it did not, the
    streams and the state it left, and the IDs it saw. *)
Fixpoint visit {X} (g : stream -> X -> bool * (stream * X)) (ids : list Z) (streams : gmap Z stream) (x : X) :
    bool * gmap Z stream * X * list Z :=
  match ids with
  | [] => (true, streams, x, [])
  | id :: ids =>
      match streams !! id with
      | None => visit g ids streams x
      | Some s =>
          let '(cont, (s', x')) := g s x in
          let streams' := <[id := s']> streams in
          if cont then let '(c, st, y, v) := visit g ids streams' x' in (c, st, y, id :: v)
          else (false, streams', x', [id])
      end
  end.

Definition prioritized (id : Z) : bool := (id =? 1) || (id =? 3).

Definition round_robin_order m : list Z :=
  filter (fun id => id ∈ sm_openStreams m) [1; 3] ++
  filter (fun id => prioritized id = false) (rotate (Z.to_nat (sm_roundRobinIndex m)) (sm_openStreams m)).

(** The index moves by the number of streams seen after the prioritized ones. *)
Definition advance (n index : Z) (v : list Z) : Z :=
  match v with [] => index | _ => (index + zlen v) mod n end.

Section RoundRobin.
Context {X : Type} (g : stream -> X -> bool * (stream * X)).
Context (g_id : forall s x, str_streamID (fst (snd (g s x))) = str_streamID s).

Lemma iterateFunc_lambda m x id s :
  sm_streams m !! id = Some s -> str_streamID s = id ->
  iterateFunc (stream_lambda g) id (m, x) =
    let '(cont, (s', x')) := g s x in (Ok (cont, None), (m <| sm_streams := <[id := s']> (sm_streams m) |>, x')).
Proof.
  intros Es Ek. unfold iterateFunc. erewrite run_bind_ok by reflexivity. cbn beta iota. rewrite Es.
  unfold stream_lambda. pose proof (g_id s x) as Hg. destruct (g s x) as [c [s' x']]. cbn in Hg.
  unfold update_stream. by rewrite Hg, Ek.
Qed.

Lemma advance_cons n index id v : 0 < n -> 0 <= index ->
  advance n ((index + 1) mod n) v = advance n index (id :: v).
Proof.
  intros Hn Hi. unfold advance. rewrite zlen_cons. destruct v as [|a v].
  - by rewrite zlen_nil.
  - rewrite Z.add_mod_idemp_l by lia. f_equal. lia.
Qed.

Definition keyed (streams : gmap Z stream) : Prop := map_Forall (fun id s => str_streamID s = id) streams.

Lemma iterate_round_robin_visit rest i n start m x :
  (forall k id, rest !! k = Some id ->
     sm_openStreams m !! Z.to_nat (u32 (i + Z.of_nat k + start) mod n) = Some id) ->
  Forall (fun id => is_Some (sm_streams m !! id)) rest -> keyed (sm_streams m) ->
  0 < n < 2147483648 -> 0 <= sm_roundRobinIndex m <= n ->
  iterate_round_robin (stream_lambda g) (length rest) i n start (m, x) =
    let '(c, streams', x', v) := visit g (filter (fun id => prioritized id = false) rest) (sm_streams m) x in
    (Ok None, (m <| sm_streams := streams' |> <| sm_roundRobinIndex := advance n (sm_roundRobinIndex m) v |>, x')).
Proof.
  revert i m x. induction rest as [|id rest IH]; intros i m x Hl Hs Hk Hn Hi; cbn [length iterate_round_robin].
  { cbn. by destruct m. }
  apply Forall_cons in Hs as [[s Es] Hs]. erewrite run_bind_ok by reflexivity. cbn beta iota.
  specialize (Hl 0%nat id eq_refl) as Hl0. rewrite Z.add_0_r in Hl0. rewrite Hl0.
  assert (Hl' : forall k id, rest !! k = Some id ->
     sm_openStreams m !! Z.to_nat (u32 (i + 1 + Z.of_nat k + start) mod n) = Some id).
  { intros k j Hj. rewrite <- (Hl (S k) j Hj). do 4 f_equal. lia. }
  fold (prioritized id). destruct (prioritized id) eqn:Ep.
  { rewrite filter_cons_False by congruence. by apply IH. }
  rewrite filter_cons_True by done. cbn [visit]. rewrite Es.
  pose proof (iterateFunc_lambda m x id s Es (Hk _ _ Es)) as E. pose proof (g_id s x) as Hg.
  destruct (g s x) as [c [s' x']]. cbn in Hg. erewrite run_bind_ok by exact E. cbn beta iota.
  erewrite run_bind_ok by reflexivity. sm_fields. rewrite u32_small by lia. destruct c.
  - rewrite IH; sm_fields; [|exact Hl'| | |done|].
    + destruct (visit g _ _ x') as [[[c st] y] v]. by rewrite (advance_cons _ _ id) by lia.
    + eapply Forall_impl; [exact Hs|]. intros j Hj. cbn. destruct (decide (j = id)) as [->|Hne];
        [by rewrite lookup_insert_eq|by rewrite lookup_insert_ne].
    + apply map_Forall_insert_2; [|done]. rewrite Hg. by apply Hk.
    + pose proof (Z.mod_pos_bound (sm_roundRobinIndex m + 1) n). lia.
  - done.
Qed.

(** Streams 1 and 3, where they are open. *)
Lemma iterate_prioritized_visit ids m x :
  keyed (sm_streams m) ->
  iterate_prioritized (stream_lambda g) ids (m, x) =
    let '(c, streams', x', _) := visit g ids (sm_streams m) x in
    (Ok (if c : bool then None else Some None), (m <| sm_streams := streams' |>, x')).
Proof.
  revert m x. induction ids as [|id ids IH]; intros m x Hk; cbn [iterate_prioritized visit]; [by destruct m|].
  destruct (sm_streams m !! id) as [s|] eqn:Es.
  - pose proof (iterateFunc_lambda m x id s Es (Hk _ _ Es)) as E. pose proof (g_id s x) as Hg.
    destruct (g s x) as [c [s' x']]. cbn in Hg. erewrite run_bind_ok by exact E. cbn beta iota. destruct c; [|done].
    rewrite IH; sm_fields.
    + by destruct (visit g ids _ x') as [[[c st] y] v].
    + apply map_Forall_insert_2; [|done]. rewrite Hg. by apply Hk.
  - erewrite run_bind_ok by (unfold iterateFunc; erewrite run_bind_ok by reflexivity; cbn beta iota; by rewrite Es).
    cbn beta iota. rewrite decide_True by done. by apply IH.
Qed.

Lemma visit_dom ids streams x :
  let '(_, streams', _, _) := visit g ids streams x in
  (forall j, is_Some (streams' !! j) <-> is_Some (streams !! j)) /\ (keyed streams -> keyed streams').
Proof.
  revert streams x. induction ids as [|id ids IH]; intros streams x; cbn [visit]; [done|].
  destruct (streams !! id) as [s|] eqn:Es; [|apply IH]. pose proof (g_id s x) as Hg.
  destruct (g s x) as [c [s' x']]. cbn in Hg.
  assert (Hd : (forall j, is_Some (<[id := s']> streams !! j) <-> is_Some (streams !! j)) /\
               (keyed streams -> keyed (<[id := s']> streams))).
  { split.
    - intros j. destruct (decide (j = id)) as [->|Hne]; [rewrite lookup_insert_eq, Es; split; by eexists|by rewrite lookup_insert_ne].
    - intros Hk. apply map_Forall_insert_2; [|done]. rewrite Hg. by apply Hk. }
  destruct c; [|done]. specialize (IH (<[id := s']> streams) x').
  destruct (visit g ids _ x') as [[[c st] y] v]. destruct IH as [H1 H2], Hd as [H3 H4]. split; [|auto].
  intros j. by rewrite H1.
Qed.

Lemma visit_app ids1 ids2 streams x :
  visit g (ids1 ++ ids2) streams x =
    let '(c, st, y, v) := visit g ids1 streams x in
    if c then let '(c', st', y', v') := visit g ids2 st y in (c', st', y', v ++ v') else (c, st, y, v).
Proof.
  revert streams x. induction ids1 as [|id ids1 IH]; intros streams x; cbn [visit app].
  { by destruct (visit g ids2 streams x) as [[[c st] y] v]. }
  destruct (streams !! id) as [s|]; [|apply IH]. destruct (g s x) as [[] [s' x']]; [|done].
  rewrite IH. destruct (visit g ids1 _ x') as [[[[] st] y] v]; [|done].
  by destruct (visit g ids2 st y) as [[[c st'] y'] v'].
Qed.

(** The IDs seen are those of the list that are open, up to where it stopped. *)
Lemma visit_seen ids streams x :
  let '(c, _, _, v) := visit g ids streams x in
  v `prefix_of` filter (fun id => is_Some (streams !! id)) ids /\
  (c = true -> v = filter (fun id => is_Some (streams !! id)) ids).
Proof.
  revert streams x. induction ids as [|id ids IH]; intros streams x; cbn [visit]; [done|].
  destruct (streams !! id) as [s|] eqn:Es.
  2: { rewrite filter_cons_False by (rewrite Es; by intros []). apply IH. }
  rewrite filter_cons_True by (by rewrite Es). destruct (g s x) as [c [s' x']]. destruct c.
  - specialize (IH (<[id := s']> streams) x'). destruct (visit g ids _ x') as [[[c st] y] v].
    replace (filter (fun j => is_Some (<[id := s']> streams !! j)) ids)
      with (filter (fun j => is_Some (streams !! j)) ids) in IH.
    + destruct IH as [H1 H2]. split; [by apply prefix_cons|]. intros E. f_equal. auto.
    + apply list_filter_iff. intros j. destruct (decide (j = id)) as [->|Hne];
        [rewrite lookup_insert_eq, Es; split; by eexists|by rewrite lookup_insert_ne].
  - split; [|done]. by apply prefix_cons, prefix_nil.
Qed.

Lemma visit_filter (P : Z -> Prop) `{!forall j, Decision (P j)} ids streams x :
  (forall j, j ∈ ids -> is_Some (streams !! j) -> P j) -> visit g (filter P ids) streams x = visit g ids streams x.
Proof.
  revert streams x. induction ids as [|id ids IH]; intros streams x HP; [done|].
  assert (HP' : forall st : gmap Z stream, (forall j, is_Some (st !! j) <-> is_Some (streams !! j)) ->
    forall j, j ∈ ids -> is_Some (st !! j) -> P j).
  { intros st Hst j Hj Hs. apply HP; [by right|by apply Hst]. }
  destruct (decide (P id)) as [Hid|Hid].
  - rewrite filter_cons_True by done. cbn [visit]. destruct (streams !! id) as [s|] eqn:Es; [|by apply IH, HP'].
    destruct (g s x) as [[] [s' x']]; [|done]. rewrite IH; [done|]. apply HP'. intros j.
    destruct (decide (j = id)) as [->|Hne]; [rewrite lookup_insert_eq, Es; split; by eexists|by rewrite lookup_insert_ne].
  - rewrite filter_cons_False by done. cbn [visit]. destruct (streams !! id) as [s|] eqn:Es; [|by apply IH, HP'].
    destruct Hid. apply HP; [by left|by rewrite Es].
Qed.
End RoundRobin.

Lemma open_size m fcm : sm_inv m fcm -> Z.of_nat (size (sm_streams m)) = zlen (sm_openStreams m).
Proof.
  intros Hinv. unfold zlen. f_equal. rewrite <- size_dom, <- (size_list_to_set (C := gset Z) (sm_openStreams m)) by apply Hinv.
  f_equal. apply leibniz_equiv. intros j. rewrite elem_of_dom, elem_of_list_to_set. symmetry. apply Hinv.
Qed.

Lemma round_robin_order_perm m fcm : sm_inv m fcm -> round_robin_order m ≡ₚ sm_openStreams m.
Proof.
  intros Hinv. pose proof (smi_nodup _ _ Hinv) as Hnd.
  assert (Hr : rotate (Z.to_nat (sm_roundRobinIndex m)) (sm_openStreams m) ≡ₚ sm_openStreams m).
  { unfold rotate. rewrite Permutation_app_comm. by rewrite take_drop. }
  apply NoDup_Permutation; [|done|].
  - apply NoDup_app. split_and!.
    + apply NoDup_filter. repeat constructor; set_solver.
    + intros j Hj Hj'. apply list_elem_of_filter in Hj as [_ Hj], Hj' as [Hp _].
      apply elem_of_cons in Hj as [->|Hj]; [done|]. apply list_elem_of_singleton in Hj. by subst j.
    + apply NoDup_filter. by rewrite Hr.
  - intros j. unfold round_robin_order. rewrite elem_of_app, !list_elem_of_filter, Hr.
    destruct (prioritized j) eqn:E; [|intuition congruence]. split; [intuition congruence|]. intros Hj. left.
    split; [done|]. unfold prioritized in E. apply orb_true_iff in E as [E|E]; apply Z.eqb_eq in E; subst j; set_solver.
Qed.

(** The rounds of the loop look the rotated list up. *)
Lemma rotated_lookup (ids : list Z) (index : Z) k id :
  0 <= index -> zlen ids < 2147483648 -> index <= zlen ids ->
  rotate (Z.to_nat index) ids !! k = Some id ->
  ids !! Z.to_nat (u32 (0 + Z.of_nat k + index) mod zlen ids) = Some id.
Proof.
  intros Hi Hlen Hle Hk. pose proof (lookup_lt_Some _ _ _ Hk) as Hlt. rewrite length_rotate in Hlt.
  rewrite lookup_rotate_r in Hk by done. rewrite <- Hk. f_equal. unfold rotate_nat_add, zlen in *.
  rewrite u32_small by lia. f_equal. f_equal. lia.
Qed.

Lemma filter_all {A} (P : A -> Prop) `{!forall a, Decision (P a)} l : Forall P l -> filter P l = l.
Proof. induction 1; [done|]. rewrite filter_cons_True by done. by f_equal. Qed.

Lemma filter_absent {A} (P : A -> Prop) `{!forall a, Decision (P a)} l : Forall (fun a => ~ P a) l -> filter P l = [].
Proof. induction 1; [done|]. by rewrite filter_cons_False by done. Qed.

Lemma visit_rotated_seen {X} (g : stream -> X -> bool * (stream * X)) m ids x :
  let '(c, _, _, v) := visit g (filter (fun id => prioritized id = false) ids) (sm_streams m) x in
  filter (fun id => prioritized id = false) v = v.
Proof.
  pose proof (visit_seen g (filter (fun id => prioritized id = false) ids) (sm_streams m) x) as H.
  destruct (visit g _ _ x) as [[[c st] y] v]. destruct H as [[k Hk] _].
  apply filter_all, Forall_forall. intros j Hj.
  assert (Hin : j ∈ filter (fun id => is_Some (sm_streams m !! id)) (filter (fun id => prioritized id = false) ids)).
  { rewrite Hk. apply elem_of_app. by left. }
  apply list_elem_of_filter in Hin as [_ Hin]. by apply list_elem_of_filter in Hin as [Hp _].
Qed.

Lemma visit_prioritized_seen {X} (g : stream -> X -> bool * (stream * X)) streams x :
  let '(c, _, _, v) := visit g [1; 3] streams x in filter (fun id => prioritized id = false) v = [].
Proof.
  pose proof (visit_seen g [1; 3] streams x) as H. destruct (visit g _ _ x) as [[[c st] y] v].
  destruct H as [[k Hk] _]. apply filter_absent, Forall_forall. intros j Hj.
  assert (Hin : j ∈ filter (fun id => is_Some (streams !! id)) [1; 3]) by (rewrite Hk; apply elem_of_app; by left).
  apply list_elem_of_filter in Hin as [_ Hin]. apply elem_of_cons in Hin as [->|Hin]; [done|].
  apply list_elem_of_singleton in Hin. by subst j.
Qed.

(** The loop after the streams 1 and 3. *)
Lemma round_robin_rest {X} (g : stream -> X -> bool * (stream * X))
    (Hg : forall s x, str_streamID (fst (snd (g s x))) = str_streamID s) m x rest :
  rest = rotate (Z.to_nat (sm_roundRobinIndex m)) (sm_openStreams m) ->
  let n := zlen (sm_openStreams m) in
  let '(_, streams', x', v) := visit g (filter (fun id => prioritized id = false) rest) (sm_streams m) x in
  0 <= n < 2147483648 -> 0 <= sm_roundRobinIndex m <= n ->
  (forall j, j ∈ sm_openStreams m <-> is_Some (sm_streams m !! j)) -> keyed (sm_streams m) ->
  iterate_round_robin (stream_lambda g) (Z.to_nat n) 0 n (sm_roundRobinIndex m) (m, x)
    = (Ok None, (m <| sm_streams := streams' |> <| sm_roundRobinIndex := advance n (sm_roundRobinIndex m) v |>, x')).
Proof.
  intros -> n. set (rest := rotate _ _).
  assert (El : Z.to_nat n = length rest) by (unfold rest, n, zlen; rewrite length_rotate; lia).
  pose proof (iterate_round_robin_visit g Hg rest 0 n (sm_roundRobinIndex m) m x) as H.
  destruct (visit g _ _ x) as [[[c st] y] v] eqn:Ev. intros Hn Hi Ho Hk. rewrite El.
  destruct (Z.eq_dec n 0) as [E0|E0].
  - assert (Hr : rest = []) by (apply nil_length_inv; lia). rewrite Hr in *. cbn in Ev. injection Ev as <- <- <- <-. by destruct m.
  - apply H; try done; [|  |lia].
    + intros k id Hk'. apply rotated_lookup; [lia..|done].
    + apply Forall_forall. intros j Hj. apply Ho. unfold rest, rotate in Hj.
      rewrite elem_of_app in Hj. rewrite <- (take_drop (Z.to_nat (sm_roundRobinIndex m) mod length (sm_openStreams m)) (sm_openStreams m)).
      rewrite elem_of_app. tauto.
Qed.

(** The round robin.  A lambda that changes only its stream is given every
    open stream once, until it stops: first the streams 1 and 3, then the others
    from the round robin index on, around the end of the list.  The index moves
    on by the number of these others that it saw. *)
Lemma round_robin {X} (g : stream -> X -> bool * (stream * X)) m fcm x :
  (forall s x, str_streamID (fst (snd (g s x))) = str_streamID s) ->
  sm_inv m fcm -> zlen (sm_openStreams m) < 2147483648 ->
  let '(c, streams', x', v) := visit g (round_robin_order m) (sm_streams m) x in
  let index := advance (zlen (sm_openStreams m)) (sm_roundRobinIndex m) (filter (fun id => prioritized id = false) v) in
  RoundRobinIterate (stream_lambda g) (m, x)
    = (Ok None, (m <| sm_streams := streams' |> <| sm_roundRobinIndex := index |>, x')) /\
  round_robin_order m ≡ₚ sm_openStreams m /\ v `prefix_of` round_robin_order m /\
  (c = true -> v = round_robin_order m).
Proof.
  intros Hg Hinv Hlen. pose proof (zlen_nonneg (sm_openStreams m)) as Hnn.
  pose proof (round_robin_order_perm m fcm Hinv) as Hperm.
  assert (Hopen : Forall (fun id => is_Some (sm_streams m !! id)) (round_robin_order m)).
  { apply Forall_forall. intros j. rewrite Hperm. apply Hinv. }
  pose proof (visit_seen g (round_robin_order m) (sm_streams m) x) as Hseen. rewrite (filter_all _ _ Hopen) in Hseen.
  set (rest := rotate (Z.to_nat (sm_roundRobinIndex m)) (sm_openStreams m)).
  assert (Ev : visit g (round_robin_order m) (sm_streams m) x =
    let '(c, st, y, v) := visit g [1; 3] (sm_streams m) x in
    if c then let '(c', st', y', v') := visit g (filter (fun id => prioritized id = false) rest) st y in (c', st', y', v ++ v')
    else (c, st, y, v)).
  { unfold round_robin_order. rewrite visit_app, visit_filter by (intros j _; apply Hinv). done. }
  rewrite Ev in Hseen |- *. clear Ev.
  unfold RoundRobinIterate. erewrite run_bind_ok by reflexivity. cbn beta iota zeta.
  rewrite (open_size m fcm Hinv), u32_small by lia.
  pose proof (iterate_prioritized_visit g Hg [1; 3] m x (smi_key _ _ Hinv)) as E.
  pose proof (visit_dom g Hg [1; 3] (sm_streams m) x) as Hdom.
  pose proof (visit_prioritized_seen g (sm_streams m) x) as Hprio.
  destruct (visit g [1; 3] (sm_streams m) x) as [[[[] st] y] v]; cbn beta iota in E, Hprio.
  2: { erewrite run_bind_ok by exact E. rewrite Hprio. by destruct Hseen. }
  erewrite run_bind_ok by exact E. cbn beta iota. destruct Hdom as [Hdom Hkeyed].
  set (m1 := m <| sm_streams := st |>) in *.
  pose proof (round_robin_rest g Hg m1 y rest eq_refl) as Er. pose proof (visit_rotated_seen g m1 rest y) as Hrest.
  unfold m1 in *. sm_fields.
  destruct (visit g _ st y) as [[[c st'] y'] v']. rewrite filter_app, Hprio, Hrest. cbn [app].
  destruct Hseen as [Hp Hc]. split_and!; [|done|done|done]. apply Er.
  - split; [apply Hnn|done].
  - apply Hinv.
  - intros j. rewrite Hdom. apply Hinv.
  - by apply Hkeyed, Hinv.
Qed.

(** C20: streams are opened once.  In any sequence of requests of the peer,
    openings, accepts, garbage collections, operations on streams and a close,
    nothing panics, the list of open streams has each stream of the map once, and
    each has its flow controller; a stream that was open and is gone is never
    opened again. *)
Theorem streams_never_reopened pers fcm ops0 ops1 ops2 id :
  Forall sm_op_ok (ops0 ++ ops1 ++ ops2) -> 2 * zlen (ops0 ++ ops1 ++ ops2) < 4294967290 ->
  exists m0 f0 m1 f1 m2 f2,
    sm_run ops0 (newStreamsMap pers, fcm) = (Ok tt, (m0, f0)) /\
    sm_run ops1 (m0, f0) = (Ok tt, (m1, f1)) /\ sm_run ops2 (m1, f1) = (Ok tt, (m2, f2)) /\
    NoDup (sm_openStreams m2) /\ (forall j, j ∈ sm_openStreams m2 <-> is_Some (sm_streams m2 !! j)) /\
    (forall j, is_Some (sm_streams m2 !! j) -> is_Some (fcm_streamFlowController f2 !! j)) /\
    (is_Some (sm_streams m0 !! id) -> sm_streams m1 !! id = None -> sm_streams m2 !! id = None).
Proof.
  intros Hops Hn. apply Forall_app in Hops as [Hops0 Hops]. apply Forall_app in Hops as [Hops1 Hops2].
  rewrite !zlen_app in Hn. pose proof (zlen_nonneg ops0). pose proof (zlen_nonneg ops1). pose proof (zlen_nonneg ops2).
  assert (Hn0 : sm_nextStream (newStreamsMap pers) <= 2) by (destruct pers; cbn; lia).
  destruct (sm_run_kept ops0 _ fcm (newStreamsMap_inv pers fcm) Hops0) as (m0 & f0 & E0 & Hi0 & He0 & Hn1); [lia|].
  destruct (sm_run_kept ops1 m0 f0 Hi0 Hops1) as (m1 & f1 & E1 & Hi1 & He1 & Hn2); [lia|].
  destruct (sm_run_kept ops2 m1 f1 Hi1 Hops2) as (m2 & f2 & E2 & Hi2 & He2 & Hn3); [lia|].
  exists m0, f0, m1, f1, m2, f2. split_and!; try done; try apply Hi2.
  intros Hs. apply (proj2 He2). by apply He1, (smi_used _ _ Hi0).
Qed.

(** A client whose stream 3 is cancelled and collected, while the server opens its
    streams 2 to 6. *)
Definition sample_sm_ops : list sm_op * list sm_op * list sm_op :=
  ([SmOpen; SmOpen; SmGet 4],
   [SmUpdate 3 (fun s => stream_Cancel s io_EOF); SmCollect; SmAccept],
   [SmGet 3; SmOpen; SmGet 6; SmCloseWithError io_EOF]).

Definition sample_fcm : flowControlManager := NewFlowControlManager sample_client NewRTTStats ∅.

Lemma stream_Cancel_id s e : str_streamID (stream_Cancel s e) = str_streamID s.
Proof. unfold stream_Cancel, set_error. by destruct (str_err _). Qed.

Lemma streams_never_reopened_witness :
  let '(ops0, ops1, ops2) := sample_sm_ops in
  exists m0 f0 m1 f1 m2 f2,
    sm_run ops0 (newStreamsMap PerspectiveClient, sample_fcm) = (Ok tt, (m0, f0)) /\
    sm_run ops1 (m0, f0) = (Ok tt, (m1, f1)) /\ sm_run ops2 (m1, f1) = (Ok tt, (m2, f2)) /\
    NoDup (sm_openStreams m2) /\ (forall j, j ∈ sm_openStreams m2 <-> is_Some (sm_streams m2 !! j)) /\
    (forall j, is_Some (sm_streams m2 !! j) -> is_Some (fcm_streamFlowController f2 !! j)) /\
    (is_Some (sm_streams m0 !! 3) -> sm_streams m1 !! 3 = None -> sm_streams m2 !! 3 = None).
Proof.
  apply (streams_never_reopened PerspectiveClient sample_fcm); [|vm_compute; reflexivity].
  repeat constructor; cbn; try lia. intros s. apply stream_Cancel_id.
Defined.

(** The run of the witness: stream 3 is open, then collected, and stays so. *)
Lemma sample_sm_run :
  let '(ops0, ops1, ops2) := sample_sm_ops in
  let st0 := snd (sm_run ops0 (newStreamsMap PerspectiveClient, sample_fcm)) in
  let st1 := snd (sm_run ops1 st0) in
  let st2 := snd (sm_run ops2 st1) in
  sm_openStreams (fst st0) = [1; 3; 2; 4] /\ sm_openStreams (fst st1) = [1; 2; 4] /\
  sm_openStreams (fst st2) = [1; 2; 4; 5; 6].
Proof. vm_compute. done. Qed.

(** A lambda that records the streams it sees, and stops after [k]. *)
Definition record_ids (s : stream) (x : nat * list Z) : bool * (stream * (nat * list Z)) :=
  let '(k, ids) := x in
  match k with
  | O | S O => (false, (s, (O, ids ++ [str_streamID s])))
  | S k => (true, (s, (k, ids ++ [str_streamID s])))
  end.

Lemma record_ids_id s x : str_streamID (fst (snd (record_ids s x))) = str_streamID s.
Proof. by destruct x as [[|[|]] ids]. Qed.

Definition sample_sm : streamsMap := fst (snd (sm_run (repeat SmOpen 5) (newStreamsMap PerspectiveClient, sample_fcm))).

Lemma sample_sm_inv : sm_inv sample_sm (snd (snd (sm_run (repeat SmOpen 5) (newStreamsMap PerspectiveClient, sample_fcm)))).
Proof.
  destruct (sm_run_kept (repeat SmOpen 5) _ _ (newStreamsMap_inv PerspectiveClient sample_fcm)) as (m & f & E & Hi & _).
  - repeat constructor.
  - vm_compute. reflexivity.
  - unfold sample_sm. by rewrite E.
Qed.

Lemma round_robin_sample :
  round_robin_order sample_sm = [1; 3; 5; 7; 9] /\
  exists index, RoundRobinIterate (stream_lambda record_ids) (sample_sm, (4%nat, []))
    = (Ok None, (sample_sm <| sm_roundRobinIndex := index |>, (O, [1; 3; 5; 7]))).
Proof.
  split; [vm_compute; reflexivity|]. exists 2.
  pose proof (round_robin record_ids sample_sm _ (4%nat, []) record_ids_id sample_sm_inv ltac:(vm_compute; reflexivity)) as H.
  destruct (visit record_ids _ _ _) as [[[c st] x'] v] eqn:E. vm_compute in E. injection E as <- <- <- <-.
  destruct H as (H & _). rewrite H. vm_compute. reflexivity.
Defined.

(** ** What the streams map does not do *)

(** The first stream considered after the streams 1 and 3, in the calls of a lambda
    that stops there. *)
Fixpoint first_served (calls : nat) m : list Z :=
  match calls with
  | O => []
  | S calls =>
      match RoundRobinIterate (stream_lambda record_ids) (m, (3%nat, [])) with
      | (Ok _, (m, (_, ids))) => drop 2 ids ++ first_served calls m
      | _ => []
      end
  end.

(** The index counts the streams considered but is used as a position in the list,
    where the streams 1 and 3 are too: the stream after them is served three times
    as often as the others. *)
Lemma round_robin_unfair : first_served 10 sample_sm = [5; 5; 5; 7; 9; 5; 5; 5; 7; 9].
Proof. vm_compute. reflexivity. Qed.

(** An ID that this side has not opened yet, its next, is taken for a closed one. *)
Lemma next_own_stream_ignored m fcm :
  sm_inv m fcm -> GetOrOpenStream (sm_nextStream m) (m, fcm) = (Ok None, (m, fcm)) /\ ~ used m (sm_nextStream m).
Proof.
  intros Hinv. destruct (smi_ids _ _ Hinv) as [[Hn Hp] _].
  assert (Hu : ~ used m (sm_nextStream m)) by (unfold used; rewrite Hp, Z.eqb_refl; lia).
  split; [|done]. unfold GetOrOpenStream. erewrite run_bind_ok by reflexivity. cbn beta iota.
  destruct (sm_streams m !! sm_nextStream m) eqn:E; [destruct Hu; apply (smi_used _ _ Hinv); by rewrite E|].
  unfold refused_stream, own_parity in *. rewrite Hp. destruct (sm_perspective m); by rewrite Z.leb_refl.
Qed.

(** One frame makes the peer open any number of streams: neither the limit on the
    streams nor [MaxNewStreamIDDelta] stops it. *)
Lemma peer_opens_any_number id fcm :
  id mod 2 = 1 -> 0 < id < 4294927296 ->
  exists m' fcm' s, GetOrOpenStream id (newStreamsMap PerspectiveServer, fcm) = (Ok (Some s), (m', fcm')) /\
    forall j, j mod 2 = 1 -> 0 < j <= id -> is_Some (sm_streams m' !! j).
Proof.
  intros Hp Hid. set (m := newStreamsMap PerspectiveServer).
  pose proof (GetOrOpenStream_run m fcm id (newStreamsMap_inv _ _) ltac:(lia)) as H.
  assert (Er : refused_stream m id = None).
  { unfold refused_stream. cbn [m sm_perspective newStreamsMap]. rewrite Hp. cbn. by destruct (Z.leb_spec id 0); [lia|]. }
  destruct (GetOrOpenStream id (m, fcm)) as [[r|e|p] [m' f']]; [| |done].
  - destruct H as (_ & _ & _ & -> & Hs).
    assert (Hj : forall j, j mod 2 = 1 -> 0 < j <= id -> sm_streams m' !! j = Some (newStream j)).
    { intros j Hj Hr. rewrite Hs, decide_True; [done|]. split; [done|]. split; [congruence|]. done. }
    exists m', f', (newStream id). rewrite Hj by lia. split; [done|]. intros j H1 H2. by rewrite Hj.
  - destruct H as (_ & _ & _ & [H|H]); [done|lia].
Qed.
