(* ===== verification/StreamFramer.v ===== *)
(** * stream_framer.go: STREAM frames for a packet

    The frames to retransmit come first, then new data of the streams in round
    robin order.  The framer's state has the streams map and the flow control
    manager that it points to.  The lambda given to the streams map changes its
    stream and the state [pop_state] of its closure, which takes the manager and
    the queue of BLOCKED frames along. *)

From S2P Require Import Prelude Protocol ByteOrder WireFrames WireAck MinMax RttStats ConnParams FlowControl.
From S2P Require Import StreamFrameSorter Stream StreamsMap.

Record streamFramer := mkStreamFramer {
  sfr_streamsMap : streamsMap;
  sfr_flowControlManager : flowControlManager;
  sfr_retransmissionQueue : list StreamFrame;
  sfr_blockedFrameQueue : list BlockedFrame;
  sfr_addAddressFrameQueue : list AddAddressFrame;
  sfr_closePathFrameQueue : list ClosePathFrame;
  sfr_pathsFrame : option PathsFrame
}.

#[global] Instance eta_streamFramer : Eta streamFramer := fun f =>
  mkStreamFramer (sfr_streamsMap f) (sfr_flowControlManager f) (sfr_retransmissionQueue f)
    (sfr_blockedFrameQueue f) (sfr_addAddressFrameQueue f) (sfr_closePathFrameQueue f) (sfr_pathsFrame f).

Definition newStreamFramer (m : streamsMap) (fcm : flowControlManager) : streamFramer :=
  mkStreamFramer m fcm [] [] [] [] None.

Implicit Types (f : streamFramer).

Abbreviation Fr := (GoM streamFramer).

(** ** The queues *)

Definition AddFrameForRetransmission (frame : StreamFrame) f : streamFramer :=
  f <| sfr_retransmissionQueue := sfr_retransmissionQueue f ++ [frame] |>.

Definition PopBlockedFrame f : option BlockedFrame * streamFramer :=
  match sfr_blockedFrameQueue f with
  | [] => (None, f)
  | frame :: q => (Some frame, f <| sfr_blockedFrameQueue := q |>)
  end.

Definition AddAddressForTransmission (ipVersion : Z) (addr : UDPAddr) f : streamFramer :=
  f <| sfr_addAddressFrameQueue := sfr_addAddressFrameQueue f ++ [mkAddAddressFrame ipVersion addr] |>.

Definition PopAddAddressFrame f : option AddAddressFrame * streamFramer :=
  match sfr_addAddressFrameQueue f with
  | [] => (None, f)
  | frame :: q => (Some frame, f <| sfr_addAddressFrameQueue := q |>)
  end.

Definition Hour : Duration := 3600 * Second.

(** [paths] are the paths of the session in the order of the iteration, each with
    whether it potentially failed and its smoothed RTT. *)
Definition AddPathsFrameForTransmission (paths : list (PathID * bool * Duration)) f : streamFramer :=
  f <| sfr_pathsFrame := Some (mkPathsFrame 255 (u8 (zlen paths)) (map (fun p => fst (fst p)) paths)
         (map (fun '(_, failed, rtt) => if failed : bool then Hour else rtt) paths)) |>.

Definition PopPathsFrame f : option PathsFrame * streamFramer :=
  match sfr_pathsFrame f with
  | None => (None, f)
  | Some frame => (Some frame, f <| sfr_pathsFrame := None |>)
  end.

Definition AddClosePathFrameForTransmission (frame : ClosePathFrame) f : streamFramer :=
  f <| sfr_closePathFrameQueue := sfr_closePathFrameQueue f ++ [frame] |>.

Definition PopClosePathFrame f : option ClosePathFrame * streamFramer :=
  match sfr_closePathFrameQueue f with
  | [] => (None, f)
  | frame :: q => (Some frame, f <| sfr_closePathFrameQueue := q |>)
  end.

Definition HasFramesForRetransmission f : bool := 0 <? zlen (sfr_retransmissionQueue f).

(** ** The crypto stream *)

Definition fr_streams {A} (c : SM A) : Fr A := fun f =>
  let '(o, (m, fcm)) := c (sfr_streamsMap f, sfr_flowControlManager f) in
  (o, f <| sfr_streamsMap := m |> <| sfr_flowControlManager := fcm |>).

(** The crypto stream; the methods of a nil stream panic. *)
Definition crypto_stream : Fr stream := fun f =>
  match fr_streams (GetOrOpenStream 1) f with
  | (Ok (Some cs), f) => (Ok cs, f)
  | (Panic p, f) => (Panic p, f)
  | (_, f) => (Panic "nil pointer dereference", f)
  end.

Definition HasCryptoStreamFrame : Fr bool :=
  cs ← crypto_stream; mret (0 <? lenOfDataForWriting cs).

(** "can never error": the length of the header of a frame. *)
Definition frame_header_len (frame : StreamFrame) : ByteCount :=
  match StreamFrame_MinLength frame VersionWhatever with Ok l => l | _ => 0 end.

Definition PopCryptoStreamFrame (maxLen : ByteCount) : Fr (option StreamFrame) :=
  has ← HasCryptoStreamFrame;
  if negb has then mret None
  else
    cs ← crypto_stream;
    let frame := mkStreamFrame 1 false false (str_writeOffset cs) [] in
    let '(data, cs') := getDataForWriting cs (u64 (maxLen - frame_header_len frame)) in
    modifyS (fun f => f <| sfr_streamsMap := update_stream cs' (sfr_streamsMap f) |>);;
    mret (Some (frame <| sf_Data := default [] data |>)).

(** ** Retransmissions *)

(** The first [n] bytes as a frame of their own, and what remains. *)
Definition maybeSplitOffFrame (frame : StreamFrame) (n : ByteCount) : option (StreamFrame * StreamFrame) :=
  if StreamFrame_DataLen frame <=? n then None
  else
    Some (mkStreamFrame (sf_StreamID frame) false (sf_DataLenPresent frame) (sf_Offset frame)
            (take (Z.to_nat n) (sf_Data frame)),
          frame <| sf_Data := drop (Z.to_nat n) (sf_Data frame) |>
                <| sf_Offset := u64 (sf_Offset frame + n) |>).

(** The loop over the queue: the frames popped, their length, the rest of the queue
    and the manager. *)
Fixpoint pop_retransmissions (maxLen currentLen : ByteCount) (queue : list StreamFrame) (fcm : flowControlManager) :
    list StreamFrame * ByteCount * list StreamFrame * flowControlManager :=
  match queue with
  | [] => ([], currentLen, [], fcm)
  | frame :: queue =>
      let frame := frame <| sf_DataLenPresent := true |> in
      let frameHeaderLen := frame_header_len frame in
      if maxLen <=? u64 (currentLen + frameHeaderLen) then ([], currentLen, frame :: queue, fcm)
      else
        let currentLen := u64 (currentLen + frameHeaderLen) in
        match maybeSplitOffFrame frame (u64 (maxLen - currentLen)) with
        | Some (splitFrame, frame) =>
            let frameLen := StreamFrame_DataLen splitFrame in
            ([splitFrame], u64 (currentLen + frameLen), frame :: queue,
             snd (AddBytesRetrans (sf_StreamID splitFrame) frameLen fcm))
        | None =>
            let frameLen := StreamFrame_DataLen frame in
            let fcm := snd (AddBytesRetrans (sf_StreamID frame) frameLen fcm) in
            let '(res, l, queue, fcm) := pop_retransmissions maxLen (u64 (currentLen + frameLen)) queue fcm in
            (frame :: res, l, queue, fcm)
        end
  end.

Definition maybePopFramesForRetransmission (maxLen : ByteCount) f : list StreamFrame * ByteCount * streamFramer :=
  let '(res, currentLen, queue, fcm) :=
    pop_retransmissions maxLen 0 (sfr_retransmissionQueue f) (sfr_flowControlManager f) in
  (res, currentLen, f <| sfr_retransmissionQueue := queue |> <| sfr_flowControlManager := fcm |>).

(** ** New data *)

Record pop_state := mkPopState {
  ps_frame : StreamFrame;
  ps_currentLen : ByteCount;
  ps_res : list StreamFrame;
  ps_fcm : flowControlManager;
  ps_blocked : list BlockedFrame
}.

#[global] Instance eta_pop_state : Eta pop_state := fun x =>
  mkPopState (ps_frame x) (ps_currentLen x) (ps_res x) (ps_fcm x) (ps_blocked x).

Definition fresh_frame : StreamFrame := mkStreamFrame 0 false true 0 [].

(** The window for the data of the stream; an error leaves it 0. *)
Definition send_window (id : StreamID) (fcm : flowControlManager) : ByteCount :=
  match fst (SendWindowSize id fcm) with Ok w => w | _ => 0 end.

Definition remaining_window (fcm : flowControlManager) : ByteCount :=
  match fst (RemainingConnectionWindowSize fcm) with Ok w => w | _ => 0 end.

(** The end of the lambda: a frame with [data] is sent, with a FIN if [fin]. *)
Definition emit_frame (maxBytes : ByteCount) (s : stream) (frame : StreamFrame) (frameHeaderBytes sendWindowSize : ByteCount)
    (data : option (list Z)) (fin : bool) (x : pop_state) : bool * (stream * pop_state) :=
  let s := if fin then sentFin s else s in
  let frame := if fin then frame <| sf_FinBit := true |> else frame in
  let frame := frame <| sf_Data := default [] data |> in
  let fcm := snd (AddBytesSent (str_streamID s) (StreamFrame_DataLen frame) (ps_fcm x)) in
  let blocked :=
    if remaining_window fcm =? 0 then ps_blocked x ++ [mkBlockedFrame 0]
    else if negb (sf_FinBit frame) && (u64 (sendWindowSize - StreamFrame_DataLen frame) =? 0)
    then ps_blocked x ++ [mkBlockedFrame (str_streamID s)]
    else ps_blocked x in
  let currentLen := u64 (ps_currentLen x + u64 (frameHeaderBytes + StreamFrame_DataLen frame)) in
  let res := ps_res x ++ [frame] in
  if currentLen =? maxBytes then (false, (s, mkPopState frame currentLen res fcm blocked))
  else (true, (s, mkPopState fresh_frame currentLen res fcm blocked)).

Definition pop_normal_frame (maxBytes : ByteCount) (s : stream) (x : pop_state) : bool * (stream * pop_state) :=
  if str_streamID s =? 1 then (true, (s, x))
  else
    let frame := (ps_frame x) <| sf_StreamID := str_streamID s |> <| sf_Offset := str_writeOffset s |> in
    let x := x <| ps_frame := frame |> in
    let frameHeaderBytes := frame_header_len frame in
    if maxBytes <? u64 (ps_currentLen x + frameHeaderBytes) then (false, (s, x))
    else
      let maxLen := u64 (maxBytes - ps_currentLen x - frameHeaderBytes) in
      let lenStreamData := lenOfDataForWriting s in
      let sendWindowSize := if negb (lenStreamData =? 0) then send_window (str_streamID s) (ps_fcm x) else 0 in
      let maxLen := if negb (lenStreamData =? 0) then MinByteCount maxLen sendWindowSize else maxLen in
      if maxLen =? 0 then (true, (s, x))
      else
        let '(data, s) := if negb (lenStreamData =? 0) then getDataForWriting s maxLen else (None, s) in
        let fin := shouldSendFin s in
        match data, fin with
        | None, false => (true, (s, x))
        | _, _ => emit_frame maxBytes s frame frameHeaderBytes sendWindowSize data fin x
        end.

(** The error of the iteration is dropped. *)
Definition maybePopNormalFrames (maxBytes : ByteCount) : Fr (list StreamFrame) := fun f =>
  let x := mkPopState fresh_frame 0 [] (sfr_flowControlManager f) (sfr_blockedFrameQueue f) in
  match RoundRobinIterate (stream_lambda (pop_normal_frame maxBytes)) (sfr_streamsMap f, x) with
  | (o, (m, x)) =>
      let f := f <| sfr_streamsMap := m |> <| sfr_flowControlManager := ps_fcm x |>
                 <| sfr_blockedFrameQueue := ps_blocked x |> in
      (match o with Panic p => Panic p | _ => Ok (ps_res x) end, f)
  end.

Definition PopStreamFrames (maxLen : ByteCount) : Fr (list StreamFrame) := fun f =>
  let '(fs, currentLen, f) := maybePopFramesForRetransmission maxLen f in
  (res ← maybePopNormalFrames (u64 (maxLen - currentLen)); mret (fs ++ res)) f.

#[local] Arguments assign {R T} field {_} v r /.
Ltac fr_fields :=
  cbn [assign sfr_streamsMap sfr_flowControlManager sfr_retransmissionQueue sfr_blockedFrameQueue
       sfr_addAddressFrameQueue sfr_closePathFrameQueue sfr_pathsFrame sf_StreamID sf_FinBit sf_DataLenPresent
       sf_Offset sf_Data ps_frame ps_currentLen ps_res ps_fcm ps_blocked fst snd] in *.

(** ** Lengths *)

Definition framed_len (frames : list StreamFrame) : Z :=
  foldr (fun fr n => frame_header_len fr + StreamFrame_DataLen fr + n) 0 frames.

Lemma framed_len_cons fr frames :
  framed_len (fr :: frames) = frame_header_len fr + StreamFrame_DataLen fr + framed_len frames.
Proof. done. Qed.

Lemma framed_len_app l1 l2 : framed_len (l1 ++ l2) = framed_len l1 + framed_len l2.
Proof. induction l1 as [|fr l1 IH]; [done|]. cbn [app]. rewrite !framed_len_cons. lia. Qed.

Lemma frame_header_len_bounds fr : 2 <= frame_header_len fr <= 15.
Proof.
  unfold frame_header_len, StreamFrame_MinLength, StreamFrame_calculateStreamIDLength, StreamFrame_getOffsetLength.
  repeat case_match; simplify_eq; lia.
Qed.

Lemma framed_len_nonneg frames : 0 <= framed_len frames.
Proof.
  induction frames as [|fr frames IH]; [done|]. rewrite framed_len_cons. pose proof (frame_header_len_bounds fr).
  pose proof (DataLen_nonneg fr). lia.
Qed.

(** ** Retransmissions keep the data *)

(** The bytes that frames carry, each with its stream and offset, and the ends of
    streams that they announce. *)
Definition carried_bytes (fr : StreamFrame) : list (Z * Z * Z) :=
  imap (fun i b => (sf_StreamID fr, sf_Offset fr + Z.of_nat i, b)) (sf_Data fr).
Definition carried_fin (fr : StreamFrame) : list (Z * Z) :=
  if sf_FinBit fr then [(sf_StreamID fr, sf_Offset fr + StreamFrame_DataLen fr)] else [].

(** A frame of a stream's data: its ID and its offsets are in range. *)
Definition frame_in_range (fr : StreamFrame) : Prop :=
  u32_ok (sf_StreamID fr) /\ 0 <= sf_Offset fr /\ sf_Offset fr + StreamFrame_DataLen fr < 18446744073709551616.

(** A frame that may be written: it has data or the FIN. *)
Definition frame_some (fr : StreamFrame) : Prop := sf_FinBit fr = true \/ sf_Data fr <> [].

Lemma frame_some_len fr : 0 < StreamFrame_DataLen fr -> frame_some fr.
Proof. intros H. right. intros E. unfold StreamFrame_DataLen in H. by rewrite E in H. Qed.

Lemma split_keeps fr n first rest :
  frame_in_range fr -> 0 <= n -> maybeSplitOffFrame fr n = Some (first, rest) ->
  carried_bytes fr = carried_bytes first ++ carried_bytes rest /\ carried_fin fr = carried_fin first ++ carried_fin rest /\
  StreamFrame_DataLen first = n /\ frame_header_len first = frame_header_len fr /\ frame_in_range rest /\
  sf_DataLenPresent first = sf_DataLenPresent fr /\ frame_in_range first /\ 0 < StreamFrame_DataLen rest.
Proof.
  intros (Hid & Hoff & Hlen) Hn. unfold maybeSplitOffFrame. destruct (Z.leb_spec (StreamFrame_DataLen fr) n) as [|Hlt]; [done|].
  intros [= <- <-]. unfold StreamFrame_DataLen in *.
  assert (El : length (take (Z.to_nat n) (sf_Data fr)) = Z.to_nat n) by (apply length_take_le; unfold zlen in *; lia).
  assert (Er : zlen (drop (Z.to_nat n) (sf_Data fr)) = zlen (sf_Data fr) - n)
    by (unfold zlen in *; rewrite length_drop; lia).
  split_and!; unfold frame_in_range, carried_bytes, carried_fin, StreamFrame_DataLen; fr_fields; try done; rewrite ?Er.
  - rewrite <- (take_drop (Z.to_nat n) (sf_Data fr)) at 1. rewrite imap_app, El. f_equal.
    apply imap_ext. intros i b _. fr_fields. rewrite u64_small by lia. do 2 f_equal. lia.
  - rewrite u64_small by lia. destruct (sf_FinBit fr); [|done]. cbn. do 2 f_equal. lia.
  - unfold zlen in *. rewrite El. lia.
  - split; [done|]. rewrite u64_small by lia. lia.
  - split; [done|]. unfold zlen in *. rewrite El. lia.
  - lia.
Qed.

Lemma pop_retransmissions_spec queue maxLen currentLen fcm :
  0 <= currentLen <= maxLen -> maxLen < 4611686018427387904 -> Forall frame_in_range queue ->
  let '(res, l, queue', fcm') := pop_retransmissions maxLen currentLen queue fcm in
  l = currentLen + framed_len res /\ l <= maxLen /\ Forall frame_in_range queue' /\
  queue ≫= carried_bytes = (res ≫= carried_bytes) ++ (queue' ≫= carried_bytes) /\
  queue ≫= carried_fin = (res ≫= carried_fin) ++ (queue' ≫= carried_fin) /\
  Forall (fun fr => sf_DataLenPresent fr = true) res /\ Forall frame_in_range res /\
  (Forall frame_some queue -> Forall frame_some res /\ Forall frame_some queue') /\
  (queue <> [] -> 15 < maxLen - currentLen -> res <> []).
Proof.
  revert currentLen fcm. induction queue as [|fr queue IH]; intros currentLen fcm Hc Hm Hq; cbn [pop_retransmissions].
  { cbn [framed_len foldr]. split_and!; try done; lia. }
  apply Forall_cons in Hq as [Hfr Hq]. set (fr1 := fr <| sf_DataLenPresent := true |>).
  pose proof (frame_header_len_bounds fr1) as Hh.
  assert (Hfr1 : frame_in_range fr1) by exact Hfr.
  assert (Eb : carried_bytes fr = carried_bytes fr1) by done. assert (Ef : carried_fin fr = carried_fin fr1) by done.
  rewrite u64_small by lia. destruct (Z.leb_spec maxLen (currentLen + frame_header_len fr1)) as [Hmax|Hmax].
  { cbn [framed_len foldr mbind list_bind app]. split_and!; try done; [lia|lia|by constructor| |lia].
    intros Hsome. split; [done|]. apply Forall_cons in Hsome as [H1 H2]. by constructor. }
  rewrite (u64_small (maxLen - _)) by lia.
  destruct (maybeSplitOffFrame fr1 (maxLen - (currentLen + frame_header_len fr1))) as [[first rest]|] eqn:Es.
  - destruct (split_keeps fr1 _ first rest Hfr1 (Z.lt_le_incl _ _ (proj2 (Z.lt_0_sub _ _) Hmax)) Es)
      as (E1 & E2 & E3 & E4 & E5 & E6 & E8 & E7).
    rewrite u64_small by lia. rewrite framed_len_cons. cbn [framed_len foldr mbind list_bind app].
    rewrite !app_nil_r, Eb, Ef, E1, E2, E3, E4, <- !app_assoc.
    split_and!; try done; [lia|lia|by constructor|by apply Forall_singleton|by apply Forall_singleton|].
    intros Hsome. apply Forall_cons in Hsome as [_ Hsome].
    split; (constructor; [apply frame_some_len; lia|done]).
  - unfold maybeSplitOffFrame in Es.
    destruct (Z.leb_spec (StreamFrame_DataLen fr1) (maxLen - (currentLen + frame_header_len fr1))) as [Hd|]; [|done].
    pose proof (DataLen_nonneg fr1) as Hdn. rewrite u64_small by lia.
    specialize (IH (currentLen + frame_header_len fr1 + StreamFrame_DataLen fr1)
      (snd (AddBytesRetrans (sf_StreamID fr1) (StreamFrame_DataLen fr1) fcm)) ltac:(lia) Hm Hq).
    destruct (pop_retransmissions maxLen _ queue _) as [[[res l] queue'] fcm'].
    destruct IH as (H1 & H2 & H3 & H4 & H5 & H6 & H6' & H7 & _). rewrite framed_len_cons. cbn [mbind list_bind].
    rewrite Eb, Ef, H4, H5, <- !app_assoc. split_and!; try done; [lia|by constructor|by constructor|].
    intros Hsome. apply Forall_cons in Hsome as [Hs1 Hs2]. destruct (H7 Hs2). split; [by constructor|done].
Qed.

(** ** New frames *)

(** The data that a stream has to send. *)
Definition pending (s : stream) : list Z :=
  match str_err s with Some _ => [] | None => default [] (str_dataForWriting s) end.

(** What it means that a frame takes the next data of a stream. *)
Record sent_by (s : stream) (fr : StreamFrame) (s' : stream) : Prop := {
  sb_id : sf_StreamID fr = str_streamID s /\ str_streamID s' = str_streamID s;
  sb_offset : sf_Offset fr = str_writeOffset s;
  sb_data : pending s = sf_Data fr ++ pending s';
  sb_writeOffset : str_writeOffset s' = u64 (str_writeOffset s + StreamFrame_DataLen fr);
  sb_fin : if sf_FinBit fr
           then str_finishedWriting s = true /\ str_finSent s = false /\ str_finSent s' = true /\ pending s' = []
           else str_finSent s' = str_finSent s;
  sb_some : frame_some fr
}.

Lemma lenOfDataForWriting_pending s : lenOfDataForWriting s = zlen (pending s).
Proof. unfold lenOfDataForWriting, pending. destruct (str_err s); [done|]. by destruct (str_dataForWriting s). Qed.

Lemma getDataForWriting_spec s maxBytes :
  pending s <> [] -> 0 < maxBytes ->
  exists ret s', getDataForWriting s maxBytes = (Some ret, s') /\ ret <> [] /\ zlen ret <= maxBytes /\
    pending s = ret ++ pending s' /\ str_writeOffset s' = u64 (str_writeOffset s + zlen ret) /\
    str_streamID s' = str_streamID s /\ str_finishedWriting s' = str_finishedWriting s /\
    str_finSent s' = str_finSent s /\ str_err s' = str_err s.
Proof.
  unfold pending, getDataForWriting. destruct (str_err s) eqn:Ee; [done|]. destruct (str_dataForWriting s) as [d|] eqn:Ed; [|done].
  cbn [default]. intros Hd Hm. destruct (Z.ltb_spec maxBytes (zlen d)) as [Hl|Hl].
  - eexists _, _. split; [reflexivity|]. cbn. rewrite Ee. cbn.
    assert (El : zlen (take (Z.to_nat maxBytes) d) = maxBytes) by (unfold zlen in *; rewrite length_take; lia).
    split_and!; try done; [|lia|by rewrite take_drop].
    intros E. rewrite E in El. unfold zlen in El. cbn in El. lia.
  - eexists _, _. split; [reflexivity|]. cbn. rewrite Ee. cbn. rewrite app_nil_r. by split_and!.
Qed.

Lemma send_window_nonneg id fcm : 0 <= send_window id fcm.
Proof.
  assert (H : forall cp c, 0 <= fc_SendWindowSize cp c) by (intros cp c; unfold fc_SendWindowSize; case_match; lia).
  unfold send_window, SendWindowSize, getFlowController. unfold_go.
  destruct (fcm_streamFlowController fcm !! id) as [c|]; cbn; [|lia].
  destruct (ContributesToConnection c); [|apply H]. rewrite MinByteCount_min.
  pose proof (H (fcm_connectionParameters fcm) c). pose proof (H (fcm_connectionParameters fcm) (fcm_connFlowController fcm)). lia.
Qed.

Definition fresh (fr : StreamFrame) : Prop := sf_FinBit fr = false /\ sf_DataLenPresent fr = true /\ sf_Data fr = [].

(** The closure of the lambda between two streams. *)
Definition pop_ok (maxBytes : Z) (x : pop_state) : Prop :=
  ps_currentLen x = framed_len (ps_res x) /\ framed_len (ps_res x) <= maxBytes.

Definition popped_frame (maxBytes : Z) (s : stream) (x : pop_state) (c : bool) (s' : stream) (x' : pop_state)
    (fr : StreamFrame) : Prop :=
  sent_by s fr s' /\ sf_DataLenPresent fr = true /\ ps_res x' = ps_res x ++ [fr] /\ pop_ok maxBytes x' /\
  StreamFrame_DataLen fr <= send_window (str_streamID s) (ps_fcm x) /\
  ps_fcm x' = snd (AddBytesSent (str_streamID s) (StreamFrame_DataLen fr) (ps_fcm x)) /\
  (c = true -> fresh (ps_frame x')).

Lemma frame_header_len_data fr fin data : frame_header_len (fr <| sf_FinBit := fin |> <| sf_Data := data |>) = frame_header_len fr.
Proof. done. Qed.

Lemma emit_frame_spec maxBytes s0 s frame sendWindowSize data fin x :
  pop_ok maxBytes x -> maxBytes < 4611686018427387904 -> fresh frame ->
  sent_by s0 (frame <| sf_FinBit := fin |> <| sf_Data := default [] data |>) (if fin then sentFin s else s) ->
  framed_len (ps_res x) + frame_header_len frame + zlen (default [] data) <= maxBytes ->
  zlen (default [] data) <= send_window (str_streamID s0) (ps_fcm x) ->
  let '(c, (s', x')) := emit_frame maxBytes s frame (frame_header_len frame) sendWindowSize data fin x in
  popped_frame maxBytes s0 x c s' x' (frame <| sf_FinBit := fin |> <| sf_Data := default [] data |>).
Proof.
  intros [Ec Hmax] Hm Hf Hs Hfit Hw. set (fr := frame <| sf_FinBit := fin |> <| sf_Data := default [] data |>) in *.
  pose proof (framed_len_nonneg (ps_res x)) as Hnn. pose proof (frame_header_len_bounds frame) as Hh.
  pose proof (zlen_nonneg (default [] data)) as Hdn.
  assert (El : framed_len (ps_res x ++ [fr]) = framed_len (ps_res x) + (frame_header_len frame + zlen (default [] data))).
  { rewrite framed_len_app, framed_len_cons. change (framed_len []) with 0. unfold fr. rewrite frame_header_len_data.
    unfold StreamFrame_DataLen. fr_fields. lia. }
  assert (Efr : (if fin then frame <| sf_FinBit := true |> else frame) <| sf_Data := default [] data |> = fr).
  { destruct Hf as [Ef _]. unfold fr. destruct fin; [done|]. destruct frame. fr_fields. by rewrite Ef. }
  assert (Eid : str_streamID (if fin then sentFin s else s) = str_streamID s0) by apply Hs.
  unfold emit_frame. cbn zeta. rewrite Efr, Eid. change (StreamFrame_DataLen fr) with (zlen (default [] data)).
  rewrite (u64_small (frame_header_len frame + _)) by lia. rewrite Ec, u64_small by lia.
  assert (Hfr : popped_frame maxBytes s0 x true (if fin then sentFin s else s)
    (mkPopState fresh_frame (framed_len (ps_res x ++ [fr])) (ps_res x ++ [fr])
       (snd (AddBytesSent (str_streamID s0) (zlen (default [] data)) (ps_fcm x))) []) fr).
  { unfold popped_frame, pop_ok. fr_fields. split_and!; try done; [apply Hf|lia]. }
  rewrite <- El. destruct Hfr as (H1 & H2 & H3 & H4 & H5 & H6 & H7).
  destruct (framed_len (ps_res x ++ [fr]) =? maxBytes); unfold popped_frame; by split_and!.
Qed.

(** A stream without a frame is left as it is. *)
Definition popped_nothing (s : stream) (x : pop_state) (s' : stream) (x' : pop_state) : Prop :=
  s' = s /\ ps_res x' = ps_res x /\ ps_fcm x' = ps_fcm x /\ ps_blocked x' = ps_blocked x /\
  ps_currentLen x' = ps_currentLen x /\ fresh (ps_frame x').

(** Taking the data, and the FIN when nothing is left. *)
Lemma sent_by_data s frame maxLen :
  fresh frame -> sf_StreamID frame = str_streamID s -> sf_Offset frame = str_writeOffset s ->
  pending s <> [] -> 0 < maxLen ->
  exists ret s', getDataForWriting s maxLen = (Some ret, s') /\ zlen ret <= maxLen /\
    let fin := shouldSendFin s' in
    sent_by s (frame <| sf_FinBit := fin |> <| sf_Data := ret |>) (if fin then sentFin s' else s').
Proof.
  intros [_ [_ _]] Eid Eoff Hp Hm.
  destruct (getDataForWriting_spec s maxLen Hp Hm) as (ret & s' & E & Hr & Hl & Hd & Ho & Ei & Ef & Es & Ee).
  exists ret, s'. split; [done|]. split; [done|]. cbn zeta. unfold shouldSendFin.
  assert (Hpend : pending (sentFin s') = pending s') by done.
  destruct (str_finishedWriting s') eqn:E1, (str_finSent s') eqn:E2; cbn [andb negb];
    try (split; unfold frame_some; fr_fields; solve [auto | congruence]).
  destruct (bool_decide_reflect (str_err s' = None)) as [He|He]; cbn [andb]; [|split; unfold frame_some; fr_fields; solve [auto | congruence]].
  destruct (bool_decide_reflect (str_dataForWriting s' = None)) as [Hw|Hw]; [|split; unfold frame_some; fr_fields; solve [auto | congruence]].
  split; unfold frame_some; fr_fields; try by auto. split_and!; try congruence; [done|]. rewrite Hpend. unfold pending. by rewrite He, Hw.
Qed.

Lemma sent_by_fin s frame :
  fresh frame -> sf_StreamID frame = str_streamID s -> sf_Offset frame = str_writeOffset s ->
  shouldSendFin s = true -> 0 <= str_writeOffset s < 18446744073709551616 ->
  sent_by s (frame <| sf_FinBit := true |> <| sf_Data := [] |>) (sentFin s).
Proof.
  intros _ Eid Eoff Hfin Hw. unfold shouldSendFin in Hfin. apply andb_prop in Hfin as [Hfin Hd].
  apply andb_prop in Hfin as [Hfin He]. apply andb_prop in Hfin as [Hf Hs].
  apply bool_decide_eq_true in Hd, He. apply negb_true_iff in Hs.
  assert (Hp : pending s = []) by (unfold pending; by rewrite He, Hd).
  split; unfold frame_some; fr_fields; try by auto. unfold StreamFrame_DataLen. fr_fields. rewrite zlen_nil, Z.add_0_r. by rewrite u64_small.
Qed.

(** The stream ends before the offsets wrap. *)
Definition offset_ok (s : stream) : Prop :=
  0 <= str_writeOffset s /\ str_writeOffset s + zlen (pending s) < 18446744073709551616.

Lemma offset_ok_sent s fr s' : offset_ok s -> sent_by s fr s' ->
  offset_ok s' /\ sf_Offset fr + StreamFrame_DataLen fr < 18446744073709551616 /\ 0 <= sf_Offset fr.
Proof.
  intros [H1 H2] Hs. pose proof (sb_data _ _ _ Hs) as Hd. rewrite Hd, zlen_app in H2.
  change (zlen (sf_Data fr)) with (StreamFrame_DataLen fr) in H2. pose proof (DataLen_nonneg fr).
  pose proof (zlen_nonneg (pending s')). unfold offset_ok. rewrite (sb_offset _ _ _ Hs), (sb_writeOffset _ _ _ Hs).
  rewrite u64_small by lia. lia.
Qed.

Lemma pop_normal_frame_spec maxBytes s x :
  pop_ok maxBytes x -> maxBytes < 4611686018427387904 -> fresh (ps_frame x) -> offset_ok s ->
  let '(c, (s', x')) := pop_normal_frame maxBytes s x in
  popped_nothing s x s' x' \/ str_streamID s <> 1 /\ exists fr, popped_frame maxBytes s x c s' x' fr.
Proof.
  intros Hok Hm Hf Hoff. unfold pop_normal_frame. destruct (Z.eqb_spec (str_streamID s) 1) as [E1|E1]; [by left|].
  set (frame := (ps_frame x) <| sf_StreamID := str_streamID s |> <| sf_Offset := str_writeOffset s |>).
  assert (Hframe : fresh frame) by exact Hf. set (x1 := x <| ps_frame := frame |>). cbn zeta.
  assert (Hx1 : popped_nothing s x s x1) by (unfold popped_nothing; by split_and!).
  pose proof Hok as [Ec Hmax]. pose proof (framed_len_nonneg (ps_res x)) as Hnn.
  pose proof (frame_header_len_bounds frame) as Hh. change (ps_currentLen x1) with (ps_currentLen x). rewrite Ec.
  rewrite u64_small by lia. destruct (Z.ltb_spec maxBytes (framed_len (ps_res x) + frame_header_len frame)) as [_|Hroom]; [by left|].
  rewrite u64_small by lia. set (room := maxBytes - framed_len (ps_res x) - frame_header_len frame).
  rewrite lenOfDataForWriting_pending. change (ps_fcm x1) with (ps_fcm x).
  pose proof (zlen_nonneg (pending s)) as Hpn.
  pose proof (send_window_nonneg (str_streamID s) (ps_fcm x)) as Hwn.
  destruct (Z.eqb_spec (zlen (pending s)) 0) as [Hp|Hp]; cbn [negb].
  - destruct (Z.eqb_spec room 0); [by left|]. destruct (shouldSendFin s) eqn:Efin; [|by left].
    pose proof (emit_frame_spec maxBytes s s frame 0 None true x Hok Hm Hframe) as H. cbn [default] in H.
    change (emit_frame maxBytes s frame (frame_header_len frame) 0 None true x1)
      with (emit_frame maxBytes s frame (frame_header_len frame) 0 None true x).
    destruct (emit_frame _ _ _ _ _ _ _ _) as [c [s' x']]. right. split; [done|]. eexists. apply H; rewrite ?zlen_nil; [|lia|done].
    apply sent_by_fin; try done. destruct Hoff. lia.
  - rewrite MinByteCount_min. set (w := send_window (str_streamID s) (ps_fcm x)) in *.
    destruct (Z.eqb_spec (room `min` w) 0); [by left|].
    assert (Hpend : pending s <> []) by (intros E; by rewrite E in Hp).
    destruct (sent_by_data s frame (room `min` w) Hframe eq_refl eq_refl Hpend ltac:(lia)) as (ret & s1 & E & Hl & Hs).
    rewrite E. cbn beta iota.
    pose proof (emit_frame_spec maxBytes s s1 frame w (Some ret) (shouldSendFin s1) x Hok Hm Hframe Hs) as H.
    cbn [default id] in H.
    change (emit_frame maxBytes s1 frame (frame_header_len frame) w (Some ret) (shouldSendFin s1) x1)
      with (emit_frame maxBytes s1 frame (frame_header_len frame) w (Some ret) (shouldSendFin s1) x).
    destruct (emit_frame _ _ _ _ _ _ _ _) as [c [s' x']]. right. split; [done|]. eexists. apply H; unfold room, w in *; lia.
Qed.

(** The sends that frames stand for, one after the other. *)
Fixpoint apply_sends (frames : list StreamFrame) (fcm : flowControlManager) : flowControlManager :=
  match frames with
  | [] => fcm
  | fr :: frames => apply_sends frames (snd (AddBytesSent (sf_StreamID fr) (StreamFrame_DataLen fr) fcm))
  end.

Fixpoint sends_within (frames : list StreamFrame) (fcm : flowControlManager) : Prop :=
  match frames with
  | [] => True
  | fr :: frames => StreamFrame_DataLen fr <= send_window (sf_StreamID fr) fcm /\
      sends_within frames (snd (AddBytesSent (sf_StreamID fr) (StreamFrame_DataLen fr) fcm))
  end.

(** A stream is served by one of the frames, or left as it is. *)
Definition served (frames : list StreamFrame) (s s' : stream) : Prop :=
  (exists fr, fr ∈ frames /\ sent_by s fr s') \/
  (s' = s /\ Forall (fun fr => sf_StreamID fr <> str_streamID s) frames).

Record popped (maxBytes : Z) (ids : list Z) (st : gmap Z stream) (x : pop_state) (st' : gmap Z stream)
    (x' : pop_state) (frames : list StreamFrame) : Prop := {
  po_res : ps_res x' = ps_res x ++ frames;
  po_ok : pop_ok maxBytes x';
  po_present : Forall (fun fr => sf_DataLenPresent fr = true) frames;
  po_ids : Forall (fun fr => sf_StreamID fr ∈ ids /\ sf_StreamID fr <> 1) frames;
  po_some : Forall frame_some frames;
  po_range : Forall (fun fr => 0 <= sf_Offset fr /\ sf_Offset fr + StreamFrame_DataLen fr < 18446744073709551616) frames;
  po_nodup : NoDup (sf_StreamID <$> frames);
  po_streams : forall id s, st !! id = Some s -> exists s', st' !! id = Some s' /\ served frames s s';
  po_within : sends_within frames (ps_fcm x);
  po_fcm : ps_fcm x' = apply_sends frames (ps_fcm x)
}.

Lemma popped_none maxBytes ids st x : pop_ok maxBytes x -> popped maxBytes ids st x st x [].
Proof.
  intros Hok. split; try done; [by rewrite app_nil_r|apply NoDup_nil_2|].
  intros id s E. exists s. split; [done|]. by right.
Qed.

Lemma popped_skip maxBytes id ids st x x1 st' x' frames :
  ps_res x1 = ps_res x -> ps_fcm x1 = ps_fcm x ->
  popped maxBytes ids st x1 st' x' frames -> popped maxBytes (id :: ids) st x st' x' frames.
Proof.
  intros Er Ef [H1 H2 H3 H4 H5 H6 H7 H8 H9 H10]. split; rewrite <- ?Er, <- ?Ef; try done.
  eapply Forall_impl; [exact H4|]. intros fr [Hi Hn]. split; [by right|done].
Qed.

(** A frame of the first stream, then those of the others. *)
Lemma popped_cons maxBytes id ids st x c s s1 x1 fr st' x' frames :
  id ∉ ids -> st !! id = Some s -> str_streamID s = id -> id <> 1 -> keyed st -> offset_ok s ->
  popped_frame maxBytes s x c s1 x1 fr ->
  popped maxBytes ids (<[id := s1]> st) x1 st' x' frames -> popped maxBytes (id :: ids) st x st' x' (fr :: frames).
Proof.
  intros Hid Es Ek H1 Hkeyed Hoff (Hsent & Hpres & Hres & Hok & Hw & Hf & _) [P1 P2 P3 P4 P5 P5'' P5' P6 P7 P8].
  destruct (sb_id _ _ _ Hsent) as [Eid Eid1]. rewrite Ek in *.
  assert (Hne : Forall (fun fr => sf_StreamID fr <> id) frames).
  { eapply Forall_impl; [exact P4|]. intros fr' [Hi _] E. by rewrite E in Hi. }
  split; try done.
  - by rewrite P1, Hres, <- app_assoc.
  - by constructor.
  - constructor; [rewrite Eid; split; [by left|done]|]. eapply Forall_impl; [exact P4|].
    intros fr' [Hi Hn]. split; [by right|done].
  - constructor; [apply Hsent|done].
  - constructor; [|done]. destruct (offset_ok_sent _ _ _ Hoff Hsent) as (_ & ? & ?). done.
  - rewrite fmap_cons. constructor; [|done]. rewrite Eid. intros Hin. apply list_elem_of_fmap in Hin as (fr' & E & Hin).
    rewrite Forall_forall in Hne. by apply (Hne fr').
  - intros j sj Ej. destruct (decide (j = id)) as [->|Hj].
    + rewrite Es in Ej. injection Ej as <-. destruct (P6 id s1 (lookup_insert_eq _ _ _)) as (s' & E' & [(fr' & Hin & Hs')|[-> _]]).
      * destruct (sb_id _ _ _ Hs') as [Ex _]. rewrite Eid1 in Ex. rewrite Forall_forall in Hne. by destruct (Hne fr').
      * exists s1. split; [done|]. left. exists fr. split; [by left|done].
    + destruct (P6 j sj) as (s' & E' & Hs'); [by rewrite lookup_insert_ne|]. exists s'. split; [done|].
      destruct Hs' as [(fr' & Hin & Hs')|[-> Hn]]; [left; exists fr'; split; [by right|done]|right].
      split; [done|]. constructor; [|done]. rewrite Eid. by rewrite (Hkeyed _ _ Ej).
  - cbn [sends_within]. rewrite Eid, <- Hf. done.
  - cbn [apply_sends]. by rewrite Eid, <- Hf.
Qed.

Lemma pop_visit maxBytes ids st x :
  NoDup ids -> keyed st -> map_Forall (fun _ s => offset_ok s) st -> pop_ok maxBytes x ->
  maxBytes < 4611686018427387904 -> fresh (ps_frame x) ->
  let '(c, st', x', v) := visit (pop_normal_frame maxBytes) ids st x in
  exists frames, popped maxBytes ids st x st' x' frames.
Proof.
  revert st x. induction ids as [|id ids IH]; intros st x Hnd Hk Ho Hok Hm Hf; cbn [visit].
  { exists []. by apply popped_none. }
  apply NoDup_cons in Hnd as [Hni Hnd]. destruct (st !! id) as [s|] eqn:Es.
  2: { specialize (IH st x Hnd Hk Ho Hok Hm Hf). destruct (visit _ ids st x) as [[[c st'] x'] v].
       destruct IH as [frames IH]. exists frames. by apply (popped_skip _ _ _ _ x x). }
  pose proof (Hk _ _ Es) as Ek. cbn in Ek.
  pose proof (pop_normal_frame_spec maxBytes s x Hok Hm Hf (Ho _ _ Es)) as Hspec.
  destruct (pop_normal_frame maxBytes s x) as [c [s1 x1]]. destruct Hspec as [Hnot|[H1 [fr Hfr]]].
  - destruct Hnot as (-> & Er & Ef & _ & Ec & Hfresh). rewrite insert_id by done.
    assert (Hok1 : pop_ok maxBytes x1) by (unfold pop_ok in *; by rewrite Er, Ec).
    destruct c.
    + specialize (IH st x1 Hnd Hk Ho Hok1 Hm Hfresh). destruct (visit _ ids st x1) as [[[c st'] x'] v].
      destruct IH as [frames IH]. exists frames. by apply (popped_skip _ _ _ _ x x1).
    + exists []. apply (popped_skip _ _ _ _ x x1); [done..|]. by apply popped_none.
  - pose proof Hfr as (Hsent & Hpres & Hres & Hok1 & Hw & Hfc & Hfresh).
    assert (Hk1 : keyed (<[id := s1]> st)) by (apply map_Forall_insert_2; [|done]; rewrite <- Ek; apply Hsent).
    assert (Ho1 : map_Forall (fun _ s => offset_ok s) (<[id := s1]> st)).
    { apply map_Forall_insert_2; [|done]. apply (offset_ok_sent s fr); [|done]. by apply (Ho id). }
    destruct c.
    + specialize (IH _ x1 Hnd Hk1 Ho1 Hok1 Hm (Hfresh eq_refl)). destruct (visit _ ids _ x1) as [[[c st'] x'] v].
      destruct IH as [frames IH]. exists (fr :: frames). eapply popped_cons; try done; [congruence|by apply (Ho id)].
    + exists [fr]. eapply popped_cons; try done; [congruence|by apply (Ho id)|]. by apply popped_none.
Qed.

(** ** The framer *)

Lemma pop_normal_frame_id maxBytes s x :
  str_streamID (fst (snd (pop_normal_frame maxBytes s x))) = str_streamID s.
Proof.
  assert (Hget : forall s n, str_streamID (snd (getDataForWriting s n)) = str_streamID s).
  { intros s0 n. unfold getDataForWriting. destruct (str_err s0); [done|].
    destruct (str_dataForWriting s0) as [d|]; [|done]. by destruct (n <? zlen d). }
  assert (Hemit : forall s fr h w d fin x, str_streamID (fst (snd (emit_frame maxBytes s fr h w d fin x))) = str_streamID s).
  { intros s0 fr h w d fin x0. unfold emit_frame. cbn zeta.
    destruct fin; match goal with |- context [if ?b =? maxBytes then _ else _] => by destruct (b =? maxBytes) end. }
  unfold pop_normal_frame. destruct (_ =? 1); [done|]. cbn zeta. destruct (_ <? _); [done|].
  destruct (lenOfDataForWriting s =? 0); cbn [negb].
  - destruct (_ =? 0); [done|]. destruct (shouldSendFin s); [apply Hemit|done].
  - destruct (_ =? 0); [done|]. match goal with |- context [getDataForWriting s ?n] => pose proof (Hget s n) as Hg end.
    destruct (getDataForWriting s _) as [d s1]. cbn [snd] in Hg. rewrite <- Hg.
    destruct d; [apply Hemit|]. destruct (shouldSendFin s1); [apply Hemit|done].
Qed.

Lemma send_inv_sends frames fcm :
  send_inv fcm -> sends_within frames fcm -> send_inv (apply_sends frames fcm).
Proof.
  revert fcm. induction frames as [|fr frames IH]; intros fcm Hi; cbn [sends_within apply_sends]; [done|].
  intros [Hw Hs]. apply IH; [|done]. apply send_inv_send; [done|]. split; [apply DataLen_nonneg|].
  intros size E. unfold send_window in Hw. by rewrite E in Hw.
Qed.

Lemma send_inv_pop_retransmissions queue maxLen currentLen fcm :
  send_inv fcm -> let '(_, _, _, fcm') := pop_retransmissions maxLen currentLen queue fcm in send_inv fcm'.
Proof.
  revert currentLen fcm. induction queue as [|fr queue IH]; intros currentLen fcm Hi; cbn [pop_retransmissions]; [done|].
  destruct (maxLen <=? _); [done|]. destruct (maybeSplitOffFrame _ _) as [[first rest]|]; [by apply send_inv_retrans|].
  specialize (IH (u64 (u64 (currentLen + frame_header_len (fr <| sf_DataLenPresent := true |>)) +
    StreamFrame_DataLen (fr <| sf_DataLenPresent := true |>))) _
    (send_inv_retrans _ (sf_StreamID (fr <| sf_DataLenPresent := true |>)) (StreamFrame_DataLen (fr <| sf_DataLenPresent := true |>)) Hi)).
  by destruct (pop_retransmissions maxLen _ queue _) as [[[res l] q] f'].
Qed.

(** What a call of [PopStreamFrames] did: the frames to retransmit that it took, and
    the new ones. *)
Record pops (maxLen : Z) f (retrans new : list StreamFrame) f' : Prop := {
  pp_fit : framed_len (retrans ++ new) <= maxLen;
  pp_present : Forall (fun fr => sf_DataLenPresent fr = true) (retrans ++ new);
  pp_frames : Forall frame_in_range (retrans ++ new);
  pp_range : Forall frame_in_range (sfr_retransmissionQueue f');
  pp_bytes : sfr_retransmissionQueue f ≫= carried_bytes
    = (retrans ≫= carried_bytes) ++ (sfr_retransmissionQueue f' ≫= carried_bytes);
  pp_fins : sfr_retransmissionQueue f ≫= carried_fin
    = (retrans ≫= carried_fin) ++ (sfr_retransmissionQueue f' ≫= carried_fin);
  pp_retransmits : sfr_retransmissionQueue f <> [] -> 15 < maxLen -> retrans <> [];
  pp_some : Forall frame_some (sfr_retransmissionQueue f) ->
    Forall frame_some (retrans ++ new) /\ Forall frame_some (sfr_retransmissionQueue f');
  pp_streams : forall id s, sm_streams (sfr_streamsMap f) !! id = Some s ->
    exists s', sm_streams (sfr_streamsMap f') !! id = Some s' /\ served new s s';
  pp_ids : Forall (fun fr => sf_StreamID fr ∈ sm_openStreams (sfr_streamsMap f) /\ sf_StreamID fr <> 1) new;
  pp_nodup : NoDup (sf_StreamID <$> new);
  pp_windows : send_inv (sfr_flowControlManager f) -> send_inv (sfr_flowControlManager f');
  pp_inv : sm_inv (sfr_streamsMap f') (sfr_flowControlManager f')
}.

Record framer_ok f : Prop := {
  fo_inv : sm_inv (sfr_streamsMap f) (sfr_flowControlManager f);
  fo_few : zlen (sm_openStreams (sfr_streamsMap f)) < 2147483648;
  fo_offsets : map_Forall (fun _ s => offset_ok s) (sm_streams (sfr_streamsMap f));
  fo_range : Forall frame_in_range (sfr_retransmissionQueue f)
}.

Lemma AddBytes_dom id n fcm j :
  is_Some (fcm_streamFlowController fcm !! j) ->
  is_Some (fcm_streamFlowController (snd (AddBytesSent id n fcm)) !! j) /\
  is_Some (fcm_streamFlowController (snd (AddBytesRetrans id n fcm)) !! j).
Proof.
  intros Hj. unfold AddBytesSent, AddBytesRetrans, getFlowController. unfold_go.
  destruct (fcm_streamFlowController fcm !! id) as [c|] eqn:E; [|done].
  destruct (ContributesToConnection c); cbn;
    (destruct (decide (j = id)) as [->|Hne]; [by rewrite !lookup_insert_eq|by rewrite !lookup_insert_ne]).
Qed.

Lemma apply_sends_dom frames fcm j :
  is_Some (fcm_streamFlowController fcm !! j) -> is_Some (fcm_streamFlowController (apply_sends frames fcm) !! j).
Proof.
  revert fcm. induction frames as [|fr frames IH]; intros fcm Hj; cbn [apply_sends]; [done|].
  by apply IH, AddBytes_dom.
Qed.

Lemma pop_retransmissions_dom queue maxLen currentLen fcm j :
  is_Some (fcm_streamFlowController fcm !! j) ->
  let '(_, _, _, fcm') := pop_retransmissions maxLen currentLen queue fcm in is_Some (fcm_streamFlowController fcm' !! j).
Proof.
  revert currentLen fcm. induction queue as [|fr queue IH]; intros currentLen fcm Hj; cbn [pop_retransmissions]; [done|].
  destruct (maxLen <=? _); [done|]. destruct (maybeSplitOffFrame _ _) as [[first rest]|]; [by apply AddBytes_dom|].
  match goal with |- context [pop_retransmissions _ ?l _ ?f] => specialize (IH l f) end.
  destruct (pop_retransmissions maxLen _ queue _) as [[[res l] q] f'].
  apply IH, (AddBytes_dom _ _ _ _ Hj).
Qed.

Lemma sm_inv_flow m fcm fcm' :
  (forall j, is_Some (fcm_streamFlowController fcm !! j) -> is_Some (fcm_streamFlowController fcm' !! j)) ->
  sm_inv m fcm -> sm_inv m fcm'.
Proof. intros Hd []. split; auto. Qed.

(** The streams are replaced, each by one with its ID. *)
Lemma sm_inv_streams m fcm streams index :
  sm_inv m fcm -> (forall j, is_Some (streams !! j) <-> is_Some (sm_streams m !! j)) -> keyed streams ->
  0 <= index <= zlen (sm_openStreams m) ->
  sm_inv (m <| sm_streams := streams |> <| sm_roundRobinIndex := index |>) fcm.
Proof.
  intros [Hnd Hopen Hkey Hused Hids Hout Hin Hflow Hindex] Hd Hk Hi. split; try done.
  - intros j. by rewrite Hd, <- Hopen.
  - intros j Hj. by apply Hused, Hd.
  - by destruct Hids.
  - intros j Hj. by apply Hflow, Hd.
Qed.

Lemma advance_range n index v : 0 < n -> 0 <= index <= n -> 0 <= advance n index v <= n.
Proof. intros Hn Hi. unfold advance. destruct v; [done|]. pose proof (Z.mod_pos_bound (index + zlen (z :: v)) n). lia. Qed.

Lemma maybePopNormalFrames_run maxBytes f :
  framer_ok f -> 0 <= maxBytes < 4611686018427387904 ->
  exists new m', let fcm' := apply_sends new (sfr_flowControlManager f) in
    exists blocked, maybePopNormalFrames maxBytes f =
      (Ok new, f <| sfr_streamsMap := m' |> <| sfr_flowControlManager := fcm' |> <| sfr_blockedFrameQueue := blocked |>) /\
    sm_inv m' fcm' /\ sends_within new (sfr_flowControlManager f) /\ framed_len new <= maxBytes /\
    Forall (fun fr => sf_DataLenPresent fr = true) new /\ Forall frame_some new /\
    Forall (fun fr => sf_StreamID fr ∈ sm_openStreams (sfr_streamsMap f) /\ sf_StreamID fr <> 1) new /\
    NoDup (sf_StreamID <$> new) /\ Forall frame_in_range new /\
    forall id s, sm_streams (sfr_streamsMap f) !! id = Some s ->
      exists s', sm_streams m' !! id = Some s' /\ served new s s'.
Proof.
  intros [Hinv Hfew Hoff _] Hm. set (m := sfr_streamsMap f) in *. set (fcm := sfr_flowControlManager f) in *.
  set (x := mkPopState fresh_frame 0 [] fcm (sfr_blockedFrameQueue f)).
  pose proof (round_robin (pop_normal_frame maxBytes) m fcm x (pop_normal_frame_id maxBytes) Hinv Hfew) as Hrr.
  pose proof (round_robin_order_perm m fcm Hinv) as Hperm.
  pose proof (visit_dom (pop_normal_frame maxBytes) (pop_normal_frame_id maxBytes) (round_robin_order m) (sm_streams m) x) as Hdom.
  pose proof (pop_visit maxBytes (round_robin_order m) (sm_streams m) x) as Hpop.
  assert (Hnd : NoDup (round_robin_order m)) by (rewrite Hperm; apply Hinv).
  specialize (Hpop Hnd (smi_key _ _ Hinv) Hoff ltac:(split; [done|cbn; lia]) ltac:(lia) ltac:(done)).
  destruct (visit _ _ (sm_streams m) x) as [[[c st] x'] v]. destruct Hrr as (E & _ & Hv & _).
  destruct Hpop as [new [P1 P2 P3 P4 P5 P5' P6 P7 P8 P9]], Hdom as [Hd Hk]. specialize (Hk (smi_key _ _ Hinv)).
  eexists new, _. cbn zeta. eexists. split.
  { unfold maybePopNormalFrames. fold m fcm x. rewrite E. cbn beta iota. rewrite P1, P9. reflexivity. }
  change (ps_fcm x) with fcm in *. destruct P2 as [_ Hfit]. rewrite P1 in Hfit. cbn [ps_res x app] in Hfit.
  split_and!; try done.
  - apply (sm_inv_flow _ fcm); [apply apply_sends_dom|]. apply sm_inv_streams; try done.
    destruct (sm_openStreams m) as [|id ids] eqn:Eo.
    + apply Permutation_nil_r in Hperm. rewrite Hperm in Hv. apply prefix_nil_inv in Hv. subst v.
      cbn. rewrite <- Eo. apply Hinv.
    + apply advance_range; [rewrite zlen_cons; pose proof (zlen_nonneg ids); lia|]. rewrite <- Eo. apply Hinv.
  - eapply Forall_impl; [exact P4|]. intros fr [Hi Hn]. split; [|done]. by rewrite <- Hperm.
  - rewrite Forall_forall in P4, P5' |- *. intros fr Hfr. split; [|by apply P5'].
    destruct (P4 fr Hfr) as [Hi _]. rewrite Hperm in Hi. apply (smi_open _ _ Hinv), (smi_used _ _ Hinv) in Hi.
    destruct Hi as [Hr _]. unfold u32_ok. lia.
Qed.

Lemma PopStreamFrames_run maxLen f :
  framer_ok f -> 0 <= maxLen < 4611686018427387904 ->
  exists retrans new f', PopStreamFrames maxLen f = (Ok (retrans ++ new), f') /\ pops maxLen f retrans new f'.
Proof.
  intros Hok Hm. pose proof Hok as [Hinv Hfew Hoff Hrange]. unfold PopStreamFrames, maybePopFramesForRetransmission.
  pose proof (pop_retransmissions_spec (sfr_retransmissionQueue f) maxLen 0 (sfr_flowControlManager f) ltac:(lia) ltac:(lia) Hrange) as H.
  pose proof (send_inv_pop_retransmissions (sfr_retransmissionQueue f) maxLen 0 (sfr_flowControlManager f)) as Hsend.
  pose proof (fun j => pop_retransmissions_dom (sfr_retransmissionQueue f) maxLen 0 (sfr_flowControlManager f) j) as Hdom.
  destruct (pop_retransmissions maxLen 0 _ _) as [[[retrans l] queue'] fcm1].
  destruct H as (El & Hl & H3 & H4 & H5 & H6 & H6' & H7 & H8). pose proof (framed_len_nonneg retrans).
  rewrite u64_small by lia. set (f1 := f <| sfr_retransmissionQueue := queue' |> <| sfr_flowControlManager := fcm1 |>).
  assert (Hok1 : framer_ok f1).
  { split; try done. apply (sm_inv_flow _ (sfr_flowControlManager f)); done. }
  destruct (maybePopNormalFrames_run (maxLen - l) f1 Hok1 ltac:(lia))
    as (new & m' & blocked & E & Hi & Hw & Hfit & Hpres & Hsome & Hids & Hnd & Hrng & Hstr).
  eexists retrans, new, _. split; [erewrite run_bind_ok by exact E; reflexivity|].
  split; try done; fr_fields.
  - rewrite framed_len_app. lia.
  - by apply Forall_app.
  - by apply Forall_app.
  - intros Hq Hr. apply H8; [done|lia].
  - intros Hq. destruct (H7 Hq). split; [by apply Forall_app|done].
  - intros Hs. apply send_inv_sends; [|done]. by apply Hsend.
Qed.

(** ** The crypto stream *)

Lemma crypto_stream_run f cs : sm_streams (sfr_streamsMap f) !! 1 = Some cs -> crypto_stream f = (Ok cs, f).
Proof.
  intros E. unfold crypto_stream, fr_streams, GetOrOpenStream. unfold_go. rewrite E. cbn beta iota. by destruct f.
Qed.

Lemma HasCryptoStreamFrame_run f cs :
  sm_streams (sfr_streamsMap f) !! 1 = Some cs -> HasCryptoStreamFrame f = (Ok (0 <? zlen (pending cs)), f).
Proof.
  intros E. unfold HasCryptoStreamFrame. erewrite run_bind_ok by exact (crypto_stream_run f cs E).
  by rewrite lenOfDataForWriting_pending.
Qed.

(** The next data of the crypto stream goes in a frame without a length. *)
Lemma PopCryptoStreamFrame_run maxLen f cs :
  sm_streams (sfr_streamsMap f) !! 1 = Some cs -> str_streamID cs = 1 -> 0 < zlen (pending cs) ->
  15 < maxLen < 4611686018427387904 ->
  exists fr cs', PopCryptoStreamFrame maxLen f = (Ok (Some fr), f <| sfr_streamsMap := update_stream cs' (sfr_streamsMap f) |>) /\
    sent_by cs fr cs' /\ sf_FinBit fr = false /\ sf_DataLenPresent fr = false /\
    frame_header_len fr + StreamFrame_DataLen fr <= maxLen.
Proof.
  intros E Eid Hp Hm. set (fr0 := mkStreamFrame 1 false false (str_writeOffset cs) []).
  pose proof (frame_header_len_bounds fr0) as Hh.
  assert (Hne : pending cs <> []) by (intros Ep; rewrite Ep in Hp; unfold zlen in Hp; cbn in Hp; lia).
  destruct (getDataForWriting_spec cs (maxLen - frame_header_len fr0) Hne ltac:(lia))
    as (ret & cs' & Eg & Hr & Hl & Hd & Ho & Ei & Ef & Es & Ee).
  exists (fr0 <| sf_Data := ret |>), cs'. split_and!; [|split; try done|done|done|].
  - unfold PopCryptoStreamFrame. erewrite run_bind_ok by exact (HasCryptoStreamFrame_run f cs E).
    destruct (Z.ltb_spec 0 (zlen (pending cs))); [cbn [negb]|lia]. erewrite run_bind_ok by exact (crypto_stream_run f cs E).
    cbn zeta. fold fr0. rewrite u64_small by lia. by rewrite Eg.
  - by right.
  - change (frame_header_len (fr0 <| sf_Data := ret |>)) with (frame_header_len fr0).
    change (StreamFrame_DataLen (fr0 <| sf_Data := ret |>)) with (zlen ret). lia.
Qed.

(** C15: the frames of a packet.  [PopStreamFrames] returns frames that fit in
    [maxLen] with their headers: first frames to retransmit, then at most one frame
    of new data for each stream.  The bytes and the ends of streams to retransmit
    are those of the frames taken followed by those still queued.  Every stream is
    left alone or has a frame with its next data at its write offset, and a FIN
    only with the last of it.  The new data respects the windows of the flow
    control. *)
Theorem stream_frames maxLen f :
  framer_ok f -> 0 <= maxLen < 4611686018427387904 ->
  exists retrans new f', PopStreamFrames maxLen f = (Ok (retrans ++ new), f') /\
    framed_len (retrans ++ new) <= maxLen /\
    sfr_retransmissionQueue f ≫= carried_bytes
      = (retrans ≫= carried_bytes) ++ (sfr_retransmissionQueue f' ≫= carried_bytes) /\
    sfr_retransmissionQueue f ≫= carried_fin
      = (retrans ≫= carried_fin) ++ (sfr_retransmissionQueue f' ≫= carried_fin) /\
    NoDup (sf_StreamID <$> new) /\
    (forall id s, sm_streams (sfr_streamsMap f) !! id = Some s ->
       exists s', sm_streams (sfr_streamsMap f') !! id = Some s' /\ served new s s') /\
    (send_inv (sfr_flowControlManager f) -> send_inv (sfr_flowControlManager f')).
Proof.
  intros Hok Hm. destruct (PopStreamFrames_run maxLen f Hok Hm) as (retrans & new & f' & E & []).
  exists retrans, new, f'. by split_and!.
Qed.

(** A client with 300 bytes to write on stream 5, the end of stream 7 to announce
    and a frame of 900 bytes to retransmit. *)
Definition sample_framer_ops : list sm_op :=
  repeat SmOpen 4 ++
  [SmUpdate 5 (fun s => s <| str_dataForWriting := Some (repeat 7 300) |>); SmUpdate 7 stream_Close].

Definition sample_framer : streamFramer :=
  let '(_, (m, fcm)) := sm_run sample_framer_ops (newStreamsMap PerspectiveClient, sample_fcm) in
  AddFrameForRetransmission (mkStreamFrame 5 true false 1000 (repeat 9 900)) (newStreamFramer m fcm).

Lemma sample_framer_ok : framer_ok sample_framer.
Proof.
  assert (E : exists m fcm, sm_run sample_framer_ops (newStreamsMap PerspectiveClient, sample_fcm) = (Ok tt, (m, fcm)) /\ sm_inv m fcm).
  { destruct (sm_run_kept sample_framer_ops _ _ (newStreamsMap_inv PerspectiveClient sample_fcm)) as (m & f & E & Hi & _);
      [by repeat constructor|vm_compute; reflexivity|by exists m, f]. }
  split.
  - destruct E as (m & f & E & Hi). unfold sample_framer. by rewrite E.
  - vm_compute. reflexivity.
  - assert (H : forallb (fun '(_, s) => (0 <=? str_writeOffset s) && (str_writeOffset s + zlen (pending s) <? 18446744073709551616))
      (map_to_list (sm_streams (sfr_streamsMap sample_framer))) = true) by (vm_compute; reflexivity).
    intros id s Es. rewrite forallb_forall in H. specialize (H (id, s)). unfold offset_ok.
    apply elem_of_map_to_list, list_elem_of_In in Es. apply H in Es. lia.
  - apply Forall_singleton. repeat split; vm_compute; congruence.
Qed.

(** In 800 bytes: a part of the frame to retransmit; in 1300, all of it, the data
    and the FIN. *)
Lemma stream_frames_witness :
  map (fun fr => (sf_StreamID fr, sf_Offset fr, sf_FinBit fr, zlen (sf_Data fr)))
    (match fst (PopStreamFrames 800 sample_framer) with Ok frames => frames | _ => [] end) = [(5, 1000, false, 794)] /\
  map (fun fr => (sf_StreamID fr, sf_Offset fr, sf_FinBit fr, zlen (sf_Data fr)))
    (match fst (PopStreamFrames 1300 sample_framer) with Ok frames => frames | _ => [] end)
    = [(5, 1000, true, 900); (5, 0, false, 300); (7, 0, true, 0)] /\
  exists retrans new f', PopStreamFrames 800 sample_framer = (Ok (retrans ++ new), f') /\
    framed_len (retrans ++ new) <= 800.
Proof.
  split; [vm_compute; reflexivity|]. split; [vm_compute; reflexivity|].
  destruct (stream_frames 800 sample_framer sample_framer_ok ltac:(lia)) as (retrans & new & f' & E & Hf & _).
  by exists retrans, new, f'.
Defined.
