(* ===== verification/PacketNumberGenerator.v ===== *)
(** * packet_number_generator.go: the numbers of the packets sent

    [crypto/rand] is an argument: the two bytes a call of [rand.Read] gives, or
    its error. *)

From S2P Require Import Prelude Protocol.

Record packetNumberGenerator := mkPacketNumberGenerator {
  png_averagePeriod : PacketNumber;
  png_next : PacketNumber;
  png_nextToSkip : PacketNumber
}.

#[global] Instance eta_packetNumberGenerator : Eta packetNumberGenerator := fun p =>
  mkPacketNumberGenerator (png_averagePeriod p) (png_next p) (png_nextToSkip p).

Definition newPacketNumberGenerator (averagePeriod : PacketNumber) : packetNumberGenerator :=
  mkPacketNumberGenerator averagePeriod 1 0.

Definition png_Peek (p : packetNumberGenerator) : PacketNumber := png_next p.

Definition getRandomNumber (rand : outcome (Z * Z)) : outcome Z :=
  match rand with
  | Ok (b0, b1) => Ok (u16 (u16 (Z.shiftl b0 8) + b1))
  | Err e => Err e
  | Panic s => Panic s
  end.

(** [math.MaxUint16 / 2] is 32767. *)
Definition generateNewSkip (p : packetNumberGenerator) (rand : outcome (Z * Z)) : packetNumberGenerator :=
  match getRandomNumber rand with
  | Ok num =>
      let skip := u64 (num * u64 (png_averagePeriod p - 1)) / 32767 in
      p <| png_nextToSkip := u64 (u64 (png_next p + 2) + skip) |>
  | _ => p
  end.

(** The error of [generateNewSkip] is dropped. *)
Definition png_Pop (p : packetNumberGenerator) (rand : outcome (Z * Z))
    : PacketNumber * packetNumberGenerator :=
  let next := png_next p in
  let p := p <| png_next := u64 (png_next p + 1) |> in
  if png_next p =? png_nextToSkip p
  then (next, generateNewSkip (p <| png_next := u64 (png_next p + 1) |>) rand)
  else (next, p).

(** The numbers popped one after the other. *)
Fixpoint png_pops (p : packetNumberGenerator) (rands : list (outcome (Z * Z))) : list PacketNumber :=
  match rands with
  | [] => []
  | rand :: rands => let '(n, p) := png_Pop p rand in n :: png_pops p rands
  end.

Lemma png_pops_unset p rands :
  png_nextToSkip p = 0 -> 0 <= png_next p -> png_next p + zlen rands < 2 ^ 64 ->
  png_pops p rands = seqZ (png_next p) (zlen rands).
Proof.
  revert p. induction rands as [|rand rands IH]; intros p Hs Hn Hb; [done|].
  rewrite zlen_cons in *. pose proof (zlen_nonneg rands). cbn [png_pops]. unfold png_Pop.
  change (png_next (p <| png_next := ?x |>)) with x.
  change (png_nextToSkip (p <| png_next := ?x |>)) with (png_nextToSkip p).
  rewrite Hs, u64_small by lia. destruct (Z.eqb_spec (png_next p + 1) 0); [lia|].
  rewrite IH by (done || change (png_next (p <| png_next := ?x |>)) with x; lia).
  change (png_next (p <| png_next := ?x |>)) with x.
  rewrite (seqZ_cons (png_next p)) by lia. f_equal. unfold Z.succ. f_equal; lia.
Qed.

(** Packet numbers.  A new generator hands out 1, 2, 3 and so on: every
    number once, in order, and none is ever skipped, whatever the random source
    gives, because the first number to skip is never drawn. *)
Theorem packet_numbers_consecutive period rands :
  zlen rands < 2 ^ 64 - 1 -> png_pops (newPacketNumberGenerator period) rands = seqZ 1 (zlen rands).
Proof. intros H. apply png_pops_unset; [done|done|]. cbn [png_next newPacketNumberGenerator]. lia. Qed.

Lemma packet_numbers_consecutive_witness :
  png_pops (newPacketNumberGenerator 500) [Ok (0, 0); Ok (1, 2); Err io_EOF] = [1; 2; 3].
Proof. apply (packet_numbers_consecutive 500 [Ok (0, 0); Ok (1, 2); Err io_EOF]). done. Defined.

(** Once a number to skip is set, two consecutive numbers are never skipped. *)
Lemma generateNewSkip_apart p rand :
  0 <= png_next p < 2 ^ 63 -> 0 < png_averagePeriod p < 2 ^ 40 ->
  generateNewSkip p rand = p \/ png_next p + 2 <= png_nextToSkip (generateNewSkip p rand).
Proof.
  intros Hn Hp. unfold generateNewSkip. destruct (getRandomNumber rand) as [num|e|s] eqn:E; [right|by left..].
  assert (0 <= num < 65536).
  { unfold getRandomNumber in E. destruct rand as [[b0 b1]|e|s]; [|done..]. injection E as <-. apply u16_range. }
  change (png_nextToSkip (p <| png_nextToSkip := ?x |>)) with x.
  rewrite (u64_small (png_averagePeriod p - 1)), (u64_small (num * _)), (u64_small (png_next p + 2)) by nia.
  assert (0 <= num * (png_averagePeriod p - 1) / 32767 < 2 ^ 57).
  { split; [apply Z.div_pos; nia|apply Z.div_lt_upper_bound; nia]. }
  rewrite u64_small by lia. lia.
Qed.
