(* ===== verification/Path.v ===== *)
(** * path.go: a path of a connection

    A path has its own packet numbers, acknowledgements and congestion control.
    The state has the fields that the operations read or write; the congestion
    controller is any implementation of its interface.  The goroutine [run] only
    passes the timer on to the session and is left out, and so are the channels.
    What the path reads from its session is an argument. *)

From S2P Require Import Prelude Protocol ByteOrder WireFrames WireAck WireHeader Frame AckRecv MinMax RttStats SendAlgorithm AckSent.
From S2P Require Import ConnParams PacketNumberGenerator.

Definition minPathTimer : Duration := 10 * Millisecond.
Definition maxPathTimer : Duration := 1 * Second.
Definition SkipPacketAveragePeriodLength : PacketNumber := 500.

Record path {C : Type} := mkPath {
  pth_pathID : PathID;
  pth_sentPacketHandler : sentPacketHandler C;
  pth_receivedPacketHandler : receivedPacketHandler;
  pth_open : bool;
  pth_potentiallyFailed : bool;
  pth_packetNumberGenerator : packetNumberGenerator;
  pth_lastRcvdPacketNumber : PacketNumber;
  pth_largestRcvdPacketNumber : PacketNumber;
  pth_leastUnacked : PacketNumber;
  pth_lastNetworkActivityTime : Time
}.
Arguments path : clear implicits.

#[global] Instance eta_path C : Eta (path C) := fun p =>
  mkPath C (pth_pathID p) (pth_sentPacketHandler p) (pth_receivedPacketHandler p) (pth_open p)
    (pth_potentiallyFailed p) (pth_packetNumberGenerator p) (pth_lastRcvdPacketNumber p)
    (pth_largestRcvdPacketNumber p) (pth_leastUnacked p) (pth_lastNetworkActivityTime p).

Section Path.
Context {C : Type} `{SA : !SendAlgorithm C}.
Implicit Types (p : path C).

(** [setup] of a fresh path, with the controller it chose. *)
Definition path_setup (pathID : PathID) (version : VersionNumber) (cong : C) (onRTO : option (Time -> bool)) (now : Time) :
    path C :=
  mkPath C pathID (NewSentPacketHandler NewRTTStats cong onRTO) (NewReceivedPacketHandler version) true false
    (newPacketNumberGenerator SkipPacketAveragePeriodLength) 0 0 0 now.

Definition path_close p : path C := p <| pth_open := false |>.

Definition path_SendingAllowed p : bool := pth_open p && SendingAllowed (pth_sentPacketHandler p).

Definition path_GetStopWaitingFrame (force : bool) p : option StopWaitingFrame * path C :=
  let '(f, h) := GetStopWaitingFrame force (pth_sentPacketHandler p) in
  (f, p <| pth_sentPacketHandler := h |>).

(** The frame gets the path's ID after the handler has kept it: the pointer is
    shared, so the handler's [lastAck] has the ID too. *)
Definition path_GetAckFrame (now : Time) p : outcome (option AckFrame) * path C :=
  let '(o, h) := GetAckFrame (pth_receivedPacketHandler p) now in
  match o with
  | Ok (Some ack) =>
      let ack := mkAckFrame (pth_pathID p) (ack_LargestAcked ack) (ack_LowestAcked ack) (ack_AckRanges ack)
                   (ack_PacketReceivedTime ack) (ack_DelayTime ack) in
      let h := mkReceivedPacketHandler (rph_largestObserved h) (rph_lowerLimit h)
                 (rph_largestObservedReceivedTime h) (rph_packetHistory h) (rph_ackSendDelay h)
                 (rph_packetsReceivedSinceLastAck h) (rph_retransmittablePacketsReceivedSinceLastAck h)
                 (rph_ackQueued h) (rph_ackAlarm h) (Some ack) (rph_version h) (rph_packets h) in
      (Ok (Some ack), p <| pth_receivedPacketHandler := h |>)
  | _ => (o, p <| pth_receivedPacketHandler := h |>)
  end.

Definition path_GetClosePathFrame p : outcome ClosePathFrame :=
  match GetClosePathFrame (pth_receivedPacketHandler p) with
  | Ok f => Ok (mkClosePathFrame (pth_pathID p) (cp_LargestAcked f) (cp_LowestAcked f) (cp_AckRanges f))
  | o => o
  end.

(** [cryptoSetup] tells whether the session has one. *)
Definition path_idleTimeout (cryptoSetup handshakeComplete : bool) (cp : connectionParametersManager)
    (handshakeTimeout : Duration) p : Duration :=
  if cryptoSetup then
    if pth_open p && (negb (pth_pathID p =? 0) || handshakeComplete) then GetIdleConnectionStateLifetime cp
    else handshakeTimeout
  else Second.

(** The deadline the timer is reset to; the two readings of the clock. *)
Definition path_timer (idleTimeout : Duration) (now now' : Time) p : Time :=
  let deadline := Time_Add (pth_lastNetworkActivityTime p) idleTimeout in
  let ackAlarm := rph_GetAlarmTimeout (pth_receivedPacketHandler p) in
  let deadline := if negb (Time_IsZero ackAlarm) then ackAlarm else deadline in
  let lossTime := sph_GetAlarmTimeout (pth_sentPacketHandler p) in
  let deadline := if negb (Time_IsZero lossTime) then MinTime deadline lossTime else deadline in
  MinTime (MaxTime deadline (Time_Add now minPathTimer)) (Time_Add now' maxPathTimer).

(** When it holds, the session also schedules a PATHS frame. *)
Definition onRTO (lastSentTime : Time) p : bool * path C :=
  if Time_Before (pth_lastNetworkActivityTime p) lastSentTime
  then (true, p <| pth_potentiallyFailed := true |>)
  else (false, p).

Definition SetLeastUnacked (leastUnacked : PacketNumber) p : path C := p <| pth_leastUnacked := leastUnacked |>.

(** ** Receiving *)

(** A packet as the session gets it. *)
Record receivedPacket := mkReceivedPacket {
  rp_publicHeader : PublicHeader;
  rp_data : list Z;
  rp_rcvTime : Time
}.

Context (Open : list Z -> PacketNumber -> list Z -> outcome (list Z * EncryptionLevel)).

Definition with_number (hdr : PublicHeader) (pn : PacketNumber) : PublicHeader :=
  mkPublicHeader (hdr_Raw hdr) (hdr_ConnectionID hdr) (hdr_PathID hdr) (hdr_VersionFlag hdr)
    (hdr_ResetFlag hdr) (hdr_TruncateConnectionID hdr) (hdr_MultipathFlag hdr) (hdr_PacketNumberLen hdr)
    pn (hdr_VersionNumber hdr) (hdr_SupportedVersions hdr) (hdr_DiversificationNonce hdr).

(** [handlePacketImpl] up to the call of [handleFrames], which gets the frames;
    [None] is a packet on a closed path, which is ignored.  The readings of the
    clock are those of the received packet handler. *)
Definition path_receive (version : VersionNumber) (pkt : receivedPacket) (now now' : Time) :
    GoM (path C) (option (PublicHeader * list Frame)) :=
  p ← getS;
  if negb (pth_open p) then mret None
  else
    modifyS (fun p => if negb (Time_IsZero (rp_rcvTime pkt))
                      then p <| pth_lastNetworkActivityTime := rp_rcvTime pkt |> else p);;
    modifyS (fun p => p <| pth_potentiallyFailed := false |>);;
    let hdr := rp_publicHeader pkt in
    let hdr := with_number hdr (InferPacketNumber (hdr_PacketNumberLen hdr) (pth_largestRcvdPacketNumber p)
                                  (hdr_PacketNumber hdr)) in
    packet ← lift (Unpack Open version (hdr_Raw hdr) hdr (rp_data pkt));
    modifyS (fun p => p <| pth_lastRcvdPacketNumber := hdr_PacketNumber hdr |>
                        <| pth_largestRcvdPacketNumber :=
                             MaxPacketNumber (pth_largestRcvdPacketNumber p) (hdr_PacketNumber hdr) |>);;
    p ← getS;
    let '(o, h) := Handler_ReceivedPacket (pth_receivedPacketHandler p) (hdr_PacketNumber hdr)
                     (HasRetransmittableFrames (up_frames packet)) now now' in
    putS (p <| pth_receivedPacketHandler := h |>);;
    lift o;;
    mret (Some (hdr, up_frames packet)).
End Path.
