(* ===== verification/PacketPacker.v ===== *)
(** * packet_packer.go: packets to send

    The packer collects frames into a packet, writes and seals it.  Its state has
    the stream framer it points to; an operation works on the packer and a path.
    The crypto setup of the connection is a record of the operations that the
    packer calls, as in handshake/interface.go.  [now] is the reading of the clock
    that the ACK frame looks at, [rand] what the packet number generator may draw. *)

From S2P Require Import Prelude Protocol ByteOrder WireFrames WireAck WireHeader Frame AckRecv MinMax RttStats SendAlgorithm AckSent.
From S2P Require Import ConnParams FlowControl StreamFrameSorter Stream StreamsMap StreamFramer PacketNumberGenerator Path CubicSender.

Definition NonForwardSecurePacketSizeReduction : ByteCount := 50.

Record Sealer := mkSealer {
  Overhead : Z;
  Seal : list Z -> PacketNumber -> list Z -> list Z
}.

Record CryptoSetup := mkCryptoSetup {
  GetSealer : EncryptionLevel * Sealer;
  GetSealerWithEncryptionLevel : EncryptionLevel -> outcome Sealer;
  GetSealerForCryptoStream : EncryptionLevel * Sealer;
  DiversificationNonce : list Z
}.

Record packedPacket := mkPackedPacket {
  pk_number : PacketNumber;
  pk_raw : list Z;
  pk_frames : list Frame;
  pk_encryptionLevel : EncryptionLevel
}.

(** A nil entry of the two maps is an entry that is not there. *)
Record packetPacker := mkPacketPacker {
  pck_connectionID : ConnectionID;
  pck_perspective : Perspective;
  pck_version : VersionNumber;
  pck_connectionParameters : connectionParametersManager;
  pck_streamFramer : streamFramer;
  pck_controlFrames : list Frame;
  pck_stopWaiting : gmap Z StopWaitingFrame;
  pck_ackFrame : gmap Z AckFrame
}.

#[global] Instance eta_packetPacker : Eta packetPacker := fun p =>
  mkPacketPacker (pck_connectionID p) (pck_perspective p) (pck_version p) (pck_connectionParameters p)
    (pck_streamFramer p) (pck_controlFrames p) (pck_stopWaiting p) (pck_ackFrame p).

Definition newPacketPacker (connectionID : ConnectionID) (cp : connectionParametersManager) (framer : streamFramer)
    (perspective : Perspective) (version : VersionNumber) : packetPacker :=
  mkPacketPacker connectionID perspective version cp framer [] ∅ ∅.

Definition errNoAckFrame : error := errors_New "packet packer BUG: no ack frame queued".
Definition errForwardSecureHandshake : error :=
  errors_New "PacketPacker BUG: forward-secure encrypted handshake packets don't need special treatment".
Definition errNoStopWaiting : error :=
  errors_New "PacketPacker BUG: Handshake retransmissions must contain a StopWaitingFrame".
Definition errPacketTooLarge : error := errors_New "PacketPacker BUG: packet too large".
Definition errNumbersDiffer : error :=
  errors_New "packetPacker BUG: Peeked and Popped packet numbers do not match".
Definition errPayloadTooLarge (payloadLength maxFrameSize : ByteCount) : error :=
  fmt_Errorf "Packet Packer BUG: packet payload (%d) too large (%d)" [payloadLength; maxFrameSize].

Definition QueueControlFrame (frame : Frame) (pathID : PathID) (p : packetPacker) : packetPacker :=
  match frame with
  | FStopWaiting f => p <| pck_stopWaiting := <[pathID := f]> (pck_stopWaiting p) |>
  | FAck f => p <| pck_ackFrame := <[pathID := f]> (pck_ackFrame p) |>
  | f => p <| pck_controlFrames := pck_controlFrames p ++ [f] |>
  end.

Section Packer.
Context {C : Type} `{SA : !SendAlgorithm C} (crypto : CryptoSetup) (handshakeComplete : bool).
Context (now : Time) (rand : outcome (Z * Z)).

Definition canSendData (pers : Perspective) (encLevel : EncryptionLevel) : bool :=
  match pers with
  | PerspectiveClient => EncryptionLevel_num EncryptionSecure <=? EncryptionLevel_num encLevel
  | PerspectiveServer => bool_decide (encLevel = EncryptionForwardSecure)
  end.

Definition getPublicHeader (encLevel : EncryptionLevel) (p : packetPacker) (pth : path C) : PublicHeader :=
  let pnum := png_Peek (pth_packetNumberGenerator pth) in
  let packetNumberLen := GetPacketNumberLengthForPublicHeader pnum (pth_leastUnacked pth) in
  let nonce := if Perspective_eqb (pck_perspective p) PerspectiveServer && bool_decide (encLevel = EncryptionSecure)
               then DiversificationNonce crypto else [] in
  let version := Perspective_eqb (pck_perspective p) PerspectiveClient
                 && negb (bool_decide (encLevel = EncryptionForwardSecure)) in
  let multipath := handshakeComplete && (VersionMP <=? pck_version p) in
  mkPublicHeader [] (pck_connectionID p) (if multipath then pth_pathID pth else 0) version false
    (if multipath then false else cpm_TruncateConnectionID (pck_connectionParameters p)) multipath
    packetNumberLen pnum (if version then pck_version p else 0) [] nonce.

Abbreviation Pack := (GoM (packetPacker * path C)).

Definition pack_modify (f : packetPacker -> packetPacker) : Pack unit := modifyS (fun '(p, pth) => (f p, pth)).

Definition pack_framer {A} (m : Fr A) : Pack A := fun '(p, pth) =>
  let '(o, fr) := m (pck_streamFramer p) in (o, (p <| pck_streamFramer := fr |>, pth)).

Definition run_writer (w : Writer) (buffer : list Z) : Pack (list Z) := fun st =>
  match w buffer with
  | (Ok _, buffer) => (Ok buffer, st)
  | (Err e, _) => (Err e, st)
  | (Panic p, _) => (Panic p, st)
  end.

Definition pop_packet_number : Pack PacketNumber := fun '(p, pth) =>
  let '(num, g) := png_Pop (pth_packetNumberGenerator pth) rand in
  (Ok num, (p, pth <| pth_packetNumberGenerator := g |>)).

(** [Seal] overwrites the payload in the packet's buffer. *)
Definition writeAndSealPacket (publicHeader : PublicHeader) (payloadFrames : list Frame) (sealer : Sealer) : Pack (list Z) :=
  '(p, _) ← getS;
  header ← run_writer (PublicHeader_Write publicHeader (pck_version p) (pck_perspective p)) [];
  buffer ← run_writer (write_frames payloadFrames now (pck_version p)) header;
  if MaxPacketSize <? u64 (zlen buffer + Overhead sealer) then fail errPacketTooLarge
  else
    let payload := drop (length header) buffer in
    let raw := header ++ Seal sealer payload (hdr_PacketNumber publicHeader) header in
    num ← pop_packet_number;
    if negb (num =? hdr_PacketNumber publicHeader) then fail errNumbersDiffer else mret raw.

(** The STOP_WAITING frame of the path, with the packet's number. *)
Definition number_stop_waiting (publicHeader : PublicHeader) (pathID : PathID) (p : packetPacker) : packetPacker :=
  match pck_stopWaiting p !! pathID with
  | Some f => p <| pck_stopWaiting := <[pathID := mkStopWaitingFrame (sw_LeastUnacked f)
                     (hdr_PacketNumberLen publicHeader) (hdr_PacketNumber publicHeader)]> (pck_stopWaiting p) |>
  | None => p
  end.

Definition clear_stop_waiting (pathID : PathID) (p : packetPacker) : packetPacker :=
  p <| pck_stopWaiting := delete pathID (pck_stopWaiting p) |>.
Definition clear_ack (pathID : PathID) (p : packetPacker) : packetPacker :=
  p <| pck_ackFrame := delete pathID (pck_ackFrame p) |>.

Definition PackConnectionClose (ccf : ConnectionCloseFrame) : Pack packedPacket :=
  '(p, pth) ← getS;
  let frames := [FConnectionClose ccf] in
  let '(encLevel, sealer) := GetSealer crypto in
  let ph := getPublicHeader encLevel p pth in
  raw ← writeAndSealPacket ph frames sealer;
  mret (mkPackedPacket (hdr_PacketNumber ph) raw frames encLevel).

Definition PackAckPacket : Pack packedPacket :=
  '(p, pth) ← getS;
  match pck_ackFrame p !! pth_pathID pth with
  | None => fail errNoAckFrame
  | Some ack =>
      let '(encLevel, sealer) := GetSealer crypto in
      let ph := getPublicHeader encLevel p pth in
      pack_modify (number_stop_waiting ph (pth_pathID pth));;
      '(p, _) ← getS;
      let frames := FAck ack :: match pck_stopWaiting p !! pth_pathID pth with Some f => [FStopWaiting f] | None => [] end in
      pack_modify (clear_stop_waiting (pth_pathID pth));;
      pack_modify (clear_ack (pth_pathID pth));;
      raw ← writeAndSealPacket ph frames sealer;
      mret (mkPackedPacket (hdr_PacketNumber ph) raw frames encLevel)
  end.

Definition PackHandshakeRetransmission (packet : Packet) : Pack packedPacket :=
  if decide (pkt_EncryptionLevel packet = EncryptionForwardSecure) then fail errForwardSecureHandshake
  else
    sealer ← lift (GetSealerWithEncryptionLevel crypto (pkt_EncryptionLevel packet));
    '(p, pth) ← getS;
    match pck_stopWaiting p !! pth_pathID pth with
    | None => fail errNoStopWaiting
    | Some f =>
        let ph := getPublicHeader (pkt_EncryptionLevel packet) p pth in
        let f := mkStopWaitingFrame (sw_LeastUnacked f) (hdr_PacketNumberLen ph) (hdr_PacketNumber ph) in
        let frames := FStopWaiting f :: pkt_Frames packet in
        pack_modify (clear_stop_waiting (pth_pathID pth));;
        raw ← writeAndSealPacket ph frames sealer;
        mret (mkPackedPacket (hdr_PacketNumber ph) raw frames (pkt_EncryptionLevel packet))
    end.

Definition packCryptoPacket : Pack packedPacket :=
  '(p, pth) ← getS;
  let '(encLevel, sealer) := GetSealerForCryptoStream crypto in
  let publicHeader := getPublicHeader encLevel p pth in
  publicHeaderLength ← lift (PublicHeader_GetLength publicHeader (pck_perspective p));
  let maxLen := u64 (MaxPacketSize - Overhead sealer - NonForwardSecurePacketSizeReduction - publicHeaderLength) in
  frame ← pack_framer (PopCryptoStreamFrame maxLen);
  match frame with
  | None => panic "nil pointer dereference"
  | Some frame =>
      raw ← writeAndSealPacket publicHeader [FStream frame] sealer;
      mret (mkPackedPacket (hdr_PacketNumber publicHeader) raw [FStream frame] encLevel)
  end.

(** Control frames from the end of the list, while they fit: those taken, and the
    length. *)
Fixpoint pop_control_frames (maxFrameSize payloadLength : ByteCount) (reversed : list Frame) : Pack (list Frame * ByteCount) :=
  match reversed with
  | [] => mret ([], payloadLength)
  | frame :: rest =>
      '(p, _) ← getS;
      minLength ← lift (Frame_MinLength frame (pck_version p));
      if maxFrameSize <? u64 (payloadLength + minLength) then mret ([], payloadLength)
      else
        pack_modify (fun p => p <| pck_controlFrames := rev rest |>);;
        '(taken, l) ← pop_control_frames maxFrameSize (u64 (payloadLength + minLength)) rest;
        mret (frame :: taken, l)
  end.

(** The BLOCKED frames become control frames of the next packet. *)
Definition queue_blocked_frames (p : packetPacker) : packetPacker :=
  let f := pck_streamFramer p in
  p <| pck_controlFrames := pck_controlFrames p ++ map FBlocked (sfr_blockedFrameQueue f) |>
    <| pck_streamFramer := f <| sfr_blockedFrameQueue := [] |> |>.

(** The last STREAM frame of the packet goes without its length. *)
Fixpoint omit_last_length (fs : list StreamFrame) : list StreamFrame :=
  match fs with
  | [] => []
  | [f] => [f <| sf_DataLenPresent := false |>]
  | f :: fs => f :: omit_last_length fs
  end.

Definition frame_length (version : VersionNumber) (f : option Frame) : outcome ByteCount :=
  match f with Some f => Frame_MinLength f version | None => Ok 0 end.

Definition composeNextPacket (maxFrameSize : ByteCount) (canSendStreamFrames : bool) : Pack (list Frame) :=
  '(p, pth) ← getS;
  let stopWaiting := FStopWaiting <$> pck_stopWaiting p !! pth_pathID pth in
  let ack := FAck <$> pck_ackFrame p !! pth_pathID pth in
  l1 ← lift (frame_length (pck_version p) stopWaiting);
  l2 ← lift (frame_length (pck_version p) ack);
  let payloadFrames := option_list stopWaiting ++ option_list ack in
  '(taken, payloadLength) ← pop_control_frames maxFrameSize (u64 (l1 + l2)) (rev (pck_controlFrames p));
  let payloadFrames := payloadFrames ++ taken in
  if maxFrameSize <? payloadLength then fail (errPayloadTooLarge payloadLength maxFrameSize)
  else if negb canSendStreamFrames then mret payloadFrames
  else
    fs ← pack_framer (PopStreamFrames (u64 (u64 (maxFrameSize + 2) - payloadLength)));
    pack_modify queue_blocked_frames;;
    mret (payloadFrames ++ map FStream (omit_last_length fs)).

Definition is_ping (frames : list Frame) : bool :=
  match frames with FPing _ :: _ => true | _ => false end.

Definition PackPacket : Pack (option packedPacket) :=
  crypto_frame ← pack_framer HasCryptoStreamFrame;
  if crypto_frame : bool then packet ← packCryptoPacket; mret (Some packet)
  else
    '(p, pth) ← getS;
    let '(encLevel, sealer) := GetSealer crypto in
    let publicHeader := getPublicHeader encLevel p pth in
    publicHeaderLength ← lift (PublicHeader_GetLength publicHeader (pck_perspective p));
    pack_modify (number_stop_waiting publicHeader (pth_pathID pth));;
    payloadFrames ←
      (if is_ping (pck_controlFrames p) then
         pack_modify (fun p => p <| pck_controlFrames := tail (pck_controlFrames p) |>);;
         mret (take 1 (pck_controlFrames p))
       else
         composeNextPacket (u64 (MaxPacketSize - Overhead sealer - publicHeaderLength))
           (canSendData (pck_perspective p) encLevel));
    '(p, _) ← getS;
    if zlen payloadFrames =? 0 then mret None
    else if (zlen payloadFrames =? 1) && bool_decide (is_Some (pck_stopWaiting p !! pth_pathID pth)) then mret None
    else
      pack_modify (clear_stop_waiting (pth_pathID pth));;
      pack_modify (clear_ack (pth_pathID pth));;
      raw ← writeAndSealPacket publicHeader payloadFrames sealer;
      mret (Some (mkPackedPacket (hdr_PacketNumber publicHeader) raw payloadFrames encLevel)).

Definition PackPing (pf : PingFrame) : Pack (option packedPacket) :=
  modifyS (fun '(p, pth) =>
    (p <| pck_controlFrames := FPing pf :: pck_controlFrames p |>,
     SetLeastUnacked (GetLeastUnacked (pth_sentPacketHandler pth)) pth));;
  PackPacket.
End Packer.

(** ** Lengths *)

(** The data of a STREAM frame, which [MinLength] does not count. *)
Definition data_len (f : Frame) : Z := match f with FStream f => StreamFrame_DataLen f | _ => 0 end.

(** The length of a PATHS frame is computed in a byte. *)
Definition few_paths (f : Frame) : Prop := match f with FPaths f => pf_NumPaths f <= 84 | _ => True end.

Lemma frame_header_len_stream version f :
  StreamFrame_ok f -> frame_header_len f = zlen (StreamFrame_header version f ++ sf_Data f) - StreamFrame_DataLen f.
Proof.
  intros H. unfold frame_header_len. change (StreamFrame_MinLength f VersionWhatever) with (StreamFrame_MinLength f version).
  by rewrite (StreamFrame_length version f H).
Qed.

Lemma frame_written version hdr level now f :
  frame_ok hdr level f -> few_paths f ->
  exists bs, writes (Frame_Write f now version) bs /\ Frame_MinLength f version = Ok (zlen bs - data_len f) /\
    0 <= data_len f < zlen bs.
Proof.
  assert (Hcodec : forall A tb w (r : Reader A) a n l, codec tb w r a n -> l = Ok n ->
    exists bs, writes w bs /\ l = Ok (zlen bs - 0) /\ 0 <= 0 < zlen bs).
  { intros A tb w r a n l (bs & Hw & _ & <- & Ht) ->. exists bs. rewrite Z.sub_0_r. split_and!; [done|done|lia|].
    destruct bs; [done|]. rewrite zlen_cons. pose proof (zlen_nonneg bs). lia. }
  destruct f as [f|f|f|f|f|f|f|f|f|f|f|f]; cbn [frame_ok Frame_Write Frame_MinLength data_len few_paths]; intros H Hfew.
  - destruct H as [H _]. exists (StreamFrame_header version f ++ sf_Data f).
    split_and!; [by apply StreamFrame_writes|by apply StreamFrame_length|apply zlen_nonneg|].
    pose proof (frame_header_len_stream version f H) as E. pose proof (frame_header_len_bounds f). lia.
  - destruct H as [H Hg]. destruct (AckFrame_codec f now version H Hg) as (bs & Hw & _ & Hz).
    exists (AckFrame_typeByte f :: bs). split_and!; [|by rewrite Z.sub_0_r, Hz|lia|rewrite zlen_cons; pose proof (zlen_nonneg bs); lia].
    rewrite <- (app_nil_r (_ :: bs)). eapply emits_bind; [exact Hw|apply emits_ret].
  - by eapply Hcodec; [apply RstStreamFrame_codec|].
  - destruct H. eapply Hcodec; [by apply ConnectionCloseFrame_codec|]. unfold ConnectionCloseFrame_MinLength. f_equal; lia.
  - destruct H as (? & ? & ?). eapply Hcodec; [by apply GoawayFrame_codec|]. unfold GoawayFrame_MinLength. f_equal; lia.
  - destruct H. by eapply Hcodec; [apply WindowUpdateFrame_codec|].
  - by eapply Hcodec; [apply BlockedFrame_codec|].
  - destruct H as (E1 & E2 & H). rewrite <- E1, <- E2 in H. destruct H as (Hv & Hl & Hb & He).
    eapply Hcodec; [by apply StopWaitingFrame_codec|]. unfold StopWaitingFrame_MinLength.
    by destruct Hv as [-> | [-> | [-> | ->]]].
  - by eapply Hcodec; [apply PingFrame_codec|].
  - destruct H as (H1 & [ip16 H2] & H3). eapply Hcodec; [by apply (AddAddressFrame_codec _ _ ip16)|].
    unfold AddAddressFrame_MinLength. by destruct H3 as [[-> _]| ->].
  - destruct H as [H Hg]. by eapply Hcodec; [apply ClosePathFrame_codec|].
  - destruct H as (? & ? & ? & ? & ?). eapply Hcodec; [by apply PathsFrame_codec|]. unfold PathsFrame_MinLength.
    f_equal. rewrite (u8_small (3 * _)) by lia. rewrite u8_small by lia. lia.
Qed.

(** The length of a list of frames on the wire. *)
Definition written_len (version : VersionNumber) (fs : list Frame) : Z :=
  foldr (fun f n => match Frame_MinLength f version with Ok l => l | _ => 0 end + data_len f + n) 0 fs.

Lemma written_len_cons version f fs :
  written_len version (f :: fs) = match Frame_MinLength f version with Ok l => l | _ => 0 end + data_len f + written_len version fs.
Proof. done. Qed.

Lemma written_len_app version l1 l2 : written_len version (l1 ++ l2) = written_len version l1 + written_len version l2.
Proof. induction l1 as [|f l1 IH]; [done|]. cbn [app]. rewrite !written_len_cons. lia. Qed.

Lemma written_len_stream version fs : written_len version (map FStream fs) = framed_len fs.
Proof. induction fs as [|f fs IH]; [done|]. cbn [map]. rewrite written_len_cons, framed_len_cons, IH. done. Qed.

Lemma frames_written version hdr level now fs :
  Forall (frame_ok hdr level) fs -> Forall few_paths fs ->
  exists bs, writes (write_frames fs now version) bs /\ zlen bs = written_len version fs.
Proof.
  induction fs as [|f fs IH]; intros Hok Hfew.
  { exists []. split; [apply writes_ret|done]. }
  apply Forall_cons in Hok as [Hf Hok]. apply Forall_cons in Hfew as [Hf' Hfew].
  destruct (IH Hok Hfew) as (bs2 & Hw2 & E2). destruct (frame_written version hdr level now f Hf Hf') as (bs1 & Hw1 & E1 & _).
  exists (bs1 ++ bs2). split; [by eapply writes_bind|]. rewrite zlen_app, written_len_cons, E1, E2. lia.
Qed.

(** *** The stream frames of a packet *)

Lemma frame_header_len_omit f : sf_DataLenPresent f = true ->
  frame_header_len (f <| sf_DataLenPresent := false |>) = frame_header_len f - 2.
Proof.
  intros H. unfold frame_header_len, StreamFrame_MinLength. rewrite H. cbn iota.
  change (sf_DataLenPresent (f <| sf_DataLenPresent := false |>)) with false. cbn iota.
  change (StreamFrame_calculateStreamIDLength (f <| sf_DataLenPresent := false |>)) with (StreamFrame_calculateStreamIDLength f).
  change (StreamFrame_getOffsetLength (f <| sf_DataLenPresent := false |>)) with (StreamFrame_getOffsetLength f). lia.
Qed.

Lemma omit_last_length_framed fs : fs <> [] -> Forall (fun fr => sf_DataLenPresent fr = true) fs ->
  framed_len (omit_last_length fs) = framed_len fs - 2.
Proof.
  induction fs as [|f [|f' fs] IH]; intros Hne Hp; [done| |].
  - rewrite Forall_singleton in Hp. cbn [omit_last_length]. rewrite !framed_len_cons, frame_header_len_omit by done.
    change (StreamFrame_DataLen (f <| sf_DataLenPresent := false |>)) with (StreamFrame_DataLen f). lia.
  - apply Forall_cons in Hp as [_ Hp]. change (omit_last_length (f :: f' :: fs)) with (f :: omit_last_length (f' :: fs)).
    rewrite (framed_len_cons f (omit_last_length _)), IH by done.
    rewrite (framed_len_cons f (f' :: fs)). lia.
Qed.

Lemma omit_last_length_ok fs : Forall StreamFrame_ok fs -> Forall StreamFrame_ok (omit_last_length fs).
Proof.
  induction fs as [|f [|f' fs] IH]; intros H; [done| |].
  - rewrite Forall_singleton in H. by apply Forall_singleton.
  - apply Forall_cons in H as [H1 H2]. change (omit_last_length (f :: f' :: fs)) with (f :: omit_last_length (f' :: fs)).
    constructor; [done|]. by apply IH.
Qed.

Lemma omit_last_length_delimited fs : Forall (fun fr => sf_DataLenPresent fr = true) fs ->
  Forall (fun fr => sf_DataLenPresent fr = true) (removelast (omit_last_length fs)).
Proof.
  induction fs as [|f [|f' fs] IH]; intros H; [constructor..|].
  apply Forall_cons in H as [H1 H2]. change (omit_last_length (f :: f' :: fs)) with (f :: omit_last_length (f' :: fs)).
  specialize (IH H2). destruct (omit_last_length (f' :: fs)) as [|g gs]; [constructor|].
  change (removelast (f :: g :: gs)) with (f :: removelast (g :: gs)). by constructor.
Qed.

(** *** The lengths of the other frames are small *)

Lemma numWritable_range ranges : 0 <= numWritableNackRanges ranges <= 255.
Proof.
  assert (H : forall rs last n, 0 <= n -> 0 <= numWritable_loop last rs n).
  { induction rs as [|r rs IH]; intros last n Hn; cbn [numWritable_loop]; [done|].
    assert (Hb : 0 <= range_blocks (range_gap last r)).
    { unfold range_blocks, range_gap. pose proof (u64_range (u64 (First last - Last r) - 1)) as Hu.
      pose proof (Z.div_pos (u64 (u64 (First last - Last r) - 1)) 255). case_match; lia. }
    destruct (_ <? _); [apply IH|]; lia. }
  destruct ranges as [|r rs]; cbn [numWritableNackRanges]; [lia|].
  pose proof (numWritable_lt r rs 0). pose proof (H rs r 0). lia.
Qed.

Lemma ranges_len_bound (b : bool) base len ranges :
  0 <= base <= 20 -> valid_len len ->
  0 <= (if b then u64 (base + (1 + len) * numWritableNackRanges ranges) else base + len) <= 2000.
Proof.
  intros Hb Hl. pose proof (numWritable_range ranges) as Hn.
  destruct b; destruct Hl as [-> | [-> | [-> | ->]]]; rewrite ?u64_small; lia.
Qed.

Lemma GetPacketNumberLength_valid pn : valid_len (GetPacketNumberLength pn).
Proof. unfold GetPacketNumberLength, valid_len. repeat case_match; auto. Qed.

Lemma frame_len_bound version hdr level f l :
  frame_ok hdr level f -> Frame_MinLength f version = Ok l -> 0 <= l <= 4000.
Proof.
  assert (Hpn : forall pn, 1 <= GetPacketNumberLength pn <= 6).
  { intros pn. destruct (GetPacketNumberLength_valid pn) as [-> | [-> | [-> | ->]]]; lia. }
  destruct f as [f|f|f|f|f|f|f|f|f|f|f|f]; cbn [frame_ok Frame_MinLength]; intros Hok E.
  - pose proof (frame_header_len_bounds f) as H. unfold frame_header_len in H.
    change (StreamFrame_MinLength f VersionWhatever) with (StreamFrame_MinLength f version) in H. rewrite E in H. lia.
  - injection E as <-. unfold AckFrame_MinLength. cbv zeta. specialize (Hpn (ack_LargestAcked f)).
    pose proof (ranges_len_bound (AckFrame_HasMissingRanges f) (1 + 2 + 1 + GetPacketNumberLength (ack_LargestAcked f))
      (AckFrame_getMissingSequenceNumberDeltaLen f) (ack_AckRanges f) ltac:(lia) ltac:(apply deltaLen_valid)) as H.
    unfold AckFrame_numWritableNackRanges. rewrite Z.mul_0_r, Z.add_0_r. destruct (negb _); [rewrite u64_small; lia|lia].
  - injection E as <-. lia.
  - injection E as <-. pose proof (zlen_nonneg (cc_ReasonPhrase f)). unfold MaxPacketSize in *. lia.
  - injection E as <-. pose proof (zlen_nonneg (ga_ReasonPhrase f)). unfold MaxPacketSize in *. lia.
  - injection E as <-. lia.
  - injection E as <-. lia.
  - destruct Hok as (_ & E2 & Hv & _). rewrite <- E2 in Hv. unfold StopWaitingFrame_MinLength in E.
    destruct Hv as [Hv | [Hv | [Hv | Hv]]]; rewrite Hv in E; injection E as <-; lia.
  - injection E as <-. lia.
  - unfold AddAddressFrame_MinLength in E. repeat case_match; simplify_eq; lia.
  - injection E as <-. unfold ClosePathFrame_MinLength. cbv zeta. specialize (Hpn (cp_LargestAcked f)).
    pose proof (ranges_len_bound (ClosePathFrame_HasMissingRanges f) (1 + 1 + 1 + GetPacketNumberLength (cp_LargestAcked f))
      (ClosePathFrame_getMissingSequenceNumberDeltaLen f) (cp_AckRanges f) ltac:(lia) ltac:(apply deltaLen_valid)) as H.
    unfold ClosePathFrame_numWritableNackRanges. lia.
  - injection E as <-. pose proof (u8_range (1 + 1 + 1 + u8 (3 * pf_NumPaths f))). lia.
Qed.

Lemma desc_length bound rs : bound <= 4294967295 -> desc bound rs -> Forall (fun r => range_length r < 4294967296) rs.
Proof.
  revert bound. induction rs as [|r rs IH]; intros bound Hb; cbn [desc]; [constructor|].
  intros (H1 & H2 & H3). constructor.
  - unfold range_length. rewrite (u64_small (Last r - First r)), u64_small; lia.
  - apply (IH (First r - 1)); [lia|done].
Qed.

(** Ranges of packets below 2^32 have lengths of at most 4 bytes. *)
Lemma deltaLen_small largest lowest ranges :
  ranges_ok largest lowest ranges -> largest < 4294967296 ->
  getMissingSequenceNumberDeltaLen largest lowest ranges <= 4.
Proof.
  intros [_ Hr] Hl. unfold getMissingSequenceNumberDeltaLen. cbv zeta.
  assert (Hm : match ranges with
               | [] => u64 (u64 (largest - lowest) + 1)
               | _ => foldl (fun m r => if m <? range_length r then range_length r else m) 0 ranges
               end < 4294967296).
  { destruct ranges as [|r rs].
    - rewrite (u64_small (largest - lowest)), u64_small; lia.
    - destruct Hr as (E & H1 & H2 & _). apply max_length_lt; [lia|]. constructor.
      + unfold range_length. rewrite (u64_small (Last r - First r)), u64_small; lia.
      + apply (desc_length (First r - 1)); [lia|done]. }
  unfold PacketNumberLen1, PacketNumberLen2, PacketNumberLen4, PacketNumberLen6. repeat case_match; lia.
Qed.

(** An ACK frame for packets below 2^32 takes at most 1284 bytes. *)
Lemma ack_len_bound version f :
  AckFrame_ok f -> ack_LargestAcked f < 4294967296 ->
  AckFrame_MinLength f version <= 1283 + (if ack_PathID f =? InitialPathID then 0 else 1).
Proof.
  intros [_ Hr] Hl. unfold AckFrame_MinLength. cbv zeta. rewrite Z.mul_0_r, Z.add_0_r.
  pose proof (deltaLen_small _ _ _ Hr Hl) as Hd. pose proof (numWritable_range (ack_AckRanges f)) as Hn.
  assert (Hd1 : 1 <= getMissingSequenceNumberDeltaLen (ack_LargestAcked f) (ack_LowestAcked f) (ack_AckRanges f))
    by (destruct (deltaLen_valid (ack_LargestAcked f) (ack_LowestAcked f) (ack_AckRanges f)) as [-> | [-> | [-> | ->]]]; lia).
  assert (Hla : 1 <= GetPacketNumberLength (ack_LargestAcked f) <= 4).
  { unfold GetPacketNumberLength, PacketNumberLen1, PacketNumberLen2, PacketNumberLen4, PacketNumberLen6.
    change (Z.shiftl 1 (4 * 8)) with 4294967296. repeat case_match; lia. }
  unfold AckFrame_getMissingSequenceNumberDeltaLen, AckFrame_numWritableNackRanges.
  set (d := getMissingSequenceNumberDeltaLen _ _ _) in *. set (n := numWritableNackRanges _) in *.
  assert (H : 0 <= (if AckFrame_HasMissingRanges f then u64 (1 + 2 + 1 + GetPacketNumberLength (ack_LargestAcked f) + (1 + d) * n)
               else 1 + 2 + 1 + GetPacketNumberLength (ack_LargestAcked f) + d) <= 1283).
  { destruct (AckFrame_HasMissingRanges f); [rewrite u64_small|]; nia. }
  destruct (ack_PathID f =? InitialPathID); cbn [negb]; [lia|]. rewrite u64_small; lia.
Qed.

(** ** The packets *)

#[local] Arguments assign {R T} field {_} v r /.
Ltac pck_fields :=
  cbn [assign pck_connectionID pck_perspective pck_version pck_connectionParameters pck_streamFramer pck_controlFrames
       pck_stopWaiting pck_ackFrame fst snd] in *.

(** What the packer needs of a sealer: the overhead is that of the AEADs of the
    handshake, and what is sealed is that much longer. *)
Record sealer_ok (s : Sealer) : Prop := {
  so_overhead : Overhead s = 12;
  so_seal : forall payload pn ad, zlen (Seal s payload pn ad) = zlen payload + Overhead s
}.

Record crypto_ok (crypto : CryptoSetup) (handshakeComplete : bool) : Prop := {
  co_sealer : sealer_ok (snd (GetSealer crypto));
  co_crypto_sealer : sealer_ok (snd (GetSealerForCryptoStream crypto));
  co_nonce : zlen (DiversificationNonce crypto) = 32;
  co_complete : handshakeComplete = true -> fst (GetSealer crypto) = EncryptionForwardSecure
}.

(** A control frame that any packet may carry. *)
Definition control_ok (f : Frame) : Prop :=
  (forall hdr level, frame_ok hdr level f) /\ few_paths f /\ match f with FStream _ => False | _ => True end.

Section Packets.
Context {C : Type} `{SA : !SendAlgorithm C} (crypto : CryptoSetup) (handshakeComplete : bool).
Context (now : Time) (rand : outcome (Z * Z)) (Hcrypto : crypto_ok crypto handshakeComplete).
Implicit Types (p : packetPacker) (pth : path C).

Abbreviation header := (getPublicHeader crypto handshakeComplete).
Abbreviation number pth := (png_next (pth_packetNumberGenerator pth)).

Record packer_ok p pth : Prop := {
  pko_connection : 0 < pck_connectionID p < 2 ^ 64;
  pko_version : 0 <= pck_version p < 1000;
  pko_truncate : pck_perspective p = PerspectiveClient -> cpm_TruncateConnectionID (pck_connectionParameters p) = false;
  pko_path : byte_ok (pth_pathID pth) /\ 0 < number pth < 2 ^ 63;
  pko_control : Forall control_ok (pck_controlFrames p) /\ zlen (pck_controlFrames p) < 2 ^ 40;
  pko_stop : forall f, pck_stopWaiting p !! pth_pathID pth = Some f ->
    0 < sw_LeastUnacked f <= number pth /\
    number pth - sw_LeastUnacked f < epoch_size (GetPacketNumberLengthForPublicHeader (number pth) (pth_leastUnacked pth));
  pko_ack : forall f, pck_ackFrame p !! pth_pathID pth = Some f ->
    AckFrame_ok f /\ first_gap_ok (ack_AckRanges f) /\ ack_LargestAcked f < 4294967296 /\
    (handshakeComplete = false -> ack_PathID f = InitialPathID);
  pko_framer : framer_ok (pck_streamFramer p);
  pko_crypto : is_Some (sm_streams (sfr_streamsMap (pck_streamFramer p)) !! 1);
  pko_retransmit : Forall frame_some (sfr_retransmissionQueue (pck_streamFramer p))
}.

Lemma public_number_length_valid pn lu : valid_len (GetPacketNumberLengthForPublicHeader pn lu) /\
  2 <= GetPacketNumberLengthForPublicHeader pn lu <= 6.
Proof.
  unfold GetPacketNumberLengthForPublicHeader, valid_len, PacketNumberLen2, PacketNumberLen4, PacketNumberLen6.
  repeat case_match; (split; [auto|lia]).
Qed.

(** The header that the bytes are those of: a truncated connection ID is not there. *)
Definition sent_header (h : PublicHeader) : PublicHeader :=
  if hdr_TruncateConnectionID h then
    mkPublicHeader (hdr_Raw h) 0 (hdr_PathID h) (hdr_VersionFlag h) (hdr_ResetFlag h) true (hdr_MultipathFlag h)
      (hdr_PacketNumberLen h) (hdr_PacketNumber h) (hdr_VersionNumber h) (hdr_SupportedVersions h)
      (hdr_DiversificationNonce h)
  else h.

Lemma sent_header_ok level p pth :
  packer_ok p pth -> header_ok (pck_perspective p) (pck_version p) (sent_header (header level p pth)).
Proof.
  intros [Hc Hv Ht [Hp Hn] _ _ _ _ _ _]. destruct (public_number_length_valid (number pth) (pth_leastUnacked pth)) as [Hl _].
  pose proof (co_nonce _ _ Hcrypto) as Hnonce.
  assert (Hunk : forall b, pck_version p = VersionUnknown -> b = true) by (unfold VersionUnknown; lia).
  assert (Hbyte0 : byte_ok 0) by (unfold byte_ok; lia).
  unfold sent_header, getPublicHeader, png_Peek. cbn [hdr_TruncateConnectionID].
  destruct (handshakeComplete && (VersionMP <=? pck_version p)), (pck_perspective p), level,
    (cpm_TruncateConnectionID (pck_connectionParameters p));
    try discriminate (Ht eq_refl);
    (split; cbn; repeat case_match; try done; try lia; auto; split; try done; try lia; auto).
Qed.

Lemma sent_header_same h version pers :
  PublicHeader_Write (sent_header h) version pers = PublicHeader_Write h version pers /\
  PublicHeader_GetLength (sent_header h) pers = PublicHeader_GetLength h pers /\
  hdr_PacketNumber (sent_header h) = hdr_PacketNumber h /\
  hdr_PacketNumberLen (sent_header h) = hdr_PacketNumberLen h.
Proof. by destruct h as [? ? ? ? ? [] ? ? ? ? ? ?]. Qed.

(** The header is written in the bytes that [GetLength] tells. *)
Lemma header_run level p pth :
  packer_ok p pth ->
  exists hb, PublicHeader_Write (header level p pth) (pck_version p) (pck_perspective p) [] = (Ok tt, hb) /\
    PublicHeader_GetLength (header level p pth) (pck_perspective p) = Ok (zlen hb) /\
    hb = header_layout (sent_header (header level p pth)) (pck_version p) (pck_perspective p) /\
    0 <= zlen hb <= 48 /\ (level = EncryptionForwardSecure -> zlen hb <= 16) /\
    (handshakeComplete = false -> zlen hb <= 47).
Proof.
  intros Hok. pose proof (sent_header_ok level p pth Hok) as Hh.
  destruct (sent_header_same (header level p pth) (pck_version p) (pck_perspective p)) as (Ew & El & _ & _).
  exists (header_layout (sent_header (header level p pth)) (pck_version p) (pck_perspective p)).
  pose proof (header_length _ _ _ Hh) as Hlen. rewrite El in Hlen. rewrite <- Ew.
  split; [by apply (header_writes _ _ _ Hh [])|]. split; [done|]. split; [done|]. revert Hlen.
  pose proof (co_nonce _ _ Hcrypto) as Hnonce. pose proof (zlen_nonneg (header_layout (sent_header (header level p pth)) (pck_version p) (pck_perspective p))) as Hnn.
  revert Hnn. generalize (zlen (header_layout (sent_header (header level p pth)) (pck_version p) (pck_perspective p))). intros n Hnn.
  destruct (public_number_length_valid (number pth) (pth_leastUnacked pth)) as [_ Hl].
  unfold PublicHeader_GetLength, PublicHeader_hasPacketNumber, getPublicHeader, png_Peek.
  destruct (pck_perspective p), level, handshakeComplete, (VersionMP <=? pck_version p),
    (cpm_TruncateConnectionID (pck_connectionParameters p)); cbn; rewrite ?Hnonce, ?zlen_nil; intros Hlen;
  repeat case_match; simplify_eq; change (zlen (@nil Z)) with 0; split_and!; intros; try done; lia.
Qed.

(** *** The frames *)

Lemma frame_len version hdr level f :
  frame_ok hdr level f -> few_paths f ->
  exists l, Frame_MinLength f version = Ok l /\ 0 < l <= 4000 /\ written_len version [f] = l + data_len f.
Proof.
  intros Hok Hfew. destruct (frame_written version hdr level now f Hok Hfew) as (bs & _ & E & Hd).
  exists (zlen bs - data_len f). split; [done|]. pose proof (frame_len_bound version hdr level f _ Hok E) as Hb.
  split; [lia|]. rewrite written_len_cons, E. cbn [written_len foldr]. lia.
Qed.

Lemma control_len version (hdr : PublicHeader) f :
  control_ok f -> exists l, Frame_MinLength f version = Ok l /\ 0 < l <= 4000 /\ written_len version [f] = l.
Proof.
  intros (Hok & Hfew & Hs). destruct (frame_len version hdr EncryptionSecure f (Hok _ _) Hfew) as (l & E & Hl & Hw).
  exists l. split_and!; [done|lia|lia|]. rewrite Hw. destruct f; try done; cbn [data_len]; lia.
Qed.

(** Control frames are taken from the end of the list while they fit. *)
Lemma pop_control_frames_run (hdr : PublicHeader) max reversed pay p pth :
  Forall control_ok reversed -> pck_controlFrames p = rev reversed -> 0 <= pay -> pay + 4000 * zlen reversed < 2 ^ 62 ->
  exists taken rest, reversed = taken ++ rest /\
    pop_control_frames max pay reversed (p, pth)
    = (Ok (taken, pay + written_len (pck_version p) taken), (p <| pck_controlFrames := rev rest |>, pth)) /\
    (pay <= max -> pay + written_len (pck_version p) taken <= max).
Proof.
  revert pay p. induction reversed as [|f reversed IH]; intros pay p Hok Hp Hpay Hb; cbn [pop_control_frames].
  { exists [], []. split_and!; [done| |cbn; lia]. cbn [written_len foldr]. rewrite Z.add_0_r. unfold_go. do 3 f_equal.
    destruct p; cbn in *. by rewrite Hp. }
  apply Forall_cons in Hok as [Hf Hok]. rewrite zlen_cons in Hb. pose proof (zlen_nonneg reversed).
  destruct (control_len (pck_version p) hdr f Hf) as (l & El & Hl & Hw).
  unfold_go. rewrite El. cbn beta iota. rewrite u64_small by lia. destruct (Z.ltb_spec max (pay + l)).
  { exists [], (f :: reversed). split_and!; [done| |cbn; lia]. cbn [written_len foldr]. rewrite Z.add_0_r. do 3 f_equal.
    destruct p; cbn in *. by rewrite Hp. }
  destruct (IH (pay + l) (p <| pck_controlFrames := rev reversed |>)) as (taken & rest & E & Er & Hfit); [done|done|lia|lia|].
  unfold pack_modify. unfold_go. rewrite Er. exists (f :: taken), rest. split_and!; [by rewrite E| |].
  - change (f :: taken) with ([f] ++ taken). rewrite written_len_app, Hw. cbn [assign]. do 3 f_equal. cbn. lia.
  - intros _. change (f :: taken) with ([f] ++ taken). rewrite written_len_app, Hw. cbn in Hfit. lia.
Qed.

(** The frames of a packet of at most [max] bytes of frames. *)
Record payload_ok hdr level version (max : Z) (frames : list Frame) : Prop := {
  po_frames : Forall (frame_ok hdr level) frames;
  po_few : Forall few_paths frames;
  po_delimited : Forall delimited (removelast frames);
  po_len : written_len version frames <= max
}.

(** What the packer takes of the framer: nothing, or frames of its streams, and the
    BLOCKED frames that came up. *)
Definition streams_taken (send : bool) (maxLen : Z) (f : streamFramer) (retrans new : list StreamFrame)
    (blocked : list BlockedFrame) (f' : streamFramer) : Prop :=
  if send then
    exists f1, pops maxLen f retrans new f1 /\ blocked = sfr_blockedFrameQueue f1 /\ f' = f1 <| sfr_blockedFrameQueue := [] |>
  else retrans = [] /\ new = [] /\ blocked = [] /\ f' = f.

Lemma stream_frame_ok hdr level fr :
  EncryptionLevel_num EncryptionSecure <= EncryptionLevel_num level -> frame_in_range fr -> frame_some fr ->
  StreamFrame_DataLen fr <= MaxPacketSize -> frame_ok hdr level (FStream fr).
Proof.
  intros Hl (Hid & Ho & Hlen) Hsome Hd. pose proof (DataLen_nonneg fr). split.
  - split_and!; try done; unfold u64_ok; lia.
  - intros H'. cbn in *. lia.
Qed.

Lemma removelast_map {A B} (g : A -> B) l : removelast (map g l) = map g (removelast l).
Proof. induction l as [|x [|y l] IH]; [done..|]. cbn [map removelast] in *. by rewrite IH. Qed.

Lemma removelast_app_Forall {A} (P : A -> Prop) l1 l2 :
  Forall P l1 -> Forall P (removelast l2) -> Forall P (removelast (l1 ++ l2)).
Proof.
  intros H1 H2. destruct l2 as [|y l2].
  - rewrite app_nil_r. clear H2. induction l1 as [|x [|z l1] IH]; [constructor..|].
    apply Forall_cons in H1 as [Hx H1]. change (removelast (x :: z :: l1)) with (x :: removelast (z :: l1)).
    constructor; [done|by apply IH].
  - rewrite removelast_app by done. by apply Forall_app.
Qed.

Lemma framed_len_data fs n : framed_len fs <= n -> Forall (fun fr => StreamFrame_DataLen fr <= n - 2) fs.
Proof.
  revert n. induction fs as [|fr fs IH]; intros n; [constructor|]. rewrite framed_len_cons. intros H.
  pose proof (framed_len_nonneg fs). pose proof (frame_header_len_bounds fr). pose proof (DataLen_nonneg fr).
  constructor; [lia|]. apply IH. lia.
Qed.

(** The frames of the streams, the last one without its length, gain two bytes. *)
Lemma streams_payload hdr level version maxLen fs :
  EncryptionLevel_num EncryptionSecure <= EncryptionLevel_num level -> framed_len fs <= maxLen ->
  2 <= maxLen <= MaxPacketSize + 2 ->
  Forall (fun fr => sf_DataLenPresent fr = true) fs -> Forall frame_in_range fs -> Forall frame_some fs ->
  payload_ok hdr level version (maxLen - 2) (map FStream (omit_last_length fs)).
Proof.
  intros Hlevel Hfit Hmax Hpres Hrange Hsome. pose proof (framed_len_data fs maxLen Hfit) as Hdata. split.
  - apply Forall_map.
    assert (H : Forall (fun fr => frame_in_range fr /\ frame_some fr /\ StreamFrame_DataLen fr <= maxLen - 2) fs)
      by (rewrite Forall_forall in *; auto).
    assert (H' : Forall (fun fr => frame_in_range fr /\ frame_some fr /\ StreamFrame_DataLen fr <= maxLen - 2) (omit_last_length fs)).
    { clear -H. induction fs as [|f [|f' fs] IH]; [done| |].
      - rewrite Forall_singleton in H. by apply Forall_singleton.
      - apply Forall_cons in H as [H1 H2]. constructor; [done|by apply IH]. }
    eapply Forall_impl; [exact H'|]. intros fr (H1 & H2 & H3). apply stream_frame_ok; [done..|lia].
  - apply Forall_map, Forall_true. done.
  - rewrite removelast_map. apply Forall_map. by apply omit_last_length_delimited.
  - rewrite written_len_stream. destruct fs as [|f fs]; [cbn; lia|]. rewrite omit_last_length_framed by done. lia.
Qed.

Lemma payload_ok_app hdr level version m1 m2 l1 l2 :
  payload_ok hdr level version m1 l1 -> Forall delimited l1 -> payload_ok hdr level version m2 l2 ->
  payload_ok hdr level version (m1 + m2) (l1 ++ l2).
Proof.
  intros [H1 H2 _ H4] Hd [H1' H2' H3' H4']. split; [by apply Forall_app..| |].
  - by apply removelast_app_Forall.
  - rewrite written_len_app. lia.
Qed.

Lemma control_payload hdr level version l :
  Forall control_ok l ->
  payload_ok hdr level version (written_len version l) l /\ Forall delimited l /\ 0 <= written_len version l.
Proof.
  intros H. assert (Hn : 0 <= written_len version l).
  { induction H as [|f l Hf _ IH]; [done|]. change (f :: l) with ([f] ++ l). rewrite written_len_app.
    destruct (control_len version hdr f Hf) as (k & _ & Hk & ->). lia. } assert (Hd : Forall delimited l) by (eapply Forall_impl; [exact H|]; intros f (_ & _ & Hs); by destruct f).
  split_and!; [|done|done]. split; [eapply Forall_impl; [exact H|]; by intros f (? & ? & _)..| |done].
  rewrite <- (app_nil_r l). by apply removelast_app_Forall.
Qed.

(** The STOP_WAITING and the ACK frame of the path. *)
Definition own_frames p pth : list Frame :=
  option_list (FStopWaiting <$> pck_stopWaiting p !! pth_pathID pth) ++
  option_list (FAck <$> pck_ackFrame p !! pth_pathID pth).

Lemma own_payload hdr level p pth :
  Forall (frame_ok hdr level) (own_frames p pth) ->
  payload_ok hdr level (pck_version p) (written_len (pck_version p) (own_frames p pth)) (own_frames p pth) /\
  Forall delimited (own_frames p pth).
Proof.
  intros Hok. assert (Hd : Forall delimited (own_frames p pth) /\ Forall few_paths (own_frames p pth)).
  { unfold own_frames. destruct (pck_stopWaiting p !! _), (pck_ackFrame p !! _); repeat constructor. }
  destruct Hd as [Hd Hf]. split; [|done]. split; try done. rewrite <- (app_nil_r (own_frames p pth)).
  by apply removelast_app_Forall.
Qed.

Lemma own_length hdr level p pth :
  Forall (frame_ok hdr level) (own_frames p pth) ->
  exists l1 l2, frame_length (pck_version p) (FStopWaiting <$> pck_stopWaiting p !! pth_pathID pth) = Ok l1 /\
    frame_length (pck_version p) (FAck <$> pck_ackFrame p !! pth_pathID pth) = Ok l2 /\
    l1 + l2 = written_len (pck_version p) (own_frames p pth) /\ 0 <= l1 <= 4000 /\ 0 <= l2 <= 4000.
Proof.
  unfold own_frames. intros H. apply Forall_app in H as [H1 H2].
  assert (Hone : forall f : option Frame, Forall (frame_ok hdr level) (option_list f) -> Forall few_paths (option_list f) ->
    Forall (fun f => data_len f = 0) (option_list f) ->
    exists l, frame_length (pck_version p) f = Ok l /\ written_len (pck_version p) (option_list f) = l /\ 0 <= l <= 4000).
  { intros [f|] Hf Hp Hd; [|by exists 0]. cbn in Hf, Hp, Hd. cbn [frame_length]. change (option_list (Some f)) with [f]. rewrite Forall_singleton in Hf, Hp, Hd.
    destruct (frame_len (pck_version p) hdr level f Hf Hp) as (l & E & Hl & Hw). exists l. split_and!; [done|lia..]. }
  destruct (Hone (FStopWaiting <$> pck_stopWaiting p !! pth_pathID pth)) as (l1 & E1 & W1 & B1);
    [done|by destruct (pck_stopWaiting p !! _); repeat constructor..|].
  destruct (Hone (FAck <$> pck_ackFrame p !! pth_pathID pth)) as (l2 & E2 & W2 & B2);
    [done|by destruct (pck_ackFrame p !! _); repeat constructor..|].
  exists l1, l2. rewrite written_len_app. split_and!; try done; lia.
Qed.

(** The frames of the next packet: the path's own, control frames from the end of
    the list, frames of the streams. *)
Lemma composeNextPacket_run hdr level max (send : bool) p pth :
  Forall (frame_ok hdr level) (own_frames p pth) -> written_len (pck_version p) (own_frames p pth) <= max <= MaxPacketSize ->
  Forall control_ok (pck_controlFrames p) -> zlen (pck_controlFrames p) < 2 ^ 40 ->
  framer_ok (pck_streamFramer p) -> Forall frame_some (sfr_retransmissionQueue (pck_streamFramer p)) ->
  (send = true -> EncryptionLevel_num EncryptionSecure <= EncryptionLevel_num level) ->
  exists kept taken retrans new blocked f',
    let frames := own_frames p pth ++ taken ++ map FStream (omit_last_length (retrans ++ new)) in
    composeNextPacket max send (p, pth)
    = (Ok frames, (p <| pck_controlFrames := kept ++ map FBlocked blocked |> <| pck_streamFramer := f' |>, pth)) /\
    pck_controlFrames p = kept ++ rev taken /\
    streams_taken send (max + 2 - written_len (pck_version p) (own_frames p pth ++ taken)) (pck_streamFramer p) retrans new blocked f' /\
    payload_ok hdr level (pck_version p) max frames.
Proof.
  intros Hown Hmax Hctl Hlen Hfr Hsome Hsend. destruct (own_length hdr level p pth Hown) as (l1 & l2 & E1 & E2 & El & Hl1 & Hl2).
  destruct (own_payload hdr level p pth Hown) as [Hpay Hdel].
  destruct (pop_control_frames_run hdr max (rev (pck_controlFrames p)) (l1 + l2) p pth) as (taken & rest & Er & Epop & Hfit).
  { by apply Forall_rev. } { by rewrite rev_involutive. } { lia. }
  { unfold zlen in *. rewrite length_rev. lia. }
  specialize (Hfit ltac:(lia)). pose proof (Forall_rev Hctl) as Hctl'. rewrite Er in Hctl'. apply Forall_app in Hctl' as [Htaken _].
  destruct (control_payload hdr level (pck_version p) taken Htaken) as (Hpt & Hdt & Hnt).
  pose proof (payload_ok_app _ _ _ _ _ _ _ Hpay Hdel Hpt) as Hpay2. rewrite <- written_len_app in Hpay2.
  set (n := written_len (pck_version p) (own_frames p pth ++ taken)) in *.
  assert (En : l1 + l2 + written_len (pck_version p) taken = n) by (unfold n; rewrite written_len_app; lia).
  assert (Hn : 0 <= n <= max) by lia. set (p1 := p <| pck_controlFrames := rev rest |>) in *.
  assert (Ectl : pck_controlFrames p = rev rest ++ rev taken) by (rewrite <- rev_app_distr, <- Er; by rewrite rev_involutive).
  assert (E : composeNextPacket max send (p, pth) =
    (if negb send then mret (own_frames p pth ++ taken)
     else fs ← pack_framer (PopStreamFrames (max + 2 - n)); pack_modify queue_blocked_frames;;
       mret ((own_frames p pth ++ taken) ++ map FStream (omit_last_length fs))) (p1, pth)).
  { unfold composeNextPacket. erewrite run_bind_ok by reflexivity. cbn beta iota.
    rewrite E1, E2. erewrite !run_bind_ok by reflexivity. rewrite (u64_small (l1 + l2)) by lia.
    erewrite run_bind_ok by exact Epop. cbn beta iota. rewrite En. destruct (Z.ltb_spec max n); [lia|].
    unfold MaxPacketSize in *. rewrite (u64_small (max + 2)), u64_small by lia. done. }
  rewrite E. destruct send; cbn [negb].
  - destruct (PopStreamFrames_run (max + 2 - n) (pck_streamFramer p) Hfr) as (retrans & new & f1 & Ep & Hpops); [unfold MaxPacketSize in *; lia|].
    exists (rev rest), taken, retrans, new, (sfr_blockedFrameQueue f1), (f1 <| sfr_blockedFrameQueue := [] |>).
    cbn zeta. rewrite !app_assoc. split_and!; [|done|by exists f1|].
    + erewrite run_bind_ok; [|unfold pack_framer; change (pck_streamFramer p1) with (pck_streamFramer p); by rewrite Ep].
      by destruct p.
    + replace max with (n + (max + 2 - n - 2)) by lia. apply payload_ok_app; [done|by apply Forall_app|].
      apply streams_payload; [by apply Hsend|apply Hpops|lia|apply Hpops..|by apply (pp_some _ _ _ _ _ Hpops)].
  - exists (rev rest), taken, [], [], [], (pck_streamFramer p). cbn zeta. cbn [app map omit_last_length].
    rewrite !app_nil_r. split_and!; [by destruct p|done|done|]. destruct Hpay2. split; try done. lia.
Qed.

(** *** Sealing *)

(** The packet as it is on the wire, for its frames. *)
Record sealed sealer hdr hb level p pth frames raw : Prop := {
  se_frames : payload_ok hdr level (pck_version p) (MaxPacketSize - 12 - zlen hb) frames;
  se_raw : exists payload, writes (write_frames frames now (pck_version p)) payload /\
    raw = hb ++ Seal sealer payload (number pth) hb;
  se_len : zlen raw <= MaxPacketSize
}.

Lemma writeAndSealPacket_run hdr hb level sealer frames p pth :
  sealer_ok sealer -> PublicHeader_Write hdr (pck_version p) (pck_perspective p) [] = (Ok tt, hb) ->
  hdr_PacketNumber hdr = number pth -> payload_ok hdr level (pck_version p) (MaxPacketSize - 12 - zlen hb) frames ->
  exists raw, writeAndSealPacket now rand hdr frames sealer (p, pth)
    = (Ok raw, (p, pth <| pth_packetNumberGenerator := snd (png_Pop (pth_packetNumberGenerator pth) rand) |>)) /\
    sealed sealer hdr hb level p pth frames raw.
Proof.
  intros [Ho Hs] Eh Hn Hpay. pose proof Hpay as [Hok Hfew Hdel Hlen].
  destruct (frames_written (pck_version p) hdr level now frames Hok Hfew) as (payload & Hw & El).
  pose proof (zlen_nonneg hb). pose proof (zlen_nonneg payload). unfold MaxPacketSize in *.
  assert (Hraw : zlen (hb ++ Seal sealer payload (number pth) hb) <= 1350) by (rewrite zlen_app, Hs; lia).
  exists (hb ++ Seal sealer payload (number pth) hb). split; [|split; [done|by exists payload|done]].
  unfold writeAndSealPacket. unfold_go. unfold run_writer. rewrite Eh. cbn beta iota. rewrite (Hw hb). cbn beta iota.
  rewrite zlen_app, Ho, u64_small by lia. unfold MaxPacketSize. destruct (Z.ltb_spec 1350 (zlen hb + zlen payload + 12)); [lia|].
  unfold pop_packet_number. destruct (png_Pop (pth_packetNumberGenerator pth) rand) as [num g] eqn:Ep.
  assert (num = number pth) as ->.
  { revert Ep. unfold png_Pop. destruct (_ =? _); congruence. }
  cbn beta iota. rewrite Hn, Z.eqb_refl. cbn [negb]. unfold_go. by rewrite drop_app_length.
Qed.

(** The path with the packet number used. *)
Definition path_after pth : path C :=
  pth <| pth_packetNumberGenerator := snd (png_Pop (pth_packetNumberGenerator pth) rand) |>.

Lemma packCryptoPacket_run p pth cs (level := fst (GetSealerForCryptoStream crypto)) (hdr := header level p pth) :
  packer_ok p pth -> sm_streams (sfr_streamsMap (pck_streamFramer p)) !! 1 = Some cs -> 0 < zlen (pending cs) ->
  exists fr cs' hb raw,
    packCryptoPacket crypto handshakeComplete now rand (p, pth) =
      (Ok (mkPackedPacket (number pth) raw [FStream fr] level),
       (p <| pck_streamFramer := (pck_streamFramer p) <| sfr_streamsMap :=
               update_stream cs' (sfr_streamsMap (pck_streamFramer p)) |> |>, path_after pth)) /\
    PublicHeader_Write hdr (pck_version p) (pck_perspective p) [] = (Ok tt, hb) /\
    sent_by cs fr cs' /\ sealed (snd (GetSealerForCryptoStream crypto)) hdr hb level p pth [FStream fr] raw.
Proof.
  intros Hok Ecs Hp. pose proof Hok as [_ _ _ _ _ _ _ Hfr _ _]. destruct (header_run level p pth Hok) as (hb & Eh & El & _ & Hh & _).
  fold hdr in Eh, El. pose proof (co_crypto_sealer _ _ Hcrypto) as Hsealer.
  assert (Eid : str_streamID cs = 1) by exact (smi_key _ _ (fo_inv _ Hfr) 1 cs Ecs).
  destruct (PopCryptoStreamFrame_run (1350 - 12 - 50 - zlen hb) (pck_streamFramer p) cs Ecs Eid Hp ltac:(lia))
    as (fr & cs' & Epop & Hsent & Hfin & Hpres & Hfit).
  set (p1 := p <| pck_streamFramer := (pck_streamFramer p) <| sfr_streamsMap :=
               update_stream cs' (sfr_streamsMap (pck_streamFramer p)) |> |>).
  pose proof (frame_header_len_bounds fr). pose proof (DataLen_nonneg fr).
  destruct (offset_ok_sent cs fr cs' (fo_offsets _ Hfr 1 cs Ecs) Hsent) as (_ & Hend & Hoff).
  assert (Eid' : sf_StreamID fr = 1) by (rewrite <- Eid; apply Hsent).
  assert (Hpay : payload_ok hdr level (pck_version p1) (MaxPacketSize - 12 - zlen hb) [FStream fr]).
  { split; [|by repeat constructor|constructor|].
    - constructor; [|constructor]. split; [|done]. unfold StreamFrame_ok, u32_ok, u64_ok, MaxPacketSize. rewrite Eid'.
      split_and!; try lia; [unfold StreamFrame_DataLen in *; lia|apply Hsent].
    - change ([FStream fr]) with (map FStream [fr]). rewrite written_len_stream, framed_len_cons. change (framed_len []) with 0. unfold MaxPacketSize. lia. }
  destruct (writeAndSealPacket_run hdr hb level _ [FStream fr] p1 pth Hsealer Eh eq_refl Hpay) as (raw & Ew & Hs).
  exists fr, cs', hb, raw. split_and!; [|done|done|by destruct Hs].
  unfold packCryptoPacket. erewrite run_bind_ok by reflexivity. cbn beta iota.
  rewrite (surjective_pairing (GetSealerForCryptoStream crypto)). fold level hdr. rewrite El.
  erewrite run_bind_ok by reflexivity. rewrite (so_overhead _ Hsealer). change (MaxPacketSize - 12 - NonForwardSecurePacketSizeReduction) with (1350 - 12 - 50).
  rewrite u64_small by lia. erewrite run_bind_ok by (unfold pack_framer; by rewrite Epop).
  cbn beta iota. fold p1. by erewrite run_bind_ok by exact Ew.
Qed.

(** The path's STOP_WAITING and ACK frames fit in any packet. *)
Lemma own_frames_ok level p pth (hdr := header level p pth) (p1 := number_stop_waiting hdr (pth_pathID pth) p) :
  packer_ok p pth ->
  Forall (frame_ok hdr level) (own_frames p1 pth) /\
  written_len (pck_version p) (own_frames p1 pth) <= 1290 + (if handshakeComplete then 1 else 0).
Proof.
  intros Hok. destruct (public_number_length_valid (number pth) (pth_leastUnacked pth)) as [Hv Hl].
  pose proof (pko_path _ _ Hok) as [_ Hn]. unfold own_frames. rewrite written_len_app.
  assert (Hack : pck_ackFrame p1 = pck_ackFrame p).
  { unfold p1, number_stop_waiting. by destruct (pck_stopWaiting p !! _). }
  assert (Hs : Forall (frame_ok hdr level) (option_list (FStopWaiting <$> pck_stopWaiting p1 !! pth_pathID pth)) /\
    written_len (pck_version p) (option_list (FStopWaiting <$> pck_stopWaiting p1 !! pth_pathID pth)) <= 7).
  { unfold p1, number_stop_waiting. destruct (pck_stopWaiting p !! pth_pathID pth) as [f|] eqn:E; cycle 1.
    { rewrite E. split; [constructor|done]. }
    destruct (pko_stop _ _ Hok f E) as [H1 H2]. pck_fields. rewrite lookup_insert_eq. split.
    - constructor; [|constructor]. cbn [frame_ok sw_PacketNumber sw_PacketNumberLen sw_LeastUnacked].
      unfold hdr, getPublicHeader, png_Peek. cbn [hdr_PacketNumber hdr_PacketNumberLen]. split_and!; try done; lia.
    - cbn. unfold StopWaitingFrame_MinLength. cbn. unfold png_Peek. repeat case_match; simplify_eq; lia. }
  assert (Ha : Forall (frame_ok hdr level) (option_list (FAck <$> pck_ackFrame p1 !! pth_pathID pth)) /\
    written_len (pck_version p) (option_list (FAck <$> pck_ackFrame p1 !! pth_pathID pth))
    <= 1283 + (if handshakeComplete then 1 else 0)).
  { rewrite Hack. destruct (pck_ackFrame p !! pth_pathID pth) as [f|] eqn:E; cycle 1.
    { split; [constructor|]. cbn. destruct handshakeComplete; lia. }
    destruct (pko_ack _ _ Hok f E) as (H1 & H2 & H3 & H4). split; [by constructor; [split|]|].
    pose proof (ack_len_bound (pck_version p) f H1 H3) as Hb. cbn. destruct handshakeComplete.
    - destruct (ack_PathID f =? InitialPathID); lia.
    - rewrite H4, Z.eqb_refl in Hb by done. lia. }
  destruct Hs, Ha. split; [by apply Forall_app|lia].
Qed.

(** What [PackPacket] may do: a packet for the crypto stream; a PING alone, which is
    lost when a STOP_WAITING frame waits; no packet, as there is nothing to send but
    a STOP_WAITING frame; a packet with the frames that are there. *)
Inductive packs p pth : option packedPacket -> packetPacker * path C -> Prop :=
| packs_crypto cs fr cs' hb raw (level := fst (GetSealerForCryptoStream crypto)) (hdr := header level p pth) :
    sm_streams (sfr_streamsMap (pck_streamFramer p)) !! 1 = Some cs -> sent_by cs fr cs' ->
    PublicHeader_Write hdr (pck_version p) (pck_perspective p) [] = (Ok tt, hb) ->
    sealed (snd (GetSealerForCryptoStream crypto)) hdr hb level p pth [FStream fr] raw ->
    packs p pth (Some (mkPackedPacket (number pth) raw [FStream fr] level))
      (p <| pck_streamFramer := (pck_streamFramer p) <| sfr_streamsMap :=
              update_stream cs' (sfr_streamsMap (pck_streamFramer p)) |> |>, path_after pth)
| packs_ping_lost pf rest f (level := fst (GetSealer crypto)) (hdr := header level p pth) :
    pck_controlFrames p = FPing pf :: rest -> pck_stopWaiting p !! pth_pathID pth = Some f ->
    packs p pth None ((number_stop_waiting hdr (pth_pathID pth) p) <| pck_controlFrames := rest |>, pth)
| packs_ping pf rest hb raw (level := fst (GetSealer crypto)) (hdr := header level p pth) :
    pck_controlFrames p = FPing pf :: rest -> pck_stopWaiting p !! pth_pathID pth = None ->
    PublicHeader_Write hdr (pck_version p) (pck_perspective p) [] = (Ok tt, hb) ->
    sealed (snd (GetSealer crypto)) hdr hb level p pth [FPing pf] raw ->
    packs p pth (Some (mkPackedPacket (number pth) raw [FPing pf] level))
      (clear_ack (pth_pathID pth) (clear_stop_waiting (pth_pathID pth) (p <| pck_controlFrames := rest |>)), path_after pth)
| packs_nothing maxLen blocked f' (level := fst (GetSealer crypto)) (hdr := header level p pth) :
    pck_ackFrame p !! pth_pathID pth = None ->
    streams_taken (canSendData (pck_perspective p) level) maxLen (pck_streamFramer p) [] [] blocked f' ->
    packs p pth None
      ((number_stop_waiting hdr (pth_pathID pth) p) <| pck_controlFrames := pck_controlFrames p ++ map FBlocked blocked |>
         <| pck_streamFramer := f' |>, pth)
| packs_frames hb raw kept taken retrans new blocked f' (level := fst (GetSealer crypto)) (hdr := header level p pth)
    (p1 := number_stop_waiting hdr (pth_pathID pth) p)
    (frames := own_frames p1 pth ++ taken ++ map FStream (omit_last_length (retrans ++ new))) :
    PublicHeader_Write hdr (pck_version p) (pck_perspective p) [] = (Ok tt, hb) ->
    frames <> [] -> pck_controlFrames p = kept ++ rev taken ->
    streams_taken (canSendData (pck_perspective p) level)
      (MaxPacketSize - 12 - zlen hb + 2 - written_len (pck_version p) (own_frames p1 pth ++ taken))
      (pck_streamFramer p) retrans new blocked f' ->
    sealed (snd (GetSealer crypto)) hdr hb level p pth frames raw ->
    packs p pth (Some (mkPackedPacket (number pth) raw frames level))
      (clear_ack (pth_pathID pth) (clear_stop_waiting (pth_pathID pth)
         (p1 <| pck_controlFrames := kept ++ map FBlocked blocked |> <| pck_streamFramer := f' |>)), path_after pth).

Lemma canSendData_level pers level :
  canSendData pers level = true -> EncryptionLevel_num EncryptionSecure <= EncryptionLevel_num level.
Proof. destruct pers, level; cbn; intros; try done; lia. Qed.

(** The end of [PackPacket], for the frames of the packet. *)
Lemma finish_packet hdr hb level sealer frames p pth :
  sealer_ok sealer -> PublicHeader_Write hdr (pck_version p) (pck_perspective p) [] = (Ok tt, hb) ->
  hdr_PacketNumber hdr = number pth -> payload_ok hdr level (pck_version p) (MaxPacketSize - 12 - zlen hb) frames ->
  let p' := clear_ack (pth_pathID pth) (clear_stop_waiting (pth_pathID pth) p) in
  exists raw, (pack_modify (clear_stop_waiting (pth_pathID pth));; pack_modify (clear_ack (pth_pathID pth));;
    raw ← writeAndSealPacket now rand hdr frames sealer;
    mret (Some (mkPackedPacket (hdr_PacketNumber hdr) raw frames level))) (p, pth)
    = (Ok (Some (mkPackedPacket (number pth) raw frames level)), (p', path_after pth)) /\
    sealed sealer hdr hb level p pth frames raw.
Proof.
  intros Hs Eh En Hpay. cbn zeta. set (p' := clear_ack _ _).
  destruct (writeAndSealPacket_run hdr hb level sealer frames p' pth Hs Eh En Hpay) as (raw & Ew & Hse).
  exists raw. split; [|by destruct Hse]. erewrite !run_bind_ok by reflexivity. fold p'.
  erewrite run_bind_ok by exact Ew. by rewrite En.
Qed.

(** [PackPacket] on a path without crypto data. *)
Lemma PackPacket_payload p pth cs (hb : list Z) (level := fst (GetSealer crypto)) (hdr := header level p pth)
    (p1 := number_stop_waiting hdr (pth_pathID pth) p) m frames p2 :
  sm_streams (sfr_streamsMap (pck_streamFramer p)) !! 1 = Some cs -> zlen (pending cs) = 0 ->
  PublicHeader_GetLength hdr (pck_perspective p) = Ok (zlen hb) -> 0 <= zlen hb <= 48 ->
  m = (if is_ping (pck_controlFrames p) then
         pack_modify (fun p => p <| pck_controlFrames := tail (pck_controlFrames p) |>);; mret (take 1 (pck_controlFrames p))
       else composeNextPacket (MaxPacketSize - 12 - zlen hb) (canSendData (pck_perspective p) level)) ->
  m (p1, pth) = (Ok frames, (p2, pth)) ->
  PackPacket crypto handshakeComplete now rand (p, pth) =
    (if zlen frames =? 0 then mret None
     else if (zlen frames =? 1) && bool_decide (is_Some (pck_stopWaiting p2 !! pth_pathID pth)) then mret None
     else
       pack_modify (clear_stop_waiting (pth_pathID pth));; pack_modify (clear_ack (pth_pathID pth));;
       raw ← writeAndSealPacket now rand hdr frames (snd (GetSealer crypto));
       mret (Some (mkPackedPacket (hdr_PacketNumber hdr) raw frames level))) (p2, pth).
Proof.
  intros Ecs Hp El Hh -> Em. unfold PackPacket.
  erewrite run_bind_ok; [|unfold pack_framer; rewrite (HasCryptoStreamFrame_run _ _ Ecs), Hp; reflexivity].
  change (0 <? 0) with false. cbn iota.
  replace (p <| pck_streamFramer := pck_streamFramer p |>) with p by (by destruct p).
  erewrite run_bind_ok by reflexivity. cbn beta iota. rewrite (surjective_pairing (GetSealer crypto)). fold level hdr.
  rewrite El. erewrite run_bind_ok by reflexivity. erewrite run_bind_ok by reflexivity. fold p1.
  rewrite (so_overhead _ (co_sealer _ _ Hcrypto)). unfold MaxPacketSize in *. rewrite u64_small by lia.
  erewrite run_bind_ok by exact Em. done.
Qed.

Lemma number_stop_waiting_fields hdr id p :
  pck_controlFrames (number_stop_waiting hdr id p) = pck_controlFrames p /\
  pck_streamFramer (number_stop_waiting hdr id p) = pck_streamFramer p /\
  pck_ackFrame (number_stop_waiting hdr id p) = pck_ackFrame p /\
  pck_version (number_stop_waiting hdr id p) = pck_version p /\
  pck_perspective (number_stop_waiting hdr id p) = pck_perspective p /\
  (is_Some (pck_stopWaiting (number_stop_waiting hdr id p) !! id) <-> is_Some (pck_stopWaiting p !! id)).
Proof.
  unfold number_stop_waiting. destruct (pck_stopWaiting p !! id) as [f|] eqn:E; pck_fields; [|by rewrite E].
  rewrite lookup_insert_eq. split_and!; done.
Qed.

Lemma PackPacket_ping p pth cs hb pf rest (level := fst (GetSealer crypto)) (hdr := header level p pth) :
  packer_ok p pth -> sm_streams (sfr_streamsMap (pck_streamFramer p)) !! 1 = Some cs -> zlen (pending cs) = 0 ->
  PublicHeader_Write hdr (pck_version p) (pck_perspective p) [] = (Ok tt, hb) ->
  PublicHeader_GetLength hdr (pck_perspective p) = Ok (zlen hb) -> 0 <= zlen hb <= 48 ->
  pck_controlFrames p = FPing pf :: rest ->
  exists o st', PackPacket crypto handshakeComplete now rand (p, pth) = (Ok o, st') /\ packs p pth o st'.
Proof.
  intros Hok Ecs Hp Eh El Hh Ec. set (p1 := number_stop_waiting hdr (pth_pathID pth) p).
  destruct (number_stop_waiting_fields hdr (pth_pathID pth) p) as (F1 & F2 & F3 & F4 & F5 & F6). fold p1 in F1, F2, F3, F4, F5, F6.
  erewrite (PackPacket_payload p pth cs hb _ [FPing pf] (p1 <| pck_controlFrames := rest |>) Ecs Hp El Hh eq_refl); cycle 1.
  { rewrite Ec. cbn [is_ping]. fold level hdr p1. unfold pack_modify. unfold_go. by rewrite F1, Ec. }
  change (zlen [FPing pf]) with 1. cbn [Z.eqb Pos.eqb andb]. fold level hdr.
  destruct (pck_stopWaiting p !! pth_pathID pth) as [f|] eqn:Ef.
  - rewrite bool_decide_true by (by apply F6). eexists None, _. split; [reflexivity|]. by eapply packs_ping_lost.
  - rewrite bool_decide_false; [|pck_fields; rewrite F6; apply is_Some_None].
    assert (E1 : p1 = p) by (unfold p1, number_stop_waiting; by rewrite Ef). rewrite E1.
    destruct (finish_packet hdr hb level (snd (GetSealer crypto)) [FPing pf] (p <| pck_controlFrames := rest |>) pth)
      as (raw & E & Hs); [apply Hcrypto|done|done| |].
    { split; [by repeat constructor..|constructor|]. cbn. unfold MaxPacketSize. lia. }
    eexists _, _. split; [exact E|]. eapply packs_ping; try done. by destruct Hs.
Qed.

(** A packet that is not sent has no frame but STOP_WAITING. *)
Lemma only_stop_waiting p pth (taken : list Frame) (fs : list StreamFrame) :
  let frames := own_frames p pth ++ taken ++ map FStream (omit_last_length fs) in
  (zlen frames =? 0) || ((zlen frames =? 1) && bool_decide (is_Some (pck_stopWaiting p !! pth_pathID pth))) = true ->
  pck_ackFrame p !! pth_pathID pth = None /\ taken = [] /\ fs = [].
Proof.
  cbn zeta. unfold own_frames. rewrite !zlen_app, orb_true_iff, andb_true_iff, bool_decide_eq_true, !Z.eqb_eq.
  assert (Hs : zlen (map FStream (omit_last_length fs)) = 0 -> fs = []).
  { destruct fs as [|f [|f' fs]]; [done|done|]. change (omit_last_length (f :: f' :: fs)) with (f :: omit_last_length (f' :: fs)).
    cbn [map]. rewrite zlen_cons. pose proof (zlen_nonneg (map FStream (omit_last_length (f' :: fs)))). lia. }
  assert (Hn : forall l : list Frame, zlen l = 0 -> l = []) by (intros [|? l]; [done|]; rewrite zlen_cons; pose proof (zlen_nonneg l); lia).
  pose proof (zlen_nonneg taken). pose proof (zlen_nonneg (map FStream (omit_last_length fs))).
  destruct (pck_stopWaiting p !! pth_pathID pth) as [f|], (pck_ackFrame p !! pth_pathID pth) as [a|]; cbn [fmap option_fmap option_map];
    change (zlen (option_list (Some ?x))) with 1; change (zlen (option_list (@None Frame))) with 0;
    intros [Hz|[Hz Hi]]; try lia; try (by destruct (is_Some_None Hi)); split_and!; first [done | apply Hn; lia | apply Hs; lia].
Qed.

Lemma PackPacket_frames p pth cs hb (level := fst (GetSealer crypto)) (hdr := header level p pth) :
  packer_ok p pth -> sm_streams (sfr_streamsMap (pck_streamFramer p)) !! 1 = Some cs -> zlen (pending cs) = 0 ->
  PublicHeader_Write hdr (pck_version p) (pck_perspective p) [] = (Ok tt, hb) ->
  PublicHeader_GetLength hdr (pck_perspective p) = Ok (zlen hb) -> 0 <= zlen hb <= 48 ->
  zlen hb <= 47 - (if handshakeComplete then 1 else 0) ->
  is_ping (pck_controlFrames p) = false ->
  exists o st', PackPacket crypto handshakeComplete now rand (p, pth) = (Ok o, st') /\ packs p pth o st'.
Proof.
  intros Hok Ecs Hp Eh El Hh Hh' Ec. set (p1 := number_stop_waiting hdr (pth_pathID pth) p).
  destruct (number_stop_waiting_fields hdr (pth_pathID pth) p) as (F1 & F2 & F3 & F4 & F5 & F6). fold p1 in F1, F2, F3, F4, F5, F6.
  destruct (own_frames_ok level p pth Hok) as [Hown Hlen]. fold hdr p1 in Hown, Hlen.
  destruct (composeNextPacket_run hdr level (MaxPacketSize - 12 - zlen hb) (canSendData (pck_perspective p) level) p1 pth)
    as (kept & taken & retrans & new & blocked & f' & Em & Hctl & Hst & Hpay).
  { done. } { rewrite F4. unfold MaxPacketSize. destruct handshakeComplete; lia. }
  { rewrite F1. apply Hok. } { rewrite F1. apply Hok. } { rewrite F2. apply Hok. } { rewrite F2. apply Hok. }
  { apply canSendData_level. }
  rewrite F1 in Hctl. rewrite F2, F4 in Hst. rewrite F4 in Hpay. set (p2 := p1 <| pck_controlFrames := _ |> <| pck_streamFramer := f' |>) in *.
  set (frames := own_frames p1 pth ++ taken ++ map FStream (omit_last_length (retrans ++ new))) in *.
  erewrite (PackPacket_payload p pth cs hb _ frames p2 Ecs Hp El Hh eq_refl); cycle 1.
  { rewrite Ec. exact Em. }
  change (pck_stopWaiting p2) with (pck_stopWaiting p1). fold level hdr.
  destruct ((zlen frames =? 0) || ((zlen frames =? 1) && bool_decide (is_Some (pck_stopWaiting p1 !! pth_pathID pth)))) eqn:Eb.
  - destruct (only_stop_waiting p1 pth taken (retrans ++ new) Eb) as (Ha & -> & Hnil). apply app_nil in Hnil as [-> ->].
    rewrite F3 in Ha. cbn [rev] in Hctl. rewrite app_nil_r in Hctl.
    exists None, (p2, pth). split; [destruct (zlen frames =? 0); [done|cbn [orb] in Eb; by rewrite Eb]|].
    unfold p2. rewrite <- Hctl. by eapply packs_nothing.
  - apply orb_false_iff in Eb as [Eb1 Eb2]. rewrite Eb1, Eb2.
    destruct (finish_packet hdr hb level (snd (GetSealer crypto)) frames p2 pth) as (raw & E & Hs);
      [apply Hcrypto|unfold p2; pck_fields; by rewrite F4, F5|done|unfold p2; pck_fields; by rewrite F4|].
    eexists _, _. split; [exact E|]. eapply packs_frames; try done.
    + intros E0. fold level hdr p1 frames in E0. by rewrite E0 in Eb1.
    + destruct Hs as [S1 S2 S3]. change (pck_version p2) with (pck_version p1) in S1, S2. rewrite F4 in S1, S2. by split.
Qed.

(** [PackPacket] does what it should: it neither fails nor panics. *)
Lemma PackPacket_run p pth :
  packer_ok p pth ->
  exists o st', PackPacket crypto handshakeComplete now rand (p, pth) = (Ok o, st') /\ packs p pth o st'.
Proof.
  intros Hok. destruct (pko_crypto _ _ Hok) as [cs Ecs]. pose proof (zlen_nonneg (pending cs)).
  destruct (Z.ltb_spec 0 (zlen (pending cs))) as [Hp|Hp].
  - destruct (packCryptoPacket_run p pth cs Hok Ecs Hp) as (fr & cs' & hb & raw & E & Eh & Hsent & Hs).
    eexists _, _. split; [|by eapply packs_crypto]. unfold PackPacket.
    erewrite run_bind_ok; [|unfold pack_framer; rewrite (HasCryptoStreamFrame_run _ _ Ecs); reflexivity].
    replace (p <| pck_streamFramer := pck_streamFramer p |>) with p by (by destruct p).
    destruct (Z.ltb_spec 0 (zlen (pending cs))); [|lia]. cbn iota. by erewrite run_bind_ok by exact E.
  - destruct (header_run (fst (GetSealer crypto)) p pth Hok) as (hb & Eh & El & _ & Hh & Hfs & Hhc).
    destruct (is_ping (pck_controlFrames p)) eqn:Ec.
    + destruct (pck_controlFrames p) as [|[] rest] eqn:Ectl; try done. eapply (PackPacket_ping p pth cs hb); try done. lia.
    + eapply (PackPacket_frames p pth cs hb); try done; [lia|]. pose proof (co_complete _ _ Hcrypto) as Hc.
      destruct handshakeComplete; [specialize (Hfs (Hc eq_refl))|specialize (Hhc eq_refl)]; lia.
Qed.

(** C12: what [PackPacket] packs.  It neither fails nor panics.  A packet has the
    next number of the path, at least one frame and at most [MaxPacketSize] bytes,
    sealed with its header as the associated data.  It has either the next data of
    the crypto stream; or a PING alone; or the STOP_WAITING and the ACK frame of the
    path, then control frames from the end of the queue, the others of which stay
    there, then frames of the streams.  Without a packet nothing is taken from the
    streams or the queue, except for a PING that meets a STOP_WAITING frame.
    It holds for a packer and a path in [packer_ok]: the queued control frames can be
    written (no PATHS frame of more than 84 paths, whose length wraps); the ACK frame
    of the path acknowledges packets below 2^32, its first gap is at most 254 * 255,
    and before the handshake is complete it is for the initial path; the STOP_WAITING
    frame fits the length of the packet number; a client does not truncate connection
    IDs; the crypto stream is there and the streams keep their invariant.  Sealers
    add 12 bytes. *)
Theorem packets_packed p pth :
  packer_ok p pth ->
  exists o st', PackPacket crypto handshakeComplete now rand (p, pth) = (Ok o, st') /\ packs p pth o st' /\
    forall pkt, o = Some pkt -> pk_number pkt = number pth /\ pk_frames pkt <> [] /\ zlen (pk_raw pkt) <= MaxPacketSize.
Proof.
  intros Hok. destruct (PackPacket_run p pth Hok) as (o & st' & E & H). exists o, st'. split; [done|]. split; [done|].
  intros pkt ->. inversion H; subst; (split_and!; [done..|]); cbn [pk_raw]; by eapply se_len.
Qed.
End Packets.

(** A toy cipher with a tag of 12 bytes. *)
Definition sample_sealer : Sealer := mkSealer 12 (fun payload pn _ => map (Z.lxor pn) payload ++ repeat 0 12).

Definition sample_crypto : CryptoSetup :=
  mkCryptoSetup (EncryptionForwardSecure, sample_sealer) (fun _ => Ok sample_sealer) (EncryptionForwardSecure, sample_sealer) (repeat 1 32).

Lemma sample_sealer_ok : sealer_ok sample_sealer.
Proof. split; [done|]. intros payload pn ad. cbn [Seal sample_sealer]. rewrite zlen_app. unfold zlen. by rewrite length_map. Qed.

Lemma sample_crypto_ok : crypto_ok sample_crypto true.
Proof. split; try done; apply sample_sealer_ok. Qed.

Definition sample_path : path cubicSender := path_setup 3 VersionMP (NewCubicSender false 32 200) None 0.

(** A packer with a window update, an ACK and a STOP_WAITING frame to send. *)
Definition sample_packer : packetPacker :=
  QueueControlFrame (FWindowUpdate (mkWindowUpdateFrame 5 70000)) 3
    (QueueControlFrame (FStopWaiting (mkStopWaitingFrame 1 0 0)) 3
       (QueueControlFrame (FAck sample_ack) 3
          (newPacketPacker 1337 sample_client sample_framer PerspectiveClient VersionMP))).

Lemma sample_packer_ok : packer_ok true sample_packer sample_path.
Proof.
  split; try done.
  - split; [|done]. apply Forall_singleton. by split_and!.
  - intros f [= <-]. done.
  - intros f [= <-]. destruct sample_ack_ok. by split_and!.
  - apply sample_framer_ok.
  - apply Forall_singleton. by left.
Qed.

Lemma packets_packed_witness :
  exists o st', PackPacket sample_crypto true 905000 (Ok (1, 2)) (sample_packer, sample_path) = (Ok o, st') /\
    exists pkt, o = Some pkt /\ pk_number pkt = 1 /\ pk_frames pkt <> [] /\ zlen (pk_raw pkt) <= 1350.
Proof.
  destruct (packets_packed sample_crypto true 905000 (Ok (1, 2)) sample_crypto_ok sample_packer sample_path sample_packer_ok)
    as (o & st' & E & _ & H).
  exists o, st'. split; [exact E|]. destruct o as [pkt|].
  - exists pkt. split; [reflexivity|]. by apply H.
  - exfalso. assert (Hs : match fst (PackPacket sample_crypto true 905000 (Ok (1, 2)) (sample_packer, sample_path)) with
      | Ok None => false | _ => true end = true) by (vm_compute; reflexivity). by rewrite E in Hs.
Defined.
