(* ===== verification/Routing.v ===== *)
(** * server.go and client.go: packets on their way to a session

    The server keeps its sessions by connection ID, the client has one session.
    [handlePacket] of each decides about a packet that arrives: it is dropped,
    answered, or given to a session.  A session is of any type, with its version; it
    is created by the function in a field of the server.  What [WriteTo] returns and
    what a new connection ID or a new session of the client may fail with are
    arguments, and so is the comparison of the addresses. *)

From S2P Require Import Prelude Protocol ByteOrder WireFrames WireAck WireHeader Frame AckRecv MinMax RttStats SendAlgorithm AckSent Handshake.
From S2P Require Import ConnParams FlowControl StreamFrameSorter Stream StreamsMap StreamFramer PacketNumberGenerator Path PacketPacker CubicSender.

Definition ClientHelloMinimumSize : Z := 1024.
Definition PublicResetCode : Z := 19.
Definition InvalidVersion : Z := 20.

Definition errDroppingSmallPacket : error := errors_New "dropping small packet with unknown version".
Definition errVersionNotSupported : error := errors_New "Server BUG: negotiated version not supported".
Definition errCloseSessionForNewVersion : error :=
  errors_New "closing session in order to recreate it with a new version".

Definition with_raw (hdr : PublicHeader) (raw : list Z) : PublicHeader :=
  mkPublicHeader raw (hdr_ConnectionID hdr) (hdr_PathID hdr) (hdr_VersionFlag hdr) (hdr_ResetFlag hdr)
    (hdr_TruncateConnectionID hdr) (hdr_MultipathFlag hdr) (hdr_PacketNumberLen hdr) (hdr_PacketNumber hdr)
    (hdr_VersionNumber hdr) (hdr_SupportedVersions hdr) (hdr_DiversificationNonce hdr).

(** [packet[:len(packet)-r.Len()]]. *)
Definition read_part (packet r : list Z) : list Z := take (length packet - length r) packet.

(** ** The server *)

Section Server.
Context {S : Type} (GetVersion : S -> VersionNumber) (newSession : VersionNumber -> ConnectionID -> outcome S).

(** A nil session is one that was closed not long ago. *)
Record server := mkServer {
  srv_versions : list VersionNumber;
  srv_sessions : gmap Z (option S)
}.

#[export] Instance eta_server : Eta server := fun s => mkServer (srv_versions s) (srv_sessions s).

Inductive routed :=
| Dropped
| Answered (reply : list Z)
| Delivered (session : S) (p : receivedPacket).

Abbreviation Srv := (GoM server).

(** [WriteTo] returns [writeErr]. *)
Definition answer (reply : list Z) (writeErr : option error) : Srv routed :=
  match writeErr with None => mret (Answered reply) | Some e => fail e end.

(** The session of the connection: there, closed, or created for the version. *)
Definition get_or_create_session (session : option S) (hdr : PublicHeader) (connID : ConnectionID) : Srv S :=
  match session with
  | Some s => mret s
  | None =>
      srv ← getS;
      if negb (IsSupportedVersion (srv_versions srv) (hdr_VersionNumber hdr)) then fail errVersionNotSupported
      else
        s ← lift (newSession (hdr_VersionNumber hdr) (hdr_ConnectionID hdr));
        modifyS (fun srv => srv <| srv_sessions := <[connID := Some s]> (srv_sessions srv) |>);;
        mret s
  end.

(** A public reset is parsed for the log only. *)
Definition log_public_reset {T} (known : bool) (r : list Z) : GoM T unit :=
  if known then match fst (ParsePublicReset r) with Panic p => panic p | _ => mret tt end else mret tt.

Definition handle_header (session : option S) (connID : ConnectionID) (packet r : list Z) (hdr : PublicHeader)
    (rcvTime : Time) (writeErr : option error) : Srv routed :=
  srv ← getS;
  let known := bool_decide (is_Some session) in
  let unsupported := hdr_VersionFlag hdr && negb (IsSupportedVersion (srv_versions srv) (hdr_VersionNumber hdr)) in
  if hdr_ResetFlag hdr then log_public_reset known r;; mret Dropped
  else if known && unsupported then mret Dropped
  else if unsupported then
    if zlen packet <? ClientHelloMinimumSize + zlen (hdr_Raw hdr) then fail errDroppingSmallPacket
    else answer (ComposeVersionNegotiation (hdr_ConnectionID hdr) (srv_versions srv)) writeErr
  else
    s ← get_or_create_session session hdr connID;
    mret (Delivered s (mkReceivedPacket hdr r rcvTime)).

Definition server_handlePacket (packet : list Z) (rcvTime : Time) (writeErr : option error) : Srv routed :=
  srv ← getS;
  match PeekConnectionID PerspectiveClient packet with
  | (Panic p, _) => panic p
  | (Err e, _) => fail (qerr_Wrap InvalidPacketHeader e)
  | (Ok connID, r) =>
      match srv_sessions srv !! connID with
      | Some None => mret Dropped
      | entry =>
          let session := mjoin entry in
          let version := match session with Some s => GetVersion s | None => VersionUnknown end in
          match ParsePublicHeader PerspectiveClient version r with
          | (Panic p, _) => panic p
          | (Err e, _) =>
              if decide (e = ErrPacketWithUnknownVersion)
              then answer (snd (WritePublicReset connID 0 0 [])) writeErr
              else fail (qerr_Wrap InvalidPacketHeader e)
          | (Ok hdr, r) => handle_header session connID packet r (with_raw hdr (read_part packet r)) rcvTime writeErr
          end
      end
  end.

(** The session ended; its ID is forgotten when the timer fires. *)
Definition removeConnection (id : ConnectionID) (srv : server) : server :=
  srv <| srv_sessions := <[id := None]> (srv_sessions srv) |>.
Definition forget_connection (id : ConnectionID) (srv : server) : server :=
  srv <| srv_sessions := delete id (srv_sessions srv) |>.
End Server.
Arguments server : clear implicits.
Arguments routed : clear implicits.

(** ** The client *)

Record client := mkClient {
  cl_version : VersionNumber;
  cl_connectionID : ConnectionID;
  cl_versionNegotiated : bool;
  cl_receivedVersionNegotiationPacket : bool
}.

#[global] Instance eta_client : Eta client := fun c =>
  mkClient (cl_version c) (cl_connectionID c) (cl_versionNegotiated c) (cl_receivedVersionNegotiationPacket c).

(** What the client does with its session: nothing, or the session closes, is
    replaced by one of another version, or gets the packet. *)
Inductive client_action :=
| Ignored
| ClosedRemote (e : error)
| ClosedSession (e : error)
| ReplacedSession (supportedVersions : list VersionNumber) (failed : option error)
| Received (p : receivedPacket).

Section Client.
Context (RequestConnectionIDTruncation : bool) (Versions : list VersionNumber).

Abbreviation Cl := (GoM client).

(** [newConnectionID] and [created] are what [GenerateConnectionID] and
    [createNewSession] return. *)
Definition handlePacketWithVersionFlag (hdr : PublicHeader) (newConnectionID : outcome ConnectionID)
    (created : option error) : Cl client_action :=
  c ← getS;
  if bool_decide (cl_version c ∈ hdr_SupportedVersions hdr) then mret Ignored
  else
    modifyS (fun c => c <| cl_receivedVersionNegotiationPacket := true |>);;
    let newVersion := ChooseSupportedVersion Versions (hdr_SupportedVersions hdr) in
    if newVersion =? VersionUnsupported then mret (ClosedSession (qerr_Code InvalidVersion))
    else
      modifyS (fun c => c <| cl_version := newVersion |>);;
      match newConnectionID with
      | Ok id =>
          modifyS (fun c => c <| cl_connectionID := id |>);;
          mret (ReplacedSession (hdr_SupportedVersions hdr) created)
      | Err e => modifyS (fun c => c <| cl_connectionID := 0 |>);; mret (ClosedSession e)
      | Panic p => panic p
      end.

Definition client_public_reset (sameAddr : bool) (hdr : PublicHeader) (r : list Z) : Cl client_action :=
  c ← getS;
  if negb sameAddr || negb (hdr_ConnectionID hdr =? cl_connectionID c) then mret Ignored
  else
    match fst (ParsePublicReset r) with
    | Ok pr => mret (ClosedRemote (qerr_Error PublicResetCode "Received a Public Reset for packet number %#x"
                                     [pr_RejectedPacketNumber pr]))
    | Err _ => mret Ignored
    | Panic p => panic p
    end.

Definition client_handlePacket (packet : list Z) (rcvTime : Time) (sameAddr : bool)
    (newConnectionID : outcome ConnectionID) (created : option error) : Cl client_action :=
  c ← getS;
  match ParsePublicHeader PerspectiveServer (cl_version c) packet with
  | (Panic p, _) => panic p
  | (Err _, _) => mret Ignored
  | (Ok hdr, r) =>
      if hdr_TruncateConnectionID hdr && negb RequestConnectionIDTruncation then mret Ignored
      else if negb (hdr_TruncateConnectionID hdr) && negb (hdr_ConnectionID hdr =? cl_connectionID c) then mret Ignored
      else
        let hdr := with_raw hdr (read_part packet r) in
        if hdr_ResetFlag hdr then client_public_reset sameAddr hdr r
        else if (cl_receivedVersionNegotiationPacket c || cl_versionNegotiated c) && hdr_VersionFlag hdr then mret Ignored
        else
          modifyS (fun c => if negb (hdr_VersionFlag hdr) && negb (cl_versionNegotiated c)
                            then c <| cl_versionNegotiated := true |> else c);;
          if hdr_VersionFlag hdr then handlePacketWithVersionFlag hdr newConnectionID created
          else mret (Received (mkReceivedPacket hdr r rcvTime))
  end.
End Client.

(** ** What the header tells *)

Lemma PeekConnectionID_keeps pers packet c r : PeekConnectionID pers packet = (Ok c, r) -> r = packet.
Proof.
  unfold PeekConnectionID. destruct packet as [|b rest]; [done|]. destruct (_ && _); [done|].
  destruct (negb _); [|by intros [= _ ->]]. destruct (ReadUint64 LittleEndian rest) as [[]]; [by intros [= _ ->]|done..].
Qed.

Lemma PeekConnectionID_safe pers packet : bytes_ok packet -> forall p r, PeekConnectionID pers packet <> (Panic p, r).
Proof.
  intros Hb p r. unfold PeekConnectionID. destruct packet as [|b rest]; [done|]. destruct (_ && _); [done|].
  destruct (negb _); [|done]. apply Forall_cons in Hb as [_ Hb]. assert (H : safe_read (ReadUint64 LittleEndian) (fun v => 0 <= v < 2 ^ 64)) by apply bo_safe64. specialize (H rest Hb).
  destruct (ReadUint64 LittleEndian rest) as [[]]; done.
Qed.

(** A client's packet that is parsed has the connection ID that was peeked. *)
Lemma parse_client_header version packet hdr r :
  ParsePublicHeader PerspectiveClient version packet = (Ok hdr, r) ->
  PeekConnectionID PerspectiveClient packet = (Ok (hdr_ConnectionID hdr), packet) /\
  (version = VersionUnknown -> hdr_VersionFlag hdr || hdr_ResetFlag hdr = true).
Proof.
  unfold ParsePublicHeader, PeekConnectionID. destruct packet as [|b rest]; [done|].
  intros H. apply run_bind_inv_ok in H as (b' & s1 & [= <- <-] & H). cbv zeta in H.
  destruct ((version =? VersionUnknown) && _) eqn:Eu; [done|].
  change (Perspective_eqb PerspectiveClient PerspectiveClient) with true in *.
  change (Perspective_eqb PerspectiveClient PerspectiveServer) with false in *.
  rewrite andb_true_r in *. destruct (Z.land b 8 =? 0) eqn:Et; [done|]. cbn [negb andb] in *.
  apply run_bind_inv_ok in H as (c & s2 & Hc & H). apply run_bind_inv_ok in Hc as (c' & s2' & Hc & Hz).
  rewrite Hc. destruct (c' =? 0); [done|]. injection Hz as <- <-.
  apply run_bind_inv_ok in H as (nonce & s3 & [= <- <-] & H). rewrite andb_false_r in H.
  apply run_bind_inv_ok in H as (vn & s4 & _ & H). apply run_bind_inv_ok in H as (pid & s5 & _ & H).
  apply run_bind_inv_ok in H as (pn & s6 & _ & [= <- <-]). cbn. split; [done|]. intros ->. cbn in Eu.
  by apply negb_false_iff in Eu.
Qed.

(** ** The server's decision *)

Section Routes.
Context {S : Type} (GetVersion : S -> VersionNumber) (newSession : VersionNumber -> ConnectionID -> outcome S).
Implicit Types (srv : server S).

(** A packet goes to the session of its connection, which may be a new one. *)
Definition delivers srv (s : S) (hdr : PublicHeader) srv' : Prop :=
  let id := hdr_ConnectionID hdr in
  (srv_sessions srv !! id = Some (Some s) /\ srv' = srv) \/
  (srv_sessions srv !! id = None /\ hdr_VersionFlag hdr = true /\ hdr_VersionNumber hdr ∈ srv_versions srv /\
   newSession (hdr_VersionNumber hdr) id = Ok s /\ srv' = srv <| srv_sessions := <[id := Some s]> (srv_sessions srv) |>).

Lemma IsSupportedVersion_elem versions v : IsSupportedVersion versions v = true -> v ∈ versions.
Proof.
  induction versions as [|t versions IH]; cbn [IsSupportedVersion]; [done|].
  destruct (Z.eqb_spec t v) as [->|]; [left|]. intros H. right. by apply IH.
Qed.

Definition no_bug (writeErr : option error) : Prop :=
  writeErr <> Some errVersionNotSupported /\
  forall v id, match newSession v id with Err e => e <> errVersionNotSupported | Panic _ => False | Ok _ => True end.

Definition routed_well srv (res : outcome (routed S) * server S) : Prop :=
  match res with
  | (Ok (Delivered s p), srv') => delivers srv s (rp_publicHeader p) srv'
  | (Ok _, srv') => srv' = srv
  | (Err e, srv') => srv' = srv /\ e <> errVersionNotSupported
  | (Panic _, _) => False
  end.

Lemma answer_routed srv reply writeErr : no_bug writeErr -> routed_well srv (answer reply writeErr srv).
Proof. intros [Hw _]. destruct writeErr as [e|]; [|done]. split; [done|]. intros ->. done. Qed.

Lemma handle_header_routed srv session packet r hdr rcvTime writeErr :
  bytes_ok r -> no_bug writeErr ->
  match session with
  | Some s => srv_sessions srv !! hdr_ConnectionID hdr = Some (Some s)
  | None => srv_sessions srv !! hdr_ConnectionID hdr = None /\ hdr_VersionFlag hdr || hdr_ResetFlag hdr = true
  end ->
  routed_well srv (handle_header newSession session (hdr_ConnectionID hdr) packet r hdr rcvTime writeErr srv).
Proof.
  intros Hr Hbug Hs. unfold handle_header. unfold_go. destruct (hdr_ResetFlag hdr) eqn:Er.
  { unfold log_public_reset. pose proof (ParsePublicReset_safe r Hr) as Hp.
    destruct (bool_decide _); [|done]. by destruct (ParsePublicReset r) as [[]]. }
  rewrite orb_false_r in Hs.
  destruct (hdr_VersionFlag hdr && negb (IsSupportedVersion (srv_versions srv) (hdr_VersionNumber hdr))) eqn:Eu.
  { rewrite andb_true_r. destruct (bool_decide _); [done|]. destruct (_ <? _); [done|]. by apply answer_routed. }
  rewrite andb_false_r. unfold get_or_create_session. destruct session as [s|]; [by left|].
  destruct Hs as [Hs Hv]. rewrite Hv in Eu. cbn [andb] in Eu. unfold_go. rewrite Eu.
  destruct Hbug as [_ Hn]. specialize (Hn (hdr_VersionNumber hdr) (hdr_ConnectionID hdr)).
  destruct (newSession _ _) as [s|e|p] eqn:En; [|done..]. right. apply negb_false_iff in Eu.
  cbn [rp_publicHeader]. split_and!; try done. by apply IsSupportedVersion_elem.
Qed.

(** C24: where packets go.  Whatever bytes arrive, the server does not panic, and
    changes its sessions only by adding one under the connection ID of the packet,
    when it knows none and the packet asks for a version it supports.  A packet is
    delivered to the session of its connection ID only, never to one that was
    closed, and the server never finds itself with a version that it does not
    support. *)
Theorem server_routes srv packet rcvTime writeErr :
  bytes_ok packet -> no_bug writeErr ->
  routed_well srv (server_handlePacket GetVersion newSession packet rcvTime writeErr srv).
Proof.
  intros Hb Hbug. unfold server_handlePacket. erewrite run_bind_ok by reflexivity. cbv beta.
  destruct (PeekConnectionID PerspectiveClient packet) as [[connID|e|p] r] eqn:Ep; [|done|by destruct (PeekConnectionID_safe _ _ Hb _ _ Ep)].
  pose proof (PeekConnectionID_keeps _ _ _ _ Ep) as ->.
  assert (Hrest : forall (session : option S) version,
    match session with
    | Some s => srv_sessions srv !! connID = Some (Some s)
    | None => srv_sessions srv !! connID = None /\ version = VersionUnknown
    end ->
    routed_well srv (match ParsePublicHeader PerspectiveClient version packet with
      | (Panic p, _) => panic p
      | (Err e, _) => if decide (e = ErrPacketWithUnknownVersion)
                      then answer (snd (WritePublicReset connID 0 0 [])) writeErr
                      else fail (qerr_Wrap InvalidPacketHeader e)
      | (Ok hdr, r) => handle_header newSession session connID packet r (with_raw hdr (read_part packet r)) rcvTime writeErr
      end srv)).
  { intros session version Hs. pose proof (ParsePublicHeader_safe PerspectiveClient version packet Hb) as Hp.
    destruct (ParsePublicHeader PerspectiveClient version packet) as [[hdr|e|p] r] eqn:E; [|destruct (decide _); [by apply answer_routed|done]|done].
    destruct (parse_client_header _ _ _ _ E) as [Ep' Hv]. rewrite Ep in Ep'. injection Ep' as ->.
    apply (handle_header_routed srv session packet r (with_raw hdr _)); [apply Hp|done|].
    destruct session as [s|]; [done|]. destruct Hs as [Hs Hu]. split; [done|]. by apply Hv. }
  destruct (srv_sessions srv !! connID) as [[s|]|] eqn:El; [|done|]; by apply Hrest.
Qed.
End Routes.

(** A server whose sessions are their versions; the first packet of a connection. *)
Definition sample_server_state : server Z := mkServer SupportedVersions {[1337 := Some VersionMP; 9 := None]}.

Definition sample_first_packet : list Z :=
  snd (PublicHeader_Write (mkPublicHeader [] 42 0 true false false false 1 1 Version39 [] []) Version39 PerspectiveClient [])
  ++ [1; 2; 3].

Lemma server_routes_witness :
  routed_well (fun v _ => Ok v) sample_server_state
    (server_handlePacket id (fun v _ => Ok v) sample_first_packet 0 None sample_server_state) /\
  match server_handlePacket id (fun v _ => Ok v) sample_first_packet 0 None sample_server_state with
  | (Ok (Delivered s p), srv) => s = Version39 /\ rp_data p = [1; 2; 3] /\ srv_sessions srv !! 42 = Some (Some Version39)
  | _ => False
  end.
Proof.
  split; [|vm_compute; done]. apply (server_routes id (fun v _ => Ok v) sample_server_state sample_first_packet 0 None).
  - repeat constructor; vm_compute; congruence.
  - split; [done|]. intros v i. done.
Defined.

(** ** From the packer to the peer's path *)

Section Delivery.
Context {C : Type} `{SA : !SendAlgorithm C} (crypto : CryptoSetup) (handshakeComplete : bool).
Context (now : Time) (rand : outcome (Z * Z)) (Hcrypto : crypto_ok crypto handshakeComplete).
Context (Open : list Z -> PacketNumber -> list Z -> outcome (list Z * EncryptionLevel)).
Implicit Types (p : packetPacker) (pth q : path C).

Abbreviation number pth := (png_next (pth_packetNumberGenerator pth)).
Abbreviation header := (getPublicHeader crypto handshakeComplete).

Definition own_sealer (level : EncryptionLevel) (sealer : Sealer) : Prop :=
  GetSealer crypto = (level, sealer) \/ GetSealerForCryptoStream crypto = (level, sealer).

(** The peer opens what was sealed. *)
Context (Hopen : forall level sealer, own_sealer level sealer ->
  forall payload pn ad, Open (Seal sealer payload pn ad) pn ad = Ok (payload, level)).

Lemma packs_sealed p pth pkt st :
  packs crypto handshakeComplete now rand p pth (Some pkt) st ->
  exists level sealer hb, own_sealer level sealer /\
    PublicHeader_Write (header level p pth) (pck_version p) (pck_perspective p) [] = (Ok tt, hb) /\
    sealed now sealer (header level p pth) hb level p pth (pk_frames pkt) (pk_raw pkt) /\ pk_frames pkt <> [].
Proof.
  intros H. inversion H; subst; cbn [pk_frames pk_raw].
  - eexists _, _, _. split; [right; apply surjective_pairing|]. by split_and!.
  - eexists _, _, _. split; [left; apply surjective_pairing|]. by split_and!.
  - eexists _, _, _. split; [left; apply surjective_pairing|]. by split_and!.
Qed.

(** The header as the peer has it, with the packet number inferred. *)
Definition received_header (h : PublicHeader) (hb : list Z) : PublicHeader :=
  with_number (with_raw (header_on_wire (sent_header h)) hb) (hdr_PacketNumber h).

Lemma frame_ok_received h hb level f : frame_ok h level f -> frame_ok (received_header h hb) level f.
Proof.
  assert (En : hdr_PacketNumber (received_header h hb) = hdr_PacketNumber h) by done.
  assert (El : hdr_PacketNumberLen (received_header h hb) = hdr_PacketNumberLen h)
    by (unfold received_header, sent_header; by destruct (hdr_TruncateConnectionID h)).
  destruct f; try done. cbn [frame_ok]. by rewrite En, El.
Qed.

(** The peer's path is open, has received what the sender knows to be received, and
    its handler takes the number. *)
Record accepts q pth (now1 now2 : Time) : Prop := {
  ac_open : pth_open q = true;
  ac_unacked : 0 <= pth_leastUnacked pth <= number pth;
  ac_number : number pth < 2 ^ 61 /\ number pth - pth_leastUnacked pth < 2 ^ 47;
  ac_largest : 0 <= pth_largestRcvdPacketNumber q /\ pth_leastUnacked pth <= pth_largestRcvdPacketNumber q + 1 /\
    pth_largestRcvdPacketNumber q + 1 - number pth < 2 ^ 15;
  ac_handler : forall b, fst (Handler_ReceivedPacket (pth_receivedPacketHandler q) (number pth) b now1 now2) = Ok tt
}.

Lemma sealed_unpacked level sealer hb p pth frames raw payload :
  let hdr := header level p pth in
  own_sealer level sealer -> sealed now sealer hdr hb level p pth frames raw -> frames <> [] ->
  writes (write_frames frames now (pck_version p)) payload ->
  Unpack Open (pck_version p) hb (received_header hdr hb) (Seal sealer payload (number pth) hb)
  = Ok (mkUnpackedPacket level (map (frame_on_wire now) frames)).
Proof.
  intros hdr Hs Hsealed Hne Hw. destruct (se_frames _ _ _ _ _ _ _ _ _ Hsealed) as [Hok _ Hdel _].
  assert (Hok' : Forall (frame_ok (received_header hdr hb) level) frames)
    by (eapply Forall_impl; [exact Hok|]; intros f; apply frame_ok_received).
  destruct (frames_roundtrip (pck_version p) (received_header hdr hb) level now frames Hok' Hdel) as (bs & Hw' & Hbs & Hr).
  assert (bs = payload) as -> by (specialize (Hw' []); rewrite (Hw []) in Hw'; by injection Hw' as <-).
  unfold Unpack. change (hdr_PacketNumber (received_header hdr hb)) with (number pth). rewrite (Hopen level sealer Hs).
  destruct (Z.eqb_spec (zlen payload) 0) as [E|_].
  { destruct payload; [by destruct Hbs|]. rewrite zlen_cons in E. pose proof (zlen_nonneg payload). lia. }
  by rewrite Hr by lia.
Qed.

(** The path gets the frames of the packet. *)
Lemma packet_received level sealer hb p pth frames raw payload q rcvTime now1 now2 :
  let hdr := header level p pth in
  own_sealer level sealer -> sealed now sealer hdr hb level p pth frames raw -> frames <> [] ->
  writes (write_frames frames now (pck_version p)) payload -> accepts q pth now1 now2 ->
  exists q', path_receive Open (pck_version p)
      (mkReceivedPacket (with_raw (header_on_wire (sent_header hdr)) hb) (Seal sealer payload (number pth) hb) rcvTime) now1 now2 q
    = (Ok (Some (received_header hdr hb, map (frame_on_wire now) frames)), q') /\
    pth_largestRcvdPacketNumber q' = Z.max (pth_largestRcvdPacketNumber q) (number pth).
Proof.
  intros hdr Hs Hsealed Hne Hw [Ho Hlu [Hn1 Hn2] (Hl1 & Hl2 & Hl3) Hh].
  pose proof (sealed_unpacked level sealer hb p pth frames raw payload Hs Hsealed Hne Hw) as Hu. fold hdr in Hu.
  assert (Ei : with_number (with_raw (header_on_wire (sent_header hdr)) hb)
      (InferPacketNumber (hdr_PacketNumberLen (with_raw (header_on_wire (sent_header hdr)) hb)) (pth_largestRcvdPacketNumber q)
         (hdr_PacketNumber (with_raw (header_on_wire (sent_header hdr)) hb))) = received_header hdr hb).
  { unfold received_header. f_equal.
    change (hdr_PacketNumberLen (with_raw ?h hb)) with (hdr_PacketNumberLen h).
    change (hdr_PacketNumber (with_raw ?h hb)) with (hdr_PacketNumber h). unfold header_on_wire. cbn [hdr_PacketNumberLen hdr_PacketNumber].
    destruct (sent_header_same hdr (pck_version p) (pck_perspective p)) as (_ & _ & -> & ->).
    unfold hdr, getPublicHeader, png_Peek. cbn [hdr_PacketNumberLen hdr_PacketNumber]. by apply infer_recovers. }
  unfold path_receive. unfold_go. rewrite Ho. cbn [negb rp_publicHeader rp_data rp_rcvTime]. rewrite Ei.
  change (hdr_Raw (received_header hdr hb)) with hb. rewrite Hu. cbn beta iota. cbn [up_frames].
  change (hdr_PacketNumber (received_header hdr hb)) with (number pth).
  set (q1 := if negb (Time_IsZero rcvTime) then _ else q).
  assert (E1 : pth_receivedPacketHandler q1 = pth_receivedPacketHandler q /\
    pth_largestRcvdPacketNumber q1 = pth_largestRcvdPacketNumber q) by (unfold q1; by destruct (negb _)).
  change (pth_receivedPacketHandler (_ <| pth_largestRcvdPacketNumber := _ |>)) with (pth_receivedPacketHandler q1).
  change (pth_largestRcvdPacketNumber (q1 <| pth_potentiallyFailed := false |>)) with (pth_largestRcvdPacketNumber q1).
  destruct E1 as [-> ->]. specialize (Hh (HasRetransmittableFrames (map (frame_on_wire now) frames))).
  destruct (Handler_ReceivedPacket _ _ _ _ _) as [o h]. cbn [fst] in Hh. subst o. cbn beta iota.
  eexists. split; [reflexivity|]. change (MaxPacketNumber (pth_largestRcvdPacketNumber q) (number pth) = Z.max (pth_largestRcvdPacketNumber q) (number pth)).
  apply MaxPacketNumber_max.
Qed.

(** The bytes of a packet: the header is parsed and the rest is left. *)
Lemma packet_parsed level hb p pth body :
  packer_ok handshakeComplete p pth ->
  let hdr := header level p pth in
  PublicHeader_Write hdr (pck_version p) (pck_perspective p) [] = (Ok tt, hb) ->
  ParsePublicHeader (pck_perspective p) (pck_version p) (hb ++ body) = (Ok (header_on_wire (sent_header hdr)), body) /\
  read_part (hb ++ body) body = hb.
Proof.
  intros Hok hdr Eh. pose proof (sent_header_ok crypto handshakeComplete Hcrypto level p pth Hok) as Hh.
  destruct (sent_header_same hdr (pck_version p) (pck_perspective p)) as (Ew & _).
  pose proof (header_writes _ _ _ Hh []) as Hw. fold hdr in Hw, Hh. rewrite Ew, Eh in Hw. injection Hw as ->. split.
  - apply (header_reads _ _ _ Hh).
  - unfold read_part. rewrite length_app. replace (_ + _ - _)%nat with (length (header_layout (sent_header hdr) (pck_version p) (pck_perspective p))) by lia.
    by rewrite take_app_length.
Qed.

(** What of the header decides where the packet goes. *)
Lemma sent_header_facts level p pth (h := header_on_wire (sent_header (header level p pth))) :
  hdr_ResetFlag h = false /\
  (pck_perspective p = PerspectiveServer -> hdr_VersionFlag h = false) /\
  (hdr_VersionFlag h = true -> hdr_VersionNumber h = pck_version p) /\
  hdr_TruncateConnectionID h = hdr_TruncateConnectionID (header level p pth) /\
  (hdr_TruncateConnectionID h = false -> hdr_ConnectionID h = pck_connectionID p).
Proof.
  unfold h, header_on_wire, sent_header. destruct (hdr_TruncateConnectionID (header level p pth)) eqn:Et;
    cbn [hdr_ResetFlag hdr_VersionFlag hdr_VersionNumber hdr_TruncateConnectionID hdr_ConnectionID];
    rewrite ?Et; unfold getPublicHeader; cbn; (split_and!; try done; [by intros ->|by intros ->]).
Qed.

Lemma server_delivers {S} (GetVersion : S -> VersionNumber) newSession srv s level hb p pth body rcvTime writeErr :
  packer_ok handshakeComplete p pth -> pck_perspective p = PerspectiveClient ->
  let hdr := header level p pth in
  PublicHeader_Write hdr (pck_version p) (pck_perspective p) [] = (Ok tt, hb) ->
  srv_sessions srv !! pck_connectionID p = Some (Some s) -> GetVersion s = pck_version p ->
  IsSupportedVersion (srv_versions srv) (pck_version p) = true ->
  server_handlePacket GetVersion newSession (hb ++ body) rcvTime writeErr srv
    = (Ok (Delivered s (mkReceivedPacket (with_raw (header_on_wire (sent_header hdr)) hb) body rcvTime)), srv).
Proof.
  intros Hok Hpers hdr Eh Es Ev Hsup. destruct (packet_parsed level hb p pth body Hok Eh) as [Ep Er]. fold hdr in Ep.
  destruct (sent_header_facts level p pth) as (Freset & _ & Fver & Ftr & Fid). fold hdr in Freset, Fver, Ftr, Fid.
  rewrite Hpers in Ep. destruct (parse_client_header _ _ _ _ Ep) as [Epeek _].
  assert (Htr : hdr_TruncateConnectionID (header_on_wire (sent_header hdr)) = false).
  { rewrite Ftr. unfold hdr, getPublicHeader. cbn. destruct (_ && _); [done|]. by apply (pko_truncate _ _ _ Hok). }
  rewrite (Fid Htr) in Epeek. unfold server_handlePacket. erewrite run_bind_ok by reflexivity. cbv beta.
  rewrite Epeek, Es. cbn [mjoin option_join]. rewrite Ev, Ep. cbn beta iota. rewrite Er. unfold handle_header. unfold_go.
  change (hdr_ResetFlag (with_raw ?h hb)) with (hdr_ResetFlag h).
  change (hdr_VersionFlag (with_raw ?h hb)) with (hdr_VersionFlag h).
  change (hdr_VersionNumber (with_raw ?h hb)) with (hdr_VersionNumber h). rewrite Freset.
  assert (Eu : hdr_VersionFlag (header_on_wire (sent_header hdr)) &&
    negb (IsSupportedVersion (srv_versions srv) (hdr_VersionNumber (header_on_wire (sent_header hdr)))) = false).
  { destruct (hdr_VersionFlag _); [|done]. by rewrite (Fver eq_refl), Hsup. }
  by rewrite Eu, andb_false_r.
Qed.

(** A packet of the server, at its client. *)
Lemma client_delivers truncation versions c level hb p pth body rcvTime sameAddr newID created :
  packer_ok handshakeComplete p pth -> pck_perspective p = PerspectiveServer ->
  let hdr := header level p pth in
  PublicHeader_Write hdr (pck_version p) (pck_perspective p) [] = (Ok tt, hb) ->
  cl_version c = pck_version p -> cl_connectionID c = pck_connectionID p ->
  (cpm_TruncateConnectionID (pck_connectionParameters p) = true -> truncation = true) ->
  exists c', client_handlePacket truncation versions (hb ++ body) rcvTime sameAddr newID created c
    = (Ok (Received (mkReceivedPacket (with_raw (header_on_wire (sent_header hdr)) hb) body rcvTime)), c').
Proof.
  intros Hok Hpers hdr Eh Ev Eid Htr. destruct (packet_parsed level hb p pth body Hok Eh) as [Ep Er]. fold hdr in Ep.
  destruct (sent_header_facts level p pth) as (Freset & Fver & _ & Ftr & Fid). fold hdr in Freset, Fver, Ftr, Fid.
  rewrite Hpers in Ep. unfold client_handlePacket. erewrite run_bind_ok by reflexivity. cbv beta. rewrite Ev, Ep. cbn beta iota.
  assert (Et : hdr_TruncateConnectionID (header_on_wire (sent_header hdr)) && negb truncation = false).
  { rewrite Ftr. unfold hdr, getPublicHeader. cbn. destruct (handshakeComplete && (VersionMP <=? pck_version p)); [done|].
    destruct (cpm_TruncateConnectionID _); [|done]. by rewrite Htr. }
  rewrite Et. assert (Ei : negb (hdr_TruncateConnectionID (header_on_wire (sent_header hdr))) &&
    negb (hdr_ConnectionID (header_on_wire (sent_header hdr)) =? cl_connectionID c) = false).
  { destruct (hdr_TruncateConnectionID _) eqn:E; [done|]. rewrite (Fid eq_refl), Eid, Z.eqb_refl. done. }
  rewrite Ei, Er. change (hdr_ResetFlag (with_raw ?h hb)) with (hdr_ResetFlag h).
  change (hdr_VersionFlag (with_raw ?h hb)) with (hdr_VersionFlag h). rewrite Freset, (Fver Hpers), andb_false_r.
  eexists. by erewrite run_bind_ok by reflexivity.
Qed.

(** C2: packets arrive.  What the packer of a client packs, the server gives to the
    session of the connection; what the packer of a server packs, the client gives
    to its session; and the peer's path, if it is open and not too far behind,
    infers the packet number and gets the frames of the packet in their order, each
    as the wire format has it. *)
Theorem packets_delivered {S} (GetVersion : S -> VersionNumber) newSession srv s truncation versions c p pth pkt st
    q rcvTime writeErr sameAddr newID created now1 now2 :
  packer_ok handshakeComplete p pth -> accepts q pth now1 now2 ->
  PackPacket crypto handshakeComplete now rand (p, pth) = (Ok (Some pkt), st) ->
  match pck_perspective p with
  | PerspectiveClient => srv_sessions srv !! pck_connectionID p = Some (Some s) /\ GetVersion s = pck_version p /\
      IsSupportedVersion (srv_versions srv) (pck_version p) = true
  | PerspectiveServer => cl_version c = pck_version p /\ cl_connectionID c = pck_connectionID p /\
      (cpm_TruncateConnectionID (pck_connectionParameters p) = true -> truncation = true)
  end ->
  exists rp hdr q',
    match pck_perspective p with
    | PerspectiveClient =>
        server_handlePacket GetVersion newSession (pk_raw pkt) rcvTime writeErr srv = (Ok (Delivered s rp), srv)
    | PerspectiveServer =>
        fst (client_handlePacket truncation versions (pk_raw pkt) rcvTime sameAddr newID created c) = Ok (Received rp)
    end /\
    path_receive Open (pck_version p) rp now1 now2 q = (Ok (Some (hdr, map (frame_on_wire now) (pk_frames pkt))), q') /\
    hdr_PacketNumber hdr = pk_number pkt /\
    pth_largestRcvdPacketNumber q' = Z.max (pth_largestRcvdPacketNumber q) (pk_number pkt).
Proof.
  intros Hok Hacc E Hpeer. destruct (PackPacket_run crypto handshakeComplete now rand Hcrypto p pth Hok) as (o & st' & E' & Hp).
  rewrite E in E'. injection E' as <- <-. assert (En : pk_number pkt = number pth) by (by inversion Hp).
  destruct (packs_sealed p pth pkt st Hp) as (level & sealer & hb & Hs & Eh & Hsealed & Hne).
  destruct (se_raw _ _ _ _ _ _ _ _ _ Hsealed) as (payload & Hw & Eraw).
  destruct (packet_received level sealer hb p pth _ _ payload q rcvTime now1 now2 Hs Hsealed Hne Hw Hacc) as (q' & Eq & Hl).
  eexists _, _, q'. split; [|split; [exact Eq|by rewrite En]]. rewrite Eraw. destruct (pck_perspective p) eqn:Hpers.
  - destruct Hpeer as (H1 & H2 & H3).
    destruct (client_delivers truncation versions c level hb p pth (Seal sealer payload (number pth) hb) rcvTime sameAddr newID created
      Hok Hpers ltac:(by rewrite Hpers) H1 H2 H3) as (c' & ->). done.
  - destruct Hpeer as (H1 & H2 & H3). apply server_delivers; try done. by rewrite Hpers.
Qed.
End Delivery.

Definition sample_open (data : list Z) (pn : PacketNumber) (ad : list Z) : outcome (list Z * EncryptionLevel) :=
  Ok (map (Z.lxor pn) (take (length data - 12) data), EncryptionForwardSecure).

Lemma sample_open_seals payload pn ad : sample_open (Seal sample_sealer payload pn ad) pn ad = Ok (payload, EncryptionForwardSecure).
Proof.
  unfold sample_open. cbn [Seal sample_sealer]. rewrite length_app, length_map. change (length (repeat 0 12)) with 12%nat.
  replace (length payload + 12 - 12)%nat with (length (map (Z.lxor pn) payload)) by (rewrite length_map; lia).
  rewrite take_app_length, map_map. do 2 f_equal. rewrite <- (map_id payload) at 2. apply map_ext. intros x.
  by rewrite <- Z.lxor_assoc, Z.lxor_nilpotent, Z.lxor_0_l.
Qed.

Lemma sample_accepts : accepts sample_path sample_path 0 0.
Proof. by split. Qed.

Lemma packets_delivered_witness :
  exists pkt st rp hdr q',
    PackPacket sample_crypto true 905000 (Ok (1, 2)) (sample_packer, sample_path) = (Ok (Some pkt), st) /\
    server_handlePacket id (fun v _ => Ok v) (pk_raw pkt) 0 None sample_server_state
      = (Ok (Delivered VersionMP rp), sample_server_state) /\
    path_receive sample_open VersionMP rp 0 0 sample_path = (Ok (Some (hdr, map (frame_on_wire 905000) (pk_frames pkt))), q').
Proof.
  destruct (PackPacket sample_crypto true 905000 (Ok (1, 2)) (sample_packer, sample_path)) as [o st] eqn:E.
  assert (Hs : match fst (PackPacket sample_crypto true 905000 (Ok (1, 2)) (sample_packer, sample_path)) with
    | Ok (Some _) => true | _ => false end = true) by (vm_compute; reflexivity).
  rewrite E in Hs. cbn [fst] in Hs. destruct o as [[pkt|]|e|pa]; try discriminate Hs. clear Hs.
  destruct (packets_delivered sample_crypto true 905000 (Ok (1, 2)) sample_crypto_ok sample_open
    ltac:(intros level sealer [[= <- <-]|[= <- <-]]; apply sample_open_seals) id (fun v _ => Ok v) sample_server_state VersionMP
    false [] (mkClient 0 0 false false) sample_packer sample_path pkt st sample_path 0 None true (Ok 1) None 0 0
    sample_packer_ok sample_accepts E ltac:(split_and!; reflexivity)) as (rp & hdr & q' & H1 & H2 & _).
  exists pkt, st, rp, hdr, q'. split; [reflexivity|]. split; [exact H1|exact H2].
Defined.
