(* ===== verification/Session.v ===== *)
(** * session.go and path_manager.go: the frames of a packet and the paths

    The state of a session has its paths, the packer with the stream framer, the
    streams and the flow control manager that they share, the packets it has put
    aside and what it remembers for its run loop.  The session's RTT statistics are
    those of the initial path, shared with the flow control manager; the two maps of
    the remote RTTs are one map.

    Readings of the clock, random numbers and the orders in which Go visits a map
    come from functions of a counter that every use advances; these and the sockets
    are an interface, [Env].  The packets written are kept.  The congestion controllers of the paths are
    independent of each other here. *)

From S2P Require Import Prelude Protocol ByteOrder WireFrames WireAck WireHeader Frame AckRecv MinMax RttStats SendAlgorithm AckSent Handshake.
From S2P Require Import Float ConnParams FlowControl StreamFrameSorter Stream StreamsMap StreamFramer PacketNumberGenerator Path PacketPacker Routing.

Definition MaxUndecryptablePackets : Z := 10.
Definition PublicResetTimeout : Duration := 500 * Millisecond.
Definition MaxSessionUnprocessedPackets : Z := DefaultMaxCongestionWindow.
Definition Minute : Duration := 60 * Second.

Definition PeerGoingAway : Z := 16.
Definition InternalError : Z := 1.
Definition NetworkIdleTimeout : Z := 25.
Definition ErrHandshakeTimeout : Z := 67.

Definition errRstStreamOnInvalidStream : error := errors_New "RST_STREAM received for unknown stream".
Definition errWindowUpdateOnClosedStream : error := errors_New "WINDOW_UPDATE received for an already closed stream".
Definition errUnknownPathToClose : error := errors_New "Unknown path ID to close".
Definition errGoaway : error := errors_New "unimplemented: handling GOAWAY frames".
Definition errNilPing : error := errors_New "Session BUG: expected ping packet not to be nil".
Definition errExistingPath : error := errors_New "trying to create already existing path".
Definition errOddPath : error := errors_New "server tries to create odd pathID".
Definition errEvenPath : error := errors_New "client tries to create even pathID".

Definition ErrHOLExperiment : error := qerr_Error InvalidCryptoMessageParameter "HOL experiment. Unsupported" [].
Definition ErrNSTPExperiment : error := qerr_Error InvalidCryptoMessageParameter "NSTP experiment. Unsupported" [].

Record closeError := mkCloseError { ce_err : option error; ce_remote : bool }.

(** The number of packets sent on a path, its tokens, those of the packets not
    acknowledged, and the path a packet was sent on. *)
Record scheduler := mkScheduler {
  sch_quotas : gmap Z Z;
  sch_tokens : gmap Z float64;
  sch_curQuotas : gmap Z Z;
  sch_packetPaths : gmap Z Z
}.

#[global] Instance eta_scheduler : Eta scheduler := fun s =>
  mkScheduler (sch_quotas s) (sch_tokens s) (sch_curQuotas s) (sch_packetPaths s).

Record pathManager := mkPathManager {
  pm_nxtPathID : PathID;
  pm_remoteAddrs4 : list UDPAddr;
  pm_remoteAddrs6 : list UDPAddr;
  pm_advertisedLocAddrs : list UDPAddr
}.

#[global] Instance eta_pathManager : Eta pathManager := fun m =>
  mkPathManager (pm_nxtPathID m) (pm_remoteAddrs4 m) (pm_remoteAddrs6 m) (pm_advertisedLocAddrs m).

(** The AEAD side of the crypto setup. *)
Definition opener : Type := list Z -> PacketNumber -> list Z -> outcome (list Z * EncryptionLevel).

(** A packet with the local and the remote address that it came over. *)
Abbreviation netPacket := (receivedPacket * (UDPAddr * UDPAddr))%type.

Record session {C : Type} := mkSession {
  ses_perspective : Perspective;
  ses_version : VersionNumber;
  ses_KeepAlive : bool;
  ses_HandshakeTimeout : Duration;
  ses_createPaths : bool;
  ses_handshakeComplete : bool;
  ses_cryptoSetup : CryptoSetup;
  ses_open : opener;
  ses_divNonces : list (list Z);
  ses_paths : gmap Z (path C);
  ses_addrs : gmap Z (UDPAddr * UDPAddr);
  ses_closedPaths : gset Z;
  ses_packer : packetPacker;
  ses_peerBlocked : bool;
  ses_receivedPackets : list netPacket;
  ses_undecryptablePackets : list netPacket;
  ses_receivedTooManyUndecrytablePacketsTime : Time;
  ses_lastPathsFrameSent : Time;
  ses_sessionCreationTime : Time;
  ses_lastNetworkActivityTime : Time;
  ses_keepAlivePingSent : bool;
  ses_sendingScheduled : bool;
  ses_closeErr : option closeError;
  ses_scheduler : scheduler;
  ses_pathManager : pathManager;
  ses_pathManagerLaunched : bool;
  ses_probability : gmap Z float64;
  ses_startTime : Z;
  ses_sentSize : Z;
  ses_written : list (PathID * list Z);
  ses_tick : nat
}.
Arguments session : clear implicits.

#[global] Instance eta_session C : Eta (session C) := fun s =>
  mkSession C (ses_perspective s) (ses_version s) (ses_KeepAlive s) (ses_HandshakeTimeout s) (ses_createPaths
    s) (ses_handshakeComplete s) (ses_cryptoSetup s) (ses_open s) (ses_divNonces s) (ses_paths s) (ses_addrs
    s) (ses_closedPaths s) (ses_packer s) (ses_peerBlocked s) (ses_receivedPackets s)
    (ses_undecryptablePackets s) (ses_receivedTooManyUndecrytablePacketsTime s) (ses_lastPathsFrameSent s)
    (ses_sessionCreationTime s) (ses_lastNetworkActivityTime s) (ses_keepAlivePingSent s)
    (ses_sendingScheduled s) (ses_closeErr s) (ses_scheduler s) (ses_pathManager s) (ses_pathManagerLaunched
    s) (ses_probability s) (ses_startTime s) (ses_sentSize s) (ses_written s) (ses_tick s).

Record Config := mkConfig {
  cfg_HandshakeTimeout : Duration;
  cfg_IdleTimeout : Duration;
  cfg_KeepAlive : bool;
  cfg_MaxReceiveStreamFlowControlWindow : Z;
  cfg_MaxReceiveConnectionFlowControlWindow : Z
}.

Definition scheduler_setup : scheduler := mkScheduler ∅ ∅ ∅ ∅.

(** [remote] is the address of the peer on the initial path. *)
Definition pathManager_setup (pers : Perspective) (remote : UDPAddr) : pathManager :=
  let v4 := match IP_To4 (addr_IP remote) with Some _ => true | None => false end in
  mkPathManager (match pers with PerspectiveClient => 1 | PerspectiveServer => 2 end)
    (if v4 then [remote] else []) (if v4 then [] else [remote]) [].

(** The crypto stream: the client opens it, the server takes it from the client. *)
Definition open_crypto_stream (pers : Perspective) : list sm_op :=
  match pers with
  | PerspectiveServer => [SmGet 1; SmAccept]
  | PerspectiveClient => [SmOpen]
  end.

(** What the session gets from outside: the readings of the clock, the random numbers
    and the orders in which [range] visits the keys of a map, one for every use; the
    comparison of addresses by their text, the addresses of this host, what writing to a
    socket returns, and the text of an error. *)
Class Env := mkEnv {
  clock : nat -> Time;
  rand : nat -> outcome (Z * Z);
  randFloat64 : nat -> float64;
  order : nat -> list Z -> list Z;
  sameAddr : UDPAddr -> UDPAddr -> bool;
  localAddrs : list UDPAddr;
  connWrite : PathID -> list Z -> option error;
  errorMessage : error -> list Z
}.

(** The congestion controller of a new path, and [UpdateBandwidth] of an OLIA sender. *)
Class Controllers (C : Type) := mkControllers {
  newController : PathID -> C;
  updateBandwidth : C -> C
}.

Section Session.
Context {C : Type} `{SA : !SendAlgorithm C, EN : !Env, CT : !Controllers C}.
Implicit Types (s : session C) (pth : path C).

Abbreviation Ses := (GoM (session C)).

Definition tick : Ses nat := fun s => (Ok (ses_tick s), s <| ses_tick := S (ses_tick s) |>).
Definition time_Now : Ses Time := n ← tick; mret (clock n).
Definition random : Ses (outcome (Z * Z)) := n ← tick; mret (rand n).
Definition rand_Float64 : Ses float64 := n ← tick; mret (randFloat64 n).

(** The keys of the map of paths, as [range] visits them. *)
Definition range_paths : Ses (list PathID) :=
  n ← tick; s ← getS; mret (order n (map fst (map_to_list (ses_paths s)))).

(** ** The parts of the state *)

Definition ses_framer s : streamFramer := pck_streamFramer (ses_packer s).
Definition set_framer (f : streamFramer) s : session C := s <| ses_packer := (ses_packer s) <| pck_streamFramer := f |> |>.

Definition on_framer {A} (m : Fr A) : Ses A := fun s =>
  let '(o, f) := m (ses_framer s) in (o, set_framer f s).
Definition on_streams {A} (m : SM A) : Ses A := on_framer (fr_streams m).
Definition on_flow {A} (m : GoM flowControlManager A) : Ses A := on_framer (fun f =>
  let '(o, fcm) := m (sfr_flowControlManager f) in (o, f <| sfr_flowControlManager := fcm |>)).

(** The RTT statistics of the initial path are those of the flow control manager. *)
Definition share_rtt (id : PathID) pth s : session C :=
  if id =? InitialPathID then
    let f := ses_framer s in
    set_framer (f <| sfr_flowControlManager := (sfr_flowControlManager f)
                     <| fcm_rttStats := sph_rttStats (pth_sentPacketHandler pth) |> |>) s
  else s.

Definition put_path (id : PathID) pth s : session C :=
  share_rtt id pth (s <| ses_paths := <[id := pth]> (ses_paths s) |>).

(** Run an operation of a path; a path that is not there is a nil pointer. *)
Definition on_path {A} (id : PathID) (m : GoM (path C) A) : Ses A := fun s =>
  match ses_paths s !! id with
  | None => (Panic "nil pointer dereference", s)
  | Some pth => let '(o, pth) := m pth in (o, put_path id pth s)
  end.

Definition on_handler {A} (m : GoM (sentPacketHandler C) A) : GoM (path C) A := fun pth =>
  let '(o, h) := m (pth_sentPacketHandler pth) in (o, pth <| pth_sentPacketHandler := h |>).

(** Run an operation of the packer on a path. *)
Definition on_packer {A} (id : PathID) (m : GoM (packetPacker * path C) A) : Ses A := fun s =>
  match ses_paths s !! id with
  | None => (Panic "nil pointer dereference", s)
  | Some pth => let '(o, (p, pth)) := m (ses_packer s, pth) in (o, put_path id pth (s <| ses_packer := p |>))
  end.

Definition queue_control (frame : Frame) (id : PathID) : Ses unit :=
  modifyS (fun s => s <| ses_packer := QueueControlFrame frame id (ses_packer s) |>).

(** ** Closing *)

(** [closeOnce]: the first call counts. *)
Definition close_once (e : closeError) s : session C :=
  match ses_closeErr s with None => s <| ses_closeErr := Some e |> | Some _ => s end.
Definition closeLocal (e : option error) s : session C := close_once (mkCloseError e false) s.
Definition closeRemote (e : error) s : session C := close_once (mkCloseError (Some e) true) s.

Definition scheduleSending s : session C := s <| ses_sendingScheduled := true |>.

(** The channel takes no more than it holds. *)
Definition session_handlePacket (p : netPacket) s : session C :=
  if zlen (ses_receivedPackets s) <? MaxSessionUnprocessedPackets
  then s <| ses_receivedPackets := ses_receivedPackets s ++ [p] |> else s.

(** ** Sending a packet *)

Definition has_stream_frame (frames : list Frame) : bool :=
  existsb (fun f => match f with FStream _ => true | _ => false end) frames.

Definition conn_Write (id : PathID) (raw : list Z) : Ses unit :=
  modifyS (fun s => s <| ses_written := ses_written s ++ [(id, raw)] |>);;
  match connWrite id raw with None => mret tt | Some e => fail e end.

Definition sendPackedPacket (packet : packedPacket) (id : PathID) : Ses unit :=
  now ← time_Now;
  on_path id (on_handler (SentPacket (mkPacket (pk_number packet) (pk_frames packet) (zlen (pk_raw packet))
                                        (pk_encryptionLevel packet) zeroTime) now));;
  (if has_stream_frame (pk_frames packet) then
     s ← getS;
     (if ses_startTime s =? 0 then t ← time_Now; modifyS (fun s => s <| ses_startTime := t |>) else mret tt);;
     modifyS (fun s => s <| ses_sentSize := i64 (ses_sentSize s + zlen (pk_raw packet)) |>)
   else mret tt);;
  conn_Write id (pk_raw packet).

Definition sendPing (id : PathID) : Ses unit :=
  s ← getS; now ← time_Now; r ← random;
  packet ← on_packer id (PackPing (ses_cryptoSetup s) (ses_handshakeComplete s) now r mkPingFrame);
  match packet with
  | None => fail errNilPing
  | Some packet => sendPackedPacket packet id
  end.

(** ** The path manager *)

Definition path_rtt pth : Duration := SmoothedRTT (sph_rttStats (pth_sentPacketHandler pth)).

Definition schedulePathsFrame : Ses unit :=
  now ← time_Now;
  modifyS (fun s => s <| ses_lastPathsFrameSent := now |>);;
  ids ← range_paths;
  s ← getS;
  let paths := omap (fun id => (fun pth => (id, pth_potentiallyFailed pth, path_rtt pth)) <$> ses_paths s !! id) ids in
  on_framer (modifyS (AddPathsFrameForTransmission paths)).

Definition getIPVersion (addr : UDPAddr) : Z := match IP_To4 (addr_IP addr) with Some _ => 4 | None => 6 end.

(** Addresses as strings are equal when [sameAddr] says so. *)
Fixpoint advertise_each (addrs : list UDPAddr) : Ses unit :=
  match addrs with
  | [] => mret tt
  | addr :: addrs =>
      s ← getS;
      (if existsb (sameAddr addr) (pm_advertisedLocAddrs (ses_pathManager s)) then mret tt
       else
         on_framer (modifyS (AddAddressForTransmission (getIPVersion addr) addr));;
         modifyS (fun s => s <| ses_pathManager := (ses_pathManager s)
                    <| pm_advertisedLocAddrs := addr :: pm_advertisedLocAddrs (ses_pathManager s) |> |>));;
      advertise_each addrs
  end.
Definition advertiseAddresses : Ses unit := advertise_each localAddrs.

(** The callback of the sent packet handler is that of [path_OnAlarm] below. *)
Definition new_path (id : PathID) : Ses (path C) :=
  now ← time_Now; s ← getS;
  mret (path_setup id (ses_version s) (newController id) None now).

Definition createPath (locAddr remAddr : UDPAddr) : Ses unit :=
  s ← getS;
  if existsb (fun '(_, (loc, rem)) => sameAddr locAddr loc && sameAddr remAddr rem) (map_to_list (ses_addrs s)) then mret tt
  else
    let id := pm_nxtPathID (ses_pathManager s) in
    pth ← new_path id;
    modifyS (fun s => put_path id pth s <| ses_addrs := <[id := (locAddr, remAddr)]> (ses_addrs s) |>
                        <| ses_pathManager := (ses_pathManager s) <| pm_nxtPathID := u8 (id + 2) |> |>);;
    sendPing id.

Fixpoint create_to (locAddr : UDPAddr) (remAddrs : list UDPAddr) : Ses unit :=
  match remAddrs with
  | [] => mret tt
  | remAddr :: remAddrs => createPath locAddr remAddr;; create_to locAddr remAddrs
  end.

Fixpoint create_from (locAddrs : list UDPAddr) : Ses unit :=
  match locAddrs with
  | [] => mret tt
  | locAddr :: locAddrs =>
      s ← getS;
      create_to locAddr (if getIPVersion locAddr =? 4 then pm_remoteAddrs4 (ses_pathManager s)
                         else pm_remoteAddrs6 (ses_pathManager s));;
      create_from locAddrs
  end.

Definition createPaths : Ses unit :=
  s ← getS;
  match ses_perspective s with
  | PerspectiveServer => advertiseAddresses
  | PerspectiveClient => create_from localAddrs;; schedulePathsFrame
  end.

Definition add_remote_path (id : PathID) (addrs : UDPAddr * UDPAddr) : Ses unit :=
  pth ← new_path id;
  modifyS (fun s => put_path id pth s <| ses_addrs := <[id := addrs]> (ses_addrs s) |>).

(** [addrs] are the local and the remote address that the packet came over. *)
Definition createPathFromRemote (id : PathID) (addrs : UDPAddr * UDPAddr) : Ses unit :=
  s ← getS;
  match ses_paths s !! id with
  | Some _ => fail errExistingPath
  | None =>
      match ses_perspective s with
      | PerspectiveClient => guard (id mod 2 =? 0) errOddPath
      | PerspectiveServer => guard (negb (id mod 2 =? 0)) errEvenPath
      end;;
      add_remote_path id addrs
  end.

Definition handleAddAddressFrame (f : AddAddressFrame) : Ses unit :=
  (if aa_IPVersion f =? 4 then
     modifyS (fun s => s <| ses_pathManager := (ses_pathManager s)
                <| pm_remoteAddrs4 := pm_remoteAddrs4 (ses_pathManager s) ++ [aa_Addr f] |> |>)
   else if aa_IPVersion f =? 6 then
     modifyS (fun s => s <| ses_pathManager := (ses_pathManager s)
                <| pm_remoteAddrs6 := pm_remoteAddrs6 (ses_pathManager s) ++ [aa_Addr f] |> |>)
   else fail ErrUnknownIPVersion);;
  s ← getS;
  if ses_createPaths s then createPaths else mret tt.

(** The path closes as soon as its goroutine takes the signal: at once, here. *)
Definition pathManager_closePath (id : PathID) : Ses unit :=
  s ← getS;
  match ses_paths s !! id with
  | None => mret tt
  | Some pth => if pth_open pth then on_path id (modifyS path_close) else mret tt
  end.

Definition closePath (id : PathID) (sendClosePathFrame : bool) : Ses unit :=
  s ← getS;
  match ses_paths s !! id with
  | None => fail errUnknownPathToClose
  | Some _ =>
      if decide (id ∈ ses_closedPaths s) then mret tt
      else
        pathManager_closePath id;;
        modifyS (fun s => s <| ses_closedPaths := {[id]} ∪ ses_closedPaths s |>);;
        if negb sendClosePathFrame then mret tt
        else
          on_path id (on_handler (modifyS SetInflightAsLost));;
          frame ← on_path id (fun pth => (path_GetClosePathFrame pth, pth));
          on_framer (modifyS (AddClosePathFrameForTransmission frame))
  end.

(** ** The frames of a packet *)

Definition handleStreamFrame (frame : StreamFrame) : Ses unit :=
  str ← on_streams (GetOrOpenStream (sf_StreamID frame));
  match str with
  | None => mret tt
  | Some str =>
      on_streams (fun '(m, fcm) =>
        let '(o, (str, fcm)) := AddStreamFrame frame (str, fcm) in (o, (update_stream str m, fcm)))
  end.

Definition handleWindowUpdateFrame (frame : WindowUpdateFrame) : Ses unit :=
  (if negb (wu_StreamID frame =? 0) then
     str ← on_streams (GetOrOpenStream (wu_StreamID frame));
     match str with None => fail errWindowUpdateOnClosedStream | Some _ => mret tt end
   else mret tt);;
  on_flow (UpdateWindow (wu_StreamID frame) (wu_ByteOffset frame));;
  mret tt.

Definition queueResetStreamFrame (id : StreamID) (offset : ByteCount) : Ses unit :=
  queue_control (FRstStream (mkRstStreamFrame id 0 offset)) InitialPathID;;
  modifyS scheduleSending.

Definition handleRstStreamFrame (frame : RstStreamFrame) : Ses unit :=
  str ← on_streams (GetOrOpenStream (rst_StreamID frame));
  match str with
  | None => fail errRstStreamOnInvalidStream
  | Some str =>
      let '(reset, str) := RegisterRemoteError str (fmt_Errorf "RST_STREAM received with code %d" [rst_ErrorCode frame]) in
      on_framer (modifyS (fun f => f <| sfr_streamsMap := update_stream str (sfr_streamsMap f) |>));;
      match reset with Some (id, offset) => queueResetStreamFrame id offset | None => mret tt end;;
      on_flow (ResetStream (rst_StreamID frame) (rst_ByteOffset frame))
  end.

(** The packets that the ranges of an ACK frame name. *)
Definition range_numbers (ranges : list AckRange) : list Z :=
  ranges ≫= fun r => seqZ (First r) (Last r - First r + 1).

Definition release_quota (sch : scheduler) (pn : PacketNumber) : scheduler :=
  let id := default 0 (sch_packetPaths sch !! pn) in
  let quota := default 0 (sch_curQuotas sch !! id) in
  sch <| sch_curQuotas := if 0 <? quota then <[id := quota - 1]> (sch_curQuotas sch) else sch_curQuotas sch |>
      <| sch_packetPaths := delete pn (sch_packetPaths sch) |>.

(** [oliaSenders] has the paths that a multipath session added. *)
Definition update_bandwidth (version : VersionNumber) (id : PathID) (h : sentPacketHandler C) : sentPacketHandler C :=
  if negb (id =? InitialPathID) && (VersionMP <=? version)
  then h <| sph_congestion := updateBandwidth (sph_congestion h) |> else h.

(** An error of [ReceivedAck] is returned at the end. *)
Definition path_ReceivedAck (frame : AckFrame) : Ses (option error) :=
  t1 ← time_Now; t2 ← time_Now; t3 ← time_Now; s ← getS;
  on_path (ack_PathID frame) (fun pth =>
    let '(o, h) := ReceivedAck frame (pth_lastRcvdPacketNumber pth) (pth_lastNetworkActivityTime pth) t1 t2 t3
                     (pth_sentPacketHandler pth) in
    let pth := pth <| pth_sentPacketHandler := update_bandwidth (ses_version s) (pth_pathID pth) h |> in
    match o with
    | Ok _ => (Ok None, pth)
    | Err e => (Ok (Some e), pth)
    | Panic p => (Panic p, pth)
    end).

Definition update_session_rtt (id : PathID) : Ses unit :=
  s ← getS;
  match ses_paths s !! id with
  | None => mret tt
  | Some pth =>
      on_path InitialPathID (modifyS (fun p0 =>
        if path_rtt p0 <? path_rtt pth
        then p0 <| pth_sentPacketHandler := (pth_sentPacketHandler p0)
                   <| sph_rttStats := UpdateSessionRTT (sph_rttStats (pth_sentPacketHandler p0)) (path_rtt pth) |> |>
        else p0))
  end.

Definition handleAckFrame (frame : AckFrame) : Ses unit :=
  err ← path_ReceivedAck frame;
  match err with
  | None =>
      modifyS (fun s => s <| ses_scheduler := foldl release_quota (ses_scheduler s) (range_numbers (ack_AckRanges frame)) |>);;
      update_session_rtt (ack_PathID frame)
  | Some e => fail e
  end.

(** Its error is dropped by the caller. *)
Definition handleClosePathFrame (frame : ClosePathFrame) : Ses unit :=
  closePath (cp_PathID frame) false;;
  t ← time_Now;
  on_path (cp_PathID frame) (fun pth =>
    on_handler (ReceivedClosePath frame (pth_lastRcvdPacketNumber pth) (pth_lastNetworkActivityTime pth) t) pth).

Definition drop_error (m : Ses unit) : Ses unit := fun s =>
  match m s with (Err _, s) => (Ok tt, s) | r => r end.

(** The rounds [i], [i + 1], ... of the loop over the paths, [n] in number. *)
Fixpoint handle_paths (f : PathsFrame) (i n : nat) : Ses unit :=
  match n with
  | O => mret tt
  | S n =>
      match pf_PathIDs f !! i, pf_RemoteRTTs f !! i with
      | Some id, Some rtt =>
          on_flow (modifyS (fun f => f <| fcm_remoteRTTs := <[id := rtt]> (fcm_remoteRTTs f) |>));;
          (if 30 * Minute <=? rtt
           then on_path id (modifyS (fun pth => pth <| pth_potentiallyFailed := true |>)) else mret tt);;
          handle_paths f (S i) n
      | _, _ => panic "index out of range"
      end
  end.

(** [id] is the path that the packet came over. *)
Definition handle_frame (id : PathID) (f : Frame) : Ses unit :=
  match f with
  | FStream f => handleStreamFrame f
  | FAck f => handleAckFrame f
  | FConnectionClose f => modifyS (closeRemote (qerr_Error (cc_ErrorCode f) "%s" (cc_ReasonPhrase f)))
  | FGoaway _ => fail errGoaway
  | FStopWaiting f =>
      on_path id (modifyS (fun pth => pth <| pth_receivedPacketHandler :=
                    SetLowerLimit (pth_receivedPacketHandler pth) (u64 (sw_LeastUnacked f - 1)) |>))
  | FRstStream f => handleRstStreamFrame f
  | FWindowUpdate f => handleWindowUpdateFrame f
  | FBlocked _ => modifyS (fun s => s <| ses_peerBlocked := true |>)
  | FPing _ => mret tt
  | FAddAddress f => fun s => match handleAddAddressFrame f s with
                              | (Ok _, s) => schedulePathsFrame s
                              | (Err e, s) => (schedulePathsFrame;; fail e) s
                              | r => r
                              end
  | FClosePath f => drop_error (handleClosePathFrame f)
  | FPaths f => handle_paths f 0 (Z.to_nat (pf_NumPaths f))
  end.

Definition ignored_error (e : error) : bool :=
  bool_decide (e = ErrDuplicateOrOutOfOrderAck) || bool_decide (e = errRstStreamOnInvalidStream)
  || bool_decide (e = errWindowUpdateOnClosedStream).

Fixpoint handleFrames (id : PathID) (fs : list Frame) : Ses unit :=
  match fs with
  | [] => mret tt
  | f :: fs => fun s =>
      match handle_frame id f s with
      | (Ok _, s) => handleFrames id fs s
      | (Err e, s) => if ignored_error e then handleFrames id fs s else (Err e, s)
      | r => r
      end
  end.

(** ** Received packets *)

(** Run an operation and look at its error. *)
Definition try {A} (m : Ses A) : Ses (error + A) := fun s =>
  match m s with
  | (Ok a, s) => (Ok (inr a), s)
  | (Err e, s) => (Ok (inl e), s)
  | (Panic p, s) => (Panic p, s)
  end.

Definition is_code (code : Z) (e : error) : bool :=
  match e with qerr_Error c _ _ | qerr_Wrap c _ => c =? code | _ => false end.

Definition set_remote_addr (id : PathID) (rem : UDPAddr) s : session C :=
  match ses_addrs s !! id with
  | Some (loc, _) => s <| ses_addrs := <[id := (loc, rem)]> (ses_addrs s) |>
  | None => s
  end.

(** A server follows its client, unless the packet could not be decrypted. *)
Definition follow_client (id : PathID) (rem : UDPAddr) (received : error + option (PublicHeader * list Frame)) s : session C :=
  match ses_perspective s, received with
  | PerspectiveServer, inr (Some _) => set_remote_addr id rem s
  | PerspectiveServer, inl e => if is_code DecryptionFailure e then s else set_remote_addr id rem s
  | _, _ => s
  end.

Definition path_handlePacketImpl (id : PathID) (p : netPacket) : Ses unit :=
  let '(pkt, (_, rem)) := p in
  t1 ← time_Now; t2 ← time_Now; s ← getS;
  received ← try (on_path id (path_receive (ses_open s) (ses_version s) pkt t1 t2));
  modifyS (follow_client id rem received);;
  match received with
  | inl e => fail e
  | inr None => mret tt
  | inr (Some (_, frames)) => handleFrames id frames
  end.

(** The nonce goes to the handshake of a client; then there was activity. *)
Definition note_packet (pkt : receivedPacket) s : session C :=
  let nonce := hdr_DiversificationNonce (rp_publicHeader pkt) in
  let s := match ses_perspective s with
           | PerspectiveClient => if 0 <? zlen nonce then s <| ses_divNonces := ses_divNonces s ++ [nonce] |> else s
           | PerspectiveServer => s
           end in
  s <| ses_lastNetworkActivityTime := rp_rcvTime pkt |> <| ses_keepAlivePingSent := false |>.

Definition session_handlePacketImpl (p : netPacket) : Ses unit :=
  let '(pkt, addrs) := p in
  let id := hdr_PathID (rp_publicHeader pkt) in
  modifyS (note_packet pkt);;
  s ← getS;
  match ses_paths s !! id with
  | Some _ => mret tt
  | None => createPathFromRemote id addrs
  end;;
  path_handlePacketImpl id p.

(** A packet without a time gets one when it is handled. *)
Definition stamp (pkt : receivedPacket) : Ses receivedPacket :=
  if Time_IsZero (rp_rcvTime pkt)
  then now ← time_Now; mret (mkReceivedPacket (rp_publicHeader pkt) (rp_data pkt) now)
  else mret pkt.

(** The packet with the number that the path inferred, which stays in its header. *)
Definition renumber (pkt : receivedPacket) s : receivedPacket :=
  let hdr := rp_publicHeader pkt in
  match ses_paths s !! hdr_PathID hdr with
  | None => pkt
  | Some pth => mkReceivedPacket (with_number hdr (InferPacketNumber (hdr_PacketNumberLen hdr)
                                    (pth_largestRcvdPacketNumber pth) (hdr_PacketNumber hdr)))
                  (rp_data pkt) (rp_rcvTime pkt)
  end.

(** ** Packets that cannot be decrypted yet *)

Definition tryQueueingUndecryptablePacket (p : netPacket) : Ses unit :=
  s ← getS;
  if ses_handshakeComplete s then mret tt
  else if MaxUndecryptablePackets <? zlen (ses_undecryptablePackets s) + 1 then
    if Time_IsZero (ses_receivedTooManyUndecrytablePacketsTime s)
    then now ← time_Now; modifyS (fun s => s <| ses_receivedTooManyUndecrytablePacketsTime := now |>)
    else mret tt
  else modifyS (fun s => s <| ses_undecryptablePackets := ses_undecryptablePackets s ++ [p] |>).

Definition tryDecryptingQueuedPackets s : session C :=
  (foldl (fun s p => session_handlePacket p s) s (ses_undecryptablePackets s)) <| ses_undecryptablePackets := [] |>.

(** The case of the run loop that takes a packet; [true] goes on with the loop's
    body, [false] is [continue]. *)
Definition receive_packet : Ses bool :=
  s ← getS;
  match ses_receivedPackets s with
  | [] => mret false
  | (pkt, addrs) :: ps =>
      putS (s <| ses_receivedPackets := ps |>);;
      pkt ← stamp pkt;
      o ← try (session_handlePacketImpl (pkt, addrs));
      match o with
      | inl e =>
          s ← getS;
          (if is_code DecryptionFailure e then tryQueueingUndecryptablePacket (renumber pkt s, addrs)
           else modifyS (closeLocal (Some e)));;
          mret false
      | inr _ => mret true
      end
  end.

(** ** Timers *)

Definition idleTimeout s : Duration := GetIdleConnectionStateLifetime (pck_connectionParameters (ses_packer s)).

(** The deadline that [maybeResetTimer] sets. *)
Definition session_deadline s : Time :=
  let deadline :=
    if ses_KeepAlive s && ses_handshakeComplete s && negb (ses_keepAlivePingSent s)
    then Time_Add (ses_lastNetworkActivityTime s) (Z.quot (idleTimeout s) 2)
    else Time_Add (ses_lastNetworkActivityTime s) (idleTimeout s) in
  let deadline :=
    if negb (ses_handshakeComplete s)
    then MinTime deadline (Time_Add (ses_sessionCreationTime s) (ses_HandshakeTimeout s)) else deadline in
  if negb (Time_IsZero (ses_receivedTooManyUndecrytablePacketsTime s))
  then MinTime deadline (Time_Add (ses_receivedTooManyUndecrytablePacketsTime s) PublicResetTimeout) else deadline.

(** Whether an alarm calls [onRTO]. *)
Definition rto_fires (h : sentPacketHandler C) : bool :=
  hasOutstandingRetransmittablePacket h && Time_IsZero (sph_lossTime h) && negb (sph_tlpCount h <? maxTailLossProbes).

Definition path_OnAlarm (id : PathID) : Ses unit :=
  failed ← on_path id (fun pth =>
    if rto_fires (pth_sentPacketHandler pth)
    then let '(b, pth) := onRTO (sph_lastSentTime (pth_sentPacketHandler pth)) pth in (Ok b, pth)
    else (Ok false, pth));
  (if failed : bool then schedulePathsFrame else mret tt);;
  now ← time_Now;
  on_path id (on_handler (modifyS (fun h => OnAlarm now (h <| sph_onRTOCallback := Some (fun _ => failed) |>)))).

(** The timer of a path fired. *)
Definition path_timer_fired (id : PathID) (now : Time) : Ses unit :=
  s ← getS;
  match ses_paths s !! id with
  | None => panic "nil pointer dereference"
  | Some pth =>
      let timeout := sph_GetAlarmTimeout (pth_sentPacketHandler pth) in
      if negb (Time_IsZero timeout) && Time_Before timeout now then path_OnAlarm id else mret tt
  end.

(** ** The end of a session *)

Definition ToQuicError (e : error) : error :=
  match e with
  | qerr_Error _ _ _ | qerr_Wrap _ _ => e
  | qerr_Code code => qerr_Error code "" []
  | e => qerr_Wrap InternalError e
  end.

Definition ErrorCode (e : error) : Z :=
  match e with qerr_Error code _ _ | qerr_Wrap code _ | qerr_Code code => code | _ => InternalError end.

(** The paths close as their goroutines take the signal. *)
Definition closePaths s : session C := s <| ses_paths := path_close <$> ses_paths s |>.

Definition sendConnectionClose (quicErr : error) : Ses unit :=
  on_path InitialPathID (modifyS (fun pth => SetLeastUnacked (GetLeastUnacked (pth_sentPacketHandler pth)) pth));;
  s ← getS; now ← time_Now; r ← random;
  packet ← on_packer InitialPathID (PackConnectionClose (ses_cryptoSetup s) (ses_handshakeComplete s) now r
             (mkConnectionCloseFrame (ErrorCode quicErr) (errorMessage quicErr)));
  conn_Write InitialPathID (pk_raw packet).

Definition sendPublicReset (rejectedPacketNumber : PacketNumber) : Ses unit :=
  s ← getS;
  conn_Write InitialPathID (snd (WritePublicReset (pck_connectionID (ses_packer s)) rejectedPacketNumber 0 [])).

Definition handleCloseError (closeErr : closeError) : Ses unit :=
  let err := default (qerr_Code PeerGoingAway) (ce_err closeErr) in
  let quicErr := ToQuicError err in
  on_streams (streams_CloseWithError quicErr);;
  if decide (err = errCloseSessionForNewVersion) then mret tt
  else
    modifyS closePaths;;
    if ce_remote closeErr then mret tt
    else if (ErrorCode quicErr =? DecryptionFailure) || bool_decide (quicErr = ErrHOLExperiment)
            || bool_decide (quicErr = ErrNSTPExperiment)
    then
      s ← getS;
      match ses_paths s !! InitialPathID with
      | None => panic "nil pointer dereference"
      | Some pth => sendPublicReset (pth_lastRcvdPacketNumber pth)
      end
    else sendConnectionClose quicErr.

(** The readings of the clock, two for each flow controller. *)
Fixpoint with_times (ids : list StreamID) : Ses (list (StreamID * (Time * Time))) :=
  match ids with
  | [] => mret []
  | id :: ids => now ← time_Now; now' ← time_Now; l ← with_times ids; mret ((id, (now, now')) :: l)
  end.

Definition getWindowUpdateFrames (force : bool) : Ses (list WindowUpdateFrame) :=
  n ← tick; s ← getS;
  ids ← with_times (order n (map fst (map_to_list (fcm_streamFlowController (sfr_flowControlManager (ses_framer s))))));
  now ← time_Now; now' ← time_Now;
  updates ← on_flow (GetWindowUpdates ids force now now');
  mret (map (fun u => mkWindowUpdateFrame (wup_StreamID u) (wup_Offset u)) updates).

(** ** The start *)

(** [setup] with the crypto setup that the handshake makes; [now] is when the session
    starts, [now'] when its first path does. *)
Definition session_setup (pers : Perspective) (version : VersionNumber) (connectionID : ConnectionID) (config : Config)
    (createPaths : bool) (addrs : UDPAddr * UDPAddr) (crypto : CryptoSetup) (open : opener) (now now' : Time) : session C :=
  let cp := NewConnectionParamatersManager pers version (cfg_MaxReceiveStreamFlowControlWindow config)
              (cfg_MaxReceiveConnectionFlowControlWindow config) (cfg_IdleTimeout config) in
  let '(_, (m, fcm)) := sm_run (open_crypto_stream pers) (newStreamsMap pers, NewFlowControlManager cp NewRTTStats ∅) in
  mkSession C pers version (cfg_KeepAlive config) (cfg_HandshakeTimeout config) createPaths false crypto open []
    {[InitialPathID := path_setup InitialPathID version (newController InitialPathID) None now']} {[InitialPathID := addrs]} ∅
    (newPacketPacker connectionID cp (newStreamFramer m fcm) pers version) false [] [] zeroTime zeroTime now now
    false false None scheduler_setup (pathManager_setup pers (snd addrs)) false ∅ 0 0 [] 0.

(** ** The invariant *)

#[local] Arguments assign {R T} field {_} v r /.

(** What the streams of the peer carry. *)
Context (content : StreamID -> Z -> Z) (size : StreamID -> Z).
Context (size_int : forall id, 0 <= size id < 9223372036854775808).

Record path_ok (id : PathID) pth : Prop := {
  po_id : pth_pathID pth = id;
  po_sent : sph_inv (pth_sentPacketHandler pth);
  po_received : exists spec, refines (pth_receivedPacketHandler pth) spec
}.

Record streams_ok (f : streamFramer) : Prop := {
  so_inv : sm_inv (sfr_streamsMap f) (sfr_flowControlManager f);
  so_read : map_Forall (fun id str => read_inv (content id) (size id) str) (sm_streams (sfr_streamsMap f))
}.

Definition queues_ok s : Prop :=
  zlen (ses_undecryptablePackets s) <= MaxUndecryptablePackets /\ zlen (ses_receivedPackets s) <= MaxSessionUnprocessedPackets.

Record ses_inv s : Prop := {
  si_streams : streams_ok (ses_framer s);
  si_paths : map_Forall path_ok (ses_paths s);
  si_initial : is_Some (ses_paths s !! InitialPathID);
  si_queues : queues_ok s
}.

(** The packets that wait. *)
Definition queues s : list netPacket * list netPacket := (ses_undecryptablePackets s, ses_receivedPackets s).

Lemma ses_inv_same s s' :
  ses_framer s' = ses_framer s -> ses_paths s' = ses_paths s -> queues s' = queues s -> ses_inv s -> ses_inv s'.
Proof.
  intros E1 E2 [= E3 E4] [H1 H2 H3 H4]. split; rewrite ?E1, ?E2; try done. unfold queues_ok. by rewrite E3, E4.
Qed.

(** What frames leave alone: who the session is, its paths, and the packets received. *)
Definition largest_received s (id : PathID) : option PacketNumber :=
  (fun pth => rph_largestObserved (pth_receivedPacketHandler pth)) <$> ses_paths s !! id.

Record keeps s s' : Prop := {
  ke_perspective : ses_perspective s' = ses_perspective s;
  ke_createPaths : ses_createPaths s' = ses_createPaths s;
  ke_largest : forall id, largest_received s' id = largest_received s id
}.

(** The errors after which the session goes on: those it ignores, and a packet that
    could not be decrypted. *)
Definition survivable (e : error) : bool := ignored_error e || is_code DecryptionFailure e.

(** No panic, and the invariant still holds unless there is an error that the caller
    does not ignore. *)
Definition handled_if (ignored : error -> bool) {A} s (r : outcome A * session C) : Prop :=
  match r with
  | (Ok _, s') => ses_inv s' /\ keeps s s'
  | (Err e, s') => ignored e = true -> ses_inv s' /\ keeps s s'
  | (Panic _, _) => False
  end.
Abbreviation handled := (handled_if survivable).

Lemma keeps_refl s : keeps s s.
Proof. done. Qed.

Lemma keeps_trans s1 s2 s3 : keeps s1 s2 -> keeps s2 s3 -> keeps s1 s3.
Proof. intros [A1 A2 A3] [B1 B2 B3]. split; [congruence..|]. intros id. by rewrite B3. Qed.

Lemma keeps_known s s' id : keeps s s' -> is_Some (ses_paths s !! id) -> is_Some (ses_paths s' !! id).
Proof.
  intros [_ _ H] [pth E]. specialize (H id). unfold largest_received in H. rewrite E in H.
  destruct (ses_paths s' !! id); [by eexists|done].
Qed.

Lemma handled_after ign {A} s s1 (r : outcome A * session C) : keeps s s1 -> handled_if ign s1 r -> handled_if ign s r.
Proof.
  intros Hk. destruct r as [[a|e|p] s2]; cbn; [| |done].
  - intros [Hi H]. split; [done|by eapply keeps_trans].
  - intros H He. destruct (H He) as [Hi H']. split; [done|by eapply keeps_trans].
Qed.

Lemma handled_bind ign {A B} s (m : Ses A) (k : A -> Ses B) :
  handled_if ign s (m s) -> (forall a s', m s = (Ok a, s') -> ses_inv s' -> keeps s s' -> handled_if ign s' (k a s')) ->
  handled_if ign s ((m ≫= k) s).
Proof.
  intros Hm Hk. unfold mbind, GoM_bind. destruct (m s) as [[a|e|p] s'] eqn:E; [|done|done].
  destruct Hm as [Hi Hs]. eapply handled_after; [exact Hs|]. by apply Hk.
Qed.

Lemma handled_ret ign {A} (a : A) s : ses_inv s -> handled_if ign s (mret (M := Ses) a s).
Proof. done. Qed.

(** The parts of the state that the invariant does not see. *)
Lemma handled_modify ign f s :
  ses_inv s -> ses_framer (f s) = ses_framer s -> ses_paths (f s) = ses_paths s -> queues (f s) = queues s ->
  ses_perspective (f s) = ses_perspective s -> ses_createPaths (f s) = ses_createPaths s ->
  handled_if ign s (modifyS f s).
Proof.
  intros Hi E1 E2 Eq E3 E4. split; [by apply (ses_inv_same s)|]. split; rewrite ?E3, ?E4; try done.
  intros id. unfold largest_received. by rewrite E2.
Qed.

Lemma time_Now_run s : time_Now s = (Ok (clock (ses_tick s)), s <| ses_tick := S (ses_tick s) |>).
Proof. done. Qed.

Lemma handled_tick ign s : ses_inv s -> handled_if ign s (tick s).
Proof. intros Hi. split; [by apply (ses_inv_same s)|done]. Qed.

Lemma handled_now ign s : ses_inv s -> handled_if ign s (time_Now s).
Proof. intros Hi. apply handled_bind; [by apply handled_tick|]. intros; by apply handled_ret. Qed.

(** ** Operations on the framer *)

Lemma handled_framer ign {A} (m : Fr A) s :
  ses_inv s ->
  match m (ses_framer s) with
  | (Ok _, f) => streams_ok f
  | (Err e, f) => ign e = true -> streams_ok f
  | (Panic _, _) => False
  end -> handled_if ign s (on_framer m s).
Proof.
  intros [Hs Hp Hi Hq] H. unfold on_framer. destruct (m (ses_framer s)) as [[a|e|p] f]; cbn; [| |done].
  - by split.
  - intros He. split; split; auto.
Qed.

Lemma streams_same f f' :
  sfr_streamsMap f' = sfr_streamsMap f -> sfr_flowControlManager f' = sfr_flowControlManager f ->
  streams_ok f -> streams_ok f'.
Proof. intros E1 E2 []. split; by rewrite E1, ?E2. Qed.

Lemma streams_flow f fcm :
  streams_ok f ->
  (forall j, is_Some (fcm_streamFlowController (sfr_flowControlManager f) !! j) -> is_Some (fcm_streamFlowController fcm !! j)) ->
  streams_ok (f <| sfr_flowControlManager := fcm |>).
Proof. intros [Hi Hr] Hd. split; [|done]. by eapply sm_inv_flow. Qed.

(** ** Operations on a path *)

Lemma put_path_fields id pth s :
  ses_paths (put_path id pth s) = <[id := pth]> (ses_paths s) /\
  ses_perspective (put_path id pth s) = ses_perspective s /\
  ses_createPaths (put_path id pth s) = ses_createPaths s /\
  queues (put_path id pth s) = queues s /\
  (streams_ok (ses_framer s) -> streams_ok (ses_framer (put_path id pth s))).
Proof.
  unfold put_path, share_rtt. destruct (id =? InitialPathID); [|done]. split_and!; try done.
  intros Hs. by apply streams_flow.
Qed.

Lemma put_path_keeps id pth' s : ses_inv s -> path_ok id pth' -> ses_inv (put_path id pth' s).
Proof.
  intros [Hs Hp Hi Hq] Hok. destruct (put_path_fields id pth' s) as (F1 & F2 & F3 & [= F5 F6] & F4).
  split; rewrite ?F1; auto; [by apply map_Forall_insert_2| |unfold queues_ok; by rewrite F5, F6].
  destruct (decide (id = InitialPathID)) as [->|]; [by rewrite lookup_insert_eq|by rewrite lookup_insert_ne].
Qed.

Lemma put_path_inv id pth pth' s :
  ses_inv s -> ses_paths s !! id = Some pth -> path_ok id pth' ->
  rph_largestObserved (pth_receivedPacketHandler pth') = rph_largestObserved (pth_receivedPacketHandler pth) ->
  ses_inv (put_path id pth' s) /\ keeps s (put_path id pth' s).
Proof.
  intros Hi E Hok El. destruct (put_path_fields id pth' s) as (F1 & F2 & F3 & _ & _). split; [by apply put_path_keeps|].
  split; rewrite ?F2, ?F3; try done. intros j. unfold largest_received. rewrite F1. destruct (decide (id = j)) as [->|].
  - rewrite lookup_insert_eq, E. cbn. by rewrite El.
  - by rewrite lookup_insert_ne.
Qed.

Lemma handled_path ign {A} id (m : GoM (path C) A) s pth :
  ses_inv s -> ses_paths s !! id = Some pth ->
  (path_ok id pth -> match m pth with
   | (Panic _, _) => False
   | (_, pth') => path_ok id pth' /\
       rph_largestObserved (pth_receivedPacketHandler pth') = rph_largestObserved (pth_receivedPacketHandler pth)
   end) -> handled_if ign s (on_path id m s).
Proof.
  intros Hi E H. specialize (H (si_paths _ Hi _ _ E)). unfold on_path. rewrite E.
  destruct (m pth) as [[a|e|p] pth']; [| |done]; destruct H as [Hok El];
    pose proof (put_path_inv _ _ _ _ Hi E Hok El); [done|by intros _].
Qed.

(** Only the sent packet handler changes. *)
Lemma handled_sent ign {A} id (m : GoM (sentPacketHandler C) A) s pth :
  ses_inv s -> ses_paths s !! id = Some pth ->
  (sph_inv (pth_sentPacketHandler pth) ->
   match m (pth_sentPacketHandler pth) with (Panic _, _) => False | (_, h) => sph_inv h end) ->
  handled_if ign s (on_path id (on_handler m) s).
Proof.
  intros Hi E H. eapply handled_path; [done|exact E|]. intros [H1 H2 H3]. specialize (H H2). unfold on_handler.
  destruct (m (pth_sentPacketHandler pth)) as [[a|e|p] h]; done.
Qed.

(** ** Streams *)

Lemma store_dom id c f j :
  is_Some (fcm_streamFlowController f !! j) ->
  is_Some (fcm_streamFlowController (f <| fcm_streamFlowController := <[id := c]> (fcm_streamFlowController f) |>) !! j).
Proof.
  intros Hj. cbn. destruct (decide (id = j)) as [->|]; [by rewrite lookup_insert_eq|by rewrite lookup_insert_ne].
Qed.

(** An operation of the manager: it does not panic, it forgets no stream, and the
    session does not ignore its errors. *)
Definition flow_run {A} (r : outcome A * flowControlManager) (f : flowControlManager) : Prop :=
  match r with
  | (Panic _, _) => False
  | (o, f') => (forall j, is_Some (fcm_streamFlowController f !! j) -> is_Some (fcm_streamFlowController f' !! j)) /\
      (forall e, o = Err e -> survivable e = false)
  end.

Lemma check_received_run id off c inc f f0 :
  (forall j, is_Some (fcm_streamFlowController f0 !! j) -> is_Some (fcm_streamFlowController f !! j)) ->
  flow_run (check_received id off c inc f) f0.
Proof.
  intros Hd. unfold check_received. destruct (CheckFlowControlViolation c).
  { split; [done|]. by intros e [= <-]. }
  destruct (ContributesToConnection c); [|by split].
  unfold_go. destruct (CheckFlowControlViolation _); [|by split]. split; [done|]. by intros e [= <-].
Qed.

Lemma UpdateHighestReceived_flow id off f : flow_run (UpdateHighestReceived id off f) f.
Proof.
  unfold UpdateHighestReceived, getFlowController. unfold_go. destruct (fcm_streamFlowController f !! id) as [c|]; cbn beta iota.
  - destruct (fc_UpdateHighestReceived c off) as [o c']. unfold store_stream. unfold_go.
    apply check_received_run. intros j. apply store_dom.
  - split; [done|]. by intros e [= <-].
Qed.

Lemma ResetStream_flow id off f : flow_run (ResetStream id off f) f.
Proof.
  unfold ResetStream, getFlowController. unfold_go. destruct (fcm_streamFlowController f !! id) as [c|]; cbn beta iota.
  - destruct (fc_UpdateHighestReceived c off) as [[inc|e|p] c']; unfold store_stream; unfold_go.
    + apply check_received_run. intros j. apply store_dom.
    + split; [done|]. by intros e' [= <-].
    + split; [done|]. by intros e' [= <-].
  - split; [done|]. by intros e [= <-].
Qed.

Lemma UpdateWindow_flow id off f : flow_run (UpdateWindow id off f) f.
Proof.
  rewrite UpdateWindow_result. destruct (id =? 0); [by destruct (UpdateSendWindow _ _)|].
  destruct (fcm_streamFlowController f !! id) as [c|]; [|split; [done|by intros e [= <-]]].
  destruct (UpdateSendWindow c off) as [b c']. split; [|done]. intros j. apply (store_dom id c' f).
Qed.

Lemma handled_flow {A} (m : GoM flowControlManager A) s :
  ses_inv s -> flow_run (m (sfr_flowControlManager (ses_framer s))) (sfr_flowControlManager (ses_framer s)) ->
  handled s (on_flow m s).
Proof.
  intros Hi H. apply handled_framer; [done|]. destruct (m _) as [[a|e|p] f]; cbn in *; [| |done].
  - apply streams_flow; [apply Hi|apply H].
  - intros He. destruct H as [_ H]. by rewrite (H e eq_refl) in He.
Qed.

Lemma open_remote_streams_error fuel sid id st e st' :
  open_remote_streams fuel sid id st = (Err e, st') -> survivable e = false.
Proof.
  revert sid st. induction fuel as [|fuel IH]; intros sid [m f]; cbn [open_remote_streams]; [done|].
  destruct (sid <=? id); [|done]. unfold openRemoteStream. unfold_go. destruct (_ <? _); unfold_go.
  - by intros [= <- _].
  - unfold sm_modify, session_newStream. unfold_go. destruct (NewStream sid _ f) as [o f1]. apply IH.
Qed.

Lemma GetOrOpenStream_error id st e st' : GetOrOpenStream id st = (Err e, st') -> survivable e = false.
Proof.
  destruct st as [m f]. unfold GetOrOpenStream. unfold_go. destruct (sm_streams m !! id); [done|].
  destruct (refused_stream m id) as [[e0|]|] eqn:Er; unfold_go; [|done|].
  - intros [= <- _]. unfold refused_stream in Er. by repeat case_match; simplify_eq.
  - destruct (open_remote_streams (_ + 2) _ id (m, f)) as [[a|e0|p] [m1 f1]] eqn:E; cbn beta iota; try done.
    intros [= <- _]. by eapply open_remote_streams_error.
Qed.

(** There is no stream 0, and it cannot be opened. *)
Lemma GetOrOpenStream_zero m fcm : sm_inv m fcm -> GetOrOpenStream 0 (m, fcm) = (Ok None, (m, fcm)).
Proof.
  intros Hi. unfold GetOrOpenStream. unfold_go. destruct (sm_streams m !! 0) as [str|] eqn:E.
  { destruct (smi_used _ _ Hi 0) as [? _]; [by rewrite E|lia]. }
  destruct (smi_ids _ _ Hi) as [[Hn _] [Hh _]]. unfold refused_stream. change (0 mod 2) with 0. cbn [Z.eqb].
  destruct (sm_perspective m).
  - destruct (Z.leb_spec 0 (sm_nextStream m)); [done|lia].
  - change (0 =? 1) with false. cbv iota. destruct (Z.leb_spec 0 (sm_highestStreamOpenedByPeer m)); [done|lia].
Qed.

(** A stream that was asked for is there, and the streams opened for it are new. *)
Lemma GetOrOpenStream_handled id s :
  ses_inv s -> 0 <= id < 4294967296 ->
  handled s (on_streams (GetOrOpenStream id) s) /\
  forall str s', on_streams (GetOrOpenStream id) s = (Ok (Some str), s') ->
    sm_streams (sfr_streamsMap (ses_framer s')) !! id = Some str.
Proof.
  intros Hi Hid. destruct (si_streams _ Hi) as [Hsm Hr].
  unfold on_streams. destruct (Z.eq_dec id 0) as [->|Hne].
  { split; [apply handled_framer; [done|]|]; unfold on_framer, fr_streams; rewrite GetOrOpenStream_zero by done; [|done].
    cbn. by split. }
  pose proof (GetOrOpenStream_run _ _ id Hsm ltac:(lia)) as H.
  split; [apply handled_framer; [done|]|]; unfold on_framer, fr_streams;
    destruct (GetOrOpenStream id _) as [[res|e|p] [m' fcm']] eqn:E; cbn; try done.
  - destruct H as (H1 & _ & _ & _ & H2). split; [done|]. intros j str. cbn. rewrite H2.
    destruct (decide _); [|apply Hr]. intros [= <-]. apply stream_start_inv; apply size_int.
  - intros He. by rewrite (GetOrOpenStream_error _ _ _ _ E) in He.
  - intros str s' [= -> <-]. cbn. by destruct H as (_ & _ & _ & <- & _).
Qed.

Lemma AddStreamFrame_session id frame str fcm :
  read_inv (content id) (size id) str -> carries (content id) (size id) frame ->
  match AddStreamFrame frame (str, fcm) with
  | (Ok _, (str', fcm')) => read_inv (content id) (size id) str' /\ str_streamID str' = str_streamID str /\
      forall j, is_Some (fcm_streamFlowController fcm !! j) -> is_Some (fcm_streamFlowController fcm' !! j)
  | (Err e, _) => survivable e = false
  | (Panic _, _) => False
  end.
Proof.
  intros Hr Hc. pose proof (AddStreamFrame_run _ _ frame str fcm Hr Hc) as H. revert H.
  pose proof (Push_spec _ _ _ frame (ri_sorter _ _ _ Hr) Hc) as Hp.
  unfold AddStreamFrame, str_fc, queue_frame. unfold_go.
  pose proof (UpdateHighestReceived_flow (str_streamID str) (u64 (sf_Offset frame + StreamFrame_DataLen frame)) fcm) as Hf.
  destruct (UpdateHighestReceived _ _ fcm) as [[[]|e|p] fcm']; cbn beta iota in *; [| |done].
  - destruct (Push frame (str_frameQueue str)) as [[u|e|p] q]; cbn beta iota; [|destruct (decide _)|]; try done.
    + intros [H _]. split_and!; [done|done|apply Hf].
    + intros [H _]. split_and!; [done|done|apply Hf].
    + intros _. by destruct Hp as [->|(-> & _)].
  - intros _. by apply Hf.
Qed.

Lemma handleStreamFrame_handled frame s :
  ses_inv s -> 0 <= sf_StreamID frame < 4294967296 ->
  carries (content (sf_StreamID frame)) (size (sf_StreamID frame)) frame -> handled s (handleStreamFrame frame s).
Proof.
  intros Hi Hid Hc. destruct (GetOrOpenStream_handled _ s Hi Hid) as [H Hs].
  apply handled_bind; [done|]. intros [str|] s' E Hi' _; [|by apply handled_ret].
  specialize (Hs str s' E). apply handled_framer; [done|]. destruct (si_streams _ Hi') as [Hsm Hr]. unfold fr_streams.
  pose proof (AddStreamFrame_session _ frame str (sfr_flowControlManager (ses_framer s')) (Hr _ _ Hs) Hc) as Ha.
  pose proof (smi_key _ _ Hsm _ _ Hs) as Hk. cbn in Hk.
  destruct (AddStreamFrame frame _) as [[u|e|p] [str' fcm']]; cbn beta iota; [| |done].
  - destruct Ha as (H1 & H2 & H3). destruct (update_stream_inv _ _ str' Hsm) as (Hu & _); [by rewrite H2, Hk, Hs|].
    split; [by eapply sm_inv_flow|]. cbn. rewrite H2, Hk. by apply map_Forall_insert_2.
  - intros He. by rewrite Ha in He.
Qed.

Lemma handleWindowUpdateFrame_handled frame s :
  ses_inv s -> 0 <= wu_StreamID frame < 4294967296 -> handled s (handleWindowUpdateFrame frame s).
Proof.
  intros Hi Hid. unfold handleWindowUpdateFrame. apply handled_bind.
  - destruct (negb _); [|by apply handled_ret]. apply handled_bind; [by apply GetOrOpenStream_handled|].
    by intros [str|] s' _ Hi' _.
  - intros [] s' _ Hi' _. apply handled_bind; [apply handled_flow; [done|apply UpdateWindow_flow]|]. by intros b s'' _ Hi'' _.
Qed.

Lemma RegisterRemoteError_session id str e :
  read_inv (content id) (size id) str ->
  read_inv (content id) (size id) (snd (RegisterRemoteError str e)) /\
  str_streamID (snd (RegisterRemoteError str e)) = str_streamID str.
Proof.
  intros Hr. unfold RegisterRemoteError. destruct (str_resetRemotely str); [done|]. split.
  - by apply (reset_reading _ _ e signalWrite str).
  - unfold maybe_reset, set_error. by repeat case_match.
Qed.

Lemma handleRstStreamFrame_handled frame s :
  ses_inv s -> 0 <= rst_StreamID frame < 4294967296 -> handled s (handleRstStreamFrame frame s).
Proof.
  intros Hi Hid. destruct (GetOrOpenStream_handled _ s Hi Hid) as [H Hs].
  apply handled_bind; [done|]. intros [str|] s' E Hi' _; [|done].
  specialize (Hs str s' E). destruct (si_streams _ Hi') as [Hsm Hr].
  destruct (RegisterRemoteError_session _ str (fmt_Errorf "RST_STREAM received with code %d" [rst_ErrorCode frame])
    (Hr _ _ Hs)) as [H1 H2]. pose proof (smi_key _ _ Hsm _ _ Hs) as Hk. cbn in Hk.
  destruct (RegisterRemoteError str _) as [reset str']. cbn [snd] in *.
  apply handled_bind; [|intros [] s1 _ Hi1 _; apply handled_bind].
  - apply handled_framer; [done|]. cbn. destruct (update_stream_inv _ _ str' Hsm) as (Hu & _); [by rewrite H2, Hk, Hs|].
    split; [done|]. cbn. rewrite H2, Hk. by apply map_Forall_insert_2.
  - destruct reset as [[i o]|]; [|by apply handled_ret].
    apply handled_bind; [|intros [] s2 _ Hi2 _]; by apply handled_modify.
  - intros [] s2 _ Hi2 _. apply handled_flow; [done|]. apply ResetStream_flow.
Qed.

(** ** Acknowledgements *)

Lemma ReceivedAck_session f wpn rcv t1 t2 t3 (h : sentPacketHandler C) :
  sph_inv h -> ranges_valid (ack_LargestAcked f) (ack_LowestAcked f) (ack_AckRanges f) ->
  match ReceivedAck f wpn rcv t1 t2 t3 h with (Panic _, _) => False | (_, h') => sph_inv h' end.
Proof.
  intros Hi Hv. destruct (ReceivedAck_transfers f wpn rcv t1 t2 t3 h Hi Hv) as [lost Ht].
  apply tr_inv in Ht. destruct (ack_counts f wpn h) eqn:Hc.
  { destruct (ReceivedAck_counted f wpn rcv t1 t2 t3 h Hi Hv Hc) as (h1 & _ & _ & E). by rewrite E in *. }
  revert Ht Hc. unfold ReceivedAck, ack_counts. rewrite !Z.ltb_antisym.
  destruct (ack_LargestAcked f <=? sph_lastSentPacketNumber h); [|done]. cbn [negb].
  destruct (wpn <=? sph_largestReceivedPacketWithAck h); [done|]. cbn [negb andb].
  set (h1 := h <| sph_largestReceivedPacketWithAck := wpn |>).
  change (largestInOrderAcked h1) with (largestInOrderAcked h).
  destruct (ack_LargestAcked f <=? largestInOrderAcked h); [done|]. cbn [negb andb].
  set (h2 := h1 <| sph_LargestAcked := ack_LargestAcked f |>).
  change (skippedPacketsAcked h2 f) with (skippedPacketsAcked h f). by destruct (skippedPacketsAcked h f).
Qed.

Lemma ReceivedClosePath_session f wpn rcv t (h : sentPacketHandler C) :
  sph_inv h -> ranges_valid (cp_LargestAcked f) (cp_LowestAcked f) (cp_AckRanges f) ->
  match ReceivedClosePath f wpn rcv t h with (Panic _, _) => False | (_, h') => sph_inv h' end.
Proof.
  intros Hi Hv. destruct (ReceivedClosePath_transfers f wpn rcv t h Hi Hv) as (lost & Ht & Hok & _).
  apply tr_inv in Ht. destruct (close_counts f wpn h) eqn:Hc.
  { specialize (Hok eq_refl). by destruct (ReceivedClosePath f wpn rcv t h) as [[]]. }
  revert Ht Hc. unfold ReceivedClosePath, close_counts. rewrite !Z.ltb_antisym.
  destruct (cp_LargestAcked f <=? sph_lastSentPacketNumber h); [|done]. cbn [negb].
  destruct (wpn <=? sph_largestReceivedPacketWithAck h); [done|]. cbn [negb andb].
  set (h1 := h <| sph_largestReceivedPacketWithAck := wpn |>).
  change (skippedPacketsAckedClosePath h1 f) with (skippedPacketsAckedClosePath h f).
  by destruct (skippedPacketsAckedClosePath h f).
Qed.

Lemma update_bandwidth_inv v id (h : sentPacketHandler C) : sph_inv h -> sph_inv (update_bandwidth v id h).
Proof. unfold update_bandwidth. destruct (_ && _); [|done]. by apply same_packets_inv. Qed.

Lemma handled_now_bind ign {B} s (k : Time -> Ses B) :
  ses_inv s -> (forall t s', ses_inv s' -> keeps s s' -> handled_if ign s' (k t s')) -> handled_if ign s ((time_Now ≫= k) s).
Proof. intros Hi Hk. apply handled_bind; [by apply handled_now|]. intros t s' _. apply Hk. Qed.

Lemma handleAckFrame_handled frame s :
  ses_inv s -> is_Some (ses_paths s !! ack_PathID frame) ->
  ranges_valid (ack_LargestAcked frame) (ack_LowestAcked frame) (ack_AckRanges frame) ->
  handled s (handleAckFrame frame s).
Proof.
  intros Hi Hk Hv. unfold handleAckFrame. apply handled_bind.
  - unfold path_ReceivedAck. apply handled_now_bind; [done|]. intros t1 s1 Hi1 Hk1.
    apply handled_now_bind; [done|]. intros t2 s2 Hi2 Hk2. apply handled_now_bind; [done|]. intros t3 s3 Hi3 Hk3.
    unfold_go. destruct (keeps_known _ _ _ (keeps_trans _ _ _ (keeps_trans _ _ _ Hk1 Hk2) Hk3) Hk) as [pth E].
    eapply handled_path; [done|exact E|]. intros [Ho Hs Hr].
    pose proof (ReceivedAck_session frame (pth_lastRcvdPacketNumber pth) (pth_lastNetworkActivityTime pth) t1 t2 t3 _ Hs Hv) as H.
    destruct (ReceivedAck _ _ _ _ _ _ _) as [[u|e|p] h]; cbn; [| |done]; (split; [|done]); split; try done;
      by apply update_bandwidth_inv.
  - intros [e|] s1 _ Hi1 Hk1; [done|].
    apply handled_bind; [by apply handled_modify|]. intros [] s2 _ Hi2 Hk2. unfold update_session_rtt. unfold_go.
    destruct (keeps_known _ _ _ (keeps_trans _ _ _ Hk1 Hk2) Hk) as [pth ->]. destruct (si_initial _ Hi2) as [p0 E0].
    eapply handled_path; [done|exact E0|]. intros [Ho Hs Hr]. cbn. destruct (_ <? _); [|done]. split; [|done].
    split; [done| |done]. by apply (same_packets_inv (pth_sentPacketHandler p0)).
Qed.

(** ** Paths *)

Lemma closePath_handled id s : ses_inv s ->
  match closePath id false s with
  | (Ok _, s') => ses_inv s' /\ keeps s s' /\ is_Some (ses_paths s' !! id)
  | (Err _, s') => s' = s
  | (Panic _, _) => False
  end.
Proof.
  intros Hi. unfold closePath. unfold_go. destruct (ses_paths s !! id) as [pth|] eqn:E; [|done].
  destruct (decide (id ∈ ses_closedPaths s)); [by rewrite E|].
  assert (H : handled s (pathManager_closePath id s)).
  { unfold pathManager_closePath. unfold_go. rewrite E. destruct (pth_open pth); [|done].
    eapply handled_path; [done|exact E|]. by intros []. }
  assert (He : forall e s', pathManager_closePath id s <> (Err e, s')).
  { intros e s'. unfold pathManager_closePath, on_path. unfold_go. rewrite E. destruct (pth_open pth); [|done].
    unfold_go. by rewrite E. }
  destruct (pathManager_closePath id s) as [[[]|e|p] s1]; [|by edestruct He|done]. destruct H as [Hi1 Hk1].
  assert (Hk : is_Some (ses_paths s1 !! id)) by (eapply keeps_known; [exact Hk1|by rewrite E]).
  cbn. destruct Hi1. split_and!; [done| |done]. by destruct Hk1.
Qed.

Lemma handled_drop (m : Ses unit) s : handled_if (fun _ => true) s (m s) -> handled s (drop_error m s).
Proof. unfold drop_error. intros H. destruct (m s) as [[a|e|p] s']; [done|by apply H|done]. Qed.

Lemma handleClosePathFrame_handled frame s :
  ses_inv s -> ranges_valid (cp_LargestAcked frame) (cp_LowestAcked frame) (cp_AckRanges frame) ->
  handled s (drop_error (handleClosePathFrame frame) s).
Proof.
  intros Hi Hv. apply handled_drop. unfold handleClosePathFrame.
  pose proof (closePath_handled (cp_PathID frame) s Hi) as H.
  apply handled_bind.
  - destruct (closePath _ false s) as [[[]|e|p] s1]; [by destruct H as (? & ? & ?)|by subst s1|done].
  - intros [] s1 E Hi1 _. rewrite E in H. destruct H as (_ & _ & Hp).
    apply handled_now_bind; [done|]. intros t s2 Hi2 Hk2. destruct (keeps_known _ _ _ Hk2 Hp) as [pth E2].
    unfold_go. apply (handled_path _ _ _ _ pth); [done|exact E2|]. intros [Ho Hs Hr]. unfold on_handler.
    pose proof (ReceivedClosePath_session frame (pth_lastRcvdPacketNumber pth) (pth_lastNetworkActivityTime pth) t _ Hs Hv).
    by destruct (ReceivedClosePath _ _ _ _ _) as [[]].
Qed.

Lemma handle_paths_handled f i n s :
  ses_inv s -> (i + n <= length (pf_PathIDs f))%nat -> length (pf_PathIDs f) = length (pf_RemoteRTTs f) ->
  (forall j id rtt, pf_PathIDs f !! j = Some id -> pf_RemoteRTTs f !! j = Some rtt -> 30 * Minute <= rtt ->
     is_Some (ses_paths s !! id)) ->
  handled s (handle_paths f i n s).
Proof.
  revert i s. induction n as [|n IH]; intros i s Hi Hn Hl Hk; cbn [handle_paths]; [by apply handled_ret|].
  destruct (lookup_lt_is_Some_2 (pf_PathIDs f) i ltac:(lia)) as [id Eid].
  destruct (lookup_lt_is_Some_2 (pf_RemoteRTTs f) i ltac:(lia)) as [rtt Ertt]. rewrite Eid, Ertt.
  apply handled_bind; [apply handled_flow; [done|by split]|]. intros [] s1 _ Hi1 Hk1. apply handled_bind.
  - destruct (Z.leb_spec (30 * Minute) rtt); [|by apply handled_ret].
    destruct (keeps_known _ _ _ Hk1 (Hk _ _ _ Eid Ertt ltac:(done))) as [pth E].
    eapply handled_path; [done|exact E|]. by intros [].
  - intros [] s2 _ Hi2 Hk2. apply IH; [done|lia|done|]. intros j id' rtt' E1 E2 E3.
    eapply keeps_known; [exact Hk2|]. eapply keeps_known; [exact Hk1|]. by eapply Hk.
Qed.

Lemma schedulePathsFrame_handled ign s : ses_inv s -> handled_if ign s (schedulePathsFrame s).
Proof.
  intros Hi. unfold schedulePathsFrame. apply handled_now_bind; [done|]. intros t s1 Hi1 _.
  apply handled_bind; [by apply handled_modify|]. intros [] s2 _ Hi2 _.
  apply handled_bind. { apply handled_bind; [by apply handled_tick|]. by intros n s3 _ Hi3 _. }
  intros ids s3 _ Hi3 _. unfold_go. apply handled_framer; [done|]. by apply (streams_same (ses_framer s3)), Hi3.
Qed.

Lemma handled_get ign {B} s (k : session C -> Ses B) : handled_if ign s (k s s) -> handled_if ign s ((getS ≫= k) s).
Proof. done. Qed.

Lemma advertise_each_handled ign addrs s : ses_inv s -> handled_if ign s (advertise_each addrs s).
Proof.
  revert s. induction addrs as [|addr addrs IH]; intros s Hi; cbn [advertise_each]; [by apply handled_ret|].
  apply handled_get, handled_bind; [|intros [] s1 _ Hi1 _; by apply IH].
  destruct (existsb _ _); [by apply handled_ret|]. apply handled_bind; [|intros [] s1 _ Hi1 _; by apply handled_modify].
  apply handled_framer; [done|]. by apply (streams_same (ses_framer s)), Hi.
Qed.

(** A session that does not open paths itself. *)
Definition passive s : Prop := ses_createPaths s = false \/ ses_perspective s = PerspectiveServer.

Lemma handle_address_handled ign f s : ses_inv s -> passive s -> handled_if ign s (handleAddAddressFrame f s).
Proof.
  intros Hi Hp. unfold handleAddAddressFrame. apply handled_bind.
  - destruct (_ =? 4); [by apply handled_modify|]. destruct (_ =? 6); [by apply handled_modify|done].
  - intros [] s1 _ Hi1 Hk1. apply handled_get. destruct (ses_createPaths s1) eqn:E; [|by apply handled_ret].
    apply handled_get. destruct Hk1 as [Hk1 Hk2 _].
    destruct Hp as [Hp|Hp]; [congruence|]. rewrite Hk1, Hp. by apply advertise_each_handled.
Qed.

(** ** The frames of an honest peer *)

(** The frame carries its stream, and names paths that there are; [known] are the paths
    of the session, [psv] tells that it opens none itself. *)
Definition frame_expected (known : PathID -> Prop) (psv : Prop) (f : Frame) : Prop :=
  match f with
  | FStream f => carries (content (sf_StreamID f)) (size (sf_StreamID f)) f
  | FAck f => known (ack_PathID f)
  | FPaths f => forall j id rtt, pf_PathIDs f !! j = Some id -> pf_RemoteRTTs f !! j = Some rtt ->
      30 * Minute <= rtt -> known id
  | FAddAddress _ => psv
  | _ => True
  end.

Record frame_honest (known : PathID -> Prop) (psv : Prop) (pn : PacketNumber) (f : Frame) : Prop := {
  fh_received : exists hdr level, hdr_PacketNumber hdr = pn /\ frame_received hdr level f;
  fh_expected : frame_expected known psv f
}.

Definition knows s (id : PathID) : Prop := is_Some (ses_paths s !! id).

Lemma frame_expected_mono (known known' : PathID -> Prop) (psv psv' : Prop) f :
  (forall id, known id -> known' id) -> (psv -> psv') -> frame_expected known psv f -> frame_expected known' psv' f.
Proof. intros Hk Hp. destruct f; cbn; eauto. Qed.

Lemma frame_honest_mono (known known' : PathID -> Prop) (psv psv' : Prop) pn f :
  (forall id, known id -> known' id) -> (psv -> psv') -> frame_honest known psv pn f -> frame_honest known' psv' pn f.
Proof. intros Hk Hp [Hr Hn]. split; [done|]. by eapply frame_expected_mono. Qed.

Lemma frame_honest_keeps s s' pn f :
  keeps s s' -> frame_honest (knows s) (passive s) pn f -> frame_honest (knows s') (passive s') pn f.
Proof.
  intros Hk. apply frame_honest_mono; [intros id; by apply keeps_known|].
  destruct Hk as [E1 E2 _]. unfold passive. by rewrite E1, E2.
Qed.

(** The packet that has the frames was received on the path. *)
Definition newly_received s (id : PathID) (pn : PacketNumber) : Prop :=
  exists largest, largest_received s id = Some largest /\ pn <= largest.

Lemma stop_waiting_handled id pn f s :
  ses_inv s -> newly_received s id pn -> 0 < sw_LeastUnacked f <= pn -> handled s (handle_frame id (FStopWaiting f) s).
Proof.
  intros Hi (largest & El & Hpn) Hsw. unfold largest_received in El.
  destruct (ses_paths s !! id) as [pth|] eqn:E; [|done]. injection El as El. cbn [handle_frame].
  eapply handled_path; [done|exact E|]. intros [Ho Hs [spec Hr]]. cbn. split; [|done]. split; [done|done|].
  pose proof (rf_max _ _ Hr). rewrite (rf_largest _ _ Hr) in El. change (2 ^ 48) with 281474976710656 in *.
  rewrite u64_small by lia. eexists. eapply refines_limit; [exact Hr|lia].
Qed.

Lemma add_address_handled id f s : ses_inv s -> passive s -> handled s (handle_frame id (FAddAddress f) s).
Proof.
  intros Hi Hp. pose proof (handle_address_handled (fun _ => true) f s Hi Hp) as H. cbn [handle_frame].
  destruct (handleAddAddressFrame f s) as [[u|e|p] s1]; [| |done].
  - destruct H as [Hi1 Hk1]. eapply handled_after; [exact Hk1|]. by apply schedulePathsFrame_handled.
  - destruct (H eq_refl) as [Hi1 Hk1]. eapply handled_after; [exact Hk1|].
    apply handled_bind; [by apply schedulePathsFrame_handled|done].
Qed.

Lemma handle_frame_handled id pn f s :
  ses_inv s -> newly_received s id pn -> frame_honest (knows s) (passive s) pn f -> handled s (handle_frame id f s).
Proof.
  intros Hi Ha [(hdr & level & <- & Hr) Hk]. destruct f; cbn [frame_received] in Hr; try done.
  - apply handleStreamFrame_handled; [done|apply Hr|done].
  - apply handleAckFrame_handled; [done|done|apply Hr].
  - apply handleRstStreamFrame_handled; [done|apply Hr].
  - apply handled_modify; [done|..]; unfold closeRemote, close_once; by destruct (ses_closeErr s).
  - apply handleWindowUpdateFrame_handled; [done|apply Hr].
  - by apply handled_modify.
  - by eapply stop_waiting_handled.
  - by apply add_address_handled.
  - apply handleClosePathFrame_handled; [done|apply Hr].
  - destruct Hr as (H1 & _ & H2). apply handle_paths_handled; [done| |done|done]. rewrite H1. unfold zlen. lia.
Qed.

Lemma handleFrames_handled id pn fs s :
  ses_inv s -> newly_received s id pn -> Forall (frame_honest (knows s) (passive s) pn) fs -> handled s (handleFrames id fs s).
Proof.
  revert s. induction fs as [|f fs IH]; intros s Hi Ha Hf; [done|]. apply Forall_cons in Hf as [Hf Hfs]. cbn [handleFrames].
  assert (Hnext : forall s', ses_inv s' -> keeps s s' -> handled s (handleFrames id fs s')).
  { intros s' Hi' Hk. eapply handled_after; [exact Hk|]. apply IH; [done| |].
    - destruct Ha as (l & El & Hl). exists l. split; [|done]. by rewrite (ke_largest _ _ Hk).
    - eapply Forall_impl; [exact Hfs|]. intros f'. by apply frame_honest_keeps. }
  pose proof (handle_frame_handled id pn f s Hi Ha Hf) as H.
  destruct (handle_frame id f s) as [[u|e|p] s']; cbn in H; [| |done].
  - by apply Hnext; apply H.
  - destruct (ignored_error e) eqn:E; [|exact H]. apply Hnext; apply H; unfold survivable; by rewrite E.
Qed.

(** ** Packets *)

(** The number that a path infers for a packet. *)
Definition inferred pth (hdr : PublicHeader) : PacketNumber :=
  InferPacketNumber (hdr_PacketNumberLen hdr) (pth_largestRcvdPacketNumber pth) (hdr_PacketNumber hdr).

Definition numbered pth (hdr : PublicHeader) : PublicHeader := with_number hdr (inferred pth hdr).

Lemma Handler_ReceivedPacket_session h spec pn r t t' :
  refines h spec -> 1 <= pn < 2 ^ 48 ->
  match Handler_ReceivedPacket h pn r t t' with
  | (Ok _, h') => (exists spec', refines h' spec') /\ pn <= rph_largestObserved h'
  | (Err e, _) => is_code DecryptionFailure e = false
  | (Panic _, _) => False
  end.
Proof.
  intros Hr Hpn. destruct (Handler_ReceivedPacket h pn r t t') as [[[]|e|p] h'] eqn:E.
  - pose proof (refines_receive _ _ _ _ _ _ _ Hr Hpn E) as Hr'. split; [by eexists|].
    rewrite (rf_largest _ _ Hr'). cbn. lia.
  - revert E. unfold Handler_ReceivedPacket, History_ReceivedPacket. destruct (pn =? 0); [by intros [= <- _]|].
    cbv zeta. destruct (_ <=? _); [done|]. destruct (_ <=? _); [by intros [= <- _]|done].
  - revert E. unfold Handler_ReceivedPacket, History_ReceivedPacket. destruct (pn =? 0); [done|].
    cbv zeta. destruct (_ <=? _); [done|]. by destruct (_ <=? _).
Qed.

Section Packets.
Context (open : opener) (version : VersionNumber) (pkt : receivedPacket).

Let hdr : PublicHeader := rp_publicHeader pkt.

(** What the path unpacks. *)
Definition unpacked pth : outcome unpackedPacket :=
  Unpack open version (hdr_Raw (numbered pth hdr)) (numbered pth hdr) (rp_data pkt).

Record packet_sound pth : Prop := {
  ps_length : valid_len (hdr_PacketNumberLen hdr);
  ps_number : 1 <= inferred pth hdr < 2 ^ 48;
  ps_open : match open (rp_data pkt) (inferred pth hdr) (hdr_Raw hdr) with
            | Ok (decrypted, _) => bytes_ok decrypted
            | Err _ => True
            | Panic _ => False
            end
}.

Lemma unpacked_sound pth : packet_sound pth ->
  match unpacked pth with
  | Ok p => Forall (frame_received (numbered pth hdr) (up_encryptionLevel p)) (up_frames p)
  | Err _ => True
  | Panic _ => False
  end.
Proof.
  intros [Hl Hn Hopen]. unfold unpacked.
  destruct (open (rp_data pkt) (inferred pth hdr) (hdr_Raw hdr)) as [[dec level]|e|p] eqn:E; [| |done].
  - pose proof (Unpack_received open version (hdr_Raw hdr) (numbered pth hdr) (rp_data pkt) dec level Hl) as H.
    cbn [numbered with_number hdr_PacketNumber] in H. specialize (H ltac:(unfold u64_ok; lia) E Hopen).
    change (hdr_Raw (numbered pth hdr)) with (hdr_Raw hdr).
    destruct (Unpack _ _ _ _ _) as [p| |]; [|done|done]. by destruct H as [-> H].
  - unfold Unpack. change (hdr_PacketNumber (numbered pth hdr)) with (inferred pth hdr).
    change (hdr_Raw (numbered pth hdr)) with (hdr_Raw hdr). by rewrite E.
Qed.

Lemma path_receive_session id pth t1 t2 :
  path_ok id pth -> packet_sound pth ->
  match path_receive open version pkt t1 t2 pth with
  | (Ok None, pth') => path_ok id pth'
  | (Ok (Some (_, frames)), pth') => path_ok id pth' /\
      inferred pth hdr <= rph_largestObserved (pth_receivedPacketHandler pth') /\
      exists level, unpacked pth = Ok (mkUnpackedPacket level frames) /\
        Forall (frame_received (numbered pth hdr) level) frames
  | (Err e, pth') => is_code DecryptionFailure e = true -> path_ok id pth'
  | (Panic _, _) => False
  end.
Proof.
  intros [Ho Hs [spec Hr]] Hok. pose proof (unpacked_sound pth Hok) as Hu. destruct Hok as [_ Hn _].
  unfold path_receive. unfold_go. destruct (pth_open pth); cbn [negb]; unfold_go; [|by split; eauto].
  set (pth1 := if negb _ then _ else _).
  assert (Hp1 : path_ok id pth1 /\ pth_receivedPacketHandler pth1 = pth_receivedPacketHandler pth).
  { subst pth1. destruct (negb _); split; try done; split; eauto. }
  fold hdr. change (with_number hdr _) with (numbered pth hdr). fold (unpacked pth).
  clearbody pth1. destruct Hp1 as [[Ho1 Hs1 Hr1] Er].
  destruct (unpacked pth) as [[level frames]|e|p]; cbn beta iota; [| |done].
  2: { intros _. by split. }
  cbn. rewrite Er.
  pose proof (Handler_ReceivedPacket_session (pth_receivedPacketHandler pth) spec (inferred pth hdr)
    (HasRetransmittableFrames frames) t1 t2 Hr Hn) as Hh.
  destruct (Handler_ReceivedPacket _ _ _ _ _) as [[u|e|p] h]; cbn; [| |done].
  - destruct Hh as [Hh Hle]. split_and!; [by split|done|]. by exists level.
  - intros He. by rewrite Hh in He.
Qed.
End Packets.

(** A packet of an honest peer, for a session in state [s]. *)
Definition packet_honest s (pkt : receivedPacket) : Prop :=
  let id := hdr_PathID (rp_publicHeader pkt) in
  forall pth, (ses_paths s !! id = Some pth \/ ses_paths s !! id = None /\ pth_largestRcvdPacketNumber pth = 0) ->
  packet_sound (ses_open s) pkt pth /\
  forall level frames, unpacked (ses_open s) (ses_version s) pkt pth = Ok (mkUnpackedPacket level frames) ->
    Forall (frame_expected (fun j => knows s j \/ j = id) (passive s)) frames.

(** No panic; the invariant is kept unless the session is about to close. *)
Definition packet_handled (r : outcome unit * session C) : Prop :=
  match r with
  | (Ok _, s') => ses_inv s'
  | (Err e, s') => is_code DecryptionFailure e = true -> ses_inv s'
  | (Panic _, _) => False
  end.

Lemma handled_packet s r : handled s r -> packet_handled r.
Proof.
  destruct r as [[u|e|p] s']; cbn; [by intros []| |done].
  intros H He. apply H. unfold survivable. by rewrite He, orb_true_r.
Qed.

Lemma follow_client_fields id rem r s :
  ses_framer (follow_client id rem r s) = ses_framer s /\ ses_paths (follow_client id rem r s) = ses_paths s /\
  queues (follow_client id rem r s) = queues s /\
  ses_perspective (follow_client id rem r s) = ses_perspective s /\
  ses_createPaths (follow_client id rem r s) = ses_createPaths s.
Proof. unfold follow_client, set_remote_addr. by repeat case_match. Qed.

(** Errors of frames that the session does not ignore close it. *)
Lemma path_handlePacketImpl_handled id p s pth :
  ses_inv s -> ses_paths s !! id = Some pth -> packet_sound (ses_open s) (fst p) pth ->
  (forall level frames, unpacked (ses_open s) (ses_version s) (fst p) pth = Ok (mkUnpackedPacket level frames) ->
     Forall (frame_expected (knows s) (passive s)) frames) ->
  packet_handled (path_handlePacketImpl id p s).
Proof.
  intros Hi E Hok Hf. destruct p as [pkt [loc rem]]. cbn [fst] in *. unfold path_handlePacketImpl.
  erewrite run_bind_ok by apply time_Now_run. erewrite run_bind_ok by apply time_Now_run.
  set (s1 := (s <| ses_tick := S (ses_tick s) |>) <| ses_tick := _ |>). unfold_go.
  change (ses_open s1) with (ses_open s). change (ses_version s1) with (ses_version s).
  unfold try, on_path. change (ses_paths s1) with (ses_paths s). rewrite E.
  pose proof (path_receive_session (ses_open s) (ses_version s) pkt id pth (clock (ses_tick s)) (clock (S (ses_tick s)))
    (si_paths _ Hi _ _ E) Hok) as H.
  assert (Hnext : forall pth' r, path_ok id pth' -> ses_inv (follow_client id rem r (put_path id pth' s1))).
  { intros pth' r Hp. destruct (follow_client_fields id rem r (put_path id pth' s1)) as (F1 & F2 & F3 & _).
    eapply ses_inv_same; [done..|]. apply put_path_keeps; [|done]. by apply (ses_inv_same s). }
  destruct (path_receive _ _ _ _ _ _) as [[[[hdr frames]|]|e|p] pth']; cbn beta iota; [..|done].
  - destruct H as (Hp & Hle & level & Eu & Hr). specialize (Hf _ _ Eu).
    set (s2 := follow_client _ _ _ _). assert (Hi2 : ses_inv s2) by (by apply Hnext).
    destruct (follow_client_fields id rem (inr (Some (hdr, frames))) (put_path id pth' s1)) as (_ & F2 & _ & F3 & F4).
    destruct (put_path_fields id pth' s1) as (G1 & G2 & G3 & _). fold s2 in F2, F3, F4. rewrite G1 in F2.
    apply (handled_packet s2), (handleFrames_handled id (inferred pth (rp_publicHeader pkt))); [done| |].
    + eexists. unfold largest_received. by rewrite F2, lookup_insert_eq.
    + apply Forall_forall. intros f Hf'. rewrite Forall_forall in Hf, Hr.
      apply (frame_honest_mono (knows s) _ (passive s)); [| |split; [|by apply Hf]].
      * intros j. unfold knows. rewrite F2, lookup_insert_is_Some'. by right.
      * unfold passive. by rewrite F3, F4, G2, G3.
      * eexists _, _. split; [|by apply Hr]. done.
  - by apply Hnext.
  - intros He. by apply Hnext, H.
Qed.

(** A path that the peer opens is like new. *)
Record path_added id s s' : Prop := {
  pa_inv : ses_inv s';
  pa_path : exists pth, ses_paths s' = <[id := pth]> (ses_paths s) /\ pth_largestRcvdPacketNumber pth = 0;
  pa_same : ses_open s' = ses_open s /\ ses_version s' = ses_version s;
  pa_passive : passive s -> passive s'
}.

Lemma add_remote_path_run id addrs s : ses_inv s -> exists s', add_remote_path id addrs s = (Ok tt, s') /\ path_added id s s'.
Proof.
  intros Hi. unfold add_remote_path, new_path. erewrite run_bind_ok by (erewrite run_bind_ok by apply time_Now_run; reflexivity).
  set (s0 := s <| ses_tick := _ |>). set (pth := path_setup _ _ _ _ _). eexists. split; [reflexivity|].
  set (s1 := s0 <| ses_addrs := _ |>).
  assert (Hok : path_ok id pth) by (split; [done|apply New_inv|eexists; apply refines_new]).
  destruct (put_path_fields id pth s1) as (F1 & F2 & F3 & _). split.
  - apply put_path_keeps; [|done]. by apply (ses_inv_same s).
  - by exists pth.
  - unfold put_path, share_rtt. by destruct (id =? InitialPathID).
  - unfold passive. by rewrite F2, F3.
Qed.

Lemma createPathFromRemote_run id addrs s : ses_inv s -> ses_paths s !! id = None ->
  match createPathFromRemote id addrs s with
  | (Ok _, s') => path_added id s s'
  | (Err e, _) => is_code DecryptionFailure e = false
  | (Panic _, _) => False
  end.
Proof.
  intros Hi E. destruct (add_remote_path_run id addrs s Hi) as (s' & Ea & Ha).
  unfold createPathFromRemote. unfold_go. rewrite E.
  destruct (ses_perspective s); destruct (id mod 2 =? 0); cbn [negb guard]; unfold_go; rewrite ?Ea; done.
Qed.

(** ** What happens to a session *)

Lemma note_packet_fields pkt s :
  ses_framer (note_packet pkt s) = ses_framer s /\ ses_paths (note_packet pkt s) = ses_paths s /\
  queues (note_packet pkt s) = queues s /\
  ses_open (note_packet pkt s) = ses_open s /\ ses_version (note_packet pkt s) = ses_version s /\
  ses_perspective (note_packet pkt s) = ses_perspective s /\ ses_createPaths (note_packet pkt s) = ses_createPaths s.
Proof. unfold note_packet. destruct (ses_perspective s) eqn:E; [|destruct (0 <? _)]; cbn; by rewrite ?E. Qed.

Lemma session_handlePacketImpl_handled p s :
  ses_inv s -> packet_honest s (fst p) -> packet_handled (session_handlePacketImpl p s).
Proof.
  intros Hi Hok. destruct p as [pkt addrs]. cbn [fst] in *. unfold session_handlePacketImpl.
  destruct (note_packet_fields pkt s) as (F1 & F2 & Fq & F3 & F4 & F5 & F6).
  erewrite run_bind_ok by reflexivity. set (s1 := note_packet pkt s) in *. erewrite run_bind_ok by reflexivity.
  assert (Hi1 : ses_inv s1) by (by apply (ses_inv_same s)). rewrite F2.
  assert (Hok1 : packet_honest s1 pkt) by (unfold packet_honest, knows, passive; by rewrite F2, F3, F4, F5, F6).
  clearbody s1. set (id := hdr_PathID _) in *. rewrite <- F2. destruct (ses_paths s1 !! id) as [pth|] eqn:E.
  - erewrite run_bind_ok by reflexivity. destruct (Hok1 pth) as [Hs Hf]; [by left|].
    apply (path_handlePacketImpl_handled _ _ _ pth); [done|done|done|]. intros level frames Eu.
    eapply Forall_impl; [by apply (Hf _ _ Eu)|]. intros f. apply frame_expected_mono; [|done].
    intros j [?| ->]; [done|]. unfold knows. fold id. by rewrite E.
  - pose proof (createPathFromRemote_run id addrs s1 Hi1 E) as Hc.
    destruct (createPathFromRemote id addrs s1) as [[[]|e|p] s2] eqn:Ec; [| |done].
    2: { erewrite run_bind_err by exact Ec. cbn. by rewrite Hc. }
    erewrite run_bind_ok by exact Ec. destruct Hc as [Hi2 (pth & Ep & El) [Eo Ev] Hp].
    destruct (Hok1 pth) as [Hs Hf]; [by right|].
    apply (path_handlePacketImpl_handled _ _ _ pth); rewrite ?Eo, ?Ev; [done|by rewrite Ep, lookup_insert_eq|done|].
    intros level frames Eu. eapply Forall_impl; [by apply (Hf _ _ Eu)|]. intros f. apply frame_expected_mono; [|done].
    intros j Hj. unfold knows in *. rewrite Ep, lookup_insert_is_Some'. destruct Hj as [?| ->]; [by right|by left].
Qed.

Lemma path_OnAlarm_handled id s : ses_inv s -> knows s id -> handled s (path_OnAlarm id s).
Proof.
  intros Hi Hk. unfold path_OnAlarm. apply handled_bind.
  { destruct Hk as [pth E]. eapply handled_path; [done|exact E|]. intros [H1 H2 H3].
    destruct (rto_fires _); [|done]. unfold onRTO. by destruct (Time_Before _ _). }
  intros failed s1 _ Hi1 Hk1. apply handled_bind.
  { destruct failed; [by apply schedulePathsFrame_handled|by apply handled_ret]. }
  intros [] s2 _ Hi2 Hk2. apply handled_now_bind; [done|]. intros t s3 Hi3 Hk3.
  destruct (keeps_known _ _ _ (keeps_trans _ _ _ (keeps_trans _ _ _ Hk1 Hk2) Hk3) Hk) as [pth E].
  eapply handled_sent; [done|exact E|]. intros Hs.
  set (h := (pth_sentPacketHandler pth) <| sph_onRTOCallback := Some (fun _ : Time => failed) |>). assert (Hh : sph_inv h) by (by apply (same_packets_inv (pth_sentPacketHandler pth))).
  destruct (OnAlarm_transfers t h Hh) as [lost Ht]. exact (tr_inv _ _ _ _ Ht).
Qed.

Lemma path_timer_fired_handled id now s : ses_inv s -> knows s id -> handled s (path_timer_fired id now s).
Proof.
  intros Hi Hk. unfold path_timer_fired. apply handled_get. destruct Hk as [pth E]. rewrite E. cbn beta iota zeta.
  destruct (negb _ && _); [|by apply handled_ret]. apply path_OnAlarm_handled; [done|]. by exists pth.
Qed.

Lemma session_handlePacket_inv p s : ses_inv s -> ses_inv (session_handlePacket p s).
Proof.
  intros [H1 H2 H3 [H4 H5]]. unfold session_handlePacket.
  destruct (Z.ltb_spec (zlen (ses_receivedPackets s)) MaxSessionUnprocessedPackets); [|by split].
  split; try done. split; [done|]. cbn. rewrite zlen_app, zlen_cons, zlen_nil. lia.
Qed.

Lemma tryDecryptingQueuedPackets_inv s : ses_inv s -> ses_inv (tryDecryptingQueuedPackets s).
Proof.
  intros Hi. unfold tryDecryptingQueuedPackets.
  assert (H : forall l s, ses_inv s -> ses_inv (foldl (fun s p => session_handlePacket p s) s l)).
  { induction l as [|p l IH]; intros s' Hi'; [done|]. by apply IH, session_handlePacket_inv. }
  destruct (H (ses_undecryptablePackets s) s Hi) as [H1 H2 H3 [H4 H5]]. by split.
Qed.

Lemma tryQueueingUndecryptablePacket_inv p s : ses_inv s ->
  exists s', tryQueueingUndecryptablePacket p s = (Ok tt, s') /\ ses_inv s'.
Proof.
  intros Hi. unfold tryQueueingUndecryptablePacket. unfold_go. destruct (ses_handshakeComplete s); [by eexists|].
  destruct (Z.ltb_spec MaxUndecryptablePackets (zlen (ses_undecryptablePackets s) + 1)).
  - destruct (Time_IsZero _); unfold_go; eexists; (split; [reflexivity|]); [|done]. by apply (ses_inv_same s).
  - eexists. split; [reflexivity|]. destruct Hi as [H1 H2 H3 [H4 H5]]. split; try done. split; [|done].
    cbn. rewrite zlen_app, zlen_cons, zlen_nil. lia.
Qed.

Lemma session_setup_inv pers version connectionID config create addrs crypto open now now' :
  ses_inv (session_setup pers version connectionID config create addrs crypto open now now').
Proof.
  unfold session_setup. set (cp := NewConnectionParamatersManager _ _ _ _ _). set (fcm := NewFlowControlManager cp _ _).
  destruct (sm_run_kept (open_crypto_stream pers) _ fcm (newStreamsMap_inv pers fcm)) as (m & f & E & Hi & _).
  { destruct pers; repeat constructor; cbn; lia. }
  { by destruct pers. }
  assert (Em : sm_streams m = {[1 := newStream 1]}).
  { assert (Es : sm_streams (fst (snd (sm_run (open_crypto_stream pers) (newStreamsMap pers, fcm)))) = {[1 := newStream 1]})
      by (by destruct pers). by rewrite E in Es. }
  rewrite E. split; [split; [done|]|..]; cbn.
  - rewrite Em. intros id str [<- <-]%lookup_singleton_Some. apply stream_start_inv; apply size_int.
  - intros id pth [<- <-]%lookup_singleton_Some. split; [done|apply New_inv|eexists; apply refines_new].
  - by eexists.
  - done.
Qed.

(** What a session receives, in the run loop and beside it: a packet arrives, the loop
    takes one, the handshake gets new keys or is complete, the timer of a path fires.
    The part of the loop that sends is modelled in Scheduler.v and is not an event here. *)
Inductive ses_event :=
| SevArrive (p : netPacket)
| SevReceive
| SevKeys (open : opener)
| SevComplete
| SevTimer (id : PathID).

Definition ses_step (ev : ses_event) : Ses unit :=
  match ev with
  | SevArrive p => modifyS (session_handlePacket p)
  | SevReceive => receive_packet;; mret tt
  | SevKeys open => modifyS (fun s => tryDecryptingQueuedPackets (s <| ses_open := open |>))
  | SevComplete => modifyS (fun s => s <| ses_handshakeComplete := true |>)
  | SevTimer id => now ← time_Now; path_timer_fired id now
  end.

(** A session that was asked to close stops. *)
Fixpoint ses_run (evs : list ses_event) : Ses unit :=
  match evs with
  | [] => mret tt
  | ev :: evs => s ← getS; match ses_closeErr s with Some _ => mret tt | None => ses_step ev;; ses_run evs end
  end.

Definition event_honest s (ev : ses_event) : Prop :=
  match ev with
  | SevReceive => match ses_receivedPackets s with [] => True | (pkt, _) :: _ => packet_honest s pkt end
  | SevTimer id => knows s id
  | _ => True
  end.

Fixpoint run_honest (evs : list ses_event) s : Prop :=
  match evs with
  | [] => True
  | ev :: evs => ses_closeErr s <> None \/ event_honest s ev /\ run_honest evs (snd (ses_step ev s))
  end.

(** Alive or about to close. *)
Definition sound s : Prop := ses_closeErr s = None -> ses_inv s.

Lemma closeLocal_closed e s : ses_closeErr (closeLocal e s) <> None.
Proof. unfold closeLocal, close_once. destruct (ses_closeErr s) eqn:E; [by rewrite E|done]. Qed.

Lemma stamp_run pkt s : exists pkt' s', stamp pkt s = (Ok pkt', s') /\
  rp_publicHeader pkt' = rp_publicHeader pkt /\ rp_data pkt' = rp_data pkt /\ exists n, s' = s <| ses_tick := n |>.
Proof.
  unfold stamp. destruct (Time_IsZero _).
  - eexists _, _. split; [reflexivity|]. split_and!; [done..|]. by eexists.
  - eexists _, _. split; [reflexivity|]. split_and!; [done..|]. exists (ses_tick s). by destruct s.
Qed.

Lemma receive_packet_sound s : ses_inv s -> event_honest s SevReceive ->
  exists b s', receive_packet s = (Ok b, s') /\ sound s'.
Proof.
  intros Hi Hok. unfold receive_packet. unfold_go. cbn [event_honest] in Hok.
  destruct (ses_receivedPackets s) as [|[pkt addrs] ps] eqn:Eq; [exists false, s; split; [done|by intros _]|].
  set (s0 := s <| ses_receivedPackets := ps |>). unfold_go.
  destruct (stamp_run pkt s0) as (pkt' & s1 & -> & Eh & Ed & n & ->). cbn beta iota.
  set (s1 := s0 <| ses_tick := n |>).
  assert (Hi1 : ses_inv s1).
  { destruct Hi as [H1 H2 H3 [H4 H5]]. split; try done. split; [done|]. cbn. rewrite Eq, zlen_cons in H5. lia. }
  assert (Hok1 : packet_honest s1 pkt').
  { intros pth Hp. rewrite Eh in *. destruct (Hok pth Hp) as [[P1 P2 P3] Hf]. split; [split; by rewrite ?Eh, ?Ed|].
    intros level frames. unfold unpacked. rewrite Eh, Ed. apply Hf. }
  pose proof (session_handlePacketImpl_handled (pkt', addrs) s1 Hi1 Hok1) as H. unfold try.
  destruct (session_handlePacketImpl (pkt', addrs) s1) as [[u|e|p] s2]; cbn beta iota in *; [| |done].
  - unfold_go. eexists _, _. split; [reflexivity|]. by intros _.
  - unfold_go. destruct (is_code DecryptionFailure e) eqn:Ec.
    + destruct (tryQueueingUndecryptablePacket_inv (renumber pkt' s2, addrs) s2 (H Ec)) as (s3 & -> & Hi3).
      eexists _, _. split; [reflexivity|]. by intros _.
    + unfold_go. eexists _, _. split; [reflexivity|]. intros Hc. by apply closeLocal_closed in Hc.
Qed.

(** The timer has no error to return. *)
Definition no_error {X A} (m : GoM X A) (x : X) : Prop := forall e y, m x <> (Err e, y).

Lemma no_error_bind {X A B} (m : GoM X A) (k : A -> GoM X B) (x : X) :
  no_error m x -> (forall a y, no_error (k a) y) -> no_error (m ≫= k) x.
Proof.
  intros Hm Hk e y. unfold mbind, GoM_bind. destruct (m x) as [[a|e0|p] z] eqn:E; [apply Hk|by edestruct Hm|done].
Qed.

Lemma no_error_path {A} id (m : GoM (path C) A) s : (forall pth, no_error m pth) -> no_error (on_path id m) s.
Proof.
  intros Hm e s'. unfold on_path. destruct (ses_paths s !! id) as [pth|]; [|done].
  destruct (m pth) as [[a|e0|p] pth'] eqn:E; [done| |done]. by edestruct Hm.
Qed.

Lemma path_OnAlarm_no_error id s : no_error (path_OnAlarm id) s.
Proof.
  unfold path_OnAlarm. apply no_error_bind; [|intros [] s1].
  - apply no_error_path. intros pth e pth'. destruct (rto_fires _); [|done]. by destruct (onRTO _ _).
  - apply no_error_bind; [done|]. intros _ s2. apply no_error_bind; [done|]. intros now s3. by apply no_error_path.
  - apply no_error_bind; [done|]. intros _ s2. apply no_error_bind; [done|]. intros now s3. by apply no_error_path.
Qed.

Lemma timer_run id s : ses_inv s -> knows s id -> exists s', ses_step (SevTimer id) s = (Ok tt, s') /\ ses_inv s'.
Proof.
  intros Hi Hk. assert (H : handled s (ses_step (SevTimer id) s)).
  { apply handled_now_bind; [done|]. intros t s1 Hi1 Hk1. apply path_timer_fired_handled; [done|by eapply keeps_known]. }
  assert (Hn : no_error (ses_step (SevTimer id)) s).
  { apply no_error_bind; [done|]. intros now s1. unfold path_timer_fired. apply no_error_bind; [done|]. intros s2 s3.
    destruct (ses_paths s2 !! id); [|done]. cbv zeta. destruct (negb _ && _); [apply path_OnAlarm_no_error|done]. }
  destruct (ses_step (SevTimer id) s) as [[[]|e|p] s'] eqn:E; [|by edestruct Hn|done]. exists s'. by destruct H.
Qed.

Lemma ses_step_sound ev s : ses_inv s -> event_honest s ev -> exists s', ses_step ev s = (Ok tt, s') /\ sound s'.
Proof.
  intros Hi Hok. destruct ev as [p| |open| |id]; cbn [ses_step].
  - eexists. split; [reflexivity|]. intros _. by apply session_handlePacket_inv.
  - destruct (receive_packet_sound s Hi Hok) as (b & s' & E & Hs). exists s'. by erewrite run_bind_ok by exact E.
  - eexists. split; [reflexivity|]. intros _. apply tryDecryptingQueuedPackets_inv. by apply (ses_inv_same s).
  - eexists. split; [reflexivity|]. intros _. by apply (ses_inv_same s).
  - destruct (timer_run id s Hi Hok) as (s' & E & Hs). exists s'. split; [exact E|by intros _].
Qed.

Lemma ses_run_sound evs s : sound s -> run_honest evs s -> exists s', ses_run evs s = (Ok tt, s') /\ sound s'.
Proof.
  revert s. induction evs as [|ev evs IH]; intros s Hs Hok; cbn [ses_run]; [by exists s|].
  erewrite run_bind_ok by reflexivity. destruct (ses_closeErr s) eqn:Ec; [by exists s|].
  destruct Hok as [|[Hev Hok]]; [done|]. destruct (ses_step_sound ev s (Hs Ec) Hev) as (s1 & E & Hs1).
  erewrite run_bind_ok by exact E. rewrite E in Hok. by apply IH.
Qed.
(** ** Where the code does not do what it means to *)

(** An ACK for a path that the session does not have crashes it. *)
Lemma ack_unknown_path frame s :
  ses_paths s !! ack_PathID frame = None -> fst (handleAckFrame frame s) = Panic "nil pointer dereference".
Proof.
  intros E. unfold handleAckFrame, path_ReceivedAck. unfold time_Now, tick. unfold_go. unfold on_path. cbn. by rewrite E.
Qed.

(** So does a PATHS frame that calls such a path failed. *)
Lemma paths_unknown_path f id rtt s :
  pf_PathIDs f !! 0%nat = Some id -> pf_RemoteRTTs f !! 0%nat = Some rtt -> 1 <= pf_NumPaths f -> 30 * Minute <= rtt ->
  ses_paths s !! id = None -> fst (handle_frame 0 (FPaths f) s) = Panic "nil pointer dereference".
Proof.
  intros E1 E2 Hn Hr E. cbn [handle_frame]. destruct (Z.to_nat (pf_NumPaths f)) as [|n] eqn:En; [lia|].
  cbn [handle_paths]. rewrite E1, E2. unfold_go. rewrite (proj2 (Z.leb_le _ _) Hr). unfold on_path. cbn. by rewrite E.
Qed.

(** An ACK without gaps has no ranges: it releases no quota. *)
Lemma quotas_not_released frame sch :
  ack_AckRanges frame = [] -> foldl release_quota sch (range_numbers (ack_AckRanges frame)) = sch.
Proof. by intros ->. Qed.

(** The session's RTT is that of the initial path: the RTT of a slower path replaces
    what the initial path measured. *)
Lemma session_rtt_overwrites id pth p0 s :
  ses_paths s !! id = Some pth -> ses_paths s !! InitialPathID = Some p0 -> path_rtt p0 < path_rtt pth ->
  exists p0', ses_paths (snd (update_session_rtt id s)) !! InitialPathID = Some p0' /\ path_rtt p0' = path_rtt pth.
Proof.
  intros E E0 Hlt. unfold update_session_rtt, on_path. unfold_go. rewrite E, E0. cbn. rewrite (proj2 (Z.ltb_lt _ _) Hlt).
  eexists. split; [apply lookup_insert_eq|done].
Qed.
End Session.

(** C3: the receiving half of a session survives its peer.  From its setup, through any
    sequence of arriving packets, turns of the receive loop, new keys, the end of the
    handshake and timers of its paths, and while the packets it takes come from an honest
    peer (frames carry the peer's streams, and name paths that the session has): nothing
    panics or gets stuck, and until an error closes the session its streams map and
    flow controllers agree, every stream's reassembly is consistent with what the
    peer sends, every path's packets in flight and acknowledgements are consistent,
    and no more packets wait than the limits allow.  What the loop sends between two
    packets is not part of the sequence, and an ADD_ADDRESS frame is only expected by
    a session that does not open paths itself: a client that does sends a PING at once. *)
Theorem session_survives {C} `{SA : !SendAlgorithm C, EN : !Env, CT : !Controllers C} content size
    pers version connectionID config create addrs crypto open now now' evs :
  (forall id, 0 <= size id < 9223372036854775808) ->
  let s : session C := session_setup pers version connectionID config create addrs crypto open now now' in
  run_honest content size evs s ->
  exists s', ses_run evs s = (Ok tt, s') /\ (ses_closeErr s' = None -> ses_inv content size s').
Proof.
  intros Hsize s Hok. eapply ses_run_sound; [done| |done]. intros _. by apply session_setup_inv.
Qed.

(** A server that gets a stream frame and a PING on the initial path, and a
    STOP_WAITING frame on a path that its client opens. *)
Definition sample_config : Config := mkConfig (10 * Second) (30 * Second) false 65536 131072.

Definition sample_addr (last : Z) : UDPAddr := mkUDPAddr [10; 0; 0; last] 4433.

Definition sample_bytes (id : StreamID) (x : Z) : Z := if x =? 0 then 104 else 105.

Definition sample_received (pathID pn : Z) (payload : list Z) : netPacket :=
  (mkReceivedPacket (mkPublicHeader [] 42 pathID false false false true 2 pn 0 [] []) payload 1000, (sample_addr 1, sample_addr 2)).

Definition sample_session_events : list ses_event :=
  [SevArrive (sample_received 0 1 [0xe0; 5; 0; 2; 104; 105; 7]); SevReceive; SevComplete;
   SevArrive (sample_received 3 1 [6; 0; 0; 7]); SevReceive; SevTimer 0].

Definition sample_env : Env :=
  mkEnv (fun n => 2000 + Z.of_nat n) (fun _ => Ok (1, 2)) (fun _ => f64_const 1 2) (fun _ l => l) (fun a b => bool_decide (addr_IP a = addr_IP b))
    [sample_addr 1] (fun _ _ => None) (fun _ => []).
Definition sample_controllers : Controllers Z := mkControllers Z (fun _ => 100000) (fun c => c).

Definition sample_session : session Z :=
  session_setup (CT := sample_controllers) PerspectiveServer VersionMP 42 sample_config true (sample_addr 1, sample_addr 2)
    sample_crypto (open_plain EncryptionForwardSecure) 1000 1000.

Definition sample_session_run : list ses_event -> GoM (session Z) unit :=
  ses_run (SA := fixed_window) (EN := sample_env) (CT := sample_controllers).

Definition sample_session_honest : list ses_event -> session Z -> Prop :=
  run_honest (SA := fixed_window) (EN := sample_env) (CT := sample_controllers) sample_bytes (fun _ => 2).

Lemma sample_stream_carried :
  carries (sample_bytes 5) 2 (mkStreamFrame 5 true true 0 [104; 105]).
Proof. by split. Qed.

(** The first packet of a path, in the clear. *)
Lemma sample_packet_honest (s : session Z) pathID payload frames :
  ses_open s = open_plain EncryptionForwardSecure -> ses_version s = VersionMP ->
  (forall pth, ses_paths s !! pathID = Some pth -> pth_largestRcvdPacketNumber pth = 0) -> bytes_ok payload ->
  Unpack (open_plain EncryptionForwardSecure) VersionMP [] (rp_publicHeader (fst (sample_received pathID 1 payload))) payload
    = Ok (mkUnpackedPacket EncryptionForwardSecure frames) ->
  Forall (frame_expected sample_bytes (fun _ => 2) (fun j => knows s j \/ j = pathID) (passive s)) frames ->
  packet_honest sample_bytes (fun _ => 2) s (fst (sample_received pathID 1 payload)).
Proof.
  intros Eo Ev Hl Hb Eu Hf pth Hp.
  assert (Ei : inferred pth (rp_publicHeader (fst (sample_received pathID 1 payload))) = 1).
  { unfold inferred. assert (pth_largestRcvdPacketNumber pth = 0) as -> by (destruct Hp as [Hp|[_ Hp]]; auto). by vm_compute. }
  rewrite Eo, Ev. split; [split; rewrite ?Ei|].
  - by right; left.
  - done.
  - done.
  - intros level frames'. unfold unpacked, numbered. rewrite Ei.
    change (with_number _ 1) with (rp_publicHeader (fst (sample_received pathID 1 payload))). cbn [hdr_Raw rp_data fst sample_received].
    cbn [fst sample_received] in Eu. cbn [rp_publicHeader] in *. cbn [hdr_Raw]. rewrite Eu. by intros [= <- <-].
Qed.

Lemma sample_session_honest_run : sample_session_honest sample_session_events sample_session.
Proof.
  unfold sample_session_honest, sample_session_events. cbn [run_honest event_honest].
  right. split; [done|]. right. split.
  { apply (sample_packet_honest _ 0 _ [FStream (mkStreamFrame 5 true true 0 [104; 105]); FPing mkPingFrame]); try done.
    - intros pth E. by injection E as <-.
    - by repeat constructor.
    - constructor; [apply sample_stream_carried|by constructor]. }
  right. split; [done|]. right. split; [done|]. right. split.
  { set (s := snd _).
    assert (Er : ses_receivedPackets s = [sample_received 3 1 [6; 0; 0; 7]]) by (vm_compute; reflexivity). rewrite Er.
    apply (sample_packet_honest _ 3 _ [FStopWaiting (mkStopWaitingFrame 1 0 0); FPing mkPingFrame]).
    - vm_compute. reflexivity.
    - vm_compute. reflexivity.
    - intros pth E. vm_compute in E. discriminate.
    - by repeat constructor.
    - vm_compute. reflexivity.
    - by repeat constructor. }
  right. split; [|done]. set (s := snd _). assert (E : bool_decide (is_Some (ses_paths s !! 0)) = true) by (vm_compute; reflexivity).
  by apply bool_decide_eq_true in E.
Qed.

Lemma session_survives_witness :
  exists s', sample_session_run sample_session_events sample_session = (Ok tt, s') /\
    ses_closeErr s' = None /\ is_Some (ses_paths s' !! 3) /\ ses_inv sample_bytes (fun _ => 2) s'.
Proof.
  destruct (session_survives (SA := fixed_window) (EN := sample_env) (CT := sample_controllers) sample_bytes (fun _ => 2)
    PerspectiveServer VersionMP 42 sample_config true (sample_addr 1, sample_addr 2) sample_crypto
    (open_plain EncryptionForwardSecure) 1000 1000 sample_session_events) as (s' & E & H).
  - intros _. lia.
  - exact sample_session_honest_run.
  - exists s'. split; [exact E|].
    pose (alive := fun s : session Z => bool_decide (ses_closeErr s = None) && bool_decide (is_Some (ses_paths s !! 3))).
    assert (Hc : alive (snd (sample_session_run sample_session_events sample_session)) = true) by (vm_compute; reflexivity).
    fold sample_session in E. fold sample_session_run in E. rewrite E in Hc.
    apply andb_true_iff in Hc as [Hc Hp]. apply bool_decide_eq_true in Hc, Hp. split; [exact Hc|]. split; [exact Hp|by apply H].
Defined.
