(* ===== verification/Timer.v ===== *)
(** * internal/utils/timer.go: a timer that can be reset

    The timer of Go's package time under it fires at a time and then puts a value into
    a channel that holds one; stopping it tells whether it was still to fire, and leaves
    the channel alone.  A receive from an empty channel waits for ever here, as nothing
    else sends to it. *)

From S2P Require Import Prelude.

(** When the runtime fires, the value in the channel, and the fields of the wrapper. *)
Record Timer := mkTimer {
  tm_fires : option Time;
  tm_chan : option Time;
  tm_read : bool;
  tm_deadline : Time
}.

#[global] Instance eta_Timer : Eta Timer := fun t => mkTimer (tm_fires t) (tm_chan t) (tm_read t) (tm_deadline t).

(** [time.Timer.Reset] with a duration that may be over. *)
Definition runtime_Reset (now : Time) (d : Duration) (t : Timer) : Timer := t <| tm_fires := Some (now + Z.max 0 d) |>.

(** Whether the timer was still to fire. *)
Definition runtime_Stop (t : Timer) : bool * Timer := (bool_decide (is_Some (tm_fires t)), t <| tm_fires := None |>).

(** The clock reaches [now]: a full channel takes no second value. *)
Definition runtime_fire (now : Time) (t : Timer) : Timer :=
  match tm_fires t with
  | Some at_ => if at_ <=? now
                then t <| tm_fires := None |> <| tm_chan := Some (default now (tm_chan t)) |> else t
  | None => t
  end.

Definition NewTimer (now : Time) : Timer := runtime_Reset now 0 (mkTimer None None false zeroTime).

Definition receive : GoM Timer Time := fun t =>
  match tm_chan t with
  | Some v => (Ok v, t <| tm_chan := None |>)
  | None => (Panic "all goroutines are asleep", t)
  end.

Definition Timer_Reset (deadline now : Time) : GoM Timer unit :=
  t ← getS;
  if deadline =? tm_deadline t then mret tt
  else
    let '(stopped, t) := runtime_Stop t in
    putS t;;
    (if negb stopped && negb (tm_read t) then receive;; mret tt else mret tt);;
    modifyS (runtime_Reset now (Time_Sub deadline now));;
    modifyS (fun t => t <| tm_read := false |> <| tm_deadline := deadline |>).

Definition SetRead (t : Timer) : Timer := t <| tm_read := true |>.

(** What a run loop does with its timer: it resets it, the clock goes on, and when there
    is a value it takes it and says so. *)
Inductive timer_event :=
| TimerReset (deadline now : Time)
| TimerClock (now : Time)
| TimerTake.

Definition timer_step (ev : timer_event) : GoM Timer unit :=
  match ev with
  | TimerReset deadline now => Timer_Reset deadline now
  | TimerClock now => modifyS (runtime_fire now)
  | TimerTake => fun t => match tm_chan t with
                          | None => (Ok tt, t)
                          | Some _ => (receive;; modifyS SetRead) t
                          end
  end.

Fixpoint timer_run (evs : list timer_event) : GoM Timer unit :=
  match evs with
  | [] => mret tt
  | ev :: evs => timer_step ev;; timer_run evs
  end.

(** ** The timer never hangs, and fires once for every new deadline *)

(** Exactly one of three: it is still to fire, there is a value, or the value was read. *)
Definition timer_inv (t : Timer) : Prop :=
  match tm_fires t with
  | Some at_ => tm_chan t = None /\ tm_read t = false
  | None => tm_read t = false <-> is_Some (tm_chan t)
  end.

#[local] Arguments assign {R T} field {_} v r /.

Lemma NewTimer_inv now : timer_inv (NewTimer now).
Proof. done. Qed.

Lemma runtime_fire_inv now t : timer_inv t -> timer_inv (runtime_fire now t).
Proof.
  unfold timer_inv, runtime_fire. destruct (tm_fires t) as [at_|] eqn:E; [|by rewrite E].
  intros [Hc Hr]. destruct (at_ <=? now); cbn; [|by rewrite E]. rewrite Hr. split; [by eexists|done].
Qed.

(** A new deadline arms the timer, the old one changes nothing. *)
Lemma Timer_Reset_run deadline now t : timer_inv t ->
  exists t', Timer_Reset deadline now t = (Ok tt, t') /\ timer_inv t' /\
    t' = if deadline =? tm_deadline t then t
         else mkTimer (Some (now + Z.max 0 (Time_Sub deadline now))) None false deadline.
Proof.
  intros Ht. unfold Timer_Reset. erewrite run_bind_ok by reflexivity. destruct (deadline =? tm_deadline t) eqn:Ed; [by exists t|].
  cbn [runtime_Stop]. erewrite run_bind_ok by reflexivity. destruct t as [fires chan read d]. cbn in *. unfold timer_inv in Ht. cbn in Ht.
  destruct fires as [at_|].
  - destruct Ht as [-> ->]. eexists. split; [reflexivity|]. split; [done|reflexivity].
  - destruct read; cbn.
    + destruct chan as [v|]; [by discriminate (proj2 Ht ltac:(by eexists))|]. eexists. by split.
    + destruct chan as [v|]; [eexists; by split|]. by destruct (proj1 Ht eq_refl).
Qed.

Lemma timer_step_run ev t : timer_inv t -> exists t', timer_step ev t = (Ok tt, t') /\ timer_inv t'.
Proof.
  intros Ht. destruct ev as [deadline now|now|]; cbn [timer_step].
  - destruct (Timer_Reset_run deadline now t Ht) as (t' & E & H & _). by exists t'.
  - eexists. split; [reflexivity|]. by apply runtime_fire_inv.
  - destruct (tm_chan t) as [v|] eqn:E; [|by exists t]. unfold receive, timer_inv in *.
    eexists. split; [unfold_go; rewrite E; reflexivity|]. cbn.
    destruct (tm_fires t); [by destruct Ht as [? ?]; congruence|]. split; [done|]. by intros [? ?].
Qed.

Lemma timer_run_inv evs t : timer_inv t -> exists t', timer_run evs t = (Ok tt, t') /\ timer_inv t'.
Proof.
  revert t. induction evs as [|ev evs IH]; intros t Ht; [by exists t|]. cbn [timer_run].
  destruct (timer_step_run ev t Ht) as (t1 & E & H1). erewrite run_bind_ok by exact E. by apply IH.
Qed.

(** C27: However a run loop resets its timer, lets time pass and takes its values, no
    reset ever hangs on the drained channel; and a reset to a new deadline makes the
    timer fire: a value is there as soon as the deadline has passed, and not before.
    A reset to the deadline that the timer has already leaves it as it is. *)
Theorem timer_fires start evs deadline now :
  deadline - now <= maxDuration ->
  exists t t', timer_run evs (NewTimer start) = (Ok tt, t) /\ Timer_Reset deadline now t = (Ok tt, t') /\
    if deadline =? tm_deadline t then t' = t
    else forall now', now <= now' -> is_Some (tm_chan (runtime_fire now' t')) <-> deadline <= now'.
Proof.
  intros Hd. destruct (timer_run_inv evs _ (NewTimer_inv start)) as (t & E & Ht).
  destruct (Timer_Reset_run deadline now t Ht) as (t' & E' & _ & ->). eexists t, _. split_and!; [exact E|exact E'|].
  destruct (deadline =? tm_deadline t); [done|]. intros now' Hn. unfold runtime_fire, Time_Sub, minDuration, maxDuration in *. cbn.
  destruct (_ <=? now') eqn:El; cbn; split; intros H; [lia|by eexists|by destruct H|lia].
Qed.

Definition sample_timer_events : list timer_event :=
  [TimerClock 5; TimerTake; TimerReset 100 10; TimerReset 200 20; TimerClock 300; TimerReset 400 310].

Lemma timer_fires_witness :
  exists t t', timer_run sample_timer_events (NewTimer 0) = (Ok tt, t) /\ tm_deadline t = 400 /\
    Timer_Reset 350 320 t = (Ok tt, t') /\ is_Some (tm_chan (runtime_fire 350 t')).
Proof.
  destruct (timer_fires 0 sample_timer_events 350 320) as (t & t' & E & E' & H); [vm_compute; congruence|].
  assert (Hd : tm_deadline (snd (timer_run sample_timer_events (NewTimer 0))) = 400) by (vm_compute; reflexivity).
  rewrite E in Hd. cbn [snd] in Hd. exists t, t'. split_and!; [exact E|exact Hd|exact E'|]. rewrite Hd in H. apply H; lia.
Defined.

(** A timer that was read does not fire again for the same deadline, however late. *)
Lemma same_deadline_silent :
  exists t t', timer_run [TimerReset 100 10; TimerClock 100; TimerTake] (NewTimer 0) = (Ok tt, t) /\
    Timer_Reset 100 150 t = (Ok tt, t') /\ forall now, tm_chan (runtime_fire now t') = None.
Proof. eexists _, _. split; [vm_compute; reflexivity|]. split; [vm_compute; reflexivity|]. done. Qed.
