(* ===== verification/Scheduler.v ===== *)
(** * scheduler.go: which packets a session sends on which path

    The scheduler moves the packets that were lost to the streams and the packer,
    chooses a path, packs and sends, until there is nothing to send or no path may
    send.  The functions that choose a path are given the paths in the order in which
    [range] visits them; [selectPathProper], which needs [math.Log2] and is not called,
    is left out. *)

From S2P Require Import Prelude Protocol ByteOrder WireFrames WireAck WireHeader Frame AckRecv MinMax RttStats SendAlgorithm AckSent Handshake.
From S2P Require Import Float ConnParams FlowControl StreamFrameSorter Stream StreamsMap StreamFramer PacketNumberGenerator Path PacketPacker.
From S2P Require Import Routing Session.

Section Scheduler.
Context {C : Type} `{SA : !SendAlgorithm C, EN : !Env, CT : !Controllers C}.
Implicit Types (s : session C) (pth : path C).

Abbreviation Ses := (GoM (session C)).

Definition on_scheduler (f : scheduler -> scheduler) : Ses unit :=
  modifyS (fun s => s <| ses_scheduler := f (ses_scheduler s) |>).

(** ** Retransmissions *)

(** The first path, in the order of [ids], that has a packet to retransmit. *)
Fixpoint dequeue_first (ids : list PathID) : Ses (option (PathID * Packet)) :=
  match ids with
  | [] => mret None
  | id :: ids =>
      packet ← on_path id (on_handler (fun h => let '(p, h) := DequeuePacketForRetransmission h in (Ok p, h)));
      match packet with
      | Some packet => mret (Some (id, packet))
      | None => dequeue_first ids
      end
  end.

(** A frame of a lost packet of the path [id]. *)
Definition resend_frame (id : PathID) (frame : Frame) : Ses unit :=
  match frame with
  | FStream f => on_framer (modifyS (AddFrameForRetransmission f))
  | FWindowUpdate f => fun s =>
      match on_flow (GetReceiveWindow (wu_StreamID f)) s with
      | (Ok currentOffset, s) => if currentOffset <=? wu_ByteOffset f then queue_control frame id s else (Ok tt, s)
      | (Err _, s) => (Ok tt, s)
      | (Panic p, s) => (Panic p, s)
      end
  | FPaths _ => schedulePathsFrame
  | _ => queue_control frame id
  end.

Fixpoint resend_frames (id : PathID) (frames : list Frame) : Ses unit :=
  match frames with
  | [] => mret tt
  | f :: frames => resend_frame id f;; resend_frames id frames
  end.

(** The loop: whether there was a retransmission, a packet of the handshake, and the
    path of the last packet; [from] is that of the packets so far. *)
Fixpoint retransmit_loop (fuel : nat) (from : option PathID) : Ses (bool * option Packet * option PathID) :=
  match fuel with
  | O => panic "retransmit_loop: out of fuel"
  | S fuel =>
      ids ← range_paths;
      next ← dequeue_first ids;
      match next with
      | None => mret (bool_decide (is_Some from), None, from)
      | Some (id, packet) =>
          s ← getS;
          if negb (bool_decide (pkt_EncryptionLevel packet = EncryptionForwardSecure)) then
            if ses_handshakeComplete s then retransmit_loop fuel (Some id)
            else mret (true, Some packet, Some id)
          else
            resend_frames id (GetFramesForRetransmission packet);;
            retransmit_loop fuel (Some id)
      end
  end.

(** The packets of the paths that wait for their retransmission. *)
Definition queued_packets s : list Packet :=
  map_to_list (ses_paths s) ≫= fun '(_, pth) => sph_retransmissionQueue (pth_sentPacketHandler pth).

(** Every round but the last takes one of them. *)
Definition getRetransmission : Ses (bool * option Packet * option PathID) :=
  s ← getS; retransmit_loop (S (length (queued_packets s))) None.

(** ** Selecting a path

    [Some id] is a path, [None] is nil. *)

Definition one_path s : bool := Z.of_nat (size (ses_paths s)) <=? 1.

(** A single path that must not send. *)
Definition only_path_blocked (hasRetransmission : bool) s : outcome bool :=
  if one_path s then
    if hasRetransmission then Ok false
    else match ses_paths s !! InitialPathID with
         | Some pth => Ok (negb (path_SendingAllowed pth))
         | None => Panic "nil pointer dereference"
         end
  else Ok false.

(** The tests that every loop over the paths starts with. *)
Definition usable (hasRetransmission : bool) (id : PathID) pth : bool :=
  (hasRetransmission || path_SendingAllowed pth) && negb (pth_potentiallyFailed pth) && negb (id =? InitialPathID).

Definition path_usable (hasRetransmission : bool) s (id : PathID) : bool :=
  match ses_paths s !! id with Some pth => usable hasRetransmission id pth | None => false end.

Definition probability s (id : PathID) : float64 := default (f64_of_Z 0) (ses_probability s !! id).

Fixpoint large_bandwidth_loop (hasRetransmission : bool) (thresh : float64) s (ids : list PathID) (hist : float64) : PathID :=
  match ids with
  | [] => InitialPathID
  | id :: ids =>
      let hist := if negb (id =? InitialPathID) then f64_add hist (probability s id) else hist in
      if path_usable hasRetransmission s id && f64_ltb thresh hist then id
      else large_bandwidth_loop hasRetransmission thresh s ids hist
  end.

Definition selectPathLargeBandwidth (hasRetransmission : bool) : Ses (option PathID) :=
  s ← getS;
  blocked ← lift (only_path_blocked hasRetransmission s);
  if blocked : bool then mret None
  else
    thresh ← rand_Float64;
    ids ← range_paths;
    mret (Some (large_bandwidth_loop hasRetransmission thresh s ids (f64_of_Z 0))).

Definition quota_of (sch : scheduler) (id : PathID) : Z := default 0 (sch_quotas sch !! id).

(** A path without a quota gets one. *)
Definition touch_quota (id : PathID) (sch : scheduler) : scheduler :=
  match sch_quotas sch !! id with
  | Some _ => sch
  | None => sch <| sch_quotas := <[id := 0]> (sch_quotas sch) |>
  end.

Fixpoint round_robin_loop (hasRetransmission : bool) s (ids : list PathID) (sch : scheduler) (selected : option PathID)
    (lowerQuota : Z) : option PathID * scheduler :=
  match ids with
  | [] => (selected, sch)
  | id :: ids =>
      if path_usable hasRetransmission s id then
        let currentQuota := quota_of sch id in
        let sch := touch_quota id sch in
        if currentQuota <? lowerQuota
        then round_robin_loop hasRetransmission s ids sch (Some id) currentQuota
        else round_robin_loop hasRetransmission s ids sch selected lowerQuota
      else round_robin_loop hasRetransmission s ids sch selected lowerQuota
  end.

Definition MaxUint : Z := 18446744073709551615.

Definition selectPathRoundRobin (hasRetransmission : bool) : Ses (option PathID) :=
  s ← getS;
  blocked ← lift (only_path_blocked hasRetransmission s);
  if blocked : bool then mret None
  else if one_path s then mret (Some InitialPathID)
  else
    ids ← range_paths;
    let '(selected, sch) := round_robin_loop hasRetransmission s ids (ses_scheduler s) None MaxUint in
    on_scheduler (fun _ => sch);;
    mret selected.

(** Another path with fewer packets sent than the path of the retransmission, whose RTT
    is not known yet. *)
Definition less_used_path (hasRetransmission hasStreamRetransmission : bool) (fromPth : option PathID) s
    (ids : list PathID) : outcome (option PathID) :=
  if hasRetransmission && hasStreamRetransmission then
    match fromPth ≫= fun id => (ses_paths s !! id) with
    | None => Panic "nil pointer dereference"
    | Some from =>
        if path_rtt from =? 0 then
          let sch := ses_scheduler s in
          Ok (snd <$> list_find (fun id => negb ((id =? InitialPathID) || (id =? pth_pathID from))
                                           && (quota_of sch id <? quota_of sch (pth_pathID from)) = true) ids)
        else Ok None
    end
  else Ok None.

(** The choice so far: the path, its RTT, and its ID, which is 255 at first. *)
Fixpoint low_latency_loop (hasRetransmission : bool) s (ids : list PathID) (sch : scheduler) (selected : option PathID)
    (lowerRTT : Duration) : option PathID * scheduler :=
  match ids with
  | [] => (selected, sch)
  | id :: ids =>
      match ses_paths s !! id with
      | None => low_latency_loop hasRetransmission s ids sch selected lowerRTT
      | Some pth =>
          let currentRTT := path_rtt pth in
          if negb (usable hasRetransmission id pth) || (negb (lowerRTT =? 0) && (currentRTT =? 0))
          then low_latency_loop hasRetransmission s ids sch selected lowerRTT
          else
            let currentQuota := quota_of sch id in
            let sch := if currentRTT =? 0 then touch_quota id sch else sch in
            let lowerQuota := quota_of sch (default 255 selected) in
            if (currentRTT =? 0) && bool_decide (is_Some selected) && (lowerQuota <? currentQuota)
            then low_latency_loop hasRetransmission s ids sch selected lowerRTT
            else if negb (currentRTT =? 0) && negb (lowerRTT =? 0) && bool_decide (is_Some selected)
                    && (lowerRTT <=? currentRTT)
            then low_latency_loop hasRetransmission s ids sch selected lowerRTT
            else low_latency_loop hasRetransmission s ids sch (Some id) currentRTT
      end
  end.

Definition selectPathLowLatency (hasRetransmission hasStreamRetransmission : bool) (fromPth : option PathID) :
    Ses (option PathID) :=
  s ← getS;
  blocked ← lift (only_path_blocked hasRetransmission s);
  if blocked : bool then mret None
  else if one_path s then mret (Some InitialPathID)
  else
    ids ← range_paths;
    other ← lift (less_used_path hasRetransmission hasStreamRetransmission fromPth s ids);
    match other with
    | Some id => mret (Some id)
    | None =>
        ids ← range_paths;
        let '(selected, sch) := low_latency_loop hasRetransmission s ids (ses_scheduler s) None 0 in
        on_scheduler (fun _ => sch);;
        mret selected
    end.

Definition token_of (sch : scheduler) (id : PathID) : float64 := default (f64_of_Z 0) (sch_tokens sch !! id).

Fixpoint max_token (sch : scheduler) (ids : list PathID) (maxToken : float64) : float64 :=
  match ids with
  | [] => maxToken
  | id :: ids =>
      max_token sch ids
        (if negb (id =? InitialPathID) && f64_ltb maxToken (token_of sch id) then token_of sch id else maxToken)
  end.

Definition add_tokens s (sch : scheduler) (ids : list PathID) : scheduler :=
  foldl (fun sch id =>
    if id =? InitialPathID then sch
    else sch <| sch_tokens := <[id := f64_add (token_of sch id) (f64_mul (probability s id) (f64_of_Z 10))]> (sch_tokens sch) |>)
    sch ids.

Definition selectPathToken (hasRetransmission : bool) : Ses (option PathID) :=
  s ← getS;
  blocked ← lift (only_path_blocked hasRetransmission s);
  if blocked : bool then mret None
  else
    ids ← range_paths; ids' ← range_paths; ids'' ← range_paths;
    let sch := ses_scheduler s in
    let sch := if f64_ltb (max_token sch ids (f64_of_Z 0)) (f64_of_Z 1) then add_tokens s sch ids' else sch in
    match list_find (fun id => path_usable hasRetransmission s id && f64_leb (f64_of_Z 1) (token_of sch id) = true) ids'' with
    | Some (_, id) =>
        on_scheduler (fun _ => sch <| sch_tokens := <[id := f64_sub (token_of sch id) (f64_of_Z 1)]> (sch_tokens sch) |>);;
        mret (Some id)
    | None => on_scheduler (fun _ => sch);; mret (Some InitialPathID)
    end.

(** [BandwidthEstimate]: the congestion windows of the paths with an OLIA sender. *)
Definition bandwidth s (id : PathID) : Z :=
  match ses_paths s !! id with
  | Some pth => if negb (id =? InitialPathID) && (VersionMP <=? ses_version s)
                then sa_GetCongestionWindow (sph_congestion (pth_sentPacketHandler pth)) else 0
  | None => 0
  end.

(** The paths of the lowest and of the highest RTT, with their RTTs. *)
Fixpoint rtt_range (hasRetransmission : bool) s (ids : list PathID) (f : PathID * Duration) (g : PathID * Duration) :
    (PathID * Duration) * (PathID * Duration) :=
  match ids with
  | [] => (f, g)
  | id :: ids =>
      match ses_paths s !! id with
      | Some pth =>
          if usable hasRetransmission id pth then
            let rtt := path_rtt pth in
            rtt_range hasRetransmission s ids (if rtt <=? snd f then (id, rtt) else f) (if snd g <=? rtt then (id, rtt) else g)
          else rtt_range hasRetransmission s ids f g
      | None => rtt_range hasRetransmission s ids f g
      end
  end.

Definition selectPathNew (hasRetransmission hasStreamRetransmission : bool) (fromPth : option PathID) : Ses (option PathID) :=
  s ← getS;
  blocked ← lift (only_path_blocked hasRetransmission s);
  if blocked : bool then mret None
  else if one_path s then mret (Some InitialPathID)
  else
    ids ← range_paths;
    other ← lift (less_used_path hasRetransmission hasStreamRetransmission fromPth s ids);
    match other with
    | Some id => mret (Some id)
    | None =>
        ids ← range_paths;
        let '((fPathID, fRTT), (sPathID, sRTT)) := rtt_range hasRetransmission s ids (0, maxDuration) (0, 0) in
        mret (Some (if u64 (u64 (bandwidth s sPathID * 2) * u64 fRTT) <? u64 (bandwidth s fPathID * u64 (i64 (sRTT - fRTT)))
                    then fPathID else sPathID))
    end.

(** The one that is used. *)
Definition selectPath (hasRetransmission hasStreamRetransmission : bool) (fromPth : option PathID) : Ses (option PathID) :=
  selectPathLargeBandwidth hasRetransmission.

(** ** Sending *)

Definition pack_packet (id : PathID) : Ses (option packedPacket) :=
  s ← getS; now ← time_Now; r ← random;
  on_packer id (PackPacket (ses_cryptoSetup s) (ses_handshakeComplete s) now r).

Definition queue_window_updates (frames : list WindowUpdateFrame) (id : PathID) : Ses unit :=
  modifyS (fun s => s <| ses_packer := foldl (fun p f => QueueControlFrame (FWindowUpdate f) id p) (ses_packer s) frames |>).

(** A packet was sent: the quotas count it. *)
Definition count_packet (id : PathID) (number : PacketNumber) (sch : scheduler) : scheduler :=
  sch <| sch_quotas := <[id := u64 (quota_of sch id + 1)]> (sch_quotas sch) |>
      <| sch_packetPaths := <[number := id]> (sch_packetPaths sch) |>
      <| sch_curQuotas := <[id := u64 (default 0 (sch_curQuotas sch !! id) + 1)]> (sch_curQuotas sch) |>.

Definition performPacketSending (windowUpdateFrames : list WindowUpdateFrame) (id : PathID) : Ses (option Packet) :=
  s ← getS;
  match ses_paths s !! id with
  | None => panic "nil pointer dereference"
  | Some pth =>
      (if ShouldSendRetransmittablePacket (pth_sentPacketHandler pth) then queue_control (FPing mkPingFrame) id else mret tt);;
      packet ← pack_packet id;
      match packet with
      | None => mret None
      | Some packet =>
          sendPackedPacket packet id;;
          queue_window_updates windowUpdateFrames id;;
          on_scheduler (count_packet (pth_pathID pth) (pk_number packet));;
          mret (Some (mkPacket (pk_number packet) (pk_frames packet) (zlen (pk_raw packet)) (pk_encryptionLevel packet) zeroTime))
      end
  end.

(** A nil ACK frame replaces the one that is queued. *)
Definition queue_ack (ack : option AckFrame) (id : PathID) : Ses unit :=
  match ack with
  | Some f => queue_control (FAck f) id
  | None => modifyS (fun s => s <| ses_packer := clear_ack id (ses_packer s) |>)
  end.

Definition get_ack_frame (id : PathID) : Ses (option AckFrame) :=
  now ← time_Now; on_path id (fun pth => path_GetAckFrame now pth).

Definition queue_stop_waiting (force : bool) (id : PathID) : Ses unit :=
  swf ← on_path id (fun pth => let '(f, pth) := path_GetStopWaitingFrame force pth in (Ok f, pth));
  match swf with Some f => queue_control (FStopWaiting f) id | None => mret tt end.

Definition pack_ack_packet (id : PathID) : Ses packedPacket :=
  s ← getS; now ← time_Now; r ← random;
  on_packer id (PackAckPacket (ses_cryptoSetup s) (ses_handshakeComplete s) now r).

(** One path of [ackRemainingPaths]; a nil packet of [PackPacket] is not expected. *)
Definition ack_remaining_path (windowUpdateFrames : list WindowUpdateFrame) (id : PathID) : Ses unit :=
  ack ← get_ack_frame id;
  queue_window_updates windowUpdateFrames id;;
  let none := match ack with None => true | Some _ => false end in
  if none && ((zlen windowUpdateFrames =? 0) || (id =? InitialPathID)) then mret tt
  else
    queue_stop_waiting false id;;
    queue_ack ack id;;
    packet ← (if none then pack_packet id else p ← pack_ack_packet id; mret (Some p));
    match packet with
    | None => panic "nil pointer dereference"
    | Some packet => sendPackedPacket packet id
    end.

Fixpoint ack_remaining_loop (windowUpdateFrames : list WindowUpdateFrame) (ids : list PathID) : Ses unit :=
  match ids with
  | [] => mret tt
  | id :: ids => ack_remaining_path windowUpdateFrames id;; ack_remaining_loop windowUpdateFrames ids
  end.

Definition ackRemainingPaths (totalWindowUpdateFrames : list WindowUpdateFrame) : Ses unit :=
  s ← getS;
  windowUpdateFrames ← (if zlen totalWindowUpdateFrames =? 0 then getWindowUpdateFrames (ses_peerBlocked s)
                        else mret totalWindowUpdateFrames);
  ids ← range_paths;
  ack_remaining_loop windowUpdateFrames ids;;
  modifyS (fun s => s <| ses_peerBlocked := false |>).

(** A packet of the handshake goes out again at once; a nil STOP_WAITING frame replaces
    the one that is queued. *)
Definition send_handshake_retransmission (packet : Packet) (id : PathID) : Ses unit :=
  modifyS (fun s => s <| ses_packer := clear_stop_waiting id (ses_packer s) |>);;
  queue_stop_waiting true id;;
  s ← getS; now ← time_Now; r ← random;
  packet ← on_packer id (PackHandshakeRetransmission (ses_cryptoSetup s) (ses_handshakeComplete s) now r packet);
  sendPackedPacket packet id.

(** The frames that go with the next packet of the path: its ACK, then what the framer
    has of CLOSE_PATH, ADD_ADDRESS and PATHS frames. *)
Definition queue_path_frames (hasStreamRetransmission : bool) (id : PathID) : Ses unit :=
  ack ← get_ack_frame id;
  (match ack with Some f => queue_control (FAck f) id | None => mret tt end);;
  (if bool_decide (is_Some ack) || hasStreamRetransmission then queue_stop_waiting hasStreamRetransmission id else mret tt);;
  modifyS (fun s =>
    let f := ses_framer s in
    let frames := map FClosePath (sfr_closePathFrameQueue f) ++ map FAddAddress (sfr_addAddressFrameQueue f)
                  ++ match sfr_pathsFrame f with Some pf => [FPaths pf] | None => [] end in
    let p := foldl (fun p f => QueueControlFrame f id p) (ses_packer s) frames in
    s <| ses_packer := p <| pck_streamFramer := f <| sfr_closePathFrameQueue := [] |> <| sfr_addAddressFrameQueue := [] |>
                             <| sfr_pathsFrame := None |> |> |>).

(** A packet on a path of unknown RTT is sent again on another path that may send and
    has sent less. *)
Definition duplicate_packet (pkt : Packet) (id : PathID) : Ses unit :=
  ids ← range_paths;
  s ← getS;
  match ses_paths s !! id with
  | None => panic "nil pointer dereference"
  | Some pth =>
      let sch := ses_scheduler s in
      let other j := negb ((j =? InitialPathID) || (j =? id)) && (quota_of sch j <? quota_of sch id)
                     && match ses_paths s !! j with Some p => SendingAllowed (pth_sentPacketHandler p) | None => false end in
      if (path_rtt pth =? 0) && existsb other ids then on_path id (on_handler (modifyS (DuplicatePacket pkt))) else mret tt
  end.

(** A path that may have failed is probed. *)
Definition ping_failed_path (fromPth : option PathID) : Ses unit :=
  s ← getS;
  match fromPth with
  | Some id => match ses_paths s !! id with
               | Some pth => if pth_potentiallyFailed pth then sendPing id else mret tt
               | None => mret tt
               end
  | None => mret tt
  end.

(** The loop of [sendPacket]; [fuel] bounds the packets sent in one call. *)
Fixpoint send_loop (fuel : nat) (windowUpdateFrames : list WindowUpdateFrame) : Ses unit :=
  match fuel with
  | O => panic "send_loop: out of fuel"
  | S fuel =>
      '(hasRetransmission, handshakePacket, fromPth) ← getRetransmission;
      s ← getS;
      let hasStreamRetransmission := HasFramesForRetransmission (ses_framer s) in
      pth ← selectPath hasRetransmission hasStreamRetransmission fromPth;
      match pth with
      | None => frames ← getWindowUpdateFrames false; ackRemainingPaths frames
      | Some id =>
          match (if hasRetransmission : bool then handshakePacket else None) with
          | Some packet => send_handshake_retransmission packet id;; send_loop fuel windowUpdateFrames
          | None =>
              queue_path_frames hasStreamRetransmission id;;
              pkt ← performPacketSending windowUpdateFrames id;
              match pkt with
              | None => ackRemainingPaths []
              | Some pkt =>
                  duplicate_packet pkt id;;
                  ping_failed_path fromPth;;
                  send_loop fuel []
              end
          end
      end
  end.

Definition update_least_unacked s : session C :=
  s <| ses_paths := (fun pth => SetLeastUnacked (GetLeastUnacked (pth_sentPacketHandler pth)) pth) <$> ses_paths s |>.

(** The first window updates are queued on no path in particular. *)
Definition scheduler_sendPacket (fuel : nat) : Ses unit :=
  modifyS update_least_unacked;;
  windowUpdateFrames ← getWindowUpdateFrames false;
  queue_window_updates windowUpdateFrames InitialPathID;;
  send_loop fuel windowUpdateFrames.

(** ** The run loop *)

(** What wakes the loop up.  New keys come from the handshake, which tells when there
    are no more. *)
Inductive loop_event :=
| LoopTimer
| LoopSendingScheduled
| LoopPathTimer (id : PathID)
| LoopPacket
| LoopKeys (open : opener) (crypto : CryptoSetup)
| LoopHandshakeComplete.

(** [false] is [continue]. *)
Definition loop_select (ev : loop_event) : Ses bool :=
  match ev with
  | LoopTimer | LoopPathTimer _ => mret true
  | LoopSendingScheduled => modifyS (fun s => s <| ses_sendingScheduled := false |>);; mret true
  | LoopPacket => receive_packet
  | LoopKeys open crypto =>
      modifyS (fun s => tryDecryptingQueuedPackets (s <| ses_open := open |> <| ses_cryptoSetup := crypto |>));; mret true
  | LoopHandshakeComplete => modifyS (fun s => s <| ses_handshakeComplete := true |>);; mret true
  end.

(** The path manager is told that the handshake is complete. *)
Definition launch_path_manager s : session C :=
  if negb (ses_pathManagerLaunched s) && ses_handshakeComplete s then s <| ses_pathManagerLaunched := true |> else s.

Definition keep_alive : Ses unit :=
  now ← time_Now; s ← getS;
  if ses_KeepAlive s && ses_handshakeComplete s
     && (Z.quot (idleTimeout s) 2 <=? Time_Sub now (ses_lastNetworkActivityTime s)) then
    ids ← range_paths;
    modifyS (fun s => s <| ses_packer := foldl (fun p id => QueueControlFrame (FPing mkPingFrame) id p) (ses_packer s) ids |>
                        <| ses_keepAlivePingSent := true |>)
  else mret tt.

Definition errTooManyUndecryptable : error := qerr_Error DecryptionFailure "too many undecryptable packets received" [].
Definition errHandshakeTimeout : error := qerr_Error ErrHandshakeTimeout "Crypto handshake did not complete in time." [].
Definition errNoNetworkActivity : error := qerr_Error NetworkIdleTimeout "No recent network activity." [].

Definition close_if (b : bool) (e : error) s : session C := if b then closeLocal (Some e) s else s.

(** The reasons to close after a turn that started at [now]. *)
Definition check_timeouts (now : Time) s : session C :=
  let t := ses_receivedTooManyUndecrytablePacketsTime s in
  let s := close_if (negb (Time_IsZero t) && Time_Before (Time_Add t PublicResetTimeout) now
                     && negb (zlen (ses_undecryptablePackets s) =? 0)) errTooManyUndecryptable s in
  let s := close_if (negb (ses_handshakeComplete s)
                     && (ses_HandshakeTimeout s <=? Time_Sub now (ses_sessionCreationTime s))) errHandshakeTimeout s in
  close_if (ses_handshakeComplete s && (idleTimeout s <=? Time_Sub now (ses_lastNetworkActivityTime s))) errNoNetworkActivity s.

(** A PATHS frame every 200 ms while there are streams besides 1 and 3. *)
Definition send_paths_frame (now : Time) : Ses unit :=
  s ← getS;
  if ses_handshakeComplete s && (VersionMP <=? ses_version s)
     && (200 * Millisecond <=? Time_Sub now (ses_lastPathsFrameSent s))
     && (2 <? zlen (sm_openStreams (sfr_streamsMap (ses_framer s))))
  then schedulePathsFrame else mret tt.

Definition loop_turn (fuel : nat) (ev : loop_event) : Ses unit :=
  go_on ← loop_select ev;
  if go_on : bool then
    now ← time_Now;
    (match ev with LoopPathTimer id => path_timer_fired id now | _ => mret tt end);;
    modifyS launch_path_manager;;
    keep_alive;;
    sent ← try (scheduler_sendPacket fuel);
    modifyS (fun s => match sent with inl e => closeLocal (Some e) s | inr _ => s end);;
    modifyS (check_timeouts now);;
    send_paths_frame now;;
    on_streams garbageCollectStreams;;
    mret tt
  else mret tt.

(** ** The goroutine of the path manager *)

Inductive manager_event := ManagerHandshakeCompleted | ManagerChangePaths | ManagerRunClosed.

(** [true] goes on.  Paths that cannot be created at first end the goroutine; later their
    error is dropped. *)
Definition pathManager_turn (ev : manager_event) : Ses bool :=
  s ← getS;
  match ev with
  | ManagerHandshakeCompleted =>
      if ses_createPaths s then
        r ← try createPaths;
        match r with
        | inl _ => modifyS closePaths;; mret false
        | inr _ => mret true
        end
      else mret true
  | ManagerChangePaths => (if ses_createPaths s then drop_error createPaths else mret tt);; mret true
  | ManagerRunClosed => modifyS closePaths;; mret false
  end.

(** ** Lost packets are sent again *)

#[local] Arguments assign {R T} field {_} v r /.

Definition path_queue pth : list Packet := sph_retransmissionQueue (pth_sentPacketHandler pth).

Definition stream_frames (fs : list Frame) : list StreamFrame :=
  omap (fun f => match f with FStream f => Some f | _ => None end) fs.

(** The stream frames of the packets that were not part of the handshake. *)
Definition resent (packets : list Packet) : list StreamFrame :=
  packets ≫= fun p => if bool_decide (pkt_EncryptionLevel p = EncryptionForwardSecure)
                      then stream_frames (pkt_Frames p) else [].

Definition retransmissions s : list StreamFrame := sfr_retransmissionQueue (ses_framer s).

(** What the loop works on. *)
Record work_kept s s' : Prop := {
  wk_paths : ses_paths s' = ses_paths s;
  wk_complete : ses_handshakeComplete s' = ses_handshakeComplete s;
  wk_frames : retransmissions s' = retransmissions s
}.

Lemma work_kept_trans s1 s2 s3 : work_kept s1 s2 -> work_kept s2 s3 -> work_kept s1 s3.
Proof. intros [] []. split; congruence. Qed.

Lemma put_path_work id pth s :
  ses_paths (put_path id pth s) = <[id := pth]> (ses_paths s) /\
  ses_handshakeComplete (put_path id pth s) = ses_handshakeComplete s /\ retransmissions (put_path id pth s) = retransmissions s.
Proof. unfold put_path, share_rtt. by destruct (id =? InitialPathID). Qed.

(** The first packet of the path [id] was taken. *)
Record taken s id p s' : Prop := {
  tk_path : exists pth pth' q, ses_paths s !! id = Some pth /\ path_queue pth = p :: q /\ path_queue pth' = q /\
    ses_paths s' = <[id := pth']> (ses_paths s);
  tk_complete : ses_handshakeComplete s' = ses_handshakeComplete s;
  tk_frames : retransmissions s' = retransmissions s
}.

Lemma dequeue_first_run ids s :
  (forall id, id ∈ ids -> is_Some (ses_paths s !! id)) ->
  exists next s', dequeue_first ids s = (Ok next, s') /\
  match next with
  | None => work_kept s s' /\ forall id pth, id ∈ ids -> ses_paths s !! id = Some pth -> path_queue pth = []
  | Some (id, p) => taken s id p s'
  end.
Proof.
  revert s. induction ids as [|id ids IH]; intros s Hk; cbn [dequeue_first].
  { exists None, s. split_and!; [done|done|]. intros id pth Hid. by apply elem_of_nil in Hid. }
  destruct (Hk id) as [pth E]; [by left|]. unfold_go. unfold on_path, on_handler, DequeuePacketForRetransmission. rewrite E.
  destruct (sph_retransmissionQueue (pth_sentPacketHandler pth)) as [|p q] eqn:Eq; cbn beta iota zeta.
  - set (pth0 := pth <| pth_sentPacketHandler := _ |>). assert (E0 : pth0 = pth) by (by destruct pth). rewrite E0.
    destruct (put_path_work id pth s) as (W1 & W2 & W3). rewrite insert_id in W1 by done.
    destruct (IH (put_path id pth s)) as (next & s' & En & H); [intros j Hj; rewrite W1; apply Hk; by right|].
    exists next, s'. split; [exact En|]. destruct next as [[j p]|].
    + destruct H as [H1 H2 H3]. rewrite W1 in H1. split; [done|congruence..].
    + destruct H as [Hw Hq]. rewrite W1 in Hq. split.
      * eapply work_kept_trans; [|exact Hw]. by split.
      * intros j pth' [->|Hj]%elem_of_cons Ej; [|by eapply Hq]. by simplify_eq.
  - set (pth' := pth <| pth_sentPacketHandler := _ |>). destruct (put_path_work id pth' s) as (W1 & W2 & W3).
    eexists _, _. split; [reflexivity|]. split; [|done..]. by exists pth, pth', q.
Qed.

Lemma queued_taken s id p s' : taken s id p s' -> queued_packets s ≡ₚ p :: queued_packets s'.
Proof.
  intros [(pth & pth' & q & E & Eq & Eq' & Ep) _ _]. unfold queued_packets. rewrite Ep.
  rewrite <- (map_to_list_delete (ses_paths s) id pth E).
  rewrite <- (map_to_list_delete (<[id := pth']> (ses_paths s)) id pth') by apply lookup_insert_eq.
  rewrite delete_insert_eq. cbn.
  change (sph_retransmissionQueue (pth_sentPacketHandler pth)) with (path_queue pth).
  change (sph_retransmissionQueue (pth_sentPacketHandler pth')) with (path_queue pth'). by rewrite Eq, Eq'.
Qed.

Lemma queued_none s : (forall id pth, ses_paths s !! id = Some pth -> path_queue pth = []) -> queued_packets s = [].
Proof.
  intros H. unfold queued_packets. assert (Hl : Forall (fun '(_, pth) => path_queue pth = []) (map_to_list (ses_paths s))).
  { apply Forall_forall. intros [id pth] Hin%elem_of_map_to_list. by eapply H. }
  induction Hl as [|[id pth] l Hp _ IH]; [done|]. cbn. unfold path_queue in Hp. by rewrite Hp, IH.
Qed.

(** Frames on their way out again. *)
Record resending s (fs : list StreamFrame) s' : Prop := {
  rs_paths : ses_paths s' = ses_paths s;
  rs_complete : ses_handshakeComplete s' = ses_handshakeComplete s;
  rs_frames : retransmissions s' = retransmissions s ++ fs
}.

Lemma resend_frame_run id f s : exists s', resend_frame id f s = (Ok tt, s') /\ resending s (stream_frames [f]) s'.
Proof.
  destruct f; cbn [resend_frame]; try (eexists; split; [reflexivity|]; split; [done..|]; by rewrite app_nil_r).
  - eexists. split; [reflexivity|]. done.
  - assert (H : exists o s1, on_flow (GetReceiveWindow (wu_StreamID f)) s = (o, s1) /\ (forall p, o <> Panic p) /\
      resending s [] s1).
    { unfold on_flow, on_framer, GetReceiveWindow, getFlowController. unfold_go. destruct (_ =? 0); unfold_go.
      - eexists _, _. split; [reflexivity|]. split; [done|]. split; [done..|]. by rewrite app_nil_r.
      - destruct (_ !! _); eexists _, _; (split; [reflexivity|]); (split; [done|]); (split; [done..|]); by rewrite app_nil_r. }
    destruct H as (o & s1 & -> & Ho & H1). destruct o as [off|e|p]; [|by exists s1|by edestruct Ho].
    destruct (off <=? wu_ByteOffset f); [|by exists s1]. eexists. split; [reflexivity|]. by destruct H1.
  - unfold schedulePathsFrame. eexists. split; [reflexivity|]. split; [done..|]. cbn. by rewrite app_nil_r.
Qed.

Lemma resend_frames_run id fs s : exists s', resend_frames id fs s = (Ok tt, s') /\ resending s (stream_frames fs) s'.
Proof.
  revert s. induction fs as [|f fs IH]; intros s; cbn [resend_frames].
  { exists s. split; [done|]. split; [done..|]. by rewrite app_nil_r. }
  destruct (resend_frame_run id f s) as (s1 & E1 & [P1 P2 P3]). destruct (IH s1) as (s2 & E2 & [Q1 Q2 Q3]).
  exists s2. erewrite run_bind_ok by exact E1. split; [exact E2|]. split; [congruence..|]. rewrite Q3, P3, <- app_assoc. f_equal.
  by destruct f.
Qed.

Lemma stream_frames_retransmission p : stream_frames (GetFramesForRetransmission p) = stream_frames (pkt_Frames p).
Proof.
  unfold GetFramesForRetransmission. induction (pkt_Frames p) as [|f fs IH]; [done|].
  destruct f; try exact IH. exact (f_equal (cons f) IH).
Qed.

Section Retransmissions.
Context (order_perm : forall n l, order n l ≡ₚ l).

Lemma range_paths_run s : exists ids, range_paths s = (Ok ids, s <| ses_tick := S (ses_tick s) |>) /\
  forall id, id ∈ ids <-> is_Some (ses_paths s !! id).
Proof.
  eexists. split; [reflexivity|]. intros id. cbn. rewrite order_perm, list_elem_of_fmap. split.
  - intros ([j pth] & -> & Hin%elem_of_map_to_list). by eexists.
  - intros [pth E]. exists (id, pth). by rewrite elem_of_map_to_list.
Qed.

(** How the loop ends: [packets] were taken, and [handshake] is what it returns. *)
Record retransmitted s (packets : list Packet) (handshake : option Packet) s' : Prop := {
  re_packets : queued_packets s ≡ₚ packets ++ option_list handshake ++ queued_packets s';
  re_frames : retransmissions s' = retransmissions s ++ resent packets;
  re_complete : ses_handshakeComplete s' = ses_handshakeComplete s;
  re_rest : handshake = None -> queued_packets s' = [];
  re_handshake : forall p, handshake = Some p -> pkt_EncryptionLevel p <> EncryptionForwardSecure /\
    ses_handshakeComplete s = false;
  re_dropped : Forall (fun p => pkt_EncryptionLevel p = EncryptionForwardSecure \/ ses_handshakeComplete s = true) packets
}.

Lemma retransmitted_more s p s1 s2 packets handshake s' :
  queued_packets s ≡ₚ p :: queued_packets s1 -> ses_handshakeComplete s1 = ses_handshakeComplete s ->
  retransmissions s1 = retransmissions s ->
  queued_packets s2 = queued_packets s1 -> ses_handshakeComplete s2 = ses_handshakeComplete s1 ->
  retransmissions s2 = retransmissions s1 ++ resent [p] ->
  (pkt_EncryptionLevel p = EncryptionForwardSecure \/ ses_handshakeComplete s = true) ->
  retransmitted s2 packets handshake s' -> retransmitted s (p :: packets) handshake s'.
Proof.
  intros H1 H2 H3 H4 H5 H6 H7 [R1 R2 R3 R4 R5 R6]. split.
  - rewrite H1, <- H4, R1. done.
  - rewrite R2, H6, H3, <- app_assoc. f_equal. unfold resent. cbn. by rewrite app_nil_r.
  - congruence.
  - done.
  - intros q Hq. rewrite <- H2, <- H5. by apply R5.
  - constructor; [done|]. by rewrite H5, H2 in R6.
Qed.

Lemma retransmit_loop_run fuel from s :
  (length (queued_packets s) < fuel)%nat ->
  exists has handshake last packets s', retransmit_loop fuel from s = (Ok (has, handshake, last), s') /\
    retransmitted s packets handshake s' /\
    (has = true <-> is_Some from \/ packets <> [] \/ handshake <> None).
Proof.
  revert from s. induction fuel as [|fuel IH]; intros from s Hf; [lia|]. cbn [retransmit_loop].
  destruct (range_paths_run s) as (ids & Er & Hids). erewrite run_bind_ok by exact Er.
  set (s0 := s <| ses_tick := _ |>). destruct (dequeue_first_run ids s0) as (next & s1 & En & H).
  { intros id Hid. by apply Hids. }
  erewrite run_bind_ok by exact En. destruct next as [[id p]|].
  2: { destruct H as [[W1 W2 W3] Hq]. exists (bool_decide (is_Some from)), None, from, [], s1. split; [done|].
       assert (E0 : queued_packets s = []).
       { apply queued_none. intros id pth E. apply (Hq id pth); [|done]. apply Hids. by rewrite E. }
       assert (E1 : queued_packets s1 = []) by (unfold queued_packets; rewrite W1; exact E0).
       split; [split; rewrite ?E0, ?E1; try done; by rewrite app_nil_r|]. rewrite bool_decide_eq_true. tauto. }
  pose proof (queued_taken _ _ _ _ H) as Hp. destruct H as [_ H2 H3]. change (queued_packets s0) with (queued_packets s) in Hp.
  change (ses_handshakeComplete s0) with (ses_handshakeComplete s) in H2.
  assert (Hl : (length (queued_packets s1) < fuel)%nat) by (rewrite Hp in Hf; cbn in Hf; lia).
  erewrite run_bind_ok by reflexivity. destruct (bool_decide_reflect (pkt_EncryptionLevel p = EncryptionForwardSecure)) as [El|El].
  - cbn [negb]. destruct (resend_frames_run id (GetFramesForRetransmission p) s1) as (s2 & E2 & [P1 P2 P3]).
    rewrite stream_frames_retransmission in P3.
    assert (Q2 : queued_packets s2 = queued_packets s1) by (unfold queued_packets; by rewrite P1).
    erewrite run_bind_ok by exact E2.
    destruct (IH (Some id) s2) as (has & hs & last & packets & s' & E & Hr & Hh); [by rewrite Q2|].
    exists has, hs, last, (p :: packets), s'. split_and!; [exact E| |].
    + eapply retransmitted_more; try done; [|by left]. rewrite P3. f_equal. unfold resent. cbn.
      by rewrite bool_decide_true, app_nil_r by done.
    + rewrite Hh. split; [intros _; right; by left|]. intros _. left. by eexists.
  - cbn [negb]. destruct (ses_handshakeComplete s1) eqn:Ec.
    + destruct (IH (Some id) s1 Hl) as (has & hs & last & packets & s' & E & Hr & Hh).
      exists has, hs, last, (p :: packets), s'. split_and!; [exact E| |].
      * assert (Er' : resent [p] = []) by (unfold resent; cbn; by rewrite bool_decide_false).
        eapply (retransmitted_more s p s1 s1); try done; [congruence|by rewrite Er', app_nil_r|right; congruence].
      * rewrite Hh. split; [intros _; right; by left|]. intros _. left. by eexists.
    + eexists true, (Some p), (Some id), [], s1. split; [done|]. split.
      * split; try done; [by rewrite app_nil_r|congruence|]. intros q [= <-]. split; [done|congruence].
      * split; [intros _; right; by right|done].
Qed.
End Retransmissions.

(** ** Which path is selected *)

(** The probabilities of the paths visited, added up as they are visited. *)
Definition add_probability s (hist : float64) (id : PathID) : float64 :=
  if negb (id =? InitialPathID) then f64_add hist (probability s id) else hist.

Definition reached (hasRetransmission : bool) (thresh : float64) s (ids : list PathID) (id : PathID) : Prop :=
  path_usable hasRetransmission s id = true /\ f64_ltb thresh (foldl (add_probability s) (f64_of_Z 0) (ids ++ [id])) = true.

(** The first path that is reached, or else the initial one. *)
Definition first_reached (hasRetransmission : bool) (thresh : float64) s (ids : list PathID) (r : PathID) : Prop :=
  (exists l1 l2, ids = l1 ++ r :: l2 /\ reached hasRetransmission thresh s l1 r /\
     forall k1 k k2, l1 = k1 ++ k :: k2 -> ~ reached hasRetransmission thresh s k1 k) \/
  r = InitialPathID /\ forall k1 k k2, ids = k1 ++ k :: k2 -> ~ reached hasRetransmission thresh s k1 k.

Lemma large_bandwidth_loop_spec has thresh s before ids hist :
  hist = foldl (add_probability s) (f64_of_Z 0) before ->
  (forall k1 k k2, before = k1 ++ k :: k2 -> ~ reached has thresh s k1 k) ->
  first_reached has thresh s (before ++ ids) (large_bandwidth_loop has thresh s ids hist).
Proof.
  revert before hist. induction ids as [|id ids IH]; intros before hist Eh Hb; cbn [large_bandwidth_loop].
  { right. by rewrite app_nil_r. }
  fold (add_probability s hist id).
  assert (Eh' : add_probability s hist id = foldl (add_probability s) (f64_of_Z 0) (before ++ [id])) by (by rewrite foldl_app, <- Eh).
  destruct (path_usable has s id && f64_ltb thresh (add_probability s hist id)) eqn:E.
  - apply andb_true_iff in E as [E1 E2]. left. exists before, ids. split_and!; [done| |done]. split; [done|]. by rewrite <- Eh'.
  - specialize (IH (before ++ [id]) (add_probability s hist id) Eh'). rewrite <- app_assoc in IH. apply IH.
    intros k1 k k2 Ek [R1 R2]. destruct k2 as [|k' k2 _] using rev_ind.
    + apply app_inj_tail in Ek as [-> ->]. rewrite <- Eh', R1 in *. by rewrite R2 in E.
    + rewrite app_comm_cons, app_assoc in Ek. apply app_inj_tail in Ek as [-> _]. by apply (Hb k1 k k2).
Qed.

Lemma large_bandwidth_known has thresh s ids hist :
  (forall id, id ∈ ids -> is_Some (ses_paths s !! id)) -> is_Some (ses_paths s !! InitialPathID) ->
  let r := large_bandwidth_loop has thresh s ids hist in
  is_Some (ses_paths s !! r) /\ (r = InitialPathID \/ path_usable has s r = true).
Proof.
  intros Hk Hi. revert hist. induction ids as [|id ids IH]; intros hist; cbn [large_bandwidth_loop]; [by split; [|left]|].
  destruct (path_usable has s id && _) eqn:E; [|apply IH; intros j Hj; apply Hk; by right].
  apply andb_true_iff in E as [E _]. split; [apply Hk; by left|by right].
Qed.

(** The round robin: no path that may send was used less. *)
Lemma round_robin_loop_spec has s ids sch selected lower :
  (forall id, quota_of sch id <= MaxUint) -> lower <= MaxUint ->
  (forall r, selected = Some r -> lower = quota_of sch r /\ path_usable has s r = true) ->
  (selected = None -> lower = MaxUint) ->
  let '(r, sch') := round_robin_loop has s ids sch selected lower in
  (forall id, quota_of sch' id = quota_of sch id) /\
  match r with
  | Some r => path_usable has s r = true /\ quota_of sch r <= lower /\
      forall id, id ∈ ids -> path_usable has s id = true -> quota_of sch r <= quota_of sch id
  | None => selected = None /\ forall id, id ∈ ids -> path_usable has s id = true -> quota_of sch id = MaxUint
  end.
Proof.
  assert (Ht : forall sch id j, quota_of (touch_quota id sch) j = quota_of sch j).
  { intros sch0 id j. unfold touch_quota, quota_of. destruct (sch_quotas sch0 !! id) eqn:E; [done|]. cbn.
    destruct (decide (id = j)) as [->|]; [by rewrite lookup_insert_eq, E|by rewrite lookup_insert_ne]. }
  revert sch selected lower. induction ids as [|id ids IH]; intros sch selected lower Hq Hlow Hsel Hnone; cbn [round_robin_loop].
  { split; [done|]. destruct selected as [r|].
    - destruct (Hsel r eq_refl) as [-> Hu]. split_and!; [done|lia|]. intros id Hid. by apply elem_of_nil in Hid.
    - split; [done|]. intros id Hid. by apply elem_of_nil in Hid. }
  destruct (path_usable has s id) eqn:Eu.
  2: { specialize (IH sch selected lower Hq Hlow Hsel Hnone).
       destruct (round_robin_loop has s ids sch selected lower) as [r sch']. destruct IH as [I1 I2]. split; [done|].
       destruct r; [destruct I2 as (I2 & I3 & I4); split_and!; [done..|]|destruct I2 as (I2 & I4); split_and!; [done|]];
         intros j [->|Hj]%elem_of_cons Hu; try congruence; by apply I4. }
  cbv zeta. pose proof (Hq id) as Hqid. destruct (quota_of sch id <? lower) eqn:Ec.
  - specialize (IH (touch_quota id sch) (Some id) (quota_of sch id)).
    destruct (round_robin_loop has s ids (touch_quota id sch) (Some id) (quota_of sch id)) as [r sch'].
    destruct IH as [I1 I2]; [intros j; by rewrite Ht|done|by intros r0 [= <-]; rewrite Ht|done|].
    split; [intros j; by rewrite I1, Ht|]. destruct r as [r|]; [|by destruct I2].
    rewrite Ht in I2. destruct I2 as (I2 & I3 & I4). split_and!; [done|lia|].
    intros j [->|Hj]%elem_of_cons Hu; [done|]. specialize (I4 j Hj Hu). by rewrite Ht in I4.
  - specialize (IH (touch_quota id sch) selected lower).
    destruct (round_robin_loop has s ids (touch_quota id sch) selected lower) as [r sch'].
    destruct IH as [I1 I2]; [intros j; by rewrite Ht|done|intros r0 Hr; rewrite Ht; by apply Hsel|done|].
    split; [intros j; by rewrite I1, Ht|]. destruct r as [r|].
    + rewrite Ht in I2. destruct I2 as (I2 & I3 & I4). split_and!; [done..|].
      intros j [->|Hj]%elem_of_cons Hu; [lia|]. specialize (I4 j Hj Hu). by rewrite Ht in I4.
    + destruct I2 as (I2 & I4). split; [done|]. specialize (Hnone I2).
      intros j [->|Hj]%elem_of_cons Hu; [lia|]. specialize (I4 j Hj Hu). by rewrite Ht in I4.
Qed.

(** The lowest latency: once every path that may send has an RTT, no other one is faster. *)
Lemma low_latency_loop_spec has s ids sch selected lower :
  (forall id pth, ses_paths s !! id = Some pth -> usable has id pth = true -> 0 < path_rtt pth) ->
  match selected with
  | Some r => exists pth, ses_paths s !! r = Some pth /\ usable has r pth = true /\ lower = path_rtt pth
  | None => lower = 0
  end ->
  let '(r, sch') := low_latency_loop has s ids sch selected lower in
  sch' = sch /\
  match r with
  | Some r => exists pth, ses_paths s !! r = Some pth /\ usable has r pth = true /\
      (is_Some selected -> path_rtt pth <= lower) /\
      forall id pth', id ∈ ids -> ses_paths s !! id = Some pth' -> usable has id pth' = true -> path_rtt pth <= path_rtt pth'
  | None => selected = None /\ forall id, id ∈ ids -> path_usable has s id = false
  end.
Proof.
  intros Hrtt. revert selected lower. induction ids as [|id ids IH]; intros selected lower Hsel; cbn [low_latency_loop].
  { split; [done|]. destruct selected as [r|]; [|by split; [|intros id Hid; apply elem_of_nil in Hid]].
    destruct Hsel as (pth & E & U & ->). exists pth. split_and!; [done..|]. intros id pth' Hid. by apply elem_of_nil in Hid. }
  assert (Skip : forall r sch', (forall pth', ses_paths s !! id = Some pth' -> usable has id pth' = true ->
       is_Some selected /\ lower <= path_rtt pth') -> low_latency_loop has s ids sch selected lower = (r, sch') -> sch' = sch /\
     match r with
     | Some r => exists pth, ses_paths s !! r = Some pth /\ usable has r pth = true /\ (is_Some selected -> path_rtt pth <= lower) /\
         forall j pth', j ∈ id :: ids -> ses_paths s !! j = Some pth' -> usable has j pth' = true -> path_rtt pth <= path_rtt pth'
     | None => selected = None /\ forall j, j ∈ id :: ids -> path_usable has s j = false
     end).
  { intros r sch' Hw Er. specialize (IH _ _ Hsel). rewrite Er in IH. destruct IH as [I1 I2]. split; [done|]. destruct r as [r|].
    - destruct I2 as (pth & E & U & L & M). exists pth. split_and!; [done..|].
      intros j pth' [->|Hj]%elem_of_cons Ej Uj; [|by eapply M]. destruct (Hw pth' Ej Uj) as [Hs Hl]. specialize (L Hs). lia.
    - destruct I2 as [-> M]. split; [done|]. intros j [->|Hj]%elem_of_cons; [|by apply M]. unfold path_usable.
      destruct (ses_paths s !! id) as [pth'|] eqn:Ej; [|done]. destruct (usable has id pth') eqn:Uj; [|done].
      by destruct (Hw pth' eq_refl Uj) as [[? ?] _]. }
  destruct (ses_paths s !! id) as [pth|] eqn:E.
  2: { destruct (low_latency_loop has s ids sch selected lower) as [r sch'] eqn:Er. by apply Skip. }
  destruct (usable has id pth) eqn:U; cbn [negb orb].
  2: { destruct (low_latency_loop has s ids sch selected lower) as [r sch'] eqn:Er. apply Skip; [|done]. intros ? [= <-]. congruence. }
  pose proof (Hrtt id pth E U) as Hp. rewrite (proj2 (Z.eqb_neq (path_rtt pth) 0)) by lia. rewrite andb_false_r. cbn [negb andb].
  destruct (negb (lower =? 0) && bool_decide (is_Some selected) && (lower <=? path_rtt pth)) eqn:Ec.
  { destruct (low_latency_loop has s ids sch selected lower) as [r sch'] eqn:Er. apply Skip; [|done].
    rewrite !andb_true_iff, bool_decide_eq_true in Ec. intros ? [= <-] _. split; [tauto|]. destruct Ec as [_ Ec]. lia. }
  specialize (IH (Some id) (path_rtt pth)). cbv iota in IH. specialize (IH (ex_intro _ pth (conj E (conj U eq_refl)))).
  destruct (low_latency_loop has s ids sch (Some id) (path_rtt pth)) as [r sch']. destruct IH as [I1 I2]. split; [done|].
  destruct r as [r|]; [|by destruct I2]. destruct I2 as (p & E' & U' & L & M). specialize (L ltac:(by eexists)).
  exists p. split_and!; [done..| |].
  - intros [r0 ->]. destruct Hsel as (p0 & E0 & U0 & ->). pose proof (Hrtt _ _ E0 U0).
    rewrite bool_decide_true in Ec by (by eexists). rewrite (proj2 (Z.eqb_neq (path_rtt p0) 0)) in Ec by lia. cbn in Ec. lia.
  - intros j pth' [->|Hj]%elem_of_cons Ej Uj; [|by eapply M]. by replace pth' with pth by congruence.
Qed.

(** ** What the operations promise *)

(** A path of the session, the initial one only as the last resort. *)
Definition selectable (hasRetransmission : bool) s (r : option PathID) : Prop :=
  match r with
  | None => one_path s = true /\ hasRetransmission = false /\
      forall pth, ses_paths s !! InitialPathID = Some pth -> path_SendingAllowed pth = false
  | Some id => is_Some (ses_paths s !! id) /\ (id = InitialPathID \/ path_usable hasRetransmission s id = true)
  end.

Lemma only_path_blocked_run has s : is_Some (ses_paths s !! InitialPathID) ->
  exists b, only_path_blocked has s = Ok b /\ (b = true -> selectable has s None) /\
    (b = false -> one_path s = true -> has = true \/
       forall pth, ses_paths s !! InitialPathID = Some pth -> path_SendingAllowed pth = true).
Proof.
  intros [pth E]. unfold only_path_blocked, selectable. destruct (one_path s); [|by exists false].
  destruct has; [exists false; naive_solver|]. rewrite E. exists (negb (path_SendingAllowed pth)). split; [done|].
  destruct (path_SendingAllowed pth) eqn:Ea; split; intros; try done; [right; congruence|]. split_and!; congruence.
Qed.

(** C4: Whatever the order in which the map of paths is visited, [getRetransmission]
    ends without an error and loses nothing: every packet that waited for its
    retransmission is taken once, the stream frames of those that are forward-secure are
    appended to the framer's retransmission queue in the order the packets were taken,
    and it returns either a packet of the unfinished handshake or an empty queue. *)
Theorem retransmissions_resent :
  (forall n l, order n l ≡ₚ l) ->
  forall s, exists has handshake last packets s',
    getRetransmission s = (Ok (has, handshake, last), s') /\ retransmitted s packets handshake s' /\
    (has = true <-> queued_packets s <> []).
Proof.
  intros Ho s. destruct (retransmit_loop_run Ho (S (length (queued_packets s))) None s) as (has & hs & last & ps & s' & E & R & H);
    [lia|].
  exists has, hs, last, ps, s'. split_and!; [exact E|exact R|]. rewrite H. pose proof (re_packets _ _ _ _ R) as P. split.
  - intros Hne Hq. rewrite Hq in P. symmetry in P. apply Permutation_nil_r in P.
    apply app_eq_nil in P as [-> [P _]%app_eq_nil]. destruct hs; [done|]. destruct Hne as [[? ?]|[?|?]]; done.
  - intros Hq. destruct ps; [|right; by left]. destruct hs; [right; by right|]. exfalso. apply Hq.
    rewrite (re_rest _ _ _ _ R) in P by done. by apply Permutation_nil_r in P.
Qed.

(** C25: The path selection never fails while the session has its initial path. It gives
    no path only when the session has a single path that must not send. Otherwise it
    draws a threshold and takes, in the order the paths are visited, the first path that
    may send, has not failed and at which the sum of the probabilities exceeds the
    threshold; the initial path only when there is none. *)
Theorem path_selected has stream from :
  (forall n l, order n l ≡ₚ l) ->
  forall s, is_Some (ses_paths s !! InitialPathID) ->
  exists r s', selectPath has stream from s = (Ok r, s') /\ ses_paths s' = ses_paths s /\
    ses_scheduler s' = ses_scheduler s /\ selectable has s r /\
    forall id, r = Some id -> exists ids, (forall j, j ∈ ids <-> is_Some (ses_paths s !! j)) /\
      first_reached has (randFloat64 (ses_tick s)) s ids id.
Proof.
  intros Ho s Hi. unfold selectPath, selectPathLargeBandwidth. destruct (only_path_blocked_run has s Hi) as (b & E & Hb & Hf).
  erewrite run_bind_ok by reflexivity. erewrite run_bind_ok by (unfold lift; rewrite E; reflexivity).
  destruct b; [exists None, s; naive_solver|]. erewrite run_bind_ok by reflexivity. set (s1 := s <| ses_tick := _ |>).
  destruct (range_paths_run Ho s1) as (ids & Er & Hids). erewrite run_bind_ok by exact Er.
  eexists (Some _), _. split; [reflexivity|]. split; [done|]. split; [done|].
  split; [apply large_bandwidth_known; [intros id; apply Hids|done]|]. intros id [= <-]. exists ids. split; [exact Hids|].
  apply (large_bandwidth_loop_spec has _ s [] ids); [done|]. by intros [] ?.
Qed.

(** With several paths, the round robin selection gives a path that may send and has
    not failed, and no such path was used less; it gives no path only when none of them
    is left, up to the largest count. It leaves the counts as they are. *)
Theorem round_robin_least has :
  (forall n l, order n l ≡ₚ l) ->
  forall s, is_Some (ses_paths s !! InitialPathID) -> one_path s = false ->
  (forall id, quota_of (ses_scheduler s) id < MaxUint) ->
  exists r s', selectPathRoundRobin has s = (Ok r, s') /\
    (forall id, quota_of (ses_scheduler s') id = quota_of (ses_scheduler s) id) /\
    match r with
    | Some r => path_usable has s r = true /\
        forall id, path_usable has s id = true -> quota_of (ses_scheduler s) r <= quota_of (ses_scheduler s) id
    | None => forall id, path_usable has s id = false
    end.
Proof.
  intros Ho s Hi H1 Hq. unfold selectPathRoundRobin. destruct (only_path_blocked_run has s Hi) as (b & E & Hb & _).
  erewrite run_bind_ok by reflexivity. erewrite run_bind_ok by (unfold lift; rewrite E; reflexivity).
  destruct b; [destruct (Hb eq_refl); congruence|]. rewrite H1.
  destruct (range_paths_run Ho s) as (ids & Er & Hids). erewrite run_bind_ok by exact Er.
  pose proof (round_robin_loop_spec has s ids (ses_scheduler s) None MaxUint) as H.
  destruct (round_robin_loop has s ids (ses_scheduler s) None MaxUint) as [r sch]. destruct H as [Hs H];
    [intros id; specialize (Hq id); lia|lia|done|done|].
  assert (Hin : forall id, path_usable has s id = true -> id ∈ ids).
  { intros id Hu. apply Hids. unfold path_usable in Hu. by destruct (ses_paths s !! id). }
  eexists r, _. split; [reflexivity|]. split; [exact Hs|]. destruct r as [r|].
  - destruct H as (Hu & _ & Hm). split; [done|]. intros id Hid. by apply Hm; [apply Hin|].
  - intros id. destruct (path_usable has s id) eqn:Hu; [|done]. destruct H as [_ H]. specialize (H id (Hin id Hu) Hu).
    specialize (Hq id). lia.
Qed.

(** With several paths and no retransmission, the lowest latency selection gives a path
    that may send and has not failed, and none of them is faster, provided all of them
    have a measured RTT. *)
Lemma lowest_latency has from :
  (forall n l, order n l ≡ₚ l) ->
  forall s, is_Some (ses_paths s !! InitialPathID) -> one_path s = false ->
  (forall id pth, ses_paths s !! id = Some pth -> usable has id pth = true -> 0 < path_rtt pth) ->
  exists r s', selectPathLowLatency has false from s = (Ok r, s') /\ ses_scheduler s' = ses_scheduler s /\
    match r with
    | Some r => exists pth, ses_paths s !! r = Some pth /\ usable has r pth = true /\
        forall id pth', ses_paths s !! id = Some pth' -> usable has id pth' = true -> path_rtt pth <= path_rtt pth'
    | None => forall id, path_usable has s id = false
    end.
Proof.
  intros Ho s Hi H1 Hrtt. unfold selectPathLowLatency. destruct (only_path_blocked_run has s Hi) as (b & E & Hb & _).
  erewrite run_bind_ok by reflexivity. erewrite run_bind_ok by (unfold lift; rewrite E; reflexivity).
  destruct b; [destruct (Hb eq_refl); congruence|]. rewrite H1.
  destruct (range_paths_run Ho s) as (ids0 & Er0 & _). erewrite run_bind_ok by exact Er0. set (s1 := s <| ses_tick := _ |>).
  unfold less_used_path. rewrite andb_false_r. erewrite run_bind_ok by reflexivity.
  destruct (range_paths_run Ho s1) as (ids & Er & Hids). erewrite run_bind_ok by exact Er.
  pose proof (low_latency_loop_spec has s ids (ses_scheduler s) None 0 Hrtt eq_refl) as H.
  destruct (low_latency_loop has s ids (ses_scheduler s) None 0) as [r sch]. destruct H as [-> H].
  eexists r, _. split; [reflexivity|]. split; [done|]. destruct r as [r|].
  - destruct H as (pth & Ep & Hu & _ & Hm). exists pth. split_and!; [done..|]. intros id pth' E' U'. eapply Hm; try done.
    apply Hids. by exists pth'.
  - intros id. destruct H as [_ H]. destruct (ses_paths s !! id) eqn:Ei; [|unfold path_usable; by rewrite Ei].
    apply H, Hids. by eexists.
Qed.

(** ** When the session closes by itself *)

Lemma over d t now : 0 <= d <= maxDuration -> (d <=? Time_Sub now t) = true <-> Time_Add t d <= now.
Proof. unfold Time_Sub, Time_Add, minDuration, maxDuration. lia. Qed.

Lemma MinTime_le a b now : MinTime a b <= now <-> a <= now \/ b <= now.
Proof. unfold MinTime, Time_After. destruct (b <? a) eqn:E; lia. Qed.

Lemma close_if_open b e s : ses_closeErr s = None -> ses_closeErr (close_if b e s) = None <-> b = false.
Proof. intros E. unfold close_if, closeLocal, close_once. destruct b; rewrite ?E; done. Qed.

Lemma close_if_closed b e s : ses_closeErr s <> None -> ses_closeErr (close_if b e s) <> None.
Proof. unfold close_if, closeLocal, close_once. destruct b; [|done]. destruct (ses_closeErr s) eqn:E; by rewrite ?E. Qed.

Lemma close_if_true e s : ses_closeErr (close_if true e s) <> None.
Proof. unfold close_if, closeLocal, close_once. destruct (ses_closeErr s) eqn:E; by rewrite ?E. Qed.

(** The reasons to close, one by one. *)
Definition keys_late (now : Time) s : Prop :=
  let t := ses_receivedTooManyUndecrytablePacketsTime s in
  t <> zeroTime /\ Time_Add t PublicResetTimeout < now /\ ses_undecryptablePackets s <> [].
Definition handshake_late (now : Time) s : Prop :=
  ses_handshakeComplete s = false /\ Time_Add (ses_sessionCreationTime s) (ses_HandshakeTimeout s) <= now.
Definition idle_late (now : Time) s : Prop :=
  ses_handshakeComplete s = true /\ Time_Add (ses_lastNetworkActivityTime s) (idleTimeout s) <= now.

Definition durations_ok s : Prop := 0 <= ses_HandshakeTimeout s <= maxDuration /\ 0 <= idleTimeout s <= maxDuration.

Lemma close_if_same {A} (f : session C -> A) b e s : (forall c, f (s <| ses_closeErr := c |>) = f s) -> f (close_if b e s) = f s.
Proof. intros H. unfold close_if, closeLocal, close_once. destruct b, (ses_closeErr s); try done; apply H. Qed.

Lemma check_timeouts_closes now s : ses_closeErr s = None -> durations_ok s ->
  ses_closeErr (check_timeouts now s) <> None <-> keys_late now s \/ handshake_late now s \/ idle_late now s.
Proof.
  intros E [Hh Hi]. unfold check_timeouts. set (b1 := _ && negb (zlen _ =? 0)). set (s1 := close_if b1 _ s). cbv zeta.
  assert (K1 : ses_handshakeComplete s1 = ses_handshakeComplete s) by (by apply close_if_same).
  assert (K2 : ses_HandshakeTimeout s1 = ses_HandshakeTimeout s) by (by apply close_if_same).
  assert (K3 : ses_sessionCreationTime s1 = ses_sessionCreationTime s) by (by apply close_if_same).
  rewrite K1, K2, K3. set (b2 := negb (ses_handshakeComplete s) && _). set (s2 := close_if b2 _ s1).
  assert (L1 : ses_handshakeComplete s2 = ses_handshakeComplete s) by (unfold s2; by rewrite (close_if_same ses_handshakeComplete)).
  assert (L2 : ses_lastNetworkActivityTime s2 = ses_lastNetworkActivityTime s)
    by (unfold s2, s1; by rewrite !(close_if_same ses_lastNetworkActivityTime)).
  assert (L3 : idleTimeout s2 = idleTimeout s) by (unfold s2, s1; by rewrite !(close_if_same idleTimeout)).
  rewrite L1, L2, L3. set (b3 := ses_handshakeComplete s && _).
  assert (B1 : b1 = true <-> keys_late now s).
  { unfold b1, keys_late, Time_IsZero, Time_Before. rewrite !andb_true_iff, !negb_true_iff, Z.eqb_neq, Z.eqb_neq, Z.ltb_lt.
    destruct (ses_undecryptablePackets s); unfold zlen; cbn; naive_solver lia. }
  assert (B2 : b2 = true <-> handshake_late now s).
  { unfold b2, handshake_late. by rewrite andb_true_iff, negb_true_iff, over. }
  assert (B3 : b3 = true <-> idle_late now s) by (unfold b3, idle_late; by rewrite andb_true_iff, over).
  rewrite <- B1, <- B2, <- B3. destruct b1; [split; [by left|]; intros _; by apply close_if_closed, close_if_closed, close_if_true|].
  destruct b2; [split; [by right; left|]; intros _; by apply close_if_closed, close_if_true|].
  change (ses_closeErr (close_if b3 errNoNetworkActivity s) <> None <-> false = true \/ false = true \/ b3 = true).
  rewrite close_if_open by done. destruct b3; naive_solver.
Qed.

(** C26: At the end of a turn of the run loop the session closes itself exactly for one of
    three reasons: undecryptable packets have waited too long, the handshake has taken
    too long, or there was no activity for too long. The deadline that the session's timer
    is set to has passed by then, so the turn is not missed; and when the deadline has
    passed, then the session closes, or it owes the peer a PING, or its queue of
    undecryptable packets was full once, or it was idle before the handshake was over. *)
Theorem timeouts_on_time now s :
  ses_closeErr s = None -> durations_ok s ->
  let closes := ses_closeErr (check_timeouts now s) <> None in
  (closes <-> keys_late now s \/ handshake_late now s \/ idle_late now s) /\
  (closes -> session_deadline s <= now) /\
  (session_deadline s <= now ->
     closes \/
     (ses_KeepAlive s = true /\ ses_keepAlivePingSent s = false /\
      Time_Add (ses_lastNetworkActivityTime s) (Z.quot (idleTimeout s) 2) <= now) \/
     (ses_receivedTooManyUndecrytablePacketsTime s <> zeroTime /\
      Time_Add (ses_receivedTooManyUndecrytablePacketsTime s) PublicResetTimeout <= now) \/
     (ses_handshakeComplete s = false /\ Time_Add (ses_lastNetworkActivityTime s) (idleTimeout s) <= now)).
Proof.
  intros E Hd. cbv zeta. rewrite (check_timeouts_closes now s E Hd). split; [done|]. destruct Hd as [Hh Hi].
  assert (Hq : 0 <= Z.quot (idleTimeout s) 2 <= idleTimeout s) by (rewrite Z.quot_div_nonneg by lia; split; [apply Z.div_pos|apply Z.div_le_upper_bound]; lia).
  unfold session_deadline, keys_late, handshake_late, idle_late, Time_IsZero in *.
  destruct (Z.eqb_spec (ses_receivedTooManyUndecrytablePacketsTime s) zeroTime) as [Ez|Ez];
    destruct (ses_handshakeComplete s), (ses_KeepAlive s), (ses_keepAlivePingSent s); cbn [negb andb]; rewrite ?MinTime_le;
    unfold Time_Add in *; (split; [intros [(? & ? & ?)|[[? ?]|[? ?]]]; try done; lia|naive_solver lia]).
Qed.

(** The queue was full once: the timer stays at its deadline of that time, whatever happens
    afterwards. *)
Lemma deadline_stuck s : ses_receivedTooManyUndecrytablePacketsTime s <> zeroTime ->
  session_deadline s <= Time_Add (ses_receivedTooManyUndecrytablePacketsTime s) PublicResetTimeout.
Proof.
  intros H. unfold session_deadline, Time_IsZero. rewrite (proj2 (Z.eqb_neq _ _)) by done. cbn [negb]. apply MinTime_le. by right.
Qed.
End Scheduler.

(** ** A session with three paths *)

(** The packet 7 of the path 3 was lost. *)
Definition sample_lost : Packet :=
  mkPacket 7 [FPing mkPingFrame; FStream (mkStreamFrame 5 false true 0 [104; 105])] 100 EncryptionForwardSecure zeroTime.

Definition sample_lossy_path (id : PathID) (lost : list Packet) : option (path Z) :=
  (fun pth => pth <| pth_pathID := id |>
     <| pth_sentPacketHandler := (pth_sentPacketHandler pth) <| sph_retransmissionQueue := lost |> |>)
  <$> ses_paths sample_session !! InitialPathID.

Definition sample_paths : session Z :=
  sample_session <| ses_paths := partial_alter (fun _ => sample_lossy_path 1 []) 1
                                   (partial_alter (fun _ => sample_lossy_path 3 [sample_lost]) 3 (ses_paths sample_session)) |>
    <| ses_probability := {[ 1 := f64_const 1 4; 3 := f64_const 1 2 ]} |>
    <| ses_scheduler := (ses_scheduler sample_session) <| sch_quotas := {[ 1 := 5; 3 := 2 ]} |> |>.

Lemma retransmissions_resent_witness :
  exists r s', getRetransmission (EN := sample_env) sample_paths = (Ok (true, None, r), s') /\
    retransmissions s' = [mkStreamFrame 5 false true 0 [104; 105]] /\ queued_packets s' = [].
Proof.
  destruct (retransmissions_resent (EN := sample_env) (fun _ _ => Permutation_refl _) sample_paths)
    as (has & handshake & last & packets & s' & E & R & _).
  assert (Hc : (fun '(r, s') => (r, retransmissions s')) (getRetransmission (EN := sample_env) sample_paths)
    = (Ok (true, None, Some 3), [mkStreamFrame 5 false true 0 [104; 105]])) by (vm_compute; reflexivity).
  rewrite E in Hc. injection Hc as -> -> -> Hf. exists (Some 3), s'. split_and!; [exact E|exact Hf|by apply (re_rest _ _ _ _ R)].
Defined.

Lemma path_selected_witness :
  exists s', selectPath (SA := fixed_window) (EN := sample_env) false false None sample_paths = (Ok (Some 1), s') /\
    selectable (SA := fixed_window) false sample_paths (Some 1).
Proof.
  destruct (path_selected (SA := fixed_window) (EN := sample_env) false false None (fun _ _ => Permutation_refl _) sample_paths)
    as (r & s' & E & _ & _ & H & _); [vm_compute; by eexists|].
  assert (Hc : fst (selectPath (SA := fixed_window) (EN := sample_env) false false None sample_paths) = Ok (Some 1))
    by (vm_compute; reflexivity).
  rewrite E in Hc. injection Hc as ->. exists s'. by split.
Defined.

Lemma round_robin_least_witness :
  exists s', selectPathRoundRobin (SA := fixed_window) (EN := sample_env) false sample_paths = (Ok (Some 3), s') /\
    path_usable (SA := fixed_window) false sample_paths 1 = true /\ quota_of (ses_scheduler s') 3 = 2.
Proof.
  destruct (round_robin_least (SA := fixed_window) (EN := sample_env) false (fun _ _ => Permutation_refl _) sample_paths)
    as (r & s' & E & Hs & _); [vm_compute; by eexists|vm_compute; reflexivity| |].
  { intros id. unfold quota_of. change (sch_quotas _) with ({[ 1 := 5; 3 := 2 ]} : gmap Z Z).
    destruct (decide (id = 1)) as [->|]; [done|]. destruct (decide (id = 3)) as [->|]; [done|].
    rewrite lookup_insert_ne, lookup_singleton_ne by done. done. }
  assert (Hc : fst (selectPathRoundRobin (SA := fixed_window) (EN := sample_env) false sample_paths) = Ok (Some 3))
    by (vm_compute; reflexivity).
  rewrite E in Hc. injection Hc as ->. exists s'. split_and!; [exact E|vm_compute; reflexivity|]. by rewrite Hs.
Defined.

(** Two paths whose windows are full, and nothing to retransmit: [selectPath] gives the
    initial path, although it must not send either. *)
Lemma full_windows_ignored :
  exists s s', (forall id pth, ses_paths s !! id = Some pth -> path_SendingAllowed (SA := fixed_window) pth = false) /\
    selectPath (SA := fixed_window) (EN := sample_env) false false None s = (Ok (Some InitialPathID), s').
Proof.
  pose (full := fun pth : path Z => pth <| pth_sentPacketHandler := (pth_sentPacketHandler pth) <| sph_bytesInFlight := 200000 |>
    <| sph_retransmissionQueue := [] |> |>).
  exists (sample_paths <| ses_paths := full <$> ses_paths sample_paths |>). eexists. split.
  - intros id pth Hp.
    assert (Hc : forallb (fun '(_, pth) => negb (path_SendingAllowed (SA := fixed_window) pth))
      (map_to_list (full <$> ses_paths sample_paths)) = true) by (vm_compute; reflexivity).
    rewrite forallb_forall in Hc. apply elem_of_map_to_list, list_elem_of_In in Hp. by apply Hc, negb_true_iff in Hp.
  - vm_compute. reflexivity.
Qed.

Lemma timeouts_on_time_witness :
  let now := 31 * Second + 1000 in
  ses_closeErr (check_timeouts now (sample_session <| ses_handshakeComplete := true |>)) = Some (mkCloseError (Some errNoNetworkActivity) false) /\
  session_deadline (sample_session <| ses_handshakeComplete := true |>) <= now.
Proof.
  cbv zeta. split; [vm_compute; reflexivity|].
  apply (timeouts_on_time (31 * Second + 1000) (sample_session <| ses_handshakeComplete := true |>));
    [vm_compute; reflexivity|by vm_compute|vm_compute; congruence].
Defined.
