(* ===== verification/Amf.v ===== *)
(** * liveproxy/protocol/amf: Action Message Format, versions 0 and 3

    The commands and the metadata of the live streaming proxy.  A value of Go's empty
    interface is an [amf_value]; a map is a list of pairs with different keys, in the
    order in which [range] visits it; a float is its 64 bits; a time is its Unix time.
    The reader is a [bytes.Reader], as in all callers, the writer a [bytes.Buffer].

    The decoders call themselves for what is nested: [DecodeAmf0_n] and [DecodeAmf3_n]
    have fuel, and the loops over elements have fuel of their own, both one more than
    the bytes that are left. *)

From stdpp Require Import pretty.
From S2P Require Import Prelude ByteOrder Float Cbrt.

(** ** Values *)

Inductive int_kind := KInt | KInt8 | KInt16 | KInt32 | KInt64 | KUint | KUint8 | KUint16 | KUint32 | KUint64.

#[local] Unset Elimination Schemes.
Inductive amf_value :=
| VNil
| VBool (b : bool)
| VInt (k : int_kind) (n : Z)
| VFloat (bits : Z)
| VString (s : list Z)
| VArray (l : list amf_value)
| VBytes (bs : list Z)
| VObject (o : list (list Z * amf_value))
| VTypedObject (type : list Z) (o : list (list Z * amf_value))
| VMap
| VTime (unix : Z)
| VOther (type : string).
#[local] Set Elimination Schemes.

Abbreviation Object := (list (list Z * amf_value)) (only parsing).

Record Trait := mkTrait {
  tr_Type : list Z;
  tr_Externalizable : bool;
  tr_Dynamic : bool;
  tr_Properties : list (list Z)
}.

Record Decoder := mkDecoder {
  dec_refCache : list amf_value;
  dec_stringRefs : list (list Z);
  dec_objectRefs : list amf_value;
  dec_traitRefs : list Trait
}.

#[global] Instance eta_Decoder : Eta Decoder := fun d =>
  mkDecoder (dec_refCache d) (dec_stringRefs d) (dec_objectRefs d) (dec_traitRefs d).

Definition NewDecoder : Decoder := mkDecoder [] [] [] [].

(** The bytes of a string of the source. *)
Definition bytes_of (s : string) : list Z := map (fun c => Z.of_nat (Ascii.nat_of_ascii c)) (String.list_ascii_of_string s).

(** [o[key] = v] *)
Fixpoint object_set (key : list Z) (v : amf_value) (o : Object) : Object :=
  match o with
  | [] => [(key, v)]
  | (k, w) :: o => if decide (k = key) then (k, v) :: o else (k, w) :: object_set key v o
  end.

Definition AMF0 : Z := 0.
Definition AMF3 : Z := 3.
Definition AMF0_NUMBER_MARKER : Z := 0x00.
Definition AMF0_BOOLEAN_MARKER : Z := 0x01.
Definition AMF0_STRING_MARKER : Z := 0x02.
Definition AMF0_OBJECT_MARKER : Z := 0x03.
Definition AMF0_MOVIECLIP_MARKER : Z := 0x04.
Definition AMF0_NULL_MARKER : Z := 0x05.
Definition AMF0_UNDEFINED_MARKER : Z := 0x06.
Definition AMF0_REFERENCE_MARKER : Z := 0x07.
Definition AMF0_ECMA_ARRAY_MARKER : Z := 0x08.
Definition AMF0_OBJECT_END_MARKER : Z := 0x09.
Definition AMF0_STRICT_ARRAY_MARKER : Z := 0x0a.
Definition AMF0_DATE_MARKER : Z := 0x0b.
Definition AMF0_LONG_STRING_MARKER : Z := 0x0c.
Definition AMF0_UNSUPPORTED_MARKER : Z := 0x0d.
Definition AMF0_RECORDSET_MARKER : Z := 0x0e.
Definition AMF0_XML_DOCUMENT_MARKER : Z := 0x0f.
Definition AMF0_TYPED_OBJECT_MARKER : Z := 0x10.
Definition AMF0_ACMPLUS_OBJECT_MARKER : Z := 0x11.
Definition AMF0_BOOLEAN_FALSE : Z := 0x00.
Definition AMF0_BOOLEAN_TRUE : Z := 0x01.
Definition AMF0_STRING_MAX : Z := 65535.
Definition AMF3_INTEGER_MAX : Z := 536870911.
Definition AMF3_UNDEFINED_MARKER : Z := 0x00.
Definition AMF3_NULL_MARKER : Z := 0x01.
Definition AMF3_FALSE_MARKER : Z := 0x02.
Definition AMF3_TRUE_MARKER : Z := 0x03.
Definition AMF3_INTEGER_MARKER : Z := 0x04.
Definition AMF3_DOUBLE_MARKER : Z := 0x05.
Definition AMF3_STRING_MARKER : Z := 0x06.
Definition AMF3_XMLDOC_MARKER : Z := 0x07.
Definition AMF3_DATE_MARKER : Z := 0x08.
Definition AMF3_ARRAY_MARKER : Z := 0x09.
Definition AMF3_OBJECT_MARKER : Z := 0x0a.
Definition AMF3_XMLSTRING_MARKER : Z := 0x0b.
Definition AMF3_BYTEARRAY_MARKER : Z := 0x0c.

(** ** Writing *)

Abbreviation Enc := (GoM (list Z)).

(** [fmt.Errorf(format, err)] for the error of a call. *)
Definition wrap_error {S A} (format : string) (m : GoM S A) : GoM S A := fun s =>
  match m s with (Err e, s) => (Err (fmt_Wrap format e), s) | r => r end.

(** A [bytes.Buffer] takes everything. *)
Definition amf_WriteBytes (bs : list Z) : Enc Z := WriteBytes bs;; mret (zlen bs).
Definition amf_WriteByte (b : Z) : Enc unit := amf_WriteBytes [b];; mret tt.
Definition WriteMarker (m : Z) : Enc unit := amf_WriteByte m.

(** [binary.Write] with [binary.BigEndian] of an integer or a float of [n] bytes. *)
Definition binary_Write (n : nat) (v : Z) : Enc unit := WriteBytes (be_enc n v).

(** The marker, when it is asked for, and its length. *)
Definition encode_marker (encodeMarker : bool) (m : Z) : Enc Z :=
  if encodeMarker then WriteMarker m;; mret 1 else mret 0.

(** float64 of an integer *)
Definition float_bits (n : Z) : Z := Float64bits (f64_of_Z n).

Definition EncodeAmf0Number (bits : Z) (encodeMarker : bool) : Enc Z :=
  n ← encode_marker encodeMarker AMF0_NUMBER_MARKER;
  binary_Write 8 bits;;
  mret (n + 8).

Definition EncodeAmf0Boolean (val encodeMarker : bool) : Enc Z :=
  n ← encode_marker encodeMarker AMF0_BOOLEAN_MARKER;
  m ← amf_WriteBytes [if val then AMF0_BOOLEAN_TRUE else AMF0_BOOLEAN_FALSE];
  mret (n + m).

Definition EncodeAmf0String (val : list Z) (encodeMarker : bool) : Enc Z :=
  n ← encode_marker encodeMarker AMF0_STRING_MARKER;
  wrap_error "encode amf0: unable to encode string length: %s" (binary_Write 2 (u16 (zlen val)));;
  m ← wrap_error "encode amf0: unable to encode string value: %s" (amf_WriteBytes val);
  mret (n + 2 + m).

Definition EncodeAmf0LongString (val : list Z) (encodeMarker : bool) : Enc Z :=
  n ← encode_marker encodeMarker AMF0_LONG_STRING_MARKER;
  wrap_error "encode amf0: unable to encode long string length: %s" (binary_Write 4 (u32 (zlen val)));;
  m ← wrap_error "encode amf0: unable to encode long string value: %s" (amf_WriteBytes val);
  mret (n + 4 + m).

Definition EncodeAmf0Null (encodeMarker : bool) : Enc Z := encode_marker encodeMarker AMF0_NULL_MARKER.
Definition EncodeAmf0Undefined (encodeMarker : bool) : Enc Z := encode_marker encodeMarker AMF0_UNDEFINED_MARKER.
Definition EncodeAmf0Unsupported (encodeMarker : bool) : Enc Z := encode_marker encodeMarker AMF0_UNSUPPORTED_MARKER.
Definition EncodeAmf0Amf3Marker : Enc unit := WriteMarker AMF0_ACMPLUS_OBJECT_MARKER.

(** The loop over the elements, [n] bytes so far. *)
Definition encode_elements {A} (format : string) (encode : A -> Enc Z) : list A -> Z -> Enc Z :=
  fix go l n :=
    match l with
    | [] => mret n
    | v :: l => m ← wrap_error format (encode v); go l (n + m)
    end.

Definition EncodeAmf0StrictArray {A} (encode : A -> Enc Z) (val : list A) (encodeMarker : bool) : Enc Z :=
  n ← encode_marker encodeMarker AMF0_STRICT_ARRAY_MARKER;
  wrap_error "encode amf0: unable to encode strict array length: %s" (binary_Write 4 (u32 (zlen val)));;
  encode_elements "encode amf0: unable to encode strict array element: %s" encode val (n + 4).

(** The loop over the keys and values of an object. *)
Definition encode_fields (encode : amf_value -> Enc Z) : Object -> Z -> Enc Z :=
  fix go o n :=
    match o with
    | [] => mret n
    | (k, v) :: o =>
        m ← wrap_error "encode amf0: unable to encode object key: %s" (EncodeAmf0String k false);
        m' ← wrap_error "encode amf0: unable to encode object value: %s" (encode v);
        go o (n + m + m')
    end.

Definition EncodeAmf0Object (encode : amf_value -> Enc Z) (val : Object) (encodeMarker : bool) : Enc Z :=
  n ← encode_marker encodeMarker AMF0_OBJECT_MARKER;
  n ← encode_fields encode val n;
  m ← wrap_error "encode amf0: unable to encode object empty string: %s" (EncodeAmf0String [] false);
  wrap_error "encode amf0: unable to object end marker: %s" (WriteMarker AMF0_OBJECT_END_MARKER);;
  mret (n + m + 1).

Definition EncodeAmf0EcmaArray (encode : amf_value -> Enc Z) (val : Object) (encodeMarker : bool) : Enc Z :=
  n ← encode_marker encodeMarker AMF0_ECMA_ARRAY_MARKER;
  wrap_error "encode amf0: unable to encode ecma array length: %s" (binary_Write 4 (u32 (zlen val)));;
  m ← wrap_error "encode amf0: unable to encode ecma array object: %s" (EncodeAmf0Object encode val false);
  mret (n + 4 + m).

Fixpoint EncodeAmf0 (val : amf_value) : Enc Z :=
  match val with
  | VNil => EncodeAmf0Null true
  | VString s => if zlen s <=? AMF0_STRING_MAX then EncodeAmf0String s true else EncodeAmf0LongString s true
  | VBool b => EncodeAmf0Boolean b true
  | VInt _ n => EncodeAmf0Number (float_bits n) true
  | VFloat bits => EncodeAmf0Number bits true
  | VArray l => EncodeAmf0StrictArray EncodeAmf0 l true
  | VBytes bs => EncodeAmf0StrictArray (fun b => EncodeAmf0Number (float_bits b) true) bs true
  | VObject o => EncodeAmf0Object EncodeAmf0 o true
  | VMap => fail (errors_New "encode amf0: unable to create object from map")
  | VTypedObject _ _ => fail (errors_New "encode amf0: unsupported type typed object")
  | VTime _ => fail (fmt_Wrap "encode amf0: unsupported type %s" (errors_New "time.Time"))
  | VOther t => fail (fmt_Wrap "encode amf0: unsupported type %s" (errors_New t))
  end.

(** ** Writing, version 3 *)

Definition encodeAmf3Uint29 (val : Z) : Enc Z :=
  if val <=? 0x7F then amf_WriteByte (u8 val);; mret 1
  else if val <=? 0x3FFF then
    amf_WriteBytes [u8 (Z.lor (Z.shiftr val 7) 0x80); u8 (Z.land val 0x7F)]
  else if val <=? 0x1FFFFF then
    amf_WriteBytes [u8 (Z.lor (Z.shiftr val 14) 0x80); u8 (Z.lor (Z.land (Z.shiftr val 7) 0x7F) 0x80); u8 (Z.land val 0x7F)]
  else if val <=? 0x1FFFFFFF then
    amf_WriteBytes [u8 (Z.lor (Z.shiftr val 22) 0x80); u8 (Z.lor (Z.land (Z.shiftr val 15) 0x7F) 0x80);
                    u8 (Z.lor (Z.land (Z.shiftr val 8) 0x7F) 0x80); u8 val]
  else fail (fmt_Errorf "amf3 encode: cannot encode u29 with value %d (out of range)" [val]).

(** The length of something that is not a reference. *)
Definition u29_length (n : Z) : Z := Z.lor (u32 (Z.shiftl (u32 n) 1)) 0x01.

Definition encodeAmf3Utf8 (val : list Z) : Enc Z :=
  n ← wrap_error "amf3 encode: cannot encode u29 for string: %s" (encodeAmf3Uint29 (u29_length (zlen val)));
  m ← wrap_error "encode amf3: unable to encode string value: %s" (amf_WriteBytes val);
  mret (n + m).

Definition EncodeAmf3Undefined (encodeMarker : bool) : Enc Z := encode_marker encodeMarker AMF3_UNDEFINED_MARKER.
Definition EncodeAmf3Null (encodeMarker : bool) : Enc Z := encode_marker encodeMarker AMF3_NULL_MARKER.
Definition EncodeAmf3False (encodeMarker : bool) : Enc Z := encode_marker encodeMarker AMF3_FALSE_MARKER.
Definition EncodeAmf3True (encodeMarker : bool) : Enc Z := encode_marker encodeMarker AMF3_TRUE_MARKER.

Definition EncodeAmf3Integer (val : Z) (encodeMarker : bool) : Enc Z :=
  n ← encode_marker encodeMarker AMF3_INTEGER_MARKER;
  m ← encodeAmf3Uint29 val;
  mret (n + m).

Definition EncodeAmf3Double (bits : Z) (encodeMarker : bool) : Enc Z :=
  n ← encode_marker encodeMarker AMF3_DOUBLE_MARKER;
  binary_Write 8 bits;;
  mret (n + 8).

Definition EncodeAmf3String (val : list Z) (encodeMarker : bool) : Enc Z :=
  n ← encode_marker encodeMarker AMF3_STRING_MARKER;
  m ← encodeAmf3Utf8 val;
  mret (n + m).

Definition EncodeAmf3Date (unix : Z) (encodeMarker : bool) : Enc Z :=
  n ← encode_marker encodeMarker AMF3_DATE_MARKER;
  wrap_error "amf3 encode: cannot encode u29 for array: %s" (WriteMarker 0x01);;
  wrap_error "amf3 encode: unable to write date double: %s"
    (binary_Write 8 (Float64bits (f64_mul (f64_of_Z unix) (f64_of_Z 1000))));;
  mret (n + 1 + 8).

Definition EncodeAmf3Array {A} (encode : A -> Enc Z) (val : list A) (encodeMarker : bool) : Enc Z :=
  n ← encode_marker encodeMarker AMF3_ARRAY_MARKER;
  m ← wrap_error "amf3 encode: cannot encode u29 for array: %s" (encodeAmf3Uint29 (u29_length (zlen val)));
  m' ← wrap_error "amf3 encode: cannot encode empty string for array: %s" (encodeAmf3Utf8 []);
  encode_elements "amf3 encode: cannot encode array element: %s" encode val (n + m + m').

Definition EncodeAmf3ByteArray (val : list Z) (encodeMarker : bool) : Enc Z :=
  n ← encode_marker encodeMarker AMF3_BYTEARRAY_MARKER;
  m ← wrap_error "amf3 encode: cannot encode u29 for bytearray: %s" (encodeAmf3Uint29 (u29_length (zlen val)));
  m' ← wrap_error "encode amf3: unable to encode bytearray value: %s" (amf_WriteBytes val);
  mret (n + m + m').

(** [sort.Strings] on the keys: byte by byte, with what belongs to them. *)
Fixpoint string_leb (s t : list Z) : bool :=
  match s, t with
  | [], _ => true
  | _ :: _, [] => false
  | a :: s, b :: t => (a <? b) || ((a =? b) && string_leb s t)
  end.

Fixpoint insert_field {A} (f : list Z * A) (o : list (list Z * A)) : list (list Z * A) :=
  match o with
  | [] => [f]
  | g :: o => if string_leb (fst f) (fst g) then f :: g :: o else g :: insert_field f o
  end.

Definition sort_fields {A} (o : list (list Z * A)) : list (list Z * A) := foldr insert_field [] o.

(** The fields are the encodings of their values.  The trait that the code makes is
    neither dynamic nor externalizable, so the branches for these are never taken. *)
Definition EncodeAmf3Object (type : list Z) (fields : list (list Z * Enc Z)) (encodeMarker : bool) : Enc Z :=
  n ← encode_marker encodeMarker AMF3_OBJECT_MARKER;
  let fields := sort_fields fields in
  let u29 := Z.lor 0x03 (u32 (Z.shiftl (u32 (zlen fields)) 4)) in
  m ← wrap_error "amf3 encode: cannot encode trait header for object: %s" (encodeAmf3Uint29 u29);
  m' ← wrap_error "amf3 encode: cannot encode trait type for object: %s" (encodeAmf3Utf8 type);
  n ← encode_elements "amf3 encode: cannot encode trait property for object: %s" encodeAmf3Utf8 (map fst fields) (n + m + m');
  encode_elements "amf3 encode: cannot encode sealed object value: %s" id (map snd fields) n.

(** An integer of a kind whose values are written as integers if they fit. *)
Definition encode_int (k : int_kind) (n : Z) : Enc Z :=
  match k with
  | KInt64 | KUint64 => EncodeAmf3Double (float_bits n) true
  | _ => if (0 <=? n) && (n <=? AMF3_INTEGER_MAX) then EncodeAmf3Integer (u32 n) true
         else EncodeAmf3Double (float_bits n) true
  end.

Fixpoint EncodeAmf3 (val : amf_value) : Enc Z :=
  match val with
  | VNil => EncodeAmf3Null true
  | VString s => EncodeAmf3String s true
  | VBool b => if b then EncodeAmf3True true else EncodeAmf3False true
  | VInt k n => encode_int k n
  | VFloat bits => EncodeAmf3Double bits true
  | VArray l => EncodeAmf3Array EncodeAmf3 l true
  | VBytes bs => EncodeAmf3Array (encode_int KUint8) bs true
  | VObject o => EncodeAmf3Object [] (map (fun '(k, v) => (k, EncodeAmf3 v)) o) true
  | VMap => fail (errors_New "encode amf3: unable to create object from map")
  | VTime t => EncodeAmf3Date t true
  | VTypedObject t o => EncodeAmf3Object t (map (fun '(k, v) => (k, EncodeAmf3 v)) o) true
  | VOther t => fail (fmt_Wrap "encode amf3: unsupported type %s" (errors_New t))
  end.

Definition amf_Encode (val : amf_value) (ver : Z) : Enc Z :=
  if ver =? AMF0 then EncodeAmf0 val
  else if ver =? AMF3 then EncodeAmf3 val
  else fail (fmt_Errorf "encode amf: unsupported version %d" [ver]).

Fixpoint EncodeBatch (ver : Z) (vals : list amf_value) : Enc Z :=
  match vals with
  | [] => mret 0
  | v :: vals => amf_Encode v ver;; EncodeBatch ver vals
  end.

(** ** Reading *)

Abbreviation Dec := (GoM (Decoder * list Z)).

Definition on_reader {A} (m : Reader A) : Dec A := fun '(d, r) => let '(o, r) := m r in (o, (d, r)).
Definition on_decoder (f : Decoder -> Decoder) : Dec unit := modifyS (fun '(d, r) => (f d, r)).
Definition get_decoder : Dec Decoder := fun '(d, r) => (Ok d, (d, r)).

(** [r.Read] of a [bytes.Reader] into a slice of [n] bytes: what it read.  At the end of
    the bytes it fails, also for an empty slice. *)
Definition Reader_Read (n : Z) : Reader (list Z) := fun r =>
  match r with
  | [] => (Err io_EOF, [])
  | _ => let m := Z.to_nat (Z.min n (zlen r)) in (Ok (take m r), drop m r)
  end.

Definition ReadBytes (n : Z) : Reader (list Z) :=
  bytes ← Reader_Read n;
  if zlen bytes =? n then mret bytes
  else fail (fmt_Errorf "decode read bytes failed: expected %d got %d" [zlen bytes; n]).

Definition amf_ReadByte : Reader Z :=
  bytes ← ReadBytes 1;
  match bytes with b :: _ => mret b | [] => panic "index out of range" end.
Definition ReadMarker : Reader Z := amf_ReadByte.

Definition AssertMarker (checkMarker : bool) (m : Z) : Reader unit :=
  if checkMarker then
    marker ← ReadMarker;
    guard (marker =? m) (fmt_Errorf "decode assert marker failed: expected %v got %v" [m; marker])
  else mret tt.

(** [binary.Read] with [binary.BigEndian] of an integer or a float of [n] bytes. *)
Definition be_dec (bs : list Z) : Z := foldl (fun v b => v * 256 + b) 0 bs.
Definition binary_Read (n : Z) : Reader Z := bs ← ReadFull n; mret (be_dec bs).

Definition DecodeAmf0Number (decodeMarker : bool) : Dec Z :=
  on_reader (AssertMarker decodeMarker AMF0_NUMBER_MARKER);;
  wrap_error "amf0 decode: unable to read number: %s" (on_reader (binary_Read 8)).

Definition DecodeAmf0Boolean (decodeMarker : bool) : Dec bool :=
  on_reader (AssertMarker decodeMarker AMF0_BOOLEAN_MARKER);;
  b ← on_reader amf_ReadByte;
  if b =? AMF0_BOOLEAN_FALSE then mret false
  else if b =? AMF0_BOOLEAN_TRUE then mret true
  else fail (fmt_Errorf "decode amf0: unexpected value %v for boolean" [b]).

Definition DecodeAmf0String (decodeMarker : bool) : Dec (list Z) :=
  on_reader (AssertMarker decodeMarker AMF0_STRING_MARKER);;
  length ← wrap_error "decode amf0: unable to decode string length: %s" (on_reader (binary_Read 2));
  wrap_error "decode amf0: unable to decode string value: %s" (on_reader (ReadBytes length)).

Definition DecodeAmf0LongString (decodeMarker : bool) : Dec (list Z) :=
  on_reader (AssertMarker decodeMarker AMF0_LONG_STRING_MARKER);;
  length ← wrap_error "decode amf0: unable to decode long string length: %s" (on_reader (binary_Read 4));
  wrap_error "decode amf0: unable to decode long string value: %s" (on_reader (ReadBytes length)).

Definition DecodeAmf0XmlDocument (decodeMarker : bool) : Dec (list Z) :=
  on_reader (AssertMarker decodeMarker AMF0_XML_DOCUMENT_MARKER);;
  DecodeAmf0LongString false.

Definition DecodeAmf0Null (decodeMarker : bool) : Dec amf_value :=
  on_reader (AssertMarker decodeMarker AMF0_NULL_MARKER);; mret VNil.
Definition DecodeAmf0Undefined (decodeMarker : bool) : Dec amf_value :=
  on_reader (AssertMarker decodeMarker AMF0_UNDEFINED_MARKER);; mret VNil.
Definition DecodeAmf0Unsupported (decodeMarker : bool) : Dec amf_value :=
  on_reader (AssertMarker decodeMarker AMF0_UNSUPPORTED_MARKER);; mret VNil.

Definition DecodeAmf0Date (decodeMarker : bool) : Dec Z :=
  on_reader (AssertMarker decodeMarker AMF0_DATE_MARKER);;
  result ← wrap_error "decode amf0: unable to decode float in date: %s" (DecodeAmf0Number false);
  wrap_error "decode amf0: unable to read 2 trail bytes in date: %s" (on_reader (ReadBytes 2));;
  mret result.

(** Run a loop with fuel for every byte that is left. *)
Definition with_fuel {A} (m : nat -> Dec A) : Dec A := fun '(d, r) => m (S (length r)) (d, r).

Definition cache (v : amf_value) : Dec unit := on_decoder (fun d => d <| dec_refCache := dec_refCache d ++ [v] |>).

(** The keys and values of an object up to its end; [decode] reads a value. *)
Fixpoint decode_fields (decode : Dec amf_value) (fuel : nat) (result : Object) : Dec Object :=
  match fuel with
  | O => panic "decode_fields: out of fuel"
  | S fuel =>
      key ← DecodeAmf0String false;
      if decide (key = []) then
        wrap_error "decode amf0: expected object end marker: %s" (on_reader (AssertMarker true AMF0_OBJECT_END_MARKER));;
        mret result
      else
        value ← wrap_error "decode amf0: unable to decode object value: %s" decode;
        decode_fields decode fuel (object_set key value result)
  end.

(** The cache has the map itself, which is empty when it is put there. *)
Definition DecodeAmf0Object (decode : Dec amf_value) (decodeMarker : bool) : Dec Object :=
  on_reader (AssertMarker decodeMarker AMF0_OBJECT_MARKER);;
  cache (VObject []);;
  with_fuel (fun fuel => decode_fields decode fuel []).

(** The error of reading the length is overwritten. *)
Definition DecodeAmf0EcmaArray (decode : Dec amf_value) (decodeMarker : bool) : Dec Object :=
  on_reader (AssertMarker decodeMarker AMF0_ECMA_ARRAY_MARKER);;
  on_reader (fun r => (Ok tt, snd (binary_Read 4 r)));;
  wrap_error "decode amf0: unable to decode ecma array object: %s" (DecodeAmf0Object decode false).

(** [n] values. *)
Fixpoint decode_elements {A} (decode : Dec A) (fuel : nat) (n : Z) : Dec (list A) :=
  match fuel with
  | O => panic "decode_elements: out of fuel"
  | S fuel =>
      if n <=? 0 then mret []
      else v ← decode; vs ← decode_elements decode fuel (n - 1); mret (v :: vs)
  end.

Definition DecodeAmf0StrictArray (decode : Dec amf_value) (decodeMarker : bool) : Dec (list amf_value) :=
  on_reader (AssertMarker decodeMarker AMF0_STRICT_ARRAY_MARKER);;
  length ← wrap_error "decode amf0: unable to decode strict array length: %s" (on_reader (binary_Read 4));
  cache (VArray []);;
  with_fuel (fun fuel => decode_elements (wrap_error "decode amf0: unable to decode strict array object: %s" decode) fuel length).

Definition DecodeAmf0TypedObject (decode : Dec amf_value) (decodeMarker : bool) : Dec amf_value :=
  on_reader (AssertMarker decodeMarker AMF0_TYPED_OBJECT_MARKER);;
  cache (VTypedObject [] []);;
  type ← wrap_error "decode amf0: typed object unable to determine type: %s" (DecodeAmf0String false);
  object ← wrap_error "decode amf0: typed object unable to determine object: %s" (DecodeAmf0Object decode false);
  mret (VTypedObject type object).

(** ** Reading, version 3 *)

(** The first three bytes have seven bits each and say whether more follow. *)
Fixpoint decodeU29_loop (n : nat) (result : Z) : Reader Z :=
  match n with
  | O => b ← amf_ReadByte; mret (u32 (u32 (Z.shiftl result 8) + b))
  | S n =>
      b ← amf_ReadByte;
      let result := u32 (u32 (Z.shiftl result 7) + Z.land b 0x7F) in
      if Z.land b 0x80 =? 0 then mret result else decodeU29_loop n result
  end.
Definition decodeU29 : Reader Z := decodeU29_loop 3 0.

Definition decodeReferenceInt : Reader (bool * Z) :=
  u29 ← wrap_error "amf3 decode: unable to decode reference int: %s" decodeU29;
  mret (Z.land u29 0x01 =? 0, Z.shiftr u29 1).

(** [refs[i]] *)
Definition index {A} (refs : list A) (i : Z) : Dec A :=
  match (if i <? zlen refs then refs !! Z.to_nat i else None) with
  | Some v => mret v
  | None => panic "index out of range"
  end.

(** [r.Read(buf)] without a look at the number of bytes read: the rest of [buf] is 0. *)
Definition read_buf (n : Z) : Reader (list Z) :=
  bs ← Reader_Read n; mret (bs ++ replicate (Z.to_nat n - length bs) 0).

Definition DecodeAmf3Undefined (decodeMarker : bool) : Dec amf_value :=
  on_reader (AssertMarker decodeMarker AMF3_UNDEFINED_MARKER);; mret VNil.
Definition DecodeAmf3Null (decodeMarker : bool) : Dec amf_value :=
  on_reader (AssertMarker decodeMarker AMF3_NULL_MARKER);; mret VNil.
Definition DecodeAmf3False (decodeMarker : bool) : Dec bool :=
  on_reader (AssertMarker decodeMarker AMF3_FALSE_MARKER);; mret false.
Definition DecodeAmf3True (decodeMarker : bool) : Dec bool :=
  on_reader (AssertMarker decodeMarker AMF3_TRUE_MARKER);; mret true.


Definition DecodeAmf3Integer (decodeMarker : bool) : Dec Z :=
  on_reader (AssertMarker decodeMarker AMF3_INTEGER_MARKER);;
  u29 ← on_reader decodeU29;
  let result := i32 u29 in
  mret (if 0xfffffff <? result then i32 (u32 (u29 - 0x20000000)) else result).

Definition DecodeAmf3Double (decodeMarker : bool) : Dec Z :=
  on_reader (AssertMarker decodeMarker AMF3_DOUBLE_MARKER);;
  wrap_error "amf3 decode: unable to read double: %s" (on_reader (binary_Read 8)).

Definition DecodeAmf3String (decodeMarker : bool) : Dec (list Z) :=
  on_reader (AssertMarker decodeMarker AMF3_STRING_MARKER);;
  '(isRef, refVal) ← wrap_error "amf3 decode: unable to decode string reference and length: %s" (on_reader decodeReferenceInt);
  d ← get_decoder;
  if isRef : bool then index (dec_stringRefs d) refVal
  else
    result ← wrap_error "amf3 decode: unable to read string: %s" (on_reader (read_buf refVal));
    (if decide (result = []) then mret tt
     else on_decoder (fun d => d <| dec_stringRefs := dec_stringRefs d ++ [result] |>));;
    mret result.

Definition add_object (v : amf_value) : Dec unit := on_decoder (fun d => d <| dec_objectRefs := dec_objectRefs d ++ [v] |>).

Definition DecodeAmf3Date (decodeMarker : bool) : Dec Z :=
  on_reader (AssertMarker decodeMarker AMF3_DATE_MARKER);;
  '(isRef, refVal) ← wrap_error "amf3 decode: unable to decode date reference and length: %s" (on_reader decodeReferenceInt);
  d ← get_decoder;
  if isRef : bool then
    v ← index (dec_objectRefs d) refVal;
    match v with
    | VTime t => mret t
    | _ => fail (errors_New "amf3 decode: unable to extract time from date object references")
    end
  else
    bits ← wrap_error "amf3 decode: unable to read double: %s" (on_reader (binary_Read 8));
    let result := float_to_i64 (f64_div (Float64frombits bits) (f64_of_Z 1000)) in
    add_object (VTime result);;
    mret result.

Definition DecodeAmf3Array (decode : Dec amf_value) (decodeMarker : bool) : Dec (list amf_value) :=
  on_reader (AssertMarker decodeMarker AMF3_ARRAY_MARKER);;
  '(isRef, refVal) ← wrap_error "amf3 decode: unable to decode array reference and length: %s" (on_reader decodeReferenceInt);
  d ← get_decoder;
  if isRef : bool then
    v ← index (dec_objectRefs d) (Z.shiftr refVal 1);
    match v with
    | VArray l => mret l
    | _ => fail (errors_New "amf3 decode: unable to extract array from object references")
    end
  else
    key ← wrap_error "amf3 decode: unable to read key for array: %s" (DecodeAmf3String false);
    guard (bool_decide (key = [])) (errors_New "amf3 decode: array key is not empty, can't handle associative array");;
    result ← with_fuel (fun fuel =>
               decode_elements (wrap_error "amf3 decode: array element could not be decoded: %s" decode) fuel refVal);
    add_object (VArray result);;
    mret result.

Definition DecodeAmf3Xml (decodeMarker : bool) : Dec (list Z) :=
  (if decodeMarker then
     marker ← on_reader ReadMarker;
     guard ((marker =? AMF3_XMLDOC_MARKER) || (marker =? AMF3_XMLSTRING_MARKER))
       (fmt_Errorf "decode assert marker failed: expected %v or %v, got %v" [AMF3_XMLDOC_MARKER; AMF3_XMLSTRING_MARKER; marker])
   else mret tt);;
  '(isRef, refVal) ← wrap_error "amf3 decode: unable to decode xml reference and length: %s" (on_reader decodeReferenceInt);
  d ← get_decoder;
  if isRef : bool then
    v ← index (dec_objectRefs d) refVal;
    match v with
    | VString s => mret s
    | _ => fail (errors_New "amf3 decode: cannot coerce object reference into xml string")
    end
  else
    result ← wrap_error "amf3 decode: unable to read xml string: %s" (on_reader (read_buf refVal));
    (if decide (result = []) then mret tt else add_object (VString result));;
    mret result.

Definition DecodeAmf3ByteArray (decodeMarker : bool) : Dec (list Z) :=
  on_reader (AssertMarker decodeMarker AMF3_BYTEARRAY_MARKER);;
  '(isRef, refVal) ← wrap_error "amf3 decode: unable to decode byte array reference and length: %s" (on_reader decodeReferenceInt);
  d ← get_decoder;
  if isRef : bool then
    v ← index (dec_objectRefs d) refVal;
    match v with
    | VBytes bs => mret bs
    | _ => fail (errors_New "amf3 decode: unable to convert object ref to bytes")
    end
  else
    result ← wrap_error "amf3 decode: unable to read bytearray: %s" (on_reader (read_buf refVal));
    add_object (VBytes result);;
    mret result.

(** ** Objects, version 3 *)

Section External.
(** The handlers that were registered for types of their own. *)
Context (externalHandlers : list Z -> option (Dec amf_value)).

Fixpoint readFlags_loop (fuel : nat) : Reader (list Z) :=
  match fuel with
  | O => panic "readFlags: out of fuel"
  | S fuel =>
      flag ← wrap_error "unable to read flags: %s" amf_ReadByte;
      if Z.land flag 0x80 =? 0 then mret [flag]
      else flags ← readFlags_loop fuel; mret (flag :: flags)
  end.
Definition readFlags : Reader (list Z) := fun r => readFlags_loop (S (length r)) r.

(** The fields of one byte of flags, from the position [p] on. *)
Fixpoint external_fields (decode : Dec amf_value) (flags p : Z) (names : list string) (obj : Object) : Dec Object :=
  match names with
  | [] => mret obj
  | name :: names =>
      obj ← (if negb (Z.land flags (2 ^ p) =? 0)
             then tmp ← wrap_error "unable to decode external field %s %d %d (%#v): %s" decode;
                  mret (object_set (bytes_of name) tmp obj)
             else mret obj);
      external_fields decode flags (p + 1) names obj
  end.

(** fmt.Sprintf of the name of a field that has none *)
Definition extra_name (i j : Z) : list Z := bytes_of ("extra_" +:+ pretty i +:+ "_" +:+ pretty j).

(** The flags from the position [j] up to 6 that have no name; [n] are left. *)
Fixpoint extra_fields (decode : Dec amf_value) (i flags j : Z) (n : nat) (obj : Object) : Dec Object :=
  match n with
  | O => mret obj
  | S n =>
      obj ← (if negb (Z.land (Z.shiftr flags j) 0x01 =? 0)
             then tmp ← wrap_error "unable to decode post-external field %d %d (%#v): %s" decode;
                  mret (object_set (extra_name i j) tmp obj)
             else mret obj);
      extra_fields decode i flags (j + 1) n obj
  end.

Fixpoint external_flags (decode : Dec amf_value) (i : Z) (flagSet : list Z) (fieldSets : list (list string)) (obj : Object) : Dec Object :=
  match flagSet with
  | [] => mret obj
  | flags :: flagSet =>
      let fieldNames := default [] (head fieldSets) in
      let reservedPosition := u8 (zlen fieldNames) in
      obj ← external_fields decode flags 0 fieldNames obj;
      obj ← (if negb (Z.shiftr flags reservedPosition =? 0)
             then extra_fields decode i flags reservedPosition (Z.to_nat (6 - reservedPosition)) obj
             else mret obj);
      external_flags decode (i + 1) flagSet (tail fieldSets) obj
  end.

Definition decodeExternal (decode : Dec amf_value) (obj : Object) (fieldSets : list (list string)) : Dec Object :=
  flagSet ← wrap_error "unable to read flags: %s" (on_reader readFlags);
  external_flags decode 0 flagSet fieldSets obj.

Definition decodeAbstractMessage (decode : Dec amf_value) : Dec Object :=
  wrap_error "unable to decode abstract external: %s"
    (decodeExternal decode []
       [["body"; "clientId"; "destination"; "headers"; "messageId"; "timeStamp"; "timeToLive"]%string;
        ["clientIdBytes"; "messageIdBytes"]%string]).

Definition decodeAsyncMessage (decode : Dec amf_value) : Dec Object :=
  result ← wrap_error "unable to decode abstract for async: %s" (decodeAbstractMessage decode);
  wrap_error "unable to decode async external: %s"
    (decodeExternal decode result [["correlationId"; "correlationIdBytes"]%string]).
Definition decodeAsyncMessageExt (decode : Dec amf_value) : Dec Object := decodeAsyncMessage decode.

Definition decodeAcknowledgeMessage (decode : Dec amf_value) : Dec Object :=
  result ← wrap_error "unable to decode async for ack: %s" (decodeAsyncMessage decode);
  wrap_error "unable to decode ack external: %s" (decodeExternal decode result []).
Definition decodeAcknowledgeMessageExt (decode : Dec amf_value) : Dec Object := decodeAcknowledgeMessage decode.

Definition decodeArrayCollection (decode : Dec amf_value) : Dec amf_value :=
  wrap_error "cannot decode child of array collection: %s" decode.

(** An object whose type says how it is written. *)
Definition decode_externalizable (decode : Dec amf_value) (type : list Z) : Dec amf_value :=
  if decide (type = bytes_of "DSA") then
    result ← wrap_error "amf3 decode: unable to decode dsa: %s" (decodeAsyncMessageExt decode); mret (VObject result)
  else if decide (type = bytes_of "DSK") then
    result ← wrap_error "amf3 decode: unable to decode dsk: %s" (decodeAcknowledgeMessageExt decode); mret (VObject result)
  else if decide (type = bytes_of "flex.messaging.io.ArrayCollection") then
    result ← wrap_error "amf3 decode: unable to decode ac: %s" (decodeArrayCollection decode);
    add_object result;;
    mret result
  else
    match externalHandlers type with
    | Some fn => wrap_error "amf3 decode: unable to call external decoder for type %s: %s" fn
    | None => fail (errors_New "amf3 decode: unable to decode external type %s, no handler")
    end.

(** The trait of an object: one of those read before, or what is left of the integer. *)
Definition decode_trait (refVal : Z) : Dec Trait :=
  if Z.land refVal 0x01 =? 0 then
    d ← get_decoder; index (dec_traitRefs d) (Z.shiftr refVal 1)
  else
    cls ← wrap_error "amf3 decode: unable to read trait type for object: %s" (DecodeAmf3String false);
    properties ← with_fuel (fun fuel =>
      decode_elements (wrap_error "amf3 decode: unable to read trait property for object: %s" (DecodeAmf3String false))
        fuel (Z.shiftr refVal 3));
    let trait := mkTrait cls (negb (Z.land refVal 0x02 =? 0)) (negb (Z.land refVal 0x04 =? 0)) properties in
    on_decoder (fun d => d <| dec_traitRefs := dec_traitRefs d ++ [trait] |>);;
    mret trait.

(** The values of the properties of the trait. *)
Fixpoint decode_sealed (decode : Dec amf_value) (keys : list (list Z)) (obj : Object) : Dec Object :=
  match keys with
  | [] => mret obj
  | key :: keys =>
      val ← wrap_error "amf3 decode: unable to decode object property: %s" decode;
      decode_sealed decode keys (object_set key val obj)
  end.

Fixpoint decode_dynamic (decode : Dec amf_value) (fuel : nat) (obj : Object) : Dec Object :=
  match fuel with
  | O => panic "decode_dynamic: out of fuel"
  | S fuel =>
      key ← wrap_error "amf3 decode: unable to decode dynamic key: %s" (DecodeAmf3String false);
      if decide (key = []) then mret obj
      else
        val ← wrap_error "amf3 decode: unable to decode dynamic value: %s" decode;
        decode_dynamic decode fuel (object_set key val obj)
  end.

Definition DecodeAmf3Object (decode : Dec amf_value) (decodeMarker : bool) : Dec amf_value :=
  on_reader (AssertMarker decodeMarker AMF3_OBJECT_MARKER);;
  '(isRef, refVal) ← wrap_error "amf3 decode: unable to decode object reference and length: %s" (on_reader decodeReferenceInt);
  d ← get_decoder;
  if isRef : bool then index (dec_objectRefs d) (Z.shiftr refVal 1)
  else
    trait ← decode_trait refVal;
    add_object VNil;;
    if tr_Externalizable trait then decode_externalizable decode (tr_Type trait)
    else
      obj ← decode_sealed decode (tr_Properties trait) [];
      obj ← (if tr_Dynamic trait then with_fuel (fun fuel => decode_dynamic decode fuel obj) else mret obj);
      mret (VObject obj).

(** ** The two formats *)

(** A result as a value of the empty interface. *)
Definition to_value {A} (f : A -> amf_value) (m : Dec A) : Dec amf_value := a ← m; mret (f a).

Fixpoint DecodeAmf3_n (fuel : nat) : Dec amf_value :=
  match fuel with
  | O => panic "DecodeAmf3: out of fuel"
  | S fuel =>
      let decode := DecodeAmf3_n fuel in
      marker ← on_reader ReadMarker;
      if marker =? AMF3_UNDEFINED_MARKER then DecodeAmf3Undefined false
      else if marker =? AMF3_NULL_MARKER then DecodeAmf3Null false
      else if marker =? AMF3_FALSE_MARKER then to_value VBool (DecodeAmf3False false)
      else if marker =? AMF3_TRUE_MARKER then to_value VBool (DecodeAmf3True false)
      else if marker =? AMF3_INTEGER_MARKER then to_value (VInt KInt32) (DecodeAmf3Integer false)
      else if marker =? AMF3_DOUBLE_MARKER then to_value VFloat (DecodeAmf3Double false)
      else if marker =? AMF3_STRING_MARKER then to_value VString (DecodeAmf3String false)
      else if marker =? AMF3_XMLDOC_MARKER then to_value VString (DecodeAmf3Xml false)
      else if marker =? AMF3_DATE_MARKER then to_value VTime (DecodeAmf3Date false)
      else if marker =? AMF3_ARRAY_MARKER then to_value VArray (DecodeAmf3Array decode false)
      else if marker =? AMF3_OBJECT_MARKER then DecodeAmf3Object decode false
      else if marker =? AMF3_XMLSTRING_MARKER then to_value VString (DecodeAmf3Xml false)
      else if marker =? AMF3_BYTEARRAY_MARKER then to_value VBytes (DecodeAmf3ByteArray false)
      else fail (fmt_Errorf "decode amf3: unsupported type %d" [marker])
  end.

Fixpoint DecodeAmf0_n (fuel : nat) : Dec amf_value :=
  match fuel with
  | O => panic "DecodeAmf0: out of fuel"
  | S fuel =>
      let decode := DecodeAmf0_n fuel in
      marker ← on_reader ReadMarker;
      if marker =? AMF0_NUMBER_MARKER then to_value VFloat (DecodeAmf0Number false)
      else if marker =? AMF0_BOOLEAN_MARKER then to_value VBool (DecodeAmf0Boolean false)
      else if marker =? AMF0_STRING_MARKER then to_value VString (DecodeAmf0String false)
      else if marker =? AMF0_OBJECT_MARKER then to_value VObject (DecodeAmf0Object decode false)
      else if marker =? AMF0_MOVIECLIP_MARKER then fail (errors_New "decode amf0: unsupported type movieclip")
      else if marker =? AMF0_NULL_MARKER then DecodeAmf0Null false
      else if marker =? AMF0_UNDEFINED_MARKER then DecodeAmf0Undefined false
      else if marker =? AMF0_REFERENCE_MARKER then fail (errors_New "decode amf0: unsupported type reference")
      else if marker =? AMF0_ECMA_ARRAY_MARKER then to_value VObject (DecodeAmf0EcmaArray decode false)
      else if marker =? AMF0_STRICT_ARRAY_MARKER then to_value VArray (DecodeAmf0StrictArray decode false)
      else if marker =? AMF0_DATE_MARKER then to_value VFloat (DecodeAmf0Date false)
      else if marker =? AMF0_LONG_STRING_MARKER then to_value VString (DecodeAmf0LongString false)
      else if marker =? AMF0_UNSUPPORTED_MARKER then DecodeAmf0Unsupported false
      else if marker =? AMF0_RECORDSET_MARKER then fail (errors_New "decode amf0: unsupported type recordset")
      else if marker =? AMF0_XML_DOCUMENT_MARKER then to_value VString (DecodeAmf0XmlDocument false)
      else if marker =? AMF0_TYPED_OBJECT_MARKER then DecodeAmf0TypedObject decode false
      else if marker =? AMF0_ACMPLUS_OBJECT_MARKER then DecodeAmf3_n fuel
      else fail (fmt_Errorf "decode amf0: unsupported type %d" [marker])
  end.

Definition DecodeAmf3 : Dec amf_value := with_fuel DecodeAmf3_n.
Definition DecodeAmf0 : Dec amf_value := with_fuel DecodeAmf0_n.

Definition amf_Decode (ver : Z) : Dec amf_value :=
  if ver =? 0 then DecodeAmf0
  else if ver =? 3 then DecodeAmf3
  else fail (fmt_Errorf "decode amf: unsupported version %d" [ver]).

(** All values up to the first error, which is returned with them. *)
Fixpoint decode_batch (fuel : nat) (ver : Z) (ret : list amf_value) : Dec (list amf_value * error) :=
  match fuel with
  | O => panic "DecodeBatch: out of fuel"
  | S fuel => fun s =>
      match amf_Decode ver s with
      | (Ok v, s) => decode_batch fuel ver (ret ++ [v]) s
      | (Err e, s) => (Ok (ret, e), s)
      | (Panic p, s) => (Panic p, s)
      end
  end.
Definition DecodeBatch (ver : Z) : Dec (list amf_value * error) := with_fuel (fun fuel => decode_batch fuel ver []).
End External.

(** ** Metadata *)

Definition no_handlers (type : list Z) : option (Dec amf_value) := None.

Definition ADD : Z := 0.
Definition DEL : Z := 3.
Definition SetDataFrame : list Z := bytes_of "@setDataFrame".
Definition setFrameFrame : list Z := snd (amf_Encode (VString SetDataFrame) AMF0 []).

Definition MetaDataReform (p : list Z) (flag : Z) : outcome (list Z) :=
  let decoded := fst (amf_Decode no_handlers AMF0 (mkDecoder [] [] [] [], p)) in
  if flag =? ADD then
    match decoded with
    | Ok (VString vv) => Ok (if decide (vv = SetDataFrame) then p else setFrameFrame ++ p)
    | Ok _ => Err (errors_New "setFrameFrame error")
    | Err e => Err e
    | Panic m => Panic m
    end
  else if flag =? DEL then
    match decoded with
    | Ok (VString vv) => if decide (vv = SetDataFrame)
                         then if zlen setFrameFrame <=? zlen p then Ok (drop (length setFrameFrame) p)
                              else Panic "slice bounds out of range"
                         else Ok p
    | Ok _ => Err (errors_New "metadata error")
    | Err e => Err e
    | Panic m => Panic m
    end
  else Err (fmt_Errorf "invalid flag:%d" [flag]).
