(* ===== verification/AmfRoundtrip.v ===== *)
(** * The Action Message Format: what is encoded is decoded

    [layout0] and [layout3] are the bytes of a value, [decoded0] and [decoded3] what
    comes back for it: integers become floats or 32-bit integers, the fields of an
    object are sorted in version 3.  A [bytes.Reader] that is at its end fails also when
    it is asked for no bytes: [ends_empty0] and [ends_empty3] say for which values the
    decoder asks that last. *)

From Stdlib Require Import SpecFloat.
From S2P Require Import Prelude ByteOrder Float Cbrt Amf.

(** ** Induction over values *)

Section Induction.
Context (P : amf_value -> Prop).
Context (Hnil : P VNil) (Hbool : forall b, P (VBool b)) (Hint : forall k n, P (VInt k n)) (Hfloat : forall bits, P (VFloat bits)).
Context (Hstring : forall s, P (VString s)) (Hbytes : forall bs, P (VBytes bs)) (Hmap : P VMap).
Context (Htime : forall t, P (VTime t)) (Hother : forall t, P (VOther t)).
Context (Harray : forall l, Forall P l -> P (VArray l)).
Context (Hobject : forall o, Forall (fun f => P (snd f)) o -> P (VObject o)).
Context (Htyped : forall t o, Forall (fun f => P (snd f)) o -> P (VTypedObject t o)).

Lemma amf_value_ind v : P v.
Proof.
  revert v. fix IH 1. intros [|b|k n|bits|s|l|bs|o|t o| |t|t]; [exact Hnil|apply Hbool|apply Hint|apply Hfloat|apply Hstring| |apply Hbytes| | |exact Hmap|apply Htime|apply Hother].
  - apply Harray. induction l as [|v l IHl]; constructor; [apply IH|exact IHl].
  - apply Hobject. induction o as [|[k v] o IHo]; constructor; [apply IH|exact IHo].
  - apply Htyped. induction o as [|[k v] o IHo]; constructor; [apply IH|exact IHo].
Qed.
End Induction.

(** ** Integers *)

Lemma be_dec_from bs : forall v, foldl (fun v b => v * 256 + b) v bs = v * 256 ^ zlen bs + be_dec bs.
Proof.
  unfold be_dec. induction bs as [|b bs IH]; intros v; cbn [foldl]; [change (zlen []) with 0; lia|].
  rewrite IH, (IH (0 * 256 + b)), zlen_cons, Z.pow_add_r by (unfold zlen; lia). lia.
Qed.

Lemma be_dec_enc n v : be_dec (be_enc n v) = v mod 256 ^ Z.of_nat n.
Proof.
  induction n as [|n IH]; [by rewrite Z.mod_1_r|]. cbn [be_enc]. unfold be_dec. cbn [foldl]. rewrite be_dec_from, IH.
  unfold zlen. rewrite be_enc_length, Z.shiftr_div_pow2 by lia. unfold u8.
  replace (2 ^ (8 * Z.of_nat n)) with (256 ^ Z.of_nat n) by (rewrite Z.pow_mul_r by lia; done).
  rewrite Nat2Z.inj_succ, Z.pow_succ_r, (Z.mul_comm 256), Z.rem_mul_r by lia. lia.
Qed.

Lemma reads_binary n v : reads (binary_Read (Z.of_nat n)) (be_enc n v) (v mod 256 ^ Z.of_nat n).
Proof.
  intros rest. unfold binary_Read. erewrite run_bind_ok by (apply reads_full; unfold zlen; by rewrite be_enc_length).
  by rewrite be_dec_enc.
Qed.

(** ** Encoders and decoders that compose *)

(** [parses m bs a e]: in front of any tail [m] takes exactly [bs] and returns [a]; when
    [e] the tail must not be empty. *)
Definition parses {A} (m : Dec A) (bs : list Z) (a : A) (e : bool) : Prop :=
  forall d rest, (e = true -> rest <> []) -> exists d', m (d, bs ++ rest) = (Ok a, (d', rest)).

Lemma parses_reader {A} (r : Reader A) bs a : reads r bs a -> parses (on_reader r) bs a false.
Proof. intros H d rest _. exists d. unfold on_reader. by rewrite H. Qed.

Lemma parses_ret {A} (a : A) : parses (mret a) [] a false.
Proof. intros d rest _. by exists d. Qed.

Lemma parses_bind {A B} (m : Dec A) (k : A -> Dec B) bs1 bs2 a b e1 e :
  parses m bs1 a e1 -> parses (k a) bs2 b e -> (e1 = true -> bs2 <> [] \/ e = true) -> parses (m ≫= k) (bs1 ++ bs2) b e.
Proof.
  intros H1 H2 He d rest Hr. rewrite <- app_assoc. destruct (H1 d (bs2 ++ rest)) as [d' E].
  { intros Ht Hn. apply app_eq_nil in Hn as [-> ->]. destruct (He Ht) as [?|Et]; [done|by apply Hr]. }
  erewrite run_bind_ok by exact E. by apply H2.
Qed.

Lemma parses_wrap {A} f (m : Dec A) bs a e : parses m bs a e -> parses (wrap_error f m) bs a e.
Proof. intros H d rest Hr. destruct (H d rest Hr) as [d' E]. exists d'. unfold wrap_error. by rewrite E. Qed.

Lemma parses_decoder f : parses (on_decoder f) [] tt false.
Proof. intros d rest _. by exists (f d). Qed.

Lemma parses_map {A B} (f : A -> B) (m : Dec A) bs a e : parses m bs a e -> parses (x ← m; mret (f x)) bs (f a) e.
Proof. intros H d rest Hr. destruct (H d rest Hr) as [d' E]. exists d'. by erewrite run_bind_ok by exact E. Qed.

Lemma parses_value {A} (f : A -> amf_value) (m : Dec A) bs a e : parses m bs a e -> parses (to_value f m) bs (f a) e.
Proof. apply parses_map. Qed.

Lemma parses_fuel {A} (m : nat -> Dec A) bs a e :
  (forall fuel, (length bs < fuel)%nat -> parses (m fuel) bs a e) -> parses (with_fuel m) bs a e.
Proof. intros H d rest Hr. unfold with_fuel. apply H; [rewrite length_app; lia|done]. Qed.

Lemma parses_weaken {A} (m : Dec A) bs a : forall e e', parses m bs a e -> (e = true -> e' = true) -> parses m bs a e'.
Proof. intros e e' H He d rest Hr. apply H. auto. Qed.

Lemma emits_wrap {A} f (m : Enc A) bs a : emits m bs a -> emits (wrap_error f m) bs a.
Proof. intros H buf. unfold wrap_error. by rewrite H. Qed.

Lemma emits_marker m : emits (encode_marker true m) [m] 1.
Proof. intros buf. reflexivity. Qed.

Lemma emits_WriteMarker m : emits (WriteMarker m) [m] tt.
Proof. done. Qed.

Lemma emits_binary n v : emits (binary_Write n v) (be_enc n v) tt.
Proof. done. Qed.

Lemma emits_bytes bs : emits (amf_WriteBytes bs) bs (zlen bs).
Proof. done. Qed.

(** A step whose result counts on. *)
Lemma emits_eq {A} (m : Enc A) bs bs' a a' : emits m bs a -> bs = bs' -> a = a' -> emits m bs' a'.
Proof. by intros H <- <-. Qed.

Lemma reads_marker b : reads ReadMarker [b] b.
Proof.
  intros rest. unfold ReadMarker, amf_ReadByte, ReadBytes. cbn [app]. unfold_go. cbn.
  replace (Z.to_nat (Z.min 1 (zlen (b :: rest)))) with 1%nat by (rewrite zlen_cons; pose proof (zlen_nonneg rest); lia). done.
Qed.

Lemma parses_ReadBytes bs : parses (on_reader (ReadBytes (zlen bs))) bs bs (bool_decide (bs = [])).
Proof.
  intros d rest Hr. exists d. unfold on_reader, ReadBytes, Reader_Read. unfold_go.
  destruct (bs ++ rest) eqn:E. { apply app_eq_nil in E as [-> ->]. by destruct (Hr eq_refl). }
  rewrite <- E. cbv zeta. replace (Z.to_nat (Z.min (zlen bs) (zlen (bs ++ rest)))) with (length bs)
    by (rewrite zlen_app; pose proof (zlen_nonneg rest); unfold zlen; lia).
  by rewrite take_app_length, drop_app_length, Z.eqb_refl.
Qed.

(** ** Version 0 *)

Definition layout_number (bits : Z) : list Z := AMF0_NUMBER_MARKER :: be_enc 8 bits.
Definition layout_key (k : list Z) : list Z := be_enc 2 (zlen k) ++ k.

Fixpoint layout0 (v : amf_value) : list Z :=
  match v with
  | VNil => [AMF0_NULL_MARKER]
  | VBool b => [AMF0_BOOLEAN_MARKER; if b then AMF0_BOOLEAN_TRUE else AMF0_BOOLEAN_FALSE]
  | VInt _ n => layout_number (float_bits n)
  | VFloat bits => layout_number bits
  | VString s => if zlen s <=? AMF0_STRING_MAX then AMF0_STRING_MARKER :: layout_key s
                 else AMF0_LONG_STRING_MARKER :: be_enc 4 (zlen s) ++ s
  | VArray l => AMF0_STRICT_ARRAY_MARKER :: be_enc 4 (zlen l) ++ concat (map layout0 l)
  | VBytes bs => AMF0_STRICT_ARRAY_MARKER :: be_enc 4 (zlen bs) ++ concat (map (fun b => layout_number (float_bits b)) bs)
  | VObject o => AMF0_OBJECT_MARKER :: concat (map (fun '(k, v) => layout_key k ++ layout0 v) o) ++ layout_key [] ++ [AMF0_OBJECT_END_MARKER]
  | _ => []
  end.

Definition decoded_number (n : Z) : amf_value := VFloat (float_bits n mod 256 ^ 8).

Fixpoint decoded0 (v : amf_value) : amf_value :=
  match v with
  | VInt _ n => decoded_number n
  | VArray l => VArray (map decoded0 l)
  | VBytes bs => VArray (map decoded_number bs)
  | VObject o => VObject (map (fun '(k, v) => (k, decoded0 v)) o)
  | v => v
  end.

(** The string that is read last is empty. *)
Fixpoint ends_empty0 (v : amf_value) : bool :=
  match v with
  | VString s => bool_decide (s = [])
  | VArray l => default false (last (map ends_empty0 l))
  | _ => false
  end.

(** What version 0 can carry. *)
Fixpoint fits0 (v : amf_value) : Prop :=
  match v with
  | VNil | VBool _ | VInt _ _ => True
  | VFloat bits => 0 <= bits < 256 ^ 8
  | VString s => zlen s < 4294967296
  | VArray l => zlen l < 4294967296 /\ foldr and True (map fits0 l)
  | VBytes bs => zlen bs < 4294967296
  | VObject o => NoDup (map fst o) /\ foldr and True (map (fun '(k, v) => k <> [] /\ zlen k <= AMF0_STRING_MAX /\ fits0 v) o)
  | _ => False
  end.

Lemma fits_all {A} (P : A -> Prop) l : foldr and True (map P l) <-> Forall P l.
Proof. induction l as [|a l IH]; cbn; [by split|]. by rewrite Forall_cons, IH. Qed.

Lemma emits_number bits : emits (EncodeAmf0Number bits true) (layout_number bits) 9.
Proof.
  eapply emits_eq; [eapply emits_bind; [apply emits_marker|eapply emits_bind; [apply emits_binary|apply emits_ret]]|by rewrite app_nil_r|done].
Qed.

Lemma emits_key k : zlen k <= AMF0_STRING_MAX -> emits (EncodeAmf0String k false) (layout_key k) (zlen (layout_key k)).
Proof.
  intros Hk. unfold EncodeAmf0String, layout_key, AMF0_STRING_MAX in *. rewrite u16_small by (pose proof (zlen_nonneg k); lia).
  eapply emits_eq; [eapply emits_bind; [apply emits_ret|eapply emits_bind; [apply emits_wrap, emits_binary|
    eapply emits_bind; [apply emits_wrap, emits_bytes|apply emits_ret]]]|by rewrite app_nil_r|by rewrite zlen_app].
Qed.

Lemma emits_each {A} f (encode : A -> Enc Z) l bss n :
  Forall2 (fun v bs => emits (encode v) bs (zlen bs)) l bss ->
  emits (encode_elements f encode l n) (concat bss) (n + zlen (concat bss)).
Proof.
  intros H. revert n. induction H as [|v bs l bss Hv _ IH]; intros n; cbn [encode_elements concat].
  { eapply emits_eq; [apply emits_ret|done|]. change (zlen []) with 0. lia. }
  rewrite zlen_app. eapply emits_bind; [apply emits_wrap, Hv|]. eapply emits_eq; [apply IH|done|]. lia.
Qed.

Lemma emits_elements {A} f (encode : A -> Enc Z) (layout : A -> list Z) l n :
  Forall (fun v => emits (encode v) (layout v) (zlen (layout v))) l ->
  emits (encode_elements f encode l n) (concat (map layout l)) (n + zlen (concat (map layout l))).
Proof. intros H. apply emits_each, Forall2_fmap_r, Forall_Forall2_diag, H. Qed.

Lemma emits_array0 {A} (encode : A -> Enc Z) (layout : A -> list Z) l : zlen l < 4294967296 ->
  Forall (fun v => emits (encode v) (layout v) (zlen (layout v))) l ->
  let bs := AMF0_STRICT_ARRAY_MARKER :: be_enc 4 (zlen l) ++ concat (map layout l) in
  emits (EncodeAmf0StrictArray encode l true) bs (zlen bs).
Proof.
  intros Hl H. cbv zeta. unfold EncodeAmf0StrictArray. rewrite u32_small by (pose proof (zlen_nonneg l); lia).
  rewrite zlen_cons, zlen_app. change (zlen (be_enc 4 (zlen l))) with 4.
  change (AMF0_STRICT_ARRAY_MARKER :: ?bs) with ([AMF0_STRICT_ARRAY_MARKER] ++ bs).
  eapply emits_bind; [apply emits_marker|]. eapply emits_bind; [apply emits_wrap, emits_binary|].
  eapply emits_eq; [by apply emits_elements|done|]. lia.
Qed.

Lemma emits_fields (encode : amf_value -> Enc Z) (layout : amf_value -> list Z) (o : list (list Z * amf_value)) n :
  Forall (fun f => zlen (fst f) <= AMF0_STRING_MAX /\ emits (encode (snd f)) (layout (snd f)) (zlen (layout (snd f)))) o ->
  let bs := concat (map (fun '(k, v) => layout_key k ++ layout v) o) in
  emits (encode_fields encode o n) bs (n + zlen bs).
Proof.
  cbv zeta. revert n. induction o as [|[k v] o IH]; intros n H; cbn [encode_fields map concat].
  { eapply emits_eq; [apply emits_ret|done|]. change (zlen []) with 0. lia. }
  apply Forall_cons in H as [[Hk Hv] H]. rewrite !zlen_app, <- app_assoc. eapply emits_bind; [by apply emits_wrap, emits_key|].
  eapply emits_bind; [apply emits_wrap, Hv|]. eapply emits_eq; [apply IH, H|done|]. cbn [snd]. lia.
Qed.

Lemma emits_object0 (encode : amf_value -> Enc Z) (layout : amf_value -> list Z) (o : list (list Z * amf_value)) :
  Forall (fun f => zlen (fst f) <= AMF0_STRING_MAX /\ emits (encode (snd f)) (layout (snd f)) (zlen (layout (snd f)))) o ->
  let bs := AMF0_OBJECT_MARKER :: concat (map (fun '(k, v) => layout_key k ++ layout v) o) ++ layout_key [] ++ [AMF0_OBJECT_END_MARKER] in
  emits (EncodeAmf0Object encode o true) bs (zlen bs).
Proof.
  intros H. cbv zeta. unfold EncodeAmf0Object. rewrite zlen_cons, !zlen_app. change (AMF0_OBJECT_MARKER :: ?bs) with ([AMF0_OBJECT_MARKER] ++ bs).
  eapply emits_bind; [apply emits_marker|]. eapply emits_bind; [by apply emits_fields|].
  eapply emits_bind; [by apply emits_wrap, emits_key|].
  eapply emits_eq; [eapply emits_bind; [apply emits_wrap, emits_WriteMarker|apply emits_ret]|done|].
  change (zlen [AMF0_OBJECT_END_MARKER]) with 1. lia.
Qed.

Lemma EncodeAmf0_layout v : fits0 v -> emits (EncodeAmf0 v) (layout0 v) (zlen (layout0 v)).
Proof.
  induction v as [|b|k n|bits|s|bs| |t|t|l IH|o IH|t o IH] using amf_value_ind; cbn [fits0 EncodeAmf0 layout0]; intros H; try done;
    try apply emits_number.
  - eapply emits_eq; [eapply emits_bind; [apply emits_marker|eapply emits_bind; [apply emits_bytes|apply emits_ret]]|done|done].
  - unfold AMF0_STRING_MAX. destruct (Z.leb_spec (zlen s) 65535) as [Hs|Hs].
    + rewrite zlen_cons. change (AMF0_STRING_MARKER :: ?bs) with ([AMF0_STRING_MARKER] ++ bs). unfold EncodeAmf0String.
      eapply emits_bind; [apply emits_marker|]. rewrite u16_small by (pose proof (zlen_nonneg s); lia).
      unfold layout_key. rewrite zlen_app. eapply emits_bind; [apply emits_wrap, emits_binary|].
      eapply emits_eq; [eapply emits_bind; [apply emits_wrap, emits_bytes|apply emits_ret]|by rewrite app_nil_r|].
      change (zlen (be_enc 2 (zlen s))) with 2. lia.
    + rewrite zlen_cons. change (AMF0_LONG_STRING_MARKER :: ?bs) with ([AMF0_LONG_STRING_MARKER] ++ bs). unfold EncodeAmf0LongString.
      eapply emits_bind; [apply emits_marker|]. rewrite u32_small by lia.
      rewrite zlen_app. eapply emits_bind; [apply emits_wrap, emits_binary|].
      eapply emits_eq; [eapply emits_bind; [apply emits_wrap, emits_bytes|apply emits_ret]|by rewrite app_nil_r|].
      change (zlen (be_enc 4 (zlen s))) with 4. lia.
  - apply emits_array0; [done|]. apply Forall_true. intros b. apply emits_number.
  - destruct H as [Hl H]. apply fits_all in H. apply emits_array0; [done|]. eapply Forall_impl; [apply Forall_and; split; [exact IH|exact H]|].
    intros v [IHv Hv]. by apply IHv.
  - destruct H as [_ H]. apply fits_all in H. apply emits_object0. eapply Forall_impl; [apply Forall_and; split; [exact IH|exact H]|].
    intros [k v] [IHv (_ & Hk & Hv)]. split; [done|by apply IHv].
Qed.

Lemma parses_bind_plain {A B} (m : Dec A) (k : A -> Dec B) bs1 bs2 a b e :
  parses m bs1 a false -> parses (k a) bs2 b e -> parses (m ≫= k) (bs1 ++ bs2) b e.
Proof. intros H1 H2. by eapply parses_bind; [exact H1|exact H2|]. Qed.

Lemma parses_no_marker {A} m (k : unit -> Dec A) bs a e : parses (k tt) bs a e -> parses (on_reader (AssertMarker false m) ≫= k) bs a e.
Proof. intros H. apply (parses_bind_plain _ _ [] bs tt); [|exact H]. apply parses_reader. by intros rest. Qed.

Lemma parses_key k : zlen k <= AMF0_STRING_MAX -> parses (DecodeAmf0String false) (layout_key k) k (bool_decide (k = [])).
Proof.
  intros Hk. apply parses_no_marker. unfold AMF0_STRING_MAX in Hk. eapply parses_bind_plain.
  - apply parses_wrap, parses_reader, (reads_binary 2).
  - rewrite Z.mod_small by (pose proof (zlen_nonneg k); split; [lia|]; change (256 ^ Z.of_nat 2) with 65536; lia).
    apply parses_wrap, parses_ReadBytes.
Qed.

Section Nested.
Context {A B : Type} (layout : A -> list Z) (decoded : A -> B) (ends : A -> bool).

Lemma parses_elements (decode : Dec B) l fuel : (length l < fuel)%nat ->
  Forall (fun v => layout v <> [] /\ parses decode (layout v) (decoded v) (ends v)) l ->
  parses (decode_elements decode fuel (zlen l)) (concat (map layout l)) (map decoded l) (default false (last (map ends l))).
Proof.
  revert fuel. induction l as [|v l IH]; intros [|fuel] Hf H; cbn in Hf; try lia; cbn [decode_elements map concat].
  { apply parses_ret. }
  apply Forall_cons in H as [[Hn Hv] H]. rewrite zlen_cons. pose proof (zlen_nonneg l).
  rewrite (proj2 (Z.leb_gt (1 + zlen l) 0)) by lia. apply (parses_bind _ _ _ _ (decoded v) _ (ends v)); [exact Hv| |].
  - replace (1 + zlen l - 1) with (zlen l) by lia. apply (parses_map (cons (decoded v))).
    eapply parses_weaken; [apply IH; [lia|done]|]. cbn [map]. by destruct (map ends l).
  - intros He. destruct l as [|w l]; [right; cbn; by rewrite He|left].
    apply Forall_cons in H as [[Hw _] _]. cbn. by destruct (layout w).
Qed.
End Nested.

Lemma object_set_new k v o : k ∉ map fst o -> object_set k v o = o ++ [(k, v)].
Proof.
  induction o as [|[k' v'] o IH]; intros Hk; cbn in *; [done|]. rewrite not_elem_of_cons in Hk. destruct Hk as [H1 H2].
  rewrite decide_False by done. by rewrite IH.
Qed.

(** A key, a value and so on up to the empty key. *)
Lemma parses_fields (layout : amf_value -> list Z) (decoded : amf_value -> amf_value) (ends : amf_value -> bool) (decode : Dec amf_value)
    (o : list (list Z * amf_value)) acc fuel :
  (length o < fuel)%nat -> NoDup (map fst acc ++ map fst o) ->
  Forall (fun f => fst f <> [] /\ zlen (fst f) <= AMF0_STRING_MAX /\ parses decode (layout (snd f)) (decoded (snd f)) (ends (snd f))) o ->
  parses (decode_fields decode fuel acc)
    (concat (map (fun '(k, v) => layout_key k ++ layout v) o) ++ layout_key [] ++ [AMF0_OBJECT_END_MARKER])
    (acc ++ map (fun '(k, v) => (k, decoded v)) o) false.
Proof.
  revert acc fuel. induction o as [|[k v] o IH]; intros acc [|fuel] Hf Hd H; cbn in Hf; try lia; cbn [decode_fields map concat].
  - rewrite app_nil_l, app_nil_r. eapply parses_bind; [by apply parses_key| |by intros; left]. rewrite decide_True by done.
    apply (parses_map (fun _ => acc) _ _ tt), parses_wrap, parses_reader. intros rest. unfold AssertMarker. by erewrite run_bind_ok by apply reads_marker.
  - apply Forall_cons in H as [(Hk & Hz & Hv) H]. cbn [fst snd] in *. rewrite <- !app_assoc.
    eapply parses_bind; [by apply parses_key| |by rewrite bool_decide_false]. rewrite decide_False by done.
    eapply parses_bind; [apply parses_wrap, Hv| |].
    + rewrite object_set_new.
      * change ((k, decoded v) :: map ?f o) with ([(k, decoded v)] ++ map f o). rewrite (app_assoc acc [(k, decoded v)]).
        apply IH; [lia| |done]. rewrite map_app, <- app_assoc. exact Hd.
      * rewrite NoDup_app in Hd. destruct Hd as (_ & Hd & _). intros Hin. apply (Hd k Hin). by left.
    + intros _. left. by destruct (concat _).
Qed.

Lemma layout0_cons v : fits0 v -> layout0 v <> [].
Proof. destruct v; cbn; try done. by destruct (zlen s <=? AMF0_STRING_MAX). Qed.

Lemma length_concat_map {A} (layout : A -> list Z) l : Forall (fun v => layout v <> []) l -> (length l <= length (concat (map layout l)))%nat.
Proof.
  induction 1 as [|v l Hv _ IH]; cbn; [lia|]. rewrite length_app. destruct (layout v); [done|]. cbn. lia.
Qed.

Lemma length_layout_elem {A} (layout : A -> list Z) l v : v ∈ l -> (length (layout v) <= length (concat (map layout l)))%nat.
Proof. induction 1 as [v l|v w l _ IH]; cbn; rewrite length_app; lia. Qed.

Section Decode0.
Context (handlers : list Z -> option (Dec amf_value)).

(** The marker tells what follows. *)
Lemma parses_marker0 m bs a e (rest : Z -> Dec amf_value) : parses (rest m) bs a e ->
  parses (marker ← on_reader ReadMarker; rest marker) (m :: bs) a e.
Proof. intros H. apply (parses_bind_plain _ _ [m] bs m); [|done]. apply parses_reader, reads_marker. Qed.

Lemma parses_number bits fuel : parses (DecodeAmf0_n handlers (S fuel)) (layout_number bits) (VFloat (bits mod 256 ^ 8)) false.
Proof. apply parses_marker0, parses_value, parses_no_marker, parses_wrap, parses_reader, (reads_binary 8). Qed.

Lemma parses_array0 {A} (layout : A -> list Z) decoded ends decode (l : list A) : zlen l < 4294967296 ->
  Forall (fun v => layout v <> [] /\ parses decode (layout v) (decoded v) (ends v)) l ->
  parses (DecodeAmf0StrictArray decode false) (be_enc 4 (zlen l) ++ concat (map layout l)) (map decoded l)
    (default false (last (map ends l))).
Proof.
  intros Hl H. apply parses_no_marker. eapply parses_bind_plain; [apply parses_wrap, parses_reader, (reads_binary 4)|].
  rewrite Z.mod_small by (pose proof (zlen_nonneg l); split; [lia|]; change (256 ^ Z.of_nat 4) with 4294967296; lia).
  apply (parses_bind_plain _ _ [] _ tt); [apply parses_decoder|]. apply parses_fuel. intros fuel Hf. apply parses_elements.
  - eapply Nat.le_lt_trans; [|exact Hf]. apply length_concat_map. eapply Forall_impl; [exact H|]. by intros v [? _].
  - eapply Forall_impl; [exact H|]. intros v [? Hv]. split; [done|]. by apply parses_wrap.
Qed.

Lemma parses_object0 layout decoded ends decode (o : list (list Z * amf_value)) : NoDup (map fst o) ->
  Forall (fun f => fst f <> [] /\ zlen (fst f) <= AMF0_STRING_MAX /\ parses decode (layout (snd f)) (decoded (snd f)) (ends (snd f))) o ->
  parses (DecodeAmf0Object decode false)
    (concat (map (fun '(k, v) => layout_key k ++ layout v) o) ++ layout_key [] ++ [AMF0_OBJECT_END_MARKER])
    (map (fun '(k, v) => (k, decoded v)) o) false.
Proof.
  intros Hd H. apply parses_no_marker. apply (parses_bind_plain _ _ [] _ tt); [apply parses_decoder|]. apply parses_fuel. intros fuel Hf.
  eapply (parses_fields layout decoded ends decode o []); [|exact Hd|exact H]. rewrite length_app in Hf.
  enough (length o <= length (concat (map (fun '(k, v) => layout_key k ++ layout v) o)))%nat by lia.
  apply length_concat_map, Forall_true. intros [k v]. done.
Qed.

Lemma DecodeAmf0_layout v : fits0 v -> forall fuel, (length (layout0 v) <= fuel)%nat ->
  parses (DecodeAmf0_n handlers fuel) (layout0 v) (decoded0 v) (ends_empty0 v).
Proof.
  induction v as [|b|k n|bits|s|bs| |t|t|l IH|o IH|t o IH] using amf_value_ind; cbn [fits0 decoded0 ends_empty0]; intros H [|fuel] Hf;
    try done; try by (destruct (layout0 _) eqn:E in Hf; [by apply layout0_cons in E|cbn in Hf; lia]).
  - apply parses_marker0, parses_no_marker, parses_ret.
  - apply parses_marker0, parses_value, parses_no_marker. apply (parses_bind_plain _ _ [_] [] (if b then 1 else 0)).
    + apply parses_reader, reads_marker.
    + destruct b; apply parses_ret.
  - apply parses_number.
  - rewrite <- (Z.mod_small bits (256 ^ 8)) at 2 by done. apply parses_number.
  - cbn [layout0]. destruct (Z.leb_spec (zlen s) AMF0_STRING_MAX) as [Hs|Hs].
    + by apply parses_marker0, parses_value, parses_key.
    + apply parses_marker0, parses_value, parses_no_marker.
      eapply parses_bind_plain; [apply parses_wrap, parses_reader, (reads_binary 4)|].
      rewrite Z.mod_small by (unfold AMF0_STRING_MAX in Hs; split; [lia|]; change (256 ^ Z.of_nat 4) with 4294967296; lia).
      apply parses_wrap, parses_ReadBytes.
  - apply parses_marker0, parses_value. eapply parses_weaken.
    + apply (parses_array0 _ decoded_number (fun _ => false)); [done|]. apply Forall_forall. intros b Hb. split; [done|].
      destruct fuel as [|fuel]; [cbn in Hf; lia|]. apply parses_number.
    + clear. by induction bs as [|b [|b' bs] IH].
  - destruct H as [Hl H]. apply fits_all in H. apply parses_marker0, parses_value, parses_array0; [done|].
    cbn [layout0 length] in Hf. rewrite length_app in Hf. apply Forall_forall. intros v Hv. rewrite Forall_forall in IH, H.
    split; [by apply layout0_cons, H|]. apply IH; [done|by apply H|]. pose proof (length_layout_elem layout0 l v Hv). lia.
  - destruct H as [Hd H]. apply fits_all in H. apply parses_marker0, parses_value, (parses_object0 layout0 decoded0 ends_empty0); [done|].
    cbn [layout0 length] in Hf. rewrite length_app in Hf. apply Forall_forall. intros [k v] Hv. rewrite Forall_forall in IH, H.
    destruct (H _ Hv) as (Hk & Hz & Hfit). split_and!; [done..|]. apply (IH (k, v)); [done..|]. cbn [snd].
    pose proof (length_layout_elem (fun '(k, v) => layout_key k ++ layout0 v) o (k, v) Hv) as Hlen.
    cbv beta iota in Hlen. rewrite length_app in Hlen. lia.
Qed.
End Decode0.

(** ** 29-bit integers *)

Definition layout29 (n : Z) : list Z :=
  if n <=? 0x7F then [n]
  else if n <=? 0x3FFF then [128 + n / 128; n mod 128]
  else if n <=? 0x1FFFFF then [128 + n / 16384; 128 + n / 128 mod 128; n mod 128]
  else [128 + n / 4194304; 128 + n / 32768 mod 128; 128 + n / 256 mod 128; n mod 256].

Lemma more_bit a : 0 <= a < 128 -> Z.lor a 0x80 = 128 + a.
Proof.
  intros Ha. assert (H : forallb (fun a => Z.lor a 0x80 =? 128 + a) (seqZ 0 128) = true) by (vm_compute; reflexivity).
  rewrite forallb_forall in H. apply Z.eqb_eq, H, list_elem_of_In, elem_of_seqZ. lia.
Qed.

(** A byte of seven bits, with or without the bit for more. *)
Lemma seven_bits a : 0 <= a < 128 -> Z.land a 0x7F = a /\ Z.land a 0x80 = 0 /\ Z.land (128 + a) 0x7F = a /\ Z.land (128 + a) 0x80 = 128.
Proof.
  intros Ha. assert (H : forallb (fun a => (Z.land a 0x7F =? a) && (Z.land a 0x80 =? 0) && (Z.land (128 + a) 0x7F =? a)
    && (Z.land (128 + a) 0x80 =? 128)) (seqZ 0 128) = true) by (vm_compute; reflexivity).
  rewrite forallb_forall in H. specialize (H a). rewrite !andb_true_iff, !Z.eqb_eq in H. apply and_assoc, and_assoc, H.
  apply list_elem_of_In, elem_of_seqZ. lia.
Qed.

Lemma emits_uint29 n : 0 <= n < 536870912 -> emits (encodeAmf3Uint29 n) (layout29 n) (zlen (layout29 n)).
Proof.
  intros Hn. unfold encodeAmf3Uint29, layout29. change 0x7F with (Z.ones 7).
  rewrite !Z.land_ones, !Z.shiftr_div_pow2 by lia. change (Z.ones 7) with 127.
  change (2 ^ 7) with 128. change (2 ^ 14) with 16384. change (2 ^ 22) with 4194304. change (2 ^ 15) with 32768. change (2 ^ 8) with 256.
  destruct (Z.leb_spec n 127) as [H1|H1]; [by rewrite u8_small by lia|].
  destruct (Z.leb_spec n 0x3FFF) as [H2|H2].
  { rewrite more_bit by (split; [apply Z.div_pos|apply Z.div_lt_upper_bound]; lia). rewrite !u8_small; [done|..]; glia. }
  destruct (Z.leb_spec n 0x1FFFFF) as [H3|H3].
  { rewrite !more_bit by glia. rewrite !u8_small; [done|..]; glia. }
  rewrite (proj2 (Z.leb_le n 0x1FFFFFFF)) by lia. rewrite !more_bit by glia. change (u8 n) with (n mod 256).
  rewrite !u8_small; [done|..]; glia.
Qed.

Lemma read_seven n b res rest : 0 <= b < 256 -> 0 <= res < 4194304 ->
  decodeU29_loop (S n) res (b :: rest) =
  (if b <? 128 then (Ok (res * 128 + b), rest) else decodeU29_loop n (res * 128 + (b - 128)) rest).
Proof.
  intros Hb Hr. cbn [decodeU29_loop]. erewrite run_bind_ok by (apply (reads_marker b)). rewrite Z.shiftl_mul_pow2 by lia.
  change (2 ^ 7) with 128. rewrite (u32_small (res * 128)) by lia.
  destruct (Z.ltb_spec b 128) as [H|H].
  - destruct (seven_bits b) as (-> & -> & _); [lia|]. by rewrite u32_small by lia.
  - destruct (seven_bits (b - 128)) as (_ & _ & E1 & E2); [lia|]. replace (128 + (b - 128)) with b in E1, E2 by lia.
    rewrite E1, E2. by rewrite u32_small by lia.
Qed.

Lemma reads_u29 n : 0 <= n < 536870912 -> reads decodeU29 (layout29 n) n.
Proof.
  intros Hn rest. unfold layout29, decodeU29. destruct (Z.leb_spec n 0x7F) as [H1|H1]; [|destruct (Z.leb_spec n 0x3FFF) as [H2|H2];
    [|destruct (Z.leb_spec n 0x1FFFFF) as [H3|H3]]]; cbn [app].
  - rewrite read_seven by lia. rewrite (proj2 (Z.ltb_lt n 128)) by lia. done.
  - rewrite read_seven by glia. rewrite (proj2 (Z.ltb_ge _ 128)) by glia. rewrite read_seven by glia.
    rewrite (proj2 (Z.ltb_lt _ 128)) by glia. do 2 f_equal. glia.
  - rewrite read_seven by glia. rewrite (proj2 (Z.ltb_ge _ 128)) by glia. rewrite read_seven by glia.
    rewrite (proj2 (Z.ltb_ge _ 128)) by glia. rewrite read_seven by glia. rewrite (proj2 (Z.ltb_lt _ 128)) by glia. do 2 f_equal. glia.
  - rewrite read_seven by glia. rewrite (proj2 (Z.ltb_ge _ 128)) by glia. rewrite read_seven by glia.
    rewrite (proj2 (Z.ltb_ge _ 128)) by glia. rewrite read_seven by glia. rewrite (proj2 (Z.ltb_ge _ 128)) by glia. cbn [decodeU29_loop].
    erewrite run_bind_ok by (apply (reads_marker (n mod 256))). rewrite Z.shiftl_mul_pow2 by lia. change (2 ^ 8) with 256.
    unfold_go. do 2 f_equal. glia.
Qed.

(** ** Version 3 *)

Definition layout_utf8 (s : list Z) : list Z := layout29 (2 * zlen s + 1) ++ s.
Definition layout_double (bits : Z) : list Z := AMF3_DOUBLE_MARKER :: be_enc 8 bits.
Definition is_u29 (k : int_kind) (n : Z) : bool :=
  match k with KInt64 | KUint64 => false | _ => (0 <=? n) && (n <=? AMF3_INTEGER_MAX) end.
Definition layout_int (k : int_kind) (n : Z) : list Z :=
  if is_u29 k n then AMF3_INTEGER_MARKER :: layout29 n else layout_double (float_bits n).
Definition date_bits (t : Z) : Z := Float64bits (f64_mul (f64_of_Z t) (f64_of_Z 1000)).

Definition on_fields {A B} (f : A -> B) (o : list (list Z * A)) : list (list Z * B) := map (fun '(k, v) => (k, f v)) o.

Definition layout_array {A} (layout : A -> list Z) (l : list A) : list Z :=
  AMF3_ARRAY_MARKER :: layout29 (2 * zlen l + 1) ++ layout_utf8 [] ++ concat (map layout l).
Definition layout_object (type : list Z) (fields : list (list Z * list Z)) : list Z :=
  AMF3_OBJECT_MARKER :: layout29 (16 * zlen fields + 3) ++ layout_utf8 type
    ++ concat (map layout_utf8 (map fst fields)) ++ concat (map snd fields).

Fixpoint layout3 (v : amf_value) : list Z :=
  match v with
  | VNil => [AMF3_NULL_MARKER]
  | VBool b => [if b then AMF3_TRUE_MARKER else AMF3_FALSE_MARKER]
  | VInt k n => layout_int k n
  | VFloat bits => layout_double bits
  | VString s => AMF3_STRING_MARKER :: layout_utf8 s
  | VArray l => layout_array layout3 l
  | VBytes bs => layout_array (layout_int KUint8) bs
  | VObject o => layout_object [] (sort_fields (on_fields layout3 o))
  | VTypedObject t o => layout_object t (sort_fields (on_fields layout3 o))
  | VTime t => AMF3_DATE_MARKER :: 0x01 :: be_enc 8 (date_bits t)
  | _ => []
  end.

(** An integer comes back as an [int32]; from 2^28 on it is taken for a negative one. *)
Definition decoded_int (k : int_kind) (n : Z) : amf_value :=
  if is_u29 k n then VInt KInt32 (if 0xfffffff <? n then n - 0x20000000 else n) else decoded_number n.
Definition decoded_date (t : Z) : Z := float_to_i64 (f64_div (Float64frombits (date_bits t mod 256 ^ 8)) (f64_of_Z 1000)).

Fixpoint decoded3 (v : amf_value) : amf_value :=
  match v with
  | VInt k n => decoded_int k n
  | VArray l => VArray (map decoded3 l)
  | VBytes bs => VArray (map (decoded_int KUint8) bs)
  | VObject o | VTypedObject _ o => VObject (sort_fields (on_fields decoded3 o))
  | VTime t => VTime (decoded_date t)
  | v => v
  end.

Definition ends_empty_array (l : list bool) : bool := default true (last l).

Fixpoint ends_empty3 (v : amf_value) : bool :=
  match v with
  | VString s => bool_decide (s = [])
  | VArray l => ends_empty_array (map ends_empty3 l)
  | VBytes bs => bool_decide (bs = [])
  | VObject o => ends_empty_array (map snd (sort_fields (on_fields ends_empty3 o)))
  | VTypedObject t o => default (bool_decide (t = [])) (last (map snd (sort_fields (on_fields ends_empty3 o))))
  | _ => false
  end.

Fixpoint fits3 (v : amf_value) : Prop :=
  match v with
  | VNil | VBool _ | VInt _ _ | VTime _ => True
  | VFloat bits => 0 <= bits < 256 ^ 8
  | VString s => zlen s < 268435456
  | VArray l => zlen l < 268435456 /\ foldr and True (map fits3 l)
  | VBytes bs => zlen bs < 268435456
  | VObject o => zlen o < 33554432 /\ NoDup (map fst o) /\ foldr and True (map (fun '(k, v) => zlen k < 268435456 /\ fits3 v) o)
  | VTypedObject t o => zlen t < 268435456 /\ zlen o < 33554432 /\ NoDup (map fst o) /\
      foldr and True (map (fun '(k, v) => zlen k < 268435456 /\ fits3 v) o)
  | _ => False
  end.

Lemma u29_length_odd n : 0 <= n < 2147483648 -> u29_length n = 2 * n + 1.
Proof.
  intros Hn. unfold u29_length. rewrite (u32_small n), Z.shiftl_mul_pow2, u32_small by lia. change (2 ^ 1) with 2.
  rewrite <- Z.add_nocarry_lor; [lia|]. change 1 with (Z.ones 1). rewrite Z.land_ones by lia. change (2 ^ 1) with 2. apply Z.mod_mul. lia.
Qed.

Lemma trait_header n : 0 <= n < 33554432 -> Z.lor 0x03 (u32 (Z.shiftl (u32 n) 4)) = 16 * n + 3.
Proof.
  intros Hn. rewrite (u32_small n), Z.shiftl_mul_pow2, u32_small by lia. change (2 ^ 4) with 16.
  rewrite Z.lor_comm, <- Z.add_nocarry_lor; [lia|]. change 3 with (Z.ones 2). rewrite Z.land_ones by lia. change (2 ^ 2) with 4. glia.
Qed.

Lemma emits_utf8 s : zlen s < 268435456 -> emits (encodeAmf3Utf8 s) (layout_utf8 s) (zlen (layout_utf8 s)).
Proof.
  intros Hs. pose proof (zlen_nonneg s). unfold encodeAmf3Utf8, layout_utf8. rewrite u29_length_odd by lia.
  eapply emits_eq; [eapply emits_bind; [apply emits_wrap, emits_uint29; lia|eapply emits_bind; [apply emits_wrap, emits_bytes|apply emits_ret]]|
    by rewrite app_nil_r|by rewrite zlen_app].
Qed.

Lemma emits_double bits : emits (EncodeAmf3Double bits true) (layout_double bits) 9.
Proof.
  eapply emits_eq; [eapply emits_bind; [apply emits_marker|eapply emits_bind; [apply emits_binary|apply emits_ret]]|by rewrite app_nil_r|done].
Qed.

Lemma emits_int k n : emits (encode_int k n) (layout_int k n) (zlen (layout_int k n)).
Proof.
  unfold encode_int, layout_int, is_u29. destruct k; try apply emits_double;
    (destruct ((0 <=? n) && (n <=? AMF3_INTEGER_MAX)) eqn:E; [|apply emits_double]; unfold AMF3_INTEGER_MAX in E;
     rewrite u32_small by lia; eapply emits_eq;
       [eapply emits_bind; [apply emits_marker|eapply emits_bind; [apply emits_uint29; lia|apply emits_ret]]|by rewrite app_nil_r|by rewrite zlen_cons]).
Qed.

Lemma emits_array3 {A} (encode : A -> Enc Z) (layout : A -> list Z) l : zlen l < 268435456 ->
  Forall (fun v => emits (encode v) (layout v) (zlen (layout v))) l ->
  emits (EncodeAmf3Array encode l true) (layout_array layout l) (zlen (layout_array layout l)).
Proof.
  intros Hl H. pose proof (zlen_nonneg l). unfold EncodeAmf3Array, layout_array. rewrite u29_length_odd by lia.
  rewrite zlen_cons, !zlen_app. change (AMF3_ARRAY_MARKER :: ?bs) with ([AMF3_ARRAY_MARKER] ++ bs).
  eapply emits_bind; [apply emits_marker|]. eapply emits_bind; [apply emits_wrap, emits_uint29; lia|].
  eapply emits_bind; [by apply emits_wrap, emits_utf8|]. eapply emits_eq; [by apply emits_elements|done|]. lia.
Qed.

Lemma sort_fields_map {A B} (f : A -> B) o : sort_fields (on_fields f o) = on_fields f (sort_fields o).
Proof.
  assert (Hi : forall k v o, insert_field (k, f v) (on_fields f o) = on_fields f (insert_field (k, v) o)).
  { intros k v o'. induction o' as [|[k' v'] o' IH]; cbn; [done|]. destruct (string_leb k k'); [done|]. cbn. f_equal. apply IH. }
  induction o as [|[k v] o IH]; [done|]. cbn. fold (on_fields f o) (sort_fields (on_fields f o)) (sort_fields o). by rewrite IH, Hi.
Qed.

Lemma sort_fields_perm {A} (o : list (list Z * A)) : sort_fields o ≡ₚ o.
Proof.
  assert (Hi : forall (f : list Z * A) o, insert_field f o ≡ₚ f :: o).
  { intros f o'. induction o' as [|g o' IH]; cbn; [done|]. destruct (string_leb _ _); [done|]. rewrite IH. apply perm_swap. }
  induction o as [|f o IH]; [done|]. cbn. fold (sort_fields o). by rewrite Hi, IH.
Qed.

Lemma zlen_on_fields {A B} (f : A -> B) o : zlen (on_fields f o) = zlen o.
Proof. unfold zlen, on_fields. by rewrite length_map. Qed.

Lemma fst_on_fields {A B} (f : A -> B) o : map fst (on_fields f o) = map fst o.
Proof. unfold on_fields. rewrite map_map. apply map_ext. by intros []. Qed.

Lemma snd_on_fields {A B} (f : A -> B) o : map snd (on_fields f o) = map f (map snd o).
Proof. unfold on_fields. rewrite !map_map. apply map_ext. by intros []. Qed.

Lemma zlen_perm {A} (l k : list A) : l ≡ₚ k -> zlen l = zlen k.
Proof. intros H. unfold zlen. by rewrite H. Qed.

Lemma emits_object3 (encode : amf_value -> Enc Z) (layout : amf_value -> list Z) t (o : list (list Z * amf_value)) :
  zlen t < 268435456 -> zlen o < 33554432 ->
  Forall (fun f => zlen (fst f) < 268435456 /\ emits (encode (snd f)) (layout (snd f)) (zlen (layout (snd f)))) o ->
  let bs := layout_object t (sort_fields (on_fields layout o)) in
  emits (EncodeAmf3Object t (on_fields encode o) true) bs (zlen bs).
Proof.
  intros Ht Ho H. cbv zeta. unfold EncodeAmf3Object, layout_object. rewrite !sort_fields_map. set (o' := sort_fields o).
  assert (Hp : o' ≡ₚ o) by apply sort_fields_perm. rewrite <- Hp in H.
  rewrite !zlen_on_fields, !fst_on_fields, !snd_on_fields. pose proof (zlen_nonneg o'). rewrite <- (zlen_perm _ _ Hp) in Ho.
  rewrite trait_header by lia. rewrite zlen_cons, !zlen_app. change (AMF3_OBJECT_MARKER :: ?bs) with ([AMF3_OBJECT_MARKER] ++ bs).
  eapply emits_bind; [apply emits_marker|]. cbv zeta. eapply emits_bind; [apply emits_wrap, emits_uint29; lia|].
  eapply emits_bind; [by apply emits_wrap, emits_utf8|]. eapply emits_bind.
  { apply emits_elements, Forall_map. eapply Forall_impl; [exact H|]. intros [k v] [Hk _]. by apply emits_utf8. }
  eapply emits_eq; [apply (emits_each _ _ _ (map layout (map snd o'))), Forall2_fmap_2, Forall2_fmap_2, Forall_Forall2_diag|done|lia].
  eapply Forall_impl; [exact H|]. by intros [k v] [_ Hv].
Qed.

Lemma EncodeAmf3_layout v : fits3 v -> emits (EncodeAmf3 v) (layout3 v) (zlen (layout3 v)).
Proof.
  assert (Hobj : forall t o, Forall (fun f => fits3 (snd f) -> emits (EncodeAmf3 (snd f)) (layout3 (snd f)) (zlen (layout3 (snd f)))) o ->
    zlen t < 268435456 -> zlen o < 33554432 -> foldr and True (map (fun '(k, v) => zlen k < 268435456 /\ fits3 v) o) ->
    let bs := layout_object t (sort_fields (on_fields layout3 o)) in
    emits (EncodeAmf3Object t (on_fields EncodeAmf3 o) true) bs (zlen bs)).
  { intros t o IH Ht Ho H. apply fits_all in H. apply emits_object3; [done..|].
    eapply Forall_impl; [apply Forall_and; split; [exact IH|exact H]|]. intros [k w] [IHv [Hk Hv]]. split; [done|by apply IHv]. }
  induction v as [|b|k n|bits|s|bs| |t|t|l IH|o IH|t o IH] using amf_value_ind; cbn [fits3 EncodeAmf3 layout3]; intros H; try done.
  - by destruct b.
  - apply emits_int.
  - apply emits_double.
  - eapply emits_eq; [eapply emits_bind; [apply emits_marker|eapply emits_bind; [by apply emits_utf8|apply emits_ret]]|by rewrite app_nil_r|].
    by rewrite zlen_cons.
  - apply emits_array3; [done|]. apply Forall_true. intros b. apply emits_int.
  - eapply emits_eq; [eapply emits_bind; [apply emits_marker|eapply emits_bind; [apply emits_wrap, emits_WriteMarker|
      eapply emits_bind; [apply emits_wrap, emits_binary|apply emits_ret]]]|by rewrite app_nil_r|done].
  - destruct H as [Hl H]. apply fits_all in H. apply emits_array3; [done|].
    eapply Forall_impl; [apply Forall_and; split; [exact IH|exact H]|]. intros v [IHv Hv]. by apply IHv.
  - destruct H as (Ho & _ & H). by apply Hobj.
  - destruct H as (Ht & Ho & _ & H). by apply Hobj.
Qed.

Lemma parses_buf bs : parses (on_reader (read_buf (zlen bs))) bs bs (bool_decide (bs = [])).
Proof.
  intros d rest Hr. destruct (parses_ReadBytes bs d rest Hr) as [d' E]. exists d'. revert E.
  unfold on_reader, read_buf, ReadBytes. unfold_go. destruct (Reader_Read _ _) as [[bs'|e|p] r] eqn:Er; try done.
  destruct (zlen bs' =? zlen bs) eqn:El; [|done]. intros [= -> -> ->]. unfold zlen. rewrite Nat2Z.id, Nat.sub_diag. by rewrite app_nil_r.
Qed.

Lemma reads_reference n : 0 <= n < 268435456 -> reads decodeReferenceInt (layout29 (2 * n + 1)) (false, n).
Proof.
  intros Hn rest. unfold decodeReferenceInt, wrap_error. erewrite run_bind_ok by (rewrite (reads_u29 (2 * n + 1) ltac:(lia) rest); reflexivity).
  change (Z.land (2 * n + 1) 0x01) with (Z.land (2 * n + 1) (Z.ones 1)). rewrite Z.land_ones, Z.shiftr_div_pow2 by lia. change (2 ^ 1) with 2.
  replace ((2 * n + 1) mod 2) with 1 by glia. replace ((2 * n + 1) / 2) with n by glia. done.
Qed.

Lemma parses_get_decoder {A} (k : Decoder -> Dec A) bs a e : (forall d, parses (k d) bs a e) -> parses (get_decoder ≫= k) bs a e.
Proof. intros H d rest Hr. by apply (H d). Qed.

(** What is not a reference: [n] and then the body. *)
Lemma parses_not_reference {A} f n (k : bool * Z -> Dec A) bs a e : 0 <= n < 268435456 -> parses (k (false, n)) bs a e ->
  parses (wrap_error f (on_reader decodeReferenceInt) ≫= k) (layout29 (2 * n + 1) ++ bs) a e.
Proof. intros Hn H. eapply parses_bind_plain; [by apply parses_wrap, parses_reader, reads_reference|done]. Qed.

Lemma layout29_cons n : layout29 n <> [].
Proof. unfold layout29. by repeat destruct (_ <=? _). Qed.

Lemma parses_utf8 s : zlen s < 268435456 -> parses (DecodeAmf3String false) (layout_utf8 s) s (bool_decide (s = [])).
Proof.
  intros Hs. pose proof (zlen_nonneg s). apply parses_no_marker. apply parses_not_reference; [lia|]. cbv beta iota.
  apply parses_get_decoder. intros d. rewrite <- (app_nil_r s) at 2.
  eapply parses_bind; [apply parses_wrap, parses_buf| |by intros ->%bool_decide_eq_true; right].
  apply (parses_map (fun _ => s) _ _ tt). destruct (decide (s = [])); eapply parses_weaken; [apply parses_ret|done|apply parses_decoder|done].
Qed.

Lemma layout_utf8_cons s : layout_utf8 s <> [].
Proof. unfold layout_utf8. pose proof (layout29_cons (2 * zlen s + 1)). by destruct (layout29 _). Qed.

Lemma last_map_empty (l : list (list Z)) : default false (last (map (fun s => bool_decide (s = [])) l)) = true -> l <> [].
Proof. by destruct l. Qed.

Lemma parses_sealed (layout : amf_value -> list Z) (decoded : amf_value -> amf_value) (ends : amf_value -> bool) (decode : Dec amf_value)
    (o : list (list Z * amf_value)) acc :
  NoDup (map fst acc ++ map fst o) ->
  Forall (fun f => layout (snd f) <> [] /\ parses decode (layout (snd f)) (decoded (snd f)) (ends (snd f))) o ->
  parses (decode_sealed decode (map fst o) acc) (concat (map layout (map snd o))) (acc ++ on_fields decoded o)
    (default false (last (map ends (map snd o)))).
Proof.
  revert acc. induction o as [|[k v] o IH]; intros acc Hd H; cbn [map decode_sealed concat].
  { change (on_fields decoded []) with (@nil (list Z * amf_value)). rewrite app_nil_r. apply parses_ret. }
  change (on_fields decoded ((k, v) :: o)) with ([(k, decoded v)] ++ on_fields decoded o).
  apply Forall_cons in H as [[Hn Hv] H]. cbn [fst snd] in *. eapply parses_bind; [apply parses_wrap, Hv| |].
  - rewrite object_set_new.
    + rewrite (app_assoc acc [(k, decoded v)]).
      eapply parses_weaken; [apply IH; [|done]|by destruct o]. rewrite map_app, <- app_assoc. exact Hd.
    + rewrite NoDup_app in Hd. destruct Hd as (_ & Hd & _). intros Hin. apply (Hd k Hin). by left.
  - intros He. destruct o as [|[k' v'] o]; [right; cbn; by rewrite He|left]. apply Forall_cons in H as [[Hw _] _]. cbn in *. by destruct (layout v').
Qed.

Lemma trait_bits n : 0 <= n ->
  Z.land (8 * n + 1) 0x01 = 1 /\ Z.land (8 * n + 1) 0x02 = 0 /\ Z.land (8 * n + 1) 0x04 = 0 /\ Z.shiftr (8 * n + 1) 3 = n.
Proof.
  intros Hn. assert (E : Z.land (8 * n + 1) (Z.ones 3) = 1) by (rewrite Z.land_ones by lia; change (2 ^ 3) with 8; glia).
  assert (L : forall m, Z.land (Z.ones 3) m = m -> Z.land (8 * n + 1) m = Z.land 1 m) by (intros m Hm; rewrite <- Hm at 1; by rewrite Z.land_assoc, E).
  rewrite !L by reflexivity. rewrite Z.shiftr_div_pow2 by lia. change (2 ^ 3) with 8. split_and!; [done..|glia].
Qed.

Lemma parses_trait t keys : zlen t < 268435456 -> zlen keys < 33554432 -> Forall (fun k => zlen k < 268435456) keys ->
  parses (decode_trait (8 * zlen keys + 1)) (layout_utf8 t ++ concat (map layout_utf8 keys)) (mkTrait t false false keys)
    (default (bool_decide (t = [])) (last (map (fun k => bool_decide (k = [])) keys))).
Proof.
  intros Ht Hn H. unfold decode_trait. destruct (trait_bits (zlen keys) (zlen_nonneg keys)) as (E1 & E2 & E3 & E4).
  rewrite E1, E2, E3, E4. cbn [Z.eqb negb]. eapply parses_bind; [by apply parses_wrap, parses_utf8| |].
  - rewrite <- (app_nil_r (concat _)). eapply parses_bind.
    + apply parses_fuel. intros fuel Hf. apply (parses_elements layout_utf8 id (fun k => bool_decide (k = []))).
      * eapply Nat.le_lt_trans; [|exact Hf]. apply length_concat_map, Forall_true. apply layout_utf8_cons.
      * eapply Forall_impl; [exact H|]. intros k Hk. split; [apply layout_utf8_cons|]. by apply parses_wrap, parses_utf8.
    + rewrite map_id. eapply parses_weaken; [apply (parses_map (fun _ => mkTrait t false false keys) _ _ tt), parses_decoder|done].
    + intros He. right. by destruct (last _).
  - intros He. destruct keys as [|k keys]; [right; exact He|left]. cbn. pose proof (layout_utf8_cons k). by destruct (layout_utf8 k).
Qed.

Section Decode3.
Context (handlers : list Z -> option (Dec amf_value)).

Lemma parses_object3 layout decoded ends decode t (o : list (list Z * amf_value)) : zlen t < 268435456 -> zlen o < 33554432 -> NoDup (map fst o) ->
  Forall (fun f => zlen (fst f) < 268435456 /\ layout (snd f) <> [] /\ parses decode (layout (snd f)) (decoded (snd f)) (ends (snd f))) o ->
  parses (DecodeAmf3Object handlers decode false)
    (layout29 (16 * zlen o + 3) ++ layout_utf8 t ++ concat (map layout_utf8 (map fst o)) ++ concat (map layout (map snd o)))
    (VObject (on_fields decoded o)) (default (bool_decide (t = [])) (last (map ends (map snd o)))).
Proof.
  intros Ht Ho Hd H. pose proof (zlen_nonneg o). assert (Hz : zlen (map fst o) = zlen o) by (unfold zlen; by rewrite length_map).
  apply parses_no_marker. replace (16 * zlen o + 3) with (2 * (8 * zlen (map fst o) + 1) + 1) by lia.
  apply parses_not_reference; [lia|]. cbv beta iota. apply parses_get_decoder. intros d. rewrite (app_assoc (layout_utf8 t)).
  eapply parses_bind; [apply parses_trait; [done|lia|]| |].
  - apply Forall_map. eapply Forall_impl; [exact H|]. by intros f (? & _).
  - cbn [tr_Externalizable tr_Properties tr_Dynamic]. apply (parses_bind_plain _ _ [] _ tt); [apply parses_decoder|].
    rewrite <- (app_nil_r (concat (map layout _))). eapply parses_bind; [apply (parses_sealed layout decoded ends decode o [])| |].
    + exact Hd.
    + eapply Forall_impl; [exact H|]. by intros f (_ & ?).
    + eapply parses_weaken; [apply parses_ret|done].
    + intros He. right. by destruct (last _).
  - intros He. destruct o as [|[k v] o]; [right; exact He|left]. apply Forall_cons in H as [(_ & Hv & _) _]. cbn in *. by destruct (layout v).
Qed.

Lemma parses_array3 {A} (layout : A -> list Z) decoded ends decode (l : list A) : zlen l < 268435456 ->
  Forall (fun v => layout v <> [] /\ parses decode (layout v) (decoded v) (ends v)) l ->
  parses (DecodeAmf3Array decode false) (layout29 (2 * zlen l + 1) ++ layout_utf8 [] ++ concat (map layout l)) (map decoded l)
    (ends_empty_array (map ends l)).
Proof.
  intros Hl H. pose proof (zlen_nonneg l). apply parses_no_marker, parses_not_reference; [lia|]. cbv beta iota. apply parses_get_decoder. intros d.
  eapply parses_bind; [by apply parses_wrap, parses_utf8| |].
  - apply (parses_bind_plain _ _ [] (concat (map layout l)) tt); [by intros d' rest _; exists d'|]. rewrite <- (app_nil_r (concat _)). eapply parses_bind.
    + apply parses_fuel. intros fuel Hf. apply (parses_elements layout decoded ends).
      * eapply Nat.le_lt_trans; [|exact Hf]. apply length_concat_map. eapply Forall_impl; [exact H|]. by intros v [? _].
      * eapply Forall_impl; [exact H|]. intros v [? Hv]. split; [done|]. by apply parses_wrap.
    + eapply parses_weaken; [apply (parses_map (fun _ => map decoded l) _ _ tt), parses_decoder|done].
    + intros He. right. unfold ends_empty_array. by destruct (last _).
  - intros _. destruct l as [|v l]; [by right|left]. apply Forall_cons in H as [[Hv _] _]. cbn. by destruct (layout v).
Qed.

Lemma layout_int_cons k n : layout_int k n <> [].
Proof. unfold layout_int. by destruct (is_u29 k n). Qed.

Lemma layout3_cons v : fits3 v -> layout3 v <> [].
Proof. destruct v; cbn; try done. intros _. apply layout_int_cons. Qed.

Lemma parses_int k n fuel : parses (DecodeAmf3_n handlers (S fuel)) (layout_int k n) (decoded_int k n) false.
Proof.
  unfold layout_int, decoded_int. destruct (is_u29 k n) eqn:E.
  - assert (Hn : 0 <= n < 536870912) by (unfold is_u29, AMF3_INTEGER_MAX in E; destruct k; try done; lia).
    apply parses_marker0, parses_value, parses_no_marker. rewrite <- (app_nil_r (layout29 n)).
    eapply parses_bind_plain; [by apply parses_reader, reads_u29|]. unfold i32.
    replace ((n + 2147483648) mod 4294967296 - 2147483648) with n by glia. destruct (0xfffffff <? n) eqn:El; [|apply parses_ret].
    replace ((u32 (n - 0x20000000) + 2147483648) mod 4294967296 - 2147483648) with (n - 0x20000000) by glia. apply parses_ret.
  - apply parses_marker0, (parses_value VFloat), parses_no_marker, parses_wrap, parses_reader, (reads_binary 8).
Qed.

Lemma parses_fields3 fuel t o :
  Forall (fun f => fits3 (snd f) -> forall fuel, (length (layout3 (snd f)) <= fuel)%nat ->
    parses (DecodeAmf3_n handlers fuel) (layout3 (snd f)) (decoded3 (snd f)) (ends_empty3 (snd f))) o ->
  zlen t < 268435456 -> zlen o < 33554432 -> NoDup (map fst o) ->
  foldr and True (map (fun '(k, v) => zlen k < 268435456 /\ fits3 v) o) ->
  (length (layout_object t (sort_fields (on_fields layout3 o))) <= S fuel)%nat ->
  parses (DecodeAmf3_n handlers (S fuel)) (layout_object t (sort_fields (on_fields layout3 o)))
    (VObject (sort_fields (on_fields decoded3 o)))
    (default (bool_decide (t = [])) (last (map snd (sort_fields (on_fields ends_empty3 o))))).
Proof.
  intros IH Ht Ho Hd H Hf. apply fits_all in H. rewrite !sort_fields_map in *. set (o' := sort_fields o) in *.
  assert (Hp : o' ≡ₚ o) by apply sort_fields_perm. rewrite <- Hp in IH, H, Hd. rewrite <- (zlen_perm _ _ Hp) in Ho.
  unfold layout_object in *. rewrite zlen_on_fields, fst_on_fields, snd_on_fields, (snd_on_fields ends_empty3) in *.
  apply parses_marker0, (parses_object3 layout3 decoded3 ends_empty3); [done..|].
  cbn [length] in Hf. rewrite !length_app in Hf. apply Forall_forall. intros [k v] Hv. rewrite Forall_forall in IH, H.
  destruct (H _ Hv) as [Hk Hfit]. split_and!; [done|by apply layout3_cons|]. apply (IH (k, v)); [done..|]. cbn [snd].
  assert (Hin : v ∈ map snd o') by (apply list_elem_of_fmap; by exists (k, v)).
  pose proof (length_layout_elem layout3 _ v Hin). lia.
Qed.

Lemma DecodeAmf3_layout v : fits3 v -> forall fuel, (length (layout3 v) <= fuel)%nat ->
  parses (DecodeAmf3_n handlers fuel) (layout3 v) (decoded3 v) (ends_empty3 v).
Proof.
  induction v as [|b|k n|bits|s|bs| |t|t|l IH|o IH|t o IH] using amf_value_ind; cbn [fits3 decoded3 ends_empty3]; intros H [|fuel] Hf;
    try done; try by (destruct (layout3 _) eqn:E in Hf; [by apply layout3_cons in E|cbn in Hf; lia]).
  - apply parses_marker0, parses_no_marker, parses_ret.
  - destruct b; apply parses_marker0, parses_value, parses_no_marker, parses_ret.
  - apply parses_int.
  - rewrite <- (Z.mod_small bits (256 ^ 8)) at 2 by done.
    apply parses_marker0, parses_value, parses_no_marker, parses_wrap, parses_reader, (reads_binary 8).
  - by apply parses_marker0, parses_value, parses_utf8.
  - cbn [layout3 length] in *. eapply parses_weaken; [apply parses_marker0, parses_value, (parses_array3 _ (decoded_int KUint8) (fun _ => false)); [done|]|].
    + unfold layout_array in Hf. cbn [length] in Hf. rewrite !length_app in Hf. apply Forall_forall. intros b Hb. split; [apply layout_int_cons|].
      destruct fuel as [|fuel]; [|apply parses_int]. pose proof (layout29_cons (2 * zlen bs + 1)). destruct (layout29 _); [done|cbn in Hf; lia].
    + unfold ends_empty_array. clear. destruct bs as [|b bs]; [done|]. intros H. exfalso. revert H. generalize b. by induction bs.
  - apply parses_marker0, parses_value, parses_no_marker. change (0x01 :: ?bs) with (layout29 (2 * 0 + 1) ++ bs).
    apply parses_not_reference; [lia|]. cbv beta iota. apply parses_get_decoder. intros d. rewrite <- (app_nil_r (be_enc _ _)).
    eapply parses_bind_plain; [apply parses_wrap, parses_reader, (reads_binary 8)|].
    apply (parses_map (fun _ => decoded_date t) _ _ tt), parses_decoder.
  - destruct H as [Hl H]. apply fits_all in H. cbn [layout3]. apply parses_marker0, parses_value, parses_array3; [done|].
    cbn [layout3 layout_array length] in Hf. rewrite !length_app in Hf. apply Forall_forall. intros v Hv. rewrite Forall_forall in IH, H.
    split; [by apply layout3_cons, H|]. apply IH; [done|by apply H|]. pose proof (length_layout_elem layout3 l v Hv). lia.
  - destruct H as (Ho & Hd & H). by apply parses_fields3.
  - destruct H as (Ht & Ho & Hd & H). by apply parses_fields3.
Qed.
End Decode3.

(** ** Any bytes are decoded in the end *)

(** [within n k m]: on fewer than [n] bytes [m] does not run out of fuel; it takes at
    least [k] bytes when it succeeds; and when it panics, a reference was out of range. *)
Definition within {A} (n k : nat) (m : Dec A) : Prop := forall d r, (length r < n)%nat ->
  match m (d, r) with
  | (Ok _, (_, r')) => (k + length r' <= length r)%nat
  | (Err _, (_, r')) => (length r' <= length r)%nat
  | (Panic p, _) => p = "index out of range"
  end.

Lemma within_weaken {A} n k n' k' (m : Dec A) : within n k m -> (n' <= n)%nat -> (k' <= k)%nat -> within n' k' m.
Proof. intros H Hn Hk d r Hr. specialize (H d r ltac:(lia)). destruct (m (d, r)) as [[a|e|p] [d' r']]; [lia|lia|done]. Qed.

Lemma within_take {A B} n k1 k2 (m : Dec A) (f : A -> Dec B) :
  within n k1 m -> (forall a, within (n - k1) k2 (f a)) -> (0 < n)%nat -> within n (k1 + k2) (m ≫= f).
Proof.
  intros Hm Hf Hn d r Hr. specialize (Hm d r Hr). unfold mbind, GoM_bind. destruct (m (d, r)) as [[a|e|p] [d' r']]; [|done|done].
  assert (Hr' : (length r' < n - k1)%nat) by lia. specialize (Hf a d' r' Hr'). destruct (f a (d', r')) as [[b|e|p] [d2 r2]]; [lia|lia|done].
Qed.

Lemma within_zero {A} k (m : Dec A) : within 0 k m.
Proof. intros d r Hr. lia. Qed.

Lemma within_bind {A B} n (m : Dec A) (f : A -> Dec B) : within n 0 m -> (forall a, within n 0 (f a)) -> within n 0 (m ≫= f).
Proof.
  intros Hm Hf. destruct n as [|n]; [apply within_zero|]. apply (within_take _ 0 0); [done| |lia]. intros a. by rewrite Nat.sub_0_r.
Qed.

Lemma within_ret {A} n (a : A) : within n 0 (mret a).
Proof. intros d r Hr. cbn. lia. Qed.
Lemma within_fail {A} n k e : within n k (fail e : Dec A).
Proof. intros d r Hr. cbn. lia. Qed.
Lemma within_guard n b e : within n 0 (guard b e : Dec unit).
Proof. intros d r Hr. destruct b; cbn; lia. Qed.
Lemma within_index {A} n (refs : list A) i : within n 0 (index refs i).
Proof. intros d r Hr. unfold index. destruct (if i <? zlen refs then _ else _); cbn; [lia|done]. Qed.
Lemma within_decoder n f : within n 0 (on_decoder f).
Proof. intros d r Hr. cbn. lia. Qed.
Lemma within_get n : within n 0 get_decoder.
Proof. intros d r Hr. cbn. lia. Qed.
Lemma within_wrap {A} n k f (m : Dec A) : within n k m -> within n k (wrap_error f m).
Proof. intros H d r Hr. specialize (H d r Hr). unfold wrap_error. by destruct (m (d, r)) as [[a|e|p] [d' r']]. Qed.
Lemma within_value {A} n (f : A -> amf_value) (m : Dec A) : within n 0 m -> within n 0 (to_value f m).
Proof. intros H. apply within_bind; [done|]. intros a. apply within_ret. Qed.

(** A reader takes bytes from the front. *)
Definition takes {A} (k : nat) (m : Reader A) : Prop := forall r,
  match m r with
  | (Ok _, r') => (k + length r' <= length r)%nat
  | (Err _, r') => (length r' <= length r)%nat
  | (Panic p, _) => False
  end.

Lemma within_reader {A} n k (m : Reader A) : takes k m -> within n k (on_reader m).
Proof. intros H d r _. specialize (H r). unfold on_reader. by destruct (m r) as [[a|e|p] r']. Qed.

Lemma takes_bind {A B} k (m : Reader A) (f : A -> Reader B) : takes k m -> (forall a, takes 0 (f a)) -> takes k (m ≫= f).
Proof.
  intros Hm Hf r. specialize (Hm r). unfold mbind, GoM_bind. destruct (m r) as [[a|e|p] r']; [|done|done].
  specialize (Hf a r'). destruct (f a r') as [[b|e|p] r2]; [lia|lia|done].
Qed.

Lemma takes_wrap {A} k f (m : Reader A) : takes k m -> takes k (wrap_error f m).
Proof. intros H r. specialize (H r). unfold wrap_error. by destruct (m r) as [[a|e|p] r']. Qed.
Lemma takes_ret {A} (a : A) : takes 0 (mret a).
Proof. intros r. cbn. lia. Qed.
Lemma takes_read n : takes 0 (Reader_Read n).
Proof. intros [|b r]; [cbn; lia|]. unfold Reader_Read. cbv zeta. rewrite length_drop. lia. Qed.

Lemma takes_byte : takes 1 amf_ReadByte.
Proof.
  intros [|b r]; [vm_compute; lia|]. pose proof (reads_marker b r) as E. unfold ReadMarker in E. cbn [app] in E. rewrite E. cbn. lia.
Qed.

Lemma takes_ReadBytes n : takes 0 (ReadBytes n).
Proof. apply takes_bind; [apply takes_read|]. intros bs r. destruct (zlen bs =? n); cbn; lia. Qed.

Lemma takes_assert b m : takes 0 (AssertMarker b m).
Proof.
  unfold AssertMarker. destruct b; [|apply takes_ret]. apply takes_bind; [|intros a r; destruct (a =? m); cbn; lia].
  intros r. pose proof (takes_byte r) as H. unfold ReadMarker. destruct (amf_ReadByte r) as [[a|e|p] r']; [lia|done|done].
Qed.

Lemma takes_binary n : (0 < n) -> takes 1 (binary_Read n).
Proof.
  intros Hn. apply takes_bind; [|intros a; apply takes_ret]. intros r. unfold ReadFull. rewrite (proj2 (Z.leb_gt n 0)) by done.
  destruct (n <=? zlen r) eqn:E; [|destruct r; cbn; lia]. rewrite length_drop. unfold zlen in E. lia.
Qed.

Lemma takes_u29_loop n res : takes 1 (decodeU29_loop n res).
Proof.
  revert res. induction n as [|n IH]; intros res; cbn [decodeU29_loop]; apply takes_bind; try apply takes_byte; intros b; [apply takes_ret|].
  destruct (Z.land b 0x80 =? 0); [apply takes_ret|]. intros r. specialize (IH (u32 (u32 (Z.shiftl res 7) + Z.land b 0x7F)) r).
  destruct (decodeU29_loop n _ r) as [[a|e|p] r']; [lia|done|done].
Qed.

Lemma takes_u29 : takes 1 decodeU29.
Proof. apply takes_u29_loop. Qed.

Lemma takes_reference : takes 1 decodeReferenceInt.
Proof. apply takes_bind; [apply takes_wrap, takes_u29_loop|]. intros a. apply takes_ret. Qed.

Lemma takes_buf n : takes 0 (read_buf n).
Proof. apply takes_bind; [apply takes_read|]. intros bs. apply takes_ret. Qed.

Lemma takes_zero {A} (m : Reader A) : takes 1 m -> takes 0 m.
Proof. intros H r. specialize (H r). destruct (m r) as [[a|e|p] r']; [lia|done|done]. Qed.

Create HintDb amf.
#[local] Hint Resolve within_ret within_fail within_guard within_index within_decoder within_get within_wrap within_value within_bind within_reader : amf.
#[local] Hint Resolve takes_assert takes_ReadBytes takes_buf takes_binary takes_zero takes_byte takes_u29 takes_reference : amf.
#[local] Hint Extern 1 (0 < _) => lia : amf.

(** Take a decoder apart along its statements. *)
Ltac within := repeat first
  [ progress intros | apply within_bind | apply within_value | apply within_wrap | case_match
  | solve [ auto with amf nocore ] ].

Lemma within_first {A B} n (m : Dec A) (f : A -> Dec B) :
  within n 1 m -> (forall a, within (n - 1) 0 (f a)) -> within n 1 (m ≫= f).
Proof. destruct n as [|n]; [intros; apply within_zero|]. intros H1 H2. apply (within_take _ 1 0); [done|done|lia]. Qed.

Lemma within_less {A} n (m : Dec A) : (forall n, within n 0 m) -> within (n - 1) 0 m.
Proof. auto. Qed.

(** After a marker that is not read here. *)
Lemma within_unmarked {A} n m (k : unit -> Dec A) : within n 1 (k tt) -> within n 1 (on_reader (AssertMarker false m) ≫= k).
Proof. done. Qed.

Lemma within_string0 n : within n 1 (DecodeAmf0String false).
Proof. apply within_unmarked, within_first; [by apply within_wrap, within_reader, takes_binary|within]. Qed.

Lemma within_string3 n : within n 1 (DecodeAmf3String false).
Proof. apply within_unmarked, within_first; [by apply within_wrap, within_reader, takes_reference|within]. Qed.

Lemma within_zero_of {A} n k (m : Dec A) : within n k m -> within n 0 m.
Proof. intros H. eapply within_weaken; [exact H|lia|lia]. Qed.

Lemma within_fuel {A} n (m : nat -> Dec A) : (forall fuel, within (Nat.min n fuel) 0 (m fuel)) -> within n 0 (with_fuel m).
Proof. intros H d r Hr. apply H. lia. Qed.

Section Loops.
Context {A : Type} (n : nat) (decode : Dec A) (Hdecode : within n 1 decode).

Lemma within_elements fuel k : within (Nat.min n fuel) 0 (decode_elements decode fuel k).
Proof.
  revert k. induction fuel as [|fuel IH]; intros k; [rewrite Nat.min_0_r; apply within_zero|]. cbn [decode_elements].
  destruct (k <=? 0); [apply within_ret|]. apply (within_zero_of _ 1), within_first.
  - eapply within_weaken; [exact Hdecode|lia|lia].
  - intros v. apply within_bind; [|intros; apply within_ret]. eapply within_weaken; [apply IH|lia|lia].
Qed.
End Loops.

Section Loops2.
Context (n : nat) (decode : Dec amf_value) (Hdecode : within n 1 decode).

Lemma within_fields fuel acc : within (Nat.min n fuel) 0 (decode_fields decode fuel acc).
Proof.
  revert acc. induction fuel as [|fuel IH]; intros acc; [rewrite Nat.min_0_r; apply within_zero|]. cbn [decode_fields].
  apply (within_zero_of _ 1), within_first; [apply within_string0|]. intros key. destruct (decide (key = [])); [within|].
  apply within_bind; [eapply within_wrap, within_weaken; [exact Hdecode|lia|lia]|]. intros v. eapply within_weaken; [apply IH|lia|lia].
Qed.

Lemma within_dynamic fuel acc : within (Nat.min n fuel) 0 (decode_dynamic decode fuel acc).
Proof.
  revert acc. induction fuel as [|fuel IH]; intros acc; [rewrite Nat.min_0_r; apply within_zero|]. cbn [decode_dynamic].
  apply (within_zero_of _ 1), within_first; [apply within_wrap, within_string3|]. intros key. destruct (decide (key = [])); [within|].
  apply within_bind; [eapply within_wrap, within_weaken; [exact Hdecode|lia|lia]|]. intros v. eapply within_weaken; [apply IH|lia|lia].
Qed.

Lemma within_sealed keys acc : within n 0 (decode_sealed decode keys acc).
Proof.
  revert acc. induction keys as [|k keys IH]; intros acc; cbn [decode_sealed]; [apply within_ret|].
  apply within_bind; [by eapply within_wrap, within_zero_of|]. intros v. apply IH.
Qed.
End Loops2.

Lemma takes_flags : takes 0 readFlags.
Proof.
  assert (H : forall fuel r, (length r < fuel)%nat -> match readFlags_loop fuel r with
    | (Ok _, r') | (Err _, r') => (length r' <= length r)%nat | (Panic _, _) => False end).
  { induction fuel as [|fuel IH]; intros r Hr; [lia|]. cbn [readFlags_loop]. pose proof (takes_byte r) as Hb.
    unfold wrap_error, mbind, GoM_bind. destruct (amf_ReadByte r) as [[b|e|p] r']; [|done|done]. destruct (Z.land b 0x80 =? 0); [cbn; lia|].
    specialize (IH r' ltac:(lia)). destruct (readFlags_loop fuel r') as [[bs|e|p] r2]; [cbn; lia|lia|done]. }
  intros r. specialize (H (S (length r)) r ltac:(lia)). unfold readFlags. by destruct (readFlags_loop _ r) as [[bs|e|p] r'].
Qed.

Section External.
Context (n : nat) (decode : Dec amf_value) (Hdecode : within n 0 decode).
#[local] Hint Resolve Hdecode takes_flags : amf.

Lemma within_external_fields flags p names obj : within n 0 (external_fields decode flags p names obj).
Proof. revert p obj. induction names as [|name names IH]; intros p obj; cbn [external_fields]; within. Qed.

Lemma within_extra_fields i flags j m obj : within n 0 (extra_fields decode i flags j m obj).
Proof. revert j obj. induction m as [|m IH]; intros j obj; cbn [extra_fields]; within. Qed.
#[local] Hint Resolve within_external_fields within_extra_fields : amf.

Lemma within_external_flags i flagSet sets obj : within n 0 (external_flags decode i flagSet sets obj).
Proof. revert i sets obj. induction flagSet as [|flags flagSet IH]; intros i sets obj; cbn [external_flags]; within. Qed.
#[local] Hint Resolve within_external_flags : amf.

Lemma within_externalizable type : within n 0 (decode_externalizable no_handlers decode type).
Proof.
  unfold decode_externalizable, decodeAsyncMessageExt, decodeAcknowledgeMessageExt, decodeAcknowledgeMessage, decodeAsyncMessage,
    decodeAbstractMessage, decodeArrayCollection, decodeExternal, add_object, no_handlers. within.
Qed.
End External.

Section Decoders.
Context (n : nat) (decode : Dec amf_value) (Hdecode : within n 1 decode).

Lemma within_array3 : within n 0 (DecodeAmf3Array decode false).
Proof.
  unfold DecodeAmf3Array, add_object. within. apply within_fuel. intros fuel. by apply within_elements, within_wrap.
Qed.

Lemma within_trait refVal : within n 0 (decode_trait refVal).
Proof.
  unfold decode_trait. within. apply within_fuel. intros fuel. apply within_elements, within_wrap, within_string3.
Qed.

Lemma within_object3 : within n 0 (DecodeAmf3Object no_handlers decode false).
Proof.
  unfold DecodeAmf3Object, add_object. within.
  - apply within_trait.
  - by eapply within_externalizable, within_zero_of.
  - by apply within_sealed.
  - apply within_fuel. intros fuel. by apply within_dynamic.
Qed.

Lemma within_object0 : within n 0 (DecodeAmf0Object decode false).
Proof. unfold DecodeAmf0Object, cache. within. apply within_fuel. intros fuel. by apply within_fields. Qed.

Lemma within_ecma : within n 0 (DecodeAmf0EcmaArray decode false).
Proof.
  apply within_bind; [by apply within_reader, takes_assert|intros _]. apply within_bind; [|intros _; apply within_wrap, within_object0].
  apply within_reader. intros r. pose proof (takes_binary 4 ltac:(lia) r) as H. destruct (binary_Read 4 r) as [[a|e|p] r']; cbn; lia.
Qed.

Lemma within_typed : within n 0 (DecodeAmf0TypedObject decode false).
Proof.
  apply within_bind; [by apply within_reader, takes_assert|intros _]. apply within_bind; [apply within_decoder|intros _].
  apply within_bind; [eapply within_wrap, within_zero_of, within_string0|intros type].
  apply within_bind; [apply within_wrap, within_object0|intros o; apply within_ret].
Qed.

Lemma within_strict : within n 0 (DecodeAmf0StrictArray decode false).
Proof. unfold DecodeAmf0StrictArray, cache. within. apply within_fuel. intros fuel. by apply within_elements, within_wrap. Qed.
End Decoders.

Lemma within_marker {B} n (f : Z -> Dec B) : (forall m, within n 0 (f m)) -> within (S n) 1 (on_reader ReadMarker ≫= f).
Proof. intros H. apply within_first; [apply within_reader, takes_byte|]. intros m. cbn. rewrite Nat.sub_0_r. apply H. Qed.

Lemma within_Amf3 fuel : within fuel 1 (DecodeAmf3_n no_handlers fuel).
Proof.
  induction fuel as [|fuel IH]; [apply within_zero|]. cbn [DecodeAmf3_n]. apply within_marker. intros m.
  unfold DecodeAmf3Undefined, DecodeAmf3Null, DecodeAmf3False, DecodeAmf3True, DecodeAmf3Integer, DecodeAmf3Double, DecodeAmf3Xml, DecodeAmf3Date,
    DecodeAmf3ByteArray, add_object.
  repeat (case_match; [solve [within | apply within_value; eapply within_zero_of, within_string3 | apply within_value, within_array3, IH | apply within_object3, IH]|]).
  apply within_fail.
Qed.

Lemma within_Amf0 fuel : within fuel 1 (DecodeAmf0_n no_handlers fuel).
Proof.
  induction fuel as [|fuel IH]; [apply within_zero|]. cbn [DecodeAmf0_n]. apply within_marker. intros m.
  unfold DecodeAmf0Number, DecodeAmf0Boolean, DecodeAmf0Null, DecodeAmf0Undefined, DecodeAmf0Unsupported, DecodeAmf0Date, DecodeAmf0LongString,
    DecodeAmf0XmlDocument, DecodeAmf0LongString.
  repeat (case_match; [solve [within | apply within_value, within_object0, IH | apply within_value, within_ecma, IH | apply within_typed, IH
    | apply within_value, within_strict, IH | eapply within_zero_of, within_Amf3]|]).
  apply within_fail.
Qed.

(** ** Floats that are integers *)

(** The bits of a positive float with 53 bits of mantissa. *)
Lemma bits_normal m e : 2 ^ 52 <= m < 2 ^ 53 -> 0 < e + 1075 < 2047 ->
  let x := S754_finite false (Z.to_pos m) e in 0 <= Float64bits x < 2 ^ 63 /\ Float64frombits (Float64bits x) = x.
Proof.
  intros Hm He. cbv zeta. cbn [Float64bits]. rewrite Z2Pos.id by lia. rewrite (proj2 (Z.ltb_ge m (2 ^ 52))) by lia.
  change (Z.b2z false * 2 ^ 63) with 0. set (b := e + 1075) in *. set (f := m - 2 ^ 52).
  assert (Hf : 0 <= f < 2 ^ 52) by (unfold f; lia). replace (0 + (b * 2 ^ 52 + f)) with (b * 2 ^ 52 + f) by lia.
  assert (Hv : 0 <= b * 2 ^ 52 + f < 2 ^ 63) by (change (2 ^ 63) with (2048 * 2 ^ 52); nia). split; [exact Hv|].
  unfold Float64frombits.
  assert (T : Z.testbit (b * 2 ^ 52 + f) 63 = false).
  { apply Z.testbit_false; [lia|]. by rewrite Z.div_small. }
  rewrite T, Z.shiftr_div_pow2, Z.div_add_l, (Z.div_small f), Z.add_0_r, (Z.mod_small b), Z.add_comm, Z.mod_add, (Z.mod_small f) by lia.
  rewrite (proj2 (Z.eqb_neq b 2047)), (proj2 (Z.eqb_neq b 0)) by lia. unfold f, b. do 2 f_equal; lia.
Qed.

Lemma float_bits_exact n : 0 <= n < 2 ^ 53 -> 0 <= float_bits n < 2 ^ 63 /\ Float64frombits (float_bits n) = f64_of_Z n.
Proof.
  intros Hn. unfold float_bits. rewrite f64_of_Z_exact by done. unfold fl. destruct (Z.ltb_spec 0 n) as [Hp|Hp]; [|split; [by cbn|done]].
  cbv zeta. pose proof (Z.log2_spec n Hp) as [H1 H2]. pose proof (Z.log2_nonneg n). set (k := 53 - 1 - Z.log2 n).
  assert (Hl : Z.log2 n < 53) by (apply Z.log2_lt_pow2; lia). apply bits_normal; [|lia]. split.
  - replace (2 ^ 52) with (2 ^ Z.log2 n * 2 ^ k) by (rewrite <- Z.pow_add_r by lia; f_equal; lia). apply Z.mul_le_mono_nonneg_r; lia.
  - replace (2 ^ 53) with (2 ^ Z.succ (Z.log2 n) * 2 ^ k) by (rewrite <- Z.pow_add_r by lia; f_equal; lia). apply Z.mul_lt_mono_pos_r; lia.
Qed.

(** ** Batches *)

Section Batch.
Context (handlers : list Z -> option (Dec amf_value)) (ver : Z) (fits : amf_value -> Prop).
Context (layout : amf_value -> list Z) (decoded : amf_value -> amf_value) (ends : amf_value -> bool).
Context (Hencode : forall v, fits v -> emits (amf_Encode v ver) (layout v) (zlen (layout v))).
Context (Hdecode : forall v, fits v -> layout v <> [] /\ parses (amf_Decode handlers ver) (layout v) (decoded v) (ends v)).
Context (Hend : forall d, amf_Decode handlers ver (d, []) = (Err io_EOF, (d, []))).

Lemma emits_batch vs : Forall fits vs -> emits (EncodeBatch ver vs) (concat (map layout vs)) 0.
Proof.
  induction 1 as [|v vs Hv _ IH]; cbn [EncodeBatch map concat]; [apply emits_ret|].
  eapply emits_bind; [by apply Hencode|exact IH].
Qed.

Lemma decode_batch_all vs fuel acc d : Forall fits vs -> default false (last (map ends vs)) = false -> (length vs < fuel)%nat ->
  exists d', decode_batch handlers fuel ver acc (d, concat (map layout vs)) = (Ok (acc ++ map decoded vs, io_EOF), (d', [])).
Proof.
  intros H. revert fuel acc d. induction H as [|v vs Hv Hvs IH]; intros [|fuel] acc d He Hf; cbn in Hf; try lia; cbn [decode_batch map concat].
  { exists d. rewrite Hend, app_nil_r. done. }
  destruct (Hdecode v Hv) as [Hn Hp]. destruct (Hp d (concat (map layout vs))) as [d' E].
  { intros Ht Hnil. destruct vs as [|w vs]; [cbn in He; congruence|]. apply Forall_cons in Hvs as [Hw _]. destruct (Hdecode w Hw) as [Hnw _].
    cbn in Hnil. by apply app_eq_nil in Hnil as [? _]. }
  rewrite E. destruct (IH fuel (acc ++ [decoded v]) d') as [d2 E2]; [by destruct vs|lia|]. exists d2. by rewrite E2, <- app_assoc.
Qed.

Lemma batch_roundtrip vs d : Forall fits vs -> default false (last (map ends vs)) = false ->
  exists out d', EncodeBatch ver vs [] = (Ok 0, out) /\ DecodeBatch handlers ver (d, out) = (Ok (map decoded vs, io_EOF), (d', [])).
Proof.
  intros H He. exists (concat (map layout vs)).
  assert (Hl : (length vs < S (length (concat (map layout vs))))%nat).
  { apply le_n_S, length_concat_map. eapply Forall_impl; [exact H|]. intros v Hv. by apply Hdecode. }
  destruct (decode_batch_all vs (S (length (concat (map layout vs)))) [] d H He Hl) as [d' E]. exists d'. split; [by apply (emits_batch vs H [])|].
  exact E.
Qed.
End Batch.

Lemma parses_top {A} (m : nat -> Dec A) bs a e : (forall fuel, (length bs <= fuel)%nat -> parses (m fuel) bs a e) -> parses (with_fuel m) bs a e.
Proof. intros H. apply parses_fuel. intros fuel Hf. apply H. lia. Qed.

(** C7: A command is a batch of values. What EncodeBatch writes in version 0, DecodeBatch
    reads back value by value and then meets the end of the bytes: nil, booleans, floats
    and strings of any length unchanged, integers as floats, arrays and objects with their
    elements and fields in order. It holds for all values that the format can carry, and
    unless the last value read is an empty string. *)
Theorem amf0_roundtrip handlers vs d :
  Forall fits0 vs -> default false (last (map ends_empty0 vs)) = false ->
  exists out d', EncodeBatch AMF0 vs [] = (Ok 0, out) /\
    DecodeBatch handlers AMF0 (d, out) = (Ok (map decoded0 vs, io_EOF), (d', [])).
Proof.
  apply (batch_roundtrip handlers AMF0 fits0 layout0 decoded0 ends_empty0).
  - apply EncodeAmf0_layout.
  - intros v Hv. split; [by apply layout0_cons|]. apply parses_top. by apply DecodeAmf0_layout.
  - done.
Qed.

(** C8: What EncodeBatch writes in version 3, DecodeBatch reads back value by value,
    whatever references it has read before: strings, booleans and floats unchanged, an
    integer of up to 29 bits as a signed 29-bit integer and any other as a float, objects
    with their fields sorted by their names, typed ones without their type. It holds for
    all values that the format can carry (strings and arrays of less than 2^28 bytes or
    elements, objects of less than 2^25 fields with different names, no maps or other Go
    types), and unless what is read last is an empty string or array or an object without
    fields. *)
Theorem amf3_roundtrip handlers vs d :
  Forall fits3 vs -> default false (last (map ends_empty3 vs)) = false ->
  exists out d', EncodeBatch AMF3 vs [] = (Ok 0, out) /\
    DecodeBatch handlers AMF3 (d, out) = (Ok (map decoded3 vs, io_EOF), (d', [])).
Proof.
  apply (batch_roundtrip handlers AMF3 fits3 layout3 decoded3 ends_empty3).
  - apply EncodeAmf3_layout.
  - intros v Hv. split; [by apply layout3_cons|]. apply parses_top. by apply DecodeAmf3_layout.
  - done.
Qed.

Lemma within_top {A} n k (m : nat -> Dec A) : (forall fuel, within fuel k (m fuel)) -> within n k (with_fuel m).
Proof. intros H d r Hr. apply H. lia. Qed.

Lemma within_Decode n ver : within n 1 (amf_Decode no_handlers ver).
Proof.
  unfold amf_Decode. destruct (ver =? 0); [apply within_top, within_Amf0|]. destruct (ver =? 3); [apply within_top, within_Amf3|apply within_fail].
Qed.

Lemma decode_batch_ends ver fuel acc d r : (length r < fuel)%nat ->
  match decode_batch no_handlers fuel ver acc (d, r) with
  | (Ok (vs, _), (_, r')) => (length vs + length r' <= length acc + length r)%nat
  | (Err _, _) => False
  | (Panic p, _) => p = "index out of range"
  end.
Proof.
  revert acc d r. induction fuel as [|fuel IH]; intros acc d r Hr; [lia|]. cbn [decode_batch].
  pose proof (within_Decode (S fuel) ver d r Hr) as H. destruct (amf_Decode no_handlers ver (d, r)) as [[v|e|p] [d' r']]; [|lia|done].
  specialize (IH (acc ++ [v]) d' r' ltac:(lia)). rewrite length_app in IH. cbn [length] in IH.
  destruct (decode_batch no_handlers fuel ver (acc ++ [v]) (d', r')) as [[[vs e]|e|p] [d2 r2]]; [lia|done|done].
Qed.

(** C28: Decoding ends for every sequence of bytes and every decoder: it gives the values
    before the first error and that error, no more values than there are bytes, and the
    only way to fail is a reference to something that was not sent, which panics. *)
Theorem amf_decoding_ends ver d r :
  (exists vs e d' r', DecodeBatch no_handlers ver (d, r) = (Ok (vs, e), (d', r')) /\ (length vs + length r' <= length r)%nat) \/
  (exists d' r', DecodeBatch no_handlers ver (d, r) = (Panic "index out of range", (d', r'))).
Proof.
  pose proof (decode_batch_ends ver (S (length r)) [] d r ltac:(lia)) as H. unfold DecodeBatch, with_fuel.
  destruct (decode_batch no_handlers _ ver [] (d, r)) as [[[vs e]|e|p] [d' r']]; [|done|].
  - left. exists vs, e, d', r'. split; [done|]. cbn in H. lia.
  - right. exists d', r'. by rewrite H.
Qed.

(** ** Metadata *)

Lemma setFrameFrame_layout : setFrameFrame = layout0 (VString SetDataFrame).
Proof. vm_compute. reflexivity. Qed.

Lemma decode_setFrameFrame p : fst (amf_Decode no_handlers AMF0 (mkDecoder [] [] [] [], setFrameFrame ++ p)) = Ok (VString SetDataFrame).
Proof.
  rewrite setFrameFrame_layout. destruct (parses_top (DecodeAmf0_n no_handlers) (layout0 (VString SetDataFrame)) (VString SetDataFrame) false) with
    (d := mkDecoder [] [] [] []) (rest := p) as [d' E].
  - intros fuel Hf. by apply (DecodeAmf0_layout no_handlers (VString SetDataFrame)).
  - done.
  - change (amf_Decode no_handlers AMF0) with (with_fuel (DecodeAmf0_n no_handlers)). by rewrite E.
Qed.

(** The prefix that is added can be taken off again, and it is added only once. *)
Lemma metadata_reform p s : fst (amf_Decode no_handlers AMF0 (mkDecoder [] [] [] [], p)) = Ok (VString s) -> s <> SetDataFrame ->
  let q := setFrameFrame ++ p in
  MetaDataReform p ADD = Ok q /\ MetaDataReform q ADD = Ok q /\ MetaDataReform q DEL = Ok p /\ MetaDataReform p DEL = Ok p.
Proof.
  intros E Hs. cbv zeta. unfold MetaDataReform. rewrite decode_setFrameFrame, E.
  change (DEL =? ADD) with false. change (DEL =? DEL) with true. change (ADD =? ADD) with true. cbv iota.
  rewrite (decide_False (P := s = SetDataFrame)) by done. rewrite (decide_True (P := SetDataFrame = SetDataFrame)) by done.
  rewrite zlen_app, (proj2 (Z.leb_le (zlen setFrameFrame) _)) by (pose proof (zlen_nonneg p); lia). rewrite drop_app_length. by repeat case_decide.
Qed.

(** ** Examples and what goes wrong *)

Definition sample_command : list amf_value :=
  [VString (bytes_of "connect"); VInt KInt 1;
   VObject [(bytes_of "tcUrl", VString (bytes_of "rtmp://h/live")); (bytes_of "app", VString []); (bytes_of "caps", VArray [VBool true; VNil])]].

Lemma amf0_roundtrip_witness :
  exists out d', EncodeBatch AMF0 sample_command [] = (Ok 0, out) /\
    DecodeBatch no_handlers AMF0 (NewDecoder, out) = (Ok (map decoded0 sample_command, io_EOF), (d', [])).
Proof.
  apply (amf0_roundtrip no_handlers sample_command NewDecoder); [|vm_compute; reflexivity].
  repeat constructor; try (vm_compute; congruence); rewrite ?not_elem_of_cons; repeat split; try apply not_elem_of_nil; vm_compute; congruence.
Defined.

Lemma amf3_roundtrip_witness :
  exists out d', EncodeBatch AMF3 sample_command [] = (Ok 0, out) /\
    DecodeBatch no_handlers AMF3 (NewDecoder, out) = (Ok (map decoded3 sample_command, io_EOF), (d', [])).
Proof.
  apply (amf3_roundtrip no_handlers sample_command NewDecoder); [|vm_compute; reflexivity].
  repeat constructor; try (vm_compute; congruence); rewrite ?not_elem_of_cons; repeat split; try apply not_elem_of_nil; vm_compute; congruence.
Defined.

(** Three bytes crash a reader of version 0: a value of version 3 that refers to a string
    that was never sent. *)
Lemma string_reference_panics : fst (DecodeAmf0 no_handlers (NewDecoder, [0x11; 0x06; 0x00])) = Panic "index out of range".
Proof. vm_compute. reflexivity. Qed.

(** An empty string at the end of the bytes is not decoded. *)
Lemma last_empty_string_lost :
  EncodeAmf0 (VString []) [] = (Ok 3, [2; 0; 0]) /\
  fst (DecodeAmf0 no_handlers (NewDecoder, [2; 0; 0])) = Err (fmt_Wrap "decode amf0: unable to decode string value: %s" io_EOF).
Proof. split; vm_compute; reflexivity. Qed.

(** Integers from 2^28 on come back negative. *)
Lemma large_integer_negative n : 268435456 <= n <= AMF3_INTEGER_MAX -> decoded3 (VInt KInt n) = VInt KInt32 (n - 536870912).
Proof.
  unfold AMF3_INTEGER_MAX. intros Hn. cbn [decoded3]. unfold decoded_int, is_u29, AMF3_INTEGER_MAX.
  rewrite (proj2 (Z.leb_le 0 n)), (proj2 (Z.leb_le n 536870911)), (proj2 (Z.ltb_lt 0xfffffff n)) by lia. done.
Qed.

(** A string that is cut off is filled up with zero bytes. *)
Lemma short_string_padded : fst (DecodeAmf3 no_handlers (NewDecoder, [0x06; 0x09; 104; 105])) = Ok (VString [104; 105; 0; 0]).
Proof. vm_compute. reflexivity. Qed.

(** The second array is referred to, and the first one is returned. *)
Lemma array_reference_halved :
  fst (DecodeBatch no_handlers AMF3 (NewDecoder, [9; 3; 1; 1; 9; 5; 1; 3; 3; 9; 2]))
  = Ok ([VArray [VNil]; VArray [VBool true; VBool true]; VArray [VNil]], io_EOF).
Proof. vm_compute. reflexivity. Qed.

(** A reference to an object is a reference to nil. *)
Lemma object_reference_nil :
  fst (DecodeBatch no_handlers AMF3 (NewDecoder, [10; 0x13; 1; 3; 97; 3; 10; 0])) = Ok ([VObject [([97], VBool true)]; VNil], io_EOF).
Proof. vm_compute. reflexivity. Qed.

(** The prefix in its long form: two bytes of it stay. *)
Lemma long_prefix_cut : MetaDataReform ([12; 0; 0; 0; 13] ++ SetDataFrame ++ [5]) DEL = Ok [109; 101; 5].
Proof. vm_compute. reflexivity. Qed.
