(* ===== verification/Pio.v ===== *)
(** * liveproxy/utils/pio: integers in slices of bytes

    A slice that is read or filled is the state; an index behind its end panics. *)

From S2P Require Import Prelude ByteOrder.

(** ** Indexing a slice *)

(** [b[i]] *)
Definition load (i : nat) : GoM (list Z) Z := fun b =>
  match b !! i with Some x => (Ok x, b) | None => (Panic "index out of range", b) end.

(** [b[i] = v] *)
Definition store (i : nat) (v : Z) : GoM (list Z) unit := fun b =>
  if (i <? length b)%nat then (Ok tt, <[i := v]> b) else (Panic "index out of range", b).

(** [i <<= 8; i |= T(b)] for an integer of the type [T] that [wrap] stands for. *)
Definition shift_in (wrap : Z -> Z) (i b : Z) : Z := Z.lor (wrap (Z.shiftl i 8)) (wrap b).

(** ** Reading *)

Definition U8 : GoM (list Z) Z := load 0.

Definition U16BE : GoM (list Z) Z :=
  b ← load 0; let i := u16 b in
  b ← load 1; let i := shift_in u16 i b in
  mret i.

Definition I16BE : GoM (list Z) Z :=
  b ← load 0; let i := i16 b in
  b ← load 1; let i := shift_in i16 i b in
  mret i.

Definition I24BE : GoM (list Z) Z :=
  b ← load 0; let i := i32 (i8 b) in
  b ← load 1; let i := shift_in i32 i b in
  b ← load 2; let i := shift_in i32 i b in
  mret i.

Definition U24BE : GoM (list Z) Z :=
  b ← load 0; let i := u32 b in
  b ← load 1; let i := shift_in u32 i b in
  b ← load 2; let i := shift_in u32 i b in
  mret i.

Definition I32BE : GoM (list Z) Z :=
  b ← load 0; let i := i32 (i8 b) in
  b ← load 1; let i := shift_in i32 i b in
  b ← load 2; let i := shift_in i32 i b in
  b ← load 3; let i := shift_in i32 i b in
  mret i.

Definition U32LE : GoM (list Z) Z :=
  b ← load 3; let i := u32 b in
  b ← load 2; let i := shift_in u32 i b in
  b ← load 1; let i := shift_in u32 i b in
  b ← load 0; let i := shift_in u32 i b in
  mret i.

Definition U32BE : GoM (list Z) Z :=
  b ← load 0; let i := u32 b in
  b ← load 1; let i := shift_in u32 i b in
  b ← load 2; let i := shift_in u32 i b in
  b ← load 3; let i := shift_in u32 i b in
  mret i.

Definition U40BE : GoM (list Z) Z :=
  b ← load 0; let i := u64 b in
  b ← load 1; let i := shift_in u64 i b in
  b ← load 2; let i := shift_in u64 i b in
  b ← load 3; let i := shift_in u64 i b in
  b ← load 4; let i := shift_in u64 i b in
  mret i.

Definition U64BE : GoM (list Z) Z :=
  b ← load 0; let i := u64 b in
  b ← load 1; let i := shift_in u64 i b in
  b ← load 2; let i := shift_in u64 i b in
  b ← load 3; let i := shift_in u64 i b in
  b ← load 4; let i := shift_in u64 i b in
  b ← load 5; let i := shift_in u64 i b in
  b ← load 6; let i := shift_in u64 i b in
  b ← load 7; let i := shift_in u64 i b in
  mret i.

Definition I64BE : GoM (list Z) Z :=
  b ← load 0; let i := i64 (i8 b) in
  b ← load 1; let i := shift_in i64 i b in
  b ← load 2; let i := shift_in i64 i b in
  b ← load 3; let i := shift_in i64 i b in
  b ← load 4; let i := shift_in i64 i b in
  b ← load 5; let i := shift_in i64 i b in
  b ← load 6; let i := shift_in i64 i b in
  b ← load 7; let i := shift_in i64 i b in
  mret i.

(** ** Writing *)

Definition PutU8 (v : Z) : GoM (list Z) unit := store 0 v.

Definition PutI16BE (v : Z) : GoM (list Z) unit :=
  store 0 (u8 (Z.shiftr v 8));;
  store 1 (u8 v).

Definition PutU16BE (v : Z) : GoM (list Z) unit :=
  store 0 (u8 (Z.shiftr v 8));;
  store 1 (u8 v).

Definition PutI24BE (v : Z) : GoM (list Z) unit :=
  store 0 (u8 (Z.shiftr v 16));;
  store 1 (u8 (Z.shiftr v 8));;
  store 2 (u8 v).

Definition PutU24BE (v : Z) : GoM (list Z) unit :=
  store 0 (u8 (Z.shiftr v 16));;
  store 1 (u8 (Z.shiftr v 8));;
  store 2 (u8 v).

Definition PutI32BE (v : Z) : GoM (list Z) unit :=
  store 0 (u8 (Z.shiftr v 24));;
  store 1 (u8 (Z.shiftr v 16));;
  store 2 (u8 (Z.shiftr v 8));;
  store 3 (u8 v).

Definition PutU32BE (v : Z) : GoM (list Z) unit :=
  store 0 (u8 (Z.shiftr v 24));;
  store 1 (u8 (Z.shiftr v 16));;
  store 2 (u8 (Z.shiftr v 8));;
  store 3 (u8 v).

Definition PutU32LE (v : Z) : GoM (list Z) unit :=
  store 3 (u8 (Z.shiftr v 24));;
  store 2 (u8 (Z.shiftr v 16));;
  store 1 (u8 (Z.shiftr v 8));;
  store 0 (u8 v).

Definition PutU40BE (v : Z) : GoM (list Z) unit :=
  store 0 (u8 (Z.shiftr v 32));;
  store 1 (u8 (Z.shiftr v 24));;
  store 2 (u8 (Z.shiftr v 16));;
  store 3 (u8 (Z.shiftr v 8));;
  store 4 (u8 v).

Definition PutU48BE (v : Z) : GoM (list Z) unit :=
  store 0 (u8 (Z.shiftr v 40));;
  store 1 (u8 (Z.shiftr v 32));;
  store 2 (u8 (Z.shiftr v 24));;
  store 3 (u8 (Z.shiftr v 16));;
  store 4 (u8 (Z.shiftr v 8));;
  store 5 (u8 v).

Definition PutU64BE (v : Z) : GoM (list Z) unit :=
  store 0 (u8 (Z.shiftr v 56));;
  store 1 (u8 (Z.shiftr v 48));;
  store 2 (u8 (Z.shiftr v 40));;
  store 3 (u8 (Z.shiftr v 32));;
  store 4 (u8 (Z.shiftr v 24));;
  store 5 (u8 (Z.shiftr v 16));;
  store 6 (u8 (Z.shiftr v 8));;
  store 7 (u8 v).

Definition PutI64BE (v : Z) : GoM (list Z) unit :=
  store 0 (u8 (Z.shiftr v 56));;
  store 1 (u8 (Z.shiftr v 48));;
  store 2 (u8 (Z.shiftr v 40));;
  store 3 (u8 (Z.shiftr v 32));;
  store 4 (u8 (Z.shiftr v 24));;
  store 5 (u8 (Z.shiftr v 16));;
  store 6 (u8 (Z.shiftr v 8));;
  store 7 (u8 v).

(** ** What is written is read back *)

Lemma lor_low k x b : 0 <= k -> 0 <= b < 2 ^ k -> Z.lor (Z.shiftl x k) b = x * 2 ^ k + b.
Proof.
  intros Hk Hb. assert (E : Z.land (Z.shiftl x k) b = 0).
  { apply Z.bits_inj'. intros n Hn. rewrite Z.land_spec, Z.bits_0. destruct (Z.ltb_spec n k).
    - by rewrite Z.shiftl_spec_low.
    - rewrite (proj1 (Z.bounded_iff_bits_nonneg k b Hk ltac:(lia)) ltac:(lia) n) by lia. apply andb_false_r. }
  rewrite <- Z.lxor_lor, <- Z.add_nocarry_lxor by done. by rewrite Z.shiftl_mul_pow2 by lia.
Qed.

Lemma lor_byte x b : 0 <= b < 256 -> Z.lor (Z.shiftl x 8) b = x * 256 + b.
Proof. intros Hb. by apply (lor_low 8). Qed.

(** A type of integers that has the bytes, and every integer that is [v] shifted. *)
Lemma shift_in_next wrap v k j :
  0 <= k -> j = k + 8 -> wrap (Z.shiftr v j * 256) = Z.shiftr v j * 256 -> (forall z, 0 <= z < 256 -> wrap z = z) ->
  shift_in wrap (Z.shiftr v j) (u8 (Z.shiftr v k)) = Z.shiftr v k.
Proof.
  intros Hk -> H1 H2. unfold shift_in. rewrite (Z.shiftl_mul_pow2 _ 8) by lia. change (2 ^ 8) with 256.
  rewrite H1, H2 by apply u8_range. change 256 with (2 ^ 8) at 1. rewrite <- Z.shiftl_mul_pow2 by lia.
  rewrite lor_byte by apply u8_range. rewrite <- Z.shiftr_shiftr by lia. generalize (Z.shiftr v k). intros x.
  rewrite Z.shiftr_div_pow2 by lia. change (2 ^ 8) with 256. glia.
Qed.

Ltac pio_shift :=
  rewrite ?Z.shiftr_div_pow2 by lia;
  repeat match goal with |- context [2 ^ ?k] => let v := eval vm_compute in (2 ^ k) in change (2 ^ k) with v end;
  glia.
Ltac pio_step := rewrite shift_in_next; [|lia|lia|pio_shift|intros; glia].

(** What the functions that write leave in a slice that is long enough. *)
Tactic Notation "pio_write" integer(n) ident(b) :=
  intros Hb; do n (destruct b as [|? b]; [simpl in Hb; lia|]);
  cbn; rewrite ?Z.shiftr_0_r; reflexivity.

Lemma PutI16BE_bytes v b : (2 <= length b)%nat -> PutI16BE v b = (Ok tt, be_enc 2 v ++ drop 2 b).
Proof. pio_write 2 b. Qed.
Lemma PutU16BE_bytes v b : (2 <= length b)%nat -> PutU16BE v b = (Ok tt, be_enc 2 v ++ drop 2 b).
Proof. pio_write 2 b. Qed.
Lemma PutI24BE_bytes v b : (3 <= length b)%nat -> PutI24BE v b = (Ok tt, be_enc 3 v ++ drop 3 b).
Proof. pio_write 3 b. Qed.
Lemma PutU24BE_bytes v b : (3 <= length b)%nat -> PutU24BE v b = (Ok tt, be_enc 3 v ++ drop 3 b).
Proof. pio_write 3 b. Qed.
Lemma PutI32BE_bytes v b : (4 <= length b)%nat -> PutI32BE v b = (Ok tt, be_enc 4 v ++ drop 4 b).
Proof. pio_write 4 b. Qed.
Lemma PutU32BE_bytes v b : (4 <= length b)%nat -> PutU32BE v b = (Ok tt, be_enc 4 v ++ drop 4 b).
Proof. pio_write 4 b. Qed.
Lemma PutU40BE_bytes v b : (5 <= length b)%nat -> PutU40BE v b = (Ok tt, be_enc 5 v ++ drop 5 b).
Proof. pio_write 5 b. Qed.
Lemma PutU48BE_bytes v b : (6 <= length b)%nat -> PutU48BE v b = (Ok tt, be_enc 6 v ++ drop 6 b).
Proof. pio_write 6 b. Qed.
Lemma PutU64BE_bytes v b : (8 <= length b)%nat -> PutU64BE v b = (Ok tt, be_enc 8 v ++ drop 8 b).
Proof. pio_write 8 b. Qed.
Lemma PutI64BE_bytes v b : (8 <= length b)%nat -> PutI64BE v b = (Ok tt, be_enc 8 v ++ drop 8 b).
Proof. pio_write 8 b. Qed.
Lemma PutU32LE_bytes v b : (4 <= length b)%nat -> PutU32LE v b = (Ok tt, le_enc 4 v ++ drop 4 b).
Proof. pio_write 4 b. Qed.

(** What the functions that read make of it: the first byte is the top of the integer,
    and every further one is shifted in. *)
Ltac pio_first i j := assert (Ei : i = j) by pio_shift; rewrite Ei; clear Ei.
Ltac pio_read :=
  intros Hv; cbn -[Z.shiftr Z.pow]; cbv -[Z.shiftr Z.pow u8 u16 u32 u64 i8 i16 i32 i64 shift_in Z.lt Z.le];
  f_equal; f_equal.

Lemma U16BE_bytes v b : 0 <= v < 2 ^ 16 -> U16BE (be_enc 2 v ++ b) = (Ok v, be_enc 2 v ++ b).
Proof. pio_read. pio_first (u16 (u8 (Z.shiftr v 8))) (Z.shiftr v 8). do 1 pio_step. apply Z.shiftr_0_r. Qed.
Lemma I16BE_bytes v b : - 2 ^ 15 <= v < 2 ^ 15 -> I16BE (be_enc 2 v ++ b) = (Ok v, be_enc 2 v ++ b).
Proof.
  pio_read. unfold shift_in.
  assert (E : i16 (Z.shiftl (i16 (u8 (Z.shiftr v 8))) 8) = Z.shiftl (Z.shiftr v 8) 8).
  { rewrite !Z.shiftl_mul_pow2 by lia. pio_shift. }
  assert (E' : i16 (u8 (Z.shiftr v 0)) = u8 v) by (rewrite Z.shiftr_0_r; glia).
  rewrite E, E', lor_byte by apply u8_range. pio_shift.
Qed.
Lemma I24BE_bytes v b : - 2 ^ 23 <= v < 2 ^ 23 -> I24BE (be_enc 3 v ++ b) = (Ok v, be_enc 3 v ++ b).
Proof. pio_read. pio_first (i32 (i8 (u8 (Z.shiftr v 16)))) (Z.shiftr v 16). do 2 pio_step. apply Z.shiftr_0_r. Qed.
Lemma U24BE_bytes v b : 0 <= v < 2 ^ 24 -> U24BE (be_enc 3 v ++ b) = (Ok v, be_enc 3 v ++ b).
Proof. pio_read. pio_first (u32 (u8 (Z.shiftr v 16))) (Z.shiftr v 16). do 2 pio_step. apply Z.shiftr_0_r. Qed.
Lemma I32BE_bytes v b : - 2 ^ 31 <= v < 2 ^ 31 -> I32BE (be_enc 4 v ++ b) = (Ok v, be_enc 4 v ++ b).
Proof. pio_read. pio_first (i32 (i8 (u8 (Z.shiftr v 24)))) (Z.shiftr v 24). do 3 pio_step. apply Z.shiftr_0_r. Qed.
Lemma U32BE_bytes v b : 0 <= v < 2 ^ 32 -> U32BE (be_enc 4 v ++ b) = (Ok v, be_enc 4 v ++ b).
Proof. pio_read. pio_first (u32 (u8 (Z.shiftr v 24))) (Z.shiftr v 24). do 3 pio_step. apply Z.shiftr_0_r. Qed.
Lemma U40BE_bytes v b : 0 <= v < 2 ^ 40 -> U40BE (be_enc 5 v ++ b) = (Ok v, be_enc 5 v ++ b).
Proof. pio_read. pio_first (u64 (u8 (Z.shiftr v 32))) (Z.shiftr v 32). do 4 pio_step. apply Z.shiftr_0_r. Qed.
Lemma U64BE_bytes v b : 0 <= v < 2 ^ 64 -> U64BE (be_enc 8 v ++ b) = (Ok v, be_enc 8 v ++ b).
Proof. pio_read. pio_first (u64 (u8 (Z.shiftr v 56))) (Z.shiftr v 56). do 7 pio_step. apply Z.shiftr_0_r. Qed.
Lemma I64BE_bytes v b : - 2 ^ 63 <= v < 2 ^ 63 -> I64BE (be_enc 8 v ++ b) = (Ok v, be_enc 8 v ++ b).
Proof. pio_read. pio_first (i64 (i8 (u8 (Z.shiftr v 56)))) (Z.shiftr v 56). do 7 pio_step. apply Z.shiftr_0_r. Qed.
Lemma U32LE_bytes v b : 0 <= v < 2 ^ 32 -> U32LE (le_enc 4 v ++ b) = (Ok v, le_enc 4 v ++ b).
Proof. pio_read. pio_first (u32 (u8 (Z.shiftr v 24))) (Z.shiftr v 24). do 3 pio_step. apply Z.shiftr_0_r. Qed.

(** ** Slices *)

(** [data[start:end]] *)
Definition slice_of (data : list Z) (start end_ : Z) : outcome (list Z) :=
  if (start <=? end_) && (end_ <=? zlen data)
  then Ok (take (Z.to_nat (end_ - start)) (drop (Z.to_nat start) data))
  else Panic "slice bounds out of range".

(** The bytes of [data] from [index] on replaced by [bs]. *)
Definition copy_at (data : list Z) (index : Z) (bs : list Z) : list Z :=
  take (Z.to_nat index) data ++ bs ++ drop (Z.to_nat index + length bs) data.

(** [copy(p[i:], bs)] *)
Definition copy_to (p : list Z) (i : Z) (bs : list Z) : list Z := copy_at p i (take (length p - Z.to_nat i) bs).

Lemma slice_of_run p a b : 0 <= a <= b -> b <= zlen p -> slice_of p a b = Ok (take (Z.to_nat (b - a)) (drop (Z.to_nat a) p)).
Proof. intros Ha Hb. unfold slice_of. by rewrite (proj2 (Z.leb_le _ _)), (proj2 (Z.leb_le _ _)) by lia. Qed.

Lemma copy_to_run p i bs :
  0 <= i -> i + zlen bs <= zlen p ->
  copy_to p i bs = take (Z.to_nat i) p ++ bs ++ drop (Z.to_nat i + length bs) p.
Proof. intros Hi Hl. unfold copy_to, copy_at, zlen in *. by rewrite (take_ge bs) by lia. Qed.

Lemma copy_to_length p i bs : 0 <= i -> i + zlen bs <= zlen p -> length (copy_to p i bs) = length p.
Proof. intros Hi Hl. rewrite copy_to_run by done. unfold zlen in *. rewrite !length_app, length_take, length_drop. lia. Qed.
