(* ===== verification/Chunk.v ===== *)
(** * liveproxy/protocol/rtmp/core: messages in chunks

    chunk_stream.go, conn.go and read_writer.go, with utils/pool/pool.go.  A message is
    cut into chunks, and chunks of several messages can be interleaved on a connection.

    A [ReadWriter] has the bytes that the peer sent and that were not read yet, the error
    that the connection gives behind them, and the bytes written.  A full buffer of a
    [bufio.Writer] is sent without a flush; here it is sent with the next one, which for
    the peer is a slower network.  The capacity of a slice is its length. *)

From stdpp Require Import gmap.
From S2P Require Import Prelude ByteOrder Pio.

(** ** utils/pool: slices of large buffers *)

(** A slice [pool.buf[from:to]] of the buffer that was made as number [sl_buf]. *)
Record pool_slice := mkSlice { sl_buf : nat; sl_from : Z; sl_to : Z }.

Record Pool := mkPool { pool_pos : Z; pool_buf : nat }.

Definition maxpoolsize : Z := 500 * 1024.
Definition NewPool : Pool := mkPool 0 0.

Definition Get (size : Z) : GoM Pool pool_slice :=
  pool ← getS;
  let pool := if maxpoolsize - pool_pos pool <? size then mkPool 0 (S (pool_buf pool)) else pool in
  putS pool;;
  if maxpoolsize <? pool_pos pool + size then panic "slice bounds out of range"
  else
    putS (mkPool (pool_pos pool + size) (pool_buf pool));;
    mret (mkSlice (pool_buf pool) (pool_pos pool) (pool_pos pool + size)).

(** ** read_writer.go *)

Record ReadWriter := mkReadWriter {
  rw_in : list Z;
  rw_inError : error;
  rw_readError : option error;
  rw_buffered : list Z;
  rw_sent : list Z;
  rw_outError : option error;
  rw_writeError : option error
}.

#[global] Instance eta_ReadWriter : Eta ReadWriter := fun r =>
  mkReadWriter (rw_in r) (rw_inError r) (rw_readError r) (rw_buffered r) (rw_sent r) (rw_outError r) (rw_writeError r).

Definition NewReadWriter (input : list Z) (inError : error) : ReadWriter :=
  mkReadWriter input inError None [] [] None None.

(** [rw.ReadByte()] of the [bufio.Reader]. *)
Definition bufio_ReadByte : GoM ReadWriter Z :=
  rw ← getS;
  match rw_in rw with
  | [] => fail (rw_inError rw)
  | b :: input => putS (rw <| rw_in := input |>);; mret b
  end.

(** [io.ReadAtLeast(rw.ReadWriter, p, len(p))] for a slice of [n] bytes. *)
Definition ReadAtLeast (n : Z) : GoM ReadWriter (list Z) :=
  rw ← getS;
  if n <=? zlen (rw_in rw) then
    putS (rw <| rw_in := drop (Z.to_nat n) (rw_in rw) |>);;
    mret (take (Z.to_nat n) (rw_in rw))
  else
    putS (rw <| rw_in := [] |>);;
    fail (if decide (rw_inError rw = io_EOF /\ rw_in rw <> []) then io_ErrUnexpectedEOF else rw_inError rw).

(** [rw.Peek(n)], with a buffer of at least [n] bytes, and [rw.Discard(n)]. *)
Definition Peek (n : Z) : GoM ReadWriter (list Z) :=
  rw ← getS;
  if n <=? zlen (rw_in rw) then mret (take (Z.to_nat n) (rw_in rw)) else fail (rw_inError rw).
Definition Discard (n : Z) : GoM ReadWriter unit :=
  modifyS (fun rw => rw <| rw_in := drop (Z.to_nat n) (rw_in rw) |>).

Definition check_readError : GoM ReadWriter unit :=
  rw ← getS; match rw_readError rw with Some e => fail e | None => mret tt end.

(** An error of [m] is remembered. *)
Definition keep_readError {A} (m : GoM ReadWriter A) : GoM ReadWriter A := fun rw =>
  match m rw with
  | (Err e, rw) => (Err e, rw <| rw_readError := Some e |>)
  | r => r
  end.

Definition rw_Read (n : Z) : GoM ReadWriter (list Z) :=
  check_readError;; keep_readError (ReadAtLeast n).

Fixpoint ReadUintBE_loop (n : nat) (ret : Z) : GoM ReadWriter Z :=
  match n with
  | O => mret ret
  | S n => b ← keep_readError bufio_ReadByte; ReadUintBE_loop n (u32 (u32 (Z.shiftl ret 8) + b))
  end.
Definition ReadUintBE (n : nat) : GoM ReadWriter Z := check_readError;; ReadUintBE_loop n 0.

(** [i] counts the bytes read. *)
Fixpoint ReadUintLE_loop (n : nat) (i ret : Z) : GoM ReadWriter Z :=
  match n with
  | O => mret ret
  | S n => b ← keep_readError bufio_ReadByte; ReadUintLE_loop n (i + 1) (u32 (ret + u32 (Z.shiftl b (i * 8))))
  end.
Definition ReadUintLE (n : nat) : GoM ReadWriter Z := check_readError;; ReadUintLE_loop n 0 0.

Definition check_writeError : GoM ReadWriter unit :=
  rw ← getS; match rw_writeError rw with Some e => fail e | None => mret tt end.

(** The [bufio.Writer] gives the error of the connection, once it has one. *)
Definition bufio_Write (bs : list Z) : GoM ReadWriter unit :=
  rw ← getS;
  match rw_outError rw with
  | Some e => fail e
  | None => putS (rw <| rw_buffered := rw_buffered rw ++ bs |>)
  end.

Definition rw_Flush : GoM ReadWriter unit :=
  check_writeError;;
  rw ← getS;
  if zlen (rw_buffered rw) =? 0 then mret tt
  else match rw_outError rw with
       | Some e => fail e
       | None => putS (rw <| rw_sent := rw_sent rw ++ rw_buffered rw |> <| rw_buffered := [] |>)
       end.

Definition rw_Write (p : list Z) : GoM ReadWriter unit := check_writeError;; bufio_Write p.

Definition keep_writeError {A} (m : GoM ReadWriter A) : GoM ReadWriter A := fun rw =>
  match m rw with
  | (Err e, rw) => (Err e, rw <| rw_writeError := Some e |>)
  | r => r
  end.

(** The bytes that are left to write: [n-i] of the source. *)
Fixpoint WriteUintBE_loop (n : nat) (v : Z) : GoM ReadWriter unit :=
  match n with
  | O => mret tt
  | S n =>
      let b := Z.land (u8 (Z.shiftr v (Z.shiftl (Z.of_nat n) 3))) 0xff in
      keep_writeError (bufio_Write [b]);; WriteUintBE_loop n v
  end.
Definition WriteUintBE (v : Z) (n : nat) : GoM ReadWriter unit := check_writeError;; WriteUintBE_loop n v.

Fixpoint WriteUintLE_loop (n : nat) (v : Z) : GoM ReadWriter unit :=
  match n with
  | O => mret tt
  | S n => keep_writeError (bufio_Write [Z.land (u8 v) 0xff]);; WriteUintLE_loop n (Z.shiftr v 8)
  end.
Definition WriteUintLE (v : Z) (n : nat) : GoM ReadWriter unit := check_writeError;; WriteUintLE_loop n v.

(** [x, _ := ...] of a function that gives zero with an error, and a call whose error is
    not looked at. *)
Definition or_zero {S} (m : GoM S Z) : GoM S Z := fun s =>
  match m s with (Err _, s) => (Ok 0, s) | r => r end.
Definition ignore_error {S} (m : GoM S unit) : GoM S unit := fun s =>
  match m s with (Err _, s) => (Ok tt, s) | r => r end.

(** ** chunk_stream.go *)

Definition TAG_AUDIO : Z := 8.
Definition TAG_VIDEO : Z := 9.
Definition TAG_SCRIPTDATAAMF0 : Z := 18.
Definition TAG_SCRIPTDATAAMF3 : Z := 0xf.

Record ChunkStream := mkChunkStream {
  cs_Format : Z;
  cs_CSID : Z;
  cs_Timestamp : Z;
  cs_Length : Z;
  cs_TypeID : Z;
  cs_StreamID : Z;
  cs_timeDelta : Z;
  cs_exted : bool;
  cs_index : Z;
  cs_remain : Z;
  cs_got : bool;
  cs_tmpFromat : Z;
  cs_Data : list Z
}.

#[global] Instance eta_ChunkStream : Eta ChunkStream := fun c =>
  mkChunkStream (cs_Format c) (cs_CSID c) (cs_Timestamp c) (cs_Length c) (cs_TypeID c) (cs_StreamID c)
    (cs_timeDelta c) (cs_exted c) (cs_index c) (cs_remain c) (cs_got c) (cs_tmpFromat c) (cs_Data c).

Definition zeroChunkStream : ChunkStream := mkChunkStream 0 0 0 0 0 0 0 false 0 0 false 0 [].

(** The receiver and the arguments of a method of [ChunkStream]. *)
Record ChunkIO := mkChunkIO { io_stream : ChunkStream; io_rw : ReadWriter; io_pool : Pool }.

#[global] Instance eta_ChunkIO : Eta ChunkIO := fun s => mkChunkIO (io_stream s) (io_rw s) (io_pool s).

Definition on_rw {A} (m : GoM ReadWriter A) : GoM ChunkIO A := fun s =>
  let '(r, rw) := m (io_rw s) in (r, s <| io_rw := rw |>).
Definition on_pool {A} (m : GoM Pool A) : GoM ChunkIO A := fun s =>
  let '(r, pool) := m (io_pool s) in (r, s <| io_pool := pool |>).
Definition get_stream : GoM ChunkIO ChunkStream := fun s => (Ok (io_stream s), s).
Definition set_stream (f : ChunkStream -> ChunkStream) : GoM ChunkIO unit :=
  modifyS (fun s => s <| io_stream := f (io_stream s) |>).

Definition full (c : ChunkStream) : bool := cs_got c.

(** A slice of the pool has not been written before: it has zeros, and nothing else
    writes to it (lemma [gets_disjoint]). *)
Definition cs_new : GoM ChunkIO unit :=
  set_stream (fun c => c <| cs_got := false |> <| cs_index := 0 |> <| cs_remain := cs_Length c |>);;
  c ← get_stream;
  data ← on_pool (Get (cs_Length c));
  set_stream (fun c => c <| cs_Data := replicate (Z.to_nat (sl_to data - sl_from data)) 0 |>).

(** [w.WriteUintBE(v, n)] and [w.WriteUintLE(v, n)] as statements. *)
Definition put_be (v : Z) (n : nat) : GoM ChunkIO unit := ignore_error (on_rw (WriteUintBE v n)).
Definition put_le (v : Z) (n : nat) : GoM ChunkIO unit := ignore_error (on_rw (WriteUintLE v n)).

Definition write_basic_header (c : ChunkStream) : GoM ChunkIO unit :=
  let h := u32 (Z.shiftl (cs_Format c) 6) in
  if cs_CSID c <? 64 then put_be (Z.lor h (cs_CSID c)) 1
  else if u32 (cs_CSID c - 64) <? 256 then put_be (Z.lor h 0) 1;; put_le (u32 (cs_CSID c - 64)) 1
  else if u32 (cs_CSID c - 64) <? 65536 then put_be (Z.lor h 1) 1;; put_le (u32 (cs_CSID c - 64)) 2
  else mret tt.

(** The fields up to the label [END], where each format leaves. *)
Definition write_message_header (c : ChunkStream) (ts : Z) : GoM ChunkIO unit :=
  put_be ts 3;;
  if cs_Format c =? 2 then mret tt
  else if 0xffffff <? cs_Length c then fail (fmt_Errorf "length=%d" [cs_Length c])
  else
    put_be (cs_Length c) 3;;
    put_be (cs_TypeID c) 1;;
    if cs_Format c =? 1 then mret tt else put_le (cs_StreamID c) 4.

Definition writeHeader : GoM ChunkIO unit :=
  c ← get_stream;
  write_basic_header c;;
  let ts := if negb (cs_Format c =? 3) && (0xffffff <? cs_Timestamp c) then 0xffffff else cs_Timestamp c in
  (if cs_Format c =? 3 then mret tt else write_message_header c ts);;
  (if 0xffffff <=? ts then put_be (cs_Timestamp c) 4 else mret tt);;
  on_rw check_writeError.

(** The rounds that are left: [numChunks - i + 1] of the source. *)
Fixpoint write_chunks (rounds : nat) (chunkSize i totalLen : Z) : GoM ChunkIO unit :=
  match rounds with
  | O => mret tt
  | S rounds =>
      c ← get_stream;
      if totalLen =? cs_Length c then mret tt
      else
        set_stream (fun c => c <| cs_Format := if i =? 0 then 0 else 3 |>);;
        writeHeader;;
        let inc := u32 chunkSize in
        let start := u32 (i * u32 chunkSize) in
        let inc := if u32 (u32 (zlen (cs_Data c)) - start) <=? inc then u32 (u32 (zlen (cs_Data c)) - start) else inc in
        buf ← lift (slice_of (cs_Data c) start (u32 (start + inc)));
        on_rw (rw_Write buf);;
        write_chunks rounds chunkSize (i + 1) (u32 (totalLen + inc))
  end.

Definition writeChunk (chunkSize : Z) : GoM ChunkIO unit :=
  c ← get_stream;
  (if cs_TypeID c =? TAG_AUDIO then set_stream (fun c => c <| cs_CSID := 4 |>)
   else if (cs_TypeID c =? TAG_VIDEO) || (cs_TypeID c =? TAG_SCRIPTDATAAMF0) || (cs_TypeID c =? TAG_SCRIPTDATAAMF3)
   then set_stream (fun c => c <| cs_CSID := 6 |>) else mret tt);;
  if u32 chunkSize =? 0 then panic "integer divide by zero"
  else
    let numChunks := cs_Length c / u32 chunkSize in
    write_chunks (S (Z.to_nat numChunks)) chunkSize 0 0.

(** [r.ReadUintBE(n)] and [r.ReadUintLE(n)] without their errors. *)
Definition get_be (n : nat) : GoM ChunkIO Z := or_zero (on_rw (ReadUintBE n)).
Definition get_le (n : nat) : GoM ChunkIO Z := or_zero (on_rw (ReadUintLE n)).

(** A timestamp or a difference of three bytes; 0xffffff says that one of four follows. *)
Definition read_extended (timeStamp : Z) : GoM ChunkIO Z :=
  if timeStamp =? 0xffffff
  then ts ← get_be 4; set_stream (fun c => c <| cs_exted := true |>);; mret ts
  else set_stream (fun c => c <| cs_exted := false |>);; mret timeStamp.

Definition read_csid : GoM ChunkIO unit :=
  c ← get_stream;
  if cs_CSID c =? 0 then id ← get_le 1; set_stream (fun c => c <| cs_CSID := u32 (id + 64) |>)
  else if cs_CSID c =? 1 then id ← get_le 2; set_stream (fun c => c <| cs_CSID := u32 (id + 64) |>)
  else mret tt.

Definition add_timestamp (d : Z) : GoM ChunkIO unit :=
  set_stream (fun c => c <| cs_Timestamp := u32 (cs_Timestamp c + d) |>).

Definition read_format0 : GoM ChunkIO unit :=
  set_stream (fun c => c <| cs_Format := cs_tmpFromat c |>);;
  ts ← get_be 3; set_stream (fun c => c <| cs_Timestamp := ts |>);;
  length ← get_be 3; set_stream (fun c => c <| cs_Length := length |>);;
  type ← get_be 1; set_stream (fun c => c <| cs_TypeID := type |>);;
  stream ← get_le 4; set_stream (fun c => c <| cs_StreamID := stream |>);;
  ts ← read_extended ts; set_stream (fun c => c <| cs_Timestamp := ts |>);;
  cs_new.

Definition read_format1 : GoM ChunkIO unit :=
  set_stream (fun c => c <| cs_Format := cs_tmpFromat c |>);;
  timeStamp ← get_be 3;
  length ← get_be 3; set_stream (fun c => c <| cs_Length := length |>);;
  type ← get_be 1; set_stream (fun c => c <| cs_TypeID := type |>);;
  timeStamp ← read_extended timeStamp;
  set_stream (fun c => c <| cs_timeDelta := timeStamp |>);;
  add_timestamp timeStamp;;
  cs_new.

Definition read_format2 : GoM ChunkIO unit :=
  set_stream (fun c => c <| cs_Format := cs_tmpFromat c |>);;
  timeStamp ← get_be 3;
  timeStamp ← read_extended timeStamp;
  set_stream (fun c => c <| cs_timeDelta := timeStamp |>);;
  add_timestamp timeStamp;;
  cs_new.

(** [binary.BigEndian.Uint32(b)] *)
Definition BigEndian_Uint32 (b : list Z) : outcome Z :=
  match b with
  | b0 :: b1 :: b2 :: b3 :: _ =>
      Ok (Z.lor (Z.lor (Z.lor b3 (u32 (Z.shiftl b2 8))) (u32 (Z.shiftl b1 16))) (u32 (Z.shiftl b0 24)))
  | _ => Panic "index out of range"
  end.

Definition read_format3 : GoM ChunkIO unit :=
  c ← get_stream;
  if cs_remain c =? 0 then
    (if cs_Format c =? 0 then
       if cs_exted c then ts ← get_be 4; set_stream (fun c => c <| cs_Timestamp := ts |>) else mret tt
     else if (cs_Format c =? 1) || (cs_Format c =? 2) then
       timedet ← (if cs_exted c then get_be 4 else mret (cs_timeDelta c));
       add_timestamp timedet
     else mret tt);;
    cs_new
  else if cs_exted c then
    b ← on_rw (Peek 4);
    tmpts ← lift (BigEndian_Uint32 b);
    if tmpts =? cs_Timestamp c then on_rw (Discard 4) else mret tt
  else mret tt.

Definition read_payload (chunkSize : Z) : GoM ChunkIO unit :=
  c ← get_stream;
  let size := if chunkSize <? cs_remain c then chunkSize else cs_remain c in
  lift (slice_of (cs_Data c) (cs_index c) (u32 (cs_index c + size)));;
  bs ← on_rw (rw_Read size);
  set_stream (fun c => c <| cs_Data := copy_at (cs_Data c) (cs_index c) bs |>
                         <| cs_index := u32 (cs_index c + size) |> <| cs_remain := u32 (cs_remain c - size) |>);;
  c ← get_stream;
  (if cs_remain c =? 0 then set_stream (fun c => c <| cs_got := true |>) else mret tt);;
  on_rw check_readError.

Definition readChunk (chunkSize : Z) : GoM ChunkIO unit :=
  c ← get_stream;
  if negb (cs_remain c =? 0) && negb (cs_tmpFromat c =? 3) then fail (fmt_Errorf "invalid remain = %d" [cs_remain c])
  else
    read_csid;;
    (if cs_tmpFromat c =? 0 then read_format0
     else if cs_tmpFromat c =? 1 then read_format1
     else if cs_tmpFromat c =? 2 then read_format2
     else if cs_tmpFromat c =? 3 then read_format3
     else fail (fmt_Errorf "invalid format=%d" [cs_Format c]));;
    read_payload chunkSize.

(** ** conn.go *)

Definition idSetChunkSize : Z := 1.
Definition idAbortMessage : Z := 2.
Definition idAck : Z := 3.
Definition idUserControlMessages : Z := 4.
Definition idWindowAckSize : Z := 5.
Definition idSetPeerBandwidth : Z := 6.

Record Conn := mkConn {
  con_chunkSize : Z;
  con_remoteChunkSize : Z;
  con_windowAckSize : Z;
  con_remoteWindowAckSize : Z;
  con_received : Z;
  con_ackReceived : Z;
  con_rw : ReadWriter;
  con_pool : Pool;
  con_chunks : gmap Z ChunkStream
}.

#[global] Instance eta_Conn : Eta Conn := fun c =>
  mkConn (con_chunkSize c) (con_remoteChunkSize c) (con_windowAckSize c) (con_remoteWindowAckSize c)
    (con_received c) (con_ackReceived c) (con_rw c) (con_pool c) (con_chunks c).

Definition NewConn (rw : ReadWriter) : Conn := mkConn 128 128 2500000 2500000 0 0 rw NewPool ∅.

(** A method of [cs] that is given the reader, the writer and the pool of the connection:
    its result and [cs] after it. *)
Definition on_stream {A} (cs : ChunkStream) (m : GoM ChunkIO A) : GoM Conn (A * ChunkStream) := fun conn =>
  let '(r, s) := m (mkChunkIO cs (con_rw conn) (con_pool conn)) in
  let conn := conn <| con_rw := io_rw s |> <| con_pool := io_pool s |> in
  match r with
  | Ok a => (Ok (a, io_stream s), conn)
  | Err e => (Err e, conn)
  | Panic p => (Panic p, conn)
  end.

Definition on_conn_rw {A} (m : GoM ReadWriter A) : GoM Conn A := fun conn =>
  let '(r, rw) := m (con_rw conn) in (r, conn <| con_rw := rw |>).

Definition initControlMsg (id size value : Z) : outcome ChunkStream :=
  match PutU32BE value (replicate (Z.to_nat size) 0) with
  | (Ok _, data) =>
      Ok (zeroChunkStream <| cs_Format := 0 |> <| cs_CSID := 2 |> <| cs_TypeID := id |> <| cs_StreamID := 0 |>
            <| cs_Length := size |> <| cs_Data := data |>)
  | (Err e, _) => Err e
  | (Panic p, _) => Panic p
  end.

Definition NewAck (size : Z) : outcome ChunkStream := initControlMsg idAck 4 size.
Definition NewSetChunkSize (size : Z) : outcome ChunkStream := initControlMsg idSetChunkSize 4 size.
Definition NewWindowAckSize (size : Z) : outcome ChunkStream := initControlMsg idWindowAckSize 4 size.
Definition NewSetPeerBandwidth (size : Z) : outcome ChunkStream :=
  match initControlMsg idSetPeerBandwidth 5 size with
  | Ok ret => Ok (ret <| cs_Data := <[4%nat := 2]> (cs_Data ret) |>)
  | r => r
  end.

Definition handleControlMsg (c : ChunkStream) : GoM Conn unit :=
  if cs_TypeID c =? idSetChunkSize then
    size ← lift (BigEndian_Uint32 (cs_Data c)); modifyS (fun conn => conn <| con_remoteChunkSize := size |>)
  else if cs_TypeID c =? idWindowAckSize then
    size ← lift (BigEndian_Uint32 (cs_Data c)); modifyS (fun conn => conn <| con_remoteWindowAckSize := size |>)
  else mret tt.

Definition ack (size : Z) : GoM Conn unit :=
  modifyS (fun conn => conn <| con_received := u32 (con_received conn + size) |>
                            <| con_ackReceived := u32 (con_ackReceived conn + size) |>);;
  modifyS (fun conn => if 0xf0000000 <=? con_received conn then conn <| con_received := 0 |> else conn);;
  conn ← getS;
  if con_remoteWindowAckSize conn <=? con_ackReceived conn then
    cs ← lift (NewAck (con_ackReceived conn));
    ignore_error (on_stream cs (writeChunk (con_chunkSize conn));; mret tt);;
    modifyS (fun conn => conn <| con_ackReceived := 0 |>)
  else mret tt.

(** The loop of [Read], which ends with a message that is complete. *)
Fixpoint read_message (fuel : nat) : GoM Conn ChunkStream :=
  match fuel with
  | O => panic "Read: out of fuel"
  | S fuel =>
      h ← or_zero (on_conn_rw (ReadUintBE 1));
      let format := Z.shiftr h 6 in
      let csid := Z.land h 0x3f in
      conn ← getS;
      cs ← (match con_chunks conn !! csid with
            | Some cs => mret cs
            | None => putS (conn <| con_chunks := <[csid := zeroChunkStream]> (con_chunks conn) |>);; mret zeroChunkStream
            end);
      '(_, cs) ← on_stream (cs <| cs_tmpFromat := format |> <| cs_CSID := csid |>) (readChunk (con_remoteChunkSize conn));
      modifyS (fun conn => conn <| con_chunks := <[csid := cs]> (con_chunks conn) |>);;
      if full cs then mret cs else read_message fuel
  end.

Definition Conn_Read : GoM Conn ChunkStream :=
  conn ← getS;
  c ← read_message (S (length (rw_in (con_rw conn))));
  handleControlMsg c;;
  ack (cs_Length c);;
  mret c.

(** The message is changed by [writeChunk] and given back. *)
Definition Conn_Write (c : ChunkStream) : GoM Conn ChunkStream :=
  (if cs_TypeID c =? idSetChunkSize then
     size ← lift (BigEndian_Uint32 (cs_Data c)); modifyS (fun conn => conn <| con_chunkSize := size |>)
   else mret tt);;
  conn ← getS;
  '(_, c) ← on_stream c (writeChunk (con_chunkSize conn));
  mret c.

Definition Conn_Flush : GoM Conn unit := on_conn_rw rw_Flush.

Definition streamBegin : Z := 0.
Definition streamEOF : Z := 1.
Definition streamDry : Z := 2.
Definition setBufferLen : Z := 3.
Definition streamIsRecorded : Z := 4.
Definition pingRequest : Z := 6.
Definition pingResponse : Z := 7.

Definition userControlMsg (eventType buflen : Z) : outcome ChunkStream :=
  let buflen := u32 (buflen + 2) in
  match (store 0 (u8 (Z.land (Z.shiftr eventType 8) 0xff));; store 1 (u8 (Z.land eventType 0xff)))
          (replicate (Z.to_nat buflen) 0) with
  | (Ok _, data) =>
      Ok (zeroChunkStream <| cs_Format := 0 |> <| cs_CSID := 2 |> <| cs_TypeID := 4 |> <| cs_StreamID := 1 |>
            <| cs_Length := buflen |> <| cs_Data := data |>)
  | (Err e, _) => Err e
  | (Panic p, _) => Panic p
  end.

(** [byte(1 >> uint32((3-i)*8) & 0xff)] for [i] from 0 to 3. *)
Definition event_stream : list Z := map (fun i => u8 (Z.land (Z.shiftr 1 ((3 - i) * 8)) 0xff)) [0; 1; 2; 3].
Definition send_event (eventType : Z) : GoM Conn unit :=
  ret ← lift (userControlMsg eventType 4);
  ignore_error (Conn_Write (ret <| cs_Data := copy_at (cs_Data ret) 2 event_stream |>);; mret tt).

Definition SetBegin : GoM Conn unit := send_event streamBegin.
Definition SetRecorded : GoM Conn unit := send_event streamIsRecorded.

(** ** Slices of the pool *)

(** The pool will not give bytes of [a] again. *)
Definition given (a : pool_slice) (p : Pool) : Prop :=
  (sl_buf a < pool_buf p)%nat \/ sl_buf a = pool_buf p /\ sl_to a <= pool_pos p.

Lemma Get_given a size p b p' :
  0 <= size -> given a p -> Get size p = (Ok b, p') ->
  given a p' /\ given b p' /\ sl_to b = sl_from b + size /\ (sl_buf a <> sl_buf b \/ sl_to a <= sl_from b).
Proof.
  intros Hs Ha. unfold Get. run. case_match; simpl; case_match; intros E; simplify_eq;
    unfold given in *; simpl in *; split_and!; try done; try lia; destruct Ha as [?|[? ?]]; lia.
Qed.

(** The slices of any number of calls are disjoint: a message that was read keeps its
    bytes. *)
Lemma gets_disjoint a sizes p p' bs :
  Forall (fun n => 0 <= n) sizes -> given a p -> mapM Get sizes p = (Ok bs, p') ->
  Forall (fun b => sl_buf a <> sl_buf b \/ sl_to a <= sl_from b) bs.
Proof.
  intros Hs. revert p bs. induction Hs as [|n sizes Hn Hs IH]; intros p bs Ha; simpl.
  { run. intros E. by simplify_eq. }
  unfold mbind, GoM_bind. destruct (Get n p) as [[b|e|q] p1] eqn:E1; try done.
  destruct (mapM Get sizes p1) as [[bs'|e|q] p2] eqn:E2; try done. run. intros E. simplify_eq.
  destruct (Get_given _ _ _ _ _ Hn Ha E1) as (Ha1 & _ & _ & Hd). constructor; eauto.
Qed.
