(* ===== verification/ChunkDelivery.v ===== *)
(** * Messages sent in chunks arrive

    The layout of the chunks of a message, that [Conn_Write] writes it and that
    [Conn_Read] reads it back; that reading ends for all bytes. *)

From stdpp Require Import gmap.
From S2P Require Import Prelude ByteOrder Pio Chunk.

(** ** Integers *)

Lemma land_u8_ff x : Z.land (u8 x) 0xff = u8 x.
Proof. change 0xff with (Z.ones 8). rewrite Z.land_ones by lia. pose proof (u8_range x). by apply Z.mod_small. Qed.

Definition quiet (rw : ReadWriter) : Prop := rw_writeError rw = None /\ rw_outError rw = None.

(** [s] with [bs] written, and with [bs] taken from its input. *)
Definition push (bs : list Z) (s : ChunkIO) : ChunkIO :=
  s <| io_rw := (io_rw s) <| rw_buffered := rw_buffered (io_rw s) ++ bs |> |>.
Definition input (bs : list Z) (s : ChunkIO) : ChunkIO := s <| io_rw := (io_rw s) <| rw_in := bs |> |>.

Lemma push_push bs bs' s : push bs' (push bs s) = push (bs ++ bs') s.
Proof. unfold push, assign; simpl. by rewrite app_assoc. Qed.

Lemma push_nil s : push [] s = s.
Proof. destruct s as [c [] p]. unfold push, assign; simpl. by rewrite app_nil_r. Qed.

Lemma write_be_loop n v rw :
  quiet rw -> WriteUintBE_loop n v rw = (Ok tt, rw <| rw_buffered := rw_buffered rw ++ be_enc n v |>).
Proof.
  revert rw. induction n as [|n IH]; intros rw [H1 H2]; simpl.
  { destruct rw; run; unfold assign; simpl. by rewrite app_nil_r. }
  unfold mbind, GoM_bind, keep_writeError, bufio_Write. run. rewrite H2. cbn. rewrite IH by done.
  rewrite land_u8_ff, Z.shiftl_mul_pow2 by lia. change (2 ^ 3) with 8. rewrite Z.mul_comm.
  unfold assign; simpl. by rewrite <- app_assoc.
Qed.

Lemma le_enc_from_shift k n v : le_enc_from (S k) n v = le_enc_from k n (Z.shiftr v 8).
Proof.
  revert k. induction n as [|n IH]; intros k; simpl; [done|].
  rewrite IH, Z.shiftr_shiftr by lia. do 3 f_equal. lia.
Qed.

Lemma write_le_loop n v rw :
  quiet rw -> WriteUintLE_loop n v rw = (Ok tt, rw <| rw_buffered := rw_buffered rw ++ le_enc n v |>).
Proof.
  revert v rw. induction n as [|n IH]; intros v rw [H1 H2]; simpl.
  { destruct rw; run; unfold assign; simpl. by rewrite app_nil_r. }
  unfold mbind, GoM_bind, keep_writeError, bufio_Write. run. rewrite H2. cbn. rewrite IH by done.
  rewrite land_u8_ff. unfold le_enc. cbn [le_enc_from]. rewrite le_enc_from_shift, Z.shiftr_0_r.
  unfold assign; simpl. by rewrite <- app_assoc.
Qed.

Lemma put_be_run v n s : quiet (io_rw s) -> put_be v n s = (Ok tt, push (be_enc n v) s).
Proof.
  intros H. unfold put_be, ignore_error, on_rw, WriteUintBE, check_writeError. run.
  destruct H as [H1 H2]. rewrite H1. cbn. by rewrite write_be_loop.
Qed.

Lemma put_le_run v n s : quiet (io_rw s) -> put_le v n s = (Ok tt, push (le_enc n v) s).
Proof.
  intros H. unfold put_le, ignore_error, on_rw, WriteUintLE, check_writeError. run.
  destruct H as [H1 H2]. rewrite H1. cbn. by rewrite write_le_loop.
Qed.

Lemma byte_in v k :
  0 <= v < 2 ^ 32 -> 0 <= k -> u32 (u32 (Z.shiftl (Z.shiftr v (8 + k)) 8) + u8 (Z.shiftr v k)) = Z.shiftr v k.
Proof.
  intros Hv Hk. rewrite (Z.add_comm 8 k), <- Z.shiftr_shiftr, Z.shiftl_mul_pow2 by lia.
  assert (0 <= Z.shiftr v k < 2 ^ 32).
  { rewrite Z.shiftr_div_pow2 by lia. split; [apply Z.div_pos; lia|]. apply Z.div_lt_upper_bound; [lia|nia]. }
  revert H. generalize (Z.shiftr v k). intros x Hx. rewrite Z.shiftr_div_pow2 by lia. change (2 ^ 8) with 256.
  change (2 ^ 32) with 4294967296 in *. glia.
Qed.

Lemma read_be_loop n v rest rw :
  rw_in rw = be_enc n v ++ rest -> 0 <= v < 2 ^ 32 ->
  ReadUintBE_loop n (Z.shiftr v (8 * Z.of_nat n)) rw = (Ok v, rw <| rw_in := rest |>).
Proof.
  intros Hin Hv. revert rw Hin. induction n as [|n IH]; intros rw Hin; cbn [ReadUintBE_loop be_enc app] in *.
  { destruct rw; simpl in *; subst. by rewrite Z.shiftr_0_r. }
  unfold mbind, GoM_bind, keep_readError, bufio_ReadByte. run. rewrite Hin. cbn.
  replace (8 * Z.of_nat (S n)) with (8 + 8 * Z.of_nat n) by lia. rewrite byte_in by lia. by rewrite IH.
Qed.

Lemma read_le_loop n v k rest rw :
  rw_in rw = le_enc_from k n v ++ rest -> 0 <= v < 2 ^ 32 -> (k + n <= 4)%nat ->
  ReadUintLE_loop n (Z.of_nat k) (v mod 2 ^ (8 * Z.of_nat k)) rw =
    (Ok (v mod 2 ^ (8 * Z.of_nat (k + n))), rw <| rw_in := rest |>).
Proof.
  intros Hin Hv. revert k rw Hin. induction n as [|n IH]; intros k rw Hin Hk; cbn [ReadUintLE_loop le_enc_from app] in *.
  { destruct rw; simpl in *; subst. by rewrite Nat.add_0_r. }
  unfold mbind, GoM_bind, keep_readError, bufio_ReadByte. run. rewrite Hin. cbn.
  replace (Z.of_nat k + 1) with (Z.of_nat (S k)) by lia. rewrite <- Nat.add_succ_comm.
  pose proof (IH (S k) (rw <| rw_in := le_enc_from (S k) n v ++ rest |>) eq_refl ltac:(lia)) as E.
  etrans; [|exact E].
  f_equal. rewrite Nat2Z.inj_succ. replace (8 * Z.succ (Z.of_nat k)) with (8 * Z.of_nat k + 8) by lia.
  rewrite Z.shiftl_mul_pow2, Z.shiftr_div_pow2, (Z.mul_comm (Z.of_nat k) 8) by lia.
  rewrite Z.pow_add_r, Z.rem_mul_r by lia. change (2 ^ 8) with 256. fold (u8 (v / 2 ^ (8 * Z.of_nat k))).
  assert (Hp : 0 < 2 ^ (8 * Z.of_nat k) <= 2 ^ 24).
  { split; [apply Z.pow_pos_nonneg; lia|]. apply Z.pow_le_mono_r; lia. }
  pose proof (u8_range (v / 2 ^ (8 * Z.of_nat k))). pose proof (Z.mod_pos_bound v (2 ^ (8 * Z.of_nat k)) ltac:(lia)).
  rewrite (u32_small (_ * _)) by nia. rewrite u32_small by nia. lia.
Qed.

Lemma get_be_run n v rest s :
  rw_readError (io_rw s) = None -> rw_in (io_rw s) = be_enc n v ++ rest -> 0 <= v < 2 ^ (8 * Z.of_nat n) -> (n <= 4)%nat ->
  get_be n s = (Ok v, input rest s).
Proof.
  intros He Hin Hv Hn. unfold get_be, or_zero, on_rw, ReadUintBE, check_readError. run. rewrite He. cbn.
  assert (2 ^ (8 * Z.of_nat n) <= 2 ^ 32) by (apply Z.pow_le_mono_r; lia).
  replace 0 with (Z.shiftr v (8 * Z.of_nat n)); [|rewrite Z.shiftr_div_pow2 by lia; by apply Z.div_small].
  by rewrite (read_be_loop _ _ _ _ Hin) by lia.
Qed.

Lemma get_le_run n v rest s :
  rw_readError (io_rw s) = None -> rw_in (io_rw s) = le_enc n v ++ rest -> 0 <= v < 2 ^ (8 * Z.of_nat n) -> (n <= 4)%nat ->
  get_le n s = (Ok v, input rest s).
Proof.
  intros He Hin Hv Hn. unfold get_le, or_zero, on_rw, ReadUintLE, check_readError. run. rewrite He. cbn.
  assert (2 ^ (8 * Z.of_nat n) <= 2 ^ 32) by (apply Z.pow_le_mono_r; lia).
  pose proof (read_le_loop n v 0 rest (io_rw s) Hin ltac:(lia) ltac:(lia)) as E.
  rewrite Z.mod_1_r, Nat.add_0_l, Z.mod_small in E by done. change (Z.of_nat 0) with 0 in E. by rewrite E.
Qed.

Lemma BigEndian_Uint32_be v rest : 0 <= v < 2 ^ 32 -> BigEndian_Uint32 (be_enc 4 v ++ rest) = Ok v.
Proof.
  intros Hv. cbn [be_enc app BigEndian_Uint32]. f_equal.
  change (8 * Z.of_nat 3) with 24. change (8 * Z.of_nat 2) with 16. change (8 * Z.of_nat 1) with 8.
  change (8 * Z.of_nat 0) with 0. rewrite Z.shiftr_0_r.
  pose proof (u8_range v). pose proof (u8_range (Z.shiftr v 8)). pose proof (u8_range (Z.shiftr v 16)).
  pose proof (u8_range (Z.shiftr v 24)).
  assert (Hs : forall x k, 0 <= x < 256 -> 0 <= k <= 24 -> u32 (Z.shiftl x k) = Z.shiftl x k).
  { intros x k Hx Hk. apply u32_small. rewrite Z.shiftl_mul_pow2 by lia.
    assert (0 < 2 ^ k <= 2 ^ 24) by (split; [apply Z.pow_pos_nonneg; lia|apply Z.pow_le_mono_r; lia]). nia. }
  rewrite !Hs by lia. rewrite (Z.lor_comm (u8 v)), lor_low by lia.
  rewrite (Z.lor_comm (_ * _ + _)), lor_low by lia. rewrite (Z.lor_comm (_ * _ + _)), lor_low by lia.
  rewrite !Z.shiftr_div_pow2 by lia. change (2 ^ 8) with 256. change (2 ^ 16) with 65536. change (2 ^ 24) with 16777216.
  change (2 ^ 32) with 4294967296 in *. clear -Hv. glia.
Qed.

Lemma run_set {A} f (k : unit -> GoM ChunkIO A) s :
  (set_stream f ≫= k) s = k tt (mkChunkIO (f (io_stream s)) (io_rw s) (io_pool s)).
Proof. done. Qed.

Lemma run_get_be {A} n v rest (k : Z -> GoM ChunkIO A) c rw p :
  rw_readError rw = None -> rw_in rw = be_enc n v ++ rest -> 0 <= v < 2 ^ (8 * Z.of_nat n) -> (n <= 4)%nat ->
  (get_be n ≫= k) (mkChunkIO c rw p) = k v (mkChunkIO c (rw <| rw_in := rest |>) p).
Proof. intros. by apply run_bind_ok, get_be_run. Qed.

Lemma run_get_le {A} n v rest (k : Z -> GoM ChunkIO A) c rw p :
  rw_readError rw = None -> rw_in rw = le_enc n v ++ rest -> 0 <= v < 2 ^ (8 * Z.of_nat n) -> (n <= 4)%nat ->
  (get_le n ≫= k) (mkChunkIO c rw p) = k v (mkChunkIO c (rw <| rw_in := rest |>) p).
Proof. intros. by apply run_bind_ok, get_le_run. Qed.

Lemma run_get {A} (k : ChunkStream -> GoM ChunkIO A) s : (get_stream ≫= k) s = k (io_stream s) s.
Proof. done. Qed.

(** ** The layout of a message *)

(** The chunk stream that [writeChunk] uses. *)
Definition route (m : ChunkStream) : Z :=
  if cs_TypeID m =? TAG_AUDIO then 4
  else if (cs_TypeID m =? TAG_VIDEO) || (cs_TypeID m =? TAG_SCRIPTDATAAMF0) || (cs_TypeID m =? TAG_SCRIPTDATAAMF3) then 6
  else cs_CSID m.

Definition basic_header (format csid : Z) : list Z :=
  if csid <? 64 then [format * 64 + csid]
  else if csid - 64 <? 256 then [format * 64; csid - 64]
  else (format * 64 + 1) :: le_enc 2 (csid - 64).
Definition extended (ts : Z) : list Z := if 0xffffff <=? ts then be_enc 4 ts else [].
Definition message_header (m : ChunkStream) : list Z :=
  be_enc 3 (Z.min (cs_Timestamp m) 0xffffff) ++ be_enc 3 (cs_Length m) ++ be_enc 1 (cs_TypeID m) ++ le_enc 4 (cs_StreamID m).
Definition chunk_header (m : ChunkStream) (i : Z) : list Z :=
  basic_header (if i =? 0 then 0 else 3) (route m) ++ (if i =? 0 then message_header m else []) ++ extended (cs_Timestamp m).

(** The chunks from number [i] on, of which the first has the data from [off] on. *)
Fixpoint layout (rounds : nat) (k : Z) (m : ChunkStream) (i off : Z) : list Z :=
  match rounds with
  | O => []
  | S rounds =>
      if off =? cs_Length m then []
      else
        let n := Z.min k (cs_Length m - off) in
        chunk_header m i ++ take (Z.to_nat n) (drop (Z.to_nat off) (cs_Data m)) ++ layout rounds k m (i + 1) (off + n)
  end.

(** The messages that the format can carry. *)
Record sendable (m : ChunkStream) : Prop := {
  sd_timestamp : 0 <= cs_Timestamp m < 2 ^ 32;
  sd_data : cs_Length m = zlen (cs_Data m);
  sd_length : 0 < cs_Length m <= maxpoolsize;
  sd_type : 0 <= cs_TypeID m < 256;
  sd_stream : 0 <= cs_StreamID m < 2 ^ 32;
  sd_csid : 2 <= route m < 65600
}.

(** ** Writing *)

Ltac step_ok H := rewrite (run_bind_ok _ _ _ _ _ H); cbn beta iota.

Lemma write_basic_header_run c s :
  quiet (io_rw s) -> (cs_Format c = 0 \/ cs_Format c = 3) -> 0 <= cs_CSID c < 65600 ->
  write_basic_header c s = (Ok tt, push (basic_header (cs_Format c) (cs_CSID c)) s).
Proof.
  intros Hq Hf Hc. unfold write_basic_header, basic_header.
  assert (E : forall x, 0 <= x < 64 -> be_enc 1 (Z.lor (u32 (Z.shiftl (cs_Format c) 6)) x) = [cs_Format c * 64 + x]).
  { intros x Hx. cbn [be_enc]. rewrite Z.shiftr_0_r, (u32_small (Z.shiftl _ _)) by (destruct Hf as [-> | ->]; done).
    rewrite lor_low by lia. f_equal. rewrite u8_small; lia. }
  destruct (Z.ltb_spec (cs_CSID c) 64). { rewrite put_be_run by done. by rewrite E by lia. }
  rewrite (u32_small (_ - _)) by lia.
  destruct (Z.ltb_spec (cs_CSID c - 64) 256).
  { step_ok (put_be_run (Z.lor (u32 (Z.shiftl (cs_Format c) 6)) 0) 1 s Hq). rewrite put_le_run by done.
    rewrite push_push, E by lia. do 2 f_equal. unfold le_enc; simpl. rewrite Z.shiftr_0_r, u8_small by lia.
    by rewrite Z.add_0_r. }
  rewrite (proj2 (Z.ltb_lt _ _)) by lia.
  step_ok (put_be_run (Z.lor (u32 (Z.shiftl (cs_Format c) 6)) 1) 1 s Hq). rewrite put_le_run by done.
  by rewrite push_push, E by lia.
Qed.

Lemma write_message_header_run c ts s :
  quiet (io_rw s) -> cs_Format c = 0 -> cs_Length c <= 0xffffff ->
  write_message_header c ts s =
    (Ok tt, push (be_enc 3 ts ++ be_enc 3 (cs_Length c) ++ be_enc 1 (cs_TypeID c) ++ le_enc 4 (cs_StreamID c)) s).
Proof.
  intros Hq Hf Hl. unfold write_message_header. rewrite Hf. simpl.
  step_ok (put_be_run ts 3 s Hq). rewrite (proj2 (Z.ltb_ge _ _)) by lia.
  rewrite (run_bind_ok _ _ _ _ _ (put_be_run _ 3 (push (be_enc 3 ts) s) Hq)).
  rewrite (run_bind_ok _ _ _ _ _ (put_be_run _ 1 (push _ (push _ s)) Hq)). cbn beta iota.
  rewrite put_le_run by done. by rewrite !push_push, <- ?app_assoc.
Qed.

Lemma quiet_push bs s : quiet (io_rw s) -> quiet (io_rw (push bs s)).
Proof. done. Qed.

Lemma writeHeader_run m i s :
  quiet (io_rw s) -> sendable m -> 
  cs_CSID (io_stream s) = route m -> cs_Timestamp (io_stream s) = cs_Timestamp m -> cs_Length (io_stream s) = cs_Length m ->
  cs_TypeID (io_stream s) = cs_TypeID m -> cs_StreamID (io_stream s) = cs_StreamID m ->
  cs_Format (io_stream s) = (if i =? 0 then 0 else 3) ->
  writeHeader s = (Ok tt, push (chunk_header m i) s).
Proof.
  intros Hq [Ht Hd Hl Hty Hst Hc] Ec Et El Ety Est Ef. unfold writeHeader, chunk_header.
  rewrite (run_bind_ok _ _ s (io_stream s) s) by done. cbv zeta.
  assert (Hf : cs_Format (io_stream s) = 0 \/ cs_Format (io_stream s) = 3) by (rewrite Ef; case_match; auto).
  rewrite (run_bind_ok _ _ _ _ _ (write_basic_header_run (io_stream s) s Hq Hf ltac:(lia))).
  assert (Ek : forall s', quiet (io_rw s') -> on_rw check_writeError s' = (Ok tt, s')).
  { intros s' [Hs' _]. unfold on_rw, check_writeError. run. rewrite Hs'. by destruct s' as [? [] ?]. }
  assert (Ee : forall ts s', quiet (io_rw s') -> (0xffffff <=? ts) = (0xffffff <=? cs_Timestamp m) ->
    (if 0xffffff <=? ts then put_be (cs_Timestamp m) 4 else mret tt) s' = (Ok tt, push (extended (cs_Timestamp m)) s')).
  { intros ts s' Hs' E. rewrite E. unfold extended. destruct (0xffffff <=? cs_Timestamp m); [by rewrite put_be_run|by rewrite push_nil]. }
  rewrite Ec, Et, Ef. destruct (Z.eqb_spec i 0) as [->|Hi]; cbn [negb andb Z.eqb].
  - set (ts := if 0xffffff <? cs_Timestamp m then 0xffffff else cs_Timestamp m).
    assert (Ets : ts = Z.min (cs_Timestamp m) 0xffffff) by (subst ts; destruct (Z.ltb_spec 0xffffff (cs_Timestamp m)); lia).
    rewrite (run_bind_ok _ _ _ _ _ (write_message_header_run (io_stream s) ts _ (quiet_push _ _ Hq) Ef ltac:(unfold maxpoolsize in *; lia))).
    rewrite (run_bind_ok _ _ _ _ _ (Ee ts _ (quiet_push _ _ (quiet_push _ _ Hq)) ltac:(cases_bool; lia))), Ek by done.
    rewrite !push_push, Ets, El, Ety, Est. unfold message_header. by rewrite <- ?app_assoc.
  - change (3 =? 3)%positive with true. cbn [negb andb].
    rewrite (run_bind_ok _ _ (push (basic_header 3 (route m)) s) tt (push (basic_header 3 (route m)) s)) by done.
    rewrite (run_bind_ok _ _ _ _ _ (Ee (cs_Timestamp m) _ (quiet_push _ _ Hq) eq_refl)), Ek by done. by rewrite !push_push.
Qed.

(** The chunks from number [i] on; what is left of the message is at most [rounds] chunks. *)
Lemma write_chunks_run rounds k m i off s :
  quiet (io_rw s) -> sendable m -> 0 < k < 2 ^ 32 -> 0 <= i -> 
  (off = i * k /\ off < cs_Length m \/ off = cs_Length m) ->
  cs_CSID (io_stream s) = route m -> cs_Timestamp (io_stream s) = cs_Timestamp m -> cs_Length (io_stream s) = cs_Length m ->
  cs_TypeID (io_stream s) = cs_TypeID m -> cs_StreamID (io_stream s) = cs_StreamID m -> cs_Data (io_stream s) = cs_Data m ->
  exists format, write_chunks rounds k i off s =
    (Ok tt, push (layout rounds k m i off) (s <| io_stream := (io_stream s) <| cs_Format := format |> |>)).
Proof.
  intros Hq Hm Hk. revert i off s Hq. induction rounds as [|rounds IH]; intros i off s Hq Hi Ho Ec Et El Ety Est Ed.
  { exists (cs_Format (io_stream s)). cbn [write_chunks layout]. rewrite push_nil. by destruct s as [[] ? ?]. }
  cbn [write_chunks layout]. rewrite (run_bind_ok _ _ s (io_stream s) s) by done. rewrite El.
  destruct (Z.eqb_spec off (cs_Length m)) as [->|Hoff].
  { exists (cs_Format (io_stream s)). rewrite push_nil. by destruct s as [[] ? ?]. }
  destruct Ho as [[-> Ho]|?]; [|done]. pose proof (sd_data _ Hm). pose proof (sd_length _ Hm). unfold maxpoolsize in *.
  set (s1 := s <| io_stream := (io_stream s) <| cs_Format := if i =? 0 then 0 else 3 |> |>).
  rewrite (run_bind_ok _ _ s tt s1) by done.
  rewrite (run_bind_ok _ _ _ _ _ (writeHeader_run m i s1 Hq Hm Ec Et El Ety Est eq_refl)). cbv zeta.
  rewrite (u32_small k), (u32_small (i * k)), Ed, (u32_small (zlen _)), (u32_small (zlen _ - _)) by nia.
  set (n := if zlen (cs_Data m) - i * k <=? k then zlen (cs_Data m) - i * k else k).
  assert (En : n = Z.min k (cs_Length m - i * k)) by (subst n; destruct (Z.leb_spec (zlen (cs_Data m) - i * k) k); lia).
  rewrite (u32_small (_ + n)) by lia. unfold slice_of.
  rewrite (proj2 (Z.leb_le _ _)), (proj2 (Z.leb_le (_ + n) _)) by lia. cbn [andb].
  set (buf := take _ _). rewrite (run_bind_ok _ _ (push (chunk_header m i) s1) buf (push (chunk_header m i) s1)) by done.
  set (s2 := push buf (push (chunk_header m i) s1)).
  rewrite (run_bind_ok _ _ _ tt s2).
  2: { destruct Hq as [Hq1 Hq2]. unfold on_rw, rw_Write, check_writeError, bufio_Write. run. simpl. rewrite Hq1. simpl. by rewrite Hq2. }
  replace (u32 (i * k + n)) with (i * k + n) by (symmetry; apply u32_small; lia).
  destruct (IH (i + 1) (i * k + n) s2) as [format E]; try done; [lia|nia|].
  exists format. rewrite E, <- En. unfold s2. subst buf. replace (i * k + n - i * k) with n by lia.
  unfold push, assign; simpl. by rewrite <- ?app_assoc.
Qed.

Definition message_layout (k : Z) (m : ChunkStream) : list Z := layout (S (Z.to_nat (cs_Length m / k))) k m 0 0.

Lemma writeChunk_run k s :
  quiet (io_rw s) -> sendable (io_stream s) -> 0 < k < 2 ^ 32 ->
  exists c, writeChunk k s = (Ok tt, push (message_layout k (io_stream s)) (s <| io_stream := c |>)).
Proof.
  intros Hq Hm Hk. unfold writeChunk. rewrite (run_bind_ok _ _ s (io_stream s) s) by done.
  set (s1 := s <| io_stream := (io_stream s) <| cs_CSID := route (io_stream s) |> |>).
  rewrite (run_bind_ok _ _ s tt s1).
  2: { unfold s1, route. destruct s as [[] ? ?]; simpl. repeat case_match; reflexivity. }
  rewrite (u32_small k), (proj2 (Z.eqb_neq _ _)) by lia. cbv zeta.
  destruct (write_chunks_run (S (Z.to_nat (cs_Length (io_stream s) / k))) k (io_stream s) 0 0 s1) as [format E]; try done.
  { pose proof (sd_length _ Hm). lia. }
  rewrite E. by eexists.
Qed.

(** ** Reading *)

(** The first byte of a basic header has the number of the chunk stream or says in how
    many bytes it follows. *)
Definition csid_key (csid : Z) : Z := if csid <? 64 then csid else if csid - 64 <? 256 then 0 else 1.
Definition csid_rest (csid : Z) : list Z :=
  if csid <? 64 then [] else if csid - 64 <? 256 then [csid - 64] else le_enc 2 (csid - 64).

Lemma basic_header_key format csid : basic_header format csid = (format * 64 + csid_key csid) :: csid_rest csid.
Proof. unfold basic_header, csid_key, csid_rest. repeat case_match; try done. by rewrite Z.add_0_r. Qed.

Lemma read_csid_run csid rest s :
  2 <= csid < 65600 -> rw_readError (io_rw s) = None -> rw_in (io_rw s) = csid_rest csid ++ rest ->
  cs_CSID (io_stream s) = csid_key csid ->
  read_csid s = (Ok tt, (input rest s) <| io_stream := (io_stream s) <| cs_CSID := csid |> |>).
Proof.
  intros Hc He Hin Hk. unfold read_csid. rewrite (run_bind_ok _ _ s (io_stream s) s) by done.
  unfold csid_key, csid_rest in *. rewrite Hk. destruct (Z.ltb_spec csid 64).
  { rewrite !(proj2 (Z.eqb_neq _ _)) by lia. destruct s as [[] [] ?]; simpl in *; subst. done. }
  destruct (Z.ltb_spec (csid - 64) 256); simpl.
  - rewrite (run_bind_ok _ _ s (csid - 64) (input rest s)).
    2: { apply get_le_run; [done| |change (2 ^ (8 * Z.of_nat 1)) with 256; lia|lia].
         rewrite Hin. unfold le_enc; simpl. by rewrite Z.shiftr_0_r, u8_small by lia. }
    unfold set_stream, modifyS. simpl. by replace (u32 (csid - 64 + 64)) with csid by (symmetry; rewrite u32_small; lia).
  - rewrite (run_bind_ok _ _ s (csid - 64) (input rest s)).
    2: { apply get_le_run; [done..|change (2 ^ (8 * Z.of_nat 2)) with 65536; lia|lia]. }
    unfold set_stream, modifyS. simpl. by replace (u32 (csid - 64 + 64)) with csid by (symmetry; rewrite u32_small; lia).
Qed.

(** The stream of a reader that has the first [off] bytes of the message [m]. *)
Definition received (m : ChunkStream) (delta format off : Z) (got : bool) : ChunkStream :=
  mkChunkStream 0 (route m) (cs_Timestamp m) (cs_Length m) (cs_TypeID m) (cs_StreamID m) delta
    (0xffffff <=? cs_Timestamp m) off (cs_Length m - off) got format
    (take (Z.to_nat off) (cs_Data m) ++ replicate (Z.to_nat (cs_Length m - off)) 0).

Lemma Get_run size p :
  0 <= size <= maxpoolsize -> exists a p', Get size p = (Ok a, p') /\ sl_to a - sl_from a = size.
Proof.
  intros Hs. unfold Get. run. destruct (Z.ltb_spec (maxpoolsize - pool_pos p) size); simpl.
  - rewrite (proj2 (Z.ltb_ge _ _)) by lia. eexists _, _. split; [done|simpl; lia].
  - rewrite (proj2 (Z.ltb_ge _ _)) by lia. eexists _, _. split; [done|simpl; lia].
Qed.

Lemma run_read_extended {A} T rest (k : Z -> GoM ChunkIO A) c rw p :
  rw_readError rw = None -> rw_in rw = extended T ++ rest -> 0 <= T < 2 ^ 32 ->
  (read_extended (Z.min T 0xffffff) ≫= k) (mkChunkIO c rw p) =
    k T (mkChunkIO (c <| cs_exted := 0xffffff <=? T |>) (rw <| rw_in := rest |>) p).
Proof.
  intros He Hin HT. apply run_bind_ok. unfold read_extended, extended in *.
  destruct (Z.leb_spec 0xffffff T).
  - rewrite Z.min_r, Z.eqb_refl, (run_get_be 4 T rest) by (done || simpl; lia). by rewrite run_set.
  - rewrite Z.min_l, (proj2 (Z.eqb_neq _ _)), run_set by lia. destruct rw; simpl in *; by subst.
Qed.

Lemma cs_new_run c rw p :
  0 <= cs_Length c <= maxpoolsize ->
  exists p', cs_new (mkChunkIO c rw p) =
    (Ok tt, mkChunkIO (c <| cs_got := false |> <| cs_index := 0 |> <| cs_remain := cs_Length c |>
                         <| cs_Data := replicate (Z.to_nat (cs_Length c)) 0 |>) rw p').
Proof.
  intros Hl. unfold cs_new. rewrite run_set, run_get. simpl.
  destruct (Get_run (cs_Length c) p Hl) as (a & p' & E & Ea). exists p'.
  unfold mbind, GoM_bind, on_pool. simpl. rewrite E. simpl. unfold set_stream, modifyS. simpl. by rewrite Ea.
Qed.

Lemma read_format0_run m rest s :
  sendable m -> rw_readError (io_rw s) = None ->
  rw_in (io_rw s) = message_header m ++ extended (cs_Timestamp m) ++ rest ->
  cs_CSID (io_stream s) = route m -> cs_tmpFromat (io_stream s) = 0 ->
  exists pool, read_format0 s =
    (Ok tt, mkChunkIO (received m (cs_timeDelta (io_stream s)) 0 0 false) ((io_rw s) <| rw_in := rest |>) pool).
Proof.
  intros [Ht Hd Hl Hty Hst Hc] He Hin Ec Etmp. unfold read_format0, message_header in *. rewrite <- !app_assoc in Hin.
  destruct s as [[f csid ts len ty st td ex ix rm gt tm da] rw pool]; simpl in *. subst.
  rewrite run_set, (run_get_be 3 (Z.min (cs_Timestamp m) 0xffffff)
    (be_enc 3 (cs_Length m) ++ be_enc 1 (cs_TypeID m) ++ le_enc 4 (cs_StreamID m) ++ extended (cs_Timestamp m) ++ rest))
    by (done || simpl; lia).
  rewrite run_set, (run_get_be 3 (cs_Length m) (be_enc 1 (cs_TypeID m) ++ le_enc 4 (cs_StreamID m) ++ extended (cs_Timestamp m) ++ rest))
    by (done || unfold maxpoolsize in *; simpl; lia).
  rewrite run_set, (run_get_be 1 (cs_TypeID m) (le_enc 4 (cs_StreamID m) ++ extended (cs_Timestamp m) ++ rest)) by (done || simpl; lia).
  rewrite run_set, (run_get_le 4 (cs_StreamID m) (extended (cs_Timestamp m) ++ rest)) by (done || simpl; lia).
  rewrite run_set. cbn [io_rw io_pool io_stream].
  rewrite (run_read_extended (cs_Timestamp m) rest) by (done || lia). rewrite run_set. cbn [io_rw io_pool io_stream].
  destruct (cs_new_run (mkChunkStream 0 (route m) (cs_Timestamp m) (cs_Length m) (cs_TypeID m) (cs_StreamID m) td
    (0xffffff <=? cs_Timestamp m) ix rm gt 0 da) (rw <| rw_in := rest |>) pool) as [p' E]; [simpl; lia|].
  exists p'. etrans; [exact E|]. unfold received. by rewrite Z.sub_0_r.
Qed.

Lemma copy_received (data : list Z) (off n : nat) :
  (off + n <= length data)%nat ->
  copy_at (take off data ++ replicate (length data - off) 0) (Z.of_nat off) (take n (drop off data)) =
    take (off + n) data ++ replicate (length data - (off + n)) 0.
Proof.
  intros Hn. unfold copy_at. rewrite Nat2Z.id, take_app_le, take_take, Nat.min_id by (rewrite length_take; lia).
  rewrite length_take, length_drop, Nat.min_l, drop_app_ge, length_take, Nat.min_l by (rewrite ?length_take; lia).
  rewrite drop_replicate, app_assoc, take_take_drop. do 2 f_equal. lia.
Qed.

Lemma read_payload_run k m delta format off rest rw p :
  sendable m -> 0 < k < 2 ^ 32 -> 0 <= off < cs_Length m -> rw_readError rw = None ->
  rw_in rw = take (Z.to_nat (Z.min k (cs_Length m - off))) (drop (Z.to_nat off) (cs_Data m)) ++ rest ->
  read_payload k (mkChunkIO (received m delta format off false) rw p) =
    let off' := off + Z.min k (cs_Length m - off) in
    (Ok tt, mkChunkIO (received m delta format off' (off' =? cs_Length m)) (rw <| rw_in := rest |>) p).
Proof.
  intros [Ht Hd Hl Hty Hst Hc] Hk Ho He Hin. unfold read_payload. rewrite run_get. simpl.
  set (n := if k <? cs_Length m - off then k else cs_Length m - off).
  assert (En : n = Z.min k (cs_Length m - off)) by (subst n; destruct (Z.ltb_spec k (cs_Length m - off)); lia).
  unfold maxpoolsize in *. rewrite <- En in *. clearbody n. assert (Hlen : cs_Length m = Z.of_nat (length (cs_Data m))) by done.
  rewrite (u32_small (off + n)) by lia.
  unfold slice_of, zlen. rewrite length_app, length_take, length_replicate.
  rewrite (proj2 (Z.leb_le _ _)), (proj2 (Z.leb_le (off + n) _)) by lia. cbn [andb].
  set (piece := take (Z.to_nat n) (drop (Z.to_nat off) (cs_Data m))) in *.
  assert (Hp : length piece = Z.to_nat n) by (subst piece; rewrite length_take, length_drop; lia).
  unfold mbind at 1, GoM_bind at 1, lift. simpl.
  rewrite (run_bind_ok _ _ _ piece (mkChunkIO (received m delta format off false) (rw <| rw_in := rest |>) p)).
  2: { unfold on_rw, rw_Read, check_readError, keep_readError, ReadAtLeast. run. simpl. rewrite He. simpl. rewrite Hin.
       unfold zlen. rewrite length_app, (proj2 (Z.leb_le _ _)) by lia. simpl.
       rewrite <- Hp, take_app_length, drop_app_length. done. }
  rewrite run_set, run_get. cbn [io_stream io_rw io_pool assign cs_remain cs_Data cs_index received].
  rewrite (u32_small (off + n)), (u32_small (_ - n)) by lia.
  pose proof (copy_received (cs_Data m) (Z.to_nat off) (Z.to_nat n) ltac:(lia)) as Ecopy.
  rewrite Z2Nat.id in Ecopy by lia.
  replace (length (cs_Data m) - Z.to_nat off)%nat with (Z.to_nat (cs_Length m - off)) in Ecopy by lia.
  fold piece in Ecopy. rewrite Ecopy.
  replace (Z.to_nat off + Z.to_nat n)%nat with (Z.to_nat (off + n)) by lia.
  replace (length (cs_Data m) - Z.to_nat (off + n))%nat with (Z.to_nat (cs_Length m - (off + n))) by lia.
  replace (cs_Length m - off - n) with (cs_Length m - (off + n)) by lia. cbn [received assign cs_remain].
  unfold on_rw, check_readError, set_stream, modifyS.
  destruct (Z.eqb_spec (off + n) (cs_Length m)) as [E|E].
  - rewrite (proj2 (Z.eqb_eq _ _)) by (simpl; lia). run. simpl. by rewrite He.
  - rewrite (proj2 (Z.eqb_neq _ _)) by (simpl; lia). run. simpl. by rewrite He.
Qed.

Lemma read_format3_run m delta off rest rw p :
  sendable m -> 0 <= off < cs_Length m -> rw_readError rw = None -> rw_in rw = extended (cs_Timestamp m) ++ rest ->
  read_format3 (mkChunkIO (received m delta 3 off false) rw p) =
    (Ok tt, mkChunkIO (received m delta 3 off false) (rw <| rw_in := rest |>) p).
Proof.
  intros [Ht Hd Hl Hty Hst Hc] Ho He Hin. unfold read_format3. rewrite run_get. cbn [io_stream received cs_remain cs_exted cs_Timestamp].
  rewrite (proj2 (Z.eqb_neq _ _)) by lia. unfold extended in Hin. destruct (Z.leb_spec 0xffffff (cs_Timestamp m)).
  2: { destruct rw; simpl in *; by subst. }
  rewrite (run_bind_ok _ _ _ (be_enc 4 (cs_Timestamp m)) (mkChunkIO (received m delta 3 off false) rw p)).
  2: { unfold on_rw, Peek. run. simpl. rewrite Hin. unfold zlen. rewrite length_app, be_enc_length, (proj2 (Z.leb_le _ _)) by lia.
       by destruct rw. }
  unfold mbind at 1, GoM_bind at 1, lift. rewrite <- (app_nil_r (be_enc 4 _)), BigEndian_Uint32_be by done. rewrite Z.eqb_refl.
  unfold on_rw, Discard, modifyS. simpl. by rewrite Hin.
Qed.

(** ** The loop over chunks *)

Lemma readChunk_first k m c rest rw p :
  sendable m -> 0 < k < 2 ^ 32 -> rw_readError rw = None -> cs_remain c = 0 ->
  rw_in rw = csid_rest (route m) ++ message_header m ++ extended (cs_Timestamp m) ++
             take (Z.to_nat (Z.min k (cs_Length m))) (cs_Data m) ++ rest ->
  exists p', readChunk k (mkChunkIO (c <| cs_tmpFromat := 0 |> <| cs_CSID := csid_key (route m) |>) rw p) =
    let off := Z.min k (cs_Length m) in
    (Ok tt, mkChunkIO (received m (cs_timeDelta c) 0 off (off =? cs_Length m)) (rw <| rw_in := rest |>) p').
Proof.
  intros Hm Hk He Hr Hin. unfold readChunk. rewrite run_get. cbn [io_stream assign cs_remain cs_tmpFromat].
  set (s0 := mkChunkIO _ rw p).
  replace (negb _ && negb _) with false by (symmetry; apply andb_false_iff; left; simpl; by rewrite Hr).
  set (s1 := (input (message_header m ++ extended (cs_Timestamp m) ++ take (Z.to_nat (Z.min k (cs_Length m))) (cs_Data m) ++ rest) s0)
    <| io_stream := (io_stream s0) <| cs_CSID := route m |> |>).
  rewrite (run_bind_ok _ _ s0 tt s1 (read_csid_run (route m) _ s0 (sd_csid _ Hm) He Hin eq_refl)).
  destruct (read_format0_run m (take (Z.to_nat (Z.min k (cs_Length m))) (cs_Data m) ++ rest) s1) as [p' E]; try done.
  exists p'. rewrite (run_bind_ok _ _ _ _ _ E). pose proof (sd_length _ Hm).
  rewrite (read_payload_run k m _ 0 0 rest) by (done || lia || by rewrite Z.sub_0_r). simpl. by rewrite Z.sub_0_r.
Qed.

Lemma readChunk_next k m delta f off rest rw p :
  sendable m -> 0 < k < 2 ^ 32 -> 0 <= off < cs_Length m -> rw_readError rw = None ->
  rw_in rw = csid_rest (route m) ++ extended (cs_Timestamp m) ++
             take (Z.to_nat (Z.min k (cs_Length m - off))) (drop (Z.to_nat off) (cs_Data m)) ++ rest ->
  readChunk k (mkChunkIO ((received m delta f off false) <| cs_tmpFromat := 3 |> <| cs_CSID := csid_key (route m) |>) rw p) =
    let off' := off + Z.min k (cs_Length m - off) in
    (Ok tt, mkChunkIO (received m delta 3 off' (off' =? cs_Length m)) (rw <| rw_in := rest |>) p).
Proof.
  intros Hm Hk Ho He Hin. unfold readChunk. rewrite run_get. cbn [io_stream assign cs_remain cs_tmpFromat].
  set (s0 := mkChunkIO _ rw p). replace (negb _ && negb _) with false by (symmetry; by apply andb_false_r).
  set (bs := take _ _ ++ rest) in *.
  set (s1 := (input (extended (cs_Timestamp m) ++ bs) s0) <| io_stream := (io_stream s0) <| cs_CSID := route m |> |>).
  rewrite (run_bind_ok _ _ s0 tt s1 (read_csid_run (route m) _ s0 (sd_csid _ Hm) He Hin eq_refl)).
  set (rw1 := rw <| rw_in := extended (cs_Timestamp m) ++ bs |>).
  pose proof (read_format3_run m delta off bs rw1 p Hm Ho He eq_refl) as E. rewrite (run_bind_ok _ _ s1 _ _ E).
  by rewrite (read_payload_run k m _ 3 off rest) by done.
Qed.

(** The connection with the stream [c] in its map and [rest] to read. *)
Definition reading (conn : Conn) (key : Z) (c : ChunkStream) (rest : list Z) (pool : Pool) : Conn :=
  conn <| con_rw := (con_rw conn) <| rw_in := rest |> |> <| con_pool := pool |> <| con_chunks := <[key := c]> (con_chunks conn) |>.

Lemma header_byte format key : 0 <= format < 4 -> 0 <= key < 64 ->
  Z.shiftr (format * 64 + key) 6 = format /\ Z.land (format * 64 + key) 0x3f = key.
Proof.
  intros Hf Hk. rewrite Z.shiftr_div_pow2 by lia. change 0x3f with (Z.ones 6). rewrite Z.land_ones by lia.
  change (2 ^ 6) with 64. Z.to_euclidean_division_equations; lia.
Qed.

(** One round of the loop: a chunk with the header byte [h], read from the stream that the
    map has. *)
Lemma read_message_round fuel format key c c' conn rest rest' p' :
  0 <= format < 4 -> 0 <= key < 64 ->
  rw_readError (con_rw conn) = None -> rw_in (con_rw conn) = (format * 64 + key) :: rest ->
  default zeroChunkStream (con_chunks conn !! key) = c ->
  readChunk (con_remoteChunkSize conn) (mkChunkIO (c <| cs_tmpFromat := format |> <| cs_CSID := key |>)
    ((con_rw conn) <| rw_in := rest |>) (con_pool conn)) = (Ok tt, mkChunkIO c' ((con_rw conn) <| rw_in := rest' |>) p') ->
  read_message (S fuel) conn = 
    (if full c' then mret c' else read_message fuel) (reading conn key c' rest' p').
Proof.
  intros Hf Hk He Hin Hc Hread. cbn [read_message].
  rewrite (run_bind_ok _ _ conn (format * 64 + key) (conn <| con_rw := (con_rw conn) <| rw_in := rest |> |>)).
  2: { unfold or_zero, on_conn_rw, ReadUintBE, check_readError. run. rewrite He. cbn [ReadUintBE_loop].
       unfold mbind, GoM_bind, keep_readError, bufio_ReadByte. run. rewrite Hin. simpl. run.
       change (u32 (Z.shiftl 0 8)) with 0. rewrite Z.add_0_l, u32_small by lia. done. }
  destruct (header_byte format key Hf Hk) as [-> ->]. cbv zeta.
  set (conn1 := conn <| con_rw := _ |>). rewrite (run_bind_ok _ _ conn1 conn1 conn1) by done.
  set (conn2 := conn1 <| con_chunks := match con_chunks conn !! key with Some _ => con_chunks conn
                                       | None => <[key := zeroChunkStream]> (con_chunks conn) end |>).
  rewrite (run_bind_ok _ _ conn1 c conn2).
  2: { unfold conn2. change (con_chunks conn1) with (con_chunks conn). rewrite <- Hc.
       destruct (con_chunks conn !! key); [by destruct conn|done]. }
  rewrite (run_bind_ok _ _ conn2 (tt, c') (conn2 <| con_rw := (con_rw conn) <| rw_in := rest' |> |> <| con_pool := p' |>)).
  2: { unfold on_stream. change (con_remoteChunkSize conn1) with (con_remoteChunkSize conn).
       change (con_rw conn2) with ((con_rw conn) <| rw_in := rest |>). change (con_pool conn2) with (con_pool conn).
       by rewrite Hread. }
  cbv beta iota. unfold mbind at 1, GoM_bind at 1, modifyS.
  f_equal. unfold reading, conn2, conn1, assign; simpl. f_equal.
  destruct (con_chunks conn !! key); [done|by rewrite insert_insert_eq].
Qed.

Lemma reading_reading conn key c c' bs bs' p p' :
  reading (reading conn key c bs p) key c' bs' p' = reading conn key c' bs' p'.
Proof. unfold reading, assign; simpl. by rewrite insert_insert_eq. Qed.

(** The rest of a message that has started. *)
Lemma read_message_tail rounds fuel m delta f i off rest conn k :
  sendable m -> con_remoteChunkSize conn = k -> 0 < k < 2 ^ 32 -> 0 < i -> off = i * k -> off < cs_Length m ->
  Z.of_nat rounds + i = cs_Length m / k + 1 -> (rounds <= fuel)%nat ->
  rw_readError (con_rw conn) = None -> rw_in (con_rw conn) = layout rounds k m i off ++ rest ->
  con_chunks conn !! csid_key (route m) = Some (received m delta f off false) ->
  read_message fuel conn =
    let c := received m delta 3 (cs_Length m) true in
    (Ok c, reading conn (csid_key (route m)) c rest (con_pool conn)).
Proof.
  intros Hm Ek Hk. revert fuel f i off conn Ek. induction rounds as [|rounds IH]; intros fuel f i off conn Ek Hi -> Ho Hr Hf He Hin Hc.
  { simpl in Hr. pose proof (Z.mul_div_le (cs_Length m) k ltac:(lia)). pose proof (Z.mul_succ_div_gt (cs_Length m) k ltac:(lia)). nia. }
  destruct fuel as [|fuel]; [lia|]. cbn [layout] in Hin.
  rewrite (proj2 (Z.eqb_neq _ _)) in Hin by lia. unfold chunk_header in Hin.
  rewrite (proj2 (Z.eqb_neq i 0)), basic_header_key in Hin by lia. cbn [app] in Hin. rewrite <- !app_assoc in Hin.
  set (n := Z.min k (cs_Length m - i * k)) in *.
  pose proof (sd_csid _ Hm) as Hcs.
  assert (Hkey : 0 <= csid_key (route m) < 64) by (unfold csid_key; repeat case_match; lia).
  set (bs := layout rounds k m (i + 1) (i * k + n) ++ rest) in *.
  rewrite (read_message_round fuel 3 (csid_key (route m)) _ (received m delta 3 (i * k + n) (i * k + n =? cs_Length m)) conn
    (csid_rest (route m) ++ extended (cs_Timestamp m) ++ take (Z.to_nat n) (drop (Z.to_nat (i * k)) (cs_Data m)) ++ bs)
    bs (con_pool conn) ltac:(lia) Hkey He Hin eq_refl).
  2: { rewrite Hc, Ek. set (rw1 := (con_rw conn) <| rw_in := _ |>).
       exact (readChunk_next k m delta f (i * k) bs rw1 (con_pool conn) Hm Hk ltac:(nia) He eq_refl). }
  change (full _) with (i * k + n =? cs_Length m). destruct (Z.eqb_spec (i * k + n) (cs_Length m)) as [E|E].
  { unfold bs. rewrite E. destruct rounds; [done|]. cbn [layout]. by rewrite Z.eqb_refl. }
  assert (i * k + k < cs_Length m) by lia. assert (n = k) as -> by lia.
  rewrite (IH fuel 3 (i + 1) (i * k + k)); try done; try lia; [|by apply lookup_insert_eq].
  cbv zeta. by rewrite reading_reading.
Qed.

Lemma read_message_run k m c conn rest fuel :
  sendable m -> con_remoteChunkSize conn = k -> 0 < k < 2 ^ 32 ->
  rw_readError (con_rw conn) = None -> rw_in (con_rw conn) = message_layout k m ++ rest ->
  default zeroChunkStream (con_chunks conn !! csid_key (route m)) = c -> cs_remain c = 0 ->
  (Z.to_nat (cs_Length m / k) < fuel)%nat ->
  exists c' pool, read_message fuel conn = (Ok c', reading conn (csid_key (route m)) c' rest pool) /\
    exists delta f, c' = received m delta f (cs_Length m) true.
Proof.
  intros Hm Ek Hk He Hin Hc Hr Hf. pose proof (sd_length _ Hm). pose proof (sd_csid _ Hm).
  assert (Hkey : 0 <= csid_key (route m) < 64) by (unfold csid_key; repeat case_match; lia).
  destruct fuel as [|fuel]; [lia|]. unfold message_layout in Hin. cbn [layout] in Hin.
  rewrite (proj2 (Z.eqb_neq _ _)) in Hin by lia. unfold chunk_header in Hin. rewrite Z.eqb_refl, basic_header_key in Hin.
  cbn [app] in Hin. rewrite <- !app_assoc, Z.sub_0_r in Hin. set (n := Z.min k (cs_Length m)) in *.
  change (drop (Z.to_nat 0) (cs_Data m)) with (cs_Data m) in Hin. change (0 + 1) with 1 in Hin. change (0 + n) with n in Hin.
  set (bs := layout (Z.to_nat (cs_Length m / k)) k m 1 n ++ rest) in *.
  set (rw1 := (con_rw conn) <| rw_in := csid_rest (route m) ++ message_header m ++ extended (cs_Timestamp m) ++
                take (Z.to_nat n) (cs_Data m) ++ bs |>).
  destruct (readChunk_first k m c bs rw1 (con_pool conn) Hm Hk He Hr eq_refl) as [p' E].
  rewrite (read_message_round fuel 0 (csid_key (route m)) c _ conn _ bs p' ltac:(lia) Hkey He Hin Hc) by (rewrite Ek; exact E).
  cbv zeta. fold n. change (full _) with (n =? cs_Length m). destruct (Z.eqb_spec n (cs_Length m)) as [En|En].
  - eexists _, p'. split; [|by eexists _, _]. unfold bs. rewrite En.
    destruct (Z.to_nat (cs_Length m / k)); [done|]. cbn [layout]. by rewrite Z.eqb_refl.
  - assert (n = k) as Enk by lia. eexists _, p'.
    rewrite (read_message_tail (Z.to_nat (cs_Length m / k)) fuel m (cs_timeDelta c) 0 1 n rest _ k); try done; try lia.
    + split; [cbv zeta; by rewrite reading_reading|by eexists _, _].
    + pose proof (Z.div_pos (cs_Length m) k). lia.
    + simpl. by rewrite lookup_insert_eq.
Qed.

(** ** Writing leaves what is read alone, also when it fails *)

Definition same_in (rw rw' : ReadWriter) : Prop :=
  rw_in rw' = rw_in rw /\ rw_inError rw' = rw_inError rw /\ rw_readError rw' = rw_readError rw.

#[global] Instance same_in_refl : Reflexive same_in.
Proof. done. Qed.
#[global] Instance same_in_trans : Transitive same_in.
Proof. intros x y z (? & ? & ?) (? & ? & ?). split_and!; congruence. Qed.

(** [m] does not panic, and of what matters changes no more than the writer. *)
Definition rw_writes (m : GoM ReadWriter unit) : Prop := forall rw,
  match m rw with (Panic _, _) => False | (_, rw') => same_in rw rw' end.
Definition same_message (c c' : ChunkStream) : Prop := cs_Data c' = cs_Data c /\ cs_Length c' = cs_Length c.
Definition io_writes (m : GoM ChunkIO unit) (s : ChunkIO) : Prop :=
  match m s with
  | (Panic _, _) => False
  | (_, s') => same_message (io_stream s) (io_stream s') /\ io_pool s' = io_pool s /\ same_in (io_rw s) (io_rw s')
  end.

Lemma rw_writes_bind m k : rw_writes m -> rw_writes k -> rw_writes (m;; k).
Proof.
  intros Hm Hk rw. specialize (Hm rw). unfold mbind, GoM_bind. destruct (m rw) as [[[]|e|p] rw1]; [|done|done].
  specialize (Hk rw1). destruct (k rw1) as [[[]|e|p] rw2]; [..|done]; by etrans.
Qed.

Lemma io_writes_bind m k s :
  io_writes m s -> (forall s', same_message (io_stream s) (io_stream s') -> io_writes k s') -> io_writes (m;; k) s.
Proof.
  intros Hm Hk. unfold io_writes in *. unfold mbind, GoM_bind. destruct (m s) as [[[]|e|p] s1]; [|done|done].
  destruct Hm as (H1 & H2 & H3). specialize (Hk s1 H1). destruct H1. destruct (k s1) as [[[]|e|p] s2]; [..|done];
    destruct Hk as ([] & ? & ?); split_and!; try (split; congruence); try congruence; by etrans.
Qed.

Lemma writes_check : rw_writes check_writeError.
Proof. intros rw. unfold check_writeError. run. by destruct (rw_writeError rw). Qed.

Lemma writes_bufio bs : rw_writes (bufio_Write bs).
Proof. intros rw. unfold bufio_Write. run. by destruct (rw_outError rw). Qed.

Lemma writes_keep bs : rw_writes (keep_writeError (bufio_Write bs)).
Proof. intros rw. unfold keep_writeError, bufio_Write. run. by destruct (rw_outError rw). Qed.

Lemma io_writes_rw m s : rw_writes m -> io_writes (on_rw m) s.
Proof. intros H. specialize (H (io_rw s)). unfold io_writes, on_rw. by destruct (m (io_rw s)) as [[[]|e|p] rw']. Qed.

Lemma io_writes_ignore m s : io_writes m s -> io_writes (ignore_error m) s.
Proof. unfold io_writes, ignore_error. by destruct (m s) as [[[]|e|p] s']. Qed.

Lemma io_writes_be v n s : io_writes (put_be v n) s.
Proof.
  apply io_writes_ignore, io_writes_rw, rw_writes_bind; [apply writes_check|]. induction n as [|n IH]; [done|].
  apply rw_writes_bind; [apply writes_keep|done].
Qed.

Lemma io_writes_le v n s : io_writes (put_le v n) s.
Proof.
  apply io_writes_ignore, io_writes_rw, rw_writes_bind; [apply writes_check|]. revert v. induction n as [|n IH]; intros v; [done|].
  apply rw_writes_bind; [apply writes_keep|apply IH].
Qed.

Lemma io_writes_ret s : io_writes (mret tt) s.
Proof. done. Qed.
Lemma io_writes_fail e s : io_writes (fail e) s.
Proof. done. Qed.
Lemma io_writes_set f s : same_message (io_stream s) (f (io_stream s)) -> io_writes (set_stream f) s.
Proof. done. Qed.
Lemma io_writes_get k s : io_writes (k (io_stream s)) s -> io_writes (get_stream ≫= k) s.
Proof. done. Qed.

Create HintDb io_writes.
#[export] Hint Resolve io_writes_be io_writes_le io_writes_ret io_writes_fail : io_writes.

Ltac io_steps :=
  repeat match goal with
  | |- io_writes (if ?b then _ else _) _ => destruct b
  | |- io_writes (_ ≫= _) _ => apply io_writes_bind; [|intros ? ?]
  end; auto with io_writes.

Lemma writeHeader_writes s : io_writes writeHeader s.
Proof.
  apply io_writes_get. cbv zeta. unfold write_basic_header, write_message_header. io_steps;
    apply io_writes_rw, writes_check.
Qed.

Lemma write_chunks_writes rounds k i off s :
  0 < k < 2 ^ 32 -> 0 <= i -> cs_Length (io_stream s) = zlen (cs_Data (io_stream s)) -> cs_Length (io_stream s) < 2 ^ 32 ->
  (off = i * k /\ off < cs_Length (io_stream s) \/ off = cs_Length (io_stream s)) ->
  io_writes (write_chunks rounds k i off) s.
Proof.
  intros Hk. revert i off s. induction rounds as [|rounds IH]; intros i off s Hi Hd Hl Ho; [done|].
  cbn [write_chunks]. apply io_writes_get. destruct (Z.eqb_spec off (cs_Length (io_stream s))) as [|Hne]; [done|].
  destruct Ho as [[-> Ho]|?]; [|done]. apply io_writes_bind; [by apply io_writes_set|intros s1 E1].
  apply io_writes_bind; [apply writeHeader_writes|intros s2 E2]. cbv zeta.
  rewrite (u32_small k), (u32_small (i * k)), (u32_small (zlen _)), (u32_small (zlen _ - _)) by nia.
  set (n := if _ <=? k then _ else k).
  assert (En : n = Z.min k (cs_Length (io_stream s) - i * k)).
  { subst n. destruct (Z.leb_spec (zlen (cs_Data (io_stream s)) - i * k) k); lia. }
  rewrite (u32_small (_ + n)) by lia. unfold slice_of.
  rewrite (proj2 (Z.leb_le _ _)), (proj2 (Z.leb_le (_ + n) _)) by lia. cbn [andb].
  set (buf := take _ _). unfold io_writes. rewrite (run_bind_ok _ _ s2 buf s2) by done.
  fold (io_writes (on_rw (rw_Write buf);; write_chunks rounds k (i + 1) (i * k + n)) s2).
  apply io_writes_bind; [apply io_writes_rw, rw_writes_bind; [apply writes_check|apply writes_bufio]|intros s3 E3].
  destruct E1 as [D1 L1], E2 as [D2 L2], E3 as [D3 L3].
  apply IH; try lia; try congruence.
Qed.

Lemma writeChunk_writes k s :
  0 < k < 2 ^ 32 -> cs_Length (io_stream s) = zlen (cs_Data (io_stream s)) -> cs_Length (io_stream s) < 2 ^ 32 ->
  io_writes (writeChunk k) s.
Proof.
  intros Hk Hd Hl. apply io_writes_get. apply io_writes_bind.
  { repeat case_match; try done; by apply io_writes_set. }
  intros s1 [D1 L1]. rewrite (u32_small k), (proj2 (Z.eqb_neq _ _)) by lia. cbv zeta.
  apply write_chunks_writes; try lia; try congruence. pose proof (zlen_nonneg (cs_Data (io_stream s))). lia.
Qed.

(** ** Acknowledgements and control messages *)

(** What [ack] and the writing of a message leave. *)
Record same_reader (conn conn' : Conn) : Prop := {
  sr_chunkSize : con_chunkSize conn' = con_chunkSize conn;
  sr_remote : con_remoteChunkSize conn' = con_remoteChunkSize conn;
  sr_pool : con_pool conn' = con_pool conn;
  sr_chunks : con_chunks conn' = con_chunks conn;
  sr_in : same_in (con_rw conn) (con_rw conn')
}.

Lemma initControlMsg_run id size value :
  4 <= size -> initControlMsg id size value =
    Ok (zeroChunkStream <| cs_CSID := 2 |> <| cs_TypeID := id |> <| cs_Length := size |>
          <| cs_Data := be_enc 4 value ++ replicate (Z.to_nat size - 4) 0 |>).
Proof.
  intros Hs. unfold initControlMsg. rewrite PutU32BE_bytes by (rewrite length_replicate; lia). by rewrite drop_replicate.
Qed.

Lemma ack_run size conn :
  0 < con_chunkSize conn < 2 ^ 32 -> exists conn', ack size conn = (Ok tt, conn') /\ same_reader conn conn'.
Proof.
  intros Hk. unfold ack. unfold mbind at 1, GoM_bind at 1, modifyS at 1.
  set (conn1 := conn <| con_received := _ |> <| con_ackReceived := _ |>).
  unfold mbind at 1, GoM_bind at 1, modifyS at 1.
  set (conn2 := if 0xf0000000 <=? con_received conn1 then conn1 <| con_received := 0 |> else conn1).
  assert (S2 : same_reader conn conn2) by (subst conn2; destruct (0xf0000000 <=? _); done).
  unfold mbind at 1, GoM_bind at 1, getS at 1.
  destruct (con_remoteWindowAckSize conn2 <=? con_ackReceived conn2); [|by exists conn2].
  unfold NewAck. rewrite initControlMsg_run by lia. set (c := zeroChunkStream <| cs_CSID := 2 |> <| cs_TypeID := _ |>
    <| cs_Length := _ |> <| cs_Data := _ |>). unfold mbind at 1, GoM_bind at 1, lift.
  pose proof (writeChunk_writes (con_chunkSize conn2) (mkChunkIO c (con_rw conn2) (con_pool conn2))
    ltac:(rewrite (sr_chunkSize _ _ S2); lia) eq_refl eq_refl) as Hw.
  unfold io_writes in Hw. unfold mbind, GoM_bind, ignore_error, on_stream.
  destruct (writeChunk _ _) as [[[]|e|p] s']; [| |done]; destruct Hw as (_ & Hp & Hin); destruct S2; simpl in *;
    (eexists; split; [done|]); (constructor; simpl; try done; [congruence|]); by etrans.
Qed.

(** The size of the chunks after a message. *)
Definition next_size (k : Z) (m : ChunkStream) : Z :=
  if cs_TypeID m =? idSetChunkSize then match BigEndian_Uint32 (cs_Data m) with Ok v => v | _ => 0 end else k.

(** A message that can be sent with chunks of [k] bytes. A new size is used for the message
    that announces it, which therefore has to be one chunk in both sizes. *)
Record writable_in (k : Z) (m : ChunkStream) : Prop := {
  wr_sendable : sendable m;
  wr_next : 0 < next_size k m < 2 ^ 32;
  wr_control : cs_TypeID m = idSetChunkSize \/ cs_TypeID m = idWindowAckSize -> 4 <= cs_Length m;
  wr_size : cs_TypeID m = idSetChunkSize -> cs_Length m <= k /\ cs_Length m <= next_size k m
}.

Lemma BigEndian_Uint32_ok b : 4 <= zlen b -> exists v, BigEndian_Uint32 b = Ok v.
Proof.
  destruct b as [|b0 [|b1 [|b2 [|b3 b]]]]; cbn; try (unfold zlen; simpl; lia). by eexists.
Qed.

Lemma layout_one k m : sendable m -> cs_Length m <= k -> message_layout k m = chunk_header m 0 ++ cs_Data m.
Proof.
  intros Hm Hk. pose proof (sd_length _ Hm). pose proof (sd_data _ Hm). unfold message_layout. cbn [layout].
  rewrite (proj2 (Z.eqb_neq _ _)) by lia. f_equal. rewrite Z.sub_0_r, Z.min_r, !Z.add_0_l by lia.
  change (drop (Z.to_nat 0) (cs_Data m)) with (cs_Data m).
  assert (E1 : take (Z.to_nat (cs_Length m)) (cs_Data m) = cs_Data m) by (rewrite H0; unfold zlen; by rewrite Nat2Z.id, firstn_all).
  assert (E2 : forall rounds, layout rounds k m 1 (cs_Length m) = []).
  { intros [|r]; [done|]. cbn [layout]. by rewrite Z.eqb_refl. }
  by rewrite E1, E2, app_nil_r.
Qed.

Lemma layout_length rounds k m i off :
  sendable m -> 0 < k -> 0 <= off <= cs_Length m -> off = i * k \/ off = cs_Length m ->
  Z.of_nat rounds + i = cs_Length m / k + 1 ->
  cs_Length m - off <= zlen (layout rounds k m i off).
Proof.
  intros Hm Hk. pose proof (sd_data _ Hm). revert i off. induction rounds as [|rounds IH]; intros i off Ho Hi Hr.
  { pose proof (Z.mul_succ_div_gt (cs_Length m) k ltac:(lia)). pose proof (zlen_nonneg (layout 0 k m i off)). nia. }
  cbn [layout]. destruct (Z.eqb_spec off (cs_Length m)) as [E|E]; [rewrite E; pose proof (zlen_nil (A:=Z)); lia|].
  destruct Hi as [-> |]; [|done]. set (n := Z.min k (cs_Length m - i * k)). rewrite !zlen_app.
  pose proof (zlen_nonneg (chunk_header m i)). specialize (IH (i + 1) (i * k + n) ltac:(lia) ltac:(lia) ltac:(lia)).
  assert (zlen (take (Z.to_nat n) (drop (Z.to_nat (i * k)) (cs_Data m))) = n); [|lia].
  unfold zlen in *. rewrite length_take, length_drop. lia.
Qed.

Lemma Conn_Write_exact k m w :
  quiet (con_rw w) -> con_chunkSize w = k -> writable_in k m ->
  exists c w', Conn_Write m w = (Ok c, w') /\
    w' = w <| con_chunkSize := next_size k m |>
           <| con_rw := (con_rw w) <| rw_buffered := rw_buffered (con_rw w) ++ message_layout (next_size k m) m |> |>.
Proof.
  intros Hq Ek [Hm Hn Hc Hs]. unfold Conn_Write.
  rewrite (run_bind_ok _ _ w tt (w <| con_chunkSize := next_size k m |>)).
  2: { unfold next_size. destruct (Z.eqb_spec (cs_TypeID m) idSetChunkSize) as [E|E]; [|subst k; by destruct w].
       pose proof (sd_data _ Hm). destruct (BigEndian_Uint32_ok (cs_Data m)) as [v Ev]; [specialize (Hc (or_introl E)); lia|].
       unfold mbind, GoM_bind, lift. by rewrite Ev. }
  set (w1 := w <| con_chunkSize := _ |>). unfold mbind at 1, GoM_bind at 1, getS.
  destruct (writeChunk_run (next_size k m) (mkChunkIO m (con_rw w1) (con_pool w1)) Hq Hm Hn) as [c E].
  unfold mbind, GoM_bind, on_stream. change (con_chunkSize w1) with (next_size k m). rewrite E.
  eexists _, _. by split.
Qed.

Lemma Conn_Write_run k m w :
  quiet (con_rw w) -> con_chunkSize w = k -> 0 < k < 2 ^ 32 -> writable_in k m ->
  exists c w', Conn_Write m w = (Ok c, w') /\ con_chunkSize w' = next_size k m /\ quiet (con_rw w') /\
    rw_sent (con_rw w') = rw_sent (con_rw w) /\
    rw_buffered (con_rw w') = rw_buffered (con_rw w) ++ message_layout (next_size k m) m.
Proof.
  intros Hq Ek Hk Hm. destruct (Conn_Write_exact k m w Hq Ek Hm) as (c & w' & E & ->). exists c. eexists. by split_and!.
Qed.

(** The message [m] as it is received. *)
Record same_content (m c : ChunkStream) : Prop := {
  sc_csid : cs_CSID c = route m;
  sc_timestamp : cs_Timestamp c = cs_Timestamp m;
  sc_length : cs_Length c = cs_Length m;
  sc_type : cs_TypeID c = cs_TypeID m;
  sc_stream : cs_StreamID c = cs_StreamID m;
  sc_data : cs_Data c = cs_Data m
}.

Lemma received_all m delta f : sendable m -> same_content m (received m delta f (cs_Length m) true).
Proof.
  intros Hm. constructor; try done. simpl. rewrite Z.sub_diag, app_nil_r, (sd_data _ Hm).
  unfold zlen. by rewrite Nat2Z.id, firstn_all.
Qed.

(** No message is half read. *)
Definition idle (conn : Conn) : Prop := map_Forall (fun _ c => cs_remain c = 0) (con_chunks conn).

Record listening (k : Z) (conn : Conn) : Prop := {
  li_remote : con_remoteChunkSize conn = k;
  li_size : 0 < con_chunkSize conn < 2 ^ 32;
  li_error : rw_readError (con_rw conn) = None;
  li_idle : idle conn
}.

Lemma handleControlMsg_run k m c conn :
  writable_in k m -> same_content m c -> con_remoteChunkSize conn = k ->
  exists conn', handleControlMsg c conn = (Ok tt, conn') /\ con_remoteChunkSize conn' = next_size k m /\
    con_chunkSize conn' = con_chunkSize conn /\ con_rw conn' = con_rw conn /\ con_chunks conn' = con_chunks conn.
Proof.
  intros [Hm Hn Hc Hs] [_ _ El Ety _ Ed] Ek. pose proof (sd_data _ Hm). unfold handleControlMsg, next_size. rewrite Ety.
  destruct (Z.eqb_spec (cs_TypeID m) idSetChunkSize) as [E|E].
  { destruct (BigEndian_Uint32_ok (cs_Data m)) as [v Ev]; [specialize (Hc (or_introl E)); lia|].
    unfold mbind, GoM_bind, lift. rewrite Ed, Ev. by eexists. }
  destruct (Z.eqb_spec (cs_TypeID m) idWindowAckSize) as [E'|E'].
  { destruct (BigEndian_Uint32_ok (cs_Data m)) as [v Ev]; [specialize (Hc (or_intror E')); lia|].
    unfold mbind, GoM_bind, lift. rewrite Ed, Ev. by eexists. }
  by exists conn.
Qed.

(** A message arrives and is handled. *)
Lemma Conn_Read_message k m r rest :
  con_remoteChunkSize r = k -> rw_readError (con_rw r) = None -> idle r -> 0 < k < 2 ^ 32 -> writable_in k m ->
  rw_in (con_rw r) = message_layout (next_size k m) m ++ rest ->
  exists c pool, Conn_Read r = (handleControlMsg c;; ack (cs_Length c);; mret c) (reading r (csid_key (route m)) c rest pool) /\
    same_content m c /\ cs_remain c = 0.
Proof.
  intros Ek He Hidle Hk [Hm Hn Hc Hs] Hin. pose proof (sd_length _ Hm).
  assert (El : message_layout (next_size k m) m = message_layout k m).
  { unfold next_size in *. destruct (Z.eqb_spec (cs_TypeID m) idSetChunkSize) as [E|E]; [|done].
    destruct (Hs E). by rewrite !layout_one. }
  rewrite El in Hin. unfold Conn_Read. unfold mbind at 1, GoM_bind at 1, getS.
  destruct (read_message_run k m _ r rest (S (length (rw_in (con_rw r)))) Hm Ek Hk He Hin eq_refl) as (c & pool & E & delta & f & Ec).
  { destruct (con_chunks r !! _) eqn:El'; [|done]. exact (Hidle _ _ El'). }
  { pose proof (layout_length (S (Z.to_nat (cs_Length m / k))) k m 0 0 Hm ltac:(lia) ltac:(lia) ltac:(lia)) as Hl.
    pose proof (Z.div_pos (cs_Length m) k ltac:(lia) ltac:(lia)). specialize (Hl ltac:(lia)).
    assert (cs_Length m / k <= cs_Length m) by (apply Z.div_le_upper_bound; nia).
    fold (message_layout k m) in Hl. rewrite Hin, length_app. unfold zlen in Hl. lia. }
  exists c, pool. rewrite (run_bind_ok _ _ _ _ _ E). pose proof (received_all m delta f Hm) as Hsc. rewrite <- Ec in Hsc.
  split_and!; [done|done|]. rewrite Ec. simpl. lia.
Qed.

Lemma idle_reading r key c rest pool : idle r -> cs_remain c = 0 -> idle (reading r key c rest pool).
Proof. intros Hi Hc. unfold idle. simpl. by apply map_Forall_insert_2. Qed.

Lemma Conn_Read_run k m r rest :
  listening k r -> 0 < k < 2 ^ 32 -> writable_in k m -> rw_in (con_rw r) = message_layout (next_size k m) m ++ rest ->
  exists c r', Conn_Read r = (Ok c, r') /\ same_content m c /\ listening (next_size k m) r' /\ rw_in (con_rw r') = rest.
Proof.
  intros [Ek Hcs He Hidle] Hk Hw Hin.
  destruct (Conn_Read_message k m r rest Ek He Hidle Hk Hw Hin) as (c & pool & E & Hsc & Hrem). rewrite E.
  pose proof (idle_reading r (csid_key (route m)) c rest pool Hidle Hrem) as Hidle1.
  set (r1 := reading r (csid_key (route m)) c rest pool) in *.
  destruct (handleControlMsg_run k m c r1 Hw Hsc Ek) as (r2 & E2 & Er2 & Es2 & Erw & Ech).
  rewrite (run_bind_ok _ _ _ _ _ E2). destruct (ack_run (cs_Length c) r2) as (r3 & E3 & S3); [by rewrite Es2|].
  rewrite (run_bind_ok _ _ _ _ _ E3). destruct S3 as [S1 S2 S3 S4 (S5 & S6 & S7)]. exists c, r3.
  rewrite Erw in S5, S7. rewrite Ech in S4. rewrite Es2 in S1. split_and!; try done. constructor.
  - congruence.
  - rewrite S1. done.
  - rewrite S7. done.
  - unfold idle. by rewrite S4.
Qed.

Fixpoint all_writable (k : Z) (ms : list ChunkStream) : Prop :=
  match ms with
  | [] => True
  | m :: ms => writable_in k m /\ all_writable (next_size k m) ms
  end.

(** What the messages [ms] are on the wire. *)
Fixpoint stream_layout (k : Z) (ms : list ChunkStream) : list Z :=
  match ms with
  | [] => []
  | m :: ms => message_layout (next_size k m) m ++ stream_layout (next_size k m) ms
  end.

Lemma writes_run ms k w :
  quiet (con_rw w) -> con_chunkSize w = k -> 0 < k < 2 ^ 32 -> all_writable k ms ->
  exists cs w', mapM Conn_Write ms w = (Ok cs, w') /\ quiet (con_rw w') /\ con_chunkSize w' = foldl next_size k ms /\
    rw_sent (con_rw w') = rw_sent (con_rw w) /\ rw_buffered (con_rw w') = rw_buffered (con_rw w) ++ stream_layout k ms.
Proof.
  revert k w. induction ms as [|m ms IH]; intros k w Hq Ek Hk Hms; simpl.
  { exists [], w. rewrite app_nil_r. by split_and!. }
  destruct Hms as [Hm Hms]. destruct (Conn_Write_run k m w Hq Ek Hk Hm) as (c & w1 & E & Es & Hq1 & Hsent & Hbuf).
  destruct (IH (next_size k m) w1 Hq1 Es (wr_next _ _ Hm) Hms) as (cs & w2 & E2 & Hq2 & Es2 & Hsent2 & Hbuf2).
  exists (c :: cs), w2. rewrite (run_bind_ok _ _ _ _ _ E), (run_bind_ok _ _ _ _ _ E2).
  split_and!; try done; [by rewrite Hsent2|by rewrite Hbuf2, Hbuf, <- app_assoc].
Qed.

Lemma reads_run ms k r rest :
  listening k r -> 0 < k < 2 ^ 32 -> all_writable k ms -> rw_in (con_rw r) = stream_layout k ms ++ rest ->
  exists cs r', mapM (fun _ => Conn_Read) ms r = (Ok cs, r') /\ Forall2 same_content ms cs /\
    listening (foldl next_size k ms) r' /\ rw_in (con_rw r') = rest.
Proof.
  revert k r. induction ms as [|m ms IH]; intros k r Hr Hk Hms Hin; simpl.
  { exists [], r. by split_and!. }
  destruct Hms as [Hm Hms]. simpl in Hin. rewrite <- app_assoc in Hin.
  destruct (Conn_Read_run k m r _ Hr Hk Hm Hin) as (c & r1 & E & Hc & Hr1 & Hin1).
  destruct (IH (next_size k m) r1 Hr1 (wr_next _ _ Hm) Hms Hin1) as (cs & r2 & E2 & Hcs & Hr2 & Hin2).
  exists (c :: cs), r2. rewrite (run_bind_ok _ _ _ _ _ E), (run_bind_ok _ _ _ _ _ E2). split_and!; try done. by constructor.
Qed.

(** C16: The messages that one side writes and flushes, the other reads: all of them, in
    order, with their data, types, timestamps and streams, whatever their number and the
    sizes of chunks announced in between, and with acknowledgements sent whenever they are
    due. Afterwards both sides agree on the size of chunks, nothing is half read and what
    follows is untouched. It holds for messages of 1 byte up to the size of a pool, on
    chunk streams 2 to 65599, on connections without an error; messages that announce a
    size of chunks or of the window have at least 4 bytes, and one that announces a size
    of chunks fits in one chunk of the old and of the new size, which is below 2^32. *)
Theorem messages_delivered ms k w :
  quiet (con_rw w) -> rw_buffered (con_rw w) = [] -> con_chunkSize w = k -> 0 < k < 2 ^ 32 -> all_writable k ms ->
  exists cs w' out, (cs ← mapM Conn_Write ms; Conn_Flush;; mret cs) w = (Ok cs, w') /\
    rw_sent (con_rw w') = rw_sent (con_rw w) ++ out /\
    forall r rest, listening k r -> rw_in (con_rw r) = out ++ rest ->
      exists cs' r', mapM (fun _ => Conn_Read) ms r = (Ok cs', r') /\ Forall2 same_content ms cs' /\
        listening (con_chunkSize w') r' /\ rw_in (con_rw r') = rest.
Proof.
  intros Hq Hb Ek Hk Hms. destruct (writes_run ms k w Hq Ek Hk Hms) as (cs & w1 & E & Hq1 & Es & Hsent & Hbuf).
  rewrite Hb in Hbuf. simpl in Hbuf.
  assert (Ef : exists w', Conn_Flush w1 = (Ok tt, w') /\ con_chunkSize w' = con_chunkSize w1 /\
    rw_sent (con_rw w') = rw_sent (con_rw w) ++ stream_layout k ms).
  { unfold Conn_Flush, on_conn_rw, rw_Flush, check_writeError. destruct Hq1 as [Hq1 Hq2]. run. rewrite Hq1. simpl. rewrite Hbuf.
    destruct (Z.eqb_spec (zlen (stream_layout k ms)) 0) as [E0|E0].
    - eexists. split_and!; [done|done|]. simpl. destruct (stream_layout k ms); [by rewrite app_nil_r|unfold zlen in E0; simpl in E0; lia].
    - rewrite Hq2. eexists. split_and!; [done|done|]. simpl. by rewrite Hsent. }
  destruct Ef as (w' & Ef & Ew & Hout). exists cs, w', (stream_layout k ms).
  rewrite (run_bind_ok _ _ _ _ _ E), (run_bind_ok _ _ _ _ _ Ef). split_and!; try done.
  intros r rest Hr Hin. rewrite Ew, Es. by apply reads_run.
Qed.

(** ** Reading ends for all bytes *)

(** The input shrinks and an error stays. *)
Record shrinks (rw rw' : ReadWriter) : Prop := {
  sh_bytes : bytes_ok (rw_in rw');
  sh_length : (length (rw_in rw') <= length (rw_in rw))%nat;
  sh_error : rw_readError rw <> None -> rw_readError rw' <> None
}.

Lemma shrinks_refl rw : bytes_ok (rw_in rw) -> shrinks rw rw.
Proof. done. Qed.

Lemma shrinks_trans rw1 rw2 rw3 : shrinks rw1 rw2 -> shrinks rw2 rw3 -> shrinks rw1 rw3.
Proof. intros [] []. constructor; [done|lia|auto]. Qed.

(** The loops read fewer bytes or remember an error. *)
Lemma ReadUintBE_loop_shrinks n ret rw :
  bytes_ok (rw_in rw) -> 0 <= ret ->
  match ReadUintBE_loop n ret rw with
  | (Ok v, rw') => 0 <= v < (ret + 1) * 256 ^ Z.of_nat n /\ shrinks rw rw'
  | (Err _, rw') => shrinks rw rw' /\ rw_readError rw' <> None
  | (Panic _, _) => False
  end.
Proof.
  revert ret rw. induction n as [|n IH]; intros ret rw Hb Hr; cbn [ReadUintBE_loop].
  { split; [simpl; lia|by apply shrinks_refl]. }
  unfold mbind, GoM_bind, keep_readError, bufio_ReadByte. run. destruct (rw_in rw) as [|b input] eqn:E; cbn.
  { split; [|done]. constructor; simpl; rewrite ?E; done. }
  apply Forall_cons in Hb as [Hb Hb']. unfold byte_ok in Hb.
  set (ret1 := u32 (u32 (Z.shiftl ret 8) + b)).
  assert (Hr1 : 0 <= ret1 <= ret * 256 + 255) by (subst ret1; rewrite Z.shiftl_mul_pow2 by lia; change (2 ^ 8) with 256; glia).
  specialize (IH ret1 (rw <| rw_in := input |>) Hb' ltac:(lia)).
  assert (S1 : shrinks rw (rw <| rw_in := input |>)) by (constructor; simpl; [done|rewrite E; simpl; lia|done]).
  destruct (ReadUintBE_loop n ret1 _) as [[v|e|p] rw']; [..|done].
  - destruct IH as [IH1 IH2]. split; [|by eapply shrinks_trans]. rewrite Nat2Z.inj_succ, Z.pow_succ_r by lia.
    pose proof (Z.pow_pos_nonneg 256 (Z.of_nat n)). nia.
  - destruct IH. split; [by eapply shrinks_trans|done].
Qed.

Lemma ReadUintLE_loop_shrinks n i ret rw :
  bytes_ok (rw_in rw) ->
  match ReadUintLE_loop n i ret rw with
  | (Panic _, _) => False
  | (_, rw') => shrinks rw rw'
  end.
Proof.
  revert i ret rw. induction n as [|n IH]; intros i ret rw Hb; cbn [ReadUintLE_loop]; [by apply shrinks_refl|].
  unfold mbind, GoM_bind, keep_readError, bufio_ReadByte. run. destruct (rw_in rw) as [|b input] eqn:E; cbn.
  { constructor; simpl; rewrite ?E; done. }
  apply Forall_cons in Hb as [Hb Hb'].
  assert (S1 : shrinks rw (rw <| rw_in := input |>)) by (constructor; simpl; [done|rewrite E; simpl; lia|done]).
  specialize (IH (i + 1) (u32 (ret + u32 (Z.shiftl b (i * 8)))) (rw <| rw_in := input |>) Hb').
  destruct (ReadUintLE_loop n _ _ _) as [[v|e|p] rw']; [..|done]; by eapply shrinks_trans.
Qed.

(** A state that a reader can be in, and the next. *)
Definition io_reads {A} (m : GoM ChunkIO A) (s : ChunkIO) (P : A -> ChunkStream -> Prop) : Prop :=
  match m s with
  | (Ok a, s') => P a (io_stream s') /\ shrinks (io_rw s) (io_rw s')
  | (Err _, _) => True
  | (Panic p, _) => p = "slice bounds out of range"
  end.

Lemma io_reads_bind {A B} (m : GoM ChunkIO A) (k : A -> GoM ChunkIO B) s P Q :
  io_reads m s P -> (forall a s', P a (io_stream s') -> bytes_ok (rw_in (io_rw s')) -> io_reads (k a) s' Q) ->
  io_reads (m ≫= k) s Q.
Proof.
  intros Hm Hk. unfold io_reads in *. unfold mbind, GoM_bind. destruct (m s) as [[a|e|p] s1]; [|done..].
  destruct Hm as [HP Hs]. specialize (Hk a s1 HP (sh_bytes _ _ Hs)).
  destruct (k a s1) as [[b|e|p] s2]; [|done..]. destruct Hk. split; [done|by eapply shrinks_trans].
Qed.

Lemma get_be_reads n s :
  bytes_ok (rw_in (io_rw s)) -> io_reads (get_be n) s (fun v c => 0 <= v < 256 ^ Z.of_nat n /\ c = io_stream s).
Proof.
  intros Hb. unfold io_reads, get_be, or_zero, on_rw, ReadUintBE, check_readError. run.
  pose proof (Z.pow_pos_nonneg 256 (Z.of_nat n)).
  destruct (rw_readError (io_rw s)) eqn:E; cbn. { split; [split; [lia|done]|by apply shrinks_refl]. }
  pose proof (ReadUintBE_loop_shrinks n 0 (io_rw s) Hb ltac:(lia)) as Hl.
  destruct (ReadUintBE_loop n 0 _) as [[v|e|p] rw']; [..|done]; cbn; destruct Hl; (split; [split; [lia|done]|done]).
Qed.

Lemma get_le_reads n s : bytes_ok (rw_in (io_rw s)) -> io_reads (get_le n) s (fun _ c => c = io_stream s).
Proof.
  intros Hb. unfold io_reads, get_le, or_zero, on_rw, ReadUintLE, check_readError. run.
  destruct (rw_readError (io_rw s)) eqn:E; cbn. { split; [done|by apply shrinks_refl]. }
  pose proof (ReadUintLE_loop_shrinks n 0 0 (io_rw s) Hb) as Hl.
  destruct (ReadUintLE_loop n 0 0 _) as [[v|e|p] rw']; [..|done]; done.
Qed.

Lemma io_reads_set f s (P : unit -> ChunkStream -> Prop) :
  bytes_ok (rw_in (io_rw s)) -> P tt (f (io_stream s)) -> io_reads (set_stream f) s P.
Proof. intros Hb HP. split; [done|by apply shrinks_refl]. Qed.

Lemma io_reads_ret {A} (a : A) s (P : A -> ChunkStream -> Prop) :
  bytes_ok (rw_in (io_rw s)) -> P a (io_stream s) -> io_reads (mret a) s P.
Proof. intros Hb HP. split; [done|by apply shrinks_refl]. Qed.

Lemma io_reads_get {A} (k : ChunkStream -> GoM ChunkIO A) s P :
  io_reads (k (io_stream s)) s P -> io_reads (get_stream ≫= k) s P.
Proof. done. Qed.

(** The length of a message has three bytes; a stream has read [cs_index] bytes of it. *)
Definition sized (c : ChunkStream) : Prop := 0 <= cs_Length c < 2 ^ 24.
Record stream_ok (c : ChunkStream) : Prop := {
  so_length : sized c;
  so_data : zlen (cs_Data c) = cs_Length c;
  so_index : 0 <= cs_index c;
  so_remain : 0 <= cs_remain c;
  so_sum : cs_index c + cs_remain c = cs_Length c;
  so_bytes : bytes_ok (cs_Data c);
  so_got : cs_got c = true -> cs_remain c = 0
}.

(** One statement of a function that keeps the length in its bounds. *)
Ltac read_step :=
  match goal with
  | |- io_reads (get_be _ ≫= _) _ _ => eapply io_reads_bind; [by apply get_be_reads|simpl; intros ? ? [? ?] ?]
  | |- io_reads (get_le _ ≫= _) _ _ => eapply io_reads_bind; [by apply get_le_reads|simpl; intros ? ? ? ?]
  | |- io_reads (set_stream _ ≫= _) _ _ =>
      eapply (io_reads_bind _ _ _ (fun _ c => sized c));
      [apply io_reads_set; [done|]; try congruence; unfold sized in *; simpl in *; subst; simpl in *; try congruence; try lia
      |intros [] ? ? ?]
  end.

Lemma Get_total size p :
  (exists a p', Get size p = (Ok a, p') /\ sl_to a - sl_from a = size) \/
  exists p', Get size p = (Panic "slice bounds out of range", p').
Proof.
  unfold Get. run. set (q := if _ <? size then _ else _). destruct (maxpoolsize <? pool_pos q + size); [right|left].
  - by eexists.
  - eexists _, _. split; [done|simpl; lia].
Qed.

Lemma cs_new_reads s : bytes_ok (rw_in (io_rw s)) -> sized (io_stream s) -> io_reads cs_new s (fun _ c => stream_ok c).
Proof.
  intros Hb Hs. unfold io_reads, cs_new. destruct s as [c rw p]. rewrite run_set, run_get. simpl in *. unfold sized in *.
  destruct (Get_total (cs_Length c) p) as [(a & p' & E & Ea)|[p' E]]; unfold mbind, GoM_bind, on_pool; simpl; rewrite E; [|done].
  simpl. split; [|by apply shrinks_refl]. constructor; simpl; [done| |lia..| |done].
  - unfold zlen. rewrite length_replicate, Ea. lia.
  - by apply Forall_replicate.
Qed.

Lemma read_extended_reads ts s :
  bytes_ok (rw_in (io_rw s)) -> sized (io_stream s) -> io_reads (read_extended ts) s (fun _ c => sized c).
Proof.
  intros Hb Hs. unfold read_extended. case_match; repeat read_step; by apply io_reads_ret.
Qed.

Lemma read_csid_reads s :
  bytes_ok (rw_in (io_rw s)) -> stream_ok (io_stream s) -> io_reads read_csid s (fun _ c => stream_ok c).
Proof.
  intros Hb Hs. unfold read_csid. apply io_reads_get.
  destruct (cs_CSID (io_stream s) =? 0); [|destruct (cs_CSID (io_stream s) =? 1); [|by apply io_reads_ret]];
    read_step; (apply io_reads_set; [done|]); match goal with E : io_stream _ = _ |- _ => rewrite E end; by destruct Hs.
Qed.

Lemma read_format0_reads s :
  bytes_ok (rw_in (io_rw s)) -> sized (io_stream s) -> io_reads read_format0 s (fun _ c => stream_ok c).
Proof.
  intros Hb Hs. unfold read_format0. repeat read_step.
  eapply io_reads_bind; [by apply read_extended_reads|simpl; intros ? ? ? ?]. read_step. by apply cs_new_reads.
Qed.

Lemma read_format1_reads s :
  bytes_ok (rw_in (io_rw s)) -> sized (io_stream s) -> io_reads read_format1 s (fun _ c => stream_ok c).
Proof.
  intros Hb Hs. unfold read_format1, add_timestamp. repeat read_step.
  eapply io_reads_bind; [by apply read_extended_reads|simpl; intros ? ? ? ?]. repeat read_step. by apply cs_new_reads.
Qed.

Lemma read_format2_reads s :
  bytes_ok (rw_in (io_rw s)) -> sized (io_stream s) -> io_reads read_format2 s (fun _ c => stream_ok c).
Proof.
  intros Hb Hs. unfold read_format2, add_timestamp. repeat read_step.
  eapply io_reads_bind; [apply read_extended_reads; congruence|simpl; intros ? ? ? ?]. repeat read_step. by apply cs_new_reads.
Qed.

Lemma Peek_reads s :
  bytes_ok (rw_in (io_rw s)) -> io_reads (on_rw (Peek 4)) s (fun b c => zlen b = 4 /\ c = io_stream s).
Proof.
  intros Hb. unfold io_reads, on_rw, Peek. run. destruct (Z.leb_spec 4 (zlen (rw_in (io_rw s)))); simpl; [|done].
  split; [|by apply shrinks_refl]. split; [|done]. unfold zlen in *. rewrite length_take. lia.
Qed.

Lemma read_format3_reads s :
  bytes_ok (rw_in (io_rw s)) -> stream_ok (io_stream s) -> io_reads read_format3 s (fun _ c => stream_ok c).
Proof.
  intros Hb Hs. pose proof (so_length _ Hs). unfold read_format3, add_timestamp. apply io_reads_get.
  destruct (cs_remain (io_stream s) =? 0).
  - eapply (io_reads_bind _ _ _ (fun _ c => sized c)); [|by intros; apply cs_new_reads].
    destruct (cs_Format (io_stream s) =? 0); [destruct (cs_exted (io_stream s)); [|by apply io_reads_ret]|].
    { read_step. apply io_reads_set; [done|unfold sized in *; simpl; congruence]. }
    destruct ((_ =? 1) || _); [|by apply io_reads_ret].
    eapply (io_reads_bind _ _ _ (fun _ c => sized c)); [|intros; by apply io_reads_set].
    destruct (cs_exted (io_stream s)); [|by apply io_reads_ret]. pose proof (get_be_reads 4 s Hb) as Hg.
    unfold io_reads in *. destruct (get_be 4 s) as [[v|e|p] s']; [|done..]. destruct Hg as [[_ ->] ?]. done.
  - destruct (cs_exted (io_stream s)); [|by apply io_reads_ret].
    eapply io_reads_bind; [by apply Peek_reads|]. simpl. intros b s1 [Hl E1] Hb1.
    destruct (BigEndian_Uint32_ok b) as [v Ev]; [lia|]. unfold io_reads, mbind, GoM_bind, lift. rewrite Ev.
    fold (io_reads (if v =? cs_Timestamp (io_stream s) then on_rw (Discard 4) else mret tt) s1 (fun _ c => stream_ok c)).
    destruct (v =? cs_Timestamp (io_stream s)); [|apply io_reads_ret; [done|by rewrite E1]].
    split; [simpl; by rewrite E1|]. constructor; simpl; [by apply Forall_drop|rewrite length_drop; lia|done].
Qed.

Lemma rw_Read_reads n s :
  0 <= n -> bytes_ok (rw_in (io_rw s)) ->
  (exists bs rw', on_rw (rw_Read n) s = (Ok bs, s <| io_rw := rw' |>) /\ zlen bs = n /\ bytes_ok bs /\ shrinks (io_rw s) rw' /\
     rw_readError (io_rw s) = None /\ rw_readError rw' = None) \/
  exists e s', on_rw (rw_Read n) s = (Err e, s').
Proof.
  intros Hn Hb. unfold on_rw, rw_Read, check_readError, keep_readError, ReadAtLeast. run.
  destruct (rw_readError (io_rw s)) eqn:E; cbn; [right; by eexists _, _|].
  destruct (Z.leb_spec n (zlen (rw_in (io_rw s)))); cbn; [left|right; by eexists _, _].
  eexists _, _. split; [done|].
  split_and!; [|by apply Forall_take|constructor; simpl; [by apply Forall_drop|rewrite length_drop; lia|congruence]|done|done].
  unfold zlen in *. rewrite length_take. lia.
Qed.

(** The bytes of a chunk: the slice is inside of the data. *)
Lemma read_payload_reads k s :
  0 <= k -> bytes_ok (rw_in (io_rw s)) -> stream_ok (io_stream s) ->
  (exists e s', read_payload k s = (Err e, s')) \/
  (exists s', read_payload k s = (Ok tt, s') /\ stream_ok (io_stream s') /\ shrinks (io_rw s) (io_rw s') /\
     rw_readError (io_rw s) = None).
Proof.
  intros Hk Hb [Hl Hd Hi Hr Hs Hby Hg]. unfold sized in *. unfold read_payload. rewrite run_get.
  set (size := if k <? cs_remain (io_stream s) then k else cs_remain (io_stream s)).
  assert (Hsz : 0 <= size <= cs_remain (io_stream s)) by (subst size; destruct (Z.ltb_spec k (cs_remain (io_stream s))); lia).
  rewrite u32_small by lia. unfold slice_of.
  rewrite (proj2 (Z.leb_le _ _)), (proj2 (Z.leb_le (_ + size) _)) by lia. cbn [andb].
  set (buf := take _ _). rewrite (run_bind_ok _ _ s buf s) by done.
  destruct (rw_Read_reads size s ltac:(lia) Hb) as [(bs & rw' & E & Hbs & Hbs' & Hsh & He & He')|(e & s' & E)].
  2: { left. exists e, s'. by apply run_bind_err. }
  right. rewrite (run_bind_ok _ _ _ _ _ E), run_set, run_get. cbn [io_stream io_rw io_pool assign].
  set (c := assign cs_remain _ _).
  assert (Hc : stream_ok c).
  { constructor; unfold c; simpl; unfold sized; simpl; rewrite ?u32_small by lia; try lia.
    - unfold copy_at, zlen in *. rewrite !length_app, length_take, length_drop. lia.
    - unfold copy_at, bytes_ok. rewrite !Forall_app. split_and!; [by apply Forall_take|done|by apply Forall_drop].
    - intros G. specialize (Hg G). lia. }
  set (s1 := mkChunkIO (if cs_remain c =? 0 then c <| cs_got := true |> else c) rw' (io_pool s)).
  rewrite (run_bind_ok _ _ _ tt s1) by (unfold s1; by destruct (cs_remain c =? 0)). exists s1. split_and!; try done.
  - unfold on_rw, check_readError. run. simpl. rewrite He'. by destruct rw'.
  - unfold s1. cbn [io_stream]. clearbody c. destruct (Z.eqb_spec (cs_remain c) 0); [|exact Hc]. destruct Hc. by constructor.
Qed.

Lemma readChunk_reads k s :
  0 <= k -> bytes_ok (rw_in (io_rw s)) -> stream_ok (io_stream s) -> 0 <= cs_tmpFromat (io_stream s) < 4 ->
  match readChunk k s with
  | (Ok _, s') => stream_ok (io_stream s') /\ shrinks (io_rw s) (io_rw s') /\ rw_readError (io_rw s) = None
  | (Err _, _) => True
  | (Panic p, _) => p = "slice bounds out of range"
  end.
Proof.
  intros Hk Hb Hs Hf. unfold readChunk. rewrite run_get.
  destruct (negb _ && negb _); [done|].
  set (formats := if _ =? 0 then read_format0 else _).
  assert (Hpre : io_reads (read_csid;; formats) s (fun _ c => stream_ok c)).
  { eapply io_reads_bind; [by apply read_csid_reads|]. simpl. intros _ s1 Hs1 Hb1. unfold formats.
    pose proof (so_length _ Hs1). repeat case_match; auto using read_format0_reads, read_format1_reads, read_format2_reads, read_format3_reads.
    done. }
  unfold io_reads in Hpre.
  replace ((read_csid;; formats;; read_payload k) s) with (((read_csid;; formats);; read_payload k) s)
    by (unfold mbind, GoM_bind; destruct (read_csid s) as [[[]|?|?] ?]; done).
  destruct ((read_csid;; formats) s) as [[[]|e|p] s1] eqn:E.
  - rewrite (run_bind_ok _ _ _ _ _ E). destruct Hpre as [Hs1 Hsh].
    destruct (read_payload_reads k s1 Hk (sh_bytes _ _ Hsh) Hs1) as [(e & s2 & ->)|(s2 & -> & Hs2 & Hsh2 & He)]; [done|].
    split_and!; [done|by eapply shrinks_trans|]. destruct (rw_readError (io_rw s)) eqn:Er; [|done].
    destruct (sh_error _ _ Hsh); congruence.
  - by rewrite (run_bind_err _ _ _ _ _ E).
  - by rewrite (run_bind_panic _ _ _ _ _ E).
Qed.

Record conn_ok (conn : Conn) : Prop := {
  co_streams : map_Forall (fun _ c => stream_ok c) (con_chunks conn);
  co_size : 0 < con_chunkSize conn < 2 ^ 32;
  co_remote : 0 <= con_remoteChunkSize conn;
  co_bytes : bytes_ok (rw_in (con_rw conn))
}.

Lemma zero_stream_ok : stream_ok zeroChunkStream.
Proof. constructor; try done; by constructor. Qed.

(** A round of the loop, whatever arrives. *)
Lemma read_header conn :
  bytes_ok (rw_in (con_rw conn)) -> 
  exists h rw, or_zero (on_conn_rw (ReadUintBE 1)) conn = (Ok h, conn <| con_rw := rw |>) /\ 0 <= h < 256 /\
    bytes_ok (rw_in rw) /\ (rw_readError rw = None -> (length (rw_in rw) < length (rw_in (con_rw conn)))%nat).
Proof.
  intros Hb. unfold or_zero, on_conn_rw, ReadUintBE, check_readError. run.
  destruct (rw_readError (con_rw conn)) eqn:E; cbn.
  { eexists 0, (con_rw conn). split_and!; try done; congruence. }
  unfold mbind, GoM_bind, keep_readError, bufio_ReadByte. run.
  destruct (rw_in (con_rw conn)) as [|b input] eqn:Ein; cbn.
  { eexists 0, _. split; [reflexivity|]. simpl. rewrite Ein. split_and!; done. }
  apply Forall_cons in Hb as [Hb Hb']. unfold byte_ok in Hb. eexists b, _. split.
  { change (u32 (Z.shiftl 0 8)) with 0. rewrite Z.add_0_l, u32_small by lia. reflexivity. }
  split_and!; try done; simpl; lia.
Qed.

Definition reading_result (n : nat) (r : outcome ChunkStream * Conn) : Prop :=
  match r with
  | (Ok c, conn') => stream_ok c /\ cs_remain c = 0 /\ conn_ok conn' /\ (length (rw_in (con_rw conn')) < n)%nat
  | (Err _, _) => True
  | (Panic p, _) => p = "slice bounds out of range" \/ p = "index out of range"
  end.

Lemma read_message_ends fuel conn :
  conn_ok conn -> (length (rw_in (con_rw conn)) < fuel)%nat ->
  reading_result (length (rw_in (con_rw conn))) (read_message fuel conn).
Proof.
  revert conn. induction fuel as [|fuel IH]; intros conn [Hst Hsz Hrem Hb] Hf; [lia|]. cbn [read_message].
  destruct (read_header conn Hb) as (h & rw & E & Hh & Hb1 & Hlt). rewrite (run_bind_ok _ _ _ _ _ E).
  set (conn1 := conn <| con_rw := rw |>). rewrite (run_bind_ok _ _ conn1 conn1 conn1) by done.
  set (csid := Z.land h 0x3f). set (format := Z.shiftr h 6).
  assert (Hformat : 0 <= format < 4).
  { unfold format. rewrite Z.shiftr_div_pow2 by lia. change (2 ^ 6) with 64. Z.to_euclidean_division_equations; lia. }
  set (cs := default zeroChunkStream (con_chunks conn !! csid)).
  set (conn2 := conn1 <| con_chunks := match con_chunks conn !! csid with Some _ => con_chunks conn
                                       | None => <[csid := zeroChunkStream]> (con_chunks conn) end |>).
  rewrite (run_bind_ok _ _ conn1 cs conn2).
  2: { unfold conn2, cs. change (con_chunks conn1) with (con_chunks conn).
       destruct (con_chunks conn !! csid); [by unfold conn1; destruct conn|done]. }
  assert (Hcs : stream_ok cs).
  { unfold cs. destruct (con_chunks conn !! csid) eqn:El; [exact (Hst _ _ El)|apply zero_stream_ok]. }
  set (c0 := cs <| cs_tmpFromat := format |> <| cs_CSID := csid |>).
  assert (Hc0 : stream_ok c0) by (destruct Hcs; by constructor).
  assert (Hst2 : map_Forall (fun _ c => stream_ok c) (con_chunks conn2)).
  { unfold conn2. simpl. destruct (con_chunks conn !! csid); [done|]. apply map_Forall_insert_2; [apply zero_stream_ok|done]. }
  pose proof (readChunk_reads (con_remoteChunkSize conn1) (mkChunkIO c0 rw (con_pool conn2)) Hrem Hb1 Hc0 Hformat) as Hread.
  unfold mbind at 1, GoM_bind at 1, on_stream. change (con_rw conn2) with rw.
  destruct (readChunk _ _) as [[[]|e|p] s']; [|done|by left]. destruct Hread as (Hs' & Hsh & He). simpl in Hsh, He.
  unfold mbind at 1, GoM_bind at 1, modifyS.
  set (conn3 := assign con_chunks _ _).
  assert (Hok3 : conn_ok conn3).
  { constructor; [|done|done|exact (sh_bytes _ _ Hsh)]. by apply map_Forall_insert_2. }
  assert (Hlen3 : (length (rw_in (con_rw conn3)) < length (rw_in (con_rw conn)))%nat).
  { pose proof (sh_length _ _ Hsh). specialize (Hlt He). simpl. lia. }
  destruct (full (io_stream s')) eqn:Efull.
  - split_and!; [done|exact (so_got _ Hs' Efull)|done|done].
  - specialize (IH conn3 Hok3 ltac:(lia)). unfold reading_result in *.
    destruct (read_message fuel conn3) as [[c|e|p] conn4]; [|done..]. destruct IH as (? & ? & ? & ?). split_and!; try done. lia.
Qed.

(** C29: Whatever bytes arrive, in whatever state they find a connection, reading a
    message ends: with a message that is complete, for which fewer bytes are left, or with
    an error, or with one of two panics, of a message that does not fit into a pool and of
    a control message that is too short. The connection keeps its invariant, by which no
    chunk is written outside of its message. *)
Theorem Conn_Read_ends conn : conn_ok conn -> reading_result (length (rw_in (con_rw conn))) (Conn_Read conn).
Proof.
  intros Hok. unfold Conn_Read. rewrite (run_bind_ok _ _ conn conn conn) by done.
  pose proof (read_message_ends (S (length (rw_in (con_rw conn)))) conn Hok ltac:(lia)) as Hm. unfold reading_result in Hm.
  unfold mbind at 1, GoM_bind at 1. destruct (read_message _ conn) as [[c|e|p] conn1]; [|done..].
  destruct Hm as (Hc & Hr & Hok1 & Hlen).
  assert (Hctl : (exists conn2, handleControlMsg c conn1 = (Ok tt, conn2) /\ conn_ok conn2 /\ con_rw conn2 = con_rw conn1) \/
    exists conn2, handleControlMsg c conn1 = (Panic "index out of range", conn2)).
  { assert (HB : (exists v, BigEndian_Uint32 (cs_Data c) = Ok v /\ 0 <= v) \/ BigEndian_Uint32 (cs_Data c) = Panic "index out of range").
    { pose proof (so_bytes _ Hc) as Hby. destruct (cs_Data c) as [|b0 [|b1 [|b2 [|b3 l]]]]; [by right..|left].
      eexists. split; [done|]. apply Forall_cons in Hby as [? Hby]. do 3 apply Forall_cons in Hby as [? Hby].
      rewrite !Z.lor_nonneg. pose proof u32_range. unfold byte_ok in *. split_and!; [lia|apply u32_range..]. }
    unfold handleControlMsg, mbind, GoM_bind, lift. destruct Hok1.
    destruct (cs_TypeID c =? idSetChunkSize); [|destruct (cs_TypeID c =? idWindowAckSize); [|by left; exists conn1]];
      (destruct HB as [(v & -> & Hv)| ->]; [left|right; by eexists]); (eexists; split_and!; [done| |done]); by constructor. }
  destruct Hctl as [(conn2 & E2 & Hok2 & Erw)|[conn2 E2]]; [|rewrite (run_bind_panic _ _ _ _ _ E2); by right].
  rewrite (run_bind_ok _ _ _ _ _ E2). destruct (ack_run (cs_Length c) conn2 (co_size _ Hok2)) as (conn3 & E3 & [S1 S2 S3 S4 (S5 & _)]).
  rewrite (run_bind_ok _ _ _ _ _ E3). destruct Hok2. split_and!; try done; [|rewrite S5, Erw; done].
  constructor; rewrite ?S1, ?S2, ?S4, ?S5; done.
Qed.

(** ** Witnesses and behaviour to know *)

Definition video (n : nat) : ChunkStream :=
  zeroChunkStream <| cs_Timestamp := 0x1000000 |> <| cs_Length := Z.of_nat n |> <| cs_TypeID := TAG_VIDEO |>
    <| cs_StreamID := 1 |> <| cs_Data := replicate n 7 |>.
Definition chunk_size_message (size : Z) : ChunkStream :=
  match NewSetChunkSize size with Ok c => c | _ => zeroChunkStream end.
Definition sample_messages : list ChunkStream := [video 300; chunk_size_message 100; video 250].
Definition sample_conn (input : list Z) : Conn := NewConn (NewReadWriter input io_EOF).

Lemma sample_writable : all_writable 128 sample_messages.
Proof.
  refine (conj _ (conj _ (conj _ I))); (constructor; [constructor; repeat split; vm_compute; congruence|split; vm_compute; congruence
    |intros _; vm_compute; congruence|intros E; first [discriminate E|split; vm_compute; congruence]]).
Qed.

Lemma sample_listening input : listening 128 (sample_conn input).
Proof. constructor; [done..|apply map_Forall_empty]. Qed.

Lemma messages_delivered_witness :
  exists cs w' out, (cs ← mapM Conn_Write sample_messages; Conn_Flush;; mret cs) (sample_conn []) = (Ok cs, w') /\
    rw_sent (con_rw w') = out /\
    exists cs' r', mapM (fun _ => Conn_Read) sample_messages (sample_conn out) = (Ok cs', r') /\
      Forall2 same_content sample_messages cs'.
Proof.
  destruct (messages_delivered sample_messages 128 (sample_conn [])) as (cs & w' & out & Ew & Hout & Hread);
    [done|done|done|done|apply sample_writable|].
  exists cs, w', out. refine (conj Ew (conj Hout _)).
  destruct (Hread (sample_conn out) []) as (cs' & r' & Er & Hc & _);
    [apply sample_listening|symmetry; apply app_nil_r|].
  exists cs', r'. exact (conj Er Hc).
Defined.

Lemma Conn_Read_ends_witness :
  let conn := sample_conn [3; 0; 0; 0; 0; 0; 1; 20; 0; 0; 0; 0] in
  conn_ok conn /\ reading_result (length (rw_in (con_rw conn))) (Conn_Read conn).
Proof.
  intros conn. assert (H : conn_ok conn) by (constructor; [apply map_Forall_empty|done|done|repeat constructor; done]).
  exact (conj H (Conn_Read_ends conn H)).
Defined.

(** A peer that announces a message longer than a buffer of the pool makes the reader panic. *)
Lemma long_message_panics :
  fst (Conn_Read (sample_conn [3; 0; 0; 0; 0x10; 0; 0; 20; 0; 0; 0; 0])) = Panic "slice bounds out of range".
Proof. vm_compute. reflexivity. Qed.

(** A control message without a value does too. *)
Lemma short_control_panics :
  fst (Conn_Read (sample_conn [2; 0; 0; 0; 0; 0; 1; 1; 0; 0; 0; 0; 7])) = Panic "index out of range".
Proof. vm_compute. reflexivity. Qed.

(** The chunk streams from 64 on share one entry of the map: two that are interleaved are
    taken for one, and reading fails. *)
Definition interleaved (a b : list Z) : list Z :=
  a ++ [0; 0; 0; 0; 0; 200; 20; 0; 0; 0; 0] ++ replicate 128 1 ++ b ++ [0; 0; 0; 0; 0; 1; 20; 0; 0; 0; 0; 9].
Lemma large_streams_confused :
  fst (Conn_Read (sample_conn (interleaved [0; 0] [0; 1]))) = Err (fmt_Errorf "invalid remain = %d" [72]) /\
  match Conn_Read (sample_conn (interleaved [3] [4])) with (Ok c, _) => cs_CSID c = 4 /\ cs_Data c = [9] | _ => False end.
Proof. split; [vm_compute; reflexivity|vm_compute; split; reflexivity]. Qed.

(** A message without data is not written. *)
Lemma empty_message_not_sent :
  match Conn_Write (video 0) (sample_conn []) with (Ok _, conn) => rw_buffered (con_rw conn) = [] | _ => False end.
Proof. vm_compute. reflexivity. Qed.

(** A size of chunks below four is used for the message that announces it, of which the
    peer takes the header of the second chunk for data. *)
Lemma small_size_misread :
  match Conn_Write (chunk_size_message 2) (sample_conn []) with
  | (Ok _, conn) =>
      match Conn_Read (sample_conn (rw_buffered (con_rw conn))) with
      | (Ok c, conn') => cs_Data c = [0; 0; 0xc2; 0] /\ rw_in (con_rw conn') = [2]
      | _ => False
      end
  | _ => False
  end.
Proof. vm_compute. split; reflexivity. Qed.
