(* ===== verification/Sha256.v ===== *)
(** * crypto/sha256 and crypto/hmac

    The hash that the RTMP handshake uses, as FIPS 180-4 and RFC 2104 define it, on lists
    of bytes; the lemmas at the end are their test vectors. *)

From S2P Require Import Prelude ByteOrder.

Definition rotr32 (x n : Z) : Z := Z.lor (Z.shiftr x n) (u32 (Z.shiftl x (32 - n))).

(** The first [count] primes from [n] on, by trial division. *)
Fixpoint primes (fuel : nat) (count : nat) (n : Z) : list Z :=
  match fuel, count with
  | S fuel, S count' =>
      if forallb (fun d => negb (n mod (Z.of_nat d + 2) =? 0)) (seq 0 (Z.to_nat n - 2))
      then n :: primes fuel count' (n + 1) else primes fuel count (n + 1)
  | _, _ => []
  end.

(** The largest number of at most [bits] bits whose cube is at most [x], above [r]. *)
Fixpoint cube_root (bits : nat) (x r : Z) : Z :=
  match bits with
  | O => r
  | S bits =>
      let r' := r + 2 ^ Z.of_nat bits in
      cube_root bits x (if r' ^ 3 <=? x then r' else r)
  end.

(** FIPS 180-4 defines its constants as the first 32 bits of the fractions of the cube
    roots of the first 64 primes, and of the square roots of the first 8. *)
Definition sha256_K : list Z := Eval vm_compute in map (fun p => u32 (cube_root 36 (p * 2 ^ 96) 0)) (primes 400 64 2).
Definition sha256_H : list Z := Eval vm_compute in map (fun p => u32 (Z.sqrt (p * 2 ^ 64))) (primes 400 8 2).

(** The bytes of a message as words of 32 bits. *)
Fixpoint words (bs : list Z) : list Z :=
  match bs with
  | b0 :: b1 :: b2 :: b3 :: bs => (((b0 * 256 + b1) * 256 + b2) * 256 + b3) :: words bs
  | _ => []
  end.

(** The words of a block from the number 16 on; [w] has the last 16 words, in order. *)
Fixpoint schedule (n : nat) (w : list Z) : list Z :=
  match n with
  | O => []
  | S n =>
      let at_ i := nth i w 0 in
      let s0 := Z.lxor (Z.lxor (rotr32 (at_ 1%nat) 7) (rotr32 (at_ 1%nat) 18)) (Z.shiftr (at_ 1%nat) 3) in
      let s1 := Z.lxor (Z.lxor (rotr32 (at_ 14%nat) 17) (rotr32 (at_ 14%nat) 19)) (Z.shiftr (at_ 14%nat) 10) in
      let x := u32 (at_ 0%nat + s0 + at_ 9%nat + s1) in
      x :: schedule n (tail w ++ [x])
  end.

Definition sha256_round (h : list Z) (kw : Z * Z) : list Z :=
  match h with
  | [a; b; c; d; e; f; g; h] =>
      let S1 := Z.lxor (Z.lxor (rotr32 e 6) (rotr32 e 11)) (rotr32 e 25) in
      let ch := Z.lxor (Z.land e f) (Z.land (0xffffffff - e) g) in
      let temp1 := u32 (h + S1 + ch + fst kw + snd kw) in
      let S0 := Z.lxor (Z.lxor (rotr32 a 2) (rotr32 a 13)) (rotr32 a 22) in
      let maj := Z.lxor (Z.lxor (Z.land a b) (Z.land a c)) (Z.land b c) in
      [u32 (temp1 + S0 + maj); a; b; c; u32 (d + temp1); e; f; g]
  | _ => h
  end.

Definition sha256_block (h : list Z) (block : list Z) : list Z :=
  let h' := foldl sha256_round h (zip sha256_K (block ++ schedule 48 block)) in
  zip_with (fun x y => u32 (x + y)) h h'.

(** The blocks of 16 words. *)
Fixpoint sha256_blocks (fuel : nat) (h ws : list Z) : list Z :=
  match fuel, ws with
  | S fuel, _ :: _ => sha256_blocks fuel (sha256_block h (take 16 ws)) (drop 16 ws)
  | _, _ => h
  end.

Definition sha256_pad (bs : list Z) : list Z :=
  bs ++ [0x80] ++ replicate (Z.to_nat ((55 - zlen bs) mod 64)) 0 ++ be_enc 8 (8 * zlen bs).

Definition sha256 (bs : list Z) : list Z :=
  let ws := words (sha256_pad bs) in
  h ← sha256_blocks (length ws) sha256_H ws; be_enc 4 h.

Definition hmac_sha256 (key bs : list Z) : list Z :=
  let key := if (64 <? length key)%nat then sha256 key else key in
  let key := key ++ replicate (64 - length key) 0 in
  sha256 (map (Z.lxor 0x5c) key ++ sha256 (map (Z.lxor 0x36) key ++ bs)).

(** ** Digests have 32 bytes *)

Lemma sha256_round_length h kw : length h = 8%nat -> length (sha256_round h kw) = 8%nat.
Proof. do 9 (destruct h as [|? h]; [done|]). done. Qed.

Lemma sha256_block_length h block : length h = 8%nat -> length (sha256_block h block) = 8%nat.
Proof.
  intros Hh. unfold sha256_block. rewrite length_zip_with.
  assert (E : forall l h, length h = 8%nat -> length (foldl sha256_round h l) = 8%nat).
  { induction l as [|kw l IH]; intros h' Hh'; [done|]. by apply IH, sha256_round_length. }
  rewrite E, Hh by done. done.
Qed.

Lemma sha256_blocks_length fuel h ws : length h = 8%nat -> length (sha256_blocks fuel h ws) = 8%nat.
Proof.
  revert h ws. induction fuel as [|fuel IH]; intros h ws Hh; [done|]. destruct ws; [done|].
  cbn [sha256_blocks]. by apply IH, sha256_block_length.
Qed.

Lemma sha256_length bs : length (sha256 bs) = 32%nat.
Proof.
  unfold sha256. set (h := sha256_blocks _ _ _). assert (Hh : length h = 8%nat) by by apply sha256_blocks_length.
  clearbody h. do 8 (destruct h as [|? h]; [done|]). by destruct h.
Qed.

Lemma sha256_bytes bs : bytes_ok (sha256 bs).
Proof.
  unfold sha256. set (h := sha256_blocks _ _ _). clearbody h. induction h as [|x h IH]; [by constructor|].
  apply Forall_app. split; [apply be_enc_ok|done].
Qed.

Lemma hmac_length key bs : length (hmac_sha256 key bs) = 32%nat.
Proof. apply sha256_length. Qed.

Lemma hmac_bytes key bs : bytes_ok (hmac_sha256 key bs).
Proof. apply sha256_bytes. Qed.

(** ** Test vectors *)

(** SHA-256 of the three letters abc. *)
Lemma sha256_abc :
  be_enc 4 0xba7816bf ++ be_enc 4 0x8f01cfea ++ be_enc 4 0x414140de ++ be_enc 4 0x5dae2223 ++
  be_enc 4 0xb00361a3 ++ be_enc 4 0x96177a9c ++ be_enc 4 0xb410ff61 ++ be_enc 4 0xf20015ad = sha256 [97; 98; 99].
Proof. vm_compute. reflexivity. Qed.

(** The first test of RFC 4231: the key is 20 bytes 0x0b, the data Hi There. *)
Lemma hmac_rfc4231 :
  be_enc 4 0xb0344c61 ++ be_enc 4 0xd8db3853 ++ be_enc 4 0x5ca8afce ++ be_enc 4 0xaf0bf12b ++
  be_enc 4 0x881dc200 ++ be_enc 4 0xc9833da7 ++ be_enc 4 0x26e9376c ++ be_enc 4 0x2e32cff7 =
    hmac_sha256 (replicate 20 0x0b) [72; 105; 32; 84; 104; 101; 114; 101].
Proof. vm_compute. reflexivity. Qed.
