(* ===== verification/RtmpHandshake.v ===== *)
(** * liveproxy/protocol/rtmp/core/handshake.go

    The exchange of bytes before the first chunk: plain, or with digests of a key that both
    sides know. The random source is an argument; deadlines are not modelled, a connection
    that is closed by one gives an error instead of bytes. *)

From S2P Require Import Prelude ByteOrder Pio Chunk Amf Sha256.

(** ** Keys *)

Definition hs_key_tail : list Z :=
  [0xF0; 0xEE; 0xC2; 0x4A; 0x80; 0x68; 0xBE; 0xE8; 0x2E; 0x00; 0xD0; 0xD1; 0x02; 0x9E; 0x7E; 0x57;
   0x6E; 0xEC; 0x5D; 0x2D; 0x29; 0x80; 0x6F; 0xAB; 0x93; 0xB8; 0xE6; 0x36; 0xCF; 0xEB; 0x31; 0xAE].
Definition hsClientFullKey : list Z := bytes_of "Genuine Adobe Flash Player 001" ++ hs_key_tail.
Definition hsServerFullKey : list Z := bytes_of "Genuine Adobe Flash Media Server 001" ++ hs_key_tail.
Definition hsClientPartialKey : list Z := take 30 hsClientFullKey.
Definition hsServerPartialKey : list Z := take 36 hsServerFullKey.

(** ** Digests *)

Section Digest.
Context {S : Type}.

Definition hsMakeDigest (key src : list Z) (gap : Z) : GoM S (list Z) :=
  if gap <=? 0 then mret (hmac_sha256 key src)
  else
    head ← lift (slice_of src 0 gap);
    rest ← lift (slice_of src (gap + 32) (zlen src));
    mret (hmac_sha256 key (head ++ rest)).

(** [p[i]] *)
Definition byte_at (p : list Z) (i : Z) : GoM S Z :=
  match p !! Z.to_nat i with Some b => mret b | None => panic "index out of range" end.

Definition hsCalcDigestPos (p : list Z) (base : Z) : GoM S Z :=
  b0 ← byte_at p (base + 0);
  b1 ← byte_at p (base + 1);
  b2 ← byte_at p (base + 2);
  b3 ← byte_at p (base + 3);
  let pos := 0 + b0 + b1 + b2 + b3 in
  mret (pos mod 728 + base + 4).

Definition hsFindDigest (p key : list Z) (base : Z) : GoM S Z :=
  gap ← hsCalcDigestPos p base;
  digest ← hsMakeDigest key p gap;
  found ← lift (slice_of p gap (gap + 32));
  mret (if decide (found = digest) then gap else -1).

(** The digest to answer with, or [None] for [ok] false. *)
Definition hsParse1 (p peerkey key : list Z) : GoM S (option (list Z)) :=
  pos ← hsFindDigest p peerkey 772;
  pos ← (if pos =? -1 then hsFindDigest p peerkey 8 else mret pos);
  if pos =? -1 then mret None
  else
    found ← lift (slice_of p pos (pos + 32));
    digest ← hsMakeDigest key found (-1);
    mret (Some digest).

(** [pio.PutU32BE(p[i:i+4], v)] *)
Definition put_u32 (p : list Z) (i v : Z) : list Z :=
  copy_at p i (snd (PutU32BE v (take 4 (drop (Z.to_nat i) p)))).

(** The slice after the call; [random] is what [rand.Read] gives. *)
Definition hsCreate01 (p : list Z) (time ver : Z) (key random : list Z) : GoM S (list Z) :=
  let p1 := drop 1 p in
  let p1 := copy_to p1 8 random in
  let p1 := put_u32 p1 0 time in
  let p1 := put_u32 p1 4 ver in
  gap ← hsCalcDigestPos p1 8;
  digest ← hsMakeDigest key p1 gap;
  mret (3 :: copy_to p1 gap digest).

Definition hsCreate2 (p key random : list Z) : GoM S (list Z) :=
  let p := copy_to p 0 random in
  let gap := zlen p - 32 in
  digest ← hsMakeDigest key p gap;
  mret (copy_to p gap digest).
End Digest.

(** ** The two sides *)

Definition zeros (n : nat) : list Z := replicate n 0.

(** The branches for the version of the server are the same. *)
Definition HandshakeClient : GoM Conn unit :=
  let C0C1 := 3 :: zeros 1536 in
  on_conn_rw (rw_Write C0C1);;
  Conn_Flush;;
  S0S1S2 ← on_conn_rw (rw_Read (1 + 1536 * 2));
  let S1 := take 1536 (drop 1 S0S1S2) in
  let C2 := S1 in
  on_conn_rw (rw_Write C2).

(** [random1] and [random2] are what [rand.Read] gives to [hsCreate01] and [hsCreate2]. *)
Definition HandshakeServer (random1 random2 : list Z) : GoM Conn unit :=
  C0C1 ← on_conn_rw (rw_Read (1 + 1536));
  let C0 := take 1 C0C1 in
  let C1 := drop 1 C0C1 in
  version ← byte_at C0 0;
  if negb (version =? 3) then fail (fmt_Errorf "rtmp: handshake version=%d invalid" [version])
  else
    clitime ← lift (fst (U32BE (take 4 C1)));
    let srvtime := clitime in
    let srvver := 0x0d0e0a0d in
    cliver ← lift (fst (U32BE (take 4 (drop 4 C1))));
    S0S1S2 ←
      (if negb (cliver =? 0) then
         digest ← hsParse1 C1 hsClientPartialKey hsServerFullKey;
         match digest with
         | None => fail (fmt_Errorf "rtmp: handshake server: C1 invalid" [])
         | Some digest =>
             S0S1 ← hsCreate01 (3 :: zeros 1536) srvtime srvver hsServerPartialKey random1;
             S2 ← hsCreate2 (zeros 1536) digest random2;
             mret (S0S1 ++ S2)
         end
       else mret (3 :: zeros 1536 ++ C1));
    on_conn_rw (rw_Write S0S1S2);;
    Conn_Flush;;
    on_conn_rw (rw_Read 1536);;
    mret tt.

(** ** Digests are found where they were put *)

Definition digest_pos (p : list Z) (base : nat) : Z :=
  (p !!! base + p !!! S base + p !!! S (S base) + p !!! S (S (S base))) mod 728 + Z.of_nat base + 4.

Lemma digest_pos_range p base : Z.of_nat base + 4 <= digest_pos p base < Z.of_nat base + 732.
Proof. unfold digest_pos. pose proof (Z.mod_pos_bound (p !!! base + p !!! S base + p !!! S (S base) + p !!! S (S (S base))) 728). lia. Qed.

Lemma hsCalcDigestPos_run {S} p base (s : S) :
  (base + 4 <= length p)%nat -> hsCalcDigestPos p (Z.of_nat base) s = (Ok (digest_pos p base), s).
Proof.
  intros Hp. unfold hsCalcDigestPos, byte_at, digest_pos.
  replace (Z.to_nat (Z.of_nat base + 0)) with base by lia. replace (Z.to_nat (Z.of_nat base + 1)) with (Datatypes.S base) by lia.
  replace (Z.to_nat (Z.of_nat base + 2)) with (Datatypes.S (Datatypes.S base)) by lia.
  replace (Z.to_nat (Z.of_nat base + 3)) with (Datatypes.S (Datatypes.S (Datatypes.S base))) by lia.
  rewrite !list_lookup_total_alt.
  destruct (lookup_lt_is_Some_2 p base ltac:(lia)) as [b0 E0]. rewrite E0.
  destruct (lookup_lt_is_Some_2 p (Datatypes.S base) ltac:(lia)) as [b1 E1]. rewrite E1.
  destruct (lookup_lt_is_Some_2 p (Datatypes.S (Datatypes.S base)) ltac:(lia)) as [b2 E2]. rewrite E2.
  destruct (lookup_lt_is_Some_2 p (Datatypes.S (Datatypes.S (Datatypes.S base))) ltac:(lia)) as [b3 E3]. rewrite E3.
  done.
Qed.

(** What is hashed: everything but the place of the digest. *)
Definition around (p : list Z) (gap : Z) : list Z := take (Z.to_nat gap) p ++ drop (Z.to_nat gap + 32) p.

Lemma hsMakeDigest_run {S} key p gap (s : S) :
  0 < gap -> gap + 32 <= zlen p -> hsMakeDigest key p gap s = (Ok (hmac_sha256 key (around p gap)), s).
Proof.
  intros Hg Hl. unfold hsMakeDigest. rewrite (proj2 (Z.leb_gt _ _)) by lia.
  rewrite !slice_of_run by lia. run. do 3 f_equal. unfold around. rewrite Z.sub_0_r. f_equal.
  replace (Z.to_nat (gap + 32)) with (Z.to_nat gap + 32)%nat by lia. apply take_ge. rewrite length_drop. unfold zlen. lia.
Qed.

Section Created.
Context (p key : list Z) (gap : Z).
Hypothesis Hlen : 12 <= gap.
Hypothesis Hgap : gap + 32 <= zlen p.
Let digest := hmac_sha256 key (around p gap).
Let q := copy_to p gap digest.

Lemma digest_zlen : zlen digest = 32.
Proof. unfold zlen, digest. by rewrite hmac_length. Qed.

Lemma created_eq : q = take (Z.to_nat gap) p ++ digest ++ drop (Z.to_nat gap + 32) p.
Proof. unfold q. pose proof digest_zlen. rewrite copy_to_run by lia. unfold digest at 2. by rewrite hmac_length. Qed.

Lemma created_length : length q = length p.
Proof. unfold q. pose proof digest_zlen. apply copy_to_length; lia. Qed.

Lemma created_around : around q gap = around p gap.
Proof.
  unfold around. rewrite created_eq. pose proof digest_zlen as Hd. unfold zlen in *.
  rewrite take_app_le, take_take, Nat.min_id by (rewrite length_take; lia). f_equal.
  rewrite drop_app_ge by (rewrite length_take; lia). rewrite length_take, Nat.min_l by lia.
  rewrite drop_app_ge by lia. replace (_ - _)%nat with O by lia. by rewrite drop_0.
Qed.

Lemma created_slice : slice_of q gap (gap + 32) = Ok digest.
Proof.
  pose proof digest_zlen as Hd. pose proof created_length. unfold zlen in *. rewrite slice_of_run by (unfold zlen; lia).
  rewrite created_eq. f_equal. rewrite drop_app_ge by (rewrite length_take; lia). rewrite length_take, Nat.min_l by lia.
  rewrite Nat.sub_diag, drop_0. rewrite take_app_le by lia. apply take_ge. lia.
Qed.

Lemma created_pos base : (base + 3 < Z.to_nat gap)%nat -> digest_pos q base = digest_pos p base.
Proof.
  intros Hb. unfold digest_pos. rewrite created_eq, !list_lookup_total_alt. unfold zlen in *.
  rewrite !lookup_app_l by (rewrite length_take; lia). by rewrite !lookup_take_lt by lia.
Qed.

(** A digest that was put at the place that the bytes before it give is found there. *)
Lemma created_found {S} base (s : S) :
  (base + 3 < Z.to_nat gap)%nat -> gap = digest_pos p base -> hsFindDigest q key (Z.of_nat base) s = (Ok gap, s).
Proof.
  intros Hb Eg. pose proof created_length as Hl. unfold hsFindDigest. unfold zlen in *.
  rewrite (run_bind_ok _ _ _ _ _ (hsCalcDigestPos_run q base s ltac:(lia))). rewrite created_pos, <- Eg by done.
  rewrite (run_bind_ok _ _ _ _ _ (hsMakeDigest_run key q gap s ltac:(lia) ltac:(unfold zlen; lia))).
  rewrite created_around. unfold mbind, GoM_bind, lift. rewrite created_slice. fold digest. by rewrite decide_True.
Qed.
End Created.

(** ** What the two sides send *)

(** The digest of a key at the place that the four bytes from [base] on give. *)
Definition signed (p key : list Z) (base : nat) (digest : list Z) : Prop :=
  let pos := digest_pos p base in
  digest = hmac_sha256 key (around p pos) /\ slice_of p pos (pos + 32) = Ok digest.

Lemma hsFindDigest_run {S} p key base (s : S) :
  (base + 763 <= length p)%nat ->
  (exists digest, signed p key base digest /\ hsFindDigest p key (Z.of_nat base) s = (Ok (digest_pos p base), s)) \/
  ((forall digest, ~ signed p key base digest) /\ hsFindDigest p key (Z.of_nat base) s = (Ok (-1), s)).
Proof.
  intros Hb. pose proof (digest_pos_range p base) as Hr. unfold hsFindDigest, signed.
  rewrite (run_bind_ok _ _ _ _ _ (hsCalcDigestPos_run p base s ltac:(lia))).
  rewrite (run_bind_ok _ _ _ _ _ (hsMakeDigest_run key p (digest_pos p base) s ltac:(lia) ltac:(unfold zlen; lia))).
  set (digest := hmac_sha256 key (around p (digest_pos p base))).
  destruct (slice_of p (digest_pos p base) (digest_pos p base + 32)) as [found|e|x] eqn:E;
    [|rewrite slice_of_run in E by (unfold zlen; lia); done..].
  rewrite (run_bind_ok _ _ s found s) by done. destruct (decide (found = digest)) as [-> |Hne].
  - left. by exists digest.
  - right. split; [|done]. intros d [-> [= ->]]. done.
Qed.

(** [hsParse1] accepts exactly what is signed at one of the two places. *)
Lemma hsParse1_run {S} p peerkey key (s : S) :
  length p = 1536%nat ->
  (exists base digest, (base = 772%nat \/ base = 8%nat) /\ signed p peerkey base digest /\
     hsParse1 p peerkey key s = (Ok (Some (hmac_sha256 key digest)), s)) \/
  ((forall base digest, base = 772%nat \/ base = 8%nat -> ~ signed p peerkey base digest) /\ hsParse1 p peerkey key s = (Ok None, s)).
Proof.
  intros Hp. unfold hsParse1. change 772 with (Z.of_nat 772). change 8 with (Z.of_nat 8).
  assert (Hgot : forall base digest, signed p peerkey base digest ->
    (if digest_pos p base =? -1 then mret None
     else found ← lift (slice_of p (digest_pos p base) (digest_pos p base + 32));
          digest ← hsMakeDigest key found (-1); mret (Some digest)) s = (Ok (Some (hmac_sha256 key digest)), s)).
  { intros base digest [_ Hs]. pose proof (digest_pos_range p base). rewrite (proj2 (Z.eqb_neq _ _)) by lia.
    rewrite Hs. done. }
  destruct (hsFindDigest_run p peerkey 772 s ltac:(lia)) as [(d & Hd & E)|(Hn & E)]; rewrite (run_bind_ok _ _ _ _ _ E).
  - pose proof (digest_pos_range p 772). left. exists 772%nat, d. split_and!; [auto|done|].
    rewrite (run_bind_ok _ _ s (digest_pos p 772) s); [by apply Hgot|]. by rewrite (proj2 (Z.eqb_neq _ _)) by lia.
  - change (-1 =? -1) with true. cbn iota.
    destruct (hsFindDigest_run p peerkey 8 s ltac:(lia)) as [(d & Hd & E')|(Hn' & E')]; rewrite (run_bind_ok _ _ _ _ _ E').
    + left. exists 8%nat, d. split_and!; [auto|done|by apply Hgot].
    + right. split; [|done]. intros base digest [-> | ->]; [apply Hn|apply Hn'].
Qed.

Lemma put_u32_run p i v :
  0 <= i -> i + 4 <= zlen p -> put_u32 p i v = take (Z.to_nat i) p ++ be_enc 4 v ++ drop (Z.to_nat i + 4) p.
Proof.
  intros Hi Hl. unfold put_u32, copy_at, zlen in *. rewrite PutU32BE_bytes by (rewrite length_take, length_drop; lia).
  cbn [snd]. rewrite (drop_ge (take _ _)) by (rewrite length_take; lia). by rewrite app_nil_r, be_enc_length.
Qed.

(** A first message: time, version, random bytes and a digest in between. *)
Definition hs_message (time ver : Z) (key random : list Z) : list Z :=
  let p := be_enc 4 time ++ be_enc 4 ver ++ random in
  copy_to p (digest_pos p 8) (hmac_sha256 key (around p (digest_pos p 8))).

Lemma hsCreate01_run {S} p time ver key random (s : S) :
  length p = 1537%nat -> length random = 1528%nat ->
  hsCreate01 p time ver key random s = (Ok (3 :: hs_message time ver key random), s).
Proof.
  intros Hp Hr. unfold hsCreate01. cbv zeta.
  assert (E : put_u32 (put_u32 (copy_to (drop 1 p) 8 random) 0 time) 4 ver = be_enc 4 time ++ be_enc 4 ver ++ random).
  { assert (Hd : length (drop 1 p) = 1536%nat) by (rewrite length_drop; lia).
    rewrite copy_to_run by (unfold zlen; lia). rewrite (drop_ge (drop 1 p)), app_nil_r by lia.
    set (a := take _ _). assert (Ha : length a = 8%nat) by (unfold a; rewrite length_take; lia).
    rewrite (put_u32_run (a ++ random) 0) by (unfold zlen; rewrite ?length_app; lia). cbn [take app Z.to_nat].
    rewrite put_u32_run by (unfold zlen; rewrite ?length_app, ?be_enc_length, ?length_drop, ?length_app; lia).
    change (Z.to_nat 0) with O. change (0 + 4)%nat with 4%nat. change (Z.to_nat 4) with 4%nat.
    change (take 0 (a ++ random)) with (@nil Z). rewrite app_nil_l. pose proof (be_enc_length 4 time) as Ht.
    rewrite (take_app_le (be_enc 4 time)) by lia. rewrite (take_ge (be_enc 4 time)) by lia. do 2 f_equal.
    rewrite drop_app_ge by lia. rewrite Ht, drop_drop. rewrite drop_app_ge by lia. replace (_ - _)%nat with O by lia.
    by rewrite drop_0. }
  rewrite E. set (q := be_enc 4 time ++ be_enc 4 ver ++ random).
  assert (Hq : length q = 1536%nat) by (unfold q; rewrite !length_app, !be_enc_length; lia).
  pose proof (digest_pos_range q 8).
  rewrite (run_bind_ok _ _ _ _ _ (hsCalcDigestPos_run q 8 s ltac:(lia))).
  rewrite (run_bind_ok _ _ _ _ _ (hsMakeDigest_run key q (digest_pos q 8) s ltac:(lia) ltac:(unfold zlen; lia))). done.
Qed.

Lemma hs_message_length time ver key random : length random = 1528%nat -> length (hs_message time ver key random) = 1536%nat.
Proof.
  intros Hr. unfold hs_message. set (p := be_enc 4 time ++ be_enc 4 ver ++ random).
  assert (Hp : length p = 1536%nat) by (unfold p; rewrite !length_app, !be_enc_length; lia).
  pose proof (digest_pos_range p 8). rewrite created_length; [done|lia|unfold zlen; lia].
Qed.

(** Messages that this side makes are signed. *)
Lemma hs_message_signed time ver key random :
  length random = 1528%nat -> exists digest, signed (hs_message time ver key random) key 8 digest.
Proof.
  intros Hr. unfold hs_message. set (p := be_enc 4 time ++ be_enc 4 ver ++ random). set (pos := digest_pos p 8).
  assert (Hp : length p = 1536%nat) by (unfold p; rewrite !length_app, !be_enc_length; lia).
  pose proof (digest_pos_range p 8). assert (Hl : pos + 32 <= zlen p) by (unfold zlen, pos; lia).
  exists (hmac_sha256 key (around p pos)). unfold signed. rewrite created_pos by (unfold pos; lia). fold pos.
  rewrite created_around by (unfold pos in *; lia). split; [done|]. apply created_slice; [unfold pos; lia|done].
Qed.

(** The second message of the server: random bytes and their digest. *)
Definition hs_answer (key random : list Z) : list Z := take 1504 random ++ hmac_sha256 key (take 1504 random).

Lemma hsCreate2_run {S} p key random (s : S) :
  length p = 1536%nat -> length random = 1536%nat -> hsCreate2 p key random s = (Ok (hs_answer key random), s).
Proof.
  intros Hp Hr. unfold hsCreate2. cbv zeta.
  assert (E : copy_to p 0 random = random).
  { rewrite copy_to_run by (unfold zlen; lia). rewrite drop_ge by lia. by rewrite app_nil_r. }
  rewrite E. assert (Ez : zlen random - 32 = 1504) by (unfold zlen; lia). rewrite Ez.
  rewrite (run_bind_ok _ _ _ _ _ (hsMakeDigest_run key random 1504 s ltac:(lia) ltac:(lia))).
  assert (Ea : around random 1504 = take 1504 random).
  { unfold around. rewrite (drop_ge random) by (change (Z.to_nat 1504) with 1504%nat; lia). by rewrite app_nil_r. }
  rewrite Ea. unfold mret, GoM_ret. f_equal. f_equal.
  assert (Hd : zlen (hmac_sha256 key (take 1504 random)) = 32) by (unfold zlen; by rewrite hmac_length).
  rewrite copy_to_run by lia. unfold hs_answer. rewrite hmac_length, (drop_ge random) by (change (Z.to_nat 1504) with 1504%nat; lia).
  by rewrite app_nil_r.
Qed.

Lemma conn_read_run n bs rest conn :
  rw_readError (con_rw conn) = None -> rw_in (con_rw conn) = bs ++ rest -> n = zlen bs ->
  on_conn_rw (rw_Read n) conn = (Ok bs, conn <| con_rw := (con_rw conn) <| rw_in := rest |> |>).
Proof.
  intros He Hin ->. unfold on_conn_rw, rw_Read, check_readError, keep_readError, ReadAtLeast. run. rewrite He. cbn.
  rewrite Hin, (proj2 (Z.leb_le _ _)) by (rewrite zlen_app; pose proof (zlen_nonneg rest); lia). cbn. unfold zlen.
  rewrite Nat2Z.id, take_app_length, drop_app_length. done.
Qed.

Lemma conn_write_flush bs conn :
  rw_writeError (con_rw conn) = None -> rw_outError (con_rw conn) = None -> rw_buffered (con_rw conn) = [] -> bs <> [] ->
  (on_conn_rw (rw_Write bs);; Conn_Flush) conn =
    (Ok tt, conn <| con_rw := (con_rw conn) <| rw_sent := rw_sent (con_rw conn) ++ bs |> |>).
Proof.
  intros H1 H2 H3 Hne. destruct conn as [? ? ? ? ? ? [] ? ?]; simpl in *. subst. destruct bs as [|b bs]; [done|].
  reflexivity.
Qed.

Lemma U32BE_total b : (4 <= length b)%nat -> exists v, fst (U32BE (take 4 b)) = Ok v.
Proof. intros Hb. do 4 (destruct b as [|? b]; [simpl in Hb; lia|]). by eexists. Qed.

Lemma hs_message_time time ver key random :
  length random = 1528%nat -> take 4 (hs_message time ver key random) = be_enc 4 time.
Proof.
  intros Hr. unfold hs_message. set (p := be_enc 4 time ++ be_enc 4 ver ++ random).
  assert (Hp : length p = 1536%nat) by (unfold p; rewrite !length_app, !be_enc_length; lia).
  pose proof (digest_pos_range p 8). rewrite created_eq by (unfold zlen; lia).
  rewrite take_app_le by (rewrite length_take; lia). rewrite take_take, Nat.min_l by lia. unfold p.
  rewrite take_app_le by (by rewrite be_enc_length). apply take_ge. by rewrite be_enc_length.
Qed.

Record handshake_ready (conn : Conn) : Prop := {
  hr_read : rw_readError (con_rw conn) = None;
  hr_write : rw_writeError (con_rw conn) = None;
  hr_out : rw_outError (con_rw conn) = None;
  hr_buffered : rw_buffered (con_rw conn) = []
}.

(** The end of the handshake of a server, from its answer on. *)
Lemma server_answers conn answer C2 rest :
  handshake_ready conn -> answer <> [] -> rw_in (con_rw conn) = C2 ++ rest -> length C2 = 1536%nat ->
  exists conn', (on_conn_rw (rw_Write answer);; Conn_Flush;; on_conn_rw (rw_Read 1536);; mret tt) conn = (Ok tt, conn') /\
    rw_sent (con_rw conn') = rw_sent (con_rw conn) ++ answer /\ rw_in (con_rw conn') = rest /\
    conn' = conn <| con_rw := (con_rw conn) <| rw_sent := rw_sent (con_rw conn) ++ answer |> <| rw_in := rest |> |>.
Proof.
  intros [H1 H2 H3 H4] Hne Hin HC2.
  replace ((on_conn_rw (rw_Write answer);; Conn_Flush;; on_conn_rw (rw_Read 1536);; mret tt) conn)
    with (((on_conn_rw (rw_Write answer);; Conn_Flush);; on_conn_rw (rw_Read 1536);; mret tt) conn)
    by (unfold mbind, GoM_bind; destruct (on_conn_rw (rw_Write answer) conn) as [[[]|?|?] ?]; done).
  rewrite (run_bind_ok _ _ _ _ _ (conn_write_flush answer conn H2 H3 H4 Hne)).
  set (conn1 := conn <| con_rw := _ |>). eexists.
  rewrite (run_bind_ok _ _ conn1 _ _ (conn_read_run 1536 C2 rest conn1 H1 Hin ltac:(unfold zlen; lia))). by split_and!.
Qed.

(** A client that sends no version, and what the server sends to it and to the others. *)
Definition versionless (C1 : list Z) : Prop := fst (U32BE (take 4 (drop 4 C1))) = Ok 0.
Definition plain_answer (C1 S1 S2 : list Z) : Prop := S1 = zeros 1536 /\ S2 = C1.
Definition signed_answer (C1 S1 S2 : list Z) : Prop :=
  exists base digest answer time,
    (base = 772%nat \/ base = 8%nat) /\ signed C1 hsClientPartialKey base digest /\
    signed S1 hsServerPartialKey 8 answer /\ fst (U32BE (take 4 C1)) = Ok time /\ take 4 S1 = be_enc 4 time /\
    drop 1504 S2 = hmac_sha256 (hmac_sha256 hsServerFullKey digest) (take 1504 S2).

(** C30: Whatever two messages of 1536 bytes a client sends after the version byte 3, the
    server does not panic. It answers every client without a version, with zeros and the
    bytes of that client. It answers a client with a version exactly if its message has a
    digest of the client's key at one of the two places: with a message that has a digest
    of the server's key and the client's time, and with a digest that proves that the
    server knows the client's one. To the other clients with a version it fails and has
    sent nothing. *)
Theorem server_handshake C1 C2 rest random1 random2 conn :
  handshake_ready conn -> rw_in (con_rw conn) = 3 :: C1 ++ C2 ++ rest ->
  length C1 = 1536%nat -> length C2 = 1536%nat -> length random1 = 1528%nat -> length random2 = 1536%nat ->
  match HandshakeServer random1 random2 conn with
  | (Ok _, conn') =>
      exists S1 S2, rw_sent (con_rw conn') = rw_sent (con_rw conn) ++ 3 :: S1 ++ S2 /\ rw_in (con_rw conn') = rest /\
        length S1 = 1536%nat /\ length S2 = 1536%nat /\
        (versionless C1 /\ plain_answer C1 S1 S2 \/ ~ versionless C1 /\ signed_answer C1 S1 S2)
  | (Err _, conn') =>
      ~ versionless C1 /\ rw_sent (con_rw conn') = rw_sent (con_rw conn) /\
      forall base digest, base = 772%nat \/ base = 8%nat -> ~ signed C1 hsClientPartialKey base digest
  | (Panic _, _) => False
  end.
Proof.
  intros Hr Hin H1 H2 Hr1 Hr2. destruct Hr as [He Hw Ho Hb]. unfold HandshakeServer.
  set (conn1 := conn <| con_rw := (con_rw conn) <| rw_in := C2 ++ rest |> |>).
  rewrite (run_bind_ok _ _ conn (3 :: C1) conn1).
  2: { apply conn_read_run; [done| |unfold zlen; simpl; lia]. rewrite Hin. by rewrite <- app_comm_cons. }
  assert (Hr' : handshake_ready conn1) by done. cbv zeta. change (drop 1 (3 :: C1)) with C1.
  rewrite (run_bind_ok _ _ conn1 3 conn1) by done. change (negb (3 =? 3)) with false. cbn iota.
  destruct (U32BE_total C1 ltac:(lia)) as [time Et]. rewrite Et, (run_bind_ok _ _ conn1 time conn1) by done.
  destruct (U32BE_total (drop 4 C1) ltac:(rewrite length_drop; lia)) as [ver Ev].
  rewrite Ev, (run_bind_ok _ _ conn1 ver conn1) by done.
  destruct (Z.eqb_spec ver 0) as [-> |Hver]; cbn [negb].
  - rewrite (run_bind_ok _ _ conn1 (3 :: zeros 1536 ++ C1) conn1) by done.
    destruct (server_answers conn1 (3 :: zeros 1536 ++ C1) C2 rest Hr' ltac:(done) eq_refl H2) as (conn2 & -> & Es & Ei & _).
    exists (zeros 1536), C1. split_and!; try done. by left.
  - assert (Hv : ~ versionless C1) by (unfold versionless; rewrite Ev; congruence).
    destruct (hsParse1_run C1 hsClientPartialKey hsServerFullKey conn1 H1) as [(base & digest & Hbase & Hd & E)|(Hn & E)].
    + set (S1 := hs_message time 0x0d0e0a0d hsServerPartialKey random1).
      set (S2 := hs_answer (hmac_sha256 hsServerFullKey digest) random2).
      rewrite (run_bind_ok _ _ conn1 ((3 :: S1) ++ S2) conn1).
      2: { rewrite (run_bind_ok _ _ _ _ _ E). cbn beta iota.
           rewrite (run_bind_ok _ _ _ _ _ (hsCreate01_run (3 :: zeros 1536) time _ _ random1 conn1 ltac:(done) Hr1)).
           by rewrite (run_bind_ok _ _ _ _ _ (hsCreate2_run (zeros 1536) _ random2 conn1 ltac:(done) Hr2)). }
      destruct (server_answers conn1 ((3 :: S1) ++ S2) C2 rest Hr' ltac:(done) eq_refl H2) as (conn2 & -> & Es & Ei & _).
      exists S1, S2. destruct (hs_message_signed time 0x0d0e0a0d hsServerPartialKey random1 Hr1) as [answer Ha].
      assert (Ht : take 1504 S2 = take 1504 random2).
      { unfold S2, hs_answer. rewrite take_app_le by (rewrite length_take; lia). rewrite take_take. f_equal. }
      split_and!; [done|done|by apply hs_message_length| |right; split; [done|]; exists base, digest, answer, time; split_and!; try done].
      * unfold S2, hs_answer. rewrite length_app, length_take, hmac_length. lia.
      * by apply hs_message_time.
      * rewrite Ht. unfold S2, hs_answer. rewrite drop_app_ge, length_take by (rewrite length_take; lia).
        replace (_ - _)%nat with O by lia. by rewrite drop_0.
    + unfold mbind, GoM_bind. by rewrite E.
Qed.

(** The client of this program sends no version: its handshake with the server of this
    program completes on both sides, with what each has sent as the input of the other. *)
Lemma plain_handshake client server random1 random2 rest rest' :
  let C2 := zeros 1536 in let S12 := 3 :: zeros 1536 ++ zeros 1536 in
  handshake_ready client -> handshake_ready server ->
  rw_in (con_rw client) = S12 ++ rest -> rw_in (con_rw server) = (3 :: zeros 1536) ++ C2 ++ rest' ->
  HandshakeClient client = (Ok tt, client <| con_rw := (con_rw client) <| rw_sent := rw_sent (con_rw client) ++ 3 :: zeros 1536 |>
    <| rw_buffered := C2 |> <| rw_in := rest |> |>) /\
  HandshakeServer random1 random2 server = (Ok tt, server <| con_rw := (con_rw server) <| rw_sent := rw_sent (con_rw server) ++ S12 |>
    <| rw_in := rest' |> |>).
Proof.
  intros C2 S12 [Hc1 Hc2 Hc3 Hc4] Hs Hcin Hsin.
  set (client1 := client <| con_rw := (con_rw client) <| rw_sent := rw_sent (con_rw client) ++ 3 :: zeros 1536 |> |>).
  set (client2 := client1 <| con_rw := (con_rw client1) <| rw_in := rest |> |>).
  set (client3 := client2 <| con_rw := (con_rw client2) <| rw_buffered := rw_buffered (con_rw client2) ++ zeros 1536 |> |>).
  assert (Ec : HandshakeClient client = (Ok tt, client3)).
  { unfold HandshakeClient. pose proof (conn_write_flush (3 :: zeros 1536) client Hc2 Hc3 Hc4 ltac:(done)) as Ew.
    unfold mbind at 1, GoM_bind at 1. unfold mbind at 1, GoM_bind at 1 in Ew.
    destruct (on_conn_rw (rw_Write (3 :: zeros 1536)) client) as [[[]|?|?] c]; [|done|done].
    rewrite (run_bind_ok _ _ _ _ _ Ew). fold client1.
    rewrite (run_bind_ok _ _ client1 _ _ (conn_read_run _ S12 rest client1 Hc1 Hcin eq_refl)). fold client2. cbv zeta.
    change (take 1536 (drop 1 S12)) with (zeros 1536). unfold on_conn_rw, rw_Write, check_writeError, bufio_Write. run.
    unfold client2, client1. simpl. rewrite Hc2. simpl. by rewrite Hc3. }
  unfold HandshakeServer. set (server1 := server <| con_rw := (con_rw server) <| rw_in := C2 ++ rest' |> |>).
  destruct Hs as [Hs1 Hs2 Hs3 Hs4]. assert (Hs' : handshake_ready server1) by done.
  rewrite (run_bind_ok _ _ server _ _ (conn_read_run _ (3 :: zeros 1536) (C2 ++ rest') server Hs1 Hsin eq_refl)). fold server1.
  destruct (server_answers server1 S12 C2 rest' Hs' ltac:(done) eq_refl eq_refl) as (server2 & Es & _ & _ & ->).
  rewrite Ec. refine (conj _ Es). unfold client3, client2, client1. simpl. by rewrite Hc4.
Qed.

(** ** Witness *)

Definition sample_C1 : list Z := hs_message 7 1 hsClientPartialKey (zeros 1528).
Definition fresh_conn (input : list Z) : Conn := NewConn (NewReadWriter input io_EOF).

Lemma server_handshake_witness :
  (exists conn' S1 S2,
    HandshakeServer (zeros 1528) (zeros 1536) (fresh_conn (3 :: sample_C1 ++ zeros 1536)) = (Ok tt, conn') /\
    rw_sent (con_rw conn') = 3 :: S1 ++ S2 /\ signed_answer sample_C1 S1 S2) /\
  (exists conn',
    HandshakeServer (zeros 1528) (zeros 1536) (fresh_conn (3 :: zeros 1536 ++ zeros 1536)) = (Ok tt, conn') /\
    rw_sent (con_rw conn') = 3 :: zeros 1536 ++ zeros 1536).
Proof.
  assert (Hr : forall bs, handshake_ready (fresh_conn bs)) by (intros bs; constructor; reflexivity).
  assert (E : forall C1, rw_in (con_rw (fresh_conn (3 :: C1 ++ zeros 1536))) = 3 :: C1 ++ zeros 1536 ++ []) by (intros C1; rewrite app_nil_r; reflexivity).
  assert (Hl : length sample_C1 = 1536%nat) by (apply hs_message_length; reflexivity).
  assert (Hv : ~ versionless sample_C1) by (vm_compute; congruence).
  split.
  - set (conn := fresh_conn (3 :: sample_C1 ++ zeros 1536)).
    pose proof (server_handshake sample_C1 (zeros 1536) [] (zeros 1528) (zeros 1536) conn (Hr _) (E _) Hl eq_refl eq_refl eq_refl) as H.
    destruct (HandshakeServer _ _ _) as [[[]|e|p] conn'].
    + destruct H as (S1 & S2 & Es & _ & _ & _ & Ha). exists conn', S1, S2. split_and!; [reflexivity|exact Es|].
      destruct Ha as [[Hn _]|[_ Ha]]; [destruct (Hv Hn)|exact Ha].
    + exfalso. destruct H as (_ & _ & Hn).
      destruct (hs_message_signed 7 1 hsClientPartialKey (zeros 1528) eq_refl) as [d Hd]. exact (Hn 8%nat d (or_intror eq_refl) Hd).
    + destruct H.
  - set (conn := fresh_conn (3 :: zeros 1536 ++ zeros 1536)).
    pose proof (server_handshake (zeros 1536) (zeros 1536) [] (zeros 1528) (zeros 1536) conn (Hr _) (E _) eq_refl eq_refl eq_refl eq_refl) as H.
    destruct (HandshakeServer _ _ _) as [[[]|e|p] conn'].
    + destruct H as (S1 & S2 & Es & _ & _ & _ & Ha). exists conn'. split; [reflexivity|].
      destruct Ha as [[_ [-> ->]]|[Hn _]]; [exact Es|destruct (Hn eq_refl)].
    + destruct (proj1 H eq_refl).
    + destruct H.
Defined.
