(* ===== verification/RtmpCommands.v ===== *)
(** The commands of RTMP (liveproxy/protocol/rtmp/core: conn_server.go, conn_client.go): how
    a client asks a server for a stream to publish or to play, and how the server answers.
    The order in which Go visits the fields of an object is an argument. *)

From S2P Require Import Prelude Float Cbrt ByteOrder Amf AmfRoundtrip Pio Chunk ChunkDelivery RtmpHandshake.

(** ** Values *)

Fixpoint object_get (key : list Z) (o : Object) : option amf_value :=
  match o with
  | [] => None
  | (k, v) :: o => if decide (k = key) then Some v else object_get key o
  end.

(** [v.(string)], and [int(v.(float64))] *)
Definition as_string {S} (v : amf_value) : GoM S (list Z) :=
  match v with VString s => mret s | _ => panic "interface conversion" end.
Definition int_of (bits : Z) : Z := float_to_i64 (Float64frombits bits).
Definition as_int {S} (v : amf_value) : GoM S Z :=
  match v with VFloat bits => mret (int_of bits) | _ => panic "interface conversion" end.

(** A Go string as the format of an error. *)
Definition string_of (s : list Z) : string :=
  String.string_of_list_ascii (map (fun b => Ascii.ascii_of_nat (Z.to_nat b)) s).

Definition str (s : string) : amf_value := VString (bytes_of s).
Definition int (n : Z) : amf_value := VInt KInt n.

(** [make(amf.Object)] and assignments to its fields. *)
Definition object (fields : list (string * amf_value)) : Object :=
  foldl (fun o '(k, v) => object_set (bytes_of k) v o) [] fields.

(** The errors that are variables of the package, which are compared with. *)
Definition ErrReq : error := errors_New "req error".
Definition ErrFail : error := errors_New "respone err".

Definition publishLive : list Z := bytes_of "live".
Definition cmdConnect : list Z := bytes_of "connect".
Definition cmdFcpublish : list Z := bytes_of "FCPublish".
Definition cmdReleaseStream : list Z := bytes_of "releaseStream".
Definition cmdCreateStream : list Z := bytes_of "createStream".
Definition cmdPublish : list Z := bytes_of "publish".
Definition cmdFCUnpublish : list Z := bytes_of "FCUnpublish".
Definition cmdDeleteStream : list Z := bytes_of "deleteStream".
Definition cmdPlay : list Z := bytes_of "play".
Definition respResult : list Z := bytes_of "_result".
Definition onStatus : list Z := bytes_of "onStatus".
Definition publishStart : list Z := bytes_of "NetStream.Publish.Start".
Definition connectSuccess : list Z := bytes_of "NetConnection.Connect.Success".

(** The message of [writeMsg]. *)
Definition command (csid streamID : Z) (msg : list Z) : ChunkStream :=
  zeroChunkStream <| cs_Format := 0 |> <| cs_CSID := csid |> <| cs_Timestamp := 0 |> <| cs_TypeID := 20 |>
    <| cs_StreamID := streamID |> <| cs_Length := u32 (zlen msg) |> <| cs_Data := msg |>.

(** The arguments encoded into a buffer that was reset, sent and flushed. *)
Definition send_command (csid streamID : Z) (args : list amf_value) : GoM Conn unit :=
  match EncodeBatch AMF0 args [] with
  | (Ok _, msg) => ignore_error (Conn_Write (command csid streamID msg);; mret tt);; Conn_Flush
  | (Err e, _) => fail e
  | (Panic p, _) => panic p
  end.

(** ** Server *)

(** The fields that the code sets. *)
Record ConnectInfo := mkConnectInfo {
  ci_App : list Z;
  ci_Flashver : list Z;
  ci_TcUrl : list Z;
  ci_ObjectEncoding : Z
}.

#[global] Instance eta_ConnectInfo : Eta ConnectInfo := fun c =>
  mkConnectInfo (ci_App c) (ci_Flashver c) (ci_TcUrl c) (ci_ObjectEncoding c).

Record PublishInfo := mkPublishInfo { pub_Name : list Z; pub_Type : list Z }.

#[global] Instance eta_PublishInfo : Eta PublishInfo := fun c => mkPublishInfo (pub_Name c) (pub_Type c).

Record ConnServer := mkConnServer {
  srv_done : bool;
  srv_streamID : Z;
  srv_isPublisher : bool;
  srv_conn : Conn;
  srv_transactionID : Z;
  srv_ConnInfo : ConnectInfo;
  srv_PublishInfo : PublishInfo;
  srv_decoder : Decoder
}.

#[global] Instance eta_ConnServer : Eta ConnServer := fun s =>
  mkConnServer (srv_done s) (srv_streamID s) (srv_isPublisher s) (srv_conn s) (srv_transactionID s) (srv_ConnInfo s)
    (srv_PublishInfo s) (srv_decoder s).

Definition newDecoder : Decoder := mkDecoder [] [] [] [].

Definition NewConnServer (conn : Conn) : ConnServer :=
  mkConnServer false 1 false conn 0 (mkConnectInfo [] [] [] 0) (mkPublishInfo [] []) newDecoder.

Definition srv_io {A} (m : GoM Conn A) : GoM ConnServer A := fun s =>
  let '(r, conn) := m (srv_conn s) in (r, s <| srv_conn := conn |>).
Definition srv_writeMsg (csid streamID : Z) (args : list amf_value) : GoM ConnServer unit :=
  srv_io (send_command csid streamID args).

(** [if x, ok := o[key]; ok { ... }] *)
Definition if_field {S} (key : string) (o : Object) (f : amf_value -> GoM S unit) : GoM S unit :=
  match object_get (bytes_of key) o with Some v => f v | None => mret tt end.
Definition set_info (f : ConnectInfo -> ConnectInfo) : GoM ConnServer unit :=
  modifyS (fun s => s <| srv_ConnInfo := f (srv_ConnInfo s) |>).

Fixpoint srv_connect (vs : list amf_value) : GoM ConnServer unit :=
  match vs with
  | [] => mret tt
  | v :: vs =>
      (match v with
       | VFloat bits =>
           if negb (int_of bits =? 1) then fail ErrReq
           else modifyS (fun s => s <| srv_transactionID := int_of bits |>)
       | VObject obimap =>
           if_field "app" obimap (fun app => app ← as_string app; set_info (fun i => i <| ci_App := app |>));;
           if_field "flashVer" obimap (fun v => v ← as_string v; set_info (fun i => i <| ci_Flashver := v |>));;
           if_field "tcUrl" obimap (fun url => url ← as_string url; set_info (fun i => i <| ci_TcUrl := url |>));;
           if_field "objectEncoding" obimap (fun n => n ← as_int n; set_info (fun i => i <| ci_ObjectEncoding := n |>))
       | _ => mret tt
       end);;
      srv_connect vs
  end.

Section Server.
Context (range_order : Object -> Object).

Definition write_control (c : outcome ChunkStream) : GoM ConnServer unit :=
  c ← lift c; srv_io (ignore_error (Conn_Write c;; mret tt)).

Definition connectResp (cur : ChunkStream) : GoM ConnServer unit :=
  write_control (NewWindowAckSize 2500000);;
  write_control (NewSetPeerBandwidth 2500000);;
  write_control (NewSetChunkSize 1024);;
  let resp := object [("fmsVer"%string, str "FMS/3,0,1,123"); ("capabilities"%string, int 31)] in
  s ← getS;
  let event := object [("level"%string, str "status"); ("code"%string, str "NetConnection.Connect.Success");
                       ("description"%string, str "Connection succeeded.");
                       ("objectEncoding"%string, int (ci_ObjectEncoding (srv_ConnInfo s)))] in
  srv_writeMsg (cs_CSID cur) (cs_StreamID cur)
    [str "_result"; int (srv_transactionID s); VObject (range_order resp); VObject (range_order event)].

Fixpoint srv_createStream (vs : list amf_value) : GoM ConnServer unit :=
  match vs with
  | [] => mret tt
  | v :: vs =>
      (match v with
       | VFloat bits => modifyS (fun s => s <| srv_transactionID := int_of bits |>)
       | _ => mret tt
       end);;
      srv_createStream vs
  end.

Definition createStreamResp (cur : ChunkStream) : GoM ConnServer unit :=
  s ← getS;
  srv_writeMsg (cs_CSID cur) (cs_StreamID cur) [str "_result"; int (srv_transactionID s); VNil; int (srv_streamID s)].

Fixpoint publishOrPlay (k : Z) (vs : list amf_value) : GoM ConnServer unit :=
  match vs with
  | [] => mret tt
  | v :: vs =>
      (match v with
       | VString name =>
           if k =? 2 then modifyS (fun s => s <| srv_PublishInfo := (srv_PublishInfo s) <| pub_Name := name |> |>)
           else if k =? 3 then modifyS (fun s => s <| srv_PublishInfo := (srv_PublishInfo s) <| pub_Type := name |> |>)
           else mret tt
       | VFloat bits => modifyS (fun s => s <| srv_transactionID := int_of bits |>)
       | _ => mret tt
       end);;
      publishOrPlay (k + 1) vs
  end.

(** [onStatus] with an object of the three fields that all of them have. *)
Definition status (cur : ChunkStream) (code description : string) : GoM ConnServer unit :=
  let event := object [("level"%string, str "status"); ("code"%string, str code); ("description"%string, str description)] in
  srv_writeMsg (cs_CSID cur) (cs_StreamID cur) [str "onStatus"; int 0; VNil; VObject (range_order event)].

Definition publishResp (cur : ChunkStream) : GoM ConnServer unit :=
  status cur "NetStream.Publish.Start" "Start publishing.".

Definition playResp (cur : ChunkStream) : GoM ConnServer unit :=
  srv_io SetRecorded;;
  srv_io SetBegin;;
  status cur "NetStream.Play.Reset" "Playing and resetting stream.";;
  status cur "NetStream.Play.Start" "Started playing stream.";;
  status cur "NetStream.Data.Start" "Started playing stream.";;
  status cur "NetStream.Play.PublishNotify" "Started playing notify.";;
  srv_io Conn_Flush.

(** The values of a message: [DecodeBatch] of its data. *)
Definition srv_decode (data : list Z) : GoM ConnServer (list amf_value * error) := fun s =>
  let '(r, (d, _)) := DecodeBatch no_handlers AMF0 (srv_decoder s, data) in (r, s <| srv_decoder := d |>).

Definition srv_finish (publisher : bool) : GoM ConnServer unit :=
  modifyS (fun s => s <| srv_done := true |> <| srv_isPublisher := publisher |>).

(** The switch on the name of the command; [fcPublish] and [releaseStream] do nothing. *)
Definition run_command (c : ChunkStream) (vs : list amf_value) : GoM ConnServer unit :=
  match vs with
  | [] => panic "index out of range"
  | VString name :: vs =>
      if decide (name = cmdConnect) then srv_connect vs;; connectResp c
      else if decide (name = cmdCreateStream) then srv_createStream vs;; createStreamResp c
      else if decide (name = cmdPublish) then publishOrPlay 0 vs;; publishResp c;; srv_finish true
      else if decide (name = cmdPlay) then publishOrPlay 0 vs;; playResp c;; srv_finish false
      else if decide (name = cmdFcpublish \/ name = cmdReleaseStream \/ name = cmdFCUnpublish \/ name = cmdDeleteStream) then mret tt
      else mret tt
  | _ => mret tt
  end.

Definition handleCmdMsg (c : ChunkStream) : GoM ConnServer unit :=
  c ← (if cs_TypeID c =? 17
       then data ← lift (slice_of (cs_Data c) 1 (zlen (cs_Data c))); mret (c <| cs_Data := data |>)
       else mret c);
  '(vs, err) ← srv_decode (cs_Data c);
  match err with
  | io_EOF => run_command c vs
  | err => fail err
  end.

Fixpoint read_commands (fuel : nat) : GoM ConnServer unit :=
  match fuel with
  | O => panic "ReadMsg: out of fuel"
  | S fuel =>
      c ← srv_io Conn_Read;
      (if (cs_TypeID c =? 20) || (cs_TypeID c =? 17) then handleCmdMsg c else mret tt);;
      s ← getS;
      if srv_done s then mret tt else read_commands fuel
  end.

(** Every message takes at least one byte. *)
Definition srv_ReadMsg : GoM ConnServer unit := fun s => read_commands (S (length (rw_in (con_rw (srv_conn s))))) s.
End Server.

(** What the relay writes to a player: without [@setDataFrame]. *)
Definition reform (flag : Z) (c : ChunkStream) : outcome ChunkStream :=
  if (cs_TypeID c =? TAG_SCRIPTDATAAMF0) || (cs_TypeID c =? TAG_SCRIPTDATAAMF3) then
    match MetaDataReform (cs_Data c) flag with
    | Ok data => Ok (c <| cs_Data := data |> <| cs_Length := u32 (zlen data) |>)
    | Err e => Err e
    | Panic p => Panic p
    end
  else Ok c.

Definition srv_Write (c : ChunkStream) : GoM ConnServer unit := c ← lift (reform DEL c); srv_io (Conn_Write c;; mret tt).
Definition srv_Flush : GoM ConnServer unit := srv_io Conn_Flush.
Definition srv_Read : GoM ConnServer ChunkStream := srv_io Conn_Read.
Definition srv_GetInfo (s : ConnServer) : list Z * list Z * list Z :=
  (ci_App (srv_ConnInfo s), pub_Name (srv_PublishInfo s),
   ci_TcUrl (srv_ConnInfo s) ++ bytes_of "/" ++ pub_Name (srv_PublishInfo s)).

(** ** Client *)

(** Without [done], which is not used, and [isRTMPS], which only the dialing uses. *)
Record ConnClient := mkConnClient {
  cli_transID : Z;
  cli_url : list Z;
  cli_tcurl : list Z;
  cli_app : list Z;
  cli_title : list Z;
  cli_curcmdName : list Z;
  cli_streamid : Z;
  cli_conn : Conn;
  cli_decoder : Decoder
}.

#[global] Instance eta_ConnClient : Eta ConnClient := fun c =>
  mkConnClient (cli_transID c) (cli_url c) (cli_tcurl c) (cli_app c) (cli_title c) (cli_curcmdName c) (cli_streamid c)
    (cli_conn c) (cli_decoder c).

(** A new client, with the connection that it will have. *)
Definition NewConnClient (conn : Conn) : ConnClient := mkConnClient 1 [] [] [] [] [] 0 conn newDecoder.

Definition cli_io {A} (m : GoM Conn A) : GoM ConnClient A := fun s =>
  let '(r, conn) := m (cli_conn s) in (r, s <| cli_conn := conn |>).

Definition cli_decode (data : list Z) : GoM ConnClient (list amf_value * error) := fun s =>
  let '(r, (d, _)) := DecodeBatch no_handlers AMF0 (cli_decoder s, data) in (r, s <| cli_decoder := d |>).

Definition cli_DecodeBatch (data : list Z) (ver : Z) : GoM ConnClient (list amf_value * error) := fun s =>
  let '(r, (d, _)) := DecodeBatch no_handlers ver (cli_decoder s, data) in (r, s <| cli_decoder := d |>).

(** [code, ok := objmap["code"]; if ok && code.(string) != expected { return ErrFail }] *)
Definition expect_code (objmap : Object) (expected : list Z) : GoM ConnClient unit :=
  if_field "code" objmap (fun code => code ← as_string code; guard (bool_decide (code = expected)) ErrFail).

(** Value number [k] of the answer to the command [name]. *)
Definition check_response (name : list Z) (k : Z) (v : amf_value) : GoM ConnClient unit :=
  match v with
  | VString s =>
      if decide (name = cmdConnect \/ name = cmdCreateStream)
      then guard (bool_decide (s = respResult)) (fmt_Errorf (string_of s) [])
      else if decide (name = cmdPublish) then guard (bool_decide (s = onStatus)) ErrFail
      else mret tt
  | VFloat bits =>
      if decide (name = cmdConnect \/ name = cmdCreateStream) then
        s ← getS;
        if k =? 1 then guard (int_of bits =? cli_transID s) ErrFail
        else if k =? 3 then putS (s <| cli_streamid := u32 (int_of bits) |>)
        else mret tt
      else if decide (name = cmdPublish) then guard (int_of bits =? 0) ErrFail
      else mret tt
  | VObject objmap =>
      if decide (name = cmdConnect) then expect_code objmap connectSuccess
      else if decide (name = cmdPublish) then expect_code objmap publishStart
      else mret tt
  | _ => mret tt
  end.

Fixpoint check_responses (name : list Z) (k : Z) (vs : list amf_value) : GoM ConnClient unit :=
  match vs with
  | [] => mret tt
  | v :: vs => check_response name k v;; check_responses name (k + 1) vs
  end.

Fixpoint read_response (fuel : nat) : GoM ConnClient unit :=
  match fuel with
  | O => panic "readRespMsg: out of fuel"
  | S fuel =>
      rc ← cli_io Conn_Read;
      if (cs_TypeID rc =? 20) || (cs_TypeID rc =? 17) then
        '(vs, _) ← cli_decode (cs_Data rc);
        s ← getS;
        check_responses (cli_curcmdName s) 0 vs
      else read_response fuel
  end.

Definition readRespMsg : GoM ConnClient unit := fun s => read_response (S (length (rw_in (con_rw (cli_conn s))))) s.

Definition cli_writeMsg (args : list amf_value) : GoM ConnClient unit :=
  s ← getS; cli_io (send_command 3 (cli_streamid s) args).

Definition cli_next (name : list Z) : GoM ConnClient unit :=
  modifyS (fun s => s <| cli_transID := i64 (cli_transID s + 1) |> <| cli_curcmdName := name |>).

Section Client.
Context (range_order : Object -> Object).

Definition writeConnectMsg : GoM ConnClient unit :=
  s ← getS;
  let event := object [("app"%string, VString (cli_app s)); ("type"%string, str "nonprivate"); ("flashVer"%string, str "FMS.3.1");
                       ("tcUrl"%string, VString (cli_tcurl s))] in
  modifyS (fun s => s <| cli_curcmdName := cmdConnect |>);;
  cli_writeMsg [VString cmdConnect; int (cli_transID s); VObject (range_order event)];;
  readRespMsg.

(** The loop that waits for the answer has no bound in the code; [tries] is the number of
    answers that are read. *)
Fixpoint await_stream (tries : nat) : GoM ConnClient unit := fun s =>
  match tries with
  | O => (Panic "writeCreateStreamMsg: out of fuel", s)
  | S tries =>
      match readRespMsg s with
      | (Err e, s) => if decide (e = ErrFail) then (Err e, s) else await_stream tries s
      | r => r
      end
  end.

Definition writeCreateStreamMsg (tries : nat) : GoM ConnClient unit :=
  cli_next cmdCreateStream;;
  s ← getS;
  cli_writeMsg [VString cmdCreateStream; int (cli_transID s); VNil];;
  await_stream tries.

Definition writePublishMsg : GoM ConnClient unit :=
  cli_next cmdPublish;;
  s ← getS;
  cli_writeMsg [VString cmdPublish; int (cli_transID s); VNil; VString (cli_title s); VString publishLive];;
  readRespMsg.

Definition writePlayMsg : GoM ConnClient unit :=
  cli_next cmdPlay;;
  s ← getS;
  cli_writeMsg [VString cmdPlay; int 0; VNil; VString (cli_title s)];;
  readRespMsg.

(** [Start] once the connection is there: [PUBLISH] and [PLAY] are the methods. *)
Definition PUBLISH : list Z := bytes_of "publish".
Definition PLAY : list Z := bytes_of "play".

Definition start_session (tries : nat) (method : list Z) : GoM ConnClient unit :=
  cli_io HandshakeClient;;
  writeConnectMsg;;
  writeCreateStreamMsg tries;;
  if decide (method = PUBLISH) then writePublishMsg
  else if decide (method = PLAY) then writePlayMsg
  else mret tt.
End Client.

Definition cli_Write (c : ChunkStream) : GoM ConnClient unit := c ← lift (reform ADD c); cli_io (Conn_Write c;; mret tt).
Definition cli_Flush : GoM ConnClient unit := cli_io Conn_Flush.
Definition cli_Read : GoM ConnClient ChunkStream := cli_io Conn_Read.
Definition cli_GetInfo (s : ConnClient) : list Z * list Z * list Z := (cli_app s, cli_title s, cli_url s).
