(* ===== verification/RtmpSession.v ===== *)
(** A client and a server of RTMP that read what the other has written (RtmpCommands): a
    session that is published is known to the server by the names that the client gave it. *)

From S2P Require Import Prelude Float Cbrt ByteOrder Amf AmfRoundtrip Pio Chunk ChunkDelivery RtmpHandshake RtmpCommands.

(** ** A connection that has sent [sent], has [buf] to flush and has [inp] to read *)

Record link (kout kin acked : Z) (buf sent inp : list Z) (conn : Conn) : Prop := {
  lk_quiet : quiet (con_rw conn);
  lk_buf : rw_buffered (con_rw conn) = buf;
  lk_sent : rw_sent (con_rw conn) = sent;
  lk_in : rw_in (con_rw conn) = inp;
  lk_error : rw_readError (con_rw conn) = None;
  lk_kout : con_chunkSize conn = kout;
  lk_kin : con_remoteChunkSize conn = kin;
  lk_window : con_remoteWindowAckSize conn = 2500000;
  lk_acked : con_ackReceived conn = acked;
  lk_idle : idle conn
}.

Lemma link_write kout kin acked buf sent inp conn m :
  link kout kin acked buf sent inp conn -> writable_in kout m ->
  exists c conn', Conn_Write m conn = (Ok c, conn') /\
    link (next_size kout m) kin acked (buf ++ message_layout (next_size kout m) m) sent inp conn'.
Proof.
  intros [Hq Hb Hs Hi He Ho Hk Hw Ha Hidle] Hm. destruct (Conn_Write_exact kout m conn Hq Ho Hm) as (c & conn' & E & ->).
  exists c. eexists. split; [exact E|]. constructor; simpl; try done. by rewrite Hb.
Qed.

Lemma link_flush kout kin acked buf sent inp conn :
  link kout kin acked buf sent inp conn ->
  exists conn', Conn_Flush conn = (Ok tt, conn') /\ link kout kin acked [] (sent ++ buf) inp conn'.
Proof.
  intros [[Hq1 Hq2] Hb Hs Hi He Ho Hk Hw Ha Hidle]. unfold Conn_Flush, on_conn_rw, rw_Flush, check_writeError. run.
  rewrite Hq1. simpl. rewrite Hb. destruct buf as [|b buf].
  - eexists. split; [done|]. constructor; simpl; try done. by rewrite app_nil_r.
  - rewrite (proj2 (Z.eqb_neq _ _)) by (rewrite zlen_cons; pose proof (zlen_nonneg buf); lia). rewrite Hq2.
    eexists. split; [done|]. constructor; simpl; try done. by rewrite Hs.
Qed.

(** An acknowledgement is not due yet. *)
Lemma ack_not_due size conn :
  0 <= con_ackReceived conn -> 0 <= size -> con_ackReceived conn + size < con_remoteWindowAckSize conn ->
  con_remoteWindowAckSize conn < 2 ^ 32 ->
  exists received, ack size conn = (Ok tt, conn <| con_received := received |> <| con_ackReceived := con_ackReceived conn + size |>).
Proof.
  intros Ha Hs Hd Hw. unfold ack. run. rewrite (u32_small (_ + size)) by lia.
  destruct (0xf0000000 <=? _); simpl; (rewrite (proj2 (Z.leb_gt _ _)) by lia); by eexists.
Qed.

Lemma link_read kout kin acked buf sent rest m conn :
  link kout kin acked buf sent (message_layout (next_size kin m) m ++ rest) conn -> 0 < kin < 2 ^ 32 -> writable_in kin m ->
  0 <= acked -> acked + cs_Length m < 2500000 ->
  (cs_TypeID m = idWindowAckSize -> BigEndian_Uint32 (cs_Data m) = Ok 2500000) ->
  exists c conn', Conn_Read conn = (Ok c, conn') /\ same_content m c /\
    link kout (next_size kin m) (acked + cs_Length m) buf sent rest conn'.
Proof.
  intros [Hq Hb Hs Hi He Ho Hk Hw Ha Hidle] Hkin Hm Hacked Hdue Hwin.
  destruct (Conn_Read_message kin m conn rest Hk He Hidle Hkin Hm Hi) as (c & pool & E & Hsc & Hrem). rewrite E.
  pose proof (idle_reading conn (csid_key (route m)) c rest pool Hidle Hrem) as Hidle1.
  set (r1 := reading conn (csid_key (route m)) c rest pool) in *. pose proof (sd_length _ (wr_sendable _ _ Hm)) as Hlen.
  set (r2 := r1 <| con_remoteChunkSize := next_size kin m |>).
  assert (E2 : handleControlMsg c r1 = (Ok tt, r2)).
  { unfold handleControlMsg, r2, next_size. rewrite (sc_type _ _ Hsc), (sc_data _ _ Hsc).
    destruct (Z.eqb_spec (cs_TypeID m) idSetChunkSize) as [Et|Et].
    { destruct (BigEndian_Uint32_ok (cs_Data m)) as [v Ev]; [rewrite <- (sd_data _ (wr_sendable _ _ Hm)); by apply (wr_control _ _ Hm); left|].
      unfold mbind, GoM_bind, lift. by rewrite Ev. }
    assert (Hr1 : r1 = r1 <| con_remoteChunkSize := kin |>) by (unfold r1; destruct conn; simpl in *; by subst).
    destruct (Z.eqb_spec (cs_TypeID m) idWindowAckSize) as [Et'|Et'].
    - unfold mbind, GoM_bind, lift. rewrite (Hwin Et'). rewrite <- Hr1. unfold modifyS. f_equal. unfold r1. destruct conn; simpl in *. by subst.
    - by rewrite <- Hr1. }
  rewrite (run_bind_ok _ _ _ _ _ E2), (sc_length _ _ Hsc).
  destruct (ack_not_due (cs_Length m) r2) as [received Ea]; [simpl; rewrite ?Ha, ?Hw; lia..|].
  rewrite (run_bind_ok _ _ _ _ _ Ea). exists c. eexists. split_and!; [done|done|]. constructor; try done. simpl. by rewrite Ha.
Qed.

(** ** Commands as bytes *)

Definition encoded (args : list amf_value) : list Z := concat (map layout0 args).

(** Arguments that a command can carry. *)
Record carried (args : list amf_value) : Prop := {
  ca_some : args <> [];
  ca_fits : Forall fits0 args;
  ca_last : default false (last (map ends_empty0 args)) = false;
  ca_size : zlen (encoded args) <= 300000
}.

Lemma encode_run args : Forall fits0 args -> EncodeBatch AMF0 args [] = (Ok 0, encoded args).
Proof. intros H. by apply (emits_batch AMF0 fits0 layout0 EncodeAmf0_layout args H []). Qed.

Lemma decode_run args d : carried args ->
  exists d', DecodeBatch no_handlers AMF0 (d, encoded args) = (Ok (map decoded0 args, io_EOF), (d', [])).
Proof.
  intros H. destruct (batch_roundtrip no_handlers AMF0 fits0 layout0 decoded0 ends_empty0) with (vs := args) (d := d) as (out & d' & E & E').
  - apply EncodeAmf0_layout.
  - intros v Hv. split; [by apply layout0_cons|]. apply parses_top. by apply DecodeAmf0_layout.
  - done.
  - exact (ca_fits _ H).
  - exact (ca_last _ H).
  - exists d'. rewrite encode_run in E by exact (ca_fits _ H). by simplify_eq.
Qed.

Lemma encoded_some args : carried args -> 0 < zlen (encoded args).
Proof.
  intros H. destruct (ca_fits _ H) as [|v args Hv Hargs]; [by destruct (ca_some _ H)|]. unfold encoded. cbn [map concat].
  rewrite zlen_app. pose proof (zlen_nonneg (concat (map layout0 args))). pose proof (layout0_cons v Hv).
  destruct (layout0 v); [done|]. rewrite zlen_cons. pose proof (zlen_nonneg l). lia.
Qed.

(** The message that carries them. *)
Definition message_of (sid : Z) (args : list amf_value) : ChunkStream := command 3 sid (encoded args).

Lemma command_length sid args : carried args -> cs_Length (message_of sid args) = zlen (encoded args).
Proof. intros H. simpl. apply u32_small. pose proof (encoded_some _ H). pose proof (ca_size _ H). lia. Qed.

Lemma command_writable k sid args : 0 < k < 2 ^ 32 -> 0 <= sid < 2 ^ 32 -> carried args -> writable_in k (message_of sid args).
Proof.
  intros Hk Hs H. pose proof (encoded_some _ H). pose proof (ca_size _ H). pose proof (command_length sid args H) as El.
  constructor; [|done|by intros [|]|done]. constructor; rewrite ?El; try (simpl; lia); try done. unfold maxpoolsize. lia.
Qed.

Lemma send_command_run kout kin acked buf sent inp conn sid args :
  link kout kin acked buf sent inp conn -> 0 < kout < 2 ^ 32 -> 0 <= sid < 2 ^ 32 -> carried args ->
  exists conn', send_command 3 sid args conn = (Ok tt, conn') /\
    link kout kin acked [] (sent ++ buf ++ message_layout kout (message_of sid args)) inp conn'.
Proof.
  intros Hl Hk Hs Ha. unfold send_command. rewrite encode_run by exact (ca_fits _ Ha). fold (message_of sid args).
  destruct (link_write _ _ _ _ _ _ conn (message_of sid args) Hl) as (c & conn1 & E & Hl1); [by apply command_writable|].
  destruct (link_flush _ _ _ _ _ _ conn1 Hl1) as (conn2 & E2 & Hl2). exists conn2. split; [|done].
  unfold ignore_error, mbind at 2, GoM_bind at 2. rewrite (run_bind_ok _ _ _ tt conn1); [done|].
  unfold mbind, GoM_bind. by rewrite E.
Qed.

(** ** Objects in any order *)

Lemma object_get_perm key o o' : NoDup (map fst o) -> Permutation o' o -> object_get key o' = object_get key o.
Proof.
  intros Hn Hp. symmetry in Hp. revert Hn. induction Hp as [|[k v] o o' _ IH|[k v] [k' v'] o|o o' o'' Hp IH _ IH']; intros Hn; simpl in *.
  - done.
  - apply NoDup_cons in Hn as [_ Hn]. case_decide; [done|]. by apply IH.
  - apply NoDup_cons in Hn as [Hk _]. repeat case_decide; simplify_eq; try done. exfalso. apply Hk. left.
  - assert (NoDup (map fst o')) by (by rewrite <- Hp). rewrite IH' by done. by apply IH.
Qed.

Definition decoded_fields (o : Object) : Object := map (fun '(k, v) => (k, decoded0 v)) o.

Section Order.
Context (order : Object -> Object) (Horder : forall o, Permutation (order o) o).

Lemma ordered_get key o : NoDup (map fst o) -> object_get key (decoded_fields (order o)) = object_get key (decoded_fields o).
Proof.
  intros Hn. apply object_get_perm; [|apply Permutation_map, Horder]. unfold decoded_fields. rewrite map_map.
  erewrite map_ext; [exact Hn|]. by intros [].
Qed.

Lemma ordered_fits o : fits0 (VObject o) -> fits0 (VObject (order o)).
Proof.
  cbn [fits0]. intros [Hn Ho]. split; [|rewrite fits_all in *; by rewrite Horder].
  by rewrite (Permutation_map fst (Horder o)).
Qed.

Lemma ordered_size o : zlen (layout0 (VObject (order o))) = zlen (layout0 (VObject o)).
Proof.
  assert (H : forall a b : list (list Z), Permutation a b -> zlen (concat a) = zlen (concat b)).
  { induction 1; cbn [concat]; rewrite ?zlen_app; lia. }
  cbn [layout0]. rewrite !zlen_cons, !zlen_app. do 2 f_equal. apply H, Permutation_map, Horder.
Qed.
End Order.

(** ** What the two sides say *)

Definition connect_object (app tcurl : list Z) : Object :=
  [(bytes_of "app", VString app); (bytes_of "type", str "nonprivate"); (bytes_of "flashVer", str "FMS.3.1"); (bytes_of "tcUrl", VString tcurl)].
Definition connect_args (order : Object -> Object) (app tcurl : list Z) : list amf_value :=
  [VString cmdConnect; int 1; VObject (order (connect_object app tcurl))].
Definition create_args : list amf_value := [VString cmdCreateStream; int 2; VNil].
Definition publish_args (title : list Z) : list amf_value := [VString cmdPublish; int 3; VNil; VString title; VString publishLive].

Definition server_object : Object := [(bytes_of "fmsVer", str "FMS/3,0,1,123"); (bytes_of "capabilities", int 31)].
Definition success_object : Object :=
  [(bytes_of "level", str "status"); (bytes_of "code", VString connectSuccess);
   (bytes_of "description", str "Connection succeeded."); (bytes_of "objectEncoding", int 0)].
Definition start_object : Object :=
  [(bytes_of "level", str "status"); (bytes_of "code", VString publishStart); (bytes_of "description", str "Start publishing.")].
Definition connected_args (order : Object -> Object) : list amf_value :=
  [VString respResult; int 1; VObject (order server_object); VObject (order success_object)].
Definition created_args : list amf_value := [VString respResult; int 2; VNil; int 1].
Definition started_args (order : Object -> Object) : list amf_value := [VString onStatus; int 0; VNil; VObject (order start_object)].

Lemma layout_string s : zlen s <= 65535 -> zlen (layout0 (VString s)) = zlen s + 3.
Proof.
  intros Hs. cbn [layout0]. unfold AMF0_STRING_MAX. rewrite (proj2 (Z.leb_le _ _)) by done. unfold layout_key. rewrite zlen_cons, zlen_app.
  unfold zlen at 1. rewrite be_enc_length. lia.
Qed.

Lemma object_size o :
  zlen (layout0 (VObject o)) = foldr (fun '(k, v) n => zlen k + zlen (layout0 v) + 2 + n) 4 o.
Proof.
  cbn [layout0]. rewrite zlen_cons, zlen_app. change (zlen (layout_key [] ++ [AMF0_OBJECT_END_MARKER])) with 3.
  induction o as [|[k v] o IH]; cbn [map concat foldr]; [done|]. rewrite !zlen_app, <- IH. unfold layout_key. rewrite zlen_app.
  unfold zlen at 1. rewrite be_enc_length. lia.
Qed.

Section Carried.
Context (order : Object -> Object) (Horder : forall o, Permutation (order o) o).

Lemma connect_carried app tcurl : zlen app <= 65535 -> zlen tcurl <= 65535 -> carried (connect_args order app tcurl).
Proof.
  intros Ha Ht. constructor; [done| |done|].
  - constructor; [done|]. constructor; [done|]. constructor; [|done]. apply (ordered_fits order Horder).
    cbn [fits0 connect_object map foldr fst]. split; [by apply (bool_decide_unpack _)|]. split_and!; try done; lia.
  - unfold encoded, connect_args. cbn [map concat]. rewrite !zlen_app, (ordered_size order Horder), object_size.
    unfold connect_object. cbn [foldr]. rewrite (layout_string app), (layout_string tcurl) by done.
    vm_compute (zlen (layout0 (VString cmdConnect))). vm_compute (zlen (layout0 (int 1))). vm_compute (zlen []).
    vm_compute (zlen (bytes_of _)). unfold str. rewrite !layout_string by done. vm_compute (zlen (bytes_of _)). lia.
Qed.

Lemma create_carried : carried create_args.
Proof. constructor; [done| |done|done]. by repeat constructor. Qed.

Lemma publish_carried title : zlen title <= 65535 -> carried (publish_args title).
Proof.
  intros Ht. constructor; [done| |done|].
  - repeat constructor; try done. cbn. lia.
  - unfold encoded, publish_args. cbn [map concat]. rewrite !zlen_app, (layout_string title) by done.
    change (zlen (layout0 (VString cmdPublish))) with 10. change (zlen (layout0 (int 3))) with 9. change (zlen (layout0 VNil)) with 1.
    change (zlen (layout0 (VString publishLive))) with 7. change (zlen (@nil Z)) with 0. lia.
Qed.

Lemma connected_carried : carried (connected_args order).
Proof.
  constructor; [done| |done|].
  - do 2 (constructor; [done|]). constructor; [|constructor; [|done]]; apply (ordered_fits order Horder);
      (split; [by apply (bool_decide_unpack _)|by cbn]).
  - unfold encoded, connected_args. cbn [map concat]. rewrite !zlen_app, !(ordered_size order Horder). by vm_compute.
Qed.

Lemma created_carried : carried created_args.
Proof. constructor; [done| |done|done]. by repeat constructor. Qed.

Lemma started_carried : carried (started_args order).
Proof.
  constructor; [done| |done|].
  - do 3 (constructor; [done|]). constructor; [|done]. apply (ordered_fits order Horder). split; [by apply (bool_decide_unpack _)|by cbn].
  - unfold encoded, started_args. cbn [map concat]. rewrite !zlen_app, !(ordered_size order Horder). by vm_compute.
Qed.
End Carried.

(** ** The server *)

Lemma route_command sid args : route (message_of sid args) = 3.
Proof. done. Qed.

Lemma next_command k sid args : next_size k (message_of sid args) = k.
Proof. done. Qed.

Lemma link_command kout kin acked sent rest sid args conn :
  link kout kin acked [] sent (message_layout kin (message_of sid args) ++ rest) conn ->
  0 < kin < 2 ^ 32 -> 0 <= sid < 2 ^ 32 -> carried args -> 0 <= acked <= 2000000 ->
  exists c conn', Conn_Read conn = (Ok c, conn') /\ same_content (message_of sid args) c /\
    link kout kin (acked + zlen (encoded args)) [] sent rest conn'.
Proof.
  intros Hl Hk Hs Ha Hacked. pose proof (ca_size _ Ha). rewrite <- (next_command kin sid args) in Hl at 2.
  rewrite <- (command_length sid args Ha). apply (link_read kout kin acked [] sent rest (message_of sid args) conn); try done; try lia.
  - by apply command_writable.
  - rewrite command_length by done. lia.
Qed.

Lemma server_receives order fuel s kout kin acked sent rest sid args :
  link kout kin acked [] sent (message_layout kin (message_of sid args) ++ rest) (srv_conn s) ->
  0 < kin < 2 ^ 32 -> 0 <= sid < 2 ^ 32 -> carried args -> 0 <= acked <= 2000000 ->
  exists c conn' d', cs_CSID c = 3 /\ cs_StreamID c = sid /\ link kout kin (acked + zlen (encoded args)) [] sent rest conn' /\
    read_commands order (S fuel) s =
      (run_command order c (map decoded0 args);; s ← getS; if srv_done s then mret tt else read_commands order fuel)
        (s <| srv_conn := conn' |> <| srv_decoder := d' |>).
Proof.
  intros Hl Hk Hs Ha Hacked. destruct (link_command _ _ _ _ _ _ _ _ Hl Hk Hs Ha Hacked) as (c & conn' & E & Hc & Hl').
  destruct (decode_run args (srv_decoder s) Ha) as [d' Ed]. exists c, conn', d'.
  split_and!; [exact (sc_csid _ _ Hc)|exact (sc_stream _ _ Hc)|exact Hl'|]. cbn [read_commands].
  set (s1 := s <| srv_conn := conn' |>). rewrite (run_bind_ok _ _ s c s1) by (unfold srv_io; by rewrite E).
  rewrite (sc_type _ _ Hc). change ((cs_TypeID (message_of sid args) =? 20) || _) with true. cbv iota.
  unfold mbind at 1 3, GoM_bind at 1 3. unfold handleCmdMsg. rewrite (sc_type _ _ Hc). change (cs_TypeID (message_of sid args) =? 17) with false.
  cbv iota. rewrite (run_bind_ok _ _ s1 c s1) by done. set (s2 := s1 <| srv_decoder := d' |>).
  rewrite (run_bind_ok _ _ s1 (map decoded0 args, io_EOF) s2); [done|].
  unfold srv_decode. rewrite (sc_data _ _ Hc). change (cs_Data (message_of sid args)) with (encoded args).
  change (srv_decoder s1) with (srv_decoder s). by rewrite Ed.
Qed.

(** A message of the server. *)
Lemma srv_writeMsg_run s kout kin acked buf sent inp sid args :
  link kout kin acked buf sent inp (srv_conn s) -> 0 < kout < 2 ^ 32 -> 0 <= sid < 2 ^ 32 -> carried args ->
  exists conn', srv_writeMsg 3 sid args s = (Ok tt, s <| srv_conn := conn' |>) /\
    link kout kin acked [] (sent ++ buf ++ message_layout kout (message_of sid args)) inp conn'.
Proof.
  intros Hl Hk Hs Ha. destruct (send_command_run _ _ _ _ _ _ _ sid args Hl Hk Hs Ha) as (conn' & E & Hl'). exists conn'.
  split; [|done]. unfold srv_writeMsg, srv_io. by rewrite E.
Qed.

Lemma write_control_run s kout kin acked buf sent inp m :
  link kout kin acked buf sent inp (srv_conn s) -> writable_in kout m ->
  exists conn', write_control (Ok m) s = (Ok tt, s <| srv_conn := conn' |>) /\
    link (next_size kout m) kin acked (buf ++ message_layout (next_size kout m) m) sent inp conn'.
Proof.
  intros Hl Hm. destruct (link_write _ _ _ _ _ _ _ m Hl Hm) as (c & conn' & E & Hl'). exists conn'. split; [|done].
  unfold write_control. rewrite (run_bind_ok _ _ s m s) by done. unfold srv_io, ignore_error, mbind, GoM_bind. by rewrite E.
Qed.

(** The control messages of [connectResp]. *)
Definition control_of (m : outcome ChunkStream) : ChunkStream := match m with Ok c => c | _ => zeroChunkStream end.
Definition window_message : ChunkStream := control_of (NewWindowAckSize 2500000).
Definition bandwidth_message : ChunkStream := control_of (NewSetPeerBandwidth 2500000).
Definition size_message : ChunkStream := control_of (NewSetChunkSize 1024).

Lemma window_writable : writable_in 128 window_message.
Proof. constructor; [constructor|..]; vm_compute; intuition congruence. Qed.
Lemma bandwidth_writable : writable_in 128 bandwidth_message.
Proof. constructor; [constructor|..]; vm_compute; intuition congruence. Qed.
Lemma size_writable : writable_in 128 size_message.
Proof. constructor; [constructor|..]; vm_compute; intuition congruence. Qed.

Definition control_layout : list Z :=
  message_layout 128 window_message ++ message_layout 128 bandwidth_message ++ message_layout 1024 size_message.

(** A number that was sent is read. *)
Lemma int_read n : 0 <= n < 2 ^ 53 -> int_of (float_bits n mod 256 ^ 8) = n.
Proof.
  intros Hn. destruct (float_bits_exact n Hn) as [Hb E]. rewrite Z.mod_small by (change (256 ^ 8) with (2 ^ 64); lia).
  unfold int_of. rewrite E, f64_of_Z_exact, float_to_i64_exact by lia. by rewrite Z.div_1_r.
Qed.

Section ServerRounds.
Context (order order' : Object -> Object) (Horder : forall o, Permutation (order o) o) (Horder' : forall o, Permutation (order' o) o).

Lemma connectResp_run s c kin acked sent inp :
  link 128 kin acked [] sent inp (srv_conn s) -> cs_CSID c = 3 -> cs_StreamID c = 0 ->
  srv_transactionID s = 1 -> ci_ObjectEncoding (srv_ConnInfo s) = 0 ->
  exists conn', connectResp order' c s = (Ok tt, s <| srv_conn := conn' |>) /\
    link 1024 kin acked [] (sent ++ control_layout ++ message_layout 1024 (message_of 0 (connected_args order'))) inp conn'.
Proof.
  intros Hl Hc1 Hc2 Ht He. unfold connectResp.
  destruct (write_control_run s _ _ _ _ _ _ window_message Hl window_writable) as (conn1 & E1 & Hl1).
  change (NewWindowAckSize 2500000) with (Ok window_message). rewrite (run_bind_ok _ _ _ _ _ E1).
  set (s1 := s <| srv_conn := conn1 |>). change conn1 with (srv_conn s1) in Hl1.
  destruct (write_control_run s1 _ _ _ _ _ _ bandwidth_message Hl1 bandwidth_writable) as (conn2 & E2 & Hl2).
  change (NewSetPeerBandwidth 2500000) with (Ok bandwidth_message). rewrite (run_bind_ok _ _ _ _ _ E2).
  set (s2 := s1 <| srv_conn := conn2 |>). change conn2 with (srv_conn s2) in Hl2.
  destruct (write_control_run s2 _ _ _ _ _ _ size_message Hl2 size_writable) as (conn3 & E3 & Hl3).
  change (NewSetChunkSize 1024) with (Ok size_message). rewrite (run_bind_ok _ _ _ _ _ E3).
  set (s3 := s2 <| srv_conn := conn3 |>). change conn3 with (srv_conn s3) in Hl3. cbv zeta.
  rewrite (run_bind_ok _ _ s3 s3 s3) by done. rewrite Hc1, Hc2.
  change (srv_transactionID s3) with (srv_transactionID s). change (srv_ConnInfo s3) with (srv_ConnInfo s). rewrite Ht, He.
  destruct (srv_writeMsg_run s3 _ _ _ _ _ _ 0 (connected_args order') Hl3) as (conn4 & E4 & Hl4);
    [by vm_compute|lia|by apply connected_carried|].
  exists conn4. split; [exact E4|]. unfold control_layout. rewrite <- !app_assoc. rewrite <- !app_assoc, app_nil_l in Hl4. exact Hl4.
Qed.

(** The fields of the command [connect] as the server reads them. *)
Lemma srv_connect_run app tcurl s :
  srv_connect (map decoded0 (tail (connect_args order app tcurl))) s =
    (Ok tt, s <| srv_transactionID := 1 |>
              <| srv_ConnInfo := mkConnectInfo app (bytes_of "FMS.3.1") tcurl (ci_ObjectEncoding (srv_ConnInfo s)) |>).
Proof.
  assert (Hn : NoDup (map fst (connect_object app tcurl))) by (by apply (bool_decide_unpack _)).
  cbn [connect_args tail map srv_connect decoded0 int]. fold (decoded_fields (order (connect_object app tcurl))).
  unfold decoded_number. rewrite (int_read 1) by lia. change (negb (1 =? 1)) with false. cbv iota.
  rewrite (run_bind_ok _ _ s tt (s <| srv_transactionID := 1 |>)) by reflexivity.
  unfold if_field. rewrite !(ordered_get order Horder) by done.
  change (object_get (bytes_of "app") _) with (Some (VString app)).
  change (object_get (bytes_of "flashVer") _) with (Some (str "FMS.3.1")).
  change (object_get (bytes_of "tcUrl") _) with (Some (VString tcurl)).
  change (object_get (bytes_of "objectEncoding") _) with (@None amf_value). by destruct s as [? ? ? ? ? [] ? ?].
Qed.

Lemma server_connects fuel conn a b url pinfo d acked sent rest app tcurl :
  zlen app <= 65535 -> zlen tcurl <= 65535 -> 0 <= acked <= 2000000 ->
  link 128 128 acked [] sent (message_layout 128 (message_of 0 (connect_args order app tcurl)) ++ rest) conn ->
  exists conn' d', link 1024 128 (acked + zlen (encoded (connect_args order app tcurl))) []
      (sent ++ control_layout ++ message_layout 1024 (message_of 0 (connected_args order'))) rest conn' /\
    read_commands order' (S fuel) (mkConnServer false 1 false conn 0 (mkConnectInfo a b url 0) pinfo d) =
    read_commands order' fuel (mkConnServer false 1 false conn' 1 (mkConnectInfo app (bytes_of "FMS.3.1") tcurl 0) pinfo d').
Proof.
  intros Ha Ht Hacked Hl. set (s := mkConnServer false 1 false conn 0 _ pinfo d).
  destruct (server_receives order' fuel s 128 128 acked sent rest 0 (connect_args order app tcurl)) as (c & conn1 & d1 & Hc1 & Hc2 & Hl1 & E);
    [done|lia|lia|by apply connect_carried|done|].
  rewrite E. change (map decoded0 (connect_args order app tcurl)) with (VString cmdConnect :: map decoded0 (tail (connect_args order app tcurl))).
  unfold run_command. rewrite decide_True by done. set (s1 := s <| srv_conn := conn1 |> <| srv_decoder := d1 |>).
  set (s2 := mkConnServer false 1 false conn1 1 (mkConnectInfo app (bytes_of "FMS.3.1") tcurl 0) pinfo d1).
  change conn1 with (srv_conn s2) in Hl1.
  destruct (connectResp_run s2 c _ _ _ _ Hl1 Hc1 Hc2 eq_refl eq_refl) as (conn3 & E3 & Hl3). exists conn3, d1. split; [exact Hl3|].
  rewrite (run_bind_ok _ _ s1 tt (s2 <| srv_conn := conn3 |>)); [done|].
  rewrite (run_bind_ok _ _ s1 tt s2); [exact E3|]. rewrite srv_connect_run. done.
Qed.

Lemma server_creates fuel conn tid info pinfo d acked sent rest :
  0 <= acked <= 2000000 -> link 1024 128 acked [] sent (message_layout 128 (message_of 0 create_args) ++ rest) conn ->
  exists conn' d', link 1024 128 (acked + zlen (encoded create_args)) [] (sent ++ message_layout 1024 (message_of 0 created_args)) rest conn' /\
    read_commands order' (S fuel) (mkConnServer false 1 false conn tid info pinfo d) =
    read_commands order' fuel (mkConnServer false 1 false conn' 2 info pinfo d').
Proof.
  intros Hacked Hl. set (s := mkConnServer false 1 false conn tid info pinfo d).
  destruct (server_receives order' fuel s 1024 128 acked sent rest 0 create_args) as (c & conn1 & d1 & Hc1 & Hc2 & Hl1 & E);
    [done|lia|lia|apply create_carried|done|].
  rewrite E. cbn [map create_args decoded0 int run_command]. rewrite decide_False, decide_True by done.
  set (s1 := s <| srv_conn := conn1 |> <| srv_decoder := d1 |>). set (s2 := mkConnServer false 1 false conn1 2 info pinfo d1).
  change conn1 with (srv_conn s2) in Hl1.
  destruct (srv_writeMsg_run s2 _ _ _ _ _ _ 0 created_args Hl1) as (conn3 & E3 & Hl3); [lia|lia|apply created_carried|].
  rewrite app_nil_l in Hl3. exists conn3, d1. split; [exact Hl3|]. rewrite (run_bind_ok _ _ s1 tt (s2 <| srv_conn := conn3 |>)); [done|].
  rewrite (run_bind_ok _ _ s1 tt s2).
  - unfold createStreamResp. rewrite (run_bind_ok _ _ s2 s2 s2) by done. by rewrite Hc1, Hc2.
  - unfold decoded_number. cbn [srv_createStream]. rewrite (int_read 2) by lia. done.
Qed.

Lemma server_publishes fuel conn tid info pinfo d acked sent rest title :
  zlen title <= 65535 -> 0 <= acked <= 2000000 ->
  link 1024 128 acked [] sent (message_layout 128 (message_of 1 (publish_args title)) ++ rest) conn ->
  exists conn' d', link 1024 128 (acked + zlen (encoded (publish_args title))) [] (sent ++ message_layout 1024 (message_of 1 (started_args order'))) rest conn' /\
    read_commands order' (S fuel) (mkConnServer false 1 false conn tid info pinfo d) =
    (Ok tt, mkConnServer true 1 true conn' 3 info (mkPublishInfo title publishLive) d').
Proof.
  intros Ht Hacked Hl. set (s := mkConnServer false 1 false conn tid info pinfo d).
  destruct (server_receives order' fuel s 1024 128 acked sent rest 1 (publish_args title)) as (c & conn1 & d1 & Hc1 & Hc2 & Hl1 & E);
    [done|lia|lia|by apply publish_carried|done|].
  rewrite E. cbn [map publish_args decoded0 int run_command]. rewrite !decide_False, decide_True by done.
  set (s1 := s <| srv_conn := conn1 |> <| srv_decoder := d1 |>).
  set (s2 := mkConnServer false 1 false conn1 3 info (mkPublishInfo title publishLive) d1).
  change conn1 with (srv_conn s2) in Hl1.
  destruct (srv_writeMsg_run s2 _ _ _ _ _ _ 1 (started_args order') Hl1) as (conn3 & E3 & Hl3); [lia|lia|by apply started_carried|].
  rewrite app_nil_l in Hl3. exists conn3, d1. split; [exact Hl3|]. set (s3 := s2 <| srv_conn := conn3 |> <| srv_done := true |> <| srv_isPublisher := true |>).
  rewrite (run_bind_ok _ _ s1 tt s3); [done|]. rewrite (run_bind_ok _ _ s1 tt s2).
  - rewrite (run_bind_ok _ _ s2 tt (s2 <| srv_conn := conn3 |>)); [done|]. unfold publishResp, status. rewrite Hc1, Hc2. exact E3.
  - unfold decoded_number. cbn [publishOrPlay]. rewrite (int_read 3) by lia. done.
Qed.
End ServerRounds.

(** ** The client *)

Lemma client_skips fuel s kout kin acked sent rest m :
  link kout kin acked [] sent (message_layout (next_size kin m) m ++ rest) (cli_conn s) -> 0 < kin < 2 ^ 32 -> writable_in kin m ->
  cs_TypeID m < 17 -> 0 <= acked -> acked + cs_Length m < 2500000 ->
  (cs_TypeID m = idWindowAckSize -> BigEndian_Uint32 (cs_Data m) = Ok 2500000) ->
  exists conn', link kout (next_size kin m) (acked + cs_Length m) [] sent rest conn' /\
    read_response (S fuel) s = read_response fuel (s <| cli_conn := conn' |>).
Proof.
  intros Hl Hk Hm Ht Hacked Hdue Hw. destruct (link_read _ _ _ _ _ _ _ _ Hl Hk Hm Hacked Hdue Hw) as (c & conn' & E & Hc & Hl').
  exists conn'. split; [done|]. cbn [read_response]. rewrite (run_bind_ok _ _ s c (s <| cli_conn := conn' |>)) by (unfold cli_io; by rewrite E).
  rewrite (sc_type _ _ Hc). by rewrite !(proj2 (Z.eqb_neq _ _)) by lia.
Qed.

Lemma client_receives fuel s kout kin acked sent rest sid args :
  link kout kin acked [] sent (message_layout kin (message_of sid args) ++ rest) (cli_conn s) ->
  0 < kin < 2 ^ 32 -> 0 <= sid < 2 ^ 32 -> carried args -> 0 <= acked <= 2000000 ->
  exists conn' d', link kout kin (acked + zlen (encoded args)) [] sent rest conn' /\
    read_response (S fuel) s = check_responses (cli_curcmdName s) 0 (map decoded0 args) (s <| cli_conn := conn' |> <| cli_decoder := d' |>).
Proof.
  intros Hl Hk Hs Ha Hacked. destruct (link_command _ _ _ _ _ _ _ _ Hl Hk Hs Ha Hacked) as (c & conn' & E & Hc & Hl').
  destruct (decode_run args (cli_decoder s) Ha) as [d' Ed]. exists conn', d'. split; [exact Hl'|]. cbn [read_response].
  set (s1 := s <| cli_conn := conn' |>). rewrite (run_bind_ok _ _ s c s1) by (unfold cli_io; by rewrite E).
  rewrite (sc_type _ _ Hc). change ((cs_TypeID (message_of sid args) =? 20) || _) with true. cbv iota.
  rewrite (run_bind_ok _ _ s1 (map decoded0 args, io_EOF) (s1 <| cli_decoder := d' |>)); [done|].
  unfold cli_decode. rewrite (sc_data _ _ Hc). change (cs_Data (message_of sid args)) with (encoded args).
  change (cli_decoder s1) with (cli_decoder s). by rewrite Ed.
Qed.

Lemma cli_writeMsg_run s kout kin acked buf sent inp args :
  link kout kin acked buf sent inp (cli_conn s) -> 0 < kout < 2 ^ 32 -> 0 <= cli_streamid s < 2 ^ 32 -> carried args ->
  exists conn', cli_writeMsg args s = (Ok tt, s <| cli_conn := conn' |>) /\
    link kout kin acked [] (sent ++ buf ++ message_layout kout (message_of (cli_streamid s) args)) inp conn'.
Proof.
  intros Hl Hk Hs Ha. destruct (send_command_run _ _ _ _ _ _ _ (cli_streamid s) args Hl Hk Hs Ha) as (conn' & E & Hl'). exists conn'.
  split; [|done]. unfold cli_writeMsg. rewrite (run_bind_ok _ _ s s s) by done. unfold cli_io. by rewrite E.
Qed.

Section ClientRounds.
Context (order order' : Object -> Object) (Horder : forall o, Permutation (order o) o) (Horder' : forall o, Permutation (order' o) o).

Lemma connected_checked s : cli_transID s = 1 -> check_responses cmdConnect 0 (map decoded0 (connected_args order')) s = (Ok tt, s).
Proof.
  intros Ht. cbn [connected_args map decoded0 int check_responses]. fold (decoded_fields (order' server_object)) (decoded_fields (order' success_object)).
  unfold decoded_number. rewrite (run_bind_ok _ _ s tt s) by done. rewrite (run_bind_ok _ _ s tt s).
  2: { unfold check_response. rewrite decide_True by (by left). rewrite (int_read 1) by lia. run. by rewrite Ht. }
  unfold check_response, expect_code, if_field. rewrite !decide_True by done.
  rewrite !(ordered_get order' Horder') by (by apply (bool_decide_unpack _)). done.
Qed.

Lemma created_checked s : cli_transID s = 2 ->
  check_responses cmdCreateStream 0 (map decoded0 created_args) s = (Ok tt, s <| cli_streamid := 1 |>).
Proof.
  intros Ht. cbn [created_args map decoded0 int check_responses]. unfold decoded_number. rewrite (run_bind_ok _ _ s tt s) by done.
  rewrite (run_bind_ok _ _ s tt s).
  2: { unfold check_response. rewrite decide_True by (by right). rewrite (int_read 2) by lia. run. by rewrite Ht. }
  rewrite (run_bind_ok _ _ s tt s) by done. unfold check_response. rewrite decide_True by (by right). by rewrite (int_read 1) by lia.
Qed.

Lemma started_checked s : check_responses cmdPublish 0 (map decoded0 (started_args order')) s = (Ok tt, s).
Proof.
  cbn [started_args map decoded0 int check_responses]. fold (decoded_fields (order' start_object)).
  unfold decoded_number. rewrite (run_bind_ok _ _ s tt s) by done. rewrite (run_bind_ok _ _ s tt s).
  2: { unfold check_response. rewrite decide_False by (by intros [|]). rewrite decide_True by done. by rewrite (int_read 0) by lia. }
  rewrite (run_bind_ok _ _ s tt s) by done. unfold check_response, expect_code, if_field. rewrite decide_False, decide_True by done.
  rewrite !(ordered_get order' Horder') by (by apply (bool_decide_unpack _)). done.
Qed.

Lemma client_connects url tcurl app title name conn d buf sent rest :
  zlen app <= 65535 -> zlen tcurl <= 65535 ->
  link 128 128 0 buf sent (control_layout ++ message_layout 1024 (message_of 0 (connected_args order')) ++ rest) conn ->
  exists conn' d' acked, 0 <= acked <= 400000 /\
    link 128 1024 acked [] (sent ++ buf ++ message_layout 128 (message_of 0 (connect_args order app tcurl))) rest conn' /\
    writeConnectMsg order (mkConnClient 1 url tcurl app title name 0 conn d) =
      (Ok tt, mkConnClient 1 url tcurl app title cmdConnect 0 conn' d').
Proof.
  intros Ha Ht Hl. set (s := mkConnClient 1 url tcurl app title name 0 conn d). unfold writeConnectMsg.
  rewrite (run_bind_ok _ _ s s s) by done. cbv zeta. set (s1 := s <| cli_curcmdName := cmdConnect |>).
  rewrite (run_bind_ok _ _ s tt s1) by done. change conn with (cli_conn s1) in Hl.
  destruct (cli_writeMsg_run s1 _ _ _ _ _ _ (connect_args order app tcurl) Hl) as (conn1 & E1 & Hl1); [lia|simpl; lia|by apply connect_carried|].
  rewrite (run_bind_ok _ _ _ _ _ E1). set (s2 := s1 <| cli_conn := conn1 |>). change conn1 with (cli_conn s2) in Hl1.
  change (cli_streamid s1) with 0 in Hl1. unfold readRespMsg. rewrite (lk_in _ _ _ _ _ _ _ Hl1), length_app.
  change (S (length control_layout + ?n)) with (S (S (S (S (46 + n))))). set (fuel := (46 + _)%nat). clearbody fuel.
  unfold control_layout in Hl1. rewrite <- !app_assoc in Hl1.
  destruct (client_skips (S (S (S fuel))) s2 128 128 0 _ _ window_message Hl1) as (conn3 & Hl3 & ->);
    [lia|apply window_writable|by vm_compute..|]. set (s3 := s2 <| cli_conn := conn3 |>). change conn3 with (cli_conn s3) in Hl3.
  destruct (client_skips (S (S fuel)) s3 128 128 _ _ _ bandwidth_message Hl3) as (conn4 & Hl4 & ->);
    [lia|apply bandwidth_writable|by vm_compute..|]. set (s4 := s3 <| cli_conn := conn4 |>). change conn4 with (cli_conn s4) in Hl4.
  destruct (client_skips (S fuel) s4 128 128 _ _ _ size_message Hl4) as (conn5 & Hl5 & ->);
    [lia|apply size_writable|by vm_compute..|]. set (s5 := s4 <| cli_conn := conn5 |>). change conn5 with (cli_conn s5) in Hl5.
  pose proof (connected_carried order' Horder') as Hca.
  destruct (client_receives fuel s5 128 1024 _ _ _ 0 (connected_args order') Hl5) as (conn6 & d6 & Hl6 & ->);
    [lia|lia|exact Hca|by vm_compute|].
  exists conn6, d6. eexists. split; [|split; [exact Hl6|by apply connected_checked]].
  pose proof (ca_size _ Hca). pose proof (zlen_nonneg (encoded (connected_args order'))). vm_compute (_ + cs_Length size_message). lia.
Qed.

Lemma client_creates tries url tcurl app title name conn d acked sent rest :
  0 <= acked <= 400000 -> link 128 1024 acked [] sent (message_layout 1024 (message_of 0 created_args) ++ rest) conn ->
  exists conn' d', link 128 1024 (acked + zlen (encoded created_args)) [] (sent ++ message_layout 128 (message_of 0 create_args)) rest conn' /\
    writeCreateStreamMsg (S tries) (mkConnClient 1 url tcurl app title name 0 conn d) =
      (Ok tt, mkConnClient 2 url tcurl app title cmdCreateStream 1 conn' d').
Proof.
  intros Hacked Hl. unfold writeCreateStreamMsg. set (s := mkConnClient 2 url tcurl app title cmdCreateStream 0 conn d).
  rewrite (run_bind_ok _ _ _ tt s) by done. rewrite (run_bind_ok _ _ s s s) by done. change conn with (cli_conn s) in Hl.
  destruct (cli_writeMsg_run s _ _ _ _ _ _ create_args Hl) as (conn1 & E1 & Hl1); [lia|simpl; lia|apply create_carried|].
  rewrite (run_bind_ok _ _ _ _ _ E1). set (s2 := s <| cli_conn := conn1 |>). change conn1 with (cli_conn s2) in Hl1.
  change (cli_streamid s) with 0 in Hl1. rewrite app_nil_l in Hl1.
  destruct (client_receives (length (rw_in (con_rw (cli_conn s2)))) s2 128 1024 _ _ _ 0 created_args Hl1) as (conn3 & d3 & Hl3 & E3);
    [lia|lia|apply created_carried|lia|].
  exists conn3, d3. split; [exact Hl3|]. cbn [await_stream]. unfold readRespMsg. rewrite E3.
  change (cli_curcmdName s2) with cmdCreateStream. by rewrite created_checked.
Qed.

Lemma client_publishes url tcurl app title name conn d acked sent rest :
  zlen title <= 65535 -> 0 <= acked <= 1000000 ->
  link 128 1024 acked [] sent (message_layout 1024 (message_of 1 (started_args order')) ++ rest) conn ->
  exists conn' d', link 128 1024 (acked + zlen (encoded (started_args order'))) []
      (sent ++ message_layout 128 (message_of 1 (publish_args title))) rest conn' /\
    writePublishMsg (mkConnClient 2 url tcurl app title name 1 conn d) =
      (Ok tt, mkConnClient 3 url tcurl app title cmdPublish 1 conn' d').
Proof.
  intros Ht Hacked Hl. unfold writePublishMsg. set (s := mkConnClient 3 url tcurl app title cmdPublish 1 conn d).
  rewrite (run_bind_ok _ _ _ tt s) by done. rewrite (run_bind_ok _ _ s s s) by done. change conn with (cli_conn s) in Hl.
  destruct (cli_writeMsg_run s _ _ _ _ _ _ (publish_args title) Hl) as (conn1 & E1 & Hl1); [lia|simpl; lia|by apply publish_carried|].
  rewrite (run_bind_ok _ _ _ _ _ E1). set (s2 := s <| cli_conn := conn1 |>). change conn1 with (cli_conn s2) in Hl1.
  change (cli_streamid s) with 1 in Hl1. rewrite app_nil_l in Hl1.
  destruct (client_receives (length (rw_in (con_rw (cli_conn s2)))) s2 128 1024 _ _ _ 1 (started_args order') Hl1) as (conn3 & d3 & Hl3 & E3);
    [lia|lia|by apply started_carried|lia|].
  exists conn3, d3. split; [exact Hl3|]. unfold readRespMsg. rewrite E3. by apply started_checked.
Qed.
End ClientRounds.

(** ** The session *)

Section Session.
Context (order order' : Object -> Object) (Horder : forall o, Permutation (order o) o) (Horder' : forall o, Permutation (order' o) o).
Context (tcurl app title : list Z) (Htcurl : zlen tcurl <= 65535) (Happ : zlen app <= 65535) (Htitle : zlen title <= 65535).

(** What the client and the server write after the handshake. *)
Definition client_says : list Z :=
  message_layout 128 (message_of 0 (connect_args order app tcurl)) ++ message_layout 128 (message_of 0 create_args) ++
  message_layout 128 (message_of 1 (publish_args title)).
Definition server_says : list Z :=
  control_layout ++ message_layout 1024 (message_of 0 (connected_args order')) ++ message_layout 1024 (message_of 0 created_args) ++
  message_layout 1024 (message_of 1 (started_args order')).

Lemma client_session tries url conn buf sent rest :
  link 128 128 0 buf sent (server_says ++ rest) conn ->
  exists client', (writeConnectMsg order;; writeCreateStreamMsg (S tries);; writePublishMsg)
      (mkConnClient 1 url tcurl app title [] 0 conn newDecoder) = (Ok tt, client') /\
    rw_sent (con_rw (cli_conn client')) = sent ++ buf ++ client_says /\ rw_in (con_rw (cli_conn client')) = rest /\
    cli_streamid client' = 1.
Proof.
  intros Hl. unfold server_says in Hl. rewrite <- !app_assoc in Hl.
  destruct (client_connects order order' Horder Horder' url tcurl app title [] conn newDecoder buf sent _ Happ Htcurl Hl)
    as (conn1 & d1 & acked & Hacked & Hl1 & E1).
  rewrite (run_bind_ok _ _ _ _ _ E1).
  destruct (client_creates tries url tcurl app title cmdConnect conn1 d1 acked _ _ Hacked Hl1) as (conn2 & d2 & Hl2 & E2).
  rewrite (run_bind_ok _ _ _ _ _ E2).
  assert (Hacked2 : 0 <= acked + zlen (encoded created_args) <= 1000000).
  { pose proof (ca_size _ created_carried). pose proof (zlen_nonneg (encoded created_args)). lia. }
  destruct (client_publishes order' Horder' url tcurl app title cmdCreateStream conn2 d2 _ _ rest Htitle Hacked2 Hl2) as (conn3 & d3 & Hl3 & E3).
  rewrite E3. eexists. split_and!; [done| |exact (lk_in _ _ _ _ _ _ _ Hl3)|done].
  simpl. rewrite (lk_sent _ _ _ _ _ _ _ Hl3). unfold client_says. by rewrite <- !app_assoc.
Qed.

Lemma message_some k sid args : 0 < k < 2 ^ 32 -> 0 <= sid < 2 ^ 32 -> carried args ->
  (1 <= length (message_layout k (message_of sid args)))%nat.
Proof.
  intros Hk Hs Ha. pose proof (wr_sendable _ _ (command_writable k sid args Hk Hs Ha)) as Hm. pose proof (sd_length _ Hm).
  pose proof (Z.div_pos (cs_Length (message_of sid args)) k ltac:(lia) ltac:(lia)).
  pose proof (layout_length (S (Z.to_nat (cs_Length (message_of sid args) / k))) k (message_of sid args) 0 0 Hm ltac:(lia) ltac:(lia) ltac:(lia) ltac:(lia)) as Hl.
  fold (message_layout k (message_of sid args)) in Hl. unfold zlen in Hl. lia.
Qed.

Lemma server_session conn sent rest :
  link 128 128 0 [] sent (client_says ++ rest) conn ->
  exists server', srv_ReadMsg order' (NewConnServer conn) = (Ok tt, server') /\
    rw_sent (con_rw (srv_conn server')) = sent ++ server_says /\ rw_in (con_rw (srv_conn server')) = rest /\
    srv_isPublisher server' = true /\ srv_GetInfo server' = (app, title, tcurl ++ bytes_of "/" ++ title).
Proof.
  intros Hl. unfold srv_ReadMsg. change (srv_conn (NewConnServer conn)) with conn. rewrite (lk_in _ _ _ _ _ _ _ Hl).
  pose proof (message_some 128 0 (connect_args order app tcurl) ltac:(lia) ltac:(lia) (connect_carried order Horder app tcurl Happ Htcurl)).
  pose proof (message_some 128 0 create_args ltac:(lia) ltac:(lia) create_carried).
  destruct (length (client_says ++ rest)) as [|[|fuel]] eqn:Ef; try (unfold client_says in Ef; rewrite !length_app in Ef; lia).
  clear Ef. unfold client_says in Hl. rewrite <- !app_assoc in Hl. unfold NewConnServer.
  pose proof (ca_size _ (connect_carried order Horder app tcurl Happ Htcurl)). pose proof (ca_size _ create_carried).
  pose proof (zlen_nonneg (encoded (connect_args order app tcurl))). pose proof (zlen_nonneg (encoded create_args)).
  destruct (server_connects order order' Horder Horder' (S (S fuel)) conn [] [] [] (mkPublishInfo [] []) newDecoder 0 sent _ app tcurl Happ Htcurl ltac:(lia) Hl)
    as (conn1 & d1 & Hl1 & ->).
  set (a1 := 0 + zlen (encoded (connect_args order app tcurl))) in *. assert (Ha1 : 0 <= a1 <= 300000) by (subst a1; lia). clearbody a1.
  destruct (server_creates order' (S fuel) conn1 1 (mkConnectInfo app (bytes_of "FMS.3.1") tcurl 0) (mkPublishInfo [] []) d1 a1 _ _ ltac:(lia) Hl1) as (conn2 & d2 & Hl2 & ->).
  set (a2 := a1 + zlen (encoded create_args)) in *. assert (Ha2 : 0 <= a2 <= 600000) by (subst a2; lia). clearbody a2.
  destruct (server_publishes order' Horder' fuel conn2 2 (mkConnectInfo app (bytes_of "FMS.3.1") tcurl 0) (mkPublishInfo [] []) d2 a2 _ rest title Htitle ltac:(lia) Hl2) as (conn3 & d3 & Hl3 & ->).
  eexists. split_and!; [done| |exact (lk_in _ _ _ _ _ _ _ Hl3)|done|done].
  simpl. rewrite (lk_sent _ _ _ _ _ _ _ Hl3). unfold server_says. by rewrite <- !app_assoc.
Qed.
End Session.

(** C9: A client that starts to publish and a server that accepts it, each reading what the
    other has written, agree: both return without an error, the server knows the client as
    a publisher of the application and the name that the client was given, the client has
    the stream that the server made, and neither has read anything beyond. It holds for
    all names of up to 65535 bytes and whatever the order of the fields of objects. *)
Theorem publish_established order order' random1 random2 tries url tcurl app title :
  (forall o, Permutation (order o) o) -> (forall o, Permutation (order' o) o) ->
  zlen tcurl <= 65535 -> zlen app <= 65535 -> zlen title <= 65535 ->
  exists to_server to_client, forall more more',
    exists client' conn' server',
      start_session order (S tries) PUBLISH (mkConnClient 1 url tcurl app title [] 0 (fresh_conn (to_client ++ more)) newDecoder) = (Ok tt, client') /\
      HandshakeServer random1 random2 (fresh_conn (to_server ++ more')) = (Ok tt, conn') /\
      srv_ReadMsg order' (NewConnServer conn') = (Ok tt, server') /\
      rw_sent (con_rw (cli_conn client')) = to_server /\ rw_in (con_rw (cli_conn client')) = more /\
      rw_sent (con_rw (srv_conn server')) = to_client /\ rw_in (con_rw (srv_conn server')) = more' /\
      cli_streamid client' = 1 /\ srv_isPublisher server' = true /\
      srv_GetInfo server' = (app, title, tcurl ++ bytes_of "/" ++ title).
Proof.
  intros Horder Horder' Htcurl Happ Htitle. set (S12 := 3 :: zeros 1536 ++ zeros 1536).
  exists ((3 :: zeros 1536) ++ zeros 1536 ++ client_says order tcurl app title), (S12 ++ server_says order').
  intros more more'. rewrite <- !app_assoc.
  set (client := fresh_conn (S12 ++ server_says order' ++ more)).
  set (server := fresh_conn ((3 :: zeros 1536) ++ zeros 1536 ++ client_says order tcurl app title ++ more')).
  destruct (plain_handshake client server random1 random2 _ _ ltac:(constructor; reflexivity) ltac:(constructor; reflexivity) eq_refl eq_refl) as [Ec Es].
  set (conn := client <| con_rw := _ |>) in Ec. set (conn' := server <| con_rw := _ |>) in Es.
  destruct (client_session order order' Horder Horder' tcurl app title Htcurl Happ Htitle tries url conn (zeros 1536) (3 :: zeros 1536) more)
    as (client' & E1 & Hs1 & Hi1 & Hid).
  { constructor; try reflexivity; [by split|apply map_Forall_empty]. }
  destruct (server_session order order' Horder Horder' tcurl app title Htcurl Happ Htitle conn' S12 more') as (server' & E2 & Hs2 & Hi2 & Hp & Hg).
  { constructor; try reflexivity; [by split|apply map_Forall_empty]. }
  exists client', conn', server'. refine (conj _ (conj Es (conj E2 (conj Hs1 (conj Hi1 (conj Hs2 (conj Hi2 (conj Hid (conj Hp Hg))))))))).
  unfold start_session. rewrite decide_True by reflexivity.
  rewrite (run_bind_ok _ _ _ tt (mkConnClient 1 url tcurl app title [] 0 conn newDecoder)); [exact E1|].
  unfold cli_io. change (cli_conn _) with client. by rewrite Ec.
Qed.

Lemma publish_established_witness :
  exists to_server to_client, forall more more',
    exists client' conn' server',
      start_session (@rev _) 1 PUBLISH
        (mkConnClient 1 [] (bytes_of "rtmp://host/live") (bytes_of "live") (bytes_of "stream") [] 0 (fresh_conn (to_client ++ more)) newDecoder) =
        (Ok tt, client') /\
      HandshakeServer [] [] (fresh_conn (to_server ++ more')) = (Ok tt, conn') /\
      srv_ReadMsg id (NewConnServer conn') = (Ok tt, server') /\
      rw_sent (con_rw (cli_conn client')) = to_server /\ rw_in (con_rw (cli_conn client')) = more /\
      rw_sent (con_rw (srv_conn server')) = to_client /\ rw_in (con_rw (srv_conn server')) = more' /\
      cli_streamid client' = 1 /\ srv_isPublisher server' = true /\
      srv_GetInfo server' = (bytes_of "live", bytes_of "stream", bytes_of "rtmp://host/live" ++ bytes_of "/" ++ bytes_of "stream").
Proof.
  refine (publish_established (@rev _) id [] [] 0 [] (bytes_of "rtmp://host/live") (bytes_of "live") (bytes_of "stream") _ _ _ _ _).
  - intros o. symmetry. apply Permutation_rev.
  - intros o. apply Permutation_refl.
  - vm_compute. discriminate.
  - vm_compute. discriminate.
  - vm_compute. discriminate.
Defined.

(** ** What goes wrong *)

(** A command without values. *)
Lemma empty_command_panics order c s :
  cs_TypeID c = 20 -> cs_Data c = [] -> fst (handleCmdMsg order c s) = Panic "index out of range".
Proof.
  intros Ht Hd. unfold handleCmdMsg. rewrite Ht. change (20 =? 17) with false. cbv iota. rewrite (run_bind_ok _ _ s c s) by done.
  unfold mbind, GoM_bind, srv_decode. by rewrite Hd.
Qed.

(** A name that is a number. *)
Lemma numeric_app_panics s :
  fst (srv_connect [VObject [(bytes_of "app", VFloat 0)]] s) = Panic "interface conversion".
Proof. reflexivity. Qed.

(** The connection is closed before the answer to [createStream]: the client tries to read
    it again for ever. *)
Lemma closed_connection_hangs tries :
  fst (await_stream tries (NewConnClient (fresh_conn []))) = Panic "writeCreateStreamMsg: out of fuel".
Proof.
  destruct tries as [|tries]; [done|]. cbn [await_stream].
  destruct (readRespMsg (NewConnClient (fresh_conn []))) as [r s] eqn:E. vm_compute in E. injection E as <- <-.
  match goal with |- fst (if decide _ then _ else await_stream tries ?x) = _ => set (s := x) end.
  rewrite decide_False by done. induction tries as [|tries IH]; [done|]. cbn [await_stream].
  assert (E : readRespMsg s = (Err io_EOF, s)) by (vm_compute; reflexivity). rewrite E. by rewrite decide_False.
Qed.
