(* ===== verification/Media.v ===== *)
(** Media packets (liveproxy/av), the headers of their data (container/flv: tag.go,
    demuxer.go) and the parsers of their codecs (parser: aac, h264, mp3). A writer is the
    list of bytes that it has; the one that the parsers are given is a [bytes.Buffer]. *)

From S2P Require Import Prelude ByteOrder Amf AmfRoundtrip Pio Chunk.

(** ** av *)

Definition SOUND_MP3 : Z := 2.
Definition SOUND_AAC : Z := 10.
Definition AAC_SEQHDR : Z := 0.
Definition AAC_RAW : Z := 1.
Definition AVC_SEQHDR : Z := 0.
Definition FRAME_KEY : Z := 1.
Definition FRAME_INTER : Z := 2.
Definition VIDEO_H264 : Z := 7.

(** ** flv: tag.go

    The part of a tag that is parsed; the code sets no field of the other part. *)
Record Tag := mkTag {
  tag_soundFormat : Z;
  tag_soundRate : Z;
  tag_soundSize : Z;
  tag_soundType : Z;
  tag_aacPacketType : Z;
  tag_frameType : Z;
  tag_codecID : Z;
  tag_avcPacketType : Z;
  tag_compositionTime : Z
}.

#[global] Instance eta_Tag : Eta Tag := fun t =>
  mkTag (tag_soundFormat t) (tag_soundRate t) (tag_soundSize t) (tag_soundType t) (tag_aacPacketType t) (tag_frameType t)
    (tag_codecID t) (tag_avcPacketType t) (tag_compositionTime t).

Definition zeroTag : Tag := mkTag 0 0 0 0 0 0 0 0 0.

Definition IsKeyFrame (t : Tag) : bool := tag_frameType t =? FRAME_KEY.
Definition IsSeq (t : Tag) : bool := (tag_frameType t =? FRAME_KEY) && (tag_avcPacketType t =? AVC_SEQHDR).

(** The header of a packet is nil or a tag, which has the methods of audio and of video. *)
Record av_Packet := mk_av_Packet {
  pkt_IsAudio : bool;
  pkt_IsVideo : bool;
  pkt_IsMetadata : bool;
  pkt_TimeStamp : Z;
  pkt_StreamID : Z;
  pkt_Header : option Tag;
  pkt_Data : list Z
}.

#[global] Instance eta_av_Packet : Eta av_Packet := fun p =>
  mk_av_Packet (pkt_IsAudio p) (pkt_IsVideo p) (pkt_IsMetadata p) (pkt_TimeStamp p) (pkt_StreamID p) (pkt_Header p) (pkt_Data p).

Definition zeroPacket : av_Packet := mk_av_Packet false false false 0 0 None [].

(** [b[i]] *)
Definition at_index {S} (b : list Z) (i : nat) : GoM S Z :=
  match b !! i with Some x => mret x | None => panic "index out of range" end.

Definition parseAudioHeader (b : list Z) : GoM Tag Z :=
  if zlen b <? 1 then fail (fmt_Errorf "invalid audiodata len=%d" [zlen b])
  else
    flags ← at_index b 0;
    modifyS (fun t => t <| tag_soundFormat := Z.shiftr flags 4 |>
                        <| tag_soundRate := Z.land (Z.shiftr flags 2) 0x3 |>
                        <| tag_soundSize := Z.land (Z.shiftr flags 1) 0x1 |>
                        <| tag_soundType := Z.land flags 0x1 |>);;
    t ← getS;
    if tag_soundFormat t =? SOUND_AAC then
      packetType ← at_index b 1;
      modifyS (fun t => t <| tag_aacPacketType := packetType |>);;
      mret 2
    else mret 1.

Definition parseVideoHeader (b : list Z) : GoM Tag Z :=
  if zlen b <? 5 then fail (fmt_Errorf "invalid videodata len=%d" [zlen b])
  else
    flags ← at_index b 0;
    modifyS (fun t => t <| tag_frameType := Z.shiftr flags 4 |> <| tag_codecID := Z.land flags 0xf |>);;
    t ← getS;
    if (tag_frameType t =? FRAME_INTER) || (tag_frameType t =? FRAME_KEY) then
      packetType ← at_index b 1;
      b2 ← at_index b 2;
      b3 ← at_index b 3;
      b4 ← at_index b 4;
      modifyS (fun t => t <| tag_avcPacketType := packetType |>
                          <| tag_compositionTime :=
                               foldl (fun ct x => i32 (i32 (Z.shiftl ct 8) + x)) (tag_compositionTime t) [b2; b3; b4] |>);;
      mret 5
    else mret 1.

Definition ParseMediaTagHeader (b : list Z) (isVideo : bool) : GoM Tag Z :=
  if isVideo then parseVideoHeader b else parseAudioHeader b.

(** ** flv: demuxer.go *)

Definition ErrAvcEndSEQ : error := errors_New "avc end sequence".

(** Parses into a tag that is new. *)
Definition parse_tag (p : av_Packet) : outcome (Z * Tag) :=
  match ParseMediaTagHeader (pkt_Data p) (pkt_IsVideo p) zeroTag with
  | (Ok n, tag) => Ok (n, tag)
  | (Err e, _) => Err e
  | (Panic s, _) => Panic s
  end.

Definition DemuxH (p : av_Packet) : outcome av_Packet :=
  match parse_tag p with
  | Ok (_, tag) => Ok (p <| pkt_Header := Some tag |>)
  | Err e => Err e
  | Panic s => Panic s
  end.

Definition Demux (p : av_Packet) : outcome av_Packet :=
  match parse_tag p with
  | Ok (n, tag) =>
      if (tag_codecID tag =? VIDEO_H264) && bool_decide (take 2 (pkt_Data p) = [0x17; 0x02]) then Err ErrAvcEndSEQ
      else
        match slice_of (pkt_Data p) n (zlen (pkt_Data p)) with
        | Ok data => Ok (p <| pkt_Header := Some tag |> <| pkt_Data := data |>)
        | Err e => Err e
        | Panic s => Panic s
        end
  | Err e => Err e
  | Panic s => Panic s
  end.

(** ** parser/aac *)

Record AacParser := mkAacParser {
  aac_gettedSpecific : bool;
  aac_adtsHeader : list Z;
  aac_objectType : Z;
  aac_sampleRate : Z;
  aac_channel : Z
}.

#[global] Instance eta_AacParser : Eta AacParser := fun p =>
  mkAacParser (aac_gettedSpecific p) (aac_adtsHeader p) (aac_objectType p) (aac_sampleRate p) (aac_channel p).

Definition aacRates : list Z := [96000; 88200; 64000; 48000; 44100; 32000; 24000; 22050; 16000; 12000; 11025; 8000; 7350].
Definition specificBufInvalid : error := errors_New "audio mpegspecific error".
Definition audioBufInvalid : error := errors_New "audiodata  invalid".
Definition adtsHeaderLen : Z := 7.

Definition NewAacParser : AacParser := mkAacParser false (replicate (Z.to_nat adtsHeaderLen) 0) 0 0 0.

Abbreviation AacM := (GoM (AacParser * list Z)).
Definition aac_write (bs : list Z) : AacM unit := modifyS (fun '(p, w) => (p, w ++ bs)).
Definition aac_modify (f : AacParser -> AacParser) : AacM unit := modifyS (fun '(p, w) => (f p, w)).

Definition aac_specificInfo (src : list Z) : AacM unit :=
  if zlen src <? 2 then fail specificBufInvalid
  else
    s0 ← at_index src 0;
    s1 ← at_index src 1;
    aac_modify (fun p => p <| aac_gettedSpecific := true |>
                       <| aac_objectType := Z.land (Z.shiftr s0 3) 0xff |>
                       <| aac_sampleRate := Z.lor (u8 (Z.shiftl (Z.land s0 0x07) 1)) (Z.shiftr s1 7) |>
                       <| aac_channel := Z.land (Z.shiftr s1 3) 0x0f |>).

(** The seven bytes, each set from zero. *)
Definition adts_header (p : AacParser) (frameLen : Z) : list Z :=
  [0xff; 0xf1;
   Z.lor (u8 (Z.shiftl (u8 (aac_objectType p - 1)) 6)) (u8 (Z.shiftl (aac_sampleRate p) 2));
   Z.lor (u8 (Z.shiftl (u8 (Z.shiftl (aac_channel p) 2)) 4)) (u8 (Z.shiftr (u16 (Z.shiftl frameLen 3)) 14));
   u8 (Z.shiftr (u16 (Z.shiftl frameLen 5)) 8);
   Z.lor (u8 (u16 (Z.shiftl (Z.shiftr (u16 (Z.shiftl frameLen 13)) 13) 5))) (Z.shiftr (Z.shiftl 0x7C 1) 3);
   0xfc].

Definition aac_adts (src : list Z) : AacM unit :=
  '(p, _) ← getS;
  if (zlen src <=? 0) || negb (aac_gettedSpecific p) then fail audioBufInvalid
  else
    let frameLen := u16 (u16 (zlen src) + 7) in
    aac_modify (fun p => p <| aac_adtsHeader := adts_header p frameLen |>);;
    '(p, _) ← getS;
    aac_write (aac_adtsHeader p);;
    aac_write src.

Definition aac_SampleRate (p : AacParser) : Z :=
  if aac_sampleRate p <=? zlen aacRates - 1 then nth (Z.to_nat (aac_sampleRate p)) aacRates 0 else 44100.

Definition aac_Parse (b : list Z) (packetType : Z) : AacM unit :=
  if packetType =? AAC_SEQHDR then aac_specificInfo b
  else if packetType =? AAC_RAW then aac_adts b
  else mret tt.

(** ** parser/mp3 *)

Definition mp3Rates : list Z := [44100; 48000; 32000].
Definition errMp3DataInvalid : error := errors_New "mp3data  invalid".
Definition errIndexInvalid : error := errors_New "invalid rate index".

(** The state is [samplingFrequency]. *)
Definition mp3_Parse (src : list Z) : GoM Z unit :=
  if zlen src <? 3 then fail errMp3DataInvalid
  else
    s2 ← at_index src 2;
    let index := Z.land (Z.shiftr s2 2) 0x3 in
    if index <=? zlen mp3Rates - 1 then putS (nth (Z.to_nat index) mp3Rates 0)
    else fail errIndexInvalid.

Definition mp3_SampleRate : GoM Z Z :=
  modifyS (fun f => if f =? 0 then 44100 else f);; getS.

(** ** parser/h264 *)

Definition nalu_type_slice : Z := 1.
Definition nalu_type_idr : Z := 5.
Definition nalu_type_sei : Z := 6.
Definition nalu_type_sps : Z := 7.
Definition nalu_type_pps : Z := 8.
Definition nalu_type_aud : Z := 9.
Definition naluBytesLen : Z := 4.
Definition maxSpsPpsLen : Z := 2 * 1024.

Definition decDataNil : error := errors_New "dec buf is nil".
Definition spsDataError : error := errors_New "sps data error".
Definition ppsHeaderError : error := errors_New "pps header error".
Definition ppsDataError : error := errors_New "pps data error".
Definition videoDataInvalid : error := errors_New "video data not match".
Definition dataSizeNotMatch : error := errors_New "data size not match".
Definition naluBodyLenError : error := errors_New "nalu body len error".

Definition startCode : list Z := [0x00; 0x00; 0x00; 0x01].
Definition naluAud : list Z := [0x00; 0x00; 0x00; 0x01; 0x09; 0xf0].

(** The frame type is not used. *)
Record H264Parser := mkH264Parser { h264_specificInfo : list Z; h264_pps : list Z }.

#[global] Instance eta_H264Parser : Eta H264Parser := fun p => mkH264Parser (h264_specificInfo p) (h264_pps p).

Definition NewH264Parser : H264Parser := mkH264Parser [] (replicate (Z.to_nat maxSpsPpsLen) 0).

Abbreviation H264M := (GoM (H264Parser * list Z)).
Definition h264_write (bs : list Z) : H264M unit := modifyS (fun '(p, w) => (p, w ++ bs)).
Definition h264_modify (f : H264Parser -> H264Parser) : H264M unit := modifyS (fun '(p, w) => (f p, w)).
Definition h264_get : H264M H264Parser := fun '(p, w) => (Ok p, (p, w)).

Definition parseSpecificInfo (src : list Z) : H264M unit :=
  if zlen src <? 9 then fail decDataNil
  else
    s6 ← at_index src 6;
    s7 ← at_index src 7;
    let spsLen := Z.lor (Z.shiftl s6 8) s7 in
    if (zlen (drop 8 src) <? spsLen) || (spsLen <=? 0) then fail spsDataError
    else
      sps ← lift (slice_of src 8 (8 + spsLen));
      tmpBuf ← lift (slice_of src (8 + spsLen) (zlen src));
      if zlen tmpBuf <? 4 then fail ppsHeaderError
      else
        t1 ← at_index tmpBuf 1;
        t2 ← at_index tmpBuf 2;
        let ppsLen := Z.lor (Z.lor (Z.shiftl 0 16) (Z.shiftl t1 8)) t2 in
        if (zlen (drop 3 tmpBuf) <? ppsLen) || (ppsLen <=? 0) then fail ppsDataError
        else
          h264_modify (fun p => p <| h264_specificInfo := h264_specificInfo p ++ startCode ++ sps |>);;
          h264_modify (fun p => p <| h264_specificInfo := h264_specificInfo p ++ startCode ++ drop 3 tmpBuf |>).

Definition isNaluHeader (src : list Z) : bool :=
  if zlen src <? naluBytesLen then false else bool_decide (take 4 src = [0x00; 0x00; 0x00; 0x01]).

Definition naluSize (src : list Z) : outcome Z :=
  if zlen src <? naluBytesLen then Err (errors_New "nalusizedata invalid")
  else Ok (foldl (fun size b => i64 (i64 (Z.shiftl size 8) + b)) 0 (take (Z.to_nat naluBytesLen) src)).

(** One unit: [hasSpsPps] and [hasWriteSpsPps] after it. *)
Definition write_unit (nalu : list Z) (hasSpsPps hasWriteSpsPps : bool) : H264M (bool * bool) :=
  n0 ← at_index nalu 0;
  let nalType := Z.land n0 0x1f in
  if nalType =? nalu_type_aud then mret (hasSpsPps, hasWriteSpsPps)
  else if nalType =? nalu_type_idr then
    (if negb hasWriteSpsPps then
       p ← h264_get;
       if negb hasSpsPps then h264_write (h264_specificInfo p) else h264_write (h264_pps p)
     else mret tt);;
    h264_write startCode;;
    h264_write nalu;;
    mret (hasSpsPps, true)
  else if (nalType =? nalu_type_slice) || (nalType =? nalu_type_sei) then
    h264_write startCode;;
    h264_write nalu;;
    mret (hasSpsPps, hasWriteSpsPps)
  else if (nalType =? nalu_type_sps) || (nalType =? nalu_type_pps) then
    h264_modify (fun p => p <| h264_pps := h264_pps p ++ startCode |>);;
    h264_modify (fun p => p <| h264_pps := h264_pps p ++ nalu |>);;
    mret (true, hasWriteSpsPps)
  else mret (hasSpsPps, hasWriteSpsPps).

(** The loop on [src[index:]], of which [dataSize] bytes are left. *)
Fixpoint annexb_loop (fuel : nat) (src : list Z) (hasSpsPps hasWriteSpsPps : bool) : H264M unit :=
  if zlen src <=? 0 then mret tt
  else
    match fuel with
    | O => panic "getAnnexbH264: out of fuel"
    | S fuel =>
        match naluSize src with
        | Ok nalLen =>
            let src := drop (Z.to_nat naluBytesLen) src in
            if (nalLen <=? zlen src) && (0 <? nalLen) then
              '(hasSpsPps, hasWriteSpsPps) ← write_unit (take (Z.to_nat nalLen) src) hasSpsPps hasWriteSpsPps;
              annexb_loop fuel (drop (Z.to_nat nalLen) src) hasSpsPps hasWriteSpsPps
            else fail naluBodyLenError
        | _ => fail dataSizeNotMatch
        end
    end.

Definition getAnnexbH264 (src : list Z) : H264M unit :=
  if zlen src <? naluBytesLen then fail videoDataInvalid
  else
    h264_modify (fun p => p <| h264_pps := [] |>);;
    h264_write naluAud;;
    annexb_loop (length src) src false false.

Definition h264_Parse (b : list Z) (isSeq : bool) : H264M unit :=
  if isSeq then parseSpecificInfo b
  else if isNaluHeader b then h264_write b
  else getAnnexbH264 b.

(** ** parser *)

Definition errNoAudio : error := errors_New "demuxer no audio".

Record CodecParser := mkCodecParser {
  cp_aac : option AacParser;
  cp_mp3 : option Z;
  cp_h264 : option H264Parser
}.

#[global] Instance eta_CodecParser : Eta CodecParser := fun c => mkCodecParser (cp_aac c) (cp_mp3 c) (cp_h264 c).

Definition NewCodecParser : CodecParser := mkCodecParser None None None.

Definition cp_SampleRate : GoM CodecParser Z :=
  c ← getS;
  match cp_aac c, cp_mp3 c with
  | Some aac, _ => mret (aac_SampleRate aac)
  | None, Some f => let '(r, f) := mp3_SampleRate f in putS (c <| cp_mp3 := Some f |>);; lift r
  | None, None => fail errNoAudio
  end.

(** With the writer. *)
Definition cp_Parse (p : av_Packet) : GoM (CodecParser * list Z) unit :=
  '(c, w) ← getS;
  match pkt_Header p with
  | None => mret tt
  | Some f =>
      if pkt_IsVideo p then
        if tag_codecID f =? VIDEO_H264 then
          let '(r, (h, w)) := h264_Parse (pkt_Data p) (IsSeq f) (default NewH264Parser (cp_h264 c), w) in
          putS (c <| cp_h264 := Some h |>, w);; lift r
        else mret tt
      else if tag_soundFormat f =? SOUND_AAC then
        let '(r, (a, w)) := aac_Parse (pkt_Data p) (tag_aacPacketType f) (default NewAacParser (cp_aac c), w) in
        putS (c <| cp_aac := Some a |>, w);; lift r
      else if tag_soundFormat f =? SOUND_MP3 then
        let '(r, m) := mp3_Parse (pkt_Data p) (default 0 (cp_mp3 c)) in
        putS (c <| cp_mp3 := Some m |>, w);; lift r
      else mret tt
  end.

(** ** Units of H.264 *)

Definition unit_ok (nalu : list Z) : Prop := nalu <> [] /\ zlen nalu < 2 ^ 32.

(** Units as they are sent: each after its length in four bytes. *)
Definition avcc (nalus : list (list Z)) : list Z := concat (map (fun nalu => be_enc 4 (zlen nalu) ++ nalu) nalus).

Definition unit_type (nalu : list Z) : Z := Z.land (nth 0 nalu 0) 0x1f.

(** Units as they are written: slices and information after a start code; the parameter
    sets before the first key slice, those of the frame if it has any and otherwise those
    of the stream, [info]; everything else is left out. *)
Fixpoint annexb (info sets : list Z) (seen written : bool) (nalus : list (list Z)) : list Z :=
  match nalus with
  | [] => []
  | nalu :: nalus =>
      if unit_type nalu =? nalu_type_idr then
        (if written then [] else if seen then sets else info) ++ startCode ++ nalu ++ annexb info sets seen true nalus
      else if (unit_type nalu =? nalu_type_slice) || (unit_type nalu =? nalu_type_sei) then
        startCode ++ nalu ++ annexb info sets seen written nalus
      else if (unit_type nalu =? nalu_type_sps) || (unit_type nalu =? nalu_type_pps) then
        annexb info (sets ++ startCode ++ nalu) true written nalus
      else annexb info sets seen written nalus
  end.

Lemma naluSize_bytes b0 b1 b2 b3 rest :
  bytes_ok [b0; b1; b2; b3] -> exists n, naluSize (b0 :: b1 :: b2 :: b3 :: rest) = Ok n /\ 0 <= n < 2 ^ 32 /\ be_enc 4 n = [b0; b1; b2; b3].
Proof.
  intros H. apply Forall_cons in H as [H0 H]. apply Forall_cons in H as [H1 H]. apply Forall_cons in H as [H2 H].
  apply Forall_cons in H as [H3 _]. unfold byte_ok in *. exists (((b0 * 256 + b1) * 256 + b2) * 256 + b3). split_and!; try lia.
  - unfold naluSize, naluBytesLen. rewrite (proj2 (Z.ltb_ge _ _)) by (rewrite !zlen_cons; pose proof (zlen_nonneg rest); lia).
    change (Z.to_nat 4) with 4%nat. cbn [take foldl].
    assert (Hs : forall x b, 0 <= x < 2 ^ 24 -> 0 <= b < 256 -> i64 (i64 (Z.shiftl x 8) + b) = x * 256 + b).
    { intros x b Hx Hb. rewrite Z.shiftl_mul_pow2 by lia. change (2 ^ 8) with 256. rewrite !i64_small; rewrite ?i64_small; lia. }
    rewrite (Hs 0 b0), (Hs _ b1), (Hs _ b2), (Hs _ b3) by lia. f_equal.
  - cbn [be_enc]. rewrite !Z.shiftr_div_pow2 by lia. unfold u8. change (8 * Z.of_nat 3) with 24. change (8 * Z.of_nat 2) with 16.
    change (8 * Z.of_nat 1) with 8. change (8 * Z.of_nat 0) with 0. change (2 ^ 24) with 16777216. change (2 ^ 16) with 65536.
    change (2 ^ 8) with 256. change (2 ^ 0) with 1. repeat f_equal; Z.to_euclidean_division_equations; lia.
Qed.

Lemma write_unit_run nalu seen written p w : nalu <> [] ->
  exists seen' written' p' w', write_unit nalu seen written (p, w) = (Ok (seen', written'), (p', w')) /\
    h264_specificInfo p' = h264_specificInfo p /\
    forall nalus, w ++ annexb (h264_specificInfo p) (h264_pps p) seen written (nalu :: nalus) =
      w' ++ annexb (h264_specificInfo p') (h264_pps p') seen' written' nalus.
Proof.
  intros Hn. destruct nalu as [|n0 nalu]; [done|]. unfold write_unit. rewrite (run_bind_ok _ _ (p, w) n0 (p, w)) by done.
  cbn [annexb]. unfold unit_type. cbn [nth]. set (t := Z.land n0 0x1f). cbv zeta.
  destruct (Z.eqb_spec t nalu_type_aud) as [E|_]; [rewrite E; cbn; eexists _, _, _, _; by split_and!|].
  destruct (t =? nalu_type_idr).
  { destruct written, seen; cbn; eexists _, _, _, _; (split_and!; [reflexivity|done|]); intros; by rewrite <- ?app_assoc. }
  destruct ((t =? nalu_type_slice) || (t =? nalu_type_sei)).
  { eexists _, _, _, _. split_and!; [reflexivity|done|]. intros. by rewrite <- !app_assoc. }
  destruct ((t =? nalu_type_sps) || (t =? nalu_type_pps)); eexists _, _, _, _; (split_and!; [reflexivity|done|]); [|done].
  intros. simpl. by rewrite <- ?app_assoc.
Qed.

(** The first unit of bytes that are units. *)
Lemma avcc_first src nalus : src <> [] -> Forall unit_ok nalus -> src = avcc nalus ->
  exists nalu nalus', unit_ok nalu /\ Forall unit_ok nalus' /\ src = be_enc 4 (zlen nalu) ++ nalu ++ avcc nalus'.
Proof.
  intros Hs Hn ->. destruct Hn as [|nalu nalus Hu Hn]; [done|]. exists nalu, nalus. by split_and!.
Qed.

Lemma first_size n b0 b1 b2 b3 rest nalu tl :
  0 <= n < 2 ^ 32 -> be_enc 4 n = [b0; b1; b2; b3] -> unit_ok nalu ->
  b0 :: b1 :: b2 :: b3 :: rest = be_enc 4 (zlen nalu) ++ nalu ++ tl -> zlen nalu = n /\ rest = nalu ++ tl.
Proof.
  intros Hn En [_ Hu] E. pose proof (f_equal (take 4) E) as E4. change (take 4 (be_enc 4 (zlen nalu) ++ nalu ++ tl)) with (be_enc 4 (zlen nalu)) in E4.
  change (take 4 (b0 :: b1 :: b2 :: b3 :: rest)) with [b0; b1; b2; b3] in E4. rewrite <- En in E4.
  pose proof (zlen_nonneg nalu). split.
  - apply (f_equal be_dec) in E4. rewrite !be_dec_enc, !Z.mod_small in E4 by (simpl; lia). done.
  - by apply (f_equal (drop 4)) in E.
Qed.

(** What the loop does with any bytes. *)
Definition annexb_result (src : list Z) (seen written : bool) (p : H264Parser) (w : list Z) (r : outcome unit * (H264Parser * list Z)) : Prop :=
  match r with
  | (Ok _, (p', w')) => h264_specificInfo p' = h264_specificInfo p /\
      exists nalus, Forall unit_ok nalus /\ src = avcc nalus /\
        w' = w ++ annexb (h264_specificInfo p) (h264_pps p) seen written nalus
  | (Err _, _) => forall nalus, Forall unit_ok nalus -> src <> avcc nalus
  | (Panic _, _) => False
  end.

Lemma annexb_loop_run fuel src seen written p w :
  bytes_ok src -> (length src <= fuel)%nat -> annexb_result src seen written p w (annexb_loop fuel src seen written (p, w)).
Proof.
  revert src seen written p w. induction fuel as [|fuel IH]; intros src seen written p w Hb Hf.
  { destruct src; [|simpl in Hf; lia]. cbn. split; [done|]. exists []. split_and!; [done|done|]. by rewrite app_nil_r. }
  cbn [annexb_loop]. destruct (Z.leb_spec (zlen src) 0) as [Hz|Hz].
  { destruct src; [|rewrite zlen_cons in Hz; pose proof (zlen_nonneg src); lia]. cbn. split; [done|]. exists []. split_and!; [done|done|]. by rewrite app_nil_r. }
  assert (Hs : src <> []) by (by intros ->).
  destruct src as [|b0 [|b1 [|b2 [|b3 rest]]]]; try (intros nalus Hn E; destruct (avcc_first _ nalus Hs Hn E) as (nalu & nalus' & _ & _ & E'); done).
  destruct (naluSize_bytes b0 b1 b2 b3 rest) as (n & -> & Hn & En); [by apply (Forall_take _ 4) in Hb|].
  change (drop (Z.to_nat naluBytesLen) (b0 :: b1 :: b2 :: b3 :: rest)) with rest.
  assert (Hb' : bytes_ok rest) by (by apply (Forall_drop _ 4) in Hb). cbv zeta.
  destruct ((n <=? zlen rest) && (0 <? n)) eqn:Efit.
  - apply andb_prop in Efit as [Hle Hpos]. apply Z.leb_le in Hle. apply Z.ltb_lt in Hpos.
    set (nalu := take (Z.to_nat n) rest). assert (Hl : zlen nalu = n) by (unfold nalu, zlen in *; rewrite length_take; lia).
    assert (Hu : unit_ok nalu) by (split; [intros E; rewrite E in Hl; change (zlen []) with 0 in Hl; lia|lia]).
    destruct (write_unit_run nalu seen written p w (proj1 Hu)) as (seen' & written' & p' & w' & E & Hi & Ha).
    rewrite (run_bind_ok _ _ _ _ _ E). specialize (IH (drop (Z.to_nat n) rest) seen' written' p' w').
    unfold annexb_result in *. destruct (annexb_loop fuel _ seen' written' (p', w')) as [[[]|e|q] [p2 w2]].
    + destruct IH as (Hi2 & nalus & Hn2 & Es & Ew); [by apply Forall_drop|rewrite length_drop; simpl in Hf; lia|].
      split; [congruence|]. exists (nalu :: nalus). split_and!; [by constructor| |by rewrite Ha].
      unfold avcc in *. cbn [map concat]. rewrite <- Es, Hl, En, <- app_assoc. simpl. unfold nalu. by rewrite take_drop.
    + intros nalus Hn2 E2. destruct (avcc_first _ nalus Hs Hn2 E2) as (nalu' & nalus' & Hu' & Hn' & E3).
      destruct (first_size n _ _ _ _ _ _ _ Hn En Hu' E3) as [Hl' Er]. apply IH in Hn'; [|by apply Forall_drop|rewrite length_drop; simpl in Hf; lia]. apply Hn'.
      rewrite Er. unfold zlen in Hl'. rewrite <- Hl', Nat2Z.id. by rewrite drop_app_length.
    + apply IH; [by apply Forall_drop|rewrite length_drop; simpl in Hf; lia].
  - intros nalus Hn2 E2. destruct (avcc_first _ nalus Hs Hn2 E2) as (nalu & nalus' & Hu & _ & E3).
    destruct (first_size n _ _ _ _ _ _ _ Hn En Hu E3) as [Hl ->].
    destruct Hu as [Hne _]. rewrite zlen_app in Efit. pose proof (zlen_nonneg (avcc nalus')).
    destruct nalu; [done|]. rewrite zlen_cons in *. pose proof (zlen_nonneg nalu). apply andb_false_iff in Efit as [H'|H'];
      [apply Z.leb_gt in H'; lia|apply Z.ltb_ge in H'; lia].
Qed.

(** What the conversion of units makes of any bytes. *)
Lemma getAnnexbH264_run src p w : bytes_ok src ->
  match getAnnexbH264 src (p, w) with
  | (Ok _, (p', w')) => h264_specificInfo p' = h264_specificInfo p /\
      exists nalus, nalus <> [] /\ Forall unit_ok nalus /\ src = avcc nalus /\
        w' = w ++ naluAud ++ annexb (h264_specificInfo p) [] false false nalus
  | (Err _, _) => forall nalus, nalus <> [] -> Forall unit_ok nalus -> src <> avcc nalus
  | (Panic _, _) => False
  end.
Proof.
  intros Hb. unfold getAnnexbH264. unfold naluBytesLen. destruct (Z.ltb_spec (zlen src) 4) as [Hl|Hl].
  { intros nalus Hne Hn ->. destruct Hn as [|nalu nalus [Hu _] _]; [done|]. unfold avcc in Hl. cbn [map concat] in Hl.
    rewrite !zlen_app in Hl. pose proof (zlen_nonneg nalu). pose proof (zlen_nonneg (concat (map (fun nalu => be_enc 4 (zlen nalu) ++ nalu) nalus))).
    unfold zlen at 1 in Hl. rewrite be_enc_length in Hl. lia. }
  set (p1 := p <| h264_pps := [] |>). rewrite (run_bind_ok _ _ _ tt (p1, w)) by done. rewrite (run_bind_ok _ _ _ tt (p1, w ++ naluAud)) by done.
  pose proof (annexb_loop_run (length src) src false false p1 (w ++ naluAud) Hb (le_n _)) as H. unfold annexb_result in H.
  destruct (annexb_loop _ _ _ _ _) as [[[]|e|q] [p' w']]; [|by intros nalus _; apply H|done].
  destruct H as (Hi & nalus & Hn & Es & Ew). split; [done|]. exists nalus. split_and!; [|done|done|].
  - intros ->. rewrite Es in Hl. change (zlen (avcc [])) with 0 in Hl. lia.
  - rewrite Ew. simpl. by rewrite <- !app_assoc.
Qed.

(** A sequence header: six bytes, the length of the first parameter set and the set, a count,
    the length of the second one and the bytes that are left, of which this length is a part. *)
Definition seq_header (head sps : list Z) (num len : Z) (rest : list Z) : list Z := head ++ be_enc 2 (zlen sps) ++ sps ++ num :: be_enc 2 len ++ rest.

Definition seq_header_ok (head sps : list Z) (len : Z) (rest : list Z) : Prop :=
  length head = 6%nat /\ 0 < zlen sps < 2 ^ 16 /\ 0 < len < 2 ^ 16 /\ len <= zlen rest.

Lemma two_bytes b0 b1 : byte_ok b0 -> byte_ok b1 -> let n := Z.lor (Z.shiftl b0 8) b1 in 0 <= n < 2 ^ 16 /\ be_enc 2 n = [b0; b1].
Proof.
  intros H0 H1 n. unfold byte_ok in *. assert (En : n = b0 * 256 + b1) by (apply (lor_low 8); lia). rewrite En. split; [lia|]. cbn [be_enc].
  rewrite !Z.shiftr_div_pow2 by lia. unfold u8. change (8 * Z.of_nat 1) with 8. change (8 * Z.of_nat 0) with 0. change (2 ^ 8) with 256. change (2 ^ 0) with 1.
  repeat f_equal; Z.to_euclidean_division_equations; lia.
Qed.

Lemma two_bytes_eq m n b0 b1 : 0 <= m < 2 ^ 16 -> 0 <= n < 2 ^ 16 -> be_enc 2 n = [b0; b1] -> be_enc 2 m = [b0; b1] -> m = n.
Proof. intros Hm Hn En Em. rewrite <- En in Em. apply (f_equal be_dec) in Em. rewrite !be_dec_enc, !Z.mod_small in Em by (simpl; lia). done. Qed.

Lemma seq_header_length head sps num len rest : seq_header_ok head sps len rest -> 13 <= zlen (seq_header head sps num len rest).
Proof.
  intros (Hh & Hs & Hn & Hr). unfold seq_header, zlen in *. rewrite !length_app. cbn [length]. rewrite length_app, !be_enc_length, Hh. lia.
Qed.

(** Where the fields of a sequence header are. *)
Lemma seq_header_inv h0 h1 h2 h3 h4 h5 b6 b7 tail head sps num len rest :
  seq_header_ok head sps len rest -> h0 :: h1 :: h2 :: h3 :: h4 :: h5 :: b6 :: b7 :: tail = seq_header head sps num len rest ->
  be_enc 2 (zlen sps) = [b6; b7] /\ tail = sps ++ num :: be_enc 2 len ++ rest.
Proof.
  intros (Hh & _) E. do 6 (destruct head as [|? head]; [discriminate Hh|]). destruct head; [|discriminate Hh]. unfold seq_header in E.
  cbn [app be_enc] in E. injection E as -> -> -> -> -> -> -> -> ->. done.
Qed.

Lemma second_set_inv n t0 t1 t2 tl tail sps num len rest :
  n = zlen sps -> tail = sps ++ num :: be_enc 2 len ++ rest -> drop (Z.to_nat n) tail = t0 :: t1 :: t2 :: tl ->
  be_enc 2 len = [t1; t2] /\ tl = rest.
Proof.
  intros -> -> E. unfold zlen in E. rewrite Nat2Z.id, drop_app_length in E. cbn [app be_enc] in E. injection E as <- <- <- <-. done.
Qed.

(** What the parser of sequence headers makes of any bytes. *)
Lemma parseSpecificInfo_run src p w : bytes_ok src ->
  match parseSpecificInfo src (p, w) with
  | (Ok _, (p', w')) => w' = w /\ h264_pps p' = h264_pps p /\
      exists head sps num len rest, src = seq_header head sps num len rest /\ seq_header_ok head sps len rest /\
        h264_specificInfo p' = h264_specificInfo p ++ startCode ++ sps ++ startCode ++ rest
  | (Err _, st) => st = (p, w) /\ forall head sps num len rest, seq_header_ok head sps len rest -> src <> seq_header head sps num len rest
  | (Panic _, _) => False
  end.
Proof.
  intros Hb. unfold parseSpecificInfo. destruct (Z.ltb_spec (zlen src) 9) as [Hl|Hl].
  { split; [done|]. intros head sps num len rest Hok ->. pose proof (seq_header_length head sps num len rest Hok). lia. }
  do 8 (destruct src as [|? src]; [exfalso; by apply Hl|]). rename src into tail, z5 into b6, z6 into b7. set (src := z :: _) in *.
  rewrite (run_bind_ok _ _ _ b6 (p, w)) by done. rewrite (run_bind_ok _ _ _ b7 (p, w)) by done. cbv zeta.
  assert (Hb8 : byte_ok b6 /\ byte_ok b7 /\ bytes_ok tail) by (unfold bytes_ok, src in Hb; rewrite !Forall_cons in Hb; tauto). destruct Hb8 as (Hb6 & Hb7 & Hbt).
  destruct (two_bytes b6 b7 Hb6 Hb7) as [Hn En]. set (n := Z.lor (Z.shiftl b6 8) b7) in *. change (drop 8 src) with tail.
  assert (Hz : zlen src = 8 + zlen tail) by (unfold src; rewrite !zlen_cons; lia).
  assert (Hinv : forall head sps num len rest, seq_header_ok head sps len rest -> src = seq_header head sps num len rest -> n = zlen sps /\ tail = sps ++ num :: be_enc 2 len ++ rest).
  { intros head sps num len rest Hok E. destruct (seq_header_inv _ _ _ _ _ _ _ _ _ _ _ _ _ _ Hok E) as [E1 E2]. split; [|done]. destruct Hok as (_ & Hs & _). apply (two_bytes_eq _ _ b6 b7); [lia..|done|done]. }
  destruct ((zlen tail <? n) || (n <=? 0)) eqn:Efit.
  { split; [done|]. intros head sps num len rest Hok E. destruct (Hinv _ _ _ _ _ Hok E) as [E1 E2]. destruct Hok as (_ & Hs & _ & _).
    rewrite E2, zlen_app in Efit. pose proof (zlen_nonneg (num :: be_enc 2 len ++ rest)). apply orb_true_iff in Efit as [Hx|Hx]; [apply Z.ltb_lt in Hx; lia|apply Z.leb_le in Hx; lia]. }
  apply orb_false_iff in Efit as [Hx Hy]. apply Z.ltb_ge in Hx. apply Z.leb_gt in Hy.
  rewrite (run_bind_ok _ _ _ (take (Z.to_nat n) tail) (p, w)).
  2:{ unfold lift, slice_of. rewrite !(proj2 (Z.leb_le _ _)) by lia. cbn [andb]. by replace (8 + n - 8) with n by lia. }
  rewrite (run_bind_ok _ _ _ (drop (Z.to_nat n) tail) (p, w)).
  2:{ unfold lift, slice_of. rewrite !(proj2 (Z.leb_le _ _)) by lia. cbn [andb]. rewrite Z2Nat.inj_add by lia. change (Z.to_nat 8) with 8%nat. rewrite <- drop_drop. change (drop 8 src) with tail.
      rewrite take_ge; [done|]. rewrite length_drop. unfold zlen in *. lia. }
  destruct (Z.ltb_spec (zlen (drop (Z.to_nat n) tail)) 4) as [Ht|Ht].
  { split; [done|]. intros head sps num len rest Hok E. destruct (Hinv _ _ _ _ _ Hok E) as [E1 E2]. destruct Hok as (_ & Hs & Hr1 & Hr2).
    rewrite E1, E2 in Ht. unfold zlen in *. rewrite Nat2Z.id, drop_app_length in Ht. cbn [length] in Ht. rewrite length_app, be_enc_length in Ht. lia. }
  destruct (drop (Z.to_nat n) tail) as [|t0 [|t1 [|t2 tl]]] eqn:Ed; try (exfalso; by apply Ht).
  rewrite (run_bind_ok _ _ _ t1 (p, w)) by done. rewrite (run_bind_ok _ _ _ t2 (p, w)) by done. rewrite Z.shiftl_0_l, Z.lor_0_l.
  assert (Hbd : bytes_ok (t0 :: t1 :: t2 :: tl)) by (rewrite <- Ed; by apply Forall_drop). unfold bytes_ok in Hbd. rewrite !Forall_cons in Hbd. destruct Hbd as (_ & Ht1 & Ht2 & _).
  destruct (two_bytes t1 t2 Ht1 Ht2) as [Hm Em]. set (m := Z.lor (Z.shiftl t1 8) t2) in *. change (drop 3 (t0 :: t1 :: t2 :: tl)) with tl.
  destruct ((zlen tl <? m) || (m <=? 0)) eqn:Efit.
  { split; [done|]. intros head sps num len rest Hok E. destruct (Hinv _ _ _ _ _ Hok E) as [E1 E2]. destruct (second_set_inv n t0 t1 t2 tl tail sps num len rest E1 E2 Ed) as [E3 ->].
    destruct Hok as (_ & _ & Hr1 & Hr2). assert (len = m) as -> by (apply (two_bytes_eq _ _ t1 t2); [lia..|done|done]).
    apply orb_true_iff in Efit as [Hq|Hq]; [apply Z.ltb_lt in Hq; lia|apply Z.leb_le in Hq; lia]. }
  apply orb_false_iff in Efit as [Hq Hr]. apply Z.ltb_ge in Hq. apply Z.leb_gt in Hr. split; [done|]. split; [done|].
  exists [z; z0; z1; z2; z3; z4], (take (Z.to_nat n) tail), t0, m, tl. assert (Hsps : zlen (take (Z.to_nat n) tail) = n) by (unfold zlen in *; rewrite length_take; lia).
  split; [|split; [split_and!; [done|lia..]|]].
  - unfold seq_header. rewrite Hsps, En, Em. unfold src. cbn [app]. rewrite <- (take_drop (Z.to_nat n) tail) at 1. by rewrite Ed.
  - change ((h264_specificInfo p ++ startCode ++ take (Z.to_nat n) tail) ++ startCode ++ tl = h264_specificInfo p ++ startCode ++ take (Z.to_nat n) tail ++ startCode ++ tl). by rewrite <- !app_assoc.
Qed.

(** C32: What the parser makes of H.264, whatever bytes it is given. Of a sequence header it takes
    the parameter sets: it accepts exactly the bytes that have the two sets with their lengths,
    keeps both after start codes and writes nothing. A frame that begins with a start code it
    writes as it is, without a look at the rest. Of the other frames it accepts exactly the bytes
    that are units after their lengths, and writes for them a delimiter and the units with start
    codes in order, with the parameter sets before the first key slice. Everything else is an
    error; no bytes make it panic or run for ever. *)
Theorem h264_units src isSeq p w : bytes_ok src ->
  match h264_Parse src isSeq (p, w) with
  | (Ok _, (p', w')) =>
      if isSeq then
        w' = w /\ h264_pps p' = h264_pps p /\
        exists head sps num len rest, src = seq_header head sps num len rest /\ seq_header_ok head sps len rest /\
          h264_specificInfo p' = h264_specificInfo p ++ startCode ++ sps ++ startCode ++ rest
      else
        (exists rest, src = startCode ++ rest /\ p' = p /\ w' = w ++ src) \/
        (forall rest, src <> startCode ++ rest) /\ h264_specificInfo p' = h264_specificInfo p /\
        exists nalus, nalus <> [] /\ Forall unit_ok nalus /\ src = avcc nalus /\
          w' = w ++ naluAud ++ annexb (h264_specificInfo p) [] false false nalus
  | (Err _, (p', w')) =>
      if isSeq then (p', w') = (p, w) /\ forall head sps num len rest, seq_header_ok head sps len rest -> src <> seq_header head sps num len rest
      else (forall rest, src <> startCode ++ rest) /\ forall nalus, nalus <> [] -> Forall unit_ok nalus -> src <> avcc nalus
  | (Panic _, _) => False
  end.
Proof.
  intros Hb. unfold h264_Parse. destruct isSeq.
  { pose proof (parseSpecificInfo_run src p w Hb) as H. by destruct (parseSpecificInfo src (p, w)) as [[[]|e|q] [p' w']]. }
  assert (Hh : isNaluHeader src = true <-> exists rest, src = startCode ++ rest).
  { unfold isNaluHeader. split.
    - destruct (zlen src <? naluBytesLen); [done|]. intros Ht%bool_decide_eq_true. exists (drop 4 src). change startCode with [0; 0; 0; 1]. rewrite <- Ht. by rewrite take_drop.
    - intros [rest ->]. rewrite (proj2 (Z.ltb_ge _ _)); [done|]. rewrite zlen_app. pose proof (zlen_nonneg rest). change (zlen startCode) with 4. unfold naluBytesLen. lia. }
  destruct (isNaluHeader src) eqn:Eh.
  - destruct (proj1 Hh eq_refl) as [rest E]. cbn. left. by exists rest.
  - assert (Hn : forall rest, src <> startCode ++ rest) by (intros rest E; by assert (false = true) by (apply Hh; by exists rest)).
    pose proof (getAnnexbH264_run src p w Hb) as H. destruct (getAnnexbH264 src (p, w)) as [[[]|e|q] [p' w']]; [by right|done|done].
Qed.

Lemma h264_units_witness :
  let src := avcc [[0x06; 1]; [0x65; 2; 3]; [0x41; 4]] in
  let header := seq_header [1; 100; 0; 31; 255; 225] [0x67; 5] 1 2 [0x68; 6] in
  (exists p' nalus, h264_Parse src false (mkH264Parser [7; 8] [], [9]) = (Ok tt, (p', 9 :: naluAud ++ annexb [7; 8] [] false false nalus)) /\ src = avcc nalus) /\
  exists p', h264_Parse header true (mkH264Parser [] [], []) = (Ok tt, (p', [])).
Proof.
  intros src header. split.
  - assert (Hb : bytes_ok src) by (unfold bytes_ok, byte_ok, src; vm_compute; repeat constructor; discriminate).
    pose proof (h264_units src false (mkH264Parser [7; 8] []) [9] Hb) as H.
    destruct (h264_Parse src false (mkH264Parser [7; 8] [], [9])) as [[[]|e|q] [p' w']] eqn:E.
    + destruct H as [(rest & Es & _)|(_ & _ & nalus & _ & _ & Es & Ew)]; [discriminate Es|]. exists p', nalus. split; [|exact Es]. rewrite Ew. reflexivity.
    + vm_compute in E. discriminate E.
    + vm_compute in E. discriminate E.
  - assert (Hb : bytes_ok header) by (unfold bytes_ok, byte_ok, header; vm_compute; repeat constructor; discriminate).
    pose proof (h264_units header true (mkH264Parser [] []) [] Hb) as H.
    destruct (h264_Parse header true (mkH264Parser [] [], [])) as [[[]|e|q] [p' w']] eqn:E.
    + destruct H as (Ew & _). exists p'. rewrite Ew. reflexivity.
    + vm_compute in E. discriminate E.
    + vm_compute in E. discriminate E.
Defined.

(** ** Frames of AAC *)

(** The fields that a reader of ADTS takes from the seven bytes of a header: the profile,
    the index of the sample rate, the channels and the length of the frame. *)
Definition adts_fields (h : list Z) : option (Z * Z * Z * Z) :=
  match h with
  | [h0; h1; h2; h3; h4; h5; h6] =>
      if (h0 * 16 + h1 / 16 =? 0xfff) && (h1 mod 2 =? 1)
      then Some (h2 / 64, (h2 / 4) mod 16, (h2 mod 2) * 4 + h3 / 64, (h3 mod 4) * 2048 + h4 * 8 + h5 / 32)
      else None
  | _ => None
  end.

(** The fields of the two bytes that configure a stream. *)
Definition config_ok (c0 c1 : Z) : Prop :=
  0 <= c0 < 256 /\ 0 <= c1 < 256 /\ 1 <= c0 / 8 <= 4 /\ (c1 / 8) mod 16 < 4.

(** Bits below and above a place. *)
Lemma lor_add k x b : 0 <= k -> 0 <= b < 2 ^ k -> Z.lor (x * 2 ^ k) b = x * 2 ^ k + b.
Proof. intros Hk Hb. rewrite <- (lor_low k x b) by done. by rewrite Z.shiftl_mul_pow2. Qed.

Lemma land_mod k x m : 0 <= k -> m = Z.ones k -> Z.land x m = x mod 2 ^ k.
Proof. intros Hk ->. by apply Z.land_ones. Qed.

Lemma config_fields c0 c1 : 0 <= c0 < 256 -> 0 <= c1 < 256 ->
  Z.land (Z.shiftr c0 3) 0xff = c0 / 8 /\
  Z.lor (u8 (Z.shiftl (Z.land c0 0x07) 1)) (Z.shiftr c1 7) = (c0 mod 8) * 2 + c1 / 128 /\
  Z.land (Z.shiftr c1 3) 0x0f = (c1 / 8) mod 16.
Proof.
  intros H0 H1. rewrite (land_mod 8 _ 0xff), (land_mod 3 _ 0x07), (land_mod 4 _ 0x0f), !Z.shiftr_div_pow2 by (done || lia).
  change (2 ^ 3) with 8. change (2 ^ 7) with 128. change (2 ^ 8) with 256. change (2 ^ 4) with 16.
  split_and!; [Z.to_euclidean_division_equations; lia| |done].
  assert (0 <= c0 mod 8 < 8) by (apply Z.mod_pos_bound; lia). rewrite u8_small by (rewrite Z.shiftl_mul_pow2 by lia; lia).
  apply (lor_low 1); [lia|]. change (2 ^ 1) with 2. Z.to_euclidean_division_equations; lia.
Qed.

Lemma adts_header_fields p len :
  1 <= aac_objectType p <= 4 -> 0 <= aac_sampleRate p < 16 -> 0 <= aac_channel p < 4 -> 0 <= len < 8192 ->
  adts_fields (adts_header p len) = Some (aac_objectType p - 1, aac_sampleRate p, aac_channel p, len).
Proof.
  intros Ho Hs Hc Hl. unfold adts_fields, adts_header. change ((0xff * 16 + 0xf1 / 16 =? 0xfff) && (0xf1 mod 2 =? 1)) with true. cbv iota.
  rewrite !Z.shiftl_mul_pow2, !Z.shiftr_div_pow2 by lia. rewrite (u8_small (aac_objectType p - 1)) by lia.
  rewrite (u8_small ((aac_objectType p - 1) * 2 ^ 6)), (u8_small (aac_sampleRate p * 2 ^ 2)) by lia.
  rewrite (u8_small (aac_channel p * 2 ^ 2)), (u8_small (aac_channel p * 2 ^ 2 * 2 ^ 4)) by lia.
  replace (aac_channel p * 2 ^ 2 * 2 ^ 4) with (aac_channel p * 2 ^ 6) by lia.
  rewrite (u16_small (len * 2 ^ 3)) by lia. rewrite (u8_small (len * 2 ^ 3 / 2 ^ 14)) by (Z.to_euclidean_division_equations; lia).
  assert (E4 : u8 (u16 (len * 2 ^ 5) / 2 ^ 8) = len mod 2048 / 8) by (unfold u8, u16; Z.to_euclidean_division_equations; lia).
  assert (E5 : u8 (u16 (u16 (len * 2 ^ 13) / 2 ^ 13 * 2 ^ 5)) = len mod 8 * 2 ^ 5) by (unfold u8, u16; Z.to_euclidean_division_equations; lia).
  rewrite E4, E5. change (124 * 2 ^ 1 / 2 ^ 3) with 31.
  rewrite (lor_add 6), (lor_add 6), (lor_add 5) by (Z.to_euclidean_division_equations; lia).
  repeat f_equal; Z.to_euclidean_division_equations; lia.
Qed.

(** A frame of AAC is written after a header that says what the configuration of the
    stream says, and how long the frame is. *)
Lemma adts_framed c0 c1 more src p w :
  config_ok c0 c1 -> 0 < zlen src < 8185 ->
  exists p' h, (aac_Parse (c0 :: c1 :: more) AAC_SEQHDR;; aac_Parse src AAC_RAW) (p, w) = (Ok tt, (p', w ++ h ++ src)) /\
    adts_fields h = Some (c0 / 8 - 1, (c0 mod 8) * 2 + c1 / 128, (c1 / 8) mod 16, zlen src + 7).
Proof.
  intros (H0 & H1 & Ho & Hc) Hs. destruct (config_fields c0 c1 H0 H1) as (E1 & E2 & E3).
  set (p1 := p <| aac_gettedSpecific := true |> <| aac_objectType := c0 / 8 |> <| aac_sampleRate := (c0 mod 8) * 2 + c1 / 128 |>
                 <| aac_channel := (c1 / 8) mod 16 |>).
  rewrite (run_bind_ok _ _ (p, w) tt (p1, w)).
  2: { unfold aac_Parse, aac_specificInfo. rewrite (proj2 (Z.ltb_ge _ _)) by (rewrite !zlen_cons; pose proof (zlen_nonneg more); lia).
       change (AAC_SEQHDR =? AAC_SEQHDR) with true. cbv iota. rewrite (run_bind_ok _ _ (p, w) c0 (p, w)), (run_bind_ok _ _ (p, w) c1 (p, w)) by done. unfold aac_modify, modifyS.
       by rewrite E1, E2, E3. }
  exists (p1 <| aac_adtsHeader := adts_header p1 (zlen src + 7) |>), (adts_header p1 (zlen src + 7)). split.
  - unfold aac_Parse, aac_adts. change (AAC_RAW =? AAC_SEQHDR) with false. change (AAC_RAW =? AAC_RAW) with true. cbv iota.
    rewrite (run_bind_ok _ _ (p1, w) (p1, w) (p1, w)) by done. rewrite (proj2 (Z.leb_gt _ _)) by lia.
    rewrite (u16_small (zlen src)), (u16_small (zlen src + 7)) by lia. change (false || negb (aac_gettedSpecific p1)) with false. cbv iota zeta.
    rewrite (run_bind_ok _ _ (p1, w) tt (p1 <| aac_adtsHeader := adts_header p1 (zlen src + 7) |>, w)) by done.
    rewrite (app_assoc w). done.
  - apply adts_header_fields; simpl; try lia; Z.to_euclidean_division_equations; lia.
Qed.

(** ** What goes wrong *)

(** Four channels are written as none. *)
Lemma four_channels_lost :
  adts_fields (adts_header (mkAacParser true [] 2 4 4) 100) = Some (1, 4, 0, 100).
Proof. reflexivity. Qed.

(** A packet of one byte that says that it is AAC. *)
Lemma short_aac_panics p : pkt_IsVideo p = false -> pkt_Data p = [0xaf] -> DemuxH p = Panic "index out of range".
Proof. intros Hv Hd. unfold DemuxH, parse_tag. by rewrite Hv, Hd. Qed.

(** A composition time of minus one is read as 2^24 - 1. *)
Lemma negative_composition_time p : pkt_IsVideo p = true -> pkt_Data p = [0x27; 1; 0xff; 0xff; 0xff] ->
  exists tag, parse_tag p = Ok (5, tag) /\ tag_compositionTime tag = 2 ^ 24 - 1.
Proof. intros Hv Hd. unfold parse_tag. rewrite Hv, Hd. by eexists. Qed.

(** The parameter sets of a second sequence header are added to those of the first, and
    what follows the picture parameter set is added with it. *)
Definition sample_config_record : list Z := [1; 0x64; 0; 0x28; 0xff; 0xe1; 0; 1; 0x67; 1; 0; 1; 0x68; 0xfd].

Lemma sequence_headers_pile_up :
  snd ((h264_Parse sample_config_record true;; h264_Parse sample_config_record true) (NewH264Parser, [])) =
    (mkH264Parser (startCode ++ [0x67] ++ startCode ++ [0x68; 0xfd] ++ startCode ++ [0x67] ++ startCode ++ [0x68; 0xfd]) (h264_pps NewH264Parser), []).
Proof. reflexivity. Qed.
