(* ===== verification/Ts.v ===== *)
(** MPEG transport streams (liveproxy/container/ts): the packets that HLS sends, and their
    checksums. *)

From S2P Require Import Prelude ByteOrder Amf AmfRoundtrip Pio Chunk Media.

(** ** crc32.go *)

Definition crcTable : list Z :=
  [0x00000000; 0x04c11db7; 0x09823b6e; 0x0d4326d9; 0x130476dc; 0x17c56b6b; 0x1a864db2; 0x1e475005;
   0x2608edb8; 0x22c9f00f; 0x2f8ad6d6; 0x2b4bcb61; 0x350c9b64; 0x31cd86d3; 0x3c8ea00a; 0x384fbdbd;
   0x4c11db70; 0x48d0c6c7; 0x4593e01e; 0x4152fda9; 0x5f15adac; 0x5bd4b01b; 0x569796c2; 0x52568b75;
   0x6a1936c8; 0x6ed82b7f; 0x639b0da6; 0x675a1011; 0x791d4014; 0x7ddc5da3; 0x709f7b7a; 0x745e66cd;
   0x9823b6e0; 0x9ce2ab57; 0x91a18d8e; 0x95609039; 0x8b27c03c; 0x8fe6dd8b; 0x82a5fb52; 0x8664e6e5;
   0xbe2b5b58; 0xbaea46ef; 0xb7a96036; 0xb3687d81; 0xad2f2d84; 0xa9ee3033; 0xa4ad16ea; 0xa06c0b5d;
   0xd4326d90; 0xd0f37027; 0xddb056fe; 0xd9714b49; 0xc7361b4c; 0xc3f706fb; 0xceb42022; 0xca753d95;
   0xf23a8028; 0xf6fb9d9f; 0xfbb8bb46; 0xff79a6f1; 0xe13ef6f4; 0xe5ffeb43; 0xe8bccd9a; 0xec7dd02d;
   0x34867077; 0x30476dc0; 0x3d044b19; 0x39c556ae; 0x278206ab; 0x23431b1c; 0x2e003dc5; 0x2ac12072;
   0x128e9dcf; 0x164f8078; 0x1b0ca6a1; 0x1fcdbb16; 0x018aeb13; 0x054bf6a4; 0x0808d07d; 0x0cc9cdca;
   0x7897ab07; 0x7c56b6b0; 0x71159069; 0x75d48dde; 0x6b93dddb; 0x6f52c06c; 0x6211e6b5; 0x66d0fb02;
   0x5e9f46bf; 0x5a5e5b08; 0x571d7dd1; 0x53dc6066; 0x4d9b3063; 0x495a2dd4; 0x44190b0d; 0x40d816ba;
   0xaca5c697; 0xa864db20; 0xa527fdf9; 0xa1e6e04e; 0xbfa1b04b; 0xbb60adfc; 0xb6238b25; 0xb2e29692;
   0x8aad2b2f; 0x8e6c3698; 0x832f1041; 0x87ee0df6; 0x99a95df3; 0x9d684044; 0x902b669d; 0x94ea7b2a;
   0xe0b41de7; 0xe4750050; 0xe9362689; 0xedf73b3e; 0xf3b06b3b; 0xf771768c; 0xfa325055; 0xfef34de2;
   0xc6bcf05f; 0xc27dede8; 0xcf3ecb31; 0xcbffd686; 0xd5b88683; 0xd1799b34; 0xdc3abded; 0xd8fba05a;
   0x690ce0ee; 0x6dcdfd59; 0x608edb80; 0x644fc637; 0x7a089632; 0x7ec98b85; 0x738aad5c; 0x774bb0eb;
   0x4f040d56; 0x4bc510e1; 0x46863638; 0x42472b8f; 0x5c007b8a; 0x58c1663d; 0x558240e4; 0x51435d53;
   0x251d3b9e; 0x21dc2629; 0x2c9f00f0; 0x285e1d47; 0x36194d42; 0x32d850f5; 0x3f9b762c; 0x3b5a6b9b;
   0x0315d626; 0x07d4cb91; 0x0a97ed48; 0x0e56f0ff; 0x1011a0fa; 0x14d0bd4d; 0x19939b94; 0x1d528623;
   0xf12f560e; 0xf5ee4bb9; 0xf8ad6d60; 0xfc6c70d7; 0xe22b20d2; 0xe6ea3d65; 0xeba91bbc; 0xef68060b;
   0xd727bbb6; 0xd3e6a601; 0xdea580d8; 0xda649d6f; 0xc423cd6a; 0xc0e2d0dd; 0xcda1f604; 0xc960ebb3;
   0xbd3e8d7e; 0xb9ff90c9; 0xb4bcb610; 0xb07daba7; 0xae3afba2; 0xaafbe615; 0xa7b8c0cc; 0xa379dd7b;
   0x9b3660c6; 0x9ff77d71; 0x92b45ba8; 0x9675461f; 0x8832161a; 0x8cf30bad; 0x81b02d74; 0x857130c3;
   0x5d8a9099; 0x594b8d2e; 0x5408abf7; 0x50c9b640; 0x4e8ee645; 0x4a4ffbf2; 0x470cdd2b; 0x43cdc09c;
   0x7b827d21; 0x7f436096; 0x7200464f; 0x76c15bf8; 0x68860bfd; 0x6c47164a; 0x61043093; 0x65c52d24;
   0x119b4be9; 0x155a565e; 0x18197087; 0x1cd86d30; 0x029f3d35; 0x065e2082; 0x0b1d065b; 0x0fdc1bec;
   0x3793a651; 0x3352bbe6; 0x3e119d3f; 0x3ad08088; 0x2497d08d; 0x2056cd3a; 0x2d15ebe3; 0x29d4f654;
   0xc5a92679; 0xc1683bce; 0xcc2b1d17; 0xc8ea00a0; 0xd6ad50a5; 0xd26c4d12; 0xdf2f6bcb; 0xdbee767c;
   0xe3a1cbc1; 0xe760d676; 0xea23f0af; 0xeee2ed18; 0xf0a5bd1d; 0xf464a0aa; 0xf9278673; 0xfde69bc4;
   0x89b8fd09; 0x8d79e0be; 0x803ac667; 0x84fbdbd0; 0x9abc8bd5; 0x9e7d9662; 0x933eb0bb; 0x97ffad0c;
   0xafb010b1; 0xab710d06; 0xa6322bdf; 0xa2f33668; 0xbcb4666d; 0xb8757bda; 0xb5365d03; 0xb1f740b4].

Definition GenCrc32 (src : list Z) : Z :=
  foldl (fun crc32 b =>
    let j := Z.land (Z.lxor (u8 (Z.shiftr crc32 24)) b) 0xff in
    Z.lxor (u32 (Z.shiftl crc32 8)) (nth (Z.to_nat j) crcTable 0)) 0xFFFFFFFF src.

(** ** muxer.go *)

Definition tsDefaultDataLen : Z := 184.
Definition tsPacketLen : Z := 188.
Definition h264DefaultHZ : Z := 90.
Definition videoPID : Z := 0x100.
Definition audioPID : Z := 0x101.
Definition videoSID : Z := 0xe0.
Definition audioSID : Z := 0xc0.

Record Muxer := mkMuxer {
  mux_videoCc : Z;
  mux_audioCc : Z;
  mux_patCc : Z;
  mux_pmtCc : Z;
  mux_pat : list Z;
  mux_pmt : list Z;
  mux_tsPacket : list Z
}.

#[global] Instance eta_Muxer : Eta Muxer := fun m =>
  mkMuxer (mux_videoCc m) (mux_audioCc m) (mux_patCc m) (mux_pmtCc m) (mux_pat m) (mux_pmt m) (mux_tsPacket m).

Definition zeroPacketBytes : list Z := replicate (Z.to_nat tsPacketLen) 0.
Definition NewMuxer : Muxer := mkMuxer 0 0 0 0 zeroPacketBytes zeroPacketBytes zeroPacketBytes.

(** [a[i] = v] and [a[i] |= v] for an array. *)
Definition set_at (i v : Z) : GoM (list Z) unit := fun a =>
  match a !! Z.to_nat i with Some _ => (Ok tt, <[Z.to_nat i := v]> a) | None => (Panic "index out of range", a) end.
Definition or_at (i v : Z) : GoM (list Z) unit :=
  a ← getS; x ← at_index a (Z.to_nat i); set_at i (Z.lor x v).
(** [copy(a[i:], src)] *)
Definition copy_into (i : Z) (src : list Z) : GoM (list Z) unit :=
  a ← getS; lift (slice_of a i (zlen a));; putS (copy_to a i src).

(** *** The header of a PES packet *)

(** The five bytes of a timestamp. *)
Definition writeTs (fb ts : Z) : list Z :=
  let ts := if 0x1ffffffff <? ts then ts - 0x1ffffffff else ts in
  let v1 := Z.lor (Z.lor (u32 (Z.shiftl fb 4)) (u32 (Z.shiftl (Z.land (u32 (Z.shiftr ts 30)) 0x07) 1))) 1 in
  let v2 := Z.lor (u32 (Z.shiftl (Z.land (u32 (Z.shiftr ts 15)) 0x7fff) 1)) 1 in
  let v3 := Z.lor (u32 (Z.shiftl (u32 (Z.land ts 0x7fff)) 1)) 1 in
  [u8 v1; u8 (Z.shiftr v2 8); u8 v2; u8 (Z.shiftr v3 8); u8 v3].

(** [header.data] up to [header.len]. *)
Definition pes_packet (p : av_Packet) (pts dts : Z) : list Z :=
  let sid := if pkt_IsVideo p then videoSID else audioSID in
  let both := pkt_IsVideo p && negb (pts =? dts) in
  let flag := if both then Z.lor 0x80 0x40 else 0x80 in
  let headerSize := if both then 5 + 5 else 5 in
  let size := zlen (pkt_Data p) + headerSize + 3 in
  let size := if 0xffff <? size then 0 else size in
  [0x00; 0x00; 0x01; u8 sid; u8 (Z.shiftr size 8); u8 size; 0x80; u8 flag; u8 headerSize] ++
  writeTs (Z.shiftr flag 6) pts ++ (if both then writeTs 1 dts else []).

(** *** One packet *)

Definition writePcr (i pcr : Z) : GoM (list Z) unit :=
  set_at i (u8 (Z.shiftr pcr 25));;
  set_at (i + 1) (u8 (Z.land (Z.shiftr pcr 17) 0xff));;
  set_at (i + 2) (u8 (Z.land (Z.shiftr pcr 9) 0xff));;
  set_at (i + 3) (u8 (Z.land (Z.shiftr pcr 1) 0xff));;
  set_at (i + 4) (u8 (Z.lor (i64 (Z.shiftl (Z.land pcr 0x1) 7)) 0x7e));;
  set_at (i + 5) 0x00.

(** On [a[i:]]. *)
Definition adaptationBufInit (i remainBytes : Z) : GoM (list Z) unit :=
  a ← getS;
  lift (slice_of a i (zlen a));;
  set_at i (u8 (remainBytes - 1));;
  if remainBytes =? 1 then mret tt
  else
    set_at (i + 1) 0x00;;
    modifyS (fun a => take (Z.to_nat i + 2) a ++ map (fun _ => 0xff) (drop (Z.to_nat i + 2) a)).

(** The four bytes of the header and the clock of a key frame: where the rest begins. *)
Definition packet_header (first isKey : bool) (pid cc dts : Z) : GoM (list Z) Z :=
  set_at 0 0x47;;
  set_at 1 (u8 (Z.shiftr pid 8));;
  (if first then or_at 1 0x40 else mret tt);;
  set_at 2 (u8 pid);;
  set_at 3 (Z.lor 0x10 (u8 (Z.land cc 0x0f)));;
  if first && isKey then
    or_at 3 0x20;;
    set_at 4 7;;
    set_at 5 0x50;;
    writePcr 6 dts;;
    mret 12
  else mret 4.

(** Stuffing when the data does not fill the packet: the length of the data, and where it
    begins. *)
Definition packet_stuffing (first : bool) (i packetBytesLen : Z) : GoM (list Z) (Z * Z) :=
  if tsDefaultDataLen <=? packetBytesLen then
    mret (if first then u8 (tsDefaultDataLen - u8 (i - 4)) else tsDefaultDataLen, i)
  else
    or_at 3 0x20;;
    let dataLen := u8 packetBytesLen in
    let remainBytes := if first then u8 (u8 (tsDefaultDataLen - dataLen) - u8 (i - 4)) else u8 (tsDefaultDataLen - dataLen) in
    adaptationBufInit i remainBytes;;
    mret (dataLen, u8 (i + remainBytes)).

(** What is left of a frame. *)
Record MuxLoop := mkMuxLoop {
  ml_first : bool;
  ml_wBytes : Z;
  ml_pesIndex : Z;
  ml_pesHeaderLen : Z;
  ml_packetBytesLen : Z
}.

(** The header of the frame, copied to [i]: where its data begins, how much of it follows
    and what is left. *)
Definition copy_pes (pes : list Z) (l : MuxLoop) (i dataLen : Z) : GoM (list Z) (Z * Z * MuxLoop) :=
  if ml_first l && (i <? tsPacketLen) && (0 <? ml_pesHeaderLen l) then
    let tmpLen := u8 (tsPacketLen - i) in
    let tmpLen := if ml_pesHeaderLen l <=? tmpLen then ml_pesHeaderLen l else tmpLen in
    src ← lift (slice_of pes (ml_pesIndex l) (ml_pesIndex l + tmpLen));
    copy_into i src;;
    mret (u8 (i + tmpLen), u8 (dataLen - tmpLen),
          mkMuxLoop (ml_first l) (ml_wBytes l) (ml_pesIndex l + tmpLen) (u8 (ml_pesHeaderLen l - tmpLen)) (ml_packetBytesLen l - tmpLen))
  else mret (i, dataLen, l).

Definition copy_data (data : list Z) (l : MuxLoop) (i dataLen : Z) : GoM (list Z) MuxLoop :=
  if i <? tsPacketLen then
    let tmpLen := u8 (tsPacketLen - i) in
    let dataLen := if tmpLen <=? dataLen then tmpLen else dataLen in
    src ← lift (slice_of data (ml_wBytes l) (ml_wBytes l + dataLen));
    copy_into i src;;
    mret (mkMuxLoop (ml_first l) (ml_wBytes l + dataLen) (ml_pesIndex l) (ml_pesHeaderLen l) (ml_packetBytesLen l - dataLen))
  else mret l.

(** One round of the loop. *)
Definition fill_packet (isKey : bool) (pid cc dts : Z) (pes data : list Z) (l : MuxLoop) : GoM (list Z) MuxLoop :=
  i ← packet_header (ml_first l) isKey pid cc dts;
  '(dataLen, i) ← packet_stuffing (ml_first l) i (ml_packetBytesLen l);
  '(i, dataLen, l) ← copy_pes pes l i dataLen;
  copy_data data l i dataLen.

(** *** Mux *)

Definition next_cc (cc : Z) : Z := if 0xf <? u8 (cc + 1) then 0 else u8 (cc + 1).

(** On the packet of the muxer. *)
Definition on_tsPacket {A} (m : GoM (list Z) A) : GoM (Muxer * list Z) A := fun '(mux, w) =>
  let '(r, a) := m (mux_tsPacket mux) in (r, (mux <| mux_tsPacket := a |>, w)).

Fixpoint mux_loop (fuel : nat) (isVideo isKey : bool) (pid dts : Z) (pes data : list Z) (l : MuxLoop) : GoM (Muxer * list Z) unit :=
  if ml_packetBytesLen l <=? 0 then mret tt
  else
    match fuel with
    | O => panic "Mux: out of fuel"
    | S fuel =>
        modifyS (fun '(mux, w) =>
          (if isVideo then mux <| mux_videoCc := next_cc (mux_videoCc mux) |>
           else mux <| mux_audioCc := next_cc (mux_audioCc mux) |>, w));;
        '(mux, _) ← getS;
        l ← on_tsPacket (fill_packet isKey pid (if isVideo then mux_videoCc mux else mux_audioCc mux) dts pes data l);
        modifyS (fun '(mux, w) => (mux, w ++ mux_tsPacket mux));;
        mux_loop fuel isVideo isKey pid dts pes data (mkMuxLoop false (ml_wBytes l) (ml_pesIndex l) (ml_pesHeaderLen l) (ml_packetBytesLen l))
    end.

(** The writer takes everything. A frame of video has a header. *)
Definition Mux (p : av_Packet) : GoM (Muxer * list Z) unit :=
  let dts := i64 (pkt_TimeStamp p * h264DefaultHZ) in
  let pid := if pkt_IsVideo p then videoPID else audioPID in
  '(pts, isKey) ← (if pkt_IsVideo p then
                     match pkt_Header p with
                     | Some videoH => mret (i64 (dts + i64 (tag_compositionTime videoH * h264DefaultHZ)), IsKeyFrame videoH)
                     | None => panic "nil pointer dereference"
                     end
                   else mret (dts, false));
  let pes := pes_packet p pts dts in
  let pesHeaderLen := u8 (zlen pes) in
  let packetBytesLen := zlen (pkt_Data p) + pesHeaderLen in
  mux_loop (Z.to_nat packetBytesLen) (pkt_IsVideo p) isKey pid dts (pes ++ replicate (Z.to_nat tsPacketLen - length pes) 0) (pkt_Data p)
    (mkMuxLoop true 0 0 pesHeaderLen packetBytesLen).

(** *** Tables *)

(** A table in the packet [old] of the muxer: the header, the section, its checksum and 0xff. *)
Definition table_packet (old tsHeader section : list Z) (crc : Z) : list Z :=
  let i := (length tsHeader + length section)%nat in
  let a := copy_to old 0 tsHeader in
  let a := copy_to a (zlen tsHeader) section in
  let a := copy_to a (Z.of_nat i) [u8 (Z.shiftr crc 24); u8 (Z.shiftr crc 16); u8 (Z.shiftr crc 8); u8 crc] in
  copy_to a (Z.of_nat i + 4) (replicate (Z.to_nat tsPacketLen - i - 4) 0xff).

Definition PAT : GoM Muxer (list Z) :=
  let patHeader := [0x00; 0xb0; 0x0d; 0x00; 0x01; 0xc1; 0x00; 0x00; 0x00; 0x01; 0xf0; 0x01] in
  modifyS (fun m => if 0xf <? mux_patCc m then m <| mux_patCc := 0 |> else m);;
  m ← getS;
  let tsHeader := [0x47; 0x40; 0x00; Z.lor 0x10 (Z.land (mux_patCc m) 0x0f); 0x00] in
  let pat := table_packet (mux_pat m) tsHeader patHeader (GenCrc32 patHeader) in
  putS (m <| mux_patCc := u8 (mux_patCc m + 1) |> <| mux_pat := pat |>);;
  mret pat.

Definition PMT (soundFormat : Z) (hasVideo : bool) : GoM Muxer (list Z) :=
  let isMp3 := (soundFormat =? 2) || (soundFormat =? 14) in
  let audio := [if isMp3 then 0x4 else 0x0f; 0xe1; 0x01; 0xf0; 0x00] in
  let progInfo := if hasVideo then [0x1b; 0xe1; 0x00; 0xf0; 0x00] ++ audio else audio in
  let pmtHeader := [0x02; 0xb0; u8 (zlen progInfo + 9 + 4); 0x00; 0x01; 0xc1; 0x00; 0x00; 0xe1; if hasVideo then 0x00 else 0x01; 0xf0; 0x00] in
  modifyS (fun m => if 0xf <? mux_pmtCc m then m <| mux_pmtCc := 0 |> else m);;
  m ← getS;
  let tsHeader := [0x47; 0x50; 0x01; Z.lor 0x10 (Z.land (mux_pmtCc m) 0x0f); 0x00] in
  let section := pmtHeader ++ progInfo in
  let pmt := table_packet (mux_pmt m) tsHeader section (GenCrc32 section) in
  putS (m <| mux_pmtCc := u8 (mux_pmtCc m + 1) |> <| mux_pmt := pmt |>);;
  mret pmt.

(** ** The checksum *)

(** The remainder of the division by the polynomial 0x04c11db7, bit by bit. *)
Definition crc_bit (crc : Z) : Z :=
  let next := u32 (Z.shiftl crc 1) in if Z.testbit crc 31 then Z.lxor next 0x04c11db7 else next.
Definition crc_byte (crc b : Z) : Z := Nat.iter 8 crc_bit (Z.lxor crc (Z.shiftl b 24)).

(** The entries of the table are the remainders of its indices. *)
Lemma crcTable_entries : forallb (fun j => nth j crcTable 0 =? Nat.iter 8 crc_bit (Z.shiftl (Z.of_nat j) 24)) (seq 0 256) = true.
Proof. vm_compute. reflexivity. Qed.

Lemma crcTable_entry j : (j < 256)%nat -> nth j crcTable 0 = Nat.iter 8 crc_bit (Z.shiftl (Z.of_nat j) 24).
Proof.
  intros Hj. pose proof crcTable_entries as H. rewrite forallb_forall in H. apply Z.eqb_eq, H. apply in_seq. lia.
Qed.

Lemma u32_testbit x n : 0 <= n -> Z.testbit (u32 x) n = Z.testbit x n && (n <? 32).
Proof.
  intros Hn. unfold u32. change 4294967296 with (2 ^ 32). destruct (Z.ltb_spec n 32).
  - by rewrite Z.mod_pow2_bits_low, andb_true_r.
  - by rewrite Z.mod_pow2_bits_high, andb_false_r by lia.
Qed.

Lemma u32_lxor x y : u32 (Z.lxor x y) = Z.lxor (u32 x) (u32 y).
Proof.
  apply Z.bits_inj'. intros n Hn. rewrite Z.lxor_spec, !u32_testbit, Z.lxor_spec by done.
  by destruct (Z.testbit x n), (Z.testbit y n), (n <? 32).
Qed.

Lemma crc_bit_lxor x y : crc_bit (Z.lxor x y) = Z.lxor (crc_bit x) (crc_bit y).
Proof.
  unfold crc_bit. rewrite Z.lxor_spec, Z.shiftl_lxor, u32_lxor. set (a := u32 (Z.shiftl x 1)). set (b := u32 (Z.shiftl y 1)).
  destruct (Z.testbit x 31), (Z.testbit y 31); cbn [xorb]; rewrite ?Z.lxor_assoc; try done; f_equal.
  - by rewrite (Z.lxor_comm _ (Z.lxor b _)), Z.lxor_assoc, Z.lxor_nilpotent, Z.lxor_0_r.
  - apply Z.lxor_comm.
Qed.

Lemma crc_bits_lxor k x y : Nat.iter k crc_bit (Z.lxor x y) = Z.lxor (Nat.iter k crc_bit x) (Nat.iter k crc_bit y).
Proof. induction k as [|k IH]; [done|]. rewrite !Nat.iter_succ. by rewrite IH, crc_bit_lxor. Qed.

(** Without the upper bits nothing is subtracted. *)
Lemma crc_bits_low k x : 0 <= x < 2 ^ (32 - Z.of_nat k) -> (k <= 32)%nat -> Nat.iter k crc_bit x = Z.shiftl x (Z.of_nat k).
Proof.
  revert x. induction k as [|k IH]; intros x Hx Hk; [by rewrite Z.shiftl_0_r|]. rewrite Nat.iter_succ, IH; [|split; [lia|]|lia].
  2: { eapply Z.lt_le_trans; [apply Hx|]. apply Z.pow_le_mono_r; lia. }
  assert (Hb : 0 <= Z.shiftl x (Z.of_nat k) < 2 ^ 31).
  { rewrite Z.shiftl_mul_pow2 by lia. split; [lia|]. replace (2 ^ 31) with (2 ^ (32 - Z.of_nat (S k)) * 2 ^ Z.of_nat k)
      by (rewrite <- Z.pow_add_r by lia; f_equal; lia). apply Z.mul_lt_mono_pos_r; lia. }
  unfold crc_bit. rewrite <- (Z.mod_small _ _ Hb) at 1. rewrite Z.mod_pow2_bits_high by lia.
  rewrite Z.shiftl_shiftl by lia. rewrite u32_small.
  - f_equal. lia.
  - replace (Z.of_nat k + 1) with (1 + Z.of_nat k) by lia. rewrite <- Z.shiftl_shiftl, !Z.shiftl_mul_pow2 in * by lia. lia.
Qed.

Lemma lxor_byte x y : 0 <= x < 256 -> 0 <= y < 256 -> 0 <= Z.lxor x y < 256.
Proof.
  intros Hx Hy. assert (E : Z.lxor x y mod 2 ^ 8 = Z.lxor x y).
  { rewrite <- Z.land_ones by lia. apply Z.bits_inj'. intros n Hn. rewrite Z.land_spec, Z.testbit_ones_nonneg, Z.lxor_spec by lia.
    destruct (Z.ltb_spec n 8); [by rewrite andb_true_r|]. rewrite andb_false_r.
    rewrite <- (Z.mod_small x (2 ^ 8)), <- (Z.mod_small y (2 ^ 8)) by lia. by rewrite !Z.mod_pow2_bits_high by lia. }
  rewrite <- E. apply Z.mod_pos_bound. lia.
Qed.

Lemma crc_split c : 0 <= c < 2 ^ 32 -> c = Z.lxor (Z.shiftl (c / 2 ^ 24) 24) (c mod 2 ^ 24).
Proof.
  intros Hc. apply Z.bits_inj'. intros n Hn. rewrite Z.lxor_spec. destruct (Z.ltb_spec n 24).
  - rewrite Z.shiftl_spec_low, Z.mod_pow2_bits_low by done. by destruct (Z.testbit c n).
  - rewrite Z.mod_pow2_bits_high, Z.shiftl_spec, <- Z.shiftr_div_pow2, Z.shiftr_spec by lia. rewrite xorb_false_r. f_equal. lia.
Qed.

Lemma crc_shift c : 0 <= c < 2 ^ 32 -> u32 (Z.shiftl c 8) = Z.shiftl (c mod 2 ^ 24) 8.
Proof.
  intros Hc. rewrite !Z.shiftl_mul_pow2 by lia. unfold u32. change 4294967296 with (2 ^ 24 * 2 ^ 8).
  by rewrite Z.mul_mod_distr_r by lia.
Qed.

Lemma crc_bit_range x : 0 <= crc_bit x < 2 ^ 32.
Proof.
  assert (E : crc_bit x = u32 (crc_bit x)).
  { unfold crc_bit. destruct (Z.testbit x 31); [|by rewrite (u32_small (u32 _)) by apply u32_range].
    rewrite u32_lxor. f_equal. by rewrite (u32_small (u32 _)) by apply u32_range. }
  rewrite E. apply u32_range.
Qed.

(** One step of the code, with the table, is eight of the division. *)
Lemma crc_step c b : 0 <= c < 2 ^ 32 -> 0 <= b < 256 ->
  Z.lxor (u32 (Z.shiftl c 8)) (nth (Z.to_nat (Z.land (Z.lxor (u8 (Z.shiftr c 24)) b) 0xff)) crcTable 0) = crc_byte c b.
Proof.
  intros Hc Hb. set (hi := c / 2 ^ 24). assert (Hhi : 0 <= hi < 256) by (unfold hi; Z.to_euclidean_division_equations; lia).
  rewrite Z.shiftr_div_pow2 by lia. fold hi. rewrite (u8_small hi) by done. pose proof (lxor_byte hi b Hhi Hb) as Hx.
  rewrite (land_mod 8) by (done || lia). rewrite Z.mod_small by (change (2 ^ 8) with 256; lia).
  rewrite crcTable_entry, Z2Nat.id by lia. unfold crc_byte. rewrite (crc_split c) at 2 by done. fold hi.
  rewrite (Z.lxor_comm (Z.shiftl hi 24)), Z.lxor_assoc, <- Z.shiftl_lxor, crc_bits_lxor. f_equal.
  rewrite crc_bits_low; [by apply crc_shift| |lia]. apply Z.mod_pos_bound. lia.
Qed.

Lemma crc_byte_range c b : 0 <= crc_byte c b < 2 ^ 32.
Proof. unfold crc_byte. rewrite Nat.iter_succ. apply crc_bit_range. Qed.

Lemma GenCrc32_from c src : 0 <= c < 2 ^ 32 -> bytes_ok src ->
  foldl (fun crc32 b => Z.lxor (u32 (Z.shiftl crc32 8)) (nth (Z.to_nat (Z.land (Z.lxor (u8 (Z.shiftr crc32 24)) b) 0xff)) crcTable 0)) c src =
    foldl crc_byte c src.
Proof.
  intros Hc Hs. revert c Hc. induction Hs as [|b src Hb Hs IH]; intros c Hc; [done|]. cbn [foldl]. rewrite crc_step by done.
  apply IH, crc_byte_range.
Qed.

Lemma GenCrc32_range src : bytes_ok src -> 0 <= GenCrc32 src < 2 ^ 32.
Proof.
  intros Hs. unfold GenCrc32. rewrite GenCrc32_from by (done || lia). destruct src as [|b src] using rev_ind; [by cbn|].
  rewrite foldl_app. apply crc_byte_range.
Qed.

(** The checksum of its own bytes. *)
Lemma crc_own c : 0 <= c < 2 ^ 32 -> foldl crc_byte c (be_enc 4 c) = 0.
Proof.
  intros Hc. assert (Hown : forall x y, 0 <= x < 2 ^ 32 -> y = u8 (Z.shiftr x 24) -> crc_byte x y = u32 (Z.shiftl x 8)).
  { intros x y Hx ->. pose proof (u8_range (Z.shiftr x 24)). rewrite <- crc_step by done. by rewrite Z.lxor_nilpotent, Z.lxor_0_r. }
  cbn [be_enc foldl]. change (8 * Z.of_nat 3) with 24. change (8 * Z.of_nat 2) with 16. change (8 * Z.of_nat 1) with 8. change (8 * Z.of_nat 0) with 0.
  rewrite (Hown c) by done. rewrite (Hown (u32 _)); [rewrite (Hown (u32 _)); [rewrite (Hown (u32 _)); [|apply u32_range|]|apply u32_range|]|apply u32_range|].
  all: unfold u8, u32; rewrite ?Z.shiftr_div_pow2, ?Z.shiftl_mul_pow2 by lia; Z.to_euclidean_division_equations; lia.
Qed.

(** The table-driven checksum is the remainder of the division by the polynomial of MPEG,
    for all bytes, and a section that is followed by its checksum checks to zero. *)
Lemma crc_zero src : bytes_ok src ->
  GenCrc32 src = foldl crc_byte 0xFFFFFFFF src /\ GenCrc32 (src ++ be_enc 4 (GenCrc32 src)) = 0.
Proof.
  intros Hs. pose proof (GenCrc32_range src Hs) as Hr. unfold GenCrc32 in *. rewrite GenCrc32_from in * by (done || lia).
  split; [done|]. rewrite GenCrc32_from; [|lia|apply Forall_app_2; [done|apply be_enc_ok]]. rewrite foldl_app. by apply crc_own.
Qed.

(** ** Arrays *)

Lemma set_at_run i v a : 0 <= i < zlen a -> set_at i v a = (Ok tt, <[Z.to_nat i := v]> a).
Proof.
  intros Hi. unfold set_at, zlen in *. destruct (lookup_lt_is_Some_2 a (Z.to_nat i)) as [x E]; [lia|]. by rewrite E.
Qed.

Lemma copy_into_run i src a : 0 <= i -> i + zlen src <= zlen a ->
  copy_into i src a = (Ok tt, take (Z.to_nat i) a ++ src ++ drop (Z.to_nat i + length src) a).
Proof.
  intros Hi Hl. unfold copy_into. pose proof (zlen_nonneg src). rewrite (run_bind_ok _ _ a a a) by done.
  rewrite slice_of_run by lia. unfold mbind, GoM_bind, lift, putS. by rewrite copy_to_run.
Qed.

Lemma copy_to_front a b c : copy_to (a ++ c) (zlen a) b = a ++ take (length c) b ++ drop (length b) c.
Proof.
  unfold copy_to, copy_at, zlen. rewrite Nat2Z.id, length_app, take_app_length. f_equal.
  replace (length a + length c - length a)%nat with (length c) by lia. f_equal. rewrite drop_app_ge by lia.
  replace (length a + length (take (length c) b) - length a)%nat with (length (take (length c) b)) by lia. rewrite length_take.
  destruct (Nat.le_ge_cases (length c) (length b)) as [H|H].
  - rewrite Nat.min_l, !drop_ge by lia. done.
  - by rewrite Nat.min_r by lia.
Qed.

(** Pieces copied one after the other. *)
Lemma copy_to_next a b c i : i = zlen a -> (length b <= length c)%nat -> copy_to (a ++ c) i b = (a ++ b) ++ drop (length b) c.
Proof. intros -> Hb. rewrite copy_to_front, take_ge by done. apply app_assoc. Qed.

Lemma table_packet_run old h section crc :
  length old = 188%nat -> (length h + length section + 4 <= 188)%nat ->
  table_packet old h section crc = h ++ section ++ be_enc 4 crc ++ replicate (188 - length h - length section - 4) 0xff.
Proof.
  intros Ho Hl. unfold table_packet. cbv zeta.
  rewrite (copy_to_next [] h old) by (done || lia). rewrite app_nil_l.
  rewrite (copy_to_next h section) by (rewrite ?length_drop; done || lia).
  rewrite (copy_to_next (h ++ section)) by (rewrite ?zlen_app, ?length_drop; unfold zlen; simpl; lia).
  rewrite (copy_to_next ((h ++ section) ++ _)) by (rewrite ?zlen_app, ?length_drop, ?length_replicate; unfold zlen, tsPacketLen; simpl; lia).
  rewrite drop_ge by (rewrite !length_drop, length_replicate; unfold tsPacketLen; simpl; lia). rewrite app_nil_r, <- !app_assoc.
  change [u8 (Z.shiftr crc 24); u8 (Z.shiftr crc 16); u8 (Z.shiftr crc 8); u8 crc] with (be_enc 4 crc). do 4 f_equal. unfold tsPacketLen. lia.
Qed.

(** A packet with a section: its header, with the number of the stream and a counter, the
    section, which says how long it is and checks, and 0xff. *)
Definition table_ok (pid cc : Z) (bs : list Z) : Prop :=
  exists b0 b1 b2 body, let section := b0 :: b1 :: b2 :: body in
    bs = [0x47; 0x40 + pid / 256; pid mod 256; 0x10 + cc; 0x00] ++ section ++ replicate (188 - 5 - length section) 0xff /\
    length bs = 188%nat /\ zlen body = (b1 mod 16) * 256 + b2 /\ GenCrc32 section = 0.

Definition next_table (cc : Z) : Z := if 0xf <? cc then 0 else cc.

Lemma table_ok_run old pid cc section :
  length old = 188%nat -> bytes_ok section -> (3 <= length section)%nat -> (length section + 9 <= 188)%nat ->
  zlen section + 1 = (nth 1 section 0 mod 16) * 256 + nth 2 section 0 -> 0 <= cc < 16 ->
  table_ok pid cc (table_packet old [0x47; 0x40 + pid / 256; pid mod 256; Z.lor 0x10 (Z.land cc 0x0f); 0x00] section (GenCrc32 section)).
Proof.
  intros Ho Hs H3 Hl Hz Hc. rewrite table_packet_run by (simpl; lia). destruct section as [|b0 [|b1 [|b2 body]]]; try (simpl in H3; lia).
  exists b0, b1, b2, (body ++ be_enc 4 (GenCrc32 (b0 :: b1 :: b2 :: body))). cbv zeta.
  assert (Ec : Z.lor 0x10 (Z.land cc 0x0f) = 0x10 + cc).
  { rewrite (land_mod 4) by (done || lia). rewrite Z.mod_small by (change (2 ^ 4) with 16; lia). by apply (lor_add 4 1). }
  rewrite Ec. set (section := b0 :: b1 :: b2 :: body) in *. destruct (crc_zero section Hs) as [_ Hcrc].
  assert (Hf : forall n, b0 :: b1 :: b2 :: body ++ be_enc 4 n = section ++ be_enc 4 n) by done. rewrite !Hf.
  split_and!; [|rewrite !length_app, be_enc_length, length_replicate; cbn [length]; lia| |done].
  - rewrite <- app_assoc. do 3 f_equal. rewrite length_app, be_enc_length. f_equal. cbn [length]. lia.
  - unfold section, zlen in *. rewrite length_app, be_enc_length. cbn [length nth] in Hz. lia.
Qed.

(** What holds for the muxer at any time. *)
Record mux_ok (m : Muxer) : Prop := {
  mk_pat : length (mux_pat m) = 188%nat;
  mk_pmt : length (mux_pmt m) = 188%nat;
  mk_packet : length (mux_tsPacket m) = 188%nat;
  mk_patCc : 0 <= mux_patCc m <= 16;
  mk_pmtCc : 0 <= mux_pmtCc m <= 16;
  mk_videoCc : 0 <= mux_videoCc m < 16;
  mk_audioCc : 0 <= mux_audioCc m < 16
}.

Lemma table_length pid cc bs : table_ok pid cc bs -> length bs = 188%nat.
Proof. by intros (b0 & b1 & b2 & body & _ & H & _). Qed.

Lemma next_table_range cc : 0 <= cc <= 16 -> 0 <= next_table cc < 16.
Proof. intros Hc. unfold next_table. destruct (Z.ltb_spec 0xf cc); lia. Qed.

Lemma PAT_run m : mux_ok m ->
  exists pat, PAT m = (Ok pat, m <| mux_patCc := next_table (mux_patCc m) + 1 |> <| mux_pat := pat |>) /\
    table_ok 0 (next_table (mux_patCc m)) pat.
Proof.
  intros Hm. pose proof (next_table_range _ (mk_patCc _ Hm)) as Hc. unfold PAT. cbv zeta.
  set (m1 := m <| mux_patCc := next_table (mux_patCc m) |>).
  rewrite (run_bind_ok _ _ m tt m1) by (unfold m1, next_table, modifyS; destruct m; simpl; by destruct (_ <? _)).
  rewrite (run_bind_ok _ _ m1 m1 m1) by done. eexists. split.
  - rewrite (u8_small (mux_patCc m1 + 1)) by (simpl; lia). unfold mbind, GoM_bind, putS. reflexivity.
  - apply (table_ok_run (mux_pat m) 0 (next_table (mux_patCc m))); try done; [apply Hm|repeat constructor; discriminate|simpl; lia..].
Qed.

Lemma PMT_run m soundFormat hasVideo : mux_ok m ->
  exists pmt, PMT soundFormat hasVideo m = (Ok pmt, m <| mux_pmtCc := next_table (mux_pmtCc m) + 1 |> <| mux_pmt := pmt |>) /\
    table_ok 0x1001 (next_table (mux_pmtCc m)) pmt.
Proof.
  intros Hm. pose proof (next_table_range _ (mk_pmtCc _ Hm)) as Hc. unfold PMT. cbv zeta.
  set (m1 := m <| mux_pmtCc := next_table (mux_pmtCc m) |>).
  rewrite (run_bind_ok _ _ m tt m1) by (unfold m1, next_table, modifyS; destruct m; simpl; by destruct (_ <? _)).
  rewrite (run_bind_ok _ _ m1 m1 m1) by done. eexists. split.
  - rewrite (u8_small (mux_pmtCc m1 + 1)) by (simpl; lia). unfold mbind, GoM_bind, putS. reflexivity.
  - apply (table_ok_run (mux_pmt m) 0x1001 (next_table (mux_pmtCc m))); [apply Hm|..|done];
      destruct ((soundFormat =? 2) || (soundFormat =? 14)), hasVideo; try (repeat constructor; discriminate); try (simpl; lia); done.
Qed.

(** The two tables that begin a segment are packets with sections that check, in which the
    first says where the second is, and their counters go round. *)
Lemma tables_ok m soundFormat hasVideo : mux_ok m ->
  exists pat pmt m', (pat ← PAT; pmt ← PMT soundFormat hasVideo; mret (pat, pmt)) m = (Ok (pat, pmt), m') /\ mux_ok m' /\
    table_ok 0 (next_table (mux_patCc m)) pat /\ table_ok 0x1001 (next_table (mux_pmtCc m)) pmt /\
    mux_patCc m' = next_table (mux_patCc m) + 1 /\ mux_pmtCc m' = next_table (mux_pmtCc m) + 1.
Proof.
  intros Hm. destruct (PAT_run m Hm) as (pat & E & Hp). pose proof (next_table_range _ (mk_patCc _ Hm)). pose proof (next_table_range _ (mk_pmtCc _ Hm)).
  pose proof (table_length _ _ _ Hp). set (m1 := m <| mux_patCc := _ |> <| mux_pat := _ |>) in E.
  assert (Hm1 : mux_ok m1) by (destruct Hm; constructor; simpl; try done; lia).
  destruct (PMT_run m1 soundFormat hasVideo Hm1) as (pmt & E2 & Hp2). pose proof (table_length _ _ _ Hp2).
  rewrite (run_bind_ok _ _ _ _ _ E), (run_bind_ok _ _ _ _ _ E2). eexists pat, pmt, _.
  split_and!; try done. destruct Hm1; constructor; simpl; try done; lia.
Qed.

(** ** Packets of a frame *)

(** The clock of a key frame. *)
Definition pcr_bytes (pcr : Z) : list Z :=
  [u8 (Z.shiftr pcr 25); u8 (Z.land (Z.shiftr pcr 17) 0xff); u8 (Z.land (Z.shiftr pcr 9) 0xff); u8 (Z.land (Z.shiftr pcr 1) 0xff);
   u8 (Z.lor (i64 (Z.shiftl (Z.land pcr 0x1) 7)) 0x7e); 0x00].

(** The header of a packet; [flag] is 0x20 if there is an adaptation field. *)
Definition head_bytes (first clock : bool) (pid cc dts flag : Z) : list Z :=
  [0x47; (if first then Z.lor (u8 (Z.shiftr pid 8)) 0x40 else u8 (Z.shiftr pid 8)); u8 pid; Z.lor (Z.lor 0x10 (u8 (Z.land cc 0x0f))) flag] ++
  (if clock then 7 :: 0x50 :: pcr_bytes dts else []).

(** An adaptation field of [n] bytes that says nothing. *)
Definition stuffing (n : nat) : list Z :=
  match n with
  | O => []
  | S O => [0]
  | S (S n) => Z.of_nat n + 1 :: 0 :: replicate n 0xff
  end.

Lemma packet_header_run first isKey pid cc dts a : length a = 188%nat ->
  packet_header first isKey pid cc dts a =
    (Ok (if first && isKey then 12 else 4),
     head_bytes first (first && isKey) pid cc dts (if first && isKey then 0x20 else 0) ++ drop (if first && isKey then 12 else 4) a).
Proof.
  intros Ha. do 12 (destruct a as [|? a]; [simpl in Ha; lia|]).
  destruct first, isKey; cbn [andb]; unfold head_bytes; rewrite ?Z.lor_0_r; reflexivity.
Qed.

Lemma map_const {A B} (x : B) (l : list A) : map (fun _ => x) l = replicate (length l) x.
Proof. induction l as [|a l IH]; [done|]. simpl. by rewrite IH. Qed.

Lemma stuffing_length n : length (stuffing n) = n.
Proof. destruct n as [|[|n]]; simpl; [done..|]. by rewrite length_replicate. Qed.

Lemma packet_stuffing_run first pid cc dts pbl b : length b = 184%nat -> 0 < pbl < 184 ->
  exists c, length c = Z.to_nat pbl /\
    packet_stuffing first 4 pbl (head_bytes first false pid cc dts 0 ++ b) =
      (Ok (pbl, 188 - pbl), head_bytes first false pid cc dts 0x20 ++ stuffing (Z.to_nat (184 - pbl)) ++ c).
Proof.
  intros Hb Hp. unfold packet_stuffing, tsDefaultDataLen. rewrite (proj2 (Z.leb_gt _ _)) by lia.
  destruct b as [|x [|y b]]; [simpl in Hb; lia..|]. unfold head_bytes. rewrite !app_nil_r, Z.lor_0_r.
  set (h1 := if first then Z.lor (u8 (Z.shiftr pid 8)) 0x40 else u8 (Z.shiftr pid 8)). set (h3 := Z.lor 0x10 _). set (a := [0x47; h1; u8 pid; Z.lor h3 0x20] ++ x :: y :: b).
  rewrite (run_bind_ok _ _ _ tt a) by reflexivity. cbv zeta. rewrite (u8_small pbl) by lia. change (u8 (4 - 4)) with 0.
  rewrite (u8_small (184 - pbl)), Z.sub_0_r by lia. rewrite (u8_small (184 - pbl)) by lia. replace (if first then 184 - pbl else 184 - pbl) with (184 - pbl) by (by destruct first).
  rewrite (u8_small (4 + (184 - pbl))) by lia. replace (4 + (184 - pbl)) with (188 - pbl) by lia.
  unfold adaptationBufInit. assert (Hz : zlen a = 188) by (unfold zlen, a; simpl in *; lia).
  destruct (Z.eqb_spec (184 - pbl) 1) as [E1|E1].
  - exists (y :: b). split; [simpl in *; lia|]. rewrite E1.
    rewrite (run_bind_ok _ _ a tt ([0x47; h1; u8 pid; Z.lor h3 0x20] ++ 0 :: y :: b)); [done|].
    rewrite (run_bind_ok _ _ a a a) by done. rewrite slice_of_run by lia. reflexivity.
  - exists (replicate (Z.to_nat pbl) 0xff). split; [by rewrite length_replicate|].
    assert (Hs : stuffing (Z.to_nat (184 - pbl)) = u8 (184 - pbl - 1) :: 0 :: replicate (Z.to_nat (184 - pbl) - 2) 0xff).
    { destruct (Z.to_nat (184 - pbl)) as [|[|n]] eqn:En; [lia..|]. simpl. rewrite u8_small by lia. f_equal; [lia|]. by rewrite Nat.sub_0_r. }
    rewrite Hs. rewrite (run_bind_ok _ _ a tt ([0x47; h1; u8 pid; Z.lor h3 0x20] ++ u8 (184 - pbl - 1) :: 0 :: replicate (length b) 0xff)).
    + assert (Er : replicate (length b) 0xff = replicate (Z.to_nat (184 - pbl) - 2) 0xff ++ replicate (Z.to_nat pbl) 0xff)
        by (rewrite <- replicate_add; f_equal; simpl in Hb; lia).
      rewrite Er. reflexivity.
    + rewrite (run_bind_ok _ _ a a a) by done. rewrite slice_of_run by lia. rewrite <- (map_const 0xff b). reflexivity.
Qed.

(** The last bytes of a packet, from [i] on, are copied. *)
Lemma copy_end i src (a : list Z) : length a = 188%nat -> 0 <= i -> i + zlen src = 188 ->
  copy_into i src a = (Ok tt, take (Z.to_nat i) a ++ src).
Proof.
  intros Ha Hi Hs. unfold zlen in Hs. rewrite copy_into_run by (unfold zlen; lia). rewrite (drop_ge a) by lia. by rewrite app_nil_r.
Qed.

Lemma copy_data_run data first wB pi ph pbl i (a : list Z) :
  length a = 188%nat -> 4 <= i <= 188 -> 0 <= wB -> wB + (188 - i) <= zlen data ->
  copy_data data (mkMuxLoop first wB pi ph pbl) i (188 - i) a =
    (Ok (mkMuxLoop first (wB + (188 - i)) pi ph (pbl - (188 - i))),
     take (Z.to_nat i) a ++ take (Z.to_nat (188 - i)) (drop (Z.to_nat wB) data)).
Proof.
  intros Ha Hi Hw Hd. unfold copy_data, tsPacketLen. cbn [ml_first ml_wBytes ml_pesIndex ml_pesHeaderLen ml_packetBytesLen].
  destruct (Z.ltb_spec i 188) as [H|H].
  - rewrite (u8_small (188 - i)), Z.leb_refl by lia. cbv zeta. rewrite slice_of_run by lia.
    replace (wB + (188 - i) - wB) with (188 - i) by lia. set (src := take _ (drop _ data)).
    rewrite (run_bind_ok _ _ a src a) by done. rewrite (run_bind_ok _ _ a tt (take (Z.to_nat i) a ++ src)); [done|].
    apply copy_end; [done|lia|]. unfold src, zlen in *. rewrite length_take, length_drop. lia.
  - assert (i = 188) as -> by lia. cbn. rewrite app_nil_r, (take_ge a) by lia. by rewrite Z.add_0_r, Z.sub_0_r.
Qed.

Lemma copy_pes_run hdr pad pbl i (a : list Z) :
  length a = 188%nat -> 4 <= i < 188 -> 0 < zlen hdr <= 188 - i ->
  exists a', length a' = 188%nat /\ take (Z.to_nat (i + zlen hdr)) a' = take (Z.to_nat i) a ++ hdr /\
    copy_pes (hdr ++ pad) (mkMuxLoop true 0 0 (zlen hdr) pbl) i (188 - i) a =
      (Ok (i + zlen hdr, 188 - i - zlen hdr, mkMuxLoop true 0 (zlen hdr) 0 (pbl - zlen hdr)), a').
Proof.
  intros Ha Hi Hh. unfold copy_pes, tsPacketLen. cbn [ml_first ml_wBytes ml_pesIndex ml_pesHeaderLen ml_packetBytesLen].
  rewrite (proj2 (Z.ltb_lt i 188)), (proj2 (Z.ltb_lt 0 _)) by lia. cbn [andb]. rewrite (u8_small (188 - i)), (proj2 (Z.leb_le _ _)) by lia.
  cbv zeta. rewrite slice_of_run by (rewrite ?zlen_app; pose proof (zlen_nonneg pad); lia). rewrite Z.add_0_l, Z.sub_0_r, drop_0.
  assert (Et : take (Z.to_nat (zlen hdr)) (hdr ++ pad) = hdr) by (unfold zlen; by rewrite Nat2Z.id, take_app_length).
  rewrite (run_bind_ok _ _ a hdr a) by (unfold lift; by rewrite Et).
  exists (take (Z.to_nat i) a ++ hdr ++ drop (Z.to_nat i + length hdr) a). unfold zlen in Hh. split_and!.
  - rewrite !length_app, length_take, length_drop. lia.
  - rewrite app_assoc, take_app_le by (rewrite length_app, length_take; unfold zlen; lia). apply take_ge. rewrite length_app, length_take. unfold zlen. lia.
  - rewrite (run_bind_ok _ _ _ _ _ (copy_into_run i hdr a ltac:(lia) ltac:(unfold zlen; lia))).
    rewrite !u8_small by (unfold zlen; lia). by rewrite Z.sub_diag.
Qed.

(** A packet with as much of a frame as fits, or with stuffing. *)
Definition ts_packet (first clock : bool) (pid cc dts : Z) (payload : list Z) : list Z :=
  let room := if clock then 176%nat else 184%nat in
  if (length payload =? room)%nat then head_bytes first clock pid cc dts (if clock then 0x20 else 0) ++ payload
  else head_bytes first clock pid cc dts 0x20 ++ stuffing (room - length payload) ++ payload.

Lemma head_length first clock pid cc dts flag : length (head_bytes first clock pid cc dts flag) = if clock then 12%nat else 4%nat.
Proof. by destruct clock. Qed.

(** Where the data begins, after the header and the stuffing. *)
Lemma packet_start first isKey pid cc dts pbl (a : list Z) :
  length a = 188%nat -> 0 < pbl -> (first = true -> isKey = true -> 184 <= pbl) ->
  let clock := first && isKey in let room := if clock then 176 else 184 in let amount := Z.min room pbl in
  exists a', length a' = 188%nat /\
    (i ← packet_header first isKey pid cc dts; packet_stuffing first i pbl) a = (Ok (amount, 188 - amount), a') /\
    forall payload, zlen payload = amount -> take (Z.to_nat (188 - amount)) a' ++ payload = ts_packet first clock pid cc dts payload.
Proof.
  intros Ha Hp Hk clock room amount. rewrite (run_bind_ok _ _ _ _ _ (packet_header_run first isKey pid cc dts a Ha)). fold clock.
  destruct (Z.leb_spec 184 pbl) as [Hb|Hb].
  - set (h := head_bytes first clock pid cc dts (if clock then 0x20 else 0)). pose proof (head_length first clock pid cc dts (if clock then 0x20 else 0)) as Hh. fold h in Hh.
    assert (Ham : amount = room) by (unfold amount, room; destruct clock; lia). exists (h ++ drop (if clock then 12%nat else 4%nat) a).
    split_and!; [rewrite length_app, length_drop, Hh; destruct clock; lia| |].
    + unfold packet_stuffing, tsDefaultDataLen. rewrite (proj2 (Z.leb_le _ _)), Ham by lia. unfold room, clock. by destruct first, isKey.
    + intros payload Hl. assert (Hl' : length payload = if clock then 176%nat else 184%nat) by (rewrite Ham in Hl; unfold room, zlen in Hl; destruct clock; lia).
      unfold ts_packet. rewrite Hl', Nat.eqb_refl. fold h. rewrite take_app_le by (rewrite Hh, Ham; unfold room; destruct clock; lia).
      rewrite take_ge; [done|]. rewrite Hh, Ham. unfold room. destruct clock; lia.
  - assert (Hclock : clock = false) by (unfold clock; destruct first, isKey; try done; exfalso; specialize (Hk eq_refl eq_refl); lia).
    assert (Ham : amount = pbl) by (unfold amount, room; rewrite Hclock; lia). clearbody amount. rewrite Hclock.
    destruct (packet_stuffing_run first pid cc dts pbl (drop 4 a)) as (c & Hc & E); [rewrite length_drop; lia|lia|].
    exists (head_bytes first false pid cc dts 0x20 ++ stuffing (Z.to_nat (184 - pbl)) ++ c). rewrite Ham. split_and!; [|exact E|].
    + rewrite !length_app, head_length, stuffing_length, Hc. lia.
    + intros payload Hl. unfold zlen in Hl. unfold ts_packet. rewrite (proj2 (Nat.eqb_neq _ _)) by lia.
      rewrite app_assoc, take_app_le by (rewrite length_app, head_length, stuffing_length; lia).
      rewrite take_ge by (rewrite length_app, head_length, stuffing_length; lia). rewrite <- app_assoc. do 3 f_equal. lia.
Qed.

Lemma run_bind_assoc {S A B C} (m : GoM S A) (f : A -> GoM S B) (g : B -> GoM S C) s :
  ((m ≫= f) ≫= g) s = (m ≫= (fun a => f a ≫= g)) s.
Proof. unfold mbind, GoM_bind. by destruct (m s) as [[a|e|q] s']. Qed.

(** The first packet of a frame. *)
Lemma fill_first isKey pid cc dts hdr pad data (a : list Z) :
  length a = 188%nat -> 0 < zlen hdr <= 19 -> (isKey = true -> 184 <= zlen hdr + zlen data) ->
  let pbl := zlen hdr + zlen data in let amount := Z.min (if isKey then 176 else 184) pbl in
  zlen hdr <= amount /\
  fill_packet isKey pid cc dts (hdr ++ pad) data (mkMuxLoop true 0 0 (zlen hdr) pbl) a =
    (Ok (mkMuxLoop true (amount - zlen hdr) (zlen hdr) 0 (pbl - amount)),
     ts_packet true isKey pid cc dts (take (Z.to_nat amount) (hdr ++ data))).
Proof.
  intros Ha Hh Hk pbl amount. pose proof (zlen_nonneg data). assert (Hle : zlen hdr <= amount) by (unfold amount, pbl; destruct isKey; lia).
  split; [done|]. assert (Ham : amount <= 184) by (unfold amount; destruct isKey; lia).
  destruct (packet_start true isKey pid cc dts pbl a Ha) as (a1 & Ha1 & E1 & Hp); [unfold pbl; lia|by intros _|]. cbn [andb] in E1, Hp. fold amount in E1, Hp.
  assert (Hpbl : amount <= pbl) by (unfold amount; lia). clearbody amount.
  unfold fill_packet. cbn [ml_first ml_packetBytesLen]. rewrite <- run_bind_assoc, (run_bind_ok _ _ _ _ _ E1).
  destruct (copy_pes_run hdr pad pbl (188 - amount) a1 Ha1) as (a2 & Ha2 & Et & E2); [lia|lia|].
  replace (188 - (188 - amount)) with amount in E2 by lia. rewrite (run_bind_ok _ _ _ _ _ E2).
  set (i := 188 - amount + zlen hdr) in *. replace (amount - zlen hdr) with (188 - i) by lia.
  rewrite copy_data_run; [|done|lia|lia|unfold pbl in Hpbl; lia]. rewrite Et, <- app_assoc, drop_0, Z.add_0_l.
  replace (pbl - zlen hdr - (188 - i)) with (pbl - amount) by lia. f_equal.
  rewrite Hp by (rewrite zlen_app; unfold zlen in *; rewrite length_take; unfold pbl in *; lia). f_equal.
  rewrite take_app_ge by (unfold zlen in *; lia). do 2 f_equal. unfold zlen in *. lia.
Qed.

(** Any other packet. *)
Lemma fill_next isKey pid cc dts pes data wB pi ph (a : list Z) :
  length a = 188%nat -> 0 <= wB < zlen data ->
  let pbl := zlen data - wB in let amount := Z.min 184 pbl in
  fill_packet isKey pid cc dts pes data (mkMuxLoop false wB pi ph pbl) a =
    (Ok (mkMuxLoop false (wB + amount) pi ph (pbl - amount)),
     ts_packet false false pid cc dts (take (Z.to_nat amount) (drop (Z.to_nat wB) data))).
Proof.
  intros Ha Hw pbl amount. destruct (packet_start false isKey pid cc dts pbl a Ha) as (a1 & Ha1 & E1 & Hp); [unfold pbl; lia|done|].
  cbn [andb] in E1, Hp. fold amount in E1, Hp. assert (Hpbl : 0 < amount <= pbl) by (unfold amount, pbl; lia).
  assert (Ham : amount <= 184) by (unfold amount; lia). clearbody amount.
  unfold fill_packet. cbn [ml_first ml_packetBytesLen]. rewrite <- run_bind_assoc, (run_bind_ok _ _ _ _ _ E1).
  rewrite (run_bind_ok _ _ a1 (188 - amount, amount, mkMuxLoop false wB pi ph pbl) a1) by done.
  pose proof (copy_data_run data false wB pi ph pbl (188 - amount) a1 Ha1) as E.
  replace (188 - (188 - amount)) with amount in E by lia. rewrite E; [|lia|lia|unfold pbl in *; lia].
  f_equal. apply Hp. unfold pbl, zlen in *. rewrite length_take, length_drop. lia.
Qed.

(** ** Reading packets *)

(** What a reader takes from a packet: everything after the header and, if there is one,
    the adaptation field. *)
Definition ts_payload (bs : list Z) : list Z :=
  if Z.testbit (nth 3 bs 0) 5 then drop (Z.to_nat (5 + nth 4 bs 0)) bs else drop 4 bs.

Record packet_of (pid cc : Z) (first : bool) (bs : list Z) : Prop := {
  po_length : length bs = 188%nat;
  po_sync : nth 0 bs 0 = 0x47;
  po_pid : (nth 1 bs 0 mod 32) * 256 + nth 2 bs 0 = pid;
  po_start : Z.testbit (nth 1 bs 0) 6 = first;
  po_counter : nth 3 bs 0 mod 16 = cc
}.

(** The packets of one stream after one with the counter [cc]. *)
Fixpoint in_sequence (pid cc : Z) (first : bool) (packets : list (list Z)) : Prop :=
  match packets with
  | [] => True
  | bs :: packets => packet_of pid (next_cc cc) first bs /\ in_sequence pid (next_cc cc) false packets
  end.

Lemma ts_packet_of first clock pid cc dts payload :
  pid = videoPID \/ pid = audioPID -> 0 <= cc < 16 -> (clock = true -> length payload = 176%nat) -> (length payload <= 184)%nat ->
  packet_of pid cc first (ts_packet first clock pid cc dts payload) /\ ts_payload (ts_packet first clock pid cc dts payload) = payload.
Proof.
  intros Hpid Hcc Hclock Hl. assert (Ec : u8 (Z.land cc 0x0f) = cc).
  { rewrite (land_mod 4) by (done || lia). rewrite Z.mod_small by (change (2 ^ 4) with 16; lia). apply u8_small. lia. }
  assert (Hf : forall flag, flag = 0 \/ flag = 0x20 -> Z.lor (Z.lor 0x10 (u8 (Z.land cc 0x0f))) flag mod 16 = cc /\
    Z.testbit (Z.lor (Z.lor 0x10 (u8 (Z.land cc 0x0f))) flag) 5 = negb (flag =? 0)).
  { intros flag Hflag. rewrite Ec. assert (Hall : cc ∈ seqZ 0 16) by (apply elem_of_seqZ; lia).
    repeat (apply elem_of_cons in Hall as [->|Hall]; [by destruct Hflag as [->| ->]|]). by apply elem_of_nil in Hall. }
  assert (Hpo : forall flag rest, flag = 0 \/ flag = 0x20 -> length (head_bytes first clock pid cc dts flag ++ rest) = 188%nat ->
    packet_of pid cc first (head_bytes first clock pid cc dts flag ++ rest)).
  { intros flag rest Hflag Hlen. destruct (Hf flag Hflag) as [Hf1 Hf2]. constructor; [done|done| | |exact Hf1];
      destruct first, Hpid as [->| ->]; reflexivity. }
  unfold ts_packet. destruct (Nat.eqb_spec (length payload) (if clock then 176%nat else 184%nat)) as [E|E].
  - set (flag := if clock then 0x20 else 0). assert (Hflag : flag = 0 \/ flag = 0x20) by (unfold flag; destruct clock; auto).
    split; [apply Hpo; [done|rewrite length_app, head_length, E; by destruct clock]|]. unfold ts_payload.
    change (nth 3 (head_bytes first clock pid cc dts flag ++ payload) 0) with (Z.lor (Z.lor 0x10 (u8 (Z.land cc 0x0f))) flag).
    rewrite (proj2 (Hf flag Hflag)). unfold flag. by destruct clock.
  - destruct clock; [by specialize (Hclock eq_refl)|]. assert (Hs : (0 < 184 - length payload)%nat) by lia.
    split; [apply Hpo; [by right|rewrite !length_app, head_length, stuffing_length; lia]|]. unfold ts_payload.
    change (nth 3 (head_bytes first false pid cc dts 0x20 ++ ?r) 0) with (Z.lor (Z.lor 0x10 (u8 (Z.land cc 0x0f))) 0x20).
    rewrite (proj2 (Hf 0x20 (or_intror eq_refl))). cbn [negb Z.eqb]. set (n := (184 - length payload)%nat) in *. clearbody n.
    assert (E4 : nth 4 (head_bytes first false pid cc dts 32 ++ stuffing n ++ payload) 0 = Z.of_nat n - 1).
    { destruct n as [|[|n]]; [lia|done|]. cbn. lia. }
    rewrite E4, app_assoc, drop_app_ge by (rewrite length_app, head_length, stuffing_length; lia).
    rewrite length_app, head_length, stuffing_length. by replace (_ - _)%nat with O by lia.
Qed.

Definition mux_cc (isVideo : bool) (m : Muxer) : Z := if isVideo then mux_videoCc m else mux_audioCc m.
Definition pid_of (isVideo : bool) : Z := if isVideo then videoPID else audioPID.

Lemma next_cc_range cc : 0 <= cc < 16 -> 0 <= next_cc cc < 16.
Proof. intros Hc. unfold next_cc. rewrite u8_small by lia. destruct (Z.ltb_spec 0xf (cc + 1)); lia. Qed.

Lemma mux_cc_range isVideo m : mux_ok m -> 0 <= mux_cc isVideo m < 16.
Proof. intros Hm. destruct isVideo; apply Hm. Qed.

(** The muxer after a packet. *)
Definition mux_after (isVideo : bool) (bs : list Z) (m : Muxer) : Muxer :=
  (if isVideo then m <| mux_videoCc := next_cc (mux_videoCc m) |> else m <| mux_audioCc := next_cc (mux_audioCc m) |>) <| mux_tsPacket := bs |>.

Lemma mux_after_ok isVideo bs m : mux_ok m -> length bs = 188%nat ->
  mux_ok (mux_after isVideo bs m) /\ mux_cc isVideo (mux_after isVideo bs m) = next_cc (mux_cc isVideo m).
Proof.
  intros Hm Hb. pose proof (next_cc_range _ (mk_videoCc _ Hm)). pose proof (next_cc_range _ (mk_audioCc _ Hm)).
  split; [|by destruct isVideo]. destruct Hm, isVideo; constructor; simpl; done.
Qed.

(** One round of the loop, with a packet that is filled. *)
Lemma mux_round fuel isVideo isKey pid dts pes data l l' bs m w :
  mux_ok m -> 0 < ml_packetBytesLen l ->
  fill_packet isKey pid (next_cc (mux_cc isVideo m)) dts pes data l (mux_tsPacket m) = (Ok l', bs) ->
  mux_loop (S fuel) isVideo isKey pid dts pes data l (m, w) =
    mux_loop fuel isVideo isKey pid dts pes data (mkMuxLoop false (ml_wBytes l') (ml_pesIndex l') (ml_pesHeaderLen l') (ml_packetBytesLen l'))
      (mux_after isVideo bs m, w ++ bs).
Proof.
  intros Hm Hp E. cbn [mux_loop]. rewrite (proj2 (Z.leb_gt _ _)) by done.
  set (m1 := if isVideo then m <| mux_videoCc := next_cc (mux_videoCc m) |> else m <| mux_audioCc := next_cc (mux_audioCc m) |>).
  rewrite (run_bind_ok _ _ (m, w) tt (m1, w)) by done. rewrite (run_bind_ok _ _ (m1, w) (m1, w) (m1, w)) by done.
  rewrite (run_bind_ok _ _ (m1, w) l' (mux_after isVideo bs m, w)); [done|]. unfold on_tsPacket.
  replace (mux_tsPacket m1) with (mux_tsPacket m) by (unfold m1; by destruct isVideo).
  replace (if isVideo then mux_videoCc m1 else mux_audioCc m1) with (next_cc (mux_cc isVideo m)) by (unfold m1; by destruct isVideo).
  rewrite E. unfold mux_after. fold m1. done.
Qed.

Lemma mux_next fuel isVideo isKey dts pes data wB pi ph m w :
  mux_ok m -> 0 <= wB <= zlen data -> (Z.to_nat (zlen data - wB) <= fuel)%nat ->
  exists m' packets, mux_loop fuel isVideo isKey (pid_of isVideo) dts pes data (mkMuxLoop false wB pi ph (zlen data - wB)) (m, w) =
      (Ok tt, (m', w ++ concat packets)) /\ mux_ok m' /\
    concat (map ts_payload packets) = drop (Z.to_nat wB) data /\ in_sequence (pid_of isVideo) (mux_cc isVideo m) false packets.
Proof.
  revert wB m w. induction fuel as [|fuel IH]; intros wB m w Hm Hw Hf.
  { exists m, []. assert (wB = zlen data) as -> by lia. cbn. rewrite Z.sub_diag. cbn. rewrite app_nil_r. split_and!; try done.
    unfold zlen. by rewrite Nat2Z.id, drop_ge. }
  destruct (decide (wB = zlen data)) as [->|Hne].
  { exists m, []. cbn [mux_loop ml_packetBytesLen]. rewrite Z.sub_diag. cbn. rewrite app_nil_r. split_and!; try done. unfold zlen. by rewrite Nat2Z.id, drop_ge. }
  pose proof (next_cc_range _ (mux_cc_range isVideo m Hm)) as Hcc.
  pose proof (fill_next isKey (pid_of isVideo) (next_cc (mux_cc isVideo m)) dts pes data wB pi ph (mux_tsPacket m) (mk_packet _ Hm) ltac:(lia)) as E.
  cbv zeta in E. set (amount := Z.min 184 (zlen data - wB)) in *. set (bs := ts_packet _ _ _ _ _ _) in E.
  assert (Ham : 0 < amount <= 184 /\ wB + amount <= zlen data) by (unfold amount; lia). clearbody amount.
  rewrite (mux_round fuel isVideo isKey _ _ _ _ (mkMuxLoop false wB pi ph (zlen data - wB)) _ _ _ w Hm ltac:(simpl; lia) E). cbn [ml_wBytes ml_pesIndex ml_pesHeaderLen ml_packetBytesLen].
  set (payload := take _ (drop (Z.to_nat wB) data)) in bs.
  destruct (ts_packet_of false false (pid_of isVideo) (next_cc (mux_cc isVideo m)) dts payload) as [Hpo Hpl];
    [destruct isVideo; auto|done|done|unfold payload; rewrite length_take; lia|]. fold bs in Hpo, Hpl.
  destruct (mux_after_ok isVideo bs m Hm (po_length _ _ _ _ Hpo)) as [Hm1 Hcc1].
  replace (zlen data - wB - amount) with (zlen data - (wB + amount)) by lia.
  destruct (IH (wB + amount) (mux_after isVideo bs m) (w ++ bs) Hm1 ltac:(lia) ltac:(lia)) as (m' & packets & E' & Hm' & Hc & Hn).
  exists m', (bs :: packets). rewrite E'. cbn [concat map in_sequence]. rewrite Hpl, Hc, <- app_assoc, <- Hcc1. split_and!; try done.
  - unfold payload. rewrite Z2Nat.inj_add, <- drop_drop by lia. apply take_drop.
  - by rewrite Hcc1.
Qed.

(** The timestamp in five bytes. *)
Definition read_ts (b : list Z) : Z :=
  match b with
  | [b0; b1; b2; b3; b4] => (b0 / 2 mod 8) * 2 ^ 30 + b1 * 2 ^ 22 + (b2 / 2) * 2 ^ 15 + b3 * 2 ^ 7 + b4 / 2
  | _ => 0
  end.

Lemma writeTs_read fb ts : 0 <= fb < 16 -> 0 <= ts < 2 ^ 33 -> read_ts (writeTs fb ts) = ts.
Proof.
  intros Hfb Hts. unfold writeTs. rewrite (proj2 (Z.ltb_ge _ _)) by lia. cbv zeta.
  rewrite !(land_mod 15 _ 0x7fff), (land_mod 3 _ 0x07) by (done || lia). rewrite !Z.shiftr_div_pow2 by lia.
  set (a := u32 (ts / 2 ^ 30) mod 2 ^ 3). set (b := u32 (ts / 2 ^ 15) mod 2 ^ 15). set (c := ts mod 2 ^ 15).
  assert (Ha : a = ts / 2 ^ 30) by (unfold a, u32; Z.to_euclidean_division_equations; lia).
  assert (Hb : b = ts / 2 ^ 15 mod 2 ^ 15) by (unfold b, u32; Z.to_euclidean_division_equations; lia).
  assert (Ha8 : 0 <= a < 8) by (rewrite Ha; Z.to_euclidean_division_equations; lia).
  assert (Hbc : 0 <= b < 2 ^ 15 /\ 0 <= c < 2 ^ 15) by (unfold b, c; split; apply Z.mod_pos_bound; lia).
  rewrite (u32_small c), !Z.shiftl_mul_pow2 by lia. rewrite !(u32_small (_ * _)) by lia.
  rewrite (lor_add 4 fb (a * 2 ^ 1)) by lia.
  replace (fb * 2 ^ 4 + a * 2 ^ 1) with ((fb * 8 + a) * 2 ^ 1) by lia. rewrite !(lor_add 1) by lia.
  assert (Ets : ts = a * 2 ^ 30 + b * 2 ^ 15 + c) by (rewrite Ha, Hb; unfold c; Z.to_euclidean_division_equations; lia).
  rewrite Ets. clear Ha Hb Ets Hts. clearbody a b c. unfold read_ts, u8. Z.to_euclidean_division_equations. lia.
Qed.

(** The times of a frame, in ticks of 90 kHz. *)
Definition media_dts (p : av_Packet) : Z := pkt_TimeStamp p * 90.
Definition media_pts (p : av_Packet) : Z :=
  match pkt_Header p with
  | Some tag => if pkt_IsVideo p then media_dts p + tag_compositionTime tag * 90 else media_dts p
  | None => media_dts p
  end.
Definition media_key (p : av_Packet) : bool :=
  match pkt_Header p with Some tag => pkt_IsVideo p && IsKeyFrame tag | None => false end.
Definition media_bytes (p : av_Packet) : list Z := pes_packet p (media_pts p) (media_dts p) ++ pkt_Data p.

Record media_ok (p : av_Packet) : Prop := {
  mo_time : 0 <= pkt_TimeStamp p < 2 ^ 32;
  mo_header : pkt_IsVideo p = true -> exists tag, pkt_Header p = Some tag /\ 0 <= tag_compositionTime tag < 2 ^ 24;
  mo_key : media_key p = true -> 184 <= zlen (media_bytes p)
}.

Lemma pes_length p pts dts : zlen (pes_packet p pts dts) = 14 \/ zlen (pes_packet p pts dts) = 19.
Proof. unfold pes_packet. destruct (pkt_IsVideo p && negb (pts =? dts)); [by right|by left]. Qed.

Lemma Mux_start p m w : media_ok p ->
  Mux p (m, w) =
    mux_loop (Z.to_nat (zlen (media_bytes p))) (pkt_IsVideo p) (media_key p) (pid_of (pkt_IsVideo p)) (media_dts p)
      (pes_packet p (media_pts p) (media_dts p) ++ replicate (188 - length (pes_packet p (media_pts p) (media_dts p))) 0) (pkt_Data p)
      (mkMuxLoop true 0 0 (zlen (pes_packet p (media_pts p) (media_dts p))) (zlen (media_bytes p))) (m, w).
Proof.
  intros [Ht Hh _]. unfold Mux, h264DefaultHZ. rewrite (i64_small (pkt_TimeStamp p * 90)) by lia. fold (media_dts p). cbv zeta.
  rewrite (run_bind_ok _ _ (m, w) (media_pts p, media_key p) (m, w)).
  - rewrite (u8_small (zlen _)) by (destruct (pes_length p (media_pts p) (media_dts p)) as [-> | ->]; lia).
    unfold media_bytes. rewrite zlen_app, (Z.add_comm (zlen (pkt_Data p))). reflexivity.
  - unfold media_pts, media_key. destruct (pkt_IsVideo p); [|by destruct (pkt_Header p)]. destruct (Hh eq_refl) as (tag & -> & Hc).
    rewrite (i64_small (tag_compositionTime tag * 90)) by lia. rewrite i64_small by (unfold media_dts; lia). done.
Qed.

Lemma media_time p : media_ok p -> media_pts p < 2 ^ 33 -> read_ts (take 5 (drop 9 (media_bytes p))) = media_pts p.
Proof.
  intros [Ht Hh _] Hlt. assert (H0 : 0 <= media_pts p).
  { unfold media_pts, media_dts. destruct (pkt_Header p) as [tag|] eqn:Eh; [|lia]. destruct (pkt_IsVideo p); [|lia].
    destruct (Hh eq_refl) as (tag' & E & Hc). simplify_eq. lia. }
  unfold media_bytes, pes_packet. set (both := pkt_IsVideo p && _). rewrite <- !app_assoc.
  change (take 5 (drop 9 (?a ++ ?b ++ ?c ++ ?d))) with (take 5 (b ++ c ++ d)).
  rewrite take_app_le by done. rewrite take_ge by done. apply writeTs_read; [by destruct both|lia].
Qed.

(** C17: A frame is packed into packets of 188 bytes of its stream, which are numbered one
    after the other and of which the first is marked; what a reader takes from them is the
    header of the frame and its data, and the header has the time at which to show it when
    that is below 2^33 ticks of 90 kHz, which is 26.5 hours (a later one wraps in the format).
    It holds for every frame with a time of 32 bits, for video one with a header, except for
    key frames that do not fill a packet. *)
Theorem mux_delivers p m w : mux_ok m -> media_ok p ->
  exists m' packets, Mux p (m, w) = (Ok tt, (m', w ++ concat packets)) /\ mux_ok m' /\
    concat (map ts_payload packets) = media_bytes p /\
    in_sequence (pid_of (pkt_IsVideo p)) (mux_cc (pkt_IsVideo p) m) true packets /\
    (media_pts p < 2 ^ 33 -> read_ts (take 5 (drop 9 (media_bytes p))) = media_pts p).
Proof.
  intros Hm Hp. rewrite Mux_start by done. set (pes := pes_packet p (media_pts p) (media_dts p)). set (isVideo := pkt_IsVideo p).
  pose proof (pes_length p (media_pts p) (media_dts p)) as Hpes. fold pes in Hpes.
  assert (Hlen : zlen (media_bytes p) = zlen pes + zlen (pkt_Data p)) by (unfold media_bytes; by rewrite zlen_app).
  pose proof (zlen_nonneg (pkt_Data p)). pose proof (next_cc_range _ (mux_cc_range isVideo m Hm)) as Hcc.
  pose proof (mo_key _ Hp) as Hkey. rewrite Hlen in Hkey |- *.
  destruct (fill_first (media_key p) (pid_of isVideo) (next_cc (mux_cc isVideo m)) (media_dts p) pes
    (replicate (188 - length pes) 0) (pkt_Data p) (mux_tsPacket m) (mk_packet _ Hm) ltac:(lia) Hkey) as [Hle E].
  set (amount := Z.min _ _) in Hle, E. set (bs := ts_packet _ _ _ _ _ _) in E. destruct (Z.to_nat (zlen pes + zlen (pkt_Data p))) as [|fuel] eqn:Ef; [lia|].
  rewrite (mux_round fuel isVideo (media_key p) _ _ _ _ (mkMuxLoop true 0 0 (zlen pes) (zlen pes + zlen (pkt_Data p))) _ _ _ w Hm ltac:(simpl; lia) E).
  cbn [ml_wBytes ml_pesIndex ml_pesHeaderLen ml_packetBytesLen].
  assert (Ham : amount <= zlen pes + zlen (pkt_Data p) /\ amount <= 184 /\ (media_key p = true -> amount = 176))
    by (unfold amount; destruct (media_key p); [specialize (Hkey eq_refl)|]; split_and!; try done; lia). clearbody amount.
  set (payload := take (Z.to_nat amount) _) in bs. assert (Hpl : zlen payload = amount) by (unfold payload, zlen in *; rewrite length_take, length_app; lia).
  destruct (ts_packet_of true (media_key p) (pid_of isVideo) (next_cc (mux_cc isVideo m)) (media_dts p) payload) as [Hpo Hpay];
    [destruct isVideo; auto|done|unfold zlen in Hpl; intros Hk; destruct Ham as (_ & _ & Ham); specialize (Ham Hk); lia|unfold zlen in Hpl; lia|]. fold bs in Hpo, Hpay.
  destruct (mux_after_ok isVideo bs m Hm (po_length _ _ _ _ Hpo)) as [Hm1 Hcc1].
  replace (zlen pes + zlen (pkt_Data p) - amount) with (zlen (pkt_Data p) - (amount - zlen pes)) by lia.
  destruct (mux_next fuel isVideo (media_key p) (media_dts p) (pes ++ replicate (188 - length pes) 0) (pkt_Data p) (amount - zlen pes) (zlen pes) 0
    (mux_after isVideo bs m) (w ++ bs) Hm1 ltac:(lia) ltac:(lia)) as (m' & packets & E' & Hm' & Hc & Hn).
  exists m', (bs :: packets). rewrite E'. cbn [concat map in_sequence]. rewrite Hpay, Hc, <- app_assoc, <- Hcc1. split_and!; try done.
  - unfold payload, media_bytes. fold pes. rewrite take_app_ge by (unfold zlen in *; lia). rewrite <- app_assoc. f_equal.
    replace (Z.to_nat (amount - zlen pes)) with (Z.to_nat amount - length pes)%nat by (unfold zlen in *; lia). apply take_drop.
  - by rewrite Hcc1.
  - apply media_time. exact Hp.
Qed.

Definition key_frame (n : nat) : av_Packet :=
  mk_av_Packet false true false 40 1 (Some (zeroTag <| tag_frameType := FRAME_KEY |> <| tag_codecID := VIDEO_H264 |> <| tag_avcPacketType := 1 |>)) (replicate n 1).

Lemma NewMuxer_ok : mux_ok NewMuxer.
Proof. constructor; simpl; try lia; reflexivity. Qed.

Lemma mux_delivers_witness :
  exists m' packets, Mux (key_frame 400) (NewMuxer, []) = (Ok tt, (m', [] ++ concat packets)) /\ mux_ok m' /\
    concat (map ts_payload packets) = media_bytes (key_frame 400) /\ in_sequence videoPID 0 true packets /\
    (media_pts (key_frame 400) < 2 ^ 33 -> read_ts (take 5 (drop 9 (media_bytes (key_frame 400)))) = media_pts (key_frame 400)).
Proof.
  apply (mux_delivers (key_frame 400) NewMuxer []); [exact NewMuxer_ok|]. constructor.
  - simpl. lia.
  - intros _. eexists. split; [reflexivity|]. simpl. lia.
  - intros _. vm_compute. discriminate.
Defined.

(** ** What goes wrong *)

(** A key frame that does not fill a packet: the stuffing is written behind the adaptation
    field with the clock, and is read as data. *)
Lemma short_key_frame_stuffed :
  exists m' bs, Mux (key_frame 100) (NewMuxer, []) = (Ok tt, (m', bs)) /\ length bs = 188%nat /\
    ts_payload bs = 61 :: 0 :: replicate 60 0xff ++ media_bytes (key_frame 100).
Proof. eexists _, _. split; [vm_compute; reflexivity|]. split; vm_compute; reflexivity. Qed.

(** With a few bytes less than a packet the clock is overwritten by the frame, whose first
    bytes are lost. *)
Lemma key_frame_cut :
  exists m' bs, Mux (key_frame 166) (NewMuxer, []) = (Ok tt, (m', bs)) /\ length bs = 188%nat /\
    ts_payload bs = drop 4 (media_bytes (key_frame 166)).
Proof. eexists _, _. split; [vm_compute; reflexivity|]. split; vm_compute; reflexivity. Qed.

(** Timestamps have 33 bits; the one after the last is written as 1. *)
Lemma timestamp_wraps_to_one : read_ts (writeTs 2 (2 ^ 33)) = 1.
Proof. reflexivity. Qed.
