(* ===== verification/StreamCache.v ===== *)
(** What a player that joins a stream is sent first (liveproxy/protocol/rtmp/cache): the
    headers of the stream and its last groups of pictures. *)

From S2P Require Import Prelude Chunk Media.

(** ** gop.go *)

Definition maxGOPCap : Z := 1024.
Definition ErrGopTooBig : error := errors_New "gop to big".

(** An [array] is the list of its packets, whose length is its [index]; a group that was not
    begun is nil. *)
Abbreviation gop_array := (list av_Packet) (only parsing).

Definition array_write (packet : av_Packet) : GoM gop_array unit :=
  a ← getS;
  if maxGOPCap <=? zlen a then fail ErrGopTooBig else putS (a ++ [packet]).

Record GopCache := mkGopCache {
  gop_start : bool;
  gop_num : Z;
  gop_count : Z;
  gop_nextindex : Z;
  gop_gops : list (option gop_array)
}.

#[global] Instance eta_GopCache : Eta GopCache := fun c =>
  mkGopCache (gop_start c) (gop_num c) (gop_count c) (gop_nextindex c) (gop_gops c).

Definition NewGopCache (num : Z) : GopCache := mkGopCache false 0 num 0 (replicate (Z.to_nat num) None).

(** [a % b] *)
Definition go_mod {S} (a b : Z) : GoM S Z := if b =? 0 then panic "integer divide by zero" else mret (Z.rem a b).

Definition gop_at {S} (gops : list (option gop_array)) (i : Z) : GoM S (option gop_array) :=
  if i <? 0 then panic "index out of range"
  else match gops !! Z.to_nat i with Some g => mret g | None => panic "index out of range" end.

(** [ginc.write(chunk)] for the group at [i], without its error. *)
Definition write_group (i : Z) (chunk : av_Packet) : GoM GopCache unit :=
  c ← getS;
  g ← gop_at (gop_gops c) i;
  match g with
  | None => panic "nil pointer dereference"
  | Some a =>
      let '(r, a) := array_write chunk a in
      ignore_error (lift r);;
      putS (c <| gop_gops := <[Z.to_nat i := Some a]> (gop_gops c) |>)
  end.

Definition writeToArray (chunk : av_Packet) (startNew : bool) : GoM GopCache unit :=
  if startNew then
    c ← getS;
    let i := gop_nextindex c in
    ginc ← gop_at (gop_gops c) i;
    putS (c <| gop_num := match ginc with Some _ => gop_num c | None => gop_num c + 1 end |> <| gop_gops := <[Z.to_nat i := Some []]> (gop_gops c) |>);;
    next ← go_mod (i + 1) (gop_count c);
    modifyS (fun c => c <| gop_nextindex := next |>);;
    write_group i chunk
  else
    c ← getS;
    i ← go_mod (gop_nextindex c + 1) (gop_count c);
    write_group i chunk.

Definition gop_Write (p : av_Packet) : GoM GopCache unit :=
  ok ← (if pkt_IsVideo p then
          match pkt_Header p with
          | Some vh => mret (IsKeyFrame vh && negb (IsSeq vh))
          | None => panic "interface conversion"
          end
        else mret false);
  c ← getS;
  if ok || gop_start c then
    putS (c <| gop_start := true |>);;
    writeToArray p ok
  else mret tt.

Section Send.
(** A writer, and what it does with a packet. *)
Context {W : Type} (write : av_Packet -> GoM W unit).

Fixpoint send_packets (packets : list av_Packet) : GoM W unit :=
  match packets with
  | [] => mret tt
  | p :: packets => write p;; send_packets packets
  end.

Fixpoint send_groups (c : GopCache) (pos : Z) (i : Z) (n : nat) : GoM W unit :=
  match n with
  | O => mret tt
  | S n =>
      let index := pos - gop_num c + 1 + i in
      let index := if index <? 0 then index + gop_count c else index in
      g ← gop_at (gop_gops c) index;
      match g with
      | None => panic "nil pointer dereference"
      | Some a => send_packets a;; send_groups c pos (i + 1) n
      end
  end.

Definition sendTo (c : GopCache) : GoM W unit :=
  pos ← go_mod (gop_nextindex c + 1) (gop_count c);
  send_groups c pos 0 (Z.to_nat (gop_num c)).

(** ** special.go

    [None] for a cache that is not full. *)
Definition special_Send (p : option av_Packet) : GoM W unit :=
  match p with None => mret tt | Some p => write p end.
End Send.

(** ** cache.go *)

Record Cache := mkCache {
  ca_gop : GopCache;
  ca_videoSeq : option av_Packet;
  ca_audioSeq : option av_Packet;
  ca_metadata : option av_Packet
}.

#[global] Instance eta_Cache : Eta Cache := fun c => mkCache (ca_gop c) (ca_videoSeq c) (ca_audioSeq c) (ca_metadata c).

(** [gop_num] of the configuration. *)
Definition NewCache (gop_num : Z) : Cache := mkCache (NewGopCache gop_num) None None None.

Definition on_gop (m : GoM GopCache unit) : GoM Cache unit := fun c =>
  let '(r, g) := m (ca_gop c) in (r, c <| ca_gop := g |>).

Definition cache_Write (p : av_Packet) : GoM Cache unit :=
  if pkt_IsMetadata p then modifyS (fun c => c <| ca_metadata := Some p |>)
  else if negb (pkt_IsVideo p) then
    match pkt_Header p with
    | Some ah =>
        if (tag_soundFormat ah =? SOUND_AAC) && (tag_aacPacketType ah =? AAC_SEQHDR)
        then modifyS (fun c => c <| ca_audioSeq := Some p |>)
        else mret tt
    | None => on_gop (gop_Write p)
    end
  else
    match pkt_Header p with
    | Some vh => if IsSeq vh then modifyS (fun c => c <| ca_videoSeq := Some p |>) else on_gop (gop_Write p)
    | None => mret tt
    end.

Definition cache_Send {W} (write : av_Packet -> GoM W unit) (c : Cache) : GoM W unit :=
  special_Send write (ca_metadata c);;
  special_Send write (ca_videoSeq c);;
  special_Send write (ca_audioSeq c);;
  sendTo write (ca_gop c).

(** ** What is cached *)

(** The groups of pictures in a sequence of packets, at most [count] and the oldest first:
    a key frame begins one; one has at most 1024 packets. *)
Definition is_key (p : av_Packet) : bool :=
  match pkt_Header p with Some vh => pkt_IsVideo p && IsKeyFrame vh && negb (IsSeq vh) | None => false end.

(** The packets that belong to a group: video that is no header, and what has no header. *)
Definition in_group (p : av_Packet) : bool :=
  negb (pkt_IsMetadata p) &&
  match pkt_Header p with Some vh => pkt_IsVideo p && negb (IsSeq vh) | None => negb (pkt_IsVideo p) end.

Definition add_last (p : av_Packet) (g : list av_Packet) : list av_Packet :=
  if zlen g <? 1024 then g ++ [p] else g.

Definition next_groups (count : nat) (gs : list (list av_Packet)) (p : av_Packet) : list (list av_Packet) :=
  if negb (in_group p) then gs
  else if is_key p then drop (length gs + 1 - count) (gs ++ [[p]])
  else match gs with [] => [] | _ => take (length gs - 1) gs ++ [add_last p (default [] (last gs))] end.

Definition groups (count : nat) (ps : list av_Packet) : list (list av_Packet) := foldl (next_groups count) [] ps.

(** The last packet with a property. *)
Definition last_with (f : av_Packet -> bool) (ps : list av_Packet) : option av_Packet := last (filter (fun p => f p = true) ps).

Definition is_video_seq (p : av_Packet) : bool :=
  negb (pkt_IsMetadata p) && pkt_IsVideo p && match pkt_Header p with Some vh => IsSeq vh | None => false end.
Definition is_audio_seq (p : av_Packet) : bool :=
  negb (pkt_IsMetadata p) && negb (pkt_IsVideo p) &&
  match pkt_Header p with Some ah => (tag_soundFormat ah =? SOUND_AAC) && (tag_aacPacketType ah =? AAC_SEQHDR) | None => false end.

(** What a player is sent first. *)
Definition cached (count : nat) (ps : list av_Packet) : list av_Packet :=
  option_list (last_with pkt_IsMetadata ps) ++ option_list (last_with is_video_seq ps) ++ option_list (last_with is_audio_seq ps) ++
  concat (groups count ps).

(** How one or two groups are stored. *)
Inductive stored_groups : nat -> list (list av_Packet) -> GopCache -> Prop :=
| stored_1_0 : stored_groups 1 [] (mkGopCache false 0 1 0 [None])
| stored_1_1 g : stored_groups 1 [g] (mkGopCache true 1 1 0 [Some g])
| stored_2_0 : stored_groups 2 [] (mkGopCache false 0 2 0 [None; None])
| stored_2_1 g : stored_groups 2 [g] (mkGopCache true 1 2 1 [Some g; None])
| stored_2_2 g h : stored_groups 2 [g; h] (mkGopCache true 2 2 0 [Some g; Some h])
| stored_2_2' g h : stored_groups 2 [g; h] (mkGopCache true 2 2 1 [Some h; Some g]).

Lemma add_last_stored p g :
  (let '(r, a) := array_write p g in (ignore_error (lift r : GoM unit unit) tt, a)) = ((Ok tt, tt), add_last p g).
Proof.
  unfold array_write, add_last, maxGOPCap. run. destruct (Z.leb_spec 1024 (zlen g)) as [H|H].
  - by rewrite (proj2 (Z.ltb_ge _ _)).
  - by rewrite (proj2 (Z.ltb_lt _ _)).
Qed.

Lemma write_group_run i g p c : 0 <= i -> gop_gops c !! Z.to_nat i = Some (Some g) ->
  write_group i p c = (Ok tt, c <| gop_gops := <[Z.to_nat i := Some (add_last p g)]> (gop_gops c) |>).
Proof.
  intros Hi Hg. unfold write_group. rewrite (run_bind_ok _ _ c c c) by done. unfold gop_at. rewrite (proj2 (Z.ltb_ge _ _)), Hg by done.
  rewrite (run_bind_ok _ _ c (Some g) c) by done. pose proof (add_last_stored p g) as E. destruct (array_write p g) as [r a].
  injection E as Er Ea. unfold mbind, GoM_bind, ignore_error, lift in *. destruct r as [[]|e|q]; by simplify_eq.
Qed.

(** A packet that belongs to a group. *)
Lemma gop_Write_stored count gs c p : stored_groups count gs c -> in_group p = true ->
  exists c', gop_Write p c = (Ok tt, c') /\ stored_groups count (next_groups count gs p) c'.
Proof.
  intros Hs Hp. unfold gop_Write.
  assert (Hok : forall s : GopCache, (if pkt_IsVideo p then match pkt_Header p with
    | Some vh => mret (IsKeyFrame vh && negb (IsSeq vh)) | None => panic "interface conversion" end else mret false : GoM GopCache bool) s = (Ok (is_key p), s)).
  { intros s. unfold in_group, is_key in *. destruct (pkt_Header p) as [vh|], (pkt_IsVideo p); rewrite ?andb_false_r in Hp; done. }
  rewrite (run_bind_ok _ _ c _ c (Hok c)), (run_bind_ok _ _ c c c) by done. unfold next_groups. rewrite Hp. cbn [negb].
  assert (Hadd : add_last p [] = [p]) by done.
  clear Hok Hp. destruct (is_key p); destruct Hs as [|g| |g|g h|g h]; cbn [orb gop_start].
  - exists (mkGopCache true 1 1 0 [Some [p]]). split; [reflexivity|constructor].
  - exists (mkGopCache true 1 1 0 [Some [p]]). split; [reflexivity|constructor].
  - exists (mkGopCache true 1 2 1 [Some [p]; None]). split; [reflexivity|constructor].
  - exists (mkGopCache true 2 2 0 [Some g; Some [p]]). split; [reflexivity|constructor].
  - exists (mkGopCache true 2 2 1 [Some [p]; Some h]). split; [reflexivity|constructor].
  - exists (mkGopCache true 2 2 0 [Some h; Some [p]]). split; [reflexivity|constructor].
  - eexists. split; [reflexivity|constructor].
  - set (c := mkGopCache true 1 1 0 [Some g]). eexists. split; [exact (write_group_run 0 g p c ltac:(lia) eq_refl)|constructor].
  - eexists. split; [reflexivity|constructor].
  - set (c := mkGopCache true 1 2 1 [Some g; None]). eexists. split; [exact (write_group_run 0 g p c ltac:(lia) eq_refl)|constructor].
  - set (c := mkGopCache true 2 2 0 [Some g; Some h]). eexists. split; [exact (write_group_run 1 h p c ltac:(lia) eq_refl)|constructor].
  - set (c := mkGopCache true 2 2 1 [Some h; Some g]). eexists. split; [exact (write_group_run 0 h p c ltac:(lia) eq_refl)|constructor].
Qed.

(** What is stored is sent, the oldest group first. *)
Lemma send_packets_app {W} (write : av_Packet -> GoM W unit) ps qs w :
  send_packets write (ps ++ qs) w = (send_packets write ps;; send_packets write qs) w.
Proof.
  revert w. induction ps as [|p ps IH]; intros w; [done|]. cbn [app send_packets]. unfold mbind, GoM_bind in *.
  destruct (write p w) as [[[]|e|q] w']; [apply IH|done|done].
Qed.

Lemma sendTo_stored {W} (write : av_Packet -> GoM W unit) count gs c w : stored_groups count gs c ->
  sendTo write c w = send_packets write (concat gs) w.
Proof.
  assert (H2 : forall g h w, (send_packets write g;; send_packets write h;; mret tt) w = send_packets write (concat [g; h]) w).
  { intros g h w0. cbn [concat]. rewrite app_nil_r, send_packets_app. unfold mbind, GoM_bind.
    destruct (send_packets write g w0) as [[[]|e|q] w']; [|done|done]. by destruct (send_packets write h w') as [[[]|e|q] w'']. }
  assert (H1 : forall g w, (send_packets write g;; mret tt) w = send_packets write (concat [g]) w).
  { intros g w0. cbn [concat]. rewrite app_nil_r. unfold mbind, GoM_bind. by destruct (send_packets write g w0) as [[[]|e|q] w']. }
  destruct 1; [done|exact (H1 g w)|done|exact (H1 g w)|exact (H2 g h w)|exact (H2 g h w)].
Qed.

Fixpoint cache_writes (ps : list av_Packet) : GoM Cache unit :=
  match ps with
  | [] => mret tt
  | p :: ps => cache_Write p;; cache_writes ps
  end.

Record caches (count : nat) (ps : list av_Packet) (c : Cache) : Prop := {
  ce_groups : stored_groups count (groups count ps) (ca_gop c);
  ce_video : ca_videoSeq c = last_with is_video_seq ps;
  ce_audio : ca_audioSeq c = last_with is_audio_seq ps;
  ce_meta : ca_metadata c = last_with pkt_IsMetadata ps
}.

Lemma last_with_snoc f ps p : last_with f (ps ++ [p]) = if f p then Some p else last_with f ps.
Proof. unfold last_with. rewrite filter_app, filter_cons, filter_nil. destruct (f p); case_decide; try done; [by rewrite last_snoc|by rewrite app_nil_r]. Qed.

Lemma groups_snoc count ps p : groups count (ps ++ [p]) = next_groups count (groups count ps) p.
Proof. unfold groups. by rewrite foldl_app. Qed.

Lemma cache_Write_caches count ps c p : caches count ps c ->
  exists c', cache_Write p c = (Ok tt, c') /\ caches count (ps ++ [p]) c'.
Proof.
  intros [Hg Hv Ha Hm].
  assert (Hin : in_group p = true -> exists c', on_gop (gop_Write p) c = (Ok tt, c <| ca_gop := c' |>) /\ stored_groups count (next_groups count (groups count ps) p) c').
  { intros Hp. destruct (gop_Write_stored _ _ _ p Hg Hp) as (c' & E & Hs). exists c'. unfold on_gop. by rewrite E. }
  unfold cache_Write. destruct (pkt_IsMetadata p) eqn:Em.
  { eexists. split; [done|]. constructor; simpl; rewrite ?last_with_snoc, ?groups_snoc; unfold next_groups, in_group, is_video_seq, is_audio_seq; rewrite ?Em; done. }
  destruct (pkt_IsVideo p) eqn:Ev, (pkt_Header p) as [tag|] eqn:Eh; cbn [negb].
  - destruct (IsSeq tag) eqn:Es.
    + eexists. split; [done|]. constructor; simpl; rewrite ?last_with_snoc, ?groups_snoc; unfold next_groups, in_group, is_video_seq, is_audio_seq;
        rewrite ?Em, ?Ev, ?Eh, ?Es; done.
    + destruct Hin as (c' & E & Hs); [unfold in_group; by rewrite Em, Eh, Ev, Es|]. eexists. split; [exact E|].
      constructor; simpl; rewrite ?last_with_snoc, ?groups_snoc; [done|..]; unfold is_video_seq, is_audio_seq; rewrite ?Em, ?Ev, ?Eh, ?Es; done.
  - exists c. split; [done|]. constructor; rewrite ?last_with_snoc, ?groups_snoc; unfold next_groups, in_group, is_video_seq, is_audio_seq; rewrite ?Em, ?Ev, ?Eh; done.
  - destruct ((tag_soundFormat tag =? SOUND_AAC) && (tag_aacPacketType tag =? AAC_SEQHDR)) eqn:Es; eexists; (split; [done|]);
      constructor; simpl; rewrite ?last_with_snoc, ?groups_snoc; unfold next_groups, in_group, is_video_seq, is_audio_seq; rewrite ?Em, ?Ev, ?Eh, ?Es; done.
  - destruct Hin as (c' & E & Hs); [unfold in_group; by rewrite Em, Eh, Ev|]. eexists. split; [exact E|].
    constructor; simpl; rewrite ?last_with_snoc, ?groups_snoc; [done|..]; unfold is_video_seq, is_audio_seq; rewrite ?Em, ?Ev, ?Eh; done.
Qed.

Lemma cache_writes_caches count ps qs c : caches count ps c ->
  exists c', cache_writes qs c = (Ok tt, c') /\ caches count (ps ++ qs) c'.
Proof.
  revert ps c. induction qs as [|q qs IH]; intros ps c Hc; [exists c; by rewrite app_nil_r|]. cbn [cache_writes].
  destruct (cache_Write_caches count ps c q Hc) as (c1 & E1 & Hc1). rewrite (run_bind_ok _ _ _ _ _ E1).
  destruct (IH _ _ Hc1) as (c2 & E2 & Hc2). exists c2. by rewrite <- app_assoc in Hc2.
Qed.

Lemma NewCache_caches count : count = 1%nat \/ count = 2%nat -> caches count [] (NewCache (Z.of_nat count)).
Proof. intros [-> | ->]; constructor; try done; constructor. Qed.

Lemma cache_Send_caches {W} (write : av_Packet -> GoM W unit) count ps c w : caches count ps c ->
  cache_Send write c w = send_packets write (cached count ps) w.
Proof.
  intros [Hg Hv Ha Hm]. unfold cache_Send, cached. rewrite Hv, Ha, Hm, !send_packets_app. unfold special_Send.
  assert (Hopt : forall o w, send_packets write (option_list o) w = match o with Some p => write p | None => mret tt end w).
  { intros [p|] w0; [|done]. cbn. unfold mbind, GoM_bind. by destruct (write p w0) as [[[]|e|q] w']. }
  unfold mbind, GoM_bind. rewrite Hopt. destruct (match last_with _ _ with Some p => write p | None => mret tt end w) as [[[]|e|q] w1]; [|done|done].
  rewrite send_packets_app. unfold mbind, GoM_bind. rewrite Hopt.
  destruct (match last_with is_video_seq ps with Some p => write p | None => mret tt end w1) as [[[]|e|q] w2]; [|done|done].
  rewrite send_packets_app. unfold mbind, GoM_bind. rewrite Hopt.
  destruct (match last_with is_audio_seq ps with Some p => write p | None => mret tt end w2) as [[[]|e|q] w3]; [|done|done].
  exact (sendTo_stored write count _ _ w3 Hg).
Qed.

(** Three groups: the packet after the first key frame is written to a group that is nil. *)
Lemma three_groups_panic key p c :
  is_key key = true -> pkt_IsMetadata key = false -> pkt_IsVideo p = false -> pkt_Header p = None -> pkt_IsMetadata p = false ->
  c = NewCache 3 -> fst (cache_writes [key; p] c) = Panic "nil pointer dereference".
Proof.
  intros Hk Hm Hv Hh Hm' ->. unfold is_key in Hk. destruct (pkt_Header key) as [vh|] eqn:Eh; [|done].
  destruct (pkt_IsVideo key) eqn:Ev, (IsKeyFrame vh) eqn:Ek, (IsSeq vh) eqn:Es; try done.
  unfold cache_writes, cache_Write. rewrite Hm, Ev, Eh, Es, Hm', Hv, Hh. cbn [negb]. unfold gop_Write. rewrite Ev, Eh, Ek, Es, Hv. done.
Qed.
