(* ===== verification/Relay.v ===== *)
(** The relay of a stream from its publisher to its players (liveproxy/av/rwbase.go,
    liveproxy/protocol/rtmp: rtmp.go, stream.go). The clock is an argument. A channel is the
    list of what is in it; an operation that waits for ever panics as Go does when all
    goroutines are asleep. *)

From S2P Require Import Prelude Amf Chunk Media StreamCache RtmpCommands.

(** ** rwbase.go *)

Record RWBaser := mkRWBaser {
  rwb_timeout : Z;
  rwb_PreTime : Z;
  rwb_BaseTimestamp : Z;
  rwb_LastVideoTimestamp : Z;
  rwb_LastAudioTimestamp : Z
}.

#[global] Instance eta_RWBaser : Eta RWBaser := fun b =>
  mkRWBaser (rwb_timeout b) (rwb_PreTime b) (rwb_BaseTimestamp b) (rwb_LastVideoTimestamp b) (rwb_LastAudioTimestamp b).

Definition NewRWBaser (duration now : Z) : RWBaser := mkRWBaser duration now 0 0 0.

Definition CalcBaseTimestamp (b : RWBaser) : RWBaser :=
  if rwb_LastVideoTimestamp b <? rwb_LastAudioTimestamp b then b <| rwb_BaseTimestamp := rwb_LastAudioTimestamp b |>
  else b <| rwb_BaseTimestamp := rwb_LastVideoTimestamp b |>.

Definition RecTimeStamp (timestamp typeID : Z) (b : RWBaser) : RWBaser :=
  if typeID =? TAG_VIDEO then b <| rwb_LastVideoTimestamp := timestamp |>
  else if typeID =? TAG_AUDIO then b <| rwb_LastAudioTimestamp := timestamp |>
  else b.

Definition SetPreTime (now : Z) (b : RWBaser) : RWBaser := b <| rwb_PreTime := now |>.
Definition rwb_Alive (now : Z) (b : RWBaser) : bool := negb (rwb_timeout b <=? Time_Sub now (rwb_PreTime b)).

(** ** rtmp.go: statistics *)

Definition SAVE_STATICS_INTERVAL : Z := 5000.

Record StaticsBW := mkStaticsBW {
  bw_StreamId : Z;
  bw_VideoDatainBytes : Z;
  bw_LastVideoDatainBytes : Z;
  bw_VideoSpeedInBytesperMS : Z;
  bw_AudioDatainBytes : Z;
  bw_LastAudioDatainBytes : Z;
  bw_AudioSpeedInBytesperMS : Z;
  bw_LastTimestamp : Z
}.

#[global] Instance eta_StaticsBW : Eta StaticsBW := fun b =>
  mkStaticsBW (bw_StreamId b) (bw_VideoDatainBytes b) (bw_LastVideoDatainBytes b) (bw_VideoSpeedInBytesperMS b) (bw_AudioDatainBytes b)
    (bw_LastAudioDatainBytes b) (bw_AudioSpeedInBytesperMS b) (bw_LastTimestamp b).

(** The bits per millisecond of the bytes since the last time. *)
Definition bit_rate (bytes last diffTimestamp : Z) : Z := u64 (u64 (bytes - last) * 8) / u64 diffTimestamp / 1000.

Definition SaveStatics (nowInMS streamid length : Z) (isVideoFlag : bool) (b : StaticsBW) : StaticsBW :=
  let b := b <| bw_StreamId := streamid |> in
  let b := if isVideoFlag then b <| bw_VideoDatainBytes := u64 (bw_VideoDatainBytes b + length) |>
           else b <| bw_AudioDatainBytes := u64 (bw_AudioDatainBytes b + length) |> in
  if bw_LastTimestamp b =? 0 then b <| bw_LastTimestamp := nowInMS |>
  else if SAVE_STATICS_INTERVAL <=? i64 (nowInMS - bw_LastTimestamp b) then
    let diffTimestamp := Z.quot (i64 (nowInMS - bw_LastTimestamp b)) 1000 in
    b <| bw_VideoSpeedInBytesperMS := bit_rate (bw_VideoDatainBytes b) (bw_LastVideoDatainBytes b) diffTimestamp |>
      <| bw_AudioSpeedInBytesperMS := bit_rate (bw_AudioDatainBytes b) (bw_LastAudioDatainBytes b) diffTimestamp |>
      <| bw_LastVideoDatainBytes := bw_VideoDatainBytes b |>
      <| bw_LastAudioDatainBytes := bw_AudioDatainBytes b |>
      <| bw_LastTimestamp := nowInMS |>
  else b.

(** ** rtmp.go: VirWriter *)

Definition maxQueueNum : Z := 1024.
Definition CLIENT_IND : Z := 0.
Definition SERVER_IND : Z := 1.

(** What [Info] returns of a reader or writer: it does not change, so it is a field. *)
Record Info := mkInfo { info_Key : list Z; info_URL : list Z; info_UID : list Z; info_Inter : bool }.

(** [<-q] and [q <- x] with nobody at the other end. *)
Definition asleep {S A} : GoM S A := panic "all goroutines are asleep".
Definition chan_recv {A} : GoM (list A) A := fun q => match q with [] => asleep q | x :: q => (Ok x, q) end.
Definition chan_send {A} (cap : Z) (x : A) : GoM (list A) unit := fun q =>
  if zlen q <? cap then (Ok tt, q ++ [x]) else asleep q.

Definition keeps_video (p : av_Packet) : bool :=
  match pkt_Header p with Some videoPkt => IsSeq videoPkt || IsKeyFrame videoPkt | None => false end.

(** One round of [DropPacket]. *)
Definition drop_round (max : Z) : GoM (list av_Packet) unit :=
  tmpPkt ← chan_recv;
  (if pkt_IsAudio tmpPkt then
     q ← getS;
     if max - 2 <? zlen q then chan_recv;; mret tt else chan_send max tmpPkt
   else mret tt);;
  if pkt_IsVideo tmpPkt then
    (if keeps_video tmpPkt then chan_send max tmpPkt else mret tt);;
    q ← getS;
    if max - 10 <? zlen q then chan_recv;; mret tt else mret tt
  else mret tt.

Fixpoint drop_rounds (n : nat) (max : Z) : GoM (list av_Packet) unit :=
  match n with
  | O => mret tt
  | S n => drop_round max;; drop_rounds n max
  end.

Definition DropPacket : GoM (list av_Packet) unit := drop_rounds (Z.to_nat (maxQueueNum - 84)) maxQueueNum.

(** What the two kinds of connections have in common; [conn_left] is the number of bytes that
    have come and were not read. Closing them is not modelled. *)
Class StreamConn (C : Type) := {
  conn_Write : ChunkStream -> GoM C unit;
  conn_Read : GoM C ChunkStream;
  conn_Flush : GoM C unit;
  conn_left : C -> nat
}.

#[global] Instance ConnServer_StreamConn : StreamConn ConnServer :=
  { conn_Write := srv_Write; conn_Read := srv_Read; conn_Flush := srv_Flush; conn_left s := length (rw_in (con_rw (srv_conn s))) }.
#[global] Instance ConnClient_StreamConn : StreamConn ConnClient :=
  { conn_Write := cli_Write; conn_Read := cli_Read; conn_Flush := cli_Flush; conn_left s := length (rw_in (con_rw (cli_conn s))) }.

Section VirWriter.
Context {C : Type} `{!StreamConn C}.

(** [packetQueue] and whether it is open. *)
Record VirWriter := mkVirWriter {
  vw_Info : Info;
  vw_closed : bool;
  vw_base : RWBaser;
  vw_conn : C;
  vw_queue : list av_Packet;
  vw_open : bool;
  vw_WriteBWInfo : StaticsBW
}.

#[global] Instance eta_VirWriter : Eta VirWriter := fun v =>
  mkVirWriter (vw_Info v) (vw_closed v) (vw_base v) (vw_conn v) (vw_queue v) (vw_open v) (vw_WriteBWInfo v).

Definition NewVirWriter (info : Info) (writeTimeout now : Z) (conn : C) : VirWriter :=
  mkVirWriter info false (NewRWBaser (i64 (i64 (1000000000 * writeTimeout) * 10)) now) conn [] true (mkStaticsBW 0 0 0 0 0 0 0 0).

Definition on_queue {A} (m : GoM (list av_Packet) A) : GoM VirWriter A := fun v =>
  let '(r, q) := m (vw_queue v) in (r, v <| vw_queue := q |>).

(** A send on a closed channel panics, which [Write] recovers from; the queue is closed only
    where [closed] is set. *)
Definition vw_Write (p : av_Packet) : GoM VirWriter unit :=
  v ← getS;
  if vw_closed v then fail (errors_New "VirWriter closed")
  else if maxQueueNum - 24 <=? zlen (vw_queue v) then on_queue DropPacket
  else if vw_open v then on_queue (chan_send maxQueueNum p)
  else fail (errors_New "VirWriter has already been closed:send on closed channel").

(** The message of a packet. *)
Definition packet_type (p : av_Packet) : Z :=
  if pkt_IsVideo p then TAG_VIDEO else if pkt_IsMetadata p then TAG_SCRIPTDATAAMF0 else TAG_AUDIO.
Definition packet_chunk (base : Z) (p : av_Packet) : ChunkStream :=
  zeroChunkStream <| cs_Data := pkt_Data p |> <| cs_Length := u32 (zlen (pkt_Data p)) |> <| cs_StreamID := pkt_StreamID p |>
    <| cs_Timestamp := u32 (pkt_TimeStamp p + base) |> <| cs_TypeID := packet_type p |>.

Definition on_vw_conn {A} (m : GoM C A) : GoM VirWriter A := fun v =>
  let '(r, c) := m (vw_conn v) in (r, v <| vw_conn := c |>).

(** One round of the loop of [SendPacket], at the time [now]. *)
Definition send_packet (now : Z) : GoM VirWriter unit :=
  v ← getS;
  guard (negb (bool_decide (vw_queue v = [])) || vw_open v) (errors_New "closed");;
  p ← on_queue chan_recv;
  v ← getS;
  let cs := packet_chunk (rwb_BaseTimestamp (vw_base v)) p in
  modifyS (fun v => v <| vw_WriteBWInfo := SaveStatics (Z.quot now 1000000) (pkt_StreamID p) (cs_Length cs) (pkt_IsVideo p) (vw_WriteBWInfo v) |>
                      <| vw_base := RecTimeStamp (cs_Timestamp cs) (cs_TypeID cs) (SetPreTime now (vw_base v)) |>);;
  v ← getS;
  match conn_Write cs (vw_conn v) with
  | (Ok _, c) => putS (v <| vw_conn := c |>);; ignore_error (on_vw_conn conn_Flush)
  | (Err e, c) => putS (v <| vw_conn := c |> <| vw_closed := true |>);; fail e
  | (Panic s, c) => putS (v <| vw_conn := c |>);; panic s
  end.

(** The connection is closed, too. *)
Definition vw_Close (v : VirWriter) : VirWriter :=
  v <| vw_open := if vw_closed v then vw_open v else false |> <| vw_closed := true |>.
End VirWriter.
Arguments VirWriter : clear implicits.

(** ** rtmp.go: VirReader *)

Section VirReader.
Context {C : Type} `{!StreamConn C} (role : Z).

(** Without [demuxer], which has no state. *)
Record VirReader := mkVirReader {
  vr_Info : Info;
  vr_base : RWBaser;
  vr_conn : C;
  vr_ReadBWInfo : StaticsBW
}.

#[global] Instance eta_VirReader : Eta VirReader := fun v => mkVirReader (vr_Info v) (vr_base v) (vr_conn v) (vr_ReadBWInfo v).

Definition NewVirReader (info : Info) (writeTimeout now : Z) (conn : C) : VirReader :=
  mkVirReader info (NewRWBaser (i64 (1000000000 * writeTimeout)) now) conn (mkStaticsBW 0 0 0 0 0 0 0 0).

(** The reader and [rtmpFrame]. *)
Abbreviation ReaderM := (GoM (VirReader * list ChunkStream)).

Definition frame_cap : Z := 10.
Definition GetRTMPFrame : ReaderM ChunkStream := fun '(v, frames) =>
  let '(r, frames) := chan_recv frames in (r, (v, frames)).
Definition SetRTMPFrame (chunk : ChunkStream) : ReaderM unit := fun '(v, frames) =>
  let '(r, frames) := chan_send frame_cap chunk frames in (r, (v, frames)).

Definition is_media (cs : ChunkStream) : bool :=
  (cs_TypeID cs =? TAG_AUDIO) || (cs_TypeID cs =? TAG_VIDEO) || (cs_TypeID cs =? TAG_SCRIPTDATAAMF0) || (cs_TypeID cs =? TAG_SCRIPTDATAAMF3).

Definition next_message : ReaderM ChunkStream :=
  if role =? SERVER_IND then GetRTMPFrame
  else fun '(v, frames) => let '(r, c) := conn_Read (vr_conn v) in (r, (v <| vr_conn := c |>, frames)).

(** The loop of [Read]: every message takes a frame, or a byte of the connection. *)
Fixpoint next_media (fuel : nat) : ReaderM ChunkStream :=
  match fuel with
  | O => asleep
  | S fuel => cs ← next_message; if is_media cs then mret cs else next_media fuel
  end.

Definition media_fuel (s : VirReader * list ChunkStream) : nat := S (length s.2 + conn_left (vr_conn s.1)).

Definition fill_media (cs : ChunkStream) (p : av_Packet) : av_Packet :=
  p <| pkt_IsAudio := cs_TypeID cs =? TAG_AUDIO |> <| pkt_IsVideo := cs_TypeID cs =? TAG_VIDEO |>
    <| pkt_IsMetadata := (cs_TypeID cs =? TAG_SCRIPTDATAAMF0) || (cs_TypeID cs =? TAG_SCRIPTDATAAMF3) |>
    <| pkt_StreamID := cs_StreamID cs |> <| pkt_Data := cs_Data cs |> <| pkt_TimeStamp := cs_Timestamp cs |>.

(** [Read], which fills [p]: the header stays where there is no new one. It recovers from the
    panics of [DemuxH]. *)
Definition vr_Read (now : Z) (p : av_Packet) : ReaderM av_Packet :=
  modifyS (fun s => (s.1 <| vr_base := SetPreTime now (vr_base s.1) |>, s.2));;
  s ← getS;
  cs ← next_media (media_fuel s);
  if role =? CLIENT_IND then SetRTMPFrame cs;; mret p
  else
    let p := fill_media cs p in
    modifyS (fun s => (s.1 <| vr_ReadBWInfo := SaveStatics (Z.quot now 1000000) (pkt_StreamID p) (zlen (pkt_Data p)) (pkt_IsVideo p) (vr_ReadBWInfo s.1) |>, s.2));;
    mret match DemuxH p with Ok p' => p' | _ => p end.
End VirReader.
Arguments VirReader : clear implicits.

(** ** stream.go *)

(** What a stream uses of the players and of the publisher. *)
Class Player (W : Type) := {
  w_Info : W -> Info;
  w_Write : av_Packet -> GoM W unit;
  w_CalcBaseTimestamp : W -> W;
  w_Alive : Z -> W -> bool;
  w_Close : W -> W
}.

Class Publisher (R : Type) := {
  r_Info : R -> Info;
  r_Alive : Z -> R -> bool;
  r_Close : R -> R
}.

#[global] Instance VirWriter_Player {C} `{!StreamConn C} : Player (VirWriter C) := {
  w_Info := vw_Info;
  w_Write := vw_Write;
  w_CalcBaseTimestamp v := v <| vw_base := CalcBaseTimestamp (vw_base v) |>;
  w_Alive now v := rwb_Alive now (vw_base v);
  w_Close := vw_Close
}.

(** Closing it closes its connection only. *)
#[global] Instance VirReader_Publisher {C} : Publisher (VirReader C) := {
  r_Info := vr_Info;
  r_Alive now v := rwb_Alive now (vr_base v);
  r_Close v := v
}.

Definition EmptyID : list Z := [].

Section Streams.
Context {W R : Type} `{!Player W} `{!Publisher R}.

Record PackWriterCloser := mkPackWriterCloser { pw_init : bool; pw_w : W }.

(** [ws] by UID; [gop_num] is the one of the configuration. *)
Record live_Stream := mk_live_Stream {
  st_isStart : bool;
  st_cache : Cache;
  st_r : option R;
  st_ws : list (list Z * PackWriterCloser);
  st_info : Info
}.

#[global] Instance eta_live_Stream : Eta live_Stream := fun s => mk_live_Stream (st_isStart s) (st_cache s) (st_r s) (st_ws s) (st_info s).

Definition live_NewStream (gop_num : Z) : live_Stream := mk_live_Stream false (NewCache gop_num) None [] (mkInfo [] [] [] false).
Definition st_ID (s : live_Stream) : list Z := match st_r s with Some r => info_UID (r_Info r) | None => EmptyID end.

(** [Store]. *)
Fixpoint ws_Store (uid : list Z) (pw : PackWriterCloser) (ws : list (list Z * PackWriterCloser)) : list (list Z * PackWriterCloser) :=
  match ws with
  | [] => [(uid, pw)]
  | (u, pw') :: ws => if bool_decide (u = uid) then (uid, pw) :: ws else (u, pw') :: ws_Store uid pw ws
  end.

Definition AddWriter (w : W) (s : live_Stream) : live_Stream := s <| st_ws := ws_Store (info_UID (w_Info w)) (mkPackWriterCloser false w) (st_ws s) |>.

(** With the start of [TransStart]; static pushes are not modelled. *)
Definition AddReader (r : R) (s : live_Stream) : live_Stream := s <| st_r := Some r |> <| st_isStart := true |>.

(** [s.Copy(dst)]: what is left in [s], and [dst]. *)
Definition st_Copy (s dst : live_Stream) : live_Stream * live_Stream :=
  (s <| st_ws := [] |>,
   foldl (fun dst '(_, v) => AddWriter (w_CalcBaseTimestamp (pw_w v)) dst) (dst <| st_info := st_info s |>) (st_ws s)).

Definition TransStop (s : live_Stream) : live_Stream :=
  s <| st_r := if st_isStart s then option_map r_Close (st_r s) else st_r s |> <| st_isStart := false |>.

Definition closeInter (s : live_Stream) : live_Stream :=
  s <| st_ws := omap (fun '(uid, v) => let w := w_Close (pw_w v) in
                        if info_Inter (w_Info w) then None else Some (uid, mkPackWriterCloser (pw_init v) w)) (st_ws s) |>.

(** A packet to a player: the cache to one that is new; one that fails is removed. *)
Definition serve_player (c : Cache) (p : av_Packet) (v : PackWriterCloser) : outcome (option PackWriterCloser) :=
  match (if pw_init v then w_Write p else cache_Send w_Write c) (pw_w v) with
  | (Ok _, w) => Ok (Some (mkPackWriterCloser true w))
  | (Err _, _) => Ok None
  | (Panic s, _) => Panic s
  end.

Fixpoint serve_players (c : Cache) (p : av_Packet) (ws : list (list Z * PackWriterCloser)) : outcome (list (list Z * PackWriterCloser)) :=
  match ws with
  | [] => Ok []
  | (uid, v) :: ws =>
      match serve_player c p v with
      | Ok v =>
          match serve_players c p ws with
          | Ok ws => Ok (match v with Some v => (uid, v) :: ws | None => ws end)
          | r => r
          end
      | Err e => Err e
      | Panic s => Panic s
      end
  end.

(** One round of [TransStart], from what [Read] returned to the next test of [isStart]. *)
Definition trans_round (read : outcome av_Packet) : GoM live_Stream unit :=
  match read with
  | Ok p =>
      s ← getS;
      (let '(r, c) := cache_Write p (st_cache s) in lift r;; putS (s <| st_cache := c |>));;
      s ← getS;
      ws ← lift (serve_players (st_cache s) p (st_ws s));
      putS (s <| st_ws := ws |>);;
      if st_isStart s then mret tt else modifyS closeInter
  | Err _ => modifyS (fun s => (closeInter s) <| st_isStart := false |>)
  | Panic s => panic s
  end.

(** The number of those alive; those that are not are closed, and players are removed. *)
Definition st_CheckAlive (now : Z) (s : live_Stream) : Z * live_Stream :=
  let '(n, r) := match st_r s with
                 | Some r => if st_isStart s then if r_Alive now r then (1, Some r) else (0, Some (r_Close r)) else (0, Some r)
                 | None => (0, None)
                 end in
  let ws := filter (fun '(_, v) => w_Alive now (pw_w v) = true) (st_ws s) in
  (n + zlen ws, s <| st_r := r |> <| st_ws := ws |>).

(** [RtmpStream]: the streams by their key. A stream that is replaced goes on until its
    [TransStart] sees that it was stopped; its players are gone. *)
Abbreviation RtmpStream := (gmap (list Z) live_Stream) (only parsing).

Definition HandleReader (gop_num : Z) (r : R) (rs : RtmpStream) : RtmpStream :=
  let info := r_Info r in
  match rs !! info_Key info with
  | Some stream =>
      let stream := TransStop stream in
      let id := st_ID stream in
      if negb (bool_decide (id = EmptyID)) && negb (bool_decide (id = info_UID info))
      then <[info_Key info := AddReader r (snd (st_Copy stream (live_NewStream gop_num)))]> rs
      else <[info_Key info := AddReader r stream]> rs
  | None => <[info_Key info := AddReader r ((live_NewStream gop_num) <| st_info := info |>)]> rs
  end.

Definition HandleWriter (gop_num : Z) (w : W) (rs : RtmpStream) : RtmpStream :=
  let info := w_Info w in
  match rs !! info_Key info with
  | None => <[info_Key info := (live_NewStream gop_num) <| st_info := info |>]> rs
  | Some s => <[info_Key info := AddWriter w s]> rs
  end.

Definition rs_CheckAlive (now : Z) (rs : RtmpStream) : RtmpStream :=
  omap (fun s => let '(n, s) := st_CheckAlive now s in if n =? 0 then None else Some s) rs.
End Streams.
Arguments PackWriterCloser : clear implicits.
Arguments live_Stream : clear implicits.

(** ** The queue of a player *)

(** A packet has one kind, as those that [VirReader] fills. *)
Definition one_kind (p : av_Packet) : bool := negb (pkt_IsAudio p && pkt_IsVideo p).

(** What [DropPacket] does not drop. *)
Definition rekept (p : av_Packet) : bool := pkt_IsAudio p || (pkt_IsVideo p && keeps_video p).
Definition kept_of (q : list av_Packet) : list av_Packet := filter (fun p => rekept p = true) q.

Lemma fill_media_one_kind cs p : one_kind (fill_media cs p) = true.
Proof.
  unfold one_kind. change (pkt_IsAudio (fill_media cs p)) with (cs_TypeID cs =? 8). change (pkt_IsVideo (fill_media cs p)) with (cs_TypeID cs =? 9).
  by destruct (Z.eqb_spec (cs_TypeID cs) 8) as [->|].
Qed.

Lemma drop_round_run p q : zlen q < 1000 -> one_kind p = true ->
  drop_round maxQueueNum (p :: q) = (Ok tt, q ++ kept_of [p]).
Proof.
  intros Hq Hp. unfold drop_round, kept_of, rekept, one_kind, chan_send, maxQueueNum in *. rewrite filter_cons, filter_nil.
  rewrite (run_bind_ok _ _ _ p q) by done.
  assert (Hs : (zlen q <? 1024) = true) by (apply Z.ltb_lt; lia).
  destruct (pkt_IsAudio p), (pkt_IsVideo p); try done; cbn [orb andb].
  - unfold_go. rewrite (proj2 (Z.ltb_ge (1024 - 2) (zlen q))) by lia. rewrite Hs. done.
  - assert (Hl : forall x, zlen (q ++ x) = zlen q + zlen x) by (intros x; unfold zlen; rewrite length_app; lia).
    unfold_go. destruct (keeps_video p); cbn [decide]; rewrite ?Hs.
    + rewrite (proj2 (Z.ltb_ge (1024 - 10) _)) by (rewrite Hl; unfold zlen at 2; simpl; lia). done.
    + rewrite (proj2 (Z.ltb_ge (1024 - 10) (zlen q))) by lia. case_decide; [done|by rewrite app_nil_r].
  - unfold_go. by rewrite app_nil_r.
Qed.

Lemma drop_rounds_run n q : zlen q <= 1000 -> (n <= length q)%nat -> Forall (fun p => one_kind p = true) q ->
  drop_rounds n maxQueueNum q = (Ok tt, drop n q ++ kept_of (take n q)).
Proof.
  revert q. induction n as [|n IH]; intros q Hl Hn Hq; [by rewrite app_nil_r|]. destruct q as [|p q]; [simpl in Hn; lia|].
  apply Forall_cons in Hq as [Hp Hq]. unfold zlen in Hl. cbn [length] in Hl, Hn. cbn [drop_rounds].
  rewrite (run_bind_ok _ _ _ _ _ (drop_round_run p q ltac:(unfold zlen; lia) Hp)).
  assert (Hk : Forall (fun p => one_kind p = true) (kept_of [p])) by (apply Forall_filter; by constructor).
  assert (Hk' : (length (kept_of [p]) <= 1)%nat) by exact (length_filter _ [p]).
  rewrite IH; [|unfold zlen; rewrite length_app; lia|rewrite length_app; lia|by apply Forall_app].
  rewrite drop_app_le, take_app_le by lia. cbn [drop take]. unfold kept_of. rewrite <- app_assoc. by rewrite (filter_cons _ p), (filter_cons _ p (take n q)), filter_nil; case_decide.
Qed.

(** A queue of 1000 packets: the last 60 come first, then what is kept of the others. *)
Lemma DropPacket_run q : length q = 1000%nat -> Forall (fun p => one_kind p = true) q ->
  DropPacket q = (Ok tt, drop 940 q ++ kept_of (take 940 q)).
Proof. intros Hl Hq. unfold DropPacket. apply drop_rounds_run; [unfold zlen; lia|simpl; lia|done]. Qed.

(** ** What a player receives *)

(** What a stream relies on: there are states in which a player takes or refuses a packet and
    does not panic. *)
Class PlayerLaws (W : Type) `{!Player W} := {
  w_good : W -> Prop;
  w_Write_good p w : one_kind p = true -> w_good w ->
    no_panic (w_Write p) w /\ w_good (snd (w_Write p w))
}.

(** The queue of a [VirWriter] never has more than 1000 packets, and so it never waits. *)
Definition queue_good (q : list av_Packet) : Prop := zlen q <= 1000 /\ Forall (fun p => one_kind p = true) q.

Lemma DropPacket_good q : queue_good q -> 1000 <= zlen q -> exists q', DropPacket q = (Ok tt, q') /\ queue_good q'.
Proof.
  intros [Hl Hq] H. eexists. split; [apply DropPacket_run; [unfold zlen in *; lia|done]|]. split.
  - pose proof (length_filter (fun p => rekept p = true) (take 940 q)) as Hf. unfold zlen, kept_of in *.
    rewrite length_app, length_drop. rewrite length_take in Hf. lia.
  - apply Forall_app. split; [by apply Forall_drop|]. by apply Forall_filter, Forall_take.
Qed.

Lemma vw_Write_good {C} p (v : VirWriter C) : one_kind p = true -> queue_good (vw_queue v) ->
  no_panic (vw_Write p) v /\ queue_good (vw_queue (snd (vw_Write p v))).
Proof.
  intros Hp Hq. cut (exists r q, vw_Write p v = (r, v <| vw_queue := q |>) /\ (forall s, r <> Panic s) /\ queue_good q).
  { intros (r & q & E & Hr & Hg). unfold no_panic. rewrite E. split; [|done]. intros s v' [= -> _]. by apply (Hr s). }
  unfold vw_Write. rewrite (run_bind_ok _ _ v v v) by done. unfold maxQueueNum. destruct (vw_closed v) eqn:Ec.
  { exists (Err (errors_New "VirWriter closed")), (vw_queue v). by destruct v. }
  destruct (Z.leb_spec (1024 - 24) (zlen (vw_queue v))) as [H|H].
  - destruct (DropPacket_good _ Hq H) as (q' & E & Hq'). exists (Ok tt), q'. unfold on_queue. by rewrite E.
  - destruct (vw_open v); [|eexists _, (vw_queue v); by destruct v]. exists (Ok tt), (vw_queue v ++ [p]).
    unfold on_queue, chan_send. rewrite (proj2 (Z.ltb_lt _ _)) by lia. split; [done|]. split; [done|]. destruct Hq as [Hl Hq]. split.
    + unfold zlen in *. rewrite length_app. simpl. lia.
    + apply Forall_app. split; [done|by constructor].
Qed.

#[global] Instance VirWriter_laws {C} `{!StreamConn C} : PlayerLaws (VirWriter C) :=
  { w_good v := queue_good (vw_queue v); w_Write_good := vw_Write_good }.

Section Relay.
Context {W R : Type} `{!Player W} `{!PlayerLaws W} `{!Publisher R}.

(** The publisher sends a packet, or a player joins. *)
Inductive relay_event := EPacket (p : av_Packet) | EJoin (w : W).

Definition relay_step (e : relay_event) : GoM (live_Stream W R) unit :=
  match e with EPacket p => trans_round (Ok p) | EJoin w => modifyS (AddWriter w) end.

Fixpoint relay_run (es : list relay_event) : GoM (live_Stream W R) unit :=
  match es with
  | [] => mret tt
  | e :: es => relay_step e;; relay_run es
  end.

Definition packets_of (es : list relay_event) : list av_Packet := omap (fun e => match e with EPacket p => Some p | EJoin _ => None end) es.
Definition event_good (e : relay_event) : Prop := match e with EPacket p => one_kind p = true | EJoin w => w_good w end.
Definition joins (uid : list Z) (e : relay_event) : Prop := match e with EPacket _ => False | EJoin w => info_UID (w_Info w) = uid end.

Fixpoint find_player (uid : list Z) (ws : list (list Z * PackWriterCloser W)) : option (PackWriterCloser W) :=
  match ws with
  | [] => None
  | (u, v) :: ws => if bool_decide (u = uid) then Some v else find_player uid ws
  end.

(** A running stream after the packets [ps]. *)
Record relays (count : nat) (ps : list av_Packet) (s : live_Stream W R) : Prop := {
  rl_count : count = 1%nat \/ count = 2%nat;
  rl_packets : Forall (fun p => one_kind p = true) ps;
  rl_cache : caches count ps (st_cache s);
  rl_start : st_isStart s = true;
  rl_players : Forall (fun x => w_good (pw_w x.2)) (st_ws s)
}.

Lemma send_packets_good ps w : Forall (fun p => one_kind p = true) ps -> w_good w ->
  no_panic (send_packets w_Write ps) w /\ w_good (snd (send_packets w_Write ps w)).
Proof.
  revert w. induction ps as [|p ps IH]; intros w Hp Hw; [by split|]. apply Forall_cons in Hp as [Hp Hps].
  destruct (w_Write_good p w Hp Hw) as [Hn Hg]. unfold no_panic in *. cbn [send_packets]. unfold mbind, GoM_bind.
  destruct (w_Write p w) as [[[]|e|s] w1]; [exact (IH w1 Hps Hg)|done|by destruct (Hn s w1)].
Qed.

(** What is cached are packets of the stream. *)
Lemma next_groups_Forall (P : av_Packet -> Prop) count gs p : Forall (Forall P) gs -> P p -> Forall (Forall P) (next_groups count gs p).
Proof.
  intros Hgs Hp. unfold next_groups. destruct (negb (in_group p)); [done|]. destruct (is_key p).
  { apply Forall_drop, Forall_app. split; [done|]. constructor; [by constructor|done]. }
  destruct gs as [|g0 gs0]; [done|]. set (gs := g0 :: gs0) in *. apply Forall_app. split; [by apply Forall_take|]. constructor; [|done].
  unfold add_last. destruct (last gs) as [g|] eqn:El; [|by apply last_None in El]. apply last_Some in El as [l El]. rewrite El in Hgs.
  apply Forall_app in Hgs as [_ Hg]. apply Forall_cons in Hg as [Hg _]. cbn. case_match; [apply Forall_app; by repeat constructor|done].
Qed.

Lemma last_with_Forall (P : av_Packet -> Prop) f ps : Forall P ps -> Forall P (option_list (last_with f ps)).
Proof.
  intros Hps. unfold last_with. destruct (last _) as [p|] eqn:El; [|constructor]. apply last_Some in El as [l El].
  assert (H : Forall P (filter (fun p => f p = true) ps)) by by apply Forall_filter. rewrite El in H. by apply Forall_app in H as [_ H].
Qed.

Lemma groups_Forall (P : av_Packet -> Prop) count ps : Forall P ps -> Forall (Forall P) (groups count ps).
Proof.
  induction ps as [|p ps IH] using rev_ind; intros Hps; [constructor|]. apply Forall_app in Hps as [Hps Hp]. rewrite groups_snoc.
  apply next_groups_Forall; [by apply IH|by apply Forall_cons in Hp as [Hp _]].
Qed.

Lemma cached_Forall (P : av_Packet -> Prop) count ps : Forall P ps -> Forall P (cached count ps).
Proof. intros Hps. unfold cached. rewrite !Forall_app. repeat split; try by apply last_with_Forall. by apply Forall_concat, groups_Forall. Qed.

(** A packet for the players of a stream: nobody panics, and each player is served on its own. *)
Lemma serve_player_good count ps c p v : caches count ps c -> Forall (fun p => one_kind p = true) (p :: ps) -> w_good (pw_w v) ->
  (forall s, serve_player c p v <> Panic s) /\ (forall e, serve_player c p v <> Err e) /\
  (forall v', serve_player c p v = Ok (Some v') -> w_good (pw_w v')).
Proof.
  intros Hc Hp Hv. apply Forall_cons in Hp as [Hp Hps]. unfold serve_player.
  destruct (send_packets_good (cached count ps) (pw_w v) (cached_Forall _ count ps Hps) Hv) as [Hn Hg].
  destruct (w_Write_good p (pw_w v) Hp Hv) as [Hn' Hg']. unfold no_panic in *. rewrite <- (cache_Send_caches _ _ _ _ _ Hc) in Hn, Hg.
  destruct (pw_init v); [destruct (w_Write p _) as [[[]|e|s] w]|destruct (cache_Send _ c _) as [[[]|e|s] w]]; repeat split; try done;
    naive_solver.
Qed.

Lemma serve_players_good count ps c p ws : caches count ps c -> Forall (fun p => one_kind p = true) (p :: ps) ->
  Forall (fun x => w_good (pw_w x.2)) ws ->
  exists ws', serve_players c p ws = Ok ws' /\ Forall (fun x => w_good (pw_w x.2)) ws' /\
    (forall uid v v', find_player uid ws = Some v -> serve_player c p v = Ok (Some v') -> find_player uid ws' = Some v').
Proof.
  intros Hc Hp. induction ws as [|[u v] ws IH]; intros Hws; [by exists []|]. apply Forall_cons in Hws as [Hv Hws]. cbn [snd] in Hv.
  destruct (IH Hws) as (ws' & E & Hg & Hf). destruct (serve_player_good count ps c p v Hc Hp Hv) as (Hn & He & Hv').
  cbn [serve_players find_player]. rewrite E. destruct (serve_player c p v) as [[v0|]|e|s] eqn:Es; [..|by destruct (He e)|by destruct (Hn s)].
  - exists ((u, v0) :: ws'). split; [done|]. split; [constructor; [by apply Hv'|done]|]. intros uid v1 v2. cbn [find_player].
    case_bool_decide; [|eauto]. intros [= <-] H2. rewrite Es in H2. congruence.
  - exists ws'. split; [done|]. split; [done|]. intros uid v1 v2. case_bool_decide; [|eauto]. intros [= <-] H2. rewrite Es in H2. discriminate.
Qed.

(** What one event does for a player. *)
Lemma packet_step count ps s p : relays count ps s -> one_kind p = true ->
  exists s', relay_step (EPacket p) s = (Ok tt, s') /\ relays count (ps ++ [p]) s' /\
    (forall uid w w', find_player uid (st_ws s) = Some (mkPackWriterCloser false w) ->
      send_packets w_Write (cached count (ps ++ [p])) w = (Ok tt, w') -> find_player uid (st_ws s') = Some (mkPackWriterCloser true w')) /\
    (forall uid w w', find_player uid (st_ws s) = Some (mkPackWriterCloser true w) ->
      w_Write p w = (Ok tt, w') -> find_player uid (st_ws s') = Some (mkPackWriterCloser true w')).
Proof.
  intros [Hn Hps Hc Hst Hws] Hp. destruct (cache_Write_caches count ps (st_cache s) p Hc) as (c & Ec & Hc').
  assert (Hps' : Forall (fun p => one_kind p = true) (ps ++ [p])) by (apply Forall_app; by repeat constructor).
  destruct (serve_players_good count (ps ++ [p]) c p (st_ws s) Hc') as (ws & Ew & Hg & Hf); [by constructor|done|].
  exists (s <| st_cache := c |> <| st_ws := ws |>). split.
  { cbn [relay_step trans_round]. rewrite (run_bind_ok _ _ s s s) by done. rewrite Ec. set (s1 := s <| st_cache := c |>).
    rewrite (run_bind_ok _ _ s tt s1) by done. rewrite (run_bind_ok _ _ s1 s1 s1) by done. change (st_cache s1) with c. change (st_ws s1) with (st_ws s).
    rewrite Ew. change (st_isStart s1) with (st_isStart s). by rewrite Hst. }
  split; [by constructor|]. split; intros uid w w' Hu Hw; apply (Hf _ _ _ Hu); unfold serve_player; cbn [pw_init pw_w].
  - by rewrite (cache_Send_caches _ _ _ _ _ Hc'), Hw.
  - by rewrite Hw.
Qed.

Lemma find_ws_Store uid u v ws : find_player uid (ws_Store u v ws) = if bool_decide (u = uid) then Some v else find_player uid ws.
Proof.
  induction ws as [|[u' v'] ws IH]; [done|]. cbn [ws_Store]. destruct (decide (u' = u)) as [->|E].
  - rewrite bool_decide_true by done. cbn [find_player]. by case_bool_decide.
  - rewrite (bool_decide_false (u' = u)) by done. cbn [find_player]. rewrite IH. repeat case_bool_decide; congruence.
Qed.

Lemma find_AddWriter uid w (s : live_Stream W R) : find_player uid (st_ws (AddWriter w s)) =
  if bool_decide (info_UID (w_Info w) = uid) then Some (mkPackWriterCloser false w) else find_player uid (st_ws s).
Proof. apply find_ws_Store. Qed.

Lemma ws_Store_good u v ws : w_good (pw_w v) -> Forall (fun x => w_good (pw_w x.2)) ws -> Forall (fun x => w_good (pw_w x.2)) (ws_Store u v ws).
Proof. intros Hv. induction 1 as [|[u' v'] ws Hx Hws IH]; cbn [ws_Store]; [by repeat constructor|]. case_bool_decide; by constructor. Qed.

Lemma join_step count ps (s : live_Stream W R) w : relays count ps s -> w_good w -> relays count ps (AddWriter w s).
Proof. intros [Hn Hps Hc Hst Hws] Hw. constructor; try done. by apply ws_Store_good. Qed.

Lemma relay_run_relays es : forall count ps s, relays count ps s -> Forall event_good es ->
  exists s', relay_run es s = (Ok tt, s') /\ relays count (ps ++ packets_of es) s'.
Proof.
  induction es as [|[p|w] es IH]; intros count ps s Hs Hes; cbn [relay_run]; [exists s; by rewrite app_nil_r|..]; apply Forall_cons in Hes as [He Hes].
  - destruct (packet_step count ps s p Hs He) as (s1 & E1 & Hs1 & _). rewrite (run_bind_ok _ _ _ _ _ E1).
    destruct (IH count _ s1 Hs1 Hes) as (s2 & E2 & Hs2). exists s2. split; [done|]. by rewrite <- app_assoc in Hs2.
  - rewrite (run_bind_ok _ _ s tt (AddWriter w s)) by done. exact (IH count ps _ (join_step count ps s w Hs He) Hes).
Qed.

(** A player that has the cache gets every packet. *)
Lemma initialised_player es : forall count ps s uid w w', relays count ps s -> Forall event_good es -> Forall (fun e => ~ joins uid e) es ->
  find_player uid (st_ws s) = Some (mkPackWriterCloser true w) -> send_packets w_Write (packets_of es) w = (Ok tt, w') ->
  exists s', relay_run es s = (Ok tt, s') /\ find_player uid (st_ws s') = Some (mkPackWriterCloser true w').
Proof.
  induction es as [|[p|w0] es IH]; intros count ps s uid w w' Hs Hes Hj Hu Hw; cbn [relay_run].
  { injection Hw as <-. by exists s. }
  all: apply Forall_cons in Hes as [He Hes]; apply Forall_cons in Hj as [Hj0 Hj].
  - destruct (packet_step count ps s p Hs He) as (s1 & E1 & Hs1 & _ & Hf). rewrite (run_bind_ok _ _ _ _ _ E1).
    apply run_bind_inv_ok in Hw as ([] & w1 & Hw1 & Hw). exact (IH count _ s1 uid w1 w' Hs1 Hes Hj (Hf _ _ _ Hu Hw1) Hw).
  - rewrite (run_bind_ok _ _ s tt (AddWriter w0 s)) by done. apply (IH count ps _ uid w w' (join_step count ps s w0 Hs He) Hes Hj); [|done].
    rewrite find_AddWriter. by case_bool_decide.
Qed.

(** One that has not gets it with the next packet. *)
Lemma new_player es : forall count ps s uid w w' q qs, relays count ps s -> Forall event_good es -> Forall (fun e => ~ joins uid e) es ->
  find_player uid (st_ws s) = Some (mkPackWriterCloser false w) -> packets_of es = q :: qs ->
  send_packets w_Write (cached count (ps ++ [q]) ++ qs) w = (Ok tt, w') ->
  exists s', relay_run es s = (Ok tt, s') /\ find_player uid (st_ws s') = Some (mkPackWriterCloser true w').
Proof.
  induction es as [|[p|w0] es IH]; intros count ps s uid w w' q qs Hs Hes Hj Hu Hq Hw; cbn [relay_run]; [done|..].
  all: apply Forall_cons in Hes as [He Hes]; apply Forall_cons in Hj as [Hj0 Hj].
  - injection Hq as -> Hq. rewrite send_packets_app in Hw. apply run_bind_inv_ok in Hw as ([] & w1 & Hw1 & Hw).
    destruct (packet_step count ps s q Hs He) as (s1 & E1 & Hs1 & Hf & _). rewrite (run_bind_ok _ _ _ _ _ E1).
    rewrite <- Hq in Hw. exact (initialised_player es count _ s1 uid w1 w' Hs1 Hes Hj (Hf _ _ _ Hu Hw1) Hw).
  - rewrite (run_bind_ok _ _ s tt (AddWriter w0 s)) by done. apply (IH count ps _ uid w w' q qs (join_step count ps s w0 Hs He) Hes Hj); [|done..].
    rewrite find_AddWriter. by case_bool_decide.
Qed.

Lemma relay_run_app es fs s : relay_run (es ++ fs) s = (relay_run es;; relay_run fs) s.
Proof.
  revert s. induction es as [|e es IH]; intros s; [done|]. cbn [app relay_run]. unfold mbind, GoM_bind in *.
  destruct (relay_step e s) as [[[]|?|?] s']; [apply IH|done|done].
Qed.

(** C18: Whatever players come before and after, the stream keeps running, and a player that
    joins is given exactly this: with the first packet after it joined the cache, which is the
    last headers of the stream and its last groups of pictures up to that packet, and then every
    later packet, once and in order, as long as its [Write] accepts them and no other player
    joins under its identifier. It holds for a cache of one or two groups, packets that are not
    both audio and video, and players with [PlayerLaws], whose [Write] neither panics nor waits
    for ever, as that of [VirWriter]. A player that is given a packet may still drop it from its
    own queue when that is full. *)
Theorem player_receives count r es w es' q qs w' :
  count = 1%nat \/ count = 2%nat -> Forall event_good (es ++ EJoin w :: es') -> Forall (fun e => ~ joins (info_UID (w_Info w)) e) es' ->
  packets_of es' = q :: qs -> send_packets w_Write (cached count (packets_of es ++ [q]) ++ qs) w = (Ok tt, w') ->
  exists s, relay_run (es ++ EJoin w :: es') (AddReader r (live_NewStream (Z.of_nat count))) = (Ok tt, s) /\
    find_player (info_UID (w_Info w)) (st_ws s) = Some (mkPackWriterCloser true w').
Proof.
  intros Hn Hes Hj Hq Hw. apply Forall_app in Hes as [Hes Hes']. apply Forall_cons in Hes' as [He Hes'].
  assert (H0 : relays count [] (AddReader r (live_NewStream (Z.of_nat count)))) by (constructor; try done; by apply NewCache_caches).
  destruct (relay_run_relays es _ _ _ H0 Hes) as (s1 & E1 & Hs1). rewrite relay_run_app, (run_bind_ok _ _ _ _ _ E1). cbn [relay_run].
  rewrite (run_bind_ok _ _ s1 tt (AddWriter w s1)) by done.
  apply (new_player es' count (packets_of es) (AddWriter w s1) _ w w' q qs (join_step _ _ _ _ Hs1 He) Hes' Hj); [|done..].
  rewrite find_AddWriter. by case_bool_decide.
Qed.
End Relay.

(** A player whose connection takes everything joins between a key frame and its next picture. *)
#[local] Instance unit_StreamConn : StreamConn unit :=
  { conn_Write _ := mret tt; conn_Read := asleep; conn_Flush := mret tt; conn_left _ := O }.

Definition sample_player : VirWriter unit := NewVirWriter (mkInfo [] [] [1] true) 10 0 tt.
Definition sample_key : av_Packet := mk_av_Packet false true false 40 1 (Some (zeroTag <| tag_frameType := FRAME_KEY |> <| tag_avcPacketType := 1 |>)) [0x17; 1].
Definition sample_inter : av_Packet := sample_key <| pkt_Header := Some zeroTag |> <| pkt_TimeStamp := 80 |>.
Definition sample_publisher : VirReader unit := NewVirReader (mkInfo [] [] [2] false) 10 0 tt.

Lemma player_receives_witness :
  exists s, relay_run ([EPacket sample_key] ++ EJoin sample_player :: [EPacket sample_inter; EPacket sample_inter])
              (AddReader sample_publisher (live_NewStream 1)) = (Ok tt, s) /\
    find_player [1] (st_ws s) = Some (mkPackWriterCloser true (sample_player <| vw_queue := [sample_key; sample_inter; sample_inter] |>)).
Proof.
  refine (player_receives 1 sample_publisher [EPacket sample_key] sample_player [EPacket sample_inter; EPacket sample_inter] sample_inter [sample_inter]
            (sample_player <| vw_queue := [sample_key; sample_inter; sample_inter] |>) _ _ _ _ _).
  - by left.
  - repeat constructor; vm_compute; discriminate.
  - repeat constructor; intros H; exact H.
  - reflexivity.
  - vm_compute. reflexivity.
Defined.

(** ** What may go wrong *)

(** The packets that are kept when a queue is full are put behind newer ones: a stream of sound
    with increasing times is sent out of order. *)
Definition sound_at (t : nat) : av_Packet := mk_av_Packet true false false (Z.of_nat t) 1 None [].
Definition sound_queue : list av_Packet := sound_at <$> seq 0 1000.

Lemma kept_out_of_order :
  exists q, DropPacket sound_queue = (Ok tt, q) /\ pkt_TimeStamp <$> head q = Some 940 /\ pkt_TimeStamp <$> last q = Some 939.
Proof. eexists. split; [vm_compute; reflexivity|]. vm_compute. done. Qed.

(** The packet for which there is no room is dropped, a key frame, too. *)
Lemma key_frame_dropped (v : VirWriter unit) q : vw_closed v = false -> vw_queue v = sound_queue -> q ∈ vw_queue (snd (vw_Write sample_key v)) -> q <> sample_key.
Proof.
  intros Hc Hq Hin ->. unfold vw_Write in Hin. rewrite (run_bind_ok _ _ v v v), Hc, Hq in Hin by done.
  change (maxQueueNum - 24 <=? zlen sound_queue) with true in Hin. cbn match in Hin. unfold on_queue in Hin. rewrite Hq in Hin.
  rewrite DropPacket_run in Hin; [|reflexivity|].
  - change (vw_queue _) with (drop 940 sound_queue ++ kept_of (take 940 sound_queue)) in Hin.
    assert (Hall : Forall (fun p => pkt_IsVideo p = false) (drop 940 sound_queue ++ kept_of (take 940 sound_queue))).
    { apply Forall_app. split; [apply Forall_drop|apply Forall_filter, Forall_take]; apply Forall_fmap, Forall_true; done. }
    rewrite Forall_forall in Hall. by discriminate (Hall _ Hin).
  - apply Forall_fmap, Forall_true. done.
Qed.

(** A player that comes before the publisher is not added to the stream that it makes. *)
Lemma early_player_lost {W R} `{!Player W} (gop_num : Z) (w : W) (rs : gmap (list Z) (live_Stream W R)) : rs !! info_Key (w_Info w) = None ->
  exists s, HandleWriter gop_num w rs !! info_Key (w_Info w) = Some s /\ st_ws s = [].
Proof. intros Hn. unfold HandleWriter. rewrite Hn. eexists. split; [apply lookup_insert_eq|done]. Qed.
