(* ===== verification/LiveProxy.v ===== *)
(** The live proxy itself (test/liveclient.go, test/liveserver.go): the media messages that the
    client side receives from a publisher are sent over a stream of the transport, and the
    server side relays them as if the publisher were its own. *)

From S2P Require Import Prelude ByteOrder Pio Chunk Media RtmpCommands Relay.

(** ** liveclient.go *)

Definition maxPLen : Z := 1024.

Section Client.
(** [stream.Write] *)
Context {S : Type} (write : list Z -> GoM S unit).

Definition frame_meta (frame : ChunkStream) : list Z :=
  be_enc 4 (cs_Timestamp frame) ++ be_enc 4 (cs_Length frame) ++ be_enc 4 (cs_StreamID frame) ++ be_enc 4 (cs_TypeID frame).

(** [data[start:end]] is written; the error is logged. *)
Definition write_piece (data : list Z) (start end_ : Z) : GoM S unit :=
  piece ← lift (slice_of data start end_); ignore_error (write piece).

Fixpoint write_pieces (data : list Z) (i : Z) (n : nat) : GoM S unit :=
  match n with
  | O => mret tt
  | Datatypes.S n => write_piece data (i * maxPLen) ((i + 1) * maxPLen);; write_pieces data (i + 1) n
  end.

(** One round of [liveClient]. *)
Definition send_frame (frame : ChunkStream) : GoM S unit := fun s =>
  match write (frame_meta frame) s with
  | (Ok _, s) =>
      let pNum := cs_Length frame / maxPLen in
      (write_pieces (cs_Data frame) 0 (Z.to_nat pNum);; write_piece (cs_Data frame) (pNum * maxPLen) (cs_Length frame)) s
  | (Err _, s) => (Ok tt, s)
  | (Panic p, s) => (Panic p, s)
  end.

Fixpoint send_frames (frames : list ChunkStream) : GoM S unit :=
  match frames with
  | [] => mret tt
  | frame :: frames => send_frame frame;; send_frames frames
  end.
End Client.

(** ** liveserver.go *)

Definition metadataLen : Z := 16.
Definition maxPacketLen : Z := 1024.

Section Server.
(** [stream.Read]: the bytes that are read, and an error. *)
Context {S : Type} (read : Z -> GoM S (list Z * option error)).

(** A buffer of [n] zero bytes into which [bs] was read. *)
Definition filled_buf (n : Z) (bs : list Z) : list Z := bs ++ replicate (Z.to_nat n - length bs) 0.

Definition be_num (bs : list Z) : Z := foldl (fun v b => v * 256 + b) 0 bs.
Definition meta_item (metaBuf : list Z) (i : nat) : Z := be_num (take 4 (drop (4 * i) metaBuf)).

(** The loop for more than one piece: [read] bytes were read last. An error is logged and the
    loop goes on; [None] when [fuel] does not suffice. *)
Fixpoint read_rest (fuel : nat) (dataLen totalRead nread tempLen : Z) (data : list Z) : GoM S (option (list Z)) :=
  match fuel with
  | O => mret None
  | Datatypes.S fuel =>
      let totalRead := totalRead + nread in
      if totalRead =? dataLen then mret (Some data)
      else
        let tempLen := if dataLen - totalRead <? maxPacketLen then dataLen - totalRead else tempLen in
        '(bs, err) ← read tempLen;
        match err with
        | Some _ => read_rest fuel dataLen totalRead (zlen bs) tempLen data
        | None => read_rest fuel dataLen totalRead (zlen bs) tempLen (take (Z.to_nat totalRead) data ++ bs)
        end
  end.

Definition read_data (fuel : nat) (dataLen : Z) : GoM S (option (list Z)) :=
  if dataLen <? maxPacketLen then
    '(bs, _) ← read dataLen;
    mret (Some (filled_buf dataLen bs))
  else
    '(bs, _) ← read maxPacketLen;
    read_rest fuel dataLen 0 (zlen bs) maxPacketLen (filled_buf maxPacketLen bs).

Definition received_frame (metaBuf data : list Z) : ChunkStream :=
  zeroChunkStream <| cs_Timestamp := meta_item metaBuf 0 |> <| cs_Length := meta_item metaBuf 1 |>
    <| cs_StreamID := meta_item metaBuf 2 |> <| cs_TypeID := meta_item metaBuf 3 |> <| cs_Data := data |>.

(** One round of [liveServer]: the frame for [SetRTMPFrame], if there is one. A round in which
    the loop does not end within [fuel] reads is taken for one that hangs. *)
Definition receive_frame (fuel : nat) : GoM S (option ChunkStream) :=
  '(bs, err) ← read metadataLen;
  match err with
  | Some _ => mret None
  | None =>
      let metaBuf := filled_buf metadataLen bs in
      data ← read_data fuel (meta_item metaBuf 1);
      match data with
      | None => asleep
      | Some [] => mret None
      | Some data => mret (Some (received_frame metaBuf data))
      end
  end.

Fixpoint receive_frames (fuel n : nat) : GoM S (list ChunkStream) :=
  match n with
  | O => mret []
  | Datatypes.S n =>
      frame ← receive_frame fuel;
      frames ← receive_frames fuel n;
      mret (option_list frame ++ frames)
  end.
End Server.

(** ** The stream between them

    The stream delivers the bytes in order; a [Read] returns what has arrived, so the [i]th may
    get only [avail i n] of the [n] bytes it asks for. *)
Record pipe := mkPipe { pipe_bytes : list Z; pipe_reads : nat }.

Definition pipe_write (bs : list Z) : GoM pipe unit := fun p => (Ok tt, mkPipe (pipe_bytes p ++ bs) (pipe_reads p)).
Definition pipe_read (avail : nat -> Z -> Z) (n : Z) : GoM pipe (list Z * option error) := fun p =>
  let k := Z.to_nat (Z.min n (avail (pipe_reads p) n)) in
  (Ok (take k (pipe_bytes p), None), mkPipe (drop k (pipe_bytes p)) (S (pipe_reads p))).

(** ** What the server gets *)

Definition live_frame_ok (f : ChunkStream) : Prop :=
  0 <= cs_Timestamp f < 2 ^ 32 /\ 0 < cs_Length f < 2 ^ 32 /\ 0 <= cs_StreamID f < 2 ^ 32 /\ 0 <= cs_TypeID f < 2 ^ 32 /\
  cs_Length f = zlen (cs_Data f).

Definition delivered (f : ChunkStream) : ChunkStream :=
  zeroChunkStream <| cs_Timestamp := cs_Timestamp f |> <| cs_Length := cs_Length f |> <| cs_StreamID := cs_StreamID f |>
    <| cs_TypeID := cs_TypeID f |> <| cs_Data := cs_Data f |>.

Lemma be_num_enc v : 0 <= v < 2 ^ 32 -> be_num (be_enc 4 v) = v.
Proof.
  intros Hv. unfold be_num. cbn [be_enc foldl]. unfold u8. rewrite !Z.shiftr_div_pow2 by lia.
  change (8 * Z.of_nat 3) with 24. change (8 * Z.of_nat 2) with 16. change (8 * Z.of_nat 1) with 8. change (8 * Z.of_nat 0) with 0. Z.to_euclidean_division_equations. lia.
Qed.

Lemma write_piece_run data a b p : 0 <= a <= b -> b <= zlen data ->
  write_piece pipe_write data a b p = (Ok tt, mkPipe (pipe_bytes p ++ take (Z.to_nat (b - a)) (drop (Z.to_nat a) data)) (pipe_reads p)).
Proof. intros Ha Hb. unfold write_piece. by rewrite slice_of_run. Qed.

Lemma write_pieces_run data n : forall i p, 0 <= i -> (i + Z.of_nat n) * maxPLen <= zlen data ->
  write_pieces pipe_write data i n p =
  (Ok tt, mkPipe (pipe_bytes p ++ take (n * 1024) (drop (Z.to_nat (i * 1024)) data)) (pipe_reads p)).
Proof.
  unfold maxPLen. induction n as [|n IH]; intros i p Hi Hn; cbn [write_pieces].
  { cbn. rewrite app_nil_r. by destruct p. }
  unfold maxPLen. rewrite (run_bind_ok _ _ _ _ _ (write_piece_run data (i * 1024) ((i + 1) * 1024) p ltac:(lia) ltac:(lia))).
  rewrite IH by lia. cbn [pipe_bytes pipe_reads]. do 2 f_equal. rewrite <- app_assoc. f_equal.
  replace (Z.to_nat ((i + 1) * 1024 - i * 1024)) with 1024%nat by lia. replace (Z.to_nat ((i + 1) * 1024)) with (Z.to_nat (i * 1024) + 1024)%nat by lia.
  rewrite <- drop_drop. replace (S n * 1024)%nat with (1024 + n * 1024)%nat by lia. by rewrite take_take_drop.
Qed.

Lemma send_frame_run f p : live_frame_ok f ->
  send_frame pipe_write f p = (Ok tt, mkPipe (pipe_bytes p ++ frame_meta f ++ cs_Data f) (pipe_reads p)).
Proof.
  intros (_ & Hl & _ & _ & Hd). unfold send_frame, pipe_write at 1. cbn match. set (n := cs_Length f / maxPLen).
  assert (Hn : 0 <= n /\ n * 1024 <= cs_Length f) by (unfold n, maxPLen; Z.to_euclidean_division_equations; lia).
  rewrite (run_bind_ok _ _ _ _ _ (write_pieces_run (cs_Data f) (Z.to_nat n) 0 _ ltac:(lia) ltac:(unfold maxPLen; lia))).
  rewrite write_piece_run by (unfold maxPLen; lia). cbn [pipe_bytes pipe_reads]. do 2 f_equal. rewrite <- !app_assoc. do 2 f_equal.
  change (Z.to_nat (0 * 1024)) with 0%nat. unfold maxPLen. replace (Z.to_nat (n * 1024)) with (Z.to_nat n * 1024)%nat by lia. rewrite drop_0.
  rewrite (take_ge (drop _ _)) by (rewrite length_drop; unfold zlen in *; lia). apply take_drop.
Qed.

Lemma send_frames_run frames : forall p, Forall live_frame_ok frames ->
  send_frames pipe_write frames p = (Ok tt, mkPipe (pipe_bytes p ++ concat ((fun f => frame_meta f ++ cs_Data f) <$> frames)) (pipe_reads p)).
Proof.
  induction frames as [|f frames IH]; intros p Hf; cbn [send_frames]; [cbn; rewrite app_nil_r; by destruct p|].
  apply Forall_cons in Hf as [Hf Hfs]. rewrite (run_bind_ok _ _ _ _ _ (send_frame_run f p Hf)), IH by done. cbn [pipe_bytes pipe_reads fmap list_fmap concat].
  by rewrite <- !app_assoc.
Qed.

Section Delivery.
(** A [Read] gets at least a byte; one of fewer than 1024 bytes gets all. *)
Context (avail : nat -> Z -> Z) (Havail : forall i n, 0 < n -> 1 <= avail i n) (Hshort : forall i n, n < 1024 -> n <= avail i n).

Lemma pipe_read_full n bs rest i : zlen bs = n -> n < 1024 ->
  pipe_read avail n (mkPipe (bs ++ rest) i) = (Ok (bs, None), mkPipe rest (S i)).
Proof.
  intros Hn Hl. unfold pipe_read. cbn [pipe_bytes pipe_reads]. rewrite Z.min_l by auto. unfold zlen in Hn. subst n. rewrite Nat2Z.id.
  by rewrite take_app_length, drop_app_length.
Qed.

Lemma pipe_read_some n bs rest i : 0 < n <= zlen bs -> exists k, (0 < k <= length bs)%nat /\ Z.of_nat k <= n /\
  pipe_read avail n (mkPipe (bs ++ rest) i) = (Ok (take k bs, None), mkPipe (drop k bs ++ rest) (S i)).
Proof.
  intros Hn. pose proof (Havail i n ltac:(lia)) as Ha. exists (Z.to_nat (Z.min n (avail i n))). unfold zlen in Hn. split; [lia|]. split; [lia|].
  unfold pipe_read. cbn [pipe_bytes pipe_reads]. by rewrite take_app_le, drop_app_le by lia.
Qed.

Lemma read_rest_run d rest fuel : forall tot nread tempLen data i,
  0 <= tot -> 0 <= nread -> tot + nread <= zlen d -> (Z.to_nat (zlen d - (tot + nread)) < fuel)%nat ->
  tempLen = 1024 \/ zlen d - (tot + nread) < 1024 ->
  take (Z.to_nat (tot + nread)) data = take (Z.to_nat (tot + nread)) d -> (tot + nread = zlen d -> data = d) ->
  exists j, read_rest (pipe_read avail) fuel (zlen d) tot nread tempLen data (mkPipe (drop (Z.to_nat (tot + nread)) d ++ rest) i) = (Ok (Some d), mkPipe rest j).
Proof.
  induction fuel as [|fuel IH]; intros tot nread tempLen data i Ht Hr Hle Hfuel Htemp Hdata Hend; [lia|]. cbn [read_rest]. set (t := tot + nread) in *.
  destruct (Z.eqb_spec t (zlen d)) as [E|E].
  { exists i. rewrite drop_ge by (unfold zlen in *; lia). by rewrite Hend. }
  set (n := if zlen d - t <? maxPacketLen then zlen d - t else tempLen).
  assert (Hn : 0 < n <= zlen (drop (Z.to_nat t) d) /\ (n = 1024 \/ zlen d - t < 1024)).
  { unfold n, maxPacketLen, zlen. rewrite length_drop. unfold zlen in *. destruct (Z.ltb_spec (Z.of_nat (length d) - t) 1024); lia. }
  destruct (pipe_read_some n (drop (Z.to_nat t) d) rest i (proj1 Hn)) as (k & Hk & Hkn & Hread). rewrite (run_bind_ok _ _ _ _ _ Hread).
  rewrite length_drop in Hk. rewrite drop_drop. assert (Hz : zlen (take k (drop (Z.to_nat t) d)) = Z.of_nat k).
  { unfold zlen. rewrite length_take, length_drop. lia. }
  rewrite Hz. unfold zlen in *. replace (Z.to_nat t + k)%nat with (Z.to_nat (t + Z.of_nat k)) by lia.
  assert (Hd : take (Z.to_nat t) data ++ take k (drop (Z.to_nat t) d) = take (Z.to_nat (t + Z.of_nat k)) d).
  { rewrite Hdata, take_take_drop. f_equal. lia. }
  rewrite Hd. apply IH; try lia.
  - rewrite take_take. f_equal. lia.
  - intros Hl. apply take_ge. lia.
Qed.

Lemma filled_buf_full n bs : zlen bs = n -> filled_buf n bs = bs.
Proof. intros <-. unfold filled_buf, zlen. by rewrite Nat2Z.id, Nat.sub_diag, app_nil_r. Qed.

Lemma read_data_run d rest fuel i : 0 < zlen d -> (length d < fuel)%nat ->
  exists j, read_data (pipe_read avail) fuel (zlen d) (mkPipe (d ++ rest) i) = (Ok (Some d), mkPipe rest j).
Proof.
  intros Hd Hfuel. unfold read_data, maxPacketLen. destruct (Z.ltb_spec (zlen d) 1024) as [H|H].
  { exists (S i). rewrite (run_bind_ok _ _ _ _ _ (pipe_read_full (zlen d) d rest i eq_refl H)). by rewrite filled_buf_full. }
  destruct (pipe_read_some 1024 d rest i ltac:(lia)) as (k & Hk & Hkn & Hread). rewrite (run_bind_ok _ _ _ _ _ Hread).
  assert (Hz : zlen (take k d) = Z.of_nat k) by (unfold zlen; rewrite length_take; lia).
  replace (drop k d) with (drop (Z.to_nat (0 + zlen (take k d))) d) by (f_equal; lia).
  apply read_rest_run; rewrite ?Hz; unfold zlen in *; try lia.
  - unfold filled_buf. rewrite take_app_le by (rewrite length_take; lia). rewrite take_take. f_equal. lia.
  - intros E. rewrite filled_buf_full by (unfold zlen; rewrite length_take; lia). apply take_ge. lia.
Qed.

Lemma receive_frame_run f rest fuel i : live_frame_ok f -> (length (cs_Data f) < fuel)%nat ->
  exists j, receive_frame (pipe_read avail) fuel (mkPipe (frame_meta f ++ cs_Data f ++ rest) i) = (Ok (Some (delivered f)), mkPipe rest j).
Proof.
  intros (Ht & Hl & Hs & Hi & Hd) Hfuel. unfold receive_frame, metadataLen.
  rewrite (run_bind_ok _ _ _ _ _ (pipe_read_full 16 (frame_meta f) _ i eq_refl ltac:(lia))). rewrite filled_buf_full by done.
  assert (Hm : received_frame (frame_meta f) (cs_Data f) = delivered f).
  { unfold received_frame, delivered.
    change (meta_item (frame_meta f) 0) with (be_num (be_enc 4 (cs_Timestamp f))). change (meta_item (frame_meta f) 1) with (be_num (be_enc 4 (cs_Length f))).
    change (meta_item (frame_meta f) 2) with (be_num (be_enc 4 (cs_StreamID f))). change (meta_item (frame_meta f) 3) with (be_num (be_enc 4 (cs_TypeID f))).
    by rewrite !be_num_enc by lia. }
  change (meta_item (frame_meta f) 1) with (be_num (be_enc 4 (cs_Length f))). rewrite be_num_enc, Hd by lia.
  destruct (read_data_run (cs_Data f) rest fuel (S i) ltac:(lia) Hfuel) as (j & Hj). exists j. rewrite (run_bind_ok _ _ _ _ _ Hj).
  destruct (cs_Data f) as [|b bs] eqn:Ed; [unfold zlen in *; simpl in *; lia|]. by rewrite Hm.
Qed.

Lemma receive_frames_run frames fuel : forall i, Forall live_frame_ok frames -> Forall (fun f => length (cs_Data f) < fuel)%nat frames ->
  exists j, receive_frames (pipe_read avail) fuel (length frames) (mkPipe (concat ((fun f => frame_meta f ++ cs_Data f) <$> frames)) i) =
    (Ok (delivered <$> frames), mkPipe [] j).
Proof.
  induction frames as [|f frames IH]; intros i Hf Hfuel; [by exists i|]. apply Forall_cons in Hf as [Hf Hfs]. apply Forall_cons in Hfuel as [Hl Hls].
  cbn [receive_frames length fmap list_fmap concat]. rewrite <- app_assoc.
  destruct (receive_frame_run f (concat ((fun f => frame_meta f ++ cs_Data f) <$> frames)) fuel i Hf Hl) as (j & Hj).
  rewrite (run_bind_ok _ _ _ _ _ Hj). destruct (IH j Hfs Hls) as (j' & Hj'). exists j'. by rewrite (run_bind_ok _ _ _ _ _ Hj').
Qed.
End Delivery.

(** C10: The messages with data that the client side takes from its publisher reach the server
    side: all of them, in order, with their times, types, streams and bytes, and the packet that
    the relay fills from one is the packet that it would have filled from the message itself. It
    holds for messages of at least one byte (an empty one is dropped, see
    [empty_message_dropped]) whose numbers fit in 32 bits, and when a read of fewer than 1024
    bytes is not cut short; longer reads may get any part. *)
Theorem live_frames_delivered (avail : nat -> Z -> Z) frames fuel :
  (forall i n, 0 < n -> 1 <= avail i n) -> (forall i n, n < 1024 -> n <= avail i n) ->
  Forall live_frame_ok frames -> Forall (fun f => length (cs_Data f) < fuel)%nat frames ->
  exists p p', send_frames pipe_write frames (mkPipe [] 0) = (Ok tt, p) /\
    receive_frames (pipe_read avail) fuel (length frames) p = (Ok (delivered <$> frames), p') /\ pipe_bytes p' = [] /\
    forall pkt, (fun f => fill_media f pkt) <$> (delivered <$> frames) = (fun f => fill_media f pkt) <$> frames.
Proof.
  intros Ha Hs Hf Hl. destruct (receive_frames_run avail Ha Hs frames fuel 0 Hf Hl) as (j & Hj).
  eexists _, _. split; [exact (send_frames_run frames (mkPipe [] 0) Hf)|]. split; [exact Hj|]. split; [done|].
  intros pkt. rewrite <- list_fmap_compose. by apply list_fmap_ext.
Qed.

Definition live_message (n : nat) : ChunkStream :=
  zeroChunkStream <| cs_TypeID := TAG_VIDEO |> <| cs_Timestamp := 40 |> <| cs_StreamID := 1 |> <| cs_Length := Z.of_nat n |> <| cs_Data := replicate n 7 |>.

Definition live_messages : list ChunkStream := [live_message 3; live_message 1500].

(** Long reads get 100 bytes each. *)
Lemma live_frames_delivered_witness :
  exists p p', send_frames pipe_write live_messages (mkPipe [] 0) = (Ok tt, p) /\
    receive_frames (pipe_read (fun _ n => if n <? 1024 then n else 100)) 2000 (length live_messages) p = (Ok (delivered <$> live_messages), p') /\
    pipe_bytes p' = [] /\
    forall pkt, (fun f => fill_media f pkt) <$> (delivered <$> live_messages) = (fun f => fill_media f pkt) <$> live_messages.
Proof.
  apply (live_frames_delivered (fun _ n => if n <? 1024 then n else 100) live_messages 2000).
  - intros _ n Hn. destruct (n <? 1024); lia.
  - intros _ n Hn. rewrite (proj2 (Z.ltb_lt n 1024) Hn). lia.
  - apply Forall_cons. split; [vm_compute; repeat split; discriminate|]. apply Forall_cons. split; [vm_compute; repeat split; discriminate|apply Forall_nil_2].
  - apply Forall_cons. split; [apply Nat.ltb_lt; vm_compute; reflexivity|]. apply Forall_cons. split; [apply Nat.ltb_lt; vm_compute; reflexivity|apply Forall_nil_2].
Defined.

(** ** What may go wrong *)

(** The metadata arrives in two parts: the rest of it is taken for data, and a message is
    received that was not sent. *)
Lemma metadata_cut_short :
  exists p p' f, send_frames pipe_write [live_message 3] (mkPipe [] 0) = (Ok tt, p) /\
    receive_frames (pipe_read (fun i n => if (i =? 0)%nat then 10 else n)) 100 1 p = (Ok [f], p') /\
    cs_TypeID f = 0 /\ cs_StreamID f = 0 /\ cs_Data f = [0; 1; 0] /\ pipe_bytes p' <> [].
Proof. eexists _, _, _. split; [vm_compute; reflexivity|]. split; [vm_compute; reflexivity|]. vm_compute. by repeat split. Qed.

(** A message without data is sent, and the server drops it. *)
Lemma empty_message_dropped :
  exists p p', send_frames pipe_write [live_message 0] (mkPipe [] 0) = (Ok tt, p) /\
    receive_frames (pipe_read (fun _ n => n)) 100 1 p = (Ok [], p').
Proof. eexists _, _. split; [vm_compute; reflexivity|]. vm_compute. reflexivity. Qed.

(** The stream fails within a long message: the loop never ends. *)
Lemma failed_stream_spins {S} (read : Z -> GoM S (list Z * option error)) e s fuel data tempLen : (forall n s, read n s = (Ok ([], Some e), s)) ->
  read_rest read fuel 2000 0 1024 tempLen data s = (Ok None, s).
Proof.
  intros Hr. cut (forall fuel tot nread tempLen data s, tot + nread = 1024 -> 
    read_rest read fuel 2000 tot nread tempLen data s = (Ok None, s)); [intros H; by apply H|].
  clear fuel tempLen data s. induction fuel as [|fuel IH]; intros tot nread tempLen data s Ht; [done|]. cbn [read_rest]. rewrite Ht.
  change (1024 =? 2000) with false. cbv iota. rewrite (run_bind_ok _ _ _ _ _ (Hr _ s)). by apply IH.
Qed.
