(* ===== verification/Flv.v ===== *)
(** FLV: the file that a stream is recorded to (liveproxy/container/flv/muxer.go) and the answer
    that an HTTP player reads (liveproxy/protocol/httpflv/writer.go). A writer changes the
    metadata of the packet it is given, which the cache shares with the other players, so the
    packet is part of the state. *)

From S2P Require Import Prelude ByteOrder Pio Amf Chunk Media RtmpCommands StreamCache Relay LiveProxy.

Definition flvHeader : list Z := [0x46; 0x4c; 0x56; 0x01; 0x05; 0x00; 0x00; 0x00; 0x09].
Definition headerLen : Z := 11.

(** An integer is put into [buf[i:i+n]]. *)
Definition put_at (i n : nat) (put : GoM (list Z) unit) : GoM (list Z) unit := fun buf =>
  let '(r, s) := put (take n (drop i buf)) in (r, take i buf ++ s ++ drop (i + n) buf).

Definition tag_header (typeID dataLen timestamp : Z) : GoM (list Z) unit :=
  let timestampbase := Z.land timestamp 0xffffff in
  let timestampExt := Z.land (Z.shiftr timestamp 24) 0xff in
  put_at 0 1 (PutU8 (u8 typeID));;
  put_at 1 3 (PutI24BE (i32 dataLen));;
  put_at 4 3 (PutI24BE (i32 timestampbase));;
  put_at 7 1 (PutU8 (u8 timestampExt)).

Section Writer.
(** [ctx.Write] *)
Context {S : Type} (write : list Z -> GoM S unit).

(** Without [closed], on which only [Wait] waits. *)
Record FLVWriter := mkFLVWriter {
  fw_Info : Info;
  fw_base : RWBaser;
  fw_buf : list Z;
  fw_ctx : S;
  fw_closedWriter : bool
}.

#[global] Instance eta_FLVWriter : Eta FLVWriter := fun w =>
  mkFLVWriter (fw_Info w) (fw_base w) (fw_buf w) (fw_ctx w) (fw_closedWriter w).

Definition on_buf (m : GoM (list Z) unit) : GoM FLVWriter unit := fun w =>
  let '(r, b) := m (fw_buf w) in (r, w <| fw_buf := b |>).
Definition ctx_Write (bs : list Z) : GoM FLVWriter unit := fun w =>
  let '(r, c) := write bs (fw_ctx w) in (r, w <| fw_ctx := c |>).

(** The bytes [buf[:n]]. *)
Definition buf_prefix (n : nat) : GoM FLVWriter (list Z) := fun w => (Ok (take n (fw_buf w)), w).

Definition NewFLVWriter (info : Info) (now : Z) (ctx : S) : outcome unit * FLVWriter :=
  (ignore_error (ctx_Write flvHeader);;
   on_buf (put_at 0 4 (PutI32BE 0));;
   h ← buf_prefix 4;
   ignore_error (ctx_Write h))
  (mkFLVWriter info (NewRWBaser 10000000000 now) (replicate 11 0) ctx false).

(** The tag of a packet. *)
Definition write_tag (typeID timestamp : Z) (data : list Z) : GoM FLVWriter unit :=
  let dataLen := zlen data in
  let preDataLen := dataLen + headerLen in
  on_buf (tag_header typeID dataLen timestamp);;
  h ← buf_prefix 11;
  ctx_Write h;;
  ctx_Write data;;
  on_buf (put_at 0 4 (PutI32BE (i32 preDataLen)));;
  h ← buf_prefix 4;
  ctx_Write h.

(** Both sides of the state. *)
Definition on_writer {A} (m : GoM FLVWriter A) : GoM (FLVWriter * av_Packet) A := fun '(w, p) => let '(r, w) := m w in (r, (w, p)).

Definition flv_Write (now : Z) : GoM (FLVWriter * av_Packet) unit :=
  on_writer (modifyS (fun w => w <| fw_base := SetPreTime now (fw_base w) |>));;
  '(w, p) ← getS;
  (if negb (pkt_IsVideo p) && pkt_IsMetadata p then
     match MetaDataReform (pkt_Data p) DEL with
     | Ok data => putS (w, p <| pkt_Data := data |>)
     | Err e => putS (w, p <| pkt_Data := [] |>);; fail e
     | Panic s => panic s
     end
   else mret tt);;
  '(w, p) ← getS;
  let timestamp := u32 (pkt_TimeStamp p + rwb_BaseTimestamp (fw_base w)) in
  on_writer (modifyS (fun w => w <| fw_base := RecTimeStamp timestamp (packet_type p) (fw_base w) |>);;
             write_tag (packet_type p) timestamp (pkt_Data p)).

(** The file is closed, too. *)
Definition flv_Close (w : FLVWriter) : FLVWriter := w <| fw_closedWriter := true |>.
End Writer.
Arguments FLVWriter : clear implicits.

(** ** httpflv/writer.go *)

Definition http_drop_round (max : Z) : GoM (list av_Packet) unit :=
  tmpPkt ← chan_recv;
  (if pkt_IsVideo tmpPkt then
     (if keeps_video tmpPkt then chan_send max tmpPkt else mret tt);;
     q ← getS;
     (if max - 10 <? zlen q then chan_recv;; mret tt else mret tt);;
     chan_recv;; mret tt
   else mret tt);;
  if pkt_IsAudio tmpPkt then chan_send max tmpPkt else mret tt.

Fixpoint http_drop_rounds (n : nat) (max : Z) : GoM (list av_Packet) unit :=
  match n with
  | O => mret tt
  | S n => http_drop_round max;; http_drop_rounds n max
  end.

Definition http_DropPacket : GoM (list av_Packet) unit := http_drop_rounds (Z.to_nat (maxQueueNum - 84)) maxQueueNum.

(** The writer, with its queue and whether that is open. *)
Record HttpFlvWriter {S : Type} := mkHttpFlvWriter {
  hw_writer : FLVWriter S;
  hw_closed : bool;
  hw_queue : list av_Packet;
  hw_open : bool
}.
Arguments HttpFlvWriter : clear implicits.

#[global] Instance eta_HttpFlvWriter {S} : Eta (HttpFlvWriter S) := fun w =>
  mkHttpFlvWriter S (hw_writer w) (hw_closed w) (hw_queue w) (hw_open w).

Section HttpWriter.
Context {S : Type} (write : list Z -> GoM S unit).

Definition failed {A} (r : outcome A) : bool := match r with Ok _ => false | _ => true end.

Definition NewHttpFlvWriter (info : Info) (now : Z) (ctx : S) : HttpFlvWriter S :=
  let w := mkFLVWriter info (NewRWBaser 10000000000 now) (replicate 11 0) ctx false in
  let '(r1, w) := ctx_Write write flvHeader w in
  let '(_, w) := on_buf (put_at 0 4 (PutI32BE 0)) w in
  let '(r2, w) := ctx_Write write (take 4 (fw_buf w)) w in
  mkHttpFlvWriter S w (failed r1 || failed r2) [] true.

Definition on_http_queue (m : GoM (list av_Packet) unit) : GoM (HttpFlvWriter S) unit := fun w =>
  let '(r, q) := m (hw_queue w) in (r, w <| hw_queue := q |>).

(** As with [VirWriter], the queue is closed only where [closed] is set. *)
Definition http_Write (p : av_Packet) : GoM (HttpFlvWriter S) unit :=
  w ← getS;
  if hw_closed w then fail (errors_New "flvwrite source closed")
  else if maxQueueNum - 24 <=? zlen (hw_queue w) then on_http_queue http_DropPacket
  else if hw_open w then on_http_queue (chan_send maxQueueNum p)
  else fail (errors_New "FLVWriter has already been closed:send on closed channel").

(** One round of [SendPacket]; an error ends it and closes the writer. *)
Definition http_send (now : Z) : GoM (HttpFlvWriter S) unit := fun w =>
  match hw_queue w with
  | [] => if hw_open w then asleep w else (Err (errors_New "closed"), w <| hw_closed := true |>)
  | p :: q =>
      let '(r, (fw, _)) := flv_Write write now (hw_writer w, p) in
      (r, w <| hw_writer := fw |> <| hw_queue := q |> <| hw_closed := match r with Err _ => true | _ => hw_closed w end |>)
  end.

Definition http_Close (w : HttpFlvWriter S) : HttpFlvWriter S :=
  w <| hw_open := if hw_closed w then hw_open w else false |> <| hw_closed := true |>.
End HttpWriter.

(** ** What a reader finds *)

(** A file that takes everything. *)
Definition file_write (bs : list Z) : GoM (list Z) unit := fun f => (Ok tt, f ++ bs).

(** The type, the time and the data of the tags of a file, after its header; [None] for what is
    no FLV file. *)
Fixpoint flv_tags (fuel : nat) (bs : list Z) : option (list (Z * Z * list Z)) :=
  match fuel, bs with
  | _, [] => Some []
  | S fuel, t :: n2 :: n1 :: n0 :: t2 :: t1 :: t0 :: t3 :: _ :: _ :: _ :: rest =>
      let n := be_num [n2; n1; n0] in
      if (n + 4 <=? zlen rest) && (be_num (take 4 (drop (Z.to_nat n) rest)) =? n + 11) then
        tags ← flv_tags fuel (drop (Z.to_nat n + 4) rest);
        Some ((t, be_num [t3; t2; t1; t0], take (Z.to_nat n) rest) :: tags)
      else None
  | _, _ => None
  end.

Definition flv_read (bs : list Z) : option (list (Z * Z * list Z)) :=
  if decide (take 13 bs = flvHeader ++ [0; 0; 0; 0]) then flv_tags (length bs) (drop 13 bs) else None.

(** The tag of a packet, unless its metadata is refused. *)
Definition packet_tag (p : av_Packet) : option (Z * Z * list Z) :=
  if negb (pkt_IsVideo p) && pkt_IsMetadata p then
    match MetaDataReform (pkt_Data p) DEL with
    | Ok data => Some (packet_type p, pkt_TimeStamp p, data)
    | _ => None
    end
  else Some (packet_type p, pkt_TimeStamp p, pkt_Data p).

Definition tag_bytes (tag : Z * Z * list Z) : list Z :=
  let '(t, time, data) := tag in
  [t] ++ be_enc 3 (zlen data) ++ be_enc 3 (Z.land time 0xffffff) ++ [Z.land (Z.shiftr time 24) 0xff] ++ [0; 0; 0] ++ data ++ be_enc 4 (zlen data + 11).

Definition tag_ok (tag : Z * Z * list Z) : Prop :=
  let '(t, time, data) := tag in 0 <= t < 256 /\ 0 <= time < 2 ^ 32 /\ zlen data < 2 ^ 24.

Lemma be_num_enc3 v : 0 <= v < 2 ^ 24 -> be_num (be_enc 3 v) = v.
Proof.
  intros Hv. unfold be_num. cbn [be_enc foldl]. unfold u8. rewrite !Z.shiftr_div_pow2 by lia.
  change (8 * Z.of_nat 2) with 16. change (8 * Z.of_nat 1) with 8. change (8 * Z.of_nat 0) with 0. Z.to_euclidean_division_equations. lia.
Qed.

Lemma time_bytes time : 0 <= time < 2 ^ 32 -> be_num (Z.land (Z.shiftr time 24) 0xff :: be_enc 3 (Z.land time 0xffffff)) = time.
Proof.
  intros Ht. rewrite (land_mod 24 _ 0xffffff), (land_mod 8 _ 255), Z.shiftr_div_pow2 by (lia || done). unfold be_num. cbn [be_enc foldl]. unfold u8.
  rewrite !Z.shiftr_div_pow2 by lia. change (8 * Z.of_nat 2) with 16. change (8 * Z.of_nat 1) with 8. change (8 * Z.of_nat 0) with 0.
  Z.to_euclidean_division_equations. lia.
Qed.

Lemma three_bytes v : exists a b c, be_enc 3 v = [a; b; c].
Proof. by eexists _, _, _. Qed.

Lemma flv_tags_step tag rest fuel : tag_ok tag -> flv_tags (S fuel) (tag_bytes tag ++ rest) = (tags ← flv_tags fuel rest; Some (tag :: tags)).
Proof.
  destruct tag as [[t time] data]. intros (Ht & Htime & Hd). pose proof (zlen_nonneg data) as Hz. unfold tag_bytes.
  pose proof (be_num_enc3 (zlen data) ltac:(lia)) as Hn. pose proof (time_bytes time Htime) as Htb.
  destruct (three_bytes (zlen data)) as (n2 & n1 & n0 & En). destruct (three_bytes (Z.land time 0xffffff)) as (t2 & t1 & t0 & Et).
  rewrite En in *. rewrite Et in *. rewrite <- !app_assoc. set (r := data ++ be_enc 4 (zlen data + 11) ++ rest).
  change (flv_tags (S fuel) _) with
    (if (be_num [n2; n1; n0] + 4 <=? zlen r) && (be_num (take 4 (drop (Z.to_nat (be_num [n2; n1; n0])) r)) =? be_num [n2; n1; n0] + 11) then
       tags ← flv_tags fuel (drop (Z.to_nat (be_num [n2; n1; n0]) + 4) r);
       Some ((t, be_num [Z.land (Z.shiftr time 24) 0xff; t2; t1; t0], take (Z.to_nat (be_num [n2; n1; n0])) r) :: tags)
     else None).
  rewrite Hn, Htb. unfold r. rewrite !zlen_app. replace (zlen (be_enc 4 (zlen data + 11))) with 4 by done. pose proof (zlen_nonneg rest).
  rewrite (proj2 (Z.leb_le _ _)) by lia. replace (Z.to_nat (zlen data)) with (length data) by (unfold zlen; lia).
  rewrite drop_app_length, take_app_length. change 4%nat with (length (be_enc 4 (zlen data + 11))) at 1. rewrite take_app_length, be_num_enc by lia.
  rewrite Z.eqb_refl. cbn [andb]. rewrite <- drop_drop, drop_app_length. change 4%nat with (length (be_enc 4 (zlen data + 11))) at 1. by rewrite drop_app_length.
Qed.

Lemma flv_tags_run tags : forall fuel, Forall tag_ok tags -> (length (concat (tag_bytes <$> tags)) <= fuel)%nat ->
  flv_tags fuel (concat (tag_bytes <$> tags)) = Some tags.
Proof.
  induction tags as [|tag tags IH]; intros fuel Hok Hf; [by destruct fuel|]. apply Forall_cons in Hok as [Ht Hok].
  cbn [fmap list_fmap concat] in *. rewrite length_app in Hf. destruct fuel as [|fuel]; [destruct tag as [[? ?] ?]; simpl in Hf; lia|].
  rewrite flv_tags_step by done. rewrite IH; [done|done|]. destruct tag as [[? ?] ?]. simpl in *. lia.
Qed.

(** ** What the writers write *)

Definition buf_ok (b : list Z) : Prop := exists b', length b' = 8%nat /\ b = b' ++ [0; 0; 0].

Lemma tag_header_run t n time b : buf_ok b -> 0 <= t < 256 -> 0 <= n < 2 ^ 24 -> 0 <= time < 2 ^ 32 ->
  tag_header t n time b =
  (Ok tt, [t] ++ be_enc 3 n ++ be_enc 3 (Z.land time 0xffffff) ++ [Z.land (Z.shiftr time 24) 0xff] ++ [0; 0; 0]).
Proof.
  intros (b' & Hb & ->) Ht Hn Htime. assert (Hl : 0 <= Z.land time 0xffffff < 2 ^ 24) by (rewrite (land_mod 24 _ 0xffffff) by (lia || done); apply Z.mod_pos_bound; lia).
  assert (He : 0 <= Z.land (Z.shiftr time 24) 0xff < 256) by (rewrite (land_mod 8 _ 0xff) by (lia || done); apply Z.mod_pos_bound; lia).
  do 8 (destruct b' as [|? b']; [discriminate Hb|]). destruct b'; [|discriminate Hb].
  unfold tag_header. rewrite (u8_small t), (u8_small (Z.land (Z.shiftr time 24) 0xff)) by lia.
  replace (i32 n) with n by (unfold i32; rewrite Z.mod_small; lia).
  replace (i32 (Z.land time 0xffffff)) with (Z.land time 0xffffff) by (unfold i32; rewrite Z.mod_small; lia).
  reflexivity.
Qed.

Lemma write_tag_run t time data (w : FLVWriter (list Z)) : tag_ok (t, time, data) -> buf_ok (fw_buf w) ->
  exists b, write_tag file_write t time data w = (Ok tt, w <| fw_buf := b |> <| fw_ctx := fw_ctx w ++ tag_bytes (t, time, data) |>) /\ buf_ok b.
Proof.
  intros (Ht & Htime & Hd) Hb. pose proof (zlen_nonneg data) as Hz. unfold write_tag.
  set (h := [t] ++ be_enc 3 (zlen data) ++ be_enc 3 (Z.land time 0xffffff) ++ [Z.land (Z.shiftr time 24) 0xff] ++ [0; 0; 0]).
  rewrite (run_bind_ok _ _ w tt (w <| fw_buf := h |>)).
  2: { unfold on_buf. by rewrite tag_header_run by (done || lia). }
  exists (be_enc 4 (zlen data + 11) ++ drop 4 h). split; [|by exists (be_enc 4 (zlen data + 11) ++ take 4 (drop 4 h))].
  unfold headerLen. replace (i32 (zlen data + 11)) with (zlen data + 11) by (unfold i32; rewrite Z.mod_small; lia).
  unfold tag_bytes. fold h. transitivity (Ok tt, w <| fw_buf := be_enc 4 (zlen data + 11) ++ drop 4 h |> <| fw_ctx := ((fw_ctx w ++ h) ++ data) ++ be_enc 4 (zlen data + 11) |>); [reflexivity|].
  do 2 f_equal. unfold h. by rewrite <- !app_assoc.
Qed.

(** Packets written at some times. *)
Fixpoint flv_writes (ps : list (Z * av_Packet)) : GoM (FLVWriter (list Z)) unit := fun w =>
  match ps with
  | [] => (Ok tt, w)
  | (now, p) :: ps =>
      match flv_Write file_write now (w, p) with
      | (Ok _, (w, _)) => flv_writes ps w
      | (r, (w, _)) => (r, w)
      end
  end.

Definition writer_ok (w : FLVWriter (list Z)) : Prop := buf_ok (fw_buf w) /\ rwb_BaseTimestamp (fw_base w) = 0.

Lemma flv_Write_run now p tag w : writer_ok w -> packet_tag p = Some tag -> tag_ok tag ->
  exists w' p', flv_Write file_write now (w, p) = (Ok tt, (w', p')) /\ writer_ok w' /\ fw_ctx w' = fw_ctx w ++ tag_bytes tag.
Proof.
  intros [Hb Hbase] Hp Hok. unfold flv_Write. set (w1 := w <| fw_base := SetPreTime now (fw_base w) |>).
  rewrite (run_bind_ok _ _ (w, p) tt (w1, p)) by done. rewrite (run_bind_ok _ _ (w1, p) (w1, p) (w1, p)) by done.
  assert (exists p', tag = (packet_type p', pkt_TimeStamp p', pkt_Data p') /\
    (if negb (pkt_IsVideo p) && pkt_IsMetadata p then match MetaDataReform (pkt_Data p) DEL with
       | Ok data => putS (w1, p <| pkt_Data := data |>) | Err e => putS (w1, p <| pkt_Data := [] |>);; fail e | Panic s => panic s end
     else mret tt : GoM (FLVWriter (list Z) * av_Packet) unit) (w1, p) = (Ok tt, (w1, p'))) as (p' & -> & E).
  { unfold packet_tag in Hp. destruct (negb (pkt_IsVideo p) && pkt_IsMetadata p).
    - destruct (MetaDataReform (pkt_Data p) DEL) as [data|e|s]; [|done|done]. injection Hp as <-. by exists (p <| pkt_Data := data |>).
    - injection Hp as <-. by exists p. }
  rewrite (run_bind_ok _ _ _ _ _ E). rewrite (run_bind_ok _ _ (w1, p') (w1, p') (w1, p')) by done.
  change (rwb_BaseTimestamp (fw_base w1)) with (rwb_BaseTimestamp (fw_base w)). rewrite Hbase, Z.add_0_r, u32_small by apply Hok.
  set (w2 := w1 <| fw_base := RecTimeStamp (pkt_TimeStamp p') (packet_type p') (fw_base w1) |>).
  destruct (write_tag_run _ _ _ w2 Hok Hb) as (b & Ew & Hb'). exists (w2 <| fw_buf := b |> <| fw_ctx := fw_ctx w2 ++ tag_bytes (packet_type p', pkt_TimeStamp p', pkt_Data p') |>), p'.
  split; [|split; [split; [done|]|done]].
  - unfold on_writer. rewrite (run_bind_ok _ _ w1 tt w2) by done. by rewrite Ew.
  - change (rwb_BaseTimestamp (RecTimeStamp (pkt_TimeStamp p') (packet_type p') (fw_base w1)) = 0). unfold RecTimeStamp. by repeat case_match.
Qed.

Lemma flv_writes_run ps : forall tags w, writer_ok w -> mapM (fun x => packet_tag x.2) ps = Some tags -> Forall tag_ok tags ->
  exists w', flv_writes ps w = (Ok tt, w') /\ fw_ctx w' = fw_ctx w ++ concat (tag_bytes <$> tags).
Proof.
  induction ps as [|[now p] ps IH]; intros tags w Hw Ht Hok; cbn [mapM flv_writes] in *.
  { injection Ht as <-. exists w. by rewrite app_nil_r. }
  apply bind_Some in Ht as (tag & Hp & Ht). apply bind_Some in Ht as (tags' & Hps & [= <-]). apply Forall_cons in Hok as [Hok Hoks].
  destruct (flv_Write_run now p tag w Hw Hp Hok) as (w1 & p1 & E1 & Hw1 & Hc1). rewrite E1.
  destruct (IH tags' w1 Hw1 Hps Hoks) as (w2 & E2 & Hc2). exists w2. split; [done|]. rewrite Hc2, Hc1. cbn [fmap list_fmap concat]. by rewrite app_assoc.
Qed.

Lemma flv_read_run tags : Forall tag_ok tags -> flv_read ((flvHeader ++ [0; 0; 0; 0]) ++ concat (tag_bytes <$> tags)) = Some tags.
Proof.
  intros Hok. unfold flv_read. rewrite decide_True by done. apply flv_tags_run; [done|]. cbn. lia.
Qed.

(** An HTTP player: packets are queued while others are sent. A round of [SendPacket] that finds
    no packet waits for one. *)
Inductive http_event := http_writes (p : av_Packet) | http_sends (now : Z).

Definition http_step (e : http_event) : GoM (HttpFlvWriter (list Z)) unit := fun w =>
  match e with
  | http_writes p => http_Write p w
  | http_sends now => match hw_queue w with [] => (Ok tt, w) | _ => http_send file_write now w end
  end.

Fixpoint http_run (es : list http_event) : GoM (HttpFlvWriter (list Z)) unit :=
  match es with
  | [] => mret tt
  | e :: es => http_step e;; http_run es
  end.

Definition http_written (es : list http_event) : list av_Packet := omap (fun e => match e with http_writes p => Some p | http_sends _ => None end) es.

(** There is room in a queue of [n] packets whenever a packet is written. *)
Fixpoint http_room (n : Z) (es : list http_event) : Prop :=
  match es with
  | [] => True
  | http_writes _ :: es => n < maxQueueNum - 24 /\ http_room (n + 1) es
  | http_sends _ :: es => http_room (Z.max 0 (n - 1)) es
  end.

Definition sendable_packet (p : av_Packet) : Prop := exists tag, packet_tag p = Some tag /\ tag_ok tag.

Lemma http_Write_run p (w : HttpFlvWriter (list Z)) : hw_closed w = false -> hw_open w = true -> zlen (hw_queue w) < maxQueueNum - 24 ->
  http_Write p w = (Ok tt, w <| hw_queue := hw_queue w ++ [p] |>).
Proof.
  intros Hc Ho Hl. unfold http_Write. rewrite (run_bind_ok _ _ w w w) by done. rewrite Hc, Ho. unfold maxQueueNum in *. rewrite (proj2 (Z.leb_gt _ _)) by lia.
  unfold on_http_queue, chan_send. by rewrite (proj2 (Z.ltb_lt _ _)) by lia.
Qed.

Lemma mapM_snoc {A B} (f : A -> option B) l k x y : mapM f l = Some k -> f x = Some y -> mapM f (l ++ [x]) = Some (k ++ [y]).
Proof. rewrite !mapM_Some. intros Hl Hx. apply Forall2_app; [done|]. by apply Forall2_cons. Qed.

(** The player between two events: it has sent the packets [sent] with the tags [tags]. *)
Record http_sent (sent : list av_Packet) (tags : list (Z * Z * list Z)) (w : HttpFlvWriter (list Z)) : Prop := {
  hs_tags : mapM packet_tag sent = Some tags;
  hs_tags_ok : Forall tag_ok tags;
  hs_writer : writer_ok (hw_writer w);
  hs_running : hw_closed w = false /\ hw_open w = true;
  hs_answer : fw_ctx (hw_writer w) = (flvHeader ++ [0; 0; 0; 0]) ++ concat (tag_bytes <$> tags)
}.

Lemma http_send_run now p q sent tags (w : HttpFlvWriter (list Z)) : http_sent sent tags w -> hw_queue w = p :: q -> sendable_packet p ->
  exists tags' w', http_step (http_sends now) w = (Ok tt, w') /\ http_sent (sent ++ [p]) tags' w' /\ hw_queue w' = q.
Proof.
  intros [T1 T2 T3 [T4 T5] T6] Hq (tag & Hp & Hok). destruct (flv_Write_run now p tag (hw_writer w) T3 Hp Hok) as (w1 & p1 & E1 & Hw1 & Hc1).
  exists (tags ++ [tag]), (w <| hw_writer := w1 |> <| hw_queue := q |> <| hw_closed := hw_closed w |>). split; [|split; [|done]].
  - cbn [http_step]. unfold http_send. by rewrite Hq, E1.
  - constructor; [|by apply Forall_app; split; [|apply Forall_singleton]|exact Hw1|by split|].
    + by apply mapM_snoc.
    + change (fw_ctx w1 = (flvHeader ++ [0; 0; 0; 0]) ++ concat (tag_bytes <$> (tags ++ [tag]))). rewrite Hc1, T6, fmap_app, concat_app. cbn [fmap list_fmap concat]. by rewrite app_nil_r, app_assoc.
Qed.

Lemma http_run_sent es : forall sent tags (w : HttpFlvWriter (list Z)), http_sent sent tags w -> Forall sendable_packet (hw_queue w) ->
  Forall sendable_packet (http_written es) -> http_room (zlen (hw_queue w)) es ->
  exists sent' tags' w', http_run es w = (Ok tt, w') /\ http_sent sent' tags' w' /\ sent ++ hw_queue w ++ http_written es = sent' ++ hw_queue w'.
Proof.
  induction es as [|e es IH]; intros sent tags w Hw Hq Hes Hr; [exists sent, tags, w; cbn [http_written omap list_omap]; by rewrite app_nil_r|].
  destruct e as [p|now]; cbn [http_room http_run] in *.
  - destruct Hr as [Hl Hr]. change (http_written (http_writes p :: es)) with (p :: http_written es) in *. apply Forall_cons in Hes as [Hp Hes].
    pose proof (hs_running _ _ _ Hw) as [Hc Ho]. set (w1 := w <| hw_queue := hw_queue w ++ [p] |>). rewrite (run_bind_ok _ _ w tt w1) by by apply http_Write_run.
    destruct (IH sent tags w1) as (sent' & tags' & w' & E & Hw' & Hs).
    + destruct Hw as [T1 T2 T3 T4 T5]. by constructor.
    + apply Forall_app. split; [done|]. by apply Forall_singleton.
    + done.
    + change (hw_queue w1) with (hw_queue w ++ [p]). by rewrite zlen_app.
    + exists sent', tags', w'. split; [done|]. split; [done|]. rewrite <- Hs. change (hw_queue w1) with (hw_queue w ++ [p]). by rewrite <- app_assoc.
  - change (http_written (http_sends now :: es)) with (http_written es) in *. destruct (hw_queue w) as [|p q] eqn:Eq.
    + rewrite (run_bind_ok _ _ w tt w) by (cbn [http_step]; by rewrite Eq). rewrite <- Eq in *. apply (IH sent tags w Hw Hq Hes). rewrite Eq in *. exact Hr.
    + apply Forall_cons in Hq as [Hp Hq]. destruct (http_send_run now p q sent tags w Hw Eq Hp) as (tags1 & w1 & E1 & Hw1 & Eq1). rewrite (run_bind_ok _ _ _ _ _ E1).
      destruct (IH (sent ++ [p]) tags1 w1 Hw1) as (sent' & tags' & w' & E & Hw' & Hs); [by rewrite Eq1|done| |].
      * rewrite Eq1. rewrite zlen_cons in Hr. pose proof (zlen_nonneg q). by replace (Z.max 0 (1 + zlen q - 1)) with (zlen q) in Hr by lia.
      * exists sent', tags', w'. split; [done|]. split; [done|]. rewrite <- Hs, Eq1. by rewrite <- app_assoc.
Qed.

(** C19: A recorded file is an FLV file: a reader finds one tag for every packet, in order, with
    its type, its time and its data. So is the answer to an HTTP player, however its packets
    are written and sent in turns, as long as fewer than 1000 packets wait in its queue when
    one is written: a reader finds the tags of the packets that were sent, these are the first
    ones that were written, the others wait in order, and the player goes on. Metadata is what
    [MetaDataReform] leaves of it. It holds for packets of less than 2^24 bytes whose metadata
    [MetaDataReform] accepts and that no other player changes. *)
Theorem flv_tags_read ps tags es info start :
  mapM (fun x => packet_tag x.2) ps = Some tags -> Forall tag_ok tags -> Forall sendable_packet (http_written es) -> http_room 0 es ->
  (exists w w', NewFLVWriter file_write info start [] = (Ok tt, w) /\ flv_writes ps w = (Ok tt, w') /\ flv_read (fw_ctx w') = Some tags) /\
  (exists sent tags' w', http_run es (NewHttpFlvWriter file_write info start []) = (Ok tt, w') /\ hw_closed w' = false /\
     http_written es = sent ++ hw_queue w' /\ mapM packet_tag sent = Some tags' /\ flv_read (fw_ctx (hw_writer w')) = Some tags').
Proof.
  intros Ht Hok Hes Hr. set (w0 := mkFLVWriter info (NewRWBaser 10000000000 start) (replicate 11 0) (flvHeader ++ [0; 0; 0; 0]) false).
  assert (Hw : writer_ok w0) by (split; [by exists (replicate 8 0)|done]). split.
  - destruct (flv_writes_run ps tags w0 Hw Ht Hok) as (w' & E & Hc). exists w0, w'. split; [done|]. split; [done|]. rewrite Hc. by apply flv_read_run.
  - set (h := mkHttpFlvWriter (list Z) w0 false [] true). change (NewHttpFlvWriter file_write info start []) with h.
    destruct (http_run_sent es [] [] h) as (sent & tags' & w' & E & [T1 T2 T3 [T4 T5] T6] & Hs); [by constructor|done|done|done|].
    exists sent, tags', w'. split; [done|]. split; [done|]. split; [exact Hs|]. split; [done|]. rewrite T6. by apply flv_read_run.
Qed.

Definition sample_sound : av_Packet := mk_av_Packet true false false 0x1000040 1 None [0xaf; 1; 2].

Lemma flv_tags_read_witness :
  let ps := [(5, sample_key); (6, sample_sound)] in
  let tags := [(9, 40, [0x17; 1]); (8, 0x1000040, [0xaf; 1; 2])] in
  let es := [http_writes sample_key; http_sends 5; http_sends 5; http_writes sample_sound; http_writes sample_key; http_sends 6] in
  (exists w w', NewFLVWriter file_write (mkInfo [] [] [] false) 0 [] = (Ok tt, w) /\ flv_writes ps w = (Ok tt, w') /\ flv_read (fw_ctx w') = Some tags) /\
  (exists sent tags' w', http_run es (NewHttpFlvWriter file_write (mkInfo [] [] [] false) 0 []) = (Ok tt, w') /\ hw_closed w' = false /\
     http_written es = sent ++ hw_queue w' /\ mapM packet_tag sent = Some tags' /\ flv_read (fw_ctx (hw_writer w')) = Some tags').
Proof.
  intros ps tags es.
  assert (Hk : sendable_packet sample_key) by (exists (9, 40, [0x17; 1]); split; [reflexivity|vm_compute; repeat split; discriminate]).
  assert (Hs : sendable_packet sample_sound) by (exists (8, 0x1000040, [0xaf; 1; 2]); split; [reflexivity|vm_compute; repeat split; discriminate]).
  apply (flv_tags_read ps tags es (mkInfo [] [] [] false) 0).
  - reflexivity.
  - apply Forall_cons. split; [vm_compute; repeat split; discriminate|]. apply Forall_cons. split; [vm_compute; repeat split; discriminate|apply Forall_nil_2].
  - apply Forall_cons. split; [exact Hk|]. apply Forall_cons. split; [exact Hs|]. apply Forall_cons. split; [exact Hk|apply Forall_nil_2].
  - vm_compute. repeat split.
Defined.

(** ** What may go wrong *)

(** A queue full of frames that are no key frames: each round takes two, and when none is left
    the writer waits for ever. *)
Lemma full_http_queue_hangs : fst (http_DropPacket (replicate 1000 sample_inter)) = Panic "all goroutines are asleep".
Proof. vm_compute. reflexivity. Qed.

(** The length of the data has 24 bits: a tag of 2^24 bytes says that it has none. *)
Lemma long_tag_empty time b : buf_ok b -> exists h, tag_header 9 (2 ^ 24) time b = (Ok tt, h) /\ take 4 h = [9; 0; 0; 0].
Proof.
  intros (b' & Hb & ->). do 8 (destruct b' as [|? b']; [discriminate Hb|]). destruct b'; [|discriminate Hb]. eexists. split; reflexivity.
Qed.

(** Metadata that cannot be read is lost in the packet that the other players share. *)
Lemma metadata_emptied now p w : pkt_IsVideo p = false -> pkt_IsMetadata p = true -> pkt_Data p = [5] ->
  exists w' e, flv_Write file_write now (w, p) = (Err e, (w', p <| pkt_Data := [] |>)).
Proof.
  intros Hv Hm Hd. unfold flv_Write. set (w1 := w <| fw_base := SetPreTime now (fw_base w) |>).
  rewrite (run_bind_ok _ _ (w, p) tt (w1, p)) by done. rewrite (run_bind_ok _ _ (w1, p) (w1, p) (w1, p)) by done. rewrite Hv, Hm, Hd.
  eexists _, _. reflexivity.
Qed.
