(* ===== verification/Hls.v ===== *)
(** HLS (liveproxy/protocol/hls): a player that cuts a stream into segments of a transport stream,
    keeps the last three and answers HTTP requests for them and for their list. The clock is an
    argument, in nanoseconds. *)

From stdpp Require Import pretty.
From S2P Require Import Prelude Amf Pio Chunk Media Ts StreamCache RtmpCommands Relay.

(** ** align.go, audio_cache.go, status.go *)

Definition syncms : Z := 2.
Definition h264_default_hz : Z := 90.

Record align := mkAlign { al_frameNum : Z; al_frameBase : Z }.

(** The time of an audio frame: the expected one where that is near. *)
Definition align_dts (dts inc : Z) : GoM align Z := fun a =>
  let estPts := u64 (al_frameBase a + u64 (al_frameNum a * inc)) in
  let dPts := if dts <=? estPts then estPts - dts else dts - estPts in
  if dPts <=? syncms * h264_default_hz then (Ok estPts, mkAlign (u64 (al_frameNum a + 1)) (al_frameBase a))
  else (Ok dts, mkAlign 1 dts).

Definition cache_max_frames : Z := 6.

(** Without [soundFormat], which is not used. *)
Record audioCache := mkAudioCache { ac_num : Z; ac_offset : Z; ac_pts : Z; ac_buf : list Z }.

Definition newAudioCache : audioCache := mkAudioCache 0 0 0 (replicate (10 * 1024) 0).

Definition ac_Cache (src : list Z) (pts : Z) (a : audioCache) : audioCache :=
  let a := if ac_num a =? 0 then mkAudioCache 0 0 pts [] else a in
  mkAudioCache (u8 (ac_num a + 1)) (ac_offset a + zlen src) (ac_pts a) (ac_buf a ++ src).

Definition ac_GetFrame (a : audioCache) : Z * Z * list Z * audioCache :=
  (ac_offset a, ac_pts a, ac_buf a, mkAudioCache 0 (ac_offset a) (ac_pts a) (ac_buf a)).

(** Without [createdAt] and [segBeginAt], which are not read. *)
Record hls_status := mkStatus { sta_hasVideo : bool; sta_seqId : Z; sta_hasSetFirstTs : bool; sta_firstTimestamp : Z; sta_lastTimestamp : Z }.

Definition newStatus : hls_status := mkStatus false 0 false 0 0.

Definition sta_update (isVideo : bool) (timestamp : Z) (t : hls_status) : hls_status :=
  mkStatus (sta_hasVideo t || isVideo) (sta_seqId t) true (if sta_hasSetFirstTs t then sta_firstTimestamp t else timestamp) timestamp.

Definition resetAndNew (t : hls_status) : hls_status := mkStatus false (i64 (sta_seqId t + 1)) false (sta_firstTimestamp t) (sta_lastTimestamp t).

Definition durationMs (t : hls_status) : Z := i64 (sta_lastTimestamp t - sta_firstTimestamp t).

(** ** item.go, cache.go *)

Record TSItem := mkTSItem { tsi_Name : list Z; tsi_SeqNum : Z; tsi_Duration : Z; tsi_Data : list Z }.

Definition maxTSCacheNum : nat := 3.
Definition ErrNoKey : error := errors_New "No key for cache".

Record TSCacheItem := mkTSCacheItem { tc_id : list Z; tc_num : nat; tc_ll : list (list Z); tc_lm : gmap (list Z) TSItem }.

Definition NewTSCacheItem (id : list Z) : TSCacheItem := mkTSCacheItem id maxTSCacheNum [] ∅.

Definition SetItem (key : list Z) (item : TSItem) (c : TSCacheItem) : TSCacheItem :=
  let '(ll, lm) := match tc_ll c with
                   | k :: ll => if bool_decide (length (tc_ll c) = tc_num c) then (ll, delete k (tc_lm c)) else (tc_ll c, tc_lm c)
                   | [] => ([], tc_lm c)
                   end in
  mkTSCacheItem (tc_id c) (tc_num c) (ll ++ [key]) (<[key := item]> lm).

Definition GetItem (key : list Z) (c : TSCacheItem) : outcome TSItem :=
  match tc_lm c !! key with Some item => Ok item | None => Err ErrNoKey end.

(** [%d], and [%.3f] of the seconds of a number of milliseconds that is not negative. *)
Definition print_int (n : Z) : list Z := bytes_of (pretty n).
Definition print_seconds (ms : Z) : list Z :=
  print_int (ms / 1000) ++ bytes_of "." ++ [48 + ms mod 1000 / 100; 48 + ms mod 100 / 10; 48 + ms mod 10].
Definition newline : list Z := [10].

Definition playlist_entry (v : TSItem) : list Z :=
  bytes_of "#EXTINF:" ++ print_seconds (tsi_Duration v) ++ bytes_of "," ++ newline ++ tsi_Name v ++ newline.

Definition GenM3U8PlayList (c : TSCacheItem) : list Z :=
  let items := omap (fun key => tc_lm c !! key) (tc_ll c) in
  let maxDuration := foldl (fun d v => if d <? tsi_Duration v then tsi_Duration v else d) 0 items in
  let seq := match items with v :: _ => tsi_SeqNum v | [] => 0 end in
  bytes_of "#EXTM3U" ++ newline ++ bytes_of "#EXT-X-VERSION:3" ++ newline ++ bytes_of "#EXT-X-ALLOW-CACHE:NO" ++ newline ++
  bytes_of "#EXT-X-TARGETDURATION:" ++ print_int (Z.quot maxDuration 1000 + 1) ++ newline ++
  bytes_of "#EXT-X-MEDIA-SEQUENCE:" ++ print_int seq ++ newline ++ newline ++ concat (playlist_entry <$> items).

(** ** source.go *)

Definition videoHZ : Z := 90000.
Definition aacSampleLen : Z := 1024.
Definition hls_maxQueueNum : Z := 512.
Definition hls_duration : Z := 3000.
Definition ErrNoSupportVideoCodec : error := errors_New "no support video codec".
Definition ErrNoSupportAudioCodec : error := errors_New "no support audio codec".

(** [packetQueue] and whether it is open. [cleanup] also drops the buffers, which nobody uses
    then; that [tsCache] is gone can be seen from outside. *)
Record Source := mkSource {
  hs_base : RWBaser;
  hs_seq : Z;
  hs_info : Info;
  hs_bwriter : list Z;
  hs_btswriter : option (list Z);
  hs_muxer : Muxer;
  hs_pts : Z;
  hs_dts : Z;
  hs_stat : hls_status;
  hs_align : align;
  hs_cache : audioCache;
  hs_tsCache : option TSCacheItem;
  hs_tsparser : CodecParser;
  hs_closed : bool;
  hs_queue : list av_Packet;
  hs_open : bool
}.

#[global] Instance eta_Source : Eta Source := fun s =>
  mkSource (hs_base s) (hs_seq s) (hs_info s) (hs_bwriter s) (hs_btswriter s) (hs_muxer s) (hs_pts s) (hs_dts s) (hs_stat s) (hs_align s)
    (hs_cache s) (hs_tsCache s) (hs_tsparser s) (hs_closed s) (hs_queue s) (hs_open s).

Definition NewSource (info : Info) (now : Z) : Source :=
  mkSource (NewRWBaser 10000000000 now) 0 (mkInfo (info_Key info) (info_URL info) (info_UID info) true) (replicate (Z.to_nat (100 * 1024)) 0) None
    NewMuxer 0 0 newStatus (mkAlign 0 0) newAudioCache (Some (NewTSCacheItem (info_Key info))) NewCodecParser false [] true.

Abbreviation HlsM := (GoM Source).

Definition hls_DropPacket : GoM (list av_Packet) unit := drop_rounds (Z.to_nat (hls_maxQueueNum - 84)) hls_maxQueueNum.

Definition on_hls_queue (m : GoM (list av_Packet) unit) : HlsM unit := fun s =>
  let '(r, q) := m (hs_queue s) in (r, s <| hs_queue := q |>).

(** As with [VirWriter], the queue is closed only where [closed] is set. *)
Definition hls_Write (now : Z) (p : av_Packet) : HlsM unit :=
  s ← getS;
  if hs_closed s then fail (errors_New "hls source closed")
  else
    modifyS (fun s => s <| hs_base := SetPreTime now (hs_base s) |>);;
    if hls_maxQueueNum - 24 <=? zlen (hs_queue s) then on_hls_queue hls_DropPacket
    else on_hls_queue (chan_send hls_maxQueueNum p).

(** [muxer.Mux(p, btswriter)] *)
Definition hls_Mux (p : av_Packet) : HlsM unit := fun s =>
  match hs_btswriter s with
  | Some b => let '(r, (m, b)) := Mux p (hs_muxer s, b) in (r, s <| hs_muxer := m |> <| hs_btswriter := Some b |>)
  | None => panic "nil pointer dereference" s
  end.

Definition muxAudio (limit : Z) : HlsM unit :=
  s ← getS;
  if ac_num (hs_cache s) <? limit then mret tt
  else
    let '(_, pts, buf, cache) := ac_GetFrame (hs_cache s) in
    putS (s <| hs_cache := cache |>);;
    hls_Mux (mk_av_Packet false false false (u32 (pts / h264_default_hz)) 0 None buf).

Definition flushAudio : HlsM unit := muxAudio 1.

Definition tsMux (p : av_Packet) : HlsM unit :=
  if pkt_IsVideo p then hls_Mux p
  else
    modifyS (fun s => s <| hs_cache := ac_Cache (pkt_Data p) (hs_pts s) (hs_cache s) |>);;
    muxAudio cache_max_frames.

(** The tables at the start of a segment. *)
Definition write_tables : HlsM unit := fun s =>
  match (pat ← PAT; pmt ← PMT SOUND_AAC true; mret (pat, pmt)) (hs_muxer s) with
  | (Ok (pat, pmt), m) => (Ok tt, s <| hs_muxer := m |> <| hs_btswriter := option_map (fun b => b ++ pat ++ pmt) (hs_btswriter s) |>)
  | (Err e, m) => (Err e, s <| hs_muxer := m |>)
  | (Panic q, m) => (Panic q, s <| hs_muxer := m |>)
  end.

(** The name of a segment that ends at [now]. *)
Definition segment_name (key : list Z) (now : Z) : list Z :=
  bytes_of "/" ++ key ++ bytes_of "/" ++ print_int (now / 1000000000) ++ bytes_of ".ts".

(** The end of a segment. *)
Definition end_segment (now : Z) : HlsM unit :=
  ignore_error flushAudio;;
  s ← getS;
  let filename := segment_name (info_Key (hs_info s)) now in
  let item := mkTSItem filename (hs_seq s + 1) (durationMs (hs_stat s)) (default [] (hs_btswriter s)) in
  match hs_tsCache s with
  | None => panic "nil pointer dereference"
  | Some c => putS (s <| hs_seq := hs_seq s + 1 |> <| hs_tsCache := Some (SetItem filename item c) |> <| hs_btswriter := Some [] |>
                      <| hs_stat := resetAndNew (hs_stat s) |>)
  end.

Definition hls_cut (now : Z) : HlsM unit :=
  s ← getS;
  match hs_btswriter s with
  | None => putS (s <| hs_btswriter := Some [] |>);; write_tables
  | Some _ => if hls_duration <=? durationMs (hs_stat s) then end_segment now;; write_tables else mret tt
  end.

(** [tsparser.Parse(p, bwriter)] *)
Definition hls_Parse (p : av_Packet) : HlsM unit := fun s =>
  let '(r, (c, w)) := cp_Parse p (hs_tsparser s, hs_bwriter s) in (r, s <| hs_tsparser := c |> <| hs_bwriter := w |>).

(** [parse]: the composition time, whether [p] is a header, and [p] with its new data. *)
Definition hls_parse (now : Z) (p : av_Packet) : HlsM (Z * bool * av_Packet) :=
  match pkt_Header p with
  | None => panic "interface conversion"
  | Some h =>
      let frame compositionTime :=
        modifyS (fun s => s <| hs_bwriter := [] |>);;
        hls_Parse p;;
        s ← getS;
        let p := p <| pkt_Data := hs_bwriter s |> in
        (if pkt_IsVideo p && IsKeyFrame h then hls_cut now else mret tt);;
        mret (compositionTime, false, p) in
      if pkt_IsVideo p then
        guard (tag_codecID h =? VIDEO_H264) ErrNoSupportVideoCodec;;
        if IsKeyFrame h && IsSeq h then hls_Parse p;; mret (tag_compositionTime h, true, p) else frame (tag_compositionTime h)
      else
        guard (tag_soundFormat h =? SOUND_AAC) ErrNoSupportAudioCodec;;
        if tag_aacPacketType h =? AAC_SEQHDR then hls_Parse p;; mret (0, true, p) else frame 0
  end.

Definition calcPtsDts (isVideo : bool) (ts compositionTs : Z) : HlsM unit :=
  modifyS (fun s => s <| hs_dts := u64 (ts * h264_default_hz) |>);;
  if isVideo then modifyS (fun s => s <| hs_pts := u64 (hs_dts s + u64 (compositionTs * h264_default_hz)) |>)
  else
    s ← getS;
    let '(r, c) := cp_SampleRate (hs_tsparser s) in
    let sampleRate := match r with Ok rate => rate | _ => 0 end in
    putS (s <| hs_tsparser := c |>);;
    if sampleRate =? 0 then panic "integer divide by zero"
    else
      s ← getS;
      let '(r, a) := align_dts (hs_dts s) (u32 (Z.quot (videoHZ * aacSampleLen) sampleRate)) (hs_align s) in
      dts ← lift r;
      putS (s <| hs_align := a |> <| hs_dts := dts |> <| hs_pts := dts |>).

(** What [SendPacket] does with a packet: the packet as it leaves it. *)
Definition hls_packet (now : Z) (p : av_Packet) : HlsM av_Packet :=
  if pkt_IsMetadata p then mret p
  else
    match Demux p with
    | Err e => if decide (e = ErrAvcEndSEQ) then mret p else fail e
    | Panic q => panic q
    | Ok p =>
        fun s =>
          match hls_parse now p s with
          | (Err _, s) => (Ok p, s)
          | (Panic q, s) => (Panic q, s)
          | (Ok (compositionTime, isSeq, p), s) =>
              (s ← getS;
               if isSeq then mret p
               else match hs_btswriter s with
                    | None => mret p
                    | Some _ =>
                        modifyS (fun s => s <| hs_stat := sta_update (pkt_IsVideo p) (pkt_TimeStamp p) (hs_stat s) |>);;
                        calcPtsDts (pkt_IsVideo p) (pkt_TimeStamp p) (u32 compositionTime);;
                        ignore_error (tsMux p);;
                        mret p
                    end) s
          end
    end.

(** One round of [SendPacket]; an error closes the source, a panic only ends the sender. *)
Definition hls_send (now : Z) : HlsM unit := fun s =>
  let ends e := (Err e, s <| hs_closed := true |>) in
  if hs_closed s then ends (errors_New "closed")
  else
    match hs_queue s with
    | [] => if hs_open s then asleep s else ends (errors_New "closed")
    | p :: q =>
        match hls_packet now p (s <| hs_queue := q |>) with
        | (Ok _, s) => (Ok tt, s)
        | (Err e, s) => (Err e, s <| hs_closed := true |>)
        | (Panic m, s) => (Panic m, s)
        end
    end.

Definition hls_Close (hls_keep_after_end : bool) (s : Source) : Source :=
  (if negb (hs_closed s) && negb hls_keep_after_end then s <| hs_open := false |> <| hs_btswriter := None |> <| hs_tsCache := None |> else s)
    <| hs_closed := true |>.

(** ** hls.go *)

Definition ErrNoPublisher : error := errors_New "no publisher".
Definition slash : Z := 47.
Definition dot : Z := 46.

Abbreviation hls_conns := (gmap (list Z) Source) (only parsing).

Definition hls_GetWriter (info : Info) (now : Z) (conns : hls_conns) : Source * hls_conns :=
  match conns !! info_Key info with
  | Some s => (s, conns)
  | None => (NewSource info now, <[info_Key info := NewSource info now]> conns)
  end.

(** One round of [checkStop]. *)
Definition hls_checkStop (now : Z) (hls_keep_after_end : bool) (conns : hls_conns) : hls_conns :=
  filter (fun x => rwb_Alive now (hs_base x.2) || hls_keep_after_end = true) conns.

(** [strings.TrimLeft(s, "/")], [strings.SplitN(s, "/", n)], the part of [s] before [sep] and
    [path.Ext(s)]. *)
Fixpoint trim_slashes (s : list Z) : list Z :=
  match s with c :: s' => if c =? slash then trim_slashes s' else s | [] => [] end.

Fixpoint split_slash (n : nat) (s cur : list Z) : list (list Z) :=
  match n, s with
  | 1%nat, _ => [cur ++ s]
  | _, [] => [cur]
  | _, c :: s => if c =? slash then cur :: split_slash (n - 1) s [] else split_slash n s (cur ++ [c])
  end.

Fixpoint before (sep s : list Z) : list Z :=
  match s with
  | [] => []
  | c :: s' => if bool_decide (take (length sep) s = sep) then [] else c :: before sep s'
  end.

(** Backwards from the end, down to a dot in the last element. *)
Fixpoint ext_of (rev_path ext : list Z) : list Z :=
  match rev_path with
  | [] => []
  | c :: r => if c =? slash then [] else if c =? dot then dot :: ext else ext_of r (c :: ext)
  end.
Definition path_Ext (s : list Z) : list Z := ext_of (reverse s) [].

(** [path.Base]; that of a path without elements does not matter. *)
Definition path_Base (s : list Z) : list Z := reverse (before [slash] (trim_slashes (reverse s))).

Definition parseM3u8 (pathstr : list Z) : list Z :=
  let pathstr := trim_slashes pathstr in before (path_Ext pathstr) pathstr.

(** The error is not looked at: the key is empty then. *)
Definition parseTs (pathstr : list Z) : list Z :=
  match split_slash 3 (trim_slashes pathstr) [] with
  | [app; name; _] => app ++ [slash] ++ name
  | _ => []
  end.

Inductive Response := CrossDomain | PlayList (body : list Z) | Segment (body : list Z) | HttpError (e : error) (code : Z) | Nothing.

Definition hls_handle (urlPath : list Z) (conns : hls_conns) : outcome Response :=
  if decide (path_Base urlPath = bytes_of "crossdomain.xml") then Ok CrossDomain
  else if decide (path_Ext urlPath = bytes_of ".m3u8") then
    Ok match conns !! parseM3u8 urlPath with
       | None => HttpError ErrNoPublisher 403
       | Some conn => match hs_tsCache conn with None => HttpError ErrNoPublisher 403 | Some c => PlayList (GenM3U8PlayList c) end
       end
  else if decide (path_Ext urlPath = bytes_of ".ts") then
    match conns !! parseTs urlPath with
    | None => Ok (HttpError ErrNoPublisher 403)
    | Some conn =>
        match hs_tsCache conn with
        | None => Panic "nil pointer dereference"
        | Some c => match GetItem urlPath c with Ok item => Ok (Segment (tsi_Data item)) | Err e => Ok (HttpError e 400) | Panic s => Panic s end
        end
    end
  else Ok Nothing.

(** ** Whole packets *)

(** What a piece of code does to the state, however it ends. *)
Definition preserves {S A} (I : S -> Prop) (m : GoM S A) : Prop := forall s, I s -> I (snd (m s)).

Create HintDb preserve discriminated.

Section Preserve.
Context {S : Type} (I : S -> Prop).

Lemma preserves_ret {A} (a : A) : preserves I (mret a).
Proof. by intros s Hs. Qed.
Lemma preserves_get : preserves I getS.
Proof. by intros s Hs. Qed.
Lemma preserves_lift {A} (r : outcome A) : preserves I (lift r).
Proof. by intros s Hs. Qed.
Lemma preserves_panic {A} q : preserves I (panic q : GoM S A).
Proof. by intros s Hs. Qed.
Lemma preserves_fail {A} e : preserves I (fail e : GoM S A).
Proof. by intros s Hs. Qed.
Lemma preserves_guard b e : preserves I (guard b e).
Proof. unfold guard. destruct b; [apply preserves_ret|apply preserves_fail]. Qed.
Lemma preserves_modify f : (forall s, I s -> I (f s)) -> preserves I (modifyS f).
Proof. intros Hf s Hs. by apply Hf. Qed.
Lemma preserves_bind {A B} (m : GoM S A) (k : A -> GoM S B) : preserves I m -> (forall a, preserves I (k a)) -> preserves I (m ≫= k).
Proof.
  intros Hm Hk s Hs. unfold mbind, GoM_bind. specialize (Hm s Hs). destruct (m s) as [[a|e|q] s']; [by apply Hk|done|done].
Qed.
(** For code that looks at the state first. *)
Lemma preserves_get_bind {B} (k : S -> GoM S B) : (forall s, I s -> I (snd (k s s))) -> preserves I (getS ≫= k).
Proof. intros Hk s Hs. by apply Hk. Qed.
Lemma preserves_ignore (m : GoM S unit) : preserves I m -> preserves I (ignore_error m).
Proof. intros Hm s Hs. specialize (Hm s Hs). unfold ignore_error. by destruct (m s) as [[a|e|q] s']. Qed.
Lemma preserves_if {A} (b : bool) (m n : GoM S A) : preserves I m -> preserves I n -> preserves I (if b then m else n).
Proof. by destruct b. Qed.
End Preserve.

#[export] Hint Resolve preserves_ret preserves_get preserves_lift preserves_panic preserves_fail preserves_guard preserves_bind preserves_ignore preserves_if : preserve.

(** The packet of a muxer. *)
Definition whole (a : list Z) : Prop := length a = 188%nat.

Lemma whole_set_at i v : preserves whole (set_at i v).
Proof. intros a Ha. unfold set_at. destruct (a !! Z.to_nat i); [|done]. unfold whole. cbn. by rewrite length_insert. Qed.
Lemma whole_at_index (a : list Z) i : preserves whole (at_index a i).
Proof. intros b Hb. unfold at_index. by destruct (a !! i). Qed.
Lemma whole_or_at i v : preserves whole (or_at i v).
Proof. unfold or_at. auto using whole_at_index, whole_set_at with preserve. Qed.

Lemma whole_copy_into i src : preserves whole (copy_into i src).
Proof.
  intros a Ha. unfold copy_into. rewrite (run_bind_ok _ _ a a a) by done. unfold slice_of. destruct ((i <=? zlen a) && (zlen a <=? zlen a)) eqn:E; [|done].
  apply andb_prop in E as [Hi _]. apply Z.leb_le in Hi. unfold whole, zlen in *.
  change (length (copy_to a i src) = 188%nat). unfold copy_to, copy_at. rewrite !length_app, !length_take, length_drop. lia.
Qed.

Ltac preserve := repeat
  lazymatch goal with
  | |- preserves _ (_ ≫= _) => apply preserves_bind; [|intros ?]
  | |- preserves _ (if _ then _ else _) => apply preserves_if
  | |- preserves _ (match ?x with _ => _ end) => destruct x
  | |- preserves whole (set_at _ _) => apply whole_set_at
  | |- preserves whole (or_at _ _) => apply whole_or_at
  | |- preserves whole (copy_into _ _) => apply whole_copy_into
  | |- preserves _ (modifyS _) => fail
  | |- preserves _ _ => solve [auto with preserve]
  end.

Lemma whole_fill_packet isKey pid cc dts pes data l : preserves whole (fill_packet isKey pid cc dts pes data l).
Proof.
  unfold fill_packet. apply preserves_bind; [unfold packet_header, writePcr; preserve|intros i].
  apply preserves_bind; [|intros [dataLen j]; apply preserves_bind; [unfold copy_pes; preserve|intros [[k n] l']; unfold copy_data; preserve]].
  unfold packet_stuffing, adaptationBufInit. preserve. apply preserves_modify. intros b Hb. unfold whole in *.
  rewrite length_app, length_map, length_take, length_drop. lia.
Qed.

(** The muxer writes whole packets. *)
Definition blocks (w w' : list Z) : Prop := exists packets, w' = w ++ concat packets /\ Forall whole packets.

Lemma blocks_refl w : blocks w w.
Proof. exists []. by rewrite app_nil_r. Qed.

Lemma blocks_trans a b c : blocks a b -> blocks b c -> blocks a c.
Proof. intros (p & -> & Hp) (q & -> & Hq). exists (p ++ q). rewrite concat_app, app_assoc. split; [done|by apply Forall_app]. Qed.

Lemma mux_loop_blocks fuel : forall isVideo isKey pid dts pes data l w0,
  preserves (fun '(m, w) => mux_ok m /\ blocks w0 w) (mux_loop fuel isVideo isKey pid dts pes data l).
Proof.
  induction fuel as [|fuel IH]; intros isVideo isKey pid dts pes data l w0; cbn [mux_loop]; apply preserves_if; auto with preserve.
  apply preserves_bind; [apply preserves_modify|intros _].
  { intros [m w] [Hm Hw]. split; [|done]. destruct Hm. pose proof (next_cc_range _ mk_videoCc). pose proof (next_cc_range _ mk_audioCc). destruct isVideo; by constructor. }
  apply preserves_bind; [auto with preserve|intros [m0 w1]]. apply preserves_bind; [|intros l'].
  { intros [m w] [Hm Hw]. unfold on_tsPacket. pose proof (whole_fill_packet isKey pid (if isVideo then mux_videoCc m0 else mux_audioCc m0) dts pes data l (mux_tsPacket m) (mk_packet _ Hm)) as Hf.
    destruct (fill_packet _ _ _ _ _ _ _ _) as [r a]. cbn [snd] in *. split; [|done]. destruct Hm. by constructor. }
  apply preserves_bind; [apply preserves_modify|intros _; apply IH]. intros [m w] [Hm Hw]. split; [done|]. apply (blocks_trans _ w); [done|].
  exists [mux_tsPacket m]. split; [cbn; by rewrite app_nil_r|]. constructor; [apply (mk_packet _ Hm)|done].
Qed.

Lemma Mux_blocks p m w : mux_ok m -> let '(_, (m', w')) := Mux p (m, w) in mux_ok m' /\ blocks w w'.
Proof.
  intros Hm. assert (H : preserves (fun '(m, w') => mux_ok m /\ blocks w w') (Mux p)).
  { unfold Mux. apply preserves_bind; [preserve|intros [pts isKey]; apply mux_loop_blocks]. }
  specialize (H (m, w) (conj Hm (blocks_refl w))). by destruct (Mux p (m, w)) as [r [m' w']].
Qed.

(** ** Segments *)

(** A segment begins with the two tables, with their checksums, and goes on in whole packets. *)
Definition segment_ok (b : list Z) : Prop :=
  exists c1 c2 pat pmt, table_ok 0 c1 pat /\ table_ok 0x1001 c2 pmt /\ blocks (pat ++ pmt) b.

Definition item_ok (seq : Z) (ll : list (list Z)) (key : list Z) (item : TSItem) : Prop :=
  key ∈ ll /\ tsi_Name item = key /\ hls_duration <= tsi_Duration item /\ tsi_SeqNum item <= seq /\ segment_ok (tsi_Data item).

Record cache_ok (seq : Z) (c : TSCacheItem) : Prop := {
  co_num : tc_num c = 3%nat;
  co_len : (length (tc_ll c) <= 3)%nat;
  co_items : map_Forall (item_ok seq (tc_ll c)) (tc_lm c)
}.

(** [seg] is what is known of the segment that is being written. *)
Record source_with (seg : list Z -> Prop) (s : Source) : Prop := {
  so_mux : mux_ok (hs_muxer s);
  so_segment : forall b, hs_btswriter s = Some b -> seg b;
  so_cache : forall c, hs_tsCache s = Some c -> cache_ok (hs_seq s) c
}.
Abbreviation source_ok := (source_with segment_ok).

Lemma SetItem_ok seq c key item : cache_ok seq c -> item_ok (seq + 1) [key] key item -> cache_ok (seq + 1) (SetItem key item c).
Proof.
  intros [Hn Hl Hi] (_ & Hname & Hd & Hs & Hseg).
  assert (Hold : forall k v ll, tc_lm c !! k = Some v -> (k ∈ ll \/ k = key) -> item_ok (seq + 1) (ll ++ [key]) k v).
  { intros k v ll Hk Hin. destruct (Hi k v Hk) as (_ & Hv & Hdv & Hsv & Hgv). split; [set_solver|]. split; [done|]. split; [done|]. split; [lia|done]. }
  assert (Hnew : forall ll, item_ok (seq + 1) (ll ++ [key]) key item) by (intros ll; split; [set_solver|done]).
  unfold SetItem. destruct (tc_ll c) as [|k0 ll] eqn:El; [|case_bool_decide as E]; (constructor; [exact Hn|cbn [tc_ll]; rewrite length_app; simpl in *; lia|]);
    cbn [tc_ll tc_lm]; (intros k v [[<- <-]|[Hne Hk]]%lookup_insert_Some; [exact (Hnew _)|]).
  - apply Hold; [done|]. destruct (Hi k v Hk) as (Hin & _). set_solver.
  - apply lookup_delete_Some in Hk as [Hk0 Hk]. apply Hold; [done|]. destruct (Hi k v Hk) as (Hin & _). set_solver.
  - apply Hold; [done|]. destruct (Hi k v Hk) as (Hin & _). by left.
Qed.

Lemma source_weaken seg s f : source_with seg s -> hs_muxer (f s) = hs_muxer s -> hs_btswriter (f s) = hs_btswriter s ->
  hs_tsCache (f s) = hs_tsCache s -> hs_seq (f s) = hs_seq s -> source_with seg (f s).
Proof. intros [Hm Hb Hc] Em Eb Ec Es. constructor; rewrite ?Em, ?Eb, ?Ec, ?Es; done. Qed.

(** What goes on while a segment is written. *)
Lemma hls_Mux_ok p : preserves source_ok (hls_Mux p).
Proof.
  intros s Hs. pose proof Hs as [Hm Hb Hc]. unfold hls_Mux. destruct (hs_btswriter s) as [b|] eqn:Eb; [|exact Hs].
  pose proof (Mux_blocks p (hs_muxer s) b Hm) as H. destruct (Mux p (hs_muxer s, b)) as [r [m b']]. destruct H as [Hm' Hbl].
  constructor; [done| |done]. intros b'' [= <-]. destruct (Hb b eq_refl) as (c1 & c2 & pat & pmt & Hp1 & Hp2 & Hbs).
  exists c1, c2, pat, pmt. split; [done|]. split; [done|]. by apply (blocks_trans _ b).
Qed.

Lemma muxAudio_ok limit : preserves source_ok (muxAudio limit).
Proof.
  apply preserves_get_bind. intros s Hs. destruct (ac_num (hs_cache s) <? limit); [done|]. cbn [ac_GetFrame].
  apply (preserves_bind source_ok (putS _) _); [|intros _; apply hls_Mux_ok|done]. intros s' _. by apply (source_weaken segment_ok s (fun s => s <| hs_cache := _ |>)).
Qed.

Lemma source_modify f : (forall s, hs_muxer (f s) = hs_muxer s /\ hs_btswriter (f s) = hs_btswriter s /\ hs_tsCache (f s) = hs_tsCache s /\ hs_seq (f s) = hs_seq s) ->
  preserves source_ok (modifyS f).
Proof. intros Hf. apply preserves_modify. intros s Hs. destruct (Hf s) as (? & ? & ? & ?). by apply source_weaken. Qed.

Lemma tsMux_ok p : preserves source_ok (tsMux p).
Proof. unfold tsMux. apply preserves_if; [apply hls_Mux_ok|]. apply preserves_bind; [by apply source_modify|intros _; apply muxAudio_ok]. Qed.

(** The tables are written to a segment that is empty. *)
Lemma write_tables_ok s : source_with (fun b => b = []) s -> source_ok (snd (write_tables s)).
Proof.
  intros [Hm Hb Hc]. unfold write_tables. destruct (tables_ok (hs_muxer s) SOUND_AAC true Hm) as (pat & pmt & m & E & Hm' & Hp1 & Hp2 & _). rewrite E.
  constructor; [done| |done]. cbn. destruct (hs_btswriter s) as [b|] eqn:Eb; [|done]. intros b' [= <-]. rewrite (Hb b eq_refl).
  exists (next_table (mux_patCc (hs_muxer s))), (next_table (mux_pmtCc (hs_muxer s))), pat, pmt. split; [done|]. split; [done|]. apply blocks_refl.
Qed.

Lemma end_segment_ok now s : source_ok s -> hls_duration <= durationMs (hs_stat s) -> hs_btswriter s <> None ->
  match end_segment now s with
  | (Ok _, s') => source_with (fun b => b = []) s'
  | (_, s') => source_ok s'
  end.
Proof.
  intros Hs Hd Hb. unfold end_segment. pose proof (preserves_ignore source_ok flushAudio (muxAudio_ok 1) s Hs) as Hs1.
  assert (Hstat : hs_stat (snd (ignore_error flushAudio s)) = hs_stat s /\ (hs_btswriter (snd (ignore_error flushAudio s)) <> None)).
  { unfold ignore_error, flushAudio, muxAudio. rewrite (run_bind_ok _ _ s s s) by done. destruct (ac_num (hs_cache s) <? 1); [done|]. cbn [ac_GetFrame].
    rewrite (run_bind_ok _ _ s tt (s <| hs_cache := mkAudioCache 0 (ac_offset (hs_cache s)) (ac_pts (hs_cache s)) (ac_buf (hs_cache s)) |>)) by done.
    unfold hls_Mux. cbn [hs_btswriter]. change (hs_btswriter (s <| hs_cache := _ |>)) with (hs_btswriter s). destruct (hs_btswriter s) as [b|]; [|done].
    destruct (Mux _ _) as [[[]|e|q] [m b']]; done. }
  unfold mbind, GoM_bind. destruct (ignore_error flushAudio s) as [[[]|e|q] s1]; cbn [snd] in *; [|done|done]. destruct Hstat as [Hst Hbt].
  unfold getS. destruct Hs1 as [Hm1 Hb1 Hc1]. destruct (hs_tsCache s1) as [c|] eqn:Ec; [|by constructor; rewrite ?Ec].
  constructor; [done|by intros b [= <-]|]. intros c' [= <-]. apply SetItem_ok; [by apply Hc1|]. destruct (hs_btswriter s1) as [b|]; [|done].
  split; [set_solver|]. split; [done|]. split; [by rewrite Hst|]. split; [cbn; lia|by apply Hb1].
Qed.

Lemma cut_ok now : preserves source_ok (hls_cut now).
Proof.
  apply preserves_get_bind. intros s Hs. destruct (hs_btswriter s) as [b|] eqn:Eb.
  - destruct (Z.leb_spec hls_duration (durationMs (hs_stat s))) as [Hd|_]; [|done].
    pose proof (end_segment_ok now s Hs Hd ltac:(congruence)) as H. unfold mbind, GoM_bind. destruct (end_segment now s) as [[[]|e|q] s1]; [by apply write_tables_ok|done|done].
  - apply write_tables_ok. destruct Hs as [Hm Hb Hc]. constructor; [done|by intros b [= <-]|done].
Qed.

Lemma hls_Parse_ok p : preserves source_ok (hls_Parse p).
Proof. intros s Hs. unfold hls_Parse. destruct (cp_Parse p _) as [r [c w]]. by apply (source_weaken segment_ok s (fun s => s <| hs_tsparser := c |> <| hs_bwriter := w |>)). Qed.

Lemma hls_parse_ok now p : preserves source_ok (hls_parse now p).
Proof.
  unfold hls_parse. destruct (pkt_Header p) as [h|]; [|auto with preserve].
  assert (Hframe : forall t : Z, preserves source_ok (modifyS (fun s => s <| hs_bwriter := [] |>);; hls_Parse p;; s ← getS;
    let p := p <| pkt_Data := hs_bwriter s |> in (if pkt_IsVideo p && IsKeyFrame h then hls_cut now else mret tt);; mret (t, false, p))).
  { intros t. apply preserves_bind; [by apply source_modify|intros _]. apply preserves_bind; [apply hls_Parse_ok|intros _].
    apply preserves_bind; [auto with preserve|intros s]. apply preserves_bind; [apply preserves_if; [apply cut_ok|]|]; auto with preserve. }
  apply preserves_if; (apply preserves_bind; [apply preserves_guard|intros _]); apply preserves_if; try apply Hframe;
    (apply preserves_bind; [apply hls_Parse_ok|auto with preserve]).
Qed.

Lemma calcPtsDts_ok isVideo ts comp : preserves source_ok (calcPtsDts isVideo ts comp).
Proof.
  unfold calcPtsDts. apply preserves_bind; [by apply source_modify|intros _]. apply preserves_if; [by apply source_modify|]. apply preserves_get_bind.
  intros s Hs. destruct (cp_SampleRate _) as [r c]. unfold mbind, GoM_bind, putS. destruct (match r with Ok _ => _ | _ => 0 end =? 0); cbn.
  - by apply (source_weaken segment_ok s (fun s => s <| hs_tsparser := c |>)).
  - unfold align_dts. destruct (_ <=? syncms * h264_default_hz); cbn; by apply (source_weaken segment_ok s (fun s => s <| hs_tsparser := c |> <| hs_align := _ |> <| hs_dts := _ |> <| hs_pts := _ |>)).
Qed.

Lemma hls_packet_ok now p : preserves source_ok (hls_packet now p).
Proof.
  unfold hls_packet. apply preserves_if; [auto with preserve|]. destruct (Demux p) as [p'|e|q]; [|case_match; auto with preserve|auto with preserve].
  intros s Hs. pose proof (hls_parse_ok now p' s Hs) as H. destruct (hls_parse now p' s) as [[[[t isSeq] p2]|e|q] s1]; [|done|done]. cbn [snd] in H.
  revert s1 H. apply preserves_get_bind. intros s1 Hs1. destruct isSeq; [done|]. destruct (hs_btswriter s1); [|done]. revert s1 Hs1.
  apply preserves_bind; [by apply source_modify|intros _]. apply preserves_bind; [apply calcPtsDts_ok|intros _].
  apply preserves_bind; [apply preserves_ignore, tsMux_ok|auto with preserve].
Qed.

(** What happens to a source; how it ends does not matter. *)
Inductive hls_event := HWrite (now : Z) (p : av_Packet) | HSend (now : Z) | HClose (keep : bool).

Definition hls_step (s : Source) (e : hls_event) : Source :=
  match e with
  | HWrite now p => snd (hls_Write now p s)
  | HSend now => snd (hls_send now s)
  | HClose keep => hls_Close keep s
  end.

Lemma NewSource_ok info now : source_ok (NewSource info now).
Proof. constructor; [exact NewMuxer_ok|done|]. intros c [= <-]. constructor; [done|simpl; lia|]. apply map_Forall_empty. Qed.

Lemma hls_step_ok e s : source_ok s -> source_ok (hls_step s e).
Proof.
  intros Hs. destruct e as [now p|now|keep]; cbn [hls_step].
  - revert s Hs. apply preserves_get_bind. intros s Hs. destruct (hs_closed s); [done|]. revert s Hs.
    assert (Hq : forall m, preserves source_ok (on_hls_queue m)).
    { intros m s Hs. unfold on_hls_queue. destruct (m (hs_queue s)) as [r q]. by apply (source_weaken segment_ok s (fun s => s <| hs_queue := q |>)). }
    intros s Hs. apply (preserves_bind source_ok (modifyS _)); [by apply source_modify|intros _; by apply preserves_if|done].
  - unfold hls_send. destruct (hs_closed s); [by apply (source_weaken segment_ok s (fun s => s <| hs_closed := true |>))|].
    destruct (hs_queue s) as [|p q]; [destruct (hs_open s); [done|by apply (source_weaken segment_ok s (fun s => s <| hs_closed := true |>))]|].
    set (s0 := s <| hs_queue := q |>). assert (H0 : source_ok s0) by by apply (source_weaken segment_ok s (fun s => s <| hs_queue := q |>)).
    pose proof (hls_packet_ok now p s0 H0) as H.
    destruct (hls_packet now p s0) as [[p'|e|m] s1]; cbn [snd] in *; [done|by apply (source_weaken segment_ok s1 (fun s => s <| hs_closed := true |>))|done].
  - unfold hls_Close. destruct (negb (hs_closed s) && negb keep); destruct Hs as [Hm Hb Hc]; by constructor.
Qed.

Lemma hls_events_ok es : forall s, source_ok s -> source_ok (foldl hls_step s es).
Proof. induction es as [|e es IH]; intros s Hs; [done|]. by apply IH, hls_step_ok. Qed.

(** C31: Whatever publishers send, and however the packets of the sources are written, sent and
    closed: a source keeps at most three segments, each of at least three seconds and under its
    own name, and every segment that a request is answered with is a transport stream on its
    own, with the two tables, their lengths and checksums, at its start and whole packets of 188
    bytes. *)
Theorem segments_whole (conns : gmap (list Z) Source) :
  map_Forall (fun _ s => exists info now es, s = foldl hls_step (NewSource info now) es) conns ->
  (forall key s c, conns !! key = Some s -> hs_tsCache s = Some c -> cache_ok (hs_seq s) c) /\
  (forall urlPath body, hls_handle urlPath conns = Ok (Segment body) -> segment_ok body).
Proof.
  intros Hconns. assert (Hok : forall key s c, conns !! key = Some s -> hs_tsCache s = Some c -> cache_ok (hs_seq s) c).
  { intros key s c Hk Hc. destruct (Hconns key s Hk) as (info & now & es & ->). by apply (hls_events_ok es _ (NewSource_ok info now)). }
  split; [done|]. intros urlPath body. unfold hls_handle. destruct (decide (path_Base urlPath = _)); [done|]. destruct (decide (path_Ext urlPath = _)).
  { destruct (conns !! parseM3u8 urlPath) as [conn|]; [destruct (hs_tsCache conn)|]; discriminate. }
  destruct (decide (path_Ext urlPath = _)); [|discriminate]. destruct (conns !! parseTs urlPath) as [conn|] eqn:Ek; [|discriminate].
  destruct (hs_tsCache conn) as [c|] eqn:Ec; [|discriminate]. unfold GetItem. destruct (tc_lm c !! urlPath) as [item|] eqn:Ei; [|discriminate].
  intros [= <-]. apply (co_items _ _ (Hok _ _ _ Ek Ec) _ _ Ei).
Qed.

(** ** The last three segments

    Under names that differ the cache has the last three segments, and lists them in order. *)
Definition last3 (l : list TSItem) : list TSItem := drop (length l - 3) l.
Definition by_name (l : list TSItem) : gmap (list Z) TSItem := list_to_map ((fun i => (tsi_Name i, i)) <$> l).

Record holds (items : list TSItem) (c : TSCacheItem) : Prop := {
  ho_num : tc_num c = 3%nat;
  ho_ll : tc_ll c = tsi_Name <$> last3 items;
  ho_lm : tc_lm c = by_name (last3 items)
}.

Lemma last3_snoc l x : last3 (l ++ [x]) = (if bool_decide (length (last3 l) = 3%nat) then tail (last3 l) else last3 l) ++ [x].
Proof.
  unfold last3. rewrite length_app, length_drop. cbn [length]. case_bool_decide as H.
  - replace (length l + 1 - 3)%nat with (S (length l - 3)) by lia. rewrite drop_app_le by lia. f_equal.
    assert (Ht : forall l' : list TSItem, tail l' = drop 1 l') by by intros []. by rewrite Ht, drop_drop, Nat.add_1_r.
  - replace (length l + 1 - 3)%nat with 0%nat by lia. by replace (length l - 3)%nat with 0%nat by lia.
Qed.

Lemma by_name_snoc l x : tsi_Name x ∉ tsi_Name <$> l -> by_name (l ++ [x]) = <[tsi_Name x := x]> (by_name l).
Proof. intros Hx. unfold by_name. rewrite fmap_app. apply list_to_map_snoc. by rewrite <- list_fmap_compose. Qed.

Lemma SetItem_holds items c x : holds items c -> NoDup (tsi_Name <$> (last3 items ++ [x])) -> holds (items ++ [x]) (SetItem (tsi_Name x) x c).
Proof.
  intros [Hn Hl Hm] Hd. rewrite fmap_app, NoDup_app in Hd. destruct Hd as (Hd & Hx & _).
  assert (Hx' : tsi_Name x ∉ tsi_Name <$> last3 items) by (intros Hin; apply (Hx _ Hin); set_solver).
  unfold SetItem. rewrite Hl, Hm, Hn. constructor; rewrite ?last3_snoc; destruct (last3 items) as [|y l]; cbn [fmap list_fmap tail].
  all: try (case_bool_decide as E; cbn [tc_num tc_ll tc_lm]; cbn [fmap list_fmap length] in E; rewrite ?length_fmap in E).
  all: try done.
  all: rewrite ?fmap_app; cbn [length]; rewrite ?bool_decide_true, ?bool_decide_false by (rewrite ?length_fmap in *; congruence); try done.
  - rewrite by_name_snoc by set_solver. f_equal. apply NoDup_cons in Hd as [Hy _]. apply delete_insert_id, not_elem_of_list_to_map_1.
    by rewrite <- list_fmap_compose.
  - by rewrite by_name_snoc.
Qed.

(** Segments whose names differ: the last three are found under their names, others are not,
    and the playlist has the last three. *)
Lemma last_three_kept id items : NoDup (tsi_Name <$> items) ->
  let c := foldl (fun c x => SetItem (tsi_Name x) x c) (NewTSCacheItem id) items in
  (forall x, x ∈ last3 items -> GetItem (tsi_Name x) c = Ok x) /\
  (forall k, k ∉ tsi_Name <$> last3 items -> GetItem k c = Err ErrNoKey) /\
  omap (fun key => tc_lm c !! key) (tc_ll c) = last3 items.
Proof.
  intros Hd c. assert (Hsub : forall l, NoDup (tsi_Name <$> l) -> NoDup (tsi_Name <$> last3 l)) by (intros l Hl; unfold last3; rewrite fmap_drop; exact (sublist_NoDup _ _ Hl (sublist_drop _ _))).
  assert (Hh : holds items c).
  { unfold c. clear c. induction items as [|x items IH] using rev_ind; [by constructor|]. rewrite foldl_app. cbn [foldl]. rewrite fmap_app in Hd.
    pose proof Hd as (Hd1 & Hx & _)%NoDup_app. apply SetItem_holds; [by apply IH|]. rewrite fmap_app. apply NoDup_app. split; [by apply Hsub|].
    split; [|apply NoDup_singleton]. intros k Hk. apply Hx. unfold last3 in Hk. rewrite fmap_drop in Hk. rewrite <- (take_drop (length items - 3) (tsi_Name <$> items)). set_solver. }
  destruct Hh as [_ Hl Hm]. specialize (Hsub items Hd). set (l := last3 items) in *. clearbody l.
  assert (Hin : forall x, x ∈ l -> by_name l !! tsi_Name x = Some x).
  { intros x Hx. unfold by_name. apply elem_of_list_to_map_1; [by rewrite <- list_fmap_compose|]. apply list_elem_of_fmap. by exists x. }
  unfold GetItem. rewrite Hl, Hm. split; [intros x Hx; by rewrite Hin|]. split.
  - intros k Hk. unfold by_name. rewrite not_elem_of_list_to_map_1; [done|]. by rewrite <- list_fmap_compose.
  - clear -Hin. assert (H : forall l', l' ⊆ l -> omap (fun key => by_name l !! key) (tsi_Name <$> l') = l').
    { induction l' as [|x l' IH]; intros Hs; [done|]. cbn. rewrite Hin by set_solver. f_equal. apply IH. set_solver. }
    by apply H.
Qed.

(** ** An example *)

Definition video_packet (time : Z) (data : list Z) : av_Packet := mk_av_Packet false true false time 1 None data.
Definition config_packet : av_Packet := video_packet 0 ([0x17; 0; 0; 0; 0] ++ sample_config_record).
Definition key_packet (time : Z) : av_Packet := video_packet time ([0x17; 1; 0; 0; 0] ++ [0; 0; 0; 200] ++ [0x65] ++ replicate 199 1).

(** A configuration and three key frames, the second and the third three seconds later each: the
    third ends the first segment. *)
Definition hls_sample_events : list hls_event :=
  [HWrite 0 config_packet; HSend 0; HWrite 0 (key_packet 0); HSend 0; HWrite 3 (key_packet 3000); HSend 3;
   HWrite 6 (key_packet 6000); HSend 1700000000000000000].
Definition sample_source : Source := foldl hls_step (NewSource (mkInfo (bytes_of "live/movie") [] [] false) 0) hls_sample_events.
Definition sample_conns : gmap (list Z) Source := {[ bytes_of "live/movie" := sample_source ]}.
Definition hls_sample_path : list Z := bytes_of "/live/movie/1700000000.ts".

Lemma segments_whole_witness :
  exists body, hls_handle hls_sample_path sample_conns = Ok (Segment body) /\ length body = (6 * 188)%nat /\ segment_ok body.
Proof.
  exists (match hls_handle hls_sample_path sample_conns with Ok (Segment body) => body | _ => [] end). split; [vm_compute; reflexivity|]. split; [vm_compute; reflexivity|].
  apply (proj2 (segments_whole sample_conns ltac:(apply map_Forall_singleton; eexists _, _, _; reflexivity)) hls_sample_path).
  vm_compute. reflexivity.
Defined.

(** ** What may go wrong *)

(** Two segments that end in the same second have the same name: when the first leaves the cache
    the second is gone, too, although it is still listed. *)
Lemma same_name_lost id k k2 k3 a b c d : k <> k2 -> k <> k3 ->
  let cache := SetItem k3 d (SetItem k2 c (SetItem k b (SetItem k a (NewTSCacheItem id)))) in
  tc_ll cache = [k; k2; k3] /\ GetItem k cache = Err ErrNoKey.
Proof.
  intros H2 H3. split; [done|]. unfold GetItem. cbn [SetItem NewTSCacheItem tc_ll tc_lm tc_num length maxTSCacheNum].
  change (match <[k3 := d]> (delete k (<[k2 := c]> (<[k := b]> (<[k := a]> (∅ : gmap (list Z) TSItem))))) !! k with Some item => Ok item | None => Err ErrNoKey end = Err ErrNoKey).
  by rewrite lookup_insert_ne, lookup_delete_eq by done.
Qed.

(** A segment of a source that was closed is asked for. *)
Lemma closed_source_panics : hls_handle hls_sample_path {[ bytes_of "live/movie" := hls_Close false sample_source ]} = Panic "nil pointer dereference".
Proof. vm_compute. reflexivity. Qed.

(** The source changes the packet that it is given, which may be one of the cache. *)
Lemma packet_changed : exists p, fst (hls_packet 0 (key_packet 0) sample_source) = Ok p /\ pkt_Data p <> pkt_Data (key_packet 0).
Proof. eexists. split; [vm_compute; reflexivity|]. vm_compute. discriminate. Qed.
